(* ===== verification/_CoqProject ===== *)
-Q . S2P
Prelude.v
Defs.v
Alloc.v
Libc.v
Granule.v
GranuleInv.v
GranuleSpec.v
Host.v
Rmi.v
RealmMap.v
RealmLife.v
RecExit.v
RmiFacts.v
RmmSpec.v
Tracks.v
Mirror.v
Rollback.v
HostFacts.v
MapFacts.v
LifeFacts.v
ExitFacts.v
Pcie.v
PcieEnum.v
PcieFacts.v
PcieBars.v
Exer.v
ExerFacts.v
Rhi.v
RhiFacts.v
Doe.v
DoeFacts.v
Da.v
RhiDa.v
Crypto.v
DaSetup.v
DaFacts.v
Mp.v
MpFacts.v
Shared.v
SharedFacts.v
Dispatch.v
DispatchFacts.v
Realm.v
RealmFacts.v
DevReport.v
Machine.v
Gic.v
Irq.v
GicDev.v
GicFacts.v
IrqFacts.v
GicSave.v
Drivers.v
DriverFacts.v
Xlat.v
XlatFacts.v
XlatList.v
XlatInit.v
XlatAttrs.v
XlatChange.v
XlatMaps.v
XlatBoot.v
XlatSecure.v
Start.v
StartFacts.v
