(* ===== verification/Prelude.v ===== *)
(** * Verification of the host side of the Arm CCA RMM Architecture Compliance Suite

    The suite tests a Realm Management Monitor (RMM).  A test runs in the Normal
    world as the host: it issues RMI commands by SMC, creates Realms, gives them
    memory and RECs, runs them and checks what the RMM reports.  Because a test
    may stop anywhere, the suite tracks the state of every granule it touched
    and rolls everything back after each test.  This development models that
    host side and proves what it promises, for every RMM.

    ** Parts of the program, files of the development

    - [Prelude]: the monad of C code.  A stateful function is a function from the
      state to an [outcome]: [Ok] with the result and the state, [Fault] for a
      null or wild dereference, an index out of range or VAL_PANIC, [NoFuel] for
      a loop cut short.  [run_to] says that code ends normally in a
      postcondition, [runs F] that it ends so or with a fault allowed by [F];
      neither is satisfied by a loop that does not end.  Machine integers are
      integers with the wrap-around written out ([u8], [u16], [u32], [u64]).
    - [Defs]: constants and macros of val_rmm.h, val.h, val_def.h, val_mmu.h,
      val_host_realm.h and, for the memory map, of the FVP target.
    - [Alloc] (val_host_alloc.c): the bump allocator ([heap_base], [heap_top],
      [curr_vmid] as the record [alloc_state]).
    - [Libc] (val_libc.c, pal_libc.c): module [Mem], byte routines over a finite
      map from addresses to bytes; module [Str], [val_strcat] and [val_strcmp];
      module [Fmt], [val_vsnprintf] writing through a bounded sink.  Their facts
      are in [MemFacts], [StrFacts] and [FmtFacts], the last against the
      reference formatter [FmtSpec].
    - [Granule] (the tracker of val_host_realm.c): the record [gstate] holds
      [mem_track], [head], [tail], [current_realm], the allocator and a store of
      descriptors indexed by address, so lists are linked through pointers as in
      the code and aliasing is visible.  [GranuleInv] has the representation
      invariant [wf g L] (the pointers of [g] represent the abstract layout [L],
      a list of descriptors for every slot and kind) and the lemmas on walks,
      removals and insertions; [GranuleSpec] the effect of every operation on
      the layout and the theorems on sequences of calls.
    - [Host]: the class [RMM W], the interface to the monitor: [smc] maps a state
      of the world, the host's memory and the registers to a new world, a new
      memory and the registers returned.  Nothing is assumed of it except in
      theorems that say so.  The record [host] adds the world, the memory, the
      Realm structure ([val_host_realm_ts]) and a log of the commands issued.
    - [Rmi] (val_host_rmi.c): every wrapper, with the tracker update it makes on
      success.  [RmiFacts] proves them against the interface.
    - [RmmSpec]: what the RMM specification documents of granules, their states
      and, for twelve commands, when they may succeed and what they change: the
      class [Conforming] for the states of granules and, on top of it, the class
      [Documented] for the trees of tables: where the walk to an entry ends, that a
      table is destroyed only when nothing below it is live, that a page is below its
      leaf table.  The executable monitor [ledger_rmm] is an instance of both.  [Tracks] turns the linked lists into a map from the address of a
      granule to its place; [Mirror] relates this map to the states of a
      conforming monitor; [Rollback] follows the destruction of Realms and the
      postamble against such a monitor.
    - [RealmMap] (val_host_realm.c, val_host_command.c, part of
      val_host_rmi_helpers.c and val_mmu.c): creation of table levels, protected,
      unprotected, auxiliary and device mappings with their retries and
      rollbacks, RIPAS initialisation.  Facts in [MapFacts].
    - [RealmLife] (val_host_realm.c): creation of a Realm with its error labels
      (each label is a definition that runs to the end of the function), RECs,
      images and shared regions, activation, setup, destruction, postamble.
      Facts in [LifeFacts].
    - [RecExit] (val_host_rmi_helpers.c, val_host_realm.c): validation of aborts
      on the bytes of the exit structure, exit checks, [val_host_set_s2ap].
      Facts in [ExitFacts].
    - [HostFacts]: lemmas shared by the last three, and concrete hosts and RMMs
      on which the hypotheses of the theorems hold.
    - [Pcie] (val_host_pcie.c, pal_fvp_pcie.c, pal_pcie.c): configuration space over
      the class [MmioBus], the interface to memory-mapped registers; capabilities,
      status registers, base address registers, bit field compliance, the table of
      functions.  [PcieEnum] (pal_pcie_enumeration.c): enumeration and programming of
      bridges and base address registers.  [PcieFacts] and [PcieBars] prove them.
    - [Exer] (pal_fvp_exerciser.c, pal_exerciser.c, val_host_exerciser.c): parameters,
      operations and data of the PCIe exerciser over the same bus, and the table of
      exercisers.  [ExerFacts] refines the control register of its DMA engine to an
      abstract one.
    - [Rhi] (val_host_rhi.c, pal_rhi.c): sessions, firmware activity log and host
      configuration; the record [rhi] adds the globals and static locals to the host.
      [RhiFacts] refines the sessions to the protocol [Session].
    - [Doe] (val_host_doe.c): data object exchange over a pair of PCIe state and host
      memory.  [DoeFacts] runs it against the reference device [mbox], which may be busy,
      in error, or late with its response.
    - [Da] (val_host_da.c): the record [da] adds the objects of a device to host and
      PCIe.  [RhiDa] (val_host_rhi.c): the device assignment calls.  [Crypto]
      (val_crypto.c): the key of a certificate chain, over the class [Mbedtls].
      [DaSetup] (val_host_rhi_helpers.c): [da_init], [da_create_vdev].  [DaFacts]
      runs the exchange against the reference RMM [pdev_rmm], which follows the states
      of a PDEV (new, in need of a key, with a key, ready), and the device [mbox].
    - [Mp] (val_mp_supp.c, val_psci.c, val_host_mp.c, val_host_lfa.c, pal_cpu_info.c):
      numbers of cores, power control, and the counting events by which cores wait for
      each other: [mp_step] is one access of one core, [mp_run] a schedule.  [MpFacts]
      has the invariant of all schedules, a measure every step lowers, and the account
      of the tokens.
    - [Shared] (val_framework.c, val_secure_framework.c): the slots of the shared region
      over byte memory, from both sides.  [SharedFacts] proves that what one world
      writes is what the other reads.
    - [Dispatch] (val_host_framework.c): the test dispatcher, over classes for the
      status routines of a submodule ([Common]), the options of the build ([Build]) and
      a finite map for the non-volatile memory.  [DispatchFacts] follows it through the
      resets of the machine to its report.
    - [Realm] (val_realm_rsi.c, val_realm_planes.c): the Realm's wrappers of the RSI
      commands and the run loop of plane 0, over the class [RealmWorld].
      [RealmFacts] proves the loops.
    - [DevReport] (val_realm_device_assignment.c): decoding of the report of a device
      interface, against the encoder [encode_header].
    - [Machine] (pal_mmio.c, pal_arch_helpers.h): the class [Machine W] of a core with
      memory-mapped and system registers, on which the drivers run.  [Gic]
      (pal_gic_v3.c, pal_arm_gic_v3.c, pal_gic_common.c) is the driver of the
      interrupt controller, the record [gic] its globals; [Irq] (pal_irq.c, val_irq.c,
      val_exceptions.c, val_realm_exception.c) the tables of handlers and the
      dispatcher.  [GicDev] is a reference GICv3, an instance of [Machine], on which
      [GicFacts], [IrqFacts] and [GicSave] run driver and dispatcher.
    - [Drivers] (pal_pl011_uart.c, pal_driver.c, pal_sp805_watchdog.c, pal_nvm.c,
      val_timer.c, val_pmu.c, pal_smmuv3_test_engine.c): serial line and pal_printf,
      watchdogs, non-volatile memory, timers, performance monitors, the copying test
      engine.  [DriverFacts] proves them on reference devices.
    - [Xlat] (the library xlat_tables_v2 and val_mmu.c): the record [xlat] holds the list
      of regions, the words of the tables in memory, the counts of regions per table and
      the registers of the MMU; mapping, unmapping, dynamic regions, attributes.
      [XlatFacts] has the walk of the MMU ([walk]), the invariant [struct] of the words
      (a tree of tables, each counted) and what mapping does to it; [XlatList] the list
      of regions; [XlatInit] the initialisation and dynamic regions; [XlatAttrs] and
      [XlatChange] the software walk and the change of attributes.
    - [XlatMaps] (val_host_memory.c, val_realm_memory.c, val_secure_memory.c, the part of
      val_realm_main before the dispatcher): the arrays of regions of the three images
      and their contexts; the linker's addresses are the class [ImageLayout].
      [XlatBoot] runs the start of a Realm and the filling of the host's context,
      [XlatSecure] the start of the secure image's tables and MMU.
    - [Start] (val_host_framework.c, val_realm_framework.c, val_secure_framework.c,
      pal_secure_service.c): the entry points of the three images.  An image is a record
      of the states of its components ([secure_image], [realm_image], [host_image]) and
      its entry point composes their operations as the code does; the SPM between host
      and secure partition is the class [Spm].  [StartFacts] follows each image from
      reset to its tests.

    ** What the theorems show

    - Against a conforming RMM the tracker agrees with the monitor after every
      sequence of commands ([tracker_mirrors_rmm]); after every such sequence that
      leaves each page of data below its leaf table, and against a documented RMM, the
      rollback ends with every granule undelegated, or right after a command
      that met all its documented conditions and was refused ([rollback_complete]), the
      latter being impossible with an RMM that accepts what is in order
      ([rollback_succeeds]).  The order of the teardown is what makes both true: pages
      before tables, tables from the leaves to the root, the Realm last.
    - Tracker, alone: any sequence of calls from program start keeps every list
      null-terminated, acyclic and disjoint from the others and never follows a
      wild pointer ([tracker_calls_safe]); assigning and releasing a granule, and
      taking and freeing a Realm's slot, are round trips
      ([assign_release_roundtrip], [realm_slot_roundtrip]).
    - Commands: against an arbitrary RMM the wrappers keep the tracker's
      invariant ([any_rmm_keeps_tracker]) and track exactly the commands that
      succeeded ([command_tracks_success_only]).
    - Mappings: the levels created, the pages covered, the commands issued and the
      replies they got ([create_rtt_levels_exact], [map_protected_covers_region]), the
      equivalence of the two alignment routines ([alignment_routines_agree]).
    - Life of a Realm: bounds of the REC arrays on all paths
      ([rec_create_in_bounds]), activation as the last step of setup
      ([setup_activates_last]).
    - REC exits: exact characterisation of the exits accepted
      ([validate_da_exact], [esr_ok_exact]), the loop that hides the exits that
      print ([rec_enter_hides_prints]).
    - PCIe: one address per function and register ([cfg_decode]), the capability
      found ([find_capability_exact]), the table of functions as a filter of the bus
      ([create_table_exact]), base address registers read without a trace and, for
      32-bit memory, placed without overlap ([get_bar_exact], [program_bars_disjoint],
      with [other_bus_overlaps] and [large_bar_overlaps] for what is not); the exerciser's DMA
      control changes field by field ([dma_control_refines]) and its search for
      capabilities agrees with that of the suite ([capability_searches_agree]).
    - Realm host interface: the sessions follow their protocol whatever the Realm
      asks ([session_refines]); the pieces of the firmware log are the log
      ([fal_reads_log]).
    - Device assignment, end to end: host, RMM and device together bring every
      response into the certificate buffer, in order
      ([communicate_fetches_certificates]), built from the exchange
      ([doe_exchange]) and the cache ([object_cache_is_log]).
    - Cores: whatever the interleaving the lock excludes, tokens are counted exactly
      ([events_exclusive_and_counted]), no wake-up is lost ([no_event_is_lost]), and with
      enough tokens every call returns ([every_waiter_is_released]).  The lock is taken in
      one step: the retries of pal_spin_lock, which is assembly, are not steps.
    - Shared region: the test announced is the test found ([announced_test_found]), a
      Realm's message arrives and touches nothing else ([realm_message_delivered],
      [tag_printed_once]).
    - Dispatch: every selected test is counted exactly once, across resets
      ([every_test_counted_once]); the range of tests selected by name ([range_exact]).
    - Planes: a plane goes on after every exit that plane 0 serves, with its registers
      and the reply, until the first that it does not ([plane_runs_to_unserved_exit]);
      permissions are set to the end of a range ([perm_init_covers_range]).
    - Translation tables: regions are kept in their order and only compatible ones are
      taken ([mmap_add_exact]); after initialisation the MMU translates each address as
      the smallest region that holds it, unless the tables ran out on the way
      ([array_translated]), so the start of a Realm
      maps its image and the shared region and nothing else ([realm_boot_maps]); regions
      added and attributes changed in use leave every other translation alone
      ([add_dynamic_exact], [change_attributes_exact]); the host's array is read past
      its end ([host_map_overruns]).
    - Interrupts: the search for the redistributor ends ([redistributor_found]), enabling
      changes one interrupt only ([irq_enable_exact]), an interrupt of group 1 that is
      raised is forwarded, taken by the core, reaches its handler and is ended
      ([interrupt_served]), private interrupts survive a power
      cycle ([context_roundtrip]).
    - Drivers: the text printed is the text of the message and the line is set up once
      ([printf_text]), waiting ends
      ([sleep_ends]); the report of a device reads back ([report_roundtrip]).
    - Start: a Realm reaches the announced test with everything set up
      ([realm_main_runs_test]), the secure image serves the host's requests one by one
      ([secure_main_serves]), and the host reads its regions past their end
      ([host_main_overruns]).
    - Allocator and C library: disjoint aligned blocks ([alloc_blocks_disjoint],
      [val_host_mem_alloc_exact]), formatted output equal to a reference
      for decimal numbers below 2^32 and memory safe for every format ([val_vsnprintf_text], [val_vsnprintf_safe]),
      number printing read back ([printed_number_roundtrip]), memory and string
      routines ([memmove_correct], [val_memcmp_correct], [val_strlen_correct]).
    - Behaviour the code has and its comments do not mention, stated exactly, as
      facts about the code as it is: [map_protected_hides_refusal],
      [rollback_skips_first_page], [reset_keeps_old_list],
      [failed_create_undelegates_stale_rd], [mapped_table_overflow],
      [ripas_init_no_progress], [ia_misses_last_byte], [decimal_truncates],
      [send_length_wraps], [refused_unlock_counts_as_teardown],
      [recv_loop_overruns], [rounding_wraps], [change_attributes_aliases] and others
      beside them.

    ** Fuel

    Walks along a list take [walk_fuel], one more than the number of descriptors;
    loops over pages take [pages size], one more than the number of pages; table
    levels take the difference of the levels.  The theorems named above prove
    that [NoFuel] does not happen there.  Loops whose length the RMM decides
    ([val_host_ripas_init], [val_host_rmi_rec_enter], [val_host_set_s2ap]) have
    the fuel as an argument; their theorems hold for every fuel.
    [val_host_dev_communicate] has it too, and the theorem on it says how much is
    enough.  A capability list has CAP_FUEL and ECAP_FUEL turns, after which
    [find_capability_exact] shows that the walk is in a circle; the enumeration of a
    bus ENUM_FUEL, the chain of certificates one turn for each byte.  The walks of the
    translation tables are bounded by the levels and by the 512 entries of a table.
    The search for a redistributor has the number of redistributors as fuel, the loops
    over shared interrupts 1024, more than there are interrupts; a character
    waits for the serial line with a fuel above its delay, [val_sleep_elapsed_time] has
    one above the ticks.  The loop of the secure image has no end: [secure_turns] says
    what it has done after a number of turns, each with its return to the host.

    ** What is not modelled

    Logging has no effect on the state and is left out.  [val_host_mem_free] does
    nothing in the source, so a free is the identity.  The global [current] of
    the tracker is a scratch cursor and is local to each walk.  Memory shared
    with the RMM ([h_mem]) maps the address of a structure member to its value,
    with the offsets of the RMI structures; the RMM may change it in any command.
    Byte buffers in the same memory have one byte at each address, and the routines
    of [Libc.Mem] run on them.
    [val_get_shared_region_base_pa] and VAL_NS_SHARED_REGION_IPA_OFFSET are
    defined outside the repository and are members of the class [RMM].

    [val_get_shared_region_base] is the class [SharedRegion].

    Of the translation tables cache maintenance and printing are left out; unmapping and
    the removal of regions are modelled and have no theorem of their own.

    The assembly before the entry points, barriers, TLB and cache instructions, the
    debug and error helpers and the functions declared but not defined in the repository
    are left out.  [pal_terminate_simulation] is a wfi that may return; it is taken as the
    end ([Panic]).  The conforming
    RMM covers the commands that move granules one by one; unprotected mappings and
    auxiliary tables are outside [Mirror] and [Rollback].  [pdev_rmm] knows one PDEV
    and no VDEV; the bring-up of [DaSetup] is modelled and has no theorem yet.  Cores wake only by SEV: other wake-up events of the
    architecture only make a core test the counter again. *)
From stdpp Require Export base gmap list strings.
From Stdlib Require Export ZArith Lia.

#[global] Open Scope Z_scope.

(** * Outcomes of C code

    A C function that reads or writes global state is a function from the
    state to an [outcome].  [Ok] carries the value returned and the state
    left behind.  [Fault] is the end of the run: the dereference of a null
    or never allocated pointer, an array index out of range, the use of a local
    variable that was never assigned or a shift by the width of its operand
    ([Undef]), or the call of [pal_terminate_simulation] (the macro VAL_PANIC).
    [NoFuel] is the end
    of the fuel of a loop the source does not bound. *)

Inductive fault : Type :=
  | NullDeref
  | BadDeref
  | OutOfBounds
  | Undef
  | Panic.

#[export] Instance fault_eq_dec : EqDecision fault.
Proof. solve_decision. Defined.

Inductive outcome (S A : Type) : Type :=
  | Ok (a : A) (s : S)
  | Fault (f : fault)
  | NoFuel.

Arguments Ok {S A} a s.
Arguments Fault {S A} f.
Arguments NoFuel {S A}.

Definition M (S A : Type) : Type := S → outcome S A.

Section Monad.
Context {S : Type}.

Definition ret {A : Type} (a : A) : M S A := λ s, Ok a s.

Definition bind {A B : Type} (m : M S A) (k : A → M S B) : M S B := λ s,
  match m s with
  | Ok a s' => k a s'
  | Fault f => Fault f
  | NoFuel => NoFuel
  end.

Definition fail {A : Type} (f : fault) : M S A := λ _, Fault f.

Definition out_of_fuel {A : Type} : M S A := λ _, NoFuel.

Definition gets {A : Type} (f : S → A) : M S A := λ s, Ok (f s) s.

Definition modify (f : S → S) : M S unit := λ s, Ok tt (f s).
End Monad.

(** Run a computation over a part [T] of the state [S]. *)
Definition zoom {S T A : Type} (get : S → T) (put : T → S → S) (m : M T A) : M S A :=
  λ s, match m (get s) with
       | Ok a t => Ok a (put t s)
       | Fault f => Fault f
       | NoFuel => NoFuel
       end.

Declare Scope prog_scope.
Delimit Scope prog_scope with prog.

Notation "'let*' x ':=' m 'in' k" := (bind m (λ x, k))
  (at level 10, x pattern, m at level 100, k at level 200,
   format "'[v' 'let*'  x  ':='  m  'in' '/' k ']'") : prog_scope.

Notation "m ';;' k" := (bind m (λ _, k))
  (at level 100, k at level 200, right associativity,
   format "'[v' m ';;' '/' k ']'") : prog_scope.

#[global] Open Scope prog_scope.

(** [run_to m s P]: from [s] the computation [m] returns, and its value and
    final state satisfy [P].  It excludes faults and lack of fuel. *)
Definition run_to {S A : Type} (m : M S A) (s : S) (P : A → S → Prop) : Prop :=
  match m s with
  | Ok a s' => P a s'
  | _ => False
  end.

(** [safe m s P]: partial correctness, a fault or lack of fuel is allowed. *)
Definition ok_implies {S A : Type} (m : M S A) (s : S) (P : A → S → Prop) : Prop :=
  ∀ a s', m s = Ok a s' → P a s'.

Section RunTo.
Context {S : Type}.
Implicit Types s : S.

Lemma run_to_ret {A} (a : A) s (P : A → S → Prop) : P a s → run_to (ret a) s P.
Proof. done. Qed.

Lemma run_to_bind {A B} (m : M S A) (k : A → M S B) s (Q : A → S → Prop) P :
  run_to m s Q →
  (∀ a s', Q a s' → run_to (k a) s' P) →
  run_to (bind m k) s P.
Proof. unfold run_to, bind. destruct (m s); naive_solver. Qed.

Lemma run_to_gets {A} (f : S → A) s (P : A → S → Prop) :
  P (f s) s → run_to (gets f) s P.
Proof. done. Qed.

Lemma run_to_modify (f : S → S) s (P : unit → S → Prop) :
  P tt (f s) → run_to (modify f) s P.
Proof. done. Qed.

Lemma run_to_mono {A} (m : M S A) s (Q P : A → S → Prop) :
  run_to m s Q → (∀ a s', Q a s' → P a s') → run_to m s P.
Proof. unfold run_to. destruct (m s); naive_solver. Qed.

Lemma run_to_Ok {A} (m : M S A) s (P : A → S → Prop) :
  run_to m s P ↔ ∃ a s', m s = Ok a s' ∧ P a s'.
Proof. unfold run_to. destruct (m s); naive_solver. Qed.

Lemma run_to_eq {A} (m : M S A) s a s' (P : A → S → Prop) :
  m s = Ok a s' → P a s' → run_to m s P.
Proof. unfold run_to. by intros ->. Qed.

Lemma bind_Ok {A B} (m : M S A) (k : A → M S B) s b s'' :
  bind m k s = Ok b s'' ↔ ∃ a s', m s = Ok a s' ∧ k a s' = Ok b s''.
Proof. unfold bind. destruct (m s); naive_solver. Qed.

Lemma bind_step {A B} (m : M S A) (k : A → M S B) s a s' :
  m s = Ok a s' → bind m k s = k a s'.
Proof. unfold bind. by intros ->. Qed.

Lemma run_to_step {A B} (m : M S A) (k : A → M S B) s a s' (P : B → S → Prop) :
  m s = Ok a s' → run_to (k a) s' P → run_to (bind m k) s P.
Proof. unfold run_to, bind. by intros ->. Qed.

Lemma bind_ret_l {A B} (a : A) (k : A → M S B) s : bind (ret a) k s = k a s.
Proof. done. Qed.

Lemma bind_cong {A B} (m : M S A) (k k' : A → M S B) s :
  (∀ a s', k a s' = k' a s') → bind m k s = bind m k' s.
Proof. unfold bind. intros Hk. destruct (m s); [apply Hk|done..]. Qed.

Lemma bind_assoc {A B C} (m : M S A) (k : A → M S B) (h : B → M S C) s :
  bind (bind m k) h s = bind m (λ a, bind (k a) h) s.
Proof. unfold bind. by destruct (m s). Qed.

Lemma ok_implies_bind {A B} (m : M S A) (k : A → M S B) s (Q : A → S → Prop) P :
  ok_implies m s Q →
  (∀ a s', Q a s' → ok_implies (k a) s' P) →
  ok_implies (bind m k) s P.
Proof. intros Hm Hk b s'' (a & s' & E1 & E2)%bind_Ok. by eapply Hk; [apply Hm|]. Qed.
End RunTo.

(** [runs F m s P]: from [s] the computation [m] ends, with a value and a state
    in [P] or with a fault in [F]; it does not run out of fuel. *)
Definition runs {S A : Type} (F : fault → Prop) (m : M S A) (s : S) (P : A → S → Prop) : Prop :=
  match m s with
  | Ok a s' => P a s'
  | Fault f => F f
  | NoFuel => False
  end.

Section Runs.
Context {S : Type} (F : fault → Prop).
Implicit Types s : S.

Lemma runs_ret {A} (a : A) s (P : A → S → Prop) : P a s → runs F (ret a) s P.
Proof. done. Qed.

Lemma runs_bind {A B} (m : M S A) (k : A → M S B) s (Q : A → S → Prop) P :
  runs F m s Q → (∀ a s', Q a s' → runs F (k a) s' P) → runs F (bind m k) s P.
Proof. unfold runs, bind. destruct (m s); naive_solver. Qed.

Lemma runs_mono {A} (m : M S A) s (Q P : A → S → Prop) :
  runs F m s Q → (∀ a s', Q a s' → P a s') → runs F m s P.
Proof. unfold runs. destruct (m s); naive_solver. Qed.

Lemma runs_step {A B} (m : M S A) (k : A → M S B) s a s' (P : B → S → Prop) :
  m s = Ok a s' → runs F (k a) s' P → runs F (bind m k) s P.
Proof. unfold runs, bind. by intros ->. Qed.

Lemma runs_eq {A} (m : M S A) s a s' (P : A → S → Prop) :
  m s = Ok a s' → P a s' → runs F m s P.
Proof. unfold runs. by intros ->. Qed.

Lemma runs_of_run_to {A} (m : M S A) s (P : A → S → Prop) : run_to m s P → runs F m s P.
Proof. unfold run_to, runs. by destruct (m s). Qed.

Lemma runs_weaken {A} (G : fault → Prop) (m : M S A) s (P : A → S → Prop) :
  (∀ f, G f → F f) → runs G m s P → runs F m s P.
Proof. unfold runs. destruct (m s); naive_solver. Qed.
End Runs.

(** * Counting loops *)

(** [for (i = 0; i < n; i++) body(i);], stopping at the first [Some]. *)
Fixpoint for_from {S R : Type} (n : nat) (i : Z) (body : Z → M S (option R)) : M S (option R) :=
  match n with
  | O => ret None
  | Datatypes.S n =>
      let* r := body i in
      match r with
      | Some v => ret (Some v)
      | None => for_from n (i + 1) body
      end
  end.

Definition for_upto {S R : Type} (n : Z) (body : Z → M S (option R)) : M S (option R) :=
  for_from (Z.to_nat n) 0 body.

(** The same with local variables [acc] that the body updates. *)
Fixpoint fold_from {S A : Type} (n : nat) (i : Z) (acc : A) (body : Z → A → M S A) : M S A :=
  match n with
  | O => ret acc
  | Datatypes.S n =>
      let* acc := body i acc in
      fold_from n (i + 1) acc body
  end.

(** A loop whose body keeps an invariant and ends keeps the invariant and ends. *)
Lemma for_from_runs {S R} (F : fault → Prop) (I : S → Prop) n i0 (body : Z → M S (option R)) s :
  (∀ i s, i0 ≤ i < i0 + Z.of_nat n → I s → runs F (body i) s (λ _ s', I s')) →
  I s → runs F (for_from n i0 body) s (λ _ s', I s').
Proof.
  revert i0 s. induction n as [|n IH]; intros i0 s Hb Hi; cbn [for_from]; [by apply runs_ret|].
  eapply runs_bind; [apply Hb; [lia|done]|]. intros [v|] s1 H1; [by apply runs_ret|].
  apply IH; [|done]. intros i s2 Hr. apply Hb. lia.
Qed.

(** The same with an invariant that knows the index, for a loop that does not
    stop early. *)
Lemma for_from_to {S R} (I : Z → S → Prop) n i0 (body : Z → M S (option R)) s :
  (∀ i s, i0 ≤ i < i0 + Z.of_nat n → I i s → run_to (body i) s (λ r s', r = None ∧ I (i + 1) s')) →
  I i0 s → run_to (for_from n i0 body) s (λ r s', r = None ∧ I (i0 + Z.of_nat n) s').
Proof.
  revert i0 s. induction n as [|n IH]; intros i0 s Hb Hi; cbn [for_from].
  - apply run_to_ret. by rewrite Z.add_0_r.
  - eapply run_to_bind; [apply Hb; [lia|done]|]. intros r s1 [-> H1].
    replace (i0 + Z.of_nat (Datatypes.S n)) with (i0 + 1 + Z.of_nat n) by lia.
    apply IH; [|done]. intros i s2 Hr. apply Hb. lia.
Qed.

Lemma for_upto_runs {S R} (F : fault → Prop) (I : S → Prop) n (body : Z → M S (option R)) s :
  (∀ i s, 0 ≤ i < n → I s → runs F (body i) s (λ _ s', I s')) →
  I s → runs F (for_upto n body) s (λ _ s', I s').
Proof.
  intros Hb Hi. apply for_from_runs; [|done]. intros i s1 Hr. apply Hb. lia.
Qed.

(** * Tactics of the development *)

(** Split a hypothesis [bind m k s = Ok _ _] into its steps. *)
Ltac inv_ok :=
  repeat match goal with
  | H : bind _ _ _ = Ok _ _ |- _ =>
      let a := fresh "v" in let s := fresh "st" in let E := fresh "E" in
      apply bind_Ok in H as (a & s & E & H)
  | H : ret _ _ = Ok _ _ |- _ => unfold ret in H; simplify_eq
  | H : gets _ _ = Ok _ _ |- _ => unfold gets in H; simplify_eq
  | H : modify _ _ = Ok _ _ |- _ => unfold modify in H; simplify_eq
  | H : fail _ _ = Ok _ _ |- _ => discriminate H
  | H : out_of_fuel _ = Ok _ _ |- _ => discriminate H
  | H : Ok _ _ = Ok _ _ |- _ => simplify_eq
  end.

(** Turn boolean tests on integers into propositions. *)
Ltac zb :=
  repeat match goal with
  | H : context [Z.eqb ?a ?b] |- _ => destruct (Z.eqb_spec a b)
  | H : context [Z.ltb ?a ?b] |- _ => destruct (Z.ltb_spec a b)
  | H : context [Z.leb ?a ?b] |- _ => destruct (Z.leb_spec a b)
  | |- context [Z.eqb ?a ?b] => destruct (Z.eqb_spec a b)
  | |- context [Z.ltb ?a ?b] => destruct (Z.ltb_spec a b)
  | |- context [Z.leb ?a ?b] => destruct (Z.leb_spec a b)
  end.

(** * Machine integers *)

Definition u8 (x : Z) : Z := x mod 2 ^ 8.
Definition u16 (x : Z) : Z := x mod 2 ^ 16.
Definition u32 (x : Z) : Z := x mod 2 ^ 32.
Definition u64 (x : Z) : Z := x mod 2 ^ 64.

Definition is_u64 (x : Z) : Prop := 0 ≤ x < 2 ^ 64.

(** Truth value of an integer in a C condition. *)
Definition truthy (x : Z) : bool := negb (x =? 0).

Lemma u64_bound x : 0 ≤ u64 x < 2 ^ 64.
Proof. by apply Z.mod_pos_bound. Qed.

Lemma u64_id x : is_u64 x → u64 x = x.
Proof. apply Z.mod_small. Qed.

Lemma u64_add_id x y : 0 ≤ x + y < 2 ^ 64 → u64 (x + y) = x + y.
Proof. apply Z.mod_small. Qed.

Lemma u64_land x y : is_u64 x → 0 ≤ y → is_u64 (Z.land x y).
Proof.
  intros [Hx Hx'] Hy. split; [apply Z.land_nonneg; lia|].
  destruct (decide (Z.land x y = 0)) as [->|Hne]; [lia|].
  assert (0 < Z.land x y) by (pose proof (proj2 (Z.land_nonneg x y)); lia).
  apply Z.log2_lt_pow2; [done|].
  eapply Z.le_lt_trans; [by apply Z.log2_land|].
  destruct (decide (x = 0)) as [->|]; [done|].
  eapply Z.le_lt_trans; [apply Z.le_min_l|]. apply Z.log2_lt_pow2; lia.
Qed.

(** Masking with the complement of a 64-bit mask is [Z.ldiff]. *)
Lemma land_u64_lnot a m : is_u64 a → Z.land a (u64 (Z.lnot m)) = Z.ldiff a m.
Proof.
  intros [Ha Ha']. apply Z.bits_inj'. intros n Hn.
  rewrite Z.land_spec, Z.ldiff_spec. unfold u64.
  destruct (Z.ltb_spec n 64).
  - rewrite Z.mod_pow2_bits_low by lia. by rewrite Z.lnot_spec.
  - assert (Z.testbit a n = false) as ->; [|done].
    destruct (decide (a = 0)) as [->|]; [apply Z.bits_0|].
    apply Z.bits_above_log2; [lia|].
    eapply Z.lt_le_trans; [|eassumption]. apply Z.log2_lt_pow2; lia.
Qed.

Lemma ldiff_ones a k : 0 ≤ k → Z.ldiff a (2 ^ k - 1) = a - a mod 2 ^ k.
Proof.
  intros Hk. replace (2 ^ k - 1) with (Z.ones k) by (rewrite Z.ones_equiv; lia).
  rewrite Z.ldiff_ones_r, Z.shiftl_mul_pow2, Z.shiftr_div_pow2 by done.
  pose proof (Z.div_mod a (2 ^ k)). assert (0 < 2 ^ k) by (by apply Z.pow_pos_nonneg). lia.
Qed.

Lemma land_ones_mod a k : 0 ≤ k → Z.land a (2 ^ k - 1) = a mod 2 ^ k.
Proof.
  intros Hk. replace (2 ^ k - 1) with (Z.ones k) by (rewrite Z.ones_equiv; lia).
  by apply Z.land_ones.
Qed.

Lemma sub_mod_divides a b : 0 < b → (b | a - a mod b).
Proof. intros Hb. exists (a / b). pose proof (Z.div_mod a b). lia. Qed.
