(* ===== verification/Defs.v ===== *)
(** Constants and macros shared by the components: the alignment and bit-field
    macros of val_host_realm.h, val_host_alloc.h, val.h and val_rmm.h, the
    command identifiers and status codes of val_rmm.h, the platform memory
    layout of pal_config_def.h, and the lemmas on them. *)
From S2P Require Import Prelude.

(** * Status values (val.h) *)

Definition VAL_SUCCESS : Z := 0.
Definition VAL_ERROR : Z := 1.
Definition VAL_RESERVED : Z := 2 ^ 64 - 1.

(** * Page and translation table geometry (val_def.h, val_host_realm.h) *)

Definition PAGE_SIZE : Z := 0x1000.
Definition VAL_PAGE_SHIFT : Z := 12.
Definition VAL_RTT_MAX_LEVEL : Z := 3.
Definition VAL_RTT_LEVEL_SHIFT (level : Z) : Z := (VAL_PAGE_SHIFT - 3) * (4 - level) + 3.
Definition VAL_RTT_L2_BLOCK_SIZE : Z := Z.shiftl 1 (VAL_RTT_LEVEL_SHIFT 2).
Definition GRANULE_SHIFT : Z := 12.
Definition S2TTE_STRIDE : Z := GRANULE_SHIFT - 3.
Definition IPA_WIDTH_DEFAULT : Z := 40.

Definition VAL_PLANE0_IMAGE_BASE_IPA : Z := 0x400000.
Definition VAL_PLANE1_IMAGE_BASE_IPA : Z := 0x600000.
Definition VAL_PLANE2_IMAGE_BASE_IPA : Z := 0x800000.

Definition VAL_SWITCH_TO_HOST : Z := 5.
Definition VAL_REALM_PRINT_MSG : Z := 6.

(** * Limits (val_host_realm.h) *)

Definition VAL_MAX_REC_COUNT : Z := 8.
Definition VAL_MAX_REC_AUX_GRANULES : Z := 16.
Definition VAL_MAX_GRANULES_MAP : Z := 25.
Definition VAL_MAX_DEV_GRANULES_MAP : Z := 64.
Definition VAL_HOST_MAX_REALMS : nat := 10.
Definition VAL_MAX_AUX_PLANES : nat := 3.
Definition VAL_REALM_FLAG_RTT_TREE_PP : Z := 1.

(** * Platform memory layout (pal_config_def.h) *)

Definition PLATFORM_NORMAL_WORLD_IMAGE_SIZE : Z := 0x400000.
Definition PLATFORM_HOST_IMAGE_SIZE : Z := PLATFORM_NORMAL_WORLD_IMAGE_SIZE / 2.
Definition PLATFORM_REALM_IMAGE_SIZE : Z := PLATFORM_NORMAL_WORLD_IMAGE_SIZE / 2.
Definition PLATFORM_MEMORY_POOL_SIZE : Z := 50 * 0x100000.
Definition PLATFORM_SHARED_REGION_SIZE : Z := 0x100000.
Definition PLATFORM_HEAP_REGION_SIZE : Z :=
  PLATFORM_MEMORY_POOL_SIZE - PLATFORM_SHARED_REGION_SIZE.
Definition PLATFORM_NORMAL_WORLD_IMAGE_BASE : Z := 0x88000000.
Definition PLATFORM_REALM_IMAGE_BASE : Z :=
  PLATFORM_NORMAL_WORLD_IMAGE_BASE + PLATFORM_HOST_IMAGE_SIZE.
Definition PLATFORM_MEMORY_POOL_BASE : Z :=
  PLATFORM_NORMAL_WORLD_IMAGE_BASE + PLATFORM_NORMAL_WORLD_IMAGE_SIZE.
Definition PLATFORM_SHARED_REGION_BASE : Z := PLATFORM_MEMORY_POOL_BASE.
Definition PLATFORM_HEAP_REGION_BASE : Z :=
  PLATFORM_SHARED_REGION_BASE + PLATFORM_SHARED_REGION_SIZE.

(** * RMI command identifiers (val_rmm.h) *)

Definition RMI_VERSION : Z := 0xC4000150.
Definition RMI_GRANULE_DELEGATE : Z := 0xC4000151.
Definition RMI_GRANULE_UNDELEGATE : Z := 0xC4000152.
Definition RMI_DATA_CREATE : Z := 0xC4000153.
Definition RMI_DATA_CREATE_UNKNOWN : Z := 0xC4000154.
Definition RMI_DATA_DESTROY : Z := 0xC4000155.
Definition RMI_REALM_ACTIVATE : Z := 0xC4000157.
Definition RMI_REALM_CREATE : Z := 0xC4000158.
Definition RMI_REALM_DESTROY : Z := 0xC4000159.
Definition RMI_REC_CREATE : Z := 0xC400015A.
Definition RMI_REC_DESTROY : Z := 0xC400015B.
Definition RMI_REC_ENTER : Z := 0xC400015C.
Definition RMI_RTT_CREATE : Z := 0xC400015D.
Definition RMI_RTT_DESTROY : Z := 0xC400015E.
Definition RMI_RTT_MAP_UNPROTECTED : Z := 0xC400015F.
Definition RMI_RTT_READ_ENTRY : Z := 0xC4000161.
Definition RMI_RTT_UNMAP_UNPROTECTED : Z := 0xC4000162.
Definition RMI_PSCI_COMPLETE : Z := 0xC4000164.
Definition RMI_FEATURES : Z := 0xC4000165.
Definition RMI_RTT_FOLD : Z := 0xC4000166.
Definition RMI_REC_AUX_COUNT : Z := 0xC4000167.
Definition RMI_RTT_INIT_RIPAS : Z := 0xC4000168.
Definition RMI_RTT_SET_RIPAS : Z := 0xC4000169.
Definition RMI_PDEV_AUX_COUNT : Z := 0xC4000156.
Definition RMI_VDEV_AUX_COUNT : Z := 0xC4000160.
Definition RMI_VDEV_VALIDATE_MAPPING : Z := 0xC4000163.
Definition RMI_VDEV_MAP : Z := 0xC4000172.
Definition RMI_VDEV_UNMAP : Z := 0xC4000173.
Definition RMI_PDEV_ABORT : Z := 0xC4000174.
Definition RMI_PDEV_COMMUNICATE : Z := 0xC4000175.
Definition RMI_PDEV_CREATE : Z := 0xC4000176.
Definition RMI_PDEV_DESTROY : Z := 0xC4000177.
Definition RMI_PDEV_GET_STATE : Z := 0xC4000178.
Definition RMI_PDEV_IDE_RESET : Z := 0xC4000179.
Definition RMI_PDEV_IDE_KEY_REFRESH : Z := 0xC400017A.
Definition RMI_PDEV_SET_PUBKEY : Z := 0xC400017B.
Definition RMI_PDEV_STOP : Z := 0xC400017C.
Definition RMI_RTT_AUX_CREATE : Z := 0xC400017D.
Definition RMI_RTT_AUX_DESTROY : Z := 0xC400017E.
Definition RMI_RTT_AUX_FOLD : Z := 0xC400017F.
Definition RMI_RTT_AUX_MAP_PROTECTED : Z := 0xC4000180.
Definition RMI_RTT_AUX_MAP_UNPROTECTED : Z := 0xC4000181.
Definition RMI_RTT_AUX_UNMAP_PROTECTED : Z := 0xC4000183.
Definition RMI_RTT_AUX_UNMAP_UNPROTECTED : Z := 0xC4000184.
Definition RMI_VDEV_ABORT : Z := 0xC4000185.
Definition RMI_VDEV_COMMUNICATE : Z := 0xC4000186.
Definition RMI_VDEV_CREATE : Z := 0xC4000187.
Definition RMI_VDEV_DESTROY : Z := 0xC4000188.
Definition RMI_VDEV_GET_STATE : Z := 0xC4000189.
Definition RMI_VDEV_UNLOCK : Z := 0xC400018A.
Definition RMI_RTT_SET_S2AP : Z := 0xC400018B.
Definition RMI_MEC_SET_SHARED : Z := 0xC400018C.
Definition RMI_MEC_SET_PRIVATE : Z := 0xC400018D.
Definition RMI_VDEV_COMPLETE : Z := 0xC400018E.
Definition RMI_VDEV_GET_INTERFACE_REPORT : Z := 0xC40001D0.
Definition RMI_VDEV_GET_MEASUREMENTS : Z := 0xC40001D1.
Definition RMI_VDEV_LOCK : Z := 0xC40001D2.
Definition RMI_VDEV_START : Z := 0xC40001D3.

(** * RMI status, entry state and exit reason values (val_rmm.h) *)

Definition RMI_ERROR_INPUT : Z := 1.
Definition RMI_ERROR_RTT : Z := 4.
Definition RMI_ERROR_RTT_AUX : Z := 7.

Definition RMI_UNASSIGNED : Z := 0.
Definition RMI_NO_MEASURE_CONTENT : Z := 0.
Definition RMI_NOT_RUNNABLE : Z := 0.
Definition RMI_RUNNABLE : Z := 1.
Definition RMI_HASH_SHA_256 : Z := 0.
Definition RMI_UNPROTECTED_S2AP_RW : Z := 3.

Definition RMI_PLANE_RTT_AUX : Z := 0.
Definition RMI_PLANE_RTT_AUX_SINGLE : Z := 1.
Definition RMI_PLANE_RTT_SINGLE : Z := 2.

Definition RMI_EXIT_SYNC : Z := 0.
Definition RMI_EXIT_PSCI : Z := 3.
Definition RMI_EXIT_RIPAS_CHANGE : Z := 4.
Definition RMI_EXIT_HOST_CALL : Z := 5.
Definition RMI_EXIT_S2AP_CHANGE : Z := 7.

(** The two fields of a command's return code. *)
Definition RMI_STATUS (ret : Z) : Z := Z.land ret 0xFF.
Definition RMI_INDEX (ret : Z) : Z := Z.land (Z.shiftr ret 8) 0xFF.
Definition PACK_CODE (status index : Z) : Z := Z.lor (Z.shiftl index 8) status.

(** * Bit-field and alignment macros *)

(** [((data >> start) & ((1ul << (end - start + 1)) - 1))], where the shift is
    of a 64-bit constant and its result is truncated to 64 bits. *)
Definition VAL_EXTRACT_BITS (data start end_ : Z) : Z :=
  Z.land (Z.shiftr data start) (u64 (u64 (Z.shiftl 1 (end_ - start + 1)) - 1)).

(** [((~ULL(0) >> (63UL - msb)) & (~ULL(0) << lsb))]. *)
Definition VAL_BIT_MASK_ULL (msb lsb : Z) : Z :=
  Z.land (Z.shiftr (2 ^ 64 - 1) (63 - msb)) (u64 (Z.shiftl (2 ^ 64 - 1) lsb)).

(** [__ADDR_ALIGN_MASK(a, mask)] and [ADDR_ALIGN(a, b)] on 64-bit values. *)
Definition ADDR_ALIGN_MASK (a mask : Z) : Z := Z.land (u64 (a + mask)) (u64 (Z.lnot mask)).
Definition ADDR_ALIGN (a b : Z) : Z := ADDR_ALIGN_MASK a (u64 (b - 1)).

Definition ADDR_ALIGN_DOWN (a b : Z) : Z := Z.land a (u64 (Z.lnot (u64 (b - 1)))).
Definition ADDR_IS_ALIGNED (a b : Z) : bool := Z.land a (u64 (b - 1)) =? 0.

(** * Facts about the macros *)

Lemma pow2_pred_u64 k : 0 ≤ k < 64 → u64 (2 ^ k - 1) = 2 ^ k - 1.
Proof.
  intros Hk. apply u64_id. assert (0 < 2 ^ k) by (apply Z.pow_pos_nonneg; lia).
  assert (2 ^ k < 2 ^ 64) by (apply Z.pow_lt_mono_r; lia). unfold is_u64. lia.
Qed.

Lemma ADDR_ALIGN_DOWN_pow2 a k :
  is_u64 a → 0 ≤ k < 64 → ADDR_ALIGN_DOWN a (2 ^ k) = a - a mod 2 ^ k.
Proof.
  intros Ha Hk. unfold ADDR_ALIGN_DOWN.
  rewrite pow2_pred_u64, land_u64_lnot, ldiff_ones by (done || lia). done.
Qed.

Lemma ADDR_IS_ALIGNED_pow2 a k :
  0 ≤ k < 64 → ADDR_IS_ALIGNED a (2 ^ k) = (a mod 2 ^ k =? 0).
Proof.
  intros Hk. unfold ADDR_IS_ALIGNED. by rewrite pow2_pred_u64, land_ones_mod by lia.
Qed.

(** [ADDR_ALIGN] rounds up to a multiple of a power of two, when the sum does
    not leave the 64-bit range. *)
Lemma ADDR_ALIGN_pow2 a k :
  0 ≤ a → 0 ≤ k < 64 → a + 2 ^ k ≤ 2 ^ 64 →
  ADDR_ALIGN a (2 ^ k) = a + (2 ^ k - 1) - (a + (2 ^ k - 1)) mod 2 ^ k.
Proof.
  intros Ha Hk Hs. unfold ADDR_ALIGN, ADDR_ALIGN_MASK.
  assert (0 < 2 ^ k) by (apply Z.pow_pos_nonneg; lia).
  rewrite pow2_pred_u64, (u64_add_id a) by lia.
  rewrite land_u64_lnot, ldiff_ones by (unfold is_u64; lia). done.
Qed.

Lemma ADDR_ALIGN_bounds a k :
  0 ≤ a → 0 ≤ k < 64 → a + 2 ^ k ≤ 2 ^ 64 →
  a ≤ ADDR_ALIGN a (2 ^ k) < a + 2 ^ k ∧ (2 ^ k | ADDR_ALIGN a (2 ^ k)).
Proof.
  intros Ha Hk Hs. rewrite ADDR_ALIGN_pow2 by done.
  assert (0 < 2 ^ k) by (apply Z.pow_pos_nonneg; lia).
  pose proof (Z.mod_pos_bound (a + (2 ^ k - 1)) (2 ^ k)).
  split; [lia|]. by apply sub_mod_divides.
Qed.

Lemma VAL_EXTRACT_BITS_spec d s e :
  0 ≤ s ≤ e → e - s < 63 →
  VAL_EXTRACT_BITS d s e = (d / 2 ^ s) mod 2 ^ (e - s + 1).
Proof.
  intros Hse He. unfold VAL_EXTRACT_BITS.
  rewrite Z.shiftl_1_l, Z.shiftr_div_pow2 by lia.
  rewrite (u64_id (2 ^ (e - s + 1))).
  - rewrite pow2_pred_u64, land_ones_mod by lia. done.
  - split; [apply Z.pow_nonneg; lia|]. apply Z.pow_lt_mono_r; lia.
Qed.

Lemma RMI_STATUS_mod r : RMI_STATUS r = r mod 2 ^ 8.
Proof. unfold RMI_STATUS. change 0xFF with (2 ^ 8 - 1). by apply land_ones_mod. Qed.

Lemma RMI_INDEX_div r : RMI_INDEX r = (r / 2 ^ 8) mod 2 ^ 8.
Proof.
  unfold RMI_INDEX. change 0xFF with (2 ^ 8 - 1).
  by rewrite land_ones_mod, Z.shiftr_div_pow2.
Qed.

Lemma land_shiftl8_low s i : 0 ≤ s < 2 ^ 8 → Z.land s (Z.shiftl i 8) = 0.
Proof.
  intros Hs. apply Z.bits_inj'. intros n Hn. rewrite Z.land_spec, Z.bits_0.
  destruct (Z.ltb_spec n 8).
  - by rewrite Z.shiftl_spec_low, andb_false_r.
  - destruct (decide (s = 0)) as [->|]; [by rewrite Z.bits_0|].
    rewrite Z.bits_above_log2; [done|lia|].
    eapply Z.lt_le_trans; [|eassumption]. apply Z.log2_lt_pow2; lia.
Qed.

Lemma PACK_CODE_add s i : 0 ≤ s < 2 ^ 8 → PACK_CODE s i = i * 2 ^ 8 + s.
Proof.
  intros Hs. unfold PACK_CODE. rewrite Z.lor_comm.
  pose proof (land_shiftl8_low s i Hs) as E.
  rewrite <- Z.lxor_lor, <- Z.add_nocarry_lxor by done.
  rewrite Z.shiftl_mul_pow2; lia.
Qed.
