(* ===== verification/Alloc.v ===== *)
(** The host's memory allocator, val_host_alloc.c: a bump allocator over one
    heap region that never frees, and the counter of VM identifiers.

    The four static variables of the file are the record [alloc_state]; each
    function is a function of that state.  A pointer is its address, NULL is 0.
    All arithmetic is that of [uint64_t] ([uint16_t] for the VM identifier),
    with the wrap-around written out. *)
From S2P Require Import Prelude Defs.

Record alloc_state : Type := mk_alloc {
  number_of_regions : Z;
  heap_base : Z;
  heap_top : Z;
  curr_vmid : Z
}.

#[export] Instance alloc_state_eq_dec : EqDecision alloc_state.
Proof. solve_decision. Defined.

Definition set_heap_base (b : Z) (a : alloc_state) : alloc_state :=
  mk_alloc (number_of_regions a) b (heap_top a) (curr_vmid a).

Definition val_host_get_vmid (a : alloc_state) : Z * alloc_state :=
  let v := u16 (curr_vmid a + 1) in
  (v, mk_alloc (number_of_regions a) (heap_base a) (heap_top a) v).

Definition val_is_power_of_2 (n : Z) : bool :=
  truthy n && negb (truthy (Z.land n (u32 (n - 1)))).

Definition mem_alloc (alignment size : Z) (a : alloc_state) : Z * alloc_state :=
  let addr := ADDR_ALIGN (heap_base a) alignment in
  let size := u64 (size + u64 (addr - heap_base a)) in
  if u64 (heap_top a - heap_base a) <? size then (0, a)
  else (addr, set_heap_base (u64 (heap_base a + size)) a).

Definition val_host_mem_alloc_init (_ : alloc_state) : alloc_state :=
  mk_alloc 0 PLATFORM_HEAP_REGION_BASE
           (u64 (PLATFORM_HEAP_REGION_BASE + PLATFORM_HEAP_REGION_SIZE)) 0.

Definition val_host_mem_alloc (alignment size : Z) (a : alloc_state) : Z * alloc_state :=
  if size <=? 0 then (0, a)
  else if negb (val_is_power_of_2 (u32 alignment)) then (0, a)
  else mem_alloc alignment (u64 (size + u64 (alignment - 1))) a.

(** [val_host_mem_free] returns without touching the state. *)
Definition val_host_mem_free (ptr : Z) (a : alloc_state) : alloc_state := a.

Definition val_buffer_alloc_calloc (n size : Z) (a : alloc_state) : Z * alloc_state :=
  val_host_mem_alloc PAGE_SIZE (u64 (n * size)) a.

Definition val_buffer_alloc_free (ptr : Z) (a : alloc_state) : alloc_state :=
  val_host_mem_free ptr a.

(** * Invariant of the allocator *)

(** The heap lies above address 0 and in the lower half of the 64-bit space. *)
Record alloc_wf (a : alloc_state) : Prop := {
  wf_base_pos : 0 < heap_base a;
  wf_base_top : heap_base a ≤ heap_top a;
  wf_top : heap_top a ≤ 2 ^ 63
}.

Lemma val_host_mem_alloc_init_wf a : alloc_wf (val_host_mem_alloc_init a).
Proof. split; by vm_compute. Qed.

(** * Powers of two *)

Lemma land_pred_pow2 k : 0 ≤ k → Z.land (2 ^ k) (2 ^ k - 1) = 0.
Proof.
  intros Hk. rewrite land_ones_mod by done. apply Z.mod_same.
  apply Z.pow_nonzero; lia.
Qed.

Lemma land_pred_zero n : 0 < n → Z.land n (n - 1) = 0 → n = 2 ^ Z.log2 n.
Proof.
  intros Hn HL. destruct (Z.log2_spec n Hn) as [H1 H2].
  destruct (decide (n = 2 ^ Z.log2 n)) as [|Hne]; [done|exfalso].
  assert (0 < 2 ^ Z.log2 n) by (apply Z.pow_pos_nonneg; [lia|apply Z.log2_nonneg]).
  assert (Z.log2 (n - 1) = Z.log2 n) as E.
  { apply Z.log2_unique; [apply Z.log2_nonneg|lia]. }
  assert (Z.testbit (Z.land n (n - 1)) (Z.log2 n) = true) as HT.
  { rewrite Z.land_spec, Z.bit_log2 by done. rewrite <- E, Z.bit_log2 by lia. done. }
  by rewrite HL, Z.bits_0 in HT.
Qed.

Lemma val_is_power_of_2_pow2 k : 0 ≤ k < 32 → val_is_power_of_2 (2 ^ k) = true.
Proof.
  intros Hk. unfold val_is_power_of_2, u32.
  assert (0 < 2 ^ k) by (apply Z.pow_pos_nonneg; lia).
  assert (2 ^ k < 2 ^ 32) by (apply Z.pow_lt_mono_r; lia).
  rewrite Z.mod_small, land_pred_pow2 by lia. unfold truthy. zb; done || lia.
Qed.

Lemma val_is_power_of_2_inv n :
  0 ≤ n < 2 ^ 32 → val_is_power_of_2 n = true → ∃ k, 0 ≤ k < 32 ∧ n = 2 ^ k.
Proof.
  intros Hn. unfold val_is_power_of_2, truthy.
  destruct (Z.eqb_spec n 0) as [|Hne]; [done|]. cbn.
  unfold u32. rewrite Z.mod_small by lia.
  destruct (Z.eqb_spec (Z.land n (n - 1)) 0) as [HL|]; [intros _|done].
  exists (Z.log2 n). split; [|apply land_pred_zero; lia].
  split; [apply Z.log2_nonneg|]. apply Z.log2_lt_pow2; lia.
Qed.

(** * The allocation step *)

(** When the size and the padding before the block stay below 2^64, [mem_alloc] either
    has room and hands out the first aligned address, or leaves the state as it was. *)
Lemma mem_alloc_exact a k size :
  alloc_wf a → 0 ≤ k < 62 → 0 ≤ size ≤ 2 ^ 64 - 2 ^ k →
  let addr := ADDR_ALIGN (heap_base a) (2 ^ k) in
  heap_base a ≤ addr < heap_base a + 2 ^ k ∧ (2 ^ k | addr) ∧
  ((addr + size ≤ heap_top a ∧
    mem_alloc (2 ^ k) size a = (addr, set_heap_base (addr + size) a)) ∨
   (heap_top a < addr + size ∧ mem_alloc (2 ^ k) size a = (0, a))).
Proof.
  intros [Hb Hbt Ht] Hk Hs addr.
  assert (0 < 2 ^ k) by (apply Z.pow_pos_nonneg; lia).
  assert (2 ^ k < 2 ^ 62) by (apply Z.pow_lt_mono_r; lia).
  destruct (ADDR_ALIGN_bounds (heap_base a) k) as [Hr Hd]; [lia..|].
  fold addr in Hr, Hd. split; [done|]. split; [done|].
  unfold mem_alloc. fold addr.
  rewrite (u64_id (addr - heap_base a)) by (unfold is_u64; lia).
  rewrite (u64_id (size + (addr - heap_base a))) by (unfold is_u64; lia).
  rewrite (u64_id (heap_top a - heap_base a)) by (unfold is_u64; lia).
  zb; [right; split; [lia|done]|left]. split; [lia|].
  rewrite (u64_id (heap_base a + _)) by (unfold is_u64; lia).
  do 2 f_equal. lia.
Qed.

Lemma mem_alloc_cases a k size :
  alloc_wf a → 0 ≤ k < 62 → 0 ≤ size < 2 ^ 63 →
  let addr := ADDR_ALIGN (heap_base a) (2 ^ k) in
  heap_base a ≤ addr < heap_base a + 2 ^ k ∧ (2 ^ k | addr) ∧
  ((addr + size ≤ heap_top a ∧
    mem_alloc (2 ^ k) size a = (addr, set_heap_base (addr + size) a)) ∨
   (heap_top a < addr + size ∧ mem_alloc (2 ^ k) size a = (0, a))).
Proof.
  intros Hwf Hk Hs. apply mem_alloc_exact; [done..|].
  assert (2 ^ k < 2 ^ 62) by (apply Z.pow_lt_mono_r; lia). lia.
Qed.

Lemma alloc_wf_bump a b : alloc_wf a → heap_base a ≤ b ≤ heap_top a → alloc_wf (set_heap_base b a).
Proof. intros [] ?. split; simpl; lia. Qed.

(** A request of the two entry points of the allocator. *)
Inductive request : Type :=
  | ReqAlloc (alignment size : Z)      (* val_host_mem_alloc *)
  | ReqRaw (alignment size : Z)        (* mem_alloc *)
  | ReqCalloc (n size : Z)             (* val_buffer_alloc_calloc *)
  | ReqFree (ptr : Z).                 (* val_host_mem_free *)

Definition serve (r : request) (a : alloc_state) : Z * alloc_state :=
  match r with
  | ReqAlloc al sz => val_host_mem_alloc al sz a
  | ReqRaw al sz => mem_alloc al sz a
  | ReqCalloc n sz => val_buffer_alloc_calloc n sz a
  | ReqFree p => (0, val_host_mem_free p a)
  end.

(** Bytes the caller of a request may use from the address returned. *)
Definition req_size (r : request) : Z :=
  match r with
  | ReqAlloc _ sz | ReqRaw _ sz => sz
  | ReqCalloc n sz => n * sz
  | ReqFree _ => 0
  end.

Definition req_align (r : request) : Z :=
  match r with
  | ReqAlloc al _ | ReqRaw al _ => al
  | ReqCalloc _ _ => PAGE_SIZE
  | ReqFree _ => 1
  end.

(** A request whose size, with the bytes added to align the block, does not overflow 64
    bits; a raw request is made with a power of two.  Beyond that a block of a smaller
    size is handed out ([calloc_product_wraps], [rounding_wraps]). *)
Definition req_ok (r : request) : Prop :=
  match r with
  | ReqAlloc al sz => 0 ≤ al < 2 ^ 32 ∧ 0 ≤ sz ∧ sz + 2 * al ≤ 2 ^ 64
  | ReqRaw al sz => (∃ k, 0 ≤ k < 32 ∧ al = 2 ^ k) ∧ 0 ≤ sz ∧ sz + al ≤ 2 ^ 64
  | ReqCalloc n sz => 0 ≤ n ∧ 0 ≤ sz ∧ n * sz + 2 * PAGE_SIZE ≤ 2 ^ 64
  | ReqFree _ => True
  end.

(** What one request does to the state [a], with result [p] and final state
    [a']: either nothing, returning NULL, or the block of [req_size] bytes at
    [p] is cut from the free part of the heap. *)
Definition served (r : request) (a : alloc_state) (p : Z) (a' : alloc_state) : Prop :=
  (p = 0 ∧ a' = a) ∨
  (heap_base a ≤ p ∧ p + req_size r ≤ heap_base a' ∧ (req_align r | p) ∧
   heap_base a' ≤ heap_top a ∧ a' = set_heap_base (heap_base a') a).

Lemma mem_alloc_served a k size :
  alloc_wf a → 0 ≤ k < 32 → 0 ≤ size ≤ 2 ^ 64 - 2 ^ k →
  served (ReqRaw (2 ^ k) size) a (mem_alloc (2 ^ k) size a).1 (mem_alloc (2 ^ k) size a).2.
Proof.
  intros Hwf Hk Hs. destruct (mem_alloc_exact a k size) as (Hr & Hd & [[Ht E]|[Ht E]]);
    [done|lia|done|..]; rewrite E; [right|left; done]. simpl. repeat split; done || lia.
Qed.

Lemma val_host_mem_alloc_served a al sz :
  alloc_wf a → 0 ≤ al < 2 ^ 32 → 0 ≤ sz ∧ sz + 2 * al ≤ 2 ^ 64 →
  served (ReqAlloc al sz) a (val_host_mem_alloc al sz a).1 (val_host_mem_alloc al sz a).2.
Proof.
  intros Hwf Hal Hs. unfold val_host_mem_alloc. zb; [left; done|].
  assert (u32 al = al) as -> by (apply Z.mod_small; lia).
  destruct (val_is_power_of_2 al) eqn:E; [|left; done]. cbn.
  destruct (val_is_power_of_2_inv al) as (k & Hk & ->); [lia|done|].
  assert (0 < 2 ^ k) by (apply Z.pow_pos_nonneg; lia).
  rewrite pow2_pred_u64, (u64_id (sz + _)) by (unfold is_u64; lia).
  destruct (mem_alloc_served a k (sz + (2 ^ k - 1))) as [|(?&?&?&?&?)]; [done|lia|lia|left; done|right].
  simpl in *. repeat split; done || lia.
Qed.

Lemma serve_served r a :
  alloc_wf a → req_ok r → served r a (serve r a).1 (serve r a).2.
Proof.
  intros Hwf. destruct r as [al sz|al sz|n sz|p]; cbn [serve req_ok].
  - intros [? ?]. by apply val_host_mem_alloc_served.
  - intros [(k & Hk & ->) ?]. apply mem_alloc_served; [done|done|lia].
  - intros (? & ? & ?). unfold val_buffer_alloc_calloc.
    assert (0 ≤ n * sz) by (apply Z.mul_nonneg_nonneg; lia).
    rewrite u64_id by (unfold is_u64, PAGE_SIZE in *; lia).
    apply (val_host_mem_alloc_served a PAGE_SIZE (n * sz)); [done|unfold PAGE_SIZE; lia|lia].
  - intros _. by left.
Qed.

Lemma served_wf r a p a' : alloc_wf a → 0 ≤ req_size r → served r a p a' → alloc_wf a'.
Proof.
  intros Hwf Hr [[-> ->]|(? & ? & ? & ? & ->)]; [done|]. apply alloc_wf_bump; [done|lia].
Qed.

Lemma req_size_nonneg r : req_ok r → 0 ≤ req_size r.
Proof. destruct r; simpl; nia. Qed.

(** Serve the requests of a test one after the other; the log pairs each
    request with the address it got. *)
Fixpoint serve_all (rs : list request) (a : alloc_state) : list (request * Z) * alloc_state :=
  match rs with
  | [] => ([], a)
  | r :: rs =>
      let '(p, a1) := serve r a in
      let '(log, a2) := serve_all rs a1 in
      ((r, p) :: log, a2)
  end.

Lemma serve_all_wf rs a :
  alloc_wf a → Forall req_ok rs →
  alloc_wf (serve_all rs a).2 ∧ heap_base a ≤ heap_base (serve_all rs a).2 ∧
  heap_top (serve_all rs a).2 = heap_top a.
Proof.
  intros Hwf Hok. revert a Hwf.
  induction Hok as [|r rs Hr _ IH]; intros a Hwf; simpl; [by split_and!|].
  pose proof (serve_served r a Hwf Hr) as Hs.
  destruct (serve r a) as [p a1]; simpl in *.
  pose proof (req_size_nonneg r Hr).
  pose proof (served_wf r a p a1 Hwf ltac:(done) Hs) as Hwf1.
  destruct (IH a1 Hwf1) as (IH1 & IH2 & IH3).
  destruct (serve_all rs a1) as [log a2]; simpl in *.
  destruct Hs as [[-> ->]|(? & ? & ? & ? & E)]; [done|].
  split; [done|]. split; [lia|]. rewrite IH3, E. done.
Qed.

(** Every block handed out lies in the part of the heap free at the start. *)
Lemma serve_all_in_heap rs a i r p :
  alloc_wf a → Forall req_ok rs → (serve_all rs a).1 !! i = Some (r, p) → p ≠ 0 →
  heap_base a ≤ p ∧ p + req_size r ≤ heap_top a ∧ (req_align r | p).
Proof.
  intros Hwf Hok. revert a Hwf i.
  induction Hok as [|r0 rs Hr _ IH]; intros a Hwf i Hi Hp; [done|].
  cbn [serve_all] in Hi. pose proof (serve_served r0 a Hwf Hr) as Hs.
  destruct (serve r0 a) as [p0 a1]; simpl in Hs.
  pose proof (req_size_nonneg r0 Hr).
  pose proof (served_wf r0 a p0 a1 Hwf ltac:(done) Hs) as Hwf1.
  specialize (IH a1 Hwf1). destruct (serve_all rs a1) as [log a2]; simpl in *.
  destruct i as [|i]; simpl in Hi.
  - simplify_eq. destruct Hs as [[-> ->]|(? & ? & ? & ? & E)]; [done|].
    split; [lia|]. split; [lia|done].
  - destruct (IH i Hi Hp) as (? & ? & ?).
    destruct Hs as [[-> ->]|(? & ? & ? & ? & E)]; [done|].
    rewrite E in *; simpl in *. split; [lia|]. split; [lia|done].
Qed.

(** C38: two blocks handed out by any sequence of requests of the host (raw,
    checked and calloc allocations and frees, in any order, of sizes that do not
    overflow 64 bits when they are rounded up, [req_ok]) do not overlap: the
    later one starts at or after the end of the earlier one, since nothing is
    ever given back.  Both are aligned as asked and lie inside the heap. *)
Theorem alloc_blocks_disjoint rs a i j r p r' q :
  alloc_wf a → Forall req_ok rs → (i < j)%nat →
  (serve_all rs a).1 !! i = Some (r, p) → p ≠ 0 →
  (serve_all rs a).1 !! j = Some (r', q) → q ≠ 0 →
  p + req_size r ≤ q ∧
  heap_base a ≤ p ∧ q + req_size r' ≤ heap_top a ∧
  (req_align r | p) ∧ (req_align r' | q).
Proof.
  intros Hwf Hok Hij Hi Hp Hj Hq.
  destruct (serve_all_in_heap rs a i r p) as (Hpb & _ & Hpa); [done..|].
  destruct (serve_all_in_heap rs a j r' q) as (_ & Hqt & Hqa); [done..|].
  split; [|done]. clear Hpb Hqt Hpa Hqa. revert a Hwf i j Hij Hi Hj.
  induction Hok as [|r0 rs Hr Hrs IH]; intros a Hwf i j Hij Hi Hj; [done|].
  cbn [serve_all] in Hi, Hj. pose proof (serve_served r0 a Hwf Hr) as Hs.
  destruct (serve r0 a) as [p0 a1]; simpl in Hs. pose proof (req_size_nonneg r0 Hr).
  pose proof (served_wf r0 a p0 a1 Hwf ltac:(done) Hs) as Hwf1.
  specialize (IH a1 Hwf1). pose proof (serve_all_in_heap rs a1) as Hin.
  destruct (serve_all rs a1) as [log a2]; simpl in *.
  destruct j as [|j]; [lia|]. simpl in Hj.
  destruct i as [|i]; simpl in Hi; [|apply (IH i j); [lia|done..]].
  simplify_eq. destruct (Hin j r' q) as (? & _); [done..|].
  destruct Hs as [[-> ->]|(? & ? & ? & ? & E)]; [done|lia].
Qed.

Lemma alloc_blocks_disjoint_witness :
  let rs := [ReqAlloc 0x1000 0x1000; ReqRaw 64 64; ReqFree 0; ReqCalloc 3 100] in
  let a := val_host_mem_alloc_init (mk_alloc 0 0 0 0) in
  (serve_all rs a).1 !! 0%nat = Some (ReqAlloc 0x1000 0x1000, 0x88500000) ∧
  (serve_all rs a).1 !! 3%nat = Some (ReqCalloc 3 100, 0x88503000) ∧
  0x88500000 + 0x1000 ≤ 0x88503000.
Proof.
  intros rs a. split; [vm_compute; reflexivity|]. split; [vm_compute; reflexivity|].
  apply (alloc_blocks_disjoint rs a 0 3 (ReqAlloc 0x1000 0x1000) 0x88500000
           (ReqCalloc 3 100) 0x88503000).
  - apply val_host_mem_alloc_init_wf.
  - repeat constructor; vm_compute; try done. exists 6; by vm_compute.
  - lia.
  - vm_compute; reflexivity.
  - done.
  - vm_compute; reflexivity.
  - done.
Defined.

(** exact behaviour of [val_host_mem_alloc] on every branch.  A zero size
    or an alignment that is not a power of two returns NULL; otherwise the
    request succeeds exactly when the aligned block and the [alignment - 1]
    bytes of slack fit under [heap_top], and then the block starts at the
    first aligned address at or above [heap_base].  NULL leaves the allocator
    unchanged. *)
Theorem val_host_mem_alloc_exact a k size :
  alloc_wf a → 0 ≤ k < 32 → 0 ≤ size < 2 ^ 62 →
  let addr := ADDR_ALIGN (heap_base a) (2 ^ k) in
  let fits := addr + size + (2 ^ k - 1) <=? heap_top a in
  val_host_mem_alloc (2 ^ k) 0 a = (0, a) ∧
  (∀ n, val_is_power_of_2 (u32 n) = false → val_host_mem_alloc n size a = (0, a)) ∧
  (0 < size →
   val_host_mem_alloc (2 ^ k) size a =
     if fits then (addr, set_heap_base (addr + size + (2 ^ k - 1)) a) else (0, a)).
Proof.
  intros Hwf Hk Hs addr fits. split; [done|]. split.
  - intros n Hn. unfold val_host_mem_alloc. rewrite Hn. by destruct (size <=? 0).
  - intros Hpos. assert (0 < 2 ^ k) by (apply Z.pow_pos_nonneg; lia).
    assert (2 ^ k < 2 ^ 32) by (apply Z.pow_lt_mono_r; lia).
    unfold val_host_mem_alloc. destruct (Z.leb_spec size 0); [lia|].
    assert (u32 (2 ^ k) = 2 ^ k) as -> by (apply Z.mod_small; lia).
    rewrite val_is_power_of_2_pow2, pow2_pred_u64 by lia. cbn.
    rewrite (u64_id (size + _)) by (unfold is_u64; lia).
    destruct (mem_alloc_cases a k (size + (2 ^ k - 1))) as (_ & _ & [[HT E]|[HT E]]);
      [done|lia|lia|..]; fold addr in E, HT |- *; rewrite E; unfold fits; zb; try lia.
    + do 2 f_equal. lia.
    + done.
Qed.

Lemma val_host_mem_alloc_exact_witness :
  let a := val_host_mem_alloc_init (mk_alloc 0 0 0 0) in
  val_host_mem_alloc (2 ^ 12) 8 a = (0x88500000, set_heap_base 0x88501007 a) ∧
  val_host_mem_alloc (2 ^ 12) (50 * 0x100000) a = (0, a).
Proof.
  intros a. destruct (val_host_mem_alloc_exact a 12 8) as (_ & _ & H);
    [apply val_host_mem_alloc_init_wf|lia|lia|].
  destruct (val_host_mem_alloc_exact a 12 (50 * 0x100000)) as (_ & _ & H');
    [apply val_host_mem_alloc_init_wf|lia|lia|].
  rewrite H, H' by lia. split; vm_compute; reflexivity.
Defined.

(** [val_buffer_alloc_calloc] multiplies its arguments in 64 bits without a
    check.  From the initial heap a request for [2^52 + 1] elements of 4096
    bytes (more than 2^64 bytes) succeeds, although only 8191 bytes are taken
    from the heap of 49 MB. *)
Theorem calloc_product_wraps a :
  let a0 := val_host_mem_alloc_init a in
  let n := 2 ^ 52 + 1 in
  heap_top a0 - heap_base a0 < n * PAGE_SIZE ∧
  val_buffer_alloc_calloc n PAGE_SIZE a0 =
    (heap_base a0, set_heap_base (heap_base a0 + 8191) a0).
Proof. by vm_compute. Qed.

(** So is the size plus the alignment: a request for 2^64 - 1 bytes at a page boundary
    succeeds, and takes 4094 bytes from the heap. *)
Theorem rounding_wraps a :
  let a0 := val_host_mem_alloc_init a in
  val_host_mem_alloc PAGE_SIZE (2 ^ 64 - 1) a0 = (heap_base a0, set_heap_base (heap_base a0 + 4094) a0).
Proof. by vm_compute. Qed.

(** The VM identifiers handed out by [k] successive calls, the latest last. *)
Fixpoint vmids (k : nat) (a : alloc_state) : list Z :=
  match k with
  | O => []
  | S k => let '(v, a') := val_host_get_vmid a in v :: vmids k a'
  end.

Lemma vmids_lookup k a i :
  (i < k)%nat → vmids k a !! i = Some ((curr_vmid a + Z.of_nat i + 1) mod 2 ^ 16).
Proof.
  revert a i. induction k as [|k IH]; intros a i Hi; [lia|]. simpl.
  destruct i as [|i]; simpl.
  - f_equal. unfold u16. f_equal. lia.
  - rewrite IH by lia. simpl. unfold u16. f_equal.
    rewrite <- !Z.add_assoc, Zplus_mod_idemp_l. f_equal. lia.
Qed.

Lemma vmids_length k a : length (vmids k a) = k.
Proof. revert a. induction k as [|k IH]; intros a; simpl; auto. Qed.

(** After initialisation the first 2^16 - 1 VM identifiers are non-zero and
    pairwise distinct; the call after them wraps around to 0. *)
Theorem vmids_distinct k a :
  Z.of_nat k < 2 ^ 16 →
  let ids := vmids k (val_host_mem_alloc_init a) in
  NoDup ids ∧ Forall (λ v, 0 < v < 2 ^ 16) ids ∧
  (Z.of_nat k = 2 ^ 16 - 1 → vmids (S k) (val_host_mem_alloc_init a) !! k = Some 0).
Proof.
  intros Hk ids.
  assert (∀ i v, ids !! i = Some v → (i < k)%nat ∧ v = Z.of_nat i + 1) as Hids.
  { intros i v Hi. pose proof (lookup_lt_Some _ _ _ Hi) as Hlt.
    unfold ids in Hlt, Hi. rewrite vmids_length in Hlt. split; [done|].
    rewrite vmids_lookup in Hi by done. simplify_eq. simpl. apply Z.mod_small. lia. }
  split_and!.
  - apply NoDup_alt. intros i j v Hi Hj. apply Hids in Hi, Hj. lia.
  - apply Forall_lookup. intros i v Hi. apply Hids in Hi as [? ->]. lia.
  - intros E. rewrite vmids_lookup by lia. f_equal. rewrite E. done.
Qed.

Lemma vmids_distinct_witness :
  NoDup (vmids 3 (val_host_mem_alloc_init (mk_alloc 0 0 0 0))).
Proof. apply (vmids_distinct 3). lia. Defined.
