(* ===== verification/Libc.v ===== *)
(** The C library routines of the suite: val_libc.c (formatting and string
    helpers of the validation layer) and pal_libc.c (memory primitives of the
    platform layer).

    [Module Mem] models the byte memory: a finite map from addresses to bytes,
    in which a load or store outside the map is a fault.  [Module Str] models
    the string helpers; a C string is the list of its characters before the
    terminating zero.  [Module Fmt] models [val_vsnprintf]: the output buffer is
    state, with a fault on a write outside it; the format string and the
    variable arguments are read-only. *)
From S2P Require Import Prelude Defs.
From Stdlib Require Import Ascii.

(** Character constants. *)
Definition chr (c : Ascii.ascii) : Z := Z.of_N (Ascii.N_of_ascii c).
Arguments chr c%_char.

Fixpoint chars (s : string) : list Z :=
  match s with
  | EmptyString => []
  | String c s => chr c :: chars s
  end.

Module Mem.

Abbreviation mem := (gmap Z Z).

Definition load8 (p : Z) : M mem Z := λ m,
  match m !! p with Some v => Ok v m | None => Fault OutOfBounds end.

Definition store8 (p v : Z) : M mem unit := λ m,
  match m !! p with Some _ => Ok tt (<[p := v]> m) | None => Fault OutOfBounds end.

(** [while (len--) *d++ = *s++;] *)
Fixpoint memcpy_loop (len : nat) (d s : Z) : M mem unit :=
  match len with
  | O => ret tt
  | S len =>
      let* c := load8 s in
      store8 d c ;;
      memcpy_loop len (d + 1) (s + 1)
  end.

Definition memcpy (dst src len : Z) : M mem Z :=
  memcpy_loop (Z.to_nat len) dst src ;; ret dst.

Fixpoint memset_loop (count : nat) (ptr val : Z) : M mem unit :=
  match count with
  | O => ret tt
  | S count => store8 ptr (u8 val) ;; memset_loop count (ptr + 1) val
  end.

Definition memset (dst val count : Z) : M mem Z :=
  memset_loop (Z.to_nat count) dst val ;; ret dst.

Fixpoint memcmp_loop (len : nat) (s d : Z) : M mem Z :=
  match len with
  | O => ret 0
  | S len =>
      let* sc := load8 s in
      let* dc := load8 d in
      if truthy (sc - dc) then ret (sc - dc)
      else memcmp_loop len (s + 1) (d + 1)
  end.

Definition memcmp (s1 s2 len : Z) : M mem Z := memcmp_loop (Z.to_nat len) s1 s2.

(** [while (d != end) *--d = *--s;], [len] iterations from [d = dst + len]. *)
Fixpoint memmove_back (len : nat) (d s : Z) : M mem unit :=
  match len with
  | O => ret tt
  | S len =>
      let* c := load8 (s - 1) in
      store8 (d - 1) c ;;
      memmove_back len (d - 1) (s - 1)
  end.

Definition memmove (dst src len : Z) : M mem Z :=
  if len <=? u64 (dst - src) then memcpy dst src len
  else memmove_back (Z.to_nat len) (dst + len) (src + len) ;; ret dst.

Definition pal_memcmp (src dest len : Z) : M mem Z := memcmp src dest len.
Definition pal_memcpy (dst src len : Z) : M mem Z := memcpy dst src len.
Definition pal_memset (dst val count : Z) : M mem Z := memset dst val count ;; ret dst.
Definition val_memcmp (src dest len : Z) : M mem Z := pal_memcmp src dest len.
Definition val_memcpy (dst src len : Z) : M mem Z := pal_memcpy dst src len.
Definition val_memset (dst val count : Z) : M mem unit := pal_memset dst val count ;; ret tt.

(** [pal_strlen]: the loop leaves the map after at most [size m] steps, so that
    much fuel is enough. *)
Fixpoint strlen_loop (fuel : nat) (str length : Z) : M mem Z :=
  match fuel with
  | O => out_of_fuel
  | S fuel =>
      let* c := load8 (str + length) in
      if truthy c then strlen_loop fuel str (length + 1) else ret length
  end.

Definition pal_strlen (str : Z) : M mem Z := λ m, strlen_loop (S (size m)) str 0 m.
Definition val_strlen (str : Z) : M mem Z := pal_strlen str.

(** [mapped m p n]: the [n] bytes from [p] are in the memory. *)
Definition mapped (m : mem) (p n : Z) : Prop := ∀ i, 0 ≤ i < n → is_Some (m !! (p + i)).

(** The memory [m] with the [n] bytes at [d] replaced by those at [s] in [m0]. *)
Definition copied (m0 m : mem) (d s n : Z) : Prop :=
  ∀ a, m !! a = if bool_decide (d ≤ a < d + n) then m0 !! (s + (a - d)) else m0 !! a.

End Mem.

Module Str.

(** [val_strcat]: [buf] is the whole array [str1] points to, [length] the index
    at which the terminator of the first string stands. *)
Definition put (i v : Z) : M (list Z) unit := λ b,
  if (0 <=? i) && (i <? Z.of_nat (length b)) then Ok tt (<[Z.to_nat i := v]> b)
  else Fault OutOfBounds.

Fixpoint strcat_scan (fuel : nat) (len : Z) : M (list Z) Z :=
  match fuel with
  | O => out_of_fuel
  | S fuel => λ b,
      match b !! Z.to_nat len with
      | None => Fault OutOfBounds
      | Some c => if truthy c then strcat_scan fuel (len + 1) b else Ok len b
      end
  end.

Fixpoint strcat_copy (str2 : list Z) (len output_buff_size : Z) : M (list Z) Z :=
  match str2 with
  | [] => ret len
  | c :: str2 =>
      (if len <? output_buff_size then put len c else fail Panic) ;;
      strcat_copy str2 (len + 1) output_buff_size
  end.

Definition val_strcat (str2 : list Z) (output_buff_size : Z) : M (list Z) unit := λ b,
  (let* len := strcat_scan (S (length b)) 0 in
   let* len := strcat_copy str2 len output_buff_size in
   put len 0) b.

(** [val_strcmp]: the second string is read through its terminator, so its
    character past the end is 0. *)
Fixpoint val_strcmp (str1 str2 : list Z) : Z :=
  match str1 with
  | [] => 0
  | c :: str1' =>
      let d := match str2 with [] => 0 | d :: _ => d end in
      if negb (c =? d) then 1 else val_strcmp str1' (tail str2)
  end.

(** A C string as a list: no character is the terminator. *)
Definition cstring (s : list Z) : Prop := Forall (λ c, c ≠ 0) s.

End Str.

Module Fmt.

(** The output of the formatter: the array [s] points into, how far [s] has
    advanced in it, and [count]. *)
Record sink : Type := mk_sink { out_buf : list Z; out_pos : nat; count : Z }.

(** [*s = c;] *)
Definition write (c : Z) : M sink unit := λ k,
  if decide (out_pos k < length (out_buf k))%nat
  then Ok tt (mk_sink (<[out_pos k := c]> (out_buf k)) (out_pos k) (count k))
  else Fault OutOfBounds.

(** [if (count < n) { *s = c; s++; } count++;] *)
Definition emit (n c : Z) : M sink unit :=
  let* k := gets count in
  (if k <? n
   then write c ;; modify (λ s, mk_sink (out_buf s) (S (out_pos s)) (count s))
   else ret tt) ;;
  modify (λ s, mk_sink (out_buf s) (out_pos s) (count s + 1)).

Fixpoint string_print (n : Z) (str : list Z) : M sink unit :=
  match str with
  | [] => ret tt
  | c :: str => emit n c ;; string_print n str
  end.

(** The character of a digit. *)
Definition digit_char (rem : Z) : Z :=
  if rem <? 0xa then chr "0" + rem else chr "a" + (rem - 0xa).

(** [do { rem = (unsigned int)unum % radix; num_buf[i] = ..; i++; unum /= radix; }
    while (unum > 0U);]  The array [num_buf] holds 20 characters; it is returned
    with its least significant digit first.  64 iterations are enough for a
    64-bit number and a radix of at least 2. *)
Fixpoint digit_loop (fuel : nat) (unum radix : Z) (num_buf : list Z) : M sink (list Z) :=
  match fuel with
  | O => out_of_fuel
  | S fuel =>
      let rem := (u32 unum) mod radix in
      if (20 <=? length num_buf)%nat then fail OutOfBounds
      else
        let num_buf := num_buf ++ [digit_char rem] in
        let unum := unum / radix in
        if 0 <? unum then digit_loop fuel unum radix num_buf else ret num_buf
  end.

(** [while (width < padn) { emit padc; padn--; }] and its mirror image. *)
Fixpoint pad_down (fuel : nat) (n width : Z) (padc padn : Z) : M sink Z :=
  if width <? padn then
    match fuel with
    | O => out_of_fuel
    | S fuel => emit n padc ;; pad_down fuel n width padc (padn - 1)
    end
  else ret padn.

Fixpoint pad_up (fuel : nat) (n width : Z) (padc padn : Z) : M sink Z :=
  if width <? - padn then
    match fuel with
    | O => out_of_fuel
    | S fuel => emit n padc ;; pad_up fuel n width padc (padn + 1)
    end
  else ret padn.

Definition unsigned_num_print (n unum radix padc padn : Z) : M sink unit :=
  let* num_buf := digit_loop 64 unum radix [] in
  let width := Z.of_nat (length num_buf) in
  let* padn := (if 0 <? padn then pad_down (Z.to_nat padn) n width padc padn else ret padn) in
  string_print n (rev num_buf) ;;
  let* _ := (if padn <? 0 then pad_up (Z.to_nat (- padn)) n width padc padn else ret padn) in
  ret tt.

(** A variable argument: a 64-bit slot, or a pointer to a string. *)
Inductive va_slot : Type :=
  | VaNum (x : Z)
  | VaStr (s : list Z).

Definition s64 (x : Z) : Z := let y := u64 x in if y <? 2 ^ 63 then y else y - 2 ^ 64.
Definition s32 (x : Z) : Z := let y := u32 x in if y <? 2 ^ 31 then y else y - 2 ^ 32.

Definition get_num_va_args (args : list va_slot) (l_count : Z) : option (Z * list va_slot) :=
  match args with
  | VaNum x :: args =>
      Some (if 1 <? l_count then s64 x else if l_count =? 1 then s64 x else s32 x, args)
  | _ => None
  end.

Definition get_unum_va_args (args : list va_slot) (l_count : Z) : option (Z * list va_slot) :=
  match args with
  | VaNum x :: args =>
      Some (if 1 <? l_count then u64 x else if l_count =? 1 then u64 x else u32 x, args)
  | _ => None
  end.

Definition get_str_va_args (args : list va_slot) : option (list Z * list va_slot) :=
  match args with
  | VaStr s :: args => Some (s, args)
  | _ => None
  end.

Definition is_digit (c : Z) : bool := (chr "0" <=? c) && (c <=? chr "9").

(** [for (; *fmt >= '0' && *fmt <= '9'; fmt++) padn = (padn * 10) + ( *fmt - '0');], [None]
    when the [int] overflows. *)
Fixpoint scan_digits (fmt : list Z) (padn : Z) : option (Z * list Z) :=
  match fmt with
  | c :: fmt' =>
      if is_digit c then
        let padn := padn * 10 + (c - chr "0") in
        if padn <? 2 ^ 31 then scan_digits fmt' padn else None
      else Some (padn, fmt)
  | [] => Some (padn, [])
  end.

(** The overflow of a signed integer is undefined in C. *)
Definition no_overflow {A : Type} (o : option A) : M sink A :=
  match o with Some a => ret a | None => fail Undef end.

(** A read of a variable argument of the wrong type, or past the last one, is
    undefined in C. *)
Definition need {A : Type} (o : option A) : M sink A :=
  match o with Some a => ret a | None => fail BadDeref end.

(** The conversion at label [loop].  The result is the rest of the format and
    of the arguments, or [None] for [return -1]. *)
Fixpoint conversion (fuel : nat) (n : Z) (fmt : list Z) (args : list va_slot)
    (l_count : Z) (left : bool) (padc padn : Z) : M sink (option (list Z * list va_slot)) :=
  match fuel with
  | O => out_of_fuel
  | S fuel =>
      match fmt with
      | [] => ret None
      | c :: fmt' =>
          if (chr "1" <=? c) && (c <=? chr "9") then
            let* (padn, rest) := no_overflow (scan_digits fmt 0) in
            conversion fuel n rest args l_count left (chr " ") (if left then - padn else padn)
          else if c =? chr "-" then
            conversion fuel n fmt' args l_count true padc padn
          else if (c =? chr "i") || (c =? chr "d") then
            let* (num, args) := need (get_num_va_args args l_count) in
            let* unum := (if num <? 0 then emit n (chr "-") ;; ret (u64 (- num))
                          else ret (u64 num)) in
            unsigned_num_print n unum 10 padc padn ;;
            ret (Some (fmt', args))
          else if c =? chr "l" then
            conversion fuel n fmt' args (l_count + 1) left padc padn
          else if c =? chr "s" then
            let* (str, args) := need (get_str_va_args args) in
            string_print n str ;;
            ret (Some (fmt', args))
          else if c =? chr "u" then
            let* (unum, args) := need (get_unum_va_args args l_count) in
            unsigned_num_print n unum 10 padc padn ;;
            ret (Some (fmt', args))
          else if c =? chr "x" then
            let* (unum, args) := need (get_unum_va_args args l_count) in
            unsigned_num_print n unum 16 padc padn ;;
            ret (Some (fmt', args))
          else if c =? chr "0" then
            let* (padn, rest) := no_overflow (scan_digits fmt' 0) in
            conversion fuel n rest args l_count left (chr "0") padn
          else ret None
      end
  end.

(** [while ( *fmt != '\0') ...]; [None] is [return -1]. *)
Fixpoint format_loop (fuel : nat) (n : Z) (fmt : list Z) (args : list va_slot) :
    M sink (option unit) :=
  match fuel with
  | O => out_of_fuel
  | S fuel =>
      match fmt with
      | [] => ret (Some tt)
      | c :: fmt' =>
          if c =? chr "%" then
            let* r := conversion (S (length fmt')) n fmt' args 0 false 0 0 in
            match r with
            | None => ret None
            | Some (rest, args) => format_loop fuel n rest args
            end
          else emit n c ;; format_loop fuel n fmt' args
      end
  end.

(** From the loop over the format to the end of the function. *)
Definition format_and_end (n : Z) (fmt : list Z) (args : list va_slot) : M sink Z :=
  let* r := format_loop (S (length fmt)) n fmt args in
  match r with
  | None => ret (-1)
  | Some _ =>
      (if 0 <? n then write 0 else ret tt) ;;
      let* c := gets count in ret (s32 c)
  end.

Definition val_vsnprintf (n : Z) (fmt : list Z) (args : list va_slot) : M sink Z :=
  let* n := (if n =? 0 then ret 0
             else if n =? 1 then write 0 ;; ret 0
             else ret (n - 1)) in
  format_and_end n fmt args.

(** The call on a buffer: [s] points to its first byte. *)
Definition snprintf (buf : list Z) (n : Z) (fmt : list Z) (args : list va_slot) :
    outcome (list Z) Z :=
  match val_vsnprintf n fmt args (mk_sink buf 0 0) with
  | Ok c k => Ok c (out_buf k)
  | Fault f => Fault f
  | NoFuel => NoFuel
  end.

End Fmt.

(** * Memory primitives *)

Module MemFacts.
Import Mem.

Lemma load8_eq (m : mem) p v : m !! p = Some v → load8 p m = Ok v m.
Proof. intros E. unfold load8. by rewrite E. Qed.

Lemma store8_eq (m : mem) p v : is_Some (m !! p) → store8 p v m = Ok tt (<[p := v]> m).
Proof. intros [w E]. unfold store8. by rewrite E. Qed.

Lemma mapped_insert m p n a v : mapped m p n → mapped (<[a := v]> m) p n.
Proof.
  intros Hm i Hi. destruct (decide (a = p + i)) as [->|].
  - rewrite lookup_insert_eq. eauto.
  - rewrite lookup_insert_ne by done. by apply Hm.
Qed.

Lemma mapped_shift m p n k : 0 ≤ k → mapped m p n → mapped m (p + k) (n - k).
Proof. intros Hk Hm i Hi. rewrite <- Z.add_assoc. apply Hm. lia. Qed.

Lemma copied_nil m d s n : n ≤ 0 → copied m m d s n.
Proof. intros Hn a. case_bool_decide; [lia|done]. Qed.

(** The forward loop copies when the destination does not run into source
    bytes that are still to be read. *)
Lemma memcpy_loop_copied n m d s :
  mapped m s (Z.of_nat n) → mapped m d (Z.of_nat n) →
  d ≤ s ∨ s + Z.of_nat n ≤ d →
  run_to (memcpy_loop n d s) m (λ _ m', copied m m' d s (Z.of_nat n)).
Proof.
  revert m d s. induction n as [|n IH]; intros m d s Hs Hd Hov; cbn [memcpy_loop].
  { apply run_to_ret. by apply copied_nil. }
  destruct (Hs 0) as [c Hc]; [lia|]. rewrite Z.add_0_r in Hc.
  assert (is_Some (m !! d)) as Hdd by (rewrite <- (Z.add_0_r d); apply Hd; lia).
  eapply run_to_step; [by apply load8_eq|].
  eapply run_to_step; [by apply store8_eq|]. eapply run_to_mono; [apply IH|].
  - apply mapped_insert. replace (Z.of_nat n) with (Z.of_nat (S n) - 1) by lia.
    apply mapped_shift; [lia|done].
  - apply mapped_insert. replace (Z.of_nat n) with (Z.of_nat (S n) - 1) by lia.
    apply mapped_shift; [lia|done].
  - lia.
  - intros ? m' Hm' a. rewrite Hm'. repeat case_bool_decide; try lia.
    + rewrite lookup_insert_ne by lia. f_equal. lia.
    + destruct (decide (a = d)) as [->|]; [|lia].
      rewrite lookup_insert_eq. rewrite <- Hc. f_equal. lia.
    + by rewrite lookup_insert_ne by lia.
Qed.

Lemma memmove_back_copied n m d s :
  mapped m (s - Z.of_nat n) (Z.of_nat n) → mapped m (d - Z.of_nat n) (Z.of_nat n) → s ≤ d →
  run_to (memmove_back n d s) m
    (λ _ m', copied m m' (d - Z.of_nat n) (s - Z.of_nat n) (Z.of_nat n)).
Proof.
  revert m d s. induction n as [|n IH]; intros m d s Hs Hd Hov; cbn [memmove_back].
  { apply run_to_ret. by apply copied_nil. }
  destruct (Hs (Z.of_nat n)) as [c Hc]; [lia|].
  replace (s - Z.of_nat (S n) + Z.of_nat n) with (s - 1) in Hc by lia.
  destruct (Hd (Z.of_nat n)) as [e He]; [lia|].
  replace (d - Z.of_nat (S n) + Z.of_nat n) with (d - 1) in He by lia.
  eapply run_to_step; [by apply load8_eq|].
  eapply run_to_step; [by apply store8_eq; eauto|]. eapply run_to_mono; [apply IH|].
  - apply mapped_insert. intros i Hi. replace (s - 1 - Z.of_nat n) with (s - Z.of_nat (S n)) by lia.
    apply Hs. lia.
  - apply mapped_insert. intros i Hi. replace (d - 1 - Z.of_nat n) with (d - Z.of_nat (S n)) by lia.
    apply Hd. lia.
  - lia.
  - intros ? m' Hm' a. rewrite Hm'. repeat case_bool_decide; try lia.
    + rewrite lookup_insert_ne by lia. f_equal. lia.
    + destruct (decide (a = d - 1)) as [->|]; [|lia].
      rewrite lookup_insert_eq. rewrite <- Hc. f_equal. lia.
    + by rewrite lookup_insert_ne by lia.
Qed.

(** [memmove] copies correctly for every placement of the two regions,
    overlapping or not: it returns, the destination holds what the source held
    before the call, and no other byte changes.  The test
    [(size_t)dst - (size_t)src >= len] picks the forward loop exactly when it is
    safe, thanks to the wrap-around for a destination below the source. *)
Theorem memmove_correct m dst src len :
  is_u64 dst → is_u64 src → 0 ≤ len → dst + len ≤ 2 ^ 64 → src + len ≤ 2 ^ 64 →
  mapped m dst len → mapped m src len →
  run_to (memmove dst src len) m (λ r m', r = dst ∧ copied m m' dst src len).
Proof.
  intros [Hd Hd2] [Hs Hs2] Hl Hd' Hs' Md Ms. unfold memmove.
  assert (Z.of_nat (Z.to_nat len) = len) as El by lia.
  assert ((src ≤ dst ∧ u64 (dst - src) = dst - src) ∨
          (dst < src ∧ u64 (dst - src) = dst - src + 2 ^ 64)) as EU.
  { unfold u64. destruct (Z.leb_spec src dst); [left|right]; (split; [lia|]).
    - apply Z.mod_small; lia.
    - rewrite <- (Z.mod_small (dst - src + 2 ^ 64) (2 ^ 64)) by lia.
      rewrite <- (Z_mod_plus (dst - src) 1 (2 ^ 64)) by lia. done. }
  destruct (Z.leb_spec len (u64 (dst - src))).
  - unfold memcpy. eapply run_to_bind; [apply memcpy_loop_copied; rewrite ?El; try done|].
    + lia.
    + intros ? m' Hm'. apply run_to_ret. by rewrite El in Hm'.
  - eapply run_to_bind; [apply memmove_back_copied; rewrite ?El|].
    + by replace (src + len - len) with src by lia.
    + by replace (dst + len - len) with dst by lia.
    + lia.
    + intros ? m' Hm'. apply run_to_ret. split; [done|]. rewrite El in Hm'.
      by replace (dst + len - len) with dst in Hm' by lia;
        replace (src + len - len) with src in Hm' by lia.
Qed.

(** Two overlapping regions: bytes 0-3 of a four-byte memory, moved up by one. *)
Lemma memmove_correct_witness :
  let m : mem := list_to_map [(0, 10); (1, 11); (2, 12); (3, 13)] in
  run_to (memmove 1 0 3) m (λ r m', r = 1 ∧ copied m m' 1 0 3).
Proof.
  intros m. apply (memmove_correct m 1 0 3); try done.
  - intros i Hi. assert (i = 0 ∨ i = 1 ∨ i = 2) as [-> | [-> | ->]] by lia; eexists; vm_compute; reflexivity.
  - intros i Hi. assert (i = 0 ∨ i = 1 ∨ i = 2) as [-> | [-> | ->]] by lia; eexists; vm_compute; reflexivity.
Defined.

(** What the result of [memcmp] says about the first [n] bytes at [s] and [d]. *)
Definition cmp_result (m : mem) (s d n r : Z) : Prop :=
  (r = 0 ↔ ∀ i, 0 ≤ i < n → m !! (s + i) = m !! (d + i)) ∧
  (r ≠ 0 → ∃ i x y, 0 ≤ i < n ∧ m !! (s + i) = Some x ∧ m !! (d + i) = Some y ∧
     r = x - y ∧ ∀ j, 0 ≤ j < i → m !! (s + j) = m !! (d + j)).

Lemma cmp_result_nil m s d n : n ≤ 0 → cmp_result m s d n 0.
Proof. intros Hn. split; [split; [intros _ i Hi; lia|done]|done]. Qed.

Lemma cmp_result_differ (m : mem) s d n x y :
  0 < n → m !! s = Some x → m !! d = Some y → x - y ≠ 0 → cmp_result m s d n (x - y).
Proof.
  intros Hn Hx Hy E. split.
  - split; [done|]. intros Heq. specialize (Heq 0 ltac:(lia)).
    rewrite !Z.add_0_r, Hx, Hy in Heq. simplify_eq. lia.
  - intros _. exists 0, x, y. rewrite !Z.add_0_r. split_and!; [lia|lia|done|done|done|].
    intros j Hj. lia.
Qed.

Lemma eq_from_tail (m : mem) s d n :
  m !! s = m !! d → (∀ i, 0 ≤ i < n → m !! (s + 1 + i) = m !! (d + 1 + i)) →
  ∀ i, 0 ≤ i < n + 1 → m !! (s + i) = m !! (d + i).
Proof.
  intros H0 Ht i Hi. destruct (decide (i = 0)) as [->|]; [by rewrite !Z.add_0_r|].
  replace (s + i) with (s + 1 + (i - 1)) by lia.
  replace (d + i) with (d + 1 + (i - 1)) by lia. apply Ht. lia.
Qed.

Lemma cmp_result_step (m : mem) s d n r :
  m !! s = m !! d → cmp_result m (s + 1) (d + 1) n r → cmp_result m s d (n + 1) r.
Proof.
  intros H0 [H1 H2]. split.
  - rewrite H1. split; [by apply eq_from_tail|]. intros Heq i Hi.
    rewrite <- !Z.add_assoc. apply Heq. lia.
  - intros Hr. destruct (H2 Hr) as (i & a & b & Hi & Ha & Hb & -> & Hj).
    exists (1 + i), a, b. rewrite !Z.add_assoc. split_and!; [lia|lia|done|done|done|].
    rewrite Z.add_comm. by apply eq_from_tail.
Qed.

Lemma memcmp_loop_result n m s d :
  mapped m s (Z.of_nat n) → mapped m d (Z.of_nat n) →
  run_to (memcmp_loop n s d) m (λ r m', m' = m ∧ cmp_result m s d (Z.of_nat n) r).
Proof.
  revert s d. induction n as [|n IH]; intros s d Hs Hd; cbn [memcmp_loop].
  { apply run_to_ret. split; [done|]. by apply cmp_result_nil. }
  destruct (Hs 0) as [x Hx]; [lia|]. destruct (Hd 0) as [y Hy]; [lia|].
  rewrite Z.add_0_r in Hx, Hy.
  eapply run_to_step; [by apply load8_eq|]. eapply run_to_step; [by apply load8_eq|].
  replace (Z.of_nat (S n)) with (Z.of_nat n + 1) in * by lia.
  assert (Z.of_nat n = Z.of_nat n + 1 - 1) as En by lia.
  unfold truthy. destruct (Z.eqb_spec (x - y) 0) as [E|E]; cbn [negb].
  - eapply run_to_mono; [apply IH; rewrite En; apply mapped_shift; done || lia|].
    intros r m' [-> Hr]. split; [done|]. apply cmp_result_step; [|done].
    rewrite Hx, Hy. f_equal. lia.
  - apply run_to_ret. split; [done|]. apply cmp_result_differ; done || lia.
Qed.

(** [memcmp] (and [val_memcmp] above it) on two mapped buffers returns
    without changing the memory, and its result is 0 exactly when the buffers
    are equal; otherwise it is the difference of the first bytes that differ. *)
Theorem val_memcmp_correct m s d len :
  mapped m s len → mapped m d len →
  run_to (val_memcmp s d len) m (λ r m', m' = m ∧
    (r = 0 ↔ ∀ i, 0 ≤ i < len → m !! (s + i) = m !! (d + i)) ∧
    (r ≠ 0 → ∃ i x y, 0 ≤ i < len ∧ m !! (s + i) = Some x ∧ m !! (d + i) = Some y ∧
       r = x - y ∧ ∀ j, 0 ≤ j < i → m !! (s + j) = m !! (d + j))).
Proof.
  intros Hs Hd. unfold val_memcmp, pal_memcmp, memcmp. destruct (Z.leb_spec len 0).
  - replace (Z.to_nat len) with O by lia. apply run_to_ret. split; [done|].
    by apply cmp_result_nil.
  - rewrite <- (Z2Nat.id len) in Hs, Hd by lia.
    eapply run_to_mono; [by apply memcmp_loop_result|].
    rewrite Z2Nat.id by lia. intros r m' [-> Hr]. by split.
Qed.

Lemma val_memcmp_correct_witness :
  let m : mem := list_to_map [(0, 10); (1, 11); (8, 10); (9, 11)] in
  run_to (val_memcmp 0 8 2) m (λ r m', m' = m ∧ (r = 0 ↔ ∀ i, 0 ≤ i < 2 → m !! (0 + i) = m !! (8 + i))).
Proof.
  intros m. eapply run_to_mono; [apply (val_memcmp_correct m 0 8 2)|].
  - intros i Hi. assert (i = 0 ∨ i = 1) as [-> | ->] by lia; eexists; vm_compute; reflexivity.
  - intros i Hi. assert (i = 0 ∨ i = 1) as [-> | ->] by lia; eexists; vm_compute; reflexivity.
  - intros r m' (? & ? & _). done.
Defined.

(** A run of mapped addresses is not longer than the memory. *)
Lemma mapped_size m p (n : nat) : mapped m p (Z.of_nat n) → (n ≤ size m)%nat.
Proof.
  intros Hm. set (l := (λ i, p + Z.of_nat i) <$> seq 0 n).
  assert (NoDup l) as Hl.
  { apply NoDup_fmap_2_strong; [|apply NoDup_seq]. intros x y _ _ E. lia. }
  assert (size (list_to_set l : gset Z) ≤ size (dom m : gset Z))%nat as HS.
  { apply subseteq_size. intros a Ha. apply elem_of_list_to_set in Ha.
    unfold l in Ha. apply list_elem_of_fmap in Ha as (i & -> & Hi%elem_of_seq).
    apply elem_of_dom. apply Hm. lia. }
  rewrite size_list_to_set in HS by done. rewrite size_dom in HS.
  unfold l in HS. rewrite length_fmap, length_seq in HS. done.
Qed.

(** The string [s] stands at address [p], with its terminator. *)
Definition cstr_at (m : mem) (p : Z) (s : list Z) : Prop :=
  Str.cstring s ∧ (∀ i c, s !! i = Some c → m !! (p + Z.of_nat i) = Some c) ∧
  m !! (p + Z.of_nat (length s)) = Some 0.

Lemma cstr_at_mapped m p s : cstr_at m p s → mapped m p (Z.of_nat (S (length s))).
Proof.
  intros (_ & Hc & Hz) i Hi. destruct (decide (i = Z.of_nat (length s))) as [->|]; [eauto|].
  destruct (lookup_lt_is_Some_2 s (Z.to_nat i)) as [c Hc']; [lia|].
  apply Hc in Hc'. rewrite Z2Nat.id in Hc' by lia. eauto.
Qed.

(** [val_strlen] terminates on every terminated string, with its length,
    and does not change the memory: the fuel of the model is always enough. *)
Theorem val_strlen_correct m p s :
  cstr_at m p s → val_strlen p m = Ok (Z.of_nat (length s)) m.
Proof.
  intros Hs. pose proof (mapped_size _ _ _ (cstr_at_mapped _ _ _ Hs)) as Hsz.
  destruct Hs as (Hnz & Hc & Hz). unfold val_strlen, pal_strlen.
  assert (∀ fuel k, (k ≤ length s)%nat → (length s < fuel + k)%nat →
    strlen_loop fuel p (Z.of_nat k) m = Ok (Z.of_nat (length s)) m) as HL.
  2: { apply (HL _ 0%nat); lia. }
  induction fuel as [|fuel IH]; intros k Hk Hf; [lia|]. cbn [strlen_loop].
  destruct (decide (k = length s)) as [->|Hne].
  - by rewrite (bind_step _ _ _ _ _ (load8_eq _ _ _ Hz)).
  - destruct (lookup_lt_is_Some_2 s k) as [c Hck]; [lia|].
    rewrite (bind_step _ _ _ _ _ (load8_eq _ _ _ (Hc _ _ Hck))).
    eapply Forall_lookup_1 in Hnz; [|done]. unfold truthy.
    destruct (Z.eqb_spec c 0); [done|]. cbn.
    replace (Z.of_nat k + 1) with (Z.of_nat (S k)) by lia. apply IH; lia.
Qed.

Lemma val_strlen_correct_witness :
  val_strlen 16 (list_to_map [(16, 65); (17, 66); (18, 0)]) =
  Ok 2 (list_to_map [(16, 65); (17, 66); (18, 0)]).
Proof.
  apply (val_strlen_correct _ 16 [65; 66]). split; [|split].
  - repeat constructor; done.
  - intros [|[|i]] c Hc; vm_compute in Hc; simplify_eq; vm_compute; reflexivity.
  - vm_compute; reflexivity.
Defined.

End MemFacts.

(** * String helpers *)

Module StrFacts.
Import Str.

(** [val_strcmp] returns 0 exactly when its first argument is a prefix of
    the second.  The comment of the function promises 0 for equal strings; the
    loop stops at the end of the first string without looking at the second. *)
Theorem val_strcmp_prefix s1 s2 :
  cstring s1 → cstring s2 →
  (val_strcmp s1 s2 = 0 ↔ s1 `prefix_of` s2) ∧ (val_strcmp s1 s2 = 0 ∨ val_strcmp s1 s2 = 1).
Proof.
  intros H1. revert s2. induction H1 as [|c s1 Hc _ IH]; intros s2 H2; simpl.
  { split; [|by left]. split; [intros _; apply prefix_nil|done]. }
  destruct H2 as [|d s2 Hd H2]; simpl.
  - destruct (Z.eqb_spec c 0); [done|]. simpl. split; [|by right].
    split; [done|]. intros []%prefix_nil_not.
  - destruct (Z.eqb_spec c d) as [->|]; simpl.
    + destruct (IH s2 H2) as [IH1 IH2]. split; [|done]. rewrite IH1. split.
      * apply prefix_cons.
      * apply prefix_cons_inv_2.
    + split; [|by right]. split; [done|]. intros E%prefix_cons_inv_1. done.
Qed.

(** The suite name [mec] is accepted as [mec_id_private]. *)
Lemma val_strcmp_prefix_witness :
  val_strcmp (chars "mec") (chars "mec_id_private") = 0 ∧
  chars "mec" `prefix_of` chars "mec_id_private".
Proof.
  assert (val_strcmp (chars "mec") (chars "mec_id_private") = 0) as E by (vm_compute; reflexivity).
  split; [exact E|].
  apply (val_strcmp_prefix (chars "mec") (chars "mec_id_private")); [..|exact E];
    repeat constructor; done.
Defined.

Lemma strcat_scan_end fuel s1 rest k :
  cstring s1 → (k ≤ length s1)%nat → (length s1 < fuel + k)%nat →
  strcat_scan fuel (Z.of_nat k) (s1 ++ 0 :: rest) = Ok (Z.of_nat (length s1)) (s1 ++ 0 :: rest).
Proof.
  intros Hs. revert k. induction fuel as [|fuel IH]; intros k Hk Hf; [lia|].
  cbn [strcat_scan]. rewrite Nat2Z.id. destruct (decide (k = length s1)) as [->|].
  - by rewrite list_lookup_middle.
  - rewrite lookup_app_l by lia.
    destruct (lookup_lt_is_Some_2 s1 k) as [c Hc]; [lia|]. rewrite Hc.
    eapply Forall_lookup_1 in Hs; [|done]. unfold truthy. destruct (Z.eqb_spec c 0); [done|].
    cbn. replace (Z.of_nat k + 1) with (Z.of_nat (S k)) by lia. apply IH; lia.
Qed.

Lemma put_middle p x q v : put (Z.of_nat (length p)) v (p ++ x :: q) = Ok tt (p ++ v :: q).
Proof.
  unfold put. rewrite length_app, Nat2Z.id. simpl. zb; try lia. simpl.
  by rewrite <- (Nat.add_0_r (length p)), insert_app_r.
Qed.

Lemma tail_drop_cons {A} n (x : A) l : tail (drop n (x :: l)) = drop n l.
Proof. revert x l. induction n as [|n IH]; intros x [|y l]; simpl; try done; by destruct n. Qed.

Lemma strcat_copy_end s2 p q N :
  Z.of_nat (length (p ++ q)) = N →
  strcat_copy s2 (Z.of_nat (length p)) N (p ++ q) =
    if bool_decide (length s2 ≤ length q)%nat
    then Ok (Z.of_nat (length p + length s2)) ((p ++ s2) ++ drop (length s2) q)
    else Fault Panic.
Proof.
  revert p q. induction s2 as [|c s2 IH]; intros p q HN; cbn [strcat_copy length].
  { case_bool_decide; [|lia]. by rewrite Nat.add_0_r, app_nil_r. }
  rewrite length_app in HN. unfold bind. destruct (Z.ltb_spec (Z.of_nat (length p)) N).
  - destruct q as [|x q]; [simpl in HN; lia|]. rewrite put_middle.
    replace (Z.of_nat (length p) + 1) with (Z.of_nat (length (p ++ [c])))
      by (rewrite length_app; simpl; lia).
    replace (p ++ c :: q) with ((p ++ [c]) ++ q) by (by rewrite <- app_assoc).
    rewrite IH by (rewrite !length_app; simpl in *; lia).
    simpl. repeat case_bool_decide; try lia; [|done].
    f_equal; [rewrite length_app; simpl; lia|]. by rewrite <- !app_assoc.
  - destruct q; [|simpl in HN; lia]. simpl. done.
Qed.

(** [val_strcat] on a buffer of [output_buff_size] bytes.  It appends and
    terminates when the result and its terminator fit, and it stops the run when
    the characters alone do not fit.  When the characters fill the buffer
    exactly, the check lets the call through and the terminator is written one
    byte past the end of the buffer. *)
Theorem val_strcat_cases s1 s2 rest :
  cstring s1 →
  let b := s1 ++ 0 :: rest in
  let size := Z.of_nat (length b) in
  let len := Z.of_nat (length s1 + length s2) in
  (len < size →
     val_strcat s2 size b = Ok tt (s1 ++ s2 ++ 0 :: drop (length s2) rest)) ∧
  (len = size → val_strcat s2 size b = Fault OutOfBounds) ∧
  (size < len → val_strcat s2 size b = Fault Panic).
Proof.
  intros Hs b size len. assert (length b = S (length s1 + length rest)) as Hlb.
  { unfold b. rewrite length_app. simpl. lia. }
  assert (val_strcat s2 size b = bind (strcat_copy s2 (Z.of_nat (length s1)) size) (λ l, put l 0) b) as ->.
  { unfold val_strcat. erewrite bind_step; [done|]. apply (strcat_scan_end _ s1 rest 0); [done|lia|].
    fold b. lia. }
  unfold bind. subst b. rewrite strcat_copy_end by done. split_and!.
  - intros Hl. case_bool_decide; [|simpl in *; lia].
    rewrite <- length_app. assert (length s2 < length (0%Z :: rest))%nat as Hlt by (simpl; lia).
    destruct (drop (length s2) (0 :: rest)) as [|y q] eqn:E.
    { apply (f_equal length) in E. rewrite length_drop in E. simpl in *. lia. }
    rewrite put_middle, <- app_assoc. do 4 f_equal.
    apply (f_equal tail) in E. by rewrite tail_drop_cons in E.
  - intros Hl. case_bool_decide; [|simpl in *; lia]. unfold put.
    rewrite !length_app, length_drop. simpl. zb; try lia. done.
  - intros Hl. case_bool_decide; [simpl in *; lia|done].
Qed.

Lemma val_strcat_cases_witness :
  val_strcat (chars "cd") 6 (chars "ab" ++ 0 :: [9; 9; 9]) = Ok tt (chars "abcd" ++ [0; 9]) ∧
  val_strcat (chars "cdef") 6 (chars "ab" ++ 0 :: [9; 9; 9]) = Fault OutOfBounds ∧
  val_strcat (chars "cdefg") 6 (chars "ab" ++ 0 :: [9; 9; 9]) = Fault Panic.
Proof.
  assert (cstring (chars "ab")) as Hs by (repeat constructor; done).
  split; [|split].
  - apply (val_strcat_cases (chars "ab") (chars "cd") [9; 9; 9] Hs). vm_compute; reflexivity.
  - apply (val_strcat_cases (chars "ab") (chars "cdef") [9; 9; 9] Hs). vm_compute; reflexivity.
  - apply (val_strcat_cases (chars "ab") (chars "cdefg") [9; 9; 9] Hs). vm_compute; reflexivity.
Defined.

End StrFacts.

(** * The formatter

    [format_text] is the reference: the whole text the format and arguments
    stand for, with no buffer; [reference_text] shows every number with its own digits.  The theorems relate [val_vsnprintf] to it. *)

Module FmtSpec.
Import Fmt.

(** The digits of a number, lowest first. *)
Fixpoint digits (fuel : nat) (unum radix : Z) : list Z :=
  match fuel with
  | O => []
  | S fuel =>
      digit_char (unum mod radix) ::
      (if 0 <? unum / radix then digits fuel (unum / radix) radix else [])
  end.

(** The digits as [digit_loop] computes them, from the low 32 bits of what is left. *)
Fixpoint num_digits (fuel : nat) (unum radix : Z) : list Z :=
  match fuel with
  | O => []
  | S fuel =>
      digit_char ((u32 unum) mod radix) ::
      (if 0 <? unum / radix then num_digits fuel (unum / radix) radix else [])
  end.

(** How a text shows a number: with its digits; with them unless it is a decimal number
    of more than 32 bits; with those that the code computes. *)
Definition shown (unum radix : Z) : option (list Z) := Some (digits 20 unum radix).
Definition shown_32 (unum radix : Z) : option (list Z) :=
  if (radix =? 10) && (2 ^ 32 <=? unum) then None else shown unum radix.
Definition computed (unum radix : Z) : option (list Z) := Some (num_digits 20 unum radix).

Definition padded (ds : list Z) (padc padn : Z) : list Z :=
  let width := Z.of_nat (length ds) in
  replicate (Z.to_nat (padn - width)) padc ++ rev ds ++
  replicate (Z.to_nat (- padn - width)) padc.
Definition num_text (unum radix padc padn : Z) : list Z := padded (num_digits 20 unum radix) padc padn.

(** The text of one conversion, and what is left of the format and arguments;
    [None] inside for a conversion the formatter rejects, [None] outside for
    arguments that do not match the conversion, for a width beyond an [int] and for a
    number that [show] does not show. *)
Section Text.
Variable show : Z → Z → option (list Z).

Fixpoint conv_text (fuel : nat) (fmt : list Z) (args : list va_slot)
    (l_count : Z) (left : bool) (padc padn : Z) :
    option (list Z * option (list Z * list va_slot)) :=
  match fuel, fmt with
  | O, _ => None
  | S _, [] => Some ([], None)
  | S fuel, c :: fmt' =>
      if (chr "1" <=? c) && (c <=? chr "9") then
        '(padn, rest) ← scan_digits fmt 0;
        conv_text fuel rest args l_count left (chr " ") (if left then - padn else padn)
      else if c =? chr "-" then conv_text fuel fmt' args l_count true padc padn
      else if (c =? chr "i") || (c =? chr "d") then
        '(num, args) ← get_num_va_args args l_count;
        ds ← show (u64 (Z.abs num)) 10;
        Some ((if num <? 0 then [chr "-"] else []) ++ padded ds padc padn, Some (fmt', args))
      else if c =? chr "l" then conv_text fuel fmt' args (l_count + 1) left padc padn
      else if c =? chr "s" then
        '(str, args) ← get_str_va_args args; Some (str, Some (fmt', args))
      else if c =? chr "u" then
        '(unum, args) ← get_unum_va_args args l_count;
        ds ← show unum 10;
        Some (padded ds padc padn, Some (fmt', args))
      else if c =? chr "x" then
        '(unum, args) ← get_unum_va_args args l_count;
        ds ← show unum 16;
        Some (padded ds padc padn, Some (fmt', args))
      else if c =? chr "0" then
        '(padn, rest) ← scan_digits fmt' 0;
        conv_text fuel rest args l_count left (chr "0") padn
      else Some ([], None)
  end.

(** The text of a format, and whether the formatter accepts all of it. *)
Fixpoint format_text (fuel : nat) (fmt : list Z) (args : list va_slot) : option (list Z * bool) :=
  match fuel, fmt with
  | O, _ => None
  | S _, [] => Some ([], true)
  | S fuel, c :: fmt' =>
      if c =? chr "%" then
        '(txt, r) ← conv_text (S (length fmt')) fmt' args 0 false 0 0;
        match r with
        | None => Some (txt, false)
        | Some (rest, args) =>
            '(txt', ok) ← format_text fuel rest args; Some (txt ++ txt', ok)
        end
      else '(txt, ok) ← format_text fuel fmt' args; Some (c :: txt, ok)
  end.
End Text.

(** The text that a format and its arguments stand for, and whether every decimal number
    in it is below 2^32. *)
Definition reference_text (fmt : list Z) (args : list va_slot) : option (list Z * bool) :=
  format_text shown (S (length fmt)) fmt args.
Definition decimals_fit (fmt : list Z) (args : list va_slot) : Prop :=
  is_Some (format_text shown_32 (S (length fmt)) fmt args).

(** The buffer after [txt] went through a window of [n] bytes of [b]. *)
Definition window (n : nat) (b txt : list Z) : list Z :=
  take n txt ++ drop (length txt `min` n) b.

Definition sink_ok (n : nat) (b txt : list Z) (s : sink) : Prop :=
  s = mk_sink (window n b txt) (length txt `min` n) (Z.of_nat (length txt)).

(** The value of a list of digits, least significant first. *)
Definition digit_val (c : Z) : Z := if c <? chr "a" then c - chr "0" else c - chr "a" + 0xa.
Definition num_val (radix : Z) (ds : list Z) : Z :=
  foldr (λ c v, digit_val c + radix * v) 0 ds.

End FmtSpec.

Module FmtFacts.
Import Fmt FmtSpec.

(** ** Digits *)

Lemma div_lt_pow radix unum j :
  2 ≤ radix → 0 ≤ unum < radix ^ Z.of_nat (S (S j)) →
  0 ≤ unum / radix < radix ^ Z.of_nat (S j).
Proof.
  intros Hr [H0 H1]. split; [apply Z.div_pos; lia|].
  apply Z.div_lt_upper_bound; [lia|]. by rewrite <- Z.pow_succ_r, <- Nat2Z.inj_succ by lia.
Qed.

Lemma digit_loop_digits j fuel unum radix acc :
  2 ≤ radix → 0 ≤ unum < radix ^ Z.of_nat (S j) → (j < fuel)%nat → (length acc + S j ≤ 20)%nat →
  (∀ s, digit_loop fuel unum radix acc s = Ok (acc ++ num_digits (S j) unum radix) s) ∧
  num_digits 20 unum radix = num_digits (S j) unum radix ∧
  (length (num_digits (S j) unum radix) ≤ S j)%nat.
Proof.
  intros Hr. revert fuel unum acc.
  assert (∀ k j unum, 0 ≤ unum < radix ^ Z.of_nat (S j) → (j < k)%nat →
    num_digits k unum radix = num_digits (S j) unum radix ∧
    (length (num_digits (S j) unum radix) ≤ S j)%nat) as HN.
  { clear j. induction k as [|k IH]; intros j unum Hu Hk; [lia|].
    assert (0 ≤ unum / radix) by (apply Z.div_pos; lia). cbn [num_digits].
    destruct (Z.ltb_spec 0 (unum / radix)); [|simpl; split; [done|lia]].
    destruct j as [|j].
    { rewrite Z.div_small in * by (rewrite Z.pow_1_r in Hu; lia). lia. }
    destruct (IH j (unum / radix)) as [-> ?].
    - by apply div_lt_pow.
    - lia.
    - split; [done|]. cbn [length]. lia. }
  intros fuel unum acc Hu Hf Ha. split; [|apply (HN 20%nat); [exact Hu|lia]]. revert fuel unum acc Hu Hf Ha.
  induction j as [|j IH]; intros [|fuel] unum acc Hu Hf Ha s; try lia;
    cbn [digit_loop]; (destruct (Nat.leb_spec 20 (length acc)); [lia|]).
  - assert (unum / radix = 0) as E by (apply Z.div_small; rewrite Z.pow_1_r in Hu; lia).
    cbn [num_digits]. by rewrite E.
  - cbn [num_digits]. destruct (Z.ltb_spec 0 (unum / radix)); [|done].
    rewrite IH.
    + by rewrite <- app_assoc.
    + by apply div_lt_pow.
    + lia.
    + rewrite length_app. simpl. lia.
Qed.

(** No 64-bit number overruns [num_buf], in either of the two radices used. *)
Lemma digit_loop_u64 unum radix s :
  is_u64 unum → radix = 10 ∨ radix = 16 →
  digit_loop 64 unum radix [] s = Ok (num_digits 20 unum radix) s.
Proof.
  intros [Hu Hu'] Hr.
  destruct (digit_loop_digits 19 64 unum radix []) as (E & E' & _).
  - lia.
  - split; [done|]. eapply Z.lt_le_trans; [done|]. destruct Hr as [-> | ->]; by vm_compute.
  - lia.
  - simpl; lia.
  - by rewrite E.
Qed.

Lemma digit_val_char r : 0 ≤ r < 16 → digit_val (digit_char r) = r.
Proof.
  intros Hr. unfold digit_val, digit_char. change (chr "0") with 48. change (chr "a") with 97.
  destruct (Z.ltb_spec r 10); zb; lia.
Qed.

(** The truncation to 32 bits before the remainder does no harm when the radix
    divides 2^32 or the number has 32 bits. *)
Definition digits_exact (unum radix : Z) : Prop := (radix | 2 ^ 32) ∨ unum < 2 ^ 32.

Lemma rem_exact unum radix :
  0 ≤ unum → 0 < radix → digits_exact unum radix → (u32 unum) mod radix = unum mod radix.
Proof.
  intros Hu Hr [Hd|Hlt]; unfold u32.
  - by apply Z.mod_mod_divide.
  - by rewrite (Z.mod_small unum (2 ^ 32)) by lia.
Qed.

Lemma num_val_digits j unum radix :
  2 ≤ radix ≤ 16 → digits_exact unum radix → 0 ≤ unum < radix ^ Z.of_nat (S j) →
  num_val radix (num_digits (S j) unum radix) = unum.
Proof.
  intros Hr. revert unum. induction j as [|j IH]; intros unum He Hu.
  - rewrite Z.pow_1_r in Hu. cbn. rewrite Z.div_small by lia. cbn.
    rewrite rem_exact, Z.mod_small, digit_val_char by (done || lia). lia.
  - pose proof (Z.mod_pos_bound unum radix). pose proof (Z.div_mod unum radix).
    assert (0 ≤ unum / radix) by (apply Z.div_pos; lia).
    change (num_digits (S (S j)) unum radix) with
      (digit_char ((u32 unum) mod radix) ::
       (if 0 <? unum / radix then num_digits (S j) (unum / radix) radix else [])).
    cbn [num_val foldr]. fold (num_val radix (if 0 <? unum / radix
      then num_digits (S j) (unum / radix) radix else [])).
    rewrite rem_exact, digit_val_char by (done || lia).
    destruct (Z.ltb_spec 0 (unum / radix)); [|cbn [num_val foldr]; lia]. rewrite IH; [lia|..].
    + destruct He as [?|?]; [by left|right].
      eapply Z.le_lt_trans; [apply Z.div_le_upper_bound with (q := unum); nia|done].
    + apply div_lt_pow; [lia|done].
Qed.

(** a 64-bit number printed in hexadecimal, or a number below 2^32 printed
    in decimal, reads back as itself. *)
Theorem printed_number_roundtrip unum radix :
  is_u64 unum → (radix = 16 ∨ radix = 10 ∧ unum < 2 ^ 32) →
  ∃ ds, (∀ s, digit_loop 64 unum radix [] s = Ok ds s) ∧ num_val radix ds = unum.
Proof.
  intros Hu Hr. exists (num_digits 20 unum radix). split.
  - intros s. apply digit_loop_u64; [done|]. destruct Hr as [->|[-> _]]; auto.
  - apply num_val_digits; [destruct Hr as [->|[-> _]]; lia| |].
    + destruct Hr as [->|[-> ?]]; [left; by exists (2 ^ 28)|by right].
    + destruct Hu. split; [done|]. eapply Z.lt_le_trans; [done|].
      destruct Hr as [->|[-> _]]; by vm_compute.
Qed.

Lemma printed_number_roundtrip_witness :
  ∃ ds, (∀ s, digit_loop 64 (2 ^ 64 - 1) 16 [] s = Ok ds s) ∧ num_val 16 ds = 2 ^ 64 - 1.
Proof. apply (printed_number_roundtrip (2 ^ 64 - 1) 16); [done|by left]. Defined.

(** ** Output *)

Lemma string_print_app n l1 l2 s :
  string_print n (l1 ++ l2) s = (string_print n l1 ;; string_print n l2) s.
Proof.
  revert s. induction l1 as [|c l1 IH]; intros s; [done|]. cbn [app string_print].
  rewrite bind_assoc. apply bind_cong. intros _ s'. apply IH.
Qed.

Lemma pad_down_text fuel n width padc padn s :
  padn ≤ Z.of_nat fuel + width →
  pad_down fuel n width padc padn s =
  (string_print n (replicate (Z.to_nat (padn - width)) padc) ;; ret (Z.min padn width)) s.
Proof.
  revert padn s. induction fuel as [|fuel IH]; intros padn s Hf; cbn [pad_down].
  - destruct (Z.ltb_spec width padn); [lia|].
    replace (Z.to_nat (padn - width)) with O by lia. simpl. by rewrite Z.min_l by lia.
  - destruct (Z.ltb_spec width padn).
    + replace (Z.to_nat (padn - width)) with (S (Z.to_nat (padn - 1 - width))) by lia.
      cbn [replicate string_print]. rewrite bind_assoc. apply bind_cong. intros _ s'.
      rewrite IH by lia. by rewrite !Z.min_r by lia.
    + replace (Z.to_nat (padn - width)) with O by lia. simpl. by rewrite Z.min_l by lia.
Qed.

Lemma pad_up_text fuel n width padc padn s :
  - padn ≤ Z.of_nat fuel + width →
  pad_up fuel n width padc padn s =
  (string_print n (replicate (Z.to_nat (- padn - width)) padc) ;; ret (Z.max padn (- width))) s.
Proof.
  revert padn s. induction fuel as [|fuel IH]; intros padn s Hf; cbn [pad_up].
  - destruct (Z.ltb_spec width (- padn)); [lia|].
    replace (Z.to_nat (- padn - width)) with O by lia. simpl. by rewrite Z.max_l by lia.
  - destruct (Z.ltb_spec width (- padn)).
    + replace (Z.to_nat (- padn - width)) with (S (Z.to_nat (- (padn + 1) - width))) by lia.
      cbn [replicate string_print]. rewrite bind_assoc. apply bind_cong. intros _ s'.
      rewrite IH by lia. by rewrite !Z.max_r by lia.
    + replace (Z.to_nat (- padn - width)) with O by lia. simpl. by rewrite Z.max_l by lia.
Qed.

Lemma unsigned_num_print_text n unum radix padc padn s :
  is_u64 unum → radix = 10 ∨ radix = 16 →
  unsigned_num_print n unum radix padc padn s = string_print n (num_text unum radix padc padn) s.
Proof.
  intros Hu Hr. unfold unsigned_num_print, num_text, padded.
  rewrite (bind_step _ _ _ _ _ (digit_loop_u64 unum radix s Hu Hr)).
  set (ds := num_digits 20 unum radix). set (w := Z.of_nat (length ds)).
  assert (∀ (p : Z) s', (padn < 0 → p = padn) → (0 ≤ padn → 0 ≤ p) →
    (string_print n (rev ds) ;;
     let* _ := (if p <? 0 then pad_up (Z.to_nat (- p)) n w padc p else ret p) in ret tt) s'
    = string_print n (rev ds ++ replicate (Z.to_nat (- padn - w)) padc) s') as Htail.
  { intros p s' Hp1 Hp2. rewrite string_print_app. apply bind_cong. intros [] s2.
    destruct (Z.ltb_spec p 0).
    - assert (p = padn) as -> by lia. unfold bind. rewrite pad_up_text by lia. unfold bind.
      by destruct (string_print _ _ s2) as [[] ?| |].
    - replace (Z.to_nat (- padn - w)) with O by lia. done. }
  rewrite string_print_app. destruct (Z.ltb_spec 0 padn).
  - unfold bind at 1. rewrite pad_down_text by lia. unfold bind at 1 4.
    destruct (string_print _ (replicate _ _) s) as [[] s1| |]; [|done..]. cbn [ret].
    apply Htail; lia.
  - replace (Z.to_nat (padn - w)) with O by lia. cbn [replicate string_print].
    rewrite !bind_ret_l. apply Htail; lia.
Qed.

(** One character through the window. *)
Lemma emit_sink n b txt c s :
  (n ≤ length b)%nat → sink_ok n b txt s →
  ∃ s', emit (Z.of_nat n) c s = Ok tt s' ∧ sink_ok n b (txt ++ [c]) s'.
Proof.
  intros Hn ->. unfold emit, bind, gets, modify, write, ret. simpl.
  destruct (Z.ltb_spec (Z.of_nat (length txt)) (Z.of_nat n)).
  - rewrite decide_True.
    2: { simpl. unfold window. rewrite length_app, length_take, length_drop. lia. }
    eexists. split; [done|]. unfold sink_ok. simpl. f_equal; [|rewrite length_app; simpl; lia..].
    unfold window. rewrite length_app. simpl. rewrite !Nat.min_l by lia.
    rewrite (take_ge txt), (take_ge (txt ++ [c])) by (rewrite ?length_app; simpl; lia).
    rewrite <- (Nat.add_0_r (length txt)) at 1. rewrite insert_app_r, <- app_assoc. f_equal.
    destruct (lookup_lt_is_Some_2 b (length txt)) as [x Hx]; [lia|].
    rewrite (drop_S b x) by done. simpl. do 2 f_equal. lia.
  - eexists. split; [done|]. unfold sink_ok. simpl.
    unfold window. rewrite length_app. simpl.
    rewrite take_app_le, !Nat.min_r by lia. f_equal. lia.
Qed.

Lemma string_print_sink n b l txt s :
  (n ≤ length b)%nat → sink_ok n b txt s →
  ∃ s', string_print (Z.of_nat n) l s = Ok tt s' ∧ sink_ok n b (txt ++ l) s'.
Proof.
  intros Hn. revert txt s. induction l as [|c l IH]; intros txt s Hs; cbn [string_print].
  - exists s. by rewrite app_nil_r.
  - destruct (emit_sink n b txt c s Hn Hs) as (s1 & E1 & Hs1).
    destruct (IH _ _ Hs1) as (s2 & E2 & Hs2). exists s2.
    rewrite (bind_step _ _ _ _ _ E1). rewrite <- app_assoc in Hs2. done.
Qed.

Lemma scan_digits_length fmt padn p rest : scan_digits fmt padn = Some (p, rest) → (length rest ≤ length fmt)%nat.
Proof.
  revert padn. induction fmt as [|c fmt IH]; intros padn E; cbn [scan_digits] in E; [by simplify_eq|].
  destruct (is_digit c); [|by simplify_eq]. destruct (_ <? _); [|done]. apply IH in E. cbn. lia.
Qed.

Lemma u64_opp_abs num : num < 0 → u64 (- num) = u64 (Z.abs num).
Proof. intros ?. by rewrite Z.abs_neq by lia. Qed.

Lemma get_unum_u64 args l u args' :
  get_unum_va_args args l = Some (u, args') → is_u64 u.
Proof.
  destruct args as [|[x|] args]; [done| |done]. simpl. intros E. simplify_eq.
  destruct (1 <? l), (l =? 1); try apply u64_bound.
  all: unfold is_u64, u32; pose proof (Z.mod_pos_bound x (2 ^ 32)); lia.
Qed.

(** The faults of a call with the wrong arguments or a width beyond an [int]. *)
Definition ill_typed (f : fault) : Prop := f = BadDeref ∨ f = Undef.

(** What a conversion does, against its reference text. *)
Definition conv_ok (n : Z) (fmt : list Z) (m : M sink (option (list Z * list va_slot)))
    (o : option (list Z * option (list Z * list va_slot))) : Prop :=
  match o with
  | None => ∃ f, ill_typed f ∧ ∀ s, m s = Fault f
  | Some (txt, r) =>
      (∀ s, m s = (string_print n txt ;; ret r) s) ∧
      ∀ rest args, r = Some (rest, args) → (length rest < length fmt)%nat
  end.

Lemma conv_ok_longer n fmt fmt' m o :
  (length fmt' ≤ length fmt)%nat → conv_ok n fmt' m o → conv_ok n fmt m o.
Proof.
  intros Hl. destruct o as [[txt r]|]; [|done]. intros [H1 H2]. split; [done|].
  intros rest args Hr. specialize (H2 rest args Hr). lia.
Qed.

Lemma conv_ok_fault n fmt m : (∀ s, m s = Fault BadDeref) → conv_ok n fmt m None.
Proof. intros Hm. exists BadDeref. split; [by left|done]. Qed.

Lemma conv_ok_reject n fmt : conv_ok n fmt (ret None) (Some ([], None)).
Proof. split; [done|]. intros ? ? E. done. Qed.

Lemma conv_ok_num n c fmt args unum radix padc padn :
  is_u64 unum → radix = 10 ∨ radix = 16 →
  conv_ok n (c :: fmt)
    (unsigned_num_print n unum radix padc padn ;; ret (Some (fmt, args)))
    (Some (num_text unum radix padc padn, Some (fmt, args))).
Proof.
  intros Hu Hr. split; [|intros ? ? E; simplify_eq; simpl; lia]. intros s.
  unfold bind. by rewrite unsigned_num_print_text.
Qed.

Lemma conversion_text fuel n fmt args l_count left padc padn :
  (length fmt < fuel)%nat →
  conv_ok n fmt (conversion fuel n fmt args l_count left padc padn)
    (conv_text computed fuel fmt args l_count left padc padn).
Proof.
  revert fmt args l_count left padc padn.
  induction fuel as [|fuel IH]; intros fmt args l_count left padc padn Hf; [lia|].
  cbn [conversion conv_text]. destruct fmt as [|c fmt]; [apply conv_ok_reject|].
  cbn [length] in Hf.
  destruct ((chr "1" <=? c) && (c <=? chr "9")) eqn:Ed.
  { destruct (scan_digits (c :: fmt) 0) as [[p rest]|] eqn:Es; [|exists Undef; split; [by right|done]].
    assert (length rest ≤ length fmt)%nat as Hs.
    { cbn [scan_digits] in Es. assert (is_digit c = true) as Hc.
      { unfold is_digit. change (chr "0") with 48. change (chr "1") with 49 in Ed.
        apply andb_true_iff in Ed as [E1 E2]. apply andb_true_iff. split; [|done].
        apply Z.leb_le in E1. apply Z.leb_le. lia. }
      rewrite Hc in Es. destruct (_ <? _); [|done]. by eapply scan_digits_length. }
    eapply conv_ok_longer; [|apply (IH rest); lia]. simpl; lia. }
  destruct (c =? chr "-"); [eapply conv_ok_longer; [|apply IH; lia]; simpl; lia|].
  destruct ((c =? chr "i") || (c =? chr "d")).
  { destruct (get_num_va_args args l_count) as [[num args']|]; [|by apply conv_ok_fault]. cbn [need mbind option_bind].
    split; [|intros ? ? E; simplify_eq; simpl; lia]. intros s. rewrite bind_ret_l.
    destruct (Z.ltb_spec num 0).
    - rewrite bind_assoc, u64_opp_abs by done. cbn [app string_print]. rewrite bind_assoc.
      apply bind_cong. intros _ s'. rewrite bind_ret_l. unfold bind.
      by rewrite unsigned_num_print_text by (apply u64_bound || by left).
    - rewrite bind_ret_l, Z.abs_eq by done. unfold bind.
      by rewrite unsigned_num_print_text by (apply u64_bound || by left). }
  destruct (c =? chr "l"); [eapply conv_ok_longer; [|apply IH; lia]; simpl; lia|].
  destruct (c =? chr "s").
  { destruct (get_str_va_args args) as [[str args']|]; [|by apply conv_ok_fault].
    split; [done|intros ? ? E; simplify_eq; simpl; lia]. }
  destruct (c =? chr "u").
  { destruct (get_unum_va_args args l_count) as [[unum args']|] eqn:E; [|by apply conv_ok_fault].
    apply conv_ok_num; [by eapply get_unum_u64|by left]. }
  destruct (c =? chr "x").
  { destruct (get_unum_va_args args l_count) as [[unum args']|] eqn:E; [|by apply conv_ok_fault].
    apply conv_ok_num; [by eapply get_unum_u64|by right]. }
  destruct (c =? chr "0"); [|apply conv_ok_reject].
  destruct (scan_digits fmt 0) as [[p rest]|] eqn:Es; [|exists Undef; split; [by right|done]].
  apply scan_digits_length in Es.
  eapply conv_ok_longer; [|apply IH; lia]. simpl; lia.
Qed.

Lemma format_loop_text fuel n b fmt args t s :
  (n ≤ length b)%nat → sink_ok n b t s → (length fmt < fuel)%nat →
  match format_text computed fuel fmt args with
  | None => ∃ f, ill_typed f ∧ format_loop fuel (Z.of_nat n) fmt args s = Fault f
  | Some (txt, ok) => ∃ s',
      format_loop fuel (Z.of_nat n) fmt args s = Ok (if ok then Some tt else None) s' ∧
      sink_ok n b (t ++ txt) s'
  end.
Proof.
  intros Hn. revert fmt args t s. induction fuel as [|fuel IH]; intros fmt args t s Hs Hf; [lia|].
  cbn [format_loop format_text]. destruct fmt as [|c fmt].
  { exists s. by rewrite app_nil_r. }
  cbn [length] in Hf. destruct (c =? chr "%").
  - pose proof (conversion_text (S (length fmt)) (Z.of_nat n) fmt args 0 false 0 0 ltac:(lia)) as Hc.
    destruct (conv_text computed (S (length fmt)) fmt args 0 false 0 0) as [[txt r]|].
    2: { destruct Hc as (f & Hf' & Hc). exists f. split; [done|]. unfold bind. by rewrite Hc. }
    destruct Hc as [Hc Hlen]. cbn [mbind option_bind].
    destruct (string_print_sink n b txt t s Hn Hs) as (s1 & E1 & Hs1).
    assert (conversion (S (length fmt)) (Z.of_nat n) fmt args 0 false 0 0 s = Ok r s1) as E2.
    { rewrite Hc. by rewrite (bind_step _ _ _ _ _ E1). }
    rewrite (bind_step _ _ _ _ _ E2). destruct r as [[rest args']|]; [|by exists s1].
    specialize (Hlen rest args' eq_refl). specialize (IH rest args' (t ++ txt) s1 Hs1 ltac:(lia)).
    destruct (format_text computed fuel rest args') as [[txt' ok]|]; [|done]. simpl.
    destruct IH as (s2 & E3 & Hs2). exists s2. by rewrite app_assoc.
  - destruct (emit_sink n b t c s Hn Hs) as (s1 & E1 & Hs1).
    rewrite (bind_step _ _ _ _ _ E1). specialize (IH fmt args (t ++ [c]) s1 Hs1 ltac:(lia)).
    destruct (format_text computed fuel fmt args) as [[txt ok]|]; [|done]. simpl.
    destruct IH as (s2 & E3 & Hs2). exists s2. by rewrite <- app_assoc in Hs2.
Qed.

Lemma sink_ok_start n b : sink_ok n b [] (mk_sink b 0 0).
Proof. unfold sink_ok, window. by rewrite take_nil. Qed.

Lemma write_sink n b t s :
  (n < length b)%nat → sink_ok n b t s →
  write 0 s = Ok tt (mk_sink (take n t ++ 0 :: drop (S (length t `min` n)) b)
                       (length t `min` n) (Z.of_nat (length t))).
Proof.
  intros Hn ->. unfold write. rewrite decide_True.
  2: { simpl. unfold window. rewrite length_app, length_take, length_drop. lia. }
  simpl. do 2 f_equal. unfold window.
  rewrite <- (Nat.add_0_r (length t `min` n)) at 1.
  replace (length t `min` n + 0)%nat with (length (take n t) + 0)%nat
    by (rewrite length_take; lia).
  rewrite insert_app_r. f_equal.
  destruct (lookup_lt_is_Some_2 b (length t `min` n)) as [x Hx]; [lia|].
  by rewrite (drop_S b x).
Qed.

(** The text of a whole call, with the digits that the code computes. *)
Definition full_text (fmt : list Z) (args : list va_slot) : option (list Z * bool) :=
  format_text computed (S (length fmt)) fmt args.

(** [full_text] is the reference text when the decimal numbers are below 2^32. *)
Lemma digits_agree j unum radix :
  0 ≤ unum → 0 < radix → digits_exact unum radix → num_digits j unum radix = digits j unum radix.
Proof.
  revert unum. induction j as [|j IH]; intros unum Hu Hr He; [done|]. cbn [num_digits digits]. rewrite rem_exact by done.
  rewrite IH; [done|by apply Z.div_pos|done|]. destruct He as [?|?]; [by left|right].
  eapply Z.le_lt_trans; [apply Z.div_le_upper_bound with (q := unum); nia|done].
Qed.

Lemma shown_32_agree unum radix ds : 0 ≤ unum → radix = 10 ∨ radix = 16 →
  shown_32 unum radix = Some ds → shown unum radix = Some ds ∧ computed unum radix = Some ds.
Proof.
  intros Hu Hr. unfold shown_32. destruct (_ && _) eqn:E; [intros [=]|]. intros Es. split; [exact Es|]. rewrite <- Es.
  unfold computed, shown. generalize 20%nat. intros k. f_equal.
  apply digits_agree; [exact Hu|destruct Hr; lia|]. destruct Hr as [-> | ->]; [right|left; by exists (2 ^ 28)].
  rewrite Z.eqb_refl in E. cbn [andb] in E. by apply Z.leb_gt in E.
Qed.

Lemma conv_text_agree show fuel fmt args l_count left padc padn o :
  show = shown ∨ show = computed →
  conv_text shown_32 fuel fmt args l_count left padc padn = Some o → conv_text show fuel fmt args l_count left padc padn = Some o.
Proof.
  intros Hshow. revert fmt args l_count left padc padn.
  assert (∀ unum radix ds, 0 ≤ unum → radix = 10 ∨ radix = 16 → shown_32 unum radix = Some ds → show unum radix = Some ds) as Hs.
  { intros unum radix ds Hu Hr E. destruct (shown_32_agree unum radix ds Hu Hr E) as [E1 E2]. destruct Hshow as [-> | ->]; [exact E1|exact E2]. }
  clear Hshow.
  induction fuel as [|fuel IH]; intros fmt args l_count left padc padn E; [discriminate E|].
  cbn [conv_text] in *. destruct fmt as [|c fmt]; [exact E|].
  destruct (_ && _); [destruct (scan_digits (c :: fmt) 0) as [[p rest]|]; [exact (IH _ _ _ _ _ _ E)|discriminate E]|].
  destruct (c =? chr "-"); [exact (IH _ _ _ _ _ _ E)|].
  destruct (_ || _).
  { destruct (get_num_va_args args l_count) as [[num args']|]; [|discriminate E]. cbn [mbind option_bind] in *.
    destruct (shown_32 (u64 (Z.abs num)) 10) as [ds|] eqn:Es; [|discriminate E].
    rewrite (Hs _ _ ds (proj1 (u64_bound _)) (or_introl eq_refl) Es). exact E. }
  destruct (c =? chr "l"); [exact (IH _ _ _ _ _ _ E)|]. destruct (c =? chr "s"); [exact E|].
  destruct (c =? chr "u").
  { destruct (get_unum_va_args args l_count) as [[unum args']|] eqn:Eu; [|discriminate E]. cbn [mbind option_bind] in *.
    destruct (shown_32 unum 10) as [ds|] eqn:Es; [|discriminate E]. apply get_unum_u64 in Eu as [Hu _].
    rewrite (Hs _ _ ds Hu (or_introl eq_refl) Es). exact E. }
  destruct (c =? chr "x").
  { destruct (get_unum_va_args args l_count) as [[unum args']|] eqn:Eu; [|discriminate E]. cbn [mbind option_bind] in *.
    destruct (shown_32 unum 16) as [ds|] eqn:Es; [|discriminate E]. apply get_unum_u64 in Eu as [Hu _].
    rewrite (Hs _ _ ds Hu (or_intror eq_refl) Es). exact E. }
  destruct (c =? chr "0"); [|exact E].
  destruct (scan_digits fmt 0) as [[p rest]|]; [exact (IH _ _ _ _ _ _ E)|discriminate E].
Qed.

Lemma format_text_agree show fuel fmt args o :
  show = shown ∨ show = computed → format_text shown_32 fuel fmt args = Some o → format_text show fuel fmt args = Some o.
Proof.
  intros Hshow. revert fmt args o. induction fuel as [|fuel IH]; intros fmt args o E; [discriminate E|].
  cbn [format_text] in *. destruct fmt as [|c fmt]; [exact E|]. destruct (c =? chr "%").
  - destruct (conv_text shown_32 _ _ _ _ _ _ _) as [[txt r]|] eqn:Ec; [|discriminate E].
    rewrite (conv_text_agree show _ _ _ _ _ _ _ _ Hshow Ec). cbn [mbind option_bind] in *.
    destruct r as [[rest args']|]; [|exact E]. destruct (format_text shown_32 fuel rest args') as [[txt' ok]|] eqn:Ef; [|discriminate E].
    rewrite (IH _ _ _ Ef). exact E.
  - destruct (format_text shown_32 fuel fmt args) as [[txt ok]|] eqn:Ef; [|discriminate E]. rewrite (IH _ _ _ Ef). exact E.
Qed.

Lemma full_text_reference fmt args : decimals_fit fmt args → full_text fmt args = reference_text fmt args.
Proof.
  intros [o E]. unfold full_text, reference_text.
  rewrite (format_text_agree shown _ _ _ o (or_introl eq_refl) E).
  rewrite (format_text_agree computed _ _ _ o (or_intror eq_refl) E). exact eq_refl.
Qed.

(** The buffer after the call of a window of [k] bytes, with its terminator. *)
Definition closed (k : nat) (b txt : list Z) : list Z :=
  take k txt ++ 0 :: drop (S (length txt `min` k)) b.

Lemma format_and_end_text k b fmt args :
  k = 0%nat ∨ (k < length b)%nat →
  let run := format_and_end (Z.of_nat k) fmt args (mk_sink b 0 0) in
    match full_text fmt args with
    | None => ∃ f, ill_typed f ∧ run = Fault f
    | Some (txt, ok) =>
        let len := Z.of_nat (length txt) in
        run = if ok then Ok (s32 len) (mk_sink (if (0 <? k)%nat then closed k b txt else b)
                                   (length txt `min` k) len)
        else Ok (-1) (mk_sink (window k b txt) (length txt `min` k) len)
    end.
Proof.
  intros Hk. unfold format_and_end, full_text. cbn zeta.
  pose proof (format_loop_text (S (length fmt)) k b fmt args [] _ ltac:(lia)
    (sink_ok_start k b) ltac:(lia)) as HF.
  destruct (format_text computed (S (length fmt)) fmt args) as [[txt [|]]|].
  - destruct HF as (s' & E & Hs'). rewrite (bind_step _ _ _ _ _ E).
    destruct (Z.ltb_spec 0 (Z.of_nat k)), (Nat.ltb_spec 0 k); try lia.
    + assert (k < length b)%nat as Hlt by lia.
      by rewrite (bind_step _ _ _ _ _ (write_sink _ _ _ _ Hlt Hs')).
    + replace k with O in * by lia. rewrite Hs'. cbn. unfold window. by rewrite Nat.min_0_r.
  - destruct HF as (s' & E & Hs'). rewrite (bind_step _ _ _ _ _ E). by rewrite Hs'.
  - destruct HF as (f & Hf & E). exists f. split; [done|]. unfold bind. by rewrite E.
Qed.

(** The whole call, on a buffer of at least [n] bytes. *)
Lemma snprintf_text b n fmt args :
  (n ≤ length b)%nat →
  let run := snprintf b (Z.of_nat n) fmt args in
    match full_text fmt args with
    | None => ∃ f, ill_typed f ∧ run = Fault f
    | Some (txt, true) =>
        run = Ok (s32 (Z.of_nat (length txt))) (if (0 <? n)%nat then closed (n - 1) b txt else b)
    | Some (txt, false) =>
        run = Ok (-1) (if (n =? 1)%nat then closed 0 b [] else window (n - 1) b txt)
    end.
Proof.
  intros Hn. unfold snprintf, val_vsnprintf. destruct n as [|[|n]]; cbn zeta.
  - change (Z.of_nat 0 =? 0) with true. cbn iota. rewrite bind_ret_l.
    pose proof (format_and_end_text 0 b fmt args (or_introl eq_refl)) as HT. cbn zeta in HT.
    change (Z.of_nat 0) with 0 in HT.
    destruct (full_text fmt args) as [[txt [|]]|]; [by rewrite HT..|]. destruct HT as (f & Hf & ->). by exists f.
  - change (Z.of_nat 1 =? 0) with false. change (Z.of_nat 1 =? 1) with true. cbn iota.
    destruct b as [|x b]; [simpl in Hn; lia|].
    assert ((write 0 ;; ret 0) (mk_sink (x :: b) 0 0) = Ok 0 (mk_sink (0 :: b) 0 0)) as E by done.
    rewrite (bind_step _ _ _ _ _ E).
    pose proof (format_and_end_text 0 (0 :: b) fmt args (or_introl eq_refl)) as HT. cbn zeta in HT.
    change (Z.of_nat 0) with 0 in HT.
    destruct (full_text fmt args) as [[txt [|]]|]; [rewrite HT..|destruct HT as (f & Hf & ->); by exists f]; cbn.
    + unfold closed. by rewrite Nat.min_0_r.
    + unfold window. by rewrite Nat.min_0_r.
  - destruct (Z.eqb_spec (Z.of_nat (S (S n))) 0); [lia|].
    destruct (Z.eqb_spec (Z.of_nat (S (S n))) 1); [lia|]. rewrite bind_ret_l.
    replace (Z.of_nat (S (S n)) - 1) with (Z.of_nat (S n)) by lia.
    pose proof (format_and_end_text (S n) b fmt args ltac:(lia)) as HT. cbn zeta in HT.
    destruct (full_text fmt args) as [[txt [|]]|]; [by rewrite HT..|]. destruct HT as (f & Hf & ->). by exists f.
Qed.



(** What a call with a format and arguments that fit does. *)
Lemma snprintf_full b n fmt args txt :
  (0 < n ≤ length b)%nat → full_text fmt args = Some (txt, true) →
  snprintf b (Z.of_nat n) fmt args = Ok (s32 (Z.of_nat (length txt))) (closed (n - 1) b txt).
Proof.
  intros Hn Ht. pose proof (snprintf_text b n fmt args ltac:(lia)) as HT. cbn zeta in HT. rewrite Ht in HT.
  rewrite HT. destruct (Nat.ltb_spec 0 n); [done|lia].
Qed.

(** C39: [val_vsnprintf] against the reference.  On a buffer of at least [n]
    bytes, a format whose arguments have the right types and whose widths are
    [int]s, and decimal numbers below 2^32 (see [decimal_truncates] for the others),
    the call returns; the buffer holds the first [n - 1] characters of the
    reference text, then the terminator, then what it held before; and the
    result is the length of the whole text, as an [int], also when the text was
    cut (the comment of the function promises the characters written). *)
Theorem val_vsnprintf_text b n fmt args txt :
  (0 < n ≤ length b)%nat → decimals_fit fmt args → reference_text fmt args = Some (txt, true) →
  snprintf b (Z.of_nat n) fmt args =
    Ok (s32 (Z.of_nat (length txt)))
       (take (n - 1) txt ++ 0 :: drop (S (length txt `min` (n - 1))) b).
Proof.
  intros Hn Hd Ht. apply snprintf_full; [done|]. by rewrite full_text_reference.
Qed.

Lemma val_vsnprintf_text_witness :
  snprintf (replicate 12 255) 8 (chars "x=%05d!") [VaNum 42] =
    Ok 8 (chars "x=00042" ++ [0; 255; 255; 255; 255]).
Proof.
  change 8 with (Z.of_nat 8) at 1.
  rewrite (val_vsnprintf_text (replicate 12 255) 8 (chars "x=%05d!") [VaNum 42] (chars "x=00042!"));
    [vm_compute; reflexivity|simpl; lia|eexists; vm_compute; reflexivity|vm_compute; reflexivity].
Defined.

(** The result of a text that is cut is not the number of characters written, which the
    comment of the function promises. *)
Lemma cut_text_counts : snprintf (replicate 4 0) 3 (chars "hello") [] = Ok 5 (chars "he" ++ [0; 0]).
Proof. by vm_compute. Qed.



(** Decimal output is wrong from 2^32 on: [unsigned_num_print] truncates the
    number to 32 bits before it takes the remainder by the radix, so [%lu] of
    2^32 prints 4294967290. *)
Theorem decimal_truncates :
  reference_text (chars "%lu") [VaNum (2 ^ 32)] = Some (chars "4294967296", true) ∧
  full_text (chars "%lu") [VaNum (2 ^ 32)] = Some (chars "4294967290", true) ∧
  num_val 10 (num_digits 20 (2 ^ 32) 10) = 2 ^ 32 - 6 ∧
  ∀ b n, (11 ≤ n ≤ length b)%nat →
    ∃ rest, snprintf b (Z.of_nat n) (chars "%lu") [VaNum (2 ^ 32)] =
            Ok 10 (chars "4294967290" ++ 0 :: rest).
Proof.
  split; [by vm_compute|]. split; [by vm_compute|]. split; [by vm_compute|]. intros b n Hn.
  assert (full_text (chars "%lu") [VaNum (2 ^ 32)] = Some (chars "4294967290", true)) as E
    by by vm_compute.
  rewrite (snprintf_full b n (chars "%lu") [VaNum (2 ^ 32)] (chars "4294967290")) by (done || lia).
  eexists. f_equal. unfold closed. by rewrite take_ge by (change (length _) with 10%nat; lia).
Qed.

Lemma decimal_truncates_witness :
  full_text (chars "%lu") [VaNum (2 ^ 32)] = Some (chars "4294967290", true) ∧
  ∃ rest, snprintf (replicate 16 0) 16 (chars "%lu") [VaNum (2 ^ 32)] =
          Ok 10 (chars "4294967290" ++ 0 :: rest).
Proof.
  destruct decimal_truncates as (_ & H1 & _ & H3). split; [exact H1|].
  apply (H3 (replicate 16 0) 16%nat). simpl; lia.
Defined.

End FmtFacts.
