(* ===== verification/Granule.v ===== *)
(** The host's granule tracker, val_host_realm.c lines 14-36 and 1581-2190: the
    table [mem_track], with one slot for the Non-secure world and one per Realm,
    and the linked lists of granule descriptors that hang off it.

    A descriptor lives at an address of [nodes]; a pointer is an address and
    NULL is 0.  Following NULL or a pointer to no descriptor is a fault.  The
    arguments of type [val_host_granule_ts **] are always [&mem_track[i].
    gran_type.f]; they are pairs of an index and a field.  The global cursor
    [current] is assigned before every use and is a local here.  Loops over a
    list carry as fuel the number of descriptors of the heap plus one, which no
    list without a cycle can exhaust. *)
From S2P Require Import Prelude Defs Alloc.

(** [val_host_memory_state_te] *)
Definition GRANULE_UNDELEGATED : Z := 0.
Definition GRANULE_DELEGATED : Z := 1.
Definition GRANULE_RD : Z := 2.
Definition GRANULE_RTT : Z := 3.
Definition GRANULE_RTT_AUX : Z := 4.
Definition GRANULE_DATA : Z := 5.
Definition GRANULE_REC : Z := 6.
Definition GRANULE_UNPROTECTED : Z := 7.

(** The marker of a free slot of [mem_track]. *)
Definition NO_REALM : Z := 0x00000000FFFFFFFF.

Record val_host_granule_ts : Type := mk_gran {
  gr_rd : Z;
  gr_state : Z;
  gr_PA : Z;
  gr_ipa : Z;
  gr_level : Z;
  gr_rtt_tree_idx : Z;
  gr_is_granule_sliced : Z;
  gr_has_auxiliary : list bool;
  gr_next : Z
}.

(** [sizeof(val_host_granule_ts)] *)
Definition SIZEOF_GRANULE : Z := 64.

(** The lists of [val_host_granule_type_ts]. *)
Inductive gfield : Type := Ns | Rd | Rtt | RttAux | Rec | Data | ValidNs.

#[export] Instance gfield_eq_dec : EqDecision gfield.
Proof. solve_decision. Defined.

Record val_host_memory_track_ts : Type := mk_track {
  mt_rd : Z;
  gt_ns : Z;
  gt_rd : Z;
  gt_rtt : Z;
  gt_rtt_aux : Z;
  gt_rec : Z;
  gt_data : Z;
  gt_valid_ns : Z
}.

Definition gt_get (f : gfield) (t : val_host_memory_track_ts) : Z :=
  match f with
  | Ns => gt_ns t | Rd => gt_rd t | Rtt => gt_rtt t | RttAux => gt_rtt_aux t
  | Rec => gt_rec t | Data => gt_data t | ValidNs => gt_valid_ns t
  end.

Definition gt_set (f : gfield) (p : Z) (t : val_host_memory_track_ts) : val_host_memory_track_ts :=
  let sel (g : gfield) (old : Z) := if decide (f = g) then p else old in
  mk_track (mt_rd t) (sel Ns (gt_ns t)) (sel Rd (gt_rd t)) (sel Rtt (gt_rtt t))
    (sel RttAux (gt_rtt_aux t)) (sel Rec (gt_rec t)) (sel Data (gt_data t))
    (sel ValidNs (gt_valid_ns t)).

Definition mt_set_rd (rd : Z) (t : val_host_memory_track_ts) : val_host_memory_track_ts :=
  mk_track rd (gt_ns t) (gt_rd t) (gt_rtt t) (gt_rtt_aux t) (gt_rec t) (gt_data t)
    (gt_valid_ns t).

(** The global variables of the tracker, and the heap. *)
Record gstate : Type := mk_gs {
  g_alloc : alloc_state;
  nodes : gmap Z val_host_granule_ts;
  head : Z;
  tail : Z;
  current_realm : nat;
  mem_track : list val_host_memory_track_ts
}.

Definition set_alloc (a : alloc_state) (g : gstate) : gstate :=
  mk_gs a (nodes g) (head g) (tail g) (current_realm g) (mem_track g).
Definition set_nodes (m : gmap Z val_host_granule_ts) (g : gstate) : gstate :=
  mk_gs (g_alloc g) m (head g) (tail g) (current_realm g) (mem_track g).
Definition set_head (p : Z) (g : gstate) : gstate :=
  mk_gs (g_alloc g) (nodes g) p (tail g) (current_realm g) (mem_track g).
Definition set_tail (p : Z) (g : gstate) : gstate :=
  mk_gs (g_alloc g) (nodes g) (head g) p (current_realm g) (mem_track g).
Definition set_current_realm (i : nat) (g : gstate) : gstate :=
  mk_gs (g_alloc g) (nodes g) (head g) (tail g) i (mem_track g).
Definition set_mem_track (t : list val_host_memory_track_ts) (g : gstate) : gstate :=
  mk_gs (g_alloc g) (nodes g) (head g) (tail g) (current_realm g) t.

(** ** Access to descriptors and slots *)

Definition deref (p : Z) : M gstate val_host_granule_ts := λ g,
  if p =? 0 then Fault NullDeref
  else match nodes g !! p with Some n => Ok n g | None => Fault BadDeref end.

Definition update (p : Z) (f : val_host_granule_ts → val_host_granule_ts) : M gstate unit :=
  let* n := deref p in
  modify (λ g, set_nodes (<[p := f n]> (nodes g)) g).

Definition set_next (q : Z) (n : val_host_granule_ts) : val_host_granule_ts :=
  mk_gran (gr_rd n) (gr_state n) (gr_PA n) (gr_ipa n) (gr_level n) (gr_rtt_tree_idx n)
    (gr_is_granule_sliced n) (gr_has_auxiliary n) q.

Definition set_state (s : Z) (n : val_host_granule_ts) : val_host_granule_ts :=
  mk_gran (gr_rd n) s (gr_PA n) (gr_ipa n) (gr_level n) (gr_rtt_tree_idx n)
    (gr_is_granule_sliced n) (gr_has_auxiliary n) (gr_next n).

Definition set_aux (a : list bool) (n : val_host_granule_ts) : val_host_granule_ts :=
  mk_gran (gr_rd n) (gr_state n) (gr_PA n) (gr_ipa n) (gr_level n) (gr_rtt_tree_idx n)
    (gr_is_granule_sliced n) a (gr_next n).

Definition slot (i : nat) : M gstate val_host_memory_track_ts := λ g,
  match mem_track g !! i with Some t => Ok t g | None => Fault OutOfBounds end.

Definition set_slot (i : nat) (f : val_host_memory_track_ts → val_host_memory_track_ts) :
    M gstate unit :=
  let* t := slot i in
  modify (λ g, set_mem_track (<[i := f t]> (mem_track g)) g).

(** [*gran_list_head] for [gran_list_head = &mem_track[i].gran_type.f]. *)
Definition get_list (i : nat) (f : gfield) : M gstate Z :=
  let* t := slot i in ret (gt_get f t).
Definition put_list (i : nat) (f : gfield) (p : Z) : M gstate unit := set_slot i (gt_set f p).

(** Fuel of a walk along a list. *)
Definition walk_fuel (g : gstate) : nat := S (size (nodes g)).

(** [mem_alloc(sizeof(val_host_granule_ts), sizeof(val_host_granule_ts))]: the
    descriptor keeps what the heap holds at its address. *)
Definition blank_gran : val_host_granule_ts := mk_gran 0 0 0 0 0 0 0 [false; false; false] 0.

Definition node_alloc : M gstate Z := λ g,
  let '(p, a) := mem_alloc SIZEOF_GRANULE SIZEOF_GRANULE (g_alloc g) in
  if p =? 0 then Ok 0 (set_alloc a g)
  else
    let old := default blank_gran (nodes g !! p) in
    Ok p (set_nodes (<[p := old]> (nodes g)) (set_alloc a g)).

(** ** The operations *)

Definition init_granule (state PA : Z) (n : val_host_granule_ts) : val_host_granule_ts :=
  mk_gran (gr_rd n) state PA (gr_ipa n) (gr_level n) 0 0
    (replicate VAL_MAX_AUX_PLANES false) 0.

Definition val_host_add_granule (state PA node : Z) : M gstate unit :=
  let* granule_list :=
    (if node =? 0 then
       let* p := node_alloc in
       update p (init_granule state PA) ;;
       ret p
     else ret node) in
  let* h := gets head in
  if h =? 0 then
    modify (set_head granule_list) ;;
    put_list 0 Ns granule_list ;;
    update granule_list (set_next 0) ;;
    modify (set_tail granule_list)
  else
    let* t := gets tail in
    update t (set_next granule_list) ;;
    let* n := deref t in
    modify (set_tail (gr_next n)).

(** [for (i = 1; i < VAL_HOST_MAX_REALMS; i++) if (mem_track[i].rd == rd) return i;] *)
Fixpoint curr_realm_from (n i : nat) (rd : Z) : M gstate nat :=
  match n with
  | O => ret 0%nat
  | S n =>
      let* t := slot i in
      if mt_rd t =? rd then ret i else curr_realm_from n (S i) rd
  end.

Definition val_host_get_curr_realm (rd : Z) : M gstate nat :=
  curr_realm_from (VAL_HOST_MAX_REALMS - 1) 1 rd.

Fixpoint find_from (fuel : nat) (find PA : Z) : M gstate Z :=
  match fuel with
  | O => out_of_fuel
  | S fuel =>
      if find =? 0 then ret 0
      else
        let* n := deref find in
        if gr_PA n =? PA then ret find else find_from fuel (gr_next n) PA
  end.

Definition val_host_find_granule (PA : Z) : M gstate Z :=
  let* fuel := gets walk_fuel in
  let* h := gets head in
  find_from fuel h PA.

(** The four removal functions differ in the test on a descriptor only.
    [while (NULL != current) if (!test) { prev = current; current = current->next; }
    else break;] *)
Fixpoint remove_walk (test : val_host_granule_ts → bool) (fuel : nat) (prev current : Z) :
    M gstate (Z * Z) :=
  match fuel with
  | O => out_of_fuel
  | S fuel =>
      if current =? 0 then ret (prev, current)
      else
        let* n := deref current in
        if test n then ret (prev, current) else remove_walk test fuel current (gr_next n)
  end.

Definition remove_with (test : val_host_granule_ts → bool) (i : nat) (f : gfield) : M gstate Z :=
  let* current := get_list i f in
  let* temp := get_list 0 Ns in
  let* first :=
    (if current =? 0 then ret false else let* n := deref current in ret (test n)) in
  if first then
    let* n := deref current in
    if temp =? current then
      modify (set_head (gr_next n)) ;;
      put_list 0 Ns (gr_next n) ;;
      update current (set_next 0) ;;
      ret current
    else
      put_list i f (gr_next n) ;;
      update current (set_next 0) ;;
      ret current
  else
    let* fuel := gets walk_fuel in
    let* (prev, current) := remove_walk test fuel 0 current in
    if current =? 0 then ret 0
    else
      let* n := deref current in
      update prev (set_next (gr_next n)) ;;
      let* ns := get_list 0 Ns in
      let* l := get_list i f in
      (if (ns =? l) && (gr_next n =? 0) then modify (set_tail prev) else ret tt) ;;
      update current (set_next 0) ;;
      ret current.

Definition val_host_remove_granule (i : nat) (f : gfield) (PA : Z) : M gstate Z :=
  remove_with (λ n, gr_PA n =? PA) i f.

Definition val_host_remove_data_granule (i : nat) (f : gfield) (ipa : Z) : M gstate Z :=
  remove_with (λ n, gr_ipa n =? ipa) i f.

Definition val_host_remove_rtt_granule (i : nat) (f : gfield) (ipa level : Z) : M gstate Z :=
  remove_with (λ n, (gr_level n =? level) && (gr_ipa n =? ipa)) i f.

Definition val_host_remove_aux_rtt_granule (i : nat) (f : gfield) (ipa level index : Z) :
    M gstate Z :=
  remove_with (λ n, (gr_level n =? level) && (gr_ipa n =? ipa) && (gr_rtt_tree_idx n =? index)) i f.

(** [while (current->next != NULL) current = current->next;] *)
Fixpoint last_from (fuel : nat) (current : Z) : M gstate Z :=
  match fuel with
  | O => out_of_fuel
  | S fuel =>
      let* n := deref current in
      if gr_next n =? 0 then ret current else last_from fuel (gr_next n)
  end.

(** The tail of the cases of [val_host_update_granule_state]: hang the
    descriptor [p] at the end of a list of the current Realm. *)
Definition append_to (f : gfield) (p : Z) : M gstate unit :=
  let* i := gets current_realm in
  let* current := get_list i f in
  if current =? 0 then put_list i f p
  else
    let* fuel := gets walk_fuel in
    let* last := last_from fuel current in
    update last (set_next p).

Definition assign_granule (rd state ipa level : Z) (n : val_host_granule_ts) : val_host_granule_ts :=
  mk_gran rd state (gr_PA n) ipa level (gr_rtt_tree_idx n) (gr_is_granule_sliced n)
    (gr_has_auxiliary n) 0.

Definition assign_aux_granule (rd state ipa level idx : Z) (n : val_host_granule_ts) :
    val_host_granule_ts :=
  mk_gran rd state (gr_PA n) ipa level idx (gr_is_granule_sliced n) (gr_has_auxiliary n) 0.

(** The unprotected case leaves [state] as it is. *)
Definition assign_unprotected (rd ipa level : Z) (n : val_host_granule_ts) : val_host_granule_ts :=
  mk_gran rd (gr_state n) (gr_PA n) ipa level (gr_rtt_tree_idx n) (gr_is_granule_sliced n)
    (gr_has_auxiliary n) 0.

Definition fresh_granule (rd state PA ipa level idx : Z) (n : val_host_granule_ts) :
    val_host_granule_ts :=
  mk_gran rd state PA ipa level idx (gr_is_granule_sliced n)
    (replicate VAL_MAX_AUX_PLANES false) 0.

(** The search of a slot for a new Realm: stop at the slot that already has
    this RD, or take the first free one. *)
Fixpoint claim_slot (n i : nat) (PA : Z) : M gstate unit :=
  match n with
  | O => ret tt
  | S n =>
      let* t := slot i in
      if mt_rd t =? PA then ret tt
      else if mt_rd t =? NO_REALM then
        modify (set_current_realm i) ;;
        set_slot i (mt_set_rd PA)
      else claim_slot n (S i) PA
  end.

Definition val_host_update_granule_state (rd state PA ipa rtt_level rtt_tree_idx : Z) :
    M gstate unit :=
  let* i := val_host_get_curr_realm rd in
  modify (set_current_realm i) ;;
  let* granule_node := val_host_find_granule PA in
  if granule_node =? 0 then
    let* p := node_alloc in
    update p (fresh_granule rd state PA ipa rtt_level rtt_tree_idx) ;;
    if state =? GRANULE_UNPROTECTED then append_to ValidNs p else ret tt
  else if state =? GRANULE_RD then
    val_host_remove_granule 0 Ns PA ;;
    update granule_node (assign_granule rd state ipa rtt_level) ;;
    claim_slot (VAL_HOST_MAX_REALMS - 1) 1 PA ;;
    let* i := gets current_realm in
    put_list i Rd granule_node
  else if state =? GRANULE_REC then
    val_host_remove_granule 0 Ns PA ;;
    update granule_node (assign_granule rd state ipa rtt_level) ;;
    append_to Rec granule_node
  else if state =? GRANULE_RTT then
    val_host_remove_granule 0 Ns PA ;;
    update granule_node (assign_granule rd state ipa rtt_level) ;;
    append_to Rtt granule_node
  else if state =? GRANULE_RTT_AUX then
    val_host_remove_granule 0 Ns PA ;;
    update granule_node (assign_aux_granule rd state ipa rtt_level rtt_tree_idx) ;;
    append_to RttAux granule_node
  else if state =? GRANULE_DATA then
    val_host_remove_granule 0 Ns PA ;;
    update granule_node (assign_granule rd state ipa rtt_level) ;;
    append_to Data granule_node
  else if state =? GRANULE_UNPROTECTED then
    val_host_remove_granule 0 Ns PA ;;
    update granule_node (assign_unprotected rd ipa rtt_level) ;;
    append_to ValidNs granule_node
  else ret tt.

(** The search of the REC over all Realms. *)
Fixpoint destroy_rec_from (n i : nat) (PA state : Z) : M gstate unit :=
  match n with
  | O => ret tt
  | S n =>
      let* node := val_host_remove_granule i Rec PA in
      if node =? 0 then destroy_rec_from n (S i) PA state
      else
        update node (set_state state) ;;
        val_host_add_granule state PA node
  end.

(** [node->state = state; val_host_add_granule(state, node->PA, node);] *)
Definition give_back (state node : Z) : M gstate unit :=
  update node (set_state state) ;;
  let* n := deref node in
  val_host_add_granule state (gr_PA n) node.

Definition val_host_update_destroy_granule_state
    (rd PA ipa level state gran_list_state rtt_tree_idx : Z) : M gstate unit :=
  if state =? GRANULE_UNDELEGATED then
    let* node := val_host_find_granule PA in
    if node =? 0 then ret tt
    else
      let* n := deref node in
      if gr_is_granule_sliced n =? 0 then
        let* node := val_host_remove_granule 0 Ns PA in
        deref node ;;
        ret tt
      else if gr_is_granule_sliced n =? 1 then update node (set_state state)
      else ret tt
  else
    (if gran_list_state =? GRANULE_REC then ret tt
     else let* i := val_host_get_curr_realm rd in modify (set_current_realm i)) ;;
    let* i := gets current_realm in
    if gran_list_state =? GRANULE_RTT then
      let* node := val_host_remove_rtt_granule i Rtt ipa level in
      give_back state node
    else if gran_list_state =? GRANULE_RTT_AUX then
      let* node := val_host_remove_aux_rtt_granule i RttAux ipa level rtt_tree_idx in
      give_back state node
    else if gran_list_state =? GRANULE_DATA then
      let* node := val_host_remove_data_granule i Data ipa in
      give_back state node
    else if gran_list_state =? GRANULE_REC then
      destroy_rec_from (VAL_HOST_MAX_REALMS - 1) 1 PA state
    else if gran_list_state =? GRANULE_RD then
      let* node := val_host_remove_granule i Rd PA in
      update node (set_state state) ;;
      val_host_add_granule state PA node ;;
      set_slot i (mt_set_rd NO_REALM)
    else if gran_list_state =? GRANULE_UNPROTECTED then
      let* node := val_host_remove_granule i ValidNs PA in
      update node (set_state GRANULE_UNDELEGATED) ;;
      val_host_add_granule state PA node
    else ret tt.

(** [val_host_reset_mem_tack]: the list [rtt_aux] and the globals [head] and
    [tail] keep their values. *)
Definition reset_slot (t : val_host_memory_track_ts) : val_host_memory_track_ts :=
  mk_track NO_REALM 0 0 0 (gt_rtt_aux t) 0 0 0.

Fixpoint reset_from (n i : nat) : M gstate unit :=
  match n with
  | O => ret tt
  | S n => set_slot i reset_slot ;; reset_from n (S i)
  end.

Definition val_host_reset_mem_tack : M gstate unit := reset_from VAL_HOST_MAX_REALMS 0.

(** [do { if (current->ipa == ipa) break; else current = current->next; }
    while (current != NULL);] *)
Fixpoint aux_find_from (fuel : nat) (current ipa : Z) : M gstate Z :=
  match fuel with
  | O => out_of_fuel
  | S fuel =>
      let* n := deref current in
      if gr_ipa n =? ipa then ret current
      else if gr_next n =? 0 then ret 0
      else aux_find_from fuel (gr_next n) ipa
  end.

Definition val_host_update_aux_rtt_info (gran_state rd rtt_index ipa : Z) (val : bool) : M gstate Z :=
  let* i := val_host_get_curr_realm rd in
  modify (set_current_realm i) ;;
  let* list :=
    (if gran_state =? GRANULE_DATA then let* p := get_list i Data in ret (Some p)
     else if gran_state =? GRANULE_UNPROTECTED then let* p := get_list i ValidNs in ret (Some p)
     else ret None) in
  match list with
  | None => ret VAL_ERROR
  | Some current =>
      if current =? 0 then ret VAL_ERROR
      else
        let* fuel := gets walk_fuel in
        let* current := aux_find_from fuel current ipa in
        let* n := deref current in
        let idx := u64 (rtt_index - 1) in
        if idx <? Z.of_nat (length (gr_has_auxiliary n)) then
          update current (set_aux (<[Z.to_nat idx := val]> (gr_has_auxiliary n))) ;;
          ret VAL_SUCCESS
        else fail OutOfBounds
  end.

(** The state at program start: no Realm, empty lists. *)
Definition empty_track : val_host_memory_track_ts := mk_track NO_REALM 0 0 0 0 0 0 0.

Definition gstate_init (a : alloc_state) (m : gmap Z val_host_granule_ts) : gstate :=
  mk_gs a m 0 0 1 (replicate VAL_HOST_MAX_REALMS empty_track).
