(* ===== verification/GranuleInv.v ===== *)
(** The representation invariant of the granule tracker and the specification of
    its list operations.

    [layout] is the abstract view of the tracker: for each slot of [mem_track]
    and each of its lists, the addresses of the descriptors in order.  [wf g L]
    says that the pointer structure of [g] represents [L].  The lemmas state each
    operation of Granule.v as an operation on layouts; they imply that it
    returns, so no null or wild pointer is followed and no list is cyclic. *)
From S2P Require Import Prelude Defs Alloc Granule.

(** * List segments *)

(** The descriptors [l], linked in order from pointer [p] to pointer [q]. *)
Fixpoint lseg (m : gmap Z val_host_granule_ts) (p : Z) (l : list Z) (q : Z) : Prop :=
  match l with
  | [] => p = q
  | a :: l => p = a ∧ a ≠ 0 ∧ ∃ n, m !! a = Some n ∧ lseg m (gr_next n) l q
  end.

(** The pointer to the first descriptor of a list. *)
Definition lhd (l : list Z) : Z := match l with [] => 0 | a :: _ => a end.

Definition layout : Type := nat → gfield → list Z.

Definition upd (L : layout) (i : nat) (f : gfield) (l : list Z) : layout :=
  λ j h, if decide (j = i ∧ h = f) then l else L j h.

Definition ptr (g : gstate) (i : nat) (f : gfield) : Z :=
  match mem_track g !! i with Some t => gt_get f t | None => 0 end.

(** [a] is in no list. *)
Definition loose (L : layout) (a : Z) : Prop := ∀ i f, a ∉ L i f.

Record wf (g : gstate) (L : layout) : Prop := {
  wf_slots : length (mem_track g) = VAL_HOST_MAX_REALMS;
  wf_realm : (current_realm g < VAL_HOST_MAX_REALMS)%nat;
  wf_lists : ∀ i f, (i < VAL_HOST_MAX_REALMS)%nat → lseg (nodes g) (ptr g i f) (L i f) 0;
  wf_range : ∀ i f, (VAL_HOST_MAX_REALMS ≤ i)%nat → L i f = [];
  wf_nodup : ∀ i f, NoDup (L i f);
  wf_disj : ∀ i f j h a, a ∈ L i f → a ∈ L j h → i = j ∧ f = h;
  wf_head : head g = lhd (L 0%nat Ns);
  wf_tail : ∀ l a, L 0%nat Ns = l ++ [a] → tail g = a;
  wf_alloc : alloc_wf (g_alloc g);
  wf_below : ∀ i f a, a ∈ L i f → a < heap_base (g_alloc g)
}.

(** Two descriptors with the same contents, the link aside. *)
Definition same_gran (n n' : val_host_granule_ts) : Prop := set_next 0 n = set_next 0 n'.

(** No descriptor disappears, and none changes but in its link. *)
Definition same_data (m m' : gmap Z val_host_granule_ts) : Prop :=
  ∀ a n, m !! a = Some n → ∃ n', m' !! a = Some n' ∧ same_gran n n'.

(** What the list operations leave alone: the allocator, the current Realm,
    the RDs of the slots, and the contents of the descriptors. *)
Record kept (g g' : gstate) : Prop := {
  kept_alloc : g_alloc g' = g_alloc g;
  kept_realm : current_realm g' = current_realm g;
  kept_rds : mt_rd <$> mem_track g' = mt_rd <$> mem_track g;
  kept_data : same_data (nodes g) (nodes g')
}.

#[export] Instance same_data_preorder : PreOrder same_data.
Proof.
  split.
  - intros m a n E. by exists n.
  - intros m1 m2 m3 H12 H23 a n E. destruct (H12 a n E) as (n2 & E2 & S2).
    destruct (H23 a n2 E2) as (n3 & E3 & S3). exists n3. split; [done|].
    unfold same_gran in *. congruence.
Qed.

#[export] Instance kept_preorder : PreOrder kept.
Proof.
  split.
  - intros g. by split.
  - intros g1 g2 g3 [] []. split; [congruence..|]. by transitivity (nodes g2).
Qed.

Create HintDb gran.

(** * Facts about segments *)

Lemma lseg_app m p l1 l2 q :
  lseg m p (l1 ++ l2) q ↔ ∃ r, lseg m p l1 r ∧ lseg m r l2 q.
Proof.
  revert p. induction l1 as [|a l1 IH]; intros p; simpl; [naive_solver|].
  setoid_rewrite IH. naive_solver.
Qed.

Lemma lseg_hd m p l : lseg m p l 0 → p = lhd l.
Proof. destruct l; simpl; naive_solver. Qed.

Lemma lseg_insert_out m p l q a n : a ∉ l → lseg m p l q → lseg (<[a := n]> m) p l q.
Proof.
  revert p. induction l as [|b l IH]; intros p Ha; simpl; [done|].
  apply not_elem_of_cons in Ha as [Hab Ha]. intros (-> & ? & nb & E & Hl).
  split; [done|]. split; [done|]. exists nb. rewrite lookup_insert_ne by done. auto.
Qed.

Lemma lseg_insert_same m p l q a n n' :
  m !! a = Some n → gr_next n' = gr_next n → lseg m p l q → lseg (<[a := n']> m) p l q.
Proof.
  intros E En. revert p. induction l as [|b l IH]; intros p; simpl; [done|].
  intros (-> & ? & nb & Eb & Hl). split; [done|]. split; [done|].
  destruct (decide (a = b)) as [->|].
  - exists n'. rewrite lookup_insert_eq. split; [done|]. simplify_eq. rewrite En. auto.
  - exists nb. rewrite lookup_insert_ne by done. auto.
Qed.

Lemma lseg_lookup m p l q a : lseg m p l q → a ∈ l → a ≠ 0 ∧ is_Some (m !! a).
Proof.
  revert p. induction l as [|b l IH]; intros p; simpl; [intros _ []%not_elem_of_nil|].
  intros (-> & ? & nb & Eb & Hl) [->|Ha]%elem_of_cons; eauto.
Qed.

Lemma lseg_length m p l q : NoDup l → lseg m p l q → (length l ≤ size m)%nat.
Proof.
  intros Hn Hl. rewrite <- size_dom, <- (size_list_to_set (C := gset Z) l Hn).
  apply subseteq_size. intros a Ha%elem_of_list_to_set. apply elem_of_dom.
  by eapply lseg_lookup.
Qed.

(** Change the link of the last descriptor of a segment. *)
Lemma lseg_relink m p l a q n r :
  NoDup (l ++ [a]) → lseg m p (l ++ [a]) q → m !! a = Some n →
  lseg (<[a := set_next r n]> m) p (l ++ [a]) r.
Proof.
  intros [_ [Hd _]]%NoDup_app. rewrite !lseg_app. intros (x & H1 & H2) E.
  exists x. split.
  - apply lseg_insert_out; [|done]. intros Ha. apply (Hd a); [done|]. by apply list_elem_of_singleton.
  - simpl in *. destruct H2 as (-> & ? & _). split; [done|]. split; [done|].
    exists (set_next r n). by rewrite lookup_insert_eq.
Qed.

(** * Monadic steps on a well-formed state *)

Lemma deref_Some g a n : a ≠ 0 → nodes g !! a = Some n → deref a g = Ok n g.
Proof. intros Ha E. unfold deref. destruct (Z.eqb_spec a 0); [done|]. by rewrite E. Qed.

Lemma update_Some g a n f :
  a ≠ 0 → nodes g !! a = Some n → update a f g = Ok tt (set_nodes (<[a := f n]> (nodes g)) g).
Proof. intros Ha E. unfold update. by rewrite (bind_step _ _ _ _ _ (deref_Some g a n Ha E)). Qed.

Lemma slot_Some g i : (i < length (mem_track g))%nat → ∃ t, mem_track g !! i = Some t ∧ slot i g = Ok t g.
Proof.
  intros Hi. destruct (lookup_lt_is_Some_2 _ _ Hi) as [t Ht]. exists t. split; [done|].
  unfold slot. by rewrite Ht.
Qed.

Lemma get_list_ptr g i f :
  (i < length (mem_track g))%nat → get_list i f g = Ok (ptr g i f) g.
Proof.
  intros Hi. destruct (slot_Some g i Hi) as (t & Ht & E). unfold get_list, ptr.
  rewrite (bind_step _ _ _ _ _ E). by rewrite Ht.
Qed.

(** The state after [put_list]. *)
Definition with_list (i : nat) (f : gfield) (p : Z) (g : gstate) : gstate :=
  set_mem_track (alter (gt_set f p) i (mem_track g)) g.

Lemma put_list_with g i f p :
  (i < length (mem_track g))%nat → put_list i f p g = Ok tt (with_list i f p g).
Proof.
  intros Hi. destruct (slot_Some g i Hi) as (t & Ht & E). unfold put_list, set_slot.
  rewrite (bind_step _ _ _ _ _ E). unfold modify, with_list. do 2 f_equal.
  apply list_eq. intros j. destruct (decide (i = j)) as [->|].
  - rewrite list_lookup_insert_eq, list_lookup_alter, Ht by done. by rewrite decide_True.
  - by rewrite list_lookup_insert_ne, list_lookup_alter_ne by done.
Qed.

Lemma gt_get_set f p t h : gt_get h (gt_set f p t) = if decide (h = f) then p else gt_get h t.
Proof. by destruct f, h. Qed.

Lemma ptr_with_list g i f p j h :
  (i < length (mem_track g))%nat →
  ptr (with_list i f p g) j h = if decide (j = i ∧ h = f) then p else ptr g j h.
Proof.
  intros Hi. unfold ptr, with_list, set_mem_track. cbn [mem_track].
  rewrite list_lookup_alter. destruct (decide (i = j)) as [->|].
  - destruct (lookup_lt_is_Some_2 _ _ Hi) as [t Ht]. rewrite Ht. cbn.
    rewrite gt_get_set. repeat case_decide; naive_solver.
  - rewrite decide_False by naive_solver. done.
Qed.

Lemma mt_rd_alter f p (i : nat) (l : list val_host_memory_track_ts) :
  mt_rd <$> alter (gt_set f p) i l = mt_rd <$> l.
Proof.
  apply list_eq. intros j. rewrite !list_lookup_fmap, list_lookup_alter.
  destruct (decide (i = j)) as [->|]; [|done]. by destruct (l !! j).
Qed.

Lemma kept_with_list g i f p : kept g (with_list i f p g).
Proof. split; try done. apply mt_rd_alter. Qed.

Lemma kept_set_head g p : kept g (set_head p g).
Proof. by split. Qed.

Lemma kept_set_tail g p : kept g (set_tail p g).
Proof. by split. Qed.

Lemma kept_relink g a n r :
  nodes g !! a = Some n → kept g (set_nodes (<[a := set_next r n]> (nodes g)) g).
Proof.
  intros E. split; try done. intros b nb Eb. cbn. destruct (decide (a = b)) as [->|].
  - rewrite lookup_insert_eq. simplify_eq. eexists. split; [done|]. done.
  - rewrite lookup_insert_ne by done. by exists nb.
Qed.

#[export] Hint Resolve kept_with_list kept_set_head kept_set_tail kept_relink : gran.

Lemma wf_slot_lt g L i : wf g L → (i < VAL_HOST_MAX_REALMS)%nat → (i < length (mem_track g))%nat.
Proof. intros H ?. by rewrite (wf_slots _ _ H). Qed.

Lemma wf_ptr g L i f : wf g L → (i < VAL_HOST_MAX_REALMS)%nat → ptr g i f = lhd (L i f).
Proof. intros H Hi. eapply lseg_hd. by apply (wf_lists _ _ H). Qed.

Lemma wf_get_list g L i f :
  wf g L → (i < VAL_HOST_MAX_REALMS)%nat → get_list i f g = Ok (lhd (L i f)) g.
Proof.
  intros H Hi. rewrite get_list_ptr by (by eapply wf_slot_lt). by rewrite (wf_ptr g L).
Qed.

Lemma wf_in_range g L i f a : wf g L → a ∈ L i f → (i < VAL_HOST_MAX_REALMS)%nat.
Proof.
  intros H Ha. destruct (decide (i < VAL_HOST_MAX_REALMS)%nat) as [|Hge]; [done|].
  rewrite (wf_range _ _ H) in Ha by lia. by apply not_elem_of_nil in Ha.
Qed.

Lemma wf_node g L i f a : wf g L → a ∈ L i f → a ≠ 0 ∧ is_Some (nodes g !! a).
Proof.
  intros H Ha. pose proof (wf_in_range _ _ _ _ _ H Ha).
  eapply lseg_lookup; [by apply (wf_lists _ _ H i f)|done].
Qed.

Lemma loose_upd_intro L i f l a : loose L a → a ∉ l → loose (upd L i f l) a.
Proof. intros H Ha j h. unfold upd. case_decide; [done|apply H]. Qed.

Lemma lseg_agree (m m' : gmap Z val_host_granule_ts) p l q :
  (∀ b, b ∈ l → m' !! b = m !! b) → lseg m p l q → lseg m' p l q.
Proof.
  revert p. induction l as [|b l IH]; intros p Hl; simpl; [done|].
  intros (-> & ? & n & E & Hs). split; [done|]. split; [done|]. exists n.
  rewrite Hl by set_solver. split; [done|]. apply IH; [|done]. set_solver.
Qed.

(** * Change of one list

    The obligations of an operation that replaces the list [f] of slot [i] by
    [l'] and touches no descriptor of another list. *)
Record changes (g : gstate) (L : layout) (i : nat) (f : gfield) (l' : list Z) (g' : gstate) :
    Prop := {
  ch_kept : kept g g';
  ch_ptrs : ∀ j h, ¬ (j = i ∧ h = f) → ptr g' j h = ptr g j h;
  ch_frame : ∀ j h b, ¬ (j = i ∧ h = f) → b ∈ L j h → nodes g' !! b = nodes g !! b;
  ch_list : lseg (nodes g') (ptr g' i f) l' 0;
  ch_other : ¬ (i = 0%nat ∧ f = Ns) → head g' = head g ∧ tail g' = tail g;
  ch_ns : i = 0%nat ∧ f = Ns → head g' = lhd l' ∧ ∀ l a, l' = l ++ [a] → tail g' = a
}.

Lemma kept_slots g g' : kept g g' → length (mem_track g') = length (mem_track g).
Proof. intros K. by rewrite <- (length_fmap mt_rd), (kept_rds _ _ K), length_fmap. Qed.

Lemma upd_eq L i f l : upd L i f l i f = l.
Proof. unfold upd. by rewrite decide_True. Qed.

Lemma upd_ne L i f l j h : ¬ (j = i ∧ h = f) → upd L i f l j h = L j h.
Proof. intros H. unfold upd. by rewrite decide_False. Qed.

Lemma changes_wf g L i f l' g' :
  wf g L → (i < VAL_HOST_MAX_REALMS)%nat → changes g L i f l' g' →
  NoDup l' →
  (∀ a, a ∈ l' → (a ∈ L i f ∨ loose L a) ∧ a < heap_base (g_alloc g)) →
  wf g' (upd L i f l').
Proof.
  intros W Hi C Hnd Hin. pose proof (ch_kept _ _ _ _ _ _ C) as K. split.
  - by rewrite (kept_slots _ _ K), (wf_slots _ _ W).
  - rewrite (kept_realm _ _ K). apply W.
  - intros j h Hj. unfold upd. case_decide as Hd; [destruct Hd as [-> ->]; apply C|].
    rewrite (ch_ptrs _ _ _ _ _ _ C) by done. eapply lseg_agree; [|by apply W].
    intros b Hb. by eapply (ch_frame _ _ _ _ _ _ C).
  - intros j h Hj. rewrite upd_ne by lia. by apply W.
  - intros j h. unfold upd. case_decide; [done|apply W].
  - intros j h j' h' a. unfold upd. repeat case_decide; intros H1 H2; destruct_and?; subst.
    + done.
    + destruct (Hin a H1) as [[Ha|Ha] _]; [by eapply (wf_disj _ _ W)|by destruct (Ha _ _ H2)].
    + destruct (Hin a H2) as [[Ha|Ha] _]; [by eapply (wf_disj _ _ W)|by destruct (Ha _ _ H1)].
    + by eapply (wf_disj _ _ W).
  - unfold upd. case_decide as Hd.
    + destruct Hd as [<- <-]. by apply C.
    + rewrite (proj1 (ch_other _ _ _ _ _ _ C ltac:(naive_solver))). apply W.
  - unfold upd. case_decide as Hd.
    + destruct Hd as [<- <-]. by apply C.
    + rewrite (proj2 (ch_other _ _ _ _ _ _ C ltac:(naive_solver))). apply W.
  - rewrite (kept_alloc _ _ K). apply W.
  - rewrite (kept_alloc _ _ K). intros j h a. unfold upd. case_decide.
    + intros Ha. by apply Hin.
    + apply W.
Qed.

(** Two descriptors of different lists differ. *)
Lemma wf_apart g L i f j h a b :
  wf g L → a ∈ L i f → b ∈ L j h → ¬ (j = i ∧ h = f) → a ≠ b.
Proof. intros W Ha Hb Hne ->. destruct (wf_disj _ _ W _ _ _ _ _ Ha Hb). naive_solver. Qed.

Lemma loose_apart L a j h b : loose L a → b ∈ L j h → a ≠ b.
Proof. intros Ha Hb ->. by apply (Ha j h). Qed.

Lemma zero_slot : (0 < VAL_HOST_MAX_REALMS)%nat.
Proof. vm_compute. lia. Qed.
#[export] Hint Resolve zero_slot : gran.

(** A list that is not empty starts at a descriptor. *)
Lemma wf_lhd g L i f a : wf g L → a ∈ L i f → lhd (L i f) ≠ 0.
Proof.
  intros W Ha. destruct (L i f) as [|b l] eqn:EL; [by apply not_elem_of_nil in Ha|].
  apply (wf_node g L i f b W). rewrite EL. set_solver.
Qed.

(** A write to a descriptor of one list is not seen in the others. *)
Lemma write_frame g L i f a x j h b :
  wf g L → a ∈ L i f → ¬ (j = i ∧ h = f) → b ∈ L j h → <[a := x]> (nodes g) !! b = nodes g !! b.
Proof. intros W Ha Hne Hb. apply lookup_insert_ne. by eapply wf_apart. Qed.

(** * Appending a descriptor to the Non-secure list *)

(** A descriptor that was in no list, at the end of one. *)
Lemma appended_wf g L i f p g' :
  wf g L → (i < VAL_HOST_MAX_REALMS)%nat → loose L p → p < heap_base (g_alloc g) →
  changes g L i f (L i f ++ [p]) g' → wf g' (upd L i f (L i f ++ [p])) ∧ kept g g'.
Proof.
  intros W Hi Hlo Hbelow C. split; [|apply C]. apply (changes_wf g); [done..| |].
  - apply NoDup_app. split; [apply W|]. split; [|apply NoDup_singleton].
    intros a Ha ->%list_elem_of_singleton. by apply (Hlo i f).
  - intros a [Ha| ->%list_elem_of_singleton]%elem_of_app; [|by auto].
    split; [by left|by apply (wf_below _ _ W i f)].
Qed.

Lemma list_end (l : list Z) : l = [] ∨ ∃ l' t, l = l' ++ [t].
Proof. destruct l as [|t l' _] using rev_ind; eauto. Qed.

(** The last descriptor linked to a new one. *)
Lemma lseg_snoc m q l t nt p n :
  NoDup (l ++ [t]) → lseg m q (l ++ [t]) 0 → m !! t = Some nt → t ≠ p → p ≠ 0 →
  m !! p = Some n → gr_next n = 0 → lseg (<[t := set_next p nt]> m) q ((l ++ [t]) ++ [p]) 0.
Proof.
  intros Hnd Hl Et Htp Hp Ep Hn. apply lseg_app. exists p. split; [by eapply lseg_relink|].
  cbn. split; [done|]. split; [done|]. exists n. by rewrite lookup_insert_ne.
Qed.

(** The first granule of all. *)
Lemma add_granule_empty g L p n :
  wf g L → p ≠ 0 → nodes g !! p = Some n → loose L p → L 0%nat Ns = [] →
  let g1 := with_list 0 Ns p (set_head p g) in
  changes g L 0 Ns [p] (set_tail p (set_nodes (<[p := set_next 0 n]> (nodes g1)) g1)).
Proof.
  intros W Hp Ep Hlo EL g1. pose proof (wf_slot_lt _ _ _ W zero_slot) as H0'. split.
  - etransitivity; [|apply kept_set_tail]. etransitivity; [|by apply kept_relink].
    etransitivity; [|apply kept_with_list]. apply kept_set_head.
  - intros j h Hne. etransitivity; [exact (ptr_with_list (set_head p g) 0 Ns p j h H0')|].
    by rewrite decide_False.
  - intros j h b _ Hb. cbn. apply lookup_insert_ne. by eapply loose_apart.
  - change (ptr _ 0 Ns) with (ptr g1 0 Ns). unfold g1.
    rewrite ptr_with_list, decide_True by done. cbn.
    split; [done|]. split; [done|]. eexists. by rewrite lookup_insert_eq.
  - naive_solver.
  - intros _. split; [done|]. intros l a E. cbn. destruct l as [|? []]; by simplify_eq/=.
Qed.

(** A granule behind the tail [t]. *)
Lemma add_granule_behind g L p n l t nt :
  wf g L → p ≠ 0 → nodes g !! p = Some n → gr_next n = 0 → loose L p →
  L 0%nat Ns = l ++ [t] → nodes g !! t = Some nt →
  changes g L 0 Ns ((l ++ [t]) ++ [p]) (set_tail p (set_nodes (<[t := set_next p nt]> (nodes g)) g)).
Proof.
  intros W Hp Ep Hnx Hlo EL Ent. assert (t ∈ L 0%nat Ns) as Hin by (rewrite EL; set_solver).
  assert (t ≠ p) as Htp by (intros ->; by apply (Hlo 0%nat Ns)). split.
  - etransitivity; [|apply kept_set_tail]. by apply kept_relink.
  - done.
  - intros j h b. by apply write_frame.
  - cbn. rewrite <- EL. change (ptr _ 0 Ns) with (ptr g 0 Ns). rewrite EL. apply (lseg_snoc _ _ _ _ _ _ n); try done.
    + rewrite <- EL. apply W.
    + rewrite <- EL. by apply W, zero_slot.
  - naive_solver.
  - intros _. split; [cbn; rewrite (wf_head _ _ W), EL; by destruct l|].
    intros l1 a E. cbn. by apply app_inj_2 in E as [_ [= ->]].
Qed.

Lemma add_granule_spec g L state PA p n :
  wf g L → p ≠ 0 → nodes g !! p = Some n → gr_next n = 0 → loose L p →
  p < heap_base (g_alloc g) →
  run_to (val_host_add_granule state PA p) g (λ _ g',
    wf g' (upd L 0 Ns (L 0%nat Ns ++ [p])) ∧ kept g g').
Proof.
  intros W Hp Ep Hnx Hlo Hbelow. unfold val_host_add_granule.
  rewrite (proj2 (Z.eqb_neq p 0)) by done.
  do 2 (eapply run_to_step; [reflexivity|]). rewrite (wf_head _ _ W).
  destruct (list_end (L 0%nat Ns)) as [EL|(l & t & EL)].
  - rewrite (f_equal lhd EL). cbn [lhd]. rewrite Z.eqb_refl.
    eapply run_to_step; [reflexivity|].
    eapply run_to_step; [by apply put_list_with, (wf_slot_lt _ _ _ W zero_slot)|].
    eapply run_to_step; [by apply update_Some|]. apply run_to_modify.
    apply appended_wf; [done|apply zero_slot|done|done|]. rewrite EL. by apply add_granule_empty.
  - assert (t ∈ L 0%nat Ns) as Hin by (rewrite EL; set_solver).
    destruct (wf_node g L 0 Ns t W Hin) as [Ht [nt Ent]].
    assert (lhd (L 0%nat Ns) ≠ 0) as Hh by (by eapply wf_lhd).
    rewrite (proj2 (Z.eqb_neq _ _) Hh). eapply run_to_step; [reflexivity|].
    rewrite (wf_tail _ _ W l t EL).
    eapply run_to_step; [by apply update_Some|].
    eapply run_to_step; [apply deref_Some; [done|]; apply lookup_insert_eq|]. apply run_to_modify.
    apply appended_wf; [done|apply zero_slot|done|done|]. rewrite EL. by eapply add_granule_behind.
Qed.

(** * Searching a list *)

(** [misses m test l]: no descriptor of [l] passes the test.
    [hits m test l l1 a l2]: [a] is the first of [l] that does, between [l1] and [l2]. *)
Definition misses (m : gmap Z val_host_granule_ts) (test : val_host_granule_ts → bool)
    (l : list Z) : Prop := ∀ a n, a ∈ l → m !! a = Some n → test n = false.

Definition hits (m : gmap Z val_host_granule_ts) (test : val_host_granule_ts → bool)
    (l l1 : list Z) (a : Z) (l2 : list Z) : Prop :=
  l = l1 ++ a :: l2 ∧ misses m test l1 ∧ ∃ n, m !! a = Some n ∧ test n = true.

Lemma search_cases m test p l :
  lseg m p l 0 → misses m test l ∨ ∃ l1 a l2, hits m test l l1 a l2.
Proof.
  revert p. induction l as [|b l IH]; intros p; simpl.
  - intros _. left. intros ?? []%not_elem_of_nil.
  - intros (-> & _ & n & E & Hl). destruct (test n) eqn:Et.
    + right. exists [], b, l. split; [done|]. split; [intros ?? []%not_elem_of_nil|eauto].
    + destruct (IH _ Hl) as [Hm|(l1 & a & l2 & -> & Hm & Ha)].
      * left. intros a na [->|Ha]%elem_of_cons; [naive_solver|eauto].
      * right. exists (b :: l1), a, l2. split; [done|]. split; [|done].
        intros c nc [->|Hc]%elem_of_cons; [naive_solver|eauto].
Qed.

Lemma misses_cons m test a l n :
  m !! a = Some n → misses m test (a :: l) → test n = false ∧ misses m test l.
Proof. intros E H. split; [by eapply H; [left|]|]. intros b nb Hb. apply H. by right. Qed.

Lemma remove_walk_miss g test fuel prev p l :
  lseg (nodes g) p l 0 → (length l < fuel)%nat → misses (nodes g) test l →
  ∃ q, remove_walk test fuel prev p g = Ok (q, 0) g.
Proof.
  revert fuel prev p. induction l as [|a l IH]; intros [|fuel] prev p; simpl; try lia.
  - intros -> _ _. by eexists.
  - intros (-> & Ha & n & E & Hl) Hf Hm. rewrite (proj2 (Z.eqb_neq a 0)) by done.
    destruct (misses_cons _ _ _ _ _ E Hm) as [Ht Hm']. setoid_rewrite bind_step; [|by apply deref_Some].
    rewrite Ht. apply IH; [done|lia|done].
Qed.

Lemma remove_walk_hit g test fuel prev p l l1 a l2 :
  lseg (nodes g) p l 0 → (length l < fuel)%nat → hits (nodes g) test l l1 a l2 →
  remove_walk test fuel prev p g = Ok (default prev (last l1), a) g.
Proof.
  intros Hl Hf (-> & Hm & n & E & Ht). revert fuel prev p Hl Hf Hm.
  induction l1 as [|b l1 IH]; intros [|fuel] prev p; simpl; try lia.
  - intros (-> & Ha & _) _ _. rewrite (proj2 (Z.eqb_neq a 0)) by done.
    rewrite (bind_step _ _ _ _ _ (deref_Some _ _ _ Ha E)). by rewrite Ht.
  - intros (-> & Hb & nb & Eb & Hl) Hf Hm. rewrite (proj2 (Z.eqb_neq b 0)) by done.
    destruct (misses_cons _ _ _ _ _ Eb Hm) as [Htb Hm'].
    rewrite (bind_step _ _ _ _ _ (deref_Some _ _ _ Hb Eb)), Htb, IH by (done || lia).
    do 2 f_equal. rewrite last_cons. by destruct (last l1).
Qed.

Lemma find_from_miss g fuel p l PA :
  lseg (nodes g) p l 0 → (length l < fuel)%nat → misses (nodes g) (λ n, gr_PA n =? PA) l →
  find_from fuel p PA g = Ok 0 g.
Proof.
  revert fuel p. induction l as [|a l IH]; intros [|fuel] p; simpl; try lia.
  - by intros ->.
  - intros (-> & Ha & n & E & Hl) Hf Hm. rewrite (proj2 (Z.eqb_neq a 0)) by done.
    destruct (misses_cons _ _ _ _ _ E Hm) as [Ht Hm'].
    rewrite (bind_step _ _ _ _ _ (deref_Some _ _ _ Ha E)), Ht. apply IH; [done|lia|done].
Qed.

Lemma find_from_hit g fuel p l PA l1 a l2 :
  lseg (nodes g) p l 0 → (length l < fuel)%nat →
  hits (nodes g) (λ n, gr_PA n =? PA) l l1 a l2 → find_from fuel p PA g = Ok a g.
Proof.
  intros Hl Hf (-> & Hm & n & E & Ht). revert fuel p Hl Hf Hm.
  induction l1 as [|b l1 IH]; intros [|fuel] p; simpl; try lia.
  - intros (-> & Ha & _) _ _. rewrite (proj2 (Z.eqb_neq a 0)) by done.
    rewrite (bind_step _ _ _ _ _ (deref_Some _ _ _ Ha E)). by rewrite Ht.
  - intros (-> & Hb & nb & Eb & Hl) Hf Hm. rewrite (proj2 (Z.eqb_neq b 0)) by done.
    destruct (misses_cons _ _ _ _ _ Eb Hm) as [Htb Hm'].
    rewrite (bind_step _ _ _ _ _ (deref_Some _ _ _ Hb Eb)), Htb. apply IH; [done|lia|done].
Qed.

Lemma wf_fuel g L i f : wf g L → (length (L i f) < walk_fuel g)%nat.
Proof.
  intros W. unfold walk_fuel. destruct (decide (i < VAL_HOST_MAX_REALMS)%nat).
  - pose proof (lseg_length _ _ _ _ (wf_nodup _ _ W i f) (wf_lists _ _ W i f ltac:(done))). lia.
  - rewrite (wf_range _ _ W) by lia. simpl. lia.
Qed.

(** [val_host_find_granule] finds the first descriptor of the Non-secure list
    with the given PA. *)
Lemma find_granule_miss g L PA :
  wf g L → misses (nodes g) (λ n, gr_PA n =? PA) (L 0%nat Ns) → val_host_find_granule PA g = Ok 0 g.
Proof.
  intros W Hm. unfold val_host_find_granule, gets, bind. rewrite (wf_head _ _ W).
  rewrite <- (wf_ptr _ _ _ _ W zero_slot). eapply find_from_miss; [by apply W, zero_slot| |done].
  by apply wf_fuel.
Qed.

Lemma find_granule_hit g L PA l1 a l2 :
  wf g L → hits (nodes g) (λ n, gr_PA n =? PA) (L 0%nat Ns) l1 a l2 →
  val_host_find_granule PA g = Ok a g.
Proof.
  intros W Hm. unfold val_host_find_granule, gets, bind. rewrite (wf_head _ _ W).
  rewrite <- (wf_ptr _ _ _ _ W zero_slot). eapply find_from_hit; [by apply W, zero_slot| |done].
  by apply wf_fuel.
Qed.

(** * Unlinking a descriptor *)

(** The first test of [remove_with]. *)
Lemma first_test g test i f L :
  wf g L → (i < VAL_HOST_MAX_REALMS)%nat →
  (if lhd (L i f) =? 0 then ret false else let* n := deref (lhd (L i f)) in ret (test n)) g
  = Ok (match L i f with
        | [] => false
        | a :: _ => match nodes g !! a with Some n => test n | None => false end
        end) g.
Proof.
  intros W Hi. destruct (L i f) as [|a l] eqn:E; cbn [lhd]; [done|].
  destruct (wf_node g L i f a W) as [Ha [n En]]; [rewrite E; set_solver|].
  rewrite (proj2 (Z.eqb_neq a 0)) by done.
  rewrite (bind_step _ _ _ _ _ (deref_Some _ _ _ Ha En)). by rewrite En.
Qed.

Lemma remove_miss g L test i f :
  wf g L → (i < VAL_HOST_MAX_REALMS)%nat → misses (nodes g) test (L i f) →
  remove_with test i f g = Ok 0 g.
Proof.
  intros W Hi Hm. unfold remove_with.
  rewrite (bind_step _ _ _ _ _ (wf_get_list _ _ _ _ W Hi)).
  rewrite (bind_step _ _ _ _ _ (wf_get_list _ _ _ _ W zero_slot)).
  rewrite (bind_step _ _ _ _ _ (first_test g test i f L W Hi)).
  assert (match L i f with
    | [] => false
    | a :: _ => match nodes g !! a with Some n => test n | None => false end
    end = false) as ->.
  { destruct (L i f) as [|a l]; [done|]. destruct (nodes g !! a) eqn:E; [|done].
    by eapply Hm; [left|]. }
  rewrite (bind_step _ _ _ (walk_fuel g) g) by done. rewrite <- (wf_ptr _ _ _ _ W Hi).
  destruct (remove_walk_miss g test (walk_fuel g) 0 (ptr g i f) (L i f)) as [q E];
    [by apply W|by apply wf_fuel|done|].
  by rewrite (bind_step _ _ _ _ _ E).
Qed.

(** What the removal functions do when a descriptor passes the test. *)
Definition removed (g : gstate) (L : layout) (i : nat) (f : gfield) (l1 : list Z) (a : Z)
    (l2 : list Z) (r : Z) (g' : gstate) : Prop :=
  r = a ∧ wf g' (upd L i f (l1 ++ l2)) ∧ kept g g' ∧
  loose (upd L i f (l1 ++ l2)) a ∧ ∃ n, nodes g' !! a = Some n ∧ gr_next n = 0.

Lemma removed_intro g L i f l1 a l2 n g' :
  wf g L → (i < VAL_HOST_MAX_REALMS)%nat → L i f = l1 ++ a :: l2 →
  changes g L i f (l1 ++ l2) g' → nodes g' !! a = Some n → gr_next n = 0 →
  removed g L i f l1 a l2 a g'.
Proof.
  intros W Hi EL C En Hn. pose proof (wf_nodup _ _ W i f) as Hnd. rewrite EL in Hnd.
  rewrite <- (Permutation_middle l1 l2 a) in Hnd. apply NoDup_cons in Hnd as [Ha Hnd].
  split; [done|]. split; [|split; [apply C|split; [|by eauto]]].
  - apply (changes_wf g); [done..|]. intros b Hb.
    assert (b ∈ L i f) by (rewrite EL; set_solver). split; [by left|]. by eapply (wf_below _ _ W).
  - intros j h. unfold upd. case_decide as Hd; [done|]. intros Hj.
    apply Hd. eapply (wf_disj _ _ W); [done|]. rewrite EL. set_solver.
Qed.

Lemma lseg_cons_inv m p a l q n :
  m !! a = Some n → lseg m p (a :: l) q → p = a ∧ a ≠ 0 ∧ lseg m (gr_next n) l q.
Proof. simpl. naive_solver. Qed.

(** Two lists that are not empty start at the same pointer only if they are the same. *)
Lemma lhd_same g L i f :
  wf g L → L i f ≠ [] → lhd (L 0%nat Ns) = lhd (L i f) → i = 0%nat ∧ f = Ns.
Proof.
  intros W Hne E. destruct (L i f) as [|a l] eqn:El; [done|].
  destruct (wf_node g L i f a W) as [Ha _]; [rewrite El; set_solver|].
  apply (wf_disj _ _ W _ _ _ _ a); [rewrite El; set_solver|].
  destruct (L 0%nat Ns) as [|b l0] eqn:E0; simpl in E; [done|]. subst. set_solver.
Qed.

(** The first descriptor unlinked; [g0] is [g], with [head] moved on if need be. *)
Lemma unlink_first g L i f a l2 n g0 :
  wf g L → (i < VAL_HOST_MAX_REALMS)%nat → L i f = a :: l2 → nodes g !! a = Some n →
  g0 = g ∧ ¬ (i = 0%nat ∧ f = Ns) ∨ g0 = set_head (gr_next n) g ∧ i = 0%nat ∧ f = Ns →
  let g1 := with_list i f (gr_next n) g0 in
  changes g L i f l2 (set_nodes (<[a := set_next 0 n]> (nodes g1)) g1).
Proof.
  intros W Hi EL En Hg0 g1. assert (a ∈ L i f) as Hin by (rewrite EL; set_solver).
  pose proof (wf_lists _ _ W i f Hi) as Hl. rewrite EL in Hl.
  destruct (lseg_cons_inv _ _ _ _ _ _ En Hl) as (_ & _ & Hl2).
  pose proof (wf_nodup _ _ W i f) as Hnd. rewrite EL in Hnd. apply NoDup_cons in Hnd as [Hal2 _].
  assert (kept g g0 ∧ nodes g0 = nodes g ∧ (∀ j h, ptr g0 j h = ptr g j h) ∧ tail g0 = tail g ∧
    mem_track g0 = mem_track g) as (K & En0 & Hp0 & Ht0 & Hm0).
  { destruct Hg0 as [[-> _]|[-> _]]; [done|]. split; [apply kept_set_head|done]. }
  assert (∀ j h, ptr g1 j h = if decide (j = i ∧ h = f) then gr_next n else ptr g j h) as Hp.
  { intros j h. unfold g1. rewrite ptr_with_list, Hp0; [done|]. rewrite Hm0. by apply (wf_slot_lt _ _ _ W). }
  assert (nodes g1 = nodes g) as En1 by exact En0.
  split.
  - etransitivity; [exact K|]. etransitivity; [apply kept_with_list|]. apply kept_relink. by rewrite En1.
  - intros j h Hne. change (ptr g1 j h = ptr g j h). rewrite Hp. by rewrite decide_False.
  - intros j h b Hne Hb. change (<[a := set_next 0 n]> (nodes g1) !! b = nodes g !! b).
    rewrite En1. by eapply write_frame.
  - change (lseg (<[a := set_next 0 n]> (nodes g1)) (ptr g1 i f) l2 0).
    rewrite Hp, decide_True, En1 by done. by apply lseg_insert_out.
  - intros Hne. destruct Hg0 as [[-> _]|[_ ?]]; done.
  - intros Hns. destruct Hg0 as [[_ ?]|[-> _]]; [done|]. split; [by apply lseg_hd in Hl2|].
    intros l b E. subst l2. apply (wf_tail _ _ W (a :: l) b). destruct Hns as [-> ->]. by rewrite EL.
Qed.

Lemma remove_hit_first g L test i f a l2 :
  wf g L → (i < VAL_HOST_MAX_REALMS)%nat → hits (nodes g) test (L i f) [] a l2 →
  run_to (remove_with test i f) g (removed g L i f [] a l2).
Proof.
  intros W Hi (EL & _ & n & En & Ht). cbn in EL.
  destruct (wf_node g L i f a W) as [Ha _]; [rewrite EL; set_solver|].
  pose proof (wf_slot_lt _ _ _ W Hi) as Hi'. unfold remove_with.
  eapply run_to_step; [by apply (wf_get_list _ _ _ _ W Hi)|].
  eapply run_to_step; [by apply (wf_get_list _ _ _ _ W zero_slot)|].
  eapply run_to_step; [by apply (first_test g test i f L W Hi)|].
  rewrite EL, En, Ht. cbn [lhd].
  eapply run_to_step; [by apply deref_Some|].
  assert (i = 0%nat ∧ f = Ns ↔ lhd (L 0%nat Ns) = a) as Hns.
  { split; [intros [-> ->]; by rewrite EL|]. intros E. apply (lhd_same g L); [done|by rewrite EL|].
    by rewrite EL. }
  destruct (Z.eqb_spec (lhd (L 0%nat Ns)) a) as [E0|E0].
  - destruct (proj2 Hns E0) as [-> ->].
    eapply run_to_step; [reflexivity|]. eapply run_to_step; [by apply put_list_with|].
    eapply run_to_step; [by apply update_Some|]. apply run_to_ret.
    eapply removed_intro; [done|done|done| |apply lookup_insert_eq|done].
    eapply unlink_first; try done. by right.
  - eapply run_to_step; [by apply put_list_with|].
    eapply run_to_step; [by apply update_Some|]. apply run_to_ret.
    eapply removed_intro; [done|done|done| |apply lookup_insert_eq|done].
    eapply unlink_first; try done. left. naive_solver.
Qed.

(** A later descriptor, behind [prev]. *)
Lemma lseg_unlink m p l prev a l2 np na :
  NoDup (l ++ prev :: a :: l2) → lseg m p (l ++ prev :: a :: l2) 0 →
  m !! prev = Some np → m !! a = Some na →
  lseg (<[a := set_next 0 na]> (<[prev := set_next (gr_next na) np]> m)) p ((l ++ [prev]) ++ l2) 0.
Proof.
  intros Hnd Hl Ep Ea. apply NoDup_app in Hnd as (Hn1 & Hd & Hn2).
  apply NoDup_cons in Hn2 as [Hpa Hn2]. apply NoDup_cons in Hn2 as [Hal2 _].
  apply lseg_app in Hl as (r & H1 & H2).
  destruct (lseg_cons_inv _ _ _ _ _ _ Ep H2) as (-> & Hp & H3).
  destruct (lseg_cons_inv _ _ _ _ _ _ Ea H3) as (E & Ha & H4).
  rewrite <- app_assoc. cbn. apply lseg_app. exists prev. split.
  - apply lseg_insert_out; [intros Hx; apply (Hd a Hx); set_solver|].
    apply lseg_insert_out; [intros Hx; apply (Hd prev Hx); set_solver|done].
  - cbn. split; [done|]. split; [done|]. exists (set_next (gr_next na) np).
    rewrite lookup_insert_ne by set_solver. rewrite lookup_insert_eq. split; [done|]. cbn.
    apply lseg_insert_out; [done|]. apply lseg_insert_out; [set_solver|done].
Qed.

Lemma kept_state g (b : bool) p : kept g (if b then set_tail p g else g).
Proof. destruct b; [apply kept_set_tail|done]. Qed.

(** The last descriptor of the list, when [a] behind [prev] was unlinked. *)
Lemma tail_unlinked g L l prev a l2 n l' c :
  wf g L → L 0%nat Ns = (l ++ [prev]) ++ a :: l2 → nodes g !! a = Some n →
  (l ++ [prev]) ++ l2 = l' ++ [c] → c = if gr_next n =? 0 then prev else tail g.
Proof.
  intros W EL En E. pose proof (wf_lists _ _ W 0%nat Ns zero_slot) as Hl. rewrite EL in Hl.
  apply lseg_app in Hl as (r & _ & Hl). destruct (lseg_cons_inv _ _ _ _ _ _ En Hl) as (_ & _ & Hl2).
  destruct l2 as [|x l2 _] using rev_ind.
  - simpl in Hl2. rewrite Hl2. rewrite app_nil_r in E. by apply app_inj_2 in E as [_ [= ->]].
  - assert (gr_next n ≠ 0) as Hn by (destruct l2; simpl in Hl2; naive_solver).
    rewrite (proj2 (Z.eqb_neq _ _) Hn). symmetry. apply (wf_tail _ _ W ((l ++ [prev]) ++ a :: l2)).
    rewrite app_assoc in E. apply app_inj_2 in E as [_ [= ->]]; [|done].
    by rewrite EL, app_comm_cons, (app_assoc (l ++ [prev])).
Qed.

(** A later descriptor unlinked; [g2] is [g] with the descriptor before it
    relinked, and [tail] moved back if the last granule of all was unlinked. *)
Lemma unlink_later g L i f l prev a l2 np n g2 :
  wf g L → (i < VAL_HOST_MAX_REALMS)%nat → L i f = (l ++ [prev]) ++ a :: l2 →
  nodes g !! prev = Some np → nodes g !! a = Some n → prev ≠ a →
  let g1 := set_nodes (<[prev := set_next (gr_next n) np]> (nodes g)) g in
  g2 = (if (ptr g1 0 Ns =? ptr g1 i f) && (gr_next n =? 0) then set_tail prev g1 else g1) →
  changes g L i f ((l ++ [prev]) ++ l2) (set_nodes (<[a := set_next 0 n]> (nodes g2)) g2).
Proof.
  intros W Hi EL Enp En Hpa g1 Hg2. set (b := _ && _) in Hg2.
  assert (nodes g2 = nodes g1) as E21 by (rewrite Hg2; by destruct b).
  assert (∀ j h, ptr g2 j h = ptr g j h) as Hptr by (intros; rewrite Hg2; by destruct b).
  assert (nodes g2 !! a = Some n) as Ea2 by (rewrite E21; cbn; by rewrite lookup_insert_ne).
  assert (prev ∈ L i f ∧ a ∈ L i f) as [Hin1 Hin2] by (rewrite EL; set_solver).
  split.
  - transitivity g1; [by apply kept_relink|]. transitivity g2; [rewrite Hg2; apply kept_state|].
    by apply kept_relink.
  - intros j h _. apply Hptr.
  - intros j h c Hne Hc. cbn. rewrite E21. cbn.
    rewrite lookup_insert_ne by (by eapply wf_apart). by eapply write_frame.
  - change (lseg (<[a := set_next 0 n]> (nodes g2)) (ptr g2 i f) ((l ++ [prev]) ++ l2) 0).
    rewrite Hptr, E21. cbn. pose proof (wf_lists _ _ W i f Hi) as Hl. pose proof (wf_nodup _ _ W i f) as Hnd.
    rewrite EL, <- app_assoc in Hl, Hnd. by eapply lseg_unlink.
  - intros Hne. assert (b = false) as Eb; [|rewrite Hg2; by rewrite Eb].
    unfold b. change (ptr g1) with (ptr g). rewrite !(wf_ptr _ _ _ _ W) by eauto with gran.
    destruct (Z.eqb_spec (lhd (L 0%nat Ns)) (lhd (L i f))); [|done].
    destruct Hne. eapply lhd_same; [done| |done]. rewrite EL. by destruct l.
  - intros [-> ->]. unfold b in Hg2. rewrite Z.eqb_refl in Hg2. cbn [andb] in Hg2. rewrite Hg2.
    split; [destruct (gr_next n =? 0); cbn; rewrite (wf_head _ _ W), EL; by destruct l|].
    intros l' c E. rewrite (tail_unlinked g L l prev a l2 n l' c W EL En E). by destruct (gr_next n =? 0).
Qed.

Lemma remove_hit_later g L test i f l prev a l2 :
  wf g L → (i < VAL_HOST_MAX_REALMS)%nat →
  hits (nodes g) test (L i f) (l ++ [prev]) a l2 →
  run_to (remove_with test i f) g (removed g L i f (l ++ [prev]) a l2).
Proof.
  intros W Hi Hh. pose proof Hh as (EL & Hm & n & En & Ht).
  destruct (wf_node g L i f prev W) as [Hp [np Enp]]; [rewrite EL; set_solver|].
  destruct (wf_node g L i f a W) as [Ha _]; [rewrite EL; set_solver|].
  assert (prev ≠ a) as Hpa.
  { pose proof (wf_nodup _ _ W i f) as Hnd. rewrite EL, <- app_assoc in Hnd.
    apply NoDup_app in Hnd as (_ & _ & [Hx _]%NoDup_cons). set_solver. }
  unfold remove_with.
  eapply run_to_step; [by apply (wf_get_list _ _ _ _ W Hi)|].
  eapply run_to_step; [by apply (wf_get_list _ _ _ _ W zero_slot)|].
  eapply run_to_step; [by apply (first_test g test i f L W Hi)|].
  assert (match L i f with
    | [] => false
    | a :: _ => match nodes g !! a with Some n => test n | None => false end
    end = false) as ->.
  { rewrite EL. destruct l as [|b l]; cbn; [by rewrite Enp; eapply Hm; [left|]|].
    destruct (nodes g !! b) eqn:E; [|done]. by eapply Hm; [left|]. }
  eapply run_to_step; [reflexivity|]. rewrite <- (wf_ptr _ _ _ _ W Hi).
  eapply run_to_step; [eapply remove_walk_hit; [by apply W|by apply wf_fuel|done]|].
  rewrite last_snoc. cbn [default from_option]. rewrite (proj2 (Z.eqb_neq a 0)) by done.
  eapply run_to_step; [by apply deref_Some|].
  eapply run_to_step; [by apply update_Some|]. set (g1 := set_nodes _ g).
  eapply run_to_step; [apply get_list_ptr; cbn; by eapply wf_slot_lt, zero_slot|].
  eapply run_to_step; [apply get_list_ptr; cbn; by eapply wf_slot_lt|].
  eapply (run_to_step _ _ _ tt (if (ptr g1 0 Ns =? ptr g1 i f) && (gr_next n =? 0)
                                then set_tail prev g1 else g1)); [by destruct (_ && _)|].
  set (b := _ && _). set (g2 := if b then _ else _). assert (nodes g2 = nodes g1) as E21 by (unfold g2; by destruct b).
  eapply run_to_step; [apply update_Some; [done|]; rewrite E21; cbn; by rewrite lookup_insert_ne|].
  apply run_to_ret. eapply removed_intro; [done|done|done| |apply lookup_insert_eq|done].
  by eapply unlink_later.
Qed.

(** The removal functions: the first descriptor that passes the test leaves the
    list, with its link cleared. *)
Lemma remove_hit g L test i f l1 a l2 :
  wf g L → (i < VAL_HOST_MAX_REALMS)%nat → hits (nodes g) test (L i f) l1 a l2 →
  run_to (remove_with test i f) g (removed g L i f l1 a l2).
Proof.
  intros W Hi Hh. destruct l1 as [|prev l _] using rev_ind.
  - by apply remove_hit_first.
  - by apply remove_hit_later.
Qed.

(** * Appending to a list of a Realm *)

Lemma last_from_spec g fuel p l t :
  lseg (nodes g) p (l ++ [t]) 0 → (length l < fuel)%nat → last_from fuel p g = Ok t g.
Proof.
  revert fuel p. induction l as [|a l IH]; intros [|fuel] p; simpl; try lia.
  - intros (-> & Ht & n & E & Hn) _. rewrite (bind_step _ _ _ _ _ (deref_Some _ _ _ Ht E)).
    by rewrite Hn.
  - intros (-> & Ha & n & E & Hl) Hf. rewrite (bind_step _ _ _ _ _ (deref_Some _ _ _ Ha E)).
    assert (gr_next n ≠ 0) as Hn by (destruct l; simpl in Hl; naive_solver).
    rewrite (proj2 (Z.eqb_neq _ _) Hn). apply IH; [done|lia].
Qed.

(** The new descriptor as the only one of the list. *)
Lemma append_empty g L i f p n :
  wf g L → (i < VAL_HOST_MAX_REALMS)%nat → ¬ (i = 0%nat ∧ f = Ns) → p ≠ 0 →
  nodes g !! p = Some n → gr_next n = 0 → changes g L i f [p] (with_list i f p g).
Proof.
  intros W Hi Hf Hp Ep Hnx. pose proof (wf_slot_lt _ _ _ W Hi) as Hi'. split.
  - apply kept_with_list.
  - intros j h Hne. rewrite ptr_with_list by done. by rewrite decide_False.
  - done.
  - rewrite ptr_with_list, decide_True by done. cbn. eauto.
  - done.
  - naive_solver.
Qed.

(** The new descriptor behind the last one [t]. *)
Lemma append_behind g L i f p n l t nt :
  wf g L → (i < VAL_HOST_MAX_REALMS)%nat → ¬ (i = 0%nat ∧ f = Ns) → p ≠ 0 →
  nodes g !! p = Some n → gr_next n = 0 → loose L p →
  L i f = l ++ [t] → nodes g !! t = Some nt →
  changes g L i f ((l ++ [t]) ++ [p]) (set_nodes (<[t := set_next p nt]> (nodes g)) g).
Proof.
  intros W Hi Hf Hp Ep Hnx Hlo EL Ent. assert (t ∈ L i f) as Hin by (rewrite EL; set_solver).
  assert (t ≠ p) as Htp by (intros ->; by apply (Hlo i f)). split.
  - by apply kept_relink.
  - done.
  - intros j h b. by apply write_frame.
  - cbn. apply (lseg_snoc _ _ _ _ _ _ n); try done.
    + rewrite <- EL. apply W.
    + rewrite <- EL. by apply (wf_lists _ _ W).
  - done.
  - naive_solver.
Qed.

Lemma append_to_spec g L f p n :
  wf g L → f ≠ Ns → p ≠ 0 → nodes g !! p = Some n → gr_next n = 0 → loose L p →
  p < heap_base (g_alloc g) →
  let i := current_realm g in
  run_to (append_to f p) g (λ _ g', wf g' (upd L i f (L i f ++ [p])) ∧ kept g g').
Proof.
  intros W Hf Hp Ep Hnx Hlo Hbelow i. pose proof (wf_realm _ _ W : (i < _)%nat) as Hi.
  unfold append_to. eapply run_to_step; [reflexivity|].
  eapply run_to_step; [by apply (wf_get_list _ _ _ _ W Hi)|].
  destruct (list_end (L i f)) as [EL|(l & t & EL)].
  - rewrite (f_equal lhd EL). cbn [lhd]. rewrite Z.eqb_refl.
    eapply run_to_eq; [by apply put_list_with, (wf_slot_lt _ _ _ W Hi)|].
    apply appended_wf; [done..|]. rewrite EL. eapply append_empty; try done. by intros [_ ?].
  - assert (t ∈ L i f) as Hin by (rewrite EL; set_solver).
    destruct (wf_node g L i f t W Hin) as [Ht [nt Ent]].
    assert (lhd (L i f) ≠ 0) as Hh by (by eapply wf_lhd).
    rewrite (proj2 (Z.eqb_neq _ _) Hh). eapply run_to_step; [reflexivity|].
    eapply run_to_step.
    { apply (last_from_spec g _ _ l t).
      - rewrite <- EL, <- (wf_ptr _ _ _ _ W Hi). by apply (wf_lists _ _ W).
      - pose proof (wf_fuel g L i f W) as Hf'. rewrite EL, length_app in Hf'. simpl in Hf'. lia. }
    eapply run_to_eq; [by apply update_Some|].
    apply appended_wf; [done..|]. rewrite EL. eapply append_behind; try done. by intros [_ ?].
Qed.

(** * Descriptors outside the lists *)

(** Writing a descriptor that is in no list. *)
Lemma wf_write_loose g L p n :
  wf g L → loose L p → wf (set_nodes (<[p := n]> (nodes g)) g) L.
Proof.
  intros W Hp. split; try apply W. intros i f Hi. cbn. apply lseg_insert_out; [apply Hp|].
  by apply (wf_lists _ _ W).
Qed.

(** Writing a field other than the link. *)
Lemma wf_write_same g L p n n' :
  wf g L → nodes g !! p = Some n → gr_next n' = gr_next n →
  wf (set_nodes (<[p := n']> (nodes g)) g) L.
Proof.
  intros W E En. split; try apply W. intros i f Hi. cbn. eapply lseg_insert_same; [done..|].
  by apply (wf_lists _ _ W).
Qed.

Lemma wf_set_current_realm g L i :
  wf g L → (i < VAL_HOST_MAX_REALMS)%nat → wf (set_current_realm i g) L.
Proof. intros W Hi. split; try apply W. done. Qed.

Lemma wf_set_slot_rd g L i t rd :
  wf g L → mem_track g !! i = Some t →
  wf (set_mem_track (<[i := mt_set_rd rd t]> (mem_track g)) g) L.
Proof.
  intros W Ht. split; try apply W.
  - cbn. rewrite length_insert. apply W.
  - intros j f Hj. cbn.
    assert (ptr (set_mem_track (<[i := mt_set_rd rd t]> (mem_track g)) g) j f = ptr g j f) as ->.
    { unfold ptr. cbn. destruct (decide (i = j)) as [->|].
      - rewrite list_lookup_insert_eq, Ht by (by eapply lookup_lt_Some). by destruct f.
      - by rewrite list_lookup_insert_ne. }
    by apply (wf_lists _ _ W).
Qed.

Lemma ext_wf g L L' : wf g L → (∀ i f, L i f = L' i f) → wf g L'.
Proof.
  intros W E. split; try apply W; intros *; rewrite <- ?E; apply W.
Qed.

(** ** Fresh descriptors *)

(** The heap has room for one more descriptor. *)
Definition heap_room (g : gstate) : Prop :=
  ADDR_ALIGN (heap_base (g_alloc g)) SIZEOF_GRANULE + SIZEOF_GRANULE ≤ heap_top (g_alloc g).

#[export] Instance heap_room_dec g : Decision (heap_room g).
Proof. unfold heap_room. apply _. Defined.

Lemma node_alloc_spec g L :
  wf g L →
  (heap_room g ∧ run_to node_alloc g (λ p g',
     p ≠ 0 ∧ loose L p ∧ wf g' L ∧ is_Some (nodes g' !! p) ∧
     p < heap_base (g_alloc g') ∧ same_data (nodes g) (nodes g') ∧
     current_realm g' = current_realm g ∧ mem_track g' = mem_track g)) ∨
  (¬ heap_room g ∧ node_alloc g = Ok 0 g).
Proof.
  intros W. destruct (mem_alloc_cases (g_alloc g) 6 SIZEOF_GRANULE) as (Hr & Hd & Hc);
    [apply W|lia|vm_compute; split; congruence|].
  change (2 ^ 6) with SIZEOF_GRANULE in *. set (p := ADDR_ALIGN _ _) in *.
  pose proof (wf_base_pos _ (wf_alloc _ _ W)) as Hpos.
  destruct Hc as [[Hroom E]|[Hno E]]; [left|right]; unfold heap_room; fold p.
  - split; [done|]. unfold run_to, node_alloc. rewrite E. rewrite (proj2 (Z.eqb_neq p 0)) by lia.
    assert (loose L p) as Hlo. { intros i f Hp. pose proof (wf_below _ _ W _ _ _ Hp). lia. }
    split; [lia|]. split; [done|]. split.
    + apply (wf_write_loose (set_alloc _ g)); [|done]. split; try apply W; cbn.
      * apply alloc_wf_bump; [apply W|]. unfold SIZEOF_GRANULE in *. lia.
      * intros i f a Ha. pose proof (wf_below _ _ W _ _ _ Ha). unfold SIZEOF_GRANULE. lia.
    + cbn. rewrite lookup_insert_eq. split; [done|]. split; [unfold SIZEOF_GRANULE; lia|].
      split; [|done]. intros a n Ea. destruct (decide (p = a)) as [<-|].
      * rewrite lookup_insert_eq, Ea. by eexists.
      * rewrite lookup_insert_ne by done. by eexists.
  - split; [lia|]. unfold node_alloc. rewrite E. cbn. by destruct g.
Qed.
