(* ===== verification/GranuleSpec.v ===== *)
(** What the granule tracker promises: the specification of the two functions
    the RMI wrappers call after a command has succeeded,
    [val_host_update_granule_state] and [val_host_update_destroy_granule_state],
    as operations on layouts. *)
From S2P Require Import Prelude Defs Alloc Granule GranuleInv.

(** * The slot of a Realm *)

(** The RDs of the slots. *)
Definition rds (g : gstate) : list Z := mt_rd <$> mem_track g.

(** The first slot from 1 on that holds [rd], and 0 when there is none. *)
Definition realm_of (l : list Z) (rd : Z) : nat :=
  match list_find (λ x, x = rd) (drop 1 l) with Some (i, _) => S i | None => 0%nat end.

Lemma curr_realm_from_spec g rd n i :
  (i + n = length (mem_track g))%nat →
  curr_realm_from n i rd g =
  Ok (match list_find (λ x, x = rd) (drop i (rds g)) with
      | Some (k, _) => (i + k)%nat | None => 0%nat end) g.
Proof.
  revert i. induction n as [|n IH]; intros i Hi; cbn.
  - rewrite drop_ge; [done|]. unfold rds. rewrite length_fmap. lia.
  - destruct (slot_Some g i) as (t & Ht & E); [lia|]. rewrite (bind_step _ _ _ _ _ E).
    assert (rds g !! i = Some (mt_rd t)) as Hr by (unfold rds; by rewrite list_lookup_fmap, Ht).
    rewrite (drop_S _ _ _ Hr). cbn. destruct (Z.eqb_spec (mt_rd t) rd) as [Heq|Hne].
    + rewrite decide_True by done. cbn. unfold ret. f_equal. lia.
    + rewrite decide_False by done. rewrite IH by lia.
      destruct (list_find _ (drop (S i) (rds g))) as [[k x]|]; cbn; f_equal; lia.
Qed.

Lemma realm_of_lt l rd : (0 < length l)%nat → (realm_of l rd < length l)%nat.
Proof.
  intros Hl. unfold realm_of. destruct (list_find _ _) as [[k x]|] eqn:E; [|done].
  apply list_find_Some in E as (E & _). apply lookup_lt_Some in E. rewrite length_drop in E. lia.
Qed.

Lemma length_rds g L : wf g L → length (rds g) = VAL_HOST_MAX_REALMS.
Proof. intros W. unfold rds. by rewrite length_fmap, (wf_slots _ _ W). Qed.

Lemma wf_realm_of g L rd : wf g L → (realm_of (rds g) rd < VAL_HOST_MAX_REALMS)%nat.
Proof.
  intros W. rewrite <- (length_rds g L W). apply realm_of_lt. rewrite (length_rds g L W).
  apply zero_slot.
Qed.

Lemma get_curr_realm_spec g L rd :
  wf g L → val_host_get_curr_realm rd g = Ok (realm_of (rds g) rd) g.
Proof.
  intros W. unfold val_host_get_curr_realm. rewrite curr_realm_from_spec.
  - unfold realm_of. by destruct (list_find _ _) as [[]|].
  - rewrite (wf_slots _ _ W). done.
Qed.

Lemma kept_rds_eq g g' : kept g g' → rds g' = rds g.
Proof. apply kept_rds. Qed.

(** * Moving a descriptor from the Non-secure list to a list of the Realm *)

(** The list a granule of a given state goes to, and what is written to its
    descriptor. *)
Definition target (state : Z) : option gfield :=
  if state =? GRANULE_REC then Some Rec
  else if state =? GRANULE_RTT then Some Rtt
  else if state =? GRANULE_RTT_AUX then Some RttAux
  else if state =? GRANULE_DATA then Some Data
  else if state =? GRANULE_UNPROTECTED then Some ValidNs
  else None.

Definition assigned (rd state ipa level idx : Z) (n : val_host_granule_ts) : val_host_granule_ts :=
  if state =? GRANULE_RTT_AUX then assign_aux_granule rd state ipa level idx n
  else if state =? GRANULE_UNPROTECTED then assign_unprotected rd ipa level n
  else assign_granule rd state ipa level n.

Definition has_PA (PA : Z) (n : val_host_granule_ts) : bool := gr_PA n =? PA.

(** [g'] is [g] with descriptor [p] changed by [F], up to links. *)
Definition data_change (g g' : gstate) (p : Z) (F : val_host_granule_ts → val_host_granule_ts) :
    Prop :=
  (∀ n, nodes g !! p = Some n → ∃ n', nodes g' !! p = Some n' ∧ same_gran (F n) n') ∧
  (∀ a n, a ≠ p → nodes g !! a = Some n → ∃ n', nodes g' !! a = Some n' ∧ same_gran n n').

(** [F] gives the same contents to descriptors that differ in the link only. *)
Definition link_blind (F : val_host_granule_ts → val_host_granule_ts) : Prop :=
  ∀ n n', same_gran n n' → same_gran (F n) (F n').

Lemma data_change_steps g g1 g2 p n1 (F : val_host_granule_ts → val_host_granule_ts) :
  link_blind F → same_data (nodes g) (nodes g1) → nodes g1 !! p = Some n1 →
  same_data (<[p := F n1]> (nodes g1)) (nodes g2) → data_change g g2 p F.
Proof.
  intros HF H1 E1 H2. split.
  - intros n E. destruct (H1 p n E) as (n1' & E1' & S1). simplify_eq.
    destruct (H2 p (F n1)) as (n2 & E2 & S2); [by rewrite lookup_insert_eq|].
    exists n2. split; [done|]. unfold same_gran in *. etransitivity; [|done]. by apply HF.
  - intros a n Ha E. destruct (H1 a n E) as (na & Ea & Sa).
    destruct (H2 a na) as (n2 & E2 & S2); [by rewrite lookup_insert_ne|].
    exists n2. split; [done|]. unfold same_gran in *. congruence.
Qed.

Lemma assigned_blind rd state ipa level idx : link_blind (assigned rd state ipa level idx).
Proof.
  intros [] []. unfold same_gran, assigned. cbn. intros E. injection E as -> -> -> -> -> -> -> ->.
  repeat case_match; done.
Qed.

Lemma assigned_next rd state ipa level idx n : gr_next (assigned rd state ipa level idx n) = 0.
Proof. unfold assigned. repeat case_match; done. Qed.

Lemma move_spec g L PA f l1 p l2 (F : val_host_granule_ts → val_host_granule_ts) :
  wf g L → hits (nodes g) (has_PA PA) (L 0%nat Ns) l1 p l2 → f ≠ Ns →
  link_blind F → (∀ n, gr_next (F n) = 0) →
  let i := current_realm g in
  run_to (val_host_remove_granule 0 Ns PA ;; update p F ;; append_to f p) g (λ _ g',
    wf g' (upd (upd L 0 Ns (l1 ++ l2)) i f (L i f ++ [p])) ∧
    g_alloc g' = g_alloc g ∧ current_realm g' = i ∧ rds g' = rds g ∧ data_change g g' p F).
Proof.
  intros W Hh Hf HF HF0 i.
  destruct (wf_node g L 0 Ns p W) as [Hp _]; [rewrite (proj1 Hh); set_solver|].
  assert (p < heap_base (g_alloc g)) as Hb by (apply (wf_below _ _ W 0%nat Ns); rewrite (proj1 Hh); set_solver).
  eapply run_to_bind; [by apply (remove_hit g L _ 0 Ns l1 p l2 W zero_slot Hh)|].
  intros r g1 (-> & W1 & K1 & Hlo & n1 & E1 & _).
  eapply run_to_step; [by apply update_Some|]. set (g2 := set_nodes _ g1).
  assert (wf g2 (upd L 0 Ns (l1 ++ l2))) as W2 by (by apply wf_write_loose).
  eapply run_to_mono; [eapply (append_to_spec g2 _ f p (F n1) W2); try done|].
  - apply lookup_insert_eq.
  - cbn. by rewrite (kept_alloc _ _ K1).
  - intros _ g3 [W3 K3]. cbn [g2 set_nodes current_realm] in W3.
    rewrite (kept_realm _ _ K1), (upd_ne _ _ _ _ i f) in W3 by naive_solver.
    split; [done|]. split; [by rewrite (kept_alloc _ _ K3); cbn; rewrite (kept_alloc _ _ K1)|].
    split; [by rewrite (kept_realm _ _ K3); cbn; rewrite (kept_realm _ _ K1)|].
    split; [by rewrite (kept_rds_eq _ _ K3), <- (kept_rds_eq _ _ K1)|].
    eapply (data_change_steps g g1 g3 p n1); [done|apply K1|done|apply K3].
Qed.

Lemma update_granule_state_move g L rd state PA ipa level idx f l1 p l2 :
  wf g L → hits (nodes g) (has_PA PA) (L 0%nat Ns) l1 p l2 → target state = Some f →
  let i := realm_of (rds g) rd in
  run_to (val_host_update_granule_state rd state PA ipa level idx) g (λ _ g',
    wf g' (upd (upd L 0 Ns (l1 ++ l2)) i f (L i f ++ [p])) ∧
    g_alloc g' = g_alloc g ∧ current_realm g' = i ∧ rds g' = rds g ∧
    data_change g g' p (assigned rd state ipa level idx)).
Proof.
  intros W Hh Ht i. unfold val_host_update_granule_state.
  eapply run_to_step; [by eapply get_curr_realm_spec|].
  eapply run_to_step; [reflexivity|]. set (g0 := set_current_realm i g).
  assert (wf g0 L) as W0 by (apply wf_set_current_realm; [done|by eapply wf_realm_of]).
  eapply run_to_step; [by eapply (find_granule_hit g0)|].
  destruct (wf_node g L 0 Ns p W) as [Hp _]; [rewrite (proj1 Hh); set_solver|].
  rewrite (proj2 (Z.eqb_neq p 0)) by done.
  pose proof (λ h Hh', move_spec g0 L PA h l1 p l2 _ W0 Hh Hh'
    (assigned_blind rd state ipa level idx) (assigned_next rd state ipa level idx)) as Hm.
  unfold target, assigned in *.
  destruct (Z.eqb_spec state GRANULE_RD) as [->|_]; [done|].
  destruct (Z.eqb_spec state GRANULE_REC) as [->|_]; [simplify_eq; by apply (Hm Rec)|].
  destruct (Z.eqb_spec state GRANULE_RTT) as [->|_]; [simplify_eq; by apply (Hm Rtt)|].
  destruct (Z.eqb_spec state GRANULE_RTT_AUX) as [->|_]; [simplify_eq; by apply (Hm RttAux)|].
  destruct (Z.eqb_spec state GRANULE_DATA) as [->|_]; [simplify_eq; by apply (Hm Data)|].
  destruct (Z.eqb_spec state GRANULE_UNPROTECTED) as [->|_]; [simplify_eq; by apply (Hm ValidNs)|].
  done.
Qed.

(** * The RD of a new Realm *)

(** The slot [claim_slot] takes, scanning from slot [i]. *)
Fixpoint claim_from (i : nat) (l : list Z) (PA : Z) : option nat :=
  match l with
  | [] => None
  | x :: l =>
      if x =? PA then None else if x =? NO_REALM then Some i else claim_from (S i) l PA
  end.

Definition claimed (PA : Z) (g : gstate) : gstate :=
  match claim_from 1 (drop 1 (rds g)) PA with
  | None => g
  | Some j =>
      set_mem_track (alter (mt_set_rd PA) j (mem_track g)) (set_current_realm j g)
  end.

Lemma claim_from_range i l PA j : claim_from i l PA = Some j → (i ≤ j < i + length l)%nat.
Proof.
  revert i. induction l as [|x l IH]; intros i; simpl; [done|].
  destruct (x =? PA); [done|]. destruct (x =? NO_REALM); [naive_solver lia|].
  intros ?%IH. lia.
Qed.

Lemma claim_from_free i l PA j :
  claim_from i l PA = Some j →
  l !! (j - i)%nat = Some NO_REALM ∧ ∀ k, (k < j - i)%nat → l !! k ≠ Some PA.
Proof.
  revert i. induction l as [|x l IH]; intros i; simpl; [done|].
  destruct (Z.eqb_spec x PA) as [|Hx]; [done|]. destruct (Z.eqb_spec x NO_REALM) as [->|].
  - intros [= ->]. rewrite Nat.sub_diag. split; [done|]. lia.
  - intros H. pose proof (claim_from_range _ _ _ _ H) as Hr. destruct (IH _ H) as [H1 H2].
    replace (j - i)%nat with (S (j - S i)) by lia. split; [done|].
    intros [|k] Hk; simpl; [congruence|]. apply H2. lia.
Qed.

Lemma set_slot_alter g i f :
  (i < length (mem_track g))%nat →
  set_slot i f g = Ok tt (set_mem_track (alter f i (mem_track g)) g).
Proof.
  intros Hi. destruct (slot_Some g i Hi) as (t & Ht & E). unfold set_slot.
  rewrite (bind_step _ _ _ _ _ E). unfold modify. do 2 f_equal.
  apply list_eq. intros j. rewrite list_lookup_alter. destruct (decide (i = j)) as [->|].
  - by rewrite list_lookup_insert_eq, Ht.
  - by rewrite list_lookup_insert_ne by done.
Qed.

Lemma claim_slot_spec g PA n i :
  (i + n = length (mem_track g))%nat →
  claim_slot n i PA g = Ok tt
    match claim_from i (drop i (rds g)) PA with
    | None => g
    | Some j => set_mem_track (alter (mt_set_rd PA) j (mem_track g)) (set_current_realm j g)
    end.
Proof.
  revert i. induction n as [|n IH]; intros i Hi; cbn.
  - rewrite drop_ge; [done|]. unfold rds. rewrite length_fmap. lia.
  - destruct (slot_Some g i) as (t & Ht & E); [lia|]. rewrite (bind_step _ _ _ _ _ E).
    assert (rds g !! i = Some (mt_rd t)) as Hr by (unfold rds; by rewrite list_lookup_fmap, Ht).
    rewrite (drop_S _ _ _ Hr). cbn. destruct (mt_rd t =? PA); [done|].
    destruct (mt_rd t =? NO_REALM); [|apply IH; lia].
    rewrite (bind_step _ _ _ tt (set_current_realm i g)) by done. rewrite set_slot_alter; [done|].
    cbn. lia.
Qed.

Lemma ptr_alter_rd g j rd i f :
  ptr (set_mem_track (alter (mt_set_rd rd) j (mem_track g)) g) i f = ptr g i f.
Proof.
  unfold ptr. cbn. rewrite list_lookup_alter. destruct (decide (j = i)) as [->|]; [|done].
  destruct (mem_track g !! i) as [t|]; [|done]. by destruct f.
Qed.

Lemma wf_alter_rd g L j rd :
  wf g L → wf (set_mem_track (alter (mt_set_rd rd) j (mem_track g)) g) L.
Proof.
  intros W. split; try apply W.
  - cbn. rewrite length_alter. apply W.
  - intros i f Hi. rewrite ptr_alter_rd. by apply (wf_lists _ _ W).
Qed.

Lemma wf_claimed g L PA : wf g L → wf (claimed PA g) L.
Proof.
  intros W. unfold claimed. destruct (claim_from _ _ _) as [j|] eqn:E; [|done].
  apply claim_from_range in E. rewrite length_drop, (length_rds _ _ W) in E.
  apply (wf_alter_rd (set_current_realm j g)). apply wf_set_current_realm; [done|].
  pose proof zero_slot. lia.
Qed.

Lemma put_list_one g L j f p n :
  wf g L → (j < VAL_HOST_MAX_REALMS)%nat → f ≠ Ns → p ≠ 0 → nodes g !! p = Some n →
  gr_next n = 0 → loose L p → p < heap_base (g_alloc g) →
  run_to (put_list j f p) g (λ _ g', wf g' (upd L j f [p]) ∧ kept g g').
Proof.
  intros W Hj Hf Hp Ep Hn Hlo Hb. pose proof (wf_slot_lt _ _ _ W Hj).
  eapply run_to_eq; [by apply put_list_with|]. split; [|apply kept_with_list].
  apply (changes_wf g); [done|done| |apply NoDup_singleton|].
  - split; [apply kept_with_list| |done| |done|naive_solver].
    + intros i h Hne. rewrite ptr_with_list by done. by rewrite decide_False.
    + rewrite ptr_with_list, decide_True by done. cbn. eauto.
  - intros a ->%list_elem_of_singleton. auto.
Qed.

(** A granule that becomes an RD: it leaves the Non-secure list and is the one
    descriptor of the list [rd] of the slot claimed for the Realm. *)
Lemma update_granule_state_rd g L rd PA ipa level idx l1 p l2 :
  wf g L → hits (nodes g) (has_PA PA) (L 0%nat Ns) l1 p l2 →
  let j := default (realm_of (rds g) rd) (claim_from 1 (drop 1 (rds g)) PA) in
  run_to (val_host_update_granule_state rd GRANULE_RD PA ipa level idx) g (λ _ g',
    wf g' (upd (upd L 0 Ns (l1 ++ l2)) j Rd [p]) ∧
    g_alloc g' = g_alloc g ∧ current_realm g' = j ∧
    rds g' = match claim_from 1 (drop 1 (rds g)) PA with
             | None => rds g | Some j => <[j := PA]> (rds g) end ∧
    data_change g g' p (assign_granule rd GRANULE_RD ipa level)).
Proof.
  intros W Hh j. unfold val_host_update_granule_state.
  eapply run_to_step; [by eapply get_curr_realm_spec|].
  eapply run_to_step; [reflexivity|]. set (g0 := set_current_realm _ g).
  assert (wf g0 L) as W0 by (apply wf_set_current_realm; [done|by eapply wf_realm_of]).
  eapply run_to_step; [by eapply (find_granule_hit g0)|].
  destruct (wf_node g L 0 Ns p W) as [Hp _]; [rewrite (proj1 Hh); set_solver|].
  assert (p < heap_base (g_alloc g)) as Hb by (apply (wf_below _ _ W 0%nat Ns); rewrite (proj1 Hh); set_solver).
  rewrite (proj2 (Z.eqb_neq p 0)) by done. rewrite Z.eqb_refl.
  eapply run_to_bind; [by apply (remove_hit g0 L _ 0 Ns l1 p l2 W0 zero_slot Hh)|].
  intros r g1 (-> & W1 & K1 & Hlo & n1 & E1 & _).
  eapply run_to_step; [by apply update_Some|]. set (F := assign_granule _ _ _ _).
  set (g2 := set_nodes _ g1).
  assert (wf g2 (upd L 0 Ns (l1 ++ l2))) as W2 by (by apply wf_write_loose).
  assert (rds g2 = rds g) as R2 by (exact (kept_rds_eq _ _ K1)).
  eapply run_to_step; [apply claim_slot_spec; by rewrite (wf_slots _ _ W2)|].
  fold (claimed PA g2). pose proof (wf_claimed _ _ PA W2) as W3. set (g3 := claimed PA g2) in *.
  assert (nodes g3 = <[p := F n1]> (nodes g1) ∧ g_alloc g3 = g_alloc g ∧ current_realm g3 = j ∧
    rds g3 = match claim_from 1 (drop 1 (rds g)) PA with
             | None => rds g | Some j => <[j := PA]> (rds g) end) as (N3 & A3 & C3 & R3).
  { unfold g3, claimed, j. rewrite R2. destruct (claim_from _ _ _) as [k|]; cbn;
      rewrite (kept_alloc _ _ K1), ?(kept_realm _ _ K1); (split; [done|]); (split; [done|]);
      (split; [done|]); [|done].
    rewrite <- R2. unfold rds. cbn. apply list_eq. intros m.
    rewrite list_lookup_fmap, list_lookup_alter. destruct (decide (k = m)) as [->|Hne].
    - destruct (mem_track g1 !! m) as [t|] eqn:Et; cbn.
      + rewrite list_lookup_insert_eq; [done|]. rewrite length_fmap. by eapply lookup_lt_Some.
      + symmetry. apply lookup_ge_None_2. rewrite length_insert, length_fmap.
        by apply lookup_ge_None_1.
    - by rewrite list_lookup_insert_ne, list_lookup_fmap by done. }
  eapply run_to_step; [reflexivity|]. rewrite C3.
  assert (j < VAL_HOST_MAX_REALMS)%nat as Hj by (rewrite <- C3; apply W3).
  eapply run_to_mono; [eapply (put_list_one g3 _ j Rd p (F n1) W3 Hj); try done|].
  - rewrite N3. apply lookup_insert_eq.
  - by rewrite A3.
  - intros _ g4 [W4 K4]. split; [done|]. split; [by rewrite (kept_alloc _ _ K4)|].
    split; [by rewrite (kept_realm _ _ K4)|]. split; [by rewrite (kept_rds_eq _ _ K4)|].
    eapply (data_change_steps g g1 g4 p n1); [|apply K1|done|rewrite <- N3; apply K4].
    intros [] []. unfold same_gran, F. cbn. intros E. by injection E as -> -> -> -> -> -> -> ->.
Qed.

(** * A granule the tracker does not know *)

Lemma fresh_next rd state PA ipa level idx n : gr_next (fresh_granule rd state PA ipa level idx n) = 0.
Proof. done. Qed.

(** The descriptor is made; it joins a list only when the granule is unprotected. *)
Lemma update_granule_state_fresh g L rd state PA ipa level idx :
  wf g L → misses (nodes g) (has_PA PA) (L 0%nat Ns) → heap_room g →
  let i := realm_of (rds g) rd in
  run_to (val_host_update_granule_state rd state PA ipa level idx) g (λ _ g', ∃ p,
    loose L p ∧
    wf g' (if state =? GRANULE_UNPROTECTED then upd L i ValidNs (L i ValidNs ++ [p]) else L) ∧
    current_realm g' = i ∧ rds g' = rds g).
Proof.
  intros W Hm Hr i. unfold val_host_update_granule_state.
  eapply run_to_step; [by eapply get_curr_realm_spec|].
  eapply run_to_step; [reflexivity|]. set (g0 := set_current_realm _ g).
  assert (wf g0 L) as W0 by (apply wf_set_current_realm; [done|by eapply wf_realm_of]).
  eapply run_to_step; [by eapply (find_granule_miss g0)|]. rewrite Z.eqb_refl.
  destruct (node_alloc_spec g0 L W0) as [[_ Ha]|[Ha _]]; [|by destruct Ha].
  eapply run_to_bind; [apply Ha|]. intros p g1 (Hp & Hlo & W1 & [n1 E1] & Hb & _ & C1 & M1).
  eapply run_to_step; [by apply update_Some|]. set (g2 := set_nodes _ g1).
  assert (wf g2 L) as W2 by (by apply wf_write_loose).
  assert (rds g2 = rds g) as R2 by (unfold rds; cbn; by rewrite M1).
  destruct (state =? GRANULE_UNPROTECTED).
  - eapply run_to_mono; [eapply (append_to_spec g2 L ValidNs p _ W2); try done;
      [apply lookup_insert_eq|done]|].
    intros _ g3 [W3 K3]. cbn [g2 set_nodes current_realm] in W3. rewrite C1 in W3.
    exists p. split; [done|]. split; [done|].
    split; [by rewrite (kept_realm _ _ K3)|]. by rewrite (kept_rds_eq _ _ K3).
  - apply run_to_ret. by exists p.
Qed.

Lemma update_granule_state_no_room g L rd state PA ipa level idx :
  wf g L → misses (nodes g) (has_PA PA) (L 0%nat Ns) → ¬ heap_room g →
  val_host_update_granule_state rd state PA ipa level idx g = Fault NullDeref.
Proof.
  intros W Hm Hr. unfold val_host_update_granule_state.
  rewrite (bind_step _ _ _ _ _ (get_curr_realm_spec g L rd W)).
  rewrite (bind_step _ _ _ tt (set_current_realm (realm_of (rds g) rd) g)) by done.
  set (g0 := set_current_realm _ g).
  assert (wf g0 L) as W0 by (apply wf_set_current_realm; [done|by eapply wf_realm_of]).
  rewrite (bind_step _ _ _ _ _ (find_granule_miss g0 L PA W0 Hm)). rewrite Z.eqb_refl.
  destruct (node_alloc_spec g0 L W0) as [[Ha _]|[_ Ha]]; [by destruct Hr|].
  by rewrite (bind_step _ _ _ _ _ Ha).
Qed.

(** * Giving a descriptor back to the Non-secure list *)

(** The list a destroy command searches, with its test and the state written. *)
Definition source (gran_list_state : Z) : option gfield :=
  if gran_list_state =? GRANULE_RTT then Some Rtt
  else if gran_list_state =? GRANULE_RTT_AUX then Some RttAux
  else if gran_list_state =? GRANULE_DATA then Some Data
  else if gran_list_state =? GRANULE_RD then Some Rd
  else if gran_list_state =? GRANULE_UNPROTECTED then Some ValidNs
  else None.

Definition source_test (gran_list_state PA ipa level idx : Z) (n : val_host_granule_ts) : bool :=
  if gran_list_state =? GRANULE_RTT then (gr_level n =? level) && (gr_ipa n =? ipa)
  else if gran_list_state =? GRANULE_RTT_AUX then
    (gr_level n =? level) && (gr_ipa n =? ipa) && (gr_rtt_tree_idx n =? idx)
  else if gran_list_state =? GRANULE_DATA then gr_ipa n =? ipa
  else gr_PA n =? PA.

Definition returned_state (gran_list_state state : Z) : Z :=
  if gran_list_state =? GRANULE_UNPROTECTED then GRANULE_UNDELEGATED else state.

Lemma set_state_blind s : link_blind (set_state s).
Proof.
  intros [] []. unfold same_gran. cbn. intros E. by injection E as -> -> -> -> -> -> -> ->.
Qed.

(** The common tail: write the state and append to the Non-secure list. *)
Lemma give_back_spec g L i f l1 a l2 g1 r st state PA :
  wf g L → a ∈ L i f → f ≠ Ns → removed g L i f l1 a l2 r g1 →
  run_to (update r (set_state st) ;; val_host_add_granule state PA r) g1 (λ _ g',
    wf g' (upd (upd L i f (l1 ++ l2)) 0 Ns (L 0%nat Ns ++ [a])) ∧
    g_alloc g' = g_alloc g ∧ current_realm g' = current_realm g ∧ rds g' = rds g ∧
    data_change g g' a (set_state st)).
Proof.
  intros W Ha Hf (-> & W1 & K1 & Hlo & n1 & E1 & Hn).
  destruct (wf_node g L i f a W Ha) as [Ha0 _].
  pose proof (wf_below _ _ W _ _ _ Ha) as Hb.
  eapply run_to_step; [by apply update_Some|]. set (g2 := set_nodes _ g1).
  eapply run_to_mono.
  { eapply (add_granule_spec g2 (upd L i f (l1 ++ l2)) state PA a (set_state st n1)); try done.
    - by apply wf_write_loose.
    - apply lookup_insert_eq.
    - cbn. by rewrite (kept_alloc _ _ K1). }
  intros _ g3 [W3 K3]. rewrite (upd_ne _ i f _ 0 Ns) in W3 by naive_solver. split; [done|].
  split; [by rewrite (kept_alloc _ _ K3); cbn; rewrite (kept_alloc _ _ K1)|].
  split; [by rewrite (kept_realm _ _ K3); cbn; rewrite (kept_realm _ _ K1)|].
  split; [by rewrite (kept_rds_eq _ _ K3); exact (kept_rds_eq _ _ K1)|].
  eapply (data_change_steps g g1 g3 a n1); [apply set_state_blind|apply K1|done|apply K3].
Qed.

(** [give_back] reads the PA that [val_host_add_granule] ignores. *)
Lemma give_back_eq st r g n : nodes g !! r = Some n → r ≠ 0 →
  give_back st r g = (update r (set_state st) ;; val_host_add_granule st (gr_PA n) r) g.
Proof.
  intros E Hr. unfold give_back. rewrite !(bind_step _ _ _ _ _ (update_Some g r n _ Hr E)).
  rewrite (bind_step _ _ _ (set_state st n) (set_nodes (<[r:=set_state st n]> (nodes g)) g)).
  - done.
  - apply deref_Some; [done|]. apply lookup_insert_eq.
Qed.

(** The slot whose RD the destruction of an RD frees. *)
Definition freed_rds (gl : Z) (i : nat) (l : list Z) : list Z :=
  if gl =? GRANULE_RD then <[i := NO_REALM]> l else l.

Lemma rds_alter_rd g i rd :
  rds (set_mem_track (alter (mt_set_rd rd) i (mem_track g)) g) = <[i := rd]> (rds g).
Proof.
  unfold rds. cbn. apply list_eq. intros m.
  rewrite list_lookup_fmap, list_lookup_alter. destruct (decide (i = m)) as [->|Hne].
  - destruct (mem_track g !! m) as [t|] eqn:Et; cbn.
    + rewrite list_lookup_insert_eq; [done|]. rewrite length_fmap. by eapply lookup_lt_Some.
    + symmetry. apply lookup_ge_None_2. rewrite length_insert, length_fmap. by apply lookup_ge_None_1.
  - by rewrite list_lookup_insert_ne, list_lookup_fmap by done.
Qed.

(** What a destroy command leaves behind. *)
Definition given_back (g : gstate) (L : layout) (i : nat) (f : gfield) (l1 : list Z) (a : Z)
    (l2 : list Z) (gl state : Z) (g' : gstate) : Prop :=
  wf g' (upd (upd L i f (l1 ++ l2)) 0 Ns (L 0%nat Ns ++ [a])) ∧
  g_alloc g' = g_alloc g ∧ current_realm g' = i ∧ rds g' = freed_rds gl i (rds g) ∧
  data_change g g' a (set_state (returned_state gl state)).

Lemma update_destroy_hit g L rd PA ipa level state gl idx f l1 a l2 :
  wf g L → state ≠ GRANULE_UNDELEGATED → source gl = Some f →
  let i := realm_of (rds g) rd in
  hits (nodes g) (source_test gl PA ipa level idx) (L i f) l1 a l2 →
  run_to (val_host_update_destroy_granule_state rd PA ipa level state gl idx) g
    (λ _ g', given_back g L i f l1 a l2 gl state g').
Proof.
  intros W Hs Hf i Hh. unfold val_host_update_destroy_granule_state.
  rewrite (proj2 (Z.eqb_neq _ _) Hs).
  pose proof (wf_realm_of _ _ rd W : (i < _)%nat) as Hi.
  assert (a ∈ L i f) as Ha by (rewrite (proj1 Hh); set_solver).
  assert (gl ≠ GRANULE_REC) as Hrec by (intros ->; done).
  rewrite (proj2 (Z.eqb_neq _ _) Hrec).
  eapply (run_to_step _ _ _ tt (set_current_realm i g)).
  { by rewrite (bind_step _ _ _ _ _ (get_curr_realm_spec g L rd W)). }
  eapply run_to_step; [reflexivity|]. set (g0 := set_current_realm i g). cbn [g0 current_realm set_current_realm].
  assert (wf g0 L) as W0 by (by apply wf_set_current_realm).
  assert (f ≠ Ns) as Hns by (unfold source in Hf; repeat case_match; by simplify_eq).
  pose proof (remove_hit g0 L _ i f l1 a l2 W0 Hi Hh) as Hr.
  assert (∀ g1 r, removed g0 L i f l1 a l2 r g1 → gl ≠ GRANULE_RD → gl ≠ GRANULE_UNPROTECTED →
    run_to (give_back state r) g1 (λ _ g', given_back g L i f l1 a l2 gl state g')) as Hgive.
  { intros g1 r R H1 H2. pose proof R as (-> & _ & _ & _ & n & En & _).
    unfold run_to. rewrite (give_back_eq state a g1 n) by (done || by eapply wf_node).
    pose proof (give_back_spec g0 L i f l1 a l2 g1 a state state (gr_PA n) W0 Ha Hns R) as Hg.
    unfold given_back, freed_rds, returned_state.
    rewrite (proj2 (Z.eqb_neq _ _) H1), (proj2 (Z.eqb_neq _ _) H2). exact Hg. }
  unfold source, source_test in *.
  destruct (Z.eqb_spec gl GRANULE_RTT) as [->|_].
  { simplify_eq. eapply run_to_bind; [exact Hr|]. intros r g1 R. by apply Hgive. }
  destruct (Z.eqb_spec gl GRANULE_RTT_AUX) as [->|_].
  { simplify_eq. eapply run_to_bind; [exact Hr|]. intros r g1 R. by apply Hgive. }
  destruct (Z.eqb_spec gl GRANULE_DATA) as [->|_].
  { simplify_eq. eapply run_to_bind; [exact Hr|]. intros r g1 R. by apply Hgive. }
  destruct (Z.eqb_spec gl GRANULE_RD) as [->|_].
  { simplify_eq. eapply run_to_bind; [exact Hr|]. intros r g1 R.
    pose proof (give_back_spec g0 L i Rd l1 a l2 g1 r state state PA W0 Ha Hns R) as Hg.
    apply run_to_Ok in Hg as ([] & g2 & E2 & W2 & A2 & C2 & R2 & D2).
    apply bind_Ok in E2 as ([] & g1' & E2 & E3).
    eapply run_to_step; [exact E2|]. eapply run_to_step; [exact E3|].
    eapply run_to_eq; [apply set_slot_alter; rewrite (wf_slots _ _ W2); done|].
    unfold given_back, freed_rds, returned_state. rewrite Z.eqb_refl, rds_alter_rd, R2.
    split; [by apply wf_alter_rd|]. split; [done|]. split; [done|]. split; [done|]. exact D2. }
  destruct (Z.eqb_spec gl GRANULE_UNPROTECTED) as [->|_]; [|done].
  simplify_eq. eapply run_to_bind; [exact Hr|]. intros r g1 R.
  exact (give_back_spec g0 L i ValidNs l1 a l2 g1 r GRANULE_UNDELEGATED state PA W0 Ha Hns R).
Qed.

(** A destroy command for a granule that is not in the list follows NULL. *)
Lemma update_destroy_miss g L rd PA ipa level state gl idx f :
  wf g L → state ≠ GRANULE_UNDELEGATED → source gl = Some f →
  misses (nodes g) (source_test gl PA ipa level idx) (L (realm_of (rds g) rd) f) →
  val_host_update_destroy_granule_state rd PA ipa level state gl idx g = Fault NullDeref.
Proof.
  intros W Hs Hf Hm. unfold val_host_update_destroy_granule_state.
  rewrite (proj2 (Z.eqb_neq _ _) Hs). set (i := realm_of (rds g) rd) in *.
  pose proof (wf_realm_of _ _ rd W : (i < _)%nat) as Hi.
  assert (gl ≠ GRANULE_REC) as Hrec by (intros ->; done).
  rewrite (proj2 (Z.eqb_neq _ _) Hrec). set (g0 := set_current_realm i g).
  rewrite (bind_step _ _ _ tt g0).
  2: { by rewrite (bind_step _ _ _ _ _ (get_curr_realm_spec g L rd W)). }
  rewrite (bind_step _ _ _ i g0) by done.
  assert (wf g0 L) as W0 by (by apply wf_set_current_realm).
  pose proof (remove_miss g0 L _ i f W0 Hi Hm) as Hr.
  unfold source, source_test in *.
  destruct (Z.eqb_spec gl GRANULE_RTT) as [->|_]; [simplify_eq; by rewrite (bind_step _ _ _ _ _ Hr)|].
  destruct (Z.eqb_spec gl GRANULE_RTT_AUX) as [->|_]; [simplify_eq; by rewrite (bind_step _ _ _ _ _ Hr)|].
  destruct (Z.eqb_spec gl GRANULE_DATA) as [->|_]; [simplify_eq; by rewrite (bind_step _ _ _ _ _ Hr)|].
  destruct (Z.eqb_spec gl GRANULE_RD) as [->|_]; [simplify_eq; by rewrite (bind_step _ _ _ _ _ Hr)|].
  destruct (Z.eqb_spec gl GRANULE_UNPROTECTED) as [->|_]; [|done].
  simplify_eq. by rewrite (bind_step _ _ _ _ _ Hr).
Qed.

(** A REC is searched in all Realms. *)
Lemma destroy_rec_from_spec g L PA state n i :
  wf g L → (i + n = VAL_HOST_MAX_REALMS)%nat →
  run_to (destroy_rec_from n i PA state) g (λ _ g',
    ((∀ j, (i ≤ j)%nat → misses (nodes g) (has_PA PA) (L j Rec)) ∧ g' = g) ∨
    ∃ j l1 a l2, (i ≤ j < VAL_HOST_MAX_REALMS)%nat ∧
      (∀ k, (i ≤ k < j)%nat → misses (nodes g) (has_PA PA) (L k Rec)) ∧
      hits (nodes g) (has_PA PA) (L j Rec) l1 a l2 ∧
      wf g' (upd (upd L j Rec (l1 ++ l2)) 0 Ns (L 0%nat Ns ++ [a])) ∧
      rds g' = rds g ∧ current_realm g' = current_realm g ∧ data_change g g' a (set_state state)).
Proof.
  intros W. revert i. induction n as [|n IH]; intros i Hi; cbn.
  - apply run_to_ret. left. split; [|done]. intros j Hj a m Ha.
    rewrite (wf_range _ _ W) in Ha by lia. by apply not_elem_of_nil in Ha.
  - assert (i < VAL_HOST_MAX_REALMS)%nat as Hlt by lia.
    destruct (search_cases _ (has_PA PA) _ _ (wf_lists _ _ W i Rec Hlt)) as [Hm|(l1 & a & l2 & Hh)].
    + eapply run_to_step; [by apply (remove_miss g L)|]. rewrite Z.eqb_refl.
      eapply run_to_mono; [apply IH; lia|].
      intros _ g' [[Hall ->]|(j & l1 & a & l2 & Hj & Hbef & R)]; [left|right].
      * split; [|done]. intros j Hj. destruct (decide (j = i)) as [->|]; [done|]. apply Hall. lia.
      * exists j, l1, a, l2. split; [lia|]. split; [|done].
        intros k Hk. destruct (decide (k = i)) as [->|]; [done|]. apply Hbef. lia.
    + eapply run_to_bind; [by apply (remove_hit g L (has_PA PA) i Rec l1 a l2)|].
      intros r g1 R. assert (a ∈ L i Rec) as Ha by (rewrite (proj1 Hh); set_solver).
      assert (r ≠ 0) as Hr by (destruct R as [-> _]; by eapply wf_node).
      rewrite (proj2 (Z.eqb_neq r 0)) by done.
      eapply run_to_mono; [by apply (give_back_spec g L i Rec l1 a l2 g1 r state state PA)|].
      intros _ g' (W' & _ & C' & R' & D'). right. exists i, l1, a, l2.
      split; [lia|]. split; [lia|]. done.
Qed.

(** The undelegation of a granule of the Non-secure list. *)
Lemma update_destroy_undelegate g L rd PA ipa level gl idx :
  wf g L →
  run_to (val_host_update_destroy_granule_state rd PA ipa level GRANULE_UNDELEGATED gl idx) g
    (λ _ g',
      rds g' = rds g ∧
      ((misses (nodes g) (has_PA PA) (L 0%nat Ns) ∧ g' = g) ∨
       ∃ l1 a l2 n, hits (nodes g) (has_PA PA) (L 0%nat Ns) l1 a l2 ∧ nodes g !! a = Some n ∧
         if gr_is_granule_sliced n =? 0 then wf g' (upd L 0 Ns (l1 ++ l2)) else wf g' L)).
Proof.
  intros W. unfold val_host_update_destroy_granule_state. rewrite Z.eqb_refl.
  destruct (search_cases _ (has_PA PA) _ _ (wf_lists _ _ W 0%nat Ns zero_slot)) as [Hm|(l1 & a & l2 & Hh)].
  - eapply run_to_step; [by eapply find_granule_miss|]. rewrite Z.eqb_refl. apply run_to_ret. auto.
  - assert (a ∈ L 0%nat Ns) as Ha by (rewrite (proj1 Hh); set_solver).
    destruct (wf_node _ _ _ _ _ W Ha) as [Ha0 [n En]].
    eapply run_to_step; [by eapply find_granule_hit|].
    rewrite (proj2 (Z.eqb_neq a 0)) by done. eapply run_to_step; [by apply deref_Some|].
    destruct (gr_is_granule_sliced n =? 0) eqn:E0.
    + eapply run_to_bind; [by apply (remove_hit g L (has_PA PA) 0 Ns l1 a l2 W zero_slot)|].
      intros r g1 (-> & W1 & K1 & _ & n1 & E1 & _).
      eapply run_to_step; [by apply deref_Some|]. apply run_to_ret.
      split; [by apply kept_rds_eq|]. right. exists l1, a, l2, n. by rewrite E0.
    + destruct (gr_is_granule_sliced n =? 1).
      * eapply run_to_eq; [by apply update_Some|]. split; [done|].
        right. exists l1, a, l2, n. rewrite E0. split; [done|]. split; [done|].
        by eapply wf_write_same.
      * apply run_to_ret. split; [done|]. right. exists l1, a, l2, n. by rewrite E0.
Qed.

(** * A new descriptor in the Non-secure list *)

Lemma add_new_spec g L state PA :
  wf g L →
  (heap_room g ∧ run_to (val_host_add_granule state PA 0) g (λ _ g', ∃ p,
     loose L p ∧ wf g' (upd L 0 Ns (L 0%nat Ns ++ [p])) ∧ rds g' = rds g ∧
     (∀ a n, a ≠ p → nodes g !! a = Some n → ∃ n', nodes g' !! a = Some n' ∧ same_gran n n') ∧
     current_realm g' = current_realm g ∧
     ∃ n, nodes g' !! p = Some n ∧ gr_PA n = PA ∧ gr_state n = state ∧
       gr_is_granule_sliced n = 0 ∧ gr_has_auxiliary n = replicate VAL_MAX_AUX_PLANES false)) ∨
  (¬ heap_room g ∧ val_host_add_granule state PA 0 g = Fault NullDeref).
Proof.
  intros W. destruct (node_alloc_spec g L W) as [[Hr Ha]|[Hr Ha]]; [left|right]; (split; [done|]).
  - apply run_to_Ok in Ha as (p & g1 & E1 & Hp & Hlo & W1 & [n1 En] & Hb & SD1 & C1 & M1).
    set (g2 := set_nodes (<[p := init_granule state PA n1]> (nodes g1)) g1).
    assert (val_host_add_granule state PA 0 g = val_host_add_granule state PA p g2) as Heq.
    { unfold val_host_add_granule. rewrite (proj2 (Z.eqb_neq p 0)) by done. cbn [Z.eqb].
      unfold bind at 1. unfold bind at 1. rewrite E1.
      by rewrite (bind_step _ _ _ _ _ (update_Some g1 p n1 _ Hp En)). }
    unfold run_to. rewrite Heq. eapply run_to_mono.
    + eapply (add_granule_spec g2 L state PA p (init_granule state PA n1)); try done.
      * by apply wf_write_loose.
      * apply lookup_insert_eq.
    + intros _ g3 [W3 K3]. exists p. split; [done|]. split; [done|].
      split; [rewrite (kept_rds_eq _ _ K3); unfold rds; cbn; by rewrite M1|].
      split.
      { intros a n Ha Ea. destruct (SD1 a n Ea) as (n' & Ea' & S1).
        destruct (kept_data _ _ K3 a n') as (n2 & E2 & S2); [cbn; by rewrite lookup_insert_ne|].
        exists n2. split; [done|]. unfold same_gran in *. congruence. }
      split; [by rewrite (kept_realm _ _ K3)|].
      destruct (kept_data _ _ K3 p (init_granule state PA n1)) as (n & E & Hs);
        [apply lookup_insert_eq|].
      exists n. split; [done|]. unfold same_gran in Hs. destruct n. cbn in Hs. by simplify_eq.
  - unfold val_host_add_granule. cbn [Z.eqb]. unfold bind. by rewrite Ha.
Qed.

(** * Every sequence of calls *)

(** The calls the rest of the program makes. *)
Inductive gcall : Type :=
  | GAdd (state PA : Z)
  | GUpdate (rd state PA ipa level idx : Z)
  | GDestroy (rd PA ipa level state gran_list_state idx : Z).

Definition exec (c : gcall) : M gstate unit :=
  match c with
  | GAdd state PA => val_host_add_granule state PA 0
  | GUpdate rd state PA ipa level idx => val_host_update_granule_state rd state PA ipa level idx
  | GDestroy rd PA ipa level state gl idx =>
      val_host_update_destroy_granule_state rd PA ipa level state gl idx
  end.

Fixpoint exec_all (cs : list gcall) : M gstate unit :=
  match cs with [] => ret tt | c :: cs => exec c ;; exec_all cs end.

(** What a call needs: room for a new descriptor, or the granule in its list. *)
Definition call_ok (g : gstate) (L : layout) (c : gcall) : Prop :=
  match c with
  | GAdd _ _ => heap_room g
  | GUpdate _ _ PA _ _ _ => misses (nodes g) (has_PA PA) (L 0%nat Ns) → heap_room g
  | GDestroy rd PA ipa level state gl idx =>
      state ≠ GRANULE_UNDELEGATED → ∀ f, source gl = Some f →
      ¬ misses (nodes g) (source_test gl PA ipa level idx) (L (realm_of (rds g) rd) f)
  end.

Definition call_spec (g : gstate) (L : layout) (c : gcall) : Prop :=
  (call_ok g L c ∧ run_to (exec c) g (λ _ g', ∃ L', wf g' L')) ∨
  (¬ call_ok g L c ∧ exec c g = Fault NullDeref).

Lemma hits_not_misses m test l l1 a l2 : hits m test l l1 a l2 → ¬ misses m test l.
Proof.
  intros (-> & _ & n & E & Ht) Hm. rewrite (Hm a n) in Ht; [done| |done]. set_solver.
Qed.

Lemma update_other g L rd state PA ipa level idx :
  wf g L → ¬ misses (nodes g) (has_PA PA) (L 0%nat Ns) → target state = None → state ≠ GRANULE_RD →
  run_to (val_host_update_granule_state rd state PA ipa level idx) g (λ _ g', wf g' L).
Proof.
  intros W Hm Ht Hrd. unfold val_host_update_granule_state.
  eapply run_to_step; [by eapply get_curr_realm_spec|].
  eapply run_to_step; [reflexivity|]. set (g0 := set_current_realm _ g).
  assert (wf g0 L) as W0 by (apply wf_set_current_realm; [done|by eapply wf_realm_of]).
  destruct (search_cases _ (has_PA PA) _ _ (wf_lists _ _ W 0%nat Ns zero_slot))
    as [|(l1 & a & l2 & Hh)]; [done|].
  eapply run_to_step; [by eapply (find_granule_hit g0)|].
  destruct (wf_node g L 0 Ns a W) as [Ha _]; [rewrite (proj1 Hh); set_solver|].
  rewrite (proj2 (Z.eqb_neq a 0)), (proj2 (Z.eqb_neq _ _) Hrd) by done.
  unfold target in Ht. repeat (case_match; [done|]). by apply run_to_ret.
Qed.

Lemma exec_update g L rd state PA ipa level idx :
  wf g L → call_spec g L (GUpdate rd state PA ipa level idx).
Proof.
  intros W. unfold call_spec. cbn [call_ok exec].
  destruct (search_cases _ (has_PA PA) _ _ (wf_lists _ _ W 0%nat Ns zero_slot))
    as [Hm|(l1 & p & l2 & Hh)].
  - destruct (decide (heap_room g)) as [Hr|Hr]; [left|right].
    + split; [done|]. eapply run_to_mono; [by eapply update_granule_state_fresh|]. naive_solver.
    + split; [by auto|]. by eapply update_granule_state_no_room.
  - pose proof (hits_not_misses _ _ _ _ _ _ Hh) as Hnm. left. split; [done|].
    destruct (target state) as [f|] eqn:Et.
    + eapply run_to_mono; [by eapply update_granule_state_move|]. naive_solver.
    + destruct (decide (state = GRANULE_RD)) as [->|Hrd].
      * eapply run_to_mono; [by eapply update_granule_state_rd|]. naive_solver.
      * eapply run_to_mono; [by eapply update_other|]. intros ? g' ?; by exists L.
Qed.

Lemma exec_destroy g L rd PA ipa level state gl idx :
  wf g L → call_spec g L (GDestroy rd PA ipa level state gl idx).
Proof.
  intros W. unfold call_spec. cbn [call_ok exec].
  destruct (decide (state = GRANULE_UNDELEGATED)) as [->|Hs].
  { left. split; [done|]. eapply run_to_mono; [by eapply update_destroy_undelegate|].
    intros _ g' (_ & [[_ ->]|(l1 & a & l2 & n & _ & _ & H)]); [by eauto|].
    case_match; eauto. }
  destruct (source gl) as [f|] eqn:Ef.
  - destruct (search_cases _ (source_test gl PA ipa level idx) _ _
      (wf_lists _ _ W (realm_of (rds g) rd) f ltac:(by eapply wf_realm_of)))
      as [Hm|(l1 & a & l2 & Hh)]; [right|left].
    + split; [intros Hc; by apply (Hc Hs f)|]. by eapply update_destroy_miss.
    + split; [intros _ f' [= <-]; by eapply hits_not_misses|].
      eapply run_to_mono; [by eapply update_destroy_hit|]. unfold given_back. naive_solver.
  - left. split; [done|]. unfold val_host_update_destroy_granule_state.
    rewrite (proj2 (Z.eqb_neq _ _) Hs). destruct (Z.eqb_spec gl GRANULE_REC) as [->|Hr].
    + do 2 (eapply run_to_step; [reflexivity|]).
      change (GRANULE_REC =? GRANULE_RTT) with false.
      change (GRANULE_REC =? GRANULE_RTT_AUX) with false.
      change (GRANULE_REC =? GRANULE_DATA) with false. cbn match.
      eapply run_to_mono; [apply (destroy_rec_from_spec g L); [done|by vm_compute]|].
      intros _ g' [[_ ->]|(j & l1 & a & l2 & _ & _ & _ & W' & _)]; eauto.
    + eapply (run_to_step _ _ _ tt (set_current_realm (realm_of (rds g) rd) g)).
      { by rewrite (bind_step _ _ _ _ _ (get_curr_realm_spec g L rd W)). }
      eapply run_to_step; [reflexivity|]. unfold source in Ef.
      repeat (case_match; [done|]). apply run_to_ret. exists L.
      apply wf_set_current_realm; [done|]. by eapply wf_realm_of.
Qed.

Lemma exec_spec g L c : wf g L → call_spec g L c.
Proof.
  intros W. destruct c; [|by apply exec_update|by apply exec_destroy].
  unfold call_spec. cbn. destruct (add_new_spec g L state PA W) as [[Hr Ha]|[Hr Ha]]; [left|by right].
  split; [done|]. eapply run_to_mono; [apply Ha|]. naive_solver.
Qed.

Lemma wf_init a m : alloc_wf a → wf (gstate_init a m) (λ _ _, []).
Proof.
  intros Ha. split; try done; cbn.
  - vm_compute. lia.
  - intros i f Hi. unfold ptr, gstate_init. cbn [mem_track].
    rewrite lookup_replicate_2 by done. by destruct f.
  - intros; apply NoDup_nil_2.
  - intros i f j h x Hx. by apply not_elem_of_nil in Hx.
  - by intros [] ?.
  - intros i f x Hx. by apply not_elem_of_nil in Hx.
Qed.

(** C24. From program start, and for every sequence of calls, the tracker ends
    in a state whose pointers represent lists of descriptors (null-terminated,
    without a cycle, pairwise disjoint, with [head] and [tail] the ends of the
    Non-secure list), or stops at the dereference of NULL that a call makes when
    its granule is not in the list it names or the heap has no room; it never
    follows a wild pointer, indexes a table out of range, or loops. *)
Theorem tracker_calls_safe a m cs :
  alloc_wf a →
  match exec_all cs (gstate_init a m) with
  | Ok _ g => ∃ L, wf g L
  | Fault f =>
      f = NullDeref ∧ ∃ cs1 c cs2 g L,
        cs = cs1 ++ c :: cs2 ∧ exec_all cs1 (gstate_init a m) = Ok tt g ∧ wf g L ∧ ¬ call_ok g L c
  | NoFuel => False
  end.
Proof.
  intros Ha. generalize (wf_init a m Ha). generalize (λ (_ : nat) (_ : gfield), @nil Z).
  generalize (gstate_init a m). induction cs as [|c cs IH]; intros g L W; cbn; [by eauto|].
  destruct (exec_spec g L c W) as [[Hok Hr]|[Hok Hr]]; unfold bind.
  - apply run_to_Ok in Hr as ([] & g' & E & L' & W'). rewrite E. specialize (IH g' L' W').
    destruct (exec_all cs g') as [[] s|f|]; [done| |done].
    destruct IH as [-> (cs1 & c' & cs2 & g2 & L2 & -> & E2 & Hrest)]. split; [done|].
    exists (c :: cs1), c', cs2, g2, L2. split; [done|]. split; [|done].
    cbn. unfold bind. by rewrite E.
  - rewrite Hr. split; [done|]. by exists [], c, cs, g, L.
Qed.

(** A heap at [0x1000] and the start of the program. *)
Definition heap1 : alloc_state := mk_alloc 0 0x1000 0x100000 0.

Lemma heap1_wf : alloc_wf heap1.
Proof. split; by vm_compute. Qed.

Lemma tracker_calls_safe_witness :
  alloc_wf heap1 ∧
  match exec_all [GAdd GRANULE_DELEGATED 0x8000; GDestroy 1 0x8000 0 3 GRANULE_DELEGATED GRANULE_DATA 0]
          (gstate_init heap1 ∅) with
  | Ok _ g => ∃ L, wf g L
  | Fault f => f = NullDeref ∧ True
  | NoFuel => False
  end.
Proof.
  split; [apply heap1_wf|].
  pose proof (tracker_calls_safe heap1 ∅
    [GAdd GRANULE_DELEGATED 0x8000; GDestroy 1 0x8000 0 3 GRANULE_DELEGATED GRANULE_DATA 0] heap1_wf) as H.
  destruct (exec_all _ _); [exact H|destruct H; auto|exact H].
Defined.

(** * Round trips *)

(** The release test of the list a granule was assigned to accepts it. *)
Lemma source_test_assigned rd state PA ipa level idx n f :
  target state = Some f → f ≠ Rec → gr_PA n = PA →
  source state = Some f ∧
  source_test state PA ipa level idx (set_next 0 (assigned rd state ipa level idx n)) = true.
Proof.
  unfold target, source, source_test, assigned. intros Ht Hf Hp.
  destruct (Z.eqb_spec state GRANULE_REC) as [->|_]; [by simplify_eq|].
  destruct (Z.eqb_spec state GRANULE_RTT) as [->|_]; [simplify_eq; cbn; by rewrite !Z.eqb_refl|].
  destruct (Z.eqb_spec state GRANULE_RTT_AUX) as [->|_]; [simplify_eq; cbn; by rewrite !Z.eqb_refl|].
  destruct (Z.eqb_spec state GRANULE_DATA) as [->|_]; [simplify_eq; cbn; by rewrite !Z.eqb_refl|].
  destruct (Z.eqb_spec state GRANULE_UNPROTECTED) as [->|_]; [|done].
  simplify_eq; cbn; by rewrite !Z.eqb_refl.
Qed.

(** The tests of the tracker do not read the link. *)
Lemma source_test_blind gl PA ipa level idx n n' :
  same_gran n n' → source_test gl PA ipa level idx n = source_test gl PA ipa level idx n'.
Proof.
  destruct n, n'. unfold same_gran, source_test. cbn. intros E.
  by injection E as -> -> -> -> -> -> -> ->.
Qed.

(** [misses] is stable under changes that keep the contents. *)
Lemma misses_data g g' p F test l :
  (∀ n n', same_gran n n' → test n = test n') → data_change g g' p F → p ∉ l →
  (∀ a, a ∈ l → is_Some (nodes g !! a)) →
  misses (nodes g) test l → misses (nodes g') test l.
Proof.
  intros Hb [_ Hd] Hp Hin Hm a n' Ha En'. destruct (Hin a Ha) as [n En].
  destruct (Hd a n) as (n2 & E2 & Hs); [by intros ->|done|]. simplify_eq.
  rewrite <- (Hb _ _ Hs). eauto.
Qed.

Lemma same_gran_PA n n' : same_gran n n' → gr_PA n = gr_PA n'.
Proof. destruct n, n'. unfold same_gran. cbn. naive_solver. Qed.

Lemma same_gran_next0 n : same_gran (set_next 0 n) n.
Proof. by destruct n. Qed.

Lemma assigned_PA rd state ipa level idx n : gr_PA (assigned rd state ipa level idx n) = gr_PA n.
Proof. unfold assigned. by repeat case_match. Qed.

(** Assigning a delegated granule to a Realm and releasing it again with
    the same IPA, level and tree moves its descriptor to the end of the
    Non-secure list and leaves every other list, the slots of the Realms and
    the PA of the descriptor as they were. *)
Theorem assign_release_roundtrip g L rd state PA ipa level idx f l1 p l2 :
  wf g L → target state = Some f → f ≠ Rec →
  hits (nodes g) (has_PA PA) (L 0%nat Ns) l1 p l2 →
  misses (nodes g) (source_test state PA ipa level idx) (L (realm_of (rds g) rd) f) →
  run_to
    (val_host_update_granule_state rd state PA ipa level idx ;;
     val_host_update_destroy_granule_state rd PA ipa level GRANULE_DELEGATED state idx) g
    (λ _ g',
      wf g' (upd L 0 Ns (l1 ++ l2 ++ [p])) ∧ rds g' = rds g ∧ g_alloc g' = g_alloc g ∧
      ∃ n, nodes g' !! p = Some n ∧ gr_PA n = PA ∧
        gr_state n = returned_state state GRANULE_DELEGATED).
Proof.
  intros W Ht Hf Hh Hm. set (i := realm_of (rds g) rd) in *.
  assert (p ∈ L 0%nat Ns) as Hp by (rewrite (proj1 Hh); set_solver).
  assert (f ≠ Ns) as Hns by (unfold target in Ht; repeat case_match; by simplify_eq).
  assert (p ∉ L i f) as Hpi by (intros Hx; destruct (wf_disj _ _ W _ _ _ _ _ Hp Hx); naive_solver).
  assert (∃ n, nodes g !! p = Some n ∧ gr_PA n = PA) as (n & En & HPA).
  { destruct Hh as (_ & _ & n & En & Hpa). exists n. split; [done|]. by apply Z.eqb_eq. }
  pose proof (wf_realm_of _ _ rd W : (i < _)%nat) as Hi.
  destruct (source_test_assigned rd state PA ipa level idx n f Ht Hf HPA) as [Hsrc Htest].
  eapply run_to_bind; [by eapply update_granule_state_move|].
  intros _ g1 (W1 & A1 & C1 & R1 & D1). fold i in W1.
  destruct (proj1 D1 n En) as (n1 & En1 & S1).
  set (L1 := upd _ i f _) in W1.
  assert (hits (nodes g1) (source_test state PA ipa level idx) (L1 (realm_of (rds g1) rd) f)
            (L i f) p []) as Hh1.
  { rewrite R1. fold i. unfold L1. rewrite upd_eq. split; [done|]. split.
    - eapply misses_data; [intros ??; apply source_test_blind|done|done| |done].
      intros a Ha. by eapply wf_node.
    - exists n1. split; [done|]. rewrite <- Htest. apply source_test_blind.
      unfold same_gran in *. rewrite <- S1. by destruct (assigned _ _ _ _ _ n). }
  eapply run_to_mono; [eapply (update_destroy_hit g1 L1); [done|done|done|exact Hh1]|].
  intros _ g2 (W2 & A2 & C2 & R2 & D2). rewrite R1 in *. fold i in W2, R2.
  assert (freed_rds state i (rds g) = rds g) as E.
  { unfold freed_rds. unfold target in Ht. destruct (Z.eqb_spec state GRANULE_RD) as [->|]; done. }
  split; [|split; [by rewrite R2|split; [by rewrite A2|]]].
  - eapply ext_wf; [exact W2|]. intros j h. unfold L1, upd. rewrite app_nil_r.
    repeat case_decide; destruct_and?; subst; try done; try naive_solver. by rewrite app_assoc.
  - destruct (proj1 D2 n1 En1) as (n2 & En2 & S2). exists n2. split; [done|].
    apply same_gran_PA in S1. rewrite assigned_PA in S1.
    destruct n1, n2. unfold same_gran in S2. cbn in *. injection S2 as -> -> -> -> -> -> -> ->.
    split; [congruence|done].
Qed.

(** One delegated granule, at PA [0x8000], in the Non-secure list. *)
Definition gran1 : val_host_granule_ts :=
  mk_gran 0 GRANULE_DELEGATED 0x8000 0 0 0 0 [false; false; false] 0.
Definition start1 : gstate := gstate_init (set_heap_base 0x1040 heap1) {[0x1000 := gran1]}.
Definition one_granule : gstate :=
  match val_host_add_granule GRANULE_DELEGATED 0x8000 0x1000 start1 with Ok _ g => g | _ => start1 end.
Definition one_layout : layout := upd (λ _ _, []) 0 Ns [0x1000].

Lemma one_granule_wf : wf one_granule one_layout.
Proof.
  assert (alloc_wf (set_heap_base 0x1040 heap1)) as Ha by (split; by vm_compute).
  pose proof (add_granule_spec start1 (λ _ _, []) GRANULE_DELEGATED 0x8000 0x1000 gran1
    (wf_init _ _ Ha) ltac:(done) ltac:(done) ltac:(done)
    ltac:(intros ?? []%not_elem_of_nil) ltac:(by vm_compute)) as H.
  apply run_to_Ok in H as ([] & g & E & W & _). unfold one_granule. rewrite E. exact W.
Qed.

Lemma one_granule_hits :
  hits (nodes one_granule) (has_PA 0x8000) (one_layout 0%nat Ns) [] 0x1000 [].
Proof.
  split; [done|]. split; [intros ?? []%not_elem_of_nil|]. exists gran1. split; [|done].
  by vm_compute.
Qed.

Lemma assign_release_roundtrip_witness :
  run_to
    (val_host_update_granule_state 7 GRANULE_DATA 0x8000 0x4000 3 0 ;;
     val_host_update_destroy_granule_state 7 0x8000 0x4000 3 GRANULE_DELEGATED GRANULE_DATA 0)
    one_granule
    (λ _ g', wf g' (upd one_layout 0 Ns ([] ++ [] ++ [0x1000])) ∧ rds g' = rds one_granule ∧
      g_alloc g' = g_alloc one_granule ∧
      ∃ n, nodes g' !! 0x1000 = Some n ∧ gr_PA n = 0x8000 ∧
        gr_state n = returned_state GRANULE_DATA GRANULE_DELEGATED).
Proof.
  apply (assign_release_roundtrip one_granule one_layout 7 GRANULE_DATA 0x8000 0x4000 3 0 Data
    [] 0x1000 []).
  - apply one_granule_wf.
  - reflexivity.
  - discriminate.
  - apply one_granule_hits.
  - intros a n Ha. by apply not_elem_of_nil in Ha.
Defined.

(** The life of a Realm's slot: creating an RD takes the first free slot of
    the table, records the RD there and puts its descriptor alone in the slot's
    list [rd]; destroying that RD frees the slot again, so the table of RDs is
    what it was, and the descriptor is back at the end of the Non-secure list. *)
Theorem realm_slot_roundtrip g L rd ipa level idx l1 p l2 j :
  wf g L → hits (nodes g) (has_PA rd) (L 0%nat Ns) l1 p l2 →
  claim_from 1 (drop 1 (rds g)) rd = Some j → L j Rd = [] →
  run_to
    (val_host_update_granule_state rd GRANULE_RD rd ipa level idx ;;
     let* i := val_host_get_curr_realm rd in
     val_host_update_destroy_granule_state rd rd ipa level GRANULE_DELEGATED GRANULE_RD idx ;;
     ret i) g
    (λ i g', i = j ∧ wf g' (upd L 0 Ns (l1 ++ l2 ++ [p])) ∧ rds g' = rds g).
Proof.
  intros W Hh Hcl HL. destruct (claim_from_free _ _ _ _ Hcl) as [Hj Hbefore].
  assert (p ∈ L 0%nat Ns) as Hp by (rewrite (proj1 Hh); set_solver).
  pose proof (claim_from_range _ _ _ _ Hcl) as Hjr.
  rewrite lookup_drop in Hj. replace (1 + (j - 1))%nat with j in Hj by lia.
  assert (∃ n, nodes g !! p = Some n ∧ gr_PA n = rd) as (n & En & HPA).
  { destruct Hh as (_ & _ & n & En & Hpa). exists n. split; [done|]. by apply Z.eqb_eq. }
  eapply run_to_bind; [by eapply update_granule_state_rd|].
  intros _ g1 (W1 & A1 & C1 & R1 & D1). rewrite Hcl in *. cbn in W1.
  assert (realm_of (rds g1) rd = j) as Hro.
  { unfold realm_of. rewrite R1.
    assert (list_find (λ x, x = rd) (drop 1 (<[j:=rd]> (rds g))) = Some ((j - 1)%nat, rd)) as ->.
    - apply list_find_Some. rewrite lookup_drop. replace (1 + (j - 1))%nat with j by lia.
      split; [apply list_lookup_insert_eq; by eapply lookup_lt_Some|]. split; [done|].
      intros k y Hy Hk ->. rewrite lookup_drop in Hy.
      rewrite list_lookup_insert_ne in Hy by lia. apply (Hbefore k); [lia|]. by rewrite lookup_drop.
    - lia. }
  eapply run_to_step; [by eapply get_curr_realm_spec|]. rewrite Hro.
  destruct (proj1 D1 n En) as (n1 & En1 & S1). set (L1 := upd _ j Rd _) in W1.
  assert (hits (nodes g1) (source_test GRANULE_RD rd ipa level idx)
            (L1 (realm_of (rds g1) rd) Rd) [] p []) as Hh1.
  { rewrite Hro. unfold L1. rewrite upd_eq. split; [done|]. split.
    - intros ?? []%not_elem_of_nil.
    - exists n1. split; [done|]. apply same_gran_PA in S1. cbn. apply Z.eqb_eq.
      rewrite <- S1. done. }
  eapply run_to_bind; [eapply (update_destroy_hit g1 L1); [done|done|done|exact Hh1]|].
  intros _ g2 (W2 & A2 & C2 & R2 & D2). apply run_to_ret. split; [done|].
  rewrite Hro in *. split.
  - eapply ext_wf; [exact W2|]. intros k h. unfold L1, upd. cbn [app].
    repeat case_decide; destruct_and?; subst; try done; try naive_solver. by rewrite app_assoc.
  - rewrite R2, R1. unfold freed_rds. rewrite Z.eqb_refl, list_insert_insert_eq.
    by apply list_insert_id.
Qed.

Lemma realm_slot_roundtrip_witness :
  claim_from 1 (drop 1 (rds one_granule)) 0x8000 = Some 1%nat ∧
  run_to
    (val_host_update_granule_state 0x8000 GRANULE_RD 0x8000 0 0 0 ;;
     let* i := val_host_get_curr_realm 0x8000 in
     val_host_update_destroy_granule_state 0x8000 0x8000 0 0 GRANULE_DELEGATED GRANULE_RD 0 ;;
     ret i) one_granule
    (λ i g', i = 1%nat ∧ wf g' (upd one_layout 0 Ns ([] ++ [] ++ [0x1000])) ∧
             rds g' = rds one_granule).
Proof.
  split; [by vm_compute|].
  apply (realm_slot_roundtrip one_granule one_layout 0x8000 0 0 0 [] 0x1000 [] 1).
  - apply one_granule_wf.
  - apply one_granule_hits.
  - by vm_compute.
  - reflexivity.
Defined.

(** * Resetting the tracker between tests *)

(** A result with the table replaced. *)
Definition with_track {A : Type} (T : list val_host_memory_track_ts) (o : outcome gstate A) :
    outcome gstate A :=
  match o with Ok a s => Ok a (set_mem_track T s) | Fault f => Fault f | NoFuel => NoFuel end.

Lemma reset_from_spec g n i :
  (i + n = length (mem_track g))%nat →
  reset_from n i g =
  Ok tt (set_mem_track (take i (mem_track g) ++ (reset_slot <$> drop i (mem_track g))) g).
Proof.
  revert g i. induction n as [|n IH]; intros g i Hi; cbn.
  - rewrite drop_ge, take_ge by lia. cbn. rewrite app_nil_r. by destruct g.
  - rewrite (bind_step _ _ _ _ _ (set_slot_alter g i reset_slot ltac:(lia))).
    rewrite IH by (cbn; rewrite length_alter; lia). cbn. f_equal. unfold set_mem_track. cbn. f_equal.
    destruct (slot_Some g i) as (t & Ht & _); [lia|].
    assert (alter reset_slot i (mem_track g) !! i = Some (reset_slot t)) as Ht'.
    { rewrite list_lookup_alter_eq. by rewrite Ht. }
    rewrite (take_S_r _ _ _ Ht'), (drop_S _ _ _ Ht), take_alter_ge, drop_alter_lt by lia.
    by rewrite <- app_assoc.
Qed.

Lemma reset_spec g L :
  wf g L → val_host_reset_mem_tack g = Ok tt (set_mem_track (reset_slot <$> mem_track g) g).
Proof.
  intros W. unfold val_host_reset_mem_tack. rewrite reset_from_spec by (by rewrite (wf_slots _ _ W)).
  by rewrite drop_0.
Qed.

(** With a Non-secure list in place, a new granule is linked behind [tail] and
    the table is not consulted. *)
Lemma add_new_track T g state PA :
  head g ≠ 0 →
  val_host_add_granule state PA 0 (set_mem_track T g) =
  with_track T (val_host_add_granule state PA 0 g).
Proof.
  intros Hh. unfold val_host_add_granule. cbn [Z.eqb]. unfold bind, node_alloc, set_mem_track. cbn.
  destruct (mem_alloc SIZEOF_GRANULE SIZEOF_GRANULE (g_alloc g)) as [p a].
  destruct (p =? 0) eqn:Hp; cbn; unfold update, deref, bind; cbn; rewrite ?Hp; cbn;
    rewrite ?lookup_insert_eq; [done|]. cbn.
  rewrite (proj2 (Z.eqb_neq _ _) Hh). unfold gets, modify. cbn.
  destruct (tail g =? 0) eqn:Et; cbn; [done|].
  destruct (_ !! tail g); cbn; [|done]. by rewrite ?Et, lookup_insert_eq.
Qed.

Lemma find_from_track T g fuel p PA :
  find_from fuel p PA (set_mem_track T g) = with_track T (find_from fuel p PA g).
Proof.
  revert p. induction fuel as [|fuel IH]; intros p; cbn; [done|].
  destruct (p =? 0) eqn:Hp; [done|]. unfold bind, deref. rewrite Hp. cbn.
  destruct (nodes g !! p); [|done]. by case_match.
Qed.

(** Resetting the tracker while the Non-secure list is not empty, as
    happens when the rollback of the previous test was skipped or failed,
    leaves [head] on the old list.  A granule the next test delegates is linked
    to that list and [mem_track[0].gran_type.ns] stays NULL, and undelegating
    the granule then dereferences NULL. *)
Theorem reset_keeps_old_list g L state PA rd ipa level gl idx :
  wf g L → L 0%nat Ns ≠ [] → heap_room g → misses (nodes g) (has_PA PA) (L 0%nat Ns) →
  run_to (val_host_reset_mem_tack ;; val_host_add_granule state PA 0) g (λ _ g',
    head g' ≠ 0 ∧ ptr g' 0 Ns = 0 ∧
    val_host_update_destroy_granule_state rd PA ipa level GRANULE_UNDELEGATED gl idx g'
    = Fault NullDeref).
Proof.
  intros W HL Hr Hm. eapply run_to_step; [by eapply reset_spec|].
  set (T := reset_slot <$> mem_track g).
  assert (head g ≠ 0) as Hh.
  { rewrite (wf_head _ _ W). destruct (L 0%nat Ns) as [|a l] eqn:E; [done|].
    apply (wf_node g L 0 Ns a W). rewrite E. set_solver. }
  unfold run_to. rewrite add_new_track by done.
  destruct (add_new_spec g L state PA W) as [[_ Ha]|[Ha _]]; [|done].
  apply run_to_Ok in Ha as ([] & g1 & -> & p & Hlo & W1 & R1 & D1 & _ & n & En & Hpa & _ & Hsl & _).
  cbn [with_track].
  assert (hits (nodes g1) (has_PA PA) (upd L 0 Ns (L 0%nat Ns ++ [p]) 0%nat Ns)
            (L 0%nat Ns) p []) as Hhit.
  { rewrite upd_eq. split; [done|]. split; [|exists n; split; [done|by apply Z.eqb_eq]].
    intros a na Haa Ena. destruct (wf_node _ _ _ _ _ W Haa) as [_ [n0 E0]].
    destruct (D1 a n0) as (n' & E' & S'); [intros ->; by apply (Hlo 0%nat Ns)|done|].
    simplify_eq. unfold has_PA. rewrite <- (same_gran_PA _ _ S'). by apply (Hm a). }
  destruct (wf_node g1 _ 0 Ns p W1) as [Hp0 _]; [rewrite upd_eq; set_solver|].
  assert (length T = VAL_HOST_MAX_REALMS) as HT by (unfold T; by rewrite length_fmap, (wf_slots _ _ W)).
  assert (ptr (set_mem_track T g1) 0 Ns = 0) as Hptr.
  { unfold ptr, T. cbn. rewrite list_lookup_fmap. by destruct (mem_track g !! 0%nat). }
  split; [|split; [done|]].
  { cbn. rewrite (wf_head _ _ W1), upd_eq. destruct (L 0%nat Ns) as [|a l] eqn:E; [done|].
    apply (wf_node g L 0 Ns a W). rewrite E. set_solver. }
  pose proof (find_granule_hit g1 _ PA _ _ _ W1 Hhit) as Hf.
  unfold val_host_update_destroy_granule_state. rewrite Z.eqb_refl.
  assert (val_host_find_granule PA (set_mem_track T g1) = Ok p (set_mem_track T g1)) as Hf'.
  { unfold val_host_find_granule, bind, gets in *. change (walk_fuel (set_mem_track T g1)) with (walk_fuel g1).
    change (head (set_mem_track T g1)) with (head g1). by rewrite find_from_track, Hf. }
  rewrite (bind_step _ _ _ _ _ Hf'), (proj2 (Z.eqb_neq p 0)) by done.
  rewrite (bind_step _ _ _ _ _ (deref_Some (set_mem_track T g1) p n Hp0 En)), Hsl.
  unfold val_host_remove_granule, remove_with.
  pose proof (get_list_ptr (set_mem_track T g1) 0 Ns ltac:(cbn; rewrite HT; apply zero_slot)) as Hg.
  rewrite Hptr in Hg. rewrite Z.eqb_refl. unfold bind. by rewrite !Hg.
Qed.

Lemma reset_keeps_old_list_witness :
  run_to (val_host_reset_mem_tack ;; val_host_add_granule GRANULE_DELEGATED 0x9000 0) one_granule
    (λ _ g', head g' ≠ 0 ∧ ptr g' 0 Ns = 0 ∧
      val_host_update_destroy_granule_state 0 0x9000 0 0 GRANULE_UNDELEGATED 0 0 g' = Fault NullDeref).
Proof.
  apply (reset_keeps_old_list one_granule one_layout).
  - apply one_granule_wf.
  - discriminate.
  - vm_compute. discriminate.
  - intros a n ->%list_elem_of_singleton E. vm_compute in E. by simplify_eq.
Defined.

(** * Auxiliary mappings of a descriptor *)

Lemma aux_find_hit g fuel p l l1 a l2 ipa :
  lseg (nodes g) p l 0 → (length l < fuel)%nat →
  hits (nodes g) (λ n, gr_ipa n =? ipa) l l1 a l2 → aux_find_from fuel p ipa g = Ok a g.
Proof.
  intros Hl Hf (-> & Hm & n & E & Ht). revert fuel p Hl Hf Hm.
  induction l1 as [|b l1 IH]; intros [|fuel] p; simpl; try lia.
  - intros (-> & Ha & _) _ _. rewrite (bind_step _ _ _ _ _ (deref_Some _ _ _ Ha E)). by rewrite Ht.
  - intros (-> & Hb & nb & Eb & Hl) Hf Hm.
    destruct (misses_cons _ _ _ _ _ Eb Hm) as [Htb Hm'].
    rewrite (bind_step _ _ _ _ _ (deref_Some _ _ _ Hb Eb)), Htb.
    assert (gr_next nb ≠ 0) as Hn by (destruct l1; simpl in Hl; naive_solver).
    rewrite (proj2 (Z.eqb_neq _ _) Hn). apply IH; [done|lia|done].
Qed.

Lemma aux_find_miss g fuel p l ipa :
  l ≠ [] → lseg (nodes g) p l 0 → (length l < fuel)%nat →
  misses (nodes g) (λ n, gr_ipa n =? ipa) l → aux_find_from fuel p ipa g = Ok 0 g.
Proof.
  revert fuel p. induction l as [|a l IH]; intros [|fuel] p Hne; simpl; try done; try lia.
  intros (-> & Ha & n & E & Hl) Hf Hm.
  destruct (misses_cons _ _ _ _ _ E Hm) as [Ht Hm'].
  rewrite (bind_step _ _ _ _ _ (deref_Some _ _ _ Ha E)), Ht.
  destruct l as [|b l]; simpl in Hl; [by rewrite Hl|].
  assert (gr_next n ≠ 0) as Hn by naive_solver.
  rewrite (proj2 (Z.eqb_neq _ _) Hn). apply IH; [done|done|simpl in *; lia|done].
Qed.

(** The list a granule state selects. *)
Definition aux_field (gran_state : Z) : option gfield :=
  if gran_state =? GRANULE_DATA then Some Data
  else if gran_state =? GRANULE_UNPROTECTED then Some ValidNs
  else None.

Lemma update_aux_unfold g L gran_state rd rtt_index ipa val f :
  wf g L → aux_field gran_state = Some f →
  let i := realm_of (rds g) rd in
  val_host_update_aux_rtt_info gran_state rd rtt_index ipa val g =
  (if lhd (L i f) =? 0 then ret VAL_ERROR
   else
     let* fuel := gets walk_fuel in
     let* current := aux_find_from fuel (lhd (L i f)) ipa in
     let* n := deref current in
     let idx := u64 (rtt_index - 1) in
     if idx <? Z.of_nat (length (gr_has_auxiliary n)) then
       update current (set_aux (<[Z.to_nat idx := val]> (gr_has_auxiliary n))) ;;
       ret VAL_SUCCESS
     else fail OutOfBounds) (set_current_realm i g).
Proof.
  intros W Hf i. unfold val_host_update_aux_rtt_info.
  rewrite (bind_step _ _ _ _ _ (get_curr_realm_spec g L rd W)).
  rewrite (bind_step _ _ _ tt (set_current_realm i g)) by done.
  assert (wf (set_current_realm i g) L) as W0
    by (apply wf_set_current_realm; [done|by eapply wf_realm_of]).
  assert (i < VAL_HOST_MAX_REALMS)%nat as Hi by (by eapply wf_realm_of).
  unfold aux_field in Hf.
  assert ((if gran_state =? GRANULE_DATA then let* p := get_list i Data in ret (Some p)
     else if gran_state =? GRANULE_UNPROTECTED then let* p := get_list i ValidNs in ret (Some p)
     else ret None) (set_current_realm i g) = Ok (Some (lhd (L i f))) (set_current_realm i g)) as E.
  { destruct (gran_state =? GRANULE_DATA).
    - simplify_eq. by rewrite (bind_step _ _ _ _ _ (wf_get_list _ _ _ _ W0 Hi)).
    - destruct (gran_state =? GRANULE_UNPROTECTED); [|done].
      simplify_eq. by rewrite (bind_step _ _ _ _ _ (wf_get_list _ _ _ _ W0 Hi)). }
  by rewrite (bind_step _ _ _ _ _ E).
Qed.

(** Every outcome of [val_host_update_aux_rtt_info]. *)
Lemma update_aux_cases g L gran_state rd rtt_index ipa val :
  wf g L →
  match val_host_update_aux_rtt_info gran_state rd rtt_index ipa val g with
  | Ok _ g' => wf g' L
  | Fault f => f = NullDeref ∨ f = OutOfBounds
  | NoFuel => False
  end.
Proof.
  intros W. destruct (aux_field gran_state) as [f|] eqn:Ef.
  - rewrite (update_aux_unfold g L gran_state rd rtt_index ipa val f W Ef).
    set (i := realm_of (rds g) rd). set (g0 := set_current_realm i g).
    assert (i < VAL_HOST_MAX_REALMS)%nat as Hi by (by eapply wf_realm_of).
    assert (wf g0 L) as W0 by (by apply wf_set_current_realm).
    pose proof (wf_lists _ _ W0 i f Hi) as Hl. rewrite <- (wf_ptr _ _ _ _ W0 Hi).
    destruct (Z.eqb_spec (ptr g0 i f) 0) as [|Hp]; [done|].
    assert (L i f ≠ []) as Hne by (intros E; rewrite (wf_ptr _ _ _ _ W0 Hi), E in Hp; done).
    rewrite (bind_step _ _ _ (walk_fuel g0) g0) by done.
    destruct (search_cases _ (λ n, gr_ipa n =? ipa) _ _ Hl) as [Hm|(l1 & a & l2 & Hh)].
    + rewrite (bind_step _ _ _ _ _ (aux_find_miss g0 _ _ _ ipa Hne Hl (wf_fuel _ _ _ _ W0) Hm)). by left.
    + rewrite (bind_step _ _ _ _ _ (aux_find_hit g0 _ _ _ _ _ _ ipa Hl (wf_fuel _ _ _ _ W0) Hh)).
      destruct (wf_node g0 L i f a W0) as [Ha [n En]]; [rewrite (proj1 Hh); set_solver|].
      rewrite (bind_step _ _ _ _ _ (deref_Some _ _ _ Ha En)). cbn.
      destruct (_ <? _); [|by right].
      rewrite (bind_step _ _ _ _ _ (update_Some _ _ _ _ Ha En)). by eapply wf_write_same.
  - unfold val_host_update_aux_rtt_info, aux_field in *.
    rewrite (bind_step _ _ _ _ _ (get_curr_realm_spec g L rd W)).
    rewrite (bind_step _ _ _ tt (set_current_realm (realm_of (rds g) rd) g)) by done.
    destruct (gran_state =? GRANULE_DATA); [done|]. destruct (gran_state =? GRANULE_UNPROTECTED); [done|].
    apply wf_set_current_realm; [done|]. by eapply wf_realm_of.
Qed.

(** Recording an auxiliary mapping of an IPA that is not in the list of the
    Realm, when that list has other entries, dereferences NULL: the search loop
    ends with a null cursor that is then written through. *)
Theorem aux_info_unknown_ipa_faults g L gran_state rd rtt_index ipa val f :
  wf g L → aux_field gran_state = Some f → L (realm_of (rds g) rd) f ≠ [] →
  misses (nodes g) (λ n, gr_ipa n =? ipa) (L (realm_of (rds g) rd) f) →
  val_host_update_aux_rtt_info gran_state rd rtt_index ipa val g = Fault NullDeref.
Proof.
  intros W Ef Hne Hm. rewrite (update_aux_unfold g L gran_state rd rtt_index ipa val f W Ef).
  set (i := realm_of (rds g) rd) in *. set (g0 := set_current_realm i g).
  assert (i < VAL_HOST_MAX_REALMS)%nat as Hi by (by eapply wf_realm_of).
  assert (wf g0 L) as W0 by (by apply wf_set_current_realm).
  pose proof (wf_lists _ _ W0 i f Hi) as Hl. rewrite <- (wf_ptr _ _ _ _ W0 Hi).
  assert (ptr g0 i f ≠ 0) as Hp.
  { rewrite (wf_ptr _ _ _ _ W0 Hi). destruct (L i f) as [|a l] eqn:E; [done|].
    apply (wf_node g0 L i f a W0). rewrite E. set_solver. }
  rewrite (proj2 (Z.eqb_neq _ _) Hp).
  rewrite (bind_step _ _ _ (walk_fuel g0) g0) by done.
  by rewrite (bind_step _ _ _ _ _ (aux_find_miss g0 _ _ _ ipa Hne Hl (wf_fuel _ _ _ _ W0) Hm)).
Qed.

(** The granule of [one_granule] as a data granule, at IPA [0x4000], of the
    Realm in slot 0 (no RD matches). *)
Definition one_data : gstate :=
  match val_host_update_granule_state 7 GRANULE_DATA 0x8000 0x4000 3 0 one_granule with
  | Ok _ g => g | _ => one_granule end.
Definition data_layout : layout := upd (upd one_layout 0 Ns []) 0 Data [0x1000].

Lemma one_data_wf : wf one_data data_layout.
Proof.
  pose proof (update_granule_state_move one_granule one_layout 7 GRANULE_DATA 0x8000 0x4000 3 0
    Data [] 0x1000 [] one_granule_wf one_granule_hits eq_refl) as H.
  apply run_to_Ok in H as ([] & g & E & W & _). unfold one_data. rewrite E. exact W.
Qed.

Lemma aux_info_unknown_ipa_faults_witness :
  val_host_update_aux_rtt_info GRANULE_DATA 7 1 0x5000 true one_data = Fault NullDeref.
Proof.
  apply (aux_info_unknown_ipa_faults one_data data_layout GRANULE_DATA 7 1 0x5000 true Data).
  - apply one_data_wf.
  - reflexivity.
  - vm_compute. discriminate.
  - intros a n Ha E. vm_compute in Ha. apply list_elem_of_singleton in Ha. subst a.
    vm_compute in E. by simplify_eq.
Defined.
