(* ===== verification/Host.v ===== *)
(** The state of the host side: the granule tracker, the host memory that is
    shared with the Realm Management Monitor, the Realm structure, and the
    interface to the monitor itself.

    The RMM is firmware behind an SMC instruction, so it is a type class: any
    state [W] with a transition [smc] that may also write host memory.  Results
    about the host code hold for every instance.  [h_log] is not in the program;
    it records the commands issued, with the host memory the RMM saw, so that
    theorems can name them.

    Host memory is a map from the address of a structure member to its value,
    with the offsets of val_host_realm.h.  The Realm structure that the functions
    receive by pointer is [h_realm]; an array access of it out of range is a
    fault. *)
From S2P Require Import Prelude Defs Alloc Granule.

Record val_smc_param_ts : Type := mk_smc {
  x0 : Z; x1 : Z; x2 : Z; x3 : Z; x4 : Z; x5 : Z; x6 : Z; x7 : Z; x8 : Z; x9 : Z; x10 : Z
}.

#[export] Instance val_smc_param_ts_eq_dec : EqDecision val_smc_param_ts.
Proof. solve_decision. Defined.

(** [smc] is the instruction.  The other members are set outside the sources:
    the build selects the version of the RMM specification, and the platform
    places the shared region. *)
Class RMM (W : Type) : Type := {
  smc : W → gmap Z Z → val_smc_param_ts → W * gmap Z Z * val_smc_param_ts;
  RMM_V_1_1 : bool;
  val_get_shared_region_base_pa : Z;
  VAL_NS_SHARED_REGION_IPA_OFFSET : Z
}.

(** [val_host_realm_state_te] *)
Inductive realm_state : Type :=
  | REALM_STATE_NULL
  | REALM_STATE_NEW
  | REALM_STATE_ACTIVE
  | REALM_STATE_SYSTEM_OFF.

#[export] Instance realm_state_eq_dec : EqDecision realm_state.
Proof. solve_decision. Defined.

Record val_host_granules_mapped_ts : Type := mk_mapped {
  gm_ipa : Z; gm_size : Z; gm_level : Z; gm_pa : Z
}.

Record val_host_realm_ts : Type := mk_realm {
  r_flags : Z;
  r_flags1 : Z;
  r_s2sz : Z;
  r_sve_vl : Z;
  r_num_bps : Z;
  r_num_wps : Z;
  r_pmu_num_ctrs : Z;
  r_hash_algo : Z;
  r_rpv : list Z;
  r_vmid : Z;
  r_s2_starting_level : Z;
  r_num_s2_sl_rtts : Z;
  r_rec_count : Z;
  r_num_aux_planes : Z;
  r_mecid : Z;
  r_image_pa_base : Z;
  r_aux_image_pa_base : list Z;
  r_image_pa_size : Z;
  r_rd : Z;
  r_rtt_l0_addr : Z;
  r_rtt_aux_l0_addr : list Z;
  r_granules_mapped_count : Z;
  r_granules : list val_host_granules_mapped_ts;
  r_dev_granules_mapped_count : Z;
  r_dev_granules : list val_host_granules_mapped_ts;
  r_rec : list Z;
  r_run : list Z;
  r_aux_count : Z;
  r_rec_aux_granules : list Z;
  r_state : realm_state
}.

Definition rset_s2sz (v : Z) (r : val_host_realm_ts) : val_host_realm_ts :=
  mk_realm (r_flags r) (r_flags1 r) v (r_sve_vl r) (r_num_bps r) (r_num_wps r)
    (r_pmu_num_ctrs r) (r_hash_algo r) (r_rpv r) (r_vmid r) (r_s2_starting_level r)
    (r_num_s2_sl_rtts r) (r_rec_count r) (r_num_aux_planes r) (r_mecid r) (r_image_pa_base r)
    (r_aux_image_pa_base r) (r_image_pa_size r) (r_rd r) (r_rtt_l0_addr r) (r_rtt_aux_l0_addr r)
    (r_granules_mapped_count r) (r_granules r) (r_dev_granules_mapped_count r)
    (r_dev_granules r) (r_rec r) (r_run r) (r_aux_count r) (r_rec_aux_granules r) (r_state r).
Definition rset_hash_algo (v : Z) (r : val_host_realm_ts) : val_host_realm_ts :=
  mk_realm (r_flags r) (r_flags1 r) (r_s2sz r) (r_sve_vl r) (r_num_bps r) (r_num_wps r)
    (r_pmu_num_ctrs r) v (r_rpv r) (r_vmid r) (r_s2_starting_level r) (r_num_s2_sl_rtts r)
    (r_rec_count r) (r_num_aux_planes r) (r_mecid r) (r_image_pa_base r) (r_aux_image_pa_base r)
    (r_image_pa_size r) (r_rd r) (r_rtt_l0_addr r) (r_rtt_aux_l0_addr r)
    (r_granules_mapped_count r) (r_granules r) (r_dev_granules_mapped_count r)
    (r_dev_granules r) (r_rec r) (r_run r) (r_aux_count r) (r_rec_aux_granules r) (r_state r).
Definition rset_vmid (v : Z) (r : val_host_realm_ts) : val_host_realm_ts :=
  mk_realm (r_flags r) (r_flags1 r) (r_s2sz r) (r_sve_vl r) (r_num_bps r) (r_num_wps r)
    (r_pmu_num_ctrs r) (r_hash_algo r) (r_rpv r) v (r_s2_starting_level r) (r_num_s2_sl_rtts r)
    (r_rec_count r) (r_num_aux_planes r) (r_mecid r) (r_image_pa_base r) (r_aux_image_pa_base r)
    (r_image_pa_size r) (r_rd r) (r_rtt_l0_addr r) (r_rtt_aux_l0_addr r)
    (r_granules_mapped_count r) (r_granules r) (r_dev_granules_mapped_count r)
    (r_dev_granules r) (r_rec r) (r_run r) (r_aux_count r) (r_rec_aux_granules r) (r_state r).
Definition rset_s2_starting_level (v : Z) (r : val_host_realm_ts) : val_host_realm_ts :=
  mk_realm (r_flags r) (r_flags1 r) (r_s2sz r) (r_sve_vl r) (r_num_bps r) (r_num_wps r)
    (r_pmu_num_ctrs r) (r_hash_algo r) (r_rpv r) (r_vmid r) v (r_num_s2_sl_rtts r)
    (r_rec_count r) (r_num_aux_planes r) (r_mecid r) (r_image_pa_base r) (r_aux_image_pa_base r)
    (r_image_pa_size r) (r_rd r) (r_rtt_l0_addr r) (r_rtt_aux_l0_addr r)
    (r_granules_mapped_count r) (r_granules r) (r_dev_granules_mapped_count r)
    (r_dev_granules r) (r_rec r) (r_run r) (r_aux_count r) (r_rec_aux_granules r) (r_state r).
Definition rset_num_s2_sl_rtts (v : Z) (r : val_host_realm_ts) : val_host_realm_ts :=
  mk_realm (r_flags r) (r_flags1 r) (r_s2sz r) (r_sve_vl r) (r_num_bps r) (r_num_wps r)
    (r_pmu_num_ctrs r) (r_hash_algo r) (r_rpv r) (r_vmid r) (r_s2_starting_level r) v
    (r_rec_count r) (r_num_aux_planes r) (r_mecid r) (r_image_pa_base r) (r_aux_image_pa_base r)
    (r_image_pa_size r) (r_rd r) (r_rtt_l0_addr r) (r_rtt_aux_l0_addr r)
    (r_granules_mapped_count r) (r_granules r) (r_dev_granules_mapped_count r)
    (r_dev_granules r) (r_rec r) (r_run r) (r_aux_count r) (r_rec_aux_granules r) (r_state r).
Definition rset_rec_count (v : Z) (r : val_host_realm_ts) : val_host_realm_ts :=
  mk_realm (r_flags r) (r_flags1 r) (r_s2sz r) (r_sve_vl r) (r_num_bps r) (r_num_wps r)
    (r_pmu_num_ctrs r) (r_hash_algo r) (r_rpv r) (r_vmid r) (r_s2_starting_level r)
    (r_num_s2_sl_rtts r) v (r_num_aux_planes r) (r_mecid r) (r_image_pa_base r)
    (r_aux_image_pa_base r) (r_image_pa_size r) (r_rd r) (r_rtt_l0_addr r) (r_rtt_aux_l0_addr r)
    (r_granules_mapped_count r) (r_granules r) (r_dev_granules_mapped_count r)
    (r_dev_granules r) (r_rec r) (r_run r) (r_aux_count r) (r_rec_aux_granules r) (r_state r).
Definition rset_image_pa_base (v : Z) (r : val_host_realm_ts) : val_host_realm_ts :=
  mk_realm (r_flags r) (r_flags1 r) (r_s2sz r) (r_sve_vl r) (r_num_bps r) (r_num_wps r)
    (r_pmu_num_ctrs r) (r_hash_algo r) (r_rpv r) (r_vmid r) (r_s2_starting_level r)
    (r_num_s2_sl_rtts r) (r_rec_count r) (r_num_aux_planes r) (r_mecid r) v
    (r_aux_image_pa_base r) (r_image_pa_size r) (r_rd r) (r_rtt_l0_addr r) (r_rtt_aux_l0_addr r)
    (r_granules_mapped_count r) (r_granules r) (r_dev_granules_mapped_count r)
    (r_dev_granules r) (r_rec r) (r_run r) (r_aux_count r) (r_rec_aux_granules r) (r_state r).
Definition rset_aux_image_pa_base (v : list Z) (r : val_host_realm_ts) : val_host_realm_ts :=
  mk_realm (r_flags r) (r_flags1 r) (r_s2sz r) (r_sve_vl r) (r_num_bps r) (r_num_wps r)
    (r_pmu_num_ctrs r) (r_hash_algo r) (r_rpv r) (r_vmid r) (r_s2_starting_level r)
    (r_num_s2_sl_rtts r) (r_rec_count r) (r_num_aux_planes r) (r_mecid r) (r_image_pa_base r) v
    (r_image_pa_size r) (r_rd r) (r_rtt_l0_addr r) (r_rtt_aux_l0_addr r)
    (r_granules_mapped_count r) (r_granules r) (r_dev_granules_mapped_count r)
    (r_dev_granules r) (r_rec r) (r_run r) (r_aux_count r) (r_rec_aux_granules r) (r_state r).
Definition rset_image_pa_size (v : Z) (r : val_host_realm_ts) : val_host_realm_ts :=
  mk_realm (r_flags r) (r_flags1 r) (r_s2sz r) (r_sve_vl r) (r_num_bps r) (r_num_wps r)
    (r_pmu_num_ctrs r) (r_hash_algo r) (r_rpv r) (r_vmid r) (r_s2_starting_level r)
    (r_num_s2_sl_rtts r) (r_rec_count r) (r_num_aux_planes r) (r_mecid r) (r_image_pa_base r)
    (r_aux_image_pa_base r) v (r_rd r) (r_rtt_l0_addr r) (r_rtt_aux_l0_addr r)
    (r_granules_mapped_count r) (r_granules r) (r_dev_granules_mapped_count r)
    (r_dev_granules r) (r_rec r) (r_run r) (r_aux_count r) (r_rec_aux_granules r) (r_state r).
Definition rset_rd (v : Z) (r : val_host_realm_ts) : val_host_realm_ts :=
  mk_realm (r_flags r) (r_flags1 r) (r_s2sz r) (r_sve_vl r) (r_num_bps r) (r_num_wps r)
    (r_pmu_num_ctrs r) (r_hash_algo r) (r_rpv r) (r_vmid r) (r_s2_starting_level r)
    (r_num_s2_sl_rtts r) (r_rec_count r) (r_num_aux_planes r) (r_mecid r) (r_image_pa_base r)
    (r_aux_image_pa_base r) (r_image_pa_size r) v (r_rtt_l0_addr r) (r_rtt_aux_l0_addr r)
    (r_granules_mapped_count r) (r_granules r) (r_dev_granules_mapped_count r)
    (r_dev_granules r) (r_rec r) (r_run r) (r_aux_count r) (r_rec_aux_granules r) (r_state r).
Definition rset_rtt_l0_addr (v : Z) (r : val_host_realm_ts) : val_host_realm_ts :=
  mk_realm (r_flags r) (r_flags1 r) (r_s2sz r) (r_sve_vl r) (r_num_bps r) (r_num_wps r)
    (r_pmu_num_ctrs r) (r_hash_algo r) (r_rpv r) (r_vmid r) (r_s2_starting_level r)
    (r_num_s2_sl_rtts r) (r_rec_count r) (r_num_aux_planes r) (r_mecid r) (r_image_pa_base r)
    (r_aux_image_pa_base r) (r_image_pa_size r) (r_rd r) v (r_rtt_aux_l0_addr r)
    (r_granules_mapped_count r) (r_granules r) (r_dev_granules_mapped_count r)
    (r_dev_granules r) (r_rec r) (r_run r) (r_aux_count r) (r_rec_aux_granules r) (r_state r).
Definition rset_rtt_aux_l0_addr (v : list Z) (r : val_host_realm_ts) : val_host_realm_ts :=
  mk_realm (r_flags r) (r_flags1 r) (r_s2sz r) (r_sve_vl r) (r_num_bps r) (r_num_wps r)
    (r_pmu_num_ctrs r) (r_hash_algo r) (r_rpv r) (r_vmid r) (r_s2_starting_level r)
    (r_num_s2_sl_rtts r) (r_rec_count r) (r_num_aux_planes r) (r_mecid r) (r_image_pa_base r)
    (r_aux_image_pa_base r) (r_image_pa_size r) (r_rd r) (r_rtt_l0_addr r) v
    (r_granules_mapped_count r) (r_granules r) (r_dev_granules_mapped_count r)
    (r_dev_granules r) (r_rec r) (r_run r) (r_aux_count r) (r_rec_aux_granules r) (r_state r).
Definition rset_granules_mapped_count (v : Z) (r : val_host_realm_ts) : val_host_realm_ts :=
  mk_realm (r_flags r) (r_flags1 r) (r_s2sz r) (r_sve_vl r) (r_num_bps r) (r_num_wps r)
    (r_pmu_num_ctrs r) (r_hash_algo r) (r_rpv r) (r_vmid r) (r_s2_starting_level r)
    (r_num_s2_sl_rtts r) (r_rec_count r) (r_num_aux_planes r) (r_mecid r) (r_image_pa_base r)
    (r_aux_image_pa_base r) (r_image_pa_size r) (r_rd r) (r_rtt_l0_addr r) (r_rtt_aux_l0_addr r)
    v (r_granules r) (r_dev_granules_mapped_count r) (r_dev_granules r) (r_rec r) (r_run r)
    (r_aux_count r) (r_rec_aux_granules r) (r_state r).
Definition rset_granules (v : list val_host_granules_mapped_ts) (r : val_host_realm_ts) : val_host_realm_ts :=
  mk_realm (r_flags r) (r_flags1 r) (r_s2sz r) (r_sve_vl r) (r_num_bps r) (r_num_wps r)
    (r_pmu_num_ctrs r) (r_hash_algo r) (r_rpv r) (r_vmid r) (r_s2_starting_level r)
    (r_num_s2_sl_rtts r) (r_rec_count r) (r_num_aux_planes r) (r_mecid r) (r_image_pa_base r)
    (r_aux_image_pa_base r) (r_image_pa_size r) (r_rd r) (r_rtt_l0_addr r) (r_rtt_aux_l0_addr r)
    (r_granules_mapped_count r) v (r_dev_granules_mapped_count r) (r_dev_granules r) (r_rec r)
    (r_run r) (r_aux_count r) (r_rec_aux_granules r) (r_state r).
Definition rset_dev_granules_mapped_count (v : Z) (r : val_host_realm_ts) : val_host_realm_ts :=
  mk_realm (r_flags r) (r_flags1 r) (r_s2sz r) (r_sve_vl r) (r_num_bps r) (r_num_wps r)
    (r_pmu_num_ctrs r) (r_hash_algo r) (r_rpv r) (r_vmid r) (r_s2_starting_level r)
    (r_num_s2_sl_rtts r) (r_rec_count r) (r_num_aux_planes r) (r_mecid r) (r_image_pa_base r)
    (r_aux_image_pa_base r) (r_image_pa_size r) (r_rd r) (r_rtt_l0_addr r) (r_rtt_aux_l0_addr r)
    (r_granules_mapped_count r) (r_granules r) v (r_dev_granules r) (r_rec r) (r_run r)
    (r_aux_count r) (r_rec_aux_granules r) (r_state r).
Definition rset_dev_granules (v : list val_host_granules_mapped_ts) (r : val_host_realm_ts) : val_host_realm_ts :=
  mk_realm (r_flags r) (r_flags1 r) (r_s2sz r) (r_sve_vl r) (r_num_bps r) (r_num_wps r)
    (r_pmu_num_ctrs r) (r_hash_algo r) (r_rpv r) (r_vmid r) (r_s2_starting_level r)
    (r_num_s2_sl_rtts r) (r_rec_count r) (r_num_aux_planes r) (r_mecid r) (r_image_pa_base r)
    (r_aux_image_pa_base r) (r_image_pa_size r) (r_rd r) (r_rtt_l0_addr r) (r_rtt_aux_l0_addr r)
    (r_granules_mapped_count r) (r_granules r) (r_dev_granules_mapped_count r) v (r_rec r)
    (r_run r) (r_aux_count r) (r_rec_aux_granules r) (r_state r).
Definition rset_rec (v : list Z) (r : val_host_realm_ts) : val_host_realm_ts :=
  mk_realm (r_flags r) (r_flags1 r) (r_s2sz r) (r_sve_vl r) (r_num_bps r) (r_num_wps r)
    (r_pmu_num_ctrs r) (r_hash_algo r) (r_rpv r) (r_vmid r) (r_s2_starting_level r)
    (r_num_s2_sl_rtts r) (r_rec_count r) (r_num_aux_planes r) (r_mecid r) (r_image_pa_base r)
    (r_aux_image_pa_base r) (r_image_pa_size r) (r_rd r) (r_rtt_l0_addr r) (r_rtt_aux_l0_addr r)
    (r_granules_mapped_count r) (r_granules r) (r_dev_granules_mapped_count r)
    (r_dev_granules r) v (r_run r) (r_aux_count r) (r_rec_aux_granules r) (r_state r).
Definition rset_run (v : list Z) (r : val_host_realm_ts) : val_host_realm_ts :=
  mk_realm (r_flags r) (r_flags1 r) (r_s2sz r) (r_sve_vl r) (r_num_bps r) (r_num_wps r)
    (r_pmu_num_ctrs r) (r_hash_algo r) (r_rpv r) (r_vmid r) (r_s2_starting_level r)
    (r_num_s2_sl_rtts r) (r_rec_count r) (r_num_aux_planes r) (r_mecid r) (r_image_pa_base r)
    (r_aux_image_pa_base r) (r_image_pa_size r) (r_rd r) (r_rtt_l0_addr r) (r_rtt_aux_l0_addr r)
    (r_granules_mapped_count r) (r_granules r) (r_dev_granules_mapped_count r)
    (r_dev_granules r) (r_rec r) v (r_aux_count r) (r_rec_aux_granules r) (r_state r).
Definition rset_aux_count (v : Z) (r : val_host_realm_ts) : val_host_realm_ts :=
  mk_realm (r_flags r) (r_flags1 r) (r_s2sz r) (r_sve_vl r) (r_num_bps r) (r_num_wps r)
    (r_pmu_num_ctrs r) (r_hash_algo r) (r_rpv r) (r_vmid r) (r_s2_starting_level r)
    (r_num_s2_sl_rtts r) (r_rec_count r) (r_num_aux_planes r) (r_mecid r) (r_image_pa_base r)
    (r_aux_image_pa_base r) (r_image_pa_size r) (r_rd r) (r_rtt_l0_addr r) (r_rtt_aux_l0_addr r)
    (r_granules_mapped_count r) (r_granules r) (r_dev_granules_mapped_count r)
    (r_dev_granules r) (r_rec r) (r_run r) v (r_rec_aux_granules r) (r_state r).
Definition rset_rec_aux_granules (v : list Z) (r : val_host_realm_ts) : val_host_realm_ts :=
  mk_realm (r_flags r) (r_flags1 r) (r_s2sz r) (r_sve_vl r) (r_num_bps r) (r_num_wps r)
    (r_pmu_num_ctrs r) (r_hash_algo r) (r_rpv r) (r_vmid r) (r_s2_starting_level r)
    (r_num_s2_sl_rtts r) (r_rec_count r) (r_num_aux_planes r) (r_mecid r) (r_image_pa_base r)
    (r_aux_image_pa_base r) (r_image_pa_size r) (r_rd r) (r_rtt_l0_addr r) (r_rtt_aux_l0_addr r)
    (r_granules_mapped_count r) (r_granules r) (r_dev_granules_mapped_count r)
    (r_dev_granules r) (r_rec r) (r_run r) (r_aux_count r) v (r_state r).
Definition rset_state (v : realm_state) (r : val_host_realm_ts) : val_host_realm_ts :=
  mk_realm (r_flags r) (r_flags1 r) (r_s2sz r) (r_sve_vl r) (r_num_bps r) (r_num_wps r)
    (r_pmu_num_ctrs r) (r_hash_algo r) (r_rpv r) (r_vmid r) (r_s2_starting_level r)
    (r_num_s2_sl_rtts r) (r_rec_count r) (r_num_aux_planes r) (r_mecid r) (r_image_pa_base r)
    (r_aux_image_pa_base r) (r_image_pa_size r) (r_rd r) (r_rtt_l0_addr r) (r_rtt_aux_l0_addr r)
    (r_granules_mapped_count r) (r_granules r) (r_dev_granules_mapped_count r)
    (r_dev_granules r) (r_rec r) (r_run r) (r_aux_count r) (r_rec_aux_granules r) v.

(** A Realm structure of zeros, as the tests declare it. *)
Definition realm_zero : val_host_realm_ts :=
  mk_realm 0 0 0 0 0 0 0 0 (replicate 64 0) 0 0 0 0 0 0 0 (replicate VAL_MAX_AUX_PLANES 0) 0 0 0
    (replicate VAL_MAX_AUX_PLANES 0) 0 (replicate (Z.to_nat VAL_MAX_GRANULES_MAP) (mk_mapped 0 0 0 0))
    0 (replicate (Z.to_nat VAL_MAX_DEV_GRANULES_MAP) (mk_mapped 0 0 0 0))
    (replicate (Z.to_nat VAL_MAX_REC_COUNT) 0) (replicate (Z.to_nat VAL_MAX_REC_COUNT) 0) 0
    (replicate (Z.to_nat (VAL_MAX_REC_AUX_GRANULES * VAL_MAX_REC_COUNT)) 0) REALM_STATE_NULL.

Record host (W : Type) : Type := mk_host {
  h_world : W;
  h_gs : gstate;
  h_mem : gmap Z Z;
  h_realm : val_host_realm_ts;
  h_log : list (val_smc_param_ts * gmap Z Z)
}.

Arguments mk_host {W}.
Arguments h_world {W}.
Arguments h_gs {W}.
Arguments h_mem {W}.
Arguments h_realm {W}.
Arguments h_log {W}.

Section Host.
Context {W : Type}.
Implicit Types h : host W.

Definition hset_gs (g : gstate) h : host W :=
  mk_host (h_world h) g (h_mem h) (h_realm h) (h_log h).
Definition hset_mem (m : gmap Z Z) h : host W :=
  mk_host (h_world h) (h_gs h) m (h_realm h) (h_log h).
Definition hset_realm (r : val_host_realm_ts) h : host W :=
  mk_host (h_world h) (h_gs h) (h_mem h) r (h_log h).

(** Operations of the tracker and of the allocator. *)
Definition tracker {A : Type} (m : M gstate A) : M (host W) A := zoom h_gs hset_gs m.

Definition allocator {A : Type} (f : alloc_state → A * alloc_state) : M gstate A := λ g,
  let '(a, s) := f (g_alloc g) in Ok a (set_alloc s g).

Definition mem_alloc_h (alignment size : Z) : M (host W) Z :=
  tracker (allocator (val_host_mem_alloc alignment size)).

(** [val_host_mem_free] *)
Definition mem_free_h (ptr : Z) : M (host W) unit :=
  tracker (allocator (λ a, (tt, val_host_mem_free ptr a))).

(** Members of structures in host memory, and [val_memset(p, 0, n)]. *)
Definition load (a : Z) : M (host W) Z := gets (λ h, default 0 (h_mem h !! a)).
Definition store (a v : Z) : M (host W) unit :=
  modify (λ h, hset_mem (<[a := v]> (h_mem h)) h).
Definition memset0 (p n : Z) : M (host W) unit :=
  modify (λ h, hset_mem (filter (λ kv, ¬ (p ≤ kv.1 < p + n)) (h_mem h)) h).

(** Fields of the Realm structure. *)
Definition realm {A : Type} (f : val_host_realm_ts → A) : M (host W) A := gets (λ h, f (h_realm h)).
Definition set_realm (f : val_host_realm_ts → val_host_realm_ts) : M (host W) unit :=
  modify (λ h, hset_realm (f (h_realm h)) h).

(** [l[i]], for an array of the Realm structure. *)
Definition arr_get {A : Type} (f : val_host_realm_ts → list A) (i : Z) : M (host W) A :=
  let* l := realm f in
  match l !! Z.to_nat i with
  | Some v => ret v
  | None => fail OutOfBounds
  end.

Definition arr_set {A : Type} (f : val_host_realm_ts → list A)
    (put : list A → val_host_realm_ts → val_host_realm_ts) (i : Z) (v : A) : M (host W) unit :=
  let* l := realm f in
  if i <? Z.of_nat (length l) then set_realm (put (<[Z.to_nat i := v]> l)) else fail OutOfBounds.

Context `{RMM W}.

Definition val_smc_call (a0 a1 a2 a3 a4 a5 a6 a7 a8 a9 a10 : Z) : M (host W) val_smc_param_ts := λ h,
  let args := mk_smc a0 a1 a2 a3 a4 a5 a6 a7 a8 a9 a10 in
  let '(w, m, r) := smc (h_world h) (h_mem h) args in
  Ok r (mk_host w (h_gs h) m (h_realm h) (h_log h ++ [(args, h_mem h)])).
End Host.
