(* ===== verification/Rmi.v ===== *)
(** The RMI command wrappers of val_host_rmi.c.

    A wrapper issues one SMC and, when the command returns success, tells the
    granule tracker.  A value the C code writes through a pointer argument is
    returned next to the status. *)
From S2P Require Import Prelude Defs Alloc Granule Host.

(** [val_host_rtt_entry_ts] *)
Record val_host_rtt_entry_ts : Type := mk_rtte {
  walk_level : Z; rtte_state : Z; rtte_desc : Z; rtte_ripas : Z
}.

(** Offsets in [val_host_rec_run_ts]. *)
Definition RUN_ENTER_FLAGS : Z := 0x0.
Definition RUN_EXIT : Z := 0x800.
Definition RUN_EXIT_REASON : Z := RUN_EXIT.
Definition RUN_EXIT_IMM : Z := RUN_EXIT + 0x600.

Section Rmi.
Context {W : Type} `{RMM W}.

Definition val_host_rmi_version (req : Z) : M (host W) (Z * (Z * Z)) :=
  let* r := val_smc_call RMI_VERSION req 0 0 0 0 0 0 0 0 0 in
  ret (x0 r, (x1 r, x2 r)).

Definition val_host_rmi_features (index : Z) : M (host W) (Z * Z) :=
  let* r := val_smc_call RMI_FEATURES index 0 0 0 0 0 0 0 0 0 in
  ret (x0 r, x1 r).

Definition val_host_rmi_rec_aux_count (rd : Z) : M (host W) (Z * Z) :=
  let* r := val_smc_call RMI_REC_AUX_COUNT rd 0 0 0 0 0 0 0 0 0 in
  ret (x0 r, x1 r).

Definition val_host_rmi_data_create (rd data ipa src flags : Z) : M (host W) Z :=
  let* r := val_smc_call RMI_DATA_CREATE rd data ipa src flags 0 0 0 0 0 in
  if truthy (x0 r) then ret (x0 r)
  else tracker (val_host_update_granule_state rd GRANULE_DATA data ipa 0 0) ;; ret (x0 r).

Definition val_host_rmi_data_create_unknown (rd data ipa : Z) : M (host W) Z :=
  let* r := val_smc_call RMI_DATA_CREATE_UNKNOWN rd data ipa 0 0 0 0 0 0 0 in
  if truthy (x0 r) then ret (x0 r)
  else tracker (val_host_update_granule_state rd GRANULE_DATA data ipa 0 0) ;; ret (x0 r).

Definition val_host_rmi_granule_delegate (addr : Z) : M (host W) Z :=
  let* r := val_smc_call RMI_GRANULE_DELEGATE addr 0 0 0 0 0 0 0 0 0 in
  if truthy (x0 r) then ret (x0 r)
  else tracker (val_host_add_granule GRANULE_DELEGATED addr 0) ;; ret (x0 r).

Definition val_host_rmi_granule_undelegate (addr : Z) : M (host W) Z :=
  let* r := val_smc_call RMI_GRANULE_UNDELEGATE addr 0 0 0 0 0 0 0 0 0 in
  if truthy (x0 r) then ret (x0 r)
  else tracker (val_host_update_destroy_granule_state 0 addr 0 0 GRANULE_UNDELEGATED 0 0) ;; ret (x0 r).

Definition val_host_rmi_psci_complete (calling_rec target_rec status : Z) : M (host W) Z :=
  let* r := val_smc_call RMI_PSCI_COMPLETE calling_rec target_rec status 0 0 0 0 0 0 0 in
  ret (x0 r).

Definition val_host_rmi_realm_activate (rd : Z) : M (host W) Z :=
  let* r := val_smc_call RMI_REALM_ACTIVATE rd 0 0 0 0 0 0 0 0 0 in
  ret (x0 r).

Definition val_host_rmi_realm_create (rd params_ptr : Z) : M (host W) Z :=
  let* r := val_smc_call RMI_REALM_CREATE rd params_ptr 0 0 0 0 0 0 0 0 in
  if truthy (x0 r) then ret (x0 r)
  else tracker (val_host_update_granule_state rd GRANULE_RD rd 0 0 0) ;; ret (x0 r).

Definition val_host_rmi_realm_destroy (rd : Z) : M (host W) Z :=
  let* r := val_smc_call RMI_REALM_DESTROY rd 0 0 0 0 0 0 0 0 0 in
  if truthy (x0 r) then ret (x0 r)
  else tracker (val_host_update_destroy_granule_state rd rd 0 0 GRANULE_DELEGATED GRANULE_RD 0) ;; ret (x0 r).

Definition val_host_rmi_data_destroy (rd ipa : Z) : M (host W) (Z * (Z * Z)) :=
  let* r := val_smc_call RMI_DATA_DESTROY rd ipa 0 0 0 0 0 0 0 0 in
  if truthy (x0 r) then ret (x0 r, (x1 r, x2 r))
  else tracker (val_host_update_destroy_granule_state rd 0 ipa 0 GRANULE_DELEGATED GRANULE_DATA 0) ;; ret (x0 r, (x1 r, x2 r)).

Definition val_host_rmi_rec_create (rd rec params_ptr : Z) : M (host W) Z :=
  let* r := val_smc_call RMI_REC_CREATE rd rec params_ptr 0 0 0 0 0 0 0 in
  if truthy (x0 r) then ret (x0 r)
  else tracker (val_host_update_granule_state rd GRANULE_REC rec 0 0 0) ;; ret (x0 r).

Definition val_host_rmi_rec_destroy (rec : Z) : M (host W) Z :=
  let* r := val_smc_call RMI_REC_DESTROY rec 0 0 0 0 0 0 0 0 0 in
  if truthy (x0 r) then ret (x0 r)
  else tracker (val_host_update_destroy_granule_state 0 rec 0 0 GRANULE_DELEGATED GRANULE_REC 0) ;; ret (x0 r).

(** [val_host_realm_printf_msg_service] writes a message of the Realm to the
    console; it changes no state of the model.  A Realm may print without
    end, so the loop carries fuel. *)
Fixpoint val_host_rmi_rec_enter (fuel : nat) (rec run_ptr : Z) : M (host W) Z :=
  match fuel with
  | O => out_of_fuel
  | S fuel =>
      let* r := val_smc_call RMI_REC_ENTER rec run_ptr 0 0 0 0 0 0 0 0 in
      let* reason := load (run_ptr + RUN_EXIT_REASON) in
      let* imm := load (run_ptr + RUN_EXIT_IMM) in
      if negb (truthy (x0 r)) && (reason =? RMI_EXIT_HOST_CALL) && (imm =? VAL_REALM_PRINT_MSG)
      then
        store (run_ptr + RUN_ENTER_FLAGS) 0 ;;
        val_host_rmi_rec_enter fuel rec run_ptr
      else ret (x0 r)
  end.

Definition val_host_rmi_rtt_set_s2ap (rd rec base top : Z) : M (host W) val_smc_param_ts :=
  val_smc_call RMI_RTT_SET_S2AP rd rec base top 0 0 0 0 0 0.

Definition val_host_rmi_rtt_create (rd rtt ipa level : Z) : M (host W) Z :=
  let* r := val_smc_call RMI_RTT_CREATE rd rtt ipa level 0 0 0 0 0 0 in
  if truthy (x0 r) then ret (x0 r)
  else tracker (val_host_update_granule_state rd GRANULE_RTT rtt ipa level 0) ;; ret (x0 r).

Definition val_host_rmi_rtt_fold (rd ipa level rtt : Z) : M (host W) (Z * Z) :=
  let* r := val_smc_call RMI_RTT_FOLD rd ipa level 0 0 0 0 0 0 0 in
  if truthy (x0 r) then ret (x0 r, rtt)
  else
    tracker (val_host_update_destroy_granule_state rd 0 ipa level GRANULE_DELEGATED GRANULE_RTT 0) ;;
    ret (x0 r, x1 r).

Definition val_host_rmi_rtt_destroy (rd ipa level : Z) : M (host W) (Z * (Z * Z)) :=
  let* r := val_smc_call RMI_RTT_DESTROY rd ipa level 0 0 0 0 0 0 0 in
  if truthy (x0 r) then ret (x0 r, (x1 r, x2 r))
  else tracker (val_host_update_destroy_granule_state rd 0 ipa level GRANULE_DELEGATED GRANULE_RTT 0) ;; ret (x0 r, (x1 r, x2 r)).

Definition val_host_rmi_rtt_map_unprotected (rd ipa level desc : Z) : M (host W) Z :=
  let* r := val_smc_call RMI_RTT_MAP_UNPROTECTED rd ipa level desc 0 0 0 0 0 0 in
  if truthy (x0 r) then ret (x0 r)
  else tracker (val_host_update_granule_state rd GRANULE_UNPROTECTED ipa ipa level 0) ;; ret (x0 r).

Definition val_host_rmi_rtt_read_entry (rd ipa level : Z) : M (host W) (Z * val_host_rtt_entry_ts) :=
  let* r := val_smc_call RMI_RTT_READ_ENTRY rd ipa level 0 0 0 0 0 0 0 in
  ret (x0 r, mk_rtte (x1 r) (x2 r) (x3 r) (x4 r)).

Definition val_host_rmi_rtt_unmap_unprotected (rd ipa level : Z) : M (host W) (Z * Z) :=
  let* r := val_smc_call RMI_RTT_UNMAP_UNPROTECTED rd ipa level 0 0 0 0 0 0 0 in
  if truthy (x0 r) then ret (x0 r, x1 r)
  else tracker (val_host_update_destroy_granule_state rd ipa 0 0 GRANULE_UNPROTECTED GRANULE_UNPROTECTED 0) ;; ret (x0 r, x1 r).

Definition val_host_rmi_rtt_init_ripas (rd base top : Z) : M (host W) (Z * Z) :=
  let* r := val_smc_call RMI_RTT_INIT_RIPAS rd base top 0 0 0 0 0 0 0 in
  ret (x0 r, x1 r).

Definition val_host_rmi_rtt_set_ripas (rd rec base top : Z) : M (host W) (Z * Z) :=
  let* r := val_smc_call RMI_RTT_SET_RIPAS rd rec base top 0 0 0 0 0 0 in
  ret (x0 r, x1 r).

Definition val_host_rmi_rtt_aux_create (rd rtt ipa level index : Z) : M (host W) val_smc_param_ts :=
  let* r := val_smc_call RMI_RTT_AUX_CREATE rd rtt ipa level index 0 0 0 0 0 in
  if truthy (x0 r) then ret r
  else tracker (val_host_update_granule_state rd GRANULE_RTT_AUX rtt ipa level index) ;; ret r.

Definition val_host_rmi_rtt_aux_destroy (rd ipa level index : Z) : M (host W) val_smc_param_ts :=
  let* r := val_smc_call RMI_RTT_AUX_DESTROY rd ipa level index 0 0 0 0 0 0 in
  if truthy (x0 r) then ret r
  else tracker (val_host_update_destroy_granule_state rd 0 ipa level GRANULE_DELEGATED GRANULE_RTT_AUX index) ;; ret r.

Definition val_host_rmi_rtt_aux_fold (rd ipa level index : Z) : M (host W) val_smc_param_ts :=
  let* r := val_smc_call RMI_RTT_AUX_FOLD rd ipa level index 0 0 0 0 0 0 in
  if truthy (x0 r) then ret r
  else tracker (val_host_update_destroy_granule_state rd 0 ipa level GRANULE_DELEGATED GRANULE_RTT_AUX index) ;; ret r.

Definition val_host_rmi_rtt_aux_map_protected (rd ipa index : Z) : M (host W) val_smc_param_ts :=
  let* r := val_smc_call RMI_RTT_AUX_MAP_PROTECTED rd ipa index 0 0 0 0 0 0 0 in
  if truthy (x0 r) then ret r
  else tracker (val_host_update_aux_rtt_info GRANULE_DATA rd index ipa true) ;; ret r.

Definition val_host_rmi_rtt_aux_map_unprotected (rd ipa index : Z) : M (host W) val_smc_param_ts :=
  let* r := val_smc_call RMI_RTT_AUX_MAP_UNPROTECTED rd ipa index 0 0 0 0 0 0 0 in
  if truthy (x0 r) then ret r
  else tracker (val_host_update_aux_rtt_info GRANULE_UNPROTECTED rd index ipa true) ;; ret r.

Definition val_host_rmi_rtt_aux_unmap_protected (rd ipa index : Z) : M (host W) val_smc_param_ts :=
  let* r := val_smc_call RMI_RTT_AUX_UNMAP_PROTECTED rd ipa index 0 0 0 0 0 0 0 in
  if truthy (x0 r) then ret r
  else tracker (val_host_update_aux_rtt_info GRANULE_DATA rd index ipa false) ;; ret r.

Definition val_host_rmi_rtt_aux_unmap_unprotected (rd ipa index : Z) : M (host W) val_smc_param_ts :=
  let* r := val_smc_call RMI_RTT_AUX_UNMAP_UNPROTECTED rd ipa index 0 0 0 0 0 0 0 in
  if truthy (x0 r) then ret r
  else tracker (val_host_update_aux_rtt_info GRANULE_UNPROTECTED rd index ipa false) ;; ret r.

(** Device assignment and memory encryption contexts: the tracker is not involved. *)

Definition val_host_rmi_pdev_abort (pdev_ptr : Z) : M (host W) val_smc_param_ts :=
  val_smc_call RMI_PDEV_ABORT pdev_ptr 0 0 0 0 0 0 0 0 0.

Definition val_host_rmi_pdev_aux_count (value : Z) : M (host W) val_smc_param_ts :=
  val_smc_call RMI_PDEV_AUX_COUNT value 0 0 0 0 0 0 0 0 0.

Definition val_host_rmi_pdev_communicate (pdev_ptr data_ptr : Z) : M (host W) val_smc_param_ts :=
  val_smc_call RMI_PDEV_COMMUNICATE pdev_ptr data_ptr 0 0 0 0 0 0 0 0.

Definition val_host_rmi_pdev_create (pdev_ptr params_ptr : Z) : M (host W) val_smc_param_ts :=
  val_smc_call RMI_PDEV_CREATE pdev_ptr params_ptr 0 0 0 0 0 0 0 0.

Definition val_host_rmi_pdev_destroy (pdev_ptr : Z) : M (host W) val_smc_param_ts :=
  val_smc_call RMI_PDEV_DESTROY pdev_ptr 0 0 0 0 0 0 0 0 0.

Definition val_host_rmi_pdev_get_state (pdev_ptr : Z) : M (host W) val_smc_param_ts :=
  val_smc_call RMI_PDEV_GET_STATE pdev_ptr 0 0 0 0 0 0 0 0 0.

Definition val_host_rmi_pdev_ide_key_refresh (pdev_ptr coh : Z) : M (host W) val_smc_param_ts :=
  val_smc_call RMI_PDEV_IDE_KEY_REFRESH pdev_ptr coh 0 0 0 0 0 0 0 0.

Definition val_host_rmi_pdev_ide_reset (pdev_ptr : Z) : M (host W) val_smc_param_ts :=
  val_smc_call RMI_PDEV_IDE_RESET pdev_ptr 0 0 0 0 0 0 0 0 0.

Definition val_host_rmi_pdev_set_pubkey (pdev_ptr params_ptr : Z) : M (host W) val_smc_param_ts :=
  val_smc_call RMI_PDEV_SET_PUBKEY pdev_ptr params_ptr 0 0 0 0 0 0 0 0.

Definition val_host_rmi_pdev_stop (pdev_ptr : Z) : M (host W) val_smc_param_ts :=
  val_smc_call RMI_PDEV_STOP pdev_ptr 0 0 0 0 0 0 0 0 0.

Definition val_host_rmi_vdev_abort (vdev_ptr : Z) : M (host W) val_smc_param_ts :=
  val_smc_call RMI_VDEV_ABORT vdev_ptr 0 0 0 0 0 0 0 0 0.

Definition val_host_rmi_vdev_aux_count (pdev_flags vdev_flags : Z) : M (host W) val_smc_param_ts :=
  val_smc_call RMI_VDEV_AUX_COUNT pdev_flags vdev_flags 0 0 0 0 0 0 0 0.

Definition val_host_rmi_vdev_communicate (rd pdev_ptr vdev_ptr data_ptr : Z) : M (host W) val_smc_param_ts :=
  val_smc_call RMI_VDEV_COMMUNICATE rd pdev_ptr vdev_ptr data_ptr 0 0 0 0 0 0.

Definition val_host_rmi_vdev_complete (rec_ptr vdev_ptr : Z) : M (host W) val_smc_param_ts :=
  val_smc_call RMI_VDEV_COMPLETE rec_ptr vdev_ptr 0 0 0 0 0 0 0 0.

Definition val_host_rmi_vdev_create (rd pdev_ptr vdev_ptr params_ptr : Z) : M (host W) val_smc_param_ts :=
  val_smc_call RMI_VDEV_CREATE rd pdev_ptr vdev_ptr params_ptr 0 0 0 0 0 0.

Definition val_host_rmi_vdev_destroy (rd pdev_ptr vdev_ptr : Z) : M (host W) val_smc_param_ts :=
  val_smc_call RMI_VDEV_DESTROY rd pdev_ptr vdev_ptr 0 0 0 0 0 0 0.

Definition val_host_rmi_vdev_get_interface_report (rd pdev_ptr vdev_ptr : Z) : M (host W) val_smc_param_ts :=
  val_smc_call RMI_VDEV_GET_INTERFACE_REPORT rd pdev_ptr vdev_ptr 0 0 0 0 0 0 0.

Definition val_host_rmi_vdev_get_measurements (rd pdev_ptr vdev_ptr params_ptr : Z) : M (host W) val_smc_param_ts :=
  val_smc_call RMI_VDEV_GET_MEASUREMENTS rd pdev_ptr vdev_ptr params_ptr 0 0 0 0 0 0.

Definition val_host_rmi_vdev_get_state (vdev_ptr : Z) : M (host W) val_smc_param_ts :=
  val_smc_call RMI_VDEV_GET_STATE vdev_ptr 0 0 0 0 0 0 0 0 0.

Definition val_host_rmi_vdev_lock (rd pdev_ptr vdev_ptr : Z) : M (host W) val_smc_param_ts :=
  val_smc_call RMI_VDEV_LOCK rd pdev_ptr vdev_ptr 0 0 0 0 0 0 0.

Definition val_host_rmi_vdev_map (rd vdev_ptr ipa level addr : Z) : M (host W) val_smc_param_ts :=
  val_smc_call RMI_VDEV_MAP rd vdev_ptr ipa level addr 0 0 0 0 0.

Definition val_host_rmi_vdev_start (rd pdev_ptr vdev_ptr : Z) : M (host W) val_smc_param_ts :=
  val_smc_call RMI_VDEV_START rd pdev_ptr vdev_ptr 0 0 0 0 0 0 0.

Definition val_host_rmi_vdev_unlock (rd pdev_ptr vdev_ptr : Z) : M (host W) val_smc_param_ts :=
  val_smc_call RMI_VDEV_UNLOCK rd pdev_ptr vdev_ptr 0 0 0 0 0 0 0.

Definition val_host_rmi_vdev_unmap (rd ipa level : Z) : M (host W) val_smc_param_ts :=
  val_smc_call RMI_VDEV_UNMAP rd ipa level 0 0 0 0 0 0 0.

Definition val_host_rmi_vdev_validate_mapping (rd rec_ptr pdev_ptr vdev_ptr base top : Z) : M (host W) val_smc_param_ts :=
  val_smc_call RMI_VDEV_VALIDATE_MAPPING rd rec_ptr pdev_ptr vdev_ptr base top 0 0 0 0.

Definition val_host_rmi_mec_set_private (mecid : Z) : M (host W) val_smc_param_ts :=
  val_smc_call RMI_MEC_SET_PRIVATE mecid 0 0 0 0 0 0 0 0 0.

Definition val_host_rmi_mec_set_shared (mecid : Z) : M (host W) val_smc_param_ts :=
  val_smc_call RMI_MEC_SET_SHARED mecid 0 0 0 0 0 0 0 0 0.

End Rmi.
