(* ===== verification/RealmMap.v ===== *)
(** Building the stage 2 translation of a Realm, val_host_realm.c lines 40-640,
    794-1090 and 1426-1570, the helpers of val_host_command.c, and
    [val_host_addr_align_to_level] of val_host_rmi_helpers.c.

    A [goto error] is a call of the function that stands for the code at the
    label.  A [while] loop over pages carries as fuel one more than the number
    of its iterations, which the callers compute from the size they pass.  The
    loop of [val_host_ripas_init] has no bound in the source, it ends when the
    RMM says so, and its fuel is an argument. *)
From S2P Require Import Prelude Defs Alloc Granule Host Rmi.

(** Page table attributes (val_mmu.h). *)
Definition ATTR_NORMAL_WB : Z := Z.shiftl 3 3.
Definition ATTR_STAGE2_AP_RW : Z := Z.shiftl 3 6.
Definition ATTR_PI_INDEX_0_SHIFT : Z := 6.
Definition ATTR_PI_INDEX_1_SHIFT : Z := 51.
Definition ATTR_PI_INDEX_2_SHIFT : Z := 53.
Definition ATTR_PI_INDEX_3_SHIFT : Z := 54.

Definition val_pi_index_to_desc (pi_index : Z) : Z :=
  Z.lor (Z.lor (Z.lor
    (Z.shiftl (Z.land pi_index 1) ATTR_PI_INDEX_0_SHIFT)
    (Z.shiftl (Z.land (Z.shiftr pi_index 1) 1) ATTR_PI_INDEX_1_SHIFT))
    (Z.shiftl (Z.land (Z.shiftr pi_index 2) 1) ATTR_PI_INDEX_2_SHIFT))
    (Z.shiftl (Z.land (Z.shiftr pi_index 3) 1) ATTR_PI_INDEX_3_SHIFT).

Definition val_host_rtt_level_mapsize (rtt_level : Z) : Z :=
  if VAL_RTT_MAX_LEVEL <? rtt_level then PAGE_SIZE
  else u64 (Z.shiftl 1 (VAL_RTT_LEVEL_SHIFT rtt_level)).

(** The shift amounts are those of the AArch64 shift instructions, taken
    modulo 64, when the level makes them leave the range 0..63. *)
Definition val_host_addr_align_to_level (addr level : Z) : Z :=
  let levels := u64 (VAL_RTT_MAX_LEVEL - level) in
  let lsb := u64 (u64 (levels * S2TTE_STRIDE) + GRANULE_SHIFT) in
  let msb := IPA_WIDTH_DEFAULT - 1 in
  Z.land addr (VAL_BIT_MASK_ULL msb (lsb mod 64)).

(** [map_level] of the mapping functions, [None] for an unknown size. *)
Definition map_level_of (rtt_map_size : Z) : option Z :=
  if rtt_map_size =? PAGE_SIZE then Some 3
  else if rtt_map_size =? VAL_RTT_L2_BLOCK_SIZE then Some 2
  else None.

(** Fuel of a loop over the pages of a region. *)
Definition pages (size : Z) : nat := S (Z.to_nat (size / PAGE_SIZE)).

Section RealmMap.
Context {W : Type} `{RMM W}.

(** * Feature queries (val_host_realm.c 2605-2690) *)

Definition val_host_rmm_supports_planes : M (host W) bool :=
  let* (_, featreg0) := val_host_rmi_features 0 in
  ret (0 <? VAL_EXTRACT_BITS featreg0 45 48).

Definition val_host_rmm_supports_mec : M (host W) bool :=
  let* (_, featreg1) := val_host_rmi_features 1 in
  ret (0 <? featreg1).

Definition val_host_rmm_supports_rtt_tree_single : M (host W) bool :=
  let* (_, featreg0) := val_host_rmi_features 0 in
  let rtt_tree_single := VAL_EXTRACT_BITS featreg0 43 44 in
  ret ((rtt_tree_single =? RMI_PLANE_RTT_SINGLE) || (rtt_tree_single =? RMI_PLANE_RTT_AUX_SINGLE)).

Definition val_host_rmm_supports_rtt_tree_per_plane : M (host W) bool :=
  let* (_, featreg0) := val_host_rmi_features 0 in
  let rtt_tree_single := VAL_EXTRACT_BITS featreg0 43 44 in
  ret ((rtt_tree_single =? RMI_PLANE_RTT_AUX) || (rtt_tree_single =? RMI_PLANE_RTT_AUX_SINGLE)).

Definition val_host_rmm_supports_da : M (host W) bool :=
  let* (_, featreg0) := val_host_rmi_features 0 in
  ret (VAL_EXTRACT_BITS featreg0 42 42 =? 1).

(** * Translation table levels *)

(** [for (; rtt_level++ < rtt_max_level;)]: the body sees the level after the
    increment. *)
Fixpoint create_rtt_levels_loop (fuel : nat) (rd ipa rtt_level rtt_max_level rtt_alignment : Z) :
    M (host W) Z :=
  match fuel with
  | O => out_of_fuel
  | S fuel =>
      if rtt_level <? rtt_max_level then
        let rtt_level := u64 (rtt_level + 1) in
        let* rtt := mem_alloc_h rtt_alignment PAGE_SIZE in
        if rtt =? 0 then ret VAL_ERROR
        else
          let* ret1 := val_host_rmi_granule_delegate rtt in
          if truthy ret1 then ret VAL_ERROR
          else
            let rtt_ipa := ADDR_ALIGN_DOWN ipa (val_host_rtt_level_mapsize (u64 (rtt_level - 1))) in
            let* ret2 := val_host_rmi_rtt_create rd rtt rtt_ipa rtt_level in
            if truthy ret2 then
              val_host_rmi_granule_undelegate rtt ;;
              mem_free_h rtt ;;
              ret VAL_ERROR
            else create_rtt_levels_loop fuel rd ipa rtt_level rtt_max_level rtt_alignment
      else ret VAL_SUCCESS
  end.

Definition val_host_create_rtt_levels (ipa rtt_level rtt_max_level rtt_alignment : Z) : M (host W) Z :=
  if rtt_max_level <? rtt_level then ret VAL_ERROR
  else
    let* rd := realm r_rd in
    create_rtt_levels_loop (S (Z.to_nat (rtt_max_level - rtt_level))) rd ipa rtt_level
      rtt_max_level rtt_alignment.

Fixpoint create_aux_rtt_levels_loop (fuel : nat)
    (rd ipa rtt_level rtt_max_level rtt_alignment index : Z) : M (host W) Z :=
  match fuel with
  | O => out_of_fuel
  | S fuel =>
      if rtt_level <? rtt_max_level then
        let rtt_level := u64 (rtt_level + 1) in
        let* rtt := mem_alloc_h rtt_alignment PAGE_SIZE in
        if rtt =? 0 then ret VAL_ERROR
        else
          let* ret1 := val_host_rmi_granule_delegate rtt in
          if truthy ret1 then ret VAL_ERROR
          else
            let rtt_ipa := ADDR_ALIGN_DOWN ipa (val_host_rtt_level_mapsize (u64 (rtt_level - 1))) in
            let* cmd_ret := val_host_rmi_rtt_aux_create rd rtt rtt_ipa rtt_level index in
            if truthy (x0 cmd_ret) then
              val_host_rmi_granule_undelegate rtt ;;
              mem_free_h rtt ;;
              ret VAL_ERROR
            else create_aux_rtt_levels_loop fuel rd ipa rtt_level rtt_max_level rtt_alignment index
      else ret VAL_SUCCESS
  end.

Definition val_host_create_aux_rtt_levels (ipa rtt_level rtt_max_level rtt_alignment index : Z) :
    M (host W) Z :=
  if rtt_max_level <? rtt_level then ret VAL_ERROR
  else
    let* rd := realm r_rd in
    create_aux_rtt_levels_loop (S (Z.to_nat (rtt_max_level - rtt_level))) rd ipa rtt_level
      rtt_max_level rtt_alignment index.

(** * Protected memory *)

(** What the loops of the mapping functions do when a command reports a
    missing table.  [Retry r] is the value of [ret] after the retry. *)
Inductive walk_result : Type :=
  | WalkError          (* RTT_READ_ENTRY failed: return VAL_ERROR *)
  | LevelsError        (* the levels could not be created: goto error *)
  | Done (r : Z).      (* go on with this status *)

(** The block [if (RMI_STATUS(ret) == RMI_ERROR_RTT) { ... }]: read the entry the
    walk stopped at, create the missing levels, and issue [cmd] again. *)
Definition rtt_retry (ret1 ipa map_level rtt_alignment : Z) (start : Z → Z → Z)
    (cmd : M (host W) Z) : M (host W) walk_result :=
  if RMI_STATUS ret1 =? RMI_ERROR_RTT then
    let rtt_level := RMI_INDEX ret1 in
    let* rd := realm r_rd in
    let* (ret2, rtte) :=
      val_host_rmi_rtt_read_entry rd (val_host_addr_align_to_level ipa rtt_level) rtt_level in
    if truthy ret2 then ret WalkError
    else if rtte_state rtte =? RMI_UNASSIGNED then
      let* ret3 :=
        val_host_create_rtt_levels ipa (start rtt_level (walk_level rtte)) map_level rtt_alignment in
      if truthy ret3 then ret LevelsError
      else let* r := cmd in ret (Done r)
    else ret (Done ret2)
  else ret (Done ret1).

(** The label [error] of the functions that map protected memory. *)
Fixpoint map_rollback (fuel : nat) (rd phys ipa size : Z) : M (host W) Z :=
  match fuel with
  | O => out_of_fuel
  | S fuel =>
      if 0 <? size then
        val_host_rmi_data_destroy rd ipa ;;
        val_host_rmi_granule_undelegate phys ;;
        map_rollback fuel rd (u64 (phys - PAGE_SIZE)) (u64 (ipa - PAGE_SIZE)) (u64 (size - PAGE_SIZE))
      else ret VAL_ERROR
  end.

Fixpoint map_protected_loop (fuel : nat) (rd phys ipa src_pa size rtt_map_size map_level : Z) :
    M (host W) Z :=
  match fuel with
  | O => out_of_fuel
  | S fuel =>
      if size <? rtt_map_size then
        let* ret0 := val_host_rmi_granule_delegate phys in
        if truthy ret0 then ret VAL_ERROR
        else
          let* ret1 := val_host_rmi_data_create rd phys ipa src_pa RMI_NO_MEASURE_CONTENT in
          let* w := rtt_retry ret1 ipa map_level PAGE_SIZE (λ _ wl, u32 wl)
                      (val_host_rmi_data_create rd phys ipa src_pa RMI_NO_MEASURE_CONTENT) in
          match w with
          | WalkError => ret VAL_ERROR
          | LevelsError => map_rollback (pages size) rd phys ipa size
          | Done r =>
              if truthy r then map_rollback (pages size) rd phys ipa size
              else
                map_protected_loop fuel rd (u64 (phys + PAGE_SIZE)) (u64 (ipa + PAGE_SIZE))
                  (u64 (src_pa + PAGE_SIZE)) (u64 (size + PAGE_SIZE)) rtt_map_size map_level
          end
      else ret VAL_SUCCESS
  end.

Definition val_host_map_protected_data (target_pa ipa rtt_map_size src_pa : Z) : M (host W) Z :=
  let* rd := realm r_rd in
  if negb (ADDR_IS_ALIGNED ipa rtt_map_size) then ret VAL_ERROR
  else
    match map_level_of rtt_map_size with
    | None => ret VAL_ERROR
    | Some map_level =>
        map_protected_loop (pages rtt_map_size) rd target_pa ipa src_pa 0 rtt_map_size map_level
    end.

Fixpoint map_protected_unknown_loop (fuel : nat) (rd phys ipa size rtt_map_size map_level : Z) :
    M (host W) Z :=
  match fuel with
  | O => out_of_fuel
  | S fuel =>
      if size <? rtt_map_size then
        let* ret0 := val_host_rmi_granule_delegate phys in
        if truthy ret0 then ret VAL_ERROR
        else
          let* ret1 := val_host_rmi_data_create_unknown rd phys ipa in
          let* w := rtt_retry ret1 ipa map_level PAGE_SIZE (λ _ wl, u32 wl)
                      (val_host_rmi_data_create_unknown rd phys ipa) in
          match w with
          | WalkError => ret VAL_ERROR
          | LevelsError => map_rollback (pages size) rd phys ipa size
          | Done r =>
              if truthy r then map_rollback (pages size) rd phys ipa size
              else
                map_protected_unknown_loop fuel rd (u64 (phys + PAGE_SIZE)) (u64 (ipa + PAGE_SIZE))
                  (u64 (size + PAGE_SIZE)) rtt_map_size map_level
          end
      else ret VAL_SUCCESS
  end.

Definition val_host_map_protected_data_unknown (target_pa ipa rtt_map_size : Z) : M (host W) Z :=
  let* rd := realm r_rd in
  if negb (ADDR_IS_ALIGNED ipa rtt_map_size) then ret VAL_ERROR
  else
    match map_level_of rtt_map_size with
    | None => ret VAL_ERROR
    | Some map_level =>
        map_protected_unknown_loop (pages rtt_map_size) rd target_pa ipa 0 rtt_map_size map_level
    end.

(** The label [error] of [val_host_aux_map_protected_data]. *)
Fixpoint aux_map_rollback (fuel : nat) (rd ipa index size : Z) : M (host W) Z :=
  match fuel with
  | O => out_of_fuel
  | S fuel =>
      if 0 <? size then
        val_host_rmi_rtt_aux_unmap_protected rd ipa index ;;
        aux_map_rollback fuel rd (u64 (ipa - PAGE_SIZE)) index (u64 (size - PAGE_SIZE))
      else ret VAL_ERROR
  end.

Fixpoint aux_map_protected_loop (fuel : nat) (rd ipa index size map_level : Z) : M (host W) Z :=
  match fuel with
  | O => out_of_fuel
  | S fuel =>
      if size <? PAGE_SIZE then
        let* cmd_ret := val_host_rmi_rtt_aux_map_protected rd ipa index in
        let* cmd_ret' :=
          (if RMI_STATUS (x0 cmd_ret) =? RMI_ERROR_RTT_AUX then
             let* ret1 :=
               val_host_create_aux_rtt_levels ipa (RMI_INDEX (x0 cmd_ret)) map_level PAGE_SIZE index in
             if truthy ret1 then ret None
             else let* r := val_host_rmi_rtt_aux_map_protected rd ipa index in ret (Some r)
           else ret (Some cmd_ret)) in
        match cmd_ret' with
        | None => aux_map_rollback (pages size) rd ipa index size
        | Some r =>
            if truthy (x0 r) then aux_map_rollback (pages size) rd ipa index size
            else
              aux_map_protected_loop fuel rd (u64 (ipa + PAGE_SIZE)) index (u64 (size + PAGE_SIZE))
                map_level
        end
      else ret VAL_SUCCESS
  end.

Definition val_host_aux_map_protected_data (ipa index : Z) : M (host W) Z :=
  let* rd := realm r_rd in
  if negb (ADDR_IS_ALIGNED ipa PAGE_SIZE) then ret VAL_ERROR
  else aux_map_protected_loop (pages PAGE_SIZE) rd ipa index 0 3.

(** * Unprotected memory *)

(** From the alignment test to the end of [val_host_map_unprotected] and
    [val_host_map_unprotected_attr], which differ in the level they pass to
    [val_host_create_rtt_levels]. *)
Definition map_unprotected_with (start : Z → Z → Z) (mem_desc ipa rtt_map_size rtt_alignment : Z) :
    M (host W) Z :=
  let* rd := realm r_rd in
  if negb (ADDR_IS_ALIGNED ipa rtt_map_size) then ret VAL_ERROR
  else
    match map_level_of rtt_map_size with
    | None => ret VAL_ERROR
    | Some map_level =>
        let* ret1 := val_host_rmi_rtt_map_unprotected rd ipa map_level mem_desc in
        let* w := rtt_retry ret1 ipa map_level rtt_alignment start
                    (val_host_rmi_rtt_map_unprotected rd ipa map_level mem_desc) in
        match w with
        | Done r => if truthy r then ret VAL_ERROR else ret VAL_SUCCESS
        | _ => ret VAL_ERROR
        end
    end.

Definition val_host_map_unprotected (ns_pa ipa rtt_map_size rtt_alignment : Z) : M (host W) Z :=
  let mem_desc := Z.lor ns_pa ATTR_NORMAL_WB in
  let* flags1 := realm r_flags1 in
  let rtt_tree_pp := VAL_EXTRACT_BITS flags1 0 0 in
  let* single :=
    (if negb (truthy rtt_tree_pp) then
       let* b := val_host_rmm_supports_rtt_tree_single in
       let* planes := realm r_num_aux_planes in
       ret (b && (0 <? planes))
     else ret false) in
  let mem_desc :=
    if single then Z.lor mem_desc (val_pi_index_to_desc RMI_UNPROTECTED_S2AP_RW)
    else Z.lor mem_desc ATTR_STAGE2_AP_RW in
  map_unprotected_with (λ _ wl, wl) mem_desc ipa rtt_map_size rtt_alignment.

Definition val_host_map_unprotected_attr (ns_pa ipa rtt_map_size rtt_alignment mem_attr : Z) :
    M (host W) Z :=
  map_unprotected_with (λ rtt_level _, rtt_level) (Z.lor ns_pa mem_attr) ipa rtt_map_size rtt_alignment.

Definition val_host_aux_map_unprotected (ipa rtt_map_size rtt_alignment index : Z) : M (host W) Z :=
  let* rd := realm r_rd in
  if negb (ADDR_IS_ALIGNED ipa rtt_map_size) then ret VAL_ERROR
  else
    match map_level_of rtt_map_size with
    | None => ret VAL_ERROR
    | Some map_level =>
        let* cmd_ret := val_host_rmi_rtt_aux_map_unprotected rd ipa index in
        if RMI_STATUS (x0 cmd_ret) =? RMI_ERROR_RTT_AUX then
          let* ret1 :=
            val_host_create_aux_rtt_levels ipa (RMI_INDEX (x0 cmd_ret)) map_level rtt_alignment index in
          if truthy ret1 then ret VAL_ERROR
          else
            let* cmd_ret := val_host_rmi_rtt_aux_map_unprotected rd ipa index in
            if truthy (x0 cmd_ret) then ret VAL_ERROR else ret VAL_SUCCESS
        else if truthy (x0 cmd_ret) then ret VAL_ERROR
        else ret VAL_SUCCESS
    end.

(** * RIPAS *)

(** [continue] jumps to the test of the loop, [out_top != top]. *)
Fixpoint val_host_ripas_init (fuel : nat) (base top rtt_level rtt_alignment : Z) : M (host W) Z :=
  match fuel with
  | O => out_of_fuel
  | S fuel =>
      let* rd := realm r_rd in
      let* (ret1, out_top) := val_host_rmi_rtt_init_ripas rd base top in
      let again :=
        if out_top =? top then ret VAL_SUCCESS
        else val_host_ripas_init fuel base top rtt_level rtt_alignment in
      let rtt_level1 := RMI_INDEX ret1 in
      if (RMI_STATUS ret1 =? RMI_ERROR_RTT) && (rtt_level1 <? VAL_RTT_MAX_LEVEL) then
        let* (ret2, rtte) :=
          val_host_rmi_rtt_read_entry rd (val_host_addr_align_to_level base rtt_level1) rtt_level1 in
        if truthy ret2 then ret VAL_ERROR
        else if rtte_state rtte =? RMI_UNASSIGNED then
          let* ret3 := val_host_create_rtt_levels base (walk_level rtte) rtt_level rtt_alignment in
          if truthy ret3 then ret VAL_ERROR else again
        else ret VAL_ERROR
      else if truthy ret1 then ret VAL_ERROR
      else again
  end.

(** * Device memory *)

Fixpoint dev_mem_rollback (fuel : nat) (rd phys ipa size map_level : Z) : M (host W) Z :=
  match fuel with
  | O => out_of_fuel
  | S fuel =>
      if 0 <? size then
        val_host_rmi_vdev_unmap rd ipa map_level ;;
        val_host_rmi_granule_undelegate phys ;;
        dev_mem_rollback fuel rd (u64 (phys - PAGE_SIZE)) (u64 (ipa - PAGE_SIZE))
          (u64 (size - PAGE_SIZE)) map_level
      else ret VAL_ERROR
  end.

(** Here [ret] of the table walk and [args.x0] of the command are different
    variables, so an entry that is not UNASSIGNED leaves the failure in place. *)
Fixpoint map_dev_mem_loop (fuel : nat) (rd vdev phys ipa size rtt_map_size map_level : Z) :
    M (host W) Z :=
  match fuel with
  | O => out_of_fuel
  | S fuel =>
      if size <? rtt_map_size then
        let* ret0 := val_host_rmi_granule_delegate phys in
        if truthy ret0 then ret VAL_ERROR
        else
          let* args := val_host_rmi_vdev_map rd vdev ipa map_level phys in
          let* w :=
            (if RMI_STATUS (x0 args) =? RMI_ERROR_RTT then
               let rtt_level := RMI_INDEX (x0 args) in
               let* (ret1, rtte) := val_host_rmi_rtt_read_entry rd
                 (val_host_addr_align_to_level ipa rtt_level) rtt_level in
               if truthy ret1 then ret WalkError
               else if rtte_state rtte =? RMI_UNASSIGNED then
                 let* ret2 :=
                   val_host_create_rtt_levels ipa (u32 (walk_level rtte)) map_level PAGE_SIZE in
                 if truthy ret2 then ret LevelsError
                 else let* args := val_host_rmi_vdev_map rd vdev ipa map_level phys in ret (Done (x0 args))
               else ret (Done (x0 args))
             else ret (Done (x0 args))) in
          match w with
          | WalkError => ret VAL_ERROR
          | LevelsError => dev_mem_rollback (pages size) rd phys ipa size map_level
          | Done r =>
              if truthy r then dev_mem_rollback (pages size) rd phys ipa size map_level
              else
                map_dev_mem_loop fuel rd vdev (u64 (phys + PAGE_SIZE)) (u64 (ipa + PAGE_SIZE))
                  (u64 (size + PAGE_SIZE)) rtt_map_size map_level
          end
      else ret VAL_SUCCESS
  end.

Definition val_host_map_protected_dev_mem (vdev target_pa ipa rtt_map_size : Z) : M (host W) Z :=
  let* rd := realm r_rd in
  if negb (ADDR_IS_ALIGNED ipa rtt_map_size) then ret VAL_ERROR
  else
    match map_level_of rtt_map_size with
    | None => ret VAL_ERROR
    | Some map_level =>
        map_dev_mem_loop (pages rtt_map_size) rd vdev target_pa ipa 0 rtt_map_size map_level
    end.

(** * Mappings of single pages (val_host_command.c) *)

Definition val_host_delegate_granule : M (host W) Z :=
  let* gran := mem_alloc_h PAGE_SIZE PAGE_SIZE in
  if gran =? 0 then ret VAL_ERROR
  else
    let* r := val_host_rmi_granule_delegate gran in
    if truthy r then ret VAL_ERROR else ret gran.

Definition val_host_undelegate_granule : M (host W) Z :=
  let* gran := mem_alloc_h PAGE_SIZE PAGE_SIZE in
  if gran =? 0 then ret VAL_ERROR else ret gran.

Definition L3_SIZE : Z := PAGE_SIZE.
Definition L2_SIZE : Z := 512 * L3_SIZE.
Definition L1_SIZE : Z := 512 * L2_SIZE.
Definition L0_SIZE : Z := 512 * L1_SIZE.

(** One block [if (level < n) { ... }] of [create_mapping]: a table at level [n],
    whose parent entry maps [size] bytes.  [false] is a return of VAL_ERROR. *)
Definition create_level (rd ipa level n size : Z) : M (host W) bool :=
  if level <? n then
    let* rtt := val_host_delegate_granule in
    if rtt =? VAL_ERROR then ret false
    else
      let* r := val_host_rmi_rtt_create rd rtt (ipa / size * size) n in
      ret (negb (truthy r))
  else ret true.

Definition create_mapping (ipa : Z) (ripas_init : bool) (rd : Z) : M (host W) Z :=
  let* (r, rtte) := val_host_rmi_rtt_read_entry rd ipa 3 in
  if truthy r then ret VAL_ERROR
  else
    let level := walk_level rtte in
    let* ok := create_level rd ipa level 1 L0_SIZE in
    if negb ok then ret VAL_ERROR
    else
      let* ok := create_level rd ipa level 2 L1_SIZE in
      if negb ok then ret VAL_ERROR
      else
        let* ok := create_level rd ipa level 3 L2_SIZE in
        if negb ok then ret VAL_ERROR
        else if ripas_init then
          let ipa_aligned := ipa / L3_SIZE * L3_SIZE in
          let* (r, _) := val_host_rmi_rtt_init_ripas rd ipa_aligned (u64 (ipa_aligned + PAGE_SIZE)) in
          if truthy r then ret VAL_ERROR else ret VAL_SUCCESS
        else ret VAL_SUCCESS.

(** [while (level <= VAL_RTT_MAX_LEVEL)] *)
Fixpoint create_aux_mapping_loop (fuel : nat) (rd ipa index rtt level x0_prev : Z) : M (host W) Z :=
  match fuel with
  | O => out_of_fuel
  | S fuel =>
      if level <=? VAL_RTT_MAX_LEVEL then
        let* rtt := (if x0_prev =? 0 then val_host_delegate_granule else ret rtt) in
        if (x0_prev =? 0) && (rtt =? VAL_ERROR) then ret VAL_ERROR
        else
          let rtt_ipa := ADDR_ALIGN_DOWN ipa (val_host_rtt_level_mapsize (u64 (level - 1))) in
          let* cmd_ret := val_host_rmi_rtt_aux_create rd rtt rtt_ipa level index in
          if truthy (x0 cmd_ret) then ret VAL_ERROR
          else create_aux_mapping_loop fuel rd ipa index rtt (u64 (level + 1)) (x0 cmd_ret)
      else ret VAL_SUCCESS
  end.

Definition val_host_create_aux_mapping (rd ipa index : Z) : M (host W) Z :=
  let* rtt := val_host_delegate_granule in
  if rtt =? VAL_ERROR then ret VAL_ERROR
  else
    let rtt_ipa := ADDR_ALIGN_DOWN ipa (val_host_rtt_level_mapsize (VAL_RTT_MAX_LEVEL - 1)) in
    let* cmd_ret := val_host_rmi_rtt_aux_create rd rtt rtt_ipa VAL_RTT_MAX_LEVEL index in
    if RMI_STATUS (x0 cmd_ret) =? 0 then ret VAL_SUCCESS
    else if RMI_STATUS (x0 cmd_ret) =? RMI_ERROR_INPUT then ret VAL_ERROR
    else
      let level := RMI_INDEX (x0 cmd_ret) + 1 in
      if level =? VAL_RTT_MAX_LEVEL then ret VAL_SUCCESS
      else create_aux_mapping_loop (S (Z.to_nat (4 - level))) rd ipa index rtt level (x0 cmd_ret).
End RealmMap.
