(* ===== verification/RealmLife.v ===== *)
(** The life of a Realm, val_host_realm.c: creation, RECs, images and shared
    region, activation ([val_host_realm_setup]), and destruction
    ([val_host_realm_destroy], [val_host_postamble]).

    Each label of [val_host_realm_create] and [val_host_rec_create] is a
    definition, and falling from one label into the next is a call.  The loops
    that walk a list of the tracker while the commands they issue unlink its
    descriptors save the link first, as the source does. *)
From S2P Require Import Prelude Defs Alloc Granule Host Rmi RealmMap.

(** Offsets in [val_host_realm_params_ts]. *)
Definition RP_flags : Z := 0x0.
Definition RP_s2sz : Z := 0x8.
Definition RP_num_bps : Z := 0x18.
Definition RP_num_wps : Z := 0x20.
Definition RP_pmu_num_ctrs : Z := 0x28.
Definition RP_hash_algo : Z := 0x30.
Definition RP_num_aux_planes : Z := 0x38.
Definition RP_rpv : Z := 0x400.
Definition RP_vmid : Z := 0x800.
Definition RP_rtt_base : Z := 0x808.
Definition RP_rtt_level_start : Z := 0x810.
Definition RP_rtt_num_start : Z := 0x818.
Definition RP_flags1 : Z := 0x820.
Definition RP_mecid : Z := 0x828.
Definition RP_aux_vmid (i : Z) : Z := 0xF00 + 2 * i.
Definition RP_aux_rtt_base (i : Z) : Z := 0xF80 + 8 * i.

(** Offsets in [val_host_rec_params_ts]. *)
Definition CP_flags : Z := 0x0.
Definition CP_mpidr : Z := 0x100.
Definition CP_pc : Z := 0x200.
Definition CP_gprs (i : Z) : Z := 0x300 + 8 * i.
Definition CP_num_aux : Z := 0x800.
Definition CP_aux (i : Z) : Z := 0x808 + 8 * i.
Definition REC_CREATE_NR_GPRS : Z := 8.

Definition aux_ipa_base : list Z :=
  [VAL_PLANE1_IMAGE_BASE_IPA; VAL_PLANE2_IMAGE_BASE_IPA; VAL_RESERVED].

Section RealmLife.
Context {W : Type} `{RMM W}.

(** * Creating a Realm *)

(** [VAL_EXTRACT_BITS(realm->flags1, 0, 0) && realm->num_aux_planes > 0] *)
Definition rtt_per_plane : M (host W) bool :=
  let* flags1 := realm r_flags1 in
  let* planes := realm r_num_aux_planes in
  ret (truthy (VAL_EXTRACT_BITS flags1 0 0) && (0 <? planes)).

(** Labels of [val_host_realm_create], last first. *)
Definition free_par : M (host W) Z :=
  let* base := realm r_image_pa_base in
  mem_free_h base ;;
  let* planes := realm r_num_aux_planes in
  for_upto (R := Empty_set) planes (λ i,
    let* a := arr_get r_aux_image_pa_base i in
    mem_free_h a ;; ret None) ;;
  ret VAL_ERROR.

Definition free_rd : M (host W) Z :=
  let* rd := realm r_rd in
  mem_free_h rd ;;
  free_par.

Definition undelegate_rd : M (host W) Z :=
  let* rd := realm r_rd in
  val_host_rmi_granule_undelegate rd ;;
  free_rd.

Definition free_rtt : M (host W) Z :=
  let* rtt := realm r_rtt_l0_addr in
  mem_free_h rtt ;;
  let* pp := rtt_per_plane in
  (if pp then
     let* planes := realm r_num_aux_planes in
     for_upto (R := Empty_set) planes (λ i,
       let* a := arr_get r_rtt_aux_l0_addr i in
       mem_free_h a ;; ret None) ;;
     ret tt
   else ret tt) ;;
  undelegate_rd.

Definition undelegate_rtt : M (host W) Z :=
  let* rtt := realm r_rtt_l0_addr in
  val_host_rmi_granule_undelegate rtt ;;
  let* pp := rtt_per_plane in
  (if pp then
     let* planes := realm r_num_aux_planes in
     for_upto (R := Empty_set) planes (λ i,
       let* a := arr_get r_rtt_aux_l0_addr i in
       val_host_rmi_granule_undelegate a ;; ret None) ;;
     ret tt
   else ret tt) ;;
  free_rtt.

Definition free_params (params : Z) : M (host W) Z :=
  mem_free_h params ;;
  undelegate_rtt.

(** Populating [params]. *)
Definition populate_params (params : Z) : M (host W) unit :=
  let* r := realm (λ r, r) in
  store (params + RP_flags) (r_flags r) ;;
  store (params + RP_flags1) (r_flags1 r) ;;
  store (params + RP_pmu_num_ctrs) (r_pmu_num_ctrs r) ;;
  store (params + RP_s2sz) (r_s2sz r) ;;
  store (params + RP_rtt_base) (r_rtt_l0_addr r) ;;
  store (params + RP_hash_algo) (r_hash_algo r) ;;
  store (params + RP_rtt_level_start) (r_s2_starting_level r) ;;
  store (params + RP_rtt_num_start) (r_num_s2_sl_rtts r) ;;
  store (params + RP_vmid) (r_vmid r) ;;
  for_upto (R := Empty_set) (r_num_aux_planes r) (λ i,
    (if i <? Z.of_nat VAL_MAX_AUX_PLANES
     then store (params + RP_aux_vmid i) (u16 (r_vmid r + i + 1)) else fail OutOfBounds) ;;
    ret None) ;;
  store (params + RP_num_aux_planes) (r_num_aux_planes r) ;;
  for_upto (R := Empty_set) (r_num_aux_planes r) (λ i,
    let* a := arr_get r_rtt_aux_l0_addr i in
    store (params + RP_aux_rtt_base i) a ;; ret None) ;;
  store (params + RP_num_bps) (r_num_bps r + 1) ;;
  store (params + RP_num_wps) (r_num_wps r + 1) ;;
  store (params + RP_mecid) (r_mecid r) ;;
  for_upto (R := Empty_set) 64 (λ i,
    let* b := arr_get r_rpv i in
    store (params + RP_rpv + i) b ;; ret None) ;;
  if RMM_V_1_1 && (r_num_aux_planes r =? 0)
  then
    let* f := load (params + RP_flags1) in
    store (params + RP_flags1) (Z.lor f VAL_REALM_FLAG_RTT_TREE_PP)
  else ret tt.

(** From the allocation of the RD to the end. *)
Definition create_rd_and_realm : M (host W) Z :=
  let* rd := mem_alloc_h PAGE_SIZE PAGE_SIZE in
  set_realm (rset_rd rd) ;;
  if rd =? 0 then free_par
  else
    let* r := val_host_rmi_granule_delegate rd in
    if truthy r then free_rd
    else
      let* params := mem_alloc_h PAGE_SIZE PAGE_SIZE in
      if params =? 0 then undelegate_rtt
      else
        memset0 params PAGE_SIZE ;;
        populate_params params ;;
        let* r := val_host_rmi_realm_create rd params in
        if truthy r then free_params params
        else
          set_realm (rset_state REALM_STATE_NEW) ;;
          mem_free_h params ;;
          ret VAL_SUCCESS.

(** Delegating the [num_s2_sl_rtts] pages of a starting level table. *)
Definition delegate_start_rtts (base : Z) : M (host W) (option unit) :=
  let* n := realm r_num_s2_sl_rtts in
  for_upto n (λ i,
    let* r := val_host_rmi_granule_delegate (u64 (base + i * PAGE_SIZE)) in
    ret (if truthy r then Some tt else None)).

(** The auxiliary starting level tables; [Some l] is a jump to label [l]. *)
Definition alloc_aux_rtts : M (host W) (option (M (host W) Z)) :=
  let* pp := rtt_per_plane in
  if pp then
    let* planes := realm r_num_aux_planes in
    let* n := realm r_num_s2_sl_rtts in
    for_upto planes (λ i,
      let* a := mem_alloc_h (u32 (n * PAGE_SIZE)) (u32 (n * PAGE_SIZE)) in
      arr_set r_rtt_aux_l0_addr rset_rtt_aux_l0_addr i a ;;
      if a =? 0 then ret (Some undelegate_rd)
      else
        let* r := delegate_start_rtts a in
        ret (match r with Some _ => Some free_rtt | None => None end))
  else ret None.

Definition val_host_realm_create : M (host W) Z :=
  set_realm (rset_image_pa_size PLATFORM_REALM_IMAGE_SIZE) ;;
  set_realm (rset_state REALM_STATE_NULL) ;;
  let* size := realm r_image_pa_size in
  let* base := mem_alloc_h PAGE_SIZE size in
  set_realm (rset_image_pa_base base) ;;
  if base =? 0 then ret VAL_ERROR
  else
    let* planes := realm r_num_aux_planes in
    let* r := for_upto planes (λ i,
      let* a := mem_alloc_h PAGE_SIZE size in
      arr_set r_aux_image_pa_base rset_aux_image_pa_base i a ;;
      ret (if a =? 0 then Some tt else None)) in
    match r with
    | Some _ => ret VAL_ERROR
    | None =>
        let* n := realm r_num_s2_sl_rtts in
        let* rtt := mem_alloc_h (u32 (n * PAGE_SIZE)) (u32 (n * PAGE_SIZE)) in
        set_realm (rset_rtt_l0_addr rtt) ;;
        if rtt =? 0 then undelegate_rd
        else
          let* r := delegate_start_rtts rtt in
          match r with
          | Some _ => free_rtt
          | None =>
              let* r := alloc_aux_rtts in
              match r with
              | Some label => label
              | None => create_rd_and_realm
              end
          end
    end.

(** * Images and shared memory *)

(** [realm->granules[realm->granules_mapped_count] = ...; granules_mapped_count++] *)
Definition record_mapped (ipa size level pa : Z) : M (host W) unit :=
  let* n := realm r_granules_mapped_count in
  arr_set r_granules rset_granules n (mk_mapped ipa size level pa) ;;
  set_realm (rset_granules_mapped_count (u64 (n + 1))).

(** The loop over pages common to [val_host_image_map] and
    [val_host_map_protected_data_to_realm]. *)
Fixpoint map_image_loop (fuel : nat) (i size pa_base ipa_base src_pa : Z) : M (host W) Z :=
  match fuel with
  | O => out_of_fuel
  | S fuel =>
      if i <? size / PAGE_SIZE then
        let off := u32 (i * PAGE_SIZE) in
        let ipa := u64 (ipa_base + off) in
        let* r := val_host_map_protected_data (u64 (pa_base + off)) ipa PAGE_SIZE (u64 (src_pa + off)) in
        if truthy r then ret VAL_ERROR
        else
          let* pp := rtt_per_plane in
          let* planes := realm r_num_aux_planes in
          let* r :=
            (if pp then
               for_upto planes (λ j,
                 let* r := val_host_aux_map_protected_data ipa (j + 1) in
                 ret (if truthy r then Some tt else None))
             else ret None) in
          match r with
          | Some _ => ret VAL_ERROR
          | None => map_image_loop fuel (u32 (i + 1)) size pa_base ipa_base src_pa
          end
      else ret VAL_SUCCESS
  end.

Definition val_host_image_map (fuel : nat) (ipa_base pa_base : Z) : M (host W) Z :=
  let* size := realm r_image_pa_size in
  let* r := val_host_ripas_init fuel ipa_base (u64 (ipa_base + size)) VAL_RTT_MAX_LEVEL PAGE_SIZE in
  if truthy r then ret VAL_ERROR
  else
    let* r := map_image_loop (pages size) 0 size pa_base ipa_base PLATFORM_REALM_IMAGE_BASE in
    if truthy r then ret VAL_ERROR
    else
      record_mapped ipa_base size VAL_RTT_MAX_LEVEL pa_base ;;
      ret VAL_SUCCESS.

(** [val_data_create_ts] is passed by its members. *)
Definition val_host_map_protected_data_to_realm (fuel : nat)
    (src_pa target_pa ipa rtt_alignment size : Z) : M (host W) Z :=
  let* r := val_host_ripas_init fuel ipa (u64 (ipa + size)) VAL_RTT_MAX_LEVEL rtt_alignment in
  if truthy r then ret VAL_ERROR
  else
    let* r := map_image_loop (pages size) 0 size target_pa ipa src_pa in
    if truthy r then ret VAL_ERROR
    else
      record_mapped ipa size VAL_RTT_MAX_LEVEL target_pa ;;
      ret VAL_SUCCESS.

(** [val_get_shared_region_base_ipa] and [val_get_ns_shared_region_base_ipa] of
    val_framework.c, as the host runs them ([realm_thread] is 0). *)
Definition val_get_shared_region_base_ipa (ipa_width : Z) : Z :=
  Z.lor VAL_NS_SHARED_REGION_IPA_OFFSET (u64 (Z.shiftl 1 (ipa_width - 1))).
Definition val_get_ns_shared_region_base_ipa (ipa_width pa : Z) : Z :=
  Z.lor pa (u64 (Z.shiftl 1 (ipa_width - 1))).

Fixpoint map_shared_loop (fuel : nat) (i pa_base ipa_base : Z) : M (host W) Z :=
  match fuel with
  | O => out_of_fuel
  | S fuel =>
      if i <? PLATFORM_SHARED_REGION_SIZE / PAGE_SIZE then
        let off := u32 (i * PAGE_SIZE) in
        let ipa := u64 (ipa_base + off) in
        let* r := val_host_map_unprotected (u64 (pa_base + off)) ipa PAGE_SIZE PAGE_SIZE in
        if truthy r then ret VAL_ERROR
        else
          let* pp := rtt_per_plane in
          let* planes := realm r_num_aux_planes in
          let* r :=
            (if pp then
               for_upto planes (λ j,
                 let* r := val_host_aux_map_unprotected ipa PAGE_SIZE PAGE_SIZE (j + 1) in
                 ret (if truthy r then Some tt else None))
             else ret None) in
          match r with
          | Some _ => ret VAL_ERROR
          | None => map_shared_loop fuel (u32 (i + 1)) pa_base ipa_base
          end
      else ret VAL_SUCCESS
  end.

Definition val_host_map_shared_region : M (host W) Z :=
  let pa := val_get_shared_region_base_pa in
  let* s2sz := realm r_s2sz in
  let ipa := val_get_shared_region_base_ipa (Z.land s2sz 0xff) in
  let* r := map_shared_loop (pages PLATFORM_SHARED_REGION_SIZE) 0 pa ipa in
  if truthy r then ret VAL_ERROR
  else
    record_mapped ipa PLATFORM_SHARED_REGION_SIZE VAL_RTT_MAX_LEVEL pa ;;
    ret VAL_SUCCESS.

Fixpoint map_ns_shared_loop (fuel : nat) (i size pa ipa mem_attr : Z) : M (host W) bool :=
  match fuel with
  | O => out_of_fuel
  | S fuel =>
      if i <? size / PAGE_SIZE then
        let off := u32 (i * PAGE_SIZE) in
        let* r := val_host_map_unprotected_attr (u64 (pa + off)) (u64 (ipa + off)) PAGE_SIZE PAGE_SIZE
                    mem_attr in
        if truthy r then ret false
        else map_ns_shared_loop fuel (u32 (i + 1)) size pa ipa mem_attr
      else ret true
  end.

(** The index of the new entry of [granules], 0 for a failure. *)
Definition val_host_map_ns_shared_region (size mem_attr : Z) : M (host W) Z :=
  let* pa := mem_alloc_h PAGE_SIZE size in
  if pa =? 0 then ret 0
  else
    let* s2sz := realm r_s2sz in
    let ipa := val_get_ns_shared_region_base_ipa (Z.land s2sz 0xff) pa in
    let* ok := map_ns_shared_loop (pages size) 0 size pa ipa mem_attr in
    if negb ok then ret 0
    else
      record_mapped ipa size VAL_RTT_MAX_LEVEL pa ;;
      let* n := realm r_granules_mapped_count in
      ret (u32 (n - 1)).

Fixpoint dev_mem_map_loop (fuel : nat) (i total_pages vdev base pa : Z) : M (host W) bool :=
  match fuel with
  | O => out_of_fuel
  | S fuel =>
      if i <? total_pages then
        let off := u32 (i * PAGE_SIZE) in
        let* r := val_host_map_protected_dev_mem vdev (u64 (pa + off)) (u64 (base + off)) PAGE_SIZE in
        if truthy r then ret false
        else dev_mem_map_loop fuel (u32 (i + 1)) total_pages vdev base pa
      else ret true
  end.

Definition val_host_dev_mem_map (vdev dev_mem_base dev_mem_top dev_mem_pa : Z) : M (host W) Z :=
  let region_size := u64 (dev_mem_top - dev_mem_base) in
  let total_pages := region_size / PAGE_SIZE in
  if (region_size =? 0) || truthy (region_size mod PAGE_SIZE) then ret VAL_ERROR
  else
    let* n := realm r_dev_granules_mapped_count in
    if VAL_MAX_DEV_GRANULES_MAP <=? n then ret VAL_ERROR
    else
      let* ok := dev_mem_map_loop (pages region_size) 0 total_pages vdev dev_mem_base dev_mem_pa in
      if negb ok then ret VAL_ERROR
      else
        arr_set r_dev_granules rset_dev_granules n
          (mk_mapped dev_mem_base region_size VAL_RTT_MAX_LEVEL dev_mem_pa) ;;
        set_realm (rset_dev_granules_mapped_count (u64 (n + 1))) ;;
        ret VAL_SUCCESS.

(** * RECs *)

(** The label [free_rec_params]: [while (i > 0) { ...; i--; if (i == 0) break; }]. *)
Fixpoint free_rec_loop (n : nat) (i aux_count : Z) : M (host W) unit :=
  match n with
  | O => ret tt
  | S n =>
      let* rec := arr_get r_rec i in
      val_host_rmi_granule_undelegate rec ;;
      mem_free_h rec ;;
      let* run := arr_get r_run i in
      mem_free_h run ;;
      for_upto (R := Empty_set) aux_count (λ j,
        let* a := arr_get r_rec_aux_granules (j + i * aux_count) in
        val_host_rmi_granule_undelegate a ;;
        mem_free_h a ;;
        ret None) ;;
      free_rec_loop n (i - 1) aux_count
  end.

Definition free_rec_params (i aux_count rec_params : Z) : M (host W) Z :=
  free_rec_loop (Z.to_nat i) i aux_count ;;
  mem_free_h rec_params ;;
  ret VAL_ERROR.

(** One iteration of the loop of [val_host_rec_create]; [Some tt] is the jump to
    [free_rec_params]. *)
Definition create_one_rec (rec_params aux_count i : Z) : M (host W) (option unit) :=
  store (rec_params + CP_flags) (if i =? 0 then RMI_RUNNABLE else RMI_NOT_RUNNABLE) ;;
  store (rec_params + CP_mpidr) i ;;
  let* run := mem_alloc_h PAGE_SIZE PAGE_SIZE in
  arr_set r_run rset_run i run ;;
  if run =? 0 then ret (Some tt)
  else
    memset0 run PAGE_SIZE ;;
    let* rec := mem_alloc_h PAGE_SIZE PAGE_SIZE in
    arr_set r_rec rset_rec i rec ;;
    if rec =? 0 then ret (Some tt)
    else
      let* r := val_host_rmi_granule_delegate rec in
      if truthy r then ret (Some tt)
      else
        let* r := for_upto aux_count (λ j,
          let* a := mem_alloc_h PAGE_SIZE PAGE_SIZE in
          store (rec_params + CP_aux j) a ;;
          if a =? 0 then ret (Some tt)
          else
            let* r := val_host_rmi_granule_delegate a in
            if truthy r then ret (Some tt)
            else
              arr_set r_rec_aux_granules rset_rec_aux_granules (j + i * aux_count) a ;;
              ret None) in
        match r with
        | Some _ => ret (Some tt)
        | None =>
            let* rd := realm r_rd in
            let* r := val_host_rmi_rec_create rd rec rec_params in
            ret (if truthy r then Some tt else None)
        end.

(** The loop, with the index at which it was left. *)
Fixpoint rec_loop (n : nat) (rec_params aux_count i : Z) : M (host W) (option Z) :=
  match n with
  | O => ret None
  | S n =>
      let* r := create_one_rec rec_params aux_count i in
      match r with
      | Some _ => ret (Some i)
      | None => rec_loop n rec_params aux_count (i + 1)
      end
  end.

Definition val_host_rec_create : M (host W) Z :=
  let* count := realm r_rec_count in
  if VAL_MAX_REC_COUNT <? count then ret VAL_ERROR
  else
    let* rd := realm r_rd in
    let* (r, aux_count) := val_host_rmi_rec_aux_count rd in
    if truthy r then ret VAL_ERROR
    else if VAL_MAX_REC_AUX_GRANULES <? aux_count then ret VAL_ERROR
    else
      let* rec_params := mem_alloc_h PAGE_SIZE PAGE_SIZE in
      if rec_params =? 0 then ret VAL_ERROR
      else
        memset0 rec_params PAGE_SIZE ;;
        store (rec_params + CP_num_aux) aux_count ;;
        set_realm (rset_aux_count aux_count) ;;
        for_upto (R := Empty_set) REC_CREATE_NR_GPRS (λ i,
          store (rec_params + CP_gprs i) 0 ;; ret None) ;;
        store (rec_params + CP_pc) VAL_PLANE0_IMAGE_BASE_IPA ;;
        let* r := rec_loop (Z.to_nat count) rec_params aux_count 0 in
        match r with
        | Some i => free_rec_params i aux_count rec_params
        | None =>
            mem_free_h rec_params ;;
            ret VAL_SUCCESS
        end.

(** * Activation and setup *)

Definition val_host_realm_activate : M (host W) Z :=
  let* rd := realm r_rd in
  let* r := val_host_rmi_realm_activate rd in
  if truthy r then ret VAL_ERROR
  else
    set_realm (rset_state REALM_STATE_ACTIVE) ;;
    ret VAL_SUCCESS.

Definition val_host_realm_setup (fuel : nat) (activate : bool) : M (host W) Z :=
  let* r := val_host_realm_create in
  if truthy r then ret VAL_ERROR
  else
    let* r := val_host_rec_create in
    if truthy r then ret VAL_ERROR
    else
      let* base := realm r_image_pa_base in
      let* r := val_host_image_map fuel VAL_PLANE0_IMAGE_BASE_IPA base in
      if truthy r then ret VAL_ERROR
      else
        let* planes := realm r_num_aux_planes in
        let* r := for_upto planes (λ i,
          match aux_ipa_base !! Z.to_nat i with
          | None => fail OutOfBounds
          | Some ipa =>
              let* pa := arr_get r_aux_image_pa_base i in
              let* r := val_host_image_map fuel ipa pa in
              ret (if truthy r then Some tt else None)
          end) in
        match r with
        | Some _ => ret VAL_ERROR
        | None =>
            let* r := val_host_map_shared_region in
            if truthy r then ret VAL_ERROR
            else if activate then
              let* r := val_host_realm_activate in
              if truthy r then ret VAL_ERROR else ret VAL_SUCCESS
            else ret VAL_SUCCESS
        end.

Definition val_host_realm_params : M (host W) unit :=
  set_realm (rset_s2sz IPA_WIDTH_DEFAULT) ;;
  set_realm (rset_hash_algo RMI_HASH_SHA_256) ;;
  set_realm (rset_s2_starting_level 0) ;;
  set_realm (rset_num_s2_sl_rtts 1) ;;
  set_realm (rset_vmid 0) ;;
  set_realm (rset_rec_count 1).

(** * Destruction *)

(** [while (curr_gran != NULL) { next_gran = curr_gran->next; ...; curr_gran = next_gran; }]
    where the body may return.  [node] reads a descriptor again, after the
    commands issued for it so far may have changed it. *)
Definition node (p : Z) : M (host W) val_host_granule_ts := tracker (deref p).

Fixpoint walk (fuel : nat) (curr_gran : Z) (body : Z → M (host W) bool) : M (host W) bool :=
  match fuel with
  | O => out_of_fuel
  | S fuel =>
      if curr_gran =? 0 then ret true
      else
        let* n := node curr_gran in
        let next_gran := gr_next n in
        let* ok := body curr_gran in
        if ok then walk fuel next_gran body else ret false
  end.

Definition walk_list (i : nat) (f : gfield) (body : Z → M (host W) bool) : M (host W) bool :=
  let* curr_gran := tracker (get_list i f) in
  let* fuel := gets (λ h, walk_fuel (h_gs h)) in
  walk fuel curr_gran body.

Definition undelegate_node (p : Z) : M (host W) bool :=
  let* n := node p in
  let* r := val_host_rmi_granule_undelegate (gr_PA n) in
  ret (negb (truthy r)).

Definition val_host_destroy_rtt_levels (rtt_level : Z) (i : nat) : M (host W) Z :=
  let* ok := walk_list i Rtt (λ p,
    let* n := node p in
    if gr_level n =? rtt_level then
      let* (r, _) := val_host_rmi_rtt_destroy (gr_rd n) (gr_ipa n) (gr_level n) in
      if truthy r then ret false else undelegate_node p
    else ret true) in
  ret (if ok then VAL_SUCCESS else VAL_ERROR).

Definition val_host_destroy_aux_rtt_levels (rtt_level : Z) (i : nat) (index : Z) : M (host W) Z :=
  let* ok := walk_list i RttAux (λ p,
    let* n := node p in
    if (gr_level n =? rtt_level) && (gr_rtt_tree_idx n =? index) then
      let* cmd_ret := val_host_rmi_rtt_aux_destroy (gr_rd n) (gr_ipa n) (gr_level n) index in
      if truthy (x0 cmd_ret) then ret false else undelegate_node p
    else ret true) in
  ret (if ok then VAL_SUCCESS else VAL_ERROR).

(** [for (i = 0; i < VAL_MAX_AUX_PLANES; i++) if (curr_gran->has_auxiliary[i]) ...] *)
Definition unmap_aux (cmd : Z → Z → Z → M (host W) val_smc_param_ts) (p : Z) : M (host W) bool :=
  let* r := for_upto (Z.of_nat VAL_MAX_AUX_PLANES) (λ i,
    let* n := node p in
    if default false (gr_has_auxiliary n !! Z.to_nat i) then
      let* cmd_ret := cmd (gr_rd n) (gr_ipa n) (i + 1) in
      ret (if truthy (x0 cmd_ret) then Some tt else None)
    else ret None) in
  ret (match r with Some _ => false | None => true end).

Definition destroy_rec_node (p : Z) : M (host W) bool :=
  let* n := node p in
  let* r := val_host_rmi_rec_destroy (gr_PA n) in
  if truthy r then ret false else undelegate_node p.

(** The two loops over the list [data], by [is_granule_sliced]. *)
Definition destroy_data_node (sliced : Z) (p : Z) : M (host W) bool :=
  let* n := node p in
  if gr_is_granule_sliced n =? sliced then
    let* ok := unmap_aux val_host_rmi_rtt_aux_unmap_protected p in
    if negb ok then ret false
    else
      let* n := node p in
      let* (r, _) := val_host_rmi_data_destroy (gr_rd n) (gr_ipa n) in
      if truthy r then ret false else undelegate_node p
  else ret true.

Definition unmap_unprotected_node (p : Z) : M (host W) bool :=
  let* ok := unmap_aux val_host_rmi_rtt_aux_unmap_unprotected p in
  if negb ok then ret false
  else
    let* n := node p in
    let* (r, _) := val_host_rmi_rtt_unmap_unprotected (gr_rd n) (gr_ipa n) (gr_level n) in
    ret (negb (truthy r)).

(** [current_realm] is a global that the commands issued by the loops assign;
    every loop reads it anew. *)
Definition in_current (step : nat → M (host W) bool) : M (host W) bool :=
  let* i := gets (λ h, current_realm (h_gs h)) in step i.

Definition destroy_level (level : Z) : M (host W) bool :=
  in_current (λ i, let* r := val_host_destroy_rtt_levels level i in ret (negb (truthy r))).

Definition destroy_aux_level (level index : Z) : M (host W) bool :=
  in_current (λ i, let* r := val_host_destroy_aux_rtt_levels level i index in ret (negb (truthy r))).

(** Steps in order, stopping at the first that fails. *)
Fixpoint all_steps (l : list (M (host W) bool)) : M (host W) bool :=
  match l with
  | [] => ret true
  | m :: l => let* ok := m in if ok then all_steps l else ret false
  end.

(** The block under [#ifdef RMM_V_1_1]. *)
Definition destroy_aux_levels : M (host W) bool :=
  if RMM_V_1_1 then
    let* planes := val_host_rmm_supports_planes in
    if planes then
      let* r := for_upto (Z.of_nat VAL_MAX_AUX_PLANES) (λ k,
        let* ok := all_steps [
          destroy_aux_level 3 (k + 1); destroy_aux_level 2 (k + 1); destroy_aux_level 1 (k + 1)] in
        ret (if ok then None else Some tt)) in
      ret (match r with Some _ => false | None => true end)
    else ret true
  else ret true.

Definition val_host_realm_destroy (rd : Z) : M (host W) Z :=
  tracker (let* i := val_host_get_curr_realm rd in modify (set_current_realm i)) ;;
  let* ok := all_steps [
    in_current (λ i, walk_list i Rec destroy_rec_node);
    in_current (λ i, walk_list i Data (destroy_data_node 1));
    in_current (λ i, walk_list i Data (destroy_data_node 0));
    in_current (λ i, walk_list i ValidNs unmap_unprotected_node);
    destroy_level 3; destroy_level 2; destroy_level 1;
    destroy_aux_levels] in
  if negb ok then ret VAL_ERROR
  else
    let* i := gets (λ h, current_realm (h_gs h)) in
    let* t := tracker (slot i) in
    let* r := val_host_rmi_realm_destroy (mt_rd t) in
    if truthy r then ret VAL_ERROR else ret VAL_SUCCESS.

(** * Rollback at the end of a test *)

Definition postamble_realms : M (host W) (option unit) :=
  for_from (VAL_HOST_MAX_REALMS - 1) 1 (λ i,
    let* t := tracker (slot (Z.to_nat i)) in
    if mt_rd t =? NO_REALM then ret None
    else
      let* r := val_host_realm_destroy (mt_rd t) in
      ret (if truthy r then Some tt else None)).

Definition undelegate_if_delegated (p : Z) : M (host W) bool :=
  let* n := node p in
  if gr_state n =? GRANULE_DELEGATED then undelegate_node p else ret true.

Definition free_if_undelegated (p : Z) : M (host W) bool :=
  let* n := node p in
  if gr_state n =? GRANULE_UNDELEGATED then
    let* t := tracker (val_host_remove_granule 0 Ns (gr_PA n)) in
    let* m := node t in
    mem_free_h (gr_PA m) ;;
    mem_free_h t ;;
    ret true
  else ret true.

Definition val_host_postamble : M (host W) Z :=
  let* r := postamble_realms in
  match r with
  | Some _ => ret VAL_ERROR
  | None =>
      let* ok := walk_list 0 Ns undelegate_if_delegated in
      if negb ok then ret VAL_ERROR
      else
        walk_list 0 Ns free_if_undelegated ;;
        ret VAL_SUCCESS
  end.
End RealmLife.
