(* ===== verification/RecExit.v ===== *)
(** Checks on the exit of a REC: val_host_rmi_helpers.c and the functions
    [val_host_check_realm_exit_*] of val_host_realm.c.

    [validate_rec_exit_da] and [validate_rec_exit_ia] compare raw bytes of the
    exit structure, so they run over the byte memory of Libc.v; [tmp_exit] is the
    address of their local variable.  The other functions work on the host state
    of Host.v. *)
From S2P Require Import Prelude Defs Alloc Granule Host Rmi RealmMap Libc.

(** ESR fields (val_rmm.h). *)
Definition ESR_ISS_SET_UER : Z := 0x0.
Definition ESR_ISS_EA : Z := 0x0.
Definition ESR_EC_LOWER_EL : Z := 0x24.
Definition ESR_IA_EC_LOWER_EL : Z := 0x20.
Definition ESR_ISV_VALID : Z := 0x1.
Definition ESR_SAS_WORD : Z := 0x2.
Definition ESR_FnV : Z := 0x0.
Definition ESR_ISS_IFSC_TTF_L3 : Z := 0x7.

Inductive exception_da_abort_type_te : Type := EMULATABLE_DA | NON_EMULATABLE_DA.

(** * Validation of an abort *)

Module Validate.

(** A 64-bit member, little endian. *)
Fixpoint load_le (n : nat) (p : Z) : M (gmap Z Z) Z :=
  match n with
  | O => ret 0
  | S n =>
      let* b := Mem.load8 p in
      let* hi := load_le n (p + 1) in
      ret (b + 256 * hi)
  end.

Definition load64 (p : Z) : M (gmap Z Z) Z := load_le 8 p.

(** Offsets in [val_host_rec_exit_ts]. *)
Definition EX_exit_reason : Z := 0x0.
Definition EX_esr : Z := 0x100.
Definition EX_hpfar : Z := 0x110.
Definition SIZEOF_REC_EXIT : Z := 0x800.

Definition esr_emulatable (esr dfsc wnr : Z) : bool :=
  (VAL_EXTRACT_BITS esr 11 12 =? ESR_ISS_SET_UER) &&
  (VAL_EXTRACT_BITS esr 9 9 =? ESR_ISS_EA) &&
  (VAL_EXTRACT_BITS esr 0 5 =? dfsc) &&
  (VAL_EXTRACT_BITS esr 26 31 =? ESR_EC_LOWER_EL) &&
  (VAL_EXTRACT_BITS esr 24 24 =? ESR_ISV_VALID) &&
  (VAL_EXTRACT_BITS esr 22 23 =? ESR_SAS_WORD) &&
  (VAL_EXTRACT_BITS esr 6 6 =? wnr) &&
  (VAL_EXTRACT_BITS esr 10 10 =? ESR_FnV).

Definition esr_emulatable_mbz (esr : Z) : bool :=
  truthy (VAL_EXTRACT_BITS esr 7 7) || truthy (VAL_EXTRACT_BITS esr 8 8) ||
  truthy (VAL_EXTRACT_BITS esr 13 13) || truthy (VAL_EXTRACT_BITS esr 14 14) ||
  truthy (VAL_EXTRACT_BITS esr 15 15) || truthy (VAL_EXTRACT_BITS esr 16 20) ||
  truthy (VAL_EXTRACT_BITS esr 21 21) || truthy (VAL_EXTRACT_BITS esr 25 25).

Definition esr_non_emulatable (esr dfsc : Z) : bool :=
  (VAL_EXTRACT_BITS esr 11 12 =? ESR_ISS_SET_UER) &&
  (VAL_EXTRACT_BITS esr 9 9 =? ESR_ISS_EA) &&
  (VAL_EXTRACT_BITS esr 10 10 =? ESR_FnV) &&
  (VAL_EXTRACT_BITS esr 0 5 =? dfsc) &&
  (VAL_EXTRACT_BITS esr 26 31 =? ESR_EC_LOWER_EL).

Definition esr_non_emulatable_mbz (esr : Z) : bool :=
  truthy (VAL_EXTRACT_BITS esr 7 7) || truthy (VAL_EXTRACT_BITS esr 8 8) ||
  truthy (VAL_EXTRACT_BITS esr 13 13) || truthy (VAL_EXTRACT_BITS esr 14 14) ||
  truthy (VAL_EXTRACT_BITS esr 15 15) || truthy (VAL_EXTRACT_BITS esr 16 20) ||
  truthy (VAL_EXTRACT_BITS esr 21 21) || truthy (VAL_EXTRACT_BITS esr 24 24) ||
  truthy (VAL_EXTRACT_BITS esr 22 23) || truthy (VAL_EXTRACT_BITS esr 6 6) ||
  truthy (VAL_EXTRACT_BITS esr 25 25).

Definition esr_ok (abort_type : exception_da_abort_type_te) (esr dfsc wnr : Z) : bool :=
  match abort_type with
  | EMULATABLE_DA => esr_emulatable esr dfsc wnr && negb (esr_emulatable_mbz esr)
  | NON_EMULATABLE_DA => esr_non_emulatable esr dfsc && negb (esr_non_emulatable_mbz esr)
  end.

(** The comparisons with a zeroed structure, in order: offset and length. *)
Definition da_zero_ranges : list (Z * Z) :=
  [(0x1, 0xFF); (0x108, 0x8); (0x118, 0xE8); (0x208, 0xF8); (0x398, 0x68); (0x420, 0x2E0);
   (0x701, 0xFF)].

Definition ia_zero_ranges : list (Z * Z) :=
  [(0x1, 0xFF); (0x108, 0x8); (0x118, 0x1E7); (0x398, 0x68); (0x420, 0x2E0); (0x701, 0xFF)].

Fixpoint check_zero (tmp_exit rec_exit : Z) (ranges : list (Z * Z)) : M (gmap Z Z) Z :=
  match ranges with
  | [] => ret VAL_SUCCESS
  | (off, len) :: ranges =>
      let* r := Mem.val_memcmp (tmp_exit + off) (rec_exit + off) len in
      if truthy r then ret VAL_ERROR else check_zero tmp_exit rec_exit ranges
  end.

Definition validate_rec_exit_da (tmp_exit rec_exit hpfar dfsc : Z)
    (abort_type : exception_da_abort_type_te) (wnr : Z) : M (gmap Z Z) Z :=
  Mem.val_memset tmp_exit 0 SIZEOF_REC_EXIT ;;
  let* reason := load64 (rec_exit + EX_exit_reason) in
  if negb (reason =? RMI_EXIT_SYNC) then ret VAL_ERROR
  else
    let* exit_hpfar := load64 (rec_exit + EX_hpfar) in
    if negb (VAL_EXTRACT_BITS hpfar 8 63 =? exit_hpfar) then ret VAL_ERROR
    else
      let* esr := load64 (rec_exit + EX_esr) in
      if negb (esr_ok abort_type esr dfsc wnr) then ret VAL_ERROR
      else check_zero tmp_exit rec_exit da_zero_ranges.

Definition esr_ia (esr : Z) : bool :=
  (VAL_EXTRACT_BITS esr 11 12 =? ESR_ISS_SET_UER) &&
  (VAL_EXTRACT_BITS esr 9 9 =? ESR_ISS_EA) &&
  (VAL_EXTRACT_BITS esr 0 5 =? ESR_ISS_IFSC_TTF_L3) &&
  (VAL_EXTRACT_BITS esr 26 31 =? ESR_IA_EC_LOWER_EL).

Definition validate_rec_exit_ia (tmp_exit rec_exit hpfar : Z) : M (gmap Z Z) Z :=
  Mem.val_memset tmp_exit 0 SIZEOF_REC_EXIT ;;
  let* reason := load64 (rec_exit + EX_exit_reason) in
  if negb (reason =? RMI_EXIT_SYNC) then ret VAL_ERROR
  else
    let* esr := load64 (rec_exit + EX_esr) in
    if negb (esr_ia esr) then ret VAL_ERROR
    else if truthy (VAL_EXTRACT_BITS esr 7 7) || truthy (VAL_EXTRACT_BITS esr 10 10)
    then ret VAL_ERROR
    else
      let* exit_hpfar := load64 (rec_exit + EX_hpfar) in
      if negb (VAL_EXTRACT_BITS hpfar 8 63 =? exit_hpfar) then ret VAL_ERROR
      else check_zero tmp_exit rec_exit ia_zero_ranges.

End Validate.

(** * Checks on the run structure *)

Definition RUN_EXIT_GPR0 : Z := RUN_EXIT + 0x200.
Definition RUN_EXIT_S2AP_BASE : Z := RUN_EXIT + 0x520.
Definition RUN_EXIT_S2AP_TOP : Z := RUN_EXIT + 0x528.

Section RecExit.
Context {W : Type} `{RMM W}.

Definition val_host_check_realm_exit_ripas_change (run : Z) : M (host W) Z :=
  let* reason := load (run + RUN_EXIT_REASON) in
  ret (if reason =? RMI_EXIT_RIPAS_CHANGE then VAL_SUCCESS else VAL_ERROR).

Definition val_host_check_realm_exit_host_call (run : Z) : M (host W) Z :=
  let* reason := load (run + RUN_EXIT_REASON) in
  let* imm := load (run + RUN_EXIT_IMM) in
  ret (if (reason =? RMI_EXIT_HOST_CALL) && (imm =? VAL_SWITCH_TO_HOST)
       then VAL_SUCCESS else VAL_ERROR).

Definition val_host_check_realm_exit_rsi_host_call (run : Z) : M (host W) Z :=
  let* reason := load (run + RUN_EXIT_REASON) in
  let* imm := load (run + RUN_EXIT_IMM) in
  ret (if (reason =? RMI_EXIT_HOST_CALL) && (imm =? 0) then VAL_SUCCESS else VAL_ERROR).

Definition val_host_check_realm_exit_psci (run psci_fid : Z) : M (host W) Z :=
  let* reason := load (run + RUN_EXIT_REASON) in
  let* gpr0 := load (run + RUN_EXIT_GPR0) in
  ret (if (reason =? RMI_EXIT_PSCI) && (gpr0 =? psci_fid) then VAL_SUCCESS else VAL_ERROR).

Definition val_host_check_pdev_state (pdev pdev_state : Z) : M (host W) Z :=
  let* args := val_host_rmi_pdev_get_state pdev in
  if truthy (x0 args) then ret VAL_ERROR
  else if negb (x1 args =? pdev_state) then ret VAL_ERROR
  else ret VAL_SUCCESS.

(** * Changing the access permissions of a Realm's memory *)

(** [for (i = 0; i < realm->num_aux_planes; i++) val_host_create_aux_mapping(...)];
    [false] is a return of VAL_ERROR. *)
Fixpoint create_aux_mappings (n : nat) (i rd base : Z) : M (host W) bool :=
  match n with
  | O => ret true
  | S n =>
      let* r := val_host_create_aux_mapping rd base (i + 1) in
      if truthy r then ret false else create_aux_mappings n (i + 1) rd base
  end.

(** [while (s2ap_ipa_base != s2ap_ipa_top)]; [false] is a return of VAL_ERROR.
    The RMM decides how far each command gets, so the loop carries fuel. *)
Fixpoint set_s2ap_range (fuel : nat) (base top : Z) : M (host W) bool :=
  match fuel with
  | O => out_of_fuel
  | S fuel =>
      if base =? top then ret true
      else
        let* rd := realm r_rd in
        let* rec := arr_get r_rec 0 in
        let* cmd_ret := val_host_rmi_rtt_set_s2ap rd rec base top in
        if RMI_STATUS (x0 cmd_ret) =? RMI_ERROR_RTT then
          let* r := create_mapping base false rd in
          if truthy r then ret false else set_s2ap_range fuel base top
        else if RMI_STATUS (x0 cmd_ret) =? RMI_ERROR_RTT_AUX then
          let* planes := realm r_num_aux_planes in
          let* ok := create_aux_mappings (Z.to_nat planes) 0 rd base in
          if ok then set_s2ap_range fuel base top else ret false
        else if RMI_STATUS (x0 cmd_ret) =? RMI_ERROR_INPUT then ret false
        else set_s2ap_range fuel (x1 cmd_ret) top
  end.

Fixpoint val_host_set_s2ap (fuel : nat) : M (host W) Z :=
  match fuel with
  | O => out_of_fuel
  | S fuel' =>
      let* run := arr_get r_run 0 in
      let* reason := load (run + RUN_EXIT_REASON) in
      if reason =? RMI_EXIT_S2AP_CHANGE then
        let* base := load (run + RUN_EXIT_S2AP_BASE) in
        let* top := load (run + RUN_EXIT_S2AP_TOP) in
        let* ok := set_s2ap_range fuel base top in
        if negb ok then ret VAL_ERROR
        else
          store (run + RUN_ENTER_FLAGS) 0 ;;
          let* rec := arr_get r_rec 0 in
          let* r := val_host_rmi_rec_enter fuel rec run in
          if truthy r then ret VAL_ERROR else val_host_set_s2ap fuel'
      else ret VAL_SUCCESS
  end.
End RecExit.
