(* ===== verification/RmiFacts.v ===== *)
(** The wrappers of Rmi.v seen as one thing: a command is an SMC followed, on
    success only, by one call of the granule tracker.  From this, for every
    RMM: a command that fails leaves the tracker alone, and no sequence of
    commands breaks the tracker's invariant. *)
From S2P Require Import Prelude Defs Alloc Granule GranuleInv GranuleSpec Host Rmi.

(** The commands that change the tracker. *)
Inductive rmi_cmd : Type :=
  | CGranuleDelegate (addr : Z)
  | CGranuleUndelegate (addr : Z)
  | CDataCreate (rd data ipa src flags : Z)
  | CDataCreateUnknown (rd data ipa : Z)
  | CDataDestroy (rd ipa : Z)
  | CRealmCreate (rd params_ptr : Z)
  | CRealmDestroy (rd : Z)
  | CRecCreate (rd rec params_ptr : Z)
  | CRecDestroy (rec : Z)
  | CRttCreate (rd rtt ipa level : Z)
  | CRttFold (rd ipa level : Z)
  | CRttDestroy (rd ipa level : Z)
  | CRttMapUnprotected (rd ipa level desc : Z)
  | CRttUnmapUnprotected (rd ipa level : Z)
  | CRttAuxCreate (rd rtt ipa level index : Z)
  | CRttAuxDestroy (rd ipa level index : Z)
  | CRttAuxFold (rd ipa level index : Z)
  | CRttAuxMapProtected (rd ipa index : Z)
  | CRttAuxMapUnprotected (rd ipa index : Z)
  | CRttAuxUnmapProtected (rd ipa index : Z)
  | CRttAuxUnmapUnprotected (rd ipa index : Z).

(** The registers of the SMC. *)
Definition cmd_args (c : rmi_cmd) : val_smc_param_ts :=
  match c with
  | CGranuleDelegate addr => mk_smc RMI_GRANULE_DELEGATE addr 0 0 0 0 0 0 0 0 0
  | CGranuleUndelegate addr => mk_smc RMI_GRANULE_UNDELEGATE addr 0 0 0 0 0 0 0 0 0
  | CDataCreate rd data ipa src flags => mk_smc RMI_DATA_CREATE rd data ipa src flags 0 0 0 0 0
  | CDataCreateUnknown rd data ipa => mk_smc RMI_DATA_CREATE_UNKNOWN rd data ipa 0 0 0 0 0 0 0
  | CDataDestroy rd ipa => mk_smc RMI_DATA_DESTROY rd ipa 0 0 0 0 0 0 0 0
  | CRealmCreate rd params_ptr => mk_smc RMI_REALM_CREATE rd params_ptr 0 0 0 0 0 0 0 0
  | CRealmDestroy rd => mk_smc RMI_REALM_DESTROY rd 0 0 0 0 0 0 0 0 0
  | CRecCreate rd rec params_ptr => mk_smc RMI_REC_CREATE rd rec params_ptr 0 0 0 0 0 0 0
  | CRecDestroy rec => mk_smc RMI_REC_DESTROY rec 0 0 0 0 0 0 0 0 0
  | CRttCreate rd rtt ipa level => mk_smc RMI_RTT_CREATE rd rtt ipa level 0 0 0 0 0 0
  | CRttFold rd ipa level => mk_smc RMI_RTT_FOLD rd ipa level 0 0 0 0 0 0 0
  | CRttDestroy rd ipa level => mk_smc RMI_RTT_DESTROY rd ipa level 0 0 0 0 0 0 0
  | CRttMapUnprotected rd ipa level desc => mk_smc RMI_RTT_MAP_UNPROTECTED rd ipa level desc 0 0 0 0 0 0
  | CRttUnmapUnprotected rd ipa level => mk_smc RMI_RTT_UNMAP_UNPROTECTED rd ipa level 0 0 0 0 0 0 0
  | CRttAuxCreate rd rtt ipa level index => mk_smc RMI_RTT_AUX_CREATE rd rtt ipa level index 0 0 0 0 0
  | CRttAuxDestroy rd ipa level index => mk_smc RMI_RTT_AUX_DESTROY rd ipa level index 0 0 0 0 0 0
  | CRttAuxFold rd ipa level index => mk_smc RMI_RTT_AUX_FOLD rd ipa level index 0 0 0 0 0 0
  | CRttAuxMapProtected rd ipa index => mk_smc RMI_RTT_AUX_MAP_PROTECTED rd ipa index 0 0 0 0 0 0 0
  | CRttAuxMapUnprotected rd ipa index => mk_smc RMI_RTT_AUX_MAP_UNPROTECTED rd ipa index 0 0 0 0 0 0 0
  | CRttAuxUnmapProtected rd ipa index => mk_smc RMI_RTT_AUX_UNMAP_PROTECTED rd ipa index 0 0 0 0 0 0 0
  | CRttAuxUnmapUnprotected rd ipa index =>
      mk_smc RMI_RTT_AUX_UNMAP_UNPROTECTED rd ipa index 0 0 0 0 0 0 0
  end.

(** The call of the tracker after a success: a change of the lists, or of the
    record of auxiliary mappings. *)
Definition cmd_track (c : rmi_cmd) : gcall + (Z * Z * Z * Z * bool) :=
  match c with
  | CGranuleDelegate addr => inl (GAdd GRANULE_DELEGATED addr)
  | CGranuleUndelegate addr => inl (GDestroy 0 addr 0 0 GRANULE_UNDELEGATED 0 0)
  | CDataCreate rd data ipa _ _ | CDataCreateUnknown rd data ipa =>
      inl (GUpdate rd GRANULE_DATA data ipa 0 0)
  | CDataDestroy rd ipa => inl (GDestroy rd 0 ipa 0 GRANULE_DELEGATED GRANULE_DATA 0)
  | CRealmCreate rd _ => inl (GUpdate rd GRANULE_RD rd 0 0 0)
  | CRealmDestroy rd => inl (GDestroy rd rd 0 0 GRANULE_DELEGATED GRANULE_RD 0)
  | CRecCreate rd rec _ => inl (GUpdate rd GRANULE_REC rec 0 0 0)
  | CRecDestroy rec => inl (GDestroy 0 rec 0 0 GRANULE_DELEGATED GRANULE_REC 0)
  | CRttCreate rd rtt ipa level => inl (GUpdate rd GRANULE_RTT rtt ipa level 0)
  | CRttFold rd ipa level | CRttDestroy rd ipa level =>
      inl (GDestroy rd 0 ipa level GRANULE_DELEGATED GRANULE_RTT 0)
  | CRttMapUnprotected rd ipa level _ => inl (GUpdate rd GRANULE_UNPROTECTED ipa ipa level 0)
  | CRttUnmapUnprotected rd ipa _ =>
      inl (GDestroy rd ipa 0 0 GRANULE_UNPROTECTED GRANULE_UNPROTECTED 0)
  | CRttAuxCreate rd rtt ipa level index => inl (GUpdate rd GRANULE_RTT_AUX rtt ipa level index)
  | CRttAuxDestroy rd ipa level index | CRttAuxFold rd ipa level index =>
      inl (GDestroy rd 0 ipa level GRANULE_DELEGATED GRANULE_RTT_AUX index)
  | CRttAuxMapProtected rd ipa index => inr (GRANULE_DATA, rd, index, ipa, true)
  | CRttAuxMapUnprotected rd ipa index => inr (GRANULE_UNPROTECTED, rd, index, ipa, true)
  | CRttAuxUnmapProtected rd ipa index => inr (GRANULE_DATA, rd, index, ipa, false)
  | CRttAuxUnmapUnprotected rd ipa index => inr (GRANULE_UNPROTECTED, rd, index, ipa, false)
  end.

Definition track (c : rmi_cmd) : M gstate unit :=
  match cmd_track c with
  | inl g => exec g
  | inr (st, rd, index, ipa, v) => val_host_update_aux_rtt_info st rd index ipa v ;; ret tt
  end.

Section RmiFacts.
Context {W : Type} `{RMM W}.
Implicit Types h : host W.

(** The wrapper of each command, for its status. *)
Definition run_cmd (c : rmi_cmd) : M (host W) Z :=
  match c with
  | CGranuleDelegate addr => val_host_rmi_granule_delegate addr
  | CGranuleUndelegate addr => val_host_rmi_granule_undelegate addr
  | CDataCreate rd data ipa src flags => val_host_rmi_data_create rd data ipa src flags
  | CDataCreateUnknown rd data ipa => val_host_rmi_data_create_unknown rd data ipa
  | CDataDestroy rd ipa => let* (r, _) := val_host_rmi_data_destroy rd ipa in ret r
  | CRealmCreate rd params_ptr => val_host_rmi_realm_create rd params_ptr
  | CRealmDestroy rd => val_host_rmi_realm_destroy rd
  | CRecCreate rd rec params_ptr => val_host_rmi_rec_create rd rec params_ptr
  | CRecDestroy rec => val_host_rmi_rec_destroy rec
  | CRttCreate rd rtt ipa level => val_host_rmi_rtt_create rd rtt ipa level
  | CRttFold rd ipa level => let* (r, _) := val_host_rmi_rtt_fold rd ipa level 0 in ret r
  | CRttDestroy rd ipa level => let* (r, _) := val_host_rmi_rtt_destroy rd ipa level in ret r
  | CRttMapUnprotected rd ipa level desc => val_host_rmi_rtt_map_unprotected rd ipa level desc
  | CRttUnmapUnprotected rd ipa level =>
      let* (r, _) := val_host_rmi_rtt_unmap_unprotected rd ipa level in ret r
  | CRttAuxCreate rd rtt ipa level index =>
      let* r := val_host_rmi_rtt_aux_create rd rtt ipa level index in ret (x0 r)
  | CRttAuxDestroy rd ipa level index =>
      let* r := val_host_rmi_rtt_aux_destroy rd ipa level index in ret (x0 r)
  | CRttAuxFold rd ipa level index =>
      let* r := val_host_rmi_rtt_aux_fold rd ipa level index in ret (x0 r)
  | CRttAuxMapProtected rd ipa index =>
      let* r := val_host_rmi_rtt_aux_map_protected rd ipa index in ret (x0 r)
  | CRttAuxMapUnprotected rd ipa index =>
      let* r := val_host_rmi_rtt_aux_map_unprotected rd ipa index in ret (x0 r)
  | CRttAuxUnmapProtected rd ipa index =>
      let* r := val_host_rmi_rtt_aux_unmap_protected rd ipa index in ret (x0 r)
  | CRttAuxUnmapUnprotected rd ipa index =>
      let* r := val_host_rmi_rtt_aux_unmap_unprotected rd ipa index in ret (x0 r)
  end.

(** The reply to an SMC and the state after it. *)
Definition reply (args : val_smc_param_ts) h : val_smc_param_ts :=
  (smc (h_world h) (h_mem h) args).2.

Definition after_smc (args : val_smc_param_ts) h : host W :=
  let '(w, m, _) := smc (h_world h) (h_mem h) args in
  mk_host w (h_gs h) m (h_realm h) (h_log h ++ [(args, h_mem h)]).

Lemma val_smc_call_eq a0 a1 a2 a3 a4 a5 a6 a7 a8 a9 a10 h :
  let args := mk_smc a0 a1 a2 a3 a4 a5 a6 a7 a8 a9 a10 in
  val_smc_call a0 a1 a2 a3 a4 a5 a6 a7 a8 a9 a10 h = Ok (reply args h) (after_smc args h).
Proof. unfold val_smc_call, reply, after_smc. by destruct (smc _ _ _) as [[w m] r]. Qed.

Lemma after_smc_gs args h : h_gs (after_smc args h) = h_gs h.
Proof. unfold after_smc. by destruct (smc _ _ _) as [[w m] r]. Qed.

Lemma after_smc_realm args h : h_realm (after_smc args h) = h_realm h.
Proof. unfold after_smc. by destruct (smc _ _ _) as [[w m] r]. Qed.

Lemma after_smc_log args h : h_log (after_smc args h) = h_log h ++ [(args, h_mem h)].
Proof. unfold after_smc. by destruct (smc _ _ _) as [[w m] r]. Qed.

(** A command in the normal form of this file. *)
Definition cmd_body (c : rmi_cmd) : M (host W) Z := λ h,
  let r := reply (cmd_args c) h in
  if truthy (x0 r) then Ok (x0 r) (after_smc (cmd_args c) h)
  else (tracker (track c) ;; ret (x0 r)) (after_smc (cmd_args c) h).

Lemma tracker_seq {A B} (m : M gstate A) (b : B) h :
  (tracker m ;; ret b) h = (tracker (m ;; ret tt) ;; ret b) h.
Proof. unfold tracker, zoom, bind, ret. by destruct (m (h_gs h)). Qed.

Lemma run_cmd_body c h : run_cmd c h = cmd_body c h.
Proof.
  unfold cmd_body, track.
  destruct c; cbn [run_cmd cmd_track cmd_args exec];
    unfold val_host_rmi_granule_delegate, val_host_rmi_granule_undelegate, val_host_rmi_data_create,
      val_host_rmi_data_create_unknown, val_host_rmi_data_destroy, val_host_rmi_realm_create,
      val_host_rmi_realm_destroy, val_host_rmi_rec_create, val_host_rmi_rec_destroy,
      val_host_rmi_rtt_create, val_host_rmi_rtt_fold, val_host_rmi_rtt_destroy,
      val_host_rmi_rtt_map_unprotected, val_host_rmi_rtt_unmap_unprotected,
      val_host_rmi_rtt_aux_create, val_host_rmi_rtt_aux_destroy, val_host_rmi_rtt_aux_fold,
      val_host_rmi_rtt_aux_map_protected, val_host_rmi_rtt_aux_map_unprotected,
      val_host_rmi_rtt_aux_unmap_protected, val_host_rmi_rtt_aux_unmap_unprotected;
    rewrite ?bind_assoc, (bind_step _ _ _ _ _ (val_smc_call_eq _ _ _ _ _ _ _ _ _ _ _ _));
    (destruct (truthy _); [done|]); try done;
    rewrite ?bind_assoc; unfold bind, tracker, zoom, ret;
    by match goal with |- context [match ?m ?g with _ => _ end] => destruct (m g) end.
Qed.

(** Every outcome of a call of the tracker. *)
Lemma track_cases c g L :
  wf g L →
  match track c g with
  | Ok _ g' => ∃ L', wf g' L'
  | Fault f => f = NullDeref ∨ f = OutOfBounds
  | NoFuel => False
  end.
Proof.
  intros Hw. unfold track. destruct (cmd_track c) as [gc|[[[[st rd] index] ipa] v]].
  - destruct (exec_spec g L gc Hw) as [[_ Hr]|[_ ->]]; [|by left].
    apply run_to_Ok in Hr as (? & g' & -> & HL). done.
  - pose proof (update_aux_cases g L st rd index ipa v Hw) as Hc. unfold bind.
    destruct (val_host_update_aux_rtt_info st rd index ipa v g); [|done|done]. by exists L.
Qed.

Lemma run_cmd_cases c h L :
  wf (h_gs h) L →
  match run_cmd c h with
  | Ok _ h' => ∃ L', wf (h_gs h') L'
  | Fault f => f = NullDeref ∨ f = OutOfBounds
  | NoFuel => False
  end.
Proof.
  intros Hw. rewrite run_cmd_body. unfold cmd_body.
  destruct (truthy _); [exists L; by rewrite after_smc_gs|].
  unfold bind, tracker, zoom. rewrite after_smc_gs.
  pose proof (track_cases c (h_gs h) L Hw) as Hc. by destruct (track c (h_gs h)).
Qed.

Fixpoint run_cmds (cs : list rmi_cmd) : M (host W) (list Z) :=
  match cs with
  | [] => ret []
  | c :: cs => let* r := run_cmd c in let* rs := run_cmds cs in ret (r :: rs)
  end.

(** C25. Whatever the RMM answers, a sequence of RMI commands never breaks the
    tracker: it ends with well-formed lists, or stops at a null dereference or
    an index of the table of auxiliary mappings out of range; no list is ever
    walked without end and no wild pointer followed. *)
Theorem any_rmm_keeps_tracker cs h L :
  wf (h_gs h) L →
  match run_cmds cs h with
  | Ok rs h' => length rs = length cs ∧ ∃ L', wf (h_gs h') L'
  | Fault f => f = NullDeref ∨ f = OutOfBounds
  | NoFuel => False
  end.
Proof.
  revert h L. induction cs as [|c cs IH]; intros h L Hw; cbn; [by eauto|].
  unfold bind. pose proof (run_cmd_cases c h L Hw) as Hc.
  destruct (run_cmd c h) as [r h1|f|]; [|done|done]. destruct Hc as [L1 Hw1].
  specialize (IH h1 L1 Hw1). destruct (run_cmds cs h1) as [rs h2|f|]; [|done|done].
  cbn. destruct IH as [-> ?]. done.
Qed.

(** C26. A command that the RMM refuses changes nothing of the host's view: the
    tracker and the Realm structure are as before, exactly one SMC with the
    command's registers was issued, and the caller gets the RMM's status; a
    command that succeeds makes exactly the tracker call that belongs to it. *)
Theorem command_tracks_success_only c h :
  let r := reply (cmd_args c) h in
  match run_cmd c h with
  | Ok status h' =>
      status = x0 r ∧ h_realm h' = h_realm h ∧ h_log h' = h_log h ++ [(cmd_args c, h_mem h)] ∧
      if truthy (x0 r) then h_gs h' = h_gs h else track c (h_gs h) = Ok tt (h_gs h')
  | Fault f => x0 r = 0 ∧ track c (h_gs h) = Fault f
  | NoFuel => x0 r = 0 ∧ track c (h_gs h) = NoFuel
  end.
Proof.
  intros r. rewrite run_cmd_body. unfold cmd_body. fold r.
  destruct (truthy (x0 r)) eqn:Et.
  - rewrite after_smc_realm, after_smc_log, after_smc_gs. done.
  - apply negb_false_iff, Z.eqb_eq in Et. unfold bind, tracker, zoom. rewrite after_smc_gs.
    destruct (track c (h_gs h)) as [[] g|f|]; cbn; [|done|done].
    by rewrite after_smc_realm, after_smc_log.
Qed.
End RmiFacts.

(** * An RMM that answers from a script

    The world is the list of replies still to give; an empty script answers
    success with zeros. *)
#[export] Instance scripted : RMM (list val_smc_param_ts) := {
  smc w m _ := match w with
               | [] => ([], m, mk_smc 0 0 0 0 0 0 0 0 0 0 0)
               | r :: w => (w, m, r)
               end;
  RMM_V_1_1 := true;
  val_get_shared_region_base_pa := PLATFORM_SHARED_REGION_BASE;
  VAL_NS_SHARED_REGION_IPA_OFFSET := 0x600000
}.

(** A reply with a status and one value. *)
Definition answer (status v : Z) : val_smc_param_ts := mk_smc status v 0 0 0 0 0 0 0 0 0.

Definition host_with (script : list val_smc_param_ts) (g : gstate) : host (list val_smc_param_ts) :=
  mk_host script g ∅ realm_zero [].

Lemma any_rmm_keeps_tracker_witness :
  match run_cmds [CGranuleDelegate 0x9000; CDataCreate 7 0x8000 0x4000 0 0; CDataDestroy 7 0x4000]
          (host_with [answer 1 0] one_granule) with
  | Ok rs h' => length rs = 3%nat ∧ ∃ L', wf (h_gs h') L'
  | Fault f => f = NullDeref ∨ f = OutOfBounds
  | NoFuel => False
  end.
Proof.
  exact (any_rmm_keeps_tracker
    [CGranuleDelegate 0x9000; CDataCreate 7 0x8000 0x4000 0 0; CDataDestroy 7 0x4000]
    (host_with [answer 1 0] one_granule) one_layout one_granule_wf).
Defined.
