(* ===== verification/RmmSpec.v ===== *)
(** What the RMM specification documents of the granules: the state of a granule
    and, for the commands of the host that move a granule from one state to
    another, when they may succeed and what they change.  [Conforming] is the
    class of monitors that behave so; [ledger_rmm] is one that does. *)
From S2P Require Import Prelude Defs Alloc Granule GranuleInv GranuleSpec Host Rmi RmiFacts.

(** The state of a granule.  The starting level tables of a Realm and the
    auxiliary granules of a REC are named by the RD and the REC they belong to. *)
Inductive rmm_gran : Type :=
  | Undelegated
  | Delegated
  | IsRd
  | IsRoot (rd : Z)
  | IsRtt (rd ipa level : Z)
  | IsRec (rd : Z)
  | IsRecAux (rec : Z)
  | IsData (rd ipa : Z).

#[export] Instance rmm_gran_eq_dec : EqDecision rmm_gran.
Proof. solve_decision. Defined.

(** The Realm a granule was given to by a command of its own. *)
Definition owner (st : rmm_gran) : option Z :=
  match st with
  | IsRtt rd _ _ | IsRec rd | IsData rd _ => Some rd
  | _ => None
  end.

(** The granule that has to be there as long as this one is in its state. *)
Definition parent (st : rmm_gran) : option Z :=
  match st with
  | IsRoot rd | IsRtt rd _ _ | IsRec rd | IsData rd _ => Some rd
  | IsRecAux rec => Some rec
  | _ => None
  end.

(** The commands that move granules. *)
Definition in_scope (c : rmi_cmd) : bool :=
  match c with
  | CGranuleDelegate _ | CGranuleUndelegate _ | CDataCreate _ _ _ _ _ | CDataCreateUnknown _ _ _
  | CDataDestroy _ _ | CRealmCreate _ _ | CRealmDestroy _ | CRecCreate _ _ _ | CRecDestroy _
  | CRttCreate _ _ _ _ | CRttFold _ _ _ | CRttDestroy _ _ _ => true
  | _ => false
  end.

(** The part of the documented conditions of a command that names the states of
    its granules: a command that succeeds met it.  An address of a granule is a
    multiple of the granule size; an IPA has one granule of data, and one table
    per level.  The rest of the conditions are in [documented]. *)
Definition allowed (c : rmi_cmd) (s : Z → rmm_gran) : Prop :=
  match c with
  | CGranuleDelegate a => s a = Undelegated ∧ (PAGE_SIZE | a)
  | CGranuleUndelegate a => s a = Delegated
  | CDataCreate rd data ipa _ _ | CDataCreateUnknown rd data ipa =>
      s data = Delegated ∧ s rd = IsRd ∧ ∀ q, s q ≠ IsData rd ipa
  | CDataDestroy rd ipa => s rd = IsRd ∧ ∃ q, s q = IsData rd ipa
  | CRealmCreate rd _ => s rd = Delegated
  | CRealmDestroy rd => s rd = IsRd ∧ ∀ q, owner (s q) ≠ Some rd
  | CRecCreate rd rec _ => s rec = Delegated ∧ s rd = IsRd
  | CRecDestroy rec => ∃ rd, s rec = IsRec rd
  | CRttCreate rd rtt ipa level =>
      s rtt = Delegated ∧ s rd = IsRd ∧ ∀ q, s q ≠ IsRtt rd ipa level
  | CRttFold rd ipa level | CRttDestroy rd ipa level => s rd = IsRd ∧ ∃ q, s q = IsRtt rd ipa level
  | _ => True
  end.

(** * The tables of a Realm

    src/docs/command_scenarios.rst, the lists of valid values: where a walk of the
    tables has to end, and what a table may hold when it is folded or destroyed. *)

(** The IPA range of a table and its first address, which names the table. *)
Definition span (level : Z) : Z := 2 ^ (12 + 9 * (4 - level)).
Definition table_base (level ipa : Z) : Z := ipa - ipa mod span level.

Definition table_at (s : Z → rmm_gran) (rd level ipa : Z) : Prop :=
  ∃ q, s q = IsRtt rd (table_base level ipa) level.

(** A walk for [ipa] gets to the table of [level]; [start] has the starting levels
    of the Realms. *)
Definition reaches (start : Z → Z) (s : Z → rmm_gran) (rd level ipa : Z) : Prop :=
  ∀ k, start rd < k ≤ level → table_at s rd k ipa.

(** Granules below the table of [level] at [ipa]: its tables, and all. *)
Definition subtable (rd level ipa : Z) (st : rmm_gran) : bool :=
  match st with
  | IsRtt rd' ipa' level' => (rd' =? rd) && (level <? level') && (table_base level ipa' =? ipa)
  | _ => false
  end.

Definition under (rd level ipa : Z) (st : rmm_gran) : bool :=
  match st with
  | IsData rd' ipa' => (rd' =? rd) && (table_base level ipa' =? ipa)
  | _ => subtable rd level ipa st
  end.

(** "Rtt(walk(ipa, level-1).addr) = Non live" and "= Homogeneous". *)
Definition non_live (s : Z → rmm_gran) (rd level ipa : Z) : Prop :=
  ∀ q, under rd level ipa (s q) = false.

Definition homogeneous (s : Z → rmm_gran) (rd level ipa : Z) : Prop :=
  non_live s rd level ipa ∨
  (∀ q, subtable rd level ipa (s q) = false) ∧
  ∀ page, (PAGE_SIZE | page) → table_base level page = ipa → ∃ q, s q = IsData rd page.

(** "level = {1, 2, 3} if start level is level 0", "ipa = (level-1)_aligned" and
    "walk(ipa).level = level - 1". *)
Definition table_place (start : Z → Z) (s : Z → rmm_gran) (rd ipa level : Z) : Prop :=
  start rd < level ≤ 3 ∧ table_base level ipa = ipa ∧ reaches start s rd (level - 1) ipa.

(** The documented conditions on the granules and tables of a command. *)
Definition documented (start : Z → Z) (c : rmi_cmd) (s : Z → rmm_gran) : Prop :=
  allowed c s ∧
  match c with
  | CDataCreate rd _ ipa _ _ | CDataCreateUnknown rd _ ipa | CDataDestroy rd ipa => reaches start s rd 3 ipa
  | CRttCreate rd _ ipa level => table_place start s rd ipa level
  | CRttDestroy rd ipa level => table_place start s rd ipa level ∧ non_live s rd level ipa
  | CRttFold rd ipa level => table_place start s rd ipa level ∧ homogeneous s rd level ipa
  | _ => True
  end.

(** [s'] is [s] with [a] in state [st], and [also] the only other change. *)
Definition sets (a : Z) (st : rmm_gran) (also : rmm_gran → rmm_gran → Prop) (s s' : Z → rmm_gran) :
    Prop :=
  s' a = st ∧ ∀ q, q ≠ a → s' q = s q ∨ also (s q) (s' q).

Definition nothing : rmm_gran → rmm_gran → Prop := λ _ _, False.

(** [s'] is [s] with the granules in state [st] released. *)
Definition releases (st : rmm_gran) (s s' : Z → rmm_gran) : Prop :=
  ∀ q, s' q = if decide (s q = st) then Delegated else s q.

(** [s'] is [s] with [a] and the granules in state [st] released. *)
Definition releases_with (a : Z) (st : rmm_gran) (s s' : Z → rmm_gran) : Prop :=
  s' a = Delegated ∧ ∀ q, q ≠ a → s' q = if decide (s q = st) then Delegated else s q.

(** What a command that succeeded changed.  REALM_CREATE and REC_CREATE also take
    the delegated granules named in their parameters; the matching destroy
    commands release them. *)
Definition effect (c : rmi_cmd) (s s' : Z → rmm_gran) : Prop :=
  match c with
  | CGranuleDelegate a => sets a Delegated nothing s s'
  | CGranuleUndelegate a => sets a Undelegated nothing s s'
  | CDataCreate rd data ipa _ _ | CDataCreateUnknown rd data ipa =>
      sets data (IsData rd ipa) nothing s s'
  | CDataDestroy rd ipa => releases (IsData rd ipa) s s'
  | CRealmCreate rd _ => sets rd IsRd (λ x y, x = Delegated ∧ y = IsRoot rd) s s'
  | CRealmDestroy rd => releases_with rd (IsRoot rd) s s'
  | CRecCreate rd rec _ => sets rec (IsRec rd) (λ x y, x = Delegated ∧ y = IsRecAux rec) s s'
  | CRecDestroy rec => releases_with rec (IsRecAux rec) s s'
  | CRttCreate rd rtt ipa level => sets rtt (IsRtt rd ipa level) nothing s s'
  | CRttFold rd ipa level | CRttDestroy rd ipa level => releases (IsRtt rd ipa level) s s'
  | _ => False
  end.

(** A monitor that keeps to this: a command that reports success was allowed and
    had its effect, one that reports an error changed no granule. *)
Class Conforming (W : Type) `{RMM W} : Type := {
  gran : W → Z → rmm_gran;
  gran_law : ∀ w m c, in_scope c = true →
    let '(w', _, r) := smc w m (cmd_args c) in
    if truthy (x0 r) then ∀ q, gran w' q = gran w q
    else allowed c (gran w) ∧ effect c (gran w) (gran w')
}.

(** A monitor that keeps to the conditions on tables as well.  The starting level
    of a Realm is that of its parameters.  In a world that is [private] no page is
    mapped unprotected or by an auxiliary table and no REC is running: mappings and
    states the commands in scope neither need nor make, and which a monitor may
    have.  RMI_FEATURES is a query. *)
Class Documented (W : Type) `{Conforming W} : Type := {
  start_level : W → Z → Z;
  private : W → Prop;
  start_range : ∀ w rd, 0 ≤ start_level w rd;
  doc_law : ∀ w m c, in_scope c = true →
    let '(w', _, r) := smc w m (cmd_args c) in
    (truthy (x0 r) = false → documented (start_level w) c (gran w)) ∧
    (∀ rd, gran w rd = IsRd → gran w' rd = IsRd → start_level w' rd = start_level w rd) ∧
    (private w → private w');
  query_law : ∀ w m i,
    let '(w', _, _) := smc w m (mk_smc RMI_FEATURES i 0 0 0 0 0 0 0 0 0) in
    (∀ q, gran w' q = gran w q) ∧ (∀ rd, start_level w' rd = start_level w rd) ∧
    (private w → private w')
}.

(** * A documented monitor

    The world is the map of the granules that are not Undelegated.  The starting
    level of every Realm is 0, the creation of Realms and RECs takes no further
    granules, a fold is of a table that is not live, and every other command
    succeeds exactly when it meets its documented conditions. *)
Definition state_of (w : gmap Z rmm_gran) (q : Z) : rmm_gran := default Undelegated (w !! q).

Definition has (w : gmap Z rmm_gran) (P : rmm_gran → bool) : bool :=
  existsb (λ '(_, st), P st) (map_to_list w).

Definition is_state (st : rmm_gran) (x : rmm_gran) : bool := bool_decide (x = st).

(** The conditions on tables, with 0 for the starting level. *)
Definition has_tables (w : gmap Z rmm_gran) (rd level ipa : Z) : bool :=
  forallb (λ k, negb (k <=? level) || has w (is_state (IsRtt rd (table_base k ipa) k))) [1; 2; 3].

Definition has_place (w : gmap Z rmm_gran) (rd ipa level : Z) : bool :=
  (0 <? level) && (level <=? 3) && (table_base level ipa =? ipa) && has_tables w rd (level - 1) ipa.

(** Status and new world. *)
Definition ledger_step (w : gmap Z rmm_gran) (a : val_smc_param_ts) : Z * gmap Z rmm_gran :=
  let when (b : bool) (w' : gmap Z rmm_gran) := if b then (0, w') else (RMI_ERROR_INPUT, w) in
  let release st := (λ x, if decide (x = st) then Delegated else x) <$> w in
  let in_state q st := bool_decide (state_of w q = st) in
  if x0 a =? RMI_GRANULE_DELEGATE then
    when (in_state (x1 a) Undelegated && (x1 a mod PAGE_SIZE =? 0)) (<[x1 a := Delegated]> w)
  else if x0 a =? RMI_GRANULE_UNDELEGATE then when (in_state (x1 a) Delegated) (delete (x1 a) w)
  else if (x0 a =? RMI_DATA_CREATE) || (x0 a =? RMI_DATA_CREATE_UNKNOWN) then
    when (in_state (x2 a) Delegated && in_state (x1 a) IsRd &&
          negb (has w (is_state (IsData (x1 a) (x3 a)))) && has_tables w (x1 a) 3 (x3 a))
      (<[x2 a := IsData (x1 a) (x3 a)]> w)
  else if x0 a =? RMI_DATA_DESTROY then
    when (in_state (x1 a) IsRd && has w (is_state (IsData (x1 a) (x2 a))) && has_tables w (x1 a) 3 (x2 a))
      (release (IsData (x1 a) (x2 a)))
  else if x0 a =? RMI_REALM_CREATE then when (in_state (x1 a) Delegated) (<[x1 a := IsRd]> w)
  else if x0 a =? RMI_REALM_DESTROY then
    when (in_state (x1 a) IsRd && negb (has w (λ x, bool_decide (owner x = Some (x1 a)))))
      (<[x1 a := Delegated]> (release (IsRoot (x1 a))))
  else if x0 a =? RMI_REC_CREATE then
    when (in_state (x2 a) Delegated && in_state (x1 a) IsRd) (<[x2 a := IsRec (x1 a)]> w)
  else if x0 a =? RMI_REC_DESTROY then
    when (match state_of w (x1 a) with IsRec _ => true | _ => false end)
      (<[x1 a := Delegated]> (release (IsRecAux (x1 a))))
  else if x0 a =? RMI_RTT_CREATE then
    when (in_state (x2 a) Delegated && in_state (x1 a) IsRd &&
          negb (has w (is_state (IsRtt (x1 a) (x3 a) (x4 a)))) && has_place w (x1 a) (x3 a) (x4 a))
      (<[x2 a := IsRtt (x1 a) (x3 a) (x4 a)]> w)
  else if (x0 a =? RMI_RTT_FOLD) || (x0 a =? RMI_RTT_DESTROY) then
    when (in_state (x1 a) IsRd && has w (is_state (IsRtt (x1 a) (x2 a) (x3 a))) &&
          has_place w (x1 a) (x2 a) (x3 a) && negb (has w (under (x1 a) (x3 a) (x2 a))))
      (release (IsRtt (x1 a) (x2 a) (x3 a)))
  else (0, w).

#[export] Instance ledger_rmm : RMM (gmap Z rmm_gran) := {
  smc w m a := let '(st, w') := ledger_step w a in (w', m, answer st 0);
  RMM_V_1_1 := true;
  val_get_shared_region_base_pa := PLATFORM_SHARED_REGION_BASE;
  VAL_NS_SHARED_REGION_IPA_OFFSET := 0x600000
}.

Lemma has_spec (w : gmap Z rmm_gran) P : P Undelegated = false → has w P = true ↔ ∃ q, P (state_of w q) = true.
Proof.
  intros HU. unfold has. rewrite existsb_exists. split.
  - intros ([q st] & Hin%list_elem_of_In%elem_of_map_to_list & HP). exists q.
    unfold state_of. by rewrite Hin.
  - intros [q HP]. unfold state_of in HP. destruct (w !! q) as [st|] eqn:E; cbn in HP; [|congruence].
    exists (q, st). split; [|done]. by apply list_elem_of_In, elem_of_map_to_list.
Qed.

Lemma has_state (w : gmap Z rmm_gran) st : st ≠ Undelegated → has w (is_state st) = true ↔ ∃ q, state_of w q = st.
Proof.
  intros Hs. rewrite has_spec; unfold is_state; [|by apply bool_decide_eq_false_2].
  by setoid_rewrite bool_decide_eq_true.
Qed.

Lemma has_no_state (w : gmap Z rmm_gran) st :
  st ≠ Undelegated → negb (has w (is_state st)) = true → ∀ q, state_of w q ≠ st.
Proof.
  intros Hs Hn q Hq. apply negb_true_iff in Hn.
  enough (has w (is_state st) = true) by congruence. apply has_state; eauto.
Qed.

Lemma has_no_owner (w : gmap Z rmm_gran) rd :
  negb (has w (λ x, bool_decide (owner x = Some rd))) = true → ∀ q, owner (state_of w q) ≠ Some rd.
Proof.
  intros Hn q Hq. apply negb_true_iff in Hn.
  enough (has w (λ x, bool_decide (owner x = Some rd)) = true) by congruence.
  apply has_spec; [done|]. exists q. by apply bool_decide_eq_true.
Qed.

Lemma state_of_insert (w : gmap Z rmm_gran) a st : sets a st nothing (state_of w) (state_of (<[a := st]> w)).
Proof.
  unfold sets, state_of. rewrite lookup_insert_eq. split; [done|].
  intros q Hq. left. by rewrite lookup_insert_ne.
Qed.

Lemma state_of_delete (w : gmap Z rmm_gran) a : sets a Undelegated nothing (state_of w) (state_of (delete a w)).
Proof.
  unfold sets, state_of. rewrite lookup_delete_eq. split; [done|].
  intros q Hq. left. by rewrite lookup_delete_ne.
Qed.

Lemma state_of_release (w : gmap Z rmm_gran) st :
  st ≠ Undelegated →
  releases st (state_of w) (state_of ((λ x, if decide (x = st) then Delegated else x) <$> w)).
Proof.
  intros Hs q. unfold state_of. rewrite lookup_fmap. destruct (w !! q) as [x|]; cbn.
  - done.
  - by rewrite decide_False.
Qed.

Lemma state_of_release_with (w : gmap Z rmm_gran) a st :
  st ≠ Undelegated →
  releases_with a st (state_of w)
    (state_of (<[a := Delegated]> ((λ x, if decide (x = st) then Delegated else x) <$> w))).
Proof.
  intros Hs. split; [unfold state_of; by rewrite lookup_insert_eq|]. intros q Hq.
  rewrite <- (state_of_release w st Hs q). unfold state_of. by rewrite lookup_insert_ne.
Qed.

Lemma sets_also a st also s s' : sets a st nothing s s' → sets a st also s s'.
Proof. intros [H1 H2]. split; [done|]. intros q Hq. destruct (H2 q Hq) as [|[]]. by left. Qed.

Lemma has_tables_spec (w : gmap Z rmm_gran) rd level ipa :
  level ≤ 3 → has_tables w rd level ipa = true ↔ reaches (λ _, 0) (state_of w) rd level ipa.
Proof.
  intros Hle. unfold has_tables. rewrite forallb_forall.
  assert (∀ k, negb (k <=? level) || has w (is_state (IsRtt rd (table_base k ipa) k)) = true ↔
    (k ≤ level → table_at (state_of w) rd k ipa)) as Hk.
  { intros k. rewrite orb_true_iff, negb_true_iff, Z.leb_gt, has_state by done.
    unfold table_at. split; [intros [?|?] ?; [lia|done]|].
    intros Ht. destruct (decide (k ≤ level)); [right; by apply Ht|left; lia]. }
  split.
  - intros Hf k Hr. apply Hk; [|lia]. apply Hf. cbn. lia.
  - intros Hr k Hin. apply Hk. intros Hkl. apply Hr. cbn in Hin. lia.
Qed.

Lemma has_place_spec (w : gmap Z rmm_gran) rd ipa level :
  has_place w rd ipa level = true ↔ table_place (λ _, 0) (state_of w) rd ipa level.
Proof.
  unfold has_place, table_place. rewrite !andb_true_iff, Z.ltb_lt, Z.leb_le, Z.eqb_eq.
  split; intros; destruct_and?; (split_and!; try done; apply has_tables_spec; [lia|done]).
Qed.

Lemma has_none_spec (w : gmap Z rmm_gran) P :
  P Undelegated = false → negb (has w P) = true ↔ ∀ q, P (state_of w q) = false.
Proof.
  intros HU. rewrite negb_true_iff. split.
  - intros Hn q. destruct (P (state_of w q)) eqn:E; [|done].
    rewrite <- Hn. symmetry. apply has_spec; [done|by exists q].
  - intros Hn. destruct (has w P) eqn:E; [|done]. apply has_spec in E as [q Hq]; [|done]. by rewrite Hn in Hq.
Qed.

#[export] Instance ledger_conforming : Conforming (gmap Z rmm_gran).
Proof.
  refine {| gran := state_of |}. intros w m c Hc. unfold smc, ledger_rmm, ledger_step.
  destruct c; try done; cbn -[has has_tables has_place state_of Z.modulo];
    (match goal with |- context [if ?b then (0, _) else _] => destruct b eqn:Hb end; cbn; [|done]);
    rewrite ?andb_true_iff, ?bool_decide_eq_true, ?Z.eqb_eq in Hb; destruct_and?;
    (split; [repeat split; auto|]);
    eauto using sets_also, state_of_insert, state_of_delete, state_of_release.
  all: try (by apply has_no_state); try (by apply has_no_owner); try (by apply has_state);
    try (by apply state_of_release); try (by apply state_of_release_with).
  - apply Z.mod_divide; [done|]. done.
  - destruct (state_of w rec) eqn:E; try done. by eexists.
Defined.

(** The conditions the ledger adds to [allowed]. *)
Lemma ledger_tables (w : gmap Z rmm_gran) m c :
  in_scope c = true → truthy (x0 (smc w m (cmd_args c)).2) = false → documented (λ _, 0) c (state_of w).
Proof.
  intros Hc Hr. pose proof (gran_law w m c Hc) as Hl. split.
  { destruct (smc w m (cmd_args c)) as [[w' m'] r]. cbn in Hr. rewrite Hr in Hl. apply Hl. }
  clear Hl. unfold smc, ledger_rmm, ledger_step in Hr. destruct c; try done;
    cbn -[has has_tables has_place state_of Z.modulo] in Hr;
    (match type of Hr with context [if ?b then (0, _) else _] => destruct b eqn:Hb end; cbn in Hr; [|done]);
    rewrite ?andb_true_iff, ?has_tables_spec, ?has_place_spec, ?has_none_spec in Hb by done; destruct_and?;
    split_and?; try done; try (by left); apply has_none_spec; done.
Qed.

#[export] Instance ledger_documented : Documented (gmap Z rmm_gran).
Proof.
  refine {| start_level _ _ := 0; private _ := True |}; [done| |by intros].
  intros w m c Hc. pose proof (ledger_tables w m c Hc) as Ht.
  destruct (smc w m (cmd_args c)) as [[w' m'] r]. by split.
Defined.

(** The ledger accepts the commands that destroy and undelegate when they meet
    their documented conditions. *)
Definition shrinks (c : rmi_cmd) : bool :=
  match c with
  | CGranuleUndelegate _ | CDataDestroy _ _ | CRealmDestroy _ | CRecDestroy _ | CRttDestroy _ _ _ => true
  | _ => false
  end.

Lemma ledger_accepts (w : gmap Z rmm_gran) m c :
  shrinks c = true → documented (λ _, 0) c (state_of w) → truthy (x0 (smc w m (cmd_args c)).2) = false.
Proof.
  intros Hc [Ha Hd]. unfold smc, ledger_rmm, ledger_step.
  destruct c; try done; cbn -[has has_tables has_place state_of Z.modulo] in Ha, Hd |- *;
    (match goal with |- context [if ?b then (0, _) else _] => enough (b = true) as -> by done end);
    rewrite ?andb_true_iff, ?has_tables_spec, ?has_place_spec, ?has_none_spec, ?bool_decide_eq_true by done;
    destruct_and?; split_and?; try done; try (by apply has_state).
  - intros q. by apply bool_decide_eq_false_2.
  - by destruct Ha as [rd ->].
Qed.
