(* ===== verification/Tracks.v ===== *)
(** The linked lists of the tracker as a map: [tracks g L T] says that [T] gives
    for the address of a granule its slot, its list and its descriptor.  The
    operations of the tracker are stated as updates of this map. *)
From S2P Require Import Prelude Defs Alloc Granule GranuleInv GranuleSpec RmiFacts.

(** * From linked lists to a map *)

(** The lists of the granules that the monitor manages one by one. *)
Definition scoped (f : gfield) : Prop := f ≠ RttAux ∧ f ≠ ValidNs.

(** [T] gives for a granule the slot, the list and the descriptor, the link aside. *)
Record tracks (g : gstate) (L : layout) (T : gmap Z (nat * gfield * val_host_granule_ts)) : Prop := {
  tr_in : ∀ i f a n, scoped f → a ∈ L i f → nodes g !! a = Some n →
    T !! gr_PA n = Some (i, f, set_next 0 n);
  tr_out : ∀ PA i f n, T !! PA = Some (i, f, n) → scoped f ∧ gr_PA n = PA ∧
    ∃ a n', a ∈ L i f ∧ nodes g !! a = Some n' ∧ set_next 0 n' = n;
  tr_inj : ∀ i f a n j h b m, scoped f → scoped h → a ∈ L i f → b ∈ L j h →
    nodes g !! a = Some n → nodes g !! b = Some m → gr_PA n = gr_PA m → a = b
}.

(** The members of the lists, [a] apart. *)
Definition same_but (a : Z) (L L' : layout) : Prop :=
  ∀ j h b, b ≠ a → b ∈ L' j h ↔ b ∈ L j h.

(** The lists themselves, [a] apart. *)
Definition shifts (a : Z) (L L' : layout) : Prop :=
  ∀ j h, filter (λ b, b ≠ a) (L' j h) = filter (λ b, b ≠ a) (L j h).

Lemma shifts_same_but a L L' : shifts a L L' → same_but a L L'.
Proof.
  intros HL j h b Hb. specialize (HL j h). split; intros Hin.
  - assert (b ∈ filter (λ b, b ≠ a) (L' j h)) as Hf by (by apply list_elem_of_filter).
    rewrite HL in Hf. by apply list_elem_of_filter in Hf as [_ ?].
  - assert (b ∈ filter (λ b, b ≠ a) (L j h)) as Hf by (by apply list_elem_of_filter).
    rewrite <- HL in Hf. by apply list_elem_of_filter in Hf as [_ ?].
Qed.

(** Every other descriptor keeps its contents. *)
Definition data_but (a : Z) (g g' : gstate) : Prop :=
  ∀ b n, b ≠ a → nodes g !! b = Some n → ∃ n', nodes g' !! b = Some n' ∧ same_gran n n'.

(** The descriptor of another granule, after a change at [a]. *)
Lemma before g L g' L' a j h b m :
  wf g L → same_but a L L' → data_but a g g' → b ≠ a → b ∈ L' j h → nodes g' !! b = Some m →
  b ∈ L j h ∧ ∃ n, nodes g !! b = Some n ∧ same_gran n m.
Proof.
  intros W HL HD Hb Hin E. apply HL in Hin; [|done]. split; [done|].
  destruct (wf_node _ _ _ _ _ W Hin) as [_ [n En]]. exists n. split; [done|].
  destruct (HD b n Hb En) as (m' & E' & S). by simplify_eq.
Qed.

(** Three ways in which one entry changes.  [T'] agrees with the lists on [a],
    and the rest is as before. *)
Lemma tracks_one g L T g' L' a (T' : gmap Z (nat * gfield * val_host_granule_ts)) PA :
  wf g L → tracks g L T → same_but a L L' → data_but a g g' →
  ((∃ i f n, scoped f ∧ a ∈ L i f ∧ nodes g !! a = Some n ∧ gr_PA n = PA) ∨
   loose L a ∧ T !! PA = None) →
  (∀ q, q ≠ PA → T' !! q = T !! q) →
  (∀ i f n, scoped f → a ∈ L' i f → nodes g' !! a = Some n →
     gr_PA n = PA ∧ T' !! PA = Some (i, f, set_next 0 n)) →
  (∀ i f n, T' !! PA = Some (i, f, n) → scoped f ∧ gr_PA n = PA ∧
     a ∈ L' i f ∧ ∃ n', nodes g' !! a = Some n' ∧ set_next 0 n' = n) →
  tracks g' L' T'.
Proof.
  intros W TR HL HD Hold Hq Hin Hout.
  assert (∀ i f b m, scoped f → b ≠ a → b ∈ L' i f → nodes g' !! b = Some m →
    gr_PA m ≠ PA ∧ T !! gr_PA m = Some (i, f, set_next 0 m)) as Hother.
  { intros i f b m Hf Hb Hi E. destruct (before g L g' L' a i f b m) as (Hi0 & n & En & S); [done..|].
    pose proof (tr_in _ _ _ TR i f b n Hf Hi0 En) as HT. rewrite (same_gran_PA _ _ S) in HT.
    rewrite S in HT. split; [|done]. intros Hpa.
    destruct Hold as [(j & h & na & Hh & Ha & Ea & Hpa')|[_ HN]]; [|by rewrite Hpa, HN in HT].
    apply Hb. eapply (tr_inj _ _ _ TR i f b n j h a na); try done.
    by rewrite Hpa', (same_gran_PA _ _ S). }
  split.
  - intros i f b m Hf Hi E. destruct (decide (b = a)) as [->|Hb].
    + by destruct (Hin i f m Hf Hi E) as [-> ?].
    + destruct (Hother i f b m Hf Hb Hi E) as [Hne HT]. by rewrite Hq.
  - intros q i f n HT. destruct (decide (q = PA)) as [->|Hne].
    + destruct (Hout i f n HT) as (? & ? & ? & n' & ? & ?). split; [done|]. split; [done|]. by exists a, n'.
    + rewrite Hq in HT by done. destruct (tr_out _ _ _ TR _ _ _ _ HT) as (Hf & Hpa & b & n0 & Hb & E & S).
      split; [done|]. split; [done|].
      assert (b ≠ a) as Hba.
      { intros ->. destruct Hold as [(j & h & na & Hh & Ha & Ea & Hpa')|[Hlo _]]; [|by eapply Hlo].
        rewrite E in Ea. injection Ea as ->. apply Hne. rewrite <- Hpa, <- Hpa'. by rewrite <- S. }
      destruct (HD b n0 Hba E) as (n1 & E1 & S1). exists b, n1.
      split; [by apply HL|]. split; [done|]. unfold same_gran in S1. congruence.
  - intros i f b n j h c m Hf Hh Hb Hc En Em Hpa.
    destruct (decide (b = a)) as [->|Hba], (decide (c = a)) as [->|Hca]; [done|..].
    + destruct (Hin i f n Hf Hb En) as [Hn _]. destruct (Hother j h c m Hh Hca Hc Em) as [Hm _]. congruence.
    + destruct (Hin j h m Hh Hc Em) as [Hn _]. destruct (Hother i f b n Hf Hba Hb En) as [Hm _]. congruence.
    + destruct (before g L g' L' a i f b n) as (Hb0 & n0 & En0 & S0); [done..|].
      destruct (before g L g' L' a j h c m) as (Hc0 & m0 & Em0 & S1); [done..|].
      eapply (tr_inj _ _ _ TR i f b n0 j h c m0); try done.
      by rewrite (same_gran_PA _ _ S0), (same_gran_PA _ _ S1).
Qed.

(** An entry is added. *)
Lemma tracks_add g L T g' L' a i f n :
  wf g L → tracks g L T → same_but a L L' → data_but a g g' → scoped f →
  loose L a → T !! gr_PA n = None → (∀ j h, a ∈ L' j h ↔ j = i ∧ h = f) →
  nodes g' !! a = Some n → tracks g' L' (<[gr_PA n := (i, f, set_next 0 n)]> T).
Proof.
  intros W TR HL HD Hf Hlo HN Ha E.
  eapply (tracks_one g L T g' L' a _ (gr_PA n)); [done..|by right| | |].
  - intros q Hq. by rewrite lookup_insert_ne.
  - intros j h m Hh [-> ->]%Ha Em. simplify_eq. by rewrite lookup_insert_eq.
  - intros j h m. rewrite lookup_insert_eq. intros [= <- <- <-]. rewrite Ha.
    split; [done|]. split; [done|]. eauto.
Qed.

(** An entry moves, and its descriptor changes by [F]. *)
Lemma tracks_move g L T g' L' a i f n j h F :
  wf g L → tracks g L T → same_but a L L' → scoped f → scoped h → a ∈ L i f →
  nodes g !! a = Some n → data_change g g' a F → (∀ n, gr_PA (F n) = gr_PA n) →
  (∀ k e, a ∈ L' k e ↔ k = j ∧ e = h) →
  tracks g' L' (<[gr_PA n := (j, h, set_next 0 (F n))]> T).
Proof.
  intros W TR HL Hf Hh Hi E [Hc HD] HF Ha.
  destruct (Hc n E) as (n' & E' & S).
  assert (gr_PA n' = gr_PA n) as Hpa by (rewrite <- (HF n); symmetry; by apply same_gran_PA).
  eapply (tracks_one g L T g' L' a _ (gr_PA n)); [done..|left; by exists i, f, n| | |].
  - intros q Hq. by rewrite lookup_insert_ne.
  - intros k e m He [-> ->]%Ha Em. simplify_eq. rewrite lookup_insert_eq. split; [done|].
    by rewrite S.
  - intros k e m. rewrite lookup_insert_eq. intros [= <- <- <-]. rewrite Ha.
    split; [done|]. split; [exact (HF n)|]. eauto.
Qed.

(** An entry is deleted. *)
Lemma tracks_delete g L T g' L' a i f n :
  wf g L → tracks g L T → same_but a L L' → data_but a g g' → scoped f → a ∈ L i f →
  nodes g !! a = Some n → loose L' a → tracks g' L' (delete (gr_PA n) T).
Proof.
  intros W TR HL HD Hf Hi E Hlo.
  eapply (tracks_one g L T g' L' a _ (gr_PA n)); [done..|left; by exists i, f, n| | |].
  - intros q Hq. by rewrite lookup_delete_ne.
  - intros j h m Hh Ha. by apply Hlo in Ha.
  - intros j h m. by rewrite lookup_delete_eq.
Qed.

(** * What the operations do to the members of the lists *)

Lemma in_upd L i f l j h b : b ∈ upd L i f l j h ↔ (j = i ∧ h = f ∧ b ∈ l) ∨ (¬ (j = i ∧ h = f) ∧ b ∈ L j h).
Proof. unfold upd. case_decide; naive_solver. Qed.

Lemma filter_out_app (a : Z) l1 l2 :
  filter (λ b, b ≠ a) (l1 ++ a :: l2) = filter (λ b, b ≠ a) (l1 ++ l2).
Proof. rewrite !filter_app, filter_cons_False; [done|]. by intros []. Qed.

Lemma members_removed g L i f l1 a l2 :
  wf g L → L i f = l1 ++ a :: l2 →
  shifts a L (upd L i f (l1 ++ l2)) ∧ loose (upd L i f (l1 ++ l2)) a.
Proof.
  intros W E. pose proof (wf_nodup _ _ W i f) as Hnd. rewrite E in Hnd.
  rewrite <- (Permutation_middle l1 l2 a) in Hnd. apply NoDup_cons in Hnd as [Ha _]. split.
  - intros j h. unfold upd. case_decide as Hd; [|done]. destruct Hd as [-> ->].
    by rewrite E, filter_out_app.
  - intros j h. rewrite in_upd. intros [(-> & -> & Hin)|[Hne Hin]]; [done|].
    apply Hne. eapply (wf_disj _ _ W); [done|]. rewrite E. set_solver.
Qed.

Lemma members_added L i f a :
  loose L a →
  shifts a L (upd L i f (L i f ++ [a])) ∧
  ∀ j h, a ∈ upd L i f (L i f ++ [a]) j h ↔ j = i ∧ h = f.
Proof.
  intros Hlo. split.
  - intros j h. unfold upd. case_decide as Hd; [|done]. destruct Hd as [-> ->].
    by rewrite filter_out_app, app_nil_r.
  - intros j h. rewrite in_upd. specialize (Hlo j h). set_solver.
Qed.

Lemma members_moved g L i f l1 a l2 j h :
  wf g L → L i f = l1 ++ a :: l2 → ¬ (j = i ∧ h = f) →
  shifts a L (upd (upd L i f (l1 ++ l2)) j h (L j h ++ [a])) ∧
  ∀ k e, a ∈ upd (upd L i f (l1 ++ l2)) j h (L j h ++ [a]) k e ↔ k = j ∧ e = h.
Proof.
  intros W E Hne. destruct (members_removed g L i f l1 a l2 W E) as [H1 H2].
  destruct (members_added _ j h a H2) as [H3 H4]. rewrite (upd_ne _ i f _ j h) in H3, H4 by done.
  split; [|done]. intros k e. by rewrite H3, H1.
Qed.

(** * The operations on the map *)

(** A granule found in a list through the map. *)
Lemma tracked_hits g L T (test : val_host_granule_ts → bool) i f PA n :
  wf g L → tracks g L T → (∀ n n', same_gran n n' → test n = test n') →
  T !! PA = Some (i, f, n) → test n = true →
  ∃ l1 a l2 na, hits (nodes g) test (L i f) l1 a l2 ∧ nodes g !! a = Some na ∧ test na = true ∧
    T !! gr_PA na = Some (i, f, set_next 0 na) ∧ a ∈ L i f.
Proof.
  intros W TR Hb HT Ht. destruct (tr_out _ _ _ TR _ _ _ _ HT) as (Hf & _ & a & n' & Ha & E & S).
  assert (test n' = true) as Ht'.
  { rewrite <- Ht. apply Hb. rewrite <- S. unfold same_gran. by destruct n'. }
  pose proof (wf_in_range _ _ _ _ _ W Ha) as Hi.
  destruct (search_cases _ test _ _ (wf_lists _ _ W i f Hi)) as [Hm|(l1 & b & l2 & Hh)].
  - rewrite (Hm a n') in Ht'; done.
  - destruct (proj2 (proj2 Hh)) as (nb & Eb & Htb).
    assert (b ∈ L i f) as Hin by (rewrite (proj1 Hh); set_solver).
    exists l1, b, l2, nb. split; [done|]. split; [done|]. split; [done|].
    split; [|done]. by apply (tr_in _ _ _ TR i f b nb).
Qed.

(** The descriptors of the lists keep their granules. *)
Definition kept_PA (g : gstate) (L : layout) (g' : gstate) : Prop :=
  ∀ i f b n, b ∈ L i f → nodes g !! b = Some n → ∃ n', nodes g' !! b = Some n' ∧ gr_PA n' = gr_PA n.

(** The state after an operation that moved granule [q] and made [T'] of the map,
    with the RDs [R] and the current Realm [c]. *)
Definition now (q : Z) (g : gstate) (L : layout) (T' : gmap Z (nat * gfield * val_host_granule_ts))
    (R : list Z) (c : nat) (g' : gstate) : Prop :=
  ∃ L', wf g' L' ∧ tracks g' L' T' ∧ rds g' = R ∧ current_realm g' = c ∧
    (∀ j e, ¬ scoped e → L' j e = L j e) ∧ kept_PA g L g' ∧
    ∀ a i f n, scoped f → a ∈ L i f → nodes g !! a = Some n → gr_PA n = q →
      shifts a L L' ∧
      ∀ j h m, T' !! q = Some (j, h, m) → a ∈ L' j h.

Lemma now_intro g L T T' R c g' L' a i f n :
  tracks g L T → scoped f → a ∈ L i f → nodes g !! a = Some n → shifts a L L' →
  wf g' L' → tracks g' L' T' → rds g' = R → current_realm g' = c →
  (∀ j e, ¬ scoped e → L' j e = L j e) → kept_PA g L g' →
  (∀ j h m, T' !! gr_PA n = Some (j, h, m) → a ∈ L' j h) →
  now (gr_PA n) g L T' R c g'.
Proof.
  intros TR Hf Ha E Hs W' TR' HR Hc Hpl Hn Hat. exists L'. do 6 (split; [done|]). intros b j h m Hh Hb Em Hpa.
  by rewrite (tr_inj _ _ _ TR j h b m i f a n Hh Hf Hb Ha Em E Hpa).
Qed.

Lemma data_change_PA g L g' a F :
  data_change g g' a F → (∀ n, gr_PA (F n) = gr_PA n) → kept_PA g L g'.
Proof.
  intros [Hc Ho] HF i f b n _ E. destruct (decide (b = a)) as [->|Hb].
  - destruct (Hc n E) as (n' & E' & S). exists n'. split; [done|]. by rewrite <- (same_gran_PA _ _ S).
  - destruct (Ho b n Hb E) as (n' & E' & S). exists n'. split; [done|]. by rewrite <- (same_gran_PA _ _ S).
Qed.

(** The new entry says where the descriptor is. *)
Lemma in_new (T : gmap Z (nat * gfield * val_host_granule_ts)) (L' : layout) a q i f n :
  (∀ k e, a ∈ L' k e ↔ k = i ∧ e = f) →
  ∀ j h m, <[q := (i, f, n)]> T !! q = Some (j, h, m) → a ∈ L' j h.
Proof. intros HL j h m. rewrite lookup_insert_eq. intros [= <- <- <-]. by apply HL. Qed.

(** The lists out of scope. *)
Lemma unscoped_upd L i f l : scoped f → ∀ j e, ¬ scoped e → upd L i f l j e = L j e.
Proof. intros Hf j e He. apply upd_ne. by intros [_ ->]. Qed.

Lemma unscoped_upd2 L i f l i2 f2 l2 :
  scoped f → scoped f2 → ∀ j e, ¬ scoped e → upd (upd L i f l) i2 f2 l2 j e = L j e.
Proof. intros Hf Hf2 j e He. by rewrite !unscoped_upd. Qed.


(** Neither a part of a larger granule nor mapped by an auxiliary plane. *)
Definition clean (n : val_host_granule_ts) : Prop :=
  gr_is_granule_sliced n = 0 ∧ gr_has_auxiliary n = replicate VAL_MAX_AUX_PLANES false.

Definition same_flags (n n' : val_host_granule_ts) : Prop :=
  gr_is_granule_sliced n' = gr_is_granule_sliced n ∧ gr_has_auxiliary n' = gr_has_auxiliary n.

Lemma same_flags_clean n n' : same_flags n n' → clean n → clean n'.
Proof. unfold same_flags, clean. intuition congruence. Qed.

Lemma has_PA_blind PA n n' : same_gran n n' → has_PA PA n = has_PA PA n'.
Proof. intros S. unfold has_PA. by rewrite (same_gran_PA _ _ S). Qed.

(** The granule of the Non-secure list with a given address. *)
Lemma ns_hits g L T PA n :
  wf g L → tracks g L T → T !! PA = Some (0%nat, Ns, n) →
  ∃ l1 a l2 na, hits (nodes g) (has_PA PA) (L 0%nat Ns) l1 a l2 ∧ nodes g !! a = Some na ∧
    gr_PA na = PA ∧ set_next 0 na = n ∧ a ∈ L 0%nat Ns.
Proof.
  intros W TR HT. destruct (tr_out _ _ _ TR _ _ _ _ HT) as (_ & Hpa & _).
  destruct (tracked_hits g L T (has_PA PA) 0 Ns PA n W TR (has_PA_blind PA) HT)
    as (l1 & a & l2 & na & Hh & E & Ht & HT' & Ha); [by apply Z.eqb_eq|].
  apply Z.eqb_eq in Ht. rewrite Ht, HT in HT'. injection HT' as ->. by exists l1, a, l2, na.
Qed.

Lemma op_delegate g L T PA :
  wf g L → tracks g L T → T !! PA = None →
  (heap_room g ∧ run_to (exec (GAdd GRANULE_DELEGATED PA)) g (λ _ g', ∃ n,
     clean n ∧ gr_state n = GRANULE_DELEGATED ∧
     now PA g L (<[PA := (0%nat, Ns, n)]> T) (rds g) (current_realm g) g')) ∨
  (¬ heap_room g ∧ exec (GAdd GRANULE_DELEGATED PA) g = Fault NullDeref).
Proof.
  intros W TR HN. destruct (add_new_spec g L GRANULE_DELEGATED PA W) as [[Hr Ha]|Hno]; [left|by right].
  split; [done|]. eapply run_to_mono; [exact Ha|]. clear Ha.
  intros _ g' (p & Hlo & W' & HR & HD & HC & n & E & Hpa & Hst & Hs & Hx).
  exists (set_next 0 n). split; [done|]. split; [done|].
  destruct (members_added L 0 Ns p Hlo) as [H1 H2].
  eexists. split; [exact W'|]. split.
  { rewrite <- Hpa. eapply (tracks_add g L T g'); try done; [by apply shifts_same_but|by rewrite Hpa]. }
  split; [done|]. split; [done|]. split; [by apply unscoped_upd|]. split.
  { intros i f b m Hb Eb. destruct (HD b m) as (n' & E' & S); [by intros ->; apply (Hlo i f)|done|].
    exists n'. by rewrite <- (same_gran_PA _ _ S). }
  intros a i f m Hf Ha Em Hpam. exfalso.
  pose proof (tr_in _ _ _ TR i f a m Hf Ha Em) as HT. by rewrite Hpam, HN in HT.
Qed.

Lemma op_undelegate g L T PA n rd ipa level gl idx :
  wf g L → tracks g L T → T !! PA = Some (0%nat, Ns, n) → gr_is_granule_sliced n = 0 →
  run_to (exec (GDestroy rd PA ipa level GRANULE_UNDELEGATED gl idx)) g
    (λ _ g', now PA g L (delete PA T) (rds g) (current_realm g) g').
Proof.
  intros W TR HT Hs. destruct (ns_hits g L T PA n W TR HT) as (l1 & a & l2 & na & Hh & E & Hpa & Hn & Ha).
  destruct (wf_node _ _ _ _ _ W Ha) as [Ha0 _].
  cbn [exec]. unfold val_host_update_destroy_granule_state. rewrite Z.eqb_refl.
  eapply run_to_step; [by eapply find_granule_hit|]. rewrite (proj2 (Z.eqb_neq a 0)) by done.
  eapply run_to_step; [by apply deref_Some|].
  assert (gr_is_granule_sliced na = 0) as -> by (by rewrite <- Hn in Hs).
  eapply run_to_bind; [by apply (remove_hit g L (has_PA PA) 0 Ns l1 a l2 W zero_slot)|].
  intros r g1 (-> & W1 & K1 & _ & n1 & E1 & _). eapply run_to_step; [by apply deref_Some|].
  apply run_to_ret. destruct (members_removed g L 0 Ns l1 a l2 W (proj1 Hh)) as [H1 H2].
  rewrite <- Hpa. eapply (now_intro g L T _ _ _ _ _ a 0 Ns na); try done.
  - eapply (tracks_delete g L T g1 _ a 0 Ns na); try done; [by apply shifts_same_but|].
    intros b m _ Eb. by apply K1.
  - by apply kept_rds_eq.
  - apply K1.
  - by apply unscoped_upd.
  - intros j h b m _ Eb. destruct (kept_data _ _ K1 b m Eb) as (n' & E' & S). exists n'.
    by rewrite (same_gran_PA _ _ S).
  - intros j h m. by rewrite lookup_delete_eq.
Qed.

Lemma assigned_fields rd state ipa level idx n :
  let n' := assigned rd state ipa level idx n in
  gr_rd n' = rd ∧ gr_ipa n' = ipa ∧ gr_level n' = level ∧ same_flags n n'.
Proof. unfold assigned. repeat case_match; done. Qed.

(** [n'] is a descriptor with these contents. *)
Definition gives (rd ipa level : Z) (n n' : val_host_granule_ts) : Prop :=
  gr_rd n' = rd ∧ gr_ipa n' = ipa ∧ gr_level n' = level ∧ same_flags n n'.

Lemma op_assign g L T rd state PA ipa level idx f n :
  wf g L → tracks g L T → T !! PA = Some (0%nat, Ns, n) → target state = Some f → scoped f →
  let i := realm_of (rds g) rd in
  run_to (exec (GUpdate rd state PA ipa level idx)) g (λ _ g', ∃ n',
    gives rd ipa level n n' ∧ now PA g L (<[PA := (i, f, n')]> T) (rds g) i g').
Proof.
  intros W TR HT Ht Hf i. destruct (ns_hits g L T PA n W TR HT) as (l1 & a & l2 & na & Hh & E & Hpa & Hn & Ha).
  eapply run_to_mono; [by eapply update_granule_state_move|].
  intros _ g' (W' & _ & HC & HR & HD). fold i in W', HC.
  exists (set_next 0 (assigned rd state ipa level idx na)).
  split; [rewrite <- Hn; exact (assigned_fields rd state ipa level idx na)|].
  destruct (members_moved g L 0 Ns l1 a l2 i f W (proj1 Hh)) as [H1 H2].
  { intros [_ ->]. unfold target in Ht. by repeat case_match. }
  rewrite <- Hpa. eapply (now_intro g L T _ _ _ _ _ a 0 Ns na); try done;
    [|by apply unscoped_upd2|by eapply data_change_PA; [|apply assigned_PA]|by eapply in_new].
  eapply (tracks_move g L T g' _ a 0 Ns na); try done; [by apply shifts_same_but|apply assigned_PA].
Qed.

Lemma op_release g L T rd PA ipa level gl idx f q n :
  wf g L → tracks g L T → source gl = Some f → scoped f →
  let i := realm_of (rds g) rd in
  T !! q = Some (i, f, n) → source_test gl PA ipa level idx n = true →
  run_to (exec (GDestroy rd PA ipa level GRANULE_DELEGATED gl idx)) g (λ _ g', ∃ q' n' n'',
    T !! q' = Some (i, f, n') ∧ source_test gl PA ipa level idx n' = true ∧
    gr_state n'' = returned_state gl GRANULE_DELEGATED ∧ same_flags n' n'' ∧
    now q' g L (<[q' := (0%nat, Ns, n'')]> T) (freed_rds gl i (rds g)) i g').
Proof.
  intros W TR Hs Hf i HT Ht.
  destruct (tracked_hits g L T (source_test gl PA ipa level idx) i f q n W TR)
    as (l1 & a & l2 & na & Hh & E & Hta & HTa & Ha); [|done|done|].
  { intros m m' S. by apply source_test_blind. }
  eapply run_to_mono; [by eapply (update_destroy_hit g L rd PA ipa level GRANULE_DELEGATED gl idx f)|].
  intros _ g' (W' & _ & HC & HR & HD). fold i in W', HC, HR.
  exists (gr_PA na), (set_next 0 na), (set_next 0 (set_state (returned_state gl GRANULE_DELEGATED) na)).
  split; [done|]. split.
  { rewrite <- Hta. apply source_test_blind. apply same_gran_next0. }
  split; [done|]. split; [done|].
  destruct (members_moved g L i f l1 a l2 0 Ns W (proj1 Hh)) as [H1 H2].
  { intros [_ <-]. unfold source in Hs. by repeat case_match. }
  eapply (now_intro g L T _ _ _ _ _ a i f na); try done;
    [|by apply unscoped_upd2|by eapply data_change_PA|by eapply in_new].
  eapply (tracks_move g L T g' _ a i f na); try done. by apply shifts_same_but.
Qed.

(** A REC is looked for in every Realm. *)
Lemma op_release_rec g L T rec i n :
  wf g L → tracks g L T → T !! rec = Some (i, Rec, n) → (1 ≤ i)%nat →
  run_to (exec (GDestroy 0 rec 0 0 GRANULE_DELEGATED GRANULE_REC 0)) g (λ _ g', ∃ n',
    gr_state n' = GRANULE_DELEGATED ∧ same_flags n n' ∧
    now rec g L (<[rec := (0%nat, Ns, n')]> T) (rds g) (current_realm g) g').
Proof.
  intros W TR HT Hi.
  change (exec (GDestroy 0 rec 0 0 GRANULE_DELEGATED GRANULE_REC 0))
    with (ret tt ;; let* _ := gets current_realm in
          destroy_rec_from (VAL_HOST_MAX_REALMS - 1) 1 rec GRANULE_DELEGATED).
  do 2 (eapply run_to_step; [reflexivity|]).
  eapply run_to_mono; [apply (destroy_rec_from_spec g L); [done|by vm_compute]|].
  destruct (tr_out _ _ _ TR _ _ _ _ HT) as (Hf & Hpa & b & nb & Hb & Eb & Sb).
  intros _ g' [[Hm _]|(j & l1 & a & l2 & _ & _ & Hh & W' & HR & HC & HD)].
  { exfalso. specialize (Hm i Hi b nb Hb Eb). rewrite <- Sb in Hpa. cbn in Hpa.
    unfold has_PA in Hm. by rewrite Hpa, Z.eqb_refl in Hm. }
  destruct (proj2 (proj2 Hh)) as (na & Ea & Hta). apply Z.eqb_eq in Hta.
  assert (a ∈ L j Rec) as Ha by (rewrite (proj1 Hh); set_solver).
  pose proof (tr_in _ _ _ TR j Rec a na Hf Ha Ea) as HTa. rewrite Hta, HT in HTa.
  injection HTa as -> ->. exists (set_next 0 (set_state GRANULE_DELEGATED na)).
  split; [done|]. split; [done|].
  destruct (members_moved g L j Rec l1 a l2 0 Ns W (proj1 Hh)) as [H1 H2]; [by intros [_ ?]|].
  rewrite <- Hta. eapply (now_intro g L T _ _ _ _ _ a j Rec na); try done;
    [|by apply unscoped_upd2|by eapply data_change_PA|by eapply in_new].
  eapply (tracks_move g L T g' _ a j Rec na); try done. by apply shifts_same_but.
Qed.

(** A new RD takes the slot [j], whose list [rd] has to be empty. *)
Lemma op_realm g L T rd n j :
  wf g L → tracks g L T → T !! rd = Some (0%nat, Ns, n) →
  claim_from 1 (drop 1 (rds g)) rd = Some j → (∀ q m, T !! q ≠ Some (j, Rd, m)) →
  run_to (exec (GUpdate rd GRANULE_RD rd 0 0 0)) g (λ _ g', ∃ n',
    same_flags n n' ∧ now rd g L (<[rd := (j, Rd, n')]> T) (<[j := rd]> (rds g)) j g').
Proof.
  intros W TR HT Hc Hfree. destruct (ns_hits g L T rd n W TR HT) as (l1 & a & l2 & na & Hh & E & Hpa & Hn & Ha).
  assert (L j Rd = []) as HL.
  { destruct (L j Rd) as [|b l] eqn:EL; [done|exfalso].
    assert (b ∈ L j Rd) as Hb by (rewrite EL; by left).
    destruct (wf_node _ _ _ _ _ W Hb) as [_ [m Em]].
    by apply (Hfree _ _ (tr_in _ _ _ TR j Rd b m ltac:(done) Hb Em)). }
  eapply run_to_mono; [by eapply update_granule_state_rd|]. rewrite Hc. cbn [default].
  intros _ g' (W' & _ & HC & HR & HD).
  exists (set_next 0 (assign_granule rd GRANULE_RD 0 0 na)). split; [by rewrite <- Hn|].
  destruct (members_moved g L 0 Ns l1 a l2 j Rd W (proj1 Hh)) as [H1 H2]; [by intros [_ ?]|].
  rewrite HL in H1, H2. rewrite <- Hpa at 1. eapply (now_intro g L T _ _ _ _ _ a 0 Ns na); try done;
    [|by apply unscoped_upd2|by eapply data_change_PA|rewrite Hpa; by eapply in_new].
  rewrite <- Hpa at 1. eapply (tracks_move g L T g' _ a 0 Ns na); try done. by apply shifts_same_but.
Qed.
