(* ===== verification/Mirror.v ===== *)
(** The tracker mirrors the monitor.  [mirrors s R T] compares the map of Tracks.v
    with the granule states [s] of a conforming monitor (RmmSpec.v); every command
    keeps the two in step, and so does every sequence of commands. *)
From S2P Require Import Prelude Defs Alloc Granule GranuleInv GranuleSpec Host Rmi RmiFacts RmmSpec Tracks.

(** * The slot of a Realm *)

Lemma realm_of_lookup R rd : (1 ≤ realm_of R rd)%nat → R !! realm_of R rd = Some rd.
Proof.
  unfold realm_of. destruct (list_find _ _) as [[k x]|] eqn:E; [|lia].
  apply list_find_Some in E as (E & -> & _). by rewrite lookup_drop in E.
Qed.

Lemma realm_of_in R k rd : (1 ≤ k)%nat → R !! k = Some rd → (1 ≤ realm_of R rd)%nat.
Proof.
  intros Hk E. unfold realm_of. destruct (list_find _ _) as [[i x]|] eqn:Ef; [lia|].
  apply list_find_None in Ef. rewrite Forall_lookup in Ef. exfalso.
  apply (Ef (k - 1)%nat rd); [|done]. rewrite lookup_drop. by replace (1 + (k - 1))%nat with k by lia.
Qed.

(** The slot does not depend on the other RDs. *)
Lemma realm_of_ext R R' rd :
  (∀ k, R !! k = Some rd ↔ R' !! k = Some rd) → realm_of R rd = realm_of R' rd.
Proof.
  intros HR. unfold realm_of.
  assert (∀ l l' : list Z, (∀ k, l !! k = Some rd ↔ l' !! k = Some rd) → ∀ i x,
    list_find (λ x, x = rd) l = Some (i, x) → list_find (λ x, x = rd) l' = Some (i, x)) as Hf.
  { intros l l' Hl i x (E & -> & Hmin)%list_find_Some. apply list_find_Some.
    split; [by apply Hl|]. split; [done|]. intros j y Ej Hj ->. apply (Hmin j rd); [by apply Hl|done|done]. }
  assert (∀ k, drop 1 R !! k = Some rd ↔ drop 1 R' !! k = Some rd) as Hd
    by (intros k; by rewrite !lookup_drop).
  destruct (list_find _ (drop 1 R)) as [[i x]|] eqn:E1, (list_find _ (drop 1 R')) as [[j y]|] eqn:E2; try done.
  - rewrite (Hf _ _ Hd _ _ E1) in E2. by simplify_eq.
  - by rewrite (Hf _ _ Hd _ _ E1) in E2.
  - by rewrite (Hf _ _ (λ k, iff_sym (Hd k)) _ _ E2) in E1.
Qed.

Lemma realm_of_insert R j x y rd :
  R !! j = Some y → rd ≠ x → rd ≠ y → realm_of (<[j := x]> R) rd = realm_of R rd.
Proof.
  intros E Hx Hy. apply realm_of_ext. intros k. destruct (decide (k = j)) as [->|Hk].
  - rewrite list_lookup_insert_eq by (by eapply lookup_lt_Some). rewrite E. split; congruence.
  - by rewrite list_lookup_insert_ne.
Qed.

(** A new RD is found in the slot it took. *)
Lemma realm_of_new R j rd :
  (1 ≤ j)%nat → (j < length R)%nat → (∀ k, (1 ≤ k)%nat → R !! k ≠ Some rd) → realm_of (<[j := rd]> R) rd = j.
Proof.
  intros Hj Hlen Hnew. pose proof (list_lookup_insert_eq R j rd Hlen) as E.
  pose proof (realm_of_in _ j rd Hj E) as H1. pose proof (realm_of_lookup _ rd H1) as H2.
  destruct (decide (realm_of (<[j := rd]> R) rd = j)) as [|Hne]; [done|].
  rewrite list_lookup_insert_ne in H2 by done. by apply Hnew in H2.
Qed.

(** The number of free slots. *)
Definition free (R : list Z) : nat := length (filter (λ x, x = NO_REALM) (drop 1 R)).

Lemma filter_insert (l : list Z) k x y :
  l !! k = Some y →
  (length (filter (λ z, z = NO_REALM) (<[k := x]> l)) + (if decide (y = NO_REALM) then 1 else 0) =
   length (filter (λ z, z = NO_REALM) l) + (if decide (x = NO_REALM) then 1 else 0))%nat.
Proof.
  revert k. induction l as [|z l IH]; intros [|k] E; try done.
  - injection E as ->. change (<[0%nat := x]> (y :: l)) with (x :: l). rewrite !filter_cons.
    repeat case_decide; cbn; lia.
  - change (<[S k := x]> (z :: l)) with (z :: <[k := x]> l). rewrite !filter_cons.
    specialize (IH k E). repeat case_decide; cbn; lia.
Qed.

Lemma free_insert R j x y :
  (1 ≤ j)%nat → R !! j = Some y →
  (free (<[j := x]> R) + (if decide (y = NO_REALM) then 1 else 0) =
   free R + (if decide (x = NO_REALM) then 1 else 0))%nat.
Proof.
  intros Hj E. unfold free. destruct j as [|j]; [lia|]. destruct R as [|z R]; [done|].
  change (<[S j := x]> (z :: R)) with (z :: <[j := x]> R). cbn [drop]. rewrite !drop_0.
  by apply filter_insert.
Qed.

Lemma claim_from_Some i l rd :
  (0 < length (filter (λ x, x = NO_REALM) l))%nat → rd ∉ l → ∃ j, claim_from i l rd = Some j.
Proof.
  revert i. induction l as [|x l IH]; intros i; [cbn; lia|]. rewrite filter_cons.
  intros Hf [Hx Hn]%not_elem_of_cons. cbn. rewrite (proj2 (Z.eqb_neq x rd)) by congruence.
  destruct (Z.eqb_spec x NO_REALM) as [|Hne]; [by eauto|]. rewrite decide_False in Hf by done. eauto.
Qed.

(** * The map and the states of the monitor *)

(** The states whose granules the tracker keeps in the Non-secure list. *)
Definition ns_state (st : rmm_gran) : bool :=
  match st with Delegated | IsRoot _ | IsRecAux _ => true | _ => false end.

(** What the map has for granule [q] in state [st], with the RDs [R] of the slots. *)
Definition placed (R : list Z) (q : Z) (st : rmm_gran) (o : option (nat * gfield * val_host_granule_ts)) :
    Prop :=
  match st with
  | Undelegated => o = None
  | Delegated | IsRoot _ | IsRecAux _ =>
      ∃ n, o = Some (0%nat, Ns, n) ∧ clean n ∧ gr_state n = GRANULE_DELEGATED
  | IsRd => ∃ n, o = Some (realm_of R q, Rd, n) ∧ clean n
  | IsRec rd => ∃ n, o = Some (realm_of R rd, Rec, n) ∧ clean n
  | IsData rd ipa =>
      ∃ n, o = Some (realm_of R rd, Data, n) ∧ clean n ∧ gr_rd n = rd ∧ gr_ipa n = ipa
  | IsRtt rd ipa level =>
      ∃ n, o = Some (realm_of R rd, Rtt, n) ∧ clean n ∧ gr_rd n = rd ∧ gr_ipa n = ipa ∧
        gr_level n = level
  end.

(** States that at most one granule has. *)
Definition single (st : rmm_gran) : Prop :=
  match st with IsRtt _ _ _ | IsData _ _ => True | _ => False end.

(** The parent of a granule in state [st] is what it should be. *)
Definition parent_ok (s : Z → rmm_gran) (st : rmm_gran) : Prop :=
  match st with
  | IsRoot rd | IsRtt rd _ _ | IsRec rd | IsData rd _ => s rd = IsRd
  | IsRecAux rec => ∃ rd, s rec = IsRec rd
  | _ => True
  end.

Record mirrors (s : Z → rmm_gran) (R : list Z) (T : gmap Z (nat * gfield * val_host_granule_ts)) :
    Prop := {
  mi_at : ∀ q, placed R q (s q) (T !! q);
  mi_rd : ∀ rd, s rd = IsRd → (1 ≤ realm_of R rd)%nat;
  mi_live : ∀ k r, (1 ≤ k)%nat → R !! k = Some r → r ≠ NO_REALM → s r = IsRd ∧ realm_of R r = k;
  mi_parent : ∀ q, parent_ok s (s q);
  mi_single : ∀ q q', single (s q) → s q = s q' → q = q';
  mi_align : ∀ q, s q ≠ Undelegated → (PAGE_SIZE | q)
}.

Lemma mi_owner s R T q rd : mirrors s R T → owner (s q) = Some rd → s rd = IsRd.
Proof.
  intros Hm Ho. pose proof (mi_parent _ _ _ Hm q) as Hp. destruct (s q); cbn in *; congruence.
Qed.

(** Only RDs and RECs are parents. *)
Lemma no_children s R T a :
  mirrors s R T → s a ≠ IsRd → (∀ rd, s a ≠ IsRec rd) → ∀ q, parent (s q) ≠ Some a.
Proof.
  intros Hm H1 H2 q Hq. pose proof (mi_parent _ _ _ Hm q) as Hp.
  destruct (s q); cbn in *; try congruence. destruct Hp as [rd Hp]. apply (H2 rd). congruence.
Qed.

(** A change of one granule and, within the Non-secure list, of others. *)
Lemma mirrors_change s R T s' R' T' a st also :
  mirrors s R T → sets a st also s s' → (∀ x y, also x y → ns_state x ∧ ns_state y ∧ parent_ok s' y) →
  placed R' a st (T' !! a) → (∀ q, q ≠ a → T' !! q = T !! q) →
  (∀ r, r ≠ a → s r = IsRd → realm_of R' r = realm_of R r) →
  (∀ q, q ≠ a → s' q = s q → parent (s q) ≠ Some a) → parent_ok s' st →
  (single st → ∀ q, s q ≠ st) → (st ≠ Undelegated → (PAGE_SIZE | a)) →
  (∀ rd, s' rd = IsRd → (1 ≤ realm_of R' rd)%nat) →
  (∀ k r, (1 ≤ k)%nat → R' !! k = Some r → r ≠ NO_REALM → s' r = IsRd ∧ realm_of R' r = k) →
  mirrors s' R' T'.
Proof.
  intros Hm [Ha Hq] Hns Hp HT HR Hpar Hst Hsing Hal Hrd Hlive.
  assert (∀ q, q ≠ a → ns_state (s q) = false ∨ ns_state (s' q) = false → s' q = s q) as Hsame.
  { intros q Hne Hf. destruct (Hq q Hne) as [|(H1 & H2 & _)%Hns]; [done|].
    destruct (ns_state (s q)), (ns_state (s' q)); naive_solver. }
  assert (∀ r x, r ≠ a → s r = x → ns_state x = false → s' r = x) as Hkeep.
  { intros r x Hne E Hx. rewrite Hsame; [done|done|]. left. by rewrite E. }
  split; [|done|done| | |].
  - intros q. destruct (decide (q = a)) as [->|Hne]; [by rewrite Ha|]. rewrite (HT q Hne).
    pose proof (mi_at _ _ _ Hm q) as Hat. destruct (Hq q Hne) as [E|(H1 & H2 & _)%Hns].
    + rewrite E. assert (∀ rd, owner (s q) = Some rd → realm_of R' rd = realm_of R rd) as Ho.
      { intros rd Hrd'. pose proof (mi_owner _ _ _ _ _ Hm Hrd') as Hlv.
        apply HR; [|done]. intros ->. apply (Hpar q Hne E). by destruct (s q). }
      destruct (s q) eqn:Es; cbn in *; rewrite ?Ho, ?(HR q) by done; done.
    + by destruct (s q), (s' q).
  - intros q. destruct (decide (q = a)) as [->|Hne]; [by rewrite Ha|].
    destruct (Hq q Hne) as [E|(_ & _ & ?)%Hns]; [|done].
    pose proof (mi_parent _ _ _ Hm q) as Hp'. pose proof (Hpar q Hne E) as Hpa. rewrite E.
    destruct (s q) eqn:Es; cbn in *; try done; try (by apply Hkeep; [congruence|..]).
    destruct Hp' as [rd Hr]. exists rd. apply Hkeep; [congruence|done|done].
  - intros q q' Hs E.
    assert (∀ x, x ≠ a → single (s' x) → s' x = s x) as Hsi.
    { intros x Hx Hsx. apply Hsame; [done|right]. by destruct (s' x). }
    destruct (decide (q = a)) as [->|Hne], (decide (q' = a)) as [->|Hne']; [done|..].
    + exfalso. rewrite Ha in Hs, E. apply (Hsing Hs q'). rewrite E. symmetry. apply Hsi; [done|].
      by rewrite <- E.
    + exfalso. rewrite Ha in E. rewrite (Hsi q Hne Hs) in E. rewrite (Hsi q Hne Hs), E in Hs.
      by apply (Hsing Hs q).
    + pose proof (Hsi q Hne Hs) as E1. rewrite E in Hs. pose proof (Hsi q' Hne' Hs) as E2.
      apply (mi_single _ _ _ Hm); rewrite <- E1; [by rewrite E|]. by rewrite E, E2.
  - intros q Hu. destruct (decide (q = a)) as [->|Hne]; [rewrite Ha in Hu; auto|].
    apply (mi_align _ _ _ Hm). destruct (Hq q Hne) as [<-|(H1 & H2 & _)%Hns]; [done|]. by destruct (s q).
Qed.

(** The common case: no Realm comes or goes. *)
Lemma mirrors_keep s R T s' T' a st also :
  mirrors s R T → sets a st also s s' → (∀ x y, also x y → ns_state x ∧ ns_state y ∧ parent_ok s' y) →
  s a ≠ IsRd → s a ≠ Undelegated ∨ (PAGE_SIZE | a) → st ≠ IsRd →
  placed R a st (T' !! a) → (∀ q, q ≠ a → T' !! q = T !! q) →
  (∀ q, q ≠ a → s' q = s q → parent (s q) ≠ Some a) →
  (st ≠ Delegated → st ≠ Undelegated → ∃ rd, owner st = Some rd ∧ s rd = IsRd) →
  (single st → ∀ q, s q ≠ st) →
  mirrors s' R T'.
Proof.
  intros Hm Hs Hns Ha Hal Hst Hp HT Hpar Ho Hsing. pose proof Hs as [Hsa Hsq].
  assert (∀ r, r ≠ a → s' r = IsRd ↔ s r = IsRd) as Hrd.
  { intros r Hr. destruct (Hsq r Hr) as [->|(H1 & H2 & _)%Hns]; [done|].
    split; intros E; by rewrite E in *. }
  eapply (mirrors_change s R T s' R T' a st also); try done.
  - destruct (decide (st = Delegated)) as [->|H1]; [done|].
    destruct (decide (st = Undelegated)) as [->|H2]; [done|].
    destruct (Ho H1 H2) as (rd & Hor & Hlv). assert (s' rd = IsRd) by (apply Hrd; congruence).
    destruct st; cbn in *; congruence.
  - intros _. destruct Hal; [by eapply mi_align|done].
  - intros rd Hr. apply (mi_rd _ _ _ Hm). apply Hrd; [|done]. congruence.
  - intros k r Hk E Hne. destruct (mi_live _ _ _ Hm k r Hk E Hne) as [H1 H2].
    split; [|done]. apply Hrd; [congruence|done].
Qed.

Lemma mirrors_ext s s' R T : (∀ q, s' q = s q) → mirrors s R T → mirrors s' R T.
Proof.
  intros E Hm. split; intros *; rewrite ?E; try apply Hm.
  pose proof (mi_parent _ _ _ Hm q) as Hp. destruct (s q); cbn in *; try rewrite E; done.
Qed.

(** The Realm of a slot in use. *)
Lemma slot_inj s R T rd rd' :
  mirrors s R T → s rd = IsRd → s rd' = IsRd → realm_of R rd = realm_of R rd' → rd = rd'.
Proof.
  intros Hm H1 H2 E. pose proof (realm_of_lookup R rd (mi_rd _ _ _ Hm _ H1)) as E1.
  pose proof (realm_of_lookup R rd' (mi_rd _ _ _ Hm _ H2)) as E2. congruence.
Qed.

(** Releasing the one granule in state [st]. *)
Lemma mirrors_release s s' R T st q n :
  mirrors s R T → single st → s q = st → releases st s s' →
  clean n → gr_state n = GRANULE_DELEGATED → mirrors s' R (<[q := (0%nat, Ns, n)]> T).
Proof.
  intros Hm Hst Hq Hr Hn Hs.
  eapply (mirrors_keep s R T s' _ q Delegated nothing); try done.
  - split; [by rewrite Hr, decide_True|]. intros x Hx. left. rewrite Hr, decide_False; [done|].
    intros E. apply Hx. symmetry. apply (mi_single _ _ _ Hm); [by rewrite Hq|congruence].
  - rewrite Hq. by destruct st.
  - left. rewrite Hq. by destruct st.
  - rewrite lookup_insert_eq. by exists n.
  - intros x Hx. by rewrite lookup_insert_ne.
  - intros x _ _. apply (no_children s R T q Hm); rewrite Hq; by destruct st.
Qed.

(** The granules of the lists, from the map. *)
Lemma found_data s R T i q n :
  mirrors s R T → T !! q = Some (i, Data, n) →
  s q = IsData (gr_rd n) (gr_ipa n) ∧ i = realm_of R (gr_rd n) ∧ clean n.
Proof.
  intros Hm HT. pose proof (mi_at _ _ _ Hm q) as Hp. rewrite HT in Hp.
  destruct (s q) as [ | | | | | | |rd' ipa] eqn:E; cbn in Hp; naive_solver.
Qed.

Lemma found_rtt s R T i q n :
  mirrors s R T → T !! q = Some (i, Rtt, n) →
  s q = IsRtt (gr_rd n) (gr_ipa n) (gr_level n) ∧ i = realm_of R (gr_rd n) ∧ clean n.
Proof.
  intros Hm HT. pose proof (mi_at _ _ _ Hm q) as Hp. rewrite HT in Hp.
  destruct (s q) as [ | | | |rd' ipa level| | | ] eqn:E; cbn in Hp; naive_solver.
Qed.

(** * One command *)

(** The tracker is in step with [s'] after granule [q] moved; [R'] are the RDs, [c]
    is the current Realm and at most [k] slots were taken. *)
Definition in_step (g : gstate) (L : layout) (s' : Z → rmm_gran) (k : nat) (R' : list Z) (c : nat)
    (q : Z) (g' : gstate) : Prop :=
  ∃ T', now q g L T' R' c g' ∧ mirrors s' R' T' ∧ (free (rds g) ≤ free R' + k)%nat.

Section OneCommand.
Context (s s' : Z → rmm_gran) (g : gstate) (L : layout) (T : gmap Z (nat * gfield * val_host_granule_ts)).
Context (W : wf g L) (TR : tracks g L T) (Hm : mirrors s (rds g) T).

(** A delegated granule in the Non-secure list. *)
Lemma delegated_at q :
  ns_state (s q) → ∃ n, T !! q = Some (0%nat, Ns, n) ∧ clean n ∧ gr_state n = GRANULE_DELEGATED.
Proof. intros Hq. pose proof (mi_at _ _ _ Hm q) as Hp. by destruct (s q). Qed.

Lemma delegated_childless a : s a = Delegated ∨ s a = Undelegated → ∀ q, parent (s q) ≠ Some a.
Proof. intros Ha. apply (no_children s _ T a Hm); destruct Ha as [-> | ->]; done. Qed.

Lemma step_delegate a :
  allowed (CGranuleDelegate a) s → effect (CGranuleDelegate a) s s' →
  heap_room g ∧ run_to (track (CGranuleDelegate a)) g (λ _ g', in_step g L s' 0 (rds g) (current_realm g) a g') ∨
  ¬ heap_room g ∧ track (CGranuleDelegate a) g = Fault NullDeref.
Proof.
  intros [Hu Hal] Hs. pose proof (mi_at _ _ _ Hm a) as Hp. rewrite Hu in Hp.
  destruct (op_delegate g L T a W TR Hp) as [[Hr Hop]|Hno]; [left|by right]. split; [done|].
  eapply run_to_mono; [exact Hop|]. intros _ g' (n & Hn & Hst & Hnow). eexists _. split; [exact Hnow|].
  split; [|lia]. eapply (mirrors_keep s _ T s' _ a Delegated nothing); try done.
  - by rewrite Hu.
  - by right.
  - rewrite lookup_insert_eq. by exists n.
  - intros q Hq. by rewrite lookup_insert_ne.
  - intros q _ _. apply delegated_childless. by right.
Qed.

Lemma step_undelegate a :
  allowed (CGranuleUndelegate a) s → effect (CGranuleUndelegate a) s s' →
  run_to (track (CGranuleUndelegate a)) g (λ _ g', in_step g L s' 0 (rds g) (current_realm g) a g').
Proof.
  intros Hd Hs. cbn in Hd. destruct (delegated_at a) as (n & HT & Hn & _); [by rewrite Hd|].
  eapply run_to_mono; [eapply (op_undelegate g L T a n); try done; apply Hn|]. intros ? g' Hnow.
  eexists _. split; [exact Hnow|]. split; [|lia].
  eapply (mirrors_keep s _ T s' _ a Undelegated nothing); try done; try (by rewrite Hd).
  - left. by rewrite Hd.
  - by rewrite lookup_delete_eq.
  - intros q Hq. by rewrite lookup_delete_ne.
  - intros q _ _. apply delegated_childless. by left.
Qed.

(** The commands that give a delegated granule to a Realm. *)
Lemma step_assign rd state PA ipa level f st also :
  s PA = Delegated → s rd = IsRd → target state = Some f → scoped f →
  sets PA st also s s' → (∀ x y, also x y → ns_state x ∧ ns_state y ∧ parent_ok s' y) →
  owner st = Some rd → (single st → ∀ q, s q ≠ st) →
  (∀ n n', clean n' → gives rd ipa level n n' →
     placed (rds g) PA st (Some (realm_of (rds g) rd, f, n'))) →
  run_to (exec (GUpdate rd state PA ipa level 0)) g
    (λ _ g', in_step g L s' 0 (rds g) (realm_of (rds g) rd) PA g').
Proof.
  intros Hd Hrd Ht Hf Hs Hns Ho Hsing Hpl.
  destruct (delegated_at PA) as (n & HT & Hn & _); [by rewrite Hd|].
  eapply run_to_mono; [by eapply (op_assign g L T rd state PA ipa level 0 f n)|].
  intros _ g' (n' & Hg & Hnow). eexists _. split; [exact Hnow|]. split; [|lia].
  eapply (mirrors_keep s _ T s' _ PA st also); try done; try (by rewrite Hd).
  - left. by rewrite Hd.
  - by destruct st.
  - rewrite lookup_insert_eq. eapply Hpl; [|done]. eapply same_flags_clean; [apply Hg|done].
  - intros q Hq. by rewrite lookup_insert_ne.
  - intros q _ _. apply delegated_childless. by left.
  - intros _ _. by exists rd.
Qed.

Lemma step_data_destroy rd ipa q :
  s rd = IsRd → s q = IsData rd ipa → effect (CDataDestroy rd ipa) s s' →
  run_to (track (CDataDestroy rd ipa)) g (λ _ g', in_step g L s' 0 (rds g) (realm_of (rds g) rd) q g').
Proof.
  intros Hrd Hq Hr. pose proof (mi_at _ _ _ Hm q) as Hp. rewrite Hq in Hp.
  destruct Hp as (n & HT & _ & _ & Hi).
  eapply run_to_mono.
  { eapply (op_release g L T rd 0 ipa 0 GRANULE_DATA 0 Data q n); try done. by apply Z.eqb_eq. }
  intros _ g' (q' & n' & n'' & HT' & Ht & Hst & Hfl & Hnow).
  destruct (found_data s _ T _ q' n' Hm HT') as (Hq' & Hri & Hn'). apply Z.eqb_eq in Ht.
  assert (q' = q) as ->.
  { apply (mi_single _ _ _ Hm); rewrite Hq'; [done|]. rewrite Hq, Ht. f_equal. symmetry.
    apply (slot_inj s _ T _ _ Hm); [done| |done].
    eapply (mi_owner s _ T q'); [done|by rewrite Hq']. }
  eexists _. split; [exact Hnow|]. split; [|exact (Nat.le_add_r _ 0)].
  eapply (mirrors_release s s' _ T (IsData rd ipa)); try done. by eapply same_flags_clean.
Qed.

Lemma step_rtt_destroy rd ipa level q :
  s rd = IsRd → s q = IsRtt rd ipa level → effect (CRttDestroy rd ipa level) s s' →
  run_to (track (CRttDestroy rd ipa level)) g (λ _ g', in_step g L s' 0 (rds g) (realm_of (rds g) rd) q g').
Proof.
  intros Hrd Hq Hr. pose proof (mi_at _ _ _ Hm q) as Hp. rewrite Hq in Hp.
  destruct Hp as (n & HT & _ & _ & Hi & Hl).
  eapply run_to_mono.
  { eapply (op_release g L T rd 0 ipa level GRANULE_RTT 0 Rtt q n); try done.
    apply andb_true_iff. by rewrite !Z.eqb_eq. }
  intros _ g' (q' & n' & n'' & HT' & [El Ei]%andb_true_iff & Hst & Hfl & Hnow).
  destruct (found_rtt s _ T _ q' n' Hm HT') as (Hq' & Hri & Hn'). apply Z.eqb_eq in El, Ei.
  assert (q' = q) as ->.
  { apply (mi_single _ _ _ Hm); rewrite Hq'; [done|]. rewrite Hq, El, Ei. f_equal. symmetry.
    apply (slot_inj s _ T _ _ Hm); [done| |done].
    eapply (mi_owner s _ T q'); [done|by rewrite Hq']. }
  eexists _. split; [exact Hnow|]. split; [|exact (Nat.le_add_r _ 0)].
  eapply (mirrors_release s s' _ T (IsRtt rd ipa level)); try done. by eapply same_flags_clean.
Qed.

(** [releases_with] as a change of one granule and others. *)
Lemma releases_with_sets a st :
  releases_with a st s s' → sets a Delegated (λ x y, x = st ∧ y = Delegated) s s'.
Proof.
  intros [H1 H2]. split; [done|]. intros q Hq. rewrite (H2 q Hq). case_decide; [by right|by left].
Qed.

Lemma step_rec_destroy rec :
  allowed (CRecDestroy rec) s → effect (CRecDestroy rec) s s' →
  run_to (track (CRecDestroy rec)) g (λ _ g', in_step g L s' 0 (rds g) (current_realm g) rec g').
Proof.
  intros [rd Hrec] Hs. pose proof (mi_at _ _ _ Hm rec) as Hp.
  pose proof (mi_parent _ _ _ Hm rec) as Ho. rewrite Hrec in Hp, Ho. destruct Hp as (n & HT & Hn).
  eapply run_to_mono; [eapply (op_release_rec g L T rec _ n W TR HT); by apply (mi_rd _ _ _ Hm), Ho|].
  intros _ g' (n' & Hst & Hfl & Hnow). eexists _. split; [exact Hnow|]. split; [|lia].
  pose proof (releases_with_sets _ _ Hs) as Hset.
  eapply (mirrors_keep s _ T s' _ rec Delegated); [done|exact Hset|..]; try done; try (by rewrite Hrec).
  - by intros x y [-> ->].
  - left. by rewrite Hrec.
  - rewrite lookup_insert_eq. exists n'. split; [done|]. split; [by eapply same_flags_clean|done].
  - intros q Hq. by rewrite lookup_insert_ne.
  - intros q Hq E Hpq. pose proof (mi_parent _ _ _ Hm q) as Hpar.
    destruct Hs as [_ Hs]. rewrite (Hs q Hq) in E.
    destruct (s q) eqn:Eq; cbn in *; try congruence.
    injection Hpq as ->. by rewrite decide_True in E.
Qed.

(** No granule of the monitor has the address that marks a free slot. *)
Lemma not_no_realm q : s q ≠ Undelegated → q ≠ NO_REALM.
Proof.
  intros Hq ->. apply (mi_align _ _ _ Hm) in Hq. apply Z.mod_divide in Hq; [|done]. by vm_compute in Hq.
Qed.

(** The table of RDs after slot [j] changed from [y] to [x]. *)
Lemma slots_insert j x y :
  rds g !! j = Some y → ∀ r, r ≠ x → r ≠ y → realm_of (<[j := x]> (rds g)) r = realm_of (rds g) r.
Proof. intros E r Hx Hy. by eapply realm_of_insert. Qed.

(** The slot that a new Realm takes. *)
Lemma new_slot rd :
  (0 < free (rds g))%nat → s rd = Delegated →
  (∀ k, (1 ≤ k)%nat → rds g !! k ≠ Some rd) ∧
  ∃ j, claim_from 1 (drop 1 (rds g)) rd = Some j ∧ (1 ≤ j)%nat ∧ rds g !! j = Some NO_REALM.
Proof.
  intros Hfree Hd. assert (rd ≠ NO_REALM) as Hrd by (apply not_no_realm; by rewrite Hd).
  assert (∀ k, (1 ≤ k)%nat → rds g !! k ≠ Some rd) as Hnew.
  { intros k Hk E. destruct (mi_live _ _ _ Hm k rd Hk E Hrd) as [E' _]. by rewrite Hd in E'. }
  split; [done|]. destruct (claim_from_Some 1 (drop 1 (rds g)) rd) as [j Hj]; [done| |].
  { intros [k E]%list_elem_of_lookup. rewrite lookup_drop in E. by apply (Hnew (1 + k)%nat); [lia|]. }
  pose proof (claim_from_range _ _ _ _ Hj) as [Hj1 _].
  destruct (claim_from_free _ _ _ _ Hj) as [Ej _]. rewrite lookup_drop in Ej.
  replace (1 + (j - 1))%nat with j in Ej by lia. by exists j.
Qed.

(** No RD is in the list [rd] of a free slot. *)
Lemma free_slot_empty j :
  rds g !! j = Some NO_REALM → ∀ q n, T !! q ≠ Some (j, Rd, n).
Proof.
  intros Ej q m HTq. pose proof (mi_at _ _ _ Hm q) as Hp. rewrite HTq in Hp.
  destruct (s q) eqn:E; cbn in Hp; try naive_solver.
  destruct Hp as (? & [= Hr _] & _). pose proof (mi_rd _ _ _ Hm q E) as H1.
  apply realm_of_lookup in H1. rewrite <- Hr, Ej in H1. injection H1 as <-.
  by apply (not_no_realm NO_REALM); [rewrite E|].
Qed.

Lemma step_realm_create rd p :
  (0 < free (rds g))%nat → allowed (CRealmCreate rd p) s → effect (CRealmCreate rd p) s s' →
  run_to (track (CRealmCreate rd p)) g (λ _ g', ∃ R' c, in_step g L s' 1 R' c rd g').
Proof.
  intros Hfree Hd Hs. cbn in Hd, Hs. pose proof Hs as [Hrd' Hq'].
  destruct (new_slot rd Hfree Hd) as (Hnew & j & Hj & Hj1 & Ej).
  destruct (delegated_at rd) as (n & HT & Hn & _); [by rewrite Hd|].
  eapply run_to_mono; [exact (op_realm g L T rd n j W TR HT Hj (free_slot_empty j Ej))|].
  intros _ g' (n' & Hfl & Hnow). exists (<[j := rd]> (rds g)), j. eexists _. split; [exact Hnow|].
  pose proof (slots_insert j rd _ Ej) as Hkeep.
  pose proof (realm_of_new (rds g) j rd Hj1 (lookup_lt_Some _ _ _ Ej) Hnew) as Hslot.
  pose proof (free_insert (rds g) j rd _ Hj1 Ej) as Hf.
  assert (<[j := rd]> (rds g) !! j = Some rd) as EjR by (apply list_lookup_insert_eq; by eapply lookup_lt_Some).
  assert (∀ r, r ≠ rd → s' r = IsRd ↔ s r = IsRd) as Hsame.
  { intros r Hr. destruct (Hq' r Hr) as [->|[-> ->]]; done. }
  assert (∀ r, s r = IsRd → r ≠ rd ∧ r ≠ NO_REALM) as Hlv.
  { intros r E. split; [intros ->; by rewrite Hd in E|]. apply not_no_realm. by rewrite E. }
  split.
  - eapply (mirrors_change s _ T s' _ _ rd IsRd); [done|exact Hs|..]; try done.
    + by intros x y [-> ->].
    + rewrite lookup_insert_eq. exists n'. rewrite Hslot. split; [done|]. by eapply same_flags_clean.
    + intros q Hq. by rewrite lookup_insert_ne.
    + intros r _ E. by apply Hkeep; apply Hlv.
    + intros q _ _. apply delegated_childless. by left.
    + intros _. apply (mi_align _ _ _ Hm). by rewrite Hd.
    + intros r E. destruct (decide (r = rd)) as [->|Hr]; [by rewrite Hslot|].
      apply Hsame in E; [|done]. rewrite Hkeep by (by apply Hlv). by apply (mi_rd _ _ _ Hm).
    + intros k r Hk E Hne. destruct (decide (k = j)) as [->|Hkj]; [rewrite EjR in E; by injection E as <-|].
      rewrite list_lookup_insert_ne in E by done. destruct (mi_live _ _ _ Hm k r Hk E Hne) as [E1 E2].
      split; [apply Hsame; [by apply Hlv|done]|]. by rewrite Hkeep by (by apply Hlv).
  - rewrite decide_True, decide_False in Hf; [lia|apply not_no_realm; by rewrite Hd|done].
Qed.

Lemma step_realm_destroy rd :
  allowed (CRealmDestroy rd) s → effect (CRealmDestroy rd) s s' →
  run_to (track (CRealmDestroy rd)) g (λ _ g',
    in_step g L s' 0 (<[realm_of (rds g) rd := NO_REALM]> (rds g)) (realm_of (rds g) rd) rd g').
Proof.
  intros [Hrd Hown] Hs. cbn in Hs. pose proof (releases_with_sets _ _ Hs) as Hset.
  pose proof (mi_at _ _ _ Hm rd) as Hp. rewrite Hrd in Hp. destruct Hp as (n & HT & Hn).
  pose proof (mi_rd _ _ _ Hm rd Hrd) as H1. pose proof (realm_of_lookup _ _ H1) as E1.
  set (i := realm_of (rds g) rd) in *.
  eapply run_to_mono.
  { eapply (op_release g L T rd rd 0 0 GRANULE_RD 0 Rd rd n); try done.
    apply Z.eqb_eq. by destruct (tr_out _ _ _ TR _ _ _ _ HT) as (_ & ? & _). }
  intros _ g' (q & n' & n'' & HTq & Ht & Hst & Hfl & Hnow).
  assert (q = rd) as ->.
  { apply Z.eqb_eq in Ht. by destruct (tr_out _ _ _ TR _ _ _ _ HTq) as (_ & <- & _). }
  fold i in HTq. rewrite HT in HTq. injection HTq as <-.
  change (freed_rds GRANULE_RD (realm_of (rds g) rd) (rds g)) with (<[i := NO_REALM]> (rds g)) in Hnow.
  eexists _. split; [exact Hnow|].
  pose proof (slots_insert i NO_REALM rd E1) as Hkeep. set (R' := <[i := NO_REALM]> (rds g)) in *.
  assert (∀ r, r ≠ rd → s' r = IsRd ↔ s r = IsRd) as Hsame.
  { intros r Hr. destruct Hs as [_ Hs]. rewrite (Hs r Hr). case_decide as Hd; [|done]. by rewrite Hd. }
  assert (∀ r, s r = IsRd → r ≠ NO_REALM) as Hlv by (intros r E; apply not_no_realm; by rewrite E).
  split.
  - eapply (mirrors_change s _ T s' R' _ rd Delegated); [done|exact Hset|..]; try done.
    + by intros x y [-> ->].
    + rewrite lookup_insert_eq. exists n''. split; [done|]. split; [by eapply same_flags_clean|done].
    + intros q Hq. by rewrite lookup_insert_ne.
    + intros r Hr E. apply Hkeep; [by apply Hlv|done].
    + intros q Hq E Hpq. destruct Hs as [_ Hs]. rewrite (Hs q Hq) in E.
      specialize (Hown q). pose proof (mi_parent _ _ _ Hm q) as Hpar.
      destruct (s q) eqn:Eq; cbn in *; try congruence.
      * injection Hpq as ->. by rewrite decide_True in E.
      * injection Hpq as ->. destruct Hpar as [? Hpar]. congruence.
    + intros _. apply (mi_align _ _ _ Hm). by rewrite Hrd.
    + intros r E. assert (r ≠ rd) as Hr by (intros ->; by rewrite (proj1 Hs) in E).
      apply Hsame in E; [|done]. rewrite Hkeep; [by apply (mi_rd _ _ _ Hm)|by apply Hlv|done].
    + intros k r Hk E Hne. destruct (decide (k = i)) as [->|Hki].
      { unfold R' in E. rewrite list_lookup_insert_eq in E by (by eapply lookup_lt_Some). congruence. }
      unfold R' in E. rewrite list_lookup_insert_ne in E by done.
      destruct (mi_live _ _ _ Hm k r Hk E Hne) as [E2 E3].
      assert (r ≠ rd) as Hr by (intros ->; done).
      split; [by apply Hsame|]. rewrite Hkeep; [done|by apply Hlv|done].
  - pose proof (free_insert (rds g) i NO_REALM rd H1 E1) as Hf. fold R' in Hf.
    rewrite decide_False, decide_True in Hf; [lia|done|by apply Hlv].
Qed.
End OneCommand.

(** The slots a command may take. *)
Definition takes (c : rmi_cmd) : nat := match c with CRealmCreate _ _ => 1 | _ => 0 end.

Ltac some_step := let H := fresh in intros ? ? H; do 3 eexists; exact H.

Lemma track_step s s' g L T c :
  wf g L → tracks g L T → mirrors s (rds g) T → in_scope c = true → (takes c ≤ free (rds g))%nat →
  allowed c s → effect c s s' →
  run_to (track c) g (λ _ g', ∃ R' r q, in_step g L s' (takes c) R' r q g') ∨
  (∃ a, c = CGranuleDelegate a) ∧ ¬ heap_room g ∧ track c g = Fault NullDeref.
Proof.
  intros W TR Hm Hc Hf Ha He. destruct c; try done; [|left..].
  - destruct (step_delegate s s' g L T W TR Hm addr Ha He) as [[_ Hs]|[? ?]]; [left|right]; [|by eauto].
    eapply run_to_mono; [exact Hs|]. some_step.
  - eapply run_to_mono; [by eapply (step_undelegate s s' g L T)|]. some_step.
  - destruct Ha as (H1 & H2 & H3). eapply run_to_mono; [eapply (step_assign s s' g L T W TR Hm); try done|].
    + intros n n' Hn (Hr & Hi & _ & Hs). by exists n'.
    + some_step.
  - destruct Ha as (H1 & H2 & H3). eapply run_to_mono; [eapply (step_assign s s' g L T W TR Hm); try done|].
    + intros n n' Hn (Hr & Hi & _ & Hs). by exists n'.
    + some_step.
  - destruct Ha as (H1 & q & H2). eapply run_to_mono; [by eapply (step_data_destroy s s' g L T)|]. some_step.
  - eapply run_to_mono; [by eapply (step_realm_create s s' g L T)|]. intros ? g' (R' & r & Hs). by exists R', r, rd.
  - eapply run_to_mono; [by eapply (step_realm_destroy s s' g L T)|]. some_step.
  - destruct Ha as (H1 & H2). eapply run_to_mono.
    { eapply (step_assign s s' g L T W TR Hm); [done|done| | |exact He|..]; try done.
      - intros x y [-> ->]. split; [done|]. split; [done|]. exists rd. apply He.
      - intros n n' Hn _. by exists n'. }
    some_step.
  - eapply run_to_mono; [by eapply (step_rec_destroy s s' g L T)|]. some_step.
  - destruct Ha as (H1 & H2 & H3). eapply run_to_mono; [eapply (step_assign s s' g L T W TR Hm); try done|].
    + intros n n' Hn (Hr & Hi & Hl & Hs). by exists n'.
    + some_step.
  - destruct Ha as (H1 & q & H2).
    eapply run_to_mono; [by eapply (step_rtt_destroy s s' g L T W TR Hm)|]. some_step.
  - destruct Ha as (H1 & q & H2). eapply run_to_mono; [by eapply (step_rtt_destroy s s' g L T)|]. some_step.
Qed.

(** * Every sequence of commands *)

Section Mirror.
Context {W : Type} `{Conforming W}.
Implicit Types h : host W.

(** The lists of the tracker agree with the granules of the monitor: a granule
    is in exactly one list, that of its state and Realm, with its IPA and level,
    and an Undelegated granule is in none. *)
Definition synced h : Prop :=
  ∃ L T, wf (h_gs h) L ∧ tracks (h_gs h) L T ∧ mirrors (gran (h_world h)) (rds (h_gs h)) T.

Lemma after_smc_world args h : h_world (after_smc args h) = (smc (h_world h) (h_mem h) args).1.1.
Proof. unfold after_smc. by destruct (smc _ _ _) as [[w m] x]. Qed.

(** One command, with the lists before and after. *)
Lemma cmd_step_at c h L T :
  in_scope c = true → (takes c ≤ free (rds (h_gs h)))%nat →
  wf (h_gs h) L → tracks (h_gs h) L T → mirrors (gran (h_world h)) (rds (h_gs h)) T →
  match run_cmd c h with
  | Ok _ h' =>
      (∃ L' T', wf (h_gs h') L' ∧ tracks (h_gs h') L' T' ∧
         mirrors (gran (h_world h')) (rds (h_gs h')) T' ∧ ∀ j e, ¬ scoped e → L' j e = L j e) ∧
      (free (rds (h_gs h)) ≤ free (rds (h_gs h')) + takes c)%nat ∧
      h_world h' = (smc (h_world h) (h_mem h) (cmd_args c)).1.1 ∧
      ((∀ q, gran (h_world h') q = gran (h_world h) q) ∨
       truthy (x0 (smc (h_world h) (h_mem h) (cmd_args c)).2) = false ∧
       effect c (gran (h_world h)) (gran (h_world h')))
  | Fault f => f = NullDeref ∧ (∃ a, c = CGranuleDelegate a) ∧ ¬ heap_room (h_gs h)
  | NoFuel => False
  end.
Proof.
  intros Hc Hf Hw TR Hm. rewrite run_cmd_body. unfold cmd_body, reply.
  pose proof (gran_law (h_world h) (h_mem h) c Hc) as Hl.
  pose proof (after_smc_gs (cmd_args c) h) as Hgs. pose proof (after_smc_world (cmd_args c) h) as Hwo.
  destruct (smc (h_world h) (h_mem h) (cmd_args c)) as [[w m] r]. cbn in Hwo |- *.
  destruct (truthy (x0 r)) eqn:Er.
  - rewrite Hgs, Hwo. split; [|by split; [lia|split; [|left]]]. exists L, T. split; [done|]. split; [done|].
    split; [by eapply mirrors_ext|done].
  - destruct Hl as [Ha He]. unfold bind, tracker, zoom. rewrite Hgs.
    destruct (track_step _ _ _ L T c Hw TR Hm Hc Hf Ha He) as [Hr|(Ha' & Hroom & ->)]; [|done].
    apply run_to_Ok in Hr as (? & g' & -> & R' & r' & q & T' & (L' & W' & TR' & <- & _ & Hun & _) & Hm' & Hfree).
    cbn. rewrite Hwo. split; [by exists L', T'|]. split; [done|]. split; [done|by right].
Qed.

Lemma cmd_step c h :
  in_scope c = true → (takes c ≤ free (rds (h_gs h)))%nat → synced h →
  match run_cmd c h with
  | Ok _ h' => synced h' ∧ (free (rds (h_gs h)) ≤ free (rds (h_gs h')) + takes c)%nat
  | Fault f => f = NullDeref ∧ (∃ a, c = CGranuleDelegate a) ∧ ¬ heap_room (h_gs h)
  | NoFuel => False
  end.
Proof.
  intros Hc Hf (L & T & Hw & TR & Hm). pose proof (cmd_step_at c h L T Hc Hf Hw TR Hm) as Hs.
  destruct (run_cmd c h); [|done|done]. destruct Hs as ((L' & T' & ? & ? & ? & _) & ? & _).
  split; [by exists L', T'|done].
Qed.

Definition total_takes (cs : list rmi_cmd) : nat := sum_list_with takes cs.

(** How a sequence of commands ends, if each one keeps [I]. *)
Definition cmds_end (I : host W → Prop) (cs : list rmi_cmd) h : Prop :=
  match run_cmds cs h with
  | Ok rs h' => length rs = length cs ∧ I h'
  | Fault f =>
      f = NullDeref ∧ ∃ cs1 a cs2 rs h1, cs = cs1 ++ CGranuleDelegate a :: cs2 ∧
        run_cmds cs1 h = Ok rs h1 ∧ I h1 ∧ ¬ heap_room (h_gs h1)
  | NoFuel => False
  end.

Lemma run_cmds_keep (fine : rmi_cmd → Prop) (I : host W → Prop) :
  (∀ c h, fine c → (takes c ≤ free (rds (h_gs h)))%nat → I h →
     match run_cmd c h with
     | Ok _ h' => I h' ∧ (free (rds (h_gs h)) ≤ free (rds (h_gs h')) + takes c)%nat
     | Fault f => f = NullDeref ∧ (∃ a, c = CGranuleDelegate a) ∧ ¬ heap_room (h_gs h)
     | NoFuel => False
     end) →
  ∀ cs h, Forall fine cs → (total_takes cs ≤ free (rds (h_gs h)))%nat → I h → cmds_end I cs h.
Proof.
  intros Hkeep cs. unfold cmds_end. induction cs as [|c cs IH]; intros h Hs Hf HI; cbn; [done|].
  apply Forall_cons in Hs as [Hc Hs]. unfold total_takes in Hf. cbn in Hf.
  pose proof (Hkeep c h Hc ltac:(lia) HI) as Hstep. unfold bind.
  destruct (run_cmd c h) as [r h1|f|] eqn:E1; [|..|done].
  - destruct Hstep as [HI1 Hf1]. specialize (IH h1 Hs ltac:(unfold total_takes; lia) HI1).
    destruct (run_cmds cs h1) as [rs h2|f|]; cbn; [|..|done].
    + destruct IH as [-> ?]. done.
    + destruct IH as (-> & cs1 & a & cs2 & rs & h3 & -> & E & ?). split; [done|].
      exists (c :: cs1), a, cs2, (r :: rs), h3. split; [done|]. split; [|done].
      cbn. unfold bind. by rewrite E1, E.
  - destruct Hstep as (-> & [a ->] & Hr). split; [done|]. by exists [], a, cs, [], h.
Qed.

(** C1. The tracker mirrors the monitor.  Let the monitor keep to the documented
    states of granules.  Then, from a state in which the lists of the tracker
    agree with these states, every sequence of commands that move granules, with
    no more new Realms than free slots, ends in such a state, whatever the
    monitor accepted or refused.  In particular no destroy command misses its
    descriptor.  The only way to stop is a successful delegation for whose
    descriptor the heap has no room. *)
Theorem tracker_mirrors_rmm cs h :
  Forall (λ c, in_scope c = true) cs → (total_takes cs ≤ free (rds (h_gs h)))%nat → synced h →
  match run_cmds cs h with
  | Ok rs h' => length rs = length cs ∧ synced h'
  | Fault f =>
      f = NullDeref ∧ ∃ cs1 a cs2 rs h1, cs = cs1 ++ CGranuleDelegate a :: cs2 ∧
        run_cmds cs1 h = Ok rs h1 ∧ synced h1 ∧ ¬ heap_room (h_gs h1)
  | NoFuel => False
  end.
Proof. apply (run_cmds_keep (λ c, in_scope c = true) synced cmd_step). Qed.
End Mirror.

(** At program start, with every granule Undelegated, the two agree. *)
Lemma start_mirrors (a : alloc_state) m :
  alloc_wf a →
  let g := gstate_init a m in
  wf g (λ _ _, []) ∧ tracks g (λ _ _, []) ∅ ∧ mirrors (state_of ∅) (rds g) ∅.
Proof.
  intros Ha. split; [by apply wf_init|]. split.
  - split; [intros ???? _ []%not_elem_of_nil|done|intros ???????? _ _ []%not_elem_of_nil].
  - assert (∀ k x, rds (gstate_init a m) !! k = Some x → x = NO_REALM) as HR.
    { intros k x. unfold rds, gstate_init. cbn [mem_track]. rewrite fmap_replicate. by intros []%lookup_replicate. }
    split; unfold state_of; intros *; rewrite ?lookup_empty; try done.
    intros _ E. by apply HR in E.
Qed.

Lemma synced_start (a : alloc_state) m mem r log :
  alloc_wf a → synced (mk_host (∅ : gmap Z rmm_gran) (gstate_init a m) mem r log).
Proof. intros Ha. exists (λ _ _, []), ∅. by apply start_mirrors. Qed.

(** A Realm with its tables, a REC and a page of data, created and partly destroyed. *)
Definition script1 : list rmi_cmd :=
  [CGranuleDelegate 0x1000; CGranuleDelegate 0x2000; CGranuleDelegate 0x3000; CGranuleDelegate 0x4000;
   CGranuleDelegate 0x5000; CGranuleDelegate 0x6000; CRealmCreate 0x1000 0; CRttCreate 0x1000 0x2000 0 1;
   CRttCreate 0x1000 0x5000 0 2; CRttCreate 0x1000 0x6000 0 3; CRecCreate 0x1000 0x3000 0;
   CDataCreate 0x1000 0x4000 0x8000 0 0; CDataDestroy 0x1000 0x8000; CGranuleUndelegate 0x4000;
   CRecDestroy 0x3000; CRealmDestroy 0x1000].

Definition start_host : host (gmap Z rmm_gran) :=
  mk_host ∅ (gstate_init heap1 ∅) ∅ realm_zero [].

Lemma tracker_mirrors_rmm_witness :
  match run_cmds script1 start_host with
  | Ok rs h' => rs = replicate 15 0 ++ [RMI_ERROR_INPUT] ∧ synced h'
  | _ => False
  end.
Proof.
  pose proof (tracker_mirrors_rmm script1 start_host) as Hm.
  destruct (run_cmds script1 start_host) as [rs h'|f|] eqn:E.
  - split; [|apply Hm; [by repeat constructor|by vm_compute; lia|by apply synced_start, heap1_wf]].
    enough (match run_cmds script1 start_host with Ok rs _ => rs | _ => [] end
            = replicate 15 0 ++ [RMI_ERROR_INPUT]) as Hrs by (by rewrite E in Hrs).
    by vm_compute.
  - enough (match run_cmds script1 start_host with Ok _ _ => true | _ => false end = true) as Ht
      by (by rewrite E in Ht). by vm_compute.
  - enough (match run_cmds script1 start_host with Ok _ _ => true | _ => false end = true) as Ht
      by (by rewrite E in Ht). by vm_compute.
Defined.
