(* ===== verification/Rollback.v ===== *)
(** The rollback after a test.  [val_host_postamble] destroys every Realm and
    undelegates every granule; it walks lists while the commands it issues take
    the current descriptor out of them.  The theorem at the end: against every
    documented monitor it ends, without following a bad pointer, either right
    after a command that was in order and that the monitor refused, or with every
    granule Undelegated. *)
From S2P Require Import Prelude Defs Alloc Granule GranuleInv GranuleSpec Host Rmi RmiFacts RmmSpec.
From S2P Require Import Tracks Mirror RealmMap RealmLife.

(** No granule is mapped unprotected or by an auxiliary table. *)
Definition plain (L : layout) : Prop := ∀ i f, ¬ scoped f → L i f = [].

(** Granules are released and undelegated, and nothing else happens to them. *)
Definition lessens (s s' : Z → rmm_gran) : Prop :=
  ∀ q, s' q = s q ∨ s' q = Delegated ∨ s' q = Undelegated.

#[export] Instance lessens_preorder : PreOrder lessens.
Proof.
  split; [by left|]. intros s1 s2 s3 H1 H2 q.
  destruct (H2 q) as [->|]; [apply H1|by right].
Qed.

Lemma shrinks_scope c : shrinks c = true → in_scope c = true.
Proof. by destruct c. Qed.

Lemma effect_lessens c s s' : shrinks c = true → effect c s s' → lessens s s'.
Proof.
  destruct c; cbn; try done; intros _ He q.
  - destruct He as [Ha He]. destruct (decide (q = addr)) as [->|Hq]; [by right; right|].
    destruct (He q Hq) as [|[]]. by left.
  - rewrite (He q). case_decide; auto.
  - destruct He as [Ha He]. destruct (decide (q = rd)) as [->|Hq]; [by right; left|].
    rewrite (He q Hq). case_decide; auto.
  - destruct He as [Ha He]. destruct (decide (q = rec)) as [->|Hq]; [by right; left|].
    rewrite (He q Hq). case_decide; auto.
  - rewrite (He q). case_decide; auto.
Qed.

(** * The trees of tables *)

(** Every table is in its place, every page of data below its leaf table. *)
Definition tree (start : Z → Z) (s : Z → rmm_gran) : Prop :=
  ∀ q rd ipa level, s q = IsRtt rd ipa level → table_place start s rd ipa level.

Definition leafed (start : Z → Z) (s : Z → rmm_gran) : Prop :=
  ∀ q rd ipa, s q = IsData rd ipa → reaches start s rd 3 ipa.

(** The command that takes a table away. *)
Definition drops (c : rmi_cmd) (rd ipa level : Z) : Prop :=
  c = CRttFold rd ipa level ∨ c = CRttDestroy rd ipa level.

Lemma effect_table c s s' q rd ipa level :
  allowed c s → effect c s s' → s q = IsRtt rd ipa level → s' q = s q ∨ drops c rd ipa level.
Proof.
  assert (∀ a st also, s a ≠ IsRtt rd ipa level → (∀ y, ¬ also (IsRtt rd ipa level) y) → sets a st also s s' →
    s q = IsRtt rd ipa level → s' q = s q) as Hset.
  { intros a st also Ha Hal [_ Hq] E. destruct (Hq q) as [?|Hx]; [congruence|done|].
    rewrite E in Hx. by destruct (Hal _ Hx). }
  assert (∀ a st, s a ≠ IsRtt rd ipa level → st ≠ IsRtt rd ipa level → releases_with a st s s' →
    s q = IsRtt rd ipa level → s' q = s q) as Hrel.
  { intros a st Ha Hst [_ Hq] E. rewrite Hq by congruence. rewrite decide_False; congruence. }
  unfold drops.
  destruct c; cbn; try done; intros Ha He E; destruct_and?;
    try (left; eapply Hset; [..|exact He|exact E]; [congruence|naive_solver]);
    try (left; eapply Hrel; [..|exact He|exact E]; [naive_solver congruence|done]);
    rewrite (He q), E; case_decide; simplify_eq; auto.
Qed.

Lemma effect_new_table c s s' q rd ipa level :
  in_scope c = true → effect c s s' → s' q = IsRtt rd ipa level →
  s q = IsRtt rd ipa level ∨ ∃ rtt, c = CRttCreate rd rtt ipa level.
Proof.
  assert (∀ a st also, sets a st also s s' → (∀ x, ¬ also x (IsRtt rd ipa level)) → s' q = IsRtt rd ipa level →
    s q = IsRtt rd ipa level ∨ st = IsRtt rd ipa level) as Hset.
  { intros a st also [Ha Hq] Hal E. destruct (decide (q = a)) as [->|Hne]; [right; congruence|].
    destruct (Hq q Hne) as [?|Hx]; [left; congruence|]. rewrite E in Hx. by destruct (Hal _ Hx). }
  assert (∀ a st, releases_with a st s s' → s' q = IsRtt rd ipa level → s q = IsRtt rd ipa level) as Hrel.
  { intros a st [Ha Hq] E. destruct (decide (q = a)) as [->|Hne]; [congruence|].
    rewrite (Hq q Hne) in E. by case_decide. }
  destruct c; cbn; try done; intros _ He E;
    try (left; by eapply Hrel);
    try (rewrite (He q) in E; case_decide; [done|by left]);
    (destruct (Hset _ _ _ He ltac:(naive_solver) E) as [?|Hst]; [by left|]); try done.
  injection Hst as -> -> ->. right. by eexists.
Qed.

(** The walks that do not go through the table that is taken away. *)
Lemma reaches_step start c s s' rd level ipa :
  allowed c s → effect c s s' → reaches start s rd level ipa →
  (∀ k, k ≤ level → ¬ drops c rd (table_base k ipa) k) → reaches start s' rd level ipa.
Proof.
  intros Ha He Hr Hd k Hk. destruct (Hr k Hk) as [q Hq]. exists q. rewrite <- Hq.
  destruct (effect_table c s s' q _ _ _ Ha He Hq) as [|Hx]; [done|]. by destruct (Hd k (proj2 Hk)).
Qed.

Lemma drops_clear start c s rd ipa level :
  documented start c s → drops c rd ipa level → ∀ q, subtable rd level ipa (s q) = false.
Proof.
  intros [_ Hd] [-> | ->] q; destruct Hd as [_ Hd]; [destruct Hd as [Hd|[Hd _]]|]; specialize (Hd q); [|done|];
    unfold under in Hd; by destruct (s q).
Qed.

Lemma reaches_start start start' s rd level ipa :
  start' rd = start rd → reaches start s rd level ipa → reaches start' s rd level ipa.
Proof. intros E Hr k Hk. apply Hr. by rewrite <- E. Qed.

(** A documented command keeps the tables in place. *)
Lemma tree_step start start' c s s' :
  in_scope c = true → documented start c s → effect c s s' → tree start s →
  (∀ q rd, owner (s q) = Some rd → s rd = IsRd) → (∀ q rd, owner (s' q) = Some rd → s' rd = IsRd) →
  (∀ rd, s rd = IsRd → s' rd = IsRd → start' rd = start rd) → tree start' s'.
Proof.
  intros Hc Hdoc He Ht Ho Ho' Hst q rd ipa level E. pose proof (proj1 Hdoc) as Ha.
  assert (table_place start s rd ipa level ∧ s rd = IsRd ∧ ∀ k, k < level → ¬ drops c rd (table_base k ipa) k)
    as ((Hl & Hb & Hr) & Hrd & Hnd).
  { destruct (effect_new_table c s s' q rd ipa level Hc He E) as [Eq|[rtt ->]].
    - split; [by eapply Ht|]. split; [apply (Ho q); by rewrite Eq|]. intros k Hk Hx.
      pose proof (drops_clear start c s _ _ _ Hdoc Hx q) as Hs. rewrite Eq in Hs. cbn in Hs.
      rewrite !Z.eqb_refl, (proj2 (Z.ltb_lt k level) Hk) in Hs. done.
    - split; [by apply Hdoc|]. split; [by destruct Ha as (_ & ? & _)|]. by intros k _ [|]. }
  rewrite <- (Hst rd Hrd) in Hl by (apply (Ho' q); by rewrite E).
  split; [done|]. split; [done|]. eapply (reaches_start start); [apply Hst; [done|apply (Ho' q); by rewrite E]|].
  eapply reaches_step; [done|done|done|]. intros k Hk. apply Hnd. lia.
Qed.

(** A command of the rollback keeps the data below their tables. *)
Lemma leafed_step start start' c s s' :
  shrinks c = true → documented start c s → effect c s s' → leafed start s →
  (∀ q rd, owner (s q) = Some rd → s rd = IsRd) → (∀ q rd, owner (s' q) = Some rd → s' rd = IsRd) →
  (∀ rd, s rd = IsRd → s' rd = IsRd → start' rd = start rd) → leafed start' s'.
Proof.
  intros Hc Hdoc He Hlf Ho Ho' Hst q rd ipa E.
  assert (s q = IsData rd ipa) as Eq.
  { destruct (effect_lessens c s s' Hc He q) as [?|[?|?]]; congruence. }
  eapply (reaches_start start); [apply Hst; [apply (Ho q); by rewrite Eq|apply (Ho' q); by rewrite E]|].
  eapply reaches_step; [apply Hdoc|done|by eapply Hlf|]. intros k _ [-> | ->]; [done|].
  destruct Hdoc as (_ & _ & Hn). specialize (Hn q). rewrite Eq in Hn. cbn in Hn. by rewrite !Z.eqb_refl in Hn.
Qed.

(** The list of a granule. *)
Definition loc (R : list Z) (q : Z) (st : rmm_gran) : option (nat * gfield) :=
  match st with
  | Undelegated => None
  | Delegated | IsRoot _ | IsRecAux _ => Some (0%nat, Ns)
  | IsRd => Some (realm_of R q, Rd)
  | IsRec rd => Some (realm_of R rd, Rec)
  | IsData rd _ => Some (realm_of R rd, Data)
  | IsRtt rd _ _ => Some (realm_of R rd, Rtt)
  end.

Lemma placed_loc R q st o : placed R q st o → loc R q st = fst <$> o.
Proof. destruct st; cbn; [by intros ->|..]; by intros (n & -> & _). Qed.

Section Rollback.
Context {W : Type} {RM : RMM W} {CW : Conforming W} {DW : Documented W}.
Implicit Types h : host W.

Definition synced_at (L : layout) h : Prop :=
  ∃ T, wf (h_gs h) L ∧ tracks (h_gs h) L T ∧ mirrors (gran (h_world h)) (rds (h_gs h)) T.

(** The state right after a command that met its documented conditions and was
    refused all the same. *)
Definition refused h' : Prop :=
  ∃ c h, shrinks c = true ∧ private (h_world h) ∧
    documented (start_level (h_world h)) c (gran (h_world h)) ∧
    truthy (x0 (reply (cmd_args c) h)) = true ∧ h' = after_smc (cmd_args c) h.

(** The trees of a world in which every page has its leaf table. *)
Definition planted (w : W) : Prop :=
  tree (start_level w) (gran w) ∧ leafed (start_level w) (gran w) ∧ private w.

(** What a walk in Realm [r] relies on and keeps. *)
Record good (r : nat) (R : list Z) (L : layout) h : Prop := {
  go_sync : synced_at L h;
  go_plain : plain L;
  go_trees : planted (h_world h);
  go_realm : current_realm (h_gs h) = r;
  go_rds : rds (h_gs h) = R
}.

Lemma good_wf r R L h : good r R L h → wf (h_gs h) L.
Proof. by intros [(T & ? & _) _ _ _ _]. Qed.

(** A command of the rollback that succeeds keeps the trees. *)
Lemma planted_cmd c w m w' m' x R T R' T' :
  shrinks c = true → smc w m (cmd_args c) = (w', m', x) → truthy (x0 x) = false →
  effect c (gran w) (gran w') → mirrors (gran w) R T → mirrors (gran w') R' T' → planted w → planted w'.
Proof.
  intros Hc E Et He Hm Hm' (Ht & Hlf & Hp). pose proof (doc_law w m c (shrinks_scope c Hc)) as Hd.
  rewrite E in Hd. destruct Hd as (Hd & Hst & Hpr). specialize (Hd Et).
  pose proof (λ q rd, mi_owner _ _ _ q rd Hm) as Ho. pose proof (λ q rd, mi_owner _ _ _ q rd Hm') as Ho'.
  split; [by eapply tree_step; [by apply shrinks_scope|..]|]. split; [by eapply leafed_step|by apply Hpr].
Qed.

(** A command of the rollback, from what it does to the tracker when it succeeds. *)
Lemma cmd_moves c q r' R' r R h L :
  good r R L h → shrinks c = true → documented (start_level (h_world h)) c (gran (h_world h)) →
  (∀ s', effect c (gran (h_world h)) s' →
     run_to (track c) (h_gs h) (λ _ g', in_step (h_gs h) L s' 0 R' r' q g')) →
  run_to (run_cmd c) h (λ st h',
    truthy st = true ∧ refused h' ∨
    truthy st = false ∧ effect c (gran (h_world h)) (gran (h_world h')) ∧
    ∃ L', good r' R' L' h' ∧ kept_PA (h_gs h) L (h_gs h') ∧
      ∀ a i f n, scoped f → a ∈ L i f → nodes (h_gs h) !! a = Some n → gr_PA n = q →
        shifts a L L' ∧
        (gran (h_world h') q = Undelegated → ∀ j e, scoped e → a ∉ L' j e) ∧
        (gran (h_world h') q = Delegated → a ∈ L' 0%nat Ns)).
Proof.
  intros Hg Hc Hall Hstep. destruct Hg as [(T & Hw & TR & Hm) Hpl Htr _ _].
  unfold run_to. rewrite run_cmd_body. unfold cmd_body.
  pose proof (gran_law (h_world h) (h_mem h) c (shrinks_scope c Hc)) as Hl.
  pose proof (after_smc_gs (cmd_args c) h) as Hgs. pose proof (after_smc_world (cmd_args c) h) as Hwo.
  destruct (truthy (x0 (reply (cmd_args c) h))) eqn:Et.
  { left. split; [done|]. destruct Htr as (_ & _ & ?). by exists c, h. }
  unfold reply in *. destruct (smc (h_world h) (h_mem h) (cmd_args c)) as [[w m] x] eqn:Es. cbn in Hwo, Et |- *.
  rewrite Et in Hl. destruct Hl as [_ He].
  specialize (Hstep (gran w) He). unfold bind, tracker, zoom. rewrite Hgs.
  apply run_to_Ok in Hstep as (u & g' & -> & T' & (L' & W' & TR' & HR & HC & Hun & HPA & Hsh) & Hm' & _).
  cbn. right. split; [done|]. rewrite Hwo. split; [done|]. exists L'. split.
  { split; cbn; [|by intros i f Hf; rewrite Hun; [apply Hpl|]| |done|done].
    2: { rewrite Hwo. by eapply planted_cmd. }
    exists T'. cbn. rewrite Hwo, HR. done. }
  split; [done|]. intros a i f n Hf Hi En Hpa. destruct (Hsh a i f n Hf Hi En Hpa) as (Hs & Hat).
  destruct (HPA i f a n Hi En) as (n' & En' & Hpa'). rewrite Hpa in Hpa'.
  split; [done|]. pose proof (mi_at _ _ _ Hm' q) as Hp. split.
  - intros Hu j e He' Hin. rewrite Hu in Hp. pose proof (tr_in _ _ _ TR' j e a n' He' Hin En') as HT.
    rewrite Hpa' in HT. cbn in Hp. congruence.
  - intros Hd. rewrite Hd in Hp. destruct Hp as (m' & HT & _). by apply (Hat 0%nat Ns m').
Qed.

(** * One descriptor *)

Lemma wf_next g L i f l1 p l2 :
  wf g L → L i f = l1 ++ p :: l2 → p ≠ 0 ∧ ∃ n, nodes g !! p = Some n ∧ gr_next n = lhd l2.
Proof.
  intros Hw E. assert (p ∈ L i f) as Hp by (rewrite E; set_solver).
  pose proof (wf_lists _ _ Hw i f (wf_in_range _ _ _ _ _ Hw Hp)) as Hl. rewrite E, lseg_app in Hl.
  destruct Hl as (x & _ & -> & Hx & n & En & Hl). split; [done|]. exists n. split; [done|]. by eapply lseg_hd.
Qed.

Lemma node_eq p n h : p ≠ 0 → nodes (h_gs h) !! p = Some n → node p h = Ok n h.
Proof.
  intros Hp E. unfold node, tracker, zoom. rewrite (deref_Some _ _ _ Hp E). by destruct h.
Qed.

Lemma shifts_out g L L' L'' a i f l1 l2 :
  wf g L → L i f = l1 ++ a :: l2 → shifts a L L' → shifts a L' L'' → a ∉ L'' i f → L'' i f = l1 ++ l2.
Proof.
  intros Hw E H1 H2 Hn. pose proof (wf_nodup _ _ Hw i f) as Hnd. rewrite E in Hnd.
  rewrite <- (Permutation_middle l1 l2 a) in Hnd. apply NoDup_cons in Hnd as [Ha _].
  assert (∀ l : list Z, a ∉ l → filter (λ b, b ≠ a) l = l) as Hid.
  { induction l as [|x l IH]; [done|]. intros [Hx Hl]%not_elem_of_cons.
    rewrite filter_cons_True by done. by rewrite IH. }
  rewrite <- (Hid (L'' i f) Hn), (H2 i f), (H1 i f), E, filter_out_app. by apply Hid.
Qed.

(** The descriptors of [l] keep their granules. *)
Definition keeps (l : list Z) h h' : Prop :=
  ∀ b n, b ∈ l → nodes (h_gs h) !! b = Some n → ∃ n', nodes (h_gs h') !! b = Some n' ∧ gr_PA n' = gr_PA n.

(** A descriptor of the Non-secure list whose granule is undelegated. *)
Lemma undelegate_spec r R p n h L :
  good r R L h → p ∈ L 0%nat Ns → nodes (h_gs h) !! p = Some n →
  gran (h_world h) (gr_PA n) = Delegated →
  run_to (undelegate_node p) h (λ ok h',
    ok = false ∧ refused h' ∨
    ok = true ∧ ∃ L', good r R L' h' ∧ shifts p L L' ∧ (∀ j e, scoped e → p ∉ L' j e) ∧
      lessens (gran (h_world h)) (gran (h_world h')) ∧ kept_PA (h_gs h) L (h_gs h')).
Proof.
  intros Hg Hin En Hd. destruct (wf_node _ _ _ _ _ (good_wf _ _ _ _ Hg) Hin) as [Hp _].
  unfold undelegate_node. eapply run_to_step; [by apply node_eq|]. set (q := gr_PA n) in *.
  change (val_host_rmi_granule_undelegate q) with (run_cmd (CGranuleUndelegate q)).
  eapply run_to_bind.
  { apply (cmd_moves (CGranuleUndelegate q) q r R r R h L Hg eq_refl (conj Hd I)). intros s' He'.
    destruct Hg as [(T & Hw & TR & Hm) _ _ <- <-]. by eapply (step_undelegate _ s' _ L T). }
  intros st h' [[-> Href]|(-> & He & L' & Hg' & HPA & Hsh)]; apply run_to_ret; [by left|right].
  split; [done|]. exists L'. split; [done|].
  destruct (Hsh p 0%nat Ns n ltac:(done) Hin En eq_refl) as (Hs & Hu & _).
  split; [done|]. split; [apply Hu, He|]. split; [by eapply (effect_lessens (CGranuleUndelegate q))|done].
Qed.

(** A descriptor whose granule a command releases and a second one undelegates. *)
Lemma drop_node c q r R i f l1 p l2 n h L :
  good r R L h → shrinks c = true → documented (start_level (h_world h)) c (gran (h_world h)) →
  L i f = l1 ++ p :: l2 → scoped f → nodes (h_gs h) !! p = Some n → gr_PA n = q →
  (∀ s', effect c (gran (h_world h)) s' → s' q = Delegated ∧
     run_to (track c) (h_gs h) (λ _ g', in_step (h_gs h) L s' 0 R r q g')) →
  run_to (let* st := run_cmd c in if truthy st then ret false else undelegate_node p) h (λ ok h',
    ok = false ∧ refused h' ∨ ok = true ∧ ∃ L', good r R L' h' ∧ L' i f = l1 ++ l2 ∧
      lessens (gran (h_world h)) (gran (h_world h')) ∧ keeps (l1 ++ l2) h h').
Proof.
  intros Hg Hc Hall EL Hf En Hq Hstep. pose proof (good_wf _ _ _ _ Hg) as Hw.
  assert (p ∈ L i f) as Hin by (rewrite EL; set_solver).
  eapply run_to_bind; [eapply (cmd_moves c q r R r R h L Hg Hc Hall); intros; by apply Hstep|].
  intros st h1 [[-> Href]|(-> & He & L1 & Hg1 & HPA1 & Hsh)]; [apply run_to_ret; by left|].
  destruct (Hsh p i f n Hf Hin En Hq) as (Hs1 & _ & Hd).
  destruct (HPA1 i f p n Hin En) as (n1 & En1 & Hq1).
  assert (gran (h_world h1) q = Delegated) as Hdel by (by apply Hstep).
  eapply run_to_mono; [eapply (undelegate_spec r R p n1 h1 L1 Hg1 (Hd Hdel) En1); by rewrite Hq1, Hq|].
  intros ok h2 [?|(-> & L2 & Hg2 & Hs2 & Hn & Hl2 & HPA2)]; [by left|right]. split; [done|]. exists L2.
  split; [done|].
  assert (L2 i f = l1 ++ l2) as E2
    by (eapply (shifts_out (h_gs h) L L1 L2 p i f l1 l2); try done; by apply Hn).
  split; [done|]. split; [etrans; [by eapply effect_lessens|done]|].
  intros b m Hb Eb. assert (b ≠ p) as Hbp by (intros ->; rewrite <- E2 in Hb; by apply (Hn i f)).
  assert (b ∈ L i f) as HbL by (rewrite EL; set_solver).
  destruct (HPA1 i f b m HbL Eb) as (m1 & Eb1 & Hm1).
  destruct (HPA2 i f b m1) as (m2 & Eb2 & Hm2); [by apply (shifts_same_but _ _ _ Hs1)|done|].
  exists m2. by rewrite Hm2.
Qed.

(** * The bodies of the loops *)

(** Where [Pre] holds of the granules, on the descriptor [p] of the list [(i, f)]
    the body takes it out of the list, or leaves everything as it is if the state
    of its granule is not in [X]. *)
Definition handles (r : nat) (R : list Z) (Pre : (Z → rmm_gran) → Prop) (i : nat) (f : gfield)
    (X : rmm_gran → Prop) (body : Z → M (host W) bool) : Prop :=
  ∀ L h l1 p l2 n, good r R L h → Pre (gran (h_world h)) → L i f = l1 ++ p :: l2 → nodes (h_gs h) !! p = Some n →
  run_to (body p) h (λ ok h',
    ok = false ∧ refused h' ∨
    ok = true ∧ ((h' = h ∧ ¬ X (gran (h_world h) (gr_PA n))) ∨
      ∃ L', good r R L' h' ∧ L' i f = l1 ++ l2 ∧
        lessens (gran (h_world h)) (gran (h_world h')) ∧ keeps (l1 ++ l2) h h')).

(** The descriptor and its entry in the map. *)
Lemma good_entry r R L h i f l1 p l2 n :
  good r R L h → L i f = l1 ++ p :: l2 → scoped f → nodes (h_gs h) !! p = Some n →
  ∃ T, node p h = Ok n h ∧ wf (h_gs h) L ∧ tracks (h_gs h) L T ∧
    mirrors (gran (h_world h)) R T ∧ T !! gr_PA n = Some (i, f, set_next 0 n).
Proof.
  intros [(T & Hw & TR & Hm) _ _ _ <-] EL Hf En. destruct (wf_next _ _ _ _ _ _ _ Hw EL) as (Hp & _).
  exists T. split; [by apply node_eq|]. split; [done|]. split; [done|].
  split; [done|]. apply (tr_in _ _ _ TR i f p n Hf); [|done]. rewrite EL. set_solver.
Qed.

Lemma rec_handled r R : handles r R (λ _, True) r Rec (λ _, True) destroy_rec_node.
Proof.
  intros L h l1 p l2 n Hg Hpre EL En.
  destruct (good_entry _ _ _ _ _ _ _ _ _ n Hg EL ltac:(done) En) as (T & Hn & Hw & TR & Hm & HT).
  assert (documented (start_level (h_world h)) (CRecDestroy (gr_PA n)) (gran (h_world h))) as Hall.
  { split; [|done]. pose proof (placed_loc _ _ _ _ (mi_at _ _ _ Hm (gr_PA n))) as Hl. rewrite HT in Hl. cbn.
    destruct (gran (h_world h) (gr_PA n)); cbn in Hl; try done. by eexists. }
  unfold destroy_rec_node. eapply run_to_step; [exact Hn|].
  change (val_host_rmi_rec_destroy (gr_PA n)) with (run_cmd (CRecDestroy (gr_PA n))).
  eapply run_to_mono; [eapply (drop_node (CRecDestroy (gr_PA n)) (gr_PA n) r R r Rec l1 p l2 n); try done|].
  - intros s' He. split; [apply He|]. destruct Hg as [_ _ _ <- <-]. eapply (step_rec_destroy _ s' _ L T); try done. apply Hall.
  - intros ok h' [?|[? ?]]; [by left|right]. auto.
Qed.

Lemma data_skipped r R : handles r R (λ _, True) r Data (λ _, False) (destroy_data_node 1).
Proof.
  intros L h l1 p l2 n Hg Hpre EL En.
  destruct (good_entry _ _ _ _ _ _ _ _ _ n Hg EL ltac:(done) En) as (T & Hn & Hw & TR & Hm & HT).
  destruct (found_data _ _ _ _ _ _ Hm HT) as (_ & _ & Hsl & _). cbn in Hsl.
  unfold destroy_data_node. eapply run_to_step; [exact Hn|]. rewrite Hsl. apply run_to_ret. right. by auto.
Qed.

(** A loop whose body changes nothing. *)
Lemma for_from_none {R : Type} n i (body : Z → M (host W) (option R)) h :
  (∀ j, i ≤ j < i + Z.of_nat n → body j h = Ok None h) → for_from n i body h = Ok None h.
Proof.
  revert i. induction n as [|n IH]; intros i Hb; cbn [for_from]; [done|].
  rewrite (bind_step _ _ _ _ _ (Hb i ltac:(lia))). apply IH. intros j Hj. apply Hb. lia.
Qed.

(** Without auxiliary mappings [unmap_aux] does nothing. *)
Lemma unmap_aux_clean cmd p n h :
  node p h = Ok n h → gr_has_auxiliary n = replicate VAL_MAX_AUX_PLANES false →
  unmap_aux cmd p h = Ok true h.
Proof.
  intros Hn Ha. unfold unmap_aux, for_upto. rewrite (bind_step _ _ _ None h); [done|].
  apply for_from_none. intros j _. rewrite (bind_step _ _ _ _ _ Hn), Ha.
  destruct (replicate _ false !! Z.to_nat j) as [b|] eqn:E; [|done].
  by apply lookup_replicate in E as [-> _].
Qed.

(** A wrapper with an output argument, through its status. *)
Lemma via_status {A : Type} (m : M (host W) (Z * A)) (k : Z → M (host W) bool) h P :
  run_to (let* st := (let* (r, _) := m in ret r) in k st) h P → run_to (let* (r, _) := m in k r) h P.
Proof. unfold run_to, bind. by destruct (m h) as [[r x] h'|f|]. Qed.

Lemma data_handled r R : handles r R (λ _, True) r Data (λ _, True) (destroy_data_node 0).
Proof.
  intros L h l1 p l2 n Hg Hpre EL En.
  destruct (good_entry _ _ _ _ _ _ _ _ _ n Hg EL ltac:(done) En) as (T & Hn & Hw & TR & Hm & HT).
  destruct (found_data _ _ _ _ _ _ Hm HT) as (Hs & Hr & Hsl & Hax). cbn in Hs, Hr, Hsl, Hax.
  pose proof (mi_parent _ _ _ Hm (gr_PA n)) as Hrd. rewrite Hs in Hrd. cbn in Hrd.
  unfold destroy_data_node. eapply run_to_step; [exact Hn|]. rewrite Hsl. cbn [Z.eqb].
  eapply run_to_step; [by eapply unmap_aux_clean|]. cbn [negb]. eapply run_to_step; [exact Hn|].
  apply via_status.
  change (let* (r, _) := val_host_rmi_data_destroy (gr_rd n) (gr_ipa n) in ret r)
    with (run_cmd (CDataDestroy (gr_rd n) (gr_ipa n))).
  eapply run_to_mono; [eapply (drop_node _ (gr_PA n) r R r Data l1 p l2 n); try done|].
  - split; [split; [done|by eexists]|]. by eapply (go_trees _ _ _ _ Hg).
  - intros s' He. split; [by rewrite (He (gr_PA n)), decide_True|].
    destruct Hg as [_ _ _ _ <-]. rewrite Hr. by eapply (step_data_destroy _ s' _ L T).
  - intros ok h' [?|[? ?]]; [by left|right]. auto.
Qed.

(** No granule of the list [(i, f)] is in a state of [X]. *)
Definition none_of (R : list Z) (i : nat) (f : gfield) (X : rmm_gran → Prop) (s : Z → rmm_gran) : Prop :=
  ∀ q, loc R q (s q) = Some (i, f) → ¬ X (s q).

Definition of_level (level : Z) (st : rmm_gran) : Prop := ∃ rd ipa, st = IsRtt rd ipa level.

(** Nothing is left below the tables of [level] of Realm [r]. *)
Definition cleared (r : nat) (R : list Z) (level : Z) (s : Z → rmm_gran) : Prop :=
  none_of R r Data (λ _, True) s ∧ ∀ k, level < k ≤ 3 → none_of R r Rtt (of_level k) s.

Lemma cleared_non_live start r R level s rd ipa :
  tree start s → cleared r R level s → realm_of R rd = r → non_live s rd level ipa.
Proof.
  intros Ht [Hd Hk] Hr q. destruct (under rd level ipa (s q)) eqn:E; [exfalso|done].
  destruct (s q) as [| | | |rd' ipa' level'| | |rd' ipa'] eqn:Eq; cbn in E; try done.
  - apply andb_true_iff in E as [[->%Z.eqb_eq Hlt%Z.ltb_lt]%andb_true_iff _].
    destruct (Ht q _ _ _ Eq) as ([_ Hle] & _). apply (Hk level' (conj Hlt Hle) q); rewrite Eq; [cbn; by rewrite Hr|].
    by exists rd, ipa'.
  - apply andb_true_iff in E as [->%Z.eqb_eq _]. apply (Hd q); [rewrite Eq; cbn; by rewrite Hr|done].
Qed.

Lemma rtt_handled r R level :
  handles r R (cleared r R level) r Rtt (of_level level) (λ p,
    let* n := node p in
    if gr_level n =? level then
      let* (r, _) := val_host_rmi_rtt_destroy (gr_rd n) (gr_ipa n) (gr_level n) in
      if truthy r then ret false else undelegate_node p
    else ret true).
Proof.
  intros L h l1 p l2 n Hg Hpre EL En.
  destruct (good_entry _ _ _ _ _ _ _ _ _ n Hg EL ltac:(done) En) as (T & Hn & Hw & TR & Hm & HT).
  destruct (found_rtt _ _ _ _ _ _ Hm HT) as (Hs & Hr & _). cbn in Hs, Hr.
  pose proof (mi_parent _ _ _ Hm (gr_PA n)) as Hrd. rewrite Hs in Hrd. cbn in Hrd.
  eapply run_to_step; [exact Hn|].
  destruct (Z.eqb_spec (gr_level n) level) as [Hlv|Hne].
  2: { apply run_to_ret. right. split; [done|]. left. split; [done|]. rewrite Hs. by intros (? & ? & [= ]). }
  apply (via_status _ (λ st, if truthy st then ret false else undelegate_node p)).
  change (let* (r, _) := val_host_rmi_rtt_destroy (gr_rd n) (gr_ipa n) (gr_level n) in ret r)
    with (run_cmd (CRttDestroy (gr_rd n) (gr_ipa n) (gr_level n))).
  eapply run_to_mono; [eapply (drop_node _ (gr_PA n) r R r Rtt l1 p l2 n); try done|].
  - destruct (go_trees _ _ _ _ Hg) as (Ht & _ & _).
    split; [split; [done|by eexists]|]. split; [by eapply Ht|].
    eapply cleared_non_live; [done|by rewrite Hlv|done].
  - intros s' He. split; [by rewrite (He (gr_PA n)), decide_True|].
    destruct Hg as [_ _ _ _ <-]. rewrite Hr. by eapply (step_rtt_destroy _ s' _ L T).
  - intros ok h' [?|[? ?]]; [by left|right]. auto.
Qed.

(** No slot is in use. *)
Definition no_realms (R : list Z) : Prop := ∀ k x, (1 ≤ k)%nat → R !! k = Some x → x = NO_REALM.

Lemma no_realms_no_rd s R T q : mirrors s R T → no_realms R → s q ≠ IsRd.
Proof.
  intros Hm HR E. pose proof (mi_rd _ _ _ Hm q E) as H1.
  pose proof (HR _ _ H1 (realm_of_lookup R q H1)) as ->.
  assert (PAGE_SIZE | NO_REALM) as Hd by (apply (mi_align _ _ _ Hm); by rewrite E).
  apply Z.mod_divide in Hd; [|done]. by vm_compute in Hd.
Qed.

(** Without Realms a granule is Delegated or not. *)
Lemma no_realms_states s R T q :
  mirrors s R T → no_realms R → s q = Delegated ∨ s q = Undelegated.
Proof.
  intros Hm HR. pose proof (λ q, no_realms_no_rd s R T q Hm HR) as Hno.
  pose proof (mi_parent _ _ _ Hm q) as Hp.
  destruct (s q) eqn:E; cbn in Hp; auto; try (by apply Hno in Hp); [by apply Hno in E|].
  destruct Hp as [rd Hrec]. pose proof (mi_parent _ _ _ Hm rec) as Hp. rewrite Hrec in Hp. by apply Hno in Hp.
Qed.

(** Every granule of the Non-secure list is recorded as delegated. *)
Lemma ns_handled r R : no_realms R → handles r R (λ _, True) 0 Ns (λ _, True) undelegate_if_delegated.
Proof.
  intros HR L h l1 p l2 n Hg _ EL En.
  destruct (good_entry _ _ _ _ _ _ _ _ _ n Hg EL ltac:(done) En) as (T & Hn & Hw & TR & Hm & HT).
  pose proof (mi_at _ _ _ Hm (gr_PA n)) as Hpl. rewrite HT in Hpl.
  destruct (no_realms_states _ _ _ (gr_PA n) Hm HR) as [Hd|Hd]; rewrite Hd in Hpl; [|done].
  destruct Hpl as (m & [= <-] & _ & Hst). cbn in Hst.
  unfold undelegate_if_delegated. eapply run_to_step; [exact Hn|]. rewrite Hst, Z.eqb_refl.
  assert (p ∈ L 0%nat Ns) as Hin by (rewrite EL; set_solver).
  eapply run_to_mono; [exact (undelegate_spec r R p n h L Hg Hin En Hd)|].
  intros ok h' [?|(-> & L' & Hg' & Hs & Hno & Hl & HPA)]; [by left|right]. split; [done|]. right. exists L'.
  split; [done|]. split; [eapply (shifts_out (h_gs h) L L L' p); try done; by apply Hno|].
  split; [done|]. intros b m Hb. apply (HPA 0%nat Ns). rewrite EL. set_solver.
Qed.

(** * Walks *)

(** What holds of the states the rollback leaves is decided before. *)
Definition closed (X : rmm_gran → Prop) : Prop := ∀ st, X Delegated ∨ X Undelegated → X st.

Lemma closed_lessens X s s' q : closed X → lessens s s' → ¬ X (s q) → ¬ X (s' q).
Proof.
  intros HX Hl Hn Hx. destruct (Hl q) as [E|[E|E]]; rewrite E in Hx; [done|..]; apply Hn, HX; auto.
Qed.

(** A property that the rest of the rollback keeps. *)
Definition stable (P : (Z → rmm_gran) → Prop) : Prop := ∀ s s', lessens s s' → P s → P s'.

Lemma walk_spec r R Pre i f X body :
  stable Pre → closed X → handles r R Pre i f X body → ∀ l2 l1 L h fuel,
  good r R L h → Pre (gran (h_world h)) → L i f = l1 ++ l2 → (length l2 < fuel)%nat →
  run_to (walk fuel (lhd l2) body) h (λ ok h',
    ok = false ∧ refused h' ∨
    ok = true ∧ lessens (gran (h_world h)) (gran (h_world h')) ∧ keeps l1 h h' ∧
    ∃ L' l, good r R L' h' ∧ L' i f = l1 ++ l ∧
      ∀ a n, a ∈ l → nodes (h_gs h') !! a = Some n → ¬ X (gran (h_world h') (gr_PA n))).
Proof.
  intros HP HX Hb l2. induction l2 as [|p l2 IH]; intros l1 L h [|fuel] Hg Hpre EL Hf; cbn in Hf; try lia.
  - apply run_to_ret. right. split; [done|]. split; [done|]. split; [by intros b n _ E; exists n|].
    exists L, []. split; [done|]. split; [done|]. by intros a n []%not_elem_of_nil.
  - cbn [walk lhd]. destruct (wf_next _ _ _ _ _ _ _ (good_wf _ _ _ _ Hg) EL) as (Hp & n & En & Hnx).
    rewrite (proj2 (Z.eqb_neq p 0)) by done. eapply run_to_step; [by apply node_eq|].
    eapply run_to_bind; [by apply (Hb L h l1 p l2 n)|].
    intros ok h1 [[-> Href]|(-> & Hl)]; [apply run_to_ret; by left|]. rewrite Hnx.
    destruct Hl as [[-> HnX]|(L1 & Hg1 & E1 & Hl1 & Hk1)].
    + eapply run_to_mono; [eapply (IH (l1 ++ [p])); [exact Hg|exact Hpre|by rewrite <- app_assoc|lia]|].
      intros ok h' [?|(-> & Hl & Hk & L' & l & Hg' & E' & Hn')]; [by left|right].
      split; [done|]. split; [done|]. split; [intros b m Hm; apply Hk; set_solver|].
      exists L', (p :: l). split; [done|]. split; [by rewrite E', <- app_assoc|].
      intros a m [->|Ha]%elem_of_cons; [|by apply Hn']. intros Em.
      destruct (Hk p n ltac:(set_solver) En) as (m' & Em' & Hpa). rewrite Em' in Em. injection Em as <-.
      rewrite Hpa. by eapply closed_lessens.
    + eapply run_to_mono; [eapply (IH l1 L1); [done|by eapply HP|done|lia]|].
      intros ok h' [?|(-> & Hl & Hk & Hrest)]; [by left|right].
      split; [done|]. split; [by etrans|]. split; [|done].
      intros b m Hm Eb. destruct (Hk1 b m ltac:(set_solver) Eb) as (m1 & Eb1 & H1).
      destruct (Hk b m1 Hm Eb1) as (m2 & Eb2 & H2). exists m2. by rewrite H2.
Qed.

(** The outcome of a walk, in the states of the monitor. *)
Lemma walk_list_spec r R Pre i f X body h L :
  stable Pre → closed X → handles r R Pre i f X body → (i < VAL_HOST_MAX_REALMS)%nat → good r R L h →
  Pre (gran (h_world h)) →
  run_to (walk_list i f body) h (λ ok h',
    ok = false ∧ refused h' ∨
    ok = true ∧ lessens (gran (h_world h)) (gran (h_world h')) ∧ (∃ L', good r R L' h') ∧
    ∀ q, loc R q (gran (h_world h') q) = Some (i, f) → ¬ X (gran (h_world h') q)).
Proof.
  intros HP HX Hb Hi Hg Hpre. pose proof (good_wf _ _ _ _ Hg) as Hw. unfold walk_list.
  assert (tracker (get_list i f) h = Ok (lhd (L i f)) h) as E.
  { unfold tracker, zoom. rewrite (wf_get_list _ _ i f Hw Hi). by destruct h. }
  eapply run_to_step; [exact E|]. eapply run_to_step; [reflexivity|].
  eapply run_to_mono.
  { eapply (walk_spec r R Pre i f X body HP HX Hb (L i f) [] L h); [done|done|done|]. by apply wf_fuel. }
  intros ok h' [?|(-> & Hl & _ & L' & l & Hg' & EL' & Hn)]; [by left|right].
  split; [done|]. split; [done|]. split; [by exists L'|]. intros q Hq.
  destruct Hg' as [(T & Hw' & TR & Hm) _ _ _ <-].
  rewrite (placed_loc _ _ _ _ (mi_at _ _ _ Hm q)) in Hq.
  destruct (T !! q) as [[[j e] m]|] eqn:HT; [|done]. injection Hq as -> ->.
  destruct (tr_out _ _ _ TR _ _ _ _ HT) as (_ & Hpa & a & n & Ha & En & <-). cbn in Hpa, EL'.
  rewrite <- Hpa. apply (Hn a n); [by rewrite <- EL'|done].
Qed.

(** A walk along an empty list. *)
Lemma walk_list_nil r R i f body h L :
  (i < VAL_HOST_MAX_REALMS)%nat → good r R L h → L i f = [] → walk_list i f body h = Ok true h.
Proof.
  intros Hi Hg EL. pose proof (good_wf _ _ _ _ Hg) as Hw. unfold walk_list.
  assert (tracker (get_list i f) h = Ok 0 h) as E.
  { unfold tracker, zoom. rewrite (wf_get_list _ _ i f Hw Hi), EL. by destruct h. }
  rewrite (bind_step _ _ _ _ _ E). unfold bind, gets.
  assert (0 < walk_fuel (h_gs h))%nat as Hf by (unfold walk_fuel; lia).
  by destruct (walk_fuel (h_gs h)); [lia|].
Qed.

(** * A Realm *)

Lemma stable_none_of R i f X : f ≠ Ns → stable (none_of R i f X).
Proof.
  intros Hf s s' Hl Hn q Hq. destruct (Hl q) as [E|[E|E]]; rewrite E in *; [by apply Hn| |done].
  exfalso. cbn in Hq. congruence.
Qed.

(** A part of the rollback of Realm [r] that starts where [Pre] holds and after
    which [P] does. *)
Definition achieves (r : nat) (R : list Z) (Pre : (Z → rmm_gran) → Prop) (m : M (host W) bool)
    (P : (Z → rmm_gran) → Prop) : Prop :=
  ∀ L h, good r R L h → Pre (gran (h_world h)) → run_to m h (λ ok h',
    ok = false ∧ refused h' ∨
    ok = true ∧ lessens (gran (h_world h)) (gran (h_world h')) ∧ (∃ L', good r R L' h') ∧
    P (gran (h_world h'))).

Lemma achieves_weaken r R (Pre Pre' : (Z → rmm_gran) → Prop) m P :
  (∀ s, Pre' s → Pre s) → achieves r R Pre m P → achieves r R Pre' m P.
Proof. intros HP Hm L h Hg Hpre. by apply (Hm L h); [|apply HP]. Qed.

(** Parts in order: each starts with what the parts before it achieved. *)
Lemma achieves_nil r R Pre : achieves r R Pre (all_steps []) Pre.
Proof.
  intros L h Hg Hpre. apply run_to_ret. right. split; [done|]. split; [done|]. by split; [exists L|].
Qed.

Lemma achieves_cons r R (Pre : (Z → rmm_gran) → Prop) m P ms Q :
  stable Pre → achieves r R Pre m P → achieves r R (λ s, Pre s ∧ P s) (all_steps ms) Q →
  achieves r R Pre (all_steps (m :: ms)) Q.
Proof.
  intros HP Hm Hms L h Hg Hpre. cbn [all_steps]. eapply run_to_bind; [by apply (Hm L h)|].
  intros ok h1 [[-> Href]|(-> & Hl1 & [L1 Hg1] & HP1)]; [apply run_to_ret; by left|].
  eapply run_to_mono; [by apply (Hms L1 h1); [|split; [eapply HP|]]|].
  intros ok h' [?|(-> & Hl & Hg' & HQ)]; [by left|right]. split; [done|]. by split; [etrans|].
Qed.

Lemma stable_and (P Q : (Z → rmm_gran) → Prop) : stable P → stable Q → stable (λ s, P s ∧ Q s).
Proof. intros HP HQ s s' Hl [? ?]. split; [by eapply HP|by eapply HQ]. Qed.

(** [in_current] reads the Realm that [good] fixes. *)
Lemma in_current_eq r R L h (step : nat → M (host W) bool) : good r R L h → in_current step h = step r h.
Proof. intros [_ _ _ <- _]. done. Qed.

Lemma good_range r R L h : good r R L h → (r < VAL_HOST_MAX_REALMS)%nat.
Proof. intros Hg. pose proof (wf_realm _ _ (good_wf _ _ _ _ Hg)) as Hr. by rewrite (go_realm _ _ _ _ Hg) in Hr. Qed.

Lemma walk_achieves r R Pre f X body :
  stable Pre → closed X → handles r R Pre r f X body →
  achieves r R Pre (in_current (λ i, walk_list i f body)) (none_of R r f X).
Proof.
  intros HP HX Hb L h Hg Hpre. unfold run_to. rewrite (in_current_eq r R L h) by done.
  by eapply (walk_list_spec r R Pre r f X); [..|by eapply good_range| |].
Qed.

(** A walk along a list that no command in use fills. *)
Lemma unscoped_achieves r R Pre f body :
  ¬ scoped f → achieves r R Pre (in_current (λ i, walk_list i f body)) (λ _, True).
Proof.
  intros Hf L h Hg _. unfold run_to. rewrite (in_current_eq r R L h) by done.
  rewrite (walk_list_nil r R r f body h L); [|by eapply good_range|done|by apply (go_plain _ _ _ _ Hg)].
  right. split; [done|]. split; [done|]. by split; [exists L|].
Qed.

(** The status of a part as a truth value. *)
Lemma achieves_status r R Pre (step : nat → M (host W) bool) P :
  achieves r R Pre (in_current step) P →
  achieves r R Pre (in_current (λ i,
    let* st := (let* ok := step i in ret (if ok then VAL_SUCCESS else VAL_ERROR)) in
    ret (negb (truthy st)))) P.
Proof.
  intros Hs L h Hg Hpre. specialize (Hs L h Hg Hpre). unfold run_to in *.
  rewrite (in_current_eq r R L h) in * by done. unfold bind, ret.
  destruct (step r h) as [[] h'|f|]; done.
Qed.

Lemma stable_cleared r R level : stable (cleared r R level).
Proof.
  intros s s' Hl [Hd Hk]. split; [by eapply stable_none_of|]. intros k Hr. eapply stable_none_of; [done|done|by apply Hk].
Qed.

Lemma destroy_level_achieves r R level :
  achieves r R (cleared r R level) (destroy_level level) (none_of R r Rtt (of_level level)).
Proof.
  apply achieves_status, walk_achieves; [apply stable_cleared| |apply rtt_handled].
  intros st [(? & ? & ?)|(? & ? & ?)]; done.
Qed.

(** RMI_FEATURES is a query: it changes no granule. *)
Lemma features_query w m i q : gran (smc w m (mk_smc RMI_FEATURES i 0 0 0 0 0 0 0 0 0)).1.1 q = gran w q.
Proof. pose proof (query_law w m i) as Hq. destruct (smc _ _ _) as [[w' m'] x]. apply Hq. Qed.

Lemma good_query r R L h i :
  good r R L h → good r R L (after_smc (mk_smc RMI_FEATURES i 0 0 0 0 0 0 0 0 0) h).
Proof.
  intros [(T & Hw & TR & Hm) Hpl Htr Hr HR].
  split; rewrite ?after_smc_gs; try done.
  - exists T. rewrite after_smc_gs, after_smc_world.
    split; [done|]. split; [done|]. eapply mirrors_ext; [|exact Hm]. intros q. apply features_query.
  - rewrite after_smc_world. pose proof (query_law (h_world h) (h_mem h) i) as Hq.
    destruct (smc _ _ _) as [[w' m'] x]. destruct Hq as (Hq & Hst & Hp), Htr as (Ht & Hlf & Hpr). cbn.
    split; [|split; [|by apply Hp]].
    + intros q rd ipa level. rewrite Hq. intros E. destruct (Ht q rd ipa level E) as (? & ? & Hrch).
      split; [by rewrite Hst|]. split; [done|]. intros k. rewrite Hst. unfold table_at. setoid_rewrite Hq. apply Hrch.
    + intros q rd ipa. rewrite Hq. intros E k. rewrite Hst. unfold table_at. setoid_rewrite Hq. by apply (Hlf q).
Qed.

(** The auxiliary trees are empty, and asking whether there are any is a query. *)
Lemma aux_levels_achieve r R Pre : achieves r R Pre destroy_aux_levels (λ _, True).
Proof.
  intros L h Hg _. unfold destroy_aux_levels. destruct RMM_V_1_1.
  2: { apply run_to_ret. right. split; [done|]. split; [done|]. by split; [exists L|]. }
  unfold val_host_rmm_supports_planes, val_host_rmi_features.
  unfold run_to. rewrite !bind_assoc, (bind_step _ _ _ _ _ (val_smc_call_eq _ _ _ _ _ _ _ _ _ _ _ _)).
  set (h1 := after_smc _ h). pose proof (good_query r R L h 0 Hg) as Hg1. fold h1 in Hg1.
  assert (lessens (gran (h_world h)) (gran (h_world h1))) as Hl1.
  { intros q. left. unfold h1. by rewrite after_smc_world, features_query. }
  cbn -[for_upto VAL_EXTRACT_BITS]. destruct (0 <? _); [|right; eauto].
  rewrite (bind_step _ _ _ None h1); [right; by eauto|].
  apply for_from_none. intros j _.
  enough (∀ level, destroy_aux_level level (j + 1) h1 = Ok true h1) as Hd.
  { rewrite (bind_step _ _ _ true h1); [done|]. cbn [all_steps]. by rewrite !(bind_step _ _ _ _ _ (Hd _)). }
  intros level. unfold destroy_aux_level. rewrite (in_current_eq r R L h1) by done.
  unfold val_host_destroy_aux_rtt_levels. rewrite bind_assoc.
  rewrite (bind_step _ _ _ true h1); [done|]. apply (walk_list_nil r R r RttAux _ h1 L); [by eapply good_range|done|].
  apply (go_plain _ _ _ _ Hg1). by intros [? _].
Qed.

(** After the parts of [val_host_realm_destroy] the Realm owns nothing. *)
Lemma nothing_owned start s R T r rd :
  mirrors s R T → tree start s → 0 ≤ start rd → realm_of R rd = r →
  none_of R r Rec (λ _, True) s → cleared r R 0 s → ∀ q, owner (s q) ≠ Some rd.
Proof.
  intros Hm Ht H0 Hr Hrec [Hdat Htab] q Ho.
  destruct (s q) as [| | | |rd' ipa level|rd'| |rd' ipa] eqn:E; cbn in Ho; try done; injection Ho as ->.
  - destruct (Ht q rd ipa level E) as [Hl _]. apply (Htab level ltac:(lia) q); rewrite E; [cbn; by rewrite Hr|].
    by exists rd, ipa.
  - apply (Hrec q); [|done]. rewrite E. cbn. by rewrite Hr.
  - apply (Hdat q); [|done]. rewrite E. cbn. by rewrite Hr.
Qed.

(** The slot of a Realm becomes the current one. *)
Lemma enter_realm r0 R L h r rd :
  good r0 R L h → R !! r = Some rd → realm_of R rd = r →
  run_to (tracker (let* i := val_host_get_curr_realm rd in modify (set_current_realm i))) h (λ _ h',
    good r R L h' ∧ h_world h' = h_world h).
Proof.
  intros Hg ER Hslot. unfold run_to, tracker, zoom.
  rewrite (bind_step _ _ _ _ _ (get_curr_realm_spec _ _ rd (good_wf _ _ _ _ Hg))).
  rewrite (go_rds _ _ _ _ Hg), Hslot. split; [|done].
  destruct Hg as [(T & Hw & TR & Hm) Hpl Htr _ <-]. split; try done. exists T.
  split; [|split; [by destruct TR; split|done]]. apply wf_set_current_realm; [done|].
  apply lookup_lt_Some in ER. unfold rds in ER. by rewrite length_fmap, (wf_slots _ _ Hw) in ER.
Qed.

(** A slot holds its RD. *)
Lemma good_slot r R L h k rd :
  good r R L h → R !! k = Some rd → ∃ t, mt_rd t = rd ∧ tracker (slot k) h = Ok t h.
Proof.
  intros [(T & Hw & _) _ _ _ <-] ER. unfold rds in ER. rewrite list_lookup_fmap in ER.
  destruct (mem_track (h_gs h) !! k) as [t|] eqn:Et; [|done]. injection ER as <-. exists t.
  split; [done|]. unfold tracker, zoom, slot. rewrite Et. by destruct h.
Qed.

(** What the parts of [val_host_realm_destroy] achieve, in their order. *)
Definition emptied (r : nat) (R : list Z) (s : Z → rmm_gran) : Prop :=
  none_of R r Rec (λ _, True) s ∧ cleared r R 0 s.

Lemma cleared_next r R level s :
  cleared r R level s → none_of R r Rtt (of_level level) s → cleared r R (level - 1) s.
Proof.
  intros [Hd Hk] Hl. split; [done|]. intros k Hr. destruct (decide (k = level)) as [->|]; [done|]. apply Hk. lia.
Qed.

Lemma parts_achieve r R :
  achieves r R (λ _, True) (all_steps [
    in_current (λ i, walk_list i Rec destroy_rec_node);
    in_current (λ i, walk_list i Data (destroy_data_node 1));
    in_current (λ i, walk_list i Data (destroy_data_node 0));
    in_current (λ i, walk_list i ValidNs unmap_unprotected_node);
    destroy_level 3; destroy_level 2; destroy_level 1;
    destroy_aux_levels]) (emptied r R).
Proof.
  set (recs := none_of R r Rec (λ _, True)).
  assert (stable recs) as Hrecs by (by apply stable_none_of).
  assert (∀ level, stable (λ s, recs s ∧ cleared r R level s)) as Hst
    by (intros level; by apply stable_and, stable_cleared).
  assert (∀ Pre Pre' ms, (∀ s, Pre' s → Pre s) → achieves r R Pre (all_steps ms) (emptied r R) →
    achieves r R Pre' (all_steps ms) (emptied r R)) as Hw by (intros *; apply achieves_weaken).
  assert (∀ level ms, achieves r R (λ s, recs s ∧ cleared r R (level - 1) s) (all_steps ms) (emptied r R) →
    achieves r R (λ s, recs s ∧ cleared r R level s) (all_steps (destroy_level level :: ms)) (emptied r R)) as Hlev.
  { intros level ms Hms. eapply achieves_cons; [apply Hst| |].
    - eapply achieves_weaken; [|apply destroy_level_achieves]. by intros s [_ ?].
    - eapply Hw; [|exact Hms]. intros s [[? ?] ?]. split; [done|by apply cleared_next]. }
  assert (∀ (Pre : (Z → rmm_gran) → Prop) f X body, closed X → handles r R (λ _, True) r f X body →
    achieves r R Pre (in_current (λ i, walk_list i f body)) (none_of R r f X)) as Hwalk.
  { intros Pre f X body HX Hh. eapply (achieves_weaken _ _ (λ _, True)); [done|]. by apply walk_achieves. }
  eapply achieves_cons; [done|eapply (Hwalk _ _ (λ _, True)); [by intros ? []|apply rec_handled]|].
  eapply (Hw recs); [by intros s [_ ?]|].
  eapply achieves_cons; [done|eapply (Hwalk _ _ (λ _, False)); [by intros ? []|apply data_skipped]|].
  eapply (Hw recs); [by intros s [? _]|].
  eapply achieves_cons; [done|eapply (Hwalk _ _ (λ _, True)); [by intros ? []|apply data_handled]|].
  eapply (Hw (λ s, recs s ∧ cleared r R 3 s)).
  { intros s [? ?]. split; [done|]. split; [done|lia]. }
  eapply achieves_cons; [apply Hst|by apply unscoped_achieves; intros [_ ?]|].
  eapply (Hw (λ s, recs s ∧ cleared r R 3 s)); [by intros s [? _]|].
  apply Hlev, Hlev, Hlev.
  eapply achieves_cons; [apply Hst|apply aux_levels_achieve|].
  eapply achieves_weaken; [|apply achieves_nil]. by intros s [? _].
Qed.

(** Then REALM_DESTROY is in order. *)
Lemma parts_allow r R L h rd :
  good r R L h → (1 ≤ r)%nat → R !! r = Some rd → rd ≠ NO_REALM → emptied r R (gran (h_world h)) →
  documented (start_level (h_world h)) (CRealmDestroy rd) (gran (h_world h)).
Proof.
  intros Hg Hr ER Hrd [Hrec Hcl]. destruct (go_trees _ _ _ _ Hg) as (Ht & _ & _).
  destruct Hg as [(T & _ & _ & Hm) _ _ _ HR]. rewrite HR in Hm.
  destruct (mi_live _ _ _ Hm r rd Hr ER Hrd) as [Hlive Hslot]. split; [|done]. split; [done|].
  by eapply nothing_owned; [..|apply start_range| | |].
Qed.

(** The outcome of the rollback of one Realm. *)
Lemma realm_destroy_spec r0 R L h r rd :
  good r0 R L h → (1 ≤ r)%nat → R !! r = Some rd → rd ≠ NO_REALM →
  run_to (val_host_realm_destroy rd) h (λ st h',
    truthy st = true ∧ refused h' ∨
    truthy st = false ∧ lessens (gran (h_world h)) (gran (h_world h')) ∧
    ∃ L', good r (<[r := NO_REALM]> R) L' h').
Proof.
  intros Hg Hr ER Hrd. unfold val_host_realm_destroy.
  assert (realm_of R rd = r) as Hslot.
  { destruct Hg as [(T & _ & _ & Hm) _ _ _ <-]. by apply (mi_live _ _ _ Hm r rd). }
  eapply run_to_bind; [by eapply enter_realm|]. intros ? h0 [Hg0 Hw0]. rewrite <- Hw0.
  eapply run_to_bind; [by eapply parts_achieve|].
  intros ok h1 [[-> Href]|(-> & Hl1 & [L1 Hg1] & HP)]; [by left|]. cbn [negb].
  eapply run_to_step; [reflexivity|]. rewrite (go_realm _ _ _ _ Hg1).
  destruct (good_slot r R L1 h1 r rd Hg1 ER) as (t & Hmt & Et). eapply run_to_step; [exact Et|]. rewrite Hmt.
  change (val_host_rmi_realm_destroy rd) with (run_cmd (CRealmDestroy rd)).
  pose proof (parts_allow r R L1 h1 rd Hg1 Hr ER Hrd HP) as Hall.
  eapply run_to_bind.
  { eapply (cmd_moves (CRealmDestroy rd) rd r (<[r := NO_REALM]> R) r R h1 L1 Hg1 eq_refl Hall).
    intros s' He. destruct Hg1 as [(T & Hw & TR & Hm) _ _ _ <-]. rewrite <- Hslot.
    eapply (step_realm_destroy _ s' _ L1 T); try done. apply Hall. }
  intros st h' [[-> Href]|(-> & He & L' & Hg' & _)]; apply run_to_ret; [by left|right].
  split; [done|]. split; [|by exists L']. etrans; [exact Hl1|]. by eapply (effect_lessens (CRealmDestroy rd)).
Qed.

(** * The whole rollback *)

(** Where a test may start: the tracker agrees with the monitor, nothing is mapped
    unprotected or by an auxiliary table, and the tables are in their places. *)
Definition ready h : Prop :=
  ∃ L, synced_at L h ∧ plain L ∧ tree (start_level (h_world h)) (gran (h_world h)) ∧ private (h_world h).

(** No page has lost its leaf table to a fold. *)
Definition unfolded h : Prop := leafed (start_level (h_world h)) (gran (h_world h)).

(** After it: every granule Undelegated, every slot free, every list empty. *)
Definition rolled_back h : Prop :=
  (∀ q, gran (h_world h) q = Undelegated) ∧ no_realms (rds (h_gs h)) ∧
  ∀ i f, ptr (h_gs h) i f = 0.

Lemma no_realms_insert (R : list Z) k :
  (∀ j x, (1 ≤ j < k)%nat → R !! j = Some x → x = NO_REALM) →
  ∀ j x, (1 ≤ j < S k)%nat → <[k := NO_REALM]> R !! j = Some x → x = NO_REALM.
Proof.
  intros HR j x Hj E. destruct (decide (j = k)) as [->|Hne].
  - pose proof (lookup_lt_Some _ _ _ E) as Hlt. rewrite length_insert in Hlt.
    rewrite list_lookup_insert_eq in E by done. congruence.
  - rewrite list_lookup_insert_ne in E by done. apply (HR j x); [lia|done].
Qed.

(** The loop over the Realms, from slot [k] on. *)
Lemma realms_loop_spec (body : Z → M (host W) (option unit)) :
  body = (λ i, let* t := tracker (slot (Z.to_nat i)) in
    if mt_rd t =? NO_REALM then ret None
    else let* r := val_host_realm_destroy (mt_rd t) in ret (if truthy r then Some tt else None)) →
  ∀ n k r R L h, (k + n = VAL_HOST_MAX_REALMS)%nat → (1 ≤ k)%nat → good r R L h →
  (∀ j x, (1 ≤ j < k)%nat → R !! j = Some x → x = NO_REALM) →
  run_to (for_from n (Z.of_nat k) body) h (λ o h',
    o = Some tt ∧ refused h' ∨
    o = None ∧ ∃ r' R' L', good r' R' L' h' ∧ no_realms R').
Proof.
  intros -> n. induction n as [|n IH]; intros k r R L h Hk H1 Hg Hdone; cbn [for_from].
  - apply run_to_ret. right. split; [done|]. exists r, R, L. split; [done|]. intros j x Hj E.
    apply (Hdone j x); [|done]. split; [done|]. apply lookup_lt_Some in E.
    rewrite <- (go_rds _ _ _ _ Hg) in E. unfold rds in E.
    rewrite length_fmap, (wf_slots _ _ (good_wf _ _ _ _ Hg)) in E. lia.
  - assert (k < length R)%nat as Hlen.
    { rewrite <- (go_rds _ _ _ _ Hg). unfold rds. rewrite length_fmap, (wf_slots _ _ (good_wf _ _ _ _ Hg)). lia. }
    destruct (lookup_lt_is_Some_2 _ _ Hlen) as [rd ER].
    destruct (good_slot r R L h k rd Hg ER) as (t & Hmt & Et).
    replace (Z.of_nat k + 1) with (Z.of_nat (S k)) by lia. rewrite Nat2Z.id.
    unfold run_to. rewrite bind_assoc, (bind_step _ _ _ _ _ Et), Hmt.
    destruct (Z.eqb_spec rd NO_REALM) as [->|Hrd].
    { apply (IH (S k) r R L h); [lia|lia|done|]. intros j x Hj E.
      destruct (decide (j = k)) as [->|Hne]; [congruence|]. apply (Hdone j x); [lia|done]. }
    rewrite bind_assoc. eapply run_to_bind; [by apply (realm_destroy_spec r R L h k rd)|].
    intros st h1 [[-> Href]|(-> & Hl1 & L1 & Hg1)]; [by left|].
    apply (IH (S k) k (<[k := NO_REALM]> R) L1 h1); [lia|lia|done|].
    by apply no_realms_insert.
Qed.

(** The walk over the Non-secure list leaves nothing. *)
Lemma good_empty r R L h :
  good r R L h → no_realms R → none_of R 0 Ns (λ _, True) (gran (h_world h)) →
  (∀ q, gran (h_world h) q = Undelegated) ∧ ∀ i f, L i f = [].
Proof.
  intros [(T & Hw & TR & Hm) Hpl _ _ <-] HR Hn.
  assert (∀ q, gran (h_world h) q = Undelegated) as Hu.
  { intros q. destruct (no_realms_states _ _ _ q Hm HR) as [Hd|]; [|done].
    exfalso. apply (Hn q); [by rewrite Hd|done]. }
  split; [done|]. intros i f. destruct (decide (f = RttAux)) as [->|H1]; [by apply Hpl; intros [? _]|].
  destruct (decide (f = ValidNs)) as [->|H2]; [by apply Hpl; intros [_ ?]|].
  destruct (L i f) as [|a l] eqn:EL; [done|exfalso].
  assert (a ∈ L i f) as Ha by (rewrite EL; by left).
  destruct (wf_node _ _ _ _ _ Hw Ha) as [_ [n En]].
  pose proof (tr_in _ _ _ TR i f a n (conj H1 H2) Ha En) as HT.
  pose proof (mi_at _ _ _ Hm (gr_PA n)) as Hp. rewrite Hu, HT in Hp. done.
Qed.

Lemma postamble_spec h :
  ready h → unfolded h →
  run_to val_host_postamble h (λ st h',
    st = VAL_ERROR ∧ refused h' ∨ st = VAL_SUCCESS ∧ rolled_back h').
Proof.
  intros (L & Hs & Hpl & Ht & Hpr) Hlf. unfold val_host_postamble, postamble_realms.
  eapply run_to_bind.
  { eapply (realms_loop_spec _ eq_refl (VAL_HOST_MAX_REALMS - 1) 1 (current_realm (h_gs h)) (rds (h_gs h)) L h);
      [done|lia|by split|lia]. }
  intros o h1 [[-> Href]|(-> & r & R & L1 & Hg1 & HR)]; [by left|].
  eapply run_to_bind.
  { eapply (walk_list_spec r R (λ _, True) 0 Ns (λ _, True));
      [done|by intros ? []|by apply ns_handled|apply zero_slot|exact Hg1|done]. }
  intros ok h2 [[-> Href]|(-> & _ & [L2 Hg2] & Hn)]; [by left|]. cbn [negb].
  destruct (good_empty r R L2 h2 Hg2 HR Hn) as [Hu HL].
  eapply run_to_step; [exact (walk_list_nil r R 0 Ns _ h2 L2 zero_slot Hg2 (HL _ _))|].
  right. split; [done|]. split; [done|]. split; [by rewrite (go_rds _ _ _ _ Hg2)|].
  intros i f. destruct (decide (i < VAL_HOST_MAX_REALMS)%nat) as [Hi|Hi].
  - by rewrite (wf_ptr _ _ i f (good_wf _ _ _ _ Hg2) Hi), HL.
  - unfold ptr. rewrite lookup_ge_None_2; [done|]. rewrite (wf_slots _ _ (good_wf _ _ _ _ Hg2)). lia.
Qed.

(** * After any test *)

Lemma cmd_ready c h :
  in_scope c = true → (takes c ≤ free (rds (h_gs h)))%nat → ready h →
  match run_cmd c h with
  | Ok _ h' => ready h' ∧ (free (rds (h_gs h)) ≤ free (rds (h_gs h')) + takes c)%nat
  | Fault f => f = NullDeref ∧ (∃ a, c = CGranuleDelegate a) ∧ ¬ heap_room (h_gs h)
  | NoFuel => False
  end.
Proof.
  intros Hc Hf (L & (T & Hw & TR & Hm) & Hpl & Ht & Hpr).
  pose proof (cmd_step_at c h L T Hc Hf Hw TR Hm) as Hs. pose proof (doc_law (h_world h) (h_mem h) c Hc) as Hd.
  destruct (run_cmd c h) as [st h'|f|]; [|done|done].
  destruct Hs as ((L' & T' & Hw' & TR' & Hm' & Hun) & Hfree & HW & Hg). split; [|done]. exists L'.
  split; [by exists T'|]. split; [intros j e He; rewrite Hun; [by apply Hpl|done]|].
  destruct (smc (h_world h) (h_mem h) (cmd_args c)) as [[w m] x]. cbn in HW, Hg. rewrite <- HW in Hd.
  destruct Hd as (Hd & Hst & Hp). split; [|by apply Hp].
  pose proof (λ q rd, mi_owner _ _ _ q rd Hm) as Ho. pose proof (λ q rd, mi_owner _ _ _ q rd Hm') as Ho'.
  destruct Hg as [Hg|[Hx Hg]]; [|by eapply tree_step; [done|by apply Hd|..]].
  intros q rd ipa level E. rewrite Hg in E. assert (gran (h_world h) rd = IsRd) as Hrd by (apply (Ho q); by rewrite E).
  destruct (Ht q rd ipa level E) as (? & ? & Hr).
  assert (start_level (h_world h') rd = start_level (h_world h) rd) as Hs by (apply Hst; [done|by rewrite Hg]).
  split; [by rewrite Hs|]. split; [done|]. intros k. rewrite Hs. unfold table_at. setoid_rewrite Hg. apply Hr.
Qed.

(** C2. Every test can be rolled back.  Let the monitor keep to the documented
    conditions of its commands: on the states of granules and, for those on
    tables, on where a walk ends and on what the table holds.  Take any sequence
    of commands that move granules, at the end of which every page of data has its
    leaf table (a fold of assigned pages has been undone).  Then
    [val_host_postamble] ends, without following a bad pointer, in one of two
    ways.  Either it returns VAL_SUCCESS with every granule Undelegated, every
    slot of a Realm free and every list of the tracker empty, or it returns
    VAL_ERROR right after a command that met all its documented conditions and
    that the monitor refused all the same.  So every page is destroyed while a
    walk still gets to it, every table when nothing is below it, and every Realm
    when nothing of it is left: no command of the rollback is out of place. *)
Theorem rollback_complete cs h :
  Forall (λ c, in_scope c = true) cs → (total_takes cs ≤ free (rds (h_gs h)))%nat → ready h →
  match run_cmds cs h with
  | Ok _ h1 =>
      unfolded h1 →
      run_to val_host_postamble h1 (λ st h',
        st = VAL_ERROR ∧ refused h' ∨ st = VAL_SUCCESS ∧ rolled_back h')
  | Fault f =>
      f = NullDeref ∧ ∃ cs1 a cs2 rs h1, cs = cs1 ++ CGranuleDelegate a :: cs2 ∧
        run_cmds cs1 h = Ok rs h1 ∧ ready h1 ∧ ¬ heap_room (h_gs h1)
  | NoFuel => False
  end.
Proof.
  intros Hcs Hf Hr. pose proof (run_cmds_keep _ ready cmd_ready cs h Hcs Hf Hr) as Hend.
  unfold cmds_end in Hend. destruct (run_cmds cs h) as [rs h1|f|]; [|done|done].
  destruct Hend as [_ Hr1]. by apply postamble_spec.
Qed.

(** C3. Against a documented monitor that accepts the commands that destroy and
    undelegate whenever they meet all their documented conditions, in a world
    without unprotected or auxiliary mappings and with no REC running, the
    rollback succeeds: [val_host_postamble] returns VAL_SUCCESS and leaves every
    granule Undelegated, every slot free and every list empty. *)
Theorem rollback_succeeds h :
  (∀ w m c, shrinks c = true → private w → documented (start_level w) c (gran w) →
     truthy (x0 (smc w m (cmd_args c)).2) = false) →
  ready h → unfolded h →
  run_to val_host_postamble h (λ st h', st = VAL_SUCCESS ∧ rolled_back h').
Proof.
  intros Hacc Hr Hu. eapply run_to_mono; [by apply postamble_spec|].
  intros st h' [[_ (c & h1 & Hc & Hp & Hd & Ht & _)]|?]; [|done]. exfalso.
  pose proof (Hacc (h_world h1) (h_mem h1) c Hc Hp Hd) as Ht'. unfold reply in Ht. congruence.
Qed.
End Rollback.

(** * The ledger *)

Lemma ready_start : ready start_host.
Proof.
  exists (λ _ _, []). split; [exists ∅; apply start_mirrors, heap1_wf|]. by split.
Qed.

(** Two Realms, left as they are at the end of a test. *)
Definition script2 : list rmi_cmd :=
  map CGranuleDelegate [0x1000; 0x2000; 0x3000; 0x4000; 0x5000; 0x6000; 0x7000; 0x8000; 0x9000] ++
  [CRealmCreate 0x1000 0; CRttCreate 0x1000 0x2000 0 1; CRttCreate 0x1000 0x8000 0 2;
   CRttCreate 0x1000 0x9000 0x200000 3; CRecCreate 0x1000 0x3000 0; CDataCreate 0x1000 0x4000 0x208000 0 0;
   CRealmCreate 0x5000 0; CRttCreate 0x5000 0x6000 0 1].

Lemma script2_fine : Forall (λ c, in_scope c = true) script2.
Proof. by repeat constructor. Qed.

(** The state after the script. *)
Definition script2_host : host (gmap Z rmm_gran) :=
  match run_cmds script2 start_host with Ok _ h => h | _ => start_host end.

Lemma script2_ends : ∃ rs, run_cmds script2 start_host = Ok rs script2_host.
Proof.
  unfold script2_host. destruct (run_cmds script2 start_host) as [rs h1|f|] eqn:E; [by exists rs|..].
  - enough (match run_cmds script2 start_host with Ok _ _ => true | _ => false end = true) as Ht
      by (by rewrite E in Ht). by vm_compute.
  - enough (match run_cmds script2 start_host with Ok _ _ => true | _ => false end = true) as Ht
      by (by rewrite E in Ht). by vm_compute.
Qed.

Lemma script2_ready : ready script2_host.
Proof.
  destruct script2_ends as [rs E].
  pose proof (run_cmds_keep _ ready cmd_ready script2 start_host script2_fine ltac:(by vm_compute; lia) ready_start)
    as Hend.
  unfold cmds_end in Hend. rewrite E in Hend. apply Hend.
Qed.

(** The one page of data has its leaf table. *)
Definition pages_leafed (w : gmap Z rmm_gran) : bool :=
  forallb (λ '(_, st), match st with IsData rd ipa => has_tables w rd 3 ipa | _ => true end) (map_to_list w).

Lemma pages_leafed_spec w : pages_leafed w = true → leafed (λ _, 0) (state_of w).
Proof.
  unfold pages_leafed. rewrite forallb_forall. intros Hf q rd ipa E.
  apply has_tables_spec; [done|]. unfold state_of in E. destruct (w !! q) as [st|] eqn:Eq; cbn in E; [|done]. subst st.
  apply (Hf (q, IsData rd ipa)). by apply list_elem_of_In, elem_of_map_to_list.
Qed.

Lemma script2_unfolded : unfolded script2_host.
Proof. apply pages_leafed_spec. by vm_compute. Qed.

Lemma rollback_complete_witness :
  state_of (h_world script2_host) 0x4000 = IsData 0x1000 0x208000 ∧
  run_to val_host_postamble script2_host (λ st h',
    st = VAL_ERROR ∧ refused h' ∨ st = VAL_SUCCESS ∧ rolled_back h').
Proof.
  split; [by vm_compute|]. destruct script2_ends as [rs E].
  pose proof (rollback_complete script2 start_host script2_fine ltac:(by vm_compute; lia) ready_start) as Hr.
  rewrite E in Hr. exact (Hr script2_unfolded).
Defined.

Lemma rollback_succeeds_witness :
  state_of (h_world script2_host) 0x6000 = IsRtt 0x5000 0 1 ∧
  run_to val_host_postamble script2_host (λ st h', st = VAL_SUCCESS ∧ rolled_back h').
Proof.
  split; [by vm_compute|].
  exact (rollback_succeeds script2_host (λ w m c Hc _ Hd, ledger_accepts w m c Hc Hd) script2_ready script2_unfolded).
Defined.
