(* ===== verification/HostFacts.v ===== *)
(** Steps of the host code in the form the later proofs use: what each basic
    operation does to the tracker's invariant, the Realm structure and the list
    of commands issued, for every RMM. *)
From S2P Require Import Prelude Defs Alloc Granule GranuleInv GranuleSpec Host Rmi RmiFacts.

Section HostFacts.
Context {W : Type} `{RMM W}.
Implicit Types h : host W.

(** The commands issued so far. *)
Definition cmds h : list val_smc_param_ts := (h_log h).*1.

Definition ok_host h : Prop := ∃ L, wf (h_gs h) L.

(** [h'] follows [h] after the commands [cs], with the same Realm structure. *)
Record steps (h h' : host W) (cs : list val_smc_param_ts) : Prop := {
  st_ok : ok_host h';
  st_realm : h_realm h' = h_realm h;
  st_cmds : cmds h' = cmds h ++ cs
}.

Lemma steps_refl h : ok_host h → steps h h [].
Proof. split; [done|done|by rewrite app_nil_r]. Qed.

Lemma steps_trans h1 h2 h3 cs1 cs2 :
  steps h1 h2 cs1 → steps h2 h3 cs2 → steps h1 h3 (cs1 ++ cs2).
Proof.
  intros [] []. split; [done|congruence|]. rewrite st_cmds1, st_cmds0. by rewrite app_assoc.
Qed.

(** The fault of the tracker. *)
Definition null_only (f : fault) : Prop := f = NullDeref.

Definition plain_cmd (c : rmi_cmd) : Prop := ∃ g, cmd_track c = inl g.

Lemma runs_cmd c h :
  plain_cmd c → ok_host h →
  runs null_only (run_cmd c) h (λ st h',
    steps h h' [cmd_args c] ∧ st = x0 (reply (cmd_args c) h)).
Proof.
  intros [gc Hc] [L Hw]. unfold runs. rewrite run_cmd_body. unfold cmd_body.
  destruct (truthy _).
  - split; [|done]. split; [exists L; by rewrite after_smc_gs|by rewrite after_smc_realm|].
    unfold cmds. by rewrite after_smc_log, fmap_app.
  - unfold track. rewrite Hc. unfold bind, tracker, zoom. rewrite after_smc_gs.
    destruct (exec_spec (h_gs h) L gc Hw) as [[_ Hr]|[_ ->]]; [|done].
    apply run_to_Ok in Hr as (? & g' & -> & HL). cbn. split; [|done].
    split; [done|cbn; by rewrite after_smc_realm|]. unfold cmds. cbn. by rewrite after_smc_log, fmap_app.
Qed.

(** An SMC without a call of the tracker. *)
Lemma smc_steps args h : ok_host h → steps h (after_smc args h) [args].
Proof.
  intros [L Hw]. split; [exists L; by rewrite after_smc_gs|by rewrite after_smc_realm|].
  unfold cmds. by rewrite after_smc_log, fmap_app.
Qed.

(** ** Commands with their replies *)

(** A command with its reply. *)
Definition exchange : Type := val_smc_param_ts * val_smc_param_ts.

(** What was said in the calls of a log, with the world in which it begins. *)
Fixpoint replay (w : W) (log : list (val_smc_param_ts * gmap Z Z)) : list exchange :=
  match log with
  | [] => []
  | (args, m) :: log => let '(w, _, r) := smc w m args in (args, r) :: replay w log
  end.
Fixpoint world_after (w : W) (log : list (val_smc_param_ts * gmap Z Z)) : W :=
  match log with
  | [] => w
  | (args, m) :: log => let '(w, _, _) := smc w m args in world_after w log
  end.

Lemma replay_app w l1 l2 : replay w (l1 ++ l2) = replay w l1 ++ replay (world_after w l1) l2.
Proof. revert w. induction l1 as [|[a m] l IH]; intros w; cbn; [done|]. destruct (smc w m a) as [[w' ?] ?]. by rewrite IH. Qed.
Lemma world_after_app w l1 l2 : world_after w (l1 ++ l2) = world_after (world_after w l1) l2.
Proof. revert w. induction l1 as [|[a m] l IH]; intros w; cbn; [done|]. by destruct (smc w m a) as [[w' ?] ?]. Qed.

(** [h'] follows [h] after the commands and replies [xs]. *)
Record talks (h h' : host W) (xs : list exchange) : Prop := {
  tk_steps : steps h h' xs.*1;
  tk_log : ∃ log, h_log h' = h_log h ++ log ∧ xs = replay (h_world h) log ∧ h_world h' = world_after (h_world h) log
}.

Lemma talks_refl h : ok_host h → talks h h [].
Proof. intros Hok. split; [by apply steps_refl|]. exists []. by rewrite app_nil_r. Qed.

Lemma talks_trans h1 h2 h3 xs1 xs2 : talks h1 h2 xs1 → talks h2 h3 xs2 → talks h1 h3 (xs1 ++ xs2).
Proof.
  intros [S1 (l1 & L1 & -> & W1)] [S2 (l2 & L2 & -> & W2)]. split.
  - rewrite fmap_app. by eapply steps_trans.
  - exists (l1 ++ l2). rewrite L2, L1, <- app_assoc, replay_app, world_after_app, <- W1. done.
Qed.

Lemma after_smc_state args h : h_world (after_smc args h) = world_after (h_world h) [(args, h_mem h)].
Proof. unfold after_smc. cbn. by destruct (smc _ _ _) as [[w m] r]. Qed.
Lemma replay_one args h : replay (h_world h) [(args, h_mem h)] = [(args, reply args h)].
Proof. unfold reply. cbn. by destruct (smc _ _ _) as [[w m] r]. Qed.

Lemma smc_talks args h : ok_host h → talks h (after_smc args h) [(args, reply args h)].
Proof.
  intros Hok. split; [by apply smc_steps|]. exists [(args, h_mem h)].
  by rewrite after_smc_log, after_smc_state, replay_one.
Qed.

Lemma runs_cmd_talk c h : plain_cmd c → ok_host h →
  runs null_only (run_cmd c) h (λ st h',
    talks h h' [(cmd_args c, reply (cmd_args c) h)] ∧ st = x0 (reply (cmd_args c) h)).
Proof.
  intros Hc Hok. pose proof (runs_cmd c h Hc Hok) as Hr. unfold runs in *.
  destruct (run_cmd c h) as [st h'|f|] eqn:E; [|done|done]. destruct Hr as [S ->]. split; [|done]. split; [done|].
  exists [(cmd_args c, h_mem h)]. rewrite replay_one, <- after_smc_state. rewrite run_cmd_body in E. unfold cmd_body in E.
  destruct (truthy _); [injection E as <-; by rewrite after_smc_log|].
  unfold bind, tracker, zoom, ret in E. destruct (track _ _); [|done|done]. injection E as <-. cbn.
  by rewrite after_smc_log.
Qed.

Lemma wf_set_alloc g L a :
  wf g L → alloc_wf a → heap_base (g_alloc g) ≤ heap_base a → wf (set_alloc a g) L.
Proof.
  intros Hw Ha Hb. split; try apply Hw; [done|]. cbn. intros i f x Hx.
  pose proof (wf_below _ _ Hw i f x Hx). lia.
Qed.

Lemma runs_alloc F al sz h :
  ok_host h → 0 ≤ al < 2 ^ 32 → 0 ≤ sz < 2 ^ 62 →
  runs F (mem_alloc_h al sz) h (λ p h',
    steps h h' [] ∧ (p = 0 ∨ 0 < p ∧ (al | p))).
Proof.
  intros [L Hw] Hal Hsz. unfold runs, mem_alloc_h, tracker, allocator, zoom.
  pose proof (val_host_mem_alloc_served (g_alloc (h_gs h)) al sz (wf_alloc _ _ Hw) Hal ltac:(lia)) as Hs.
  destruct (val_host_mem_alloc al sz (g_alloc (h_gs h))) as [p a] eqn:E. cbn in Hs |- *.
  pose proof (served_wf _ _ _ _ (wf_alloc _ _ Hw) (proj1 Hsz : 0 ≤ req_size (ReqAlloc al sz)) Hs) as Ha.
  split.
  - split; [|done|unfold cmds; cbn; by rewrite app_nil_r]. exists L. cbn.
    apply wf_set_alloc; [done|done|]. destruct Hs as [[_ ->]|(? & ? & _)]; cbn in *; lia.
  - destruct Hs as [[-> _]|(H1 & _ & H3 & _)]; [by left|right].
    pose proof (wf_base_pos _ (wf_alloc _ _ Hw)). split; [lia|done].
Qed.

Lemma runs_alloc_talk F al sz h :
  ok_host h → 0 ≤ al < 2 ^ 32 → 0 ≤ sz < 2 ^ 62 →
  runs F (mem_alloc_h al sz) h (λ p h', talks h h' [] ∧ (p = 0 ∨ 0 < p ∧ (al | p))).
Proof.
  intros Hok Hal Hsz. pose proof (runs_alloc F al sz h Hok Hal Hsz) as Hr. unfold runs in *.
  destruct (mem_alloc_h al sz h) as [p h'|f|] eqn:E; [|done|done]. destruct Hr as [S Hp]. split; [|done]. split; [done|].
  exists []. rewrite app_nil_r. unfold mem_alloc_h, tracker, allocator, zoom in E. destruct (val_host_mem_alloc _ _ _). by injection E as <- <-.
Qed.

Lemma runs_free F p h :
  ok_host h → runs F (mem_free_h p) h (λ _ h', steps h h' []).
Proof.
  intros [L Hw]. unfold runs, mem_free_h, tracker, allocator, zoom. cbn.
  split; [|done|unfold cmds; cbn; by rewrite app_nil_r]. exists L. cbn.
  unfold val_host_mem_free. destruct (h_gs h). exact Hw.
Qed.

Lemma steps_mem h m : ok_host h → steps h (hset_mem m h) [].
Proof. intros Hok. split; [done|done|unfold cmds; cbn; by rewrite app_nil_r]. Qed.

(** The wrappers by name. *)
Lemma runs_delegate addr h :
  ok_host h →
  runs null_only (val_host_rmi_granule_delegate addr) h (λ st h',
    steps h h' [cmd_args (CGranuleDelegate addr)] ∧
    st = x0 (reply (cmd_args (CGranuleDelegate addr)) h)).
Proof. apply (runs_cmd (CGranuleDelegate addr)). by eexists. Qed.

Lemma runs_undelegate addr h :
  ok_host h →
  runs null_only (val_host_rmi_granule_undelegate addr) h (λ st h',
    steps h h' [cmd_args (CGranuleUndelegate addr)] ∧
    st = x0 (reply (cmd_args (CGranuleUndelegate addr)) h)).
Proof. apply (runs_cmd (CGranuleUndelegate addr)). by eexists. Qed.

Lemma runs_rtt_create rd rtt ipa level h :
  ok_host h →
  runs null_only (val_host_rmi_rtt_create rd rtt ipa level) h (λ st h',
    steps h h' [cmd_args (CRttCreate rd rtt ipa level)] ∧
    st = x0 (reply (cmd_args (CRttCreate rd rtt ipa level)) h)).
Proof. apply (runs_cmd (CRttCreate rd rtt ipa level)). by eexists. Qed.

Lemma runs_data_create rd data ipa src flags h :
  ok_host h →
  runs null_only (val_host_rmi_data_create rd data ipa src flags) h (λ st h',
    steps h h' [cmd_args (CDataCreate rd data ipa src flags)] ∧
    st = x0 (reply (cmd_args (CDataCreate rd data ipa src flags)) h)).
Proof. apply (runs_cmd (CDataCreate rd data ipa src flags)). by eexists. Qed.

Lemma runs_rec_create rd rec params h :
  ok_host h →
  runs null_only (val_host_rmi_rec_create rd rec params) h (λ st h',
    steps h h' [cmd_args (CRecCreate rd rec params)] ∧
    st = x0 (reply (cmd_args (CRecCreate rd rec params)) h)).
Proof. apply (runs_cmd (CRecCreate rd rec params)). by eexists. Qed.

(** A wrapper with an output argument has the fault and the state of its command. *)
Lemma runs_of_status {A B} F (m : M (host W) A) (f : A → B) h (P : B → host W → Prop) :
  runs F (let* a := m in ret (f a)) h P → runs F m h (λ a h', P (f a) h').
Proof. unfold runs, bind. by destruct (m h). Qed.

Lemma runs_data_destroy rd ipa h :
  ok_host h →
  runs null_only (val_host_rmi_data_destroy rd ipa) h (λ _ h',
    steps h h' [cmd_args (CDataDestroy rd ipa)]).
Proof.
  intros Hok. eapply runs_mono.
  - apply (runs_of_status _ _ (λ '(r, _), r : Z)).
    pose proof (runs_cmd (CDataDestroy rd ipa) h ltac:(by eexists) Hok) as Hr.
    unfold runs, bind in *. cbn [run_cmd] in Hr. unfold bind in Hr.
    destruct (val_host_rmi_data_destroy rd ipa h) as [[r x] h'|f|]; [exact Hr|exact Hr|exact Hr].
  - by intros [r x] h' [Hs _].
Qed.
End HostFacts.

(** * Examples of an RMM and of a host state *)

(** An RMM that answers a command by its registers. *)
Definition responding (f : val_smc_param_ts → val_smc_param_ts) : RMM unit := {|
  smc w m a := (w, m, f a);
  RMM_V_1_1 := true;
  val_get_shared_region_base_pa := PLATFORM_SHARED_REGION_BASE;
  VAL_NS_SHARED_REGION_IPA_OFFSET := 0x600000
|}.

(** The state of [one_granule], with an RD at 7. *)
Definition host1 {W : Type} (w : W) : host W := mk_host w one_granule ∅ (rset_rd 7 realm_zero) [].

Lemma host1_ok {W : Type} (w : W) : ok_host (host1 w).
Proof. exists one_layout. apply one_granule_wf. Qed.

(** An RMM that accepts every command. *)
Definition accepting : RMM unit := responding (λ _, answer 0 0).
