(* ===== verification/MapFacts.v ===== *)
(** Properties of the code that builds a Realm's translation tables. *)
From S2P Require Import Prelude Defs Alloc Granule GranuleInv GranuleSpec Host Rmi RealmMap.
From S2P Require Import RmiFacts HostFacts.

(** * Alignment *)

(** The bytes an entry of level [level] maps. *)
Definition level_shift (level : Z) : Z := 12 + 9 * (3 - level).

Lemma level_shift_bound level : 0 ≤ level ≤ 3 → 12 ≤ level_shift level ≤ 39.
Proof. unfold level_shift. lia. Qed.

Lemma mapsize_pow2 level :
  0 ≤ level ≤ 3 → val_host_rtt_level_mapsize level = 2 ^ level_shift level.
Proof.
  intros Hl. assert (level = 0 ∨ level = 1 ∨ level = 2 ∨ level = 3) as [-> | [-> | [-> | ->]]] by lia; done.
Qed.

Lemma align_down_level ipa level :
  is_u64 ipa → 0 ≤ level ≤ 3 →
  ADDR_ALIGN_DOWN ipa (val_host_rtt_level_mapsize level) = ipa - ipa mod 2 ^ level_shift level.
Proof.
  intros Hi Hl. pose proof (level_shift_bound level Hl).
  rewrite mapsize_pow2, ADDR_ALIGN_DOWN_pow2 by (done || lia). done.
Qed.

(** The mask [VAL_BIT_MASK_ULL(39, lsb)]. *)
Lemma bit_mask_testbit lsb n :
  0 ≤ lsb ≤ 39 → 0 ≤ n →
  Z.testbit (VAL_BIT_MASK_ULL 39 lsb) n = (lsb <=? n) && (n <=? 39).
Proof.
  intros Hl Hn. unfold VAL_BIT_MASK_ULL. rewrite Z.land_spec, Z.shiftr_spec by lia.
  replace (2 ^ 64 - 1) with (Z.ones 64) by done. unfold u64.
  rewrite Z.testbit_ones_nonneg by lia.
  destruct (Z.ltb_spec n 64).
  - rewrite Z.mod_pow2_bits_low, Z.shiftl_spec by lia.
    destruct (Z.leb_spec lsb n).
    + rewrite Z.testbit_ones_nonneg by lia. zb; done || lia.
    + rewrite Z.testbit_neg_r by lia. by rewrite andb_false_r.
  - zb; done || lia.
Qed.

Lemma align_to_level_bits addr level n :
  0 ≤ level ≤ 3 → 0 ≤ n →
  Z.testbit (val_host_addr_align_to_level addr level) n =
  Z.testbit addr n && ((level_shift level <=? n) && (n <=? 39)).
Proof.
  intros Hl Hn. unfold val_host_addr_align_to_level. rewrite Z.land_spec. f_equal.
  pose proof (level_shift_bound level Hl).
  replace (u64 (u64 (u64 (VAL_RTT_MAX_LEVEL - level) * S2TTE_STRIDE) + GRANULE_SHIFT) mod 64)
    with (level_shift level).
  - apply bit_mask_testbit; lia.
  - assert (level = 0 ∨ level = 1 ∨ level = 2 ∨ level = 3) as [-> | [-> | [-> | ->]]] by lia; done.
Qed.

(** The two routines that align an IPA to a table level agree: on an IPA of
    the default 40-bit space, the mask of [val_host_addr_align_to_level] gives
    the address [ADDR_ALIGN_DOWN] computes from [val_host_rtt_level_mapsize],
    the largest multiple of the level's block size that is not above the IPA;
    for a wider address it also drops the bits above the space. *)
Theorem alignment_routines_agree ipa level :
  is_u64 ipa → 0 ≤ level ≤ 3 →
  val_host_addr_align_to_level ipa level =
    ADDR_ALIGN_DOWN (ipa mod 2 ^ IPA_WIDTH_DEFAULT) (val_host_rtt_level_mapsize level) ∧
  (ipa < 2 ^ IPA_WIDTH_DEFAULT →
   val_host_addr_align_to_level ipa level = ipa - ipa mod val_host_rtt_level_mapsize level).
Proof.
  intros Hi Hl. pose proof (level_shift_bound level Hl).
  assert (0 ≤ ipa mod 2 ^ 40 < 2 ^ 40) as Hm by (apply Z.mod_pos_bound; lia).
  assert (val_host_addr_align_to_level ipa level =
    ADDR_ALIGN_DOWN (ipa mod 2 ^ IPA_WIDTH_DEFAULT) (val_host_rtt_level_mapsize level)) as E.
  - unfold IPA_WIDTH_DEFAULT. rewrite align_down_level by (done || unfold is_u64; lia).
    rewrite <- ldiff_ones by lia. replace (2 ^ level_shift level - 1) with (Z.ones (level_shift level))
      by (rewrite Z.ones_equiv; lia).
    apply Z.bits_inj'. intros n Hn. rewrite align_to_level_bits, Z.ldiff_spec by lia.
    rewrite Z.testbit_ones_nonneg by lia. destruct (Z.ltb_spec n 40).
    + rewrite Z.mod_pow2_bits_low by lia. zb; cbn; done || lia.
    + rewrite Z.mod_pow2_bits_high by lia. zb; cbn; rewrite ?andb_false_r; done || lia.
  - split; [done|]. intros Hs. rewrite E. unfold IPA_WIDTH_DEFAULT in *.
    rewrite (Z.mod_small ipa) by (unfold is_u64 in Hi; lia).
    by rewrite align_down_level, mapsize_pow2.
Qed.

Lemma alignment_routines_agree_witness :
  val_host_addr_align_to_level 0x12345678 2 = 0x12345678 - 0x12345678 mod 0x200000.
Proof.
  apply (alignment_routines_agree 0x12345678 2); [by vm_compute|lia|by vm_compute].
Defined.

Section MapFacts.
Context {W : Type} `{RMM W}.
Implicit Types h : host W.

(** * Creating table levels *)

(** The two commands that create the table of level [level]. *)
Definition level_cmds (rd ipa level rtt : Z) : list val_smc_param_ts :=
  [cmd_args (CGranuleDelegate rtt);
   cmd_args (CRttCreate rd rtt (ipa - ipa mod 2 ^ level_shift (level - 1)) level)].

(** The commands for the levels from [level + 1] on, one table each. *)
Fixpoint levels_cmds (rd ipa level : Z) (rtts : list Z) : list val_smc_param_ts :=
  match rtts with
  | [] => []
  | rtt :: rtts => level_cmds rd ipa (level + 1) rtt ++ levels_cmds rd ipa (level + 1) rtts
  end.

(** The commands of a level that could not be created. *)
Definition failed_level (rd ipa level : Z) (rest : list val_smc_param_ts) : Prop :=
  rest = [] ∨ ∃ rtt, rest = [cmd_args (CGranuleDelegate rtt)] ∨
    rest = level_cmds rd ipa level rtt ++ [cmd_args (CGranuleUndelegate rtt)].

Definition levels_result (rd ipa level max : Z) (r : Z) (h h' : host W) : Prop :=
  (r = VAL_SUCCESS ∨ r = VAL_ERROR) ∧
  ∃ rtts rest, steps h h' (levels_cmds rd ipa level rtts ++ rest) ∧
    Forall (λ p, 0 < p ∧ (PAGE_SIZE | p)) rtts ∧
    (r = VAL_SUCCESS → rest = [] ∧ Z.of_nat (length rtts) = max - level) ∧
    (r = VAL_ERROR → failed_level rd ipa (level + Z.of_nat (length rtts) + 1) rest).

Lemma create_rtt_levels_loop_spec fuel rd ipa level max h :
  is_u64 ipa → 0 ≤ level ≤ max → max ≤ 3 → Z.of_nat fuel = max - level + 1 → ok_host h →
  runs null_only (create_rtt_levels_loop fuel rd ipa level max PAGE_SIZE) h (λ r h',
    levels_result rd ipa level max r h h').
Proof.
  intros Hipa. revert level h. induction fuel as [|fuel IH]; intros level h Hl Hmax Hf Hok; [lia|].
  cbn [create_rtt_levels_loop]. destruct (Z.ltb_spec level max) as [Hlt|Hge].
  2: { apply runs_ret. split; [by left|]. exists [], []. split; [by apply steps_refl|].
       split; [done|]. split; [|done]. intros _. split; [done|]. cbn. lia. }
  rewrite (u64_id (level + 1)) by (unfold is_u64; lia).
  rewrite (u64_id (level + 1 - 1)) by (unfold is_u64; lia).
  replace (level + 1 - 1) with level by lia.
  rewrite align_down_level by (done || lia).
  eapply runs_bind; [apply runs_alloc; [done|unfold PAGE_SIZE; lia|unfold PAGE_SIZE; lia]|].
  intros rtt h1 [S1 Hrtt]. destruct (Z.eqb_spec rtt 0) as [->|Hne].
  { apply runs_ret. split; [by right|]. exists [], []. split; [done|].
    split; [done|]. split; [done|]. by left. }
  destruct Hrtt as [|Hrtt]; [done|].
  eapply runs_bind; [apply runs_delegate, S1|]. intros st h2 [S2 _].
  pose proof (steps_trans _ _ _ _ _ S1 S2) as S12. destruct (truthy st).
  { apply runs_ret. split; [by right|]. exists [], [cmd_args (CGranuleDelegate rtt)].
    split; [done|]. split; [done|]. split; [done|]. right. exists rtt. by left. }
  eapply runs_bind; [apply runs_rtt_create, S2|]. intros st' h3 [S3 _].
  pose proof (steps_trans _ _ _ _ _ S12 S3) as S13.
  assert (level_cmds rd ipa (level + 1) rtt =
    [cmd_args (CGranuleDelegate rtt)] ++
    [cmd_args (CRttCreate rd rtt (ipa - ipa mod 2 ^ level_shift level) (level + 1))]) as Elc.
  { unfold level_cmds. by replace (level + 1 - 1) with level by lia. }
  destruct (truthy st').
  - eapply runs_bind; [apply runs_undelegate, S3|]. intros ? h4 [S4 _].
    eapply runs_bind; [apply runs_free, S4|]. intros ? h5 S5. apply runs_ret.
    split; [by right|]. exists [], (level_cmds rd ipa (level + 1) rtt ++ [cmd_args (CGranuleUndelegate rtt)]).
    split.
    + cbn [levels_cmds]. rewrite Elc.
      pose proof (steps_trans _ _ _ _ _ (steps_trans _ _ _ _ _ S13 S4) S5) as S. by rewrite app_nil_r in S.
    + split; [done|]. split; [done|]. right. exists rtt. right. cbn. by rewrite Z.add_0_r.
  - eapply runs_mono; [apply IH; [lia|lia|lia|apply S3]|].
    intros r h' [Hr (rtts & rest & S & Hall & Hs & He)]. split; [done|].
    exists (rtt :: rtts), rest. split; [|split; [by constructor|]].
    + cbn [levels_cmds]. rewrite <- app_assoc, Elc. by eapply steps_trans.
    + split; [intros E; destruct (Hs E) as [-> Hlen]; split; [done|]; cbn; lia|].
      intros E. specialize (He E). cbn [length].
      by replace (level + Z.of_nat (Datatypes.S (length rtts)) + 1)
        with (level + 1 + Z.of_nat (length rtts) + 1) by lia.
Qed.

(** [val_host_create_rtt_levels] ends for every RMM, and when it succeeds it
    has created one table for each level from [rtt_level + 1] to [rtt_max_level],
    in this order, each in a freshly delegated page-aligned granule and for the
    IPA rounded down to what an entry of the level above maps.  On failure the
    commands issued are such a prefix, followed by at most the failing level.
    The only fault is the tracker's, when the heap has no room. *)
Theorem create_rtt_levels_exact ipa level max h :
  is_u64 ipa → 0 ≤ level → 0 ≤ max ≤ 3 → ok_host h →
  runs null_only (val_host_create_rtt_levels ipa level max PAGE_SIZE) h (λ r h',
    if max <? level then r = VAL_ERROR ∧ h' = h
    else levels_result (r_rd (h_realm h)) ipa level max r h h').
Proof.
  intros Hi Hl Hm Hok. unfold val_host_create_rtt_levels.
  destruct (Z.ltb_spec max level); [done|].
  eapply runs_step; [reflexivity|]. apply create_rtt_levels_loop_spec; [done|lia|lia|lia|done].
Qed.

(** * Rolling back a failed mapping *)

(** The commands that take back page [k] of a region. *)
Definition undo_page (rd pa ipa k : Z) : list val_smc_param_ts :=
  [cmd_args (CDataDestroy rd (ipa + k * PAGE_SIZE));
   cmd_args (CGranuleUndelegate (pa + k * PAGE_SIZE))].

Fixpoint undo_pages (rd pa ipa : Z) (n : nat) : list val_smc_param_ts :=
  match n with
  | O => []
  | S n => undo_page rd pa ipa (Z.of_nat (S n)) ++ undo_pages rd pa ipa n
  end.

(** The last byte of page [n] of a region is in the address space. *)
Definition fits (base : Z) (n : nat) : Prop :=
  0 ≤ base ∧ base + (Z.of_nat n + 1) * PAGE_SIZE < 2 ^ 64.

Lemma fits_pred base n : fits base (S n) → fits base n.
Proof. unfold fits, PAGE_SIZE. lia. Qed.

Lemma map_rollback_spec rd pa ipa n fuel h :
  fits pa n → fits ipa n → (n < fuel)%nat → ok_host h →
  runs null_only
    (map_rollback fuel rd (pa + Z.of_nat n * PAGE_SIZE) (ipa + Z.of_nat n * PAGE_SIZE)
       (Z.of_nat n * PAGE_SIZE)) h
    (λ r h', r = VAL_ERROR ∧ steps h h' (undo_pages rd pa ipa n)).
Proof.
  revert fuel h. induction n as [|n IH]; intros [|fuel] h Hp Hi Hf Hok; try lia; cbn [map_rollback].
  { rewrite Z.mul_0_l, Z.ltb_irrefl. apply runs_ret. split; [done|]. by apply steps_refl. }
  assert (0 < Z.of_nat (S n) * PAGE_SIZE) as Hs by (unfold PAGE_SIZE; lia).
  rewrite (proj2 (Z.ltb_lt _ _) Hs).
  eapply runs_bind; [by apply runs_data_destroy|]. intros ? h1 S1.
  eapply runs_bind; [apply runs_undelegate, S1|]. intros ? h2 [S2 _].
  assert (∀ b, fits b (S n) →
    u64 (b + Z.of_nat (S n) * PAGE_SIZE - PAGE_SIZE) = b + Z.of_nat n * PAGE_SIZE) as Hdec.
  { intros b [Hb1 Hb2]. rewrite u64_id; unfold is_u64, PAGE_SIZE in *; lia. }
  rewrite !Hdec by done.
  replace (u64 (Z.of_nat (S n) * PAGE_SIZE - PAGE_SIZE)) with (Z.of_nat n * PAGE_SIZE)
    by (rewrite u64_id; unfold is_u64, fits, PAGE_SIZE in *; lia).
  eapply runs_mono; [apply IH; [by apply fits_pred|by apply fits_pred|lia|apply S2]|].
  intros r h' [Hr S3]. split; [done|].
  exact (steps_trans _ _ _ _ _ (steps_trans _ _ _ _ _ S1 S2) S3).
Qed.

Lemma undo_pages_in rd pa ipa n c :
  c ∈ undo_pages rd pa ipa n ↔ ∃ k, 1 ≤ k ≤ Z.of_nat n ∧ c ∈ undo_page rd pa ipa k.
Proof.
  induction n as [|n IH]; cbn [undo_pages].
  - split; [intros []%not_elem_of_nil|intros (k & Hk & _); lia].
  - rewrite elem_of_app, IH. split.
    + intros [Hc|(k & Hk & Hc)]; [|exists k; split; [lia|done]].
      exists (Z.of_nat (S n)). split; [lia|done].
    + intros (k & Hk & Hc). destruct (decide (k = Z.of_nat (S n))) as [->|]; [by left|].
      right. exists k. split; [lia|done].
Qed.

(** When mapping protected memory fails at page [n] (pages 0 to [n - 1]
    are mapped), the rollback issues DATA_DESTROY and GRANULE_UNDELEGATE for
    the pages [n] down to 1 and ends.  It starts with the page that was not
    mapped, and page 0, which was, is neither destroyed nor undelegated. *)
Theorem rollback_skips_first_page rd pa ipa n h :
  fits pa n → fits ipa n → ok_host h →
  runs null_only
    (map_rollback (pages (Z.of_nat n * PAGE_SIZE)) rd (pa + Z.of_nat n * PAGE_SIZE)
       (ipa + Z.of_nat n * PAGE_SIZE) (Z.of_nat n * PAGE_SIZE)) h
    (λ r h', r = VAL_ERROR ∧ steps h h' (undo_pages rd pa ipa n) ∧
       (cmd_args (CGranuleUndelegate pa) ∉ undo_pages rd pa ipa n) ∧
       (cmd_args (CDataDestroy rd ipa) ∉ undo_pages rd pa ipa n)).
Proof.
  intros Hp Hi Hok. eapply runs_mono.
  - apply map_rollback_spec; [done|done| |done]. unfold pages.
    rewrite Z.div_mul by done. lia.
  - intros r h' [Hr Hs]. split; [done|]. split; [done|]. rewrite !undo_pages_in.
    split; intros (k & Hk & Hc); unfold undo_page in Hc;
      apply elem_of_cons in Hc as [Hc|Hc%list_elem_of_singleton]; cbn in Hc;
      injection Hc as Hc; unfold PAGE_SIZE in *; lia.
Qed.

(** * Mapping protected memory *)

(** Registers hold 64-bit values. *)
Definition registers_u64 : Prop := ∀ (w : W) m a, is_u64 (x1 (smc w m a).2).

(** RTT_READ_ENTRY of the entry that covers [ipa] at [level]. *)
Definition read_entry (rd ipa level : Z) : val_smc_param_ts :=
  mk_smc RMI_RTT_READ_ENTRY rd (val_host_addr_align_to_level ipa level) level 0 0 0 0 0 0 0.

(** A command whose reply reports success. *)
Definition accepted (x : exchange) : Prop := x0 x.2 = 0.

(** The tables below [level] have been made, down to [max]: every command succeeded. *)
Definition levels_made (rd ipa level max : Z) (xs : list exchange) : Prop :=
  ∃ rtts, xs.*1 = levels_cmds rd ipa level rtts ∧ Z.of_nat (length rtts) = max - level ∧ Forall accepted xs.

(** What was said when one page was mapped: it was delegated with success; DATA_CREATE
    succeeded at once, or after the missing tables had been made; or it failed for a
    table entry that RTT_READ_ENTRY then reports as in use, and the page counts as mapped
    without having been created (see [map_protected_hides_refusal]). *)
Inductive page_mapped (rd pa ipa src ml : Z) : list exchange → Prop :=
  | MappedAtOnce r0 r1 :
      x0 r0 = 0 → x0 r1 = 0 →
      page_mapped rd pa ipa src ml
        [(cmd_args (CGranuleDelegate pa), r0); (cmd_args (CDataCreate rd pa ipa src RMI_NO_MEASURE_CONTENT), r1)]
  | MappedAfterTables r0 r1 r2 tables r3 :
      x0 r0 = 0 → RMI_STATUS (x0 r1) = RMI_ERROR_RTT → x0 r2 = 0 → x2 r2 = RMI_UNASSIGNED →
      levels_made rd ipa (u32 (x1 r2)) ml tables → x0 r3 = 0 →
      page_mapped rd pa ipa src ml
        ([(cmd_args (CGranuleDelegate pa), r0); (cmd_args (CDataCreate rd pa ipa src RMI_NO_MEASURE_CONTENT), r1);
          (read_entry rd ipa (RMI_INDEX (x0 r1)), r2)] ++ tables ++
         [(cmd_args (CDataCreate rd pa ipa src RMI_NO_MEASURE_CONTENT), r3)])
  | CountedInUse r0 r1 r2 :
      x0 r0 = 0 → RMI_STATUS (x0 r1) = RMI_ERROR_RTT → x0 r2 = 0 → x2 r2 ≠ RMI_UNASSIGNED →
      page_mapped rd pa ipa src ml
        [(cmd_args (CGranuleDelegate pa), r0); (cmd_args (CDataCreate rd pa ipa src RMI_NO_MEASURE_CONTENT), r1);
         (read_entry rd ipa (RMI_INDEX (x0 r1)), r2)].

(** Pages [k] to [k + n - 1] have been mapped, one after the other. *)
Fixpoint region_mapped (rd pa ipa src ml : Z) (k n : nat) (xs : list exchange) : Prop :=
  match n with
  | O => xs = []
  | S n => ∃ x ys, xs = x ++ ys ∧
      page_mapped rd (pa + Z.of_nat k * PAGE_SIZE) (ipa + Z.of_nat k * PAGE_SIZE) (src + Z.of_nat k * PAGE_SIZE) ml x ∧
      region_mapped rd pa ipa src ml (S k) n ys
  end.

Lemma truthy_0 x : truthy x = false → x = 0.
Proof. unfold truthy. by intros ?%negb_false_iff%Z.eqb_eq. Qed.

Lemma levels_loop_talk fuel rd ipa level max h :
  is_u64 ipa → 0 ≤ level ≤ max → max ≤ 3 → Z.of_nat fuel = max - level + 1 → ok_host h →
  runs null_only (create_rtt_levels_loop fuel rd ipa level max PAGE_SIZE) h (λ r h',
    (∃ cs, steps h h' cs) ∧ (truthy r = false → ∃ xs, talks h h' xs ∧ levels_made rd ipa level max xs)).
Proof.
  intros Hipa. revert level h. induction fuel as [|fuel IH]; intros level h Hl Hmax Hf Hok; [lia|].
  cbn [create_rtt_levels_loop]. destruct (Z.ltb_spec level max) as [Hlt|Hge].
  2: { apply runs_ret. split; [exists []; by apply steps_refl|]. intros _. exists []. split; [by apply talks_refl|].
       exists []. split; [done|]. split; [cbn; lia|constructor]. }
  rewrite (u64_id (level + 1)) by (unfold is_u64; lia).
  rewrite (u64_id (level + 1 - 1)) by (unfold is_u64; lia).
  replace (level + 1 - 1) with level by lia. rewrite align_down_level by (done || lia).
  eapply runs_bind; [apply runs_alloc_talk; [done|unfold PAGE_SIZE; lia|unfold PAGE_SIZE; lia]|].
  intros rtt h1 [T1 _]. destruct (Z.eqb_spec rtt 0) as [->|Hne].
  { apply runs_ret. split; [eexists; apply T1|done]. }
  eapply runs_bind; [apply (runs_cmd_talk (CGranuleDelegate rtt)); [by eexists|apply T1]|]. intros st h2 [T2 Est].
  pose proof (talks_trans _ _ _ _ _ T1 T2) as T12. destruct (truthy st) eqn:Et.
  { apply runs_ret. split; [eexists; apply T12|done]. }
  set (top := ipa - ipa mod 2 ^ level_shift level).
  eapply runs_bind; [apply (runs_cmd_talk (CRttCreate rd rtt top (level + 1))); [by eexists|apply T2]|]. intros st' h3 [T3 Est'].
  pose proof (talks_trans _ _ _ _ _ T12 T3) as T13. destruct (truthy st') eqn:Et'.
  { eapply runs_bind; [apply runs_undelegate, T3|]. intros ? h4 [S4 _].
    eapply runs_bind; [apply runs_free, S4|]. intros ? h5 S5. apply runs_ret. split; [|done].
    eexists. exact (steps_trans _ _ _ _ _ (steps_trans _ _ _ _ _ (tk_steps _ _ _ T13) S4) S5). }
  eapply runs_mono; [apply IH; [lia|lia|lia|apply T3]|].
  intros r h' [[cs S] Hr]. split; [eexists; exact (steps_trans _ _ _ _ _ (tk_steps _ _ _ T13) S)|].
  intros E. destruct (Hr E) as (xs & T & rtts & Ec & Elen & Hall). eexists. split; [exact (talks_trans _ _ _ _ _ T13 T)|].
  exists (rtt :: rtts). split; [|split; [cbn; lia|]].
  - cbn [levels_cmds]. unfold level_cmds. replace (level + 1 - 1) with level by lia. cbn. by rewrite Ec.
  - cbn. apply Forall_cons. split; [exact (eq_trans (eq_sym Est) (truthy_0 _ Et))|].
    apply Forall_cons. split; [exact (eq_trans (eq_sym Est') (truthy_0 _ Et'))|done].
Qed.

Lemma fits_add b k n : fits b n → (k < n)%nat →
  u64 (b + Z.of_nat k * PAGE_SIZE + PAGE_SIZE) = b + Z.of_nat (S k) * PAGE_SIZE.
Proof. intros [? ?] ?. rewrite u64_id; unfold is_u64, PAGE_SIZE in *; lia. Qed.

Lemma rollback_any rd pa ipa n h :
  fits pa n → fits ipa n → ok_host h →
  runs null_only
    (map_rollback (pages (Z.of_nat n * PAGE_SIZE)) rd (pa + Z.of_nat n * PAGE_SIZE)
       (ipa + Z.of_nat n * PAGE_SIZE) (Z.of_nat n * PAGE_SIZE)) h
    (λ r h', r = VAL_ERROR ∧ ∃ cs, steps h h' cs).
Proof.
  intros Hp Hi Hok. eapply runs_mono.
  - apply map_rollback_spec; [done|done| |done]. unfold pages. rewrite Z.div_mul by done. lia.
  - intros r h' [Hr S]. split; [done|by eexists].
Qed.

Lemma fits_le b k n : fits b n → (k ≤ n)%nat → fits b k.
Proof. unfold fits, PAGE_SIZE. lia. Qed.

(** The block after the first DATA_CREATE of a page. *)
Lemma rtt_retry_talk rd phys ipa src r1 ml h :
  registers_u64 → is_u64 ipa → 0 ≤ ml ≤ 3 → r_rd (h_realm h) = rd → ok_host h →
  let create := cmd_args (CDataCreate rd phys ipa src RMI_NO_MEASURE_CONTENT) in
  runs null_only (rtt_retry (x0 r1) ipa ml PAGE_SIZE (λ _ wl, u32 wl) (val_host_rmi_data_create rd phys ipa src RMI_NO_MEASURE_CONTENT)) h (λ w h',
    (∃ cs, steps h h' cs) ∧
    ∀ r, w = Done r → truthy r = false → ∃ xs, talks h h' xs ∧
      ∀ r0, x0 r0 = 0 → page_mapped rd phys ipa src ml ([(cmd_args (CGranuleDelegate phys), r0); (create, r1)] ++ xs)).
Proof.
  intros Hreg Hi Hml Hrd Hok create. unfold rtt_retry. destruct (Z.eqb_spec (RMI_STATUS (x0 r1)) RMI_ERROR_RTT) as [Es|Es].
  2: { apply runs_ret. split; [exists []; by apply steps_refl|]. intros r [= <-] Ht%truthy_0. exists [].
       split; [by apply talks_refl|]. intros r0 H0. by apply MappedAtOnce. }
  eapply runs_step; [reflexivity|]. rewrite Hrd. unfold val_host_rmi_rtt_read_entry.
  set (read := read_entry rd ipa (RMI_INDEX (x0 r1))). set (r2 := reply read h).
  eapply (runs_bind _ _ _ _ (λ p h', p = (x0 r2, mk_rtte (x1 r2) (x2 r2) (x3 r2) (x4 r2)) ∧ h' = after_smc read h)).
  { eapply runs_step; [apply val_smc_call_eq|]. by apply runs_ret. }
  intros [r r'] h' [[= -> ->] ->]. pose proof (smc_talks read h Hok) as T1. fold r2 in T1. set (h1 := after_smc read h) in *.
  destruct (truthy (x0 r2)) eqn:E2; [apply runs_ret; split; [eexists; apply T1|done]|]. apply truthy_0 in E2.
  cbn [rtte_state]. destruct (Z.eqb_spec (x2 r2) RMI_UNASSIGNED) as [Eu|Eu].
  2: { apply runs_ret. split; [eexists; apply T1|]. intros r _ _. exists [(read, r2)]. split; [done|]. intros r0 H0. by apply CountedInUse. }
  cbn [walk_level]. assert (0 ≤ u32 (x1 r2)) as Hu by (apply Z.mod_pos_bound; done).
  assert (r_rd (h_realm h1) = rd) as Hrd1 by (by rewrite (st_realm _ _ _ (tk_steps _ _ _ T1))).
  unfold val_host_create_rtt_levels.
  destruct (Z.ltb_spec ml (u32 (x1 r2))); [eapply runs_step; [reflexivity|]; apply runs_ret; split; [eexists; apply T1|done]|].
  eapply runs_bind; [eapply runs_step; [reflexivity|]; rewrite Hrd1; apply levels_loop_talk; [done|lia|lia|lia|apply T1]|]. intros r3 h2 [[cs S2] H2].
  pose proof (steps_trans _ _ _ _ _ (tk_steps _ _ _ T1) S2) as S12.
  destruct (truthy r3) eqn:E3; [apply runs_ret; split; [by eexists|done]|].
  destruct (H2 eq_refl) as (tables & T2 & Hmade).
  eapply runs_bind; [apply (runs_cmd_talk (CDataCreate rd phys ipa src RMI_NO_MEASURE_CONTENT)); [by eexists|apply S2]|].
  intros r h3 [T3 Er]. fold create in T3, Er. pose proof (talks_trans _ _ _ _ _ (talks_trans _ _ _ _ _ T1 T2) T3) as T.
  apply runs_ret. split; [eexists; apply T|]. intros r' [= <-] Ht%truthy_0. eexists. split; [exact T|].
  intros r0 Hr0. rewrite <- !app_assoc.
  apply (MappedAfterTables rd phys ipa src ml r0 r1 r2 tables (reply create h2)); try done. by rewrite <- Er.
Qed.

Lemma map_protected_loop_spec rd pa ipa src ml N k fuel h :
  registers_u64 → 0 ≤ ml ≤ 3 → r_rd (h_realm h) = rd →
  fits pa N → fits ipa N → fits src N → (k ≤ N)%nat → (N - k < fuel)%nat → ok_host h →
  runs null_only
    (map_protected_loop fuel rd (pa + Z.of_nat k * PAGE_SIZE) (ipa + Z.of_nat k * PAGE_SIZE)
       (src + Z.of_nat k * PAGE_SIZE) (Z.of_nat k * PAGE_SIZE) (Z.of_nat N * PAGE_SIZE) ml) h
    (λ r h', r = VAL_SUCCESS ∧ (∃ xs, talks h h' xs ∧ region_mapped rd pa ipa src ml k (N - k) xs) ∨
             r = VAL_ERROR ∧ ∃ cs, steps h h' cs).
Proof.
  intros Hreg Hml Hrd Hfp Hfi Hfs. revert k h Hrd. induction fuel as [|fuel IH]; intros k h Hrd Hk Hf Hok; [lia|].
  cbn [map_protected_loop]. destruct (Z.ltb_spec (Z.of_nat k * PAGE_SIZE) (Z.of_nat N * PAGE_SIZE)) as [Hlt|Hge].
  2: { apply runs_ret. left. split; [done|]. exists []. split; [by apply talks_refl|].
       assert (N - k = 0)%nat as -> by (unfold PAGE_SIZE in Hge; lia). done. }
  assert (k < N)%nat as HkN by (unfold PAGE_SIZE in Hlt; lia).
  eapply runs_bind; [apply (runs_cmd_talk (CGranuleDelegate _)); [by eexists|done]|]. intros st h1 [T1 Est].
  destruct (truthy st) eqn:Et; [apply runs_ret; right; split; [done|eexists; apply T1]|]. apply truthy_0 in Et.
  set (create := CDataCreate rd (pa + Z.of_nat k * PAGE_SIZE) (ipa + Z.of_nat k * PAGE_SIZE) (src + Z.of_nat k * PAGE_SIZE) RMI_NO_MEASURE_CONTENT).
  eapply runs_bind; [apply (runs_cmd_talk create); [by eexists|apply T1]|]. intros r1 h2 [T2 ->].
  pose proof (talks_trans _ _ _ _ _ T1 T2) as T12.
  eapply runs_bind.
  { apply (rtt_retry_talk rd); [done| |done| |apply T2].
    - unfold fits, is_u64, PAGE_SIZE in *. lia.
    - by rewrite (st_realm _ _ _ (tk_steps _ _ _ T12)). }
  intros w h3 [[cs3 S3] Hw]. pose proof (steps_trans _ _ _ _ _ (tk_steps _ _ _ T12) S3) as S13.
  assert (runs null_only
    (map_rollback (pages (Z.of_nat k * PAGE_SIZE)) rd (pa + Z.of_nat k * PAGE_SIZE)
       (ipa + Z.of_nat k * PAGE_SIZE) (Z.of_nat k * PAGE_SIZE)) h3
    (λ r h', r = VAL_SUCCESS ∧ (∃ xs, talks h h' xs ∧ region_mapped rd pa ipa src ml k (N - k) xs) ∨
             r = VAL_ERROR ∧ ∃ cs, steps h h' cs)) as Hroll.
  { eapply runs_mono; [apply rollback_any; [apply (fits_le _ k N); [done|lia]|apply (fits_le _ k N); [done|lia]|apply S3]|].
    intros r h' [-> [cs S]]. right. split; [done|]. eexists. by eapply steps_trans. }
  destruct w as [| |r]; [apply runs_ret; right; split; [done|by eexists]|done|].
  destruct (truthy r) eqn:Er; [done|]. clear Hroll. destruct (Hw r eq_refl Er) as (xs3 & T3 & Hpage).
  pose proof (talks_trans _ _ _ _ _ T12 T3) as T13. specialize (Hpage _ (eq_trans (eq_sym Est) Et)).
  rewrite !(fits_add _ k N) by done.
  replace (u64 (Z.of_nat k * PAGE_SIZE + PAGE_SIZE)) with (Z.of_nat (S k) * PAGE_SIZE)
    by (rewrite u64_id; unfold is_u64, fits, PAGE_SIZE in *; lia).
  eapply runs_mono; [apply IH; [by rewrite (st_realm _ _ _ S13)|lia|lia|apply S3]|].
  intros r' h' [(-> & xs & T4 & Hrest)|(-> & cs & S4)].
  - left. split; [done|]. eexists. split; [exact (talks_trans _ _ _ _ _ T13 T4)|].
    replace (N - k)%nat with (S (N - S k)) by lia. cbn [region_mapped]. eauto.
  - right. split; [done|]. eexists. by eapply steps_trans.
Qed.

(** C27. Mapping a region of protected memory (one page, or one level 2 block as
    512 pages) ends for every RMM with VAL_SUCCESS or VAL_ERROR, or in the tracker's null
    dereference when the heap has no room; it fails without a command when the IPA is
    not aligned to the size or the size is another one; and when it reports success,
    what was said with the RMM is, page by page in order, a GRANULE_DELEGATE that
    succeeded and a DATA_CREATE for the consecutive PA, IPA and source address that
    succeeded, at once or after the missing tables had been made, each with success; or
    one that was refused for a table entry which the RMM reports as in use. *)
Theorem map_protected_covers_region pa ipa size src h :
  registers_u64 → ok_host h → 0 ≤ size →
  let n := Z.to_nat (size / PAGE_SIZE) in
  fits pa n → fits ipa n → fits src n →
  runs null_only (val_host_map_protected_data pa ipa size src) h (λ r h',
    if ADDR_IS_ALIGNED ipa size && ((size =? PAGE_SIZE) || (size =? VAL_RTT_L2_BLOCK_SIZE))
    then r = VAL_SUCCESS ∧ (∃ xs, talks h h' xs ∧
           region_mapped (r_rd (h_realm h)) pa ipa src (if size =? PAGE_SIZE then 3 else 2) 0 n xs) ∨
         r = VAL_ERROR ∧ ∃ cs, steps h h' cs
    else r = VAL_ERROR ∧ talks h h' []).
Proof.
  intros Hreg Hok Hsz n Hp Hi Hs. unfold val_host_map_protected_data.
  eapply runs_step; [reflexivity|].
  destruct (ADDR_IS_ALIGNED ipa size); cbn [negb andb].
  2: { apply runs_ret. split; [done|by apply talks_refl]. }
  unfold map_level_of.
  assert (∀ ml, 0 ≤ ml ≤ 3 → size = Z.of_nat n * PAGE_SIZE →
    runs null_only
      (map_protected_loop (pages size) (r_rd (h_realm h)) pa ipa src 0 size ml) h
      (λ r h', r = VAL_SUCCESS ∧ (∃ xs, talks h h' xs ∧ region_mapped (r_rd (h_realm h)) pa ipa src ml 0 n xs) ∨
               r = VAL_ERROR ∧ ∃ cs, steps h h' cs)) as Hloop.
  { intros ml Hml E.
    pose proof (map_protected_loop_spec (r_rd (h_realm h)) pa ipa src ml n 0 (pages size) h
      Hreg Hml eq_refl Hp Hi Hs ltac:(lia)) as HL.
    rewrite !Z.mul_0_l, !Z.add_0_r, <- E, Nat.sub_0_r in HL. apply HL; [|done]. unfold pages. fold n. lia. }
  destruct (Z.eqb_spec size PAGE_SIZE) as [->|]; [by apply Hloop|].
  destruct (Z.eqb_spec size VAL_RTT_L2_BLOCK_SIZE) as [->|]; [by apply Hloop|].
  apply runs_ret. split; [done|by apply talks_refl].
Qed.

(** * Two defects *)

Lemma delegate_room addr h :
  ok_host h → heap_room (h_gs h) → x0 (reply (cmd_args (CGranuleDelegate addr)) h) = 0 →
  run_to (val_host_rmi_granule_delegate addr) h (λ st h',
    st = 0 ∧ steps h h' [cmd_args (CGranuleDelegate addr)]).
Proof.
  intros Hok Hr Hx. pose proof (runs_delegate addr h Hok) as Hd. unfold run_to, runs in *.
  change (val_host_rmi_granule_delegate addr) with (run_cmd (CGranuleDelegate addr)) in *.
  rewrite run_cmd_body in *. unfold cmd_body in *. rewrite Hx in *. cbn [truthy Z.eqb negb] in *.
  destruct Hok as [L Hw].
  unfold bind, tracker, zoom in *. rewrite after_smc_gs in *.
  destruct (add_new_spec (h_gs h) L GRANULE_DELEGATED addr Hw) as [[_ Ha]|[Ha _]]; [|done].
  apply run_to_Ok in Ha as ([] & g & E & _).
  unfold track in *. cbn [cmd_track exec] in *. rewrite E in *. cbn in *. by split; [|apply Hd].
Qed.

Lemma cmd_refused c h :
  truthy (x0 (reply (cmd_args c) h)) = true →
  run_cmd c h = Ok (x0 (reply (cmd_args c) h)) (after_smc (cmd_args c) h).
Proof. intros E. rewrite run_cmd_body. unfold cmd_body. by rewrite E. Qed.

Lemma pack_fields level :
  0 ≤ level < 256 →
  RMI_STATUS (PACK_CODE RMI_ERROR_RTT level) = RMI_ERROR_RTT ∧
  RMI_INDEX (PACK_CODE RMI_ERROR_RTT level) = level ∧
  truthy (PACK_CODE RMI_ERROR_RTT level) = true.
Proof.
  intros Hl. rewrite RMI_STATUS_mod, RMI_INDEX_div. unfold truthy.
  rewrite PACK_CODE_add by (unfold RMI_ERROR_RTT; lia). unfold RMI_ERROR_RTT. split_and!.
  - rewrite Z.add_comm, Z_mod_plus_full. done.
  - rewrite Z.div_add_l by lia. change (4 / 2 ^ 8) with 0. rewrite Z.add_0_r. apply Z.mod_small. lia.
  - zb; done || lia.
Qed.

(** The block after a missing table, on an entry that is in use. *)
Lemma rtt_retry_in_use ret1 level ipa map_level al start cmd h :
  RMI_STATUS ret1 = RMI_ERROR_RTT → RMI_INDEX ret1 = level →
  let read := read_entry (r_rd (h_realm h)) ipa level in
  x0 (reply read h) = 0 → x2 (reply read h) ≠ RMI_UNASSIGNED →
  rtt_retry ret1 ipa map_level al start cmd h = Ok (Done 0) (after_smc read h).
Proof.
  intros Es Ei read E0 E2. unfold rtt_retry. rewrite Es, Ei, Z.eqb_refl.
  rewrite (bind_step _ _ _ (r_rd (h_realm h)) h) by done.
  unfold val_host_rmi_rtt_read_entry. rewrite bind_assoc.
  rewrite (bind_step _ _ _ _ _ (val_smc_call_eq _ _ _ _ _ _ _ _ _ _ _ h)).
  fold (read_entry (r_rd (h_realm h)) ipa level). fold read. rewrite bind_ret_l, E0. cbn.
  by rewrite (proj2 (Z.eqb_neq _ _) E2).
Qed.

(** When DATA_CREATE of a page is refused with RMI_ERROR_RTT and the entry
    at which the walk stopped is not UNASSIGNED (the IPA is already mapped, for
    instance), [val_host_map_protected_data] reports VAL_SUCCESS: the status of
    RTT_READ_ENTRY has overwritten that of DATA_CREATE.  The refused command is
    the only DATA_CREATE issued. *)
Theorem map_protected_hides_refusal pa ipa src level h :
  let rd := r_rd (h_realm h) in
  let create := cmd_args (CDataCreate rd pa ipa src RMI_NO_MEASURE_CONTENT) in
  let read := read_entry rd ipa level in
  ok_host h → heap_room (h_gs h) → ADDR_IS_ALIGNED ipa PAGE_SIZE = true → 0 ≤ level < 256 →
  (∀ w m, x0 (smc w m (cmd_args (CGranuleDelegate pa))).2 = 0) →
  (∀ w m, x0 (smc w m create).2 = PACK_CODE RMI_ERROR_RTT level) →
  (∀ w m, x0 (smc w m read).2 = 0 ∧ x2 (smc w m read).2 ≠ RMI_UNASSIGNED) →
  run_to (val_host_map_protected_data pa ipa PAGE_SIZE src) h (λ r h',
    r = VAL_SUCCESS ∧ cmds h' = cmds h ++ [cmd_args (CGranuleDelegate pa); create; read]).
Proof.
  intros rd create read Hok Hroom Hal Hlv Hdel Hcre Hread.
  destruct (pack_fields level Hlv) as (Es & Ei & Et).
  unfold val_host_map_protected_data. eapply run_to_step; [reflexivity|]. rewrite Hal.
  change (map_level_of PAGE_SIZE) with (Some 3). change (pages PAGE_SIZE) with 2%nat.
  cbn [negb map_protected_loop]. fold rd.
  eapply run_to_bind; [apply delegate_room; [done|done|apply Hdel]|].
  intros st h1 [-> S1]. cbn [truthy Z.eqb negb].
  assert (x0 (reply create h1) = PACK_CODE RMI_ERROR_RTT level) as Ec by (apply Hcre).
  eapply run_to_step.
  { apply (cmd_refused (CDataCreate rd pa ipa src RMI_NO_MEASURE_CONTENT)).
    fold create. by rewrite Ec. }
  fold create. rewrite Ec. set (h2 := after_smc create h1).
  pose proof (steps_trans _ _ _ _ _ S1 (smc_steps create h1 (st_ok _ _ _ S1))) as S2. fold h2 in S2.
  assert (r_rd (h_realm h2) = rd) as Erd by (by rewrite (st_realm _ _ _ S2)).
  eapply run_to_step.
  { apply (rtt_retry_in_use _ level); [done|done| |]; rewrite Erd; apply Hread. }
  rewrite Erd. fold read.
  pose proof (steps_trans _ _ _ _ _ S2 (smc_steps read h2 (st_ok _ _ _ S2))) as S3.
  cbn [truthy Z.eqb negb]. change (u64 (0 + PAGE_SIZE) <? PAGE_SIZE) with false.
  apply run_to_ret. split; [done|]. apply S3.
Qed.

(** [val_host_ripas_init] never advances the base of the range: when the
    RMM initialises part of the range and reports success with a top below the
    one asked for, the same command is issued again, and if the RMM keeps
    giving that answer the loop runs out of every fuel. *)
Theorem ripas_init_no_progress base top level al rd :
  (∀ w m, let r := (smc w m (mk_smc RMI_RTT_INIT_RIPAS rd base top 0 0 0 0 0 0 0)).2 in
          x0 r = 0 ∧ x1 r ≠ top) →
  ∀ fuel h, r_rd (h_realm h) = rd → val_host_ripas_init fuel base top level al h = NoFuel.
Proof.
  intros Hsmc fuel. induction fuel as [|fuel IH]; intros h Hrd; [done|]. cbn [val_host_ripas_init].
  rewrite (bind_step _ _ _ rd h) by (unfold realm, gets; by rewrite Hrd).
  unfold val_host_rmi_rtt_init_ripas. rewrite bind_assoc.
  rewrite (bind_step _ _ _ _ _ (val_smc_call_eq _ _ _ _ _ _ _ _ _ _ _ h)).
  set (args := mk_smc _ _ _ _ _ _ _ _ _ _ _).
  destruct (Hsmc (h_world h) (h_mem h)) as [E0 E1]. fold args in E0, E1. fold (reply args h) in E0, E1.
  rewrite bind_ret_l, E0. cbn [truthy Z.eqb negb]. change (RMI_STATUS 0 =? RMI_ERROR_RTT) with false.
  cbn [andb]. rewrite (proj2 (Z.eqb_neq _ _) E1). apply IH. by rewrite after_smc_realm.
Qed.
End MapFacts.

(** * Witnesses *)

Lemma create_rtt_levels_exact_witness :
  runs null_only (val_host_create_rtt_levels 0x40201000 1 3 PAGE_SIZE) (host1 []) (λ r h',
    levels_result 7 0x40201000 1 3 r (host1 []) h').
Proof.
  apply (create_rtt_levels_exact 0x40201000 1 3 (host1 [])); [by vm_compute|lia|lia|apply host1_ok].
Defined.

Lemma rollback_skips_first_page_witness :
  runs null_only (map_rollback 3 7 0x12000 0x4002000 0x2000) (host1 [answer 1 0; answer 0 0])
    (λ r h', r = VAL_ERROR ∧ steps (host1 [answer 1 0; answer 0 0]) h' (undo_pages 7 0x10000 0x4000000 2) ∧
       (cmd_args (CGranuleUndelegate 0x10000) ∉ undo_pages 7 0x10000 0x4000000 2) ∧
       (cmd_args (CDataDestroy 7 0x4000000) ∉ undo_pages 7 0x10000 0x4000000 2)).
Proof.
  apply (rollback_skips_first_page 7 0x10000 0x4000000 2);
    [by vm_compute|by vm_compute|apply host1_ok].
Defined.

Lemma map_protected_covers_region_witness :
  runs null_only (@val_host_map_protected_data unit accepting 0x10000 0x4000000 PAGE_SIZE 0x20000)
    (host1 tt) (λ r h',
      r = VAL_SUCCESS ∧ (∃ xs, @talks unit accepting (host1 tt) h' xs ∧ region_mapped 7 0x10000 0x4000000 0x20000 3 0 1 xs) ∨
      r = VAL_ERROR ∧ ∃ cs, steps (host1 tt) h' cs).
Proof.
  apply (@map_protected_covers_region unit accepting 0x10000 0x4000000 PAGE_SIZE 0x20000 (host1 tt)).
  - intros w m a. by vm_compute.
  - apply host1_ok.
  - by vm_compute.
  - by vm_compute.
  - by vm_compute.
  - by vm_compute.
Defined.

(** Refuse DATA_CREATE with RMI_ERROR_RTT at level 3 and report entries in use. *)
Definition in_use (a : val_smc_param_ts) : val_smc_param_ts :=
  if x0 a =? RMI_DATA_CREATE then answer (PACK_CODE RMI_ERROR_RTT 3) 0
  else if x0 a =? RMI_RTT_READ_ENTRY then mk_smc 0 3 1 0 0 0 0 0 0 0 0
  else answer 0 0.

Lemma map_protected_hides_refusal_witness :
  run_to (@val_host_map_protected_data unit (responding in_use) 0x10000 0x4000000 PAGE_SIZE 0x20000)
    (host1 tt) (λ r h', r = VAL_SUCCESS ∧ cmds h' = cmds (host1 tt) ++
      [cmd_args (CGranuleDelegate 0x10000);
       cmd_args (CDataCreate 7 0x10000 0x4000000 0x20000 RMI_NO_MEASURE_CONTENT);
       read_entry 7 0x4000000 3]).
Proof.
  apply (@map_protected_hides_refusal unit (responding in_use) 0x10000 0x4000000 0x20000 3 (host1 tt)).
  - apply host1_ok.
  - vm_compute. discriminate.
  - by vm_compute.
  - lia.
  - done.
  - done.
  - intros w m. split; [done|]. by vm_compute.
Defined.

Lemma ripas_init_no_progress_witness :
  @val_host_ripas_init unit (responding (λ _, answer 0 0x200000)) 100 0 0x400000 3 PAGE_SIZE
    (host1 tt) = NoFuel.
Proof.
  apply (@ripas_init_no_progress unit (responding (λ _, answer 0 0x200000)) 0 0x400000 3 PAGE_SIZE 7).
  - intros w m. by vm_compute.
  - reflexivity.
Defined.
