(* ===== verification/LifeFacts.v ===== *)
(** Properties of the creation and setup of a Realm. *)
From S2P Require Import Prelude Defs Alloc Granule GranuleInv GranuleSpec Host Rmi RealmMap RealmLife.
From S2P Require Import RmiFacts HostFacts.

(** The sizes of the arrays of the Realm structure. *)
Record realm_wf (r : val_host_realm_ts) : Prop := {
  rw_rec : Z.of_nat (length (r_rec r)) = VAL_MAX_REC_COUNT;
  rw_run : Z.of_nat (length (r_run r)) = VAL_MAX_REC_COUNT;
  rw_aux : Z.of_nat (length (r_rec_aux_granules r)) = VAL_MAX_REC_AUX_GRANULES * VAL_MAX_REC_COUNT
}.

Lemma realm_zero_wf : realm_wf realm_zero.
Proof. by split. Qed.

Section LifeFacts.
Context {W : Type} `{RMM W}.
Implicit Types h : host W.

(** The number of REC_CREATE commands issued. *)
Definition rec_creates h : nat :=
  length (filter (λ a, x0 a = RMI_REC_CREATE) (cmds h)).

(** What the iterations of [val_host_rec_create] keep, with [k] RECs created. *)
Record rec_inv (h h' : host W) (k : nat) : Prop := {
  ri_ok : ok_host h';
  ri_realm : realm_wf (h_realm h');
  ri_count : rec_creates h' = (rec_creates h + k)%nat
}.

Lemma steps_inv h h1 h2 cs k :
  rec_inv h h1 k → steps h1 h2 cs →
  rec_inv h h2 (k + length (filter (λ a, x0 a = RMI_REC_CREATE) cs)).
Proof.
  intros [Hok Hr Hc] [Hok2 Hr2 Hc2]. split; [done|by rewrite Hr2|].
  unfold rec_creates in *. rewrite Hc2, filter_app, length_app. lia.
Qed.

Lemma steps_inv_0 h h1 h2 cs k :
  filter (λ a, x0 a = RMI_REC_CREATE) cs = [] → rec_inv h h1 k → steps h1 h2 cs → rec_inv h h2 k.
Proof.
  intros Hf Hi Hs. pose proof (steps_inv _ _ _ _ _ Hi Hs) as Hx. rewrite Hf in Hx. cbn in Hx.
  by rewrite Nat.add_0_r in Hx.
Qed.

Lemma mem_inv h h1 k m : rec_inv h h1 k → rec_inv h (hset_mem m h1) k.
Proof. intros Hi. eapply (steps_inv_0 h h1 _ []); [done|done|]. apply steps_mem, Hi. Qed.

(** Writing an element of an array of the Realm structure. *)
Lemma arr_set_inv {A} (f : val_host_realm_ts → list A) put i v h h1 k :
  rec_inv h h1 k → 0 ≤ i < Z.of_nat (length (f (h_realm h1))) →
  (∀ r l, realm_wf r → length l = length (f r) → realm_wf (put l r)) →
  runs null_only (arr_set f put i v) h1 (λ _ h', rec_inv h h' k ∧ r_rd (h_realm h') = r_rd (put (<[Z.to_nat i := v]> (f (h_realm h1))) (h_realm h1))).
Proof.
  intros [Hok Hr Hc] Hi Hput. unfold arr_set. eapply runs_step; [reflexivity|].
  rewrite (proj2 (Z.ltb_lt _ _) (proj2 Hi)). unfold set_realm, modify, runs. cbn.
  split; [|done]. split; [done| |done]. cbn. apply Hput; [done|]. by rewrite length_insert.
Qed.

Lemma arr_get_inv {A} (f : val_host_realm_ts → list A) i h :
  0 ≤ i < Z.of_nat (length (f (h_realm h))) →
  runs null_only (arr_get f i) h (λ _ h', h' = h).
Proof.
  intros Hi. unfold arr_get. eapply runs_step; [reflexivity|].
  destruct (lookup_lt_is_Some_2 (f (h_realm h)) (Z.to_nat i)) as [v ->]; [lia|]. done.
Qed.

Lemma wf_rset_run r l : realm_wf r → length l = length (r_run r) → realm_wf (rset_run l r).
Proof. intros [] E. split; cbn; [done|by rewrite E|done]. Qed.
Lemma wf_rset_rec r l : realm_wf r → length l = length (r_rec r) → realm_wf (rset_rec l r).
Proof. intros [] E. split; cbn; [by rewrite E|done|done]. Qed.
Lemma wf_rset_aux r l :
  realm_wf r → length l = length (r_rec_aux_granules r) → realm_wf (rset_rec_aux_granules l r).
Proof. intros [] E. split; cbn; [done|done|by rewrite E]. Qed.

(** Close a goal [rec_inv] with a hypothesis, up to conversion. *)
Ltac by_inv := match goal with Hx : _ |- rec_inv _ _ _ => exact Hx end.

(** A page from the allocator. *)
Lemma page_inv h h1 k :
  rec_inv h h1 k → runs null_only (mem_alloc_h PAGE_SIZE PAGE_SIZE) h1 (λ _ h', rec_inv h h' k).
Proof.
  intros Hi. eapply runs_mono; [apply runs_alloc; [apply Hi|by vm_compute..]|].
  intros p h' [Hs _]. by (eapply steps_inv_0; [|exact Hi|exact Hs]).
Qed.

Lemma free_inv p h h1 k :
  rec_inv h h1 k → runs null_only (mem_free_h p) h1 (λ _ h', rec_inv h h' k).
Proof.
  intros Hi. eapply runs_mono; [apply runs_free, Hi|]. intros ? h' Hs. by (eapply steps_inv_0; [|exact Hi|exact Hs]).
Qed.

Lemma delegate_inv a h h1 k :
  rec_inv h h1 k → runs null_only (val_host_rmi_granule_delegate a) h1 (λ _ h', rec_inv h h' k).
Proof.
  intros Hi. eapply runs_mono; [apply runs_delegate, Hi|]. intros ? h' [Hs _]. by (eapply steps_inv_0; [|exact Hi|exact Hs]).
Qed.

Lemma undelegate_inv a h h1 k :
  rec_inv h h1 k → runs null_only (val_host_rmi_granule_undelegate a) h1 (λ _ h', rec_inv h h' k).
Proof.
  intros Hi. eapply runs_mono; [apply runs_undelegate, Hi|]. intros ? h' [Hs _]. by (eapply steps_inv_0; [|exact Hi|exact Hs]).
Qed.

Lemma store_inv a v h h1 k :
  rec_inv h h1 k → runs null_only (store a v) h1 (λ _ h', rec_inv h h' k).
Proof. intros Hi. by apply (mem_inv h h1 k). Qed.

(** The allocation and delegation of one auxiliary granule. *)
Lemma aux_body_inv rec_params aux_count i h j h1 k :
  0 ≤ i < VAL_MAX_REC_COUNT → 0 ≤ aux_count ≤ VAL_MAX_REC_AUX_GRANULES → 0 ≤ j < aux_count →
  rec_inv h h1 k →
  runs null_only (
    let* a := mem_alloc_h PAGE_SIZE PAGE_SIZE in
    store (rec_params + CP_aux j) a ;;
    if a =? 0 then ret (Some tt)
    else
      let* r := val_host_rmi_granule_delegate a in
      if truthy r then ret (Some tt)
      else
        arr_set r_rec_aux_granules rset_rec_aux_granules (j + i * aux_count) a ;;
        ret None) h1 (λ _ h', rec_inv h h' k).
Proof.
  intros Hi Ha Hj Hinv. eapply runs_bind; [eapply page_inv; by_inv|]. intros a h2 H2.
  eapply runs_bind; [eapply store_inv; by_inv|]. intros ? h3 H3.
  destruct (a =? 0); [by apply runs_ret|].
  eapply runs_bind; [eapply delegate_inv; by_inv|]. intros r h4 H4.
  destruct (truthy r); [by apply runs_ret|].
  eapply runs_bind; [apply (arr_set_inv _ _ _ _ h h4 k); [done| |apply wf_rset_aux]|].
  - rewrite (rw_aux _ (ri_realm _ _ _ H4)).
    unfold VAL_MAX_REC_AUX_GRANULES, VAL_MAX_REC_COUNT in *. nia.
  - intros ? h5 [H5 _]. by apply runs_ret.
Qed.

Lemma create_one_rec_inv rec_params aux_count i h h1 k :
  0 ≤ i < VAL_MAX_REC_COUNT → 0 ≤ aux_count ≤ VAL_MAX_REC_AUX_GRANULES → rec_inv h h1 k →
  runs null_only (create_one_rec rec_params aux_count i) h1 (λ r h',
    ∃ k', rec_inv h h' k' ∧ (r = None → k' = S k)).
Proof.
  intros Hi Ha Hinv. unfold create_one_rec.
  assert (∀ h', rec_inv h h' k → ∃ k', rec_inv h h' k' ∧ (Some tt = None → k' = S k)) as Hfail.
  { intros h' Hx. by exists k. }
  eapply runs_bind; [eapply store_inv; by_inv|]. intros ? h2 H2.
  eapply runs_bind; [eapply store_inv; by_inv|]. intros ? h3 H3.
  eapply runs_bind; [eapply page_inv; by_inv|]. intros run h4 H4.
  eapply runs_bind; [apply (arr_set_inv _ _ _ _ h h4 k); [done| |apply wf_rset_run]|].
  { by rewrite (rw_run _ (ri_realm _ _ _ H4)). }
  intros ? h5 [H5 _]. destruct (run =? 0); [apply runs_ret; by apply Hfail|].
  eapply runs_step; [reflexivity|].
  eapply runs_bind; [apply page_inv, mem_inv, H5|]. intros rec h6 H6.
  eapply runs_bind; [apply (arr_set_inv _ _ _ _ h h6 k); [done| |apply wf_rset_rec]|].
  { by rewrite (rw_rec _ (ri_realm _ _ _ H6)). }
  intros ? h7 [H7 _]. destruct (rec =? 0); [apply runs_ret; by apply Hfail|].
  eapply runs_bind; [eapply delegate_inv; by_inv|]. intros r h8 H8.
  destruct (truthy r); [apply runs_ret; by apply Hfail|].
  eapply runs_bind.
  { apply (for_upto_runs null_only (λ h', rec_inv h h' k)); [|done]. intros j h9 Hj H9.
    by apply aux_body_inv. }
  intros [v|] h9 H9; [apply runs_ret; by apply Hfail|].
  eapply runs_step; [reflexivity|].
  eapply runs_bind; [apply runs_rec_create, H9|]. intros st h10 [S10 _]. apply runs_ret.
  exists (S k). split; [|done].
  pose proof (steps_inv _ _ _ _ _ H9 S10) as Hx.
  change (length (filter _ [_])) with 1%nat in Hx. by rewrite Nat.add_1_r in Hx.
Qed.

Lemma rec_loop_inv rec_params aux_count n i h h1 k :
  0 ≤ i → i + Z.of_nat n ≤ VAL_MAX_REC_COUNT → 0 ≤ aux_count ≤ VAL_MAX_REC_AUX_GRANULES →
  rec_inv h h1 k →
  runs null_only (rec_loop n rec_params aux_count i) h1 (λ r h', ∃ k', rec_inv h h' k' ∧
    match r with Some j => i ≤ j < VAL_MAX_REC_COUNT | None => k' = (k + n)%nat end).
Proof.
  revert i h1 k. induction n as [|n IH]; intros i h1 k Hi Hn Ha Hinv; cbn [rec_loop].
  - apply runs_ret. exists k. split; [done|lia].
  - eapply runs_bind; [apply create_one_rec_inv; [lia|done|done]|].
    intros [u|] h2 (k2 & H2 & Hk2).
    + apply runs_ret. exists k2. split; [done|lia].
    + rewrite (Hk2 eq_refl) in H2. eapply runs_mono; [apply IH; [lia|lia|done|done]|].
      intros r h' (k' & H' & Hr). exists k'. split; [done|]. destruct r; lia.
Qed.

Lemma free_rec_loop_inv n i aux_count h h1 k :
  0 ≤ i < VAL_MAX_REC_COUNT → Z.of_nat n ≤ i → 0 ≤ aux_count ≤ VAL_MAX_REC_AUX_GRANULES →
  rec_inv h h1 k →
  runs null_only (free_rec_loop n i aux_count) h1 (λ _ h', rec_inv h h' k).
Proof.
  revert i h1. induction n as [|n IH]; intros i h1 Hi Hn Ha Hinv; cbn [free_rec_loop]; [by apply runs_ret|].
  eapply runs_bind; [apply arr_get_inv; by rewrite (rw_rec _ (ri_realm _ _ _ Hinv))|].
  intros rec ? ->. eapply runs_bind; [eapply undelegate_inv; by_inv|]. intros ? h2 H2.
  eapply runs_bind; [eapply free_inv; by_inv|]. intros ? h3 H3.
  eapply runs_bind; [apply arr_get_inv; by rewrite (rw_run _ (ri_realm _ _ _ H3))|].
  intros run ? ->. eapply runs_bind; [eapply free_inv; by_inv|]. intros ? h4 H4.
  eapply runs_bind.
  { apply (for_upto_runs null_only (λ h', rec_inv h h' k)); [|exact H4]. intros j h5 Hj H5.
    eapply runs_bind.
    { apply arr_get_inv. rewrite (rw_aux _ (ri_realm _ _ _ H5)).
      unfold VAL_MAX_REC_AUX_GRANULES, VAL_MAX_REC_COUNT in *. nia. }
    intros ga ? ->. eapply runs_bind; [eapply undelegate_inv; by_inv|]. intros ? h6 H6.
    eapply runs_bind; [eapply free_inv; by_inv|]. intros ? h7 H7. by apply runs_ret. }
  intros ? h5 H5. apply IH; [lia|lia|done|by_inv].
Qed.

(** C28. [val_host_rec_create] ends for every RMM and never indexes the arrays
    [rec], [run] and [rec_aux_granules] out of range, on the error path either:
    the guards on [rec_count] and on the RMM's count of auxiliary granules are
    enough.  More RECs than the arrays hold is refused before any command, and
    success means that exactly [rec_count] REC_CREATE commands were issued. *)
Theorem rec_create_in_bounds h :
  (∀ w m a, is_u64 (x1 (smc w m a).2)) →
  ok_host h → realm_wf (h_realm h) → 0 ≤ r_rec_count (h_realm h) →
  runs null_only val_host_rec_create h (λ r h',
    realm_wf (h_realm h') ∧ ok_host h' ∧
    (r = VAL_SUCCESS ∧ Z.of_nat (rec_creates h') = Z.of_nat (rec_creates h) + r_rec_count (h_realm h) ∨
     r = VAL_ERROR) ∧
    (VAL_MAX_REC_COUNT < r_rec_count (h_realm h) → r = VAL_ERROR ∧ h' = h)).
Proof.
  intros Hreg Hok Hwf Hc. assert (rec_inv h h 0) as H0 by (split; [done|done|lia]).
  unfold val_host_rec_create. eapply runs_step; [reflexivity|].
  destruct (Z.ltb_spec VAL_MAX_REC_COUNT (r_rec_count (h_realm h))) as [Hgt|Hle].
  { apply runs_ret. split; [done|]. split; [done|]. split; [by right|done]. }
  assert (∀ r h' k, rec_inv h h' k → r = VAL_ERROR → realm_wf (h_realm h') ∧ ok_host h' ∧
    (r = VAL_SUCCESS ∧ Z.of_nat (rec_creates h') = Z.of_nat (rec_creates h) + r_rec_count (h_realm h) ∨
     r = VAL_ERROR) ∧
    (VAL_MAX_REC_COUNT < r_rec_count (h_realm h) → r = VAL_ERROR ∧ h' = h)) as Herr.
  { intros r h' k [] ->. split; [done|]. split; [done|]. split; [by right|lia]. }
  eapply runs_step; [reflexivity|].
  unfold val_host_rmi_rec_aux_count.
  eapply runs_bind.
  { eapply runs_step; [apply val_smc_call_eq|]. apply runs_ret.
    instantiate (1 := λ p h', rec_inv h h' 0 ∧ 0 ≤ p.2). split; [|apply Hreg].
    eapply steps_inv_0; [|exact H0|by apply smc_steps]. done. }
  intros [r aux] h1 [H1 Haux]. cbn in Haux. destruct (truthy r); [apply runs_ret; eapply Herr; [by_inv|done]|].
  destruct (Z.ltb_spec VAL_MAX_REC_AUX_GRANULES aux) as [|Hax]; [apply runs_ret; eapply Herr; [by_inv|done]|].
  eapply runs_bind; [eapply page_inv; by_inv|]. intros params h2 H2.
  destruct (params =? 0); [apply runs_ret; eapply Herr; [by_inv|done]|].
  eapply runs_step; [reflexivity|].
  eapply runs_bind; [eapply store_inv, mem_inv; by_inv|]. intros ? h3 H3.
  eapply runs_step; [reflexivity|].
  assert (rec_inv h (hset_realm (rset_aux_count aux (h_realm h3)) h3) 0) as H4.
  { destruct H3 as [? [] ?]. by split; [|split|]. }
  eapply runs_bind.
  { apply (for_upto_runs (R := Empty_set) null_only (λ h', rec_inv h h' 0)); [|exact H4]. intros j h5 Hj H5.
    eapply runs_bind; [eapply store_inv; by_inv|]. intros ? h6 H6. by apply runs_ret. }
  intros ? h5 H5. eapply runs_bind; [eapply store_inv; by_inv|]. intros ? h6 H6.
  eapply runs_bind; [apply (rec_loop_inv params aux _ 0 h h6 0); [lia| |lia|by_inv]|].
  { rewrite Z2Nat.id by done. lia. }
  intros [i|] h7 (k & H7 & Hr).
  - unfold free_rec_params.
    eapply runs_bind; [apply (free_rec_loop_inv _ _ _ h h7 k); [lia|lia|lia|done]|]. intros ? h8 H8.
    eapply runs_bind; [eapply free_inv; by_inv|]. intros ? h9 H9. apply runs_ret. eapply Herr; [by_inv|done].
  - eapply runs_bind; [eapply free_inv; by_inv|]. intros ? h8 H8. apply runs_ret.
    destruct H8 as [Hok8 Hwf8 Hc8]. split; [done|]. split; [done|]. split; [left|lia]. split; [done|].
    rewrite Hc8, Hr. lia.
Qed.

(** * A Realm that cannot be created *)

Lemma mem_alloc_h_eq al sz h p a :
  val_host_mem_alloc al sz (g_alloc (h_gs h)) = (p, a) →
  mem_alloc_h al sz h = Ok p (hset_gs (set_alloc a (h_gs h)) h).
Proof. intros E. unfold mem_alloc_h, tracker, allocator, zoom. by rewrite E. Qed.

(** If the starting level tables of a new Realm cannot be allocated (as for
    every number of tables that is not a power of two), [val_host_realm_create]
    jumps to [undelegate_rd] before an RD has been allocated, and issues
    GRANULE_UNDELEGATE for whatever the member [rd] held before the call. *)
Theorem failed_create_undelegates_stale_rd h p a :
  ok_host h → r_num_aux_planes (h_realm h) = 0 →
  val_host_mem_alloc PAGE_SIZE PLATFORM_REALM_IMAGE_SIZE (g_alloc (h_gs h)) = (p, a) → p ≠ 0 →
  val_is_power_of_2 (u32 (r_num_s2_sl_rtts (h_realm h) * PAGE_SIZE)) = false →
  runs null_only val_host_realm_create h (λ r h',
    r = VAL_ERROR ∧
    cmds h' = cmds h ++ [cmd_args (CGranuleUndelegate (r_rd (h_realm h)))]).
Proof.
  intros Hok Hpl Hal Hp Hn2. unfold val_host_realm_create.
  do 3 (eapply runs_step; [reflexivity|]).
  eapply runs_step; [apply mem_alloc_h_eq; exact Hal|].
  eapply runs_step; [reflexivity|]. rewrite (proj2 (Z.eqb_neq p 0)) by done.
  eapply runs_step; [reflexivity|].
  eapply (runs_step _ _ _ _ None); [cbn; by rewrite Hpl|].
  eapply runs_step; [reflexivity|]. cbn [h_realm hset_realm hset_gs r_num_s2_sl_rtts rset_image_pa_base
    rset_state rset_image_pa_size].
  set (n := u32 _) in *. set (h1 := hset_realm _ _).
  eapply (runs_step _ _ _ _ 0).
  { apply mem_alloc_h_eq. unfold val_host_mem_alloc. destruct (n <=? 0); [reflexivity|].
    replace (u32 n) with n by (unfold n, u32; by rewrite Z.mod_mod). rewrite Hn2. reflexivity. }
  eapply runs_step; [reflexivity|]. cbn [Z.eqb]. unfold undelegate_rd.
  eapply runs_step; [reflexivity|]. set (h2 := hset_realm (rset_rtt_l0_addr 0 _) _).
  change (r_rd (h_realm h2)) with (r_rd (h_realm h)).
  assert (ok_host h2) as Hok2.
  { pose proof (runs_alloc null_only PAGE_SIZE PLATFORM_REALM_IMAGE_SIZE h Hok ltac:(unfold PAGE_SIZE; lia)
      ltac:(split; by vm_compute)) as Ha. unfold runs in Ha. rewrite (mem_alloc_h_eq _ _ _ _ _ Hal) in Ha.
    destruct Ha as [[[L Hw] _ _] _]. exists L. exact Hw. }
  eapply runs_bind; [by apply runs_undelegate|]. intros st h3 [S3 _]. unfold free_rd.
  eapply runs_step; [reflexivity|].
  eapply runs_bind; [apply runs_free, S3|]. intros ? h4 S4. unfold free_par.
  eapply runs_step; [reflexivity|].
  eapply runs_bind; [apply runs_free, S4|]. intros ? h5 S5.
  eapply runs_step; [reflexivity|].
  pose proof (steps_trans _ _ _ _ _ S3 (steps_trans _ _ _ _ _ S4 S5)) as S.
  eapply (runs_step _ _ _ _ None); [rewrite (st_realm _ _ _ S); cbn; by rewrite Hpl|].
  apply runs_ret. split; [done|]. rewrite (st_cmds _ _ _ S). by rewrite !app_nil_r.
Qed.

(** * Tables of mapped regions *)

(** The table [granules] of the Realm structure has 25 entries and
    [val_host_map_ns_shared_region], like the functions that map images and the
    shared region, writes the next one without a test: with the table full, a
    mapping that succeeded ends in a write past the array.
    [val_host_dev_mem_map], with its own table of 64 entries, tests first and
    returns VAL_ERROR without a command. *)
Theorem mapped_table_overflow size attr h p a vdev base top pa :
  length (r_granules (h_realm h)) = Z.to_nat VAL_MAX_GRANULES_MAP →
  r_granules_mapped_count (h_realm h) = VAL_MAX_GRANULES_MAP →
  0 < size < PAGE_SIZE →
  val_host_mem_alloc PAGE_SIZE size (g_alloc (h_gs h)) = (p, a) → p ≠ 0 →
  r_dev_granules_mapped_count (h_realm h) = VAL_MAX_DEV_GRANULES_MAP →
  val_host_map_ns_shared_region size attr h = Fault OutOfBounds ∧
  val_host_dev_mem_map vdev base top pa h = Ok VAL_ERROR h.
Proof.
  intros Hlen Hcnt Hsz Hal Hp Hdev. split.
  - unfold val_host_map_ns_shared_region. rewrite (bind_step _ _ _ _ _ (mem_alloc_h_eq _ _ _ _ _ Hal)).
    rewrite (proj2 (Z.eqb_neq p 0)) by done.
    rewrite (bind_step _ _ _ (r_s2sz (h_realm h)) (hset_gs (set_alloc a (h_gs h)) h)) by done.
    assert (size / PAGE_SIZE = 0) as E by (apply Z.div_small; lia).
    unfold pages. rewrite E. cbn [Z.to_nat map_ns_shared_loop]. rewrite E. cbn [Z.ltb Z.compare].
    rewrite bind_ret_l. cbn [negb]. unfold record_mapped. rewrite bind_assoc.
    rewrite (bind_step _ _ _ VAL_MAX_GRANULES_MAP (hset_gs (set_alloc a (h_gs h)) h))
      by (unfold realm, gets; cbn; by rewrite Hcnt).
    rewrite bind_assoc. unfold arr_set. rewrite bind_assoc.
    rewrite (bind_step _ _ _ (r_granules (h_realm h)) (hset_gs (set_alloc a (h_gs h)) h)) by done.
    by rewrite Hlen.
  - unfold val_host_dev_mem_map. destruct (_ || _); [done|].
    rewrite (bind_step _ _ _ VAL_MAX_DEV_GRANULES_MAP h) by (unfold realm, gets; by rewrite Hdev). done.
Qed.

(** * Activation *)

Lemma setup_true fuel h :
  val_host_realm_setup fuel true h =
  (let* r := val_host_realm_setup fuel false in
   if truthy r then ret VAL_ERROR
   else
     let* r := val_host_realm_activate in
     if truthy r then ret VAL_ERROR else ret VAL_SUCCESS) h.
Proof.
  unfold val_host_realm_setup. unfold bind.
  repeat (match goal with
  | |- match ?m ?s with Ok _ _ => _ | Fault _ => _ | NoFuel => _ end = _ =>
      destruct (m s) as [? ?|?|]; [|done|done]
  | |- (if truthy ?r then _ else _) _ = _ => destruct (truthy r); [done|]
  | |- match ?r with Some _ => _ | None => _ end _ = _ => destruct r; [done|]
  end); done.
Qed.

(** Setting a Realm up with activation is setting it up without, followed,
    only if that succeeded, by one REALM_ACTIVATE command for the RD of the
    Realm; the Realm structure becomes ACTIVE exactly when the RMM accepts the
    command, and a refusal is reported as VAL_ERROR. *)
Theorem setup_activates_last fuel h :
  let activate h1 := mk_smc RMI_REALM_ACTIVATE (r_rd (h_realm h1)) 0 0 0 0 0 0 0 0 0 in
  val_host_realm_setup fuel true h =
  match val_host_realm_setup fuel false h with
  | Ok r h1 =>
      let h2 := after_smc (activate h1) h1 in
      if truthy r then Ok VAL_ERROR h1
      else if truthy (x0 (reply (activate h1) h1)) then Ok VAL_ERROR h2
      else Ok VAL_SUCCESS (hset_realm (rset_state REALM_STATE_ACTIVE (h_realm h1)) h2)
  | o => o
  end.
Proof.
  intros activate. rewrite setup_true. unfold bind at 1.
  destruct (val_host_realm_setup fuel false h) as [r h1|f|]; [|done|done].
  destruct (truthy r); [done|].
  unfold val_host_realm_activate. rewrite bind_assoc, (bind_step _ _ _ (r_rd (h_realm h1)) h1) by done.
  unfold val_host_rmi_realm_activate. rewrite !bind_assoc.
  rewrite (bind_step _ _ _ _ _ (val_smc_call_eq _ _ _ _ _ _ _ _ _ _ _ h1)).
  fold (activate h1). rewrite bind_ret_l.
  destruct (truthy (x0 (reply (activate h1) h1))); [done|].
  unfold bind, set_realm, modify, ret. cbn. by rewrite after_smc_realm.
Qed.
End LifeFacts.

(** * Witnesses *)

Definition host_recs : host unit := mk_host tt one_granule ∅ (rset_rec_count 2 realm_zero) [].

Lemma host_recs_ok : ok_host host_recs.
Proof. exists one_layout. apply one_granule_wf. Qed.

Lemma rec_create_in_bounds_witness :
  runs null_only (@val_host_rec_create unit accepting) host_recs (λ r h',
    realm_wf (h_realm h') ∧ ok_host h' ∧
    (r = VAL_SUCCESS ∧ Z.of_nat (rec_creates h') = Z.of_nat (rec_creates host_recs) + 2 ∨
     r = VAL_ERROR) ∧ (VAL_MAX_REC_COUNT < 2 → r = VAL_ERROR ∧ h' = host_recs)).
Proof.
  apply (@rec_create_in_bounds unit accepting host_recs).
  - intros w m a. by vm_compute.
  - apply host_recs_ok.
  - by split.
  - by vm_compute.
Defined.

(** Three starting level tables. *)
Definition host_three : host unit :=
  mk_host tt (gstate_init (val_host_mem_alloc_init heap1) ∅) ∅
    (rset_rd 0x77000 (rset_num_s2_sl_rtts 3 realm_zero)) [].

Lemma failed_create_undelegates_stale_rd_witness :
  runs null_only (@val_host_realm_create unit accepting) host_three (λ r h',
    r = VAL_ERROR ∧ cmds h' = cmds host_three ++ [cmd_args (CGranuleUndelegate 0x77000)]).
Proof.
  apply (@failed_create_undelegates_stale_rd unit accepting host_three 0x88500000
    (set_heap_base 0x88700fff (val_host_mem_alloc_init heap1))).
  - exists (λ _ _, []). apply wf_init. apply val_host_mem_alloc_init_wf.
  - reflexivity.
  - by vm_compute.
  - discriminate.
  - by vm_compute.
Defined.

Definition host_full : host unit :=
  mk_host tt (gstate_init (val_host_mem_alloc_init heap1) ∅) ∅
    (rset_granules_mapped_count VAL_MAX_GRANULES_MAP
      (rset_dev_granules_mapped_count VAL_MAX_DEV_GRANULES_MAP realm_zero)) [].

Lemma mapped_table_overflow_witness :
  @val_host_map_ns_shared_region unit accepting 16 0 host_full = Fault OutOfBounds ∧
  @val_host_dev_mem_map unit accepting 0 0 PAGE_SIZE 0 host_full = Ok VAL_ERROR host_full.
Proof.
  apply (@mapped_table_overflow unit accepting 16 0 host_full 0x88500000
    (set_heap_base 0x8850100f (val_host_mem_alloc_init heap1)) 0 0 PAGE_SIZE 0).
  - by vm_compute.
  - reflexivity.
  - by vm_compute.
  - by vm_compute.
  - discriminate.
  - reflexivity.
Defined.
