(* ===== verification/ExitFacts.v ===== *)
(** Properties of the checks on REC exits. *)
From S2P Require Import Prelude Defs Alloc Granule Host Rmi RealmMap Libc RecExit.
From S2P Require Import GranuleInv GranuleSpec RmiFacts HostFacts.
Import Mem MemFacts Validate.

(** * The syndrome of a data abort *)

(** The low 32 bits of the syndrome each kind of abort must have. *)
Definition esr_value (abort_type : exception_da_abort_type_te) (dfsc wnr : Z) : Z :=
  match abort_type with
  | EMULATABLE_DA =>
      dfsc + wnr * 2 ^ 6 + ESR_SAS_WORD * 2 ^ 22 + ESR_ISV_VALID * 2 ^ 24 + ESR_EC_LOWER_EL * 2 ^ 26
  | NON_EMULATABLE_DA => dfsc + ESR_EC_LOWER_EL * 2 ^ 26
  end.

(** A field of [x] below bit 32 is a field of [x mod 2^32]. *)
Lemma extract_low x s e :
  0 ≤ s ≤ e → e < 32 → VAL_EXTRACT_BITS (x mod 2 ^ 32) s e = VAL_EXTRACT_BITS x s e.
Proof.
  intros Hs He. rewrite !VAL_EXTRACT_BITS_spec by lia. apply Z.bits_inj'. intros n Hn.
  destruct (Z.ltb_spec n (e - s + 1)).
  - rewrite !Z.mod_pow2_bits_low, !Z.div_pow2_bits, Z.mod_pow2_bits_low by lia. done.
  - by rewrite !Z.mod_pow2_bits_high by lia.
Qed.

Lemma esr_ok_low ty esr dfsc wnr : esr_ok ty esr dfsc wnr = esr_ok ty (esr mod 2 ^ 32) dfsc wnr.
Proof.
  destruct ty; unfold esr_ok, esr_emulatable, esr_emulatable_mbz, esr_non_emulatable,
    esr_non_emulatable_mbz; rewrite !extract_low by lia; done.
Qed.

(** Peel one field off a number. *)
Lemma field_step x s w : 0 ≤ s → 0 ≤ w → x mod 2 ^ (s + w) = x mod 2 ^ s + 2 ^ s * ((x / 2 ^ s) mod 2 ^ w).
Proof.
  intros Hs Hw. rewrite Z.pow_add_r by done.
  apply Z.rem_mul_r; [apply Z.pow_nonzero; lia|by apply Z.pow_pos_nonneg].
Qed.

Lemma esr_fields x :
  x mod 2 ^ 32 =
  VAL_EXTRACT_BITS x 0 5 + 2 ^ 6 * VAL_EXTRACT_BITS x 6 6 + 2 ^ 7 * VAL_EXTRACT_BITS x 7 7 +
  2 ^ 8 * VAL_EXTRACT_BITS x 8 8 + 2 ^ 9 * VAL_EXTRACT_BITS x 9 9 + 2 ^ 10 * VAL_EXTRACT_BITS x 10 10 +
  2 ^ 11 * VAL_EXTRACT_BITS x 11 12 + 2 ^ 13 * VAL_EXTRACT_BITS x 13 13 +
  2 ^ 14 * VAL_EXTRACT_BITS x 14 14 + 2 ^ 15 * VAL_EXTRACT_BITS x 15 15 +
  2 ^ 16 * VAL_EXTRACT_BITS x 16 20 + 2 ^ 21 * VAL_EXTRACT_BITS x 21 21 +
  2 ^ 22 * VAL_EXTRACT_BITS x 22 23 + 2 ^ 24 * VAL_EXTRACT_BITS x 24 24 +
  2 ^ 25 * VAL_EXTRACT_BITS x 25 25 + 2 ^ 26 * VAL_EXTRACT_BITS x 26 31.
Proof.
  rewrite !VAL_EXTRACT_BITS_spec by lia.
  change 32 with (26 + 6) at 1. rewrite field_step by lia.
  change 26 with (25 + 1) at 1. rewrite field_step by lia.
  change 25 with (24 + 1) at 1. rewrite field_step by lia.
  change 24 with (22 + 2) at 1. rewrite field_step by lia.
  change 22 with (21 + 1) at 1. rewrite field_step by lia.
  change 21 with (16 + 5) at 1. rewrite field_step by lia.
  change 16 with (15 + 1) at 1. rewrite field_step by lia.
  change 15 with (14 + 1) at 1. rewrite field_step by lia.
  change 14 with (13 + 1) at 1. rewrite field_step by lia.
  change 13 with (11 + 2) at 1. rewrite field_step by lia.
  change 11 with (10 + 1) at 1. rewrite field_step by lia.
  change 10 with (9 + 1) at 1. rewrite field_step by lia.
  change 9 with (8 + 1) at 1. rewrite field_step by lia.
  change 8 with (7 + 1) at 1. rewrite field_step by lia.
  change 7 with (6 + 1) at 1. rewrite field_step by lia.
  cbn -[Z.pow Z.mul Z.add Z.modulo Z.div]. rewrite Z.div_1_r. reflexivity.
Qed.

(** All 64 fault codes with both directions pass. *)
Lemma esr_value_ok ty dfsc wnr :
  0 ≤ dfsc < 64 → 0 ≤ wnr < 2 → esr_ok ty (esr_value ty dfsc wnr) dfsc wnr = true.
Proof.
  intros Hd Hw.
  assert (forallb (λ d, forallb (λ w, esr_ok ty (esr_value ty d w) d w) (seqZ 0 2)) (seqZ 0 64) = true) as E
    by (destruct ty; by vm_compute).
  rewrite forallb_forall in E. specialize (E dfsc). rewrite forallb_forall in E.
  apply E; apply list_elem_of_In, elem_of_seqZ; lia.
Qed.

Lemma truthy_false x : truthy x = false → x = 0.
Proof. unfold truthy. intros H%negb_false_iff. by apply Z.eqb_eq. Qed.

(** C29. The field by field checks of the syndrome amount to one equation: a data
    abort is accepted exactly when the low 32 bits of [esr] are the exception
    class of a data abort from a lower level with the expected fault status
    code and nothing else, plus, for an emulatable abort, the valid word-sized
    access and its direction.  Bits 32 and up of [esr] are not looked at. *)
Theorem esr_ok_exact ty esr dfsc wnr :
  0 ≤ dfsc < 64 → 0 ≤ wnr < 2 →
  esr_ok ty esr dfsc wnr = true ↔ esr mod 2 ^ 32 = esr_value ty dfsc wnr.
Proof.
  intros Hd Hw. split.
  - intros E. rewrite esr_fields. unfold esr_ok in E.
    destruct ty; apply andb_prop in E as [E1 E2]; apply negb_true_iff in E2;
      unfold esr_emulatable, esr_emulatable_mbz, esr_non_emulatable, esr_non_emulatable_mbz in *;
      rewrite !andb_true_iff, !Z.eqb_eq in E1; rewrite !orb_false_iff in E2; destruct_and!;
      repeat match goal with H : truthy _ = false |- _ => apply truthy_false in H; rewrite H end;
      repeat match goal with H : VAL_EXTRACT_BITS _ _ _ = _ |- _ => rewrite H end;
      unfold esr_value, ESR_ISS_SET_UER, ESR_ISS_EA, ESR_FnV; lia.
  - intros E. rewrite esr_ok_low, E. by apply esr_value_ok.
Qed.

Lemma esr_ok_exact_witness :
  esr_ok EMULATABLE_DA 0x91800047 7 1 = true ↔ 0x91800047 mod 2 ^ 32 = esr_value EMULATABLE_DA 7 1.
Proof. apply (esr_ok_exact EMULATABLE_DA 0x91800047 7 1); lia. Defined.

(** * The byte comparisons *)

(** Two buffers of [n] bytes that do not overlap. *)
Definition apart (p q n : Z) : Prop := p + n ≤ q ∨ q + n ≤ p.

Lemma memset_loop_zero n m p :
  mapped m p (Z.of_nat n) →
  run_to (memset_loop n p 0) m (λ _ m',
    (∀ i, 0 ≤ i < Z.of_nat n → m' !! (p + i) = Some 0) ∧
    (∀ a, ¬ (p ≤ a < p + Z.of_nat n) → m' !! a = m !! a)).
Proof.
  revert m p. induction n as [|n IH]; intros m p Hm; cbn [memset_loop].
  { apply run_to_ret. split; [lia|done]. }
  destruct (Hm 0) as [v Hv]; [lia|]. rewrite Z.add_0_r in Hv.
  eapply run_to_step; [by apply store8_eq|]. change (u8 0) with 0.
  eapply run_to_mono.
  - apply IH. intros i Hi. rewrite <- Z.add_assoc.
    apply (mapped_insert m p (Z.of_nat (S n)) p 0 Hm (1 + i)). lia.
  - intros _ m' [H1 H2]. split.
    + intros i Hi. destruct (decide (i = 0)) as [->|].
      * rewrite Z.add_0_r, H2 by lia. by rewrite lookup_insert_eq.
      * replace (p + i) with (p + 1 + (i - 1)) by lia. apply H1. lia.
    + intros a Ha. rewrite H2 by lia. apply lookup_insert_ne. lia.
Qed.

Lemma val_memset_zero m p n :
  0 ≤ n → mapped m p n → ∃ m', val_memset p 0 n m = Ok tt m' ∧
    (∀ i, 0 ≤ i < n → m' !! (p + i) = Some 0) ∧ (∀ a, ¬ (p ≤ a < p + n) → m' !! a = m !! a).
Proof.
  intros Hn Hm. rewrite <- (Z2Nat.id n) in Hm by done.
  pose proof (memset_loop_zero _ _ _ Hm) as Hl. rewrite Z2Nat.id in Hl by done.
  apply run_to_Ok in Hl as ([] & m' & E & H1 & H2). exists m'. split; [|done].
  unfold val_memset, pal_memset, memset, bind. by rewrite E.
Qed.

(** The value of [n] bytes, little endian. *)
Fixpoint le_val (m : gmap Z Z) (n : nat) (p : Z) : Z :=
  match n with
  | O => 0
  | S n => default 0 (m !! p) + 256 * le_val m n (p + 1)
  end.

Lemma load_le_val n (m : gmap Z Z) p : mapped m p (Z.of_nat n) → load_le n p m = Ok (le_val m n p) m.
Proof.
  revert p. induction n as [|n IH]; intros p Hm; cbn [load_le le_val]; [done|].
  destruct (Hm 0) as [v Hv]; [lia|]. rewrite Z.add_0_r in Hv.
  rewrite (bind_step _ _ _ _ _ (load8_eq _ _ _ Hv)).
  rewrite (bind_step _ _ _ (le_val m n (p + 1)) m).
  - by rewrite Hv.
  - apply IH. intros i Hi. rewrite <- Z.add_assoc. apply Hm. lia.
Qed.

Lemma le_val_agree (m m' : gmap Z Z) n p :
  (∀ i, 0 ≤ i < Z.of_nat n → m' !! (p + i) = m !! (p + i)) → le_val m' n p = le_val m n p.
Proof.
  revert p. induction n as [|n IH]; intros p Hm; cbn [le_val]; [done|].
  rewrite IH.
  - specialize (Hm 0 ltac:(lia)). rewrite Z.add_0_r in Hm. by rewrite Hm.
  - intros i Hi. rewrite <- Z.add_assoc. apply Hm. lia.
Qed.

(** The bytes of some ranges of the structure at [rec] are zero. *)
Definition zeros (m : gmap Z Z) (rec : Z) (ranges : list (Z * Z)) : Prop :=
  Forall (λ ol, ∀ i, ol.1 ≤ i < ol.1 + ol.2 → m !! (rec + i) = Some 0) ranges.

Definition in_struct (ranges : list (Z * Z)) : Prop :=
  Forall (λ ol, 0 ≤ ol.1 ∧ 0 ≤ ol.2 ∧ ol.1 + ol.2 ≤ SIZEOF_REC_EXIT) ranges.

Lemma check_zero_spec (m : gmap Z Z) tmp rec ranges :
  in_struct ranges → mapped m rec SIZEOF_REC_EXIT →
  (∀ i, 0 ≤ i < SIZEOF_REC_EXIT → m !! (tmp + i) = Some 0) →
  run_to (check_zero tmp rec ranges) m (λ r m', m' = m ∧
    (r = VAL_SUCCESS ∧ zeros m rec ranges ∨ r = VAL_ERROR ∧ ¬ zeros m rec ranges)).
Proof.
  intros Hin Hm Ht. induction Hin as [|[off len] ranges (H1 & H2 & H3) _ IH]; cbn [check_zero].
  { apply run_to_ret. split; [done|]. left. split; [done|]. constructor. }
  cbn in H1, H2, H3.
  eapply run_to_bind.
  { unfold val_memcmp, pal_memcmp, memcmp. apply memcmp_loop_result; rewrite Z2Nat.id by done.
    - intros i Hi. rewrite <- Z.add_assoc, Ht by lia. done.
    - intros i Hi. rewrite <- Z.add_assoc. apply Hm. lia. }
  rewrite Z2Nat.id by done. intros r m' [-> [Hr _]].
  assert (r = 0 ↔ ∀ i, off ≤ i < off + len → m !! (rec + i) = Some 0) as Hz.
  { rewrite Hr. split; intros Hx i Hi.
    - specialize (Hx (i - off) ltac:(lia)). rewrite <- !Z.add_assoc in Hx.
      replace (off + (i - off)) with i in Hx by lia. rewrite Ht in Hx by lia. done.
    - rewrite <- !Z.add_assoc, Ht, Hx by lia. done. }
  unfold truthy. destruct (Z.eqb_spec r 0) as [E|E]; cbn [negb].
  - eapply run_to_mono; [apply IH|]. intros r' m' [-> Hr']. split; [done|].
    unfold zeros. rewrite Forall_cons. cbn. naive_solver.
  - apply run_to_ret. split; [done|]. right. split; [done|].
    unfold zeros. rewrite Forall_cons. cbn. naive_solver.
Qed.

Lemma zeros_agree (m m' : gmap Z Z) rec ranges :
  in_struct ranges → (∀ i, 0 ≤ i < SIZEOF_REC_EXIT → m' !! (rec + i) = m !! (rec + i)) →
  zeros m' rec ranges ↔ zeros m rec ranges.
Proof.
  intros Hin Ha. unfold zeros. rewrite !Forall_forall. unfold in_struct in Hin.
  rewrite Forall_forall in Hin.
  split; intros Hz ol Hol i Hi; specialize (Hin ol Hol); [rewrite <- Ha by lia|rewrite Ha by lia];
    by apply (Hz ol).
Qed.

Lemma da_ranges_in : in_struct da_zero_ranges.
Proof. repeat constructor; by vm_compute. Qed.

Lemma ia_ranges_in : in_struct ia_zero_ranges.
Proof. repeat constructor; by vm_compute. Qed.

(** Clearing the local copy leaves the exit structure as it was. *)
Lemma rec_kept (m m1 : gmap Z Z) tmp rec :
  mapped m rec SIZEOF_REC_EXIT → apart tmp rec SIZEOF_REC_EXIT →
  (∀ a, ¬ (tmp ≤ a < tmp + SIZEOF_REC_EXIT) → m1 !! a = m !! a) →
  (∀ i, 0 ≤ i < SIZEOF_REC_EXIT → m1 !! (rec + i) = m !! (rec + i)) ∧
  mapped m1 rec SIZEOF_REC_EXIT ∧
  (∀ off, 0 ≤ off ∧ off + 8 ≤ SIZEOF_REC_EXIT →
     load64 (rec + off) m1 = Ok (le_val m 8 (rec + off)) m1).
Proof.
  intros Hr Hap Hfr.
  assert (∀ i, 0 ≤ i < SIZEOF_REC_EXIT → m1 !! (rec + i) = m !! (rec + i)) as Hag.
  { intros i Hi. apply Hfr. unfold apart in Hap. lia. }
  split; [done|]. split.
  - intros i Hi. rewrite Hag by done. by apply Hr.
  - intros off Hoff. unfold load64. rewrite load_le_val.
    + f_equal. apply le_val_agree. intros i Hi. rewrite <- !Z.add_assoc. apply Hag. lia.
    + intros i Hi. rewrite <- Z.add_assoc, Hag by lia. apply Hr. lia.
Qed.

(** The conditions under which a data abort is accepted. *)
Definition da_accepted (m : gmap Z Z) (rec hpfar dfsc : Z) (ty : exception_da_abort_type_te)
    (wnr : Z) : Prop :=
  le_val m 8 (rec + EX_exit_reason) = RMI_EXIT_SYNC ∧
  le_val m 8 (rec + EX_hpfar) = VAL_EXTRACT_BITS hpfar 8 63 ∧
  esr_ok ty (le_val m 8 (rec + EX_esr)) dfsc wnr = true ∧
  zeros m rec da_zero_ranges.

(** [validate_rec_exit_da] ends on every exit structure, touches only its
    local copy, and accepts exactly the exits whose reason, HPFAR and syndrome
    are the expected ones and whose bytes outside the fields that an abort may
    set are all zero. *)
Theorem validate_da_exact m tmp rec hpfar dfsc ty wnr :
  mapped m tmp SIZEOF_REC_EXIT → mapped m rec SIZEOF_REC_EXIT → apart tmp rec SIZEOF_REC_EXIT →
  run_to (validate_rec_exit_da tmp rec hpfar dfsc ty wnr) m (λ r m',
    (∀ a, ¬ (tmp ≤ a < tmp + SIZEOF_REC_EXIT) → m' !! a = m !! a) ∧
    (r = VAL_SUCCESS ∧ da_accepted m rec hpfar dfsc ty wnr ∨
     r = VAL_ERROR ∧ ¬ da_accepted m rec hpfar dfsc ty wnr)).
Proof.
  intros Ht Hr Hap. unfold validate_rec_exit_da.
  destruct (val_memset_zero m tmp SIZEOF_REC_EXIT ltac:(done) Ht) as (m1 & E1 & Hz & Hfr).
  eapply run_to_step; [exact E1|].
  destruct (rec_kept m m1 tmp rec Hr Hap Hfr) as (Hag & Hr1 & Hld).
  eapply run_to_step; [apply Hld; by vm_compute|]. unfold da_accepted.
  destruct (Z.eqb_spec (le_val m 8 (rec + EX_exit_reason)) RMI_EXIT_SYNC); cbn [negb];
    [|apply run_to_ret; naive_solver].
  eapply run_to_step; [apply Hld; by vm_compute|].
  destruct (Z.eqb_spec (VAL_EXTRACT_BITS hpfar 8 63) (le_val m 8 (rec + EX_hpfar))); cbn [negb];
    [|apply run_to_ret; naive_solver].
  eapply run_to_step; [apply Hld; by vm_compute|].
  destruct (esr_ok ty (le_val m 8 (rec + EX_esr)) dfsc wnr); cbn [negb];
    [|apply run_to_ret; naive_solver].
  eapply run_to_mono; [by apply check_zero_spec; [apply da_ranges_in|..]|].
  intros r m' [-> Hres]. rewrite (zeros_agree m m1 rec _ da_ranges_in Hag) in Hres. naive_solver.
Qed.

(** [n] zero bytes from address 0. *)
Definition zero_block (n : nat) : gmap Z Z := list_to_map ((λ i, (i, 0)) <$> seqZ 0 (Z.of_nat n)).

Lemma zero_block_lookup n a : 0 ≤ a < Z.of_nat n → zero_block n !! a = Some 0.
Proof.
  intros Ha. unfold zero_block. apply elem_of_list_to_map_1.
  - rewrite <- list_fmap_compose. cbn. rewrite list_fmap_id. apply NoDup_seqZ.
  - apply list_elem_of_fmap. exists a. split; [done|]. apply elem_of_seqZ. lia.
Qed.

Lemma zero_block_mapped n p k : 0 ≤ p → p + k ≤ Z.of_nat n → mapped (zero_block n) p k.
Proof. intros Hp Hk i Hi. rewrite zero_block_lookup by lia. done. Qed.

Lemma validate_da_exact_witness :
  run_to (validate_rec_exit_da 0 0x800 0 7 EMULATABLE_DA 1) (zero_block 4096) (λ r m',
    (∀ a, ¬ (0 ≤ a < 0 + SIZEOF_REC_EXIT) → m' !! a = zero_block 4096 !! a) ∧
    (r = VAL_SUCCESS ∧ da_accepted (zero_block 4096) 0x800 0 7 EMULATABLE_DA 1 ∨
     r = VAL_ERROR ∧ ¬ da_accepted (zero_block 4096) 0x800 0 7 EMULATABLE_DA 1)).
Proof.
  apply (validate_da_exact (zero_block 4096) 0 0x800 0 7 EMULATABLE_DA 1).
  - apply zero_block_mapped; unfold SIZEOF_REC_EXIT; lia.
  - apply zero_block_mapped; unfold SIZEOF_REC_EXIT; lia.
  - left. unfold SIZEOF_REC_EXIT. lia.
Defined.

(** * Instruction aborts *)

Definition ia_accepted (m : gmap Z Z) (rec hpfar : Z) : Prop :=
  let esr := le_val m 8 (rec + EX_esr) in
  le_val m 8 (rec + EX_exit_reason) = RMI_EXIT_SYNC ∧
  esr_ia esr = true ∧
  truthy (VAL_EXTRACT_BITS esr 7 7) || truthy (VAL_EXTRACT_BITS esr 10 10) = false ∧
  le_val m 8 (rec + EX_hpfar) = VAL_EXTRACT_BITS hpfar 8 63 ∧
  zeros m rec ia_zero_ranges.

Lemma validate_ia_spec m tmp rec hpfar :
  mapped m tmp SIZEOF_REC_EXIT → mapped m rec SIZEOF_REC_EXIT → apart tmp rec SIZEOF_REC_EXIT →
  run_to (validate_rec_exit_ia tmp rec hpfar) m (λ r _,
    r = VAL_SUCCESS ∧ ia_accepted m rec hpfar ∨ r = VAL_ERROR ∧ ¬ ia_accepted m rec hpfar).
Proof.
  intros Ht Hr Hap. unfold validate_rec_exit_ia.
  destruct (val_memset_zero m tmp SIZEOF_REC_EXIT ltac:(done) Ht) as (m1 & E1 & Hz & Hfr).
  eapply run_to_step; [exact E1|].
  destruct (rec_kept m m1 tmp rec Hr Hap Hfr) as (Hag & Hr1 & Hld).
  eapply run_to_step; [apply Hld; by vm_compute|]. unfold ia_accepted.
  destruct (Z.eqb_spec (le_val m 8 (rec + EX_exit_reason)) RMI_EXIT_SYNC); cbn [negb];
    [|apply run_to_ret; naive_solver].
  eapply run_to_step; [apply Hld; by vm_compute|].
  destruct (esr_ia (le_val m 8 (rec + EX_esr))); cbn [negb]; [|apply run_to_ret; naive_solver].
  destruct (truthy _ || truthy _); [apply run_to_ret; naive_solver|].
  eapply run_to_step; [apply Hld; by vm_compute|].
  destruct (Z.eqb_spec (VAL_EXTRACT_BITS hpfar 8 63) (le_val m 8 (rec + EX_hpfar))); cbn [negb];
    [|apply run_to_ret; naive_solver].
  eapply run_to_mono; [by apply check_zero_spec; [apply ia_ranges_in|..]|].
  intros r m' [-> Hres]. rewrite (zeros_agree m m1 rec _ ia_ranges_in Hag) in Hres. naive_solver.
Qed.

(** The last byte before the GIC fields. *)
Definition GAP : Z := 0x2FF.

Lemma le_val_gap (m : gmap Z Z) rec off v :
  0 ≤ off → off + 8 ≤ GAP → le_val (<[rec + GAP := v]> m) 8 (rec + off) = le_val m 8 (rec + off).
Proof. intros H1 H2. apply le_val_agree. intros i Hi. apply lookup_insert_ne. lia. Qed.

Lemma ia_accepted_gap m rec hpfar v :
  ia_accepted (<[rec + GAP := v]> m) rec hpfar ↔ ia_accepted m rec hpfar.
Proof.
  unfold ia_accepted. rewrite !le_val_gap by (by vm_compute).
  assert (zeros (<[rec + GAP := v]> m) rec ia_zero_ranges ↔ zeros m rec ia_zero_ranges) as Hz; [|by rewrite Hz].
  assert (Forall (λ ol, ∀ i, ol.1 ≤ i < ol.1 + ol.2 → i ≠ GAP) ia_zero_ranges) as Hne.
  { unfold ia_zero_ranges, GAP. repeat constructor; cbn; lia. }
  unfold zeros. rewrite Forall_forall in Hne. rewrite !Forall_forall.
  split; intros Hz ol Hol i Hi; specialize (Hz ol Hol i Hi); specialize (Hne ol Hol i Hi);
    [rewrite lookup_insert_ne in Hz by lia|rewrite lookup_insert_ne by lia]; done.
Qed.

(** The comparison that covers the general purpose registers of an
    instruction abort is one byte short: whatever byte the structure holds at
    offset 0x2FF, [validate_rec_exit_ia] gives the same verdict, while
    [validate_rec_exit_da] rejects every exit in which that byte is not zero. *)
Theorem ia_misses_last_byte m tmp rec hpfar v dfsc ty wnr :
  mapped m tmp SIZEOF_REC_EXIT → mapped m rec SIZEOF_REC_EXIT → apart tmp rec SIZEOF_REC_EXIT →
  let m2 := <[rec + GAP := v]> m in
  (∃ r m' m2', validate_rec_exit_ia tmp rec hpfar m = Ok r m' ∧
               validate_rec_exit_ia tmp rec hpfar m2 = Ok r m2') ∧
  (v ≠ 0 → ∃ m2', validate_rec_exit_da tmp rec hpfar dfsc ty wnr m2 = Ok VAL_ERROR m2').
Proof.
  intros Ht Hr Hap m2.
  assert (mapped m2 tmp SIZEOF_REC_EXIT) as Ht2 by (by apply mapped_insert).
  assert (mapped m2 rec SIZEOF_REC_EXIT) as Hr2 by (by apply mapped_insert).
  split.
  - pose proof (validate_ia_spec m tmp rec hpfar Ht Hr Hap) as H1.
    pose proof (validate_ia_spec m2 tmp rec hpfar Ht2 Hr2 Hap) as H2.
    apply run_to_Ok in H1 as (r1 & m' & E1 & P1). apply run_to_Ok in H2 as (r2 & m2' & E2 & P2).
    unfold m2 in P2. rewrite ia_accepted_gap in P2. exists r1, m', m2'. split; [done|].
    rewrite E2. f_equal. naive_solver.
  - intros Hv. unfold validate_rec_exit_da.
    destruct (val_memset_zero m2 tmp SIZEOF_REC_EXIT ltac:(done) Ht2) as (m3 & E3 & Hz & Hfr).
    destruct (rec_kept m2 m3 tmp rec Hr2 Hap Hfr) as (Hag & Hr3 & Hld).
    rewrite (bind_step _ _ _ _ _ E3). rewrite (bind_step _ _ _ _ _ (Hld EX_exit_reason ltac:(by vm_compute))).
    destruct (negb _); [by eexists|].
    rewrite (bind_step _ _ _ _ _ (Hld EX_hpfar ltac:(by vm_compute))). destruct (negb _); [by eexists|].
    rewrite (bind_step _ _ _ _ _ (Hld EX_esr ltac:(by vm_compute))). destruct (negb _); [by eexists|].
    pose proof (check_zero_spec m3 tmp rec da_zero_ranges da_ranges_in Hr3 Hz) as Hc.
    apply run_to_Ok in Hc as (r & m' & -> & -> & [[-> Hx]|[-> _]]); [|by eexists].
    exfalso. unfold zeros in Hx. rewrite Forall_forall in Hx.
    specialize (Hx (0x208, 0xF8) ltac:(unfold da_zero_ranges; set_solver) GAP ltac:(by vm_compute)).
    rewrite Hag in Hx by (by vm_compute). unfold m2 in Hx. rewrite lookup_insert_eq in Hx. by simplify_eq.
Qed.

Lemma ia_misses_last_byte_witness :
  ∃ m2', validate_rec_exit_da 0 0x800 0 7 EMULATABLE_DA 1 (<[0x800 + GAP := 5]> (zero_block 4096))
         = Ok VAL_ERROR m2'.
Proof.
  apply (ia_misses_last_byte (zero_block 4096) 0 0x800 0 5 7 EMULATABLE_DA 1).
  - apply zero_block_mapped; unfold SIZEOF_REC_EXIT; lia.
  - apply zero_block_mapped; unfold SIZEOF_REC_EXIT; lia.
  - left. unfold SIZEOF_REC_EXIT. lia.
  - lia.
Defined.

(** * Entering a REC *)

Section Enter.
Context {W : Type} `{RMM W}.
Implicit Types h : host W.

(** The run structure shows a message of the Realm to print. *)
Definition print_exit (run : Z) h : bool :=
  (default 0 (h_mem h !! (run + RUN_EXIT_REASON)) =? RMI_EXIT_HOST_CALL) &&
  (default 0 (h_mem h !! (run + RUN_EXIT_IMM)) =? VAL_REALM_PRINT_MSG).

(** [val_host_rmi_rec_enter] hides the exits that only print: it issues
    REC_ENTER for the same REC and run structure, once more after every
    successful exit that asks to print, and returns at the first command that
    fails or exits for another reason.  The tracker and the Realm structure do
    not change, and it gives up only when every command the fuel allows ended
    in a message. *)
Theorem rec_enter_hides_prints fuel rec run h :
  let enter := mk_smc RMI_REC_ENTER rec run 0 0 0 0 0 0 0 0 in
  match val_host_rmi_rec_enter fuel rec run h with
  | Ok st h' =>
      (∃ n, (n < fuel)%nat ∧ cmds h' = cmds h ++ replicate (S n) enter) ∧
      h_gs h' = h_gs h ∧ h_realm h' = h_realm h ∧ (st = 0 → print_exit run h' = false)
  | Fault _ => False
  | NoFuel => True
  end.
Proof.
  intros enter. revert h. induction fuel as [|fuel IH]; intros h; cbn [val_host_rmi_rec_enter]; [done|].
  rewrite (bind_step _ _ _ _ _ (val_smc_call_eq _ _ _ _ _ _ _ _ _ _ _ h)). fold enter.
  set (r := reply enter h). set (h1 := after_smc enter h).
  assert (cmds h1 = cmds h ++ [enter]) as Hc1 by (unfold h1, cmds; by rewrite after_smc_log, fmap_app).
  assert (h_gs h1 = h_gs h) as Hg1 by apply after_smc_gs.
  assert (h_realm h1 = h_realm h) as Hr1 by apply after_smc_realm.
  rewrite (bind_step _ _ _ (default 0 (h_mem h1 !! (run + RUN_EXIT_REASON))) h1) by done.
  rewrite (bind_step _ _ _ (default 0 (h_mem h1 !! (run + RUN_EXIT_IMM))) h1) by done.
  rewrite <- andb_assoc. fold (print_exit run h1).
  destruct (negb (truthy (x0 r)) && print_exit run h1) eqn:E.
  - rewrite (bind_step _ _ _ tt (hset_mem (<[run + RUN_ENTER_FLAGS := 0]> (h_mem h1)) h1)) by done.
    specialize (IH (hset_mem (<[run + RUN_ENTER_FLAGS := 0]> (h_mem h1)) h1)).
    destruct (val_host_rmi_rec_enter fuel rec run _) as [st h'|f|]; [|done|done].
    destruct IH as ((n & Hn & Hc) & Hg & Hr & Hp). split.
    + exists (S n). split; [lia|]. rewrite Hc. change (cmds (hset_mem _ h1)) with (cmds h1).
      by rewrite Hc1, <- app_assoc.
    + cbn in Hg, Hr. by rewrite Hg, Hr, Hg1, Hr1.
  - split; [exists 0%nat; split; [lia|done]|]. split; [done|]. split; [done|].
    intros E0. rewrite E0 in E. done.
Qed.
End Enter.
