(* ===== verification/Pcie.v ===== *)
(** PCIe: configuration space, capabilities, discovery and base address
    registers (val_host_pcie.c, pal_pcie.c, pal_fvp_pcie.c).

    The bus is behind memory-mapped registers, so it is a type class: a state
    [W] whose reads and writes of 32-bit words may both change it.  The globals
    of the source are the members of [pcie]: the table of the ECAM windows, the
    table of the functions found, and the variables of the enumeration.

    A C function that fills an output parameter takes the previous content of
    the variable and returns the new one; [None] is a local variable that was
    never assigned, and using it is the fault [Undef]. *)
From S2P Require Import Prelude Defs Libc.

Class MmioBus (W : Type) : Type := {
  mmio_read32 : W → Z → Z * W;
  mmio_write32 : W → Z → Z → W
}.

(** * Constants *)

Definition PCIE_MAX_BUS : Z := 256.
Definition PCIE_MAX_DEV : Z := 32.
Definition PCIE_MAX_FUNC : Z := 8.
Definition PCIE_CFG_SIZE : Z := 4096.
Definition PCIE_DEVICE_BDF_TABLE_SZ : Z := 8192.

Definition PCIE_SUCCESS : Z := 0.
Definition PCIE_NO_MAPPING : Z := 0x10000001.
Definition PCIE_CAP_NOT_FOUND : Z := 0x10000010.
Definition PCIE_UNKNOWN_RESPONSE : Z := 0xFFFFFFFF.

Definition TYPE01_VIDR : Z := 0x0.
Definition TYPE01_CR : Z := 0x4.
Definition TYPE01_RIDR : Z := 0x8.
Definition TYPE01_CLSR : Z := 0xc.
Definition TYPE01_BAR : Z := 0x10.
Definition TYPE01_CPR : Z := 0x34.
Definition TYPE01_CPR_MASK : Z := 0xff.
Definition TYPE01_HTR_SHIFT : Z := 16.
Definition TYPE01_HTR_MASK : Z := 0xff.
Definition TYPE0_HEADER : Z := 0.
Definition TYPE1_HEADER : Z := 1.
Definition TYPE1_PBN : Z := 0x18.
Definition TYPE1_SEC_STA : Z := 0x1C.
Definition TYPE0_MAX_BARS : Z := 6.
Definition TYPE1_MAX_BARS : Z := 2.

Definition CR_MSE_SHIFT : Z := 1.
Definition CR_BME_SHIFT : Z := 2.
Definition CR_SERRE_SHIFT : Z := 8.
Definition SR_IS_SHIFT : Z := 19.
Definition SR_IS_MASK : Z := 0x1.
Definition SR_STA_SHIFT : Z := 27.
Definition SR_STA_MASK : Z := 0x1.
Definition SSR_STA_SHIFT : Z := 27.
Definition SSR_STA_MASK : Z := 0x1.
Definition COMMAND_REG_OFFSET : Z := 0x04.
Definition REG_ACC_DATA : Z := 0x7.
Definition SERR_ENABLE : Z := 0x10.

Definition CC_SHIFT : Z := 8.
Definition CC_SUB_SHIFT : Z := 16.
Definition CC_BASE_SHIFT : Z := 24.
Definition CC_SUB_MASK : Z := 0xFF.
Definition CC_BASE_MASK : Z := 0xFF.
Definition HB_BASE_CLASS : Z := 0x06.
Definition HB_SUB_CLASS : Z := 0x00.

Definition HTR_HL_SHIFT : Z := 0x0.
Definition HTR_HL_MASK : Z := 0x7f.
Definition HTR_MFD_SHIFT : Z := 7.
Definition HTR_MFD_MASK : Z := 0x1.

Definition BAR_MIT_SHIFT : Z := 0.
Definition BAR_MIT_MASK : Z := 0x1.
Definition BAR_MDT_SHIFT : Z := 1.
Definition BAR_MDT_MASK : Z := 0x3.
Definition BAR_BASE_SHIFT : Z := 4.
Definition BAR_BASE_MASK : Z := 0xfffffff.
Definition BAR_MASK : Z := 0xFFFFFFF0.
Definition BAR_64_BIT : Z := 0x1.
Definition BAR_32_BIT : Z := 0x0.
Definition BAR_REG (bar_reg_value : Z) : Z := Z.land (Z.shiftr bar_reg_value 2) 0x1.
Definition MMIO : Z := 0.
Definition BITS_32 : Z := 0.
Definition BITS_64 : Z := 2.

Definition SECBN_SHIFT : Z := 8.
Definition SUBBN_SHIFT : Z := 16.
Definition SECBN_MASK : Z := 0xff.
Definition SUBBN_MASK : Z := 0xff.

Definition PCIE_CIDR_MASK : Z := 0xff.
Definition PCIE_NCPR_SHIFT : Z := 8.
Definition PCIE_NCPR_MASK : Z := 0xff.
Definition PCIE_ECAP_CIDR_MASK : Z := 0xffff.
Definition PCIE_ECAP_NCPR_SHIFT : Z := 20.
Definition PCIE_ECAP_NCPR_MASK : Z := 0xfff.
Definition PCIE_ECAP_START : Z := 0x100.
Definition CID_PCIECS : Z := 0x10.
Definition ECID_PASID : Z := 0x001B.
Definition DOE_CAP_ID : Z := 0x002E.

Definition CIDR_OFFSET : Z := 0x0.
Definition PCIECR_OFFSET : Z := 0x2.
Definition DCTLR_OFFSET : Z := 0x8.
Definition LCAPR_OFFSET : Z := 0xC.
Definition LCTRLR_OFFSET : Z := 0x10.
Definition LCAP2R_OFFSET : Z := 0x2C.
Definition LCTL2R_OFFSET : Z := 0x30.
Definition PCIECR_DPT_SHIFT : Z := 4.
Definition PCIECR_DPT_MASK : Z := 0xf.
Definition LCAPR_DLLLARC_SHIFT : Z := 20.
Definition LCAPR_DLLLARC_MASK : Z := 0x100000.
Definition LSTAT_DLLLA_SHIFT : Z := 29.
Definition LSTAT_DLLLA_MASK : Z := 0x20000000.
Definition PCIE_DLL_LINK_ACTIVE_NOT_SUPPORTED : Z := 0x2.
Definition DCTLR_CERE_SHIFT : Z := 0.
Definition DCTLR_NFERE_SHIFT : Z := 1.
Definition DCTLR_FERE_SHIFT : Z := 2.
Definition DCTLR_URRE_SHIFT : Z := 3.
Definition DCTLR_DSR_SHIFT : Z := 16.
Definition DCTLR_MASK : Z := 0xffff.
Definition DCTLR_DSR_MASK : Z := 0xffff.
Definition DSR_URD_SHIFT : Z := 3.
Definition DSR_URD_MASK : Z := 0x1.
Definition PASID_CAPABILITY_OFFSET : Z := 0x4.
Definition MAX_PASID_MASK : Z := 0x1F00.
Definition MAX_PASID_SHIFT : Z := 0x8.
Definition PCIE_DEVICE_TYPE_SHIFT : Z := 20.
Definition PCIE_DEVICE_TYPE_MASK : Z := 0xf.
Definition PCI_EXP_DEVCTL : Z := 8.
Definition DEVCTL_SNOOP_BIT : Z := 11.
Definition BUS_NUM_REG_OFFSET : Z := 0x18.
Definition MEM_OFFSET_SMALL : Z := 0x10.
Definition PLATFORM_PCIE_P2P_NOT_SUPPORTED : Z := 1.

Definition RCiEP : Z := Z.shiftl 1 9.
Definition RCEC : Z := Z.shiftl 1 10.
Definition EP : Z := Z.shiftl 1 0.
Definition RP : Z := Z.shiftl 1 4.
Definition iEP_EP : Z := Z.shiftl 1 12.
Definition iEP_RP : Z := Z.shiftl 1 11.

Definition WORD_ALIGN_MASK : Z := 0x3.
Definition BITS_IN_BYTE : Z := 0x8.

(** * Segment, bus, device and function numbers *)

Definition PCIE_EXTRACT_BDF_SEG (bdf : Z) : Z := Z.land (Z.shiftr bdf 16) 0xFF.
Definition PCIE_EXTRACT_BDF_BUS (bdf : Z) : Z := Z.land (Z.shiftr bdf 8) 0xFF.
Definition PCIE_EXTRACT_BDF_DEV (bdf : Z) : Z := Z.land (Z.shiftr bdf 3) 0x1F.
Definition PCIE_EXTRACT_BDF_FUNC (bdf : Z) : Z := Z.land bdf 0x7.
Definition PCIE_CREATE_BDF (Seg Bus Dev Func : Z) : Z :=
  Z.lor (Z.lor (Z.lor (u32 (Z.shiftl Seg 16)) (u32 (Z.shiftl Bus 8))) (u32 (Z.shiftl Dev 3))) Func.

(** [cfg_addr]: there are 8 functions a device, 32 devices a bus, and each
    function has 4 KB of configuration space. *)
Definition cfg_addr (bus dev func : Z) : Z :=
  u32 (bus * PCIE_MAX_DEV * PCIE_MAX_FUNC * 4096 + dev * PCIE_MAX_FUNC * 4096 + func * 4096).

(** * State *)

Record PCIE_INFO_BLOCK : Type := mk_block {
  ecam_base : Z; segment_num : Z; start_bus_num : Z; end_bus_num : Z
}.

Record PCIE_INFO_TABLE : Type := mk_info { ecam_entries : Z; ecam_block : list PCIE_INFO_BLOCK }.

Record pcie_device_attr : Type := mk_attr { a_bdf : Z; a_rp_bdf : Z }.

Record pcie_device_bdf_table : Type := mk_bdf_table {
  bdf_entries : Z; bdf_device : list pcie_device_attr
}.

(** [g_pcie_bdf_table1] is an array of 8192 structures of 4 bytes; behind the
    counter at its start it holds this many entries of 8 bytes. *)
Definition bdf_capacity : nat := Z.to_nat ((PCIE_DEVICE_BDF_TABLE_SZ * 4 - 4) / 8).

(** The globals of pal_pcie_enumeration.c. *)
Inductive pal_var : Type :=
  | pcie_index | enumerate | g_vendor_id
  | g_bar64_p_start | g_rp_bar64_value | g_bar64_p_max | g_64_bus | g_bar64_size
  | g_bar32_np_start | g_bar32_p_start | g_rp_bar32_value | g_bar32_np_max | g_bar32_p_max
  | g_np_bar_size | g_p_bar_size | g_np_bus | g_p_bus.

#[export] Instance pal_var_eq_dec : EqDecision pal_var.
Proof. solve_decision. Defined.

(** [p_info] is [g_pcie_info_table] and [p_bdf] is [g_pcie_bdf_table]; [None] is
    the null pointer both hold at the start. *)
Record pcie (W : Type) : Type := mk_pcie {
  p_world : W;
  p_info : option PCIE_INFO_TABLE;
  p_bdf : option pcie_device_bdf_table;
  p_var : pal_var → Z
}.

Arguments mk_pcie {W}.
Arguments p_world {W}.
Arguments p_info {W}.
Arguments p_bdf {W}.
Arguments p_var {W}.

Inductive PCIE_INFO_e : Type :=
  | PCIE_INFO_NUM_ECAM
  | PCIE_INFO_ECAM
  | PCIE_INFO_START_BUS
  | PCIE_INFO_END_BUS
  | PCIE_INFO_SEGMENT.

Inductive BITFIELD_REGISTER_TYPE : Type := HEADER | PCIE_CAP | PCIE_ECAP.

#[export] Instance BITFIELD_REGISTER_TYPE_eq_dec : EqDecision BITFIELD_REGISTER_TYPE.
Proof. solve_decision. Defined.

Inductive BITFIELD_ATTR_TYPE : Type :=
  HW_INIT | READ_ONLY | STICKY_RO | RSVDP_RO | RSVDZ_RO | READ_WRITE | STICKY_RW.

(** The two error strings are lists of characters; [bf_attr] is [None] for a
    value outside the enumeration. *)
Record pcie_cfgreg_bitfield_entry : Type := mk_bitfield {
  reg_type : option BITFIELD_REGISTER_TYPE;
  cap_id : Z; ecap_id : Z; bf_reg_offset : Z; dev_port_bitmask : Z;
  bf_start : Z; bf_end : Z; cfg_value : Z;
  bf_attr : option BITFIELD_ATTR_TYPE;
  err_str1 : list Z; err_str2 : list Z
}.

Section Pcie.
Context {W : Type} `{MmioBus W}.
Implicit Types s : pcie W.

Definition pset_world (w : W) s : pcie W := mk_pcie w (p_info s) (p_bdf s) (p_var s).
Definition pset_info (t : option PCIE_INFO_TABLE) s : pcie W :=
  mk_pcie (p_world s) t (p_bdf s) (p_var s).
Definition pset_bdf (t : option pcie_device_bdf_table) s : pcie W :=
  mk_pcie (p_world s) (p_info s) t (p_var s).
Definition pset_var (x : pal_var) (v : Z) s : pcie W :=
  mk_pcie (p_world s) (p_info s) (p_bdf s) (λ y, if decide (y = x) then v else p_var s y).

Definition get_var (x : pal_var) : M (pcie W) Z := gets (λ s, p_var s x).
Definition set_var (x : pal_var) (v : Z) : M (pcie W) unit := modify (pset_var x v).

(** The value of a local variable that must have been assigned. *)
Definition use (d : option Z) : M (pcie W) Z :=
  match d with
  | Some v => ret v
  | None => fail Undef
  end.

Definition pal_mmio_read32 (addr : Z) : M (pcie W) Z := λ s,
  let '(v, w) := mmio_read32 (p_world s) (u64 addr) in Ok (u32 v) (pset_world w s).
Definition pal_mmio_write32 (addr data : Z) : M (pcie W) unit :=
  modify (λ s, pset_world (mmio_write32 (p_world s) (u64 addr) (u32 data)) s).

(** * Configuration space *)

Definition val_pcie_get_info (type : PCIE_INFO_e) (index : Z) : M (pcie W) Z :=
  let* t := gets p_info in
  match t with
  | None => ret 0
  | Some t =>
      if ecam_entries t <=? index then ret 0
      else match type with
           | PCIE_INFO_NUM_ECAM => ret (ecam_entries t)
           | _ =>
               match ecam_block t !! Z.to_nat index with
               | None => fail OutOfBounds
               | Some b =>
                   ret (match type with
                        | PCIE_INFO_ECAM => ecam_base b
                        | PCIE_INFO_START_BUS => start_bus_num b
                        | PCIE_INFO_END_BUS => end_bus_num b
                        | _ => segment_num b
                        end)
               end
           end
  end.

(** Iterations that walk the whole table. *)
Definition ecam_fuel s : nat :=
  match p_info s with
  | None => 1
  | Some t => S (Z.to_nat (ecam_entries t))
  end.

(** [while (i < val_pcie_get_info(PCIE_INFO_NUM_ECAM, 0))]: the base of the first
    window that holds the bus, 0 when there is none. *)
Fixpoint ecam_loop (fuel : nat) (bus segment i : Z) : M (pcie W) Z :=
  match fuel with
  | O => out_of_fuel
  | S fuel =>
      let* n := val_pcie_get_info PCIE_INFO_NUM_ECAM 0 in
      if negb (i <? n) then ret 0
      else
        let* start_bus := val_pcie_get_info PCIE_INFO_START_BUS i in
        let* end_bus := val_pcie_get_info PCIE_INFO_END_BUS i in
        let* seg := val_pcie_get_info PCIE_INFO_SEGMENT i in
        if (start_bus <=? bus) && (bus <=? end_bus) && (segment =? seg)
        then val_pcie_get_info PCIE_INFO_ECAM i
        else ecam_loop fuel bus segment (i + 1)
  end.

Definition ecam_search (bus segment : Z) : M (pcie W) Z := λ s,
  ecam_loop (ecam_fuel s) bus segment 0 s.

Definition val_pcie_read_cfg (bdf offset : Z) (data : option Z) : M (pcie W) (Z * option Z) :=
  let bus := PCIE_EXTRACT_BDF_BUS bdf in
  let dev := PCIE_EXTRACT_BDF_DEV bdf in
  let func := PCIE_EXTRACT_BDF_FUNC bdf in
  let segment := PCIE_EXTRACT_BDF_SEG bdf in
  if (PCIE_MAX_BUS <=? bus) || (PCIE_MAX_DEV <=? dev) || (PCIE_MAX_FUNC <=? func)
  then ret (PCIE_NO_MAPPING, data)
  else
    let* t := gets p_info in
    match t with
    | None => ret (PCIE_NO_MAPPING, data)
    | Some _ =>
        let* base := ecam_search bus segment in
        if base =? 0 then ret (PCIE_NO_MAPPING, data)
        else
          let* v := pal_mmio_read32 (base + cfg_addr bus dev func + offset) in
          ret (0, Some v)
    end.

Definition val_pcie_write_cfg (bdf offset data : Z) : M (pcie W) unit :=
  let bus := PCIE_EXTRACT_BDF_BUS bdf in
  let dev := PCIE_EXTRACT_BDF_DEV bdf in
  let func := PCIE_EXTRACT_BDF_FUNC bdf in
  let segment := PCIE_EXTRACT_BDF_SEG bdf in
  if (PCIE_MAX_BUS <=? bus) || (PCIE_MAX_DEV <=? dev) || (PCIE_MAX_FUNC <=? func)
  then ret tt
  else
    let* t := gets p_info in
    match t with
    | None => ret tt
    | Some _ =>
        let* base := ecam_search bus segment in
        if base =? 0 then ret tt
        else pal_mmio_write32 (base + cfg_addr bus dev func + offset) data
    end.

Definition pal_pcie_bar_mem_read (Bdf address : Z) : M (pcie W) (Z * Z) :=
  let* v := pal_mmio_read32 address in ret (0, v).
Definition pal_pcie_bar_mem_write (Bdf address data : Z) : M (pcie W) Z :=
  pal_mmio_write32 address data ;; ret 0.
Definition val_pcie_bar_mem_read (bdf offset : Z) : M (pcie W) (Z * Z) :=
  pal_pcie_bar_mem_read bdf offset.
Definition val_pcie_bar_mem_write (bdf offset data : Z) : M (pcie W) Z :=
  pal_pcie_bar_mem_write bdf offset data.

Definition val_pcie_get_bdf_config_addr (bdf : Z) : M (pcie W) Z :=
  let bus := PCIE_EXTRACT_BDF_BUS bdf in
  let dev := PCIE_EXTRACT_BDF_DEV bdf in
  let func := PCIE_EXTRACT_BDF_FUNC bdf in
  let segment := PCIE_EXTRACT_BDF_SEG bdf in
  if (PCIE_MAX_BUS <=? bus) || (PCIE_MAX_DEV <=? dev) || (PCIE_MAX_FUNC <=? func)
  then ret 0
  else
    let* t := gets p_info in
    match t with
    | None => ret 0
    | Some _ =>
        let* base := ecam_search bus segment in
        if base =? 0 then ret 0 else ret (u64 (base + cfg_addr bus dev func))
    end.

(** A register read into a fresh local variable that is used at once. *)
Definition read_reg (bdf offset : Z) : M (pcie W) Z :=
  let* r := val_pcie_read_cfg bdf offset None in use (snd r).

(** * Capabilities *)

(** The walk of a capability list from [next]: [reg] is the local variable
    [reg_value] and [out] the output parameter [cid_offset]. *)
Fixpoint cap_loop (fuel : nat) (bdf id_mask shift mask cid next : Z) (reg out : option Z)
    : M (pcie W) (Z * option Z) :=
  match fuel with
  | O => out_of_fuel
  | S fuel =>
      if next =? 0 then ret (PCIE_CAP_NOT_FOUND, out)
      else
        let* r := val_pcie_read_cfg bdf next reg in
        let* v := use (snd r) in
        if Z.land v id_mask =? cid then ret (PCIE_SUCCESS, Some next)
        else cap_loop fuel bdf id_mask shift mask cid (Z.land (Z.shiftr v shift) mask) (snd r) out
  end.

(** The pointers of the two lists have 8 and 12 bits: a walk of one more step
    visits some offset twice. *)
Definition CAP_FUEL : nat := Z.to_nat (PCIE_NCPR_MASK + 2).
Definition ECAP_FUEL : nat := Z.to_nat (PCIE_ECAP_NCPR_MASK + 2).

Definition val_pcie_find_capability (bdf : Z) (cid_type : BITFIELD_REGISTER_TYPE) (cid : Z)
    (cid_offset : option Z) : M (pcie W) (Z * option Z) :=
  match cid_type with
  | PCIE_CAP =>
      let* r := val_pcie_read_cfg bdf TYPE01_CPR None in
      if fst r =? PCIE_NO_MAPPING then ret (fst r, cid_offset)
      else
        let* v := use (snd r) in
        if v =? PCIE_UNKNOWN_RESPONSE then ret (fst r, cid_offset)
        else cap_loop CAP_FUEL bdf PCIE_CIDR_MASK PCIE_NCPR_SHIFT PCIE_NCPR_MASK cid
               (Z.land v TYPE01_CPR_MASK) (snd r) cid_offset
  | PCIE_ECAP =>
      cap_loop ECAP_FUEL bdf PCIE_ECAP_CIDR_MASK PCIE_ECAP_NCPR_SHIFT PCIE_ECAP_NCPR_MASK cid
        PCIE_ECAP_START None cid_offset
  | HEADER => ret (PCIE_CAP_NOT_FOUND, cid_offset)
  end.

(** The base of the PCI Express capability, found and used at once. *)
Definition pciecs_base (bdf : Z) : M (pcie W) Z :=
  let* r := val_pcie_find_capability bdf PCIE_CAP CID_PCIECS None in use (snd r).

Definition pal_pcie_is_onchip_peripheral (bdf : Z) : Z := 0.
Definition val_pcie_is_onchip_peripheral (bdf : Z) : Z := pal_pcie_is_onchip_peripheral bdf.

Definition val_pcie_device_port_type (bdf : Z) : M (pcie W) Z :=
  let* base := pciecs_base bdf in
  let* v := read_reg bdf (u32 (base + CIDR_OFFSET)) in
  let dp_type := Z.shiftl 1 (Z.land (Z.shiftr v ((PCIECR_OFFSET - CIDR_OFFSET) * 8 + PCIECR_DPT_SHIFT))
                               PCIECR_DPT_MASK) in
  if truthy (val_pcie_is_onchip_peripheral bdf)
  then if dp_type =? EP then ret iEP_EP else if dp_type =? RP then ret iEP_RP else ret dp_type
  else ret dp_type.

Definition val_pcie_function_header_type (bdf : Z) : M (pcie W) Z :=
  let* v := read_reg bdf TYPE01_CLSR in
  let v := Z.land (Z.shiftr v TYPE01_HTR_SHIFT) TYPE01_HTR_MASK in
  ret (Z.land (Z.shiftr v HTR_HL_SHIFT) HTR_HL_MASK).

Definition class_is_host_bridge (v : Z) : bool :=
  (Z.land (Z.shiftr v CC_BASE_SHIFT) CC_BASE_MASK =? HB_BASE_CLASS) &&
  (Z.land (Z.shiftr v CC_SUB_SHIFT) CC_SUB_MASK =? HB_SUB_CLASS).

Definition val_pcie_is_host_bridge (bdf : Z) : M (pcie W) Z :=
  let* v := read_reg bdf TYPE01_RIDR in
  ret (if class_is_host_bridge v then 1 else 0).

Definition val_pcie_get_device_type (bdf : Z) : M (pcie W) Z :=
  let* header_type := val_pcie_function_header_type bdf in
  if negb (header_type =? TYPE0_HEADER) then
    let* class_code := read_reg bdf TYPE01_RIDR in
    if class_is_host_bridge class_code then ret 2 else ret 3
  else ret 1.

Definition val_pcie_multifunction_support (bdf : Z) : M (pcie W) Z :=
  let* v := read_reg bdf TYPE01_CLSR in
  let v := Z.land (Z.shiftr v TYPE01_HTR_SHIFT) TYPE01_HTR_MASK in
  ret (if truthy (Z.land (Z.shiftr v HTR_MFD_SHIFT) HTR_MFD_MASK) then 0 else 1).

Definition val_pcie_get_max_pasid_width (bdf : Z) (max_pasid_width : option Z)
    : M (pcie W) (Z * option Z) :=
  let* r := val_pcie_find_capability bdf PCIE_ECAP ECID_PASID None in
  if truthy (fst r) then ret (fst r, max_pasid_width)
  else
    let* base := use (snd r) in
    let* d := val_pcie_read_cfg bdf (u32 (base + PASID_CAPABILITY_OFFSET)) max_pasid_width in
    let* v := use (snd d) in
    ret (0, Some (Z.shiftr (Z.land v MAX_PASID_MASK) MAX_PASID_SHIFT)).

(** * Control and status registers *)

(** [read_cfg(..., &reg_value); write_cfg(..., f(reg_value))]. *)
Definition update_reg (bdf offset : Z) (f : Z → Z) : M (pcie W) unit :=
  let* v := read_reg bdf offset in val_pcie_write_cfg bdf offset (f v).

Definition val_pcie_disable_bme (bdf : Z) : M (pcie W) unit :=
  update_reg bdf TYPE01_CR (λ v, Z.land v (u32 (Z.lnot (Z.shiftl 1 CR_BME_SHIFT)))).
Definition val_pcie_enable_bme (bdf : Z) : M (pcie W) unit :=
  update_reg bdf TYPE01_CR (λ v, Z.lor v (Z.shiftl 1 CR_BME_SHIFT)).
Definition val_pcie_disable_msa (bdf : Z) : M (pcie W) unit :=
  update_reg bdf TYPE01_CR (λ v, Z.land v (u32 (Z.lnot (Z.shiftl 1 CR_MSE_SHIFT)))).
Definition val_pcie_enable_msa (bdf : Z) : M (pcie W) unit :=
  update_reg bdf TYPE01_CR (λ v, Z.lor v (Z.shiftl 1 CR_MSE_SHIFT)).

Definition val_pcie_is_msa_enabled (bdf : Z) : M (pcie W) Z :=
  let* v := read_reg bdf TYPE01_CR in
  ret (if truthy (Z.land v (Z.shiftl 1 CR_MSE_SHIFT)) then 0 else 1).

Definition val_pcie_clear_urd (bdf : Z) : M (pcie W) unit :=
  let* base := pciecs_base bdf in
  update_reg bdf (u32 (base + DCTLR_OFFSET)) (λ v,
    Z.lor (Z.land v DCTLR_MASK) (Z.shiftl 1 (DCTLR_DSR_SHIFT + DSR_URD_SHIFT))).

Definition val_pcie_is_urd (bdf : Z) : M (pcie W) Z :=
  let* base := pciecs_base bdf in
  let* v := read_reg bdf (u32 (base + DCTLR_OFFSET)) in
  let v := Z.land (Z.shiftr v DCTLR_DSR_SHIFT) DCTLR_DSR_MASK in
  ret (if truthy (Z.land (Z.shiftr v DSR_URD_SHIFT) DSR_URD_MASK) then 1 else 0).

Definition val_pcie_clear_device_status_error (bdf : Z) : M (pcie W) unit :=
  let* base := pciecs_base bdf in
  update_reg bdf (u32 (base + DCTLR_OFFSET)) (λ v, Z.lor v (Z.shiftl 0xF DCTLR_DSR_SHIFT)).

Definition val_pcie_is_device_status_error (bdf : Z) : M (pcie W) Z :=
  let* base := pciecs_base bdf in
  let* v := read_reg bdf (u32 (base + DCTLR_OFFSET)) in
  ret (if truthy (Z.land v (Z.shiftl 0xF DCTLR_DSR_SHIFT)) then 1 else 0).

Definition val_pcie_clear_sig_target_abort (bdf : Z) : M (pcie W) unit :=
  update_reg bdf TYPE01_CR (λ v, Z.lor v (Z.shiftl 1 SR_STA_SHIFT)) ;;
  update_reg bdf TYPE1_SEC_STA (λ v, Z.lor v (Z.shiftl 1 SSR_STA_SHIFT)).

Definition val_pcie_is_sig_target_abort (bdf : Z) : M (pcie W) Z :=
  let* r1 := val_pcie_read_cfg bdf TYPE01_CR None in
  let* r2 := val_pcie_read_cfg bdf TYPE1_SEC_STA None in
  let* status_val := use (snd r1) in
  if truthy (Z.land (Z.shiftr status_val SR_STA_SHIFT) SR_STA_MASK) then ret 1
  else
    let* sec_status_val := use (snd r2) in
    ret (if truthy (Z.land (Z.shiftr sec_status_val SSR_STA_SHIFT) SSR_STA_MASK) then 1 else 0).

Definition ERU_MASK : Z :=
  Z.lor (Z.lor (Z.lor (Z.shiftl 1 DCTLR_CERE_SHIFT) (Z.shiftl 1 DCTLR_NFERE_SHIFT))
    (Z.shiftl 1 DCTLR_FERE_SHIFT)) (Z.shiftl 1 DCTLR_URRE_SHIFT).

(** The capability is looked up between the two updates; the lookup leaves
    [reg_value] alone, so a failing second read would leave the first value. *)
Definition val_pcie_enable_eru (bdf : Z) : M (pcie W) unit :=
  let* v := read_reg bdf TYPE01_CR in
  val_pcie_write_cfg bdf TYPE01_CR (Z.lor v (Z.shiftl 1 CR_SERRE_SHIFT)) ;;
  let* base := pciecs_base bdf in
  let* r := val_pcie_read_cfg bdf (u32 (base + DCTLR_OFFSET)) (Some v) in
  let* v := use (snd r) in
  val_pcie_write_cfg bdf (u32 (base + DCTLR_OFFSET)) (Z.lor v ERU_MASK).

Definition ERU_DIS_MASK : Z := u32 (Z.lnot ERU_MASK).

Definition val_pcie_disable_eru (bdf : Z) : M (pcie W) unit :=
  let* v := read_reg bdf TYPE01_CR in
  val_pcie_write_cfg bdf TYPE01_CR (Z.land v (u32 (Z.lnot (Z.shiftl 1 CR_SERRE_SHIFT)))) ;;
  let* base := pciecs_base bdf in
  let* r := val_pcie_read_cfg bdf (u32 (base + DCTLR_OFFSET)) (Some v) in
  let* v := use (snd r) in
  val_pcie_write_cfg bdf (u32 (base + DCTLR_OFFSET)) (Z.land v ERU_DIS_MASK).

Definition val_pcie_data_link_layer_status (bdf : Z) : M (pcie W) Z :=
  let* base := pciecs_base bdf in
  let* v := read_reg bdf (u32 (base + LCAPR_OFFSET)) in
  if truthy (Z.shiftr (Z.land v LCAPR_DLLLARC_MASK) LCAPR_DLLLARC_SHIFT) then
    let* r := val_pcie_find_capability bdf PCIE_CAP CID_PCIECS (Some base) in
    let* base := use (snd r) in
    let* v := read_reg bdf (u32 (base + LCTRLR_OFFSET)) in
    ret (Z.shiftr (Z.land v LSTAT_DLLLA_MASK) LSTAT_DLLLA_SHIFT)
  else ret PCIE_DLL_LINK_ACTIVE_NOT_SUPPORTED.

Definition val_pcie_check_interrupt_status (bdf : Z) : M (pcie W) Z :=
  let* v := read_reg bdf TYPE01_CR in
  ret (Z.land (Z.shiftr v SR_IS_SHIFT) SR_IS_MASK).

Definition val_pcie_link_cap_support (bdf : Z) : M (pcie W) Z :=
  let test offset (next : M (pcie W) Z) : M (pcie W) Z :=
    let* r := val_pcie_read_cfg bdf offset (Some 0xFFFFFFFF) in
    let* v := use (snd r) in
    if negb (v =? 0) then ret 1 else next in
  let* base := pciecs_base bdf in
  test (u32 (base + LCAPR_OFFSET)) (
  test (u32 (base + LCTRLR_OFFSET)) (
  test (u32 (base + LCAP2R_OFFSET)) (
  test (u32 (base + LCTL2R_OFFSET)) (
  ret 0)))).

Definition val_pcie_mem_enable (bdf : Z) : M (pcie W) unit :=
  update_reg bdf COMMAND_REG_OFFSET (λ v, Z.lor (Z.lor v REG_ACC_DATA) SERR_ENABLE).

(** * Compliance of a bit field *)

(** A left shift of a 32-bit value; the standard leaves a count of 32 or more open. *)
Definition shl32 (a n : Z) : M (pcie W) Z :=
  if n <? 32 then ret (u32 (Z.shiftl a n)) else fail Undef.

Definition shr32 (a n : Z) : M (pcie W) Z :=
  if n <? 32 then ret (Z.shiftr a n) else fail Undef.

Definition REG_MASK (end_ start : Z) : M (pcie W) Z :=
  let* a := shl32 (u32 (Z.lnot 0)) start in
  let* b := shl32 1 (end_ + 1) in
  shr32 (Z.land a (u32 (b - 1))) start.

Definition REG_SHIFT (alignment_byte_cnt start : Z) : Z := alignment_byte_cnt * BITS_IN_BYTE + start.

Definition WARNING : list Z := chars "WARNING".

(** The test of the attribute: what is written, what is read back, and the two
    values compared at the end. *)
Definition attribute_check (bdf reg shift mask reg_value : Z) (attr : BITFIELD_ATTR_TYPE)
    : M (pcie W) (Z * Z) :=
  match attr with
  | HW_INIT | READ_ONLY | STICKY_RO =>
      let* m := shl32 mask shift in
      let ow := Z.lxor reg_value m in
      val_pcie_write_cfg bdf reg ow ;;
      let* r := val_pcie_read_cfg bdf reg (Some ow) in
      let* ow := use (snd r) in
      ret (ow, reg_value)
  | RSVDP_RO =>
      val_pcie_write_cfg bdf reg reg_value ;;
      let* r := val_pcie_read_cfg bdf reg (Some reg_value) in
      let* ow := use (snd r) in
      let* ow := shr32 ow shift in
      ret (Z.land ow mask, 0)
  | RSVDZ_RO =>
      let* m := shl32 mask shift in
      let ow := Z.land reg_value (u32 (Z.lnot m)) in
      val_pcie_write_cfg bdf reg ow ;;
      let* r := val_pcie_read_cfg bdf reg (Some ow) in
      let* ow := use (snd r) in
      ret (ow, reg_value)
  | READ_WRITE | STICKY_RW =>
      let* m := shl32 mask shift in
      let ow := Z.lxor reg_value m in
      val_pcie_write_cfg bdf reg ow ;;
      let* r := val_pcie_read_cfg bdf reg (Some reg_value) in
      let* v := use (snd r) in
      val_pcie_write_cfg bdf reg reg_value ;;
      ret (ow, v)
  end.

Definition bitfield_test (bdf cap_base : Z) (e : pcie_cfgreg_bitfield_entry) : M (pcie W) Z :=
  let alignment_byte_cnt := Z.land (bf_reg_offset e) WORD_ALIGN_MASK in
  let reg := u32 (cap_base + (bf_reg_offset e - alignment_byte_cnt)) in
  let shift := REG_SHIFT alignment_byte_cnt (bf_start e) in
  let* reg_value := read_reg bdf reg in
  val_pcie_write_cfg bdf reg reg_value ;;
  let* r := val_pcie_read_cfg bdf reg (Some reg_value) in
  let* reg_value := use (snd r) in
  let* v := shr32 reg_value shift in
  let* mask := REG_MASK (bf_end e) (bf_start e) in
  if negb (Z.land v mask =? cfg_value e) then
    ret (if Str.val_strcmp (err_str1 e) WARNING =? 0 then 0 else 1)
  else
    match bf_attr e with
    | None => ret 1
    | Some attr =>
        let* c := attribute_check bdf reg shift mask reg_value attr in
        if negb (fst c =? snd c) then
          ret (if Str.val_strcmp (err_str2 e) WARNING =? 0 then 0 else 1)
        else ret 0
    end.

Definition val_pcie_bitfield_check (bdf : Z) (e : pcie_cfgreg_bitfield_entry) : M (pcie W) Z :=
  let in_cap type id :=
    let* r := val_pcie_find_capability bdf type id None in
    if negb (fst r =? PCIE_SUCCESS) then ret (fst r)
    else let* base := use (snd r) in bitfield_test bdf base e in
  match reg_type e with
  | Some HEADER => bitfield_test bdf 0 e
  | Some PCIE_CAP => in_cap PCIE_CAP (cap_id e)
  | Some PCIE_ECAP => in_cap PCIE_ECAP (ecap_id e)
  | None => ret 1
  end.

(** * Base address registers *)

(** [val_pcie_get_mmio_bar]: the two words of [*base], the low one first.  A
    memory type that is neither 32 nor 64 bits leaves the high word alone. *)
Fixpoint mmio_bar_loop (fuel : nat) (bdf index : Z) (base_ptr : Z * Z) : M (pcie W) (Z * Z) :=
  match fuel with
  | O => out_of_fuel
  | S fuel =>
      if negb (index <? TYPE0_MAX_BARS) then ret (0, 0)
      else
        let* bar_low32bits := read_reg bdf (u32 (TYPE01_BAR + index * 4)) in
        if Z.land (Z.shiftr bar_low32bits BAR_MIT_SHIFT) BAR_MIT_MASK =? MMIO then
          let mdt := Z.land (Z.shiftr bar_low32bits BAR_MDT_SHIFT) BAR_MDT_MASK in
          let low := u32 (Z.shiftl (Z.land (Z.shiftr bar_low32bits BAR_BASE_SHIFT) BAR_BASE_MASK)
                            BAR_BASE_SHIFT) in
          if mdt =? BITS_64 then
            let* high := read_reg bdf (u32 (TYPE01_BAR + (index + 1) * 4)) in ret (low, high)
          else if mdt =? BITS_32 then ret (low, 0)
          else ret (low, snd base_ptr)
        else
          let index := index + 1 in
          let* header := val_pcie_function_header_type bdf in
          if (header =? TYPE1_HEADER) && (index =? TYPE1_MAX_BARS) then ret (0, 0)
          else mmio_bar_loop fuel bdf index base_ptr
  end.

Definition val_pcie_get_mmio_bar (bdf : Z) (base_ptr : Z * Z) : M (pcie W) (Z * Z) :=
  mmio_bar_loop (S (Z.to_nat TYPE0_MAX_BARS)) bdf 0 base_ptr.

Definition pci_bar_size_helper (bdf offset : Z) : M (pcie W) Z :=
  let* bar := val_pcie_read_cfg bdf offset None in
  val_pcie_write_cfg bdf offset 0xFFFFFFFF ;;
  let* val := val_pcie_read_cfg bdf offset None in
  let* bar := use (snd bar) in
  val_pcie_write_cfg bdf offset bar ;;
  use (snd val).

(** The offset after the register, [*addr] and [*size]. *)
Definition val_pcie_get_bar (bdf offset : Z) : M (pcie W) (Z * Z * Z) :=
  let* size_0 := pci_bar_size_helper bdf offset in
  if size_0 =? 0 then ret (offset, 0, 0)
  else
    let* bar_0 := read_reg bdf offset in
    let size_0 := Z.land size_0 BAR_MASK in
    let offset := u32 (offset + 4) in
    if BAR_REG bar_0 =? BAR_64_BIT then
      let* bar_4 := read_reg bdf offset in
      let* size_4 := pci_bar_size_helper bdf offset in
      let bar_0 := Z.land bar_0 BAR_MASK in
      ret (u32 (offset + 4), Z.lor (u64 (Z.shiftl bar_4 32)) bar_0,
           u64 (u64 (Z.lnot (Z.lor (u64 (Z.shiftl size_4 32)) size_0)) + 1))
    else
      ret (offset, Z.land bar_0 BAR_MASK, u32 (u32 (Z.lnot size_0) + 1)).

Definition bar_mem_types (bdf status : Z) : M (pcie W) (bool * Z) :=
  let* header := val_pcie_function_header_type bdf in
  if header =? TYPE0_HEADER then
    let* data := read_reg bdf TYPE01_BAR in
    if truthy data then
      if negb (Z.land (Z.shiftr data BAR_MDT_SHIFT) BAR_MDT_MASK =? 0) then ret (true, 1)
      else ret (false, status)
    else ret (false, status)
  else ret (false, status).

(** The [break] leaves the loop over the functions only. *)
Definition val_pcie_scan_bridge_devices_and_check_memtype (bdf : Z) : M (pcie W) Z :=
  let* v := read_reg bdf TYPE1_PBN in
  let sec_bus := Z.land (Z.shiftr v SECBN_SHIFT) SECBN_MASK in
  let sub_bus := Z.land (Z.shiftr v SUBBN_SHIFT) SUBBN_MASK in
  fold_from (Z.to_nat (sub_bus + 1 - sec_bus)) sec_bus 0 (λ _ status,
    fold_from (Z.to_nat PCIE_MAX_DEV) 0 status (λ _ status,
      let* r := fold_from (Z.to_nat PCIE_MAX_FUNC) 0 (false, status) (λ _ acc,
        if fst acc then ret acc else bar_mem_types bdf (snd acc)) in
      ret (snd r))).

(** * The table of functions *)

Definition bdf_table : M (pcie W) pcie_device_bdf_table :=
  let* t := gets p_bdf in
  match t with
  | Some t => ret t
  | None => fail NullDeref
  end.

Definition val_pcie_bdf_table_ptr : M (pcie W) (option pcie_device_bdf_table) := gets p_bdf.

(** [table->device[i]], read and written. *)
Definition device_at (i : Z) : M (pcie W) pcie_device_attr :=
  let* t := bdf_table in
  match bdf_device t !! Z.to_nat i with
  | Some a => ret a
  | None => fail OutOfBounds
  end.

Definition set_device (i : Z) (f : pcie_device_attr → pcie_device_attr) : M (pcie W) unit :=
  let* t := bdf_table in
  match bdf_device t !! Z.to_nat i with
  | Some a => modify (pset_bdf (Some (mk_bdf_table (bdf_entries t) (<[Z.to_nat i := f a]> (bdf_device t)))))
  | None => fail OutOfBounds
  end.

Definition set_entries (n : Z) : M (pcie W) unit :=
  let* t := bdf_table in modify (pset_bdf (Some (mk_bdf_table n (bdf_device t)))).

(** [g_pcie_bdf_table->device[g_pcie_bdf_table->num_entries++].bdf = bdf;] *)
Definition append_bdf (bdf : Z) : M (pcie W) unit :=
  let* t := bdf_table in
  set_entries (u32 (bdf_entries t + 1)) ;;
  set_device (bdf_entries t) (λ a, mk_attr bdf (a_rp_bdf a)).

Definition is_root_port (dp_type : Z) : bool := (dp_type =? RP) || (dp_type =? iEP_RP).

(** Iterations that walk the whole table of functions. *)
Definition table_fuel s : nat :=
  match p_bdf s with
  | None => 1
  | Some t => S (Z.to_nat (bdf_entries t))
  end.

Fixpoint rootport_loop (fuel : nat) (bdf index : Z) (reg : option Z) : M (pcie W) (Z * Z) :=
  match fuel with
  | O => out_of_fuel
  | S fuel =>
      let* t := bdf_table in
      if negb (index <? bdf_entries t) then ret (1, 0)
      else
        let* a := device_at index in
        let rp_bdf := a_bdf a in
        let* r := val_pcie_read_cfg rp_bdf TYPE1_PBN reg in
        let* v := use (snd r) in
        let sec_bus := Z.land (Z.shiftr v SECBN_SHIFT) SECBN_MASK in
        let sub_bus := Z.land (Z.shiftr v SUBBN_SHIFT) SUBBN_MASK in
        let* dp_type := val_pcie_device_port_type rp_bdf in
        if is_root_port dp_type && (sec_bus <=? PCIE_EXTRACT_BDF_BUS bdf) &&
           (PCIE_EXTRACT_BDF_BUS bdf <=? sub_bus) &&
           (PCIE_EXTRACT_BDF_SEG rp_bdf =? PCIE_EXTRACT_BDF_SEG bdf)
        then ret (0, rp_bdf)
        else rootport_loop fuel bdf (index + 1) (snd r)
  end.

(** The status and [*rp_bdf]. *)
Definition val_pcie_get_rootport (bdf : Z) : M (pcie W) (Z * Z) :=
  let* dp_type := val_pcie_device_port_type bdf in
  if is_root_port dp_type then ret (0, bdf)
  else if (dp_type =? RCiEP) || (dp_type =? RCEC) then ret (1, 0xffffffff)
  else λ s, rootport_loop (table_fuel s) bdf 0 None s.

Fixpoint parent_loop (fuel : nat) (dsf_bus tbl_index : Z) (rp_bdf : option Z)
    : M (pcie W) (Z * option Z) :=
  match fuel with
  | O => out_of_fuel
  | S fuel =>
      let* t := bdf_table in
      if negb (tbl_index <? bdf_entries t) then ret (1, rp_bdf)
      else
        let* a := device_at tbl_index in
        let* dp_type := val_pcie_device_port_type (a_bdf a) in
        if is_root_port dp_type then
          let* v := read_reg (a_bdf a) TYPE1_PBN in
          if (dsf_bus =? Z.land (Z.shiftr v SECBN_SHIFT) SECBN_MASK) &&
             (dsf_bus <=? Z.land (Z.shiftr v SUBBN_SHIFT) SUBBN_MASK)
          then ret (0, Some (a_bdf a))
          else parent_loop fuel dsf_bus (tbl_index + 1) rp_bdf
        else parent_loop fuel dsf_bus (tbl_index + 1) rp_bdf
  end.

Definition val_pcie_parent_is_rootport (dsf_bdf : Z) (rp_bdf : option Z) : M (pcie W) (Z * option Z) :=
  λ s, parent_loop (table_fuel s) (u8 (PCIE_EXTRACT_BDF_BUS dsf_bdf)) 0 rp_bdf s.

(** [type1] is the first type 1 function found, with [type1_flag]. *)
Fixpoint downstream_loop (fuel : nat) (sec_bus sub_bus seg index dsf_bdf : Z) (type1 : option Z)
    : M (pcie W) (Z * Z) :=
  match fuel with
  | O => out_of_fuel
  | S fuel =>
      let* t := bdf_table in
      if negb (index <? bdf_entries t) then
        match type1 with
        | Some b => ret (0, b)
        | None => ret (1, dsf_bdf)
        end
      else
        let* a := device_at index in
        if (sec_bus <=? PCIE_EXTRACT_BDF_BUS (a_bdf a)) &&
           (PCIE_EXTRACT_BDF_BUS (a_bdf a) <=? sub_bus) &&
           (PCIE_EXTRACT_BDF_SEG (a_bdf a) =? seg)
        then
          let* header := val_pcie_function_header_type (a_bdf a) in
          if header =? TYPE0_HEADER then ret (0, a_bdf a)
          else downstream_loop fuel sec_bus sub_bus seg (index + 1) (a_bdf a)
                 (match type1 with Some b => Some b | None => Some (a_bdf a) end)
        else downstream_loop fuel sec_bus sub_bus seg (index + 1) dsf_bdf type1
  end.

(** The status and [*dsf_bdf]. *)
Definition val_pcie_get_downstream_function (bdf : Z) : M (pcie W) (Z * Z) :=
  let* v := read_reg bdf TYPE1_PBN in
  λ s, downstream_loop (table_fuel s) (Z.land (Z.shiftr v SECBN_SHIFT) SECBN_MASK)
         (Z.land (Z.shiftr v SUBBN_SHIFT) SUBBN_MASK) (PCIE_EXTRACT_BDF_SEG bdf) 0 0 None s.

(** [ecam_index] is a [uint8_t]. *)
Fixpoint ecam_base_loop (fuel : nat) (bdf ecam_index : Z) : M (pcie W) Z :=
  match fuel with
  | O => out_of_fuel
  | S fuel =>
      let* n := val_pcie_get_info PCIE_INFO_NUM_ECAM 0 in
      if negb (ecam_index <? n) then ret 0
      else
        let* seg := val_pcie_get_info PCIE_INFO_SEGMENT ecam_index in
        if u16 (PCIE_EXTRACT_BDF_SEG bdf) =? seg then
          let* header := val_pcie_function_header_type bdf in
          if header =? TYPE0_HEADER then val_pcie_get_info PCIE_INFO_ECAM ecam_index
          else
            let* v := read_reg bdf TYPE1_PBN in
            let* start_bus := val_pcie_get_info PCIE_INFO_START_BUS ecam_index in
            let* end_bus := val_pcie_get_info PCIE_INFO_END_BUS ecam_index in
            if (start_bus <=? Z.land (Z.shiftr v SECBN_SHIFT) SECBN_MASK) &&
               (Z.land (Z.shiftr v SUBBN_SHIFT) SUBBN_MASK <=? end_bus)
            then val_pcie_get_info PCIE_INFO_ECAM ecam_index
            else ecam_base_loop fuel bdf (u8 (ecam_index + 1))
        else ecam_base_loop fuel bdf (u8 (ecam_index + 1))
  end.

Definition val_pcie_get_ecam_base (bdf : Z) : M (pcie W) Z := λ s,
  ecam_base_loop (ecam_fuel s) bdf 0 s.

Fixpoint ecam_index_loop (fuel : nat) (bdf index : Z) (out : option Z) : M (pcie W) (Z * option Z) :=
  match fuel with
  | O => out_of_fuel
  | S fuel =>
      let bus_num := PCIE_EXTRACT_BDF_BUS bdf in
      let* n := val_pcie_get_info PCIE_INFO_NUM_ECAM 0 in
      if negb (index <? n) then ret (1, out)
      else
        let* seg := val_pcie_get_info PCIE_INFO_SEGMENT index in
        let* start_bus := val_pcie_get_info PCIE_INFO_START_BUS index in
        let* end_bus := val_pcie_get_info PCIE_INFO_END_BUS index in
        if (u16 (PCIE_EXTRACT_BDF_SEG bdf) =? seg) && (start_bus <=? bus_num) && (bus_num <=? end_bus) then
          let* header := val_pcie_function_header_type bdf in
          if header =? TYPE0_HEADER then ret (0, Some index)
          else
            let* v := read_reg bdf TYPE1_PBN in
            if (start_bus <=? Z.land (Z.shiftr v SECBN_SHIFT) SECBN_MASK) &&
               (Z.land (Z.shiftr v SUBBN_SHIFT) SUBBN_MASK <=? end_bus)
            then ret (0, Some index)
            else ecam_index_loop fuel bdf (index + 1) out
        else ecam_index_loop fuel bdf (index + 1) out
  end.

Definition val_pcie_get_ecam_index (bdf : Z) (ecam_index : option Z) : M (pcie W) (Z * option Z) := λ s,
  ecam_index_loop (ecam_fuel s) bdf 0 ecam_index s.

(** [val_pcie_populate_device_rootport]: the bound is read again in every turn,
    and the loop does not change it. *)
Definition val_pcie_populate_device_rootport : M (pcie W) Z :=
  let* t := bdf_table in
  for_upto (R := Empty_set) (bdf_entries t) (λ i,
    let* a := device_at i in
    let* r := val_pcie_get_rootport (a_bdf a) in
    set_device i (λ a, mk_attr (a_bdf a) (snd r)) ;;
    ret None) ;;
  ret 0.

Definition pal_pcie_check_device_valid (bdf : Z) : Z := 0.

(** The body of the innermost loop of [val_pcie_create_device_bdf_table];
    [Some 1] is the early return. *)
Definition probe_function (seg_num bus_index dev_index func_index : Z) : M (pcie W) (option Z) :=
  let bdf := PCIE_CREATE_BDF seg_num bus_index dev_index func_index in
  let* r := val_pcie_read_cfg bdf TYPE01_VIDR None in
  if fst r =? PCIE_NO_MAPPING then ret (Some 1)
  else
    let* reg_value := use (snd r) in
    if negb (reg_value =? PCIE_UNKNOWN_RESPONSE) then
      let* hb := val_pcie_is_host_bridge bdf in
      if truthy hb then ret None
      else
        let* c := val_pcie_find_capability bdf PCIE_CAP CID_PCIECS None in
        if negb (fst c =? PCIE_SUCCESS) then ret None
        else if truthy (pal_pcie_check_device_valid bdf) then ret None
        else append_bdf bdf ;; ret None
    else ret None.

(** Bus numbers are below 2^32 - 1, so [bus_index] does not wrap. *)
Definition scan_ecam (ecam_index : Z) : M (pcie W) (option Z) :=
  let* seg_num := val_pcie_get_info PCIE_INFO_SEGMENT ecam_index in
  let* start_bus := val_pcie_get_info PCIE_INFO_START_BUS ecam_index in
  let* end_bus := val_pcie_get_info PCIE_INFO_END_BUS ecam_index in
  for_from (Z.to_nat (end_bus + 1 - start_bus)) start_bus (λ bus_index,
    for_upto PCIE_MAX_DEV (λ dev_index,
      for_upto PCIE_MAX_FUNC (λ func_index,
        probe_function seg_num bus_index dev_index func_index))).

Definition val_pcie_create_device_bdf_table : M (pcie W) Z :=
  let* t := gets p_bdf in
  match t with
  | None => ret 1
  | Some _ =>
      set_entries 0 ;;
      let* num_ecam := val_pcie_get_info PCIE_INFO_NUM_ECAM 0 in
      if num_ecam =? 0 then ret 1
      else
        let* r := for_upto num_ecam scan_ecam in
        match r with
        | Some e => ret e
        | None => val_pcie_populate_device_rootport ;; ret 0
        end
  end.

(** [uint32_t] in the source; the null pointer is not tested. *)
Definition val_pcie_get_num_bdf : M (pcie W) Z :=
  let* t := bdf_table in
  ret (if bdf_entries t =? 0 then VAL_ERROR else bdf_entries t).

(** The search goes on from the index [total_entries - *num_bdf]; the three
    output parameters are [*num_bdf], [*bdf] and [*doe_cap_base]. *)
Fixpoint doe_loop (fuel : nat) (total_entries num_bdf : Z) (bdf doe_cap_base pcie_doe_cap_base : option Z)
    : M (pcie W) (Z * Z * option Z * option Z) :=
  match fuel with
  | O => out_of_fuel
  | S fuel =>
      if num_bdf =? 0 then ret (VAL_ERROR, num_bdf, bdf, doe_cap_base)
      else
        let idx := u32 (total_entries - num_bdf) in
        let num_bdf := num_bdf - 1 in
        let* a := device_at idx in
        let next := doe_loop fuel total_entries num_bdf bdf doe_cap_base in
        if negb (PCIE_EXTRACT_BDF_FUNC (a_bdf a) =? 0) then next pcie_doe_cap_base
        else
          let* dp_type := val_pcie_device_port_type (a_bdf a) in
          if negb (dp_type =? EP) && negb (dp_type =? RCiEP) then next pcie_doe_cap_base
          else if (dp_type =? EP) && (a_rp_bdf a =? 0) then next pcie_doe_cap_base
          else
            let* r := val_pcie_find_capability (a_bdf a) PCIE_ECAP DOE_CAP_ID pcie_doe_cap_base in
            if fst r =? PCIE_CAP_NOT_FOUND then next (snd r)
            else ret (VAL_SUCCESS, num_bdf, Some (a_bdf a), snd r)
  end.

Definition val_pcie_find_doe_capability (num_bdf : Z) (bdf doe_cap_base : option Z)
    : M (pcie W) (Z * Z * option Z * option Z) :=
  let* t := bdf_table in
  if bdf_entries t =? 0 then ret (VAL_ERROR, num_bdf, bdf, doe_cap_base)
  else doe_loop (S (Z.to_nat num_bdf)) (bdf_entries t) num_bdf bdf doe_cap_base (Some 0).

(** * Order of the functions *)

Definition val_pcie_increment_busdev (start_bdf : Z) : Z :=
  let seg := PCIE_EXTRACT_BDF_SEG start_bdf in
  let bus := PCIE_EXTRACT_BDF_BUS start_bdf in
  let dev := PCIE_EXTRACT_BDF_DEV start_bdf in
  if negb (dev =? PCIE_MAX_DEV) then PCIE_CREATE_BDF seg bus (dev + 1) 0
  else PCIE_CREATE_BDF seg (bus + 1) 0 0.

(** [while (ecam_cnt--)]: the last window of the segment. *)
Fixpoint segment_index (n : nat) (seg : Z) : M (pcie W) (option Z) :=
  match n with
  | O => ret None
  | S n =>
      let* v := val_pcie_get_info PCIE_INFO_SEGMENT (Z.of_nat n) in
      if seg =? v then ret (Some (Z.of_nat n)) else segment_index n seg
  end.

Definition val_pcie_increment_bdf (bdf : Z) : M (pcie W) Z :=
  let seg := PCIE_EXTRACT_BDF_SEG bdf in
  let bus := PCIE_EXTRACT_BDF_BUS bdf in
  let dev := PCIE_EXTRACT_BDF_DEV bdf in
  let func := PCIE_EXTRACT_BDF_FUNC bdf in
  let* ecam_cnt := val_pcie_get_info PCIE_INFO_NUM_ECAM 0 in
  let* found := segment_index (Z.to_nat ecam_cnt) seg in
  match found with
  | None => ret 0
  | Some ecam_index =>
      if func <? PCIE_MAX_FUNC - 1 then ret (PCIE_CREATE_BDF seg bus dev (func + 1))
      else if dev <? PCIE_MAX_DEV - 1 then ret (PCIE_CREATE_BDF seg bus (dev + 1) 0)
      else
        let* end_bus := val_pcie_get_info PCIE_INFO_END_BUS ecam_index in
        if bus <? end_bus then ret (PCIE_CREATE_BDF seg (bus + 1) 0 0)
        else if ecam_index + 1 <? ecam_cnt then
          let* bus := val_pcie_get_info PCIE_INFO_START_BUS (ecam_index + 1) in
          let* seg := val_pcie_get_info PCIE_INFO_SEGMENT (ecam_index + 1) in
          ret (PCIE_CREATE_BDF seg bus 0 0)
        else ret 0
  end.
End Pcie.
