(* ===== verification/PcieEnum.v ===== *)
(** The platform side of PCIe: the table of windows of the platform, its own
    configuration accessors, the searches built on them, and the enumeration that
    numbers the buses and places the base address registers (pal_pcie.c,
    pal_pcie_enumeration.c, pal_fvp_pcie.c), with the calls of val_host_pcie.c
    that reach it. *)
From S2P Require Import Prelude Defs Pcie.

(** * The platform *)

Definition platform_pcie_cfg : PCIE_INFO_TABLE := mk_info 1 [mk_block 0x40000000 0 0 0xFF].

Record PCIE_READ_BLOCK : Type := mk_read_block {
  rb_class_code : Z; rb_device_id : Z; rb_vendor_id : Z; rb_bus : Z; rb_dev : Z; rb_func : Z; rb_seg : Z
}.

Definition platform_pcie_device_hierarchy : list PCIE_READ_BLOCK :=
  [mk_read_block 0xFF000000 0xFF80 0x13B5 0 0 0 0;
   mk_read_block 0x6040000 0xDEF 0x13B5 0 0xF 0 0;
   mk_read_block 0x6040000 0xDEF 0x13B5 0 0x1E 0 0;
   mk_read_block 0xFF000000 0xFF80 0x13B5 1 0 0 0;
   mk_read_block 0x1060101 0xACED 0xABC 2 0 0 0].

Definition PLATFORM_OVERRIDE_PCIE_MAX_BUS : Z := 0x9.
Definition HEADER_OFFSET : Z := 0xC.
Definition PCIE_HEADER_TYPE (header_value : Z) : Z := Z.land (Z.shiftr header_value 16) 0x3.
Definition DEVICE_ID_OFFSET : Z := 16.
Definition BAR_MEM_SPACE : Z := 0.
Definition BAR_TYPE (bar_reg_value : Z) : Z := Z.land bar_reg_value 0x1.
Definition BAR0_OFFSET : Z := 0x10.
Definition TYPE1_BAR_MAX_OFF : Z := 0x14.
Definition TYPE0_BAR_MAX_OFF : Z := 0x24.
Definition MEM_BASE32_LIM_MASK : Z := 0xFFF00000.
Definition MEM_BASE64_LIM_MASK : Z := 0xFFFFFFFFFFF00000.
Definition NON_PRE_FET_OFFSET : Z := 0x20.
Definition PRE_FET_OFFSET : Z := 0x24.
Definition BAR_INCREMENT : Z := 0x100000.
Definition PRI_BUS_CLEAR_MASK : Z := 0xFFFFFF00.
Definition REG_MASK_SHIFT (bar_value : Z) : Z := Z.shiftr (Z.land bar_value MEM_BASE32_LIM_MASK) 16.
Definition BUS_NUM_REG_CFG (sub_bus sec_bus bus : Z) : Z :=
  Z.lor (Z.lor (u32 (Z.shiftl sub_bus 16)) (u32 (Z.shiftl sec_bus 8))) bus.

(** The initial values of the globals of the enumeration. *)
Definition pal_vars_init (x : pal_var) : Z :=
  match x with
  | enumerate => 1
  | g_bar64_p_start => 0x4000100000
  | g_rp_bar64_value => 0x4000000000
  | g_bar32_np_start => 0x50000000
  | g_bar32_p_start => 0x50600000
  | g_rp_bar32_value => 0x50850000
  | _ => 0
  end.

(** The globals of both layers before [val_pcie_create_info_table]. *)
Definition pcie_init {W : Type} (w : W) : pcie W := mk_pcie w None None pal_vars_init.

Section PcieEnum.
Context {W : Type} `{MmioBus W}.
Implicit Types s : pcie W.

Definition pal_pcie_create_info_table : M (pcie W) unit :=
  modify (pset_info (Some platform_pcie_cfg)).

(** [ecam_index] is a [uint8_t]. *)
Fixpoint pal_ecam_loop (fuel : nat) (seg bus ecam_index : Z) : option Z :=
  match fuel with
  | O => None
  | S fuel =>
      if negb (ecam_index <? ecam_entries platform_pcie_cfg) then Some 0
      else
        match ecam_block platform_pcie_cfg !! Z.to_nat ecam_index with
        | None => None
        | Some b =>
            if (start_bus_num b <=? bus) && (bus <=? end_bus_num b) && (seg =? segment_num b)
            then Some (ecam_base b)
            else pal_ecam_loop fuel seg bus (u8 (ecam_index + 1))
        end
  end.

Definition pal_pcie_ecam_base (seg bus : Z) : Z :=
  default 0 (pal_ecam_loop (S (Z.to_nat (ecam_entries platform_pcie_cfg))) seg bus 0).

Definition pal_pcie_read_cfg (seg bus dev func offset : Z) : M (pcie W) Z :=
  pal_mmio_read32 (pal_pcie_ecam_base seg bus + cfg_addr bus dev func + offset).

(** The walk of the capability list for the PCI Express capability, as the
    searches below do it; the result is its offset with the header read there. *)
Fixpoint pal_cap_loop (fuel : nat) (seg bus dev fn next : Z) : M (pcie W) (option (Z * Z)) :=
  match fuel with
  | O => out_of_fuel
  | S fuel =>
      if next =? 0 then ret None
      else
        let* v := pal_pcie_read_cfg seg bus dev fn next in
        if Z.land v PCIE_CIDR_MASK =? CID_PCIECS then ret (Some (next, v))
        else pal_cap_loop fuel seg bus dev fn (Z.land (Z.shiftr v PCIE_NCPR_SHIFT) PCIE_NCPR_MASK)
  end.

Definition pal_find_pciecs (seg bus dev fn : Z) : M (pcie W) (option (Z * Z)) :=
  let* v := pal_pcie_read_cfg seg bus dev fn TYPE01_CPR in
  pal_cap_loop CAP_FUEL seg bus dev fn (Z.land v TYPE01_CPR_MASK).

Definition pal_pcie_get_pcie_type (seg bus dev fn : Z) : M (pcie W) Z :=
  let* c := pal_find_pciecs seg bus dev fn in
  ret (match c with
       | Some (_, v) => Z.land (Z.shiftr v PCIE_DEVICE_TYPE_SHIFT) PCIE_DEVICE_TYPE_MASK
       | None => 0
       end).

Definition pal_pcie_get_snoop_bit (seg bus dev fn : Z) : M (pcie W) Z :=
  let* c := pal_find_pciecs seg bus dev fn in
  match c with
  | Some (off, _) =>
      let* v := pal_pcie_read_cfg seg bus dev fn (off + PCI_EXP_DEVCTL) in
      ret (Z.land (Z.shiftr v DEVCTL_SNOOP_BIT) 0x1)
  | None => ret 2
  end.

(** After a match the walk goes on from the word that was read. *)
Fixpoint ext_cap_word_loop (fuel : nat) (seg bus dev fn ext_cap_id offset next : Z) (val : option Z)
    : M (pcie W) (option Z) :=
  match fuel with
  | O => out_of_fuel
  | S fuel =>
      if next =? 0 then ret val
      else
        let* v := pal_pcie_read_cfg seg bus dev fn next in
        if Z.land v PCIE_ECAP_CIDR_MASK =? ext_cap_id then
          let* v := pal_pcie_read_cfg seg bus dev fn (next + offset) in
          ext_cap_word_loop fuel seg bus dev fn ext_cap_id offset
            (Z.land (Z.shiftr v PCIE_ECAP_NCPR_SHIFT) PCIE_ECAP_NCPR_MASK) (Some (Z.land v 0xffff))
        else
          ext_cap_word_loop fuel seg bus dev fn ext_cap_id offset
            (Z.land (Z.shiftr v PCIE_ECAP_NCPR_SHIFT) PCIE_ECAP_NCPR_MASK) val
  end.

Definition pal_pcie_read_ext_cap_word (seg bus dev fn ext_cap_id offset : Z) (val : option Z)
    : M (pcie W) (option Z) :=
  ext_cap_word_loop ECAP_FUEL seg bus dev fn ext_cap_id offset PCIE_ECAP_START val.

(** The status and the numbers [*Seg], [*Bus], [*Dev], [*Func]: the search ends
    at the first function with a PCI Express capability, whatever its type. *)
Fixpoint root_port_loop (fuel : nat) (tbl_index : Z) (sbdf : Z * Z * Z * Z)
    : M (pcie W) (Z * (Z * Z * Z * Z)) :=
  match fuel with
  | O => out_of_fuel
  | S fuel =>
      let* t := bdf_table in
      if negb (tbl_index <? bdf_entries t) then ret (1, sbdf)
      else
        let* a := device_at tbl_index in
        let bdf := a_bdf a in
        let seg := PCIE_EXTRACT_BDF_SEG bdf in
        let bus := PCIE_EXTRACT_BDF_BUS bdf in
        let dev := PCIE_EXTRACT_BDF_DEV bdf in
        let func := PCIE_EXTRACT_BDF_FUNC bdf in
        let* c := pal_find_pciecs seg bus dev func in
        match c with
        | None => root_port_loop fuel (tbl_index + 1) sbdf
        | Some (off, _) =>
            let* v := pal_pcie_read_cfg seg bus dev func (off + CIDR_OFFSET) in
            let dp_type := Z.shiftl 1 (Z.land (Z.shiftr v ((PCIECR_OFFSET - CIDR_OFFSET) * 8 + PCIECR_DPT_SHIFT))
                                         PCIECR_DPT_MASK) in
            if is_root_port dp_type then
              let* v := pal_pcie_read_cfg seg bus dev func BUS_NUM_REG_OFFSET in
              let '(_, in_bus, _, _) := sbdf in
              if (Z.land (Z.shiftr v SECBN_SHIFT) SECBN_MASK <=? in_bus) &&
                 (in_bus <=? Z.land (Z.shiftr v SUBBN_SHIFT) SUBBN_MASK)
              then ret (0, (seg, bus, dev, func))
              else ret (2, sbdf)
            else ret (2, sbdf)
        end
  end.

Definition pal_pcie_get_root_port_bdf (sbdf : Z * Z * Z * Z) : M (pcie W) (Z * (Z * Z * Z * Z)) := λ s,
  root_port_loop (table_fuel s) 0 sbdf s.

(** The status and [*bdf]. *)
Definition val_pcie_get_root_port_bdf (bdf : Z) : M (pcie W) (Z * Z) :=
  let* r := pal_pcie_get_root_port_bdf (PCIE_EXTRACT_BDF_SEG bdf, PCIE_EXTRACT_BDF_BUS bdf,
                                        PCIE_EXTRACT_BDF_DEV bdf, PCIE_EXTRACT_BDF_FUNC bdf) in
  if truthy (fst r) then ret (fst r, bdf)
  else
    let '(seg, bus, dev, func) := snd r in
    ret (0, PCIE_CREATE_BDF seg bus dev func).

Definition val_pcie_get_pcie_type (bdf : Z) : M (pcie W) Z :=
  pal_pcie_get_pcie_type (PCIE_EXTRACT_BDF_SEG bdf) (PCIE_EXTRACT_BDF_BUS bdf)
    (PCIE_EXTRACT_BDF_DEV bdf) (PCIE_EXTRACT_BDF_FUNC bdf).

Definition val_pcie_get_snoop_bit (bdf : Z) : M (pcie W) Z :=
  pal_pcie_get_snoop_bit (PCIE_EXTRACT_BDF_SEG bdf) (PCIE_EXTRACT_BDF_BUS bdf)
    (PCIE_EXTRACT_BDF_DEV bdf) (PCIE_EXTRACT_BDF_FUNC bdf).

Definition val_pcie_read_ext_cap_word (bdf ext_cap_id offset : Z) (val : option Z)
    : M (pcie W) (option Z) :=
  pal_pcie_read_ext_cap_word (PCIE_EXTRACT_BDF_SEG bdf) (PCIE_EXTRACT_BDF_BUS bdf)
    (PCIE_EXTRACT_BDF_DEV bdf) (PCIE_EXTRACT_BDF_FUNC bdf) ext_cap_id offset val.

(** Answers of the platform that do not depend on the device. *)
Definition pal_pcie_p2p_support : Z := PLATFORM_PCIE_P2P_NOT_SUPPORTED.
Definition pal_pcie_device_driver_present (seg bus dev fn : Z) : Z := 1.
Definition pal_get_msi_vectors (Seg Bus Dev Fn : Z) : Z := 0.
Definition pal_pcie_get_rp_transaction_frwd_support (seg bus dev fn : Z) : Z := 1.
Definition pal_pcie_mem_get_offset (bdf mem_type : Z) : Z := MEM_OFFSET_SMALL.
Definition val_pcie_p2p_support : Z := pal_pcie_p2p_support.
Definition val_pcie_device_driver_present (bdf : Z) : Z :=
  pal_pcie_device_driver_present (PCIE_EXTRACT_BDF_SEG bdf) (PCIE_EXTRACT_BDF_BUS bdf)
    (PCIE_EXTRACT_BDF_DEV bdf) (PCIE_EXTRACT_BDF_FUNC bdf).
Definition val_get_msi_vectors (bdf : Z) : Z :=
  pal_get_msi_vectors (PCIE_EXTRACT_BDF_SEG bdf) (PCIE_EXTRACT_BDF_BUS bdf)
    (PCIE_EXTRACT_BDF_DEV bdf) (PCIE_EXTRACT_BDF_FUNC bdf).
Definition val_pcie_get_rp_transaction_frwd_support (bdf : Z) : Z :=
  pal_pcie_get_rp_transaction_frwd_support (PCIE_EXTRACT_BDF_SEG bdf) (PCIE_EXTRACT_BDF_BUS bdf)
    (PCIE_EXTRACT_BDF_DEV bdf) (PCIE_EXTRACT_BDF_FUNC bdf).
Definition val_pcie_get_atomicop_requester_capable (bdf : Z) : Z := 0.
Definition val_pcie_mem_get_offset (bdf mem_type : Z) : Z := pal_pcie_mem_get_offset bdf mem_type.

(** One entry of the hierarchy against the table from index [i]: [Some e] is a
    return, [None] goes on with [i = 0] or, without a match, with [i] at the end. *)
Fixpoint match_device (fuel : nat) (d : PCIE_READ_BLOCK) (i : Z) : M (pcie W) (option Z * Z) :=
  match fuel with
  | O => out_of_fuel
  | S fuel =>
      let* t := bdf_table in
      if negb (i <? bdf_entries t) then ret (None, i)
      else
        let* a := device_at i in
        let bdf := a_bdf a in
        if PCIE_CREATE_BDF (rb_seg d) (rb_bus d) (rb_dev d) (rb_func d) =? bdf then
          let seg := PCIE_EXTRACT_BDF_SEG bdf in
          let bus := PCIE_EXTRACT_BDF_BUS bdf in
          let dev := PCIE_EXTRACT_BDF_DEV bdf in
          let func := PCIE_EXTRACT_BDF_FUNC bdf in
          let* data := pal_pcie_read_cfg seg bus dev func TYPE0_HEADER in
          if negb (Z.land data 0xFFFF =? rb_vendor_id d) then ret (Some 1, i + 1)
          else if negb (Z.shiftr data DEVICE_ID_OFFSET =? rb_device_id d) then ret (Some 1, i + 1)
          else
            let* class_code := pal_pcie_read_cfg seg bus dev func TYPE01_RIDR in
            if negb (Z.shiftr class_code CC_SHIFT =? Z.shiftr (u32 (rb_class_code d)) CC_SHIFT)
            then ret (Some 1, i + 1)
            else ret (None, 0)
        else match_device fuel d (i + 1)
  end.

Fixpoint check_devices (ds : list PCIE_READ_BLOCK) (i : Z) : M (pcie W) Z :=
  match ds with
  | [] => ret 0
  | d :: ds =>
      let* t := bdf_table in
      let* r := (λ s, match_device (table_fuel s) d i s) in
      match fst r with
      | Some e => ret e
      | None => if snd r =? bdf_entries t then ret 1 else check_devices ds (snd r)
      end
  end.

Definition pal_pcie_check_device_list : M (pcie W) Z :=
  let* t := bdf_table in
  if negb (Z.of_nat (length platform_pcie_device_hierarchy) =? bdf_entries t) then ret 1
  else check_devices platform_pcie_device_hierarchy 0.

(** * Configuration accesses of the enumeration *)

(** [g_pcie_info_table->block[i]] *)
Definition info_block (i : Z) : M (pcie W) PCIE_INFO_BLOCK :=
  let* t := gets p_info in
  match t with
  | None => fail NullDeref
  | Some t =>
      match ecam_block t !! Z.to_nat i with
      | Some b => ret b
      | None => fail OutOfBounds
      end
  end.

Definition info_entries : M (pcie W) Z :=
  let* t := gets p_info in
  match t with
  | None => fail NullDeref
  | Some t => ret (ecam_entries t)
  end.

(** After the enumeration the window is chosen by the bus alone. *)
Fixpoint choose_window (fuel : nat) (bus i : Z) : M (pcie W) unit :=
  match fuel with
  | O => out_of_fuel
  | S fuel =>
      let* n := info_entries in
      if negb (i <? n) then ret tt
      else
        let* b := info_block i in
        if (start_bus_num b <=? bus) && (bus <=? end_bus_num b) then set_var pcie_index i
        else choose_window fuel bus (i + 1)
  end.

Definition pal_pci_cfg_read (bus dev func offset : Z) : M (pcie W) Z :=
  let* e := get_var enumerate in
  (if truthy e then ret tt else λ s, choose_window (ecam_fuel s) bus 0 s) ;;
  let* k := get_var pcie_index in
  let* b := info_block k in
  pal_mmio_read32 (ecam_base b + cfg_addr bus dev func + offset).

Definition pal_pci_cfg_write (bus dev func offset data : Z) : M (pcie W) unit :=
  let* k := get_var pcie_index in
  let* b := info_block k in
  pal_mmio_write32 (ecam_base b + cfg_addr bus dev func + offset) data.

(** * Base address registers and bridge windows *)

(** One of the two halves of [get_resource_base_32]. *)
Definition resource_base_32 (bus dev func : Z) (start : pal_var) (reg base limit : Z) : M (pcie W) unit :=
  let* g := get_var start in
  if negb (base =? g) then
    (if negb (u32 (Z.shiftl g 12) =? 0)
     then set_var start (u32 (Z.land g MEM_BASE32_LIM_MASK + BAR_INCREMENT)) else ret tt) ;;
    let* g := get_var start in
    let limit := if limit =? g then u32 (limit - BAR_INCREMENT) else limit in
    let* v := pal_pci_cfg_read bus dev func reg in
    pal_pci_cfg_write bus dev func reg (Z.lor (Z.land limit MEM_BASE32_LIM_MASK) v)
  else ret tt.

Definition get_resource_base_32 (bus dev func bar32_p_base bar32_np_base bar32_p_limit bar32_np_limit : Z)
    : M (pcie W) unit :=
  resource_base_32 bus dev func g_bar32_np_start NON_PRE_FET_OFFSET bar32_np_base bar32_np_limit ;;
  resource_base_32 bus dev func g_bar32_p_start PRE_FET_OFFSET bar32_p_base bar32_p_limit.

(** The adjustment of the lower limit in the source has no effect: the value is
    not used afterwards. *)
Definition get_resource_base_64 (bus dev func bar64_p_base p_max : Z) : M (pcie W) unit :=
  let lower_base := REG_MASK_SHIFT (u32 bar64_p_base) in
  let upper_base := u32 (Z.shiftr bar64_p_base 32) in
  let lower_limit := REG_MASK_SHIFT (u32 p_max) in
  let upper_limit := u32 (Z.shiftr p_max 32) in
  let mem_bar_p := Z.lor (u32 (Z.shiftl lower_limit 16)) lower_base in
  let* g := get_var g_bar64_p_start in
  if negb (bar64_p_base =? p_max) && (g <=? p_max) then
    (if negb (u64 (Z.shiftl g 12) =? 0)
     then set_var g_bar64_p_start (u64 (Z.land g MEM_BASE64_LIM_MASK + BAR_INCREMENT)) else ret tt) ;;
    let* g := get_var g_bar64_p_start in
    set_var g_bar64_p_start (u64 (Z.land g MEM_BASE64_LIM_MASK + BAR_INCREMENT)) ;;
    pal_pci_cfg_write bus dev func PRE_FET_OFFSET mem_bar_p ;;
    pal_pci_cfg_write bus dev func (PRE_FET_OFFSET + 4) upper_base ;;
    pal_pci_cfg_write bus dev func (PRE_FET_OFFSET + 8) upper_limit
  else ret tt.

(** The size a 64-bit register pair asks for: all ones are written, and the
    complement of what is read back is taken. *)
Definition bar64_size (bus dev func offset : Z) : M (pcie W) Z :=
  pal_pci_cfg_write bus dev func offset 0xFFFFFFF0 ;;
  pal_pci_cfg_write bus dev func (offset + 4) 0xFFFFFFFF ;;
  let* lower := pal_pci_cfg_read bus dev func offset in
  let* upper := pal_pci_cfg_read bus dev func (offset + 4) in
  ret (u64 (u64 (Z.lnot (Z.lor (Z.land lower BAR_MASK) (u64 (Z.shiftl upper 32)))) + 1)).

(** The size a 32-bit register asks for, with the value read back. *)
Definition bar32_size (bus dev func offset : Z) : M (pcie W) (Z * Z) :=
  pal_pci_cfg_write bus dev func offset 0xFFFFFFF0 ;;
  let* lower := pal_pci_cfg_read bus dev func offset in
  ret (u32 (u32 (Z.lnot (Z.land lower BAR_MASK)) + 1), lower).

Fixpoint rp_bar_loop (fuel : nat) (bus dev func offset : Z) : M (pcie W) unit :=
  match fuel with
  | O => out_of_fuel
  | S fuel =>
      if negb (offset <=? TYPE1_BAR_MAX_OFF) then ret tt
      else
        let* v := pal_pci_cfg_read bus dev func offset in
        if BAR_REG v =? BAR_64_BIT then
          let* size := bar64_size bus dev func offset in
          if size =? 0 then rp_bar_loop fuel bus dev func (offset + 8)
          else
            let* g := get_var g_rp_bar64_value in
            pal_pci_cfg_write bus dev func offset (u32 g) ;;
            pal_pci_cfg_write bus dev func (offset + 4) (u32 (Z.shiftr g 32)) ;;
            rp_bar_loop fuel bus dev func (offset + 8)
        else
          let* r := bar32_size bus dev func offset in
          if fst r =? 0 then rp_bar_loop fuel bus dev func (offset + 4)
          else
            let* g := get_var g_rp_bar32_value in
            pal_pci_cfg_write bus dev func offset g ;;
            set_var g_rp_bar32_value (u32 (g + fst r)) ;;
            rp_bar_loop fuel bus dev func (offset + 4)
  end.

Definition pal_pcie_rp_program_bar (bus dev func : Z) : M (pcie W) unit :=
  rp_bar_loop 3 bus dev func BAR0_OFFSET.

(** The next address for a register of [size]: [local] is the size of the last
    register of this kind of this function, [g_size] and [g_bus] those of the
    last function. *)
Definition place_bar (wrap : Z → Z) (start g_size g_bus : pal_var) (bus size local : Z)
    : M (pcie W) Z :=
  let* a := get_var start in
  let* gs := get_var g_size in
  let* gb := get_var g_bus in
  let a := if (local =? 0) && (gb =? bus) then wrap (if gs <? size then a + size else a + gs)
           else if (gs <? size) && negb (local =? 0) then wrap (a + size)
           else wrap (a + local) in
  set_var start a ;;
  ret a.

(** [locals]: [np_bar_size], [p_bar_size] and [p_bar64_size]. *)
Fixpoint bar_loop (fuel : nat) (bus dev func offset : Z) (locals : Z * Z * Z) : M (pcie W) unit :=
  match fuel with
  | O => out_of_fuel
  | S fuel =>
      if negb (offset <=? TYPE0_BAR_MAX_OFF) then ret tt
      else
        let '(np, p, p64) := locals in
        let* v := pal_pci_cfg_read bus dev func offset in
        if BAR_TYPE v =? BAR_MEM_SPACE then
          if BAR_REG v =? BAR_64_BIT then
            let* size := bar64_size bus dev func offset in
            if size =? 0 then bar_loop fuel bus dev func (offset + 8) locals
            else
              let* a := place_bar u64 g_bar64_p_start g_bar64_size g_64_bus bus size p64 in
              pal_pci_cfg_write bus dev func offset (u32 a) ;;
              pal_pci_cfg_write bus dev func (offset + 4) (u32 (Z.shiftr a 32)) ;;
              set_var g_bar64_size (u32 size) ;;
              set_var g_64_bus bus ;;
              bar_loop fuel bus dev func (offset + 8) (np, p, u32 size)
          else
            let* r := bar32_size bus dev func offset in
            if fst r =? 0 then bar_loop fuel bus dev func (offset + 4) locals
            else
              let* a := place_bar u32 g_bar32_p_start g_p_bar_size g_p_bus bus (fst r) p in
              pal_pci_cfg_write bus dev func offset a ;;
              set_var g_p_bar_size (fst r) ;;
              set_var g_p_bus bus ;;
              bar_loop fuel bus dev func (offset + 4) (np, fst r, p64)
        else
          let* r := bar32_size bus dev func offset in
          if fst r =? 0 then
            bar_loop fuel bus dev func (offset + (if BAR_REG (snd r) =? BAR_64_BIT then 8 else 4)) locals
          else
            let* a := place_bar u32 g_bar32_np_start g_np_bar_size g_np_bus bus (fst r) np in
            pal_pci_cfg_write bus dev func offset a ;;
            set_var g_np_bar_size (fst r) ;;
            set_var g_np_bus bus ;;
            let* v := pal_pci_cfg_read bus dev func offset in
            if BAR_REG v =? BAR_64_BIT then
              pal_pci_cfg_write bus dev func (offset + 4) 0 ;;
              bar_loop fuel bus dev func (offset + 8) (fst r, p, p64)
            else bar_loop fuel bus dev func (offset + 4) (fst r, p, p64)
  end.

Definition copy_var (dst src : pal_var) : M (pcie W) unit :=
  let* v := get_var src in set_var dst v.

Definition pal_pcie_program_bar_reg (bus dev func : Z) : M (pcie W) unit :=
  bar_loop 7 bus dev func BAR0_OFFSET (0, 0, 0) ;;
  copy_var g_bar32_p_max g_bar32_p_start ;;
  copy_var g_bar32_np_max g_bar32_np_start ;;
  copy_var g_bar64_p_max g_bar64_p_start.

(** * Enumeration *)

(** [vendor_id == 0x0 || vendor_id == 0xFFFFFFFF] *)
Definition absent (vendor_id : Z) : bool := (vendor_id =? 0) || (vendor_id =? 0xFFFFFFFF).

(** The local variables of [pal_pcie_enumerate_device]. *)
Record enum_locals : Type := mk_enum {
  e_sub_bus : Z; e_sec_bus : Z; e_p_base : Z; e_np_base : Z; e_p64_base : Z
}.

(** A bridge: [below sec_bus (sec_bus + 1)] is the recursive call. *)
Definition enumerate_bridge (below : Z → Z → M (pcie W) Z) (bus dev func : Z) (l : enum_locals)
    : M (pcie W) enum_locals :=
  let sec_bus := e_sec_bus l in
  let* com := pal_pci_cfg_read bus dev func COMMAND_REG_OFFSET in
  pal_pci_cfg_write bus dev func COMMAND_REG_OFFSET (Z.lor com REG_ACC_DATA) ;;
  pal_pci_cfg_write bus dev func BUS_NUM_REG_OFFSET (BUS_NUM_REG_CFG 0xFF sec_bus bus) ;;
  let* np := get_var g_bar32_np_start in
  pal_pci_cfg_write bus dev func NON_PRE_FET_OFFSET (Z.land (Z.shiftr np 16) 0xFFF0) ;;
  let* p := get_var g_bar32_p_start in
  pal_pci_cfg_write bus dev func PRE_FET_OFFSET (Z.land (Z.shiftr p 16) 0xFFF0) ;;
  let* sub_bus := below sec_bus (u32 (sec_bus + 1)) in
  pal_pci_cfg_write bus dev func BUS_NUM_REG_OFFSET (BUS_NUM_REG_CFG sub_bus sec_bus bus) ;;
  let* p_max := get_var g_bar32_p_max in
  let* np_max := get_var g_bar32_np_max in
  get_resource_base_32 bus dev func (e_p_base l) (e_np_base l) p_max np_max ;;
  let* p64_max := get_var g_bar64_p_max in
  get_resource_base_64 bus dev func (e_p64_base l) p64_max ;;
  pal_pcie_rp_program_bar bus dev func ;;
  let* p := get_var g_bar32_p_start in
  let* np := get_var g_bar32_np_start in
  let* p64 := get_var g_bar64_p_start in
  ret (mk_enum sub_bus (u32 (sub_bus + 1)) p np p64).

Definition enumerate_function (below : Z → Z → M (pcie W) Z) (bus dev func : Z) (l : enum_locals)
    : M (pcie W) enum_locals :=
  let* vendor_id := pal_pci_cfg_read bus dev func 0 in
  if absent vendor_id then ret l
  else
    let* class_code := pal_pci_cfg_read bus dev func TYPE01_RIDR in
    if class_is_host_bridge class_code then ret l
    else
      let* header_value := pal_pci_cfg_read bus dev func HEADER_OFFSET in
      let* l := (if PCIE_HEADER_TYPE header_value =? TYPE1_HEADER
                 then enumerate_bridge below bus dev func l else ret l) in
      if PCIE_HEADER_TYPE header_value =? TYPE0_HEADER then
        pal_pcie_program_bar_reg bus dev func ;;
        ret (mk_enum (u32 (e_sec_bus l - 1)) (e_sec_bus l) (e_p_base l) (e_np_base l) (e_p64_base l))
      else ret l.

Fixpoint pal_pcie_enumerate_device (fuel : nat) (bus sec_bus : Z) : M (pcie W) Z :=
  match fuel with
  | O => out_of_fuel
  | S fuel =>
      let* k := get_var pcie_index in
      let* b := info_block k in
      if bus =? u32 (end_bus_num b + 1) then ret bus
      else
        let* p := get_var g_bar32_p_start in
        let* np := get_var g_bar32_np_start in
        let* p64 := get_var g_bar64_p_start in
        let* l := fold_from (Z.to_nat PCIE_MAX_DEV) 0 (mk_enum bus sec_bus p np p64) (λ dev,
          λ l, fold_from (Z.to_nat PCIE_MAX_FUNC) 0 l (λ func,
            enumerate_function (pal_pcie_enumerate_device fuel) bus dev func)) in
        ret (e_sub_bus l)
  end.

(** The depth of the recursion: a bus a level. *)
Definition ENUM_FUEL : nat := Z.to_nat (PCIE_MAX_BUS + 1).

Definition clear_pri_bus_function (bus dev func : Z) : M (pcie W) (option Empty_set) :=
  let* vendor_id := pal_pci_cfg_read bus dev func 0 in
  if absent vendor_id then ret None
  else
    let* header_value := pal_pci_cfg_read bus dev func HEADER_OFFSET in
    if PCIE_HEADER_TYPE header_value =? TYPE1_HEADER then
      let* v := pal_pci_cfg_read bus dev func BUS_NUM_REG_OFFSET in
      pal_pci_cfg_write bus dev func BUS_NUM_REG_OFFSET (Z.land v PRI_BUS_CLEAR_MASK) ;;
      ret None
    else ret None.

Definition pal_clear_pri_bus : M (pcie W) unit :=
  let* k := get_var pcie_index in
  let* b := info_block k in
  for_upto (end_bus_num b + 1) (λ bus,
    for_upto PCIE_MAX_DEV (λ dev,
      for_upto PCIE_MAX_FUNC (λ func,
        clear_pri_bus_function bus dev func))) ;;
  ret tt.

Fixpoint enumerate_loop (fuel : nat) : M (pcie W) unit :=
  match fuel with
  | O => out_of_fuel
  | S fuel =>
      let* k := get_var pcie_index in
      let* n := info_entries in
      if negb (k <? n) then ret tt
      else
        let* b := info_block k in
        let pri_bus := start_bus_num b in
        pal_pcie_enumerate_device ENUM_FUEL pri_bus (u32 (pri_bus + 1)) ;;
        pal_clear_pri_bus ;;
        set_var pcie_index (k + 1) ;;
        enumerate_loop fuel
  end.

Definition pal_pcie_enumerate : M (pcie W) unit :=
  let* n := info_entries in
  if n =? 0 then ret tt
  else
    (λ s, enumerate_loop (ecam_fuel s) s) ;;
    set_var enumerate 0 ;;
    set_var pcie_index 0.

Definition val_pcie_enumerate : M (pcie W) unit := pal_pcie_enumerate.

(** * Searches after the enumeration *)

Definition get_bdf_function (ClassCode Bus Dev Func : Z) : M (pcie W) (option Z) :=
  let* class_code := pal_pci_cfg_read Bus Dev Func TYPE01_RIDR in
  if (Z.shiftr class_code CC_BASE_SHIFT =? Z.shiftr ClassCode 16) &&
     (Z.shiftr class_code CC_SUB_SHIFT =? Z.shiftr ClassCode 8)
  then ret (Some (PCIE_CREATE_BDF 0 Bus Dev Func))
  else ret None.

(** Every device and every function start at those of [StartBdf]. *)
Definition pal_pcie_get_bdf (ClassCode StartBdf : Z) : M (pcie W) Z :=
  let InputBus := PCIE_EXTRACT_BDF_BUS StartBdf in
  let InputDev := PCIE_EXTRACT_BDF_DEV StartBdf in
  let InputFunc := PCIE_EXTRACT_BDF_FUNC StartBdf in
  let* r := for_from (Z.to_nat (PLATFORM_OVERRIDE_PCIE_MAX_BUS - InputBus)) InputBus (λ Bus,
    for_from (Z.to_nat (PCIE_MAX_DEV - InputDev)) InputDev (λ Dev,
      for_from (Z.to_nat (PCIE_MAX_FUNC - InputFunc)) InputFunc (λ Func,
        get_bdf_function ClassCode Bus Dev Func))) in
  ret (default 0 r).

Definition pal_pcie_get_bdf_wrapper (class_code start_bdf : Z) : M (pcie W) Z :=
  pal_pcie_get_bdf class_code start_bdf.
Definition val_pcie_get_bdf (class_code start_bdf : Z) : M (pcie W) Z :=
  pal_pcie_get_bdf_wrapper class_code start_bdf.

Definition pal_increment_bus_dev (StartBdf : Z) : Z :=
  let Seg := PCIE_EXTRACT_BDF_SEG StartBdf in
  let Bus := PCIE_EXTRACT_BDF_BUS StartBdf in
  let Dev := PCIE_EXTRACT_BDF_DEV StartBdf in
  if negb (Dev =? PCIE_MAX_DEV - 1) then PCIE_CREATE_BDF Seg Bus (Dev + 1) 0
  else PCIE_CREATE_BDF Seg (Bus + 1) 0 0.

Definition pal_pcie_get_base (bdf bar_index : Z) : M (pcie W) Z :=
  let Bus := PCIE_EXTRACT_BDF_BUS bdf in
  let Dev := PCIE_EXTRACT_BDF_DEV bdf in
  let Func := PCIE_EXTRACT_BDF_FUNC bdf in
  let offset := u32 (BAR0_OFFSET + u32 (4 * bar_index)) in
  let* lower := pal_pci_cfg_read Bus Dev Func offset in
  let bar_value := Z.land lower BAR_MASK in
  if BAR_REG lower =? BAR_64_BIT then
    let* upper := pal_pci_cfg_read Bus Dev Func (u32 (offset + 4)) in
    ret (Z.lor bar_value (u64 (Z.shiftl upper 32)))
  else ret bar_value.

(** The device identifier, left in [g_vendor_id] whose address is returned. *)
Definition pal_pci_bdf_to_dev (bdf : Z) : M (pcie W) unit :=
  let* v := pal_pci_cfg_read (PCIE_EXTRACT_BDF_BUS bdf) (PCIE_EXTRACT_BDF_DEV bdf)
              (PCIE_EXTRACT_BDF_FUNC bdf) 0 in
  set_var g_vendor_id (Z.shiftr v DEVICE_ID_OFFSET).
Definition val_pci_bdf_to_dev (bdf : Z) : M (pcie W) unit := pal_pci_bdf_to_dev bdf.

(** * The whole of the discovery *)

(** The counters and the log of [val_pcie_print_device_info] are left out; the
    configuration reads are not. *)
Definition print_ecam (ecam_index : Z) : M (pcie W) (option Empty_set) :=
  let* t := bdf_table in
  for_upto (bdf_entries t) (λ i,
    let* a := device_at i in
    let* v := read_reg (a_bdf a) TYPE01_VIDR in
    let* base := val_pcie_get_ecam_base (a_bdf a) in
    ret None).

Definition val_pcie_print_device_info : M (pcie W) unit :=
  let* t := bdf_table in
  if bdf_entries t =? 0 then ret tt
  else
    for_upto (R := Empty_set) (bdf_entries t) (λ i,
      let* a := device_at i in
      val_pcie_device_port_type (a_bdf a) ;;
      ret None) ;;
    let* n := val_pcie_get_info PCIE_INFO_NUM_ECAM 0 in
    for_upto n print_ecam ;;
    ret tt.

(** The array [g_pcie_bdf_table1] as the program starts. *)
Definition g_pcie_bdf_table1 : pcie_device_bdf_table :=
  mk_bdf_table 0 (replicate bdf_capacity (mk_attr 0 0)).

(** [given] is the argument not being null. *)
Definition val_pcie_create_info_table (given : bool) : M (pcie W) unit :=
  if negb given then ret tt
  else
    modify (λ s, pset_bdf (Some (default g_pcie_bdf_table1 (p_bdf s))) s) ;;
    pal_pcie_create_info_table ;;
    let* num_ecam := val_pcie_get_info PCIE_INFO_NUM_ECAM 0 in
    if num_ecam =? 0 then ret tt
    else
      val_pcie_enumerate ;;
      let* r := val_pcie_create_device_bdf_table in
      if truthy r then ret tt else val_pcie_print_device_info.
End PcieEnum.
