(* ===== verification/PcieFacts.v ===== *)
(** Properties of PCIe discovery: the decoding of configuration addresses, the
    walk of capability lists, the table of functions, the search for root ports,
    the sizing and the placement of base address registers, and the order of the
    functions.

    Most of them hold on a bus whose reads have no side effect ([QuietReads]);
    what a read returns is otherwise arbitrary. *)
From S2P Require Import Prelude Defs Pcie PcieEnum.

Class QuietReads (W : Type) `{MmioBus W} : Prop :=
  quiet_read : ∀ w a, snd (mmio_read32 w a) = w.

(** * Numbers of functions *)

Lemma land_mask x k : 0 ≤ k → Z.land x (2 ^ k - 1) = x mod 2 ^ k.
Proof. apply land_ones_mod. Qed.

Lemma bdf_seg_eq bdf : PCIE_EXTRACT_BDF_SEG bdf = (bdf / 2 ^ 16) mod 2 ^ 8.
Proof.
  unfold PCIE_EXTRACT_BDF_SEG. rewrite Z.shiftr_div_pow2 by lia.
  change 0xFF with (2 ^ 8 - 1). by rewrite land_mask.
Qed.

Lemma bdf_bus_eq bdf : PCIE_EXTRACT_BDF_BUS bdf = (bdf / 2 ^ 8) mod 2 ^ 8.
Proof.
  unfold PCIE_EXTRACT_BDF_BUS. rewrite Z.shiftr_div_pow2 by lia.
  change 0xFF with (2 ^ 8 - 1). by rewrite land_mask.
Qed.

Lemma bdf_dev_eq bdf : PCIE_EXTRACT_BDF_DEV bdf = (bdf / 2 ^ 3) mod 2 ^ 5.
Proof.
  unfold PCIE_EXTRACT_BDF_DEV. rewrite Z.shiftr_div_pow2 by lia.
  change 0x1F with (2 ^ 5 - 1). by rewrite land_mask.
Qed.

Lemma bdf_func_eq bdf : PCIE_EXTRACT_BDF_FUNC bdf = bdf mod 2 ^ 3.
Proof. unfold PCIE_EXTRACT_BDF_FUNC. change 0x7 with (2 ^ 3 - 1). by rewrite land_mask. Qed.

(** An [or] of fields that do not overlap is their sum. *)
Lemma lor_shift_add a b k : 0 ≤ k → 0 ≤ b < 2 ^ k → Z.lor (a * 2 ^ k) b = a * 2 ^ k + b.
Proof.
  intros Hk Hb. rewrite <- (Z.shiftl_mul_pow2 a k Hk).
  assert (Z.land (Z.shiftl a k) b = 0) as Hd; [|by rewrite <- Z.add_lor_land, Hd, Z.add_0_r].
  rewrite <- (Z.mod_small b (2 ^ k)) by done. rewrite <- Z.land_ones by done.
  apply Z.bits_inj'. intros n Hn.
  rewrite !Z.land_spec, Z.bits_0, Z.shiftl_spec, Z.testbit_ones_nonneg by lia.
  destruct (Z.ltb_spec n k); [rewrite (Z.testbit_neg_r a (n - k)) by lia|]; by rewrite ?andb_false_r.
Qed.

Definition bdf_valid (seg bus dev func : Z) : Prop :=
  0 ≤ seg < 256 ∧ 0 ≤ bus < 256 ∧ 0 ≤ dev < 32 ∧ 0 ≤ func < 8.

Lemma create_bdf_sum seg bus dev func :
  0 ≤ seg < 256 → 0 ≤ bus < 256 → 0 ≤ dev ≤ 32 → 0 ≤ func < 8 →
  PCIE_CREATE_BDF seg bus dev func =
  Z.lor (seg * 2 ^ 16 + bus * 2 ^ 8) (dev * 2 ^ 3) + func.
Proof.
  intros. unfold PCIE_CREATE_BDF. rewrite !Z.shiftl_mul_pow2 by lia.
  unfold u32. rewrite !Z.mod_small by lia.
  rewrite (lor_shift_add seg (bus * 2 ^ 8) 16) by lia.
  replace (seg * 2 ^ 16 + bus * 2 ^ 8) with ((seg * 2 ^ 13 + bus * 2 ^ 5) * 2 ^ 3) by lia.
  rewrite <- !Z.shiftl_mul_pow2, <- Z.shiftl_lor, Z.shiftl_mul_pow2 by lia.
  rewrite (lor_shift_add _ func 3) by lia. done.
Qed.

Lemma create_bdf_eq seg bus dev func :
  bdf_valid seg bus dev func →
  PCIE_CREATE_BDF seg bus dev func = seg * 2 ^ 16 + bus * 2 ^ 8 + dev * 2 ^ 3 + func.
Proof.
  intros (?&?&?&?). rewrite create_bdf_sum by lia.
  replace (seg * 2 ^ 16 + bus * 2 ^ 8) with ((seg * 2 ^ 8 + bus) * 2 ^ 8) by lia.
  rewrite lor_shift_add by lia. lia.
Qed.

Lemma create_extract seg bus dev func :
  bdf_valid seg bus dev func →
  let bdf := PCIE_CREATE_BDF seg bus dev func in
  PCIE_EXTRACT_BDF_SEG bdf = seg ∧ PCIE_EXTRACT_BDF_BUS bdf = bus ∧
  PCIE_EXTRACT_BDF_DEV bdf = dev ∧ PCIE_EXTRACT_BDF_FUNC bdf = func.
Proof.
  intros Hv bdf. subst bdf. rewrite create_bdf_eq by done. destruct Hv as (?&?&?&?).
  rewrite bdf_seg_eq, bdf_bus_eq, bdf_dev_eq, bdf_func_eq.
  repeat split; Z.to_euclidean_division_equations; lia.
Qed.

Lemma extract_valid bdf :
  bdf_valid (PCIE_EXTRACT_BDF_SEG bdf) (PCIE_EXTRACT_BDF_BUS bdf)
    (PCIE_EXTRACT_BDF_DEV bdf) (PCIE_EXTRACT_BDF_FUNC bdf).
Proof.
  rewrite bdf_seg_eq, bdf_bus_eq, bdf_dev_eq, bdf_func_eq.
  repeat split; Z.to_euclidean_division_equations; lia.
Qed.

(** * Decoding of configuration addresses *)

(** The base of the first window for a bus, 0 if none. *)
Fixpoint window_base (bs : list PCIE_INFO_BLOCK) (bus seg : Z) : Z :=
  match bs with
  | [] => 0
  | b :: bs =>
      if (start_bus_num b <=? bus) && (bus <=? end_bus_num b) && (seg =? segment_num b)
      then ecam_base b else window_base bs bus seg
  end.

Definition base_of (bs : list PCIE_INFO_BLOCK) (bdf : Z) : Z :=
  window_base bs (PCIE_EXTRACT_BDF_BUS bdf) (PCIE_EXTRACT_BDF_SEG bdf).

Definition has_info {W} (bs : list PCIE_INFO_BLOCK) (s : pcie W) : Prop :=
  p_info s = Some (mk_info (Z.of_nat (length bs)) bs).

Section Config.
Context {W : Type} `{MmioBus W}.
Implicit Types s : pcie W.

Lemma get_info_count bs s :
  has_info bs s → val_pcie_get_info PCIE_INFO_NUM_ECAM 0 s = Ok (Z.of_nat (length bs)) s.
Proof.
  intros Hi. unfold val_pcie_get_info. rewrite (bind_step _ _ s (p_info s) s) by done.
  rewrite Hi. cbn [ecam_entries]. destruct bs; done.
Qed.

Lemma get_info_member bs s type i b :
  has_info bs s → bs !! Z.to_nat i = Some b → 0 ≤ i → type ≠ PCIE_INFO_NUM_ECAM →
  val_pcie_get_info type i s =
  Ok (match type with
      | PCIE_INFO_ECAM => ecam_base b
      | PCIE_INFO_START_BUS => start_bus_num b
      | PCIE_INFO_END_BUS => end_bus_num b
      | _ => segment_num b
      end) s.
Proof.
  intros Hi Hb Hp Ht. unfold val_pcie_get_info. rewrite (bind_step _ _ s (p_info s) s) by done.
  rewrite Hi. cbn [ecam_entries ecam_block]. pose proof (lookup_lt_Some _ _ _ Hb).
  destruct (Z.leb_spec (Z.of_nat (length bs)) i); [lia|]. rewrite Hb. by destruct type.
Qed.

Lemma ecam_loop_base bs s n bus seg i :
  has_info bs s → 0 ≤ i ≤ Z.of_nat (length bs) → (Z.to_nat (Z.of_nat (length bs) - i) < n)%nat →
  ecam_loop n bus seg i s = Ok (window_base (drop (Z.to_nat i) bs) bus seg) s.
Proof.
  intros Hi. revert i. induction n as [|n IH]; intros i Hr Hf; [lia|]. cbn [ecam_loop].
  rewrite (bind_step _ _ _ _ _ (get_info_count bs s Hi)).
  destruct (Z.ltb_spec i (Z.of_nat (length bs))); cbn [negb].
  - destruct (lookup_lt_is_Some_2 bs (Z.to_nat i)) as [b Hb]; [lia|].
    rewrite (bind_step _ _ _ _ _ (get_info_member bs s PCIE_INFO_START_BUS i b Hi Hb ltac:(lia) ltac:(done))).
    rewrite (bind_step _ _ _ _ _ (get_info_member bs s PCIE_INFO_END_BUS i b Hi Hb ltac:(lia) ltac:(done))).
    rewrite (bind_step _ _ _ _ _ (get_info_member bs s PCIE_INFO_SEGMENT i b Hi Hb ltac:(lia) ltac:(done))).
    rewrite (drop_S _ _ _ Hb). cbn [window_base].
    destruct (_ && _ && _).
    + by rewrite (get_info_member bs s PCIE_INFO_ECAM i b Hi Hb ltac:(lia) ltac:(done)).
    + rewrite IH by lia. by replace (Z.to_nat (i + 1)) with (S (Z.to_nat i)) by lia.
  - rewrite drop_ge by lia. done.
Qed.

Lemma ecam_search_base bs s bus seg :
  has_info bs s → ecam_search bus seg s = Ok (window_base bs bus seg) s.
Proof.
  intros Hi. unfold ecam_search, ecam_fuel. rewrite Hi. cbn [ecam_entries].
  rewrite (ecam_loop_base bs) by (done || lia). by rewrite drop_0.
Qed.

(** The address of a register of a function. *)
Definition cfg_address (bs : list PCIE_INFO_BLOCK) (bdf offset : Z) : Z :=
  base_of bs bdf + PCIE_EXTRACT_BDF_BUS bdf * 2 ^ 20 + PCIE_EXTRACT_BDF_DEV bdf * 2 ^ 15
  + PCIE_EXTRACT_BDF_FUNC bdf * 2 ^ 12 + offset.

Lemma guard_passes bdf :
  (PCIE_MAX_BUS <=? PCIE_EXTRACT_BDF_BUS bdf) || (PCIE_MAX_DEV <=? PCIE_EXTRACT_BDF_DEV bdf)
  || (PCIE_MAX_FUNC <=? PCIE_EXTRACT_BDF_FUNC bdf) = false.
Proof.
  destruct (extract_valid bdf) as (_&?&?&?).
  unfold PCIE_MAX_BUS, PCIE_MAX_DEV, PCIE_MAX_FUNC. repeat rewrite orb_false_iff. lia.
Qed.

Lemma cfg_addr_eq bus dev func :
  0 ≤ bus < 256 → 0 ≤ dev < 32 → 0 ≤ func < 8 →
  cfg_addr bus dev func = bus * 2 ^ 20 + dev * 2 ^ 15 + func * 2 ^ 12.
Proof.
  intros. unfold cfg_addr, u32, PCIE_MAX_DEV, PCIE_MAX_FUNC. rewrite Z.mod_small by lia. lia.
Qed.

(** A read is the load at the decoded address, or NO_MAPPING without a window. *)
Lemma read_cfg_eq bs s bdf off d :
  has_info bs s →
  val_pcie_read_cfg bdf off d s =
  if base_of bs bdf =? 0 then Ok (PCIE_NO_MAPPING, d) s
  else let r := mmio_read32 (p_world s) (u64 (cfg_address bs bdf off)) in
       Ok (0, Some (u32 (fst r))) (pset_world (snd r) s).
Proof.
  intros Hi. unfold val_pcie_read_cfg. rewrite guard_passes.
  rewrite (bind_step _ _ s (p_info s) s) by done. pose proof Hi as Hi'; red in Hi'; rewrite Hi'.
  rewrite (bind_step _ _ _ _ _ (ecam_search_base bs s _ _ Hi)). unfold base_of.
  destruct (_ =? 0); [done|]. unfold pal_mmio_read32, bind.
  rewrite cfg_addr_eq by apply extract_valid.
  unfold cfg_address, base_of. rewrite !Z.add_assoc. by destruct (mmio_read32 _ _).
Qed.

Lemma write_cfg_eq bs s bdf off v :
  has_info bs s →
  val_pcie_write_cfg bdf off v s =
  if base_of bs bdf =? 0 then Ok tt s
  else Ok tt (pset_world (mmio_write32 (p_world s) (u64 (cfg_address bs bdf off)) (u32 v)) s).
Proof.
  intros Hi. unfold val_pcie_write_cfg. rewrite guard_passes.
  rewrite (bind_step _ _ s (p_info s) s) by done. pose proof Hi as Hi'; red in Hi'; rewrite Hi'.
  rewrite (bind_step _ _ _ _ _ (ecam_search_base bs s _ _ Hi)). unfold base_of.
  destruct (_ =? 0); [done|]. unfold pal_mmio_write32, modify.
  rewrite cfg_addr_eq by apply extract_valid.
  unfold cfg_address, base_of. by rewrite !Z.add_assoc.
Qed.
End Config.

(** A table of windows that can be decoded: the windows lie in the address space
    above 0 and do not overlap. *)
Definition block_wf (b : PCIE_INFO_BLOCK) : Prop :=
  0 < ecam_base b ∧ 0 ≤ segment_num b < 256 ∧ 0 ≤ start_bus_num b ≤ end_bus_num b ∧
  end_bus_num b < 256 ∧ ecam_base b + 2 ^ 28 ≤ 2 ^ 64.

Definition blocks_apart (b1 b2 : PCIE_INFO_BLOCK) : Prop :=
  ecam_base b1 + (end_bus_num b1 + 1) * 2 ^ 20 ≤ ecam_base b2 + start_bus_num b2 * 2 ^ 20 ∨
  ecam_base b2 + (end_bus_num b2 + 1) * 2 ^ 20 ≤ ecam_base b1 + start_bus_num b1 * 2 ^ 20.

Definition info_wf (bs : list PCIE_INFO_BLOCK) : Prop :=
  Forall block_wf bs ∧
  ∀ i j b1 b2, i ≠ j → bs !! i = Some b1 → bs !! j = Some b2 → blocks_apart b1 b2.

Definition in_block (b : PCIE_INFO_BLOCK) (bdf : Z) : Prop :=
  start_bus_num b ≤ PCIE_EXTRACT_BDF_BUS bdf ≤ end_bus_num b ∧
  PCIE_EXTRACT_BDF_SEG bdf = segment_num b.

(** Some window holds the function. *)
Definition mapped_bdf (bs : list PCIE_INFO_BLOCK) (bdf : Z) : Prop := ∃ b, b ∈ bs ∧ in_block b bdf.

Lemma in_block_test b bdf :
  (start_bus_num b <=? PCIE_EXTRACT_BDF_BUS bdf) && (PCIE_EXTRACT_BDF_BUS bdf <=? end_bus_num b) &&
  (PCIE_EXTRACT_BDF_SEG bdf =? segment_num b) = true ↔ in_block b bdf.
Proof. unfold in_block. rewrite !andb_true_iff. lia. Qed.

Lemma base_of_mapped bs bdf :
  mapped_bdf bs bdf → ∃ i b, bs !! i = Some b ∧ in_block b bdf ∧ base_of bs bdf = ecam_base b.
Proof.
  unfold base_of. induction bs as [|b0 bs IH]; intros (b & Hin & Hb); [by apply elem_of_nil in Hin|].
  cbn [window_base]. destruct (_ && _ && _) eqn:E.
  - exists 0%nat, b0. by rewrite in_block_test in E.
  - apply elem_of_cons in Hin as [->|Hin]; [by rewrite (proj2 (in_block_test b0 bdf) Hb) in E|].
    destruct IH as (i & b1 & ? & ? & ?); [by exists b|]. by exists (S i), b1.
Qed.

Lemma base_of_nonzero bs bdf : info_wf bs → mapped_bdf bs bdf → (base_of bs bdf =? 0) = false.
Proof.
  intros [Hf _] (i & b & Hi & _ & ->)%base_of_mapped.
  destruct (Forall_lookup_1 _ _ _ _ Hf Hi) as (? & _). lia.
Qed.

Lemma cfg_address_bounds bs bdf off :
  info_wf bs → mapped_bdf bs bdf → 0 ≤ off < 4096 → 0 ≤ cfg_address bs bdf off < 2 ^ 64.
Proof.
  intros [Hf _] (i & b & Hi & Hb & E)%base_of_mapped Ho.
  destruct (Forall_lookup_1 _ _ _ _ Hf Hi) as (? & ? & ? & ? & ?).
  destruct (extract_valid bdf) as (? & ? & ? & ?). unfold cfg_address. rewrite E. lia.
Qed.

Lemma cfg_address_inj bs bdf1 bdf2 off1 off2 :
  info_wf bs → mapped_bdf bs bdf1 → mapped_bdf bs bdf2 → 0 ≤ off1 < 4096 → 0 ≤ off2 < 4096 →
  cfg_address bs bdf1 off1 = cfg_address bs bdf2 off2 →
  off1 = off2 ∧ bdf1 mod 2 ^ 24 = bdf2 mod 2 ^ 24.
Proof.
  intros [Hf Ha] (i1 & b1 & Hi1 & [Hb1 Hs1] & E1)%base_of_mapped
    (i2 & b2 & Hi2 & [Hb2 Hs2] & E2)%base_of_mapped Ho1 Ho2 He.
  destruct (extract_valid bdf1) as (? & ? & ? & ?). destruct (extract_valid bdf2) as (? & ? & ? & ?).
  unfold cfg_address in He. rewrite E1, E2 in He.
  assert (i1 = i2) as ->.
  { destruct (decide (i1 = i2)) as [|Hne]; [done|]. exfalso.
    destruct (Ha i1 i2 b1 b2 Hne Hi1 Hi2); lia. }
  rewrite Hi1 in Hi2. injection Hi2 as ->.
  assert (PCIE_EXTRACT_BDF_BUS bdf1 = PCIE_EXTRACT_BDF_BUS bdf2) by lia.
  assert (PCIE_EXTRACT_BDF_DEV bdf1 = PCIE_EXTRACT_BDF_DEV bdf2) by lia.
  assert (PCIE_EXTRACT_BDF_FUNC bdf1 = PCIE_EXTRACT_BDF_FUNC bdf2) by lia.
  split; [lia|]. rewrite !bdf_seg_eq, !bdf_bus_eq, !bdf_dev_eq, !bdf_func_eq in *.
  clear - H7 H8 H9 Hs1 Hs2. Z.to_euclidean_division_equations. lia.
Qed.

(** * Registers on a bus with quiet reads *)

Section Quiet.
Context {W : Type} `{MmioBus W} `{!QuietReads W}.
Implicit Types s : pcie W.

(** The register of a function as a read returns it. *)
Definition reg (bs : list PCIE_INFO_BLOCK) (w : W) (bdf off : Z) : Z :=
  u32 (fst (mmio_read32 w (u64 (cfg_address bs bdf off)))).

Lemma pset_world_id s : pset_world (p_world s) s = s.
Proof. by destruct s. Qed.

Lemma read_cfg_quiet bs s bdf off d :
  info_wf bs → has_info bs s → mapped_bdf bs bdf →
  val_pcie_read_cfg bdf off d s = Ok (0, Some (reg bs (p_world s) bdf off)) s.
Proof.
  intros Hw Hi Hm. rewrite (read_cfg_eq bs), base_of_nonzero by done. cbn zeta.
  by rewrite quiet_read, pset_world_id.
Qed.

Lemma read_reg_quiet bs s bdf off :
  info_wf bs → has_info bs s → mapped_bdf bs bdf →
  read_reg bdf off s = Ok (reg bs (p_world s) bdf off) s.
Proof.
  intros Hw Hi Hm. unfold read_reg. by rewrite (bind_step _ _ _ _ _ (read_cfg_quiet bs s bdf off None Hw Hi Hm)).
Qed.

(** * Capability lists *)

Section Walk.
Context (rd : Z → Z) (id_mask shift mask cid : Z).

Definition cap_next (o : Z) : Z := Z.land (Z.shiftr (rd o) shift) mask.
Definition cap_match (o : Z) : bool := Z.land (rd o) id_mask =? cid.

(** The walk from an offset ends: at an offset that matches, or at 0. *)
Inductive cap_at : Z → option Z → Prop :=
  | cap_end : cap_at 0 None
  | cap_here o : o ≠ 0 → cap_match o = true → cap_at o (Some o)
  | cap_skip o r : o ≠ 0 → cap_match o = false → cap_at (cap_next o) r → cap_at o r.

(** The same with the offsets visited. *)
Inductive cap_path : Z → list Z → option Z → Prop :=
  | path_end : cap_path 0 [] None
  | path_here o : o ≠ 0 → cap_match o = true → cap_path o [o] (Some o)
  | path_skip o l r : o ≠ 0 → cap_match o = false → cap_path (cap_next o) l r → cap_path o (o :: l) r.

Lemma cap_at_path o r : cap_at o r → ∃ l, cap_path o l r.
Proof. induction 1 as [|o|o r ?? _ [l IH]]; eauto using cap_path. Qed.

Lemma cap_path_at o l r : cap_path o l r → cap_at o r.
Proof. induction 1; eauto using cap_at. Qed.

Lemma cap_path_det o l r l' r' : cap_path o l r → cap_path o l' r' → l = l' ∧ r = r'.
Proof.
  intros H1. revert l' r'. induction H1 as [|o Ho Hm|o l r Ho Hm _ IH]; intros l' r' H2.
  - inversion H2; [done|lia..].
  - inversion H2; subst; [lia|done|congruence].
  - inversion H2 as [|? ? ?|? l1 ? ? ? Hp]; subst; [lia|congruence|].
    destruct (IH _ _ Hp) as [-> ->]. done.
Qed.

(** From an offset on the path a suffix of the path goes on. *)
Lemma cap_path_suffix o l r x :
  cap_path o l r → x ∈ l → ∃ l1 l2, l = l1 ++ l2 ∧ cap_path x l2 r.
Proof.
  induction 1 as [|o Ho Hm|o l r Ho Hm Hp IH]; intros Hx.
  - by apply elem_of_nil in Hx.
  - apply list_elem_of_singleton in Hx as ->. exists [], [o]. eauto using cap_path.
  - apply elem_of_cons in Hx as [->|Hx].
    + exists [], (o :: l). eauto using cap_path.
    + destruct (IH Hx) as (l1 & l2 & -> & Hs). by exists (o :: l1), l2.
Qed.

Lemma cap_path_nodup o l r : cap_path o l r → NoDup l.
Proof.
  induction 1 as [|o Ho Hm|o l r Ho Hm Hp IH]; [constructor|apply NoDup_singleton|].
  constructor; [|done]. intros Hin.
  destruct (cap_path_suffix _ _ _ _ Hp Hin) as (l1 & l2 & -> & Hs).
  destruct (cap_path_det _ _ _ _ _ Hs (path_skip _ _ _ Ho Hm Hp)) as [E _].
  apply (f_equal length) in E. cbn in E. rewrite length_app in E. lia.
Qed.

Lemma cap_path_range k o l r :
  mask = 2 ^ k - 1 → 0 ≤ k → 0 ≤ o ≤ mask → cap_path o l r → Forall (λ x, 1 ≤ x ≤ mask) l.
Proof.
  intros Hk Hk' Ho Hp. induction Hp as [|o|o l r]; [constructor|constructor; [lia|constructor]|].
  constructor; [lia|]. apply IHHp. unfold cap_next. rewrite Hk, land_mask by done.
  pose proof (Z.mod_pos_bound (Z.shiftr (rd o) shift) (2 ^ k)). lia.
Qed.

(** A walk that ends visits every offset at most once. *)
Lemma cap_path_short k o l r :
  mask = 2 ^ k - 1 → 0 ≤ k → 0 ≤ o ≤ mask → cap_path o l r → (length l ≤ Z.to_nat mask)%nat.
Proof.
  intros Hk Hk' Ho Hp. pose proof (cap_path_nodup _ _ _ Hp) as Hn.
  pose proof (cap_path_range k _ _ _ Hk Hk' Ho Hp) as Hf.
  assert (l ⊆+ seqZ 1 mask) as Hs.
  { apply NoDup_submseteq; [done|]. intros x Hx. apply elem_of_seqZ.
    rewrite Forall_forall in Hf. specialize (Hf x Hx). lia. }
  apply submseteq_length in Hs. by rewrite length_seqZ in Hs.
Qed.
End Walk.

(** Status and [cid_offset] after a walk that ends with [r]. *)
Definition find_result (out r : option Z) : Z * option Z :=
  match r with
  | Some o => (PCIE_SUCCESS, Some o)
  | None => (PCIE_CAP_NOT_FOUND, out)
  end.

Section Loop.
Context (bs : list PCIE_INFO_BLOCK) (s : pcie W) (bdf id_mask shift mask cid : Z).
Context (Hw : info_wf bs) (Hi : has_info bs s) (Hm : mapped_bdf bs bdf).

Lemma cap_loop_path fuel o l r rg out :
  cap_path (reg bs (p_world s) bdf) id_mask shift mask cid o l r → (length l < fuel)%nat →
  cap_loop fuel bdf id_mask shift mask cid o rg out s = Ok (find_result out r) s.
Proof using Hw Hi Hm QuietReads0.
  intros Hp. revert fuel rg. induction Hp as [|o Ho He|o l r Ho He _ IH];
    intros [|fuel] rg Hf; cbn in Hf; try lia; cbn [cap_loop].
  - done.
  - destruct (Z.eqb_spec o 0); [lia|].
    rewrite (bind_step _ _ _ _ _ (read_cfg_quiet bs s bdf o rg Hw Hi Hm)). cbn [snd use].
    rewrite bind_ret_l. unfold cap_match in He. by rewrite He.
  - destruct (Z.eqb_spec o 0); [lia|].
    rewrite (bind_step _ _ _ _ _ (read_cfg_quiet bs s bdf o rg Hw Hi Hm)). cbn [snd use].
    rewrite bind_ret_l. unfold cap_match in He. rewrite He. apply IH. lia.
Qed.

(** The loop ends only at the end of a walk; otherwise its fuel runs out. *)
Lemma cap_loop_ends fuel o rg out :
  (∃ r, cap_at (reg bs (p_world s) bdf) id_mask shift mask cid o r ∧
        cap_loop fuel bdf id_mask shift mask cid o rg out s = Ok (find_result out r) s) ∨
  cap_loop fuel bdf id_mask shift mask cid o rg out s = NoFuel.
Proof using Hw Hi Hm QuietReads0.
  revert o rg. induction fuel as [|fuel IH]; intros o rg; cbn [cap_loop]; [by right|].
  destruct (Z.eqb_spec o 0) as [->|Ho]; [left; exists None; eauto using cap_at|].
  rewrite (bind_step _ _ _ _ _ (read_cfg_quiet bs s bdf o rg Hw Hi Hm)). cbn [snd use].
  rewrite bind_ret_l. destruct (Z.land _ id_mask =? cid) eqn:E.
  - left. exists (Some o). split; [by apply cap_here|done].
  - destruct (IH (cap_next (reg bs (p_world s) bdf) shift mask o) (Some (reg bs (p_world s) bdf o))) as [(r & Hr & He)|Hn].
    + left. exists r. split; [by apply cap_skip|exact He].
    + right. exact Hn.
Qed.

Lemma cap_loop_exact k fuel o rg out :
  mask = 2 ^ k - 1 → 0 ≤ k → 0 ≤ o ≤ mask → (Z.to_nat mask < fuel)%nat →
  match cap_loop fuel bdf id_mask shift mask cid o rg out s with
  | Ok v s' => s' = s ∧ ∃ r, cap_at (reg bs (p_world s) bdf) id_mask shift mask cid o r ∧ v = find_result out r
  | NoFuel => ∀ r, ¬ cap_at (reg bs (p_world s) bdf) id_mask shift mask cid o r
  | Fault _ => False
  end.
Proof using Hw Hi Hm QuietReads0.
  intros Hk Hk' Ho Hf. destruct (cap_loop_ends fuel o rg out) as [(r & Hr & ->)|Hn]; [by eauto|].
  rewrite Hn. intros r (l & Hl)%cap_at_path.
  rewrite (cap_loop_path fuel _ _ _ rg out Hl) in Hn; [done|].
  pose proof (cap_path_short _ _ _ _ _ _ _ _ _ Hk Hk' Ho Hl). lia.
Qed.
End Loop.

(** The list of one kind: the walk from its first offset. *)
Definition capability_at (bs : list PCIE_INFO_BLOCK) (w : W) (bdf : Z) (cid_type : BITFIELD_REGISTER_TYPE)
    (cid : Z) (r : option Z) : Prop :=
  match cid_type with
  | PCIE_CAP => cap_at (reg bs w bdf) 0xff 8 0xff cid (Z.land (reg bs w bdf TYPE01_CPR) 0xff) r
  | PCIE_ECAP => cap_at (reg bs w bdf) 0xffff 20 0xfff cid 0x100 r
  | HEADER => r = None
  end.

(** The capability pointer does not read as all ones. *)
Definition answers (bs : list PCIE_INFO_BLOCK) (w : W) (bdf : Z) : Prop :=
  reg bs w bdf TYPE01_CPR ≠ PCIE_UNKNOWN_RESPONSE.

Lemma find_capability_run bs s bdf ty cid out :
  info_wf bs → has_info bs s → mapped_bdf bs bdf → (ty = PCIE_CAP → answers bs (p_world s) bdf) →
  match val_pcie_find_capability bdf ty cid out s with
  | Ok v s' => s' = s ∧ ∃ r, capability_at bs (p_world s) bdf ty cid r ∧ v = find_result out r
  | NoFuel => ∀ r, ¬ capability_at bs (p_world s) bdf ty cid r
  | Fault _ => False
  end.
Proof.
  intros Hw Hi Hm Ha. destruct ty; cbn [val_pcie_find_capability].
  - split; [done|]. by exists None.
  - rewrite (bind_step _ _ _ _ _ (read_cfg_quiet bs s bdf _ None Hw Hi Hm)).
    cbn [fst snd use]. change (0 =? PCIE_NO_MAPPING) with false. cbn [negb]. rewrite bind_ret_l.
    destruct (Z.eqb_spec (reg bs (p_world s) bdf TYPE01_CPR) PCIE_UNKNOWN_RESPONSE) as [E|_]; [by destruct (Ha eq_refl)|].
    apply (cap_loop_exact _ _ _ _ _ _ _ Hw Hi Hm 8); [done|lia| |vm_compute; lia].
    unfold TYPE01_CPR_MASK. change 0xff with (2 ^ 8 - 1). rewrite land_mask by lia.
    pose proof (Z.mod_pos_bound (reg bs (p_world s) bdf TYPE01_CPR) (2 ^ 8)).
    unfold PCIE_NCPR_MASK. lia.
  - apply (cap_loop_exact _ _ _ _ _ _ _ Hw Hi Hm 12); [done|lia|by vm_compute|vm_compute; lia].
Qed.

Lemma find_capability_found bs s bdf ty cid out r :
  info_wf bs → has_info bs s → mapped_bdf bs bdf → answers bs (p_world s) bdf →
  capability_at bs (p_world s) bdf ty cid r →
  val_pcie_find_capability bdf ty cid out s = Ok (find_result out r) s.
Proof.
  intros Hw Hi Hm Ha Hr. pose proof (find_capability_run bs s bdf ty cid out Hw Hi Hm (λ _, Ha)) as Hf.
  destruct (val_pcie_find_capability bdf ty cid out s) as [v s'|f|]; [|done|by destruct (Hf r)].
  destruct Hf as (-> & r' & Hr' & ->). f_equal. f_equal. destruct ty; cbn in *; [congruence|..].
  all: apply cap_at_path in Hr as [l Hl]; apply cap_at_path in Hr' as [l' Hl'].
  all: by destruct (cap_path_det _ _ _ _ _ _ _ _ _ _ Hl Hl').
Qed.

(** * Types of ports *)

(** The function has a PCI Express capability, at [o]. *)
Definition express_at (bs : list PCIE_INFO_BLOCK) (w : W) (bdf o : Z) : Prop :=
  mapped_bdf bs bdf ∧ answers bs w bdf ∧ capability_at bs w bdf PCIE_CAP CID_PCIECS (Some o).

Definition port_type (bs : list PCIE_INFO_BLOCK) (w : W) (bdf o : Z) : Z :=
  Z.shiftl 1 (Z.land (Z.shiftr (reg bs w bdf o) 20) 0xf).

Lemma cap_at_small rd id_mask shift cid k o r x :
  0 ≤ k → 0 ≤ o < 2 ^ k → cap_at rd id_mask shift (2 ^ k - 1) cid o r → r = Some x → 0 < x < 2 ^ k.
Proof.
  intros Hk Ho Hr. induction Hr as [|o Hz Hm|o r Hz Hm Hr IH]; intros [=]; subst; [lia|].
  apply IH; [|done]. unfold cap_next. rewrite land_mask by done. apply Z.mod_pos_bound. lia.
Qed.

Lemma express_small bs s bdf o : express_at bs (p_world s) bdf o → 0 < o < 2 ^ 8.
Proof.
  intros (_ & _ & Hc). cbn in Hc. change 0xff with (2 ^ 8 - 1) in Hc.
  eapply (cap_at_small _ _ _ _ 8); [lia| |exact Hc|done].
  rewrite land_mask by lia. by apply Z.mod_pos_bound.
Qed.

Lemma pciecs_base_run bs s bdf o :
  info_wf bs → has_info bs s → express_at bs (p_world s) bdf o → pciecs_base bdf s = Ok o s.
Proof.
  intros Hw Hi (Hm & Ha & Hc). unfold pciecs_base.
  by rewrite (bind_step _ _ _ _ _ (find_capability_found bs s bdf _ _ None _ Hw Hi Hm Ha Hc)).
Qed.

Lemma device_port_type_run bs s bdf o :
  info_wf bs → has_info bs s → express_at bs (p_world s) bdf o →
  val_pcie_device_port_type bdf s = Ok (port_type bs (p_world s) bdf o) s.
Proof.
  intros Hw Hi He. pose proof (express_small _ _ _ _ He). unfold val_pcie_device_port_type.
  rewrite (bind_step _ _ _ _ _ (pciecs_base_run bs s bdf o Hw Hi He)).
  replace (u32 (o + CIDR_OFFSET)) with o.
  2: { unfold CIDR_OFFSET, u32. rewrite Z.mod_small; lia. }
  by rewrite (bind_step _ _ _ _ _ (read_reg_quiet bs s bdf o Hw Hi (proj1 He))).
Qed.

(** The functions with a PCI Express capability, and their types. *)
Definition express (bs : list PCIE_INFO_BLOCK) (w : W) (bdf : Z) : Prop := ∃ o, express_at bs w bdf o.

Definition bare (bs : list PCIE_INFO_BLOCK) (w : W) : pcie W :=
  mk_pcie w (Some (mk_info (Z.of_nat (length bs)) bs)) None (λ _, 0).

Definition ptype (bs : list PCIE_INFO_BLOCK) (w : W) (bdf : Z) : Z :=
  match val_pcie_device_port_type bdf (bare bs w) with
  | Ok v _ => v
  | _ => 0
  end.

Lemma ptype_run bs s bdf :
  info_wf bs → has_info bs s → express bs (p_world s) bdf →
  val_pcie_device_port_type bdf s = Ok (ptype bs (p_world s) bdf) s.
Proof.
  intros Hw Hi (o & He). rewrite (device_port_type_run bs s bdf o) by done. unfold ptype.
  by rewrite (device_port_type_run bs (bare bs (p_world s)) bdf o).
Qed.

(** * The search for a root port *)

(** The bridge [rp] is a root port whose secondary and subordinate bus numbers
    enclose the bus of [bdf], in the same segment. *)
Definition rp_covers (bs : list PCIE_INFO_BLOCK) (w : W) (bdf rp : Z) : bool :=
  let v := reg bs w rp TYPE1_PBN in
  is_root_port (ptype bs w rp) &&
  (Z.land (Z.shiftr v SECBN_SHIFT) SECBN_MASK <=? PCIE_EXTRACT_BDF_BUS bdf) &&
  (PCIE_EXTRACT_BDF_BUS bdf <=? Z.land (Z.shiftr v SUBBN_SHIFT) SUBBN_MASK) &&
  (PCIE_EXTRACT_BDF_SEG rp =? PCIE_EXTRACT_BDF_SEG bdf).

Fixpoint first_covering (bs : list PCIE_INFO_BLOCK) (w : W) (bdf : Z) (l : list Z) : Z * Z :=
  match l with
  | [] => (1, 0)
  | rp :: l => if rp_covers bs w bdf rp then (0, rp) else first_covering bs w bdf l
  end.

Definition rootport_of (bs : list PCIE_INFO_BLOCK) (w : W) (l : list Z) (bdf : Z) : Z * Z :=
  let ty := ptype bs w bdf in
  if is_root_port ty then (0, bdf)
  else if (ty =? RCiEP) || (ty =? RCEC) then (1, 0xffffffff)
  else first_covering bs w bdf l.

(** The functions of the table, in order. *)
Definition listed (t : pcie_device_bdf_table) : list Z :=
  a_bdf <$> take (Z.to_nat (bdf_entries t)) (bdf_device t).

Definition table_ok (t : pcie_device_bdf_table) : Prop :=
  0 ≤ bdf_entries t ≤ Z.of_nat (length (bdf_device t)).

Lemma bdf_table_run s t : p_bdf s = Some t → bdf_table s = Ok t s.
Proof. intros E. unfold bdf_table. rewrite (bind_step _ _ s (p_bdf s) s) by done. by rewrite E. Qed.

Lemma device_at_run s t i a :
  p_bdf s = Some t → bdf_device t !! Z.to_nat i = Some a → device_at i s = Ok a s.
Proof.
  intros E Ha. unfold device_at. rewrite (bind_step _ _ _ _ _ (bdf_table_run s t E)). by rewrite Ha.
Qed.

Lemma rootport_loop_run bs s t fuel bdf i rg :
  info_wf bs → has_info bs s → p_bdf s = Some t → table_ok t →
  Forall (express bs (p_world s)) (listed t) →
  0 ≤ i ≤ bdf_entries t → (Z.to_nat (bdf_entries t - i) < fuel)%nat →
  rootport_loop fuel bdf i rg s = Ok (first_covering bs (p_world s) bdf (drop (Z.to_nat i) (listed t))) s.
Proof.
  intros Hw Hi Ht [Hn1 Hn2] Hex. revert i rg. induction fuel as [|fuel IH]; intros i rg Hr Hf; [lia|].
  cbn [rootport_loop]. rewrite (bind_step _ _ _ _ _ (bdf_table_run s t Ht)).
  destruct (Z.ltb_spec i (bdf_entries t)); cbn [negb].
  - destruct (lookup_lt_is_Some_2 (bdf_device t) (Z.to_nat i)) as [a Ha]; [lia|].
    assert (listed t !! Z.to_nat i = Some (a_bdf a)) as Hl.
    { unfold listed. rewrite list_lookup_fmap, lookup_take_lt, Ha by lia. done. }
    pose proof (Forall_lookup_1 _ _ _ _ Hex Hl) as He.
    assert (mapped_bdf bs (a_bdf a)) as Hm by (by destruct He as (? & ? & _)).
    rewrite (bind_step _ _ _ _ _ (device_at_run s t i a Ht Ha)).
    rewrite (bind_step _ _ _ _ _ (read_cfg_quiet bs s _ _ rg Hw Hi Hm)). cbn [snd use].
    rewrite bind_ret_l. rewrite (bind_step _ _ _ _ _ (ptype_run bs s _ Hw Hi He)).
    rewrite (drop_S _ _ _ Hl). cbn [first_covering]. unfold rp_covers.
    destruct (_ && _ && _ && _); [done|].
    rewrite IH by lia. by replace (Z.to_nat (i + 1)) with (S (Z.to_nat i)) by lia.
  - rewrite drop_ge; [done|]. unfold listed. rewrite length_fmap, length_take. lia.
Qed.

Lemma get_rootport_run bs s t bdf :
  info_wf bs → has_info bs s → p_bdf s = Some t → table_ok t →
  Forall (express bs (p_world s)) (listed t) → express bs (p_world s) bdf →
  val_pcie_get_rootport bdf s = Ok (rootport_of bs (p_world s) (listed t) bdf) s.
Proof.
  intros Hw Hi Ht Hn Hex He. unfold val_pcie_get_rootport, rootport_of.
  rewrite (bind_step _ _ _ _ _ (ptype_run bs s _ Hw Hi He)).
  destruct (is_root_port _); [done|]. destruct (_ || _); [done|].
  pose proof Hn as [? ?]. rewrite (rootport_loop_run bs s t) by (done || unfold table_fuel; rewrite Ht; lia).
  by rewrite drop_0.
Qed.

(** * The table of functions *)

(** What the probe of a function looks at: it answers, it is no host bridge, and
    its list has a PCI Express capability. *)
Definition responds (bs : list PCIE_INFO_BLOCK) (w : W) (bdf : Z) : bool :=
  negb (reg bs w bdf TYPE01_VIDR =? PCIE_UNKNOWN_RESPONSE) &&
  negb (class_is_host_bridge (reg bs w bdf TYPE01_RIDR)).

Definition has_express (bs : list PCIE_INFO_BLOCK) (w : W) (bdf : Z) : bool :=
  match val_pcie_find_capability bdf PCIE_CAP CID_PCIECS None (bare bs w) with
  | Ok r _ => fst r =? PCIE_SUCCESS
  | _ => false
  end.

Definition listable (bs : list PCIE_INFO_BLOCK) (w : W) (bdf : Z) : Prop :=
  responds bs w bdf && has_express bs w bdf = true.

#[export] Instance listable_dec bs w bdf : Decision (listable bs w bdf).
Proof. unfold listable. apply _. Defined.

(** Every function that answers has a capability list that ends. *)
Definition lists_end (bs : list PCIE_INFO_BLOCK) (w : W) : Prop :=
  ∀ bdf, mapped_bdf bs bdf → responds bs w bdf = true →
    answers bs w bdf ∧ ∃ r, capability_at bs w bdf PCIE_CAP CID_PCIECS r.

Lemma has_express_run bs s bdf :
  info_wf bs → has_info bs s → mapped_bdf bs bdf → responds bs (p_world s) bdf = true →
  lists_end bs (p_world s) →
  ∃ r, val_pcie_find_capability bdf PCIE_CAP CID_PCIECS None s = Ok (find_result None r) s ∧
       has_express bs (p_world s) bdf = bool_decide (is_Some r) ∧
       (r ≠ None → express bs (p_world s) bdf).
Proof.
  intros Hw Hi Hm Hr He. destruct (He bdf Hm Hr) as (Ha & r & Hc). exists r.
  rewrite (find_capability_found bs s bdf _ _ None r) by done. split; [done|].
  unfold has_express. rewrite (find_capability_found bs (bare bs (p_world s)) bdf _ _ None r) by done.
  split; [by destruct r|]. intros Hn. destruct r as [o|]; [|done]. by exists o.
Qed.

(** One more function at the end of the table. *)
Definition append_entries (t : pcie_device_bdf_table) (bdf : Z) : option pcie_device_bdf_table :=
  match bdf_device t !! Z.to_nat (bdf_entries t) with
  | Some a => Some (mk_bdf_table (bdf_entries t + 1)
                      (<[Z.to_nat (bdf_entries t) := mk_attr bdf (a_rp_bdf a)]> (bdf_device t)))
  | None => None
  end.

Fixpoint append_all (l : list Z) (t : pcie_device_bdf_table) : option pcie_device_bdf_table :=
  match l with
  | [] => Some t
  | b :: l => append_entries t b ≫= append_all l
  end.

Lemma append_all_app l1 l2 t : append_all (l1 ++ l2) t = append_all l1 t ≫= append_all l2.
Proof. revert t. induction l1 as [|b l1 IH]; intros t; cbn; [done|]. by destruct (append_entries t b); cbn. Qed.

(** The table has the size of the array and a counter inside it. *)
Definition table_wf (t : pcie_device_bdf_table) : Prop :=
  length (bdf_device t) = bdf_capacity ∧ table_ok t.

Lemma bdf_capacity_eq : Z.of_nat bdf_capacity = 4095.
Proof. by vm_compute. Qed.

Lemma append_to_wf t b t' :
  table_wf t → append_entries t b = Some t' →
  table_wf t' ∧ listed t' = listed t ++ [b] ∧ bdf_entries t' = bdf_entries t + 1.
Proof.
  intros [Hl [H1 H2]]. unfold append_entries. destruct (bdf_device t !! _) as [a|] eqn:Ha; [|done].
  pose proof (lookup_lt_Some _ _ _ Ha) as Hlt. intros [= <-]. unfold table_wf, table_ok, listed; cbn.
  rewrite length_insert. repeat split; [done|lia|lia|].
  replace (Z.to_nat (bdf_entries t + 1)) with (S (Z.to_nat (bdf_entries t))) by lia.
  rewrite (take_S_r _ _ (mk_attr b (a_rp_bdf a))) by (apply list_lookup_insert_eq; lia).
  rewrite take_insert_ge by lia. by rewrite fmap_app.
Qed.

Lemma append_all_spec l t :
  table_wf t →
  match append_all l t with
  | Some t' => table_wf t' ∧ listed t' = listed t ++ l ∧ bdf_entries t' = bdf_entries t + Z.of_nat (length l)
  | None => Z.of_nat bdf_capacity < bdf_entries t + Z.of_nat (length l)
  end.
Proof.
  revert t. induction l as [|b l IH]; intros t Ht; cbn [append_all].
  { split; [done|]. rewrite app_nil_r. split; [done|]. cbn. lia. }
  destruct (append_entries t b) as [t1|] eqn:E; cbn.
  - destruct (append_to_wf _ _ _ Ht E) as (H1 & H2 & H3). specialize (IH t1 H1).
    destruct (append_all l t1) as [t2|].
    + destruct IH as (? & -> & ->). rewrite H2, H3, <- app_assoc.
      split; [done|]. split; [done|]. cbn [length]. lia.
    + lia.
  - unfold append_entries in E. destruct (bdf_device t !! _) eqn:Hn; [done|].
    apply lookup_ge_None in Hn. destruct Ht as [Hl [? ?]]. lia.
Qed.

Lemma append_bdf_run s t b :
  p_bdf s = Some t → table_wf t →
  append_bdf b s = match append_entries t b with
                   | Some t' => Ok tt (pset_bdf (Some t') s)
                   | None => Fault OutOfBounds
                   end.
Proof.
  intros Ht [Hl [H1 H2]]. pose proof bdf_capacity_eq as Hc. unfold append_bdf.
  rewrite (bind_step _ _ _ _ _ (bdf_table_run s t Ht)). unfold set_entries at 1.
  rewrite bind_assoc, (bind_step _ _ _ _ _ (bdf_table_run s t Ht)).
  rewrite (bind_step _ _ s tt (pset_bdf (Some (mk_bdf_table (u32 (bdf_entries t + 1)) (bdf_device t))) s))
    by done.
  unfold set_device. erewrite (bind_step bdf_table); [|by apply bdf_table_run].
  cbn [bdf_device]. unfold append_entries. destruct (bdf_device t !! _) as [a|]; [|done].
  unfold modify. cbn [bdf_entries]. unfold u32. rewrite Z.mod_small by lia. done.
Qed.

(** What a run of probes over a list of functions comes to. *)
Definition probe_outcome (bs : list PCIE_INFO_BLOCK) (w : W) (l : list Z) s : outcome (pcie W) (option Z) :=
  match p_bdf s with
  | None => Fault NullDeref
  | Some t =>
      match append_all (filter (listable bs w) l) t with
      | Some t' => Ok None (pset_bdf (Some t') s)
      | None => Fault OutOfBounds
      end
  end.

(** The states of the discovery. *)
Definition discovering (bs : list PCIE_INFO_BLOCK) (w : W) s : Prop :=
  has_info bs s ∧ p_world s = w ∧ ∃ t, p_bdf s = Some t ∧ table_wf t.

Lemma discovering_next bs w s l t' :
  discovering bs w s → (p_bdf s ≫= append_all l) = Some t' → discovering bs w (pset_bdf (Some t') s).
Proof.
  intros (Hi & Hw & t & Ht & Hwf) Ha. rewrite Ht in Ha. cbn in Ha.
  pose proof (append_all_spec l t Hwf) as Hs. rewrite Ha in Hs. repeat split; [done|done|].
  exists t'. split; [done|]. apply Hs.
Qed.

Lemma probe_outcome_cat bs w l1 l2 s :
  discovering bs w s →
  probe_outcome bs w (l1 ++ l2) s = bind (probe_outcome bs w l1) (λ r, match r with
                                                    | Some v => ret (Some v)
                                                    | None => probe_outcome bs w l2 end) s.
Proof.
  intros (Hi & Hw & t & Ht & Hwf). unfold probe_outcome at 1 2, bind. rewrite Ht.
  rewrite filter_app, append_all_app. destruct (append_all (filter _ l1) t) as [t1|]; cbn; done.
Qed.

Lemma for_from_probe bs w n i0 body f s :
  (∀ i s, i0 ≤ i < i0 + Z.of_nat n → discovering bs w s → body i s = probe_outcome bs w (f i) s) →
  discovering bs w s →
  for_from n i0 body s = probe_outcome bs w (mjoin (f <$> seqZ i0 (Z.of_nat n))) s.
Proof.
  revert i0 s. induction n as [|n IH]; intros i0 s Hb Hd.
  - cbn. unfold probe_outcome. destruct Hd as (? & ? & t & Ht & ?). rewrite Ht. cbn.
    unfold ret. f_equal. destruct s; cbn in *. by rewrite Ht.
  - rewrite seqZ_cons by lia. cbn [fmap list_fmap mjoin list_join for_from].
    rewrite probe_outcome_cat by done. unfold bind. rewrite Hb by (done || lia).
    destruct (probe_outcome bs w (f i0) s) as [[v|] s1| |] eqn:E; [done| |done|done].
    replace (Z.pred (Z.of_nat (S n))) with (Z.of_nat n) by lia. replace (Z.succ i0) with (i0 + 1) by lia.
    apply IH; [intros; apply Hb; [lia|done]|]. unfold probe_outcome in E.
    pose proof Hd as (_ & _ & t & Ht & _). rewrite Ht in E.
    destruct (append_all _ t) as [t1|] eqn:Ea; [|done]. injection E as <-.
    eapply discovering_next; [done|]. rewrite Ht. exact Ea.
Qed.

(** The functions of a device, of a bus and of a window, in the order of the scan. *)
Definition device_functions (seg bus dev : Z) : list Z :=
  mjoin ((λ func, [PCIE_CREATE_BDF seg bus dev func]) <$> seqZ 0 PCIE_MAX_FUNC).
Definition bus_functions (seg bus : Z) : list Z :=
  mjoin (device_functions seg bus <$> seqZ 0 PCIE_MAX_DEV).
Definition window_functions (b : PCIE_INFO_BLOCK) : list Z :=
  mjoin (bus_functions (segment_num b) <$> seqZ (start_bus_num b) (end_bus_num b + 1 - start_bus_num b)).
Definition all_functions (bs : list PCIE_INFO_BLOCK) : list Z := mjoin (window_functions <$> bs).

Lemma created_mapped bs b bus dev func :
  info_wf bs → b ∈ bs → start_bus_num b ≤ bus ≤ end_bus_num b → 0 ≤ dev < 32 → 0 ≤ func < 8 →
  mapped_bdf bs (PCIE_CREATE_BDF (segment_num b) bus dev func).
Proof.
  intros [Hf _] Hb Hbus Hd Hfn. rewrite Forall_forall in Hf. destruct (Hf b Hb) as (? & ? & ? & ? & ?).
  exists b. split; [done|]. unfold in_block.
  assert (bdf_valid (segment_num b) bus dev func) as Hv by (unfold bdf_valid; lia).
  destruct (create_extract _ _ _ _ Hv) as (-> & -> & _). lia.
Qed.

Lemma all_functions_mapped bs bdf : info_wf bs → bdf ∈ all_functions bs → mapped_bdf bs bdf.
Proof.
  intros Hw (l & Hin & (b & -> & Hb)%list_elem_of_fmap)%list_elem_of_join.
  apply list_elem_of_join in Hin as (l & Hin & (bus & -> & Hbus%elem_of_seqZ)%list_elem_of_fmap).
  apply list_elem_of_join in Hin as (l & Hin & (dev & -> & Hdev%elem_of_seqZ)%list_elem_of_fmap).
  apply list_elem_of_join in Hin as (l & Hin & (func & -> & Hf%elem_of_seqZ)%list_elem_of_fmap).
  apply list_elem_of_singleton in Hin as ->. unfold PCIE_MAX_DEV, PCIE_MAX_FUNC in *.
  apply created_mapped; (done || lia).
Qed.

Lemma probe_function_run bs w s seg bus dev func :
  info_wf bs → lists_end bs w → discovering bs w s → mapped_bdf bs (PCIE_CREATE_BDF seg bus dev func) →
  probe_function seg bus dev func s = probe_outcome bs w [PCIE_CREATE_BDF seg bus dev func] s.
Proof.
  intros Hw He (Hi & <- & t & Ht & Hwf) Hm. unfold probe_function.
  rewrite (bind_step _ _ _ _ _ (read_cfg_quiet bs s _ _ None Hw Hi Hm)). cbn [fst snd use].
  change (0 =? PCIE_NO_MAPPING) with false. cbn match. rewrite bind_ret_l.
  set (bdf := PCIE_CREATE_BDF seg bus dev func) in *.
  assert (pset_bdf (Some t) s = s) as Hid by (destruct s; cbn in *; by rewrite Ht).
  unfold probe_outcome. rewrite Ht, filter_cons, filter_nil.
  destruct (reg bs (p_world s) bdf TYPE01_VIDR =? PCIE_UNKNOWN_RESPONSE) eqn:Ev; cbn [negb].
  { rewrite decide_False; [cbn; by rewrite Hid|]. unfold listable, responds. by rewrite Ev. }
  unfold val_pcie_is_host_bridge at 1. rewrite bind_assoc.
  rewrite (bind_step _ _ _ _ _ (read_reg_quiet bs s _ TYPE01_RIDR Hw Hi Hm)). rewrite bind_ret_l.
  destruct (class_is_host_bridge (reg bs (p_world s) bdf TYPE01_RIDR)) eqn:Eh; cbn [truthy Z.eqb negb].
  { rewrite decide_False; [cbn; by rewrite Hid|]. unfold listable, responds. by rewrite Ev, Eh. }
  assert (responds bs (p_world s) bdf = true) as Hr by (unfold responds; by rewrite Ev, Eh).
  destruct (has_express_run bs s bdf Hw Hi Hm Hr He) as (r & Hf & Hx & _).
  rewrite (bind_step _ _ _ _ _ Hf). destruct r as [o|]; cbn [find_result fst].
  - change (PCIE_SUCCESS =? PCIE_SUCCESS) with true. cbn [negb truthy pal_pcie_check_device_valid Z.eqb].
    unfold bind. rewrite (append_bdf_run s t bdf Ht Hwf).
    rewrite decide_True by (unfold listable; by rewrite Hr, Hx). cbn [append_all].
    by destruct (append_entries t bdf).
  - change (PCIE_CAP_NOT_FOUND =? PCIE_SUCCESS) with false. cbn [negb].
    rewrite decide_False by (unfold listable; by rewrite Hr, Hx). cbn. by rewrite Hid.
Qed.

Lemma scan_ecam_run bs w s i b :
  info_wf bs → lists_end bs w → discovering bs w s → 0 ≤ i → bs !! Z.to_nat i = Some b →
  scan_ecam i s = probe_outcome bs w (window_functions b) s.
Proof.
  intros Hw He Hd Hp Hb. pose proof Hd as (Hi & _). unfold scan_ecam.
  rewrite (bind_step _ _ _ _ _ (get_info_member bs s PCIE_INFO_SEGMENT i b Hi Hb Hp ltac:(done))).
  rewrite (bind_step _ _ _ _ _ (get_info_member bs s PCIE_INFO_START_BUS i b Hi Hb Hp ltac:(done))).
  rewrite (bind_step _ _ _ _ _ (get_info_member bs s PCIE_INFO_END_BUS i b Hi Hb Hp ltac:(done))).
  pose proof (Forall_lookup_1 _ _ _ _ (proj1 Hw) Hb) as (? & ? & ? & ? & ?).
  unfold window_functions. rewrite <- (Z2Nat.id (end_bus_num b + 1 - start_bus_num b)) by lia.
  rewrite (Nat2Z.id (Z.to_nat _)).
  apply for_from_probe; [|done]. intros bus s1 Hr1 Hd1. unfold for_upto, bus_functions.
  replace PCIE_MAX_DEV with (Z.of_nat (Z.to_nat PCIE_MAX_DEV)) at 2 by done.
  apply for_from_probe; [|done]. intros dev s2 Hr2 Hd2. unfold device_functions.
  replace PCIE_MAX_FUNC with (Z.of_nat (Z.to_nat PCIE_MAX_FUNC)) at 2 by done.
  apply for_from_probe; [|done]. intros func s3 Hr3 Hd3.
  change (Z.of_nat (Z.to_nat PCIE_MAX_DEV)) with 32 in Hr2.
  change (Z.of_nat (Z.to_nat PCIE_MAX_FUNC)) with 8 in Hr3.
  apply probe_function_run; [done..|]. apply created_mapped; [done| |lia..].
  by eapply list_elem_of_lookup_2.
Qed.

Lemma scan_all_run bs w s :
  info_wf bs → lists_end bs w → discovering bs w s →
  for_upto (Z.of_nat (length bs)) scan_ecam s = probe_outcome bs w (all_functions bs) s.
Proof.
  intros Hw He Hd. unfold for_upto. rewrite Nat2Z.id.
  rewrite (for_from_probe bs w _ _ _ (λ i, default [] (window_functions <$> bs !! Z.to_nat i))); [|..|done].
  - unfold all_functions. do 2 f_equal. apply list_eq. intros i. rewrite !list_lookup_fmap.
    destruct (bs !! i) as [b|] eqn:Hb.
    + pose proof (lookup_lt_Some _ _ _ Hb). rewrite lookup_seqZ_lt by lia. cbn.
      replace (Z.to_nat (0 + Z.of_nat i)) with i by lia. by rewrite Hb.
    + apply lookup_ge_None in Hb. rewrite lookup_seqZ_ge by lia. done.
  - intros i s1 Hr Hd1. destruct (lookup_lt_is_Some_2 bs (Z.to_nat i)) as [b Hb]; [lia|].
    rewrite Hb. cbn. apply scan_ecam_run; (done || lia).
Qed.

(** Filling in the root ports: after [i] turns the first [i] entries have theirs. *)
Definition rooted (bs : list PCIE_INFO_BLOCK) (w : W) (l : list Z) (i : Z) s : Prop :=
  has_info bs s ∧ p_world s = w ∧ ∃ t, p_bdf s = Some t ∧ table_wf t ∧ listed t = l ∧
  ∀ k a, bdf_device t !! k = Some a → Z.of_nat k < i →
    a_rp_bdf a = snd (rootport_of bs w l (a_bdf a)).

Lemma listed_length t : table_ok t → Z.of_nat (length (listed t)) = bdf_entries t.
Proof. intros [? ?]. unfold listed. rewrite length_fmap, length_take. lia. Qed.

Lemma listed_lookup t i a :
  table_ok t → 0 ≤ i < bdf_entries t → bdf_device t !! Z.to_nat i = Some a →
  listed t !! Z.to_nat i = Some (a_bdf a).
Proof.
  intros [? ?] Hi Ha. unfold listed. rewrite list_lookup_fmap, lookup_take_lt, Ha by lia. done.
Qed.

(** Writing a root port leaves the functions alone. *)
Lemma listed_insert t i a rp :
  table_ok t → 0 ≤ i < bdf_entries t → bdf_device t !! Z.to_nat i = Some a →
  listed (mk_bdf_table (bdf_entries t) (<[Z.to_nat i := mk_attr (a_bdf a) rp]> (bdf_device t))) = listed t.
Proof.
  intros [? ?] Hi Ha. unfold listed; cbn. rewrite take_insert_lt by lia. rewrite list_fmap_insert.
  apply list_insert_id. rewrite list_lookup_fmap, lookup_take_lt, Ha by lia. done.
Qed.

Lemma populate_step bs w l i s :
  info_wf bs → Forall (express bs w) l → 0 ≤ i < Z.of_nat (length l) → rooted bs w l i s →
  run_to (let* a := device_at i in
          let* r := val_pcie_get_rootport (a_bdf a) in
          set_device i (λ a, mk_attr (a_bdf a) (snd r)) ;; ret (None : option Empty_set)) s
    (λ r s', r = None ∧ rooted bs w l (i + 1) s').
Proof.
  intros Hw Hex Hr (Hi & Hp & t & Ht & Hwf & <- & Hrp). pose proof Hwf as [Hc Hok].
  pose proof Hok as [H1 H2]. rewrite listed_length in Hr by done.
  destruct (lookup_lt_is_Some_2 (bdf_device t) (Z.to_nat i)) as [a Ha]; [lia|].
  pose proof (listed_lookup t i a Hok Hr Ha) as Hla.
  eapply run_to_step; [by eapply device_at_run|]. subst w.
  eapply run_to_step; [apply (get_rootport_run bs s t); try done; by eapply Forall_lookup_1|].
  unfold set_device. eapply run_to_step.
  { rewrite (bind_step _ _ _ _ _ (bdf_table_run s t Ht)). rewrite Ha. reflexivity. }
  apply run_to_ret. split; [done|]. split; [done|]. split; [done|]. eexists. split; [reflexivity|].
  split; [unfold table_wf, table_ok; cbn; by rewrite length_insert|].
  split; [by apply listed_insert|]. intros k b Hk Hki. cbn in Hk.
  destruct (decide (k = Z.to_nat i)) as [->|Hne].
  - rewrite list_lookup_insert_eq in Hk by lia. by injection Hk as <-.
  - rewrite list_lookup_insert_ne in Hk by done. apply (Hrp k b Hk). lia.
Qed.

Lemma populate_run bs w s t :
  info_wf bs → has_info bs s → p_world s = w → p_bdf s = Some t → table_wf t →
  Forall (express bs w) (listed t) →
  run_to val_pcie_populate_device_rootport s (λ r s', r = 0 ∧ rooted bs w (listed t) (bdf_entries t) s').
Proof.
  intros Hw Hi Hp Ht Hwf Hex. unfold val_pcie_populate_device_rootport.
  eapply run_to_step; [by apply bdf_table_run|]. pose proof Hwf as [Hl Hok]. pose proof Hok as [Hn1 Hn2].
  eapply run_to_bind; [apply (for_from_to (rooted bs w (listed t)))|].
  - intros i s1 Hr H1. apply populate_step; [done..| |done]. rewrite listed_length by done. lia.
  - split; [done|]. split; [done|]. exists t. split; [done|]. split; [done|]. split; [done|].
    intros; lia.
  - intros r s1 [_ H1]. apply run_to_ret. split; [done|].
    by rewrite Z.add_0_l, Z2Nat.id in H1 by done.
Qed.

Lemma listable_express bs s :
  info_wf bs → has_info bs s → lists_end bs (p_world s) →
  Forall (express bs (p_world s)) (filter (listable bs (p_world s)) (all_functions bs)).
Proof.
  intros Hw Hi He. apply Forall_forall. intros bdf [Hlb Hin]%list_elem_of_filter.
  pose proof (all_functions_mapped bs bdf Hw Hin) as Hm.
  unfold listable in Hlb. apply andb_true_iff in Hlb as [Hr Hx].
  destruct (has_express_run bs s bdf Hw Hi Hm Hr He) as (r & _ & Hr' & Hex). apply Hex.
  rewrite Hr' in Hx. by destruct r.
Qed.

(** * Properties *)

(** a function in some window, at a register offset below 4 KB, is decoded to
    one address of the configuration space, which no other function or offset
    shares: reads and writes go there and nowhere else. *)
Theorem cfg_decode bs s bdf off :
  info_wf bs → has_info bs s → mapped_bdf bs bdf → 0 ≤ off < 4096 →
  let a := cfg_address bs bdf off in
  (∀ d, val_pcie_read_cfg bdf off d s =
        Ok (0, Some (u32 (fst (mmio_read32 (p_world s) a)))) (pset_world (snd (mmio_read32 (p_world s) a)) s)) ∧
  (∀ v, val_pcie_write_cfg bdf off v s = Ok tt (pset_world (mmio_write32 (p_world s) a (u32 v)) s)) ∧
  ∀ bdf' off', mapped_bdf bs bdf' → 0 ≤ off' < 4096 → cfg_address bs bdf' off' = a →
    off' = off ∧ bdf' mod 2 ^ 24 = bdf mod 2 ^ 24.
Proof.
  intros Hw Hi Hm Ho a. pose proof (cfg_address_bounds bs bdf off Hw Hm Ho).
  assert (u64 (cfg_address bs bdf off) = a) as Ha by (by apply u64_id).
  split; [|split].
  - intros d. rewrite (read_cfg_eq bs), base_of_nonzero by done. by rewrite Ha.
  - intros v. rewrite (write_cfg_eq bs), base_of_nonzero by done. by rewrite Ha.
  - intros bdf' off' Hm' Ho' E. by apply (cfg_address_inj bs).
Qed.

(** C33: the search for a capability walks the list of the function: it returns the
    offset of the first entry with the identifier, or PCIE_CAP_NOT_FOUND with the
    output untouched at the end of the list, and it fails to return exactly when
    the list never ends.  When the capability pointer reads as all ones it reports
    success without an offset. *)
Theorem find_capability_exact bs s bdf ty cid out :
  info_wf bs → has_info bs s → mapped_bdf bs bdf →
  let ones := reg bs (p_world s) bdf TYPE01_CPR = PCIE_UNKNOWN_RESPONSE in
  match val_pcie_find_capability bdf ty cid out s with
  | Ok v s' =>
      s' = s ∧ (ty = PCIE_CAP ∧ ones ∧ v = (PCIE_SUCCESS, out) ∨
                ¬ (ty = PCIE_CAP ∧ ones) ∧
                ∃ r, capability_at bs (p_world s) bdf ty cid r ∧ v = find_result out r)
  | NoFuel => ¬ (ty = PCIE_CAP ∧ ones) ∧ ∀ r, ¬ capability_at bs (p_world s) bdf ty cid r
  | Fault _ => False
  end.
Proof.
  intros Hw Hi Hm ones. destruct (decide (ty = PCIE_CAP ∧ ones)) as [[-> E]|Hn].
  - cbn [val_pcie_find_capability].
    rewrite (bind_step _ _ _ _ _ (read_cfg_quiet bs s bdf _ None Hw Hi Hm)).
    cbn [fst snd use]. change (0 =? PCIE_NO_MAPPING) with false. cbn match. rewrite bind_ret_l.
    rewrite E, Z.eqb_refl. split; [done|]. by left.
  - pose proof (find_capability_run bs s bdf ty cid out Hw Hi Hm) as Hf.
    destruct (val_pcie_find_capability bdf ty cid out s) as [v s'|f|].
    + split; [|right; split; [done|]]; apply Hf; tauto.
    + apply Hf. tauto.
    + split; [done|]. apply Hf. tauto.
Qed.

(** C34: the table of functions holds, in the order of the scan, exactly the functions that
    answer, are no host bridge and have a PCI Express capability, each with the
    bridge that is its root port; when there are more than the array holds, the
    scan writes past its end. *)
Theorem create_table_exact bs s t0 :
  info_wf bs → bs ≠ [] → has_info bs s → p_bdf s = Some t0 → length (bdf_device t0) = bdf_capacity →
  lists_end bs (p_world s) →
  let l := filter (listable bs (p_world s)) (all_functions bs) in
  match val_pcie_create_device_bdf_table s with
  | Ok r s' =>
      r = 0 ∧ (length l ≤ bdf_capacity)%nat ∧ p_world s' = p_world s ∧
      ∃ t, p_bdf s' = Some t ∧ listed t = l ∧
           ∀ k a, (k < length l)%nat → bdf_device t !! k = Some a →
                  a_rp_bdf a = snd (rootport_of bs (p_world s) l (a_bdf a))
  | Fault f => f = OutOfBounds ∧ (bdf_capacity < length l)%nat
  | NoFuel => False
  end.
Proof.
  intros Hw Hne Hi Ht Hc He l. unfold val_pcie_create_device_bdf_table.
  rewrite (bind_step _ _ s (Some t0) s) by (unfold gets; by rewrite Ht).
  set (t1 := mk_bdf_table 0 (bdf_device t0)). set (s1 := pset_bdf (Some t1) s).
  assert (table_wf t1) as Hwf by (split; [done|split; cbn; lia]).
  rewrite (bind_step _ _ s tt s1).
  2: { unfold set_entries. by rewrite (bind_step _ _ _ _ _ (bdf_table_run s t0 Ht)). }
  rewrite (bind_step _ _ _ _ _ (get_info_count bs s1 Hi)).
  destruct (Z.eqb_spec (Z.of_nat (length bs)) 0) as [E|_]; [by destruct bs|].
  assert (discovering bs (p_world s) s1) as Hd by (split; [done|split; [done|by exists t1]]).
  unfold bind at 1. rewrite (scan_all_run bs (p_world s) s1 Hw He Hd).
  unfold probe_outcome. cbn [p_bdf s1 pset_bdf]. fold l.
  pose proof (append_all_spec l t1 Hwf) as Hs. destruct (append_all l t1) as [t2|] eqn:Ea.
  - destruct Hs as (Hwf2 & Hl & Hn).
    change (listed t1 ++ l) with l in Hl. cbn in Hn.
    assert (Forall (express bs (p_world s)) (listed t2)) as Hex
      by (rewrite Hl; by apply listable_express).
    pose proof (populate_run bs (p_world s) (pset_bdf (Some t2) s1) t2 Hw Hi eq_refl eq_refl Hwf2 Hex) as Hp.
    unfold run_to in Hp. unfold bind. 
    destruct (val_pcie_populate_device_rootport _) as [r s'|f|]; [|done..].
    destruct Hp as (_ & _ & Hpw & t & Htt & [Hct [_ Hok]] & Hlt & Hrp). cbn.
    split; [done|]. destruct Hwf2 as [Hc2 [_ Hn2]]. split; [lia|]. split; [done|].
    exists t. split; [done|]. split; [by rewrite Hlt|].
    intros k a Hk Ha. rewrite <- Hl. apply (Hrp k a Ha). lia.
  - split; [done|]. cbn in Hs. lia.
Qed.
End Quiet.

(** [val_pcie_increment_busdev] tests the device number against 32, which it never
    is: from device 31 it goes to device 32, whose bit falls into the bus number,
    so that on an odd bus it comes back to device 0 of the same bus. *)
Lemma increment_busdev_stuck seg bus :
  0 ≤ seg < 256 → 0 ≤ bus < 256 → Z.odd bus = true →
  val_pcie_increment_busdev (PCIE_CREATE_BDF seg bus 31 0) = PCIE_CREATE_BDF seg bus 0 0 ∧
  pal_increment_bus_dev (PCIE_CREATE_BDF seg bus 31 0) = PCIE_CREATE_BDF seg (bus + 1) 0 0.
Proof.
  intros Hs Hb Ho. assert (bdf_valid seg bus 31 0) as Hv by (unfold bdf_valid; lia).
  destruct (create_extract _ _ _ _ Hv) as (E1 & E2 & E3 & _).
  unfold val_pcie_increment_busdev, pal_increment_bus_dev. rewrite E1, E2, E3. split; [|done].
  change (negb (31 =? PCIE_MAX_DEV)) with true. cbn match. change (31 + 1) with 32.
  rewrite !create_bdf_sum by lia. rewrite Z.lor_0_r, !Z.add_0_r. change (32 * 2 ^ 3) with (1 * 2 ^ 8).
  replace (seg * 2 ^ 16 + bus * 2 ^ 8) with ((seg * 2 ^ 8 + bus) * 2 ^ 8) by lia.
  rewrite <- (Z.shiftl_mul_pow2 _ 8), <- (Z.shiftl_mul_pow2 1 8), <- Z.shiftl_lor by lia. f_equal.
  apply Zodd_bool_iff, Zodd_ex in Ho as [q ->].
  replace (seg * 2 ^ 8 + (2 * q + 1)) with ((seg * 2 ^ 7 + q) * 2 ^ 1 + 1) by lia.
  rewrite <- (lor_shift_add (seg * 2 ^ 7 + q) 1 1) by lia. by rewrite <- Z.lor_assoc.
Qed.

(** * A small bus *)

(** Registers of a bus with one window for bus 0, all in one map; an address that
    is not in it reads as all ones.  Function 0 of device 1 is a root port with a
    capability list of two entries; the registers from 0x10 on of devices 1 and 2
    keep some of their bits. *)
Definition demo_fixed (a : Z) : Z * Z :=
  if a =? 0x40008010 then (12, 8) else if a =? 0x40008014 then (20, 0)
  else if (0x40008018 <=? a) && (a <=? 0x40008024) then (32, 0)
  else if a =? 0x40010010 then (32, 4) else if a =? 0x40010014 then (1, 0)
  else (0, 0).

#[export] Instance demo_bus : MmioBus (gmap Z Z) := {
  mmio_read32 w a := (default PCIE_UNKNOWN_RESPONSE (w !! a), w);
  mmio_write32 w a v :=
    <[a := Z.lor (Z.land v (2 ^ 32 - 2 ^ fst (demo_fixed a))) (snd (demo_fixed a))]> w
}.

#[export] Instance demo_quiet : QuietReads (gmap Z Z).
Proof. done. Qed.

Definition demo_regs : gmap Z Z :=
  list_to_map [(0x40008000, 0x0DEF13B5); (0x40008004, 0); (0x40008008, 0x06040000); (0x4000800c, 0x10000);
    (0x40008010, 8); (0x40008014, 0); (0x40008018, 0); (0x4000801c, 0); (0x40008020, 0); (0x40008024, 0);
    (0x40008034, 0x40); (0x40008040, 0x5005); (0x40008050, 0x420010);
    (0x40010010, 4); (0x40010014, 0x40)].

Definition demo_blocks : list PCIE_INFO_BLOCK := [mk_block 0x40000000 0 0 0].

Definition demo_state : pcie (gmap Z Z) :=
  mk_pcie demo_regs (Some (mk_info 1 demo_blocks)) (Some g_pcie_bdf_table1) pal_vars_init.

Lemma demo_info_wf : info_wf demo_blocks.
Proof.
  split.
  - repeat constructor; cbn; lia.
  - intros [|i] [|j] b1 b2 Hne H1 H2; [done|by destruct j|by destruct i|by destruct i].
Qed.

Lemma demo_mapped dev func :
  0 ≤ dev < 32 → 0 ≤ func < 8 → mapped_bdf demo_blocks (PCIE_CREATE_BDF 0 0 dev func).
Proof.
  intros Hd Hf. apply (created_mapped demo_blocks (mk_block 0x40000000 0 0 0) 0);
    [apply demo_info_wf|by apply list_elem_of_singleton|cbn; lia|lia|lia].
Qed.

(** The registers of a function depend on its numbers only. *)
Lemma demo_numbers bdf :
  mapped_bdf demo_blocks bdf →
  ∃ dev func, 0 ≤ dev < 32 ∧ 0 ≤ func < 8 ∧
    ∀ off, reg demo_blocks demo_regs bdf off =
           reg demo_blocks demo_regs (PCIE_CREATE_BDF 0 0 dev func) off.
Proof.
  intros (b & ->%list_elem_of_singleton & Hbus & Hseg). cbn in Hbus, Hseg.
  destruct (extract_valid bdf) as (_ & _ & Hd & Hf).
  exists (PCIE_EXTRACT_BDF_DEV bdf), (PCIE_EXTRACT_BDF_FUNC bdf). split; [done|]. split; [done|].
  intros off. assert (bdf_valid 0 0 (PCIE_EXTRACT_BDF_DEV bdf) (PCIE_EXTRACT_BDF_FUNC bdf)) as Hv
    by (unfold bdf_valid; lia).
  destruct (create_extract _ _ _ _ Hv) as (E1 & E2 & E3 & E4).
  unfold reg, cfg_address, base_of. rewrite E1, E2, E3, E4.
  by replace (PCIE_EXTRACT_BDF_BUS bdf) with 0 by lia; rewrite Hseg.
Qed.

Lemma demo_express : capability_at demo_blocks demo_regs 8 PCIE_CAP CID_PCIECS (Some 0x50).
Proof.
  cbn [capability_at].
  assert (Z.land (reg demo_blocks demo_regs 8 TYPE01_CPR) 255 = 0x40) as -> by by vm_compute.
  apply cap_skip; [done|by vm_compute|].
  assert (cap_next (reg demo_blocks demo_regs 8) 8 255 0x40 = 0x50) as -> by by vm_compute.
  apply cap_here; [done|by vm_compute].
Qed.

Lemma demo_lists_end : lists_end demo_blocks demo_regs.
Proof.
  intros bdf (dev & func & Hd & Hf & Hreg)%demo_numbers Hr.
  assert (forallb (λ d, forallb (λ f,
            implb (negb (reg demo_blocks demo_regs (PCIE_CREATE_BDF 0 0 d f) TYPE01_VIDR
                         =? PCIE_UNKNOWN_RESPONSE)) ((d =? 1) && (f =? 0))) (seqZ 0 8)) (seqZ 0 32) = true)
    as Hall by by vm_compute.
  rewrite forallb_forall in Hall.
  specialize (Hall dev ltac:(by apply list_elem_of_In, elem_of_seqZ; lia)).
  rewrite forallb_forall in Hall.
  specialize (Hall func ltac:(by apply list_elem_of_In, elem_of_seqZ; lia)).
  unfold responds in Hr. rewrite Hreg in Hr. apply andb_true_iff in Hr as [Hr _]. rewrite Hr in Hall.
  cbn [implb] in Hall. apply andb_true_iff in Hall as [->%Z.eqb_eq ->%Z.eqb_eq].
  change (PCIE_CREATE_BDF 0 0 1 0) with 8 in Hreg. unfold answers. split.
  - rewrite Hreg. by vm_compute.
  - exists (Some 0x50). pose proof demo_express as He. cbn [capability_at] in He |- *.
    rewrite Hreg. revert He. generalize (reg demo_blocks demo_regs 8 TYPE01_CPR). intros p He.
    clear Hr. induction He; [constructor|apply cap_here|apply cap_skip]; unfold cap_match, cap_next in *;
      rewrite ?Hreg; done.
Qed.

Lemma cfg_decode_witness :
  mapped_bdf demo_blocks 8 ∧
  val_pcie_read_cfg 8 TYPE01_CPR None demo_state = Ok (0, Some 0x40) demo_state.
Proof.
  assert (fst (mmio_read32 demo_regs (cfg_address demo_blocks 8 TYPE01_CPR)) = 0x40) as E by by vm_compute.
  assert (mapped_bdf demo_blocks 8) as Hm by (apply (demo_mapped 1 0); lia).
  split; [exact Hm|].
  pose proof (cfg_decode demo_blocks demo_state 8 TYPE01_CPR demo_info_wf eq_refl Hm ltac:(done)) as [Hr _].
  rewrite Hr. cbn [p_world demo_state]. rewrite E. reflexivity.
Defined.

Lemma find_capability_exact_witness :
  val_pcie_find_capability 8 PCIE_CAP CID_PCIECS None demo_state = Ok (PCIE_SUCCESS, Some 0x50) demo_state ∧
  ∃ r, capability_at demo_blocks demo_regs 8 PCIE_CAP CID_PCIECS r ∧
       (PCIE_SUCCESS, Some 0x50) = find_result None r.
Proof.
  assert (val_pcie_find_capability 8 PCIE_CAP CID_PCIECS None demo_state
          = Ok (PCIE_SUCCESS, Some 0x50) demo_state) as E by by vm_compute.
  split; [exact E|].
  pose proof (find_capability_exact demo_blocks demo_state 8 PCIE_CAP CID_PCIECS None demo_info_wf eq_refl
                (demo_mapped 1 0 ltac:(lia) ltac:(lia))) as Hf.
  cbn zeta in Hf. rewrite E in Hf. destruct Hf as [_ [(_ & _ & [=])|[_ Hf]]]. exact Hf.
Defined.

Lemma create_table_exact_witness :
  filter (listable demo_blocks demo_regs) (all_functions demo_blocks) = [8] ∧
  match val_pcie_create_device_bdf_table demo_state with
  | Ok r s' => r = 0 ∧ ∃ t, p_bdf s' = Some t ∧ listed t = [8]
  | _ => False
  end.
Proof.
  assert (filter (listable demo_blocks demo_regs) (all_functions demo_blocks) = [8]) as E by by vm_compute.
  assert (match val_pcie_create_device_bdf_table demo_state with Ok _ _ => true | _ => false end = true)
    as Eok by by vm_compute.
  assert (length (bdf_device g_pcie_bdf_table1) = bdf_capacity) as El by by vm_compute.
  split; [exact E|].
  pose proof (create_table_exact demo_blocks demo_state g_pcie_bdf_table1 demo_info_wf ltac:(done) eq_refl
                eq_refl El demo_lists_end) as Ht.
  cbn zeta in Ht. change (p_world demo_state) with demo_regs in Ht. rewrite E in Ht.
  destruct (val_pcie_create_device_bdf_table demo_state) as [r s'|f|]; [|discriminate Eok|discriminate Eok].
  destruct Ht as (-> & _ & _ & t & Ht & Hl & _). split; [reflexivity|]. exists t. exact (conj Ht Hl).
Defined.
