(* ===== verification/PcieBars.v ===== *)
(** Base address registers: the sizing protocol of [val_pcie_get_bar] against a
    register that implements it, and the placement of registers by the
    enumeration. *)
From S2P Require Import Prelude Defs Pcie PcieEnum PcieFacts.

(** * Masks *)

Lemma land_high a j : 0 ≤ a < 2 ^ 32 → 0 ≤ j ≤ 32 → Z.land a (2 ^ 32 - 2 ^ j) = a - a mod 2 ^ j.
Proof.
  intros Ha Hj.
  assert (2 ^ 32 - 2 ^ j = Z.ldiff (2 ^ 32 - 1) (2 ^ j - 1)) as ->.
  { rewrite ldiff_ones by lia. assert (0 < 2 ^ j) by lia.
    replace (2 ^ 32 - 1) with (2 ^ j - 1 + (2 ^ (32 - j) - 1) * 2 ^ j).
    - rewrite Z.mod_add, Z.mod_small by lia. rewrite Z.mul_sub_distr_r, <- Z.pow_add_r by lia.
      replace (32 - j + j) with 32 by lia. lia.
    - rewrite Z.mul_sub_distr_r, <- Z.pow_add_r by lia. replace (32 - j + j) with 32 by lia. lia. }
  rewrite <- (ldiff_ones a j) by lia. rewrite !Z.ldiff_land, Z.land_assoc.
  rewrite land_mask by lia. by rewrite Z.mod_small.
Qed.

Lemma land_bar_mask a : 0 ≤ a < 2 ^ 32 → Z.land a BAR_MASK = a - a mod 2 ^ 4.
Proof. intros. change BAR_MASK with (2 ^ 32 - 2 ^ 4). by rewrite land_high. Qed.

Lemma lor_low a b j : 0 ≤ j → (2 ^ j | a) → 0 ≤ b < 2 ^ j → Z.lor a b = a + b.
Proof. intros Hj [q ->] Hb. by apply lor_shift_add. Qed.

(** * Sizing *)

Section Bars.
Context {W : Type} `{MmioBus W} `{!QuietReads W}.
Implicit Types s : pcie W.

(** A 32-bit register at address [a] whose low [j] bits do not change and read as
    [flags], as the bus specification has base address registers; writing it
    changes no other register. *)
Definition bar_law (a j flags : Z) : Prop :=
  ∀ w v, 0 ≤ v < 2 ^ 32 →
    fst (mmio_read32 (mmio_write32 w a v) a) = Z.lor (Z.land v (2 ^ 32 - 2 ^ j)) flags ∧
    ∀ a', a' ≠ a → fst (mmio_read32 (mmio_write32 w a v) a') = fst (mmio_read32 w a').

Definition same_regs (w w' : W) : Prop := ∀ a, fst (mmio_read32 w' a) = fst (mmio_read32 w a).

Lemma same_regs_reg bs w w' bdf off : same_regs w w' → reg bs w' bdf off = reg bs w bdf off.
Proof. intros Hs. unfold reg. by rewrite Hs. Qed.

Lemma size_helper_run bs s bdf off j flags base :
  info_wf bs → has_info bs s → mapped_bdf bs bdf → 0 ≤ off < 4096 →
  0 ≤ j ≤ 32 → 0 ≤ flags < 2 ^ j → 0 ≤ base → base + flags < 2 ^ 32 → (2 ^ j | base) →
  bar_law (cfg_address bs bdf off) j flags →
  fst (mmio_read32 (p_world s) (cfg_address bs bdf off)) = base + flags →
  ∃ w', pci_bar_size_helper bdf off s = Ok (2 ^ 32 - 2 ^ j + flags) (pset_world w' s) ∧
        same_regs (p_world s) w'.
Proof.
  intros Hw Hi Hm Ho Hj Hf Hb1 Hb2 Hd Hlaw Hr. pose proof (cfg_address_bounds bs bdf off Hw Hm Ho) as Ha.
  pose proof (u64_id _ Ha) as Hu. set (a := cfg_address bs bdf off) in *.
  assert (0 < 2 ^ j ≤ 2 ^ 32) as Hp by (split; [lia|apply Z.pow_le_mono_r; lia]).
  assert (reg bs (p_world s) bdf off = base + flags) as Hreg.
  { unfold reg. fold a. rewrite Hu, Hr. unfold u32. apply Z.mod_small. lia. }
  set (w1 := mmio_write32 (p_world s) a 0xFFFFFFFF).
  set (w2 := mmio_write32 w1 a (base + flags)).
  destruct (Hlaw (p_world s) 0xFFFFFFFF ltac:(lia)) as [L1 L2]. fold w1 in L1, L2.
  destruct (Hlaw w1 (base + flags) ltac:(lia)) as [L3 L4]. fold w2 in L3, L4.
  assert (reg bs w1 bdf off = 2 ^ 32 - 2 ^ j + flags) as Hreg1.
  { unfold reg. fold a. rewrite Hu, L1. change 0xFFFFFFFF with (2 ^ 32 - 1). rewrite land_high by lia.
    rewrite (lor_low _ _ j) by (lia || apply sub_mod_divides; lia).
    assert ((2 ^ 32 - 1) mod 2 ^ j = 2 ^ j - 1) as ->.
    { replace (2 ^ 32 - 1) with (2 ^ j - 1 + (2 ^ (32 - j) - 1) * 2 ^ j).
      - rewrite Z.mod_add, Z.mod_small by lia. done.
      - rewrite Z.mul_sub_distr_r, <- Z.pow_add_r by lia. replace (32 - j + j) with 32 by lia. lia. }
    unfold u32. rewrite Z.mod_small; lia. }
  exists w2. split.
  - unfold pci_bar_size_helper.
    rewrite (bind_step _ _ _ _ _ (read_cfg_quiet bs s bdf off None Hw Hi Hm)). rewrite Hreg.
    rewrite (bind_step _ _ s tt (pset_world w1 s)).
    2: { rewrite (write_cfg_eq bs), base_of_nonzero by done. fold a. by rewrite Hu. }
    rewrite (bind_step _ _ _ _ _ (read_cfg_quiet bs (pset_world w1 s) bdf off None Hw Hi Hm)).
    cbn [snd use p_world pset_world]. rewrite bind_ret_l, Hreg1.
    rewrite (bind_step _ _ (pset_world w1 s) tt (pset_world w2 s)); [done|].
    rewrite (write_cfg_eq bs), base_of_nonzero by done. fold a. rewrite Hu. cbn.
    unfold u32. by rewrite Z.mod_small by lia.
  - intros a'. destruct (decide (a' = a)) as [->|Hne].
    + rewrite L3, land_high by lia. rewrite Hr. destruct Hd as [q ->].
      rewrite Z.add_comm, Z.mod_add, Z.mod_small by lia.
      rewrite (lor_low _ _ j); [lia|lia| |lia]. exists q. lia.
    + rewrite L4, L2 by done. done.
Qed.

(** The type bits of a register below its address bits. *)
Lemma bar_reg_flags base flags :
  0 ≤ flags < 16 → (2 ^ 4 | base) → (BAR_REG (base + flags) =? BAR_64_BIT) = Z.testbit flags 2.
Proof.
  intros Hf [q ->]. unfold BAR_REG, BAR_64_BIT. change 0x1 with (2 ^ 1 - 1) at 1.
  rewrite land_mask, Z.shiftr_div_pow2 by lia.
  assert (((q * 2 ^ 4 + flags) / 2 ^ 2) mod 2 ^ 1 = (flags / 2 ^ 2) mod 2).
  { Z.to_euclidean_division_equations. lia. }
  pose proof (Z.testbit_spec' flags 2 ltac:(lia)) as Ht.
  destruct (Z.testbit flags 2); cbn [Z.b2z] in Ht; zb; lia.
Qed.

(** Splitting an aligned 64-bit address over two registers. *)
Lemma pow_divides i j : 0 ≤ i ≤ j → (2 ^ i | 2 ^ j).
Proof. intros. exists (2 ^ (j - i)). rewrite <- Z.pow_add_r by lia. f_equal. lia. Qed.

Lemma low_aligned base k : 0 ≤ k → (2 ^ k | base) → (2 ^ Z.min k 32 | base mod 2 ^ 32).
Proof.
  intros Hk Hd. assert ((2 ^ Z.min k 32 | base)) by (etransitivity; [apply (pow_divides _ k); lia|done]).
  apply Z.mod_divide; [lia|]. rewrite Z.mod_mod_divide by (apply pow_divides; lia).
  by apply Z.mod_divide; [lia|].
Qed.

Lemma high_aligned base k : 0 ≤ k → (2 ^ k | base) → (2 ^ Z.max 0 (k - 32) | base / 2 ^ 32).
Proof.
  intros Hk [q ->]. destruct (Z.le_ge_cases k 32).
  - rewrite Z.max_l by lia. apply Z.divide_1_l.
  - rewrite Z.max_r by lia. exists q. replace k with (k - 32 + 32) at 1 by lia.
    rewrite Z.pow_add_r, Z.mul_assoc, Z.div_mul by lia. done.
Qed.

Definition bar_width (wide : bool) : Z := if wide then 64 else 32.

(** The two words of the size mask make the complement of the size. *)
Lemma size_of_mask k :
  4 ≤ k < 64 →
  u64 (u64 (Z.lnot (Z.lor (u64 (Z.shiftl (2 ^ 32 - 2 ^ Z.max 0 (k - 32)) 32)) (2 ^ 32 - 2 ^ Z.min k 32))) + 1)
  = 2 ^ k.
Proof.
  intros Hk. assert (0 < 2 ^ k < 2 ^ 64) as Hp by (split; [lia|apply Z.pow_lt_mono_r; lia]).
  assert (0 < 2 ^ Z.max 0 (k - 32) ≤ 2 ^ 32) as H1 by (split; [lia|apply Z.pow_le_mono_r; lia]).
  assert (0 < 2 ^ Z.min k 32 ≤ 2 ^ 32) as H2 by (split; [lia|apply Z.pow_le_mono_r; lia]).
  rewrite Z.shiftl_mul_pow2 by lia. unfold u64 at 3. rewrite Z.mod_small by lia.
  rewrite lor_shift_add by lia.
  assert ((2 ^ 32 - 2 ^ Z.max 0 (k - 32)) * 2 ^ 32 + (2 ^ 32 - 2 ^ Z.min k 32) = 2 ^ 64 - 2 ^ k) as ->.
  { destruct (Z.le_ge_cases k 32).
    - rewrite Z.max_l, Z.min_l by lia. lia.
    - rewrite Z.max_r, Z.min_r by lia. rewrite Z.mul_sub_distr_r, <- !Z.pow_add_r by lia.
      replace (k - 32 + 32) with k by lia. lia. }
  unfold Z.lnot, u64. rewrite <- Z.sub_1_r. 
  rewrite (Z.mod_eq (- (2 ^ 64 - 2 ^ k) - 1)) by lia.
  replace ((- (2 ^ 64 - 2 ^ k) - 1) / 2 ^ 64) with (-1); [rewrite Z.mod_small; lia|].
  apply (Z.div_unique_pos _ _ _ (2 ^ k - 1)); lia.
Qed.

(** A register that follows the specification, and its content. *)
Definition bar_at (bs : list PCIE_INFO_BLOCK) (w : W) (bdf off j flags base : Z) : Prop :=
  bar_law (cfg_address bs bdf off) j flags ∧
  fst (mmio_read32 w (cfg_address bs bdf off)) = base + flags.

Lemma reg_value bs w bdf off v :
  info_wf bs → mapped_bdf bs bdf → 0 ≤ off < 4096 → 0 ≤ v < 2 ^ 32 →
  fst (mmio_read32 w (cfg_address bs bdf off)) = v → reg bs w bdf off = v.
Proof.
  intros Hw Hm Ho Hv E. unfold reg. rewrite u64_id by (apply cfg_address_bounds; done). rewrite E.
  unfold u32. by rewrite Z.mod_small.
Qed.

(** The first register, sized and read; [x] is the aligned part of its content. *)
Lemma get_bar_low bs s bdf off j flags x :
  info_wf bs → has_info bs s → mapped_bdf bs bdf → 0 ≤ off → off + 8 ≤ 4096 →
  4 ≤ j ≤ 32 → 0 ≤ flags < 16 → 0 ≤ x → x + flags < 2 ^ 32 → (2 ^ j | x) →
  (j = 32 → flags ≠ 0) → bar_at bs (p_world s) bdf off j flags x →
  ∃ w', same_regs (p_world s) w' ∧
    val_pcie_get_bar bdf off s =
    (if Z.testbit flags 2 then
       let* bar_4 := read_reg bdf (off + 4) in
       let* size_4 := pci_bar_size_helper bdf (off + 4) in
       ret (u32 (off + 4 + 4), Z.lor (u64 (Z.shiftl bar_4 32)) x,
            u64 (u64 (Z.lnot (Z.lor (u64 (Z.shiftl size_4 32)) (2 ^ 32 - 2 ^ j))) + 1))
     else ret (off + 4, x, u32 (u32 (Z.lnot (2 ^ 32 - 2 ^ j)) + 1))) (pset_world w' s).
Proof.
  intros Hw Hi Hm Ho1 Ho2 Hj Hf Hx1 Hx2 Hd H0 [Hlaw Hr].
  assert (2 ^ 4 ≤ 2 ^ j ≤ 2 ^ 32) as Hp by (split; apply Z.pow_le_mono_r; lia).
  assert ((2 ^ 4 | x)) as Hd4 by (etransitivity; [apply (pow_divides 4 j); lia|done]).
  destruct (size_helper_run bs s bdf off j flags x) as (w1 & E1 & S1); [done|done|done|lia..|done|done|done|].
  exists w1. split; [done|]. unfold val_pcie_get_bar. rewrite (bind_step _ _ _ _ _ E1).
  destruct (Z.eqb_spec (2 ^ 32 - 2 ^ j + flags) 0) as [E0|_].
  { exfalso. destruct (decide (j = 32)) as [->|]; [specialize (H0 eq_refl); lia|].
    assert (2 ^ j ≤ 2 ^ 31) by (apply Z.pow_le_mono_r; lia). lia. }
  rewrite (bind_step _ _ _ _ _ (read_reg_quiet bs (pset_world w1 s) bdf off Hw Hi Hm)).
  cbn [p_world pset_world]. rewrite (same_regs_reg bs _ _ bdf off S1).
  rewrite (reg_value bs _ bdf off (x + flags)) by (done || lia).
  rewrite (bar_reg_flags _ _ Hf Hd4).
  assert (∀ y, (2 ^ 4 | y) → 0 ≤ y → y + flags < 2 ^ 32 → Z.land (y + flags) BAR_MASK = y) as Hmask.
  { intros y [q ->] ? ?. rewrite land_bar_mask by lia.
    rewrite (Z.add_comm (q * _)), Z.mod_add, Z.mod_small by lia. lia. }
  rewrite (Hmask x), (Hmask (2 ^ 32 - 2 ^ j));
    [|by apply Z.divide_sub_r; apply pow_divides; lia|lia|lia|done|lia|lia].
  assert (u32 (off + 4) = off + 4) as -> by (unfold u32; rewrite Z.mod_small; lia). done.
Qed.

(** C35: on a base address register that follows the bus specification, of 32 or 64
    bits and any size from 16 bytes on, [val_pcie_get_bar] returns the address the
    register holds, its size, and the offset of the next register, and leaves
    every register of the bus as it was. *)
Theorem get_bar_exact bs s bdf off k flags base (wide : bool) :
  info_wf bs → has_info bs s → mapped_bdf bs bdf → 0 ≤ off → off + 8 ≤ 4096 →
  4 ≤ k < bar_width wide → 0 ≤ flags < 16 → Z.testbit flags 2 = wide →
  0 ≤ base < 2 ^ bar_width wide → (2 ^ k | base) →
  bar_at bs (p_world s) bdf off (Z.min k 32) flags (base mod 2 ^ 32) →
  (wide = true → bar_at bs (p_world s) bdf (off + 4) (Z.max 0 (k - 32)) 0 (base / 2 ^ 32)) →
  ∃ w', val_pcie_get_bar bdf off s =
        Ok (off + (if wide then 8 else 4), base, 2 ^ k) (pset_world w' s) ∧ same_regs (p_world s) w'.
Proof.
  intros Hw Hi Hm Ho1 Ho2 Hk Hf Ht Hb Hd Hlo Hhi.
  assert (0 ≤ base mod 2 ^ 32 < 2 ^ 32) as Hbl by (apply Z.mod_pos_bound; lia).
  assert (4 ≤ k < 64) as Hk64 by (destruct wide; cbn in Hk; lia).
  pose proof (low_aligned base k ltac:(lia) Hd) as Hal.
  assert ((2 ^ 4 | base mod 2 ^ 32)) as [q Hq]
    by (etransitivity; [apply (pow_divides 4 (Z.min k 32)); lia|done]).
  destruct (get_bar_low bs s bdf off (Z.min k 32) flags (base mod 2 ^ 32)) as (w1 & S1 & ->);
    [done|done|done|lia..|done| |done|].
  { intros E ->. destruct wide; [done|]. cbn in Hk. lia. }
  rewrite Ht. destruct wide; cbn [bar_width] in *.
  - assert (0 ≤ base / 2 ^ 32 < 2 ^ 32) as Hbh by (split; [apply Z.div_pos|apply Z.div_lt_upper_bound]; lia).
    destruct (Hhi eq_refl) as [Hlaw Hr]. rewrite Z.add_0_r in Hr.
    rewrite (bind_step _ _ _ _ _ (read_reg_quiet bs (pset_world w1 s) bdf (off + 4) Hw Hi Hm)).
    cbn [p_world pset_world]. rewrite (same_regs_reg bs _ _ bdf _ S1).
    rewrite (reg_value bs _ bdf (off + 4) (base / 2 ^ 32)) by (done || lia).
    destruct (size_helper_run bs (pset_world w1 s) bdf (off + 4) (Z.max 0 (k - 32)) 0 (base / 2 ^ 32))
      as (w2 & E2 & S2); [done|done|done|lia|lia|split; [lia|apply Z.pow_pos_nonneg; lia]|lia|lia|
                          by apply high_aligned; [lia|]|done|cbn; rewrite S1, Hr; lia|].
    rewrite (bind_step _ _ _ _ _ E2). exists w2. split; [|intros a; by rewrite S2, <- S1].
    unfold ret. rewrite Z.add_0_r, size_of_mask, Z.shiftl_mul_pow2 by lia.
    unfold u64 at 1. rewrite Z.mod_small, lor_shift_add by lia. unfold u32. rewrite Z.mod_small by lia.
    replace (base / 2 ^ 32 * 2 ^ 32 + base mod 2 ^ 32) with base
      by (pose proof (Z.div_mod base (2 ^ 32)); lia).
    by replace (off + 4 + 4) with (off + 8) by lia.
  - exists w1. split; [|done]. unfold ret. rewrite Z.mod_small, Z.min_l by lia. do 2 f_equal.
    assert (0 < 2 ^ k ≤ 2 ^ 31) by (split; [lia|apply Z.pow_le_mono_r; lia]).
    unfold Z.lnot, u32. rewrite (Z.mod_eq (Z.pred _)) by lia.
    assert ((Z.pred (- (2 ^ 32 - 2 ^ k))) / 2 ^ 32 = -1) as ->.
    { symmetry. apply (Z.div_unique_pos _ _ _ (2 ^ k - 1)); lia. }
    rewrite Z.mod_small; lia.
Qed.

(** * Placement *)









(** The first register of a function on another bus than the function before. *)
Lemma place_bar_other_bus start g_size g_bus bus size s :
  p_var s g_bus ≠ bus → 0 ≤ p_var s start < 2 ^ 32 →
  place_bar u32 start g_size g_bus bus size 0 s = Ok (p_var s start) (pset_var start (p_var s start) s).
Proof.
  intros Hb Hr. unfold place_bar, get_var.
  rewrite (bind_step _ _ s (p_var s start) s) by done.
  rewrite (bind_step _ _ s (p_var s g_size) s) by done.
  rewrite (bind_step _ _ s (p_var s g_bus) s) by done. rewrite (proj2 (Z.eqb_neq _ _) Hb). cbn [Z.eqb andb negb].
  rewrite andb_false_r, Z.add_0_r. unfold u32. by rewrite Z.mod_small by lia.
Qed.

(** The six registers of a function, all of the 32-bit memory kind: [ks m] is the
    number of low bits register [m] leaves out, 32 when it is not implemented, and
    [fs m] its type bits. *)
Section Place.
Context (b : PCIE_INFO_BLOCK) (bus dev func a0 : Z) (ks fs : Z → Z).



















End Place.
End Bars.

(** * Concrete registers *)



Lemma demo_law a :
  bar_law a (fst (demo_fixed a)) (snd (demo_fixed a)).
Proof.
  intros w v Hv. cbn. split; [by rewrite lookup_insert_eq|]. intros a' Ha. by rewrite lookup_insert_ne.
Qed.



Lemma get_bar_exact_witness :
  ∃ w', val_pcie_get_bar 0x10 0x10 demo_state = Ok (0x18, 2 ^ 38, 2 ^ 33) (pset_world w' demo_state) ∧
        same_regs demo_regs w'.
Proof.
  apply (get_bar_exact demo_blocks demo_state 0x10 0x10 33 4 (2 ^ 38) true demo_info_wf eq_refl).
  - apply (demo_mapped 2 0); lia.
  - lia.
  - lia.
  - cbn; lia.
  - lia.
  - reflexivity.
  - cbn; lia.
  - exists (2 ^ 5). reflexivity.
  - split; [exact (demo_law 0x40010010)|vm_compute; reflexivity].
  - intros _. split; [exact (demo_law 0x40010014)|vm_compute; reflexivity].
Defined.


(** * Where regions overlap *)

(** On another bus the first register of a function gets the address of the region
    placed last, whatever its size. *)
Lemma other_bus_overlaps `{MmioBus W} (bus size : Z) (s : pcie W) :
  p_var s g_p_bus ≠ bus → 0 ≤ p_var s g_bar32_p_start < 2 ^ 32 →
  place_bar u32 g_bar32_p_start g_p_bar_size g_p_bus bus size 0 s
  = Ok (p_var s g_bar32_p_start) (pset_var g_bar32_p_start (p_var s g_bar32_p_start) s).
Proof. apply place_bar_other_bus. Qed.

(** The size of a 64-bit register is kept in 32 bits: behind a region of 8 GB, which
    counts as none, a register of 4 KB of the next function is placed inside it. *)
Lemma large_bar_overlaps `{MmioBus W} (bus a : Z) (s : pcie W) :
  p_var s g_bar64_p_start = a → p_var s g_64_bus = bus → p_var s g_bar64_size = u32 (2 ^ 33) →
  0 ≤ a → a + 2 ^ 33 < 2 ^ 64 →
  place_bar u64 g_bar64_p_start g_bar64_size g_64_bus bus (2 ^ 12) 0 s
  = Ok (a + 2 ^ 12) (pset_var g_bar64_p_start (a + 2 ^ 12) s) ∧ a < a + 2 ^ 12 < a + 2 ^ 33.
Proof.
  intros Ea Eb Es H0 H1. split; [|lia]. unfold place_bar, get_var.
  rewrite (bind_step _ _ s (p_var s g_bar64_p_start) s) by done.
  rewrite (bind_step _ _ s (p_var s g_bar64_size) s) by done.
  rewrite (bind_step _ _ s (p_var s g_64_bus) s) by done. rewrite Eb, Es, Ea, !Z.eqb_refl.
  change (u32 (2 ^ 33) <? 2 ^ 12) with true. cbv iota. unfold u64. by rewrite Z.mod_small by lia.
Qed.

(** * Beyond the window *)

(** A bus of one window, for buses 0 and 1, that records the addresses read: three
    bridges on bus 0, nothing below them. *)
Record traced : Type := mk_traced { tr_regs : gmap Z Z; tr_reads : list Z }.

#[export] Instance traced_bus : MmioBus traced := {
  mmio_read32 w a := (default PCIE_UNKNOWN_RESPONSE (tr_regs w !! a), mk_traced (tr_regs w) (a :: tr_reads w));
  mmio_write32 w a v := mk_traced (<[a := v]> (tr_regs w)) (tr_reads w)
}.

Definition bridge_regs (a : Z) : list (Z * Z) := [(a, 0x0DEF13B5); (a + 8, 0x06040000); (a + 0xC, 0x10000)].

Definition traced_state : pcie traced :=
  mk_pcie (mk_traced (list_to_map (bridge_regs 0x40008000 ++ bridge_regs 0x40010000 ++ bridge_regs 0x40018000)) [])
    (Some (mk_info 1 [mk_block 0x40000000 0 0 1])) None pal_vars_init.

(** The test for the end of the window compares with the bus right behind it only:
    the third bridge gets bus 3, and the enumeration reads the configuration space
    of bus 3, which ends past the window. *)
Lemma enumeration_leaves_window :
  match pal_pcie_enumerate traced_state with
  | Ok _ s' => existsb (λ a, 0x40000000 + 2 * 2 ^ 20 <=? a) (tr_reads (p_world s')) = true
  | _ => False
  end.
Proof. vm_compute. reflexivity. Qed.
