(* ===== verification/Exer.v ===== *)
(** The PCIe exerciser, a device that generates traffic on request: its registers and
    capabilities (pal_exerciser.c, pal_fvp_exerciser.c) and the table of exercisers with
    the calls of the tests (val_host_exerciser.c).  It stands on the bus of [Pcie]; the
    place of its registers is read from its base address register each time. *)
From S2P Require Import Prelude Defs Libc Pcie PcieEnum.

(** * Constants (platform_override_fvp.h, val_host_exerciser.h) *)

Definition TEST_REG_COUNT : Z := 10.
Definition EXERCISER_ID : Z := 0xED0113B5.
Definition PCIE_CAP_CTRL_OFFSET : Z := 0x4.
Definition INTXCTL : Z := 0x004.
Definition MSICTL : Z := 0x000.
Definition DMACTL1 : Z := 0x08.
Definition DMA_BUS_ADDR : Z := 0x010.
Definition DMA_LEN : Z := 0x018.
Definition DMASTATUS : Z := 0x01C.
Definition PASID_VAL : Z := 0x020.
Definition ATSCTL : Z := 0x024.
Definition TXN_TRACE : Z := 0x40.
Definition TXN_CTRL_BASE : Z := 0x44.
Definition ATS_ADDR : Z := 0x028.
Definition DVSEC_CTRL : Z := 0x8.
Definition PASID : Z := 0x1B.
Definition PCIE : Z := 0x1.
Definition DVSEC : Z := 0x0023.
Definition PCIE_NXT_CAP_PTR_MASK : Z := 0x0FFF.
Definition PCIE_CAP_ID_MASK : Z := 0xFFFF.
Definition PCI_CAP_ID_MASK : Z := 0x00FF.
Definition PCI_NXT_CAP_PTR_MASK : Z := 0x00FF.
Definition CAP_PTR_MASK : Z := 0x00FF.
Definition CLR_INTR_MASK : Z := 0xFFFFFFFE.
Definition PASID_TLP_STOP_MASK : Z := 0xFFFFFFBF.
Definition PASID_VAL_MASK : Z := Z.shiftl 0x1 20 - 1.
Definition PASID_LEN_SHIFT : Z := 7.
Definition PASID_LEN_MASK : Z := 0x7.
Definition PASID_EN_SHIFT : Z := 6.
Definition DMA_TO_DEVICE_MASK : Z := 0xFFFFFFEF.
Definition SHIFT_4BIT : Z := 4.
Definition MASK_BIT : Z := 1.
Definition PREFETCHABLE_BIT_SHIFT : Z := 3.
Definition ERR_CODE_SHIFT : Z := 20.
Definition FATAL_SHIFT : Z := 31.
Definition ERROR_INJECT_BIT : Z := 17.
Definition PCI_CAP_PTR_OFFSET : Z := 8.
Definition PCIE_CAP_PTR_OFFSET : Z := 20.
Definition MSI_GENERATION_MASK : Z := Z.shiftl 1 31.
Definition NO_SNOOP_START_MASK : Z := 0x20.
Definition NO_SNOOP_STOP_MASK : Z := 0xFFFFFFDF.
Definition PCIE_CAP_DIS_MASK : Z := 0xFFFEFFFF.
Definition PCIE_CAP_EN_MASK : Z := Z.shiftl 1 16.
Definition CAP_PTR_OFFSET : Z := 0x34.
Definition PCIE_CAP_OFFSET : Z := 0x100.
Definition RID_CTL_REG : Z := 0x3C.
Definition RID_VALUE_MASK : Z := 0xFFFF.
Definition RID_VALID_MASK : Z := Z.shiftl 1 31.
Definition RID_VALID : Z := 1.
Definition RID_NOT_VALID : Z := 0.
Definition ATS_TRIGGER : Z := 1.
Definition ATS_STATUS : Z := Z.shiftl 1 7.
Definition TXN_INVALID : Z := 0xFFFFFFFF.
Definition TXN_START : Z := 1.
Definition TXN_STOP : Z := 0.
Definition BUS_MEM_EN_MASK : Z := 0x06.
Definition MAX_EXERCISER_CARDS : Z := 20.

(** * Enumerations (pal_common_support.h, platform_override_struct.h) *)

Inductive EXERCISER_DMA_ATTR : Type :=
  EDMA_NO_SUPPORT | EDMA_COHERENT | EDMA_NOT_COHERENT | EDMA_FROM_DEVICE | EDMA_TO_DEVICE.

Inductive EXERCISER_PARAM_TYPE : Type :=
  | SNOOP_ATTRIBUTES | LEGACY_IRQ | MSIX_ATTRIBUTES | DMA_ATTRIBUTES | P2P_ATTRIBUTES | PASID_ATTRIBUTES
  | CFG_TXN_ATTRIBUTES | ATS_RES_ATTRIBUTES | TRANSACTION_TYPE | NUM_TRANSACTIONS | ADDRESS_ATTRIBUTES
  | DATA_ATTRIBUTES | ERROR_INJECT_TYPE.

Inductive EXERCISER_STATE : Type := EXERCISER_RESET | EXERCISER_ON | EXERCISER_OFF | EXERCISER_ERROR.

#[export] Instance EXERCISER_STATE_eq_dec : EqDecision EXERCISER_STATE.
Proof. solve_decision. Defined.

Inductive EXERCISER_OPS : Type :=
  | START_DMA | GENERATE_MSI | GENERATE_L_INTR | MEM_READ | MEM_WRITE | CLEAR_INTR | PASID_TLP_START
  | PASID_TLP_STOP | TXN_NO_SNOOP_ENABLE | TXN_NO_SNOOP_DISABLE | START_TXN_MONITOR | STOP_TXN_MONITOR
  | ATS_TXN_REQ | INJECT_ERROR.

Definition TXN_REQ_ID : Z := 0.
Definition TXN_ADDR_TYPE : Z := 1.
Definition TXN_REQ_ID_VALID : Z := 2.
Definition AT_UNTRANSLATED : Z := 0.
Definition AT_TRANS_REQ : Z := 1.
Definition AT_TRANSLATED : Z := 2.
Definition AT_RESERVED : Z := 3.
Definition CFG_READ : Z := 0.
Definition CFG_WRITE : Z := 1.
Definition ACCESS_TYPE_RD : Z := 0.

Inductive BAR_MEM_TYPE : Type := MMIO_PREFETCHABLE | MMIO_NON_PREFETCHABLE.
Inductive EXERCISER_DATA_TYPE : Type := EXERCISER_DATA_CFG_SPACE | EXERCISER_DATA_BAR0_SPACE | EXERCISER_DATA_MMIO_SPACE.

Record ecam_reg_data : Type := mk_reg_data { rd_offset : Z; rd_attribute : Z; rd_value : Z }.

(** The union of what is asked for: [None] is a member that was not written. *)
Inductive exerciser_data_t : Type :=
  | CfgSpace (regs : list ecam_reg_data)
  | BarSpace (base_addr : Z) (type : option BAR_MEM_TYPE).

(** * Registers of an exerciser (pal_exerciser.c, pal_fvp_exerciser.c) *)

Section Device.
Context {W : Type} `{MmioBus W}.
Implicit Types s : pcie W.

Definition pal_exerciser_get_pcie_config_offset (Bdf : Z) : Z :=
  cfg_addr (PCIE_EXTRACT_BDF_BUS Bdf) (PCIE_EXTRACT_BDF_DEV Bdf) (PCIE_EXTRACT_BDF_FUNC Bdf).

(** [while (i < g_pcie_info_table->num_entries)]: the segment is not compared. *)
Fixpoint exerciser_ecam_loop (fuel : nat) (bus i : Z) : M (pcie W) Z :=
  match fuel with
  | O => out_of_fuel
  | S fuel =>
      let* n := info_entries in
      if negb (i <? n) then ret 0
      else
        let* b := info_block i in
        if (start_bus_num b <=? bus) && (bus <=? end_bus_num b) then ret (ecam_base b)
        else exerciser_ecam_loop fuel bus (i + 1)
  end.

Definition pal_exerciser_get_ecam (bdf : Z) : M (pcie W) Z := λ s,
  exerciser_ecam_loop (ecam_fuel s) (PCIE_EXTRACT_BDF_BUS bdf) 0 s.

Definition pal_exerciser_get_ecsr_base (Bdf BarIndex : Z) : M (pcie W) Z := pal_pcie_get_base Bdf BarIndex.

(** [while (NxtPtr != 0)]: status and the output parameter [Offset]. *)
Fixpoint exerciser_cap_loop (fuel : nat) (cfg IdMask PtrOffset PtrMask ID NxtPtr : Z) (Offset : option Z)
    : M (pcie W) (Z * option Z) :=
  match fuel with
  | O => out_of_fuel
  | S fuel =>
      if NxtPtr =? 0 then ret (1, Offset)
      else
        let* Data := pal_mmio_read32 (cfg + NxtPtr) in
        if Z.land Data IdMask =? ID then ret (0, Some (u32 NxtPtr))
        else exerciser_cap_loop fuel cfg IdMask PtrOffset PtrMask ID (Z.land (Z.shiftr Data PtrOffset) PtrMask) Offset
  end.

Definition pal_exerciser_find_pcie_capability (ID Bdf Value : Z) (Offset : option Z) : M (pcie W) (Z * option Z) :=
  let* Ecam := pal_exerciser_get_ecam Bdf in
  let cfg := Ecam + pal_exerciser_get_pcie_config_offset Bdf in
  if Value =? 1 then
    exerciser_cap_loop ECAP_FUEL cfg PCIE_CAP_ID_MASK PCIE_CAP_PTR_OFFSET PCIE_NXT_CAP_PTR_MASK ID PCIE_CAP_OFFSET Offset
  else
    let* v := pal_mmio_read32 (cfg + CAP_PTR_OFFSET) in
    exerciser_cap_loop CAP_FUEL cfg PCI_CAP_ID_MASK PCI_CAP_PTR_OFFSET PCI_NXT_CAP_PTR_MASK ID (Z.land v CAP_PTR_MASK) Offset.

Definition pal_is_bdf_exerciser (bdf : Z) : M (pcie W) Z :=
  let* Ecam := pal_exerciser_get_ecam bdf in
  let* vendor_dev_id := pal_mmio_read32 (Ecam + pal_exerciser_get_pcie_config_offset bdf) in
  ret (if vendor_dev_id =? EXERCISER_ID then 1 else 0).

(** [write(addr, f(read(addr)))]. *)
Definition update32 (addr : Z) (f : Z → Z) : M (pcie W) unit :=
  let* v := pal_mmio_read32 addr in pal_mmio_write32 addr (f v).

(** ** Parameters *)

Definition set_txn_attribute (Base Value1 Value2 : Z) : M (pcie W) Z :=
  if Value1 =? TXN_REQ_ID then
    pal_mmio_write32 (Base + RID_CTL_REG) (Z.lor (Z.land Value2 RID_VALUE_MASK) RID_VALID_MASK) ;; ret 0
  else if Value1 =? TXN_REQ_ID_VALID then
    (if Value2 =? RID_VALID then update32 (Base + RID_CTL_REG) (λ d, Z.lor d RID_VALID_MASK)
     else if Value2 =? RID_NOT_VALID then pal_mmio_write32 (Base + RID_CTL_REG) 0
     else ret tt) ;; ret 0
  else if Value1 =? TXN_ADDR_TYPE then
    (if Value2 =? AT_UNTRANSLATED then update32 (Base + DMACTL1) (λ d, Z.lor d (Z.shiftl 0x1 10))
     else if Value2 =? AT_TRANSLATED then update32 (Base + DMACTL1) (λ d, Z.lor d (Z.shiftl 0x2 10))
     else if Value2 =? AT_RESERVED then update32 (Base + DMACTL1) (λ d, Z.lor d (Z.shiftl 0x3 10))
     else ret tt) ;; ret 0
  else ret 1.

(** The offset of the capability is 0 when it is not found. *)
Definition pal_exerciser_set_param (Type_ : EXERCISER_PARAM_TYPE) (Value1 Value2 Bdf : Z) : M (pcie W) Z :=
  let* Base := pal_exerciser_get_ecsr_base Bdf 0 in
  let* Ecam := pal_exerciser_get_ecam Bdf in
  match Type_ with
  | SNOOP_ATTRIBUTES | LEGACY_IRQ | P2P_ATTRIBUTES | MSIX_ATTRIBUTES => ret 0
  | DMA_ATTRIBUTES =>
      pal_mmio_write32 (Base + DMA_BUS_ADDR) (u32 Value1) ;;
      pal_mmio_write32 (Base + DMA_LEN) (u32 Value2) ;;
      ret 0
  | PASID_ATTRIBUTES =>
      let* Data := pal_mmio_read32 (Base + DMACTL1) in
      let Data := Z.land Data (u32 (Z.lnot (Z.shiftl PASID_LEN_MASK PASID_LEN_SHIFT))) in
      let Data := Z.lor Data (u32 (Z.shiftl (Z.land (u64 (Value1 - 16)) PASID_LEN_MASK) PASID_LEN_SHIFT)) in
      pal_mmio_write32 (Base + DMACTL1) Data ;;
      ret 0
  | CFG_TXN_ATTRIBUTES => set_txn_attribute Base Value1 Value2
  | ERROR_INJECT_TYPE =>
      let* r := pal_exerciser_find_pcie_capability DVSEC Bdf PCIE (Some 0) in
      let CapabilityOffset := default 0 (snd r) in
      let addr := Ecam + CapabilityOffset + pal_exerciser_get_pcie_config_offset Bdf + DVSEC_CTRL in
      let* _ := pal_mmio_read32 addr in
      pal_mmio_write32 addr (u32 (Z.lor (u64 (Z.shiftl Value1 ERR_CODE_SHIFT)) (u64 (Z.shiftl Value2 FATAL_SHIFT)))) ;;
      ret (if Value1 <=? 0x7 then 2 else 3)
  | _ => ret 1
  end.

(** Status, and what the pointers [Value1] and [Value2] point to afterwards. *)
Definition pal_exerciser_get_param (Type_ : EXERCISER_PARAM_TYPE) (Value1 Value2 Bdf : Z) : M (pcie W) (Z * Z * Z) :=
  let* Base := pal_exerciser_get_ecsr_base Bdf 0 in
  match Type_ with
  | SNOOP_ATTRIBUTES | P2P_ATTRIBUTES => ret (0, Value1, Value2)
  | LEGACY_IRQ =>
      let* v := pal_mmio_read32 (Base + INTXCTL) in
      let* st := pal_mmio_read32 (Base + INTXCTL) in ret (Z.lor st MASK_BIT, v, Value2)
  | DMA_ATTRIBUTES =>
      let* v1 := pal_mmio_read32 (Base + DMA_BUS_ADDR) in
      let* v2 := pal_mmio_read32 (Base + DMA_LEN) in
      let* Temp := pal_mmio_read32 (Base + DMASTATUS) in ret (Z.land Temp MASK_BIT, v1, v2)
  | PASID_ATTRIBUTES =>
      let* v := pal_mmio_read32 (Base + DMACTL1) in
      ret (0, Z.land (Z.shiftr v PASID_LEN_SHIFT) PASID_LEN_MASK + 16, Value2)
  | MSIX_ATTRIBUTES =>
      let* v := pal_mmio_read32 (Base + MSICTL) in
      let* st := pal_mmio_read32 (Base + MSICTL) in ret (Z.lor st MASK_BIT, v, Value2)
  | ATS_RES_ATTRIBUTES => let* v := pal_mmio_read32 (Base + ATS_ADDR) in ret (0, v, Value2)
  | CFG_TXN_ATTRIBUTES | TRANSACTION_TYPE | ADDRESS_ATTRIBUTES | DATA_ATTRIBUTES =>
      let* tx_attr := pal_mmio_read32 (Base + TXN_TRACE) in
      if tx_attr =? TXN_INVALID then ret (1, Value1, Value2)
      else
        let* addr_low := pal_mmio_read32 (Base + TXN_TRACE) in
        let* addr_high := pal_mmio_read32 (Base + TXN_TRACE) in
        let* data_low := pal_mmio_read32 (Base + TXN_TRACE) in
        let* data_high := pal_mmio_read32 (Base + TXN_TRACE) in
        ret (match Type_ with
             | CFG_TXN_ATTRIBUTES => (0, Z.land tx_attr MASK_BIT, Value2)
             | TRANSACTION_TYPE => (0, Value1, if truthy (Z.land tx_attr 0x2) then CFG_READ else CFG_WRITE)
             | ADDRESS_ATTRIBUTES => (0, Z.lor addr_low (Z.shiftl addr_high 32), Value2)
             | _ => (0, Z.lor data_low (Z.shiftl data_high 32), Value2)
             end)
  | _ => ret (1, Value1, Value2)
  end.

(** ** State *)

Definition pal_exerciser_get_state (Bdf : Z) : Z * EXERCISER_STATE := (0, EXERCISER_ON).
Definition pal_exerciser_set_state (State : EXERCISER_STATE) (Value Instance_ : Z) : Z := 0.

(** ** Operations *)

Definition pal_exerciser_start_dma_direction (Base : Z) (Direction : EXERCISER_DMA_ATTR) : M (pcie W) Z :=
  (match Direction with
   | EDMA_TO_DEVICE => update32 (Base + DMACTL1) (λ d, Z.land d DMA_TO_DEVICE_MASK)
   | EDMA_FROM_DEVICE => update32 (Base + DMACTL1) (λ d, Z.lor d (Z.shiftl MASK_BIT SHIFT_4BIT))
   | _ => ret tt
   end) ;;
  update32 (Base + DMACTL1) (λ d, Z.lor d MASK_BIT) ;;
  let* st := pal_mmio_read32 (Base + DMASTATUS) in
  ret (Z.land st (Z.lor (Z.shiftl MASK_BIT 1) MASK_BIT)).

(** The control register of the PASID capability, changed when there is one. *)
Definition pasid_control (Ecam Bdf : Z) (f : Z → Z) : M (pcie W) Z :=
  let* r := pal_exerciser_find_pcie_capability PASID Bdf PCIE (Some 0) in
  if fst r =? 0 then
    update32 (Ecam + pal_exerciser_get_pcie_config_offset Bdf + default 0 (snd r) + PCIE_CAP_CTRL_OFFSET) f ;; ret 0
  else ret 1.

Definition start_dma (Base Param : Z) : M (pcie W) Z :=
  if (Param =? 0) || (Param =? 1) || (Param =? 2) then ret 0
  else if Param =? 3 then pal_exerciser_start_dma_direction Base EDMA_FROM_DEVICE
  else if Param =? 4 then pal_exerciser_start_dma_direction Base EDMA_TO_DEVICE
  else ret 1.

Definition pal_exerciser_ops (Ops : EXERCISER_OPS) (Param Bdf : Z) : M (pcie W) Z :=
  let* Base := pal_exerciser_get_ecsr_base Bdf 0 in
  let* Ecam := pal_exerciser_get_ecam Bdf in
  match Ops with
  | START_DMA => start_dma Base Param
  | GENERATE_MSI => update32 (Base + MSICTL) (λ d, Z.lor (Z.lor d MSI_GENERATION_MASK) (u32 Param)) ;; ret 0
  | GENERATE_L_INTR => update32 (Base + INTXCTL) (λ d, Z.lor d MASK_BIT) ;; ret 0
  | MEM_READ | MEM_WRITE => ret 0
  | CLEAR_INTR => update32 (Base + INTXCTL) (λ d, Z.land d CLR_INTR_MASK) ;; ret 0
  | PASID_TLP_START =>
      update32 (Base + DMACTL1) (λ d, Z.lor d (Z.shiftl MASK_BIT PASID_EN_SHIFT)) ;;
      pal_mmio_write32 (Base + PASID_VAL) (Z.land Param PASID_VAL_MASK) ;;
      pasid_control Ecam Bdf (λ d, Z.lor d PCIE_CAP_EN_MASK)
  | PASID_TLP_STOP =>
      update32 (Base + DMACTL1) (λ d, Z.land d PASID_TLP_STOP_MASK) ;;
      pasid_control Ecam Bdf (λ d, Z.land d PCIE_CAP_DIS_MASK)
  | TXN_NO_SNOOP_ENABLE => update32 (Base + DMACTL1) (λ d, Z.lor d NO_SNOOP_START_MASK) ;; ret 0
  | TXN_NO_SNOOP_DISABLE => update32 (Base + DMACTL1) (λ d, Z.land d NO_SNOOP_STOP_MASK) ;; ret 0
  | ATS_TXN_REQ =>
      pal_mmio_write32 (Base + DMA_BUS_ADDR) (u32 Param) ;;
      pal_mmio_write32 (Base + ATSCTL) ATS_TRIGGER ;;
      let* v := pal_mmio_read32 (Base + ATSCTL) in ret (if truthy (Z.land v ATS_STATUS) then 0 else 1)
  | START_TXN_MONITOR => pal_mmio_write32 (Base + TXN_CTRL_BASE) TXN_START ;; ret 0
  | STOP_TXN_MONITOR => pal_mmio_write32 (Base + TXN_CTRL_BASE) TXN_STOP ;; ret 0
  | INJECT_ERROR =>
      let* r := pal_exerciser_find_pcie_capability DVSEC Bdf PCIE (Some 0) in
      update32 (Ecam + pal_exerciser_get_pcie_config_offset Bdf + default 0 (snd r) + DVSEC_CTRL)
        (λ d, Z.lor d (Z.shiftl 1 ERROR_INJECT_BIT)) ;;
      ret (u32 Param)
  end.

(** ** Data *)

Definition offset_table : list Z := [0x00; 0x08; 0x00; 0x08; 0x00; 0x08; 0x00; 0x08; 0x00; 0x08].

Fixpoint cfg_space_loop (offs : list Z) (EcamBase Bdf : Z) : M (pcie W) (list ecam_reg_data) :=
  match offs with
  | [] => ret []
  | o :: offs =>
      let* v := pal_mmio_read32 (EcamBase + o) in
      let* l := cfg_space_loop offs EcamBase Bdf in
      ret (mk_reg_data (u32 (o + pal_exerciser_get_pcie_config_offset Bdf)) ACCESS_TYPE_RD v :: l)
  end.

Definition bar_type (v : Z) : BAR_MEM_TYPE :=
  if Z.land (Z.shiftr v PREFETCHABLE_BIT_SHIFT) MASK_BIT =? 0x1 then MMIO_PREFETCHABLE else MMIO_NON_PREFETCHABLE.

(** [while (Index < TYPE0_MAX_BARS)]. *)
Fixpoint mmio_space_loop (fuel : nat) (Bdf Index : Z) : M (pcie W) (Z * exerciser_data_t) :=
  match fuel with
  | O => out_of_fuel
  | S fuel =>
      if negb (Index <? TYPE0_MAX_BARS) then ret (1, BarSpace 0 None)
      else
        let* EcamBAR := pal_exerciser_get_ecsr_base Bdf (u32 (Index * 4)) in
        if Z.land (Z.shiftr EcamBAR BAR_MIT_SHIFT) BAR_MIT_MASK =? MMIO then ret (0, BarSpace EcamBAR (Some (bar_type EcamBAR)))
        else
          let Index := if Z.land (Z.shiftr EcamBAR BAR_MDT_SHIFT) BAR_MDT_MASK =? BITS_64 then Index + 1 else Index in
          mmio_space_loop fuel Bdf (Index + 1)
  end.

Definition pal_exerciser_get_data (Type_ : EXERCISER_DATA_TYPE) (Bdf Ecam : Z) : M (pcie W) (Z * exerciser_data_t) :=
  let EcamBase := u64 (Ecam + pal_exerciser_get_pcie_config_offset Bdf) in
  match Type_ with
  | EXERCISER_DATA_CFG_SPACE => let* l := cfg_space_loop offset_table EcamBase Bdf in ret (0, CfgSpace l)
  | EXERCISER_DATA_BAR0_SPACE =>
      let* EcamBAR0 := pal_exerciser_get_ecsr_base Bdf 0 in
      let* v := pal_exerciser_get_ecsr_base Bdf 0 in
      ret (0, BarSpace EcamBAR0 (Some (bar_type v)))
  | EXERCISER_DATA_MMIO_SPACE => mmio_space_loop 7 Bdf 0
  end.
End Device.

(** * The table of exercisers (val_host_exerciser.c) *)

Record EXERCISER_INFO_BLOCK : Type := mk_e_info { e_bdf : Z; e_initialized : Z }.

Record exer (W : Type) : Type := mk_exer {
  x_pcie : pcie W;
  num_exerciser : Z;
  e_info : list EXERCISER_INFO_BLOCK
}.
Arguments mk_exer {W}. Arguments x_pcie {W}. Arguments num_exerciser {W}. Arguments e_info {W}.

Definition e_info_reset : list EXERCISER_INFO_BLOCK := replicate (Z.to_nat MAX_EXERCISER_CARDS) (mk_e_info 0 0).

Inductive EXERCISER_ERROR_CODE : Type :=
  | CORR_RCVR_ERR | CORR_BAD_TLP | CORR_BAD_DLLP | CORR_RPL_NUM_ROLL | CORR_RPL_TMR_TIMEOUT | CORR_ADV_NF_ERR
  | CORR_INT_ERR | CORR_HDR_LOG_OVRFL | UNCORR_DL_ERROR | UNCORR_SD_ERROR | UNCORR_PTLP_REC | UNCORR_FL_CTRL_ERR
  | UNCORR_CMPT_TO | UNCORR_AMPT_ABORT | UNCORR_UNEXP_CMPT | UNCORR_RCVR_ERR | UNCORR_MAL_TLP | UNCORR_ECRC_ERR
  | UNCORR_UR | UNCORR_ACS_VIOL | UNCORR_INT_ERR | UNCORR_MC_BLK_TLP | UNCORR_ATOP_EGR_BLK | UNCORR_TLP_PFX_EGR_BLK
  | UNCORR_PTLP_EGR_BLK | INVALID_CFG.

(** The bit of an error in the status register of its class. *)
Definition val_get_exerciser_err_info (type : EXERCISER_ERROR_CODE) : Z :=
  match type with
  | CORR_RCVR_ERR => 0 | CORR_BAD_TLP => 6 | CORR_BAD_DLLP => 7 | CORR_RPL_NUM_ROLL => 8 | CORR_RPL_TMR_TIMEOUT => 12
  | CORR_ADV_NF_ERR => 13 | CORR_INT_ERR => 14 | CORR_HDR_LOG_OVRFL => 15
  | UNCORR_DL_ERROR => 4 | UNCORR_SD_ERROR => 5 | UNCORR_PTLP_REC => 12 | UNCORR_FL_CTRL_ERR => 13 | UNCORR_CMPT_TO => 14
  | UNCORR_AMPT_ABORT => 15 | UNCORR_UNEXP_CMPT => 16 | UNCORR_RCVR_ERR => 17 | UNCORR_MAL_TLP => 18 | UNCORR_ECRC_ERR => 19
  | UNCORR_UR => 20 | UNCORR_ACS_VIOL => 21 | UNCORR_INT_ERR => 22 | UNCORR_MC_BLK_TLP => 23 | UNCORR_ATOP_EGR_BLK => 24
  | UNCORR_TLP_PFX_EGR_BLK => 25 | UNCORR_PTLP_EGR_BLK => 26
  | INVALID_CFG => 0
  end.

Section Table.
Context {W : Type} `{MmioBus W}.
Implicit Types s : exer W.

Definition xset_pcie (p : pcie W) s : exer W := mk_exer p (num_exerciser s) (e_info s).
Definition xset_table (n : Z) (l : list EXERCISER_INFO_BLOCK) s : exer W := mk_exer (x_pcie s) n l.
Definition on_bus {A : Type} (m : M (pcie W) A) : M (exer W) A := zoom x_pcie xset_pcie m.

Definition e_info_at (instance : Z) : M (exer W) EXERCISER_INFO_BLOCK := λ s,
  match e_info s !! Z.to_nat instance with
  | Some b => Ok b s
  | None => Fault OutOfBounds
  end.
Definition put_e_info (i : Z) (b : EXERCISER_INFO_BLOCK) : M (exer W) unit := λ s,
  if decide (Z.to_nat i < length (e_info s))%nat
  then Ok tt (xset_table (num_exerciser s) (<[Z.to_nat i := b]> (e_info s)) s)
  else Fault OutOfBounds.

Definition add_exerciser (Bdf : Z) : M (exer W) unit :=
  let* n := gets num_exerciser in
  put_e_info n (mk_e_info Bdf 0) ;;
  modify (λ s, xset_table (u32 (n + 1)) (e_info s) s).

(** [while (num_bdf-- != 0)]: from the last entry to the first. *)
Fixpoint info_table_loop (num_bdf : nat) : M (exer W) unit :=
  match num_bdf with
  | O => ret tt
  | S n =>
      let* a := on_bus (device_at (Z.of_nat n)) in
      let Bdf := a_bdf a in
      let* r := on_bus (val_pcie_read_cfg Bdf TYPE01_VIDR None) in
      if fst r =? PCIE_NO_MAPPING then ret tt
      else
        (if truthy Bdf then add_exerciser Bdf else ret tt) ;;
        info_table_loop n
  end.

Definition val_exerciser_create_info_table : M (exer W) unit :=
  let* t := on_bus bdf_table in
  if bdf_entries t =? 0 then ret tt
  else info_table_loop (Z.to_nat (bdf_entries t)).

(** The only information that can be asked for is the number of cards. *)
Definition EXERCISER_NUM_CARDS : Z := 1.
Definition val_exerciser_get_info (type : Z) : M (exer W) Z :=
  if type =? EXERCISER_NUM_CARDS then gets num_exerciser else ret 0.

Definition val_exerciser_set_param (type : EXERCISER_PARAM_TYPE) (value1 value2 instance : Z) : M (exer W) Z :=
  let* b := e_info_at instance in on_bus (pal_exerciser_set_param type value1 value2 (e_bdf b)).
Definition val_exerciser_get_bdf (instance : Z) : M (exer W) Z := let* b := e_info_at instance in ret (e_bdf b).
Definition val_exerciser_get_param (type : EXERCISER_PARAM_TYPE) (value1 value2 instance : Z) : M (exer W) (Z * Z * Z) :=
  let* b := e_info_at instance in on_bus (pal_exerciser_get_param type value1 value2 (e_bdf b)).
Definition val_exerciser_set_state (state : EXERCISER_STATE) (value instance : Z) : M (exer W) Z :=
  let* b := e_info_at instance in ret (pal_exerciser_set_state state value (e_bdf b)).
Definition val_exerciser_get_state (instance : Z) : M (exer W) (Z * EXERCISER_STATE) :=
  let* b := e_info_at instance in ret (pal_exerciser_get_state (e_bdf b)).

Definition val_exerciser_init (instance : Z) : M (exer W) Z :=
  let* b := e_info_at instance in
  if e_initialized b =? 0 then
    let Bdf := e_bdf b in
    let '(st, state) := pal_exerciser_get_state Bdf in
    if truthy st || negb (bool_decide (state = EXERCISER_ON)) then ret 1
    else
      let* Ecam := on_bus (val_pcie_get_ecam_base Bdf) in
      let addr := Ecam + pal_exerciser_get_pcie_config_offset Bdf + COMMAND_REG_OFFSET in
      on_bus (update32 addr (λ d, Z.lor d BUS_MEM_EN_MASK)) ;;
      put_e_info instance (mk_e_info Bdf 1) ;;
      ret 0
  else ret 0.

Definition val_exerciser_ops (ops : EXERCISER_OPS) (param instance : Z) : M (exer W) Z :=
  let* b := e_info_at instance in on_bus (pal_exerciser_ops ops param (e_bdf b)).

Definition val_exerciser_get_data (type : EXERCISER_DATA_TYPE) (instance : Z) : M (exer W) (Z * exerciser_data_t) :=
  let* b := e_info_at instance in
  let* ecam := on_bus (val_pcie_get_ecam_base (e_bdf b)) in
  on_bus (pal_exerciser_get_data type (e_bdf b) ecam).
End Table.
