(* ===== verification/ExerFacts.v ===== *)
(** Properties of the exerciser: its search for a capability is that of the suite, the
    control register of its DMA engine follows an abstract one, and the table of
    exercisers takes every function there is. *)
From S2P Require Import Prelude Defs Libc Pcie PcieEnum PcieFacts Exer.

(** * The search for a capability *)

Section Search.
Context {W : Type} `{MmioBus W}.
Implicit Types s : pcie W.

Lemma info_entries_run bs s : has_info bs s → info_entries s = Ok (Z.of_nat (length bs)) s.
Proof. intros Hi. unfold info_entries. rewrite (bind_step _ _ s (p_info s) s) by done. by rewrite Hi. Qed.
Lemma info_entry_run bs s i b : has_info bs s → bs !! Z.to_nat i = Some b → info_block i s = Ok b s.
Proof. intros Hi Hb. unfold info_block. rewrite (bind_step _ _ s (p_info s) s) by done. rewrite Hi. cbn [ecam_block]. by rewrite Hb. Qed.

(** All windows belong to the segment of the function. *)
Definition one_segment (bs : list PCIE_INFO_BLOCK) (bdf : Z) : Prop :=
  Forall (λ b, segment_num b = PCIE_EXTRACT_BDF_SEG bdf) bs.

Lemma exerciser_ecam_loop_run bs s bdf fuel i :
  has_info bs s → one_segment bs bdf → 0 ≤ i ≤ Z.of_nat (length bs) → (length bs - Z.to_nat i < fuel)%nat →
  exerciser_ecam_loop fuel (PCIE_EXTRACT_BDF_BUS bdf) i s =
  Ok (window_base (drop (Z.to_nat i) bs) (PCIE_EXTRACT_BDF_BUS bdf) (PCIE_EXTRACT_BDF_SEG bdf)) s.
Proof.
  intros Hi Hs. revert i. induction fuel as [|fuel IH]; intros i Hr Hf; [lia|].
  cbn [exerciser_ecam_loop]. rewrite (bind_step _ _ _ _ _ (info_entries_run bs s Hi)).
  destruct (Z.ltb_spec i (Z.of_nat (length bs))); cbn [negb].
  - destruct (lookup_lt_is_Some_2 bs (Z.to_nat i)) as [b Hb]; [lia|].
    rewrite (bind_step _ _ _ _ _ (info_entry_run bs s i b Hi Hb)). rewrite (drop_S _ _ _ Hb). cbn [window_base].
    rewrite (Forall_lookup_1 _ _ _ _ Hs Hb), Z.eqb_refl, andb_true_r.
    destruct (_ && _); [done|]. rewrite IH by lia. by replace (Z.to_nat (i + 1)) with (S (Z.to_nat i)) by lia.
  - by rewrite drop_ge by lia.
Qed.

Lemma exerciser_ecam_run bs s bdf : has_info bs s → one_segment bs bdf → pal_exerciser_get_ecam bdf s = Ok (base_of bs bdf) s.
Proof.
  intros Hi Hs. unfold pal_exerciser_get_ecam, ecam_fuel. pose proof Hi as E; red in E; rewrite E. cbn [ecam_entries].
  rewrite (exerciser_ecam_loop_run bs) by (done || lia). by rewrite drop_0.
Qed.

Lemma config_offset_eq bs bdf : base_of bs bdf + pal_exerciser_get_pcie_config_offset bdf = cfg_address bs bdf 0.
Proof. unfold pal_exerciser_get_pcie_config_offset, cfg_address. rewrite cfg_addr_eq by apply extract_valid. lia. Qed.

(** What one search returns, as the other reports it. *)
Definition as_exerciser (o : outcome (pcie W) (Z * option Z)) : outcome (pcie W) (Z * option Z) :=
  match o with
  | Ok (st, off) s => Ok (if st =? PCIE_SUCCESS then 0 else 1, off) s
  | Fault f => Fault f
  | NoFuel => NoFuel
  end.

Lemma read_both bs bdf off rg s : info_wf bs → mapped_bdf bs bdf → has_info bs s →
  ∃ v w, pal_mmio_read32 (cfg_address bs bdf 0 + off) s = Ok (u32 v) (pset_world w s) ∧
         val_pcie_read_cfg bdf off rg s = Ok (0, Some (u32 v)) (pset_world w s) ∧ u32 v = reg bs (p_world s) bdf off.
Proof.
  intros Hw Hm Hi. rewrite (read_cfg_eq bs), base_of_nonzero by done. cbn zeta. unfold pal_mmio_read32, reg.
  replace (cfg_address bs bdf 0 + off) with (cfg_address bs bdf off) by (unfold cfg_address; lia).
  destruct (mmio_read32 _ _) as [v w]. by exists v, w.
Qed.

Lemma exerciser_cap_loop_eq bs bdf k shift fuel ID next rg out s :
  info_wf bs → mapped_bdf bs bdf → has_info bs s → 0 ≤ k ≤ 32 → 0 ≤ next < 2 ^ 32 →
  ∀ im, exerciser_cap_loop fuel (cfg_address bs bdf 0) im shift (2 ^ k - 1) ID next out s =
  as_exerciser (cap_loop fuel bdf im shift (2 ^ k - 1) ID next rg out s).
Proof.
  intros Hw Hm Hi Hk Hn im. revert next rg s Hi Hn. induction fuel as [|fuel IH]; intros next rg s Hi Hn; [done|].
  cbn [exerciser_cap_loop cap_loop]. destruct (next =? 0); [done|].
  destruct (read_both bs bdf next rg s Hw Hm Hi) as (v & w & E1 & E2 & _).
  rewrite (bind_step _ _ _ _ _ E1), (bind_step _ _ _ _ _ E2). cbn [fst snd use]. rewrite bind_ret_l.
  destruct (_ =? ID).
  - unfold ret, as_exerciser. rewrite Z.eqb_refl. do 3 f_equal. unfold u32. by apply Z.mod_small.
  - apply IH; [done|]. rewrite land_mask by lia. pose proof (Z.pow_le_mono_r 2 k 32).
    pose proof (Z.mod_pos_bound (Z.shiftr (u32 v) shift) (2 ^ k)). lia.
Qed.
End Search.

(** The exerciser's own search for a capability agrees with the search of the suite on
    every bus, even one whose reads have effects: the same reads, the same offset, the
    same status up to its coding, and without end on the same lists.  The search in the
    list of the first kind takes a pointer of all ones as an offset. *)
Theorem capability_searches_agree `{MmioBus W} bs (s : pcie W) bdf ID out :
  info_wf bs → has_info bs s → mapped_bdf bs bdf → one_segment bs bdf →
  pal_exerciser_find_pcie_capability ID bdf PCIE out s = as_exerciser (val_pcie_find_capability bdf PCIE_ECAP ID out s) ∧
  (reg bs (p_world s) bdf TYPE01_CPR ≠ PCIE_UNKNOWN_RESPONSE →
   pal_exerciser_find_pcie_capability ID bdf 0 out s = as_exerciser (val_pcie_find_capability bdf PCIE_CAP ID out s)).
Proof.
  intros Hw Hi Hm Hs. unfold pal_exerciser_find_pcie_capability.
  rewrite !(bind_step _ _ _ _ _ (exerciser_ecam_run bs s bdf Hi Hs)), config_offset_eq. split.
  - apply (exerciser_cap_loop_eq bs bdf 12); [done..|lia|done].
  - intros Hr. change (0 =? 1) with false. cbn [val_pcie_find_capability].
    destruct (read_both bs bdf TYPE01_CPR None s Hw Hm Hi) as (v & w & E1 & E2 & E3).
    rewrite (bind_step _ _ _ _ _ E1), (bind_step _ _ _ _ _ E2). cbn [fst snd use]. change (0 =? PCIE_NO_MAPPING) with false.
    cbn match. rewrite bind_ret_l, E3, (proj2 (Z.eqb_neq _ _) Hr). unfold CAP_PTR_MASK, TYPE01_CPR_MASK. change 0xff with (2 ^ 8 - 1).
    apply (exerciser_cap_loop_eq bs bdf 8); [done..|lia|].
    rewrite land_mask by lia. pose proof (Z.mod_pos_bound (reg bs (p_world s) bdf TYPE01_CPR) (2 ^ 8)). lia.
Qed.

(** * The control register of the DMA engine *)

Record dma_control : Type := mk_dma {
  dma_go : bool;
  dma_from_device : bool;
  dma_no_snoop : bool;
  dma_pasid : bool;
  dma_pasid_len : Z;
  dma_addr_type : Z
}.

Definition field (v lo n : Z) : Z := Z.land (Z.shiftr v lo) (Z.ones n).
Definition decode (v : Z) : dma_control :=
  mk_dma (Z.testbit v 0) (Z.testbit v 4) (Z.testbit v 5) (Z.testbit v 6) (field v 7 3) (field v 10 2).

(** What a test asks of the engine. *)
Inductive request : Type :=
  | RunDma (from_device : bool)
  | NoSnoop (on : bool)
  | PasidStart (pasid : Z)
  | PasidStop
  | PasidLen (bits : Z)
  | AddrType (t : Z).

Definition do_request `{MmioBus W} (bdf : Z) (r : request) : M (pcie W) Z :=
  match r with
  | RunDma b => pal_exerciser_ops START_DMA (if b then 3 else 4) bdf
  | NoSnoop b => pal_exerciser_ops (if b then TXN_NO_SNOOP_ENABLE else TXN_NO_SNOOP_DISABLE) 0 bdf
  | PasidStart p => pal_exerciser_ops PASID_TLP_START p bdf
  | PasidStop => pal_exerciser_ops PASID_TLP_STOP 0 bdf
  | PasidLen n => pal_exerciser_set_param PASID_ATTRIBUTES n 0 bdf
  | AddrType t => pal_exerciser_set_param CFG_TXN_ATTRIBUTES TXN_ADDR_TYPE t bdf
  end.
Fixpoint do_requests `{MmioBus W} (bdf : Z) (l : list request) : M (pcie W) unit :=
  match l with
  | [] => ret tt
  | r :: l => let* _ := do_request bdf r in do_requests bdf l
  end.

(** The type of address only ever gains bits. *)
Definition addr_type_bits (t : Z) : Z := if t =? AT_UNTRANSLATED then 1 else if t =? AT_TRANSLATED then 2 else if t =? AT_RESERVED then 3 else 0.
Definition obey (r : request) (c : dma_control) : dma_control :=
  match r with
  | RunDma b => mk_dma true b (dma_no_snoop c) (dma_pasid c) (dma_pasid_len c) (dma_addr_type c)
  | NoSnoop b => mk_dma (dma_go c) (dma_from_device c) b (dma_pasid c) (dma_pasid_len c) (dma_addr_type c)
  | PasidStart _ => mk_dma (dma_go c) (dma_from_device c) (dma_no_snoop c) true (dma_pasid_len c) (dma_addr_type c)
  | PasidStop => mk_dma (dma_go c) (dma_from_device c) (dma_no_snoop c) false (dma_pasid_len c) (dma_addr_type c)
  | PasidLen n => mk_dma (dma_go c) (dma_from_device c) (dma_no_snoop c) (dma_pasid c) ((n - 16) mod 8) (dma_addr_type c)
  | AddrType t =>
      mk_dma (dma_go c) (dma_from_device c) (dma_no_snoop c) (dma_pasid c) (dma_pasid_len c) (Z.lor (dma_addr_type c) (addr_type_bits t))
  end.

(** ** Fields of words *)

Lemma field_ext v v' lo n : 0 ≤ lo → 0 ≤ n → (∀ i, 0 ≤ i < n → Z.testbit v' (lo + i) = Z.testbit v (lo + i)) → field v' lo n = field v lo n.
Proof.
  intros Hl Hn Hb. unfold field. apply Z.bits_inj'. intros i Hi. rewrite !Z.land_spec, !Z.shiftr_spec, Z.testbit_ones_nonneg by lia.
  destruct (Z.ltb_spec i n); [|by rewrite !andb_false_r]. rewrite !(Z.add_comm i). by rewrite Hb by lia.
Qed.
Lemma field_lor v x lo n : field (Z.lor v x) lo n = Z.lor (field v lo n) (field x lo n).
Proof. unfold field. by rewrite Z.shiftr_lor, Z.land_lor_distr_l. Qed.
Lemma field_land v x lo n : field (Z.land v x) lo n = Z.land (field v lo n) (field x lo n).
Proof. unfold field. rewrite Z.shiftr_land. rewrite !Z.land_assoc. rewrite <- (Z.land_assoc (Z.shiftr v lo) (Z.ones n)), (Z.land_comm (Z.ones n)), Z.land_assoc, <- (Z.land_assoc _ (Z.ones n) (Z.ones n)), Z.land_diag. done. Qed.
Lemma field_range v lo n : 0 ≤ n → 0 ≤ field v lo n < 2 ^ n.
Proof. intros Hn. unfold field. rewrite Z.land_ones by done. apply Z.mod_pos_bound. lia. Qed.
Lemma field_ones v lo n : 0 ≤ n → Z.land (field v lo n) (Z.ones n) = field v lo n.
Proof. intros Hn. unfold field. by rewrite <- Z.land_assoc, Z.land_diag. Qed.

Lemma u32_testbit x i : 0 ≤ i < 32 → Z.testbit (u32 x) i = Z.testbit x i.
Proof. intros Hi. unfold u32. by rewrite Z.mod_pow2_bits_low by lia. Qed.
Lemma decode_u32 x : decode (u32 x) = decode x.
Proof.
  unfold decode. rewrite !u32_testbit by lia.
  rewrite (field_ext x (u32 x) 7 3), (field_ext x (u32 x) 10 2); try done; intros i Hi; apply u32_testbit; lia.
Qed.

(** A word with bits set, and a word with bits kept. *)
Lemma decode_lor v x : decode (Z.lor v x) =
  mk_dma (Z.testbit v 0 || Z.testbit x 0) (Z.testbit v 4 || Z.testbit x 4) (Z.testbit v 5 || Z.testbit x 5) (Z.testbit v 6 || Z.testbit x 6)
    (Z.lor (field v 7 3) (field x 7 3)) (Z.lor (field v 10 2) (field x 10 2)).
Proof. unfold decode. by rewrite !Z.lor_spec, !field_lor. Qed.
Lemma decode_land v x : decode (Z.land v x) =
  mk_dma (Z.testbit v 0 && Z.testbit x 0) (Z.testbit v 4 && Z.testbit x 4) (Z.testbit v 5 && Z.testbit x 5) (Z.testbit v 6 && Z.testbit x 6)
    (Z.land (field v 7 3) (field x 7 3)) (Z.land (field v 10 2) (field x 10 2)).
Proof. unfold decode. by rewrite !Z.land_spec, !field_land. Qed.


Lemma field_len v : Z.land (field v 7 3) 7 = field v 7 3.
Proof. by apply field_ones. Qed.
Lemma field_at v : Z.land (field v 10 2) 3 = field v 10 2.
Proof. by apply field_ones. Qed.

Ltac const_bits :=
  repeat match goal with
  | |- context [Z.testbit (Z.pos ?p) ?i] =>
      let b := eval vm_compute in (Z.testbit (Z.pos p) i) in change (Z.testbit (Z.pos p) i) with b
  | |- context [field (Z.pos ?p) ?l ?n] =>
      let b := eval vm_compute in (field (Z.pos p) l n) in change (field (Z.pos p) l n) with b
  end.
Ltac word_of_fields :=
  rewrite ?decode_lor, ?decode_land, ?Z.lor_spec, ?Z.land_spec, ?field_lor, ?field_land; const_bits;
  rewrite ?orb_false_r, ?orb_true_r, ?andb_true_r, ?andb_false_r, ?Z.lor_0_r, ?field_len, ?field_at.

Lemma decode_run v (b : bool) : decode (Z.lor (if b then Z.lor v 0x10 else Z.land v 0xFFFFFFEF) 1) = obey (RunDma b) (decode v).
Proof. destruct b; by word_of_fields. Qed.
Lemma decode_snoop v (b : bool) : decode (if b then Z.lor v 0x20 else Z.land v 0xFFFFFFDF) = obey (NoSnoop b) (decode v).
Proof. destruct b; by word_of_fields. Qed.
Lemma decode_pasid_start v p : decode (Z.lor v 0x40) = obey (PasidStart p) (decode v).
Proof. by word_of_fields. Qed.
Lemma decode_pasid_stop v : decode (Z.land v 0xFFFFFFBF) = obey PasidStop (decode v).
Proof. by word_of_fields. Qed.
Lemma decode_addr v t x : x = Z.shiftl (addr_type_bits t) 10 → decode (Z.lor v x) = obey (AddrType t) (decode v).
Proof.
  intros ->. rewrite decode_lor. cbn [obey]. rewrite !Z.shiftl_spec_low, !orb_false_r by lia.
  assert (field (Z.shiftl (addr_type_bits t) 10) 7 3 = 0) as ->.
  { unfold addr_type_bits. by repeat case_match. }
  assert (field (Z.shiftl (addr_type_bits t) 10) 10 2 = addr_type_bits t) as ->.
  { unfold addr_type_bits. by repeat case_match. }
  by rewrite Z.lor_0_r.
Qed.
Lemma decode_len v n : decode (Z.lor (Z.land v 0xFFFFFC7F) (u32 (Z.shiftl (Z.land (u64 (n - 16)) 0x7) 7))) = obey (PasidLen n) (decode v).
Proof.
  assert (Z.land (u64 (n - 16)) 0x7 = (n - 16) mod 8) as ->.
  { change 0x7 with (2 ^ 3 - 1). rewrite land_mask by lia. unfold u64. by rewrite Z.mod_mod_divide by (by exists (2 ^ 61)). }
  pose proof (Z.mod_pos_bound (n - 16) 8 ltac:(lia)) as Hy. cbn [obey]. generalize dependent ((n - 16) mod 8). intros y Hy.
  unfold u32. rewrite Z.mod_small by (rewrite Z.shiftl_mul_pow2 by lia; lia).
  rewrite decode_lor, !Z.shiftl_spec_low by lia. word_of_fields.
  assert (y = 0 ∨ y = 1 ∨ y = 2 ∨ y = 3 ∨ y = 4 ∨ y = 5 ∨ y = 6 ∨ y = 7) as Hc by lia.
  assert (field (Z.shiftl y 7) 7 3 = y ∧ field (Z.shiftl y 7) 10 2 = 0) as [-> ->] by (by repeat destruct Hc as [->|Hc]; [..|subst]).
  rewrite Z.lor_0_r. f_equal. rewrite Z.land_0_r. done.
Qed.

(** ** The engine behind the bus *)

Lemma search_extended `{MmioBus W} bs (s : pcie W) bdf ID out :
  info_wf bs → has_info bs s → mapped_bdf bs bdf → one_segment bs bdf →
  pal_exerciser_find_pcie_capability ID bdf PCIE out s = as_exerciser (val_pcie_find_capability bdf PCIE_ECAP ID out s).
Proof.
  intros Hw Hi Hm Hs. unfold pal_exerciser_find_pcie_capability.
  rewrite !(bind_step _ _ _ _ _ (exerciser_ecam_run bs s bdf Hi Hs)), config_offset_eq.
  apply (exerciser_cap_loop_eq bs bdf 12); [done..|lia|done].
Qed.

Section Engine.
Context {W : Type} `{MmioBus W} `{!QuietReads W}.
Implicit Types s : pcie W.
Variables (bs : list PCIE_INFO_BLOCK) (bdf base : Z) (I : W → Prop) (pasid : option Z).

Definition ctl (w : W) : Z := u32 (fst (mmio_read32 w (base + DMACTL1))).

(** The address that the first base address registers hold. *)
Definition bar_address (w : W) : Z :=
  let lower := reg bs w bdf 0x10 in
  if BAR_REG lower =? BAR_64_BIT then Z.lor (Z.land lower BAR_MASK) (u64 (Z.shiftl (reg bs w bdf 0x14) 32))
  else Z.land lower BAR_MASK.

(** Addresses that requests write: registers of the engine and the control word of the
    PASID capability. *)
Definition touched (a : Z) : Prop :=
  base ≤ a < base + 0x48 ∨ ∃ o, pasid = Some o ∧ a = cfg_address bs bdf (o + 4).

(** What is relied on: in the states [I] the registers are at [base], the list of
    extended capabilities ends, both stay so under the writes of requests, and the control
    register holds what is written until it is written again.  Everything else, the status
    and the effects of a run among it, is open. *)
Record dma_engine : Prop := {
  en_base : 0 ≤ base ∧ base + 0x48 ≤ 2 ^ 64;
  en_apart : ∀ o, pasid = Some o → cfg_address bs bdf (o + 4) ≠ base + DMACTL1;
  en_bar : ∀ w, I w → bar_address w = base;
  en_cap : ∀ w, I w → capability_at bs w bdf PCIE_ECAP PASID pasid;
  en_cap_range : ∀ o, pasid = Some o → 0x100 ≤ o ∧ o + 4 < 4096;
  en_kept : ∀ w a v, I w → touched a → I (mmio_write32 w a v);
  en_hold : ∀ w v, I w → 0 ≤ v < 2 ^ 32 → fst (mmio_read32 (mmio_write32 w (base + DMACTL1) v) (base + DMACTL1)) = v;
  en_other : ∀ w a v, I w → touched a → a ≠ base + DMACTL1 → ctl (mmio_write32 w a v) = ctl w
}.

(** After the enumeration, which chooses windows by itself. *)
Definition engine_ok s : Prop := has_info bs s ∧ p_var s enumerate = 0 ∧ I (p_world s).

Hypothesis Hw : info_wf bs.
Hypothesis Hm : mapped_bdf bs bdf.
Hypothesis Hseg : one_segment bs bdf.
Hypothesis En : dma_engine.

Lemma touched_u64 a : touched a → u64 a = a.
Proof.
  intros Ht. apply u64_id. unfold is_u64. destruct (en_base En). destruct Ht as [Ha|(o & Ho & ->)]; [lia|].
  destruct (en_cap_range En o Ho). apply cfg_address_bounds; [done|done|lia].
Qed.

Lemma read_quiet a s : u64 a = a → pal_mmio_read32 a s = Ok (u32 (fst (mmio_read32 (p_world s) a))) s.
Proof.
  intros Ea. unfold pal_mmio_read32. rewrite Ea. pose proof (quiet_read (p_world s) a) as Hq.
  destruct (mmio_read32 (p_world s) a) as [v w]. cbn in *. subst. by destruct s.
Qed.
Lemma write_quiet a v s : u64 a = a → pal_mmio_write32 a v s = Ok tt (pset_world (mmio_write32 (p_world s) a (u32 v)) s).
Proof. intros Ea. unfold pal_mmio_write32, modify. by rewrite Ea. Qed.

Lemma write_touched a v s : touched a → a ≠ base + DMACTL1 → engine_ok s →
  run_to (pal_mmio_write32 a v) s (λ _ s', engine_ok s' ∧ ctl (p_world s') = ctl (p_world s)).
Proof.
  intros Ht Hne (Hi & He & HI). unfold run_to. rewrite write_quiet by (by apply touched_u64).
  split; [split; [done|]; split; [done|]; by apply (en_kept En)|]. by apply (en_other En).
Qed.
Lemma update_touched a f s : touched a → a ≠ base + DMACTL1 → engine_ok s →
  run_to (update32 a f) s (λ _ s', engine_ok s' ∧ ctl (p_world s') = ctl (p_world s)).
Proof.
  intros Ht Hne Hok. unfold update32. eapply run_to_step; [apply read_quiet; by apply touched_u64|]. by apply write_touched.
Qed.

Lemma ctl_touched : touched (base + DMACTL1).
Proof. left. unfold DMACTL1. lia. Qed.
Lemma write_ctl v s : engine_ok s →
  run_to (pal_mmio_write32 (base + DMACTL1) v) s (λ _ s', engine_ok s' ∧ ctl (p_world s') = u32 v).
Proof.
  intros (Hi & He & HI). unfold run_to. rewrite write_quiet by (apply touched_u64, ctl_touched).
  split; [split; [done|]; split; [done|]; apply (en_kept En); [done|apply ctl_touched]|].
  unfold ctl. cbn [p_world pset_world]. pose proof (Z.mod_pos_bound v (2 ^ 32)). rewrite (en_hold En) by (done || unfold u32; lia).
  unfold u32. by rewrite Z.mod_mod by lia.
Qed.
Lemma update_ctl f s : engine_ok s →
  run_to (update32 (base + DMACTL1) f) s (λ _ s', engine_ok s' ∧ ctl (p_world s') = u32 (f (ctl (p_world s)))).
Proof.
  intros Hok. unfold update32. eapply run_to_step; [apply read_quiet, touched_u64, ctl_touched|]. by apply write_ctl.
Qed.

(** The window of the function is chosen, which leaves the rest as it is. *)
Lemma choose_window_run fuel i s : has_info bs s → 0 ≤ i ≤ Z.of_nat (length bs) → (length bs - Z.to_nat i < fuel)%nat →
  (∃ b, b ∈ drop (Z.to_nat i) bs ∧ in_block b bdf) →
  ∃ k b, bs !! k = Some b ∧ ecam_base b = window_base (drop (Z.to_nat i) bs) (PCIE_EXTRACT_BDF_BUS bdf) (PCIE_EXTRACT_BDF_SEG bdf) ∧
    choose_window fuel (PCIE_EXTRACT_BDF_BUS bdf) i s = Ok tt (pset_var pcie_index (Z.of_nat k) s).
Proof.
  intros Hi. revert i. induction fuel as [|fuel IH]; intros i Hr Hf (b0 & Hin & Hb0); [lia|].
  cbn [choose_window]. rewrite (bind_step _ _ _ _ _ (info_entries_run bs s Hi)).
  destruct (Z.ltb_spec i (Z.of_nat (length bs))); cbn [negb]; [|rewrite drop_ge in Hin by lia; by apply not_elem_of_nil in Hin].
  destruct (lookup_lt_is_Some_2 bs (Z.to_nat i)) as [b Hb]; [lia|].
  rewrite (bind_step _ _ _ _ _ (info_entry_run bs s i b Hi Hb)). rewrite (drop_S _ _ _ Hb) in *. cbn [window_base].
  rewrite (Forall_lookup_1 _ _ _ _ Hseg Hb), Z.eqb_refl, andb_true_r.
  destruct (_ && _) eqn:E.
  - exists (Z.to_nat i), b. split; [done|]. split; [done|]. unfold set_var, modify. by rewrite Z2Nat.id by lia.
  - apply elem_of_cons in Hin as [->|Hin].
    { destruct Hb0 as [Hb1 _]. apply andb_false_iff in E as [E|E]; zb; lia. }
    replace (S (Z.to_nat i)) with (Z.to_nat (i + 1)) in * by lia. apply IH; [lia|lia|]. by exists b0.
Qed.

Lemma cfg_read_run off s : engine_ok s → 0 ≤ off < 4096 →
  run_to (pal_pci_cfg_read (PCIE_EXTRACT_BDF_BUS bdf) (PCIE_EXTRACT_BDF_DEV bdf) (PCIE_EXTRACT_BDF_FUNC bdf) off) s
    (λ v s', v = reg bs (p_world s) bdf off ∧ engine_ok s' ∧ p_world s' = p_world s).
Proof.
  intros (Hi & He & HI) Ho. unfold pal_pci_cfg_read, get_var. eapply run_to_step; [reflexivity|]. rewrite He. cbn [truthy negb Z.eqb].
  destruct (choose_window_run (ecam_fuel s) 0 s Hi) as (k & b & Hb & Eb & Ec).
  - lia.
  - unfold ecam_fuel. pose proof Hi as E; red in E; rewrite E. cbn [ecam_entries]. lia.
  - rewrite drop_0. exact Hm.
  - eapply run_to_step; [exact Ec|]. eapply run_to_step; [reflexivity|].
    assert (p_var (pset_var pcie_index (Z.of_nat k) s) pcie_index = Z.of_nat k) as -> by (cbn; by rewrite decide_True).
    eapply run_to_step; [apply (info_entry_run bs _ _ b); [done|by rewrite Nat2Z.id]|].
    rewrite Eb, drop_0. unfold run_to. rewrite cfg_addr_eq by apply extract_valid.
    change (window_base bs _ _) with (base_of bs bdf). rewrite Z.add_assoc, Z.add_assoc.
    change (base_of bs bdf + PCIE_EXTRACT_BDF_BUS bdf * 2 ^ 20 + PCIE_EXTRACT_BDF_DEV bdf * 2 ^ 15 + PCIE_EXTRACT_BDF_FUNC bdf * 2 ^ 12 + off)
      with (cfg_address bs bdf off).
    assert (u64 (cfg_address bs bdf off) = cfg_address bs bdf off) as Eu by (by apply u64_id, cfg_address_bounds).
    rewrite read_quiet by done. unfold reg. rewrite Eu. split; [done|]. split; [|done].
    split; [done|]. split; [|done]. cbn. by rewrite decide_False.
Qed.

Lemma get_base_run s : engine_ok s →
  run_to (pal_exerciser_get_ecsr_base bdf 0) s (λ b s', b = base ∧ engine_ok s' ∧ p_world s' = p_world s).
Proof.
  intros Hok. rewrite <- (en_bar En (p_world s)) by apply Hok. unfold pal_exerciser_get_ecsr_base, pal_pcie_get_base, bar_address.
  change (u32 (BAR0_OFFSET + u32 (4 * 0))) with 0x10. change (u32 (0x10 + 4)) with 0x14.
  eapply run_to_bind; [apply cfg_read_run; [done|lia]|]. intros v s1 (-> & Hok1 & E1).
  destruct (_ =? BAR_64_BIT).
  - eapply run_to_bind; [apply cfg_read_run; [done|lia]|]. intros v s2 (-> & Hok2 & E2). apply run_to_ret. rewrite E2, E1. done.
  - by apply run_to_ret.
Qed.

Lemma find_pasid_run s : engine_ok s →
  pal_exerciser_find_pcie_capability PASID bdf PCIE (Some 0) s =
  Ok (match pasid with Some o => (0, Some o) | None => (1, Some 0) end) s.
Proof.
  intros (Hi & He & HI). rewrite (search_extended bs) by done.
  pose proof (find_capability_run bs s bdf PCIE_ECAP PASID (Some 0) Hw Hi Hm ltac:(done)) as Hf.
  pose proof (en_cap En _ HI) as Hc.
  destruct (val_pcie_find_capability bdf PCIE_ECAP PASID (Some 0) s) as [v s'|f|]; [|done|by destruct (Hf pasid)].
  destruct Hf as (-> & r & Hr & ->). apply cap_at_path in Hr as [l Hl]. apply cap_at_path in Hc as [l' Hl'].
  destruct (cap_path_det _ _ _ _ _ _ _ _ _ _ Hl Hl') as [_ ->]. by destruct pasid.
Qed.

Lemma pasid_control_run f s : engine_ok s →
  run_to (pasid_control (base_of bs bdf) bdf f) s (λ _ s', engine_ok s' ∧ ctl (p_world s') = ctl (p_world s)).
Proof.
  intros Hok. unfold pasid_control. eapply run_to_step; [by apply find_pasid_run|].
  destruct pasid as [o|] eqn:Ep; cbn [fst snd default]; [|by apply run_to_ret].
  change (0 =? 0) with true. cbn iota. rewrite config_offset_eq.
  match goal with |- context [update32 ?a f] =>
    replace a with (cfg_address bs bdf (o + 4)) by (unfold cfg_address, PCIE_CAP_CTRL_OFFSET, id; lia) end.
  eapply run_to_bind; [apply update_touched|].
  - right. by exists o.
  - by apply (en_apart En).
  - done.
  - intros [] s' H'. apply run_to_ret. exact H'.
Qed.

Lemma set_addr_run t s : engine_ok s →
  run_to (set_txn_attribute base TXN_ADDR_TYPE t) s (λ _ s', engine_ok s' ∧ decode (ctl (p_world s')) = obey (AddrType t) (decode (ctl (p_world s)))).
Proof.
  intros Hok. unfold set_txn_attribute. change (TXN_ADDR_TYPE =? TXN_REQ_ID) with false. change (TXN_ADDR_TYPE =? TXN_REQ_ID_VALID) with false.
  change (TXN_ADDR_TYPE =? TXN_ADDR_TYPE) with true. cbn iota.
  assert (∀ x, x = Z.shiftl (addr_type_bits t) 10 → run_to (update32 (base + DMACTL1) (λ d, Z.lor d x) ;; ret 0) s
    (λ _ s', engine_ok s' ∧ decode (ctl (p_world s')) = obey (AddrType t) (decode (ctl (p_world s))))) as Hset.
  { intros x Hx. eapply run_to_bind; [by apply update_ctl|]. intros [] s1 [Hok1 E1]. apply run_to_ret. split; [done|].
    rewrite E1, decode_u32. by apply decode_addr. }
  unfold addr_type_bits in Hset.
  destruct (t =? AT_UNTRANSLATED) eqn:E1; [by apply Hset|]. destruct (t =? AT_TRANSLATED) eqn:E2; [by apply Hset|].
  destruct (t =? AT_RESERVED) eqn:E3; [by apply Hset|]. apply run_to_ret. split; [done|].
  unfold obey, addr_type_bits. rewrite E1, E2, E3, Z.lor_0_r. done.
Qed.

Lemma start_run b s : engine_ok s →
  run_to (pal_exerciser_start_dma_direction base (if (b : bool) then EDMA_FROM_DEVICE else EDMA_TO_DEVICE)) s
    (λ _ s', engine_ok s' ∧ decode (ctl (p_world s')) = obey (RunDma b) (decode (ctl (p_world s)))).
Proof.
  intros Hok. unfold pal_exerciser_start_dma_direction.
  eapply (run_to_bind _ _ _ (λ _ s', engine_ok s' ∧ ctl (p_world s') =
    u32 (if b then Z.lor (ctl (p_world s)) 0x10 else Z.land (ctl (p_world s)) 0xFFFFFFEF))); [destruct b; by apply update_ctl|].
  intros [] s1 [Hok1 E1]. eapply run_to_bind; [by apply update_ctl|]. intros [] s2 [Hok2 E2].
  eapply run_to_step; [apply read_quiet, touched_u64; left; unfold DMASTATUS; lia|]. apply run_to_ret. split; [done|].
  rewrite E2, E1, decode_u32, <- decode_run. change MASK_BIT with 1. rewrite !decode_lor, !u32_testbit by lia.
  rewrite !(field_ext _ (u32 _)) by (lia || (intros; apply u32_testbit; lia)). done.
Qed.

(** A request does to the control register what it says, and keeps to the contract. *)
Lemma request_run r s : engine_ok s →
  run_to (do_request bdf r) s (λ _ s', engine_ok s' ∧ decode (ctl (p_world s')) = obey r (decode (ctl (p_world s)))).
Proof.
  intros Hok.
  assert (∀ (k : Z → M (pcie W) Z), (∀ s1, engine_ok s1 → p_world s1 = p_world s →
    run_to (k base) s1 (λ _ s', engine_ok s' ∧ decode (ctl (p_world s')) = obey r (decode (ctl (p_world s1))))) →
    run_to (let* Base := pal_exerciser_get_ecsr_base bdf 0 in k Base) s
      (λ _ s', engine_ok s' ∧ decode (ctl (p_world s')) = obey r (decode (ctl (p_world s))))) as Hbase.
  { intros k Hk. eapply run_to_bind; [by apply get_base_run|]. intros b s1 (-> & Hok1 & E1). rewrite <- E1. by apply Hk. }
  assert (∀ s1, engine_ok s1 → pal_exerciser_get_ecam bdf s1 = Ok (base_of bs bdf) s1) as Hecam.
  { intros s1 (Hi & _). by apply exerciser_ecam_run. }
  destruct r as [b|b|p| |n|t]; cbn [do_request]; apply Hbase; intros s1 Hok1 E1; (eapply run_to_step; [by apply Hecam|]).
  - destruct b; [apply (start_run true)|apply (start_run false)]; done.
  - destruct b; (eapply run_to_bind; [by apply update_ctl|]; intros [] s2 [Hok2 E2]; apply run_to_ret; split; [done|];
      rewrite E2, decode_u32; first [apply (decode_snoop _ true)|apply (decode_snoop _ false)]).
  - eapply run_to_bind; [by apply update_ctl|]. intros [] s2 [Hok2 E2].
    eapply run_to_bind; [apply write_touched; [left; unfold PASID_VAL; lia|unfold PASID_VAL, DMACTL1; lia|done]|]. intros [] s3 [Hok3 E3].
    eapply run_to_mono; [by apply pasid_control_run|]. intros _ s4 [Hok4 E4]. split; [done|].
    rewrite E4, E3, E2, decode_u32. by apply decode_pasid_start.
  - eapply run_to_bind; [by apply update_ctl|]. intros [] s2 [Hok2 E2].
    eapply run_to_mono; [by apply pasid_control_run|]. intros _ s4 [Hok4 E4]. split; [done|].
    rewrite E4, E2, decode_u32. apply decode_pasid_stop.
  - eapply run_to_step; [apply read_quiet, touched_u64, ctl_touched|]. eapply run_to_bind; [by apply write_ctl|]. intros [] s2 [Hok2 E2].
    apply run_to_ret. split; [done|]. rewrite E2, decode_u32. apply decode_len.
  - by apply set_addr_run.
Qed.

Lemma requests_run l s : engine_ok s →
  run_to (do_requests bdf l) s (λ _ s', engine_ok s' ∧ decode (ctl (p_world s')) = foldl (λ c r, obey r c) (decode (ctl (p_world s))) l).
Proof.
  revert s. induction l as [|r l IH]; intros s Hok; cbn [do_requests foldl]; [by apply run_to_ret|].
  eapply run_to_bind; [by apply request_run|]. intros a s1 [Hok1 <-]. by apply IH.
Qed.

Lemma get_len_run v1 v2 s : engine_ok s →
  run_to (pal_exerciser_get_param PASID_ATTRIBUTES v1 v2 bdf) s (λ r _, r = (0, 16 + dma_pasid_len (decode (ctl (p_world s))), v2)).
Proof.
  intros Hok. unfold pal_exerciser_get_param. eapply run_to_bind; [by apply get_base_run|]. intros b s1 (-> & Hok1 & E1).
  eapply run_to_step; [apply read_quiet, touched_u64, ctl_touched|]. apply run_to_ret.
  rewrite E1. change (u32 (fst _)) with (ctl (p_world s)). rewrite Z.add_comm. done.
Qed.
End Engine.

(** C19. The control register of the exerciser's DMA engine follows an abstract one through
    every sequence of requests: each request changes its own fields and no other, and the
    length of the PASID reads back as it was set, from 16 to 23.  Only the type of address
    gathers bits instead of being set. *)
Theorem dma_control_refines `{MmioBus W, !QuietReads W} bs bdf base I pasid (s : pcie W) l n v1 v2 :
  info_wf bs → mapped_bdf bs bdf → one_segment bs bdf → dma_engine bs bdf base I pasid → engine_ok bs I s → 16 ≤ n < 24 →
  run_to (do_requests bdf l) s (λ _ s1,
    decode (ctl base (p_world s1)) = foldl (λ c r, obey r c) (decode (ctl base (p_world s))) l ∧
    run_to (let* _ := do_request bdf (PasidLen n) in pal_exerciser_get_param PASID_ATTRIBUTES v1 v2 bdf) s1 (λ r _, r = (0, n, v2))).
Proof.
  intros Hw Hm Hs En Hok Hn. eapply run_to_mono; [by eapply requests_run|]. intros _ s1 [Hok1 E1]. split; [done|].
  eapply run_to_bind; [by eapply request_run|]. intros a s2 [Hok2 E2].
  eapply run_to_mono; [by eapply get_len_run|]. intros r _ ->. rewrite E2. cbn [obey dma_pasid_len].
  rewrite Z.mod_small by lia. do 2 f_equal. lia.
Qed.

(** * What is reported of the memory space *)

(** The search for a base address register of memory takes the first one whatever it
    is: the address comes without its low bits, in which the kind and the width are, and
    for the same reason it is never reported as prefetchable. *)
Lemma mmio_space_blind `{MmioBus W, !QuietReads W} bs bdf base I pasid (s : pcie W) ecam :
  info_wf bs → mapped_bdf bs bdf → one_segment bs bdf → dma_engine bs bdf base I pasid → engine_ok bs I s →
  run_to (pal_exerciser_get_data EXERCISER_DATA_MMIO_SPACE bdf ecam) s (λ r _, r = (0, BarSpace base (Some MMIO_NON_PREFETCHABLE))) ∧
  run_to (pal_exerciser_get_data EXERCISER_DATA_BAR0_SPACE bdf ecam) s (λ r _, r = (0, BarSpace base (Some MMIO_NON_PREFETCHABLE))).
Proof.
  intros Hw Hm Hs En Hok.
  assert (∀ i, 0 ≤ i < 4 → Z.testbit base i = false) as Hlow.
  { intros i Hi. rewrite <- (en_bar _ _ _ _ _ En (p_world s)) by apply Hok. unfold bar_address, BAR_MASK.
    assert (∀ x, Z.testbit (Z.land x 0xFFFFFFF0) i = false) as Hz.
    { intros x. rewrite Z.land_spec. assert (i = 0 ∨ i = 1 ∨ i = 2 ∨ i = 3) as Hc by lia.
      destruct Hc as [->|[->|[-> | ->]]]; by rewrite andb_false_r. }
    destruct (_ =? BAR_64_BIT); [|apply Hz]. rewrite Z.lor_spec, Hz. unfold u64. rewrite Z.mod_pow2_bits_low by lia.
    apply Z.shiftl_spec_low. lia. }
  assert (∀ k, 0 ≤ k < 4 → Z.land (Z.shiftr base k) 1 = 0) as Hbit.
  { intros k Hk. change 1 with (Z.ones 1). apply Z.bits_inj'. intros i Hi. rewrite Z.land_spec, Z.shiftr_spec, Z.testbit_ones_nonneg, Z.bits_0 by lia.
    destruct (Z.ltb_spec i 1); [|by rewrite andb_false_r]. rewrite Hlow by lia. done. }
  assert (bar_type base = MMIO_NON_PREFETCHABLE) as Ht by (unfold bar_type, PREFETCHABLE_BIT_SHIFT, MASK_BIT; by rewrite Hbit by lia).
  cbn [pal_exerciser_get_data mmio_space_loop]. change (negb (0 <? TYPE0_MAX_BARS)) with false. cbn iota.
  change (u32 (0 * 4)) with 0. split.
  - eapply run_to_bind; [by eapply get_base_run|]. intros b s1 (-> & _ & _). unfold BAR_MIT_SHIFT, BAR_MIT_MASK, MMIO.
    rewrite Hbit by lia. apply run_to_ret. by rewrite Ht.
  - eapply run_to_bind; [by eapply get_base_run|]. intros b s1 (-> & Hok1 & _).
    eapply run_to_bind; [by eapply get_base_run|]. intros b s2 (-> & _ & _). apply run_to_ret. by rewrite Ht.
Qed.

(** * The table of exercisers *)

Section Cards.
Context {W : Type} `{MmioBus W} `{!QuietReads W}.
Implicit Types s : exer W.

Definition cards s : list Z := e_bdf <$> take (Z.to_nat (num_exerciser s)) (e_info s).
Definition cards_ok s : Prop :=
  length (e_info s) = Z.to_nat MAX_EXERCISER_CARDS ∧ 0 ≤ num_exerciser s ≤ MAX_EXERCISER_CARDS.

Lemma add_exerciser_run bdf s : cards_ok s →
  match add_exerciser bdf s with
  | Ok _ s' => cards_ok s' ∧ x_pcie s' = x_pcie s ∧ cards s' = cards s ++ [bdf] ∧ num_exerciser s' = num_exerciser s + 1
  | Fault f => f = OutOfBounds ∧ num_exerciser s = MAX_EXERCISER_CARDS
  | NoFuel => False
  end.
Proof.
  intros [Hl Hn]. unfold MAX_EXERCISER_CARDS in *. unfold add_exerciser. rewrite (bind_step _ _ s (num_exerciser s) s) by done.
  unfold bind, put_e_info. case_decide as D; [|split; [done|lia]]. unfold modify. cbn [num_exerciser e_info x_pcie xset_table].
  assert (u32 (num_exerciser s + 1) = num_exerciser s + 1) as E by (unfold u32; apply Z.mod_small; lia).
  rewrite E. split; [split; [cbn; by rewrite length_insert|unfold MAX_EXERCISER_CARDS; cbn; lia]|]. split; [done|]. split; [|done].
  unfold cards. cbn [num_exerciser e_info xset_table]. replace (Z.to_nat (num_exerciser s + 1)) with (S (Z.to_nat (num_exerciser s))) by lia.
  rewrite (take_S_r _ _ (mk_e_info bdf 0)) by (by rewrite list_lookup_insert_eq).
  rewrite take_insert_ge by lia. by rewrite fmap_app.
Qed.

Definition entered (t : pcie_device_bdf_table) (n : nat) : list Z := filter (λ b, b ≠ 0) (reverse (take n (listed t))).

Lemma info_table_loop_run bs t n s :
  info_wf bs → has_info bs (x_pcie s) → p_bdf (x_pcie s) = Some t → table_ok t → Forall (mapped_bdf bs) (listed t) →
  cards_ok s → (n ≤ length (listed t))%nat →
  match info_table_loop n s with
  | Ok _ s' => cards_ok s' ∧ x_pcie s' = x_pcie s ∧ cards s' = cards s ++ entered t n ∧
               num_exerciser s' = num_exerciser s + Z.of_nat (length (entered t n))
  | Fault f => f = OutOfBounds ∧ MAX_EXERCISER_CARDS < num_exerciser s + Z.of_nat (length (entered t n))
  | NoFuel => False
  end.
Proof.
  intros Hw Hi Ht Hok Hm. revert s Hi Ht. induction n as [|n IH]; intros s Hi Ht Hc Hn; cbn [info_table_loop].
  - change (entered t 0) with (@nil Z). rewrite app_nil_r. split; [done|]. split; [done|]. split; [done|]. cbn. lia.
  - destruct (lookup_lt_is_Some_2 (listed t) n) as [b Hb]; [lia|].
    assert (∃ a, bdf_device t !! n = Some a ∧ a_bdf a = b) as (a & Ha & <-).
    { unfold listed in Hb. apply list_lookup_fmap_Some in Hb as (a & -> & Ha). exists a. split; [|done].
      by apply lookup_take_Some in Ha as [Ha _]. }
    assert (mapped_bdf bs (a_bdf a)) as Hma by (eapply Forall_lookup_1; [exact Hm|exact Hb]).
    rewrite (bind_step _ _ s a s).
    2: { unfold on_bus, zoom. rewrite (device_at_run _ t _ a Ht) by (by rewrite Nat2Z.id). by destruct s. }
    rewrite (bind_step _ _ s (0, Some (reg bs (p_world (x_pcie s)) (a_bdf a) TYPE01_VIDR)) s).
    2: { unfold on_bus, zoom. rewrite (read_cfg_quiet bs) by done. by destruct s. }
    cbn [fst]. change (0 =? PCIE_NO_MAPPING) with false. cbn iota.
    assert (entered t (S n) = filter (λ b, b ≠ 0) [a_bdf a] ++ entered t n) as Ee.
    { unfold entered. rewrite (take_S_r _ _ _ Hb), reverse_snoc. by rewrite <- filter_app. }
    unfold truthy. destruct (Z.eqb_spec (a_bdf a) 0) as [Ez|Ez]; cbn [negb].
    + rewrite bind_ret_l. specialize (IH s Hi Ht Hc ltac:(lia)).
      rewrite Ee, filter_cons_False, filter_nil by (by intros []). exact IH.
    + rewrite filter_cons_True, filter_nil in Ee by done. pose proof (add_exerciser_run (a_bdf a) s Hc) as Hadd.
      unfold bind. destruct (add_exerciser (a_bdf a) s) as [u s1|f|]; [|destruct Hadd as [-> E]; split; [done|]; rewrite Ee; cbn; lia|done].
      destruct Hadd as (Hc1 & E1 & E2 & E3). specialize (IH s1 ltac:(by rewrite E1) ltac:(by rewrite E1) Hc1 ltac:(lia)).
      rewrite Ee. destruct (info_table_loop n s1) as [u2 s2|f|]; [|destruct IH as [-> IH]; split; [done|]; cbn; lia|done].
      destruct IH as (Hc2 & F1 & F2 & F3). split; [done|]. split; [congruence|]. rewrite F2, E2, <- app_assoc. split; [done|]. cbn. lia.
Qed.
End Cards.

(** The table of exercisers gets every function of the system but 0.0.0, in reverse
    order, behind what it held; with more than 20 the array is overrun.  No function is
    asked whether it is an exerciser. *)
Theorem info_table_exact `{MmioBus W, !QuietReads W} bs (s : exer W) t :
  info_wf bs → has_info bs (x_pcie s) → p_bdf (x_pcie s) = Some t → table_ok t → Forall (mapped_bdf bs) (listed t) → cards_ok s →
  let l := filter (λ b, b ≠ 0) (reverse (listed t)) in
  match val_exerciser_create_info_table s with
  | Ok _ s' => x_pcie s' = x_pcie s ∧ cards s' = cards s ++ l ∧ num_exerciser s' = num_exerciser s + Z.of_nat (length l)
  | Fault f => f = OutOfBounds ∧ MAX_EXERCISER_CARDS < num_exerciser s + Z.of_nat (length l)
  | NoFuel => False
  end.
Proof.
  intros Hw Hi Ht Hok Hm Hc l. unfold val_exerciser_create_info_table.
  rewrite (bind_step _ _ s t s) by (unfold on_bus, zoom; rewrite (bdf_table_run _ t Ht); by destruct s).
  pose proof (listed_length t Hok) as Hlen.
  destruct (Z.eqb_spec (bdf_entries t) 0) as [E|E].
  - assert (listed t = []) as El by (apply nil_length_inv; lia). subst l. rewrite El. cbn. rewrite app_nil_r. split; [done|]. split; [done|]. lia.
  - replace (Z.to_nat (bdf_entries t)) with (length (listed t)) by lia.
    pose proof (info_table_loop_run bs t (length (listed t)) s Hw Hi Ht Hok Hm Hc ltac:(lia)) as Hr.
    unfold entered in Hr. rewrite take_ge in Hr by lia. fold l in Hr. destruct (info_table_loop _ s); tauto.
Qed.

(** * The theorems at work *)

(** Device 2 of the demonstration bus as an exerciser with a PASID capability. *)
Definition exer_regs : gmap Z Z := <[0x40010100 := 0x1B]> demo_regs.
Definition exer_bdfs : pcie_device_bdf_table := mk_bdf_table 3 [mk_attr 0 0; mk_attr 8 0; mk_attr 16 0].
Definition exer_bus : pcie (gmap Z Z) := mk_pcie exer_regs (Some (mk_info 1 demo_blocks)) (Some exer_bdfs) (λ _, 0).
Definition exer_inv (w : gmap Z Z) : Prop :=
  w !! 0x40010010 = Some 4 ∧ w !! 0x40010014 = Some 0x40 ∧ w !! 0x40010100 = Some 0x1B.

Lemma exer_reg w off v : w !! (0x40010000 + off) = Some v → 0 ≤ off < 4096 → 0 ≤ v < 2 ^ 32 → reg demo_blocks w 16 off = v.
Proof.
  intros Hv Ho Hr. unfold reg. replace (cfg_address demo_blocks 16 off) with (0x40010000 + off) by (change (cfg_address demo_blocks 16 off) with (0x40010000 + off); done).
  assert (u64 (0x40010000 + off) = 0x40010000 + off) as -> by (unfold u64; apply Z.mod_small; lia).
  cbn [mmio_read32 demo_bus fst]. rewrite Hv. cbn. unfold u32. by apply Z.mod_small.
Qed.

Lemma exer_plain (w : gmap Z Z) a v : demo_fixed a = (0, 0) → 0 ≤ v < 2 ^ 32 → mmio_write32 w a v = <[a := v]> w.
Proof.
  intros Ha Hv. cbn [mmio_write32 demo_bus]. rewrite Ha. cbn [fst snd]. rewrite Z.lor_0_r. change (2 ^ 32 - 2 ^ 0) with (2 ^ 32 - 1).
  rewrite land_mask by lia. by rewrite Z.mod_small.
Qed.

Lemma exer_engine : dma_engine demo_blocks 16 0x4000000000 exer_inv (Some 0x100).
Proof.
  assert (∀ a, touched demo_blocks 16 0x4000000000 (Some 0x100) a → 0x4000000000 ≤ a ∨ a = 0x40010104) as Ht.
  { intros a [Ha|(o & [= <-] & ->)]; [left; lia|by right]. }
  assert (∀ a, 0x40010104 ≤ a → demo_fixed a = (0, 0)) as Hp.
  { intros a Ha. unfold demo_fixed. repeat (rewrite (proj2 (Z.eqb_neq _ _)) by lia). rewrite (proj2 (Z.leb_gt a 0x40008024)) by lia. by rewrite andb_false_r. }
  split.
  - lia.
  - intros o [= <-]. by vm_compute.
  - intros w (H1 & H2 & H3). unfold bar_address. rewrite (exer_reg w 0x10 4), (exer_reg w 0x14 0x40) by (done || lia). by vm_compute.
  - intros w (H1 & H2 & H3). cbn [capability_at]. apply cap_here; [done|]. unfold cap_match. by rewrite (exer_reg w 0x100 0x1B) by (done || lia).
  - intros o [= <-]. lia.
  - intros w a v (H1 & H2 & H3) [Ha|Ha]%Ht; cbn [mmio_write32 demo_bus]; unfold exer_inv; rewrite !lookup_insert_ne by lia; done.
  - intros w v _ Hv. rewrite exer_plain by (done || apply Hp; unfold DMACTL1; lia). cbn [mmio_read32 demo_bus fst]. by rewrite lookup_insert_eq.
  - intros w a v _ _ Hne. unfold ctl. cbn [mmio_read32 mmio_write32 demo_bus fst]. by rewrite lookup_insert_ne.
Qed.

Lemma exer_ok : engine_ok demo_blocks exer_inv exer_bus.
Proof. split; [done|]. split; [done|]. by vm_compute. Qed.
Lemma exer_mapped : mapped_bdf demo_blocks 16.
Proof. apply (demo_mapped 2 0); lia. Qed.
Lemma exer_segment : one_segment demo_blocks 16.
Proof. by repeat constructor. Qed.

Lemma capability_searches_agree_witness :
  pal_exerciser_find_pcie_capability PASID 16 PCIE None exer_bus = Ok (0, Some 0x100) exer_bus.
Proof.
  rewrite (proj1 (capability_searches_agree demo_blocks exer_bus 16 PASID None demo_info_wf eq_refl exer_mapped exer_segment)).
  vm_compute. reflexivity.
Defined.

Lemma dma_control_refines_witness :
  run_to (do_requests 16 [RunDma true; PasidStart 5; PasidLen 20; NoSnoop false]) exer_bus
    (λ _ s1, decode (ctl 0x4000000000 (p_world s1)) = mk_dma true true false true 4 3).
Proof.
  eapply run_to_mono; [apply (dma_control_refines demo_blocks 16 0x4000000000 exer_inv (Some 0x100) exer_bus _ 18 0 0
    demo_info_wf exer_mapped exer_segment exer_engine exer_ok ltac:(lia))|].
  intros u s1 [E _]. rewrite E. vm_compute. reflexivity.
Defined.

Lemma info_table_exact_witness :
  match val_exerciser_create_info_table (mk_exer exer_bus 0 e_info_reset) with
  | Ok _ s' => cards s' = [16; 8]
  | _ => False
  end.
Proof.
  assert (Forall (mapped_bdf demo_blocks) (listed exer_bdfs)) as Hm.
  { repeat constructor; [apply (demo_mapped 0 0)|apply (demo_mapped 1 0)|apply (demo_mapped 2 0)]; lia. }
  pose proof (info_table_exact demo_blocks (mk_exer exer_bus 0 e_info_reset) exer_bdfs demo_info_wf eq_refl eq_refl
    ltac:(split; cbn; lia) Hm ltac:(split; [done|cbn; unfold MAX_EXERCISER_CARDS; lia])) as H. cbn zeta in H.
  destruct (val_exerciser_create_info_table _) as [u s'|f|].
  - destruct H as (_ & -> & _). vm_compute. reflexivity.
  - destruct H as [_ H]. vm_compute in H. discriminate H.
  - exact H.
Defined.
