(* ===== verification/Rhi.v ===== *)
(** The host's side of the Realm Host Interface: host session, firmware activity
    log and host configuration (val_host_rhi.c, pal_rhi.c, val_rhi.h).

    A Realm makes a host call; the host reads the call's registers in the exit
    structure of the first REC, answers in the registers of its enter structure and
    enters the REC again.  [rhi] holds the globals and the static locals of the
    source next to the host state.  Payloads are byte buffers of host memory, one
    byte per address, on which the memory routines of [Libc.Mem] run; an access
    outside the memory in use is the fault [OutOfBounds]. *)
From S2P Require Import Prelude Defs Alloc Granule Host Rmi RecExit Libc.

(** * Constants (val_rhi.h, pal_rhi.h, val.h) *)

Definition RHI_SESSION_VER : Z := 0x10000.
Definition RHI_FAL_VER : Z := 0x10000.
Definition RHI_DA_VER : Z := 0x10000.
Definition RHI_HOSTCONF_VER : Z := 0x10000.
Definition RHI_FAL_LOG_SIZE : Z := 0x1000.
Definition RHI_HOSTCONF_IPA_CHANGE_ALIGNMENT : Z := 0x1000.

Definition RHI_HSS_SESSION_UNCONNECTED : Z := 0.
Definition RHI_HSS_CONNECTION_IN_PROGRESS : Z := 1.
Definition RHI_HSS_CONNECTION_ESTABLISHED : Z := 2.
Definition RHI_HSS_IO_IN_PROGRESS : Z := 3.
Definition RHI_HSS_IO_COMPLETE : Z := 4.
Definition RHI_HSS_BUFFER_SIZE_DETERMINED : Z := 5.
Definition RHI_HSS_CONNECTION_CLOSE_IN_PROGRESS : Z := 6.

Definition RHI_SESS_SUCCESS : Z := 0.
Definition RHI_SESS_PEER_NOT_AVAILABLE : Z := 1.
Definition RHI_SESS_INVALID_STATE_FOR_OPERATION : Z := 2.
Definition RHI_SESS_INVALID_SESSION_ID : Z := 3.
Definition RHI_SESS_ACCESS_FAILED : Z := 4.
Definition RHI_SESS_CONNECTION_TYPE_NOT_SUPPORTED : Z := 5.

Definition RHI_FAL_SUCCESS : Z := 0.
Definition RHI_FAL_ACCESS_FAILED : Z := 1.

Definition RHI_SESSION_VERSION : Z := 0xC5000040.
Definition RHI_SESSION_FEATURES : Z := 0xC5000041.
Definition RHI_SESSION_OPEN : Z := 0xC5000042.
Definition RHI_SESSION_CLOSE : Z := 0xC5000043.
Definition RHI_SESSION_SEND : Z := 0xC5000044.
Definition RHI_SESSION_RECEIVE : Z := 0xC5000045.
Definition RHI_FAL_VERSION : Z := 0xC5000046.
Definition RHI_FAL_FEATURES : Z := 0xC5000047.
Definition RHI_FAL_GET_SIZE : Z := 0xC5000048.
Definition RHI_FAL_READ : Z := 0xC5000049.
Definition RHI_HOSTCONF_VERSION : Z := 0xC500004E.
Definition RHI_HOSTCONF_FEATURES : Z := 0xC500004F.
Definition RHI_HOSTCONF_GET_IPA_CHANGE_ALIGNMENT : Z := 0xC5000050.

Definition RHI_HOSTCONF_SUPPORTED_MASK : Z := Z.shiftl 1 0.
Definition RHI_FAL_SUPPORTED_MASK : Z := Z.lor (Z.shiftl 1 0) (Z.shiftl 1 1).
Definition RHI_SESSION_SUPPORTED_MASK : Z :=
  Z.lor (Z.lor (Z.lor (Z.shiftl 1 0) (Z.shiftl 1 1)) (Z.shiftl 1 2)) (Z.shiftl 1 3).
Definition RHI_CONN_MODE_BLOCKING : Z := Z.shiftl 1 0.
Definition RHI_CONN_MODE_NON_BLOCKING : Z := Z.shiftl 1 1.
Definition RHI_CONN_MODE_SUPPORTED_MASK : Z :=
  Z.lor RHI_CONN_MODE_BLOCKING RHI_CONN_MODE_NON_BLOCKING.

(** Slots of 8 bytes in the shared region. *)
Definition OFFSET (index : Z) : Z := index * 8.
Definition TEST_USE_OFFSET1 : Z := OFFSET (512 + 0 * 8192).
Definition TEST_USE_OFFSET2 : Z := OFFSET (512 + 1 * 8192).
Definition TEST_USE_OFFSET3 : Z := OFFSET (512 + 2 * 8192).

(** General purpose registers in the run structure of a REC. *)
Definition RUN_ENTER_GPR0 : Z := 0x200.
Definition enter_gpr (run i : Z) : Z := run + RUN_ENTER_GPR0 + 8 * i.
Definition exit_gpr (run i : Z) : Z := run + RUN_EXIT_GPR0 + 8 * i.

(** [((uint8_t * )&pattern)[idx % sizeof(pattern)]] for the pattern 0xabcdabcd. *)
Definition pattern_byte (idx : Z) : Z := u8 (Z.shiftr 0xabcdabcd (8 * (idx mod 4))).

(** The address at which the platform maps the shared region; it is defined
    outside the sources. *)
Class SharedRegion : Type := { val_get_shared_region_base : Z }.

(** * State *)

Record rhi_session_ts : Type := mk_session {
  session_id : Z; proto_state : Z; id_in_use : bool; conn_type : Z
}.

Record rhi_session_io_state_ts : Type := mk_io_state { io_proto_state : Z; io_len : Z }.

Record rhi (W : Type) : Type := mk_rhi {
  rh_host : host W;
  g_rhi_sess : rhi_session_ts;
  g_rhi_send_state : rhi_session_io_state_ts;
  g_rhi_recv_state : rhi_session_io_state_ts;
  next_session_id : Z;
  g_fal_offset : Z;
  fal_log : list Z;
  fal_init : bool
}.

Arguments mk_rhi {W}.
Arguments rh_host {W}.
Arguments g_rhi_sess {W}.
Arguments g_rhi_send_state {W}.
Arguments g_rhi_recv_state {W}.
Arguments next_session_id {W}.
Arguments g_fal_offset {W}.
Arguments fal_log {W}.
Arguments fal_init {W}.

Section Rhi.
Context {W : Type} `{SharedRegion}.
Implicit Types s : rhi W.

Definition rhi_start (h : host W) : rhi W :=
  mk_rhi h (mk_session 0 0 false 0) (mk_io_state 0 0) (mk_io_state 0 0) 1 0
    (replicate (Z.to_nat RHI_FAL_LOG_SIZE) 0) false.

Definition set_rh_host (h : host W) s : rhi W :=
  mk_rhi h (g_rhi_sess s) (g_rhi_send_state s) (g_rhi_recv_state s) (next_session_id s)
    (g_fal_offset s) (fal_log s) (fal_init s).
Definition set_sess (x : rhi_session_ts) s : rhi W :=
  mk_rhi (rh_host s) x (g_rhi_send_state s) (g_rhi_recv_state s) (next_session_id s)
    (g_fal_offset s) (fal_log s) (fal_init s).
Definition set_send (x : rhi_session_io_state_ts) s : rhi W :=
  mk_rhi (rh_host s) (g_rhi_sess s) x (g_rhi_recv_state s) (next_session_id s)
    (g_fal_offset s) (fal_log s) (fal_init s).
Definition set_recv (x : rhi_session_io_state_ts) s : rhi W :=
  mk_rhi (rh_host s) (g_rhi_sess s) (g_rhi_send_state s) x (next_session_id s)
    (g_fal_offset s) (fal_log s) (fal_init s).
Definition set_next_id (x : Z) s : rhi W :=
  mk_rhi (rh_host s) (g_rhi_sess s) (g_rhi_send_state s) (g_rhi_recv_state s) x
    (g_fal_offset s) (fal_log s) (fal_init s).
Definition set_fal (offset : Z) (log : list Z) (init : bool) s : rhi W :=
  mk_rhi (rh_host s) (g_rhi_sess s) (g_rhi_send_state s) (g_rhi_recv_state s)
    (next_session_id s) offset log init.

(** [g_rhi_sess.proto_state = x]. *)
Definition sess_proto (x : Z) (e : rhi_session_ts) : rhi_session_ts :=
  mk_session (session_id e) x (id_in_use e) (conn_type e).

Definition on_host {A : Type} (m : M (host W) A) : M (rhi W) A := zoom rh_host set_rh_host m.
Definition on_bytes {A : Type} (m : M (gmap Z Z) A) : M (rhi W) A :=
  on_host (zoom h_mem hset_mem m).

(** [realm->run[0]], and the registers behind it. *)
Definition run0 : M (rhi W) Z := on_host (arr_get r_run 0).
Definition get_exit_gpr (i : Z) : M (rhi W) Z :=
  let* run := run0 in on_host (load (exit_gpr run i)).
Definition set_enter_gpr (i v : Z) : M (rhi W) unit :=
  let* run := run0 in on_host (store (enter_gpr run i) v).

Definition pal_rhi_alloc_session_id : M (rhi W) Z :=
  let* id := gets next_session_id in
  modify (set_next_id (u64 (id + 1))) ;; ret id.

(** [rec_enter->gprs[1] = g_rhi_sess.session_id; rec_enter->gprs[2] = g_rhi_sess.proto_state]. *)
Definition reply_session : M (rhi W) unit :=
  let* e := gets g_rhi_sess in
  set_enter_gpr 1 (session_id e) ;; set_enter_gpr 2 (proto_state e).

Definition reply_io (state len : Z) : M (rhi W) unit :=
  let* e := gets g_rhi_sess in
  set_enter_gpr 1 (session_id e) ;; set_enter_gpr 2 state ;; set_enter_gpr 3 len.

(** * Opening and closing a session *)

(** The assignments that both connection modes make on a fresh session. *)
Definition start_session (state conn_type : Z) : M (rhi W) Z :=
  let* id := pal_rhi_alloc_session_id in
  modify (set_sess (mk_session id state true conn_type)) ;;
  modify (set_send (mk_io_state RHI_HSS_CONNECTION_ESTABLISHED 0)) ;;
  modify (set_recv (mk_io_state RHI_HSS_CONNECTION_ESTABLISHED 0)) ;;
  reply_session ;;
  ret RHI_SESS_SUCCESS.

Definition unknown_session (e : rhi_session_ts) (sess_id : Z) : bool :=
  negb (id_in_use e) || (sess_id =? 0) || negb (sess_id =? session_id e).

Definition val_host_rhi_session_open (sess_id conn_type : Z) : M (rhi W) Z :=
  if negb (truthy (Z.land conn_type RHI_CONN_MODE_SUPPORTED_MASK))
  then ret RHI_SESS_CONNECTION_TYPE_NOT_SUPPORTED
  else if Z.land conn_type RHI_CONN_MODE_SUPPORTED_MASK =? RHI_CONN_MODE_SUPPORTED_MASK
  then ret RHI_SESS_CONNECTION_TYPE_NOT_SUPPORTED
  else
    let* e := gets g_rhi_sess in
    if conn_type =? RHI_CONN_MODE_BLOCKING then
      if negb (proto_state e =? RHI_HSS_SESSION_UNCONNECTED)
      then ret RHI_SESS_INVALID_STATE_FOR_OPERATION
      else if negb (sess_id =? 0) || id_in_use e then ret RHI_SESS_INVALID_SESSION_ID
      else start_session RHI_HSS_CONNECTION_ESTABLISHED conn_type
    else if conn_type =? RHI_CONN_MODE_NON_BLOCKING then
      if proto_state e =? RHI_HSS_SESSION_UNCONNECTED then
        if negb (sess_id =? 0) || id_in_use e then ret RHI_SESS_INVALID_SESSION_ID
        else start_session RHI_HSS_CONNECTION_IN_PROGRESS conn_type
      else if proto_state e =? RHI_HSS_CONNECTION_IN_PROGRESS then
        if unknown_session e sess_id then ret RHI_SESS_INVALID_SESSION_ID
        else
          modify (set_sess (sess_proto RHI_HSS_CONNECTION_ESTABLISHED e)) ;;
          reply_session ;;
          ret RHI_SESS_SUCCESS
      else ret RHI_SESS_INVALID_STATE_FOR_OPERATION
    else ret RHI_SESS_CONNECTION_TYPE_NOT_SUPPORTED.

(** The assignments that end a session in both modes. *)
Definition end_session (e : rhi_session_ts) : M (rhi W) Z :=
  modify (set_sess (sess_proto RHI_HSS_SESSION_UNCONNECTED e)) ;;
  reply_session ;;
  modify (set_sess (mk_session 0 RHI_HSS_SESSION_UNCONNECTED false 0)) ;;
  modify (set_send (mk_io_state RHI_HSS_SESSION_UNCONNECTED 0)) ;;
  modify (set_recv (mk_io_state RHI_HSS_SESSION_UNCONNECTED 0)) ;;
  ret RHI_SESS_SUCCESS.

Definition val_host_rhi_session_close (sess_id : Z) : M (rhi W) Z :=
  let* e := gets g_rhi_sess in
  if unknown_session e sess_id then ret RHI_SESS_INVALID_SESSION_ID
  else if proto_state e =? RHI_HSS_SESSION_UNCONNECTED
  then ret RHI_SESS_INVALID_STATE_FOR_OPERATION
  else if conn_type e =? RHI_CONN_MODE_BLOCKING then
    if negb (proto_state e =? RHI_HSS_CONNECTION_ESTABLISHED)
    then ret RHI_SESS_INVALID_STATE_FOR_OPERATION
    else end_session e
  else if conn_type e =? RHI_CONN_MODE_NON_BLOCKING then
    if proto_state e =? RHI_HSS_CONNECTION_ESTABLISHED then
      modify (set_sess (sess_proto RHI_HSS_CONNECTION_CLOSE_IN_PROGRESS e)) ;;
      reply_session ;;
      ret RHI_SESS_SUCCESS
    else if proto_state e =? RHI_HSS_CONNECTION_CLOSE_IN_PROGRESS then end_session e
    else ret RHI_SESS_INVALID_STATE_FOR_OPERATION
  else ret RHI_SESS_INVALID_STATE_FOR_OPERATION.

(** * Sending and receiving *)

(** The state test that guards both. *)
Definition no_io (e : rhi_session_ts) : bool :=
  (proto_state e =? RHI_HSS_SESSION_UNCONNECTED) ||
  (proto_state e =? RHI_HSS_CONNECTION_IN_PROGRESS) ||
  (proto_state e =? RHI_HSS_CONNECTION_CLOSE_IN_PROGRESS).

Definition io_ready (st : rhi_session_io_state_ts) : bool :=
  (io_proto_state st =? RHI_HSS_CONNECTION_ESTABLISHED) ||
  (io_proto_state st =? RHI_HSS_IO_COMPLETE).

Definition bad_buffer (buffer_ipa : Z) : bool :=
  (buffer_ipa =? 0) || negb (ADDR_IS_ALIGNED buffer_ipa PAGE_SIZE).

(** The buffer of the Realm is not used; the payload is in the shared region. *)
Definition shared_buffer : Z := u64 (val_get_shared_region_base + TEST_USE_OFFSET1).

(** [for (idx = 0; idx < n; idx++) dest[idx] = pattern byte]. *)
Definition fill_pattern (dest n : Z) : M (gmap Z Z) unit :=
  for_upto (R := Empty_set) n (λ idx, Mem.store8 (dest + idx) (pattern_byte idx) ;; ret None) ;;
  ret tt.

(** The part of a send that both modes share: [new_state] is the state of the
    transfer after a correct payload and [reply_len] the length replied. *)
Definition send_payload (new_state reply_len length offset : Z) : M (rhi W) Z :=
  let* local_copy := on_host (mem_alloc_h PAGE_SIZE length) in
  let* expected := on_host (mem_alloc_h PAGE_SIZE length) in
  if negb (truthy local_copy) || negb (truthy expected) then ret RHI_SESS_ACCESS_FAILED
  else
    on_bytes (Mem.val_memcpy local_copy (u64 (shared_buffer + offset)) length) ;;
    on_bytes (fill_pattern expected length) ;;
    let* d := on_bytes (Mem.val_memcmp local_copy expected length) in
    if truthy d then
      reply_io RHI_HSS_CONNECTION_ESTABLISHED 0 ;;
      let* e := gets g_rhi_sess in
      modify (set_sess (sess_proto RHI_HSS_CONNECTION_ESTABLISHED e)) ;;
      ret RHI_SESS_PEER_NOT_AVAILABLE
    else
      modify (set_send (mk_io_state new_state length)) ;;
      reply_io new_state reply_len ;;
      ret RHI_SESS_SUCCESS.

Definition val_host_rhi_session_send (sess_id buffer_ipa length offset : Z) : M (rhi W) Z :=
  let* e := gets g_rhi_sess in
  if unknown_session e sess_id then ret RHI_SESS_INVALID_SESSION_ID
  else if no_io e then ret RHI_SESS_INVALID_STATE_FOR_OPERATION
  else if bad_buffer buffer_ipa then ret RHI_SESS_ACCESS_FAILED
  else
    let* st := gets g_rhi_send_state in
    if conn_type e =? RHI_CONN_MODE_BLOCKING then
      if negb (io_ready st) then ret RHI_SESS_INVALID_STATE_FOR_OPERATION
      else send_payload RHI_HSS_IO_COMPLETE length length offset
    else if conn_type e =? RHI_CONN_MODE_NON_BLOCKING then
      if io_proto_state st =? RHI_HSS_IO_IN_PROGRESS then
        modify (set_send (mk_io_state RHI_HSS_IO_COMPLETE (io_len st))) ;;
        reply_io RHI_HSS_IO_COMPLETE (io_len st) ;;
        ret RHI_SESS_SUCCESS
      else if negb (io_ready st) then ret RHI_SESS_INVALID_STATE_FOR_OPERATION
      else send_payload RHI_HSS_IO_IN_PROGRESS 0 length offset
    else ret RHI_SESS_INVALID_STATE_FOR_OPERATION.

Definition payload_len : Z := 64.

Definition receive_payload (new_state reply_len offset : Z) : M (rhi W) Z :=
  on_bytes (fill_pattern (u64 (shared_buffer + offset)) payload_len) ;;
  modify (set_recv (mk_io_state new_state payload_len)) ;;
  reply_io new_state reply_len ;;
  ret RHI_SESS_SUCCESS.

Definition val_host_rhi_session_receive (sess_id buffer_ipa buffer_size offset : Z) : M (rhi W) Z :=
  let* e := gets g_rhi_sess in
  if unknown_session e sess_id then ret RHI_SESS_INVALID_SESSION_ID
  else if no_io e then ret RHI_SESS_INVALID_STATE_FOR_OPERATION
  else if (buffer_ipa =? 0) && (buffer_size =? 0) then
    reply_io RHI_HSS_BUFFER_SIZE_DETERMINED payload_len ;;
    ret RHI_SESS_SUCCESS
  else if bad_buffer buffer_ipa then ret RHI_SESS_ACCESS_FAILED
  else if buffer_size =? 0 then
    reply_io RHI_HSS_IO_COMPLETE 0 ;;
    ret RHI_SESS_SUCCESS
  else if (buffer_size <=? offset) || (buffer_size - offset <? payload_len)
  then ret RHI_SESS_ACCESS_FAILED
  else
    let* st := gets g_rhi_recv_state in
    if conn_type e =? RHI_CONN_MODE_BLOCKING then
      if negb (io_ready st) then ret RHI_SESS_INVALID_STATE_FOR_OPERATION
      else receive_payload RHI_HSS_IO_COMPLETE payload_len offset
    else if conn_type e =? RHI_CONN_MODE_NON_BLOCKING then
      if io_proto_state st =? RHI_HSS_IO_IN_PROGRESS then
        modify (set_recv (mk_io_state RHI_HSS_IO_COMPLETE (io_len st))) ;;
        reply_io RHI_HSS_IO_COMPLETE (io_len st) ;;
        ret RHI_SESS_SUCCESS
      else if negb (io_ready st) then ret RHI_SESS_INVALID_STATE_FOR_OPERATION
      else receive_payload RHI_HSS_IO_IN_PROGRESS 0 offset
    else ret RHI_SESS_INVALID_STATE_FOR_OPERATION.

(** * Firmware activity log *)

(** The bytes of a static array written from [p] on. *)
Fixpoint write_bytes (p : Z) (l : list Z) : M (gmap Z Z) unit :=
  match l with
  | [] => ret tt
  | b :: l => Mem.store8 p b ;; write_bytes (p + 1) l
  end.

Definition fal_pattern (log : list Z) : list Z := imap (λ idx _, pattern_byte (Z.of_nat idx)) log.

Definition val_host_rhi_fal_read (buffer_ipa buffer_size : Z) : M (rhi W) Z :=
  if bad_buffer buffer_ipa then ret RHI_FAL_ACCESS_FAILED
  else
    let* init := gets fal_init in
    let* offset := gets g_fal_offset in
    (if init then ret tt
     else let* log := gets fal_log in modify (set_fal offset (fal_pattern log) true)) ;;
    if (RHI_FAL_LOG_SIZE <=? offset) || (buffer_size =? 0) then
      set_enter_gpr 1 0 ;; set_enter_gpr 2 0 ;; ret RHI_FAL_SUCCESS
    else
      let remaining := RHI_FAL_LOG_SIZE - offset in
      let copy_len := Z.min buffer_size remaining in
      let* log := gets fal_log in
      on_bytes (write_bytes shared_buffer
        (take (Z.to_nat copy_len) (drop (Z.to_nat offset) log))) ;;
      modify (set_fal (offset + copy_len) log true) ;;
      set_enter_gpr 1 copy_len ;;
      set_enter_gpr 2 (RHI_FAL_LOG_SIZE - (offset + copy_len)) ;;
      ret RHI_FAL_SUCCESS.

(** * Dispatch *)

(** [realm] tells whether the pointer is not null. *)
Definition val_host_rhi_dispatch (realm : bool) : M (rhi W) Z :=
  if negb realm then ret VAL_ERROR
  else
    let* fid := get_exit_gpr 0 in
    let answer (m : M (rhi W) Z) : M (rhi W) Z :=
      let* r := m in set_enter_gpr 0 r ;; ret VAL_SUCCESS in
    if fid =? RHI_SESSION_VERSION then answer (ret RHI_SESSION_VER)
    else if fid =? RHI_SESSION_FEATURES then
      set_enter_gpr 0 RHI_SESSION_SUPPORTED_MASK ;;
      set_enter_gpr 1 RHI_CONN_MODE_SUPPORTED_MASK ;;
      ret VAL_SUCCESS
    else if fid =? RHI_SESSION_OPEN then
      let* g1 := get_exit_gpr 1 in
      let* g2 := get_exit_gpr 2 in
      answer (val_host_rhi_session_open g1 g2)
    else if fid =? RHI_SESSION_CLOSE then
      let* g1 := get_exit_gpr 1 in
      answer (val_host_rhi_session_close g1)
    else if fid =? RHI_SESSION_SEND then
      let* g1 := get_exit_gpr 1 in
      let* g2 := get_exit_gpr 2 in
      let* g3 := get_exit_gpr 3 in
      let* g4 := get_exit_gpr 4 in
      answer (val_host_rhi_session_send g1 g2 g3 g4)
    else if fid =? RHI_SESSION_RECEIVE then
      let* g1 := get_exit_gpr 1 in
      let* g2 := get_exit_gpr 2 in
      let* g3 := get_exit_gpr 3 in
      let* g4 := get_exit_gpr 4 in
      answer (val_host_rhi_session_receive g1 g2 g3 g4)
    else if fid =? RHI_FAL_VERSION then answer (ret RHI_FAL_VER)
    else if fid =? RHI_FAL_FEATURES then answer (ret RHI_FAL_SUPPORTED_MASK)
    else if fid =? RHI_FAL_GET_SIZE then answer (ret RHI_FAL_LOG_SIZE)
    else if fid =? RHI_FAL_READ then
      let* g1 := get_exit_gpr 1 in
      let* g2 := get_exit_gpr 2 in
      answer (val_host_rhi_fal_read g1 g2)
    else if fid =? RHI_HOSTCONF_VERSION then answer (ret RHI_HOSTCONF_VER)
    else if fid =? RHI_HOSTCONF_FEATURES then answer (ret RHI_HOSTCONF_SUPPORTED_MASK)
    else if fid =? RHI_HOSTCONF_GET_IPA_CHANGE_ALIGNMENT
    then answer (ret RHI_HOSTCONF_IPA_CHANGE_ALIGNMENT)
    else ret VAL_ERROR.
End Rhi.
