(* ===== verification/RhiFacts.v ===== *)
(** The host session of the Realm Host Interface as a protocol, and the proof that
    the dispatcher implements it; the firmware activity log.

    [Module Session] is the specification: the states of a session, the requests
    of a Realm, and the answer and next state for each.  [session_rep] relates its
    states to the globals of the source. *)
From S2P Require Import Prelude Defs Alloc Granule Host Rmi RecExit Libc Rhi.

(** * The protocol *)

Module Session.

Inductive conn_mode : Type := Blocking | NonBlocking.
Inductive phase : Type := Opening | Established | Closing.
Inductive transfer : Type := Ready | Pending (len : Z) | Complete (len : Z).

Inductive session : Type :=
  | Unconnected
  | Connected (id : Z) (mode : conn_mode) (ph : phase) (out inc : transfer).

Inductive request : Type :=
  | Open (id mode : Z)
  | Close (id : Z)
  | Send (id ipa len off : Z)
  | Receive (id ipa size off : Z).

(** What the host finds when it takes a payload: no memory for its copies, a
    payload that is not the expected one, or the expected one. *)
Inductive payload : Type := NoMemory | Refused | Taken.

(** The status, and the registers from x1 on. *)
Definition answer : Type := Z * list Z.

Definition mode_code (m : conn_mode) : Z := match m with Blocking => 1 | NonBlocking => 2 end.
Definition phase_code (p : phase) : Z :=
  match p with Opening => 1 | Established => 2 | Closing => 6 end.
Definition transfer_code (t : transfer) : Z :=
  match t with Ready => 2 | Pending _ => 3 | Complete _ => 4 end.
Definition transfer_len (t : transfer) : Z :=
  match t with Ready => 0 | Pending n | Complete n => n end.

Definition mode_of (x : Z) : option conn_mode :=
  if x =? 1 then Some Blocking else if x =? 2 then Some NonBlocking else None.

Definition opened (fresh : Z) (m : conn_mode) : session * answer :=
  let ph := match m with Blocking => Established | NonBlocking => Opening end in
  (Connected fresh m ph Ready Ready, (RHI_SESS_SUCCESS, [fresh; phase_code ph])).

Definition open (fresh id mode : Z) (st : session) : session * answer :=
  match mode_of mode, st with
  | None, _ => (st, (RHI_SESS_CONNECTION_TYPE_NOT_SUPPORTED, []))
  | Some m, Unconnected =>
      if id =? 0 then opened fresh m else (st, (RHI_SESS_INVALID_SESSION_ID, []))
  | Some NonBlocking, Connected i m Opening o c =>
      if id =? i then (Connected i m Established o c, (RHI_SESS_SUCCESS, [i; phase_code Established]))
      else (st, (RHI_SESS_INVALID_SESSION_ID, []))
  | Some _, Connected _ _ _ _ _ => (st, (RHI_SESS_INVALID_STATE_FOR_OPERATION, []))
  end.

Definition close (id : Z) (st : session) : session * answer :=
  match st with
  | Unconnected => (st, (RHI_SESS_INVALID_SESSION_ID, []))
  | Connected i m ph o c =>
      if negb (id =? i) then (st, (RHI_SESS_INVALID_SESSION_ID, []))
      else match m, ph with
           | Blocking, Established | NonBlocking, Closing =>
               (Unconnected, (RHI_SESS_SUCCESS, [i; RHI_HSS_SESSION_UNCONNECTED]))
           | NonBlocking, Established =>
               (Connected i m Closing o c, (RHI_SESS_SUCCESS, [i; phase_code Closing]))
           | _, _ => (st, (RHI_SESS_INVALID_STATE_FOR_OPERATION, []))
           end
  end.

(** The transfer after its data has moved, and the registers of the answer: a
    blocking session has completed it, the other has started it. *)
Definition transferred (i : Z) (m : conn_mode) (len : Z) : transfer * answer :=
  match m with
  | Blocking => (Complete len, (RHI_SESS_SUCCESS, [i; RHI_HSS_IO_COMPLETE; len]))
  | NonBlocking => (Pending len, (RHI_SESS_SUCCESS, [i; RHI_HSS_IO_IN_PROGRESS; 0]))
  end.

Definition polled (i n : Z) : transfer * answer :=
  (Complete n, (RHI_SESS_SUCCESS, [i; RHI_HSS_IO_COMPLETE; n])).

Definition send (v : payload) (id ipa len : Z) (st : session) : session * answer :=
  match st with
  | Unconnected => (st, (RHI_SESS_INVALID_SESSION_ID, []))
  | Connected i m ph o c =>
      let put (x : transfer * answer) : session * answer := (Connected i m ph (fst x) c, snd x) in
      if negb (id =? i) then (st, (RHI_SESS_INVALID_SESSION_ID, []))
      else match ph with
           | Opening | Closing => (st, (RHI_SESS_INVALID_STATE_FOR_OPERATION, []))
           | Established =>
               if bad_buffer ipa then (st, (RHI_SESS_ACCESS_FAILED, []))
               else match o with
                    | Pending n => put (polled i n)
                    | _ =>
                        match v with
                        | NoMemory => (st, (RHI_SESS_ACCESS_FAILED, []))
                        | Refused => (st, (RHI_SESS_PEER_NOT_AVAILABLE,
                                           [i; RHI_HSS_CONNECTION_ESTABLISHED; 0]))
                        | Taken => put (transferred i m len)
                        end
                    end
           end
  end.

Definition receive (id ipa size off : Z) (st : session) : session * answer :=
  match st with
  | Unconnected => (st, (RHI_SESS_INVALID_SESSION_ID, []))
  | Connected i m ph o c =>
      let put (x : transfer * answer) : session * answer := (Connected i m ph o (fst x), snd x) in
      if negb (id =? i) then (st, (RHI_SESS_INVALID_SESSION_ID, []))
      else match ph with
           | Opening | Closing => (st, (RHI_SESS_INVALID_STATE_FOR_OPERATION, []))
           | Established =>
               if (ipa =? 0) && (size =? 0)
               then (st, (RHI_SESS_SUCCESS, [i; RHI_HSS_BUFFER_SIZE_DETERMINED; payload_len]))
               else if bad_buffer ipa then (st, (RHI_SESS_ACCESS_FAILED, []))
               else if size =? 0 then (st, (RHI_SESS_SUCCESS, [i; RHI_HSS_IO_COMPLETE; 0]))
               else if size - off <? payload_len then (st, (RHI_SESS_ACCESS_FAILED, []))
               else match c with
                    | Pending n => put (polled i n)
                    | _ => put (transferred i m payload_len)
                    end
           end
  end.

Definition step (fresh : Z) (v : payload) (r : request) (st : session) : session * answer :=
  match r with
  | Open id mode => open fresh id mode st
  | Close id => close id st
  | Send id ipa len _ => send v id ipa len st
  | Receive id ipa size off => receive id ipa size off st
  end.

(** A blocking session is established as soon as it is open, and its transfers
    complete at once. *)
Definition pending (t : transfer) : bool := match t with Pending _ => true | _ => false end.

Definition valid (st : session) : Prop :=
  match st with
  | Unconnected => True
  | Connected i m ph o c =>
      0 < i ∧ (m = Blocking → ph = Established ∧ pending o = false ∧ pending c = false)
  end.

(** A sequence of requests, with what the host finds on each: the last session and
    the answers.  A session that opens uses up one identifier. *)
Definition new (st st' : session) : Z :=
  match st, st' with Unconnected, Connected _ _ _ _ _ => 1 | _, _ => 0 end.

Fixpoint steps (fresh : Z) (l : list (payload * request)) (st : session) : session * list answer :=
  match l with
  | [] => (st, [])
  | (v, r) :: l =>
      let x := step fresh v r st in
      let y := steps (fresh + new st (fst x)) l (fst x) in
      (fst y, snd x :: snd y)
  end.

(** The registers of a request, from x0 on. *)
Definition regs (r : request) : list Z :=
  match r with
  | Open id mode => [RHI_SESSION_OPEN; id; mode]
  | Close id => [RHI_SESSION_CLOSE; id]
  | Send id ipa len off => [RHI_SESSION_SEND; id; ipa; len; off]
  | Receive id ipa size off => [RHI_SESSION_RECEIVE; id; ipa; size; off]
  end.

Lemma step_valid fresh v r st : 0 < fresh → valid st → valid (fst (step fresh v r st)).
Proof.
  intros Hf Hv. destruct st as [|i m ph o c].
  - destruct r; cbn; try done. unfold open, mode_of. repeat case_match; cbn; try done; naive_solver.
  - destruct Hv as [Hi Hb]. destruct r; cbn; unfold open, mode_of, close, send, receive;
      repeat case_match; cbn; try done; simplify_eq; naive_solver.
Qed.
End Session.

(** * The globals of the source as a session *)

Section Refine.
Context {W : Type} `{SharedRegion}.
Implicit Types s : rhi W.
Import Session.

Definition bytes s : gmap Z Z := h_mem (rh_host s).
Definition put_bytes (m : gmap Z Z) s : rhi W := set_rh_host (hset_mem m (rh_host s)) s.
Definition alloc_of s : alloc_state := g_alloc (h_gs (rh_host s)).

(** [realm->run[0]]. *)
Definition has_run (run : Z) s : Prop := r_run (h_realm (rh_host s)) !! 0%nat = Some run.

Definition rep_transfer (t : transfer) : rhi_session_io_state_ts :=
  mk_io_state (transfer_code t) (transfer_len t).

Definition session_rep (a : session) s : Prop :=
  valid a ∧
  match a with
  | Unconnected =>
      g_rhi_sess s = mk_session 0 0 false 0 ∧
      g_rhi_send_state s = mk_io_state 0 0 ∧ g_rhi_recv_state s = mk_io_state 0 0
  | Connected i m ph o c =>
      g_rhi_sess s = mk_session i (phase_code ph) true (mode_code m) ∧
      g_rhi_send_state s = rep_transfer o ∧ g_rhi_recv_state s = rep_transfer c
  end.

(** The registers [i], [i + 1], ... of the enter structure. *)
Fixpoint write_regs (run i : Z) (l : list Z) (m : gmap Z Z) : gmap Z Z :=
  match l with
  | [] => m
  | v :: l => write_regs run (i + 1) l (<[enter_gpr run i := v]> m)
  end.

(** The identifiers used up by a request with next session [a]. *)
Definition issued s (a : session) : Z :=
  if id_in_use (g_rhi_sess s) then 0 else match a with Connected _ _ _ _ _ => 1 | Unconnected => 0 end.

(** Everything but the session, host memory and the free part of the heap. *)
Record same_rest (a : session) s s' : Prop := {
  sr_world : h_world (rh_host s') = h_world (rh_host s);
  sr_realm : h_realm (rh_host s') = h_realm (rh_host s);
  sr_log : h_log (rh_host s') = h_log (rh_host s);
  sr_ids : next_session_id s' = next_session_id s + issued s a;
  sr_heap : alloc_wf (alloc_of s) → alloc_wf (alloc_of s');
  sr_tracker : h_gs (rh_host s') = set_alloc (alloc_of s') (h_gs (rh_host s));
  sr_fal_offset : g_fal_offset s' = g_fal_offset s;
  sr_fal_log : fal_log s' = fal_log s;
  sr_fal_init : fal_init s' = fal_init s
}.

(** Where a request may write besides the registers of the answer: a send fills
    its copies on the free part of the heap, a receive 64 bytes of the buffer. *)
Definition touched (r : request) s (a : Z) : Prop :=
  match r with
  | Open _ _ | Close _ => False
  | Send _ _ _ _ => heap_base (alloc_of s) ≤ a
  | Receive _ _ _ off => u64 (shared_buffer + off) ≤ a < u64 (shared_buffer + off) + payload_len
  end.

Definition handled (run : Z) (r : request) s (x : session * answer) (v : Z) (s' : rhi W) : Prop :=
  v = fst (snd x) ∧ session_rep (fst x) s' ∧ same_rest (fst x) s s' ∧
  ∃ m, (∀ a, ¬ touched r s a → m !! a = bytes s !! a) ∧
       bytes s' = write_regs run 1 (snd (snd x)) m.

Lemma run0_run s run : has_run run s → run0 s = Ok run s.
Proof.
  intros Hr. unfold run0, on_host, zoom, arr_get, realm, gets, bind.
  change (Z.to_nat 0) with 0%nat. rewrite Hr. by destruct s.
Qed.

Lemma set_enter_gpr_run s run i v :
  has_run run s → set_enter_gpr i v s = Ok tt (put_bytes (<[enter_gpr run i := v]> (bytes s)) s).
Proof. intros Hr. unfold set_enter_gpr. by rewrite (bind_step _ _ _ _ _ (run0_run s run Hr)). Qed.

Lemma get_exit_gpr_run s run i :
  has_run run s → get_exit_gpr i s = Ok (default 0 (bytes s !! exit_gpr run i)) s.
Proof.
  intros Hr. unfold get_exit_gpr. rewrite (bind_step _ _ _ _ _ (run0_run s run Hr)). by destruct s.
Qed.

Lemma reply_session_run s run :
  has_run run s →
  reply_session s =
    Ok tt (put_bytes (write_regs run 1 [session_id (g_rhi_sess s); proto_state (g_rhi_sess s)] (bytes s)) s).
Proof.
  intros Hr. unfold reply_session. rewrite (bind_step _ _ s (g_rhi_sess s) s) by done.
  rewrite (bind_step _ _ _ _ _ (set_enter_gpr_run s run 1 _ Hr)). by erewrite set_enter_gpr_run.
Qed.

Lemma reply_io_run s run st len :
  has_run run s →
  reply_io st len s =
    Ok tt (put_bytes (write_regs run 1 [session_id (g_rhi_sess s); st; len] (bytes s)) s).
Proof.
  intros Hr. unfold reply_io. rewrite (bind_step _ _ s (g_rhi_sess s) s) by done.
  rewrite (bind_step _ _ _ _ _ (set_enter_gpr_run s run 1 _ Hr)).
  erewrite bind_step by by apply set_enter_gpr_run. by erewrite set_enter_gpr_run.
Qed.

(** [same_rest], member by member, from an equation for the session. *)
Ltac rest_tac s :=
  constructor; try done; try (by destruct s as [[? [] ? ? ?]]);
  unfold issued; match goal with E : g_rhi_sess s = _ |- _ => rewrite E end; cbn; lia.

(** A request that fails leaves everything as it was. *)
Lemma handled_fail run r s a e : session_rep a s → handled run r s (a, (e, [])) e s.
Proof.
  intros Hr. split; [done|split; [done|]]. split; [|by exists (bytes s)].
  destruct Hr as [_ Hr]. cbn [fst]. destruct a; destruct Hr as (Es & _ & _); rest_tac s.
Qed.

(** A request that answers, without touching other memory. *)
Lemma handled_reply run r s a e regs s' :
  session_rep a s' → same_rest a s s' → bytes s' = write_regs run 1 regs (bytes s) →
  handled run r s (a, (e, regs)) e s'.
Proof. intros Hr Hs Hb. split; [done|split; [done|split; [done|]]]. by exists (bytes s). Qed.

Lemma start_session_run s run st mode :
  has_run run s → 0 < next_session_id s < 2 ^ 64 - 1 →
  start_session st mode s =
    Ok RHI_SESS_SUCCESS
      (put_bytes (write_regs run 1 [next_session_id s; st] (bytes s))
        (set_recv (mk_io_state 2 0) (set_send (mk_io_state 2 0)
          (set_sess (mk_session (next_session_id s) st true mode)
            (set_next_id (next_session_id s + 1) s))))).
Proof.
  intros Hr Hn. unfold start_session, pal_rhi_alloc_session_id. rewrite bind_assoc.
  rewrite (bind_step _ _ s (next_session_id s) s) by done. rewrite bind_assoc.
  rewrite (bind_step _ _ s tt (set_next_id (next_session_id s + 1) s)).
  2: { unfold modify. do 2 f_equal. unfold u64. by rewrite Z.mod_small by lia. }
  rewrite bind_ret_l. repeat (erewrite bind_step by done).
  erewrite bind_step by by apply reply_session_run. done.
Qed.

Lemma end_session_run s run e :
  has_run run s →
  end_session e s =
    Ok RHI_SESS_SUCCESS
      (set_recv (mk_io_state 0 0) (set_send (mk_io_state 0 0) (set_sess (mk_session 0 0 false 0)
        (put_bytes (write_regs run 1 [session_id e; 0] (bytes s)) s)))).
Proof.
  intros Hr. unfold end_session. erewrite bind_step by done.
  erewrite bind_step by by apply reply_session_run. by repeat (erewrite bind_step by done).
Qed.

(** A session that exists is known by its identifier only. *)
Lemma unknown_connected i ph m id :
  0 < i → unknown_session (mk_session i ph true m) id = negb (id =? i).
Proof. intros Hi. unfold unknown_session. cbn. zb; done || lia. Qed.

Lemma mode_of_other mode s :
  mode_of mode = None →
  ∀ id, val_host_rhi_session_open id mode s = Ok RHI_SESS_CONNECTION_TYPE_NOT_SUPPORTED s.
Proof.
  unfold mode_of. intros Hm id. destruct (Z.eqb_spec mode 1); [done|]. destruct (Z.eqb_spec mode 2); [done|].
  unfold val_host_rhi_session_open.
  destruct (negb _); [done|]. destruct (_ =? _); [done|]. rewrite (bind_step _ _ s (g_rhi_sess s) s) by done.
  change RHI_CONN_MODE_BLOCKING with 1. change RHI_CONN_MODE_NON_BLOCKING with 2. by zb.
Qed.

Lemma mode_of_inv mode m : mode_of mode = Some m → mode = mode_code m.
Proof. unfold mode_of. zb; intros; simplify_eq; done. Qed.

Lemma open_blocking id s :
  val_host_rhi_session_open id 1 s =
    (if negb (proto_state (g_rhi_sess s) =? 0) then ret RHI_SESS_INVALID_STATE_FOR_OPERATION
     else if negb (id =? 0) || id_in_use (g_rhi_sess s) then ret RHI_SESS_INVALID_SESSION_ID
     else start_session 2 1) s.
Proof. reflexivity. Qed.

Lemma open_nonblocking id s :
  val_host_rhi_session_open id 2 s =
    (if proto_state (g_rhi_sess s) =? 0 then
       if negb (id =? 0) || id_in_use (g_rhi_sess s) then ret RHI_SESS_INVALID_SESSION_ID
       else start_session 1 2
     else if proto_state (g_rhi_sess s) =? 1 then
       if unknown_session (g_rhi_sess s) id then ret RHI_SESS_INVALID_SESSION_ID
       else
         modify (set_sess (sess_proto 2 (g_rhi_sess s))) ;; reply_session ;; ret RHI_SESS_SUCCESS
     else ret RHI_SESS_INVALID_STATE_FOR_OPERATION) s.
Proof. reflexivity. Qed.

Lemma opened_run s run v id m :
  session_rep Unconnected s → has_run run s → 0 < next_session_id s < 2 ^ 64 - 1 →
  run_to (start_session (match m with Blocking => 2 | NonBlocking => 1 end) (mode_code m)) s
    (handled run (Open id v) s (opened (next_session_id s) m)).
Proof.
  intros (_ & Es & _) Hr Hn. eapply run_to_eq; [by apply start_session_run|].
  apply handled_reply; [|rest_tac s|by destruct m].
  split; [split; [lia|by intros ->]|]. by destruct m.
Qed.

Lemma set_phase_run s run r i ph ph' o c :
  session_rep (Connected i NonBlocking ph o c) s → has_run run s →
  run_to (modify (set_sess (sess_proto (phase_code ph') (mk_session i (phase_code ph) true 2))) ;;
          reply_session ;; ret RHI_SESS_SUCCESS) s
    (handled run r s (Connected i NonBlocking ph' o c, (RHI_SESS_SUCCESS, [i; phase_code ph']))).
Proof.
  intros [[Hi _] (Es & Eo & Ec)] Hr. eapply run_to_step; [done|].
  eapply run_to_step; [by apply reply_session_run|]. apply run_to_ret.
  apply handled_reply; [|rest_tac s|done]. by split.
Qed.

Lemma open_run s run a v id mode :
  session_rep a s → has_run run s → 0 < next_session_id s < 2 ^ 64 - 1 →
  run_to (val_host_rhi_session_open id mode) s
    (handled run (Open id mode) s (step (next_session_id s) v (Open id mode) a)).
Proof.
  intros Ha Hr Hn. cbn [step]. unfold open.
  destruct (mode_of mode) as [m|] eqn:Em.
  2: { eapply run_to_eq; [by apply mode_of_other|]. by apply handled_fail. }
  apply mode_of_inv in Em as ->. pose proof Ha as [Hv Hrep].
  destruct a as [|i m' ph o c].
  - destruct Hrep as (Es & _ & _). unfold run_to. destruct m; cbn [mode_code].
    + rewrite open_blocking, Es. cbn. rewrite orb_false_r.
      destruct (id =? 0); [by apply (opened_run s run 1 id Blocking)|by apply handled_fail].
    + rewrite open_nonblocking, Es. cbn. rewrite orb_false_r.
      destruct (id =? 0); [by apply (opened_run s run 2 id NonBlocking)|by apply handled_fail].
  - destruct Hrep as (Es & Eo & Ec), Hv as [Hi Hb]. unfold run_to. destruct m; cbn [mode_code].
    + rewrite open_blocking, Es. destruct ph; by apply handled_fail.
    + rewrite open_nonblocking, Es, unknown_connected by done. destruct ph; [|by apply handled_fail..].
      destruct (id =? i); [|by apply handled_fail].
      destruct m'; [naive_solver|].
      by apply (set_phase_run s run (Open id 2) i Opening Established o c).
Qed.

Lemma close_run s run a v id :
  session_rep a s → has_run run s →
  run_to (val_host_rhi_session_close id) s
    (handled run (Close id) s (step (next_session_id s) v (Close id) a)).
Proof.
  intros Ha Hr. cbn [step]. unfold close, val_host_rhi_session_close. pose proof Ha as [Hv Hrep].
  eapply run_to_step; [done|]. destruct a as [|i m ph o c].
  { destruct Hrep as (Es & _ & _). rewrite Es. by apply handled_fail. }
  destruct Hrep as (Es & Eo & Ec), Hv as [Hi Hb]. rewrite Es, unknown_connected by done.
  destruct (id =? i); cbn [negb]; [|by apply handled_fail].
  assert (∀ e, session_id e = i →
    run_to (end_session e) s (handled run (Close id) s (Unconnected, (RHI_SESS_SUCCESS, [i; 0])))) as Hend.
  { intros e Ee. eapply run_to_eq; [by apply end_session_run|]. rewrite Ee.
    apply handled_reply; [done|rest_tac s|done]. }
  destruct m, ph; try (by apply handled_fail); try (by apply Hend).
  by apply (set_phase_run s run (Close id) i Established Closing o c).
Qed.

(** * Payloads *)

Definition oob (f : fault) : Prop := f = OutOfBounds.

Lemma runs_on_bytes {A} (m : M (gmap Z Z) A) s (P : A → gmap Z Z → Prop) :
  runs oob m (bytes s) P → runs oob (on_bytes m) s (λ a s', ∃ b, P a b ∧ s' = put_bytes b s).
Proof.
  unfold on_bytes, on_host, zoom, runs, bytes. destruct (m (h_mem (rh_host s))); intros Hm; [|done..].
  by eexists.
Qed.

(** Only the [n] bytes from [p] on change. *)
Definition only (p n : Z) (m m' : gmap Z Z) : Prop := ∀ a, ¬ (p ≤ a < p + n) → m' !! a = m !! a.

Lemma only_refl p n m : only p n m m.
Proof. done. Qed.

Lemma store8_only p n q v m :
  p ≤ q < p + n → runs oob (Mem.store8 q v) m (λ _ m', only p n m m').
Proof.
  intros Hq. unfold runs, Mem.store8. destruct (m !! q); [|exact eq_refl]. intros a Ha. apply lookup_insert_ne. lia.
Qed.

Lemma load8_keeps q m : runs oob (Mem.load8 q) m (λ _ m', m' = m).
Proof. unfold runs, Mem.load8. destruct (m !! q); exact eq_refl. Qed.

Lemma fill_pattern_only p n m :
  runs oob (fill_pattern p n) m (λ _ m', only p n m m').
Proof.
  unfold fill_pattern. eapply runs_bind.
  - apply (for_upto_runs oob (only p n m)); [|done]. intros i m1 Hi Hm1.
    eapply runs_bind; [by apply (store8_only p n); lia|]. intros u2 m2 Hm2. apply runs_ret.
    intros a Ha. by rewrite Hm2, Hm1.
  - intros ? m' Hm'. by apply runs_ret.
Qed.

Lemma memcpy_only d q n m :
  runs oob (Mem.val_memcpy d q n) m (λ _ m', only d n m m').
Proof.
  unfold Mem.val_memcpy, Mem.pal_memcpy, Mem.memcpy.
  eapply (runs_bind _ _ _ _ (λ _ m', only d n m m')); [|intros ? m' Hm'; by apply runs_ret].
  destruct (Z.leb_spec 0 n); [|by replace (Z.to_nat n) with 0%nat by lia].
  assert (∀ k d0 q0 m0, d ≤ d0 → d0 + Z.of_nat k ≤ d + n →
    runs oob (Mem.memcpy_loop k d0 q0) m0 (λ _ m', only d n m0 m')) as Hl; [|apply Hl; lia].
  induction k as [|k IH]; intros d0 q0 m0 Hd Hk; cbn [Mem.memcpy_loop]; [by apply runs_ret|].
  eapply runs_bind; [apply load8_keeps|]. intros c ? ->. eapply runs_bind; [by apply (store8_only d n); lia|]. intros u1 m1 H1.
  eapply runs_mono; [apply IH; lia|]. intros u2 m2 H2 a Ha. by rewrite H2, H1.
Qed.

Lemma memcmp_keeps p q n m : runs oob (Mem.val_memcmp p q n) m (λ _ m', m' = m).
Proof.
  unfold Mem.val_memcmp, Mem.pal_memcmp, Mem.memcmp. generalize (Z.to_nat n). intros k. revert p q.
  induction k as [|k IH]; intros p q; cbn [Mem.memcmp_loop]; [done|].
  do 2 (eapply runs_bind; [apply load8_keeps|]; intros ? ? ->).
  destruct (truthy _); [done|apply IH].
Qed.

(** The allocator hands out what lies behind its base, and moves nothing else. *)
Lemma mem_alloc_run size s :
  alloc_wf (alloc_of s) → is_u64 size →
  ∃ p a, on_host (mem_alloc_h PAGE_SIZE size) s =
           Ok p (set_rh_host (hset_gs (set_alloc a (h_gs (rh_host s))) (rh_host s)) s) ∧
         (p = 0 ∨ heap_base (alloc_of s) ≤ p) ∧ alloc_wf a ∧ heap_base (alloc_of s) ≤ heap_base a.
Proof.
  intros Hwf Hs. set (r := val_host_mem_alloc PAGE_SIZE size (alloc_of s)).
  exists (fst r), (snd r). split.
  { unfold on_host, mem_alloc_h, tracker, zoom, allocator. fold (alloc_of s). fold r. by destruct r. }
  subst r. unfold val_host_mem_alloc. destruct (size <=? 0); [cbn; by split; [left|]|].
  change (val_is_power_of_2 (u32 PAGE_SIZE)) with true. cbn [negb].
  destruct Hwf as [Hb Ht Hu].
  assert (heap_base (alloc_of s) ≤ ADDR_ALIGN (heap_base (alloc_of s)) PAGE_SIZE) as Hal.
  { destruct (ADDR_ALIGN_bounds (heap_base (alloc_of s)) 12) as [Hr _]; [lia..|].
    change (2 ^ 12) with PAGE_SIZE in Hr. lia. }
  unfold mem_alloc. destruct (Z.ltb_spec (u64 (heap_top (alloc_of s) - heap_base (alloc_of s)))
    (u64 (u64 (size + u64 (PAGE_SIZE - 1)) + u64 (ADDR_ALIGN (heap_base (alloc_of s)) PAGE_SIZE - heap_base (alloc_of s)))))
    as [Hlt|Hge]; cbn [fst snd]; [by split; [left|]|].
  split; [by right|]. rewrite (u64_id (heap_top _ - heap_base _)) in Hge by (unfold is_u64; lia).
  match type of Hge with u64 ?x ≤ _ => assert (0 ≤ u64 x < 2 ^ 64) as Hr by (apply Z.mod_pos_bound; lia) end.
  rewrite (u64_id (heap_base _ + _)) by (unfold is_u64; lia). cbn. split; [split; cbn; lia|lia].
Qed.

(** * Sending and receiving *)

Definition moved_code (m : conn_mode) : Z := match m with Blocking => 4 | NonBlocking => 3 end.
Definition moved_len (m : conn_mode) (len : Z) : Z := match m with Blocking => len | NonBlocking => 0 end.

Lemma receive_payload_run s run i m o c id ipa size off :
  session_rep (Connected i m Established o c) s → has_run run s →
  runs oob (receive_payload (moved_code m) (moved_len m payload_len) off) s
    (handled run (Receive id ipa size off) s
       (Connected i m Established o (fst (transferred i m payload_len)), snd (transferred i m payload_len))).
Proof.
  intros [[Hi Hb] (Es & Eo & Ec)] Hr. unfold receive_payload.
  eapply runs_bind; [apply runs_on_bytes, fill_pattern_only|]. intros ? s1 (m1 & Hm1 & ->).
  eapply runs_step; [done|]. eapply runs_step; [by apply reply_io_run|]. apply runs_ret.
  cbn. rewrite Es. split; [by destruct m|]. split; [|split].
  - split; [split; [done|by destruct m; naive_solver]|]. cbn. split; [done|]. by destruct m.
  - rest_tac s.
  - exists m1. split; [|by destruct m]. intros x Hx. apply Hm1. exact Hx.
Qed.

(** The answer to a call that finds the transfer under way. *)
Lemma polled_recv_run s run i o n r :
  session_rep (Connected i NonBlocking Established o (Pending n)) s → has_run run s →
  run_to (modify (set_recv (mk_io_state 4 n)) ;; reply_io 4 n ;; ret RHI_SESS_SUCCESS) s
    (handled run r s (Connected i NonBlocking Established o (Complete n), snd (polled i n))).
Proof.
  intros [[Hi Hb] (Es & Eo & Ec)] Hr. eapply run_to_step; [done|].
  eapply run_to_step; [by apply reply_io_run|]. apply run_to_ret.
  apply handled_reply; [|rest_tac s|cbn; by rewrite Es]. by split.
Qed.

Lemma receive_run s run a v id ipa size off :
  session_rep a s → has_run run s →
  runs oob (val_host_rhi_session_receive id ipa size off) s
    (handled run (Receive id ipa size off) s (step (next_session_id s) v (Receive id ipa size off) a)).
Proof.
  intros Ha Hr. cbn [step]. unfold receive, val_host_rhi_session_receive. pose proof Ha as [Hv Hrep].
  eapply runs_step; [done|]. destruct a as [|i m ph o c].
  { destruct Hrep as (Es & _ & _). rewrite Es. by apply handled_fail. }
  destruct Hrep as (Es & Eo & Ec), Hv as [Hi Hb]. rewrite Es, unknown_connected by done.
  destruct (id =? i); cbn [negb]; [|by apply handled_fail].
  destruct ph; [by apply handled_fail| |by apply handled_fail]. change (no_io _) with false. cbn match.
  destruct (_ && _).
  { eapply runs_step; [by apply reply_io_run|]. apply runs_ret.
    apply handled_reply; [done|rest_tac s|cbn; by rewrite Es]. }
  destruct (bad_buffer ipa); [by apply handled_fail|].
  destruct (size =? 0).
  { eapply runs_step; [by apply reply_io_run|]. apply runs_ret.
    apply handled_reply; [done|rest_tac s|cbn; by rewrite Es]. }
  replace ((size <=? off) || (size - off <? payload_len)) with (size - off <? payload_len)
    by (unfold payload_len; zb; done || lia).
  destruct (size - off <? payload_len); [by apply handled_fail|].
  eapply runs_step; [done|]. rewrite Ec. destruct m.
  - destruct c; [|naive_solver|]; by eapply (receive_payload_run s run i Blocking o _ id ipa size off).
  - destruct c as [|n|n]; [|apply runs_of_run_to; by apply polled_recv_run|];
      by eapply (receive_payload_run s run i NonBlocking o _ id ipa size off).
Qed.

Lemma polled_send_run s run i c n r :
  session_rep (Connected i NonBlocking Established (Pending n) c) s → has_run run s →
  run_to (modify (set_send (mk_io_state 4 n)) ;; reply_io 4 n ;; ret RHI_SESS_SUCCESS) s
    (handled run r s (Connected i NonBlocking Established (Complete n) c, snd (polled i n))).
Proof.
  intros [[Hi Hb] (Es & Eo & Ec)] Hr. eapply run_to_step; [done|].
  eapply run_to_step; [by apply reply_io_run|]. apply run_to_ret.
  apply handled_reply; [|rest_tac s|cbn; by rewrite Es]. by split.
Qed.

Definition bump (a : alloc_state) s : rhi W :=
  set_rh_host (hset_gs (set_alloc a (h_gs (rh_host s))) (rh_host s)) s.

(** The end of a send, once the payload has been compared. *)
Definition send_end (new_state reply_len length d : Z) : M (rhi W) Z :=
  if truthy d then
    reply_io RHI_HSS_CONNECTION_ESTABLISHED 0 ;;
    let* e := gets g_rhi_sess in
    modify (set_sess (sess_proto RHI_HSS_CONNECTION_ESTABLISHED e)) ;;
    ret RHI_SESS_PEER_NOT_AVAILABLE
  else
    modify (set_send (mk_io_state new_state length)) ;;
    reply_io new_state reply_len ;;
    ret RHI_SESS_SUCCESS.

Definition verdict (d : Z) : payload := if truthy d then Refused else Taken.

Lemma send_end_run s run i m o c id ipa length off d a2 m' :
  session_rep (Connected i m Established o c) s → has_run run s → pending o = false →
  alloc_wf a2 → (∀ x, ¬ heap_base (alloc_of s) ≤ x → m' !! x = bytes s !! x) →
  run_to (send_end (moved_code m) (moved_len m length) length d) (put_bytes m' (bump a2 s))
    (handled run (Send id ipa length off) s
       (match verdict d with
        | Taken => (Connected i m Established (fst (transferred i m length)) c, snd (transferred i m length))
        | _ => (Connected i m Established o c, (RHI_SESS_PEER_NOT_AVAILABLE, [i; 2; 0]))
        end)).
Proof.
  intros [[Hi Hb] (Es & Eo & Ec)] Hr Hp Hw2 Hm. unfold send_end, verdict. destruct (truthy d).
  - eapply run_to_step; [by apply reply_io_run|]. do 2 (eapply run_to_step; [done|]). apply run_to_ret.
    cbn. rewrite Es. split; [done|split; [|split]].
    + by split.
    + rest_tac s.
    + by exists m'.
  - eapply run_to_step; [done|]. eapply run_to_step; [by apply reply_io_run|]. apply run_to_ret.
    cbn. rewrite Es. split; [by destruct m|split; [|split]].
    + split; [split; [done|destruct m; naive_solver]|]. cbn. split; [done|]. by destruct m.
    + rest_tac s.
    + exists m'. split; [done|]. by destruct m.
Qed.

Lemma send_payload_run s run i m o c id ipa length off :
  session_rep (Connected i m Established o c) s → has_run run s → pending o = false →
  alloc_wf (alloc_of s) → is_u64 length →
  runs oob (send_payload (moved_code m) (moved_len m length) length off) s (λ v s',
    ∃ p, handled run (Send id ipa length off) s
      (match p with
       | NoMemory => (Connected i m Established o c, (RHI_SESS_ACCESS_FAILED, []))
       | Refused => (Connected i m Established o c, (RHI_SESS_PEER_NOT_AVAILABLE, [i; 2; 0]))
       | Taken => (Connected i m Established (fst (transferred i m length)) c, snd (transferred i m length))
       end) v s').
Proof.
  intros Ha Hr Hp Hw Hl. unfold send_payload. pose proof Ha as [_ (Es & _ & _)].
  destruct (mem_alloc_run length s Hw Hl) as (p & a1 & E1 & Hp1 & Hw1 & Hb1).
  eapply runs_step; [exact E1|].
  destruct (mem_alloc_run length (bump a1 s) Hw1 Hl) as (e & a2 & E2 & Hp2 & Hw2 & Hb2).
  eapply runs_step; [exact E2|]. clear E1 E2.
  change (heap_base (alloc_of (bump a1 s))) with (heap_base a1) in *.
  change (set_rh_host _ (bump a1 s)) with (bump a2 s).
  destruct (negb (truthy p) || negb (truthy e)) eqn:Ez.
  { apply runs_ret. exists NoMemory. split; [done|split; [exact Ha|split]].
    - rest_tac s.
    - by exists (bytes s). }
  apply orb_false_iff in Ez as [Zp Ze]. unfold truthy in Zp, Ze.
  eapply runs_bind; [apply runs_on_bytes, memcpy_only|]. intros ? s1 (m1 & H1 & ->).
  eapply runs_bind; [apply runs_on_bytes, fill_pattern_only|]. intros ? s2 (m2 & H2 & ->).
  eapply runs_bind; [apply runs_on_bytes, memcmp_keeps|]. intros d s3 (m3 & -> & ->).
  apply runs_of_run_to. eapply run_to_mono.
  - apply (send_end_run s run i m o c id ipa length off d a2 m2 Ha Hr Hp Hw2).
    intros x Hx. zb; try done. rewrite H2 by lia. apply H1. lia.
  - intros v s' Hh. exists (verdict d). unfold verdict in *. by destruct (truthy d).
Qed.

Lemma send_run s run a id ipa length off :
  session_rep a s → has_run run s → alloc_wf (alloc_of s) → is_u64 length →
  runs oob (val_host_rhi_session_send id ipa length off) s (λ v s',
    ∃ p, handled run (Send id ipa length off) s (step (next_session_id s) p (Send id ipa length off) a) v s').
Proof.
  intros Ha Hr Hw Hl. cbn [step]. unfold send, val_host_rhi_session_send. pose proof Ha as [Hv Hrep].
  assert (∀ e s', handled run (Send id ipa length off) s (a, (e, [])) e s → 
                  runs oob (ret e) s (λ v s', ∃ p : payload, handled run (Send id ipa length off) s (a, (e, [])) v s'))
    as Hf by (intros; apply runs_ret; by exists Taken).
  eapply runs_step; [done|]. destruct a as [|i m ph o c].
  { destruct Hrep as (Es & _ & _). rewrite Es. apply Hf; [done|by apply handled_fail]. }
  destruct Hrep as (Es & Eo & Ec), Hv as [Hi Hb]. rewrite Es, unknown_connected by done.
  destruct (id =? i); cbn [negb]; [|apply Hf; [done|by apply handled_fail]].
  destruct ph; [apply Hf; [done|by apply handled_fail]| |apply Hf; [done|by apply handled_fail]].
  change (no_io _) with false. cbn match.
  destruct (bad_buffer ipa); [apply Hf; [done|by apply handled_fail]|].
  eapply runs_step; [done|]. rewrite Eo.
  destruct o as [|n|n].
  - pose proof (send_payload_run s run i m Ready c id ipa length off Ha Hr eq_refl Hw Hl) as Hs.
    destruct m; exact Hs.
  - destruct m; [naive_solver|]. eapply runs_mono.
    { apply runs_of_run_to. by apply (polled_send_run s run i c n (Send id ipa length off)). }
    intros v s' Hh. by exists Taken.
  - pose proof (send_payload_run s run i m (Complete n) c id ipa length off Ha Hr eq_refl Hw Hl) as Hs.
    destruct m; exact Hs.
Qed.

(** * The dispatcher *)

(** The request in the registers of the exit structure. *)
Definition requests (run : Z) (m : gmap Z Z) (r : request) : Prop :=
  ∀ k v, regs r !! k = Some v → m !! exit_gpr run (Z.of_nat k) = Some v.

(** A length is a register. *)
Definition request_ok (r : request) : Prop :=
  match r with Send _ _ len _ => is_u64 len | _ => True end.

(** Only a payload outside the memory in use stops the host. *)
Definition may_stop (r : request) (f : fault) : Prop :=
  match r with Open _ _ | Close _ => False | Send _ _ _ _ | Receive _ _ _ _ => f = OutOfBounds end.

(** The answer in the registers of the enter structure. *)
Definition answered (run : Z) (m m' : gmap Z Z) (a : answer) : Prop :=
  m' = <[enter_gpr run 0 := fst a]> (write_regs run 1 (snd a) m).

Lemma request_gpr s run r k v :
  has_run run s → requests run (bytes s) r → regs r !! k = Some v → get_exit_gpr (Z.of_nat k) s = Ok v s.
Proof. intros Hr Hq Hk. rewrite (get_exit_gpr_run s run) by done. by rewrite (Hq _ _ Hk). Qed.

Definition dispatched (run : Z) (r : request) (a : session) s (v : Z) (s' : rhi W) : Prop :=
  v = VAL_SUCCESS ∧ ∃ p,
    let x := step (next_session_id s) p r a in
    session_rep (fst x) s' ∧ same_rest (fst x) s s' ∧
    ∃ m, (∀ a, ¬ touched r s a → m !! a = bytes s !! a) ∧ answered run m (bytes s') (snd x).

(** The dispatcher stores the status of the handler in x0. *)
Lemma answer_run F run r a s (m : M (rhi W) Z) :
  has_run run s →
  runs F m s (λ v s', ∃ p, handled run r s (step (next_session_id s) p r a) v s') →
  runs F (let* v := m in set_enter_gpr 0 v ;; ret VAL_SUCCESS) s (dispatched run r a s).
Proof.
  intros Hr Hm. eapply runs_bind; [exact Hm|]. intros v s1 (p & -> & Hrep & Hs & m1 & Hm1 & Hb).
  eapply runs_step; [apply set_enter_gpr_run; unfold has_run; by rewrite (sr_realm _ _ _ Hs)|].
  apply runs_ret. split; [done|]. exists p. split; [exact Hrep|]. split.
  - destruct Hs. by constructor.
  - exists m1. split; [done|]. unfold answered. by rewrite <- Hb.
Qed.

Lemma runs_found {A} F (m : M (rhi W) A) s (P : payload → A → rhi W → Prop) :
  runs F m s (P Taken) → runs F m s (λ v s', ∃ p, P p v s').
Proof. intros Hm. eapply runs_mono; [exact Hm|]. intros v s' Hp. by exists Taken. Qed.

Ltac pick_fid :=
  repeat lazymatch goal with
  | |- runs _ (if ?a =? ?b then _ else _) _ _ =>
      let r := eval vm_compute in (a =? b) in change (a =? b) with r; cbn match
  end.

Lemma dispatch_run s run a r :
  session_rep a s → has_run run s → 0 < next_session_id s < 2 ^ 64 - 1 →
  alloc_wf (alloc_of s) → request_ok r → requests run (bytes s) r →
  runs (may_stop r) (val_host_rhi_dispatch true) s (dispatched run r a s).
Proof.
  intros Ha Hr Hn Hw Hok Hq. unfold val_host_rhi_dispatch. cbn [negb].
  pose proof (request_gpr s run r) as Hg.
  destruct r as [id mode|id|id ipa len off|id ipa size off];
    (eapply runs_step; [by apply (Hg 0%nat)|]); pick_fid;
    (eapply runs_step; [by apply (Hg 1%nat)|]);
    try (eapply runs_step; [by apply (Hg 2%nat)|]);
    try (eapply runs_step; [by apply (Hg 3%nat)|]; eapply runs_step; [by apply (Hg 4%nat)|]);
    apply answer_run; try done.
  - apply runs_found, runs_of_run_to. by apply open_run.
  - apply runs_found, runs_of_run_to. by apply close_run.
  - by apply send_run.
  - apply runs_found. by apply receive_run.
Qed.

(** * Sequences of requests *)

(** What the Realm and the RMM leave in host memory before each call of the
    dispatcher, and the memory after it. *)
Fixpoint serve (l : list (gmap Z Z)) : M (rhi W) (list (gmap Z Z)) :=
  match l with
  | [] => ret []
  | m :: l =>
      modify (put_bytes m) ;;
      val_host_rhi_dispatch true ;;
      let* m' := gets bytes in
      let* ms := serve l in
      ret (m' :: ms)
  end.

(** The status in x0 and the registers from x1 on are those of the answer. *)
Definition shows (run : Z) (m : gmap Z Z) (a : answer) : Prop :=
  m !! enter_gpr run 0 = Some (fst a) ∧
  ∀ k v, snd a !! k = Some v → m !! enter_gpr run (1 + Z.of_nat k) = Some v.

Lemma write_regs_out run i l m a :
  (∀ k, i ≤ k → a ≠ enter_gpr run k) → write_regs run i l m !! a = m !! a.
Proof.
  revert i m. induction l as [|v l IH]; intros i m Ha; [done|]. cbn.
  rewrite IH by (intros k Hk; apply Ha; lia). apply lookup_insert_ne. intros E. by apply (Ha i).
Qed.

Lemma write_regs_in run i l m k v :
  l !! k = Some v → write_regs run i l m !! enter_gpr run (i + Z.of_nat k) = Some v.
Proof.
  revert i m k. induction l as [|w l IH]; intros i m k Hk; [done|]. destruct k as [|k]; cbn in *.
  - simplify_eq. rewrite write_regs_out by (unfold enter_gpr; lia). rewrite Z.add_0_r. apply lookup_insert_eq.
  - replace (i + Z.of_nat (S k)) with (i + 1 + Z.of_nat k) by lia. by apply IH.
Qed.

Lemma answered_shows run m m' a : answered run m m' a → shows run m' a.
Proof.
  intros ->. split; [apply lookup_insert_eq|]. intros k v Hk.
  rewrite lookup_insert_ne by (unfold enter_gpr; lia). by apply write_regs_in.
Qed.

Lemma issued_new a a' s : session_rep a s → issued s a' = new a a'.
Proof. intros [_ Hr]. unfold issued. destruct a; destruct Hr as [-> _]; by destruct a'. Qed.

Lemma put_bytes_rep a m s : session_rep a s → session_rep a (put_bytes m s).
Proof. done. Qed.

(** C13. The host session of the Realm Host Interface follows the protocol
    [Session]: whatever the Realm asks for, in any order, and whatever it and the
    RMM leave in host memory between the calls, the dispatcher answers each request
    with the status and registers of the protocol's step and moves the globals of
    the source to the protocol's next state.  Only a payload outside the memory in
    use stops it. *)
Theorem session_refines run l rs s a :
  session_rep a s → has_run run s → alloc_wf (alloc_of s) →
  0 < next_session_id s → next_session_id s + Z.of_nat (length l) < 2 ^ 64 - 1 →
  Forall2 (λ m r, requests run m r ∧ request_ok r) l rs →
  runs (λ f, Exists (λ r, may_stop r f) rs) (serve l) s (λ ms s', ∃ ps,
    length ps = length rs ∧
    let x := steps (next_session_id s) (zip ps rs) a in
    session_rep (fst x) s' ∧ Forall2 (shows run) ms (snd x)).
Proof.
  intros Ha Hr Hw Hn Hl Hq. revert s a Ha Hr Hw Hn Hl.
  induction Hq as [|m r l rs [Hq Hok] _ IH]; intros s a Ha Hr Hw Hn Hl; cbn [serve length] in *.
  { apply runs_ret. by exists []. }
  eapply runs_step; [done|]. eapply runs_bind.
  { eapply runs_weaken; [|by apply (dispatch_run (put_bytes m s) run a r); try done; cbn; lia].
    intros f Hf. by left. }
  intros v s1 (_ & p & Hrep & Hs & m1 & _ & Hb). eapply runs_step; [done|].
  set (x := step _ p r a) in *.
  pose proof (sr_ids _ _ _ Hs) as Hi. rewrite (issued_new a) in Hi by done. cbn in Hi.
  assert (0 ≤ new a (fst x) ≤ 1) as Hnew by (destruct a, (fst x); cbn; lia).
  eapply runs_bind.
  { eapply runs_weaken; [|apply (IH s1 (fst x) Hrep)]; [intros f Hf; by right|..]; try lia.
    - unfold has_run. by rewrite (sr_realm _ _ _ Hs).
    - by apply (sr_heap _ _ _ Hs). }
  intros ms s2 (ps & Hps & Hrep2 & Hms). apply runs_ret. exists (p :: ps).
  split; [cbn; by rewrite Hps|]. rewrite Hi in Hrep2, Hms. split; [exact Hrep2|].
  constructor; [by eapply answered_shows|done].
Qed.

(** * A length that wraps *)

Lemma memcpy_faults n d q a m :
  d ≤ a < d + Z.of_nat n → m !! a = None → Mem.memcpy_loop n d q m = Fault OutOfBounds.
Proof.
  revert d q m. induction n as [|n IH]; intros d q m Ha Hm; [lia|]. cbn [Mem.memcpy_loop].
  unfold bind at 1, Mem.load8. destruct (m !! q) as [b|]; [|done].
  unfold bind, Mem.store8. destruct (m !! d) as [c|] eqn:Ed; [|done]. apply IH.
  - destruct (decide (a = d)) as [->|]; [congruence|lia].
  - rewrite lookup_insert_ne; [done|]. intros ->. congruence.
Qed.

(** The slack the allocator adds wraps, and the block it hands out is short. *)
Lemma short_block a length :
  alloc_wf a → 2 ^ 64 - 4095 ≤ length < 2 ^ 64 → heap_base a + 8192 ≤ heap_top a →
  ∃ p, val_host_mem_alloc PAGE_SIZE length a = (p, set_heap_base (p + (length + 4095 - 2 ^ 64)) a) ∧
       heap_base a ≤ p < heap_base a + 4096.
Proof.
  intros Hwf Hl Hroom. unfold val_host_mem_alloc. destruct (Z.leb_spec length 0); [lia|].
  change (val_is_power_of_2 (u32 PAGE_SIZE)) with true. cbn [negb].
  assert (u64 (length + u64 (PAGE_SIZE - 1)) = length + 4095 - 2 ^ 64) as ->.
  { change (u64 (PAGE_SIZE - 1)) with 4095. unfold u64.
    rewrite <- (Z.mod_small (length + 4095 - 2 ^ 64) (2 ^ 64)) by lia.
    rewrite <- (Z_mod_plus (length + 4095) (-1) (2 ^ 64)) by lia. f_equal; lia. }
  destruct (mem_alloc_cases a 12 (length + 4095 - 2 ^ 64)) as (Hb & _ & [[Hf E]|[Hf _]]);
    [done|lia|lia|..]; change (2 ^ 12) with 4096 in *; [|lia]. by eexists.
Qed.

(** The allocator's slack wraps for a length of 2^64 - 4095 or more, which the
    Realm chooses: the two allocations succeed with short blocks, and the copy of
    the payload runs on past the end of the heap. *)
Theorem send_length_wraps run s i m o c ipa length off :
  session_rep (Connected i m Established o c) s → has_run run s → pending o = false →
  bad_buffer ipa = false → alloc_wf (alloc_of s) →
  heap_base (alloc_of s) + 3 * 8192 ≤ heap_top (alloc_of s) →
  bytes s !! heap_top (alloc_of s) = None →
  2 ^ 64 - 4095 ≤ length < 2 ^ 64 →
  val_host_rhi_session_send i ipa length off s = Fault OutOfBounds.
Proof.
  intros [[Hi Hb] (Es & Eo & Ec)] Hr Ho Hipa Hw Hroom Hend Hl.
  assert (∀ st len, send_payload st len length off s = Fault OutOfBounds) as Hp.
  { intros st len. destruct (short_block (alloc_of s) length Hw Hl) as (p & Ep & Hp); [lia|].
    set (a1 := set_heap_base (p + (length + 4095 - 2 ^ 64)) (alloc_of s)) in *.
    destruct (short_block a1 length) as (e & Ee & He); [apply alloc_wf_bump; [done|lia]|done|cbn; lia|].
    unfold send_payload. destruct Hw as [Hpos _ Htop].
    erewrite bind_step by (unfold on_host, mem_alloc_h, tracker, zoom, allocator;
      fold (alloc_of s); by rewrite Ep).
    erewrite bind_step by (unfold on_host, mem_alloc_h, tracker, zoom, allocator;
      cbn [rh_host set_rh_host h_gs hset_gs g_alloc set_alloc]; by rewrite Ee).
    unfold truthy. cbn in He. zb; try lia. cbn [negb orb].
    unfold bind at 1, on_bytes, on_host, zoom, Mem.val_memcpy, Mem.pal_memcpy, Mem.memcpy, bind at 1.
    cbn. erewrite memcpy_faults; [done| |exact Hend]. lia. }
  unfold val_host_rhi_session_send. rewrite (bind_step (gets g_rhi_sess) _ s (g_rhi_sess s) s eq_refl).
  rewrite Es, unknown_connected, Z.eqb_refl by done.
  cbn [negb]. change (no_io _) with false. cbn match. rewrite Hipa.
  rewrite (bind_step (gets g_rhi_send_state) _ s (g_rhi_send_state s) s eq_refl), Eo.
  destruct m, o; try done; apply Hp.
Qed.

(** * The firmware activity log *)

Definition fal_text : list Z := fal_pattern (replicate (Z.to_nat RHI_FAL_LOG_SIZE) 0).

(** The log is built by the first read; the offset never passes its end. *)
Definition fal_ok s : Prop :=
  0 ≤ g_fal_offset s ≤ RHI_FAL_LOG_SIZE ∧
  if fal_init s then fal_log s = fal_text else fal_log s = replicate (Z.to_nat RHI_FAL_LOG_SIZE) 0.

Lemma fal_text_length : length fal_text = Z.to_nat RHI_FAL_LOG_SIZE.
Proof. unfold fal_text, fal_pattern. by rewrite length_imap, length_replicate. Qed.

Lemma write_bytes_run p l m :
  Mem.mapped m p (Z.of_nat (length l)) →
  ∃ m', write_bytes p l m = Ok tt m' ∧
        (∀ k b, l !! k = Some b → m' !! (p + Z.of_nat k) = Some b) ∧
        only p (Z.of_nat (length l)) m m' ∧ ∀ a, is_Some (m !! a) → is_Some (m' !! a).
Proof.
  revert p m. induction l as [|b l IH]; intros p m Hm; cbn [write_bytes length] in *; [by exists m|].
  assert (is_Some (m !! p)) as Hp by (rewrite <- (Z.add_0_r p); apply Hm; lia).
  erewrite bind_step by by apply MemFacts.store8_eq.
  destruct (IH (p + 1) (<[p := b]> m)) as (m' & -> & Hl & Ho & Hs).
  { apply MemFacts.mapped_insert. intros i Hi. rewrite <- Z.add_assoc. apply Hm. lia. }
  exists m'. split; [done|]. split; [|split].
  - intros [|k] c Hk; cbn in Hk.
    + simplify_eq. rewrite Z.add_0_r, Ho by lia. apply lookup_insert_eq.
    + replace (p + Z.of_nat (S k)) with (p + 1 + Z.of_nat k) by lia. by apply Hl.
  - intros a Ha. rewrite Ho by lia. apply lookup_insert_ne. lia.
  - intros a Ha. apply Hs. destruct (decide (p = a)) as [->|]; [by rewrite lookup_insert_eq|].
    by rewrite lookup_insert_ne.
Qed.

Lemma on_bytes_run {A} (m : M (gmap Z Z) A) s a b :
  m (bytes s) = Ok a b → on_bytes m s = Ok a (put_bytes b s).
Proof. unfold on_bytes, on_host, zoom, bytes. by intros ->. Qed.

(** What a read hands over: as many bytes of the buffer as x1 of the answer says. *)
Definition handed (run : Z) (m : gmap Z Z) : list Z :=
  map (λ i, default 0 (m !! (shared_buffer + Z.of_nat i)))
    (seq 0 (Z.to_nat (default 0 (m !! enter_gpr run 1)))).

(** The buffer is in use and apart from the registers. *)
Definition fal_room (run : Z) s : Prop :=
  Mem.mapped (bytes s) shared_buffer RHI_FAL_LOG_SIZE ∧
  ∀ k, 0 ≤ k ≤ 2 → ¬ shared_buffer ≤ enter_gpr run k < shared_buffer + RHI_FAL_LOG_SIZE.

(** The registers of an answer to a read. *)
Definition fal_answer (run n left : Z) (m : gmap Z Z) : gmap Z Z :=
  <[enter_gpr run 2 := left]> (<[enter_gpr run 1 := n]> m).

Lemma fal_answer_run run s n left :
  has_run run s →
  (set_enter_gpr 1 n ;; set_enter_gpr 2 left ;; ret RHI_FAL_SUCCESS) s =
    Ok RHI_FAL_SUCCESS (put_bytes (fal_answer run n left (bytes s)) s).
Proof.
  intros Hr. rewrite (bind_step _ _ _ _ _ (set_enter_gpr_run s run 1 n Hr)).
  by erewrite bind_step by by apply set_enter_gpr_run.
Qed.

Lemma fal_answer_room run s m n left :
  fal_room run s → (∀ a, is_Some (bytes s !! a) → is_Some (m !! a)) →
  fal_room run (put_bytes (fal_answer run n left m) s).
Proof.
  intros [Hmap Hap] Hm. split; [|done]. cbn. intros i Hi. unfold fal_answer.
  rewrite !lookup_insert_ne; [by apply Hm, Hmap| |];
    intros E; eapply Hap; [|rewrite E; lia| |rewrite E; lia]; lia.
Qed.

(** After an answer of [n], a buffer that starts with the [n] bytes of [l]. *)
Lemma handed_answer run s m l left :
  fal_room run s → Z.of_nat (length l) ≤ RHI_FAL_LOG_SIZE →
  (∀ k b, l !! k = Some b → m !! (shared_buffer + Z.of_nat k) = Some b) →
  handed run (fal_answer run (Z.of_nat (length l)) left m) = l.
Proof.
  intros [_ Hap] Hlen Hl. unfold handed, fal_answer.
  rewrite lookup_insert_ne, lookup_insert_eq by (unfold enter_gpr; lia). cbn [from_option id].
  rewrite Nat2Z.id. apply list_eq. intros k. rewrite list_lookup_fmap.
  destruct (l !! k) as [b|] eqn:Ek.
  - pose proof (lookup_lt_Some _ _ _ Ek). rewrite lookup_seq_lt by done. cbn.
    rewrite !lookup_insert_ne; [by rewrite (Hl _ _ Ek)| |];
      intros E; eapply Hap; [|rewrite E; lia| |rewrite E; lia]; lia.
  - apply lookup_ge_None in Ek. by rewrite lookup_seq_ge.
Qed.

(** The first read builds the log. *)
Lemma fal_init_run s :
  fal_ok s →
  (if fal_init s then ret tt
   else let* log := gets fal_log in modify (set_fal (g_fal_offset s) (fal_pattern log) true)) s =
    Ok tt (set_fal (g_fal_offset s) fal_text true s).
Proof.
  intros [_ Hl]. destruct (fal_init s) eqn:Ei; unfold bind, gets, modify, ret; do 2 f_equal.
  - destruct s. cbn in *. by subst.
  - by rewrite Hl.
Qed.

(** One read: the next [size] bytes, or what is left. *)
Lemma fal_read_run run s ipa size :
  has_run run s → fal_ok s → fal_room run s → bad_buffer ipa = false → 0 ≤ size →
  run_to (val_host_rhi_fal_read ipa size) s (λ v s',
    v = RHI_FAL_SUCCESS ∧ has_run run s' ∧ fal_ok s' ∧ fal_room run s' ∧
    g_fal_offset s' = Z.min RHI_FAL_LOG_SIZE (g_fal_offset s + size) ∧
    handed run (bytes s') =
      take (Z.to_nat size) (drop (Z.to_nat (g_fal_offset s)) fal_text)).
Proof.
  intros Hr Hok Hroom Hb Hs. pose proof Hok as [Ho _]. unfold val_host_rhi_fal_read. rewrite Hb.
  do 2 (eapply run_to_step; [done|]). eapply run_to_step; [by apply fal_init_run|].
  pose proof fal_text_length as Ht.
  destruct ((RHI_FAL_LOG_SIZE <=? g_fal_offset s) || (size =? 0)) eqn:Ez.
  - eapply run_to_eq; [by apply fal_answer_run|].
    assert (take (Z.to_nat size) (drop (Z.to_nat (g_fal_offset s)) fal_text) = []) as ->.
    { apply orb_true_iff in Ez as [E|E]; [apply Z.leb_le in E|apply Z.eqb_eq in E; by subst].
      by rewrite drop_ge, take_nil by lia. }
    split; [done|split; [done|split; [done|]]]. split; [by apply fal_answer_room|]. split.
    + cbn. apply orb_true_iff in Ez as [E|E]; [apply Z.leb_le in E|apply Z.eqb_eq in E]; lia.
    + by apply (handed_answer run s _ []).
  - apply orb_false_iff in Ez as [E1%Z.leb_gt E2%Z.eqb_neq]. eapply run_to_step; [done|].
    set (n := Z.min size (RHI_FAL_LOG_SIZE - g_fal_offset s)).
    set (l := take (Z.to_nat n) (drop (Z.to_nat (g_fal_offset s)) fal_text)).
    assert (Z.of_nat (length l) = n) as Hn by (unfold l; rewrite length_take, length_drop; lia).
    destruct (write_bytes_run shared_buffer l (bytes s)) as (m & Hw & Hl & _ & Hm).
    { intros i Hi. apply (proj1 Hroom). lia. }
    eapply run_to_step.
    { apply on_bytes_run. exact Hw. }
    eapply run_to_step; [done|]. eapply run_to_eq; [by apply fal_answer_run|].
    split; [done|split; [done|split; [by split; [cbn; lia|]|]]].
    split; [exact (fal_answer_room run s m _ _ Hroom Hm)|]. split; [cbn; lia|].
    transitivity l.
    { cbn [fst]. rewrite <- Hn. apply (handed_answer run s m l _ Hroom); [lia|exact Hl]. }
    unfold l, n. destruct (Z.le_ge_cases size (RHI_FAL_LOG_SIZE - g_fal_offset s)).
    + by rewrite Z.min_l by done.
    + rewrite Z.min_r by done. rewrite !take_ge; [done|..]; rewrite length_drop; lia.
Qed.

(** Reads one after the other, and the bytes handed over. *)
Fixpoint fal_reads (run : Z) (l : list (Z * Z)) : M (rhi W) (list (list Z)) :=
  match l with
  | [] => ret []
  | (ipa, size) :: l =>
      val_host_rhi_fal_read ipa size ;;
      let* m := gets bytes in
      let* rest := fal_reads run l in
      ret (handed run m :: rest)
  end.

Definition sizes (l : list (Z * Z)) : Z := foldr (λ x n, snd x + n) 0 l.

(** However a Realm cuts its reads of the firmware activity log, the pieces it
    is handed are the log in order, without gaps or repeats, and empty once the
    log is exhausted. *)
Theorem fal_reads_log run l s :
  has_run run s → fal_ok s → fal_room run s →
  Forall (λ x, bad_buffer (fst x) = false ∧ 0 ≤ snd x) l →
  run_to (fal_reads run l) s (λ pieces s',
    concat pieces = take (Z.to_nat (sizes l)) (drop (Z.to_nat (g_fal_offset s)) fal_text) ∧
    g_fal_offset s' = Z.min RHI_FAL_LOG_SIZE (g_fal_offset s + sizes l)).
Proof.
  intros Hr Hok Hroom Hl. revert s Hr Hok Hroom.
  induction Hl as [|[ipa size] l [Hb Hs] Hl IH]; intros s Hr Hok Hroom; cbn [fal_reads sizes foldr].
  { apply run_to_ret. rewrite take_0. split; [done|]. destruct Hok. lia. }
  cbn [fst snd] in *. eapply run_to_bind; [by apply (fal_read_run run)|].
  intros v s1 (_ & Hr1 & Hok1 & Hroom1 & Ho & Hh). eapply run_to_step; [done|].
  eapply run_to_bind; [by apply IH|]. intros pieces s2 [Hp Ho2]. apply run_to_ret.
  fold (sizes l) in *. pose proof fal_text_length as Ht. destruct Hok as [Hoff _].
  assert (0 ≤ sizes l) as Hsz.
  { clear -Hl. induction Hl as [|x l [_ Hx] _ IH]; cbn; [done|]. fold (sizes l). lia. }
  split; [|lia]. cbn [concat]. rewrite Hh, Hp, Ho.
  destruct (Z.le_gt_cases RHI_FAL_LOG_SIZE (g_fal_offset s + size)).
  - rewrite Z.min_l by done. rewrite (drop_ge _ (Z.to_nat RHI_FAL_LOG_SIZE)) by lia.
    rewrite take_nil, app_nil_r, !take_ge; [done|..]; rewrite length_drop; lia.
  - rewrite Z.min_r by lia. rewrite Z2Nat.inj_add by lia. rewrite <- drop_drop.
    rewrite take_take_drop. f_equal. lia.
Qed.
End Refine.

(** * A concrete host *)

Definition demo_region : SharedRegion := {| val_get_shared_region_base := PLATFORM_SHARED_REGION_BASE |}.

(** The run structure of the first REC at 0x90000000, an initialised allocator. *)
Definition demo_run : Z := 0x90000000.
Definition demo_host (m : gmap Z Z) : host unit :=
  mk_host tt (mk_gs (val_host_mem_alloc_init (mk_alloc 0 0 0 0)) ∅ 0 0 0 []) m
    (rset_run (demo_run :: replicate 7 0) realm_zero) [].

(** A request in the registers of the exit structure. *)
Definition demo_request (r : Session.request) : gmap Z Z :=
  list_to_map (imap (λ k v, (exit_gpr demo_run (Z.of_nat k), v)) (Session.regs r)).

Lemma demo_requests r : requests demo_run (demo_request r) r.
Proof.
  intros k v Hk. unfold demo_request. apply elem_of_list_to_map_1.
  - apply NoDup_fmap_fst; [|destruct r; vm_compute; repeat constructor; set_solver].
    intros a b1 b2. rewrite !elem_of_lookup_imap. intros (i & x & E1 & H1) (j & y & E2 & H2).
    simplify_eq. unfold exit_gpr in *. assert (i = j) as -> by lia. naive_solver.
  - apply elem_of_lookup_imap. by exists k, v.
Qed.

(** A non-blocking session: opened in two calls and closed in two. *)
Definition demo_session : list Session.request :=
  [Session.Open 0 2; Session.Open 1 2; Session.Close 1; Session.Close 1].

Lemma session_refines_witness :
  let H := demo_region in
  runs (λ f, Exists (λ r, may_stop r f) demo_session)
    (serve (map demo_request demo_session)) (rhi_start (demo_host ∅)) (λ ms s', ∃ ps,
      length ps = length demo_session ∧
      let x := Session.steps 1 (zip ps demo_session) Session.Unconnected in
      session_rep (fst x) s' ∧ Forall2 (shows demo_run) ms (snd x)).
Proof.
  intros H. apply (session_refines demo_run (map demo_request demo_session) demo_session
    (rhi_start (demo_host ∅)) Session.Unconnected).
  - done.
  - done.
  - apply val_host_mem_alloc_init_wf.
  - done.
  - cbn. lia.
  - repeat (constructor; [split; [apply demo_requests|done]|]). constructor.
Defined.

(** A blocking session that is open. *)
Definition demo_open : rhi unit :=
  set_sess (mk_session 1 2 true 1) (set_send (mk_io_state 2 0) (set_recv (mk_io_state 2 0)
    (set_next_id 2 (rhi_start (demo_host ∅))))).

Lemma send_length_wraps_witness :
  let H := demo_region in
  val_host_rhi_session_send 1 0x1000 (2 ^ 64 - 1) 0 demo_open = Fault OutOfBounds.
Proof.
  intros H. apply (send_length_wraps demo_run demo_open 1 Session.Blocking Session.Ready Session.Ready).
  - done.
  - done.
  - done.
  - done.
  - apply val_host_mem_alloc_init_wf.
  - by vm_compute.
  - done.
  - lia.
Defined.

(** The shared buffer of a host, all zero. *)
Definition demo_buffer : gmap Z Z :=
  list_to_map ((λ i, (i, 0)) <$> seqZ (PLATFORM_SHARED_REGION_BASE + TEST_USE_OFFSET1) RHI_FAL_LOG_SIZE).

Lemma fal_reads_log_witness :
  let H := demo_region in
  let l := [(0x1000, 3000); (0x1000, 0); (0x2000, 2000); (0x1000, 8)] in
  run_to (fal_reads demo_run l) (rhi_start (demo_host demo_buffer)) (λ pieces s',
    concat pieces = take (Z.to_nat (sizes l)) (drop (Z.to_nat 0) fal_text) ∧
    g_fal_offset s' = Z.min RHI_FAL_LOG_SIZE (0 + sizes l)).
Proof.
  intros H l. apply (fal_reads_log demo_run l (rhi_start (demo_host demo_buffer))); try done.
  - split.
    + intros i Hi. exists 0. apply elem_of_list_to_map_1.
      * rewrite <- list_fmap_compose. cbn. rewrite list_fmap_id. apply NoDup_seqZ.
      * apply list_elem_of_fmap. eexists. split; [reflexivity|]. apply elem_of_seqZ.
        change shared_buffer with (PLATFORM_SHARED_REGION_BASE + TEST_USE_OFFSET1). lia.
    + intros k Hk. change shared_buffer with 0x88401000. unfold enter_gpr, demo_run, RUN_ENTER_GPR0, RHI_FAL_LOG_SIZE. lia.
  - repeat (constructor; [split; [done|cbn; lia]|]). constructor.
Defined.
