(* ===== verification/Doe.v ===== *)
(** Data object exchange with a PCIe function (val_host_doe.c).

    Requests and responses are buffers of 32-bit words in host memory, one byte
    per address; the mailbox is behind the configuration space.  The state is the
    pair of the PCIe state and the memory. *)
From S2P Require Import Prelude Defs Libc RecExit Rhi Pcie.

Definition VAL_HOST_DOE_HEADER_1 : Z := 0x10001.
Definition VAL_HOST_DOE_HEADER_2 : Z := 0x20001.
Definition VAL_HOST_DOE_HEADER_LENGTH : Z := 0x2.
Definition DOE_CTRL_REG : Z := 0x8.
Definition DOE_STATUS_REG : Z := 0xC.
Definition DOE_WRITE_DATA_MAILBOX_REG : Z := 0x10.
Definition DOE_READ_DATA_MAILBOX_REG : Z := 0x14.
Definition DOE_STATUS_REG_BUSY : Z := 0.
Definition DOE_STATUS_REG_ERROR : Z := 2.
Definition DOE_STATUS_REG_READY : Z := 31.

(** A little-endian word in memory. *)
Definition word_bytes (v : Z) : list Z :=
  [Z.land v 0xFF; Z.land (Z.shiftr v 8) 0xFF; Z.land (Z.shiftr v 16) 0xFF; Z.land (Z.shiftr v 24) 0xFF].
Definition load32 (p : Z) : M (gmap Z Z) Z := Validate.load_le 4 p.
Definition store32 (p v : Z) : M (gmap Z Z) unit := write_bytes p (word_bytes v).

Section Doe.
Context {W : Type} `{MmioBus W}.

Definition on_bus {A : Type} (m : M (pcie W) A) : M (pcie W * gmap Z Z) A :=
  zoom fst (λ p s, (p, snd s)) m.
Definition on_mem {A : Type} (m : M (gmap Z Z) A) : M (pcie W * gmap Z Z) A :=
  zoom snd (λ b s, (fst s, b)) m.

(** [val_pcie_read_cfg(bdf, offset, &value)] into a variable that holds [value]. *)
Definition read_value (bdf offset : Z) (value : option Z) : M (pcie W * gmap Z Z) Z :=
  on_bus (let* r := val_pcie_read_cfg bdf offset value in use (snd r)).
Definition write_value (bdf offset v : Z) : M (pcie W * gmap Z Z) unit :=
  on_bus (val_pcie_write_cfg bdf offset v).

Definition doe_bit (value bit : Z) : bool := truthy (VAL_EXTRACT_BITS value bit bit).

Definition doe_length (req_len : Z) : Z :=
  if truthy (req_len mod 4) then Z.shiftr req_len 2 + 1 else Z.shiftr req_len 2.

Definition val_host_pcie_doe_send_req (bdf doe_cap_base req_addr req_len req_type : Z)
    : M (pcie W * gmap Z Z) Z :=
  let* value := read_value bdf (u32 (doe_cap_base + DOE_STATUS_REG)) None in
  if doe_bit value DOE_STATUS_REG_BUSY then ret VAL_ERROR
  else
    let* value := read_value bdf (u32 (doe_cap_base + DOE_STATUS_REG)) (Some value) in
    if doe_bit value DOE_STATUS_REG_ERROR then ret VAL_ERROR
    else
      let mailbox := u32 (doe_cap_base + DOE_WRITE_DATA_MAILBOX_REG) in
      let n := doe_length req_len in
      write_value bdf mailbox (if req_type =? 1 then VAL_HOST_DOE_HEADER_2 else VAL_HOST_DOE_HEADER_1) ;;
      write_value bdf mailbox (u32 (u32 n + VAL_HOST_DOE_HEADER_LENGTH)) ;;
      for_upto (R := Empty_set) n (λ i,
        let* v := on_mem (load32 (req_addr + 4 * i)) in
        write_value bdf mailbox v ;; ret None) ;;
      write_value bdf (u32 (doe_cap_base + DOE_CTRL_REG)) (u32 (Z.shiftl 1 31)) ;;
      ret VAL_SUCCESS.

(** [val_pcie_read_cfg] and the write that takes the word out of the mailbox. *)
Definition pop_mailbox (bdf doe_cap_base value : Z) : M (pcie W * gmap Z Z) Z :=
  let mailbox := u32 (doe_cap_base + DOE_READ_DATA_MAILBOX_REG) in
  let* value := read_value bdf mailbox (Some value) in
  write_value bdf mailbox 0 ;;
  ret value.

(** The status and [*resp_len]. *)
Definition val_host_pcie_doe_recv_resp (bdf doe_cap_base resp_addr resp_len : Z)
    : M (pcie W * gmap Z Z) (Z * Z) :=
  let* value := read_value bdf (u32 (doe_cap_base + DOE_STATUS_REG)) None in
  if negb (doe_bit value DOE_STATUS_REG_READY) then ret (VAL_ERROR, resp_len)
  else
    let* value := read_value bdf (u32 (doe_cap_base + DOE_STATUS_REG)) (Some value) in
    if doe_bit value DOE_STATUS_REG_ERROR then ret (VAL_ERROR, resp_len)
    else
      let* value := pop_mailbox bdf doe_cap_base value in
      let* value := pop_mailbox bdf doe_cap_base value in
      let length := u32 (value - VAL_HOST_DOE_HEADER_LENGTH) in
      let resp_len := length * 4 in
      let* value := fold_from (Z.to_nat length) 0 value (λ i value,
        let* value := pop_mailbox bdf doe_cap_base value in
        on_mem (store32 (resp_addr + 4 * i) value) ;;
        ret value) in
      let* value := read_value bdf (u32 (doe_cap_base + DOE_STATUS_REG)) (Some value) in
      if doe_bit value DOE_STATUS_REG_READY then ret (VAL_ERROR, resp_len)
      else ret (VAL_SUCCESS, resp_len).

Definition val_host_pcie_doe_communicate (bdf doe_cap_base req_buf req_sz rsp_buf rsp_sz req_type : Z)
    : M (pcie W * gmap Z Z) (Z * Z) :=
  let* rc := val_host_pcie_doe_send_req bdf doe_cap_base req_buf (u32 req_sz) req_type in
  if negb (rc =? 0) then ret (rc, rsp_sz)
  else val_host_pcie_doe_recv_resp bdf doe_cap_base rsp_buf rsp_sz.
End Doe.
