(* ===== verification/DoeFacts.v ===== *)
(** A data object exchange against a device that follows the mailbox protocol.

    [mbox] is the reference device: words written are collected, Go hands them to
    the function [respond], and the words of the response are read one by one.  The
    device is busy for a while: for as many readings of its status as [delay] says,
    which may be none. *)
From S2P Require Import Prelude Defs Libc RecExit ExitFacts Rhi RhiFacts Pcie PcieEnum PcieFacts Doe.

Record mbox : Type := mk_mbox { mb_in : list Z; mb_out : list Z; mb_wait : nat; mb_err : bool }.

Definition mb_idle : mbox := mk_mbox [] [] 0 false.

(** Busy, Error and Ready: the response is there and the device is done. *)
Definition mb_ready (w : mbox) : bool :=
  match mb_wait w, mb_out w with O, _ :: _ => true | _, _ => false end.
Definition mb_status (w : mbox) : Z :=
  (if mb_ready w then 2 ^ 31 else 0) + (if mb_err w then 4 else 0) + match mb_wait w with O => 0 | S _ => 1 end.

(** The time of one reading of the status. *)
Definition tick (w : mbox) : mbox := mk_mbox (mb_in w) (mb_out w) (pred (mb_wait w)) (mb_err w).

Section Device.
Context (respond : list Z → list Z) (delay : list Z → nat) (bs : list PCIE_INFO_BLOCK) (bdf cap : Z).

(** The addresses of the registers of the capability. *)
Definition doe_reg (off : Z) : Z := cfg_address bs bdf (cap + off).

#[export] Instance mbox_bus : MmioBus mbox := {|
  mmio_read32 w a :=
    if a =? doe_reg DOE_STATUS_REG then (mb_status w, tick w)
    else if a =? doe_reg DOE_READ_DATA_MAILBOX_REG then (if mb_ready w then default 0 (head (mb_out w)) else 0, w)
    else (0, w);
  mmio_write32 w a v :=
    if a =? doe_reg DOE_WRITE_DATA_MAILBOX_REG then mk_mbox (mb_in w ++ [v]) (mb_out w) (mb_wait w) (mb_err w)
    else if a =? doe_reg DOE_CTRL_REG then
      if Z.testbit v 0 then mb_idle
      else if Z.testbit v 31 then mk_mbox [] (respond (mb_in w)) (delay (mb_in w)) (mb_err w) else w
    else if a =? doe_reg DOE_READ_DATA_MAILBOX_REG then
      if mb_ready w then mk_mbox (mb_in w) (tail (mb_out w)) 0 (mb_err w) else w
    else w
|}.

Context (p : pcie mbox).
Hypothesis bus_wf : info_wf bs.
Hypothesis bus_info : has_info bs p.
Hypothesis bus_bdf : mapped_bdf bs bdf.
Hypothesis cap_range : 0 ≤ cap ∧ cap + 0x18 ≤ 4096.

(** The state with the device in [w] and memory [m]. *)
Definition at_ (w : mbox) (m : gmap Z Z) : pcie mbox * gmap Z Z := (pset_world w p, m).

Lemma doe_reg_u64 off : 0 ≤ off < 0x18 → u64 (cfg_address bs bdf (u32 (cap + off))) = doe_reg off.
Proof.
  intros Ho. unfold u32. rewrite Z.mod_small by lia. apply u64_id.
  apply (cfg_address_bounds bs bdf); [done|done|lia].
Qed.

Lemma doe_reg_eqb o1 o2 : (doe_reg o1 =? doe_reg o2) = (o1 =? o2).
Proof. unfold doe_reg, cfg_address. zb; try done; lia. Qed.

Lemma read_run off d w m :
  0 ≤ off < 0x18 →
  read_value bdf (u32 (cap + off)) d (at_ w m) =
    Ok (u32 (fst (mmio_read32 w (doe_reg off)))) (at_ (snd (mmio_read32 w (doe_reg off))) m).
Proof.
  intros Ho. unfold read_value, on_bus, zoom, at_. cbn [fst snd].
  erewrite bind_step; [|rewrite (read_cfg_eq bs), base_of_nonzero by done; reflexivity].
  cbn [snd use]. unfold ret. rewrite doe_reg_u64 by done. done.
Qed.

Lemma write_run off v w m :
  0 ≤ off < 0x18 →
  write_value bdf (u32 (cap + off)) v (at_ w m) = Ok tt (at_ (mmio_write32 w (doe_reg off) (u32 v)) m).
Proof.
  intros Ho. unfold write_value, on_bus, zoom, at_. cbn [fst snd].
  rewrite (write_cfg_eq bs), base_of_nonzero by done. by rewrite doe_reg_u64.
Qed.

Lemma status_run d w m :
  read_value bdf (u32 (cap + DOE_STATUS_REG)) d (at_ w m) = Ok (u32 (mb_status w)) (at_ (tick w) m).
Proof. rewrite read_run by (unfold DOE_STATUS_REG; lia). cbn. by rewrite Z.eqb_refl. Qed.

Lemma mailbox_run v w m :
  write_value bdf (u32 (cap + DOE_WRITE_DATA_MAILBOX_REG)) v (at_ w m) =
    Ok tt (at_ (mk_mbox (mb_in w ++ [u32 v]) (mb_out w) (mb_wait w) (mb_err w)) m).
Proof. rewrite write_run by (unfold DOE_WRITE_DATA_MAILBOX_REG; lia). cbn. by rewrite Z.eqb_refl. Qed.

Lemma go_run w m :
  write_value bdf (u32 (cap + DOE_CTRL_REG)) (u32 (Z.shiftl 1 31)) (at_ w m) =
    Ok tt (at_ (mk_mbox [] (respond (mb_in w)) (delay (mb_in w)) (mb_err w)) m).
Proof. rewrite write_run by (unfold DOE_CTRL_REG; lia). cbn. by rewrite doe_reg_eqb, Z.eqb_refl. Qed.

Lemma pop_run v x l i e m :
  pop_mailbox bdf cap v (at_ (mk_mbox i (x :: l) 0 e) m) = Ok (u32 x) (at_ (mk_mbox i l 0 e) m).
Proof.
  unfold pop_mailbox. erewrite bind_step by (apply read_run; unfold DOE_READ_DATA_MAILBOX_REG; lia).
  erewrite bind_step by (apply write_run; unfold DOE_READ_DATA_MAILBOX_REG; lia).
  cbn. by rewrite !doe_reg_eqb, Z.eqb_refl.
Qed.

Lemma status_bits w :
  doe_bit (u32 (mb_status w)) DOE_STATUS_REG_BUSY = (0 <? Z.of_nat (mb_wait w)) ∧
  doe_bit (u32 (mb_status w)) DOE_STATUS_REG_ERROR = mb_err w ∧
  doe_bit (u32 (mb_status w)) DOE_STATUS_REG_READY = mb_ready w.
Proof. unfold mb_status, mb_ready. by destruct (mb_wait w), (mb_out w), (mb_err w). Qed.

(** * Sending *)

(** The [n] words at [q]. *)
Definition words (m : gmap Z Z) (q : Z) (n : nat) : list Z :=
  map (λ i, u32 (le_val m 4 (q + 4 * Z.of_nat i))) (seq 0 n).

Definition doe_header (ty : Z) : Z := if ty =? 1 then VAL_HOST_DOE_HEADER_2 else VAL_HOST_DOE_HEADER_1.

(** The frame of a request: header, length in words with the header, payload. *)
Definition frame (ty : Z) (payload : list Z) : list Z :=
  [doe_header ty; Z.of_nat (length payload) + 2] ++ payload.

Lemma words_length m q n : length (words m q n) = n.
Proof. unfold words. by rewrite length_map, length_seq. Qed.

Lemma doe_length_ceil len : 0 ≤ len → doe_length len = (len + 3) / 4.
Proof.
  intros Hl. unfold doe_length, truthy. rewrite Z.shiftr_div_pow2 by lia. change (2 ^ 2) with 4.
  destruct (Z.eqb_spec (len mod 4) 0); cbn; Z.to_euclidean_division_equations; lia.
Qed.

(** The words of the payload go into the mailbox in order. *)
Lemma send_loop_run m q n front o :
  Mem.mapped m q (4 * Z.of_nat n) →
  for_upto (R := Empty_set) (Z.of_nat n) (λ i,
    let* v := on_mem (load32 (q + 4 * i)) in
    write_value bdf (u32 (cap + DOE_WRITE_DATA_MAILBOX_REG)) v ;; ret None)
    (at_ (mk_mbox front o 0 false) m) = Ok None (at_ (mk_mbox (front ++ words m q n) o 0 false) m).
Proof.
  intros Hm. unfold for_upto. rewrite Nat2Z.id.
  match goal with |- for_from n 0 ?f ?s = _ =>
    assert (run_to (for_from n 0 f) s (λ r s', r = None ∧
      s' = at_ (mk_mbox (front ++ words m q (Z.to_nat (0 + Z.of_nat n))) o 0 false) m)) as Hr end.
  { apply (for_from_to (λ i s, s = at_ (mk_mbox (front ++ words m q (Z.to_nat i)) o 0 false) m)).
    - intros i s Hi ->. unfold at_. eapply run_to_step.
      { unfold on_mem, zoom, load32. cbn [snd fst]. rewrite load_le_val; [done|].
        intros j Hj. rewrite <- Z.add_assoc. apply Hm. lia. }
      eapply run_to_step; [apply mailbox_run|]. apply run_to_ret. split; [done|].
      cbn [mb_in mb_out mb_wait mb_err]. unfold at_. do 3 f_equal.
      replace (Z.to_nat (i + 1)) with (S (Z.to_nat i)) by lia. unfold words.
      rewrite seq_S, map_app, app_assoc. cbn [map Nat.add]. by rewrite Z2Nat.id by lia.
    - cbn. by rewrite app_nil_r. }
  apply run_to_Ok in Hr as (r & s' & -> & -> & ->). by rewrite Z.add_0_l, Nat2Z.id.
Qed.

(** The frame of the [len] bytes at [q]. *)
Definition request (ty : Z) (m : gmap Z Z) (q len : Z) : list Z := frame ty (words m q (Z.to_nat (doe_length len))).

Lemma doe_send_run m q len ty o :
  0 ≤ len < 2 ^ 32 → let n := Z.to_nat (doe_length len) in
  Mem.mapped m q (4 * Z.of_nat n) →
  val_host_pcie_doe_send_req bdf cap q len ty (at_ (mk_mbox [] o 0 false) m) =
    Ok VAL_SUCCESS (at_ (mk_mbox [] (respond (request ty m q len)) (delay (request ty m q len)) false) m).
Proof.
  intros Hl n Hm. assert (Z.of_nat n = doe_length len) as En.
  { subst n. rewrite Z2Nat.id; [done|]. rewrite doe_length_ceil by lia. apply Z.div_pos; lia. }
  assert (Z.of_nat n < 2 ^ 31) as Hn.
  { rewrite En, doe_length_ceil by lia. apply Z.div_lt_upper_bound; lia. }
  unfold val_host_pcie_doe_send_req. rewrite (bind_step _ _ _ _ _ (status_run None _ m)).
  destruct (status_bits (mk_mbox [] o 0 false)) as (-> & Herr & _). change (0 <? _) with false. cbv iota.
  change (tick (mk_mbox [] o 0 false)) with (mk_mbox [] o 0 false).
  rewrite (bind_step _ _ _ _ _ (status_run _ _ m)), Herr. cbn [mb_err].
  change (tick (mk_mbox [] o 0 false)) with (mk_mbox [] o 0 false). fold (doe_header ty).
  rewrite (bind_step _ _ _ _ _ (mailbox_run _ _ m)), (bind_step _ _ _ _ _ (mailbox_run _ _ m)).
  rewrite <- En. cbn [mb_in mb_out mb_wait mb_err app].
  assert (u32 (doe_header ty) = doe_header ty) as -> by (unfold doe_header; by destruct (ty =? 1)).
  assert (u32 (u32 (u32 (Z.of_nat n) + VAL_HOST_DOE_HEADER_LENGTH)) = Z.of_nat n + 2) as ->.
  { unfold u32, VAL_HOST_DOE_HEADER_LENGTH. rewrite (Z.mod_small (Z.of_nat n)) by lia.
    rewrite (Z.mod_small (Z.of_nat n + 2)) by lia. apply Z.mod_small. lia. }
  rewrite (bind_step _ _ _ _ _ (send_loop_run m q n _ o Hm)), (bind_step _ _ _ _ _ (go_run _ m)).
  cbn [mb_in mb_out mb_wait mb_err]. unfold ret, request, frame. fold n. by rewrite words_length.
Qed.

(** * Receiving *)

Lemma word_bytes_val v b0 b1 b2 b3 :
  0 ≤ v < 2 ^ 32 → word_bytes v = [b0; b1; b2; b3] → b0 + 256 * (b1 + 256 * (b2 + 256 * (b3 + 256 * 0))) = v.
Proof.
  intros Hv Hb. unfold word_bytes in Hb. change 0xFF with (2 ^ 8 - 1) in Hb.
  rewrite !land_ones_mod, !Z.shiftr_div_pow2 in Hb by lia.
  change (2 ^ 8) with 256 in Hb. change (2 ^ 16) with 65536 in Hb. change (2 ^ 24) with 16777216 in Hb.
  simplify_eq. Z.to_euclidean_division_equations. lia.
Qed.

Lemma store32_run q v m :
  Mem.mapped m q 4 → 0 ≤ v < 2 ^ 32 →
  ∃ m', store32 q v m = Ok tt m' ∧ le_val m' 4 q = v ∧ only q 4 m m' ∧
        ∀ a, is_Some (m !! a) → is_Some (m' !! a).
Proof.
  intros Hm Hv. destruct (write_bytes_run q (word_bytes v) m) as (m' & E & Hl & Ho & Hs); [done|].
  exists m'. split; [done|]. split; [|done].
  assert (∀ k a b, word_bytes v !! k = Some b → a = q + Z.of_nat k → m' !! a = Some b) as Hb
    by (intros k a b Hk ->; by apply Hl).
  cbn [le_val]. rewrite (Hb 0%nat q _ eq_refl), (Hb 1%nat (q + 1) _ eq_refl),
    (Hb 2%nat (q + 1 + 1) _ eq_refl), (Hb 3%nat (q + 1 + 1 + 1) _ eq_refl) by lia.
  cbn [from_option id].
  by apply word_bytes_val.
Qed.

(** The words of the response go from the mailbox to the buffer in order. *)
Lemma recv_loop_run l q i v m :
  Forall (λ x, 0 ≤ x < 2 ^ 32) l → Mem.mapped m (q + 4 * i) (4 * Z.of_nat (length l)) →
  ∃ v' m',
    fold_from (length l) i v (λ i value,
      let* value := pop_mailbox bdf cap value in
      on_mem (store32 (q + 4 * i) value) ;; ret value) (at_ (mk_mbox [] l 0 false) m) =
      Ok v' (at_ mb_idle m') ∧
    (∀ k x, l !! k = Some x → le_val m' 4 (q + 4 * (i + Z.of_nat k)) = x) ∧
    only (q + 4 * i) (4 * Z.of_nat (length l)) m m' ∧
    ∀ a, is_Some (m !! a) → is_Some (m' !! a).
Proof.
  intros Hl. revert i v m. induction Hl as [|x l Hx Hl IH]; intros i v m Hm; cbn [length fold_from].
  { by exists v, m. }
  destruct (store32_run (q + 4 * i) x m) as (m1 & E1 & H1 & O1 & S1); [|done|].
  { intros j Hj. apply Hm. cbn [length]. lia. }
  destruct (IH (i + 1) x m1) as (v' & m' & E & Hk & Ho & Hs).
  { intros j Hj. apply S1. replace (q + 4 * (i + 1) + j) with (q + 4 * i + (4 + j)) by lia.
    apply Hm. cbn [length]. lia. }
  exists v', m'. split; [|split; [|split; [|by intros a Ha; apply Hs, S1]]].
  - rewrite bind_assoc. rewrite (bind_step _ _ _ _ _ (pop_run v x l [] false m)).
    assert (u32 x = x) as -> by (apply Z.mod_small; lia). rewrite bind_assoc.
    erewrite bind_step; [|unfold on_mem, zoom, at_; cbn [fst snd]; by rewrite E1]. exact E.
  - intros [|k] y Hy; cbn in Hy.
    + injection Hy as <-. rewrite Z.add_0_r. etransitivity; [|exact H1]. apply le_val_agree.
      intros j Hj. apply Ho. lia.
    + replace (i + Z.of_nat (S k)) with (i + 1 + Z.of_nat k) by lia. by apply Hk.
  - intros a Ha. rewrite Ho, O1 by lia. done.
Qed.

(** A response: some header, the length in words with the header, the payload. *)
Definition response (l : list Z) (resp : list Z) : Prop :=
  ∃ h, l = h :: Z.of_nat (length resp) + 2 :: resp ∧ Z.of_nat (length resp) + 2 < 2 ^ 32 ∧
       Forall (λ x, 0 ≤ x < 2 ^ 32) resp.

Lemma recv_run l resp q len m :
  response l resp → Mem.mapped m q (4 * Z.of_nat (length resp)) →
  ∃ m', val_host_pcie_doe_recv_resp bdf cap q len (at_ (mk_mbox [] l 0 false) m) =
          Ok (VAL_SUCCESS, 4 * Z.of_nat (length resp)) (at_ mb_idle m') ∧
        (∀ k x, resp !! k = Some x → le_val m' 4 (q + 4 * Z.of_nat k) = x) ∧
        only q (4 * Z.of_nat (length resp)) m m' ∧
        ∀ a, is_Some (m !! a) → is_Some (m' !! a).
Proof.
  intros (h & -> & Hlen & Hresp) Hm. unfold val_host_pcie_doe_recv_resp.
  rewrite (bind_step _ _ _ _ _ (status_run None _ m)).
  set (w := mk_mbox [] (h :: Z.of_nat (length resp) + 2 :: resp) 0 false).
  change (tick w) with w. destruct (status_bits w) as (_ & Herr & Hrd).
  rewrite Hrd. cbn [mb_ready w mb_wait mb_out negb].
  rewrite (bind_step _ _ _ _ _ (status_run _ _ m)), Herr. cbn [mb_err w]. change (tick w) with w. subst w.
  rewrite (bind_step _ _ _ _ _ (pop_run _ h _ [] false m)), (bind_step _ _ _ _ _ (pop_run _ _ resp [] false m)).
  assert (u32 (u32 (Z.of_nat (length resp) + 2) - VAL_HOST_DOE_HEADER_LENGTH) = Z.of_nat (length resp)) as ->.
  { unfold u32, VAL_HOST_DOE_HEADER_LENGTH. rewrite (Z.mod_small (_ + 2)) by lia. rewrite Z.mod_small; lia. }
  rewrite Nat2Z.id.
  destruct (recv_loop_run resp q 0 (u32 (Z.of_nat (length resp) + 2)) m) as (v' & m' & E & Hk & Ho & Hs);
    [done|by rewrite Z.add_0_r|].
  rewrite (bind_step _ _ _ _ _ E), (bind_step _ _ _ _ _ (status_run _ _ m')).
  exists m'. rewrite Z.add_0_r in Ho. split; [|done].
  unfold ret. change (doe_bit _ _) with false. cbn match. change (tick mb_idle) with mb_idle.
  do 2 f_equal. lia.
Qed.

(** The response is not there yet. *)
Lemma recv_late q len w m :
  mb_ready w = false →
  val_host_pcie_doe_recv_resp bdf cap q len (at_ w m) = Ok (VAL_ERROR, len) (at_ (tick w) m).
Proof.
  intros Hr. unfold val_host_pcie_doe_recv_resp. rewrite (bind_step _ _ _ _ _ (status_run None _ m)).
  destruct (status_bits w) as (_ & _ & ->). by rewrite Hr.
Qed.

(** The device is busy, or reports an error. *)
Lemma send_refused q len ty w m :
  0 < Z.of_nat (mb_wait w) ∨ mb_err w = true →
  val_host_pcie_doe_send_req bdf cap q len ty (at_ w m) = Ok VAL_ERROR (at_ (tick w) m).
Proof.
  intros Hw. unfold val_host_pcie_doe_send_req. rewrite (bind_step _ _ _ _ _ (status_run None _ m)).
  destruct (status_bits w) as (-> & _). destruct (Z.ltb_spec 0 (Z.of_nat (mb_wait w))) as [|Hz]; [done|].
  destruct Hw as [?|He]; [lia|].
  assert (tick w = w) as Et by (destruct w as [i o [|] e]; [done|cbn in Hz; lia]).
  rewrite Et, (bind_step _ _ _ _ _ (status_run _ _ m)), Et.
  destruct (status_bits w) as (_ & -> & _). by rewrite He.
Qed.

(** C37. A data object exchange with a device that follows the mailbox protocol, from a
    mailbox in which nothing is left to read.  A device that is busy or in error
    is left alone and the exchange fails.  Else the device is handed one frame: header,
    length in words, the words of the request buffer, the last one padded.  If the
    response is there by the first reading of the status, the words of the response
    are stored in the response buffer, with their length in bytes, the mailbox is
    left empty and no other byte changes.  If the device takes longer, however little,
    the exchange fails at once and the response stays in the device. *)
Theorem doe_exchange w m q len r old ty resp :
  0 ≤ len < 2 ^ 32 → mb_in w = [] → (mb_wait w = 0%nat → mb_out w = []) →
  Mem.mapped m q (4 * Z.of_nat (Z.to_nat (doe_length len))) →
  response (respond (request ty m q len)) resp →
  Mem.mapped m r (4 * Z.of_nat (length resp)) →
  let run := val_host_pcie_doe_communicate bdf cap q len r old ty (at_ w m) in
  if (0 <? Z.of_nat (mb_wait w)) || mb_err w then run = Ok (VAL_ERROR, old) (at_ (tick w) m)
  else
    match delay (request ty m q len) with
    | O =>
        ∃ m', run = Ok (VAL_SUCCESS, 4 * Z.of_nat (length resp)) (at_ mb_idle m') ∧
              (∀ k x, resp !! k = Some x → le_val m' 4 (r + 4 * Z.of_nat k) = x) ∧
              only r (4 * Z.of_nat (length resp)) m m'
    | S d => run = Ok (VAL_ERROR, old) (at_ (mk_mbox [] (respond (request ty m q len)) d false) m)
    end.
Proof.
  intros Hl Hin Hout Hq Hr Hm. cbn zeta. unfold val_host_pcie_doe_communicate.
  assert (u32 len = len) as -> by (by apply Z.mod_small).
  destruct ((0 <? Z.of_nat (mb_wait w)) || mb_err w) eqn:Eb.
  { erewrite bind_step; [|apply send_refused]; [done|].
    apply orb_true_iff in Eb as [?%Z.ltb_lt|?]; [by left|by right]. }
  apply orb_false_iff in Eb as [Hw%Z.ltb_ge He]. destruct w as [wi wo [|n] we]; cbn [mb_in mb_out mb_wait mb_err] in *; [|lia].
  rewrite Hin, He, Hout by done.
  rewrite (bind_step _ _ _ _ _ (doe_send_run m q len ty [] Hl Hq)). cbn [Z.eqb VAL_SUCCESS negb].
  destruct (delay (request ty m q len)) as [|d]; cbv iota.
  - destruct (recv_run _ _ r old m Hr Hm) as (m' & E & Hx & Ho & _). exists m'. split; [exact E|done].
  - by rewrite recv_late.
Qed.

(** * A response that is longer than the buffer *)

Lemma write_bytes_faults l q a m :
  q ≤ a < q + Z.of_nat (length l) → m !! a = None → write_bytes q l m = Fault OutOfBounds.
Proof.
  revert q m. induction l as [|b l IH]; intros q m Ha Hm; cbn [length write_bytes] in *; [lia|].
  unfold bind, Mem.store8. destruct (m !! q) as [c|] eqn:Eq; [|done].
  destruct (decide (a = q)) as [->|]; [congruence|]. apply IH; [lia|]. by rewrite lookup_insert_ne.
Qed.

Lemma write_bytes_cases l q m :
  (∃ m', write_bytes q l m = Ok tt m') ∨ write_bytes q l m = Fault OutOfBounds.
Proof.
  revert q m. induction l as [|b l IH]; intros q m; cbn [write_bytes]; [left; by exists m|].
  unfold bind, Mem.store8. destruct (m !! q); [apply IH|by right].
Qed.

Lemma write_bytes_ok l q m m' : write_bytes q l m = Ok tt m' → ∀ a, m !! a = None → m' !! a = None.
Proof.
  revert q m. induction l as [|b l IH]; intros q m E a Ha; cbn [write_bytes] in E; [by inv_ok|].
  unfold bind, Mem.store8 in E. destruct (m !! q) as [c|] eqn:Eq; [|done].
  apply (IH _ _ E). rewrite lookup_insert_ne; [done|]. intros ->. congruence.
Qed.

(** The length of the response comes from the device and is not compared with the
    size of the buffer: a response that does not fit is written past its end. *)
Lemma recv_loop_overruns l q i v m k :
  (k < length l)%nat → m !! (q + 4 * (i + Z.of_nat k)) = None →
  fold_from (length l) i v (λ i value,
    let* value := pop_mailbox bdf cap value in
    on_mem (store32 (q + 4 * i) value) ;; ret value) (at_ (mk_mbox [] l 0 false) m) = Fault OutOfBounds.
Proof.
  revert i v m k. induction l as [|x l IH]; intros i v m k Hk Hm; cbn [length fold_from] in *; [lia|].
  rewrite bind_assoc, (bind_step _ _ _ _ _ (pop_run v x l [] false m)), bind_assoc.
  unfold bind at 1, on_mem, zoom, at_. cbn [fst snd].
  destruct (write_bytes_cases (word_bytes (u32 x)) (q + 4 * i) m) as [[m1 E]|E];
    unfold store32; rewrite E; [|done].
  destruct k as [|k].
  - rewrite Z.add_0_r in Hm. rewrite (write_bytes_faults _ _ (q + 4 * i) m) in E; [done|cbn; lia|done].
  - apply (IH (i + 1) (u32 x) m1 k); [lia|]. eapply write_bytes_ok; [exact E|].
    by replace (i + 1 + Z.of_nat k) with (i + Z.of_nat (S k)) by lia.
Qed.
End Device.

(** * An echo device *)

Definition demo_request_bytes : gmap Z Z :=
  list_to_map (imap (λ i b, (0x1000 + Z.of_nat i, b)) [1; 2; 3; 4; 5; 6; 7; 0]
               ++ imap (λ i b, (0x2000 + Z.of_nat i, b)) (replicate 8 0)).

(** It answers a request at once, or is late by two readings. *)
Lemma doe_exchange_witness :
  let p : pcie mbox := mk_pcie mb_idle (Some (mk_info 1 demo_blocks)) None pal_vars_init in
  (let H := mbox_bus (λ l, l) (λ _, 0%nat) demo_blocks 8 0x100 in
   ∃ m', val_host_pcie_doe_communicate 8 0x100 0x1000 7 0x2000 0 1 (at_ p mb_idle demo_request_bytes) =
           Ok (VAL_SUCCESS, 8) (at_ p mb_idle m') ∧
         (∀ k x, [0x04030201; 0x00070605] !! k = Some x → le_val m' 4 (0x2000 + 4 * Z.of_nat k) = x) ∧
         only 0x2000 8 demo_request_bytes m') ∧
  (let H := mbox_bus (λ l, l) (λ _, 2%nat) demo_blocks 8 0x100 in
   val_host_pcie_doe_communicate 8 0x100 0x1000 7 0x2000 0 1 (at_ p mb_idle demo_request_bytes) =
     Ok (VAL_ERROR, 0) (at_ p (mk_mbox [] [doe_header 1; 4; 0x04030201; 0x00070605] 1 false) demo_request_bytes)).
Proof.
  intros p.
  assert (words demo_request_bytes 0x1000 (Z.to_nat (doe_length 7)) = [0x04030201; 0x00070605]) as Hwords
    by by vm_compute.
  assert (∀ a, a = 0x1000 ∨ a = 0x2000 → Mem.mapped demo_request_bytes a 8) as Hm.
  { intros a Ha i Hi.
    assert (i = 0 ∨ i = 1 ∨ i = 2 ∨ i = 3 ∨ i = 4 ∨ i = 5 ∨ i = 6 ∨ i = 7) as Hi' by lia.
    destruct Ha as [-> | ->]; destruct_or! Hi'; subst i; eexists; vm_compute; reflexivity. }
  assert (request 1 demo_request_bytes 0x1000 7 = [doe_header 1; 4; 0x04030201; 0x00070605]) as Hreq
    by (unfold request; by rewrite Hwords).
  assert (response (request 1 demo_request_bytes 0x1000 7) [0x04030201; 0x00070605]) as Hresp.
  { rewrite Hreq. exists (doe_header 1). split; [done|]. split; [by vm_compute|]. repeat constructor; lia. }
  split.
  - exact (doe_exchange (λ l, l) (λ _, 0%nat) demo_blocks 8 0x100 p demo_info_wf eq_refl
      ltac:(apply (demo_mapped 1 0); lia) ltac:(lia) mb_idle demo_request_bytes 0x1000 7 0x2000 0 1
      [0x04030201; 0x00070605] ltac:(lia) eq_refl (λ _, eq_refl) (Hm _ (or_introl eq_refl)) Hresp
      (Hm _ (or_intror eq_refl))).
  - pose proof (doe_exchange (λ l, l) (λ _, 2%nat) demo_blocks 8 0x100 p demo_info_wf eq_refl
      ltac:(apply (demo_mapped 1 0); lia) ltac:(lia) mb_idle demo_request_bytes 0x1000 7 0x2000 0 1
      [0x04030201; 0x00070605] ltac:(lia) eq_refl (λ _, eq_refl) (Hm _ (or_introl eq_refl)) Hresp
      (Hm _ (or_intror eq_refl))) as E.
    cbn zeta in E. rewrite Hreq in E. exact E.
Defined.
