(* ===== verification/Da.v ===== *)
(** Device assignment on the host side (val_host_da.c): the exchange between RMM,
    host and device that drives a PDEV or VDEV to a state, the cache of the objects
    the RMM hands out on the way, and the teardown of both.

    The objects behind [pdev_obj] and [vdev_obj] are [d_pdev] and the array
    [d_vdevs]; their integer and pointer members are a function of the member's
    name.  A [vdev_obj] argument is an index of the array, [None] is NULL; a [realm]
    or [pdev_obj] argument tells whether the pointer is not NULL.  The structure of
    a communication is in host memory, where the RMM writes its half. *)
From S2P Require Import Prelude Defs Alloc Granule Host Rmi RecExit Libc Rhi Pcie PcieEnum Doe.

(** * Constants (val_rmm.h, val_host_da.h) *)

Definition RMI_ASSIGNED_DEV : Z := 3.
Definition RMI_PDEV_NEW : Z := 0.
Definition RMI_PDEV_NEEDS_KEY : Z := 1.
Definition RMI_PDEV_HAS_KEY : Z := 2.
Definition RMI_PDEV_READY : Z := 3.
Definition RMI_PDEV_IDE_RESETTING : Z := 4.
Definition RMI_PDEV_COMMUNICATING : Z := 5.
Definition RMI_PDEV_STOPPING : Z := 6.
Definition RMI_PDEV_STOPPED : Z := 7.
Definition RMI_PDEV_ERROR : Z := 8.
Definition RMI_VDEV_NEW : Z := 0.
Definition RMI_VDEV_UNLOCKED : Z := 1.
Definition RMI_VDEV_LOCKED : Z := 2.
Definition RMI_VDEV_STARTED : Z := 3.
Definition RMI_VDEV_ERROR : Z := 4.
Definition RMI_DEV_COMM_EXIT_FLAGS_REQ_CACHE_BIT : Z := Z.shiftl 1 0.
Definition RMI_DEV_COMM_EXIT_FLAGS_RSP_CACHE_BIT : Z := Z.shiftl 1 1.
Definition RMI_DEV_COMM_EXIT_FLAGS_REQ_SEND_BIT : Z := Z.shiftl 1 2.
Definition RMI_DEV_VCA : Z := 0.
Definition RMI_DEV_CERTIFICATE : Z := 1.
Definition RMI_DEV_MEASUREMENTS : Z := 2.
Definition RMI_DEV_INTERFACE_REPORT : Z := 3.
Definition RMI_DEV_COMM_NONE : Z := 0.
Definition RMI_DEV_COMM_RESPONSE : Z := 1.
Definition RMI_DEV_COMM_ERROR : Z := 2.

Definition GRANULE_SIZE : Z := 0x1000.
Definition VAL_HOST_PDEV_CERT_LEN_MAX : Z := 64 * 1024.
Definition VAL_HOST_PDEV_VCA_LEN_MAX : Z := 4 * 1024.
Definition VAL_HOST_VDEV_MEAS_LEN_MAX : Z := 4 * 1024.
Definition VAL_HOST_VDEV_IFC_REPORT_LEN_MAX : Z := 8 * 1024.
Definition NCOH_ADDR_RANGE_NUM : nat := 6.
Definition BAR_TYPE_0_MAX_OFFSET : Z := 0x24.

(** Offsets in [val_host_dev_comm_data_ts]. *)
Definition ENTER_STATUS : Z := 0x0.
Definition ENTER_REQ_ADDR : Z := 0x8.
Definition ENTER_RESP_ADDR : Z := 0x10.
Definition ENTER_RESP_LEN : Z := 0x18.
Definition COMM_EXIT : Z := 0x800.
Definition EXIT_FLAGS : Z := COMM_EXIT + 0x0.
Definition EXIT_REQ_CACHE_OFFSET : Z := COMM_EXIT + 0x8.
Definition EXIT_REQ_CACHE_LEN : Z := COMM_EXIT + 0x10.
Definition EXIT_RSP_CACHE_OFFSET : Z := COMM_EXIT + 0x18.
Definition EXIT_RSP_CACHE_LEN : Z := COMM_EXIT + 0x20.
Definition EXIT_CACHE_OBJ_ID : Z := COMM_EXIT + 0x28.
Definition EXIT_PROTOCOL : Z := COMM_EXIT + 0x30.
Definition EXIT_REQ_LEN : Z := COMM_EXIT + 0x40.

(** * State *)

Inductive pdev_field : Type :=
  | pd_pdev | pd_flags | pd_comm | pd_cert_slot_id | pd_cert_chain | pd_cert_chain_len
  | pd_vca | pd_vca_len | pd_public_key | pd_public_key_len | pd_metadata | pd_metadata_len
  | pd_sig_algo | pd_bdf | pd_doe_cap_base | pd_ncoh_num.

Inductive vdev_field : Type :=
  | vd_vdev | vd_pdev | vd_vdev_id | vd_comm | vd_meas | vd_meas_len | vd_ifc_report
  | vd_ifc_report_len.

#[export] Instance pdev_field_eq_dec : EqDecision pdev_field.
Proof. solve_decision. Defined.

#[export] Instance vdev_field_eq_dec : EqDecision vdev_field.
Proof. solve_decision. Defined.

(** [pd_ranges] is the array [ncoh_addr_range], as pairs of base and top. *)
Record val_host_pdev_ts : Type := mk_pdev { pd_get : pdev_field → Z; pd_ranges : list (Z * Z) }.

Definition val_host_vdev_ts : Type := vdev_field → Z.

Definition pdev_zero : val_host_pdev_ts := mk_pdev (λ _, 0) (replicate NCOH_ADDR_RANGE_NUM (0, 0)).
Definition vdev_zero : val_host_vdev_ts := λ _, 0.

Definition pd_set (f : pdev_field) (v : Z) (p : val_host_pdev_ts) : val_host_pdev_ts :=
  mk_pdev (λ g, if decide (g = f) then v else pd_get p g) (pd_ranges p).
Definition vd_set (f : vdev_field) (v : Z) (d : val_host_vdev_ts) : val_host_vdev_ts :=
  λ g, if decide (g = f) then v else d g.

Record da (W P : Type) : Type := mk_da {
  d_host : host W;
  d_pcie : pcie P;
  d_pdev : val_host_pdev_ts;
  d_vdevs : list val_host_vdev_ts;
  g_da_vdev_count : Z;
  g_da_next_handle : Z;
  da_handle : Z
}.

Arguments mk_da {W P}.
Arguments d_host {W P}.
Arguments d_pcie {W P}.
Arguments d_pdev {W P}.
Arguments d_vdevs {W P}.
Arguments g_da_vdev_count {W P}.
Arguments g_da_next_handle {W P}.
Arguments da_handle {W P}.

Section Da.
Context {W P : Type} `{RMM W} `{MmioBus P}.
Implicit Types s : da W P.

Definition set_d_host (h : host W) s : da W P :=
  mk_da h (d_pcie s) (d_pdev s) (d_vdevs s) (g_da_vdev_count s) (g_da_next_handle s) (da_handle s).
Definition set_d_pcie (p : pcie P) s : da W P :=
  mk_da (d_host s) p (d_pdev s) (d_vdevs s) (g_da_vdev_count s) (g_da_next_handle s) (da_handle s).
Definition set_d_pdev (p : val_host_pdev_ts) s : da W P :=
  mk_da (d_host s) (d_pcie s) p (d_vdevs s) (g_da_vdev_count s) (g_da_next_handle s) (da_handle s).
Definition set_d_vdevs (l : list val_host_vdev_ts) s : da W P :=
  mk_da (d_host s) (d_pcie s) (d_pdev s) l (g_da_vdev_count s) (g_da_next_handle s) (da_handle s).
Definition set_vdev_count (n : Z) s : da W P :=
  mk_da (d_host s) (d_pcie s) (d_pdev s) (d_vdevs s) n (g_da_next_handle s) (da_handle s).
Definition set_handles (next handle : Z) s : da W P :=
  mk_da (d_host s) (d_pcie s) (d_pdev s) (d_vdevs s) (g_da_vdev_count s) next handle.

Definition da_host {A : Type} (m : M (host W) A) : M (da W P) A := zoom d_host set_d_host m.
Definition da_bytes {A : Type} (m : M (gmap Z Z) A) : M (da W P) A := da_host (zoom h_mem hset_mem m).
Definition da_pcie {A : Type} (m : M (pcie P) A) : M (da W P) A := zoom d_pcie set_d_pcie m.
Definition da_doe {A : Type} (m : M (pcie P * gmap Z Z) A) : M (da W P) A :=
  zoom (λ s, (d_pcie s, h_mem (d_host s)))
       (λ x s, set_d_pcie (fst x) (set_d_host (hset_mem (snd x) (d_host s)) s)) m.

Definition get_pdev (f : pdev_field) : M (da W P) Z := gets (λ s, pd_get (d_pdev s) f).
Definition set_pdev (f : pdev_field) (v : Z) : M (da W P) unit :=
  modify (λ s, set_d_pdev (pd_set f v (d_pdev s)) s).

Definition get_vdev (i : nat) (f : vdev_field) : M (da W P) Z :=
  let* l := gets d_vdevs in
  match l !! i with
  | Some d => ret (d f)
  | None => fail OutOfBounds
  end.
Definition set_vdev (i : nat) (f : vdev_field) (v : Z) : M (da W P) unit :=
  let* l := gets d_vdevs in
  match l !! i with
  | Some d => modify (set_d_vdevs (<[i := vd_set f v d]> l))
  | None => fail OutOfBounds
  end.

(** Members behind the pointer [dev_comm_data]. *)
Definition comm_load (comm off : Z) : M (da W P) Z :=
  if comm =? 0 then fail NullDeref else da_host (load (comm + off)).
Definition comm_store (comm off v : Z) : M (da W P) unit :=
  if comm =? 0 then fail NullDeref else da_host (store (comm + off) v).

(** * The exchange with the device *)

Definition val_host_pdev_doe_communicate (comm : Z) : M (da W P) Z :=
  let* bdf := get_pdev pd_bdf in
  let* doe_cap_base := get_pdev pd_doe_cap_base in
  let* req_addr := comm_load comm ENTER_REQ_ADDR in
  let* req_len := comm_load comm EXIT_REQ_LEN in
  let* resp_addr := comm_load comm ENTER_RESP_ADDR in
  let* protocol := comm_load comm EXIT_PROTOCOL in
  let* r := da_doe (val_host_pcie_doe_communicate bdf doe_cap_base req_addr req_len resp_addr 0
                      (u8 protocol)) in
  if fst r =? 0 then
    comm_store comm ENTER_STATUS RMI_DEV_COMM_RESPONSE ;;
    comm_store comm ENTER_RESP_LEN (snd r) ;;
    ret 0
  else
    comm_store comm ENTER_STATUS RMI_DEV_COMM_ERROR ;;
    comm_store comm ENTER_RESP_LEN 0 ;;
    ret VAL_ERROR.

(** * The cache of device objects *)

(** The steps all four objects share: the buffer and the length are those of the
    object. *)
Definition cache_append (len max : Z) (set_len : Z → M (da W P) unit) (buf dev_obj_buf dev_obj_buf_len : Z)
    : M (da W P) Z :=
  if max <? u64 (len + dev_obj_buf_len) then ret VAL_ERROR
  else
    da_bytes (Mem.val_memcpy (u64 (buf + len)) dev_obj_buf dev_obj_buf_len) ;;
    set_len (u64 (len + dev_obj_buf_len)) ;;
    ret 0.

Definition val_host_pdev_cache_device_object (dev_obj_id dev_obj_buf dev_obj_buf_len : Z) : M (da W P) Z :=
  if dev_obj_id =? RMI_DEV_CERTIFICATE then
    let* len := get_pdev pd_cert_chain_len in
    let* buf := get_pdev pd_cert_chain in
    cache_append len VAL_HOST_PDEV_CERT_LEN_MAX (set_pdev pd_cert_chain_len) buf dev_obj_buf dev_obj_buf_len
  else if dev_obj_id =? RMI_DEV_VCA then
    let* len := get_pdev pd_vca_len in
    let* buf := get_pdev pd_vca in
    cache_append len VAL_HOST_PDEV_VCA_LEN_MAX (set_pdev pd_vca_len) buf dev_obj_buf dev_obj_buf_len
  else ret VAL_ERROR.

Definition val_host_vdev_cache_device_object (i : nat) (dev_obj_id dev_obj_buf dev_obj_buf_len : Z)
    : M (da W P) Z :=
  if dev_obj_id =? RMI_DEV_MEASUREMENTS then
    let* len := get_vdev i vd_meas_len in
    let* buf := get_vdev i vd_meas in
    cache_append len VAL_HOST_VDEV_MEAS_LEN_MAX (set_vdev i vd_meas_len) buf dev_obj_buf dev_obj_buf_len
  else if dev_obj_id =? RMI_DEV_INTERFACE_REPORT then
    let* len := get_vdev i vd_ifc_report_len in
    let* buf := get_vdev i vd_ifc_report in
    cache_append len VAL_HOST_VDEV_IFC_REPORT_LEN_MAX (set_vdev i vd_ifc_report_len) buf dev_obj_buf
      dev_obj_buf_len
  else ret VAL_ERROR.

Definition val_host_dev_cache_dev_object (vdev_obj : option nat)
    (dev_obj_buf cache_obj_id cache_offset cache_len : Z) : M (da W P) Z :=
  if negb (cache_len =? 0) && (GRANULE_SIZE <? u64 (cache_offset + cache_len)) then ret VAL_ERROR
  else
    let dev_obj_cache := u64 (dev_obj_buf + cache_offset) in
    match vdev_obj with
    | Some i => val_host_vdev_cache_device_object i cache_obj_id dev_obj_cache cache_len
    | None => val_host_pdev_cache_device_object cache_obj_id dev_obj_cache cache_len
    end.

Definition val_host_dev_cache_dev_req_resp (vdev_obj : option nat) (comm : Z) : M (da W P) Z :=
  let* req_cache_len := comm_load comm EXIT_REQ_CACHE_LEN in
  let* rsp_cache_len := comm_load comm EXIT_RSP_CACHE_LEN in
  if (req_cache_len =? 0) && (rsp_cache_len =? 0) then ret VAL_ERROR
  else
    let* req_addr := comm_load comm ENTER_REQ_ADDR in
    let* obj_id := comm_load comm EXIT_CACHE_OBJ_ID in
    let* req_cache_offset := comm_load comm EXIT_REQ_CACHE_OFFSET in
    let* rc := val_host_dev_cache_dev_object vdev_obj req_addr (u8 obj_id) req_cache_offset req_cache_len in
    if negb (rc =? 0) then ret VAL_ERROR
    else
      let* resp_addr := comm_load comm ENTER_RESP_ADDR in
      let* obj_id := comm_load comm EXIT_CACHE_OBJ_ID in
      let* rsp_cache_offset := comm_load comm EXIT_RSP_CACHE_OFFSET in
      let* rsp_cache_len := comm_load comm EXIT_RSP_CACHE_LEN in
      val_host_dev_cache_dev_object vdev_obj resp_addr (u8 obj_id) rsp_cache_offset rsp_cache_len.

(** * Driving a device to a state *)

Definition val_host_rmi_dev_communicate (realm_ptr : bool) (vdev_obj : option nat) : M (da W P) Z :=
  match vdev_obj with
  | Some i =>
      if negb realm_ptr then fail NullDeref
      else
        let* rd := da_host (realm r_rd) in
        let* pdev := get_vdev i vd_pdev in
        let* vdev := get_vdev i vd_vdev in
        let* comm := get_vdev i vd_comm in
        let* r := da_host (val_host_rmi_vdev_communicate rd pdev vdev comm) in
        ret (x0 r)
  | None =>
      let* pdev := get_pdev pd_pdev in
      let* comm := get_pdev pd_comm in
      let* r := da_host (val_host_rmi_pdev_communicate pdev comm) in
      ret (x0 r)
  end.

(** The status and [*state]. *)
Definition val_host_vdev_get_state (i : nat) (state : Z) : M (da W P) (Z * Z) :=
  let* vdev := get_vdev i vd_vdev in
  let* r := da_host (val_host_rmi_vdev_get_state vdev) in
  if negb (x0 r =? 0) then ret (VAL_ERROR, state) else ret (0, x1 r).

Definition val_host_pdev_get_state (state : Z) : M (da W P) (Z * Z) :=
  let* pdev := get_pdev pd_pdev in
  let* r := da_host (val_host_rmi_pdev_get_state pdev) in
  if negb (x0 r =? 0) then ret (VAL_ERROR, state) else ret (0, x1 r).

Definition val_host_dev_get_state (vdev_obj : option nat) (state : Z) : M (da W P) (Z * Z) :=
  match vdev_obj with
  | Some i => val_host_vdev_get_state i state
  | None => val_host_pdev_get_state state
  end.

Definition has_flag (flags bit : Z) : bool := truthy (Z.land flags bit).

(** The turn of the loop that follows a successful command: caching, sending, and
    the new state; the value is the return code when one of them fails. *)
Definition serve_exit (vdev_obj : option nat) (comm : Z) : M (da W P) (option Z) :=
  let* flags := comm_load comm EXIT_FLAGS in
  let* rc := (if has_flag flags RMI_DEV_COMM_EXIT_FLAGS_REQ_CACHE_BIT
                 || has_flag flags RMI_DEV_COMM_EXIT_FLAGS_RSP_CACHE_BIT
              then val_host_dev_cache_dev_req_resp vdev_obj comm else ret 0) in
  if negb (rc =? 0) then ret (Some rc)
  else
    let* flags := comm_load comm EXIT_FLAGS in
    let* rc := (if has_flag flags RMI_DEV_COMM_EXIT_FLAGS_REQ_SEND_BIT
                then val_host_pdev_doe_communicate comm
                else comm_store comm ENTER_STATUS RMI_DEV_COMM_NONE ;; ret 0) in
    if negb (rc =? 0) then ret (Some rc) else ret None.

(** [do ... while (!stop)]: the RMM decides how long. *)
Fixpoint communicate_loop (fuel : nat) (realm_ptr : bool) (vdev_obj : option nat)
    (comm error_state target_state state : Z) : M (da W P) Z :=
  match fuel with
  | O => out_of_fuel
  | S fuel =>
      let* r := val_host_rmi_dev_communicate realm_ptr vdev_obj in
      if negb (r =? 0) then ret VAL_ERROR
      else
        let* failed := serve_exit vdev_obj comm in
        match failed with
        | Some rc => ret rc
        | None =>
            let* g := val_host_dev_get_state vdev_obj state in
            let state := snd g in
            if negb (fst g =? 0) then ret (fst g)
            else
              let again := communicate_loop fuel realm_ptr vdev_obj comm error_state target_state state in
              if state =? target_state then
                let* flags := comm_load comm EXIT_FLAGS in
                if flags =? 0 then ret 0 else again
              else if state =? error_state then ret VAL_ERROR
              else again
        end
  end.

Definition val_host_dev_communicate (fuel : nat) (realm_ptr pdev_obj : bool) (vdev_obj : option nat)
    (target_state : Z) : M (da W P) Z :=
  if negb pdev_obj then ret VAL_ERROR
  else
    let* comm := match vdev_obj with Some i => get_vdev i vd_comm | None => get_pdev pd_comm end in
    let error_state := match vdev_obj with Some _ => RMI_VDEV_ERROR | None => RMI_PDEV_ERROR end in
    comm_store comm ENTER_STATUS RMI_DEV_COMM_NONE ;;
    comm_store comm ENTER_RESP_LEN 0 ;;
    let* g := val_host_dev_get_state vdev_obj 0 in
    if negb (fst g =? 0) then ret (fst g)
    else communicate_loop fuel realm_ptr vdev_obj comm error_state (u8 target_state) (snd g).

(** * Teardown *)

(** [while (ipa < top)]: one turn for each page of a region. *)
Fixpoint unmap_pages (fuel : nat) (ipa top : Z) : M (da W P) (option Z) :=
  match fuel with
  | O => out_of_fuel
  | S fuel =>
      if negb (ipa <? top) then ret None
      else
        let* rd := da_host (realm r_rd) in
        let* r := da_host (val_host_rmi_rtt_read_entry rd ipa VAL_RTT_MAX_LEVEL) in
        if truthy (fst r) then ret (Some VAL_ERROR)
        else if rtte_state (snd r) =? RMI_ASSIGNED_DEV then
          let* rd := da_host (realm r_rd) in
          let* args := da_host (val_host_rmi_vdev_unmap rd ipa VAL_RTT_MAX_LEVEL) in
          if truthy (x0 args) then ret (Some VAL_ERROR)
          else unmap_pages fuel (u64 (ipa + PAGE_SIZE)) top
        else unmap_pages fuel (u64 (ipa + PAGE_SIZE)) top
  end.

(** One region of the table of device mappings. *)
Definition unmap_region (i : Z) : M (da W P) (option Z) :=
  let* g := da_host (arr_get r_dev_granules i) in
  let ipa := gm_ipa g in
  let size := gm_size g in
  if (size =? 0) || truthy (size mod PAGE_SIZE) then ret (Some VAL_ERROR)
  else unmap_pages (S (Z.to_nat (size / PAGE_SIZE))) ipa (u64 (ipa + size)).

Definition destroy_vdev (i : nat) : M (da W P) val_smc_param_ts :=
  let* rd := da_host (realm r_rd) in
  let* pdev := get_vdev i vd_pdev in
  let* vdev := get_vdev i vd_vdev in
  da_host (val_host_rmi_vdev_destroy rd pdev vdev).

(** Where unlocking fails: a VDEV in the error state is destroyed, another one is
    left, and both count as success. *)
Definition unlock_failed (i : nat) : M (da W P) Z :=
  let* vdev := get_vdev i vd_vdev in
  let* args := da_host (val_host_rmi_vdev_get_state vdev) in
  if truthy (x0 args) then ret VAL_ERROR
  else if x1 args =? RMI_VDEV_ERROR then
    let* args := destroy_vdev i in
    if truthy (x0 args) then ret VAL_ERROR else ret VAL_SUCCESS
  else ret VAL_SUCCESS.

(** The end of the teardown, for a VDEV that is not locked or is unlocked now. *)
Definition finish_teardown (i : nat) : M (da W P) Z :=
  da_host (set_realm (rset_dev_granules_mapped_count 0)) ;;
  let* args := destroy_vdev i in
  if truthy (x0 args) then ret VAL_ERROR else ret VAL_SUCCESS.

Definition val_host_vdev_teardown (fuel : nat) (realm_ptr pdev_obj : bool) (vdev_obj : option nat)
    : M (da W P) Z :=
  match vdev_obj with
  | None => ret VAL_SUCCESS
  | Some i =>
      let* vdev := get_vdev i vd_vdev in
      if vdev =? 0 then ret VAL_SUCCESS
      else
        let* pdev := get_vdev i vd_pdev in
        if negb realm_ptr || negb pdev_obj || (pdev =? 0) then ret VAL_ERROR
        else
          let* count := da_host (realm r_dev_granules_mapped_count) in
          let* failed := for_upto count unmap_region in
          match failed with
          | Some e => ret e
          | None =>
              let* args := da_host (val_host_rmi_vdev_get_state vdev) in
              if truthy (x0 args) then ret VAL_ERROR
              else if (x1 args =? RMI_VDEV_LOCKED) || (x1 args =? RMI_VDEV_STARTED) then
                let* rd := da_host (realm r_rd) in
                let* args := da_host (val_host_rmi_vdev_unlock rd pdev vdev) in
                if truthy (x0 args) then unlock_failed i
                else
                  let* rc := val_host_dev_communicate fuel realm_ptr pdev_obj (Some i) RMI_VDEV_UNLOCKED in
                  if truthy rc then unlock_failed i else finish_teardown i
              else finish_teardown i
          end
  end.

(** [args = val_host_rmi_pdev_get_state(pdev_ptr)], [None] when it fails. *)
Definition pdev_state_of (pdev_ptr : Z) : M (da W P) (option Z) :=
  let* args := da_host (val_host_rmi_pdev_get_state pdev_ptr) in
  ret (if truthy (x0 args) then None else Some (x1 args)).

(** Leave a transitional state by driving the PDEV to [target]. *)
Definition leave_state (fuel : nat) (transitional : bool) (pdev_ptr target state : Z)
    : M (da W P) (option Z) :=
  if transitional then
    let* rc := val_host_dev_communicate fuel false true None target in
    if truthy rc then ret None else pdev_state_of pdev_ptr
  else ret (Some state).

(** The buffers of a PDEV that was never driven; the value tells whether they are
    there.  The structure of the communication is used without a test. *)
Definition prepare_new (pdev_ptr : Z) : M (da W P) bool :=
  let* vca := da_host (mem_alloc_h PAGE_SIZE VAL_HOST_PDEV_VCA_LEN_MAX) in
  set_pdev pd_vca vca ;;
  set_pdev pd_vca_len 0 ;;
  if vca =? 0 then ret false
  else
    let* req_addr := da_host (mem_alloc_h PAGE_SIZE PAGE_SIZE) in
    if negb (truthy req_addr) then ret false
    else
      let* resp_addr := da_host (mem_alloc_h PAGE_SIZE PAGE_SIZE) in
      if negb (truthy resp_addr) then ret false
      else
        set_pdev pd_pdev pdev_ptr ;;
        let* comm := da_host (mem_alloc_h PAGE_SIZE PAGE_SIZE) in
        set_pdev pd_comm comm ;;
        comm_store comm ENTER_REQ_ADDR req_addr ;;
        comm_store comm ENTER_RESP_ADDR resp_addr ;;
        ret true.

Definition stop_pdev (fuel : nat) (pdev_ptr state : Z) : M (da W P) bool :=
  let* ready := (if state =? RMI_PDEV_NEW then prepare_new pdev_ptr else ret true) in
  if negb ready then ret false
  else
    let* args := da_host (val_host_rmi_pdev_stop pdev_ptr) in
    if truthy (x0 args) then ret false
    else
      let* rc := val_host_dev_communicate fuel false true None RMI_PDEV_STOPPED in
      if truthy rc then ret false
      else
        let* st := pdev_state_of pdev_ptr in
        match st with
        | None => ret false
        | Some st => ret (st =? RMI_PDEV_STOPPED)
        end.

Definition val_host_pdev_teardown (fuel : nat) (pdev_obj : bool) (pdev_ptr : Z) : M (da W P) Z :=
  if negb pdev_obj || (pdev_ptr =? 0) then ret VAL_ERROR
  else
    let* st := pdev_state_of pdev_ptr in
    match st with
    | None => ret VAL_ERROR
    | Some state =>
        let* st := leave_state fuel ((state =? RMI_PDEV_COMMUNICATING) || (state =? RMI_PDEV_IDE_RESETTING))
                     pdev_ptr RMI_PDEV_READY state in
        match st with
        | None => ret VAL_ERROR
        | Some state =>
            let* st := leave_state fuel (state =? RMI_PDEV_STOPPING) pdev_ptr RMI_PDEV_STOPPED state in
            match st with
            | None => ret VAL_ERROR
            | Some state =>
                let* stopped := (if negb (state =? RMI_PDEV_STOPPED) then stop_pdev fuel pdev_ptr state
                                 else ret true) in
                if negb stopped then ret VAL_ERROR
                else
                  let* args := da_host (val_host_rmi_pdev_destroy pdev_ptr) in
                  if truthy (x0 args) then ret VAL_ERROR else ret VAL_SUCCESS
            end
        end
    end.

(** * The memory of the device *)

(** [ncoh_addr_range[i]] and the counter. *)
Definition add_range (i addr size : Z) : M (da W P) unit :=
  let* p := gets d_pdev in
  if (i <? 0) || (Z.of_nat (length (pd_ranges p)) <=? i) then fail OutOfBounds
  else
    modify (set_d_pdev (mk_pdev (pd_get p) (<[Z.to_nat i := (addr, u64 (addr + size))]> (pd_ranges p)))) ;;
    let* n := get_pdev pd_ncoh_num in
    set_pdev pd_ncoh_num (u64 (n + 1)).

(** The loop over the base address registers, with [offset]. *)
Fixpoint range_loop (fuel : nat) (i offset : Z) : M (da W P) unit :=
  match fuel with
  | O => ret tt
  | S fuel =>
      let* bdf := get_pdev pd_bdf in
      let* r := da_pcie (val_pcie_get_bar bdf offset) in
      let '(offset, addr, size) := r in
      if size =? 0 then ret tt
      else
        add_range i addr size ;;
        if BAR_TYPE_0_MAX_OFFSET <? offset then ret tt else range_loop fuel (i + 1) offset
  end.

Definition val_host_get_addr_range : M (da W P) unit :=
  set_pdev pd_ncoh_num 0 ;;
  modify (λ s, set_d_pdev (mk_pdev (pd_get (d_pdev s)) (replicate NCOH_ADDR_RANGE_NUM (0, 0))) s) ;;
  range_loop NCOH_ADDR_RANGE_NUM 0 BAR0_OFFSET.
End Da.
