(* ===== verification/RhiDa.v ===== *)
(** Device assignment calls of the Realm Host Interface (the second half of
    val_host_rhi.c): the objects of a device, its asynchronous operations with
    their handles, and the dispatcher [val_host_rhi_da_dispatch].

    [vdev_obj] points to the first element of the array [d_vdevs]; the registers
    are those of the first REC, as in [Rhi]. *)
From S2P Require Import Prelude Defs Alloc Granule Host Rmi RecExit Libc Rhi Pcie PcieEnum Doe Da.

Definition RHI_DA_VERSION : Z := 0xC500004A.
Definition RHI_DA_FEATURES : Z := 0xC500004B.
Definition RHI_DA_OBJECT_SIZE : Z := 0xC500004C.
Definition RHI_DA_OBJECT_READ : Z := 0xC500004D.
Definition RHI_DA_VDEV_CONTINUE : Z := 0xC5000051.
Definition RHI_DA_VDEV_GET_MEASUREMENTS : Z := 0xC5000052.
Definition RHI_DA_VDEV_GET_INTERFACE_REPORT : Z := 0xC5000053.
Definition RHI_DA_VDEV_SET_TDI_STATE : Z := 0xC5000054.
Definition RHI_DA_VDEV_P2P_UNBIND : Z := 0xC5000055.
Definition RHI_DA_VDEV_ABORT : Z := 0xC5000056.

Definition RHI_DA_SUCCESS : Z := 0.
Definition RHI_DA_ERROR_INCOMPLETE : Z := 1.
Definition RHI_DA_ERROR_DATA_NOT_AVAILABLE : Z := 2.
Definition RHI_DA_ERROR_INVALID_VDEV_ID : Z := 3.
Definition RHI_DA_ERROR_INVALID_OBJECT : Z := 4.
Definition RHI_DA_ERROR_DEVICE : Z := 6.
Definition RHI_DA_ERROR_INVALID_OFFSET : Z := 7.
Definition RHI_DA_ERROR_ACCESS_FAILED : Z := 8.
Definition RHI_DA_ERROR_BUSY : Z := 9.
Definition RHI_DA_ABORTED_OPERATION_HAD_COMPLETED : Z := 10.
Definition RHI_DA_ERROR_OBJECT_UNSUPPORTED : Z := 11.

Definition RHI_DA_DEV_VCA : Z := 0.
Definition RHI_DA_DEV_CERTIFICATE : Z := 1.
Definition RHI_DA_DEV_MEASUREMENTS : Z := 2.
Definition RHI_DA_DEV_INTERFACE_REPORT : Z := 3.
Definition RHI_DA_DEV_EXTENSION_EVIDENCE : Z := 4.
Definition RHI_DA_TDI_CONFIG_LOCKED : Z := 1.
Definition RHI_DA_TDI_CONFIG_RUN : Z := 2.

Definition RHI_DA_SUPPORTED_MASK : Z :=
  Z.lor (Z.shiftl 1 0) (Z.lor (Z.shiftl 1 1) (Z.lor (Z.shiftl 1 2) (Z.lor (Z.shiftl 1 3)
    (Z.lor (Z.shiftl 1 4) (Z.lor (Z.shiftl 1 5) (Z.lor (Z.shiftl 1 6) (Z.shiftl 1 7))))))).

Section RhiDa.
Context {W P : Type} `{RMM W} `{MmioBus P} `{SharedRegion}.
Implicit Types s : da W P.

Definition da_exit_gpr (i : Z) : M (da W P) Z :=
  let* run := da_host (arr_get r_run 0) in da_host (load (exit_gpr run i)).
Definition da_enter_gpr (i v : Z) : M (da W P) unit :=
  let* run := da_host (arr_get r_run 0) in da_host (store (enter_gpr run i) v).

(** The static counter of [val_da_alloc_handle], and the handle that the next
    VDEV_CONTINUE must name. *)
Definition val_da_alloc_handle : M (da W P) Z :=
  let* handle := gets da_handle in
  let* next := gets g_da_next_handle in
  modify (set_handles next (u64 (handle + 1))) ;;
  ret handle.

(** [rec_enter->gprs[1] = val_da_alloc_handle(); g_da_next_handle = rec_enter->gprs[1];
    return RHI_DA_ERROR_INCOMPLETE]. *)
Definition incomplete : M (da W P) Z :=
  let* h := val_da_alloc_handle in
  da_enter_gpr 1 h ;;
  let* handle := gets da_handle in
  modify (set_handles h handle) ;;
  ret RHI_DA_ERROR_INCOMPLETE.

Definition val_rhi_da_vdev_continue (fuel : nat) : M (da W P) Z :=
  let* vdev_id := da_exit_gpr 1 in
  let* handle := da_exit_gpr 2 in
  let* next := gets g_da_next_handle in
  if negb (next =? handle) then ret RHI_DA_ERROR_INVALID_VDEV_ID
  else
    let* id0 := get_vdev 0 vd_vdev_id in
    let* target := (if negb (id0 =? vdev_id) then
                      let* count := gets g_da_vdev_count in
                      if 1 <? count then
                        let* id1 := get_vdev 1 vd_vdev_id in
                        ret (if id1 =? vdev_id then Some 1%nat else None)
                      else ret None
                    else ret (Some 0%nat)) in
    match target with
    | None => ret RHI_DA_ERROR_INVALID_VDEV_ID
    | Some i =>
        let* rc := val_host_dev_communicate fuel true true (Some i) RMI_VDEV_LOCKED in
        if truthy rc then ret RHI_DA_ERROR_DEVICE else ret RHI_DA_SUCCESS
    end.

(** The guard of the calls that name a VDEV in x1, and what runs behind it. *)
Definition with_vdev (k : Z → M (da W P) Z) : M (da W P) Z :=
  let* vdev_id := da_exit_gpr 1 in
  let* id := get_vdev 0 vd_vdev_id in
  if negb (id =? vdev_id) then ret RHI_DA_ERROR_INVALID_VDEV_ID else k vdev_id.

Definition val_rhi_da_vdev_get_measurements : M (da W P) Z :=
  let* params_ipa := da_exit_gpr 2 in
  with_vdev (λ _,
    if negb (truthy params_ipa) then ret RHI_DA_ERROR_ACCESS_FAILED
    else
      let* rd := da_host (realm r_rd) in
      let* pdev := get_vdev 0 vd_pdev in
      let* vdev := get_vdev 0 vd_vdev in
      let* args := da_host (val_host_rmi_vdev_get_measurements rd pdev vdev shared_buffer) in
      if truthy (x0 args) then ret RHI_DA_ERROR_DEVICE else incomplete).

(** The source buffer and the size of an object, or the error. *)
Definition da_object (obj_type : Z) : M (da W P) (Z * Z + Z) :=
  let pdev_object buf len :=
    let* b := get_pdev buf in let* n := get_pdev len in ret (inl (b, n)) in
  let vdev_object buf len :=
    let* b := get_vdev 0 buf in let* n := get_vdev 0 len in ret (inl (b, n)) in
  if obj_type =? RHI_DA_DEV_VCA then pdev_object pd_vca pd_vca_len
  else if obj_type =? RHI_DA_DEV_CERTIFICATE then pdev_object pd_cert_chain pd_cert_chain_len
  else if obj_type =? RHI_DA_DEV_MEASUREMENTS then vdev_object vd_meas vd_meas_len
  else if obj_type =? RHI_DA_DEV_INTERFACE_REPORT then vdev_object vd_ifc_report vd_ifc_report_len
  else if obj_type =? RHI_DA_DEV_EXTENSION_EVIDENCE then ret (inr RHI_DA_ERROR_OBJECT_UNSUPPORTED)
  else ret (inr RHI_DA_ERROR_INVALID_OBJECT).

Definition val_rhi_da_object_size : M (da W P) Z :=
  let* obj_type := da_exit_gpr 2 in
  with_vdev (λ _,
    let* o := da_object obj_type in
    match o with
    | inr e => ret e
    | inl (_, size) =>
        if size =? 0 then ret RHI_DA_ERROR_DATA_NOT_AVAILABLE
        else da_enter_gpr 1 size ;; ret RHI_DA_SUCCESS
    end).

Definition val_rhi_da_object_read : M (da W P) Z :=
  let* obj_type := da_exit_gpr 2 in
  let* buffer_ipa := da_exit_gpr 3 in
  let* max_len := da_exit_gpr 4 in
  let* offset := da_exit_gpr 5 in
  with_vdev (λ _,
    if buffer_ipa =? 0 then ret RHI_DA_ERROR_ACCESS_FAILED
    else
      let* o := da_object obj_type in
      match o with
      | inr e => ret e
      | inl (src, size) =>
          if size =? 0 then ret RHI_DA_ERROR_DATA_NOT_AVAILABLE
          else if (max_len =? 0) || (max_len <=? offset) || (max_len - offset <? size)
          then ret RHI_DA_ERROR_INVALID_OFFSET
          else
            da_bytes (Mem.val_memcpy (u64 (shared_buffer + offset)) src size) ;;
            da_enter_gpr 1 size ;;
            ret RHI_DA_SUCCESS
      end).

(** A refused lock returns VAL_ERROR, which is RHI_DA_ERROR_INCOMPLETE. *)
Definition val_rhi_da_vdev_set_tdi_state : M (da W P) Z :=
  let* tdi_state := da_exit_gpr 2 in
  with_vdev (λ _,
    if RHI_DA_TDI_CONFIG_RUN <? tdi_state then ret RHI_DA_ERROR_INVALID_OBJECT
    else if tdi_state =? RHI_DA_TDI_CONFIG_LOCKED then
      let* rd := da_host (realm r_rd) in
      let* pdev := get_vdev 0 vd_pdev in
      let* vdev := get_vdev 0 vd_vdev in
      let* args := da_host (val_host_rmi_vdev_lock rd pdev vdev) in
      if truthy (x0 args) then ret VAL_ERROR else incomplete
    else incomplete).

Definition val_rhi_da_vdev_abort : M (da W P) Z :=
  with_vdev (λ _,
    let* vdev := get_vdev 0 vd_vdev in
    let* args := da_host (val_host_rmi_vdev_abort vdev) in
    if truthy (x0 args) then ret RHI_DA_ABORTED_OPERATION_HAD_COMPLETED else ret RHI_DA_SUCCESS).

(** [a != x && b != x] reads the second element only when the first differs. *)
Definition neither_vdev (id : Z) : M (da W P) bool :=
  let* id0 := get_vdev 0 vd_vdev_id in
  if id0 =? id then ret false
  else let* id1 := get_vdev 1 vd_vdev_id in ret (negb (id1 =? id)).

Definition val_rhi_da_vdev_p2p_unbind : M (da W P) Z :=
  let* vdev_id_1 := da_exit_gpr 1 in
  let* vdev_id_2 := da_exit_gpr 2 in
  let* bad1 := neither_vdev vdev_id_1 in
  let* bad := (if bad1 then ret true else neither_vdev vdev_id_2) in
  if bad then ret RHI_DA_ERROR_INVALID_VDEV_ID else incomplete.

Definition val_rhi_da_vdev_get_interface_report : M (da W P) Z :=
  with_vdev (λ _,
    let* rd := da_host (realm r_rd) in
    let* pdev := get_vdev 0 vd_pdev in
    let* vdev := get_vdev 0 vd_vdev in
    let* args := da_host (val_host_rmi_vdev_get_interface_report rd pdev vdev) in
    if truthy (x0 args) then ret RHI_DA_ERROR_BUSY else incomplete).

Definition val_host_rhi_da_dispatch (fuel : nat) (realm_ptr : bool) : M (da W P) Z :=
  if negb realm_ptr then ret VAL_ERROR
  else
    let* fid := da_exit_gpr 0 in
    let answer (m : M (da W P) Z) : M (da W P) Z :=
      let* r := m in da_enter_gpr 0 r ;; ret VAL_SUCCESS in
    if fid =? RHI_DA_VERSION then answer (ret RHI_DA_VER)
    else if fid =? RHI_DA_FEATURES then answer (ret RHI_DA_SUPPORTED_MASK)
    else if fid =? RHI_DA_OBJECT_SIZE then answer val_rhi_da_object_size
    else if fid =? RHI_DA_OBJECT_READ then answer val_rhi_da_object_read
    else if fid =? RHI_DA_VDEV_CONTINUE then answer (val_rhi_da_vdev_continue fuel)
    else if fid =? RHI_DA_VDEV_GET_MEASUREMENTS then answer val_rhi_da_vdev_get_measurements
    else if fid =? RHI_DA_VDEV_GET_INTERFACE_REPORT then answer val_rhi_da_vdev_get_interface_report
    else if fid =? RHI_DA_VDEV_SET_TDI_STATE then answer val_rhi_da_vdev_set_tdi_state
    else if fid =? RHI_DA_VDEV_P2P_UNBIND then answer val_rhi_da_vdev_p2p_unbind
    else if fid =? RHI_DA_VDEV_ABORT then answer val_rhi_da_vdev_abort
    else ret VAL_ERROR.
End RhiDa.
