(* ===== verification/Crypto.v ===== *)
(** The public key of a device, from its certificate chain (val_crypto.c).

    ASN.1, X.509, elliptic curves and RSA are the code of mbedtls, a submodule, so
    they are a type class; the search for the leaf certificate and the choice of
    the key are the code's own. *)
From S2P Require Import Prelude Defs Libc Rhi.

Definition PUBLIC_KEY_ALGO_ECDSA_ECC_NIST_P256 : Z := 0x10.
Definition PUBLIC_KEY_ALGO_ECDSA_ECC_NIST_P384 : Z := 0x20.
Definition PUBLIC_KEY_ALGO_RSASSA_3072 : Z := 0x30.

Inductive pk_type : Type := PK_ECKEY | PK_RSA | PK_OTHER.
Inductive ecp_group : Type := SECP256R1 | SECP384R1 | GROUP_OTHER.

(** Results are status codes, with the values and bytes the functions produce. *)
Class Mbedtls : Type := {
  x509_crt : Type;
  mbedtls_asn1_get_tag : gmap Z Z → Z → Z → Z * Z * Z;
  mbedtls_x509_crt_parse_der : gmap Z Z → Z → Z → Z * x509_crt;
  mbedtls_pk_get_type : x509_crt → pk_type;
  mbedtls_ecp_export : x509_crt → Z * ecp_group;
  mbedtls_ecp_point_write_binary : x509_crt → Z * list Z;
  mbedtls_rsa_export : x509_crt → Z;
  mbedtls_mpi_N : x509_crt → list Z;
  mbedtls_mpi_E : x509_crt → list Z;
  mbedtls_mpi_write_rc : x509_crt → Z
}.

Section Crypto.
Context `{Mbedtls}.

(** [while (true)]: [last] is the length of the certificate before [cur_cert] once
    one has been passed, which is [cur_cert_idx != -1].  A certificate has at least
    one byte, so the chain has no more turns than bytes, and one at its end. *)
Fixpoint leaf_loop (fuel : nat) (m : gmap Z Z) (cert_chain_end cur_cert : Z) (last : option Z)
    : option (option (Z * Z)) :=
  match fuel with
  | O => None
  | S fuel =>
      let '(rc, tag_ptr, asn1_len) := mbedtls_asn1_get_tag m cur_cert cert_chain_end in
      if negb (rc =? 0) then
        Some (match last with None => None | Some len => Some (cur_cert - len, len) end)
      else
        let cur_cert_len := u64 (asn1_len + (tag_ptr - cur_cert)) in
        if cert_chain_end <? u64 (cur_cert + cur_cert_len) then Some None
        else leaf_loop fuel m cert_chain_end (u64 (cur_cert + cur_cert_len)) (Some cur_cert_len)
  end.

(** The address and length of the leaf, [None] for -1. *)
Definition host_get_leaf_cert_from_cert_chain (cert_chain cert_chain_len : Z)
    : M (gmap Z Z) (option (Z * Z)) := λ m,
  match leaf_loop (S (Z.to_nat cert_chain_len)) m (u64 (cert_chain + cert_chain_len)) cert_chain None with
  | None => NoFuel
  | Some r => Ok r m
  end.

(** The lengths of key and metadata and the algorithm; [None] for a failure. *)
Definition val_host_get_public_key_from_cert_chain
    (cert_chain cert_chain_len public_key public_key_metadata : Z)
    : M (gmap Z Z) (option (Z * Z * Z)) :=
  let* leaf := host_get_leaf_cert_from_cert_chain cert_chain cert_chain_len in
  match leaf with
  | None => ret None
  | Some (leaf_cert, leaf_cert_len) =>
      let* parsed := gets (λ m, mbedtls_x509_crt_parse_der m leaf_cert leaf_cert_len) in
      let crt := snd parsed in
      if negb (fst parsed =? 0) then ret None
      else match mbedtls_pk_get_type crt with
      | PK_OTHER => ret None
      | PK_ECKEY =>
          let '(rc, id) := mbedtls_ecp_export crt in
          match (if rc =? 0 then id else GROUP_OTHER) with
          | GROUP_OTHER => ret None
          | id =>
              let '(rc, key) := mbedtls_ecp_point_write_binary crt in
              if rc =? 0 then
                write_bytes public_key key ;;
                ret (Some (Z.of_nat (length key), 0,
                           match id with
                           | SECP256R1 => PUBLIC_KEY_ALGO_ECDSA_ECC_NIST_P256
                           | _ => PUBLIC_KEY_ALGO_ECDSA_ECC_NIST_P384
                           end))
              else ret None
          end
      | PK_RSA =>
          let N_sz := Z.of_nat (length (mbedtls_mpi_N crt)) in
          let E_sz := Z.of_nat (length (mbedtls_mpi_E crt)) in
          if (mbedtls_rsa_export crt =? 0) && (N_sz =? 384) then
            write_bytes public_key (mbedtls_mpi_N crt) ;;
            write_bytes public_key_metadata (mbedtls_mpi_E crt) ;;
            if mbedtls_mpi_write_rc crt =? 0
            then ret (Some (N_sz, E_sz, PUBLIC_KEY_ALGO_RSASSA_3072))
            else ret None
          else ret None
      end
  end.
End Crypto.
