(* ===== verification/DaSetup.v ===== *)
(** Bringing a device and a Realm up for device assignment
    (val_host_rhi_helpers.c): [da_init] finds a device with a DOE mailbox, creates
    its PDEV and drives it to the ready state, sets up a Realm and creates a VDEV in
    it; [da_create_vdev] adds another VDEV. *)
From S2P Require Import Prelude Defs Alloc Granule Host Rmi RealmMap RealmLife RecExit Libc Rhi Pcie PcieEnum Doe Da Crypto.

Definition RMI_SPDM_TRUE : Z := 1.
Definition RMI_IDE_TRUE : Z := 1.
Definition RMI_FEATURE_TRUE : Z := 1.
Definition RMI_HASH_SHA_512 : Z := 1.
Definition RMI_SIG_RSASSA_3072 : Z := 0.
Definition RMI_SIG_ECDSA_P256 : Z := 1.
Definition RMI_SIG_ECDSA_P384 : Z := 2.
Definition PLATFORM_OVERRIDE_PCIE_ECAM_BASE_ADDR_0 : Z := 0x40000000.

(** Offsets in [val_host_pdev_params_ts], [val_host_vdev_params_ts] and
    [val_host_public_key_params_ts]. *)
Definition PDEVP_flags : Z := 0x0.
Definition PDEVP_pdev_id : Z := 0x8.
Definition PDEVP_ecam_addr : Z := 0x18.
Definition PDEVP_root_id : Z := 0x20.
Definition PDEVP_cert_id : Z := 0x28.
Definition PDEVP_hash_algo : Z := 0x40.
Definition PDEVP_num_aux : Z := 0x48.
Definition PDEVP_ncoh_num_addr_range : Z := 0x58.
Definition PDEVP_aux : Z := 0x100.
Definition PDEVP_ncoh_addr_range : Z := 0x200.
Definition VDEVP_flags : Z := 0x0.
Definition VDEVP_vdev_id : Z := 0x8.
Definition VDEVP_tdi_id : Z := 0x10.
Definition VDEVP_num_aux : Z := 0x18.
Definition VDEVP_aux : Z := 0x100.
Definition PKP_key : Z := 0x0.
Definition PKP_metadata : Z := 0x400.
Definition PKP_key_len : Z := 0x800.
Definition PKP_metadata_len : Z := 0x808.
Definition PKP_algo : Z := 0x810.

(** [pdev_flags] with [spdm] and [ncoh_ide], [realm_flags] with [da]. *)
Definition pdev_flags : Z := Z.lor RMI_SPDM_TRUE (Z.shiftl RMI_IDE_TRUE 1).
Definition realm_flags_da : Z := Z.shiftl RMI_FEATURE_TRUE 3.

Definition rset_flags (v : Z) (r : val_host_realm_ts) : val_host_realm_ts :=
  mk_realm v (r_flags1 r) (r_s2sz r) (r_sve_vl r) (r_num_bps r) (r_num_wps r)
    (r_pmu_num_ctrs r) (r_hash_algo r) (r_rpv r) (r_vmid r) (r_s2_starting_level r)
    (r_num_s2_sl_rtts r) (r_rec_count r) (r_num_aux_planes r) (r_mecid r) (r_image_pa_base r)
    (r_aux_image_pa_base r) (r_image_pa_size r) (r_rd r) (r_rtt_l0_addr r) (r_rtt_aux_l0_addr r)
    (r_granules_mapped_count r) (r_granules r) (r_dev_granules_mapped_count r)
    (r_dev_granules r) (r_rec r) (r_run r) (r_aux_count r) (r_rec_aux_granules r) (r_state r).

Section DaSetup.
Context {W P : Type} `{RMM W} `{MmioBus P} `{SharedRegion} `{Mbedtls}.
Implicit Types s : da W P.

Definition page : M (da W P) Z := da_host (mem_alloc_h PAGE_SIZE PAGE_SIZE).
Definition put (a v : Z) : M (da W P) unit := da_host (store a v).

(** [if (m) return VAL_ERROR;], for conditions and for steps. *)
Definition guard (b : bool) (k : M (da W P) Z) : M (da W P) Z := if b then k else ret VAL_ERROR.
Definition step (m : M (da W P) bool) (k : M (da W P) Z) : M (da W P) Z :=
  let* ok := m in guard ok k.

(** A page that the RMM owns; the value is 0 when it could not be had. *)
Definition delegated_page : M (da W P) Z :=
  let* p := page in
  if negb (truthy p) then ret 0
  else
    let* r := da_host (val_host_rmi_granule_delegate p) in
    if truthy r then ret 0 else ret p.

(** The loop over the auxiliary granules: the number is that of the RMM, and the
    array behind [aux] has 32 elements. *)
Fixpoint aux_loop (fuel : nat) (params num_aux aux j : Z) : M (da W P) bool :=
  match fuel with
  | O => out_of_fuel
  | S fuel =>
      let* n := da_host (load (params + num_aux)) in
      if negb (j <? n) then ret true
      else
        let* p := page in
        put (params + aux + 8 * j) p ;;
        if negb (truthy p) then ret false
        else
          let* r := da_host (val_host_rmi_granule_delegate p) in
          if truthy r then ret false else aux_loop fuel params num_aux aux (u64 (j + 1))
  end.

(** The address ranges of the device, copied into the parameters. *)
Definition put_ranges (params : Z) : M (da W P) unit :=
  let* n := get_pdev pd_ncoh_num in
  put (params + PDEVP_ncoh_num_addr_range) n ;;
  for_upto (R := Empty_set) n (λ j,
    let* p := gets d_pdev in
    match pd_ranges p !! Z.to_nat j with
    | None => fail OutOfBounds
    | Some (base, top) =>
        put (params + PDEVP_ncoh_addr_range + 16 * j) base ;;
        put (params + PDEVP_ncoh_addr_range + 16 * j + 8) top ;;
        ret None
    end) ;;
  ret tt.

Definition pdev_in_state (pdev state : Z) : M (da W P) bool :=
  let* st := pdev_state_of pdev in
  ret (match st with None => false | Some st => st =? state end).

Definition vdev_in_state (vdev state : Z) : M (da W P) bool :=
  let* args := da_host (val_host_rmi_vdev_get_state vdev) in
  ret (negb (truthy (x0 args)) && (x1 args =? state)).

(** Discovery: the function, its mailbox and its root port. *)
Definition find_device : M (da W P) (option Z) :=
  let* num_bdf := da_pcie val_pcie_get_num_bdf in
  if num_bdf =? VAL_ERROR then ret None
  else
    let* bdf := get_pdev pd_bdf in
    let* cap := get_pdev pd_doe_cap_base in
    let* r := da_pcie (val_pcie_find_doe_capability num_bdf (Some bdf) (Some cap)) in
    let '(st, _, bdf', cap') := r in
    set_pdev pd_bdf (default bdf bdf') ;;
    set_pdev pd_doe_cap_base (default cap cap') ;;
    if truthy st then ret None
    else
      let* bdf := get_pdev pd_bdf in
      let* rp := da_pcie (val_pcie_get_rootport bdf) in
      if negb (fst rp =? 0) then ret None else ret (Some (snd rp)).

(** The PDEV and its parameters, up to the state PDEV_NEW. *)
Definition create_pdev (fuel : nat) (pdev pdev_params rp_bdf : Z) : M (da W P) bool :=
  put (pdev_params + PDEVP_flags) pdev_flags ;;
  let* args := da_host (val_host_rmi_pdev_aux_count pdev_flags) in
  if truthy (x0 args) then ret false
  else
    let* bdf := get_pdev pd_bdf in
    put (pdev_params + PDEVP_hash_algo) RMI_HASH_SHA_512 ;;
    put (pdev_params + PDEVP_pdev_id) bdf ;;
    put (pdev_params + PDEVP_cert_id) 0 ;;
    put (pdev_params + PDEVP_root_id) (u16 rp_bdf) ;;
    put (pdev_params + PDEVP_ecam_addr) PLATFORM_OVERRIDE_PCIE_ECAM_BASE_ADDR_0 ;;
    put (pdev_params + PDEVP_num_aux) (x1 args) ;;
    let* ok := aux_loop fuel pdev_params PDEVP_num_aux PDEVP_aux 0 in
    if negb ok then ret false
    else
      put_ranges pdev_params ;;
      let* args := da_host (val_host_rmi_pdev_create pdev pdev_params) in
      if truthy (x0 args) then ret false else pdev_in_state pdev RMI_PDEV_NEW.

(** A buffer of the PDEV structure; the value tells whether it is there. *)
Definition pdev_buffer (f : pdev_field) (size : Z) (f_len : pdev_field) (len : Z) : M (da W P) bool :=
  let* p := da_host (mem_alloc_h PAGE_SIZE size) in
  set_pdev f p ;; set_pdev f_len len ;; ret (negb (p =? 0)).

(** The buffers of the communication: [None] when one is missing. *)
Definition comm_buffers : M (da W P) (option (Z * Z)) :=
  let* req_addr := page in
  if negb (truthy req_addr) then ret None
  else
    let* resp_addr := page in
    if negb (truthy resp_addr) then ret None else ret (Some (req_addr, resp_addr)).

(** The public key, handed to the RMM. *)
Definition give_key : M (da W P) bool :=
  let* cert_chain := get_pdev pd_cert_chain in
  let* cert_chain_len := get_pdev pd_cert_chain_len in
  let* public_key := get_pdev pd_public_key in
  let* metadata := get_pdev pd_metadata in
  let* k := da_bytes (val_host_get_public_key_from_cert_chain cert_chain cert_chain_len public_key metadata) in
  match k with
  | None => ret false
  | Some (key_len, metadata_len, public_key_algo) =>
      set_pdev pd_public_key_len key_len ;;
      set_pdev pd_metadata_len metadata_len ;;
      set_pdev pd_sig_algo
        (if public_key_algo =? PUBLIC_KEY_ALGO_ECDSA_ECC_NIST_P256 then RMI_SIG_ECDSA_P256
         else if public_key_algo =? PUBLIC_KEY_ALGO_ECDSA_ECC_NIST_P384 then RMI_SIG_ECDSA_P384
         else RMI_SIG_RSASSA_3072) ;;
      let* pubkey_params := page in
      if negb (truthy pubkey_params) then ret false
      else
        da_host (memset0 pubkey_params PAGE_SIZE) ;;
        da_bytes (Mem.val_memcpy (pubkey_params + PKP_key) public_key key_len) ;;
        da_bytes (Mem.val_memcpy (pubkey_params + PKP_metadata) metadata metadata_len) ;;
        let* algo := get_pdev pd_sig_algo in
        put (pubkey_params + PKP_key_len) key_len ;;
        put (pubkey_params + PKP_metadata_len) metadata_len ;;
        put (pubkey_params + PKP_algo) algo ;;
        let* pdev := get_pdev pd_pdev in
        let* args := da_host (val_host_rmi_pdev_set_pubkey pdev pubkey_params) in
        if truthy (x0 args) then ret false else pdev_in_state pdev RMI_PDEV_HAS_KEY
  end.

(** An object of the PDEV, copied to the shared region. *)
Definition share (off : Z) (buf len : pdev_field) : M (da W P) unit :=
  let* b := get_pdev buf in
  let* n := get_pdev len in
  da_bytes (Mem.val_memcpy (u64 (val_get_shared_region_base + off)) b n) ;; ret tt.

(** [val_memset(realm, 0, sizeof( *realm))] and the parameters of a Realm with
    device assignment. *)
Definition da_realm (fuel : nat) : M (da W P) bool :=
  da_host (set_realm (λ _, realm_zero)) ;;
  da_host val_host_realm_params ;;
  da_host (set_realm (rset_flags realm_flags_da)) ;;
  let* r := da_host (val_host_realm_setup fuel true) in
  ret (negb (truthy r)).

(** The parameters and the creation of a VDEV, up to the state VDEV_NEW. *)
Definition create_vdev (fuel : nat) (vdev vdev_params vdev_id : Z) : M (da W P) bool :=
  da_host (memset0 vdev_params PAGE_SIZE) ;;
  let* bdf := get_pdev pd_bdf in
  put (vdev_params + VDEVP_flags) 0 ;;
  put (vdev_params + VDEVP_vdev_id) vdev_id ;;
  put (vdev_params + VDEVP_tdi_id) bdf ;;
  let* flags_pdev := get_pdev pd_flags in
  let* args := da_host (val_host_rmi_vdev_aux_count flags_pdev 0) in
  if truthy (x0 args) then ret false
  else
    put (vdev_params + VDEVP_num_aux) (x1 args) ;;
    let* ok := aux_loop fuel vdev_params VDEVP_num_aux VDEVP_aux 0 in
    if negb ok then ret false
    else
      let* rd := da_host (realm r_rd) in
      let* pdev := get_pdev pd_pdev in
      let* args := da_host (val_host_rmi_vdev_create rd pdev vdev vdev_params) in
      if truthy (x0 args) then ret false else vdev_in_state vdev RMI_VDEV_NEW.

(** From VDEV_NEW to the state asked for; [last] runs once the VDEV is locked. *)
Definition advance_vdev (fuel i : nat) (vdev vdev_state : Z) (last : M (da W P) Z) : M (da W P) Z :=
  if vdev_state =? RMI_VDEV_NEW then ret VAL_SUCCESS
  else
    let* rc := val_host_dev_communicate fuel true true (Some i) RMI_VDEV_UNLOCKED in
    guard (negb (truthy rc)) (
    step (vdev_in_state vdev RMI_VDEV_UNLOCKED) (
    if vdev_state =? RMI_VDEV_UNLOCKED then ret VAL_SUCCESS
    else
      let* rd := da_host (realm r_rd) in
      let* pdev := get_vdev i vd_pdev in
      let* args := da_host (val_host_rmi_vdev_lock rd pdev vdev) in
      guard (negb (truthy (x0 args))) (
      let* rc := val_host_dev_communicate fuel true true (Some i) RMI_VDEV_LOCKED in
      guard (negb (truthy rc)) (
      let* meas := da_host (mem_alloc_h PAGE_SIZE VAL_HOST_VDEV_MEAS_LEN_MAX) in
      set_vdev i vd_meas meas ;;
      guard (negb (meas =? 0)) (
      set_vdev i vd_meas_len 0 ;;
      let* rep := da_host (mem_alloc_h PAGE_SIZE VAL_HOST_VDEV_IFC_REPORT_LEN_MAX) in
      set_vdev i vd_ifc_report rep ;;
      set_vdev i vd_ifc_report_len 0 ;;
      guard (negb (rep =? 0)) last))))).

Definition zero_vdev (i : nat) : M (da W P) unit := modify (λ s, set_d_vdevs (<[i := vdev_zero]> (d_vdevs s)) s).

Definition da_init (fuel : nat) (vdev_state : Z) : M (da W P) Z :=
  modify (set_d_pdev pdev_zero) ;;
  zero_vdev 0 ;;
  modify (set_vdev_count 1) ;;
  let* f := da_host (val_host_rmi_features 0) in
  guard (negb (VAL_EXTRACT_BITS (snd f) 42 42 =? 0)) (
  let* pdev := delegated_page in
  guard (truthy pdev) (
  let* pdev_params := page in
  guard (negb (pdev_params =? 0)) (
  da_host (memset0 pdev_params PAGE_SIZE) ;;
  let* rp := find_device in
  match rp with
  | None => ret VAL_ERROR
  | Some rp_bdf =>
      val_host_get_addr_range ;;
      step (create_pdev fuel pdev pdev_params rp_bdf) (
      step (pdev_buffer pd_vca VAL_HOST_PDEV_VCA_LEN_MAX pd_vca_len 0) (
      set_pdev pd_cert_slot_id 0 ;;
      step (pdev_buffer pd_cert_chain VAL_HOST_PDEV_CERT_LEN_MAX pd_cert_chain_len 0) (
      step (pdev_buffer pd_public_key PAGE_SIZE pd_public_key_len PAGE_SIZE) (
      step (pdev_buffer pd_metadata PAGE_SIZE pd_metadata_len PAGE_SIZE) (
      let* bufs := comm_buffers in
      match bufs with
      | None => ret VAL_ERROR
      | Some (req_addr, resp_addr) =>
          set_pdev pd_pdev pdev ;;
          let* comm := page in
          set_pdev pd_comm comm ;;
          comm_store comm ENTER_REQ_ADDR req_addr ;;
          comm_store comm ENTER_RESP_ADDR resp_addr ;;
          let* rc := val_host_dev_communicate fuel false true None RMI_PDEV_NEEDS_KEY in
          guard (negb (truthy rc)) (
          step give_key (
          let* rc := val_host_dev_communicate fuel false true None RMI_PDEV_READY in
          guard (negb (truthy rc)) (
          share TEST_USE_OFFSET1 pd_vca pd_vca_len ;;
          share TEST_USE_OFFSET2 pd_cert_chain pd_cert_chain_len ;;
          share TEST_USE_OFFSET3 pd_public_key pd_public_key_len ;;
          step (da_realm fuel) (
          let* vdev := delegated_page in
          guard (truthy vdev) (
          let* vdev_params := page in
          guard (negb (vdev_params =? 0)) (
          step (create_vdev fuel vdev vdev_params 0) (
          set_vdev 0 vd_pdev pdev ;;
          set_vdev 0 vd_vdev vdev ;;
          let* comm := page in
          set_vdev 0 vd_comm comm ;;
          comm_store comm ENTER_REQ_ADDR req_addr ;;
          comm_store comm ENTER_RESP_ADDR resp_addr ;;
          advance_vdev fuel 0 vdev vdev_state (ret VAL_SUCCESS))))))))
      end)))))
  end))).

(** [vdev_obj] is the element [i] of the array. *)
Definition da_create_vdev (fuel i : nat) (vdev_id vdev_state : Z) : M (da W P) Z :=
  zero_vdev i ;;
  let* vdev := delegated_page in
  guard (truthy vdev) (
  let* vdev_params := page in
  guard (negb (vdev_params =? 0)) (
  step (create_vdev fuel vdev vdev_params vdev_id) (
  let* pdev := get_pdev pd_pdev in
  set_vdev i vd_pdev pdev ;;
  set_vdev i vd_vdev vdev ;;
  set_vdev i vd_vdev_id vdev_id ;;
  let* comm := page in
  set_vdev i vd_comm comm ;;
  guard (truthy comm) (
  let* pdev_comm := get_pdev pd_comm in
  let* req_addr := comm_load pdev_comm ENTER_REQ_ADDR in
  comm_store comm ENTER_REQ_ADDR req_addr ;;
  let* resp_addr := comm_load pdev_comm ENTER_RESP_ADDR in
  comm_store comm ENTER_RESP_ADDR resp_addr ;;
  advance_vdev fuel i vdev vdev_state (
    let* n := gets g_da_vdev_count in
    modify (set_vdev_count (u32 (n + 1))) ;;
    ret VAL_SUCCESS))))).
End DaSetup.
