(* ===== verification/DaFacts.v ===== *)
(** What device assignment promises: a cache is a log that refuses what does not
    fit; against an RMM and a device that follow their protocols an exchange ends in
    the target state with every response cached in order; and a teardown that the
    RMM refuses to unlock reports success and leaves the VDEV.

    [pdev_rmm] is the reference RMM, after src/docs/device_assignment_scenarios.md:
    a new PDEV has requests for its device, one of which goes out per call, and asks
    for the responses that belong to the certificates to be cached; when all is done
    it needs a key, given the key it has further requests, and then it is ready. *)
From S2P Require Import Prelude Defs Alloc Granule Host Rmi RecExit ExitFacts Libc Rhi RhiFacts Pcie PcieEnum PcieFacts Doe DoeFacts Da.

(** * Running parts of the state *)

Section Parts.
Context {W P : Type} `{RMM W} `{MmioBus P}.
Implicit Types s : da W P.

(** The memory of the host. *)
Definition d_mem s : gmap Z Z := h_mem (d_host s).
Definition set_d_mem (m : gmap Z Z) s : da W P := set_d_host (hset_mem m (d_host s)) s.

Lemma da_bytes_run {A} (c : M (gmap Z Z) A) a m' s :
  c (d_mem s) = Ok a m' → da_bytes c s = Ok a (set_d_mem m' s).
Proof. intros E. unfold da_bytes, da_host, zoom. unfold d_mem in E. by rewrite E. Qed.

Lemma comm_load_run comm off s :
  comm ≠ 0 → comm_load comm off s = Ok (default 0 (d_mem s !! (comm + off))) s.
Proof.
  intros Hc. unfold comm_load. destruct (Z.eqb_spec comm 0); [done|]. by destruct s as [[] ? ? ? ? ? ?].
Qed.

Lemma comm_store_run comm off v s :
  comm ≠ 0 → comm_store comm off v s = Ok tt (set_d_mem (<[comm + off := v]> (d_mem s)) s).
Proof. intros Hc. unfold comm_store. by destruct (Z.eqb_spec comm 0). Qed.

Lemma get_pdev_run f s : get_pdev f s = Ok (pd_get (d_pdev s) f) s.
Proof. done. Qed.

Lemma pd_get_set_eq f v p : pd_get (pd_set f v p) f = v.
Proof. cbn. by rewrite decide_True. Qed.

Lemma pd_get_set_ne f g v p : g ≠ f → pd_get (pd_set f v p) g = pd_get p g.
Proof. intros Hg. cbn. by rewrite decide_False. Qed.

Lemma d_mem_set m s : d_mem (set_d_mem m s) = m.
Proof. done. Qed.

Lemma set_d_mem_id s : set_d_mem (d_mem s) s = s.
Proof. by destruct s as [[] ? ? ? ? ? ?]. Qed.
End Parts.

(** * The cache of an object is a log of bounded size *)

(** The bytes [l] are at [q]. *)
Definition holds_bytes (m : gmap Z Z) (q : Z) (l : list Z) : Prop :=
  ∀ k b, l !! k = Some b → m !! (q + Z.of_nat k) = Some b.

Definition apart (a n b k : Z) : Prop := a + n ≤ b ∨ b + k ≤ a.

(** The log: a chunk is appended or, when it does not fit, refused. *)
Definition log_append {A : Type} (max : Z) (data chunk : list A) : option (list A) :=
  if max <? Z.of_nat (length data + length chunk) then None else Some (data ++ chunk).

Lemma holds_bytes_app m q l1 l2 :
  holds_bytes m q (l1 ++ l2) ↔ holds_bytes m q l1 ∧ holds_bytes m (q + Z.of_nat (length l1)) l2.
Proof.
  split.
  - intros Hl. split; intros k b Hk.
    + apply Hl. by apply lookup_app_l_Some.
    + rewrite <- Z.add_assoc, <- Nat2Z.inj_add. apply Hl. rewrite lookup_app_r by lia.
      by replace (length l1 + k - length l1)%nat with k by lia.
  - intros [H1 H2] k b [Hk | [Hk Hb]]%lookup_app_Some; [by apply H1|].
    replace (q + Z.of_nat k) with (q + Z.of_nat (length l1) + Z.of_nat (k - length l1)) by lia.
    by apply H2.
Qed.

Lemma holds_bytes_mapped m q l : holds_bytes m q l → Mem.mapped m q (Z.of_nat (length l)).
Proof.
  intros Hl i Hi. destruct (lookup_lt_is_Some_2 l (Z.to_nat i)) as [b Hb]; [lia|].
  exists b. replace i with (Z.of_nat (Z.to_nat i)) by lia. by apply Hl.
Qed.

(** Copying into mapped memory beside the source. *)
Lemma val_memcpy_run m d q n :
  0 ≤ n → Mem.mapped m q n → Mem.mapped m d n → apart d n q n →
  ∃ m', Mem.val_memcpy d q n m = Ok d m' ∧ Mem.copied m m' d q n.
Proof.
  intros Hn Hq Hd Ha. unfold Mem.val_memcpy, Mem.pal_memcpy, Mem.memcpy.
  pose proof (MemFacts.memcpy_loop_copied (Z.to_nat n) m d q) as Hc. rewrite Z2Nat.id in Hc by done.
  destruct (proj1 (run_to_Ok _ _ _) (Hc Hq Hd ltac:(unfold apart in Ha; lia))) as (? & m' & E & Hm).
  exists m'. split; [|done]. by erewrite bind_step.
Qed.

Lemma copied_outside m m' d q n a : Mem.copied m m' d q n → ¬ (d ≤ a < d + n) → m' !! a = m !! a.
Proof. intros Hc Ha. rewrite Hc. case_bool_decide; [done|done]. Qed.

Lemma copied_inside m m' d q n i : Mem.copied m m' d q n → 0 ≤ i < n → m' !! (d + i) = m !! (q + i).
Proof. intros Hc Hi. rewrite Hc, bool_decide_eq_true_2 by lia. f_equal. lia. Qed.

Lemma copied_mapped m m' d q n p k :
  Mem.mapped m q n → Mem.copied m m' d q n → Mem.mapped m p k → Mem.mapped m' p k.
Proof.
  intros Hq Hc Hp i Hi. rewrite Hc. case_bool_decide; [|by apply Hp].
  replace (q + (p + i - d)) with (q + (p + i - d)) by done. apply Hq. lia.
Qed.

Section Cache.
Context {W P : Type} `{RMM W} `{MmioBus P}.
Implicit Types s : da W P.

(** Where an object of the PDEV is cached: the buffer, its length, its size. *)
Definition pdev_slot (obj : Z) : option (pdev_field * pdev_field * Z) :=
  if obj =? RMI_DEV_CERTIFICATE then Some (pd_cert_chain, pd_cert_chain_len, VAL_HOST_PDEV_CERT_LEN_MAX)
  else if obj =? RMI_DEV_VCA then Some (pd_vca, pd_vca_len, VAL_HOST_PDEV_VCA_LEN_MAX)
  else None.

(** The state after [n] bytes were appended with the memory [m]. *)
Definition cached_state (len : pdev_field) (n : Z) (m : gmap Z Z) s : da W P :=
  set_d_pdev (pd_set len n (d_pdev s)) (set_d_mem m s).

Lemma cache_object_run obj buf len max base offset n s :
  pdev_slot obj = Some (buf, len, max) →
  let used := pd_get (d_pdev s) len in let dst := pd_get (d_pdev s) buf + used in
  0 ≤ used → 0 ≤ n → used + n < 2 ^ 64 → 0 ≤ dst < 2 ^ 64 →
  0 ≤ offset → offset + n ≤ GRANULE_SIZE → 0 ≤ base → base + offset < 2 ^ 64 →
  if max <? used + n then
    val_host_dev_cache_dev_object None base obj offset n s = Ok VAL_ERROR s
  else
    Mem.mapped (d_mem s) (base + offset) n → Mem.mapped (d_mem s) dst n →
    apart dst n (base + offset) n →
    ∃ m', val_host_dev_cache_dev_object None base obj offset n s = Ok 0 (cached_state len (used + n) m' s) ∧
          Mem.copied (d_mem s) m' dst (base + offset) n.
Proof.
  intros Hslot used dst Hu Hn Hw Hd Ho Hg Hb Hbo.
  assert (val_host_dev_cache_dev_object None base obj offset n s =
    cache_append used max (set_pdev len) (pd_get (d_pdev s) buf) (base + offset) n s) as ->.
  { unfold val_host_dev_cache_dev_object, GRANULE_SIZE in *.
    rewrite !u64_add_id by lia. destruct (Z.ltb_spec 0x1000 (offset + n)); [lia|]. rewrite andb_false_r.
    unfold val_host_pdev_cache_device_object, pdev_slot in *.
    destruct (obj =? RMI_DEV_CERTIFICATE); [|destruct (obj =? RMI_DEV_VCA)]; by simplify_eq. }
  unfold cache_append. rewrite (u64_add_id used n) by lia. fold dst.
  destruct (max <? used + n); [done|]. intros Hq Hdst Hap.
  rewrite (u64_id dst) by done.
  destruct (val_memcpy_run (d_mem s) dst (base + offset) n) as (m' & E & Hc); [done..|].
  exists m'. split; [|done].
  rewrite (bind_step _ _ _ _ _ (da_bytes_run _ _ _ _ E)). done.
Qed.

(** The buffer of an object holds [data] and the length says so. *)
Definition caches (buf len : pdev_field) (data : list Z) s : Prop :=
  holds_bytes (d_mem s) (pd_get (d_pdev s) buf) data ∧ pd_get (d_pdev s) len = Z.of_nat (length data).

(** The cache of a device object is a log of bounded size: a chunk of a buffer
    is appended behind the data that is there, byte for byte, or refused with the
    state unchanged when the whole would exceed the buffer of the object; no other
    byte of memory changes. *)
Theorem object_cache_is_log obj buf len max base offset data chunk s :
  pdev_slot obj = Some (buf, len, max) →
  let dst := pd_get (d_pdev s) buf in let n := Z.of_nat (length chunk) in
  caches buf len data s → 0 ≤ dst → dst + max < 2 ^ 64 → Mem.mapped (d_mem s) dst max →
  0 ≤ offset → offset + n ≤ GRANULE_SIZE → 0 ≤ base → base + offset < 2 ^ 64 →
  holds_bytes (d_mem s) (base + offset) chunk → apart dst max (base + offset) n →
  Z.of_nat (length data) ≤ max →
  match log_append max data chunk with
  | None => val_host_dev_cache_dev_object None base obj offset n s = Ok VAL_ERROR s
  | Some data' =>
      ∃ m', let s' := cached_state len (Z.of_nat (length data')) m' s in
        val_host_dev_cache_dev_object None base obj offset n s = Ok 0 s' ∧
        caches buf len data' s' ∧ only (dst + Z.of_nat (length data)) n (d_mem s) m'
  end.
Proof.
  intros Hslot dst n [Hdata Hlen] Hd0 Hd Hmap Ho Hg Hb Hbo Hchunk Hap Hmax.
  assert (max ≤ 2 ^ 16 ∧ buf ≠ len) as [Hm Hne].
  { unfold pdev_slot in Hslot. repeat case_match; by simplify_eq. }
  pose proof (cache_object_run obj buf len max base offset n s Hslot) as Hr. cbn in Hr. rewrite Hlen in Hr.
  specialize (Hr ltac:(lia) ltac:(lia) ltac:(unfold GRANULE_SIZE in *; lia) ltac:(fold dst; lia) Ho Hg Hb Hbo).
  fold dst in Hr. unfold log_append. rewrite Nat2Z.inj_add. fold n.
  destruct (Z.ltb_spec max (Z.of_nat (length data) + n)) as [|Hfit]; [done|].
  destruct Hr as (m' & E & Hc).
  { by apply holds_bytes_mapped. }
  { intros i Hi. rewrite <- Z.add_assoc. apply Hmap. lia. }
  { unfold apart in *. lia. }
  exists m'. cbn zeta. rewrite length_app, Nat2Z.inj_add. fold n. split; [done|]. split.
  - split.
    + unfold cached_state. change (d_mem (set_d_pdev _ _)) with m'. cbn [set_d_pdev d_pdev]. rewrite pd_get_set_ne by done. fold dst.
      apply holds_bytes_app. split; intros k b Hk.
      * rewrite (copied_outside _ _ _ _ _ _ Hc); [by apply Hdata|].
        apply lookup_lt_Some in Hk. lia.
      * rewrite (copied_inside _ _ _ _ _ _ Hc); [by apply Hchunk|].
        apply lookup_lt_Some in Hk. lia.
    + unfold cached_state. cbn. rewrite decide_True, length_app by done. lia.
  - intros a Ha. by apply (copied_outside _ _ _ _ _ _ Hc).
Qed.
End Cache.

(** Arithmetic on offsets in the structure of a communication. *)
Ltac offsets :=
  unfold EXIT_CACHE_OBJ_ID, EXIT_REQ_CACHE_OFFSET, EXIT_REQ_CACHE_LEN, EXIT_RSP_CACHE_OFFSET,
    EXIT_RSP_CACHE_LEN, EXIT_REQ_LEN, EXIT_PROTOCOL, EXIT_FLAGS, ENTER_REQ_ADDR, ENTER_RESP_ADDR,
    ENTER_STATUS, ENTER_RESP_LEN, COMM_EXIT, VAL_HOST_PDEV_CERT_LEN_MAX in *; lia.

(** * Words in memory *)

(** The words [l] are at [q]. *)
Definition holds (m : gmap Z Z) (q : Z) (l : list Z) : Prop :=
  ∀ k x, l !! k = Some x → le_val m 4 (q + 4 * Z.of_nat k) = x.

Definition word (x : Z) : Prop := 0 ≤ x < 2 ^ 32.

(** What the RMM does to the memory: write words at [q]. *)
Definition put_word (q x : Z) (m : gmap Z Z) : gmap Z Z :=
  match write_bytes q (word_bytes x) m with Ok _ m' => m' | _ => m end.

Fixpoint put_words (q : Z) (l : list Z) (m : gmap Z Z) : gmap Z Z :=
  match l with
  | [] => m
  | x :: l => put_words (q + 4) l (put_word q x m)
  end.

Lemma holds_cong m m' q l :
  (∀ i, 0 ≤ i < 4 * Z.of_nat (length l) → m' !! (q + i) = m !! (q + i)) → holds m q l → holds m' q l.
Proof.
  intros Hm Hl k x Hk. rewrite <- (Hl k x Hk). apply le_val_agree. intros i Hi.
  rewrite <- Z.add_assoc. apply Hm. apply lookup_lt_Some in Hk. lia.
Qed.

Lemma holds_app m q l1 l2 :
  holds m q l1 → holds m (q + 4 * Z.of_nat (length l1)) l2 → holds m q (l1 ++ l2).
Proof.
  intros H1 H2 k x [Hk | [Hk Hx]]%lookup_app_Some; [by apply H1|].
  rewrite <- (H2 _ _ Hx). f_equal. lia.
Qed.

(** Words copied with [val_memcpy]. *)
Lemma holds_copied m m' d q l :
  Mem.copied m m' d q (4 * Z.of_nat (length l)) → holds m q l → holds m' d l.
Proof.
  intros Hc Hl k x Hk. rewrite <- (Hl k x Hk). apply lookup_lt_Some in Hk.
  assert (∀ n i, i + Z.of_nat n ≤ 4 * Z.of_nat (length l) → 0 ≤ i →
    le_val m' n (d + i) = le_val m n (q + i)) as Hv; [|apply Hv; lia].
  induction n as [|n IH]; intros i Hi H0; cbn [le_val]; [done|].
  rewrite (copied_inside _ _ _ _ _ _ Hc) by lia.
  rewrite <- !Z.add_assoc, (IH (i + 1)) by lia. done.
Qed.

Lemma words_holds m q l : Forall word l → holds m q l → words m q (length l) = l.
Proof.
  intros Hw Hl. apply list_eq. intros k. unfold words. rewrite list_lookup_fmap.
  destruct (decide (k < length l)%nat) as [Hk|Hk].
  - rewrite lookup_seq_lt by done. change (Some (u32 (le_val m 4 (q + 4 * Z.of_nat k))) = l !! k).
    destruct (lookup_lt_is_Some_2 l k Hk) as [x Hx].
    rewrite (Hl k x Hx), Hx. f_equal. apply Z.mod_small. by apply (proj1 (Forall_lookup _ _) Hw k).
  - rewrite lookup_seq_ge by lia. cbn. symmetry. apply lookup_ge_None. lia.
Qed.

Lemma put_words_run l q m :
  Forall word l → Mem.mapped m q (4 * Z.of_nat (length l)) →
  holds (put_words q l m) q l ∧ only q (4 * Z.of_nat (length l)) m (put_words q l m) ∧
  ∀ a, is_Some (m !! a) → is_Some (put_words q l m !! a).
Proof.
  intros Hw. revert q m. induction Hw as [|x l Hx Hw IH]; intros q m Hm; cbn [put_words length] in *; [done|].
  destruct (store32_run q x m) as (m1 & E & Hv & Ho & Hs); [by intros i Hi; apply Hm; lia|done|].
  assert (put_word q x m = m1) as -> by (unfold put_word; unfold store32 in E; by rewrite E).
  destruct (IH (q + 4) m1) as (Hl & Ho' & Hs').
  { intros i Hi. apply Hs. rewrite <- Z.add_assoc. apply Hm. lia. }
  split; [|split; [|by intros a Ha; apply Hs', Hs]].
  - intros [|k] y Hy; cbn in Hy.
    + simplify_eq. rewrite Z.add_0_r. apply le_val_agree. intros i Hi. apply Ho'. lia.
    + rewrite <- (Hl k y Hy). f_equal. lia.
  - intros a Ha. rewrite Ho' by lia. apply Ho. lia.
Qed.

(** * Fetching objects of a device *)

Section Fetch.
Context (respond : list Z → list Z) (delay : list Z → nat).
Context (bs : list PCIE_INFO_BLOCK) (bdf cap : Z) (bus : pcie mbox).
Context (pdev comm req resp cert protocol : Z) (answer : list Z → list Z).

(** A request, and whether its response is to be cached. *)
Definition item : Type := list Z * bool.

(** The PDEV: its state, what it has to say to its device, whether the response to the
    last request is to be cached, and what it will have to say with the key. *)
Record spdm : Type := mk_spdm { sp_state : Z; sp_script : list item; sp_cache : bool; sp_later : list item }.

(** The states in which it talks to its device, and where it goes from there. *)
Definition talks (st : Z) : bool := (st =? RMI_PDEV_NEW) || (st =? RMI_PDEV_HAS_KEY).
Definition next_state (st : Z) : Z := if st =? RMI_PDEV_NEW then RMI_PDEV_NEEDS_KEY else RMI_PDEV_READY.
Definition next_cache (script : list item) : bool := match script with (_, c) :: _ => c | [] => false end.

Definition status_response (m : gmap Z Z) : bool :=
  default 0 (m !! (comm + ENTER_STATUS)) =? RMI_DEV_COMM_RESPONSE.

(** The exit of a call: what is to be cached, and the next request. *)
Definition ask_cache (m : gmap Z Z) : gmap Z Z :=
  <[comm + EXIT_CACHE_OBJ_ID := RMI_DEV_CERTIFICATE]>
    (<[comm + EXIT_REQ_CACHE_OFFSET := 0]> (<[comm + EXIT_REQ_CACHE_LEN := 0]>
      (<[comm + EXIT_RSP_CACHE_OFFSET := 0]>
        (<[comm + EXIT_RSP_CACHE_LEN := default 0 (m !! (comm + ENTER_RESP_LEN))]> m)))).

Definition ask_send (r : list Z) (m : gmap Z Z) : gmap Z Z :=
  <[comm + EXIT_REQ_LEN := 4 * Z.of_nat (length r)]>
    (<[comm + EXIT_PROTOCOL := protocol]> (put_words req r m)).

Definition exit_flags (cache : bool) (script : list item) : Z :=
  (if cache then RMI_DEV_COMM_EXIT_FLAGS_RSP_CACHE_BIT else 0)
  + match script with [] => 0 | _ => RMI_DEV_COMM_EXIT_FLAGS_REQ_SEND_BIT end.

Definition exit_memory (cache : bool) (script : list item) (m : gmap Z Z) : gmap Z Z :=
  let m1 := if cache then ask_cache m else m in
  let m2 := match script with [] => m1 | (r, _) :: _ => ask_send r m1 end in
  <[comm + EXIT_FLAGS := exit_flags cache script]> m2.

(** Nothing is left to be cached or sent: the call ends the transaction. *)
Definition finished (cache : bool) (script : list item) : bool :=
  negb cache && match script with [] => true | _ => false end.

#[export] Instance pdev_rmm : RMM spdm := {|
  smc w m args :=
    if (x0 args =? RMI_PDEV_COMMUNICATE) && (x1 args =? pdev) && (x2 args =? comm) && talks (sp_state w) then
      let cache := sp_cache w && status_response m in
      (mk_spdm (if finished cache (sp_script w) then next_state (sp_state w) else sp_state w)
         (List.tl (sp_script w)) (next_cache (sp_script w)) (sp_later w),
       exit_memory cache (sp_script w) m, mk_smc 0 0 0 0 0 0 0 0 0 0 0)
    else if (x0 args =? RMI_PDEV_GET_STATE) && (x1 args =? pdev) then
      (w, m, mk_smc 0 (sp_state w) 0 0 0 0 0 0 0 0 0)
    else if (x0 args =? RMI_PDEV_SET_PUBKEY) && (x1 args =? pdev) && (sp_state w =? RMI_PDEV_NEEDS_KEY) then
      (mk_spdm RMI_PDEV_HAS_KEY (sp_later w) false [], m, mk_smc 0 0 0 0 0 0 0 0 0 0 0)
    else (w, m, mk_smc 1 0 0 0 0 0 0 0 0 0 0);
  RMM_V_1_1 := true;
  val_get_shared_region_base_pa := 0;
  VAL_NS_SHARED_REGION_IPA_OFFSET := 0
|}.

#[local] Instance fetch_bus : MmioBus mbox := mbox_bus respond delay bs bdf cap.

Hypothesis bus_wf : info_wf bs.
Hypothesis bus_info : has_info bs bus.
Hypothesis bus_bdf : mapped_bdf bs bdf.
Hypothesis cap_range : 0 ≤ cap ∧ cap + 0x18 ≤ 4096.

(** The structure of the communication and the three buffers do not overlap. *)
Hypothesis comm_range : 0 < comm.
Hypothesis req_range : 0 ≤ req ∧ req + 0x1000 < 2 ^ 64.
Hypothesis resp_range : 0 ≤ resp ∧ resp + 0x1000 < 2 ^ 64.
Hypothesis cert_range : 0 ≤ cert ∧ cert + VAL_HOST_PDEV_CERT_LEN_MAX < 2 ^ 64.
Hypothesis comm_req : apart comm 0x1000 req 0x1000.
Hypothesis comm_resp : apart comm 0x1000 resp 0x1000.
Hypothesis comm_cert : apart comm 0x1000 cert VAL_HOST_PDEV_CERT_LEN_MAX.
Hypothesis req_resp : apart req 0x1000 resp 0x1000.
Hypothesis req_cert : apart req 0x1000 cert VAL_HOST_PDEV_CERT_LEN_MAX.
Hypothesis resp_cert : apart resp 0x1000 cert VAL_HOST_PDEV_CERT_LEN_MAX.

(** A request that fits its buffer and gets an answer that fits its own. *)
Definition served (x : item) : Prop :=
  Forall word x.1 ∧ 4 * Z.of_nat (length x.1) ≤ 0x1000 ∧
  response (respond (frame (u8 protocol) x.1)) (answer x.1) ∧
  answer x.1 ≠ [] ∧ 4 * Z.of_nat (length (answer x.1)) ≤ 0x1000.

(** The device has its answer by the first reading of its status. *)
Definition prompt (x : item) : bool := match delay (frame (u8 protocol) x.1) with O => true | S _ => false end.

(** The memory: the addresses of the buffers, and the certificates so far. *)
Record buffers_ok (m : gmap Z Z) (data : list Z) : Prop := mk_buffers_ok {
  mo_req : m !! (comm + ENTER_REQ_ADDR) = Some req;
  mo_resp : m !! (comm + ENTER_RESP_ADDR) = Some resp;
  mo_req_mapped : Mem.mapped m req 0x1000;
  mo_resp_mapped : Mem.mapped m resp 0x1000;
  mo_cert_mapped : Mem.mapped m cert VAL_HOST_PDEV_CERT_LEN_MAX;
  mo_data : holds m cert data
}.

(** The same with the response that waits to be cached. *)
Record memory_ok (m : gmap Z Z) (data : list Z) (pending : option (list Z)) : Prop := mk_memory_ok {
  mo_buffers :> buffers_ok m data;
  mo_pending : match pending with
               | None => m !! (comm + ENTER_STATUS) = Some RMI_DEV_COMM_NONE
               | Some a => m !! (comm + ENTER_STATUS) = Some RMI_DEV_COMM_RESPONSE ∧
                           m !! (comm + ENTER_RESP_LEN) = Some (4 * Z.of_nat (length a)) ∧
                           holds m resp a
               end
}.

(** The rest of the state between two calls; [used] is the length of the cache. *)
Record driven (s : da spdm mbox) (w : spdm) (used : Z) : Prop := mk_driven {
  dr_world : h_world (d_host s) = w;
  dr_bus : d_pcie s = pset_world mb_idle bus;
  dr_pdev : pd_get (d_pdev s) pd_pdev = pdev;
  dr_comm : pd_get (d_pdev s) pd_comm = comm;
  dr_bdf : pd_get (d_pdev s) pd_bdf = bdf;
  dr_cap : pd_get (d_pdev s) pd_doe_cap_base = cap;
  dr_cert : pd_get (d_pdev s) pd_cert_chain = cert;
  dr_len : pd_get (d_pdev s) pd_cert_chain_len = used
}.

(** The members that ask for a response to be cached. *)
Definition cache_members (m : gmap Z Z) (a : list Z) : Prop :=
  m !! (comm + EXIT_CACHE_OBJ_ID) = Some RMI_DEV_CERTIFICATE ∧
  m !! (comm + EXIT_REQ_CACHE_OFFSET) = Some 0 ∧ m !! (comm + EXIT_REQ_CACHE_LEN) = Some 0 ∧
  m !! (comm + EXIT_RSP_CACHE_OFFSET) = Some 0 ∧
  m !! (comm + EXIT_RSP_CACHE_LEN) = Some (4 * Z.of_nat (length a)).

(** The members that ask for a request to be sent. *)
Definition send_members (m : gmap Z Z) (r : list Z) : Prop :=
  m !! (comm + EXIT_REQ_LEN) = Some (4 * Z.of_nat (length r)) ∧
  m !! (comm + EXIT_PROTOCOL) = Some protocol ∧ holds m req r.

(** What the exit of a call says. *)
Record exit_ok (m : gmap Z Z) (script : list item) (waiting : option (list Z)) : Prop := mk_exit_ok {
  eo_flags : m !! (comm + EXIT_FLAGS) = Some (exit_flags (bool_decide (is_Some waiting)) script);
  eo_cache : ∀ a, waiting = Some a → cache_members m a;
  eo_send : ∀ x, hd_error script = Some x → send_members m x.1
}.

(** The response that waits to be cached. *)
Definition waits (c : bool) (pending : option (list Z)) : option (list Z) := if c then pending else None.

Definition fits (data : list Z) : Prop := 4 * Z.of_nat (length data) ≤ VAL_HOST_PDEV_CERT_LEN_MAX.
Definition fits_resp (pending : option (list Z)) : Prop :=
  ∀ a, pending = Some a → a ≠ [] ∧ 4 * Z.of_nat (length a) ≤ 0x1000.

Lemma memory_ok_frame m m' data pending :
  memory_ok m data pending → fits data → fits_resp pending →
  (∀ a, is_Some (m !! a) → is_Some (m' !! a)) →
  (∀ a, ¬ (comm + COMM_EXIT ≤ a < comm + 0x1000) → ¬ (req ≤ a < req + 0x1000) → m' !! a = m !! a) →
  memory_ok m' data pending.
Proof.
  intros [[H1 H2 H3 H4 H5 H6] H7] Hf Hp Hs Hm. unfold apart, fits, fits_resp in *.
  assert (∀ o, 0 ≤ o < 0x800 → m' !! (comm + o) = m !! (comm + o)) as Hc by (intros o Ho; apply Hm; offsets).
  split; [split|].
  - by rewrite Hc by offsets.
  - by rewrite Hc by offsets.
  - intros i Hi. by apply Hs, H3.
  - intros i Hi. by apply Hs, H4.
  - intros i Hi. by apply Hs, H5.
  - eapply holds_cong; [|exact H6]. intros i Hi. apply Hm; offsets.
  - destruct pending as [a|]; [|by rewrite Hc by offsets]. destruct (Hp a eq_refl) as [_ Ha].
    destruct H7 as (E1 & E2 & E3). rewrite !Hc by offsets. split; [done|]. split; [done|].
    eapply holds_cong; [|exact E3]. intros i Hi. apply Hm; offsets.
Qed.

(** * The exit of a call *)

Lemma ask_cache_other m a : ¬ (comm + COMM_EXIT ≤ a < comm + 0x1000) → ask_cache m !! a = m !! a.
Proof.
  intros Ha. unfold ask_cache. by rewrite !lookup_insert_ne by offsets.
Qed.

Lemma insert_some (m : gmap Z Z) a v b : is_Some (m !! b) → is_Some (<[a := v]> m !! b).
Proof.
  intros Hb. destruct (decide (a = b)) as [->|]; [rewrite lookup_insert_eq; eauto|].
  by rewrite lookup_insert_ne.
Qed.

Lemma ask_cache_some m a : is_Some (m !! a) → is_Some (ask_cache m !! a).
Proof. intros Ha. unfold ask_cache. by repeat apply insert_some. Qed.

Lemma ask_send_run r c m :
  served (r, c) → Mem.mapped m req 0x1000 →
  holds (ask_send r m) req r ∧
  (∀ a, is_Some (m !! a) → is_Some (ask_send r m !! a)) ∧
  (∀ a, ¬ (comm + COMM_EXIT ≤ a < comm + 0x1000) → ¬ (req ≤ a < req + 0x1000) →
    ask_send r m !! a = m !! a) ∧
  (∀ o, COMM_EXIT ≤ o < 0x1000 → o ≠ EXIT_REQ_LEN → o ≠ EXIT_PROTOCOL →
    ask_send r m !! (comm + o) = m !! (comm + o)).
Proof.
  intros (Hw & Hr & _) Hm. cbn [fst] in *. unfold apart, ask_send in *.
  destruct (put_words_run r req m) as (Hh & Ho & Hs); [done|by intros i Hi; apply Hm; lia|].
  split; [|split; [|split]].
  - eapply holds_cong; [|exact Hh]. intros i Hi. by rewrite !lookup_insert_ne by offsets.
  - intros a Ha. by apply insert_some, insert_some, Hs.
  - intros a H1 H2. rewrite !lookup_insert_ne by offsets. apply Ho. lia.
  - intros o H1 H2 H3. rewrite !lookup_insert_ne by lia. apply Ho. offsets.
Qed.

Lemma ask_cache_members m a :
  m !! (comm + ENTER_RESP_LEN) = Some (4 * Z.of_nat (length a)) → cache_members (ask_cache m) a.
Proof.
  intros Hl. unfold cache_members, ask_cache. rewrite Hl. cbn [from_option id].
  repeat split; repeat first [apply lookup_insert_eq | rewrite lookup_insert_ne by offsets].
Qed.

Lemma cache_members_cong m m' a :
  (∀ o, COMM_EXIT ≤ o < 0x1000 → o ≠ EXIT_REQ_LEN → o ≠ EXIT_PROTOCOL → o ≠ EXIT_FLAGS →
    m' !! (comm + o) = m !! (comm + o)) →
  cache_members m a → cache_members m' a.
Proof.
  intros Hm. unfold cache_members.
  by rewrite !(Hm EXIT_CACHE_OBJ_ID), !(Hm EXIT_REQ_CACHE_OFFSET), !(Hm EXIT_REQ_CACHE_LEN),
    !(Hm EXIT_RSP_CACHE_OFFSET), !(Hm EXIT_RSP_CACHE_LEN) by offsets.
Qed.

(** The caching half of an exit. *)
Lemma exit_cache_ok c m data pending :
  memory_ok m data pending →
  let m1 := if c && status_response m then ask_cache m else m in
  c && status_response m = bool_decide (is_Some (waits c pending)) ∧
  (∀ a, is_Some (m !! a) → is_Some (m1 !! a)) ∧
  (∀ a, ¬ (comm + COMM_EXIT ≤ a < comm + 0x1000) → m1 !! a = m !! a) ∧
  ∀ a, waits c pending = Some a → cache_members m1 a.
Proof.
  intros Hm m1. pose proof (mo_pending _ _ _ Hm) as Hp. subst m1. unfold status_response.
  destruct c; cbn [andb waits]; [|repeat split; naive_solver]. destruct pending as [a|].
  - destruct Hp as (-> & Hl & _). cbn. split; [done|]. split; [intros b; apply ask_cache_some|].
    split; [apply ask_cache_other|]. intros ? [= <-]. by apply ask_cache_members.
  - rewrite Hp. cbn. repeat split; naive_solver.
Qed.

Lemma exit_memory_ok c m script data pending :
  memory_ok m data pending → fits data → fits_resp pending → Forall served script →
  let m' := exit_memory (c && status_response m) script m in
  memory_ok m' data pending ∧ exit_ok m' script (waits c pending).
Proof.
  intros Hm Hf Hp Hs. cbn zeta. destruct (exit_cache_ok c m data pending Hm) as (E & S1 & O1 & C1).
  unfold exit_memory. rewrite E in *. set (m1 := if bool_decide _ then _ else _) in *.
  assert (Mem.mapped m1 req 0x1000) as Hreq by (intros i Hi; by apply S1, (mo_req_mapped _ _ Hm)).
  destruct script as [|[r rc] script].
  - split; [apply (memory_ok_frame m); try done|split].
    + intros a Ha. by apply insert_some, S1.
    + intros a H1 H2. rewrite lookup_insert_ne by offsets. by apply O1.
    + apply lookup_insert_eq.
    + intros a Ha. apply (cache_members_cong m1); [|by apply C1].
      intros o Ho _ _ H3. rewrite lookup_insert_ne by lia. done.
    + done.
  - apply Forall_cons_1 in Hs as [Hr _]. destruct (ask_send_run r rc m1 Hr Hreq) as (Hh & S2 & O2 & K2).
    split; [apply (memory_ok_frame m); try done|split].
    + intros a Ha. by apply insert_some, S2, S1.
    + intros a H1 H2. rewrite lookup_insert_ne by offsets. rewrite O2 by done. by apply O1.
    + apply lookup_insert_eq.
    + intros a Ha. apply (cache_members_cong m1); [|by apply C1].
      intros o Ho H1 H2 H3. rewrite lookup_insert_ne by lia. by apply K2.
    + intros r' [= <-]. cbn [fst]. unfold apart in *. split; [|split].
      * rewrite lookup_insert_ne by offsets. apply lookup_insert_eq.
      * rewrite lookup_insert_ne by offsets. unfold ask_send.
        rewrite lookup_insert_ne by offsets. apply lookup_insert_eq.
      * eapply holds_cong; [|exact Hh]. intros i Hi. destruct Hr as (_ & Hl & _). cbn [fst] in Hl.
        by rewrite lookup_insert_ne by offsets.
Qed.

(** * One turn *)

(** The PDEV after a call of the script. *)
Definition called (w : spdm) (cache : bool) : spdm :=
  mk_spdm (if finished cache (sp_script w) then next_state (sp_state w) else sp_state w)
    (List.tl (sp_script w)) (next_cache (sp_script w)) (sp_later w).

Lemma communicate_call_run s w used :
  driven s w used → talks (sp_state w) = true →
  let cache := sp_cache w && status_response (d_mem s) in
  ∃ s', val_host_rmi_dev_communicate false None s = Ok 0 s' ∧
        driven s' (called w cache) used ∧ d_mem s' = exit_memory cache (sp_script w) (d_mem s).
Proof.
  intros [H1 H2 H3 H4 H5 H6 H7 H8] Ht cache. eexists. split; [|split].
  - unfold val_host_rmi_dev_communicate, da_host, zoom, bind, get_pdev, gets,
      val_host_rmi_pdev_communicate, val_smc_call. rewrite H1, H3, H4. cbn [smc pdev_rmm x0 x1 x2].
    rewrite !Z.eqb_refl, Ht. cbn [andb]. reflexivity.
  - by split.
  - done.
Qed.

Lemma get_state_run s w used v :
  driven s w used →
  ∃ s', val_host_dev_get_state None v s = Ok (0, sp_state w) s' ∧ driven s' w used ∧ d_mem s' = d_mem s.
Proof.
  intros [H1 H2 H3 H4 H5 H6 H7 H8]. eexists. split; [|split].
  - unfold val_host_dev_get_state, val_host_pdev_get_state, da_host, zoom, bind, get_pdev, gets,
      val_host_rmi_pdev_get_state, val_smc_call. rewrite H1, H3. cbn [smc pdev_rmm x0 x1 x2].
    change (RMI_PDEV_GET_STATE =? RMI_PDEV_COMMUNICATE) with false. rewrite !Z.eqb_refl. reflexivity.
  - by split.
  - done.
Qed.

Lemma driven_set_mem s w used m : driven s w used → driven (set_d_mem m s) w used.
Proof. by intros [H1 H2 H3 H4 H5 H6 H7 H8]. Qed.

Lemma load_member (s : da spdm mbox) off v :
  d_mem s !! (comm + off) = Some v → comm_load comm off s = Ok v s.
Proof. intros Hv. rewrite comm_load_run by lia. by rewrite Hv. Qed.

(** One buffer into the cache. *)
Lemma cache_step s script used base n :
  driven s script used → 0 ≤ used → 0 ≤ n ≤ 0x1000 → used + n ≤ VAL_HOST_PDEV_CERT_LEN_MAX →
  base = req ∨ base = resp →
  Mem.mapped (d_mem s) base 0x1000 → Mem.mapped (d_mem s) cert VAL_HOST_PDEV_CERT_LEN_MAX →
  ∃ s', val_host_dev_cache_dev_object None base (u8 RMI_DEV_CERTIFICATE) 0 n s = Ok 0 s' ∧
        driven s' script (used + n) ∧ Mem.copied (d_mem s) (d_mem s') (cert + used) base n.
Proof.
  intros [H1 H2 H3 H4 H5 H6 H7 H8] Hu Hn Hfit Hb Hbase Hcert. unfold apart, VAL_HOST_PDEV_CERT_LEN_MAX in *.
  pose proof (cache_object_run RMI_DEV_CERTIFICATE pd_cert_chain pd_cert_chain_len
    VAL_HOST_PDEV_CERT_LEN_MAX base 0 n s eq_refl) as Hr. cbn zeta in Hr. rewrite H7, H8, Z.add_0_r in Hr.
  specialize (Hr ltac:(lia) ltac:(lia) ltac:(lia) ltac:(lia) ltac:(lia) ltac:(unfold GRANULE_SIZE; lia)
    ltac:(lia) ltac:(lia)).
  unfold VAL_HOST_PDEV_CERT_LEN_MAX in Hr. destruct (Z.ltb_spec (64 * 1024) (used + n)); [lia|].
  destruct Hr as (m' & E & Hc).
  { intros i Hi. apply Hbase. lia. }
  { intros i Hi. rewrite <- Z.add_assoc. apply Hcert. lia. }
  { unfold apart. lia. }
  eexists. split; [exact E|]. split; [by split|exact Hc].
Qed.

(** Copying into the unused part of the cache keeps the rest. *)
Lemma memory_ok_cached m m' data a :
  memory_ok m data (Some a) → fits (data ++ a) → fits_resp (Some a) →
  Mem.copied m m' (cert + 4 * Z.of_nat (length data)) resp (4 * Z.of_nat (length a)) →
  memory_ok m' (data ++ a) (Some a) ∧ ∀ x, ¬ (cert ≤ x < cert + VAL_HOST_PDEV_CERT_LEN_MAX) → m' !! x = m !! x.
Proof.
  intros [[H1 H2 H3 H4 H5 H6] (P1 & P2 & P3)] Hf Hp Hc. destruct (Hp a eq_refl) as [_ Ha].
  unfold fits, apart in *. rewrite length_app in Hf.
  assert (∀ x, ¬ (cert ≤ x < cert + VAL_HOST_PDEV_CERT_LEN_MAX) → m' !! x = m !! x) as Ho.
  { intros x Hx. apply (copied_outside _ _ _ _ _ _ Hc). lia. }
  assert (∀ p k, Mem.mapped m p k → Mem.mapped m' p k) as Hs.
  { intros p k. apply (copied_mapped _ _ _ _ _ _ _) with (2 := Hc). intros i Hi. apply H4. lia. }
  split; [|done]. split; [split|].
  - by rewrite Ho by offsets.
  - by rewrite Ho by offsets.
  - by apply Hs.
  - by apply Hs.
  - by apply Hs.
  - apply holds_app.
    + eapply holds_cong; [|exact H6]. intros i Hi. apply (copied_outside _ _ _ _ _ _ Hc). lia.
    + by apply (holds_copied _ _ _ _ _ Hc).
  - rewrite !Ho by offsets. split; [done|]. split; [done|].
    eapply holds_cong; [|exact P3]. intros i Hi. apply Ho. lia.
Qed.

Lemma copied_zero m m' d q : Mem.copied m m' d q 0 → m' = m.
Proof. intros Hc. apply map_eq. intros a. apply (copied_outside _ _ _ _ _ _ Hc). lia. Qed.

Lemma cache_turn s script data a :
  driven s script (4 * Z.of_nat (length data)) → memory_ok (d_mem s) data (Some a) →
  cache_members (d_mem s) a → fits (data ++ a) → fits_resp (Some a) →
  ∃ s', val_host_dev_cache_dev_req_resp None comm s = Ok 0 s' ∧
        driven s' script (4 * Z.of_nat (length (data ++ a))) ∧ memory_ok (d_mem s') (data ++ a) (Some a) ∧
        ∀ x, ¬ (cert ≤ x < cert + VAL_HOST_PDEV_CERT_LEN_MAX) → d_mem s' !! x = d_mem s !! x.
Proof.
  intros Hd Hm (C1 & C2 & C3 & C4 & C5) Hf Hp. destruct (Hp a eq_refl) as [Hne Ha].
  unfold fits in Hf. assert (0 < Z.of_nat (length a)) by (destruct a; [done|cbn; lia]).
  pose proof Hf as Hf'. rewrite length_app in Hf'.
  destruct (cache_step s script _ req 0 Hd) as (s1 & E1 & D1 & M1%copied_zero);
    [lia|lia|lia|by left|apply Hm|apply Hm|]. rewrite Z.add_0_r in D1.
  destruct (cache_step s1 script _ resp (4 * Z.of_nat (length a)) D1) as (s2 & E2 & D2 & M2);
    [lia|lia|lia|by right|rewrite M1; apply Hm|rewrite M1; apply Hm|]. rewrite M1 in M2.
  destruct (memory_ok_cached _ _ _ _ Hm Hf Hp M2) as [Hm2 Ho2].
  exists s2. split; [|split; [|done]].
  - unfold val_host_dev_cache_dev_req_resp.
    rewrite (bind_step _ _ _ _ _ (load_member _ _ _ C3)), (bind_step _ _ _ _ _ (load_member _ _ _ C5)).
    destruct (Z.eqb_spec (4 * Z.of_nat (length a)) 0); [lia|]. rewrite andb_false_r.
    rewrite (bind_step _ _ _ _ _ (load_member _ _ _ (mo_req _ _ Hm))),
      (bind_step _ _ _ _ _ (load_member _ _ _ C1)), (bind_step _ _ _ _ _ (load_member _ _ _ C2)).
    rewrite (bind_step _ _ _ _ _ E1). cbn [Z.eqb negb]. rewrite <- M1 in *.
    by rewrite (bind_step _ _ _ _ _ (load_member _ _ _ (mo_resp _ _ Hm))),
      (bind_step _ _ _ _ _ (load_member _ _ _ C1)), (bind_step _ _ _ _ _ (load_member _ _ _ C4)),
      (bind_step _ _ _ _ _ (load_member _ _ _ C5)).
  - rewrite length_app. by replace (4 * Z.of_nat (length data + length a))
      with (4 * Z.of_nat (length data) + 4 * Z.of_nat (length a)) by lia.
Qed.

(** The exchange with the device, on the memory of the host. *)
Lemma doe_step m x :
  served x → send_members m x.1 → Mem.mapped m req 0x1000 → Mem.mapped m resp 0x1000 →
  let run := val_host_pcie_doe_communicate bdf cap req (4 * Z.of_nat (length x.1)) resp 0 (u8 protocol) (at_ bus mb_idle m) in
  if prompt x then
    ∃ m', run = Ok (VAL_SUCCESS, 4 * Z.of_nat (length (answer x.1))) (at_ bus mb_idle m') ∧
        holds m' resp (answer x.1) ∧ only resp 0x1000 m m' ∧ ∀ a, is_Some (m !! a) → is_Some (m' !! a)
  else ∃ w, run = Ok (VAL_ERROR, 0) (at_ bus w m).
Proof.
  intros (Hw & Hr & Hresp & Hne & Ha) (_ & _ & Hh) Hreq Hrsp. cbn zeta. unfold val_host_pcie_doe_communicate.
  assert (Z.to_nat (doe_length (4 * Z.of_nat (length x.1))) = length x.1) as El.
  { rewrite doe_length_ceil by lia. Z.to_euclidean_division_equations. lia. }
  assert (u32 (4 * Z.of_nat (length x.1)) = 4 * Z.of_nat (length x.1)) as -> by (apply Z.mod_small; lia).
  pose proof (doe_send_run respond delay bs bdf cap bus bus_wf bus_info bus_bdf cap_range m req
    (4 * Z.of_nat (length x.1)) (u8 protocol) [] ltac:(lia)) as Hsend. cbn zeta in Hsend.
  unfold request in Hsend. rewrite El, words_holds in Hsend by done.
  rewrite (bind_step _ _ _ _ _ (Hsend ltac:(intros i Hi; apply Hreq; lia))). cbn [Z.eqb VAL_SUCCESS negb].
  unfold prompt. destruct (delay (frame (u8 protocol) x.1)) as [|d].
  - destruct (recv_run respond delay bs bdf cap bus bus_wf bus_info bus_bdf cap_range _ (answer x.1) resp 0 m Hresp)
      as (m' & E & Hk & Ho & Hs); [intros i Hi; apply Hrsp; lia|].
    exists m'. split; [exact E|]. split; [exact Hk|]. split; [|done]. intros a Hb. apply Ho. lia.
  - eexists. by apply (recv_late respond delay bs bdf cap bus bus_wf bus_info bus_bdf cap_range).
Qed.

Lemma memory_ok_answered m m' data pending a :
  memory_ok m data pending → fits data → holds m' resp a → 4 * Z.of_nat (length a) ≤ 0x1000 →
  only resp 0x1000 m m' → (∀ x, is_Some (m !! x) → is_Some (m' !! x)) →
  let m'' := <[comm + ENTER_RESP_LEN := 4 * Z.of_nat (length a)]>
               (<[comm + ENTER_STATUS := RMI_DEV_COMM_RESPONSE]> m') in
  memory_ok m'' data (Some a) ∧ m'' !! (comm + EXIT_FLAGS) = m !! (comm + EXIT_FLAGS).
Proof.
  intros [[H1 H2 H3 H4 H5 H6] _] Hf Ha Hl Ho Hs m''. unfold apart, fits in *.
  assert (∀ x, ¬ (comm ≤ x < comm + 0x1000) → m'' !! x = m' !! x) as Hc.
  { intros x Hx. unfold m''. by rewrite !lookup_insert_ne by offsets. }
  assert (∀ x, is_Some (m !! x) → is_Some (m'' !! x)) as Hs'.
  { intros x Hx. by apply insert_some, insert_some, Hs. }
  split; [split; [split|]|].
  - unfold m''. rewrite !lookup_insert_ne by offsets. by rewrite Ho by offsets.
  - unfold m''. rewrite !lookup_insert_ne by offsets. by rewrite Ho by offsets.
  - intros i Hi. by apply Hs', H3.
  - intros i Hi. by apply Hs', H4.
  - intros i Hi. by apply Hs', H5.
  - eapply holds_cong; [|exact H6]. intros i Hi. rewrite Hc by offsets. apply Ho. offsets.
  - unfold m''. rewrite lookup_insert_ne by offsets. rewrite !lookup_insert_eq. split; [done|]. split; [done|].
    eapply holds_cong; [|exact Ha]. intros i Hi. apply Hc. lia.
  - unfold m''. rewrite !lookup_insert_ne by offsets. apply Ho. offsets.
Qed.

Lemma send_turn s w data pending x used :
  driven s w used → memory_ok (d_mem s) data pending → fits data →
  served x → send_members (d_mem s) x.1 →
  if prompt x then
    ∃ s', val_host_pdev_doe_communicate comm s = Ok 0 s' ∧ driven s' w used ∧
        memory_ok (d_mem s') data (Some (answer x.1)) ∧
        d_mem s' !! (comm + EXIT_FLAGS) = d_mem s !! (comm + EXIT_FLAGS)
  else ∃ s', val_host_pdev_doe_communicate comm s = Ok VAL_ERROR s'.
Proof.
  intros Hd Hm Hf Hr Hsm. pose proof Hsm as (S1 & S2 & _). destruct Hd as [H1 H2 H3 H4 H5 H6 H7 H8].
  pose proof (doe_step (d_mem s) x Hr Hsm ltac:(apply Hm) ltac:(apply Hm)) as Hstep. cbn zeta in Hstep.
  assert (comm ≠ 0) as Hne by lia.
  assert (∀ r y m', val_host_pcie_doe_communicate bdf cap req (4 * Z.of_nat (length x.1)) resp 0 (u8 protocol)
      (at_ bus mb_idle (d_mem s)) = Ok r (at_ bus y m') →
    ∃ s1, d_mem s1 = m' ∧ (y = mb_idle → driven s1 w used) ∧ val_host_pdev_doe_communicate comm s =
      (if fst r =? 0 then
        comm_store comm ENTER_STATUS RMI_DEV_COMM_RESPONSE ;;
        comm_store comm ENTER_RESP_LEN (snd r) ;; ret 0
      else
        comm_store comm ENTER_STATUS RMI_DEV_COMM_ERROR ;;
        comm_store comm ENTER_RESP_LEN 0 ;; ret VAL_ERROR)%prog s1) as Hrun.
  { intros r y m' E. unfold val_host_pdev_doe_communicate.
    rewrite (bind_step _ _ _ _ _ (get_pdev_run pd_bdf s)), H5,
      (bind_step _ _ _ _ _ (get_pdev_run pd_doe_cap_base s)), H6,
      (bind_step _ _ _ _ _ (load_member _ _ _ (mo_req _ _ Hm))),
      (bind_step _ _ _ _ _ (load_member _ _ _ S1)),
      (bind_step _ _ _ _ _ (load_member _ _ _ (mo_resp _ _ Hm))),
      (bind_step _ _ _ _ _ (load_member _ _ _ S2)).
    unfold da_doe at 1, zoom at 1, bind at 1. rewrite H2. change (pset_world mb_idle bus, h_mem (d_host s))
      with (at_ bus mb_idle (d_mem s)).
    rewrite E. eexists. split; [|split; [|reflexivity]]; [done|]. intros ->. by split. }
  destruct (prompt x).
  - destruct Hstep as (m' & E & Hh & Ho & Hs). destruct (Hrun _ _ _ E) as (s1 & Em & D1 & ->). specialize (D1 eq_refl).
    cbn [fst snd Z.eqb VAL_SUCCESS].
    destruct Hr as (_ & _ & _ & _ & Ha).
    destruct (memory_ok_answered _ m' _ _ (answer x.1) Hm Hf Hh Ha Ho Hs) as [Hm' Hfl].
    rewrite (bind_step _ _ _ _ _ (comm_store_run _ _ _ _ Hne)), (bind_step _ _ _ _ _ (comm_store_run _ _ _ _ Hne)).
    eexists. split; [reflexivity|]. rewrite !d_mem_set, Em.
    split; [by apply driven_set_mem, driven_set_mem|]. split; [exact Hm'|exact Hfl].
  - destruct Hstep as (y & E). destruct (Hrun _ _ _ E) as (s1 & Em & _ & ->). cbn [fst snd Z.eqb VAL_ERROR].
    rewrite (bind_step _ _ _ _ _ (comm_store_run _ _ _ _ Hne)), (bind_step _ _ _ _ _ (comm_store_run _ _ _ _ Hne)).
    by eexists.
Qed.

Lemma quiet_turn s w data used :
  driven s w used → buffers_ok (d_mem s) data → fits data →
  ∃ s', comm_store comm ENTER_STATUS RMI_DEV_COMM_NONE s = Ok tt s' ∧ driven s' w used ∧
        memory_ok (d_mem s') data None ∧
        d_mem s' !! (comm + EXIT_FLAGS) = d_mem s !! (comm + EXIT_FLAGS).
Proof.
  intros Hd [H1 H2 H3 H4 H5 H6] Hf. unfold fits, apart in *.
  eexists. split; [by apply comm_store_run; lia|]. split; [by apply driven_set_mem|]. rewrite d_mem_set.
  split; [split; [split|]|].
  - by rewrite lookup_insert_ne by offsets.
  - by rewrite lookup_insert_ne by offsets.
  - by apply MemFacts.mapped_insert.
  - by apply MemFacts.mapped_insert.
  - by apply MemFacts.mapped_insert.
  - eapply holds_cong; [|exact H6]. intros i Hi. by rewrite lookup_insert_ne by offsets.
  - apply lookup_insert_eq.
  - by rewrite lookup_insert_ne by offsets.
Qed.

(** Clearing the length of the response, before the first call. *)
Lemma memory_ok_resp_len m data :
  memory_ok m data None → fits data → memory_ok (<[comm + ENTER_RESP_LEN := 0]> m) data None.
Proof.
  intros [[H1 H2 H3 H4 H5 H6] H7] Hf. unfold fits, apart in *. split; [split|].
  - by rewrite lookup_insert_ne by offsets.
  - by rewrite lookup_insert_ne by offsets.
  - by apply MemFacts.mapped_insert.
  - by apply MemFacts.mapped_insert.
  - by apply MemFacts.mapped_insert.
  - eapply holds_cong; [|exact H6]. intros i Hi. by rewrite lookup_insert_ne by offsets.
  - by rewrite lookup_insert_ne by offsets.
Qed.

(** The response a turn leaves behind. *)
Definition next_pending (script : list item) : option (list Z) := (λ x, answer x.1) <$> hd_error script.

(** The bytes a turn caches. *)
Definition turn_data (data : list Z) (waiting : option (list Z)) : list Z := data ++ default [] waiting.

Lemma exit_flags_bits c script :
  has_flag (exit_flags c script) RMI_DEV_COMM_EXIT_FLAGS_REQ_CACHE_BIT = false ∧
  has_flag (exit_flags c script) RMI_DEV_COMM_EXIT_FLAGS_RSP_CACHE_BIT = c ∧
  has_flag (exit_flags c script) RMI_DEV_COMM_EXIT_FLAGS_REQ_SEND_BIT =
    match script with [] => false | _ => true end.
Proof. by destruct c, script. Qed.

(** Every device that is asked is prompt. *)
Definition answered (script : list item) : bool := match script with [] => true | x :: _ => prompt x end.

Lemma serve_exit_run s script w data c pending :
  driven s w (4 * Z.of_nat (length data)) → memory_ok (d_mem s) data pending →
  exit_ok (d_mem s) script (waits c pending) → Forall served script →
  fits (turn_data data (waits c pending)) → fits_resp pending →
  if answered script then
    ∃ s', serve_exit None comm s = Ok None s' ∧
        driven s' w (4 * Z.of_nat (length (turn_data data (waits c pending)))) ∧
        memory_ok (d_mem s') (turn_data data (waits c pending)) (next_pending script) ∧
        d_mem s' !! (comm + EXIT_FLAGS) = Some (exit_flags (bool_decide (is_Some (waits c pending))) script)
  else ∃ s', serve_exit None comm s = Ok (Some VAL_ERROR) s'.
Proof.
  intros Hd Hm [Hfl Hc Hsn] Hs Hf Hp. unfold serve_exit.
  rewrite (bind_step _ _ _ _ _ (load_member _ _ _ Hfl)).
  destruct (exit_flags_bits (bool_decide (is_Some (waits c pending))) script) as (-> & -> & Hsend). cbn [orb].
  assert (∃ s1, (if bool_decide (is_Some (waits c pending)) then val_host_dev_cache_dev_req_resp None comm else ret 0) s
      = Ok 0 s1 ∧ driven s1 w (4 * Z.of_nat (length (turn_data data (waits c pending)))) ∧
      memory_ok (d_mem s1) (turn_data data (waits c pending)) pending ∧
      ∀ x, ¬ (cert ≤ x < cert + VAL_HOST_PDEV_CERT_LEN_MAX) → d_mem s1 !! x = d_mem s !! x)
    as (s1 & E1 & D1 & M1 & O1).
  { destruct c, pending as [a|]; cbn; unfold turn_data in *; cbn [waits default from_option id] in *;
      try (exists s; by rewrite app_nil_r). by apply cache_turn; auto. }
  rewrite (bind_step _ _ _ _ _ E1). cbn [Z.eqb negb]. unfold apart in *.
  assert (d_mem s1 !! (comm + EXIT_FLAGS) = Some (exit_flags (bool_decide (is_Some (waits c pending))) script)) as Hfl1
    by (by rewrite O1 by offsets).
  rewrite (bind_step _ _ _ _ _ (load_member _ _ _ Hfl1)), Hsend. destruct script as [|x script]; cbn [answered].
  - destruct (quiet_turn s1 _ _ _ D1 M1 Hf) as (s2 & E2 & D2 & M2 & F2).
    exists s2. rewrite bind_assoc, (bind_step _ _ _ _ _ E2). by rewrite F2.
  - apply Forall_cons_1 in Hs as [Hr _]. pose proof Hr as (_ & Hlen & _).
    pose proof (send_turn s1 w _ _ x _ D1 M1 Hf Hr) as Hst.
    assert (send_members (d_mem s1) x.1) as Hsm.
    { destruct (Hsn x eq_refl) as (S1 & S2 & S3). split; [by rewrite O1 by offsets|].
      split; [by rewrite O1 by offsets|]. eapply holds_cong; [|exact S3]. intros i Hi. apply O1. lia. }
    specialize (Hst Hsm). destruct (prompt x).
    + destruct Hst as (s2 & E2 & D2 & M2 & F2). exists s2. rewrite (bind_step _ _ _ _ _ E2). by rewrite F2.
    + destruct Hst as (s2 & E2). exists s2. by rewrite (bind_step _ _ _ _ _ E2).
Qed.

(** What the script adds to the cache. *)
Definition cached (script : list item) : list Z := concat (map (λ x : item, if x.2 then answer x.1 else []) script).

(** Everything the cache holds in the end. *)
Definition final_data (data : list Z) (waiting : option (list Z)) (script : list item) : list Z :=
  turn_data data waiting ++ cached script.

Lemma final_data_turn data waiting script :
  final_data (turn_data data waiting) (waits (next_cache script) (next_pending script)) (List.tl script) =
  final_data data waiting script.
Proof.
  unfold final_data, turn_data, next_pending, cached. destruct script as [|[r []] script]; cbn; rewrite ?app_nil_r; [done| |done].
  by rewrite <- !app_assoc.
Qed.

Lemma fits_app l1 l2 : fits (l1 ++ l2) → fits l1.
Proof. unfold fits. rewrite length_app. lia. Qed.

Lemma next_fits script : Forall served script → fits_resp (next_pending script).
Proof.
  destruct script as [|r script]; [done|]. intros [(_ & _ & _ & Hne & Ha) _]%Forall_cons_1 a [= <-]. done.
Qed.

Lemma flags_finished c script : (exit_flags c script =? 0) = finished c script.
Proof. by destruct c, script. Qed.

Lemma talks_next st : talks st = true → (st =? next_state st) = false ∧ (st =? RMI_PDEV_ERROR) = false.
Proof. unfold talks. intros [->%Z.eqb_eq | ->%Z.eqb_eq]%orb_true_iff; done. Qed.

(** One turn of the loop. *)
Lemma turn_run s st script c later data pending v :
  talks st = true → driven s (mk_spdm st script c later) (4 * Z.of_nat (length data)) →
  memory_ok (d_mem s) data pending →
  Forall served script → fits (final_data data (waits c pending) script) → fits_resp pending →
  let done_ := finished (bool_decide (is_Some (waits c pending))) script in
  if answered script then
    ∃ s', driven s' (mk_spdm (if done_ then next_state st else st) (List.tl script) (next_cache script) later)
            (4 * Z.of_nat (length (turn_data data (waits c pending)))) ∧
        memory_ok (d_mem s') (turn_data data (waits c pending)) (next_pending script) ∧
        ∀ fuel, communicate_loop (S fuel) false None comm RMI_PDEV_ERROR (next_state st) v s =
          (if done_ then Ok 0 s'
           else communicate_loop fuel false None comm RMI_PDEV_ERROR (next_state st) st s')
  else ∃ s', ∀ fuel, communicate_loop (S fuel) false None comm RMI_PDEV_ERROR (next_state st) v s = Ok VAL_ERROR s'.
Proof.
  intros Htk Hd Hm Hs Hf Hp. cbn zeta. pose proof (fits_app _ _ Hf) as Hft. pose proof (fits_app _ _ Hft) as Hfd.
  destruct (communicate_call_run s _ _ Hd Htk) as (s1 & E1 & D1 & M1). cbn [sp_cache sp_script] in *.
  destruct (exit_memory_ok c _ _ _ _ Hm Hfd Hp Hs) as [Hm1 He1]. rewrite <- M1 in Hm1, He1.
  destruct (exit_cache_ok c _ _ _ Hm) as (Ec & _). rewrite Ec in D1.
  pose proof (serve_exit_run s1 script _ data c pending D1 Hm1 He1 Hs Hft Hp) as Hse.
  destruct (answered script).
  2: { destruct Hse as (s2 & E2). exists s2. intros fuel. cbn [communicate_loop].
       rewrite (bind_step _ _ _ _ _ E1). cbn [Z.eqb negb]. by rewrite (bind_step _ _ _ _ _ E2). }
  destruct Hse as (s2 & E2 & D2 & M2 & F2). destruct (get_state_run s2 _ _ v D2) as (s3 & E3 & D3 & M3).
  exists s3. rewrite M3. split; [done|]. split; [done|]. intros fuel. cbn [communicate_loop].
  rewrite (bind_step _ _ _ _ _ E1). cbn [Z.eqb negb].
  rewrite (bind_step _ _ _ _ _ E2), (bind_step _ _ _ _ _ E3). cbn [fst snd Z.eqb negb called sp_state sp_script].
  rewrite <- M3 in F2. destruct (finished _ script) eqn:Ef.
  - rewrite Z.eqb_refl, (bind_step _ _ _ _ _ (load_member _ _ _ F2)). by rewrite flags_finished, Ef.
  - by destruct (talks_next st Htk) as [-> ->].
Qed.

(** The turns after the first one. *)
Definition turns_left (script : list item) (waiting : option (list Z)) : nat :=
  match script, waiting with
  | [], None => 0
  | [], Some _ => 1
  | _, _ => length script + 1
  end.

Lemma loop_run fuel st later : talks st = true → ∀ s script c data pending v,
  driven s (mk_spdm st script c later) (4 * Z.of_nat (length data)) → memory_ok (d_mem s) data pending →
  Forall served script → fits (final_data data (waits c pending) script) → fits_resp pending →
  (turns_left script (waits c pending) < fuel)%nat →
  let run := communicate_loop fuel false None comm RMI_PDEV_ERROR (next_state st) v s in
  if forallb prompt script then
    ∃ s', run = Ok 0 s' ∧
        driven s' (mk_spdm (next_state st) [] false later)
          (4 * Z.of_nat (length (final_data data (waits c pending) script))) ∧
        memory_ok (d_mem s') (final_data data (waits c pending) script) None
  else ∃ s', run = Ok VAL_ERROR s'.
Proof.
  intros Htk. induction fuel as [|fuel IH]; intros s script c data pending v Hd Hm Hs Hf Hp Hfuel; [lia|]. cbn zeta.
  pose proof (turn_run s st script c later data pending v Htk Hd Hm Hs Hf Hp) as Ht. cbn zeta in Ht.
  assert (forallb prompt script = answered script && forallb prompt (List.tl script)) as -> by by destruct script.
  destruct (answered script); cbn [andb]; [|destruct Ht as (s1 & E1); exists s1; apply E1].
  destruct Ht as (s1 & D1 & M1 & E1). rewrite E1.
  rewrite <- final_data_turn in Hf |- *.
  destruct (finished _ script) eqn:Ef.
  - unfold finished in Ef. destruct script as [|x script]; [|by rewrite andb_false_r in Ef].
    rewrite andb_true_r in Ef. apply negb_true_iff, bool_decide_eq_false in Ef. apply eq_None_not_Some in Ef.
    exists s1. cbn. unfold final_data, turn_data in *. cbn in *. rewrite Ef in *. cbn in *. by rewrite !app_nil_r in *.
  - apply IH; [done|done| |done|by apply next_fits|].
    + destruct script; [done|]. by apply Forall_cons_1 in Hs as [_ Hs].
    + unfold turns_left, next_pending, finished in *.
      destruct script as [|[r []] [|[r' []] script]], (waits c pending); cbn in *; lia || naive_solver.
Qed.

(** C14. A PDEV is driven through the two phases in which it talks to its device: from new
    to in need of a key, when the certificates are fetched, and with the key to ready.
    The device answers through its mailbox.  If each answer is there at the first
    reading of the mailbox's status, driving the PDEV to the end of its phase succeeds
    after one turn for each request and at most two more: every request has been sent,
    and behind what the certificate buffer held it holds the responses that were to be
    cached, complete and in order.  If one answer comes later, the result is an error. *)
Theorem communicate_fetches_certificates fuel s st script later data target :
  talks st = true → driven s (mk_spdm st script false later) (4 * Z.of_nat (length data)) →
  buffers_ok (d_mem s) data →
  Forall served script → fits (data ++ cached script) → u8 target = next_state st →
  (length script + 1 < fuel)%nat →
  let run := val_host_dev_communicate fuel false true None target s in
  if forallb prompt script then
    ∃ s', run = Ok 0 s' ∧
        driven s' (mk_spdm (next_state st) [] false later) (4 * Z.of_nat (length (data ++ cached script))) ∧
        holds (d_mem s') cert (data ++ cached script)
  else ∃ s', run = Ok VAL_ERROR s'.
Proof.
  intros Htk Hd Hm Hs Hf Ht Hfuel. cbn zeta. pose proof (fits_app _ _ Hf) as Hfd.
  assert (final_data data (waits false None) script = data ++ cached script) as Ef
    by (unfold final_data, turn_data; cbn; by rewrite app_nil_r).
  destruct (quiet_turn s _ _ _ Hd Hm Hfd) as (s1 & E1 & D1 & M1 & _).
  set (s2 := set_d_mem (<[comm + ENTER_RESP_LEN := 0]> (d_mem s1)) s1).
  assert (driven s2 (mk_spdm st script false later) (4 * Z.of_nat (length data))) as D2 by by apply driven_set_mem.
  assert (memory_ok (d_mem s2) data None) as M2 by by apply memory_ok_resp_len.
  destruct (get_state_run s2 _ _ 0 D2) as (s3 & E3 & D3 & M3). rewrite <- M3 in M2.
  rewrite <- Ef in Hf |- *.
  assert (val_host_dev_communicate fuel false true None target s =
    communicate_loop fuel false None comm RMI_PDEV_ERROR (next_state st) st s3) as ->.
  { unfold val_host_dev_communicate. cbn [negb].
    rewrite (bind_step _ _ _ _ _ (get_pdev_run pd_comm s)), (dr_comm _ _ _ Hd), (bind_step _ _ _ _ _ E1).
    assert (comm ≠ 0) as Hne by lia. rewrite (bind_step _ _ _ _ _ (comm_store_run _ _ _ _ Hne)). fold s2.
    by rewrite (bind_step _ _ _ _ _ E3), Ht. }
  pose proof (loop_run fuel st later Htk s3 script false data None st D3 M2 Hs Hf) as HL. cbn zeta in HL.
  specialize (HL ltac:(done) ltac:(unfold turns_left; destruct script; cbn in *; lia)).
  destruct (forallb prompt script); [|done]. destruct HL as (s' & E & D & M). exists s'.
  split; [done|]. split; [done|]. apply M.
Qed.

End Fetch.

(** * A certificate in two responses *)

Definition demo_script : list item := [([1; 2], true); ([3], true)].

(** What follows with the key, of which nothing is cached. *)
Definition demo_later : list item := [([4], false)].

(** [n] bytes of zeros from [p]. *)
Definition zero_bytes (p n : Z) : gmap Z Z := gset_to_gmap 0 (list_to_set (seqZ p n)).

Definition demo_comm_memory : gmap Z Z :=
  <[0x1000 + ENTER_REQ_ADDR := 0x2000]> (<[0x1000 + ENTER_RESP_ADDR := 0x3000]> (zero_bytes 0x2000 0x20000)).

Definition demo_pdev_member (f : pdev_field) : Z :=
  match f with
  | pd_pdev => 0x100000 | pd_comm => 0x1000 | pd_bdf => 8 | pd_doe_cap_base => 0x100
  | pd_cert_chain => 0x10000 | _ => 0
  end.

Definition demo_pdev : val_host_pdev_ts := mk_pdev demo_pdev_member [].

Definition demo_bus : pcie mbox := mk_pcie mb_idle (Some (mk_info 1 demo_blocks)) None pal_vars_init.

Definition demo_da : da spdm mbox :=
  mk_da (mk_host (mk_spdm RMI_PDEV_NEW demo_script false demo_later) (mk_gs (val_host_mem_alloc_init (mk_alloc 0 0 0 0)) ∅ 0 0 0 []) demo_comm_memory
           realm_zero []) demo_bus demo_pdev [] 0 0 0.

Lemma zero_bytes_lookup p n a : p ≤ a < p + n → zero_bytes p n !! a = Some 0.
Proof.
  intros Ha. apply lookup_gset_to_gmap_Some. split; [|done]. apply elem_of_list_to_set, elem_of_seqZ. lia.
Qed.

#[local] Opaque zero_bytes.

Lemma zero_bytes_mapped p n q k : p ≤ q → q + k ≤ p + n → Mem.mapped (zero_bytes p n) q k.
Proof. intros Hq Hk i Hi. exists 0. apply zero_bytes_lookup. lia. Qed.

Lemma demo_mapped_buffer q k : 0x2000 ≤ q → q + k ≤ 0x22000 → Mem.mapped demo_comm_memory q k.
Proof.
  intros Hq Hk. unfold demo_comm_memory. do 2 apply MemFacts.mapped_insert. apply zero_bytes_mapped; lia.
Qed.

Lemma demo_buffers : buffers_ok 0x1000 0x2000 0x3000 0x10000 (d_mem demo_da) [].
Proof.
  split.
  - apply lookup_insert_eq.
  - unfold d_mem. cbn [demo_da d_host h_mem]. unfold demo_comm_memory.
    rewrite lookup_insert_ne by (unfold ENTER_REQ_ADDR, ENTER_RESP_ADDR; lia). apply lookup_insert_eq.
  - apply demo_mapped_buffer; lia.
  - apply demo_mapped_buffer; lia.
  - apply demo_mapped_buffer; unfold VAL_HOST_PDEV_CERT_LEN_MAX; lia.
  - intros k x Hk. discriminate Hk.
Qed.

Lemma demo_served : Forall (served (λ l, l) 1 (λ l, l)) demo_script.
Proof.
  assert (∀ r, r = ([1; 2], true) ∨ r = ([3], true) → served (λ l, l) 1 (λ l, l) r) as Hr;
    [|apply Forall_cons_2; [apply Hr; auto|]; apply Forall_cons_2; [apply Hr; auto|apply Forall_nil_2]].
  intros r [-> | ->]; (split; [repeat constructor; lia|]); (split; [cbn; lia|]);
    (split; [|split; [done|cbn; lia]]); exists (doe_header 1); (split; [done|]); (split; [cbn; lia|]);
    repeat constructor; lia.
Qed.

(** The device answers in time, or is late with the second certificate; and the key
    brings the PDEV to the next phase. *)
Lemma communicate_fetches_certificates_witness :
  let R := pdev_rmm 0x100000 0x1000 0x2000 1 in
  (∃ s' : da spdm mbox,
    @val_host_dev_communicate _ _ R (mbox_bus (λ l, l) (λ _, 0%nat) demo_blocks 8 0x100)
      4 false true None RMI_PDEV_NEEDS_KEY demo_da = Ok 0 s' ∧
    driven 8 0x100 demo_bus 0x100000 0x1000 0x10000 s' (mk_spdm RMI_PDEV_NEEDS_KEY [] false demo_later) 12 ∧
    holds (d_mem s') 0x10000 [1; 2; 3]) ∧
  (∃ s' : da spdm mbox,
    @val_host_dev_communicate _ _ R (mbox_bus (λ l, l) (λ f, if decide (length f = 3)%nat then 1%nat else 0%nat) demo_blocks 8 0x100)
      4 false true None RMI_PDEV_NEEDS_KEY demo_da = Ok VAL_ERROR s') ∧
  (@smc _ R (mk_spdm RMI_PDEV_NEEDS_KEY [] false demo_later) ∅ (mk_smc RMI_PDEV_SET_PUBKEY 0x100000 0x5000 0 0 0 0 0 0 0 0)).1.1 =
    mk_spdm RMI_PDEV_HAS_KEY demo_later false [].
Proof.
  intros R.
  pose proof (λ delay, communicate_fetches_certificates (λ l, l) delay demo_blocks 8 0x100 demo_bus 0x100000 0x1000 0x2000 0x3000
    0x10000 1 (λ l, l) demo_info_wf eq_refl ltac:(apply (demo_mapped 1 0); lia) ltac:(lia) ltac:(lia)
    ltac:(lia) ltac:(lia) ltac:(unfold VAL_HOST_PDEV_CERT_LEN_MAX; lia) ltac:(unfold apart; lia)
    ltac:(unfold apart; lia) ltac:(unfold apart, VAL_HOST_PDEV_CERT_LEN_MAX; lia) ltac:(unfold apart; lia)
    ltac:(unfold apart, VAL_HOST_PDEV_CERT_LEN_MAX; lia) ltac:(unfold apart, VAL_HOST_PDEV_CERT_LEN_MAX; lia)
    4 demo_da RMI_PDEV_NEW demo_script demo_later [] RMI_PDEV_NEEDS_KEY eq_refl ltac:(by split) demo_buffers demo_served
    ltac:(cbn; unfold fits, VAL_HOST_PDEV_CERT_LEN_MAX; cbn; lia) eq_refl ltac:(cbn; lia)) as HC.
  split; [exact (HC (λ _, 0%nat))|]. split; [|reflexivity].
  exact (HC (λ f, if decide (length f = 3)%nat then 1%nat else 0%nat)).
Defined.

(** The first chunk of that certificate, cached from the buffer of the response. *)
Lemma object_cache_is_log_witness :
  let B := mbox_bus (λ l, l) (λ _, 0%nat) demo_blocks 8 0x100 in
  let R := pdev_rmm 0x100000 0x1000 0x2000 1 in
  ∃ m', let s' := cached_state pd_cert_chain_len 2 m' demo_da in
    val_host_dev_cache_dev_object None 0x3000 RMI_DEV_CERTIFICATE 8 2 demo_da = Ok 0 s' ∧
    caches pd_cert_chain pd_cert_chain_len [0; 0] s' ∧ only 0x10000 2 (d_mem demo_da) m'.
Proof.
  intros B R. apply (object_cache_is_log RMI_DEV_CERTIFICATE pd_cert_chain pd_cert_chain_len
    VAL_HOST_PDEV_CERT_LEN_MAX 0x3000 8 [] [0; 0] demo_da).
  - reflexivity.
  - split; [|done]. intros k b Hk. discriminate Hk.
  - cbn. lia.
  - cbn. unfold VAL_HOST_PDEV_CERT_LEN_MAX. lia.
  - apply demo_mapped_buffer; cbn; unfold VAL_HOST_PDEV_CERT_LEN_MAX; lia.
  - lia.
  - cbn. unfold GRANULE_SIZE. lia.
  - lia.
  - lia.
  - assert (∀ a, 0x3008 ≤ a < 0x3010 → d_mem demo_da !! a = Some 0) as Ha.
    { intros a Ha. unfold d_mem. cbn [demo_da d_host h_mem]. unfold demo_comm_memory.
      rewrite !lookup_insert_ne by (unfold ENTER_REQ_ADDR, ENTER_RESP_ADDR; lia).
      apply zero_bytes_lookup. lia. }
    intros [|[|k]] b Hk; cbn in Hk; simplify_eq; apply Ha; lia.
  - cbn. unfold apart, VAL_HOST_PDEV_CERT_LEN_MAX. lia.
  - cbn. unfold VAL_HOST_PDEV_CERT_LEN_MAX. lia.
Defined.

(** * Teardown of a VDEV that the RMM does not unlock *)

Section Teardown.
Context {W P : Type} `{RMM W} `{MmioBus P}.
Implicit Types s : da W P.

(** [command s args r s']: in [s] the RMM answers the command [args] with [r]. *)
Definition command s (args r : val_smc_param_ts) s' : Prop :=
  ∃ w m, smc (h_world (d_host s)) (h_mem (d_host s)) args = (w, m, r) ∧
         s' = set_d_host (mk_host w (h_gs (d_host s)) m (h_realm (d_host s))
                (h_log (d_host s) ++ [(args, h_mem (d_host s))])) s.

Definition get_state_args (vdev : Z) : val_smc_param_ts := mk_smc RMI_VDEV_GET_STATE vdev 0 0 0 0 0 0 0 0 0.
Definition unlock_args (rd pdev vdev : Z) : val_smc_param_ts :=
  mk_smc RMI_VDEV_UNLOCK rd pdev vdev 0 0 0 0 0 0 0.

Lemma command_run s a0 a1 a2 a3 a4 a5 a6 a7 a8 a9 a10 r s' :
  command s (mk_smc a0 a1 a2 a3 a4 a5 a6 a7 a8 a9 a10) r s' →
  da_host (val_smc_call a0 a1 a2 a3 a4 a5 a6 a7 a8 a9 a10) s = Ok r s' ∧
  d_vdevs s' = d_vdevs s ∧ h_realm (d_host s') = h_realm (d_host s) ∧
  map fst (h_log (d_host s')) = map fst (h_log (d_host s)) ++ [mk_smc a0 a1 a2 a3 a4 a5 a6 a7 a8 a9 a10].
Proof.
  intros (w & m & E & ->). unfold da_host, zoom, val_smc_call. rewrite E. cbn. by rewrite map_app.
Qed.

Lemma get_vdev_run i f d s : d_vdevs s !! i = Some d → get_vdev i f s = Ok (d f) s.
Proof. intros E. unfold get_vdev, bind, gets. by rewrite E. Qed.

Lemma unlock_failed_run i d s r s' :
  d_vdevs s !! i = Some d → command s (get_state_args (d vd_vdev)) r s' →
  x0 r = 0 → x1 r ≠ RMI_VDEV_ERROR → unlock_failed i s = Ok VAL_SUCCESS s'.
Proof.
  intros Hi (E & _)%command_run Hr0 Hr1. unfold unlock_failed, val_host_rmi_vdev_get_state.
  rewrite (bind_step _ _ _ _ _ (get_vdev_run i vd_vdev d s Hi)), (bind_step _ _ _ _ _ E), Hr0.
  cbn [truthy Z.eqb negb]. by destruct (Z.eqb_spec (x1 r) RMI_VDEV_ERROR).
Qed.

(** When the RMM refuses to unlock a locked or started VDEV and does not put it
    in the error state, its teardown reports success: the VDEV has not been destroyed
    and the table of device mappings of the Realm is not cleared. *)
Theorem refused_unlock_counts_as_teardown fuel i d s s0 s1 s2 s3 r1 r2 r3 :
  d_vdevs s !! i = Some d → d vd_vdev ≠ 0 → d vd_pdev ≠ 0 →
  for_upto (r_dev_granules_mapped_count (h_realm (d_host s))) unmap_region s = Ok None s0 →
  d_vdevs s0 = d_vdevs s →
  command s0 (get_state_args (d vd_vdev)) r1 s1 →
  x0 r1 = 0 → x1 r1 = RMI_VDEV_LOCKED ∨ x1 r1 = RMI_VDEV_STARTED →
  command s1 (unlock_args (r_rd (h_realm (d_host s0))) (d vd_pdev) (d vd_vdev)) r2 s2 → x0 r2 ≠ 0 →
  command s2 (get_state_args (d vd_vdev)) r3 s3 → x0 r3 = 0 → x1 r3 ≠ RMI_VDEV_ERROR →
  val_host_vdev_teardown fuel true true (Some i) s = Ok VAL_SUCCESS s3 ∧
  map fst (h_log (d_host s3)) = map fst (h_log (d_host s0)) ++
    [get_state_args (d vd_vdev); unlock_args (r_rd (h_realm (d_host s0))) (d vd_pdev) (d vd_vdev);
     get_state_args (d vd_vdev)] ∧
  h_realm (d_host s3) = h_realm (d_host s0).
Proof.
  intros Hi Hv Hp Hloop Hl C1 Hr1 Hst C2 Hr2 C3 Hr3 Herr.
  destruct (command_run _ _ _ _ _ _ _ _ _ _ _ _ _ _ C1) as (E1 & V1 & R1 & L1).
  destruct (command_run _ _ _ _ _ _ _ _ _ _ _ _ _ _ C2) as (E2 & V2 & R2 & L2).
  destruct (command_run _ _ _ _ _ _ _ _ _ _ _ _ _ _ C3) as (E3 & V3 & R3 & L3).
  split; [|split; [by rewrite L3, L2, L1, <- !app_assoc|by rewrite R3, R2]].
  unfold val_host_vdev_teardown.
  rewrite (bind_step _ _ _ _ _ (get_vdev_run i vd_vdev d s Hi)).
  destruct (Z.eqb_spec (d vd_vdev) 0) as [|_]; [done|].
  rewrite (bind_step _ _ _ _ _ (get_vdev_run i vd_pdev d s Hi)).
  destruct (Z.eqb_spec (d vd_pdev) 0) as [|_]; [done|]. cbn [negb orb].
  rewrite (bind_step (da_host (realm r_dev_granules_mapped_count)) _ s
    (r_dev_granules_mapped_count (h_realm (d_host s))) s ltac:(by destruct s as [[] ? ? ? ? ? ?])).
  rewrite (bind_step _ _ _ _ _ Hloop), (bind_step _ _ _ _ _ E1), Hr1. cbn [truthy Z.eqb negb].
  assert ((x1 r1 =? RMI_VDEV_LOCKED) || (x1 r1 =? RMI_VDEV_STARTED) = true) as ->
    by (destruct Hst as [-> | ->]; done).
  rewrite (bind_step (da_host (realm r_rd)) _ s1 (r_rd (h_realm (d_host s0))) s1
    ltac:(rewrite <- R1; by destruct s1 as [[] ? ? ? ? ? ?])).
  rewrite (bind_step _ _ _ _ _ E2). unfold truthy at 1. destruct (Z.eqb_spec (x0 r2) 0); [done|]. cbn [negb].
  by apply (unlock_failed_run i d s2 r3); [rewrite V2, V1, Hl| | |].
Qed.
End Teardown.

(** An RMM that knows one locked VDEV and never unlocks it. *)
Definition stuck_rmm : RMM unit := {|
  smc w m args := (w, m, if x0 args =? RMI_VDEV_GET_STATE then mk_smc 0 RMI_VDEV_LOCKED 0 0 0 0 0 0 0 0 0
                         else mk_smc 1 0 0 0 0 0 0 0 0 0 0);
  RMM_V_1_1 := true;
  val_get_shared_region_base_pa := 0;
  VAL_NS_SHARED_REGION_IPA_OFFSET := 0
|}.

Definition demo_vdev : val_host_vdev_ts :=
  λ f, match f with vd_vdev => 0x200000 | vd_pdev => 0x100000 | _ => 0 end.

(** The Realm at 7, after the commands [log]. *)
Definition demo_vdev_da (log : list val_smc_param_ts) : da unit mbox :=
  mk_da (mk_host tt (mk_gs (val_host_mem_alloc_init (mk_alloc 0 0 0 0)) ∅ 0 0 0 []) ∅ (rset_rd 7 realm_zero)
           (map (λ a, (a, ∅)) log)) demo_bus demo_pdev [demo_vdev] 1 0 0.

Lemma refused_unlock_counts_as_teardown_witness :
  let B := mbox_bus (λ l, l) (λ _, 0%nat) demo_blocks 8 0x100 in
  let R := stuck_rmm in
  let g := get_state_args 0x200000 in let u := unlock_args 7 0x100000 0x200000 in
  val_host_vdev_teardown 1 true true (Some 0%nat) (demo_vdev_da []) = Ok VAL_SUCCESS (demo_vdev_da [g; u; g]) ∧
  map fst (h_log (d_host (demo_vdev_da [g; u; g]))) = [g; u; g] ∧
  h_realm (d_host (demo_vdev_da [g; u; g])) = h_realm (d_host (demo_vdev_da [])).
Proof.
  intros B R g u.
  apply (refused_unlock_counts_as_teardown 1 0 demo_vdev (demo_vdev_da []) (demo_vdev_da []) (demo_vdev_da [g])
    (demo_vdev_da [g; u]) (demo_vdev_da [g; u; g]) (mk_smc 0 RMI_VDEV_LOCKED 0 0 0 0 0 0 0 0 0)
    (mk_smc 1 0 0 0 0 0 0 0 0 0 0) (mk_smc 0 RMI_VDEV_LOCKED 0 0 0 0 0 0 0 0 0)); try done.
  - by exists tt, ∅.
  - by left.
  - by exists tt, ∅.
  - by exists tt, ∅.
Defined.
