(* ===== verification/Mp.v ===== *)
(** Several cores: logical numbers of cores (val_mp_supp.c, pal_cpu_info.c), power
    control (val_psci.c, val_host_mp.c), live firmware activation calls
    (val_host_lfa.c), and the counting events by which the cores of a test wait for
    each other (val_mp_supp.c).

    The cores run interleaved, one access to shared memory at a time.  [pc] names the
    point between two accesses at which a core stands; a step function for each of
    the two loops of the source takes the access at that point.  A core that spins on
    the lock or sleeps in WFE has no step.  The lock is assembly code and acquires
    atomically; the barrier adds nothing to an interleaving.  [sev] sets the event
    register of every core, [wfe] waits for it and clears it. *)
From S2P Require Import Prelude Defs Alloc Granule Host.

(** * Constants (pal_config_def.h, pal.h, val_psci.h, val_host_lfa.h) *)

Definition PLATFORM_CPU_COUNT : Z := 8.
Definition PLATFORM_PHY_MPIDR_CPU0 : Z := 0x00000.
Definition PLATFORM_PHY_MPIDR_CPU1 : Z := 0x00100.
Definition PLATFORM_PHY_MPIDR_CPU2 : Z := 0x00200.
Definition PLATFORM_PHY_MPIDR_CPU3 : Z := 0x00300.
Definition PLATFORM_PHY_MPIDR_CPU4 : Z := 0x10000.
Definition PLATFORM_PHY_MPIDR_CPU5 : Z := 0x10100.
Definition PLATFORM_PHY_MPIDR_CPU6 : Z := 0x10200.
Definition PLATFORM_PHY_MPIDR_CPU7 : Z := 0x10300.

Definition PAL_MPIDR_AFFLVL_MASK : Z := 0xff.
Definition PAL_MPIDR_AFF0_SHIFT : Z := 0.
Definition PAL_MPIDR_AFF1_SHIFT : Z := 8.
Definition PAL_MPIDR_AFF2_SHIFT : Z := 16.
Definition PAL_MPIDR_AFF3_SHIFT : Z := 32.
Definition PAL_MPIDR_AFFINITY_MASK : Z :=
  Z.lor (Z.shiftl PAL_MPIDR_AFFLVL_MASK PAL_MPIDR_AFF3_SHIFT)
    (Z.lor (Z.shiftl PAL_MPIDR_AFFLVL_MASK PAL_MPIDR_AFF2_SHIFT)
      (Z.lor (Z.shiftl PAL_MPIDR_AFFLVL_MASK PAL_MPIDR_AFF1_SHIFT)
        (Z.shiftl PAL_MPIDR_AFFLVL_MASK PAL_MPIDR_AFF0_SHIFT))).
Definition PAL_INVALID_MPID : Z := 0xFFFFFFFF.

Definition PSCI_CPU_SUSPEND_AARCH64 : Z := 0xc4000001.
Definition PSCI_CPU_ON_AARCH64 : Z := 0xc4000003.
Definition PSCI_AFFINITY_INFO_AARCH64 : Z := 0xc4000004.
Definition PSCI_VERSION : Z := 0x84000000.
Definition PSCI_CPU_OFF : Z := 0x84000002.
Definition PSCI_SYSTEM_OFF : Z := 0x84000008.
Definition PSCI_SYSTEM_RESET : Z := 0x84000009.
Definition PSCI_FEATURES : Z := 0x8400000A.
Definition PSCI_E_SUCCESS : Z := 0.
Definition CONTEXT_ID_VALUE : Z := 0x5555.

Definition LFA_VERSION : Z := 0x840002E0.
Definition LFA_FEATURES : Z := 0x840002E1.
Definition LFA_GET_INFO : Z := 0x840002E2.
Definition LFA_GET_INVENTORY : Z := 0x840002E3.
Definition LFA_PRIME : Z := 0x840002E4.

(** * Numbers of cores *)

Definition phy_mpidr_array : list Z :=
  [PLATFORM_PHY_MPIDR_CPU0; PLATFORM_PHY_MPIDR_CPU1; PLATFORM_PHY_MPIDR_CPU2; PLATFORM_PHY_MPIDR_CPU3;
   PLATFORM_PHY_MPIDR_CPU4; PLATFORM_PHY_MPIDR_CPU5; PLATFORM_PHY_MPIDR_CPU6; PLATFORM_PHY_MPIDR_CPU7].

Definition pal_get_cpu_count : Z := PLATFORM_CPU_COUNT.
Definition pal_get_phy_mpidr_list_base : list Z := phy_mpidr_array.
Definition val_get_cpu_count : Z := pal_get_cpu_count.

(** [for (cpu_index = 0; cpu_index < n; cpu_index++) if (test(cpu_index)) return cpu_index;]. *)
Fixpoint cpu_search (n : nat) (cpu_index : Z) (test : Z → bool) : option Z :=
  match n with
  | O => None
  | S n => if test cpu_index then Some cpu_index else cpu_search n (cpu_index + 1) test
  end.

Definition val_get_cpuid (mpidr : Z) : Z :=
  let total_cpu_num := Z.to_nat pal_get_cpu_count in
  let mpidr := Z.land mpidr PAL_MPIDR_AFFINITY_MASK in
  match cpu_search total_cpu_num 0
          (λ i, mpidr =? nth (Z.to_nat i) pal_get_phy_mpidr_list_base PAL_INVALID_MPID) with
  | Some i => i
  | None =>
      match cpu_search total_cpu_num 0 (λ i, mpidr =? i) with
      | Some i => i
      | None => PAL_INVALID_MPID
      end
  end.

Definition val_get_mpidr (cpu_id : Z) : Z :=
  if cpu_id <? pal_get_cpu_count
  then nth (Z.to_nat cpu_id) pal_get_phy_mpidr_list_base PAL_INVALID_MPID
  else PAL_INVALID_MPID.

Definition val_get_vmpidr (cpu_id : Z) : Z :=
  if cpu_id <? pal_get_cpu_count then cpu_id else PAL_INVALID_MPID.

(** * Power control and live firmware activation *)

Section Smc.
Context {W : Type} `{RMM W}.

Definition psci_call (a0 a1 a2 a3 : Z) : M (host W) Z :=
  let* r := val_smc_call a0 a1 a2 a3 0 0 0 0 0 0 0 in ret (x0 r).

Definition val_psci_affinity_info (target_affinity lower_affinity_level : Z) : M (host W) Z :=
  psci_call PSCI_AFFINITY_INFO_AARCH64 target_affinity lower_affinity_level 0.
Definition val_psci_cpu_on (target_cpu entry_point_address context_id : Z) : M (host W) Z :=
  psci_call PSCI_CPU_ON_AARCH64 target_cpu entry_point_address context_id.
Definition val_psci_cpu_off : M (host W) Z := psci_call PSCI_CPU_OFF 0 0 0.
Definition val_psci_cpu_suspend (power_state entry_point_address context_id : Z) : M (host W) Z :=
  psci_call PSCI_CPU_SUSPEND_AARCH64 power_state entry_point_address context_id.
Definition val_psci_features (psci_func_id : Z) : M (host W) Z := psci_call PSCI_FEATURES psci_func_id 0 0.
Definition val_psci_system_off : M (host W) Z := psci_call PSCI_SYSTEM_OFF 0 0 0.
Definition val_psci_system_reset : M (host W) Z := psci_call PSCI_SYSTEM_RESET 0 0 0.
Definition val_psci_version : M (host W) Z := psci_call PSCI_VERSION 0 0 0.

(** [entry] is the address of the assembly entry [acs_host_entry]. *)
Definition val_host_power_on_cpu (entry target_cpuid : Z) : M (host W) Z :=
  let target_cpu := val_get_mpidr target_cpuid in
  let* r := val_psci_cpu_on target_cpu entry CONTEXT_ID_VALUE in
  if r =? PSCI_E_SUCCESS then ret VAL_SUCCESS else ret VAL_ERROR.
Definition val_host_power_off_cpu : M (host W) Z := val_psci_cpu_off ;; ret VAL_ERROR.

Definition lfa_call (fid a1 : Z) : M (host W) val_smc_param_ts := val_smc_call fid a1 0 0 0 0 0 0 0 0 0.

Definition val_host_lfa_version : M (host W) val_smc_param_ts := lfa_call LFA_VERSION 0.
Definition val_host_lfa_features (lfa_fid : Z) : M (host W) val_smc_param_ts := lfa_call LFA_FEATURES lfa_fid.
Definition val_host_lfa_get_info (lfa_info_selector : Z) : M (host W) val_smc_param_ts :=
  lfa_call LFA_GET_INFO lfa_info_selector.
Definition val_host_lfa_get_inventory (fw_seq_id : Z) : M (host W) val_smc_param_ts :=
  lfa_call LFA_GET_INVENTORY fw_seq_id.
Definition val_host_lfa_prime (fw_seq_id : Z) : M (host W) val_smc_param_ts := lfa_call LFA_PRIME fw_seq_id.
End Smc.

(** * Events *)

(** A call a core still has to make. *)
Inductive event_call : Type :=
  | send_event (inc : Z)
  | wait_for_event.

Definition val_send_event : event_call := send_event 1.
Definition val_send_event_to_all : event_call := send_event (u32 val_get_cpu_count).
Definition val_send_event_to (cpus_count : Z) : event_call := send_event (u32 cpus_count).
Definition val_wait_for_event : event_call := wait_for_event.

(** The next access of a core.  [event->cnt += inc] and [--event->cnt] load the
    counter and store it back, with the value loaded in between. *)
Inductive pc : Type :=
  | Idle
  | SendLock (inc : Z) | SendLoad (inc : Z) | SendStore (inc v : Z) | SendUnlock | SendSev
  | WaitRead | WaitWfe | WaitLock | WaitTest | WaitLoad | WaitStore (v : Z)
  | WaitUnlock (event_received : bool).

Record core : Type := mk_core { c_pc : pc; c_todo : list event_call; c_event : bool }.

(** [e_sent] and [e_taken] count what was added to and taken from the counter so far;
    no step reads them. *)
Record mp : Type := mk_mp { e_cnt : Z; e_lock : bool; e_sent : Z; e_taken : Z; e_cores : list core }.

Definition set_pc (p : pc) (c : core) : core := mk_core p (c_todo c) (c_event c).
Definition set_event (b : bool) (c : core) : core := mk_core (c_pc c) (c_todo c) b.

(** Core [i] becomes [c]. *)
Definition put_core (i : nat) (c : core) (s : mp) : mp :=
  mk_mp (e_cnt s) (e_lock s) (e_sent s) (e_taken s) (<[i := c]> (e_cores s)).
Definition set_lock (b : bool) (s : mp) : mp := mk_mp (e_cnt s) b (e_sent s) (e_taken s) (e_cores s).
Definition add_cnt (v inc : Z) (s : mp) : mp :=
  mk_mp (u32 (v + inc)) (e_lock s) (e_sent s + inc) (e_taken s) (e_cores s).
Definition take_cnt (v : Z) (s : mp) : mp :=
  mk_mp (u32 (v - 1)) (e_lock s) (e_sent s) (e_taken s + 1) (e_cores s).

(** [val_init_event], before any core runs; [l] are the calls of each core. *)
Definition val_init_event (l : list (list event_call)) : mp :=
  mk_mp 0 false 0 0 (map (λ todo, mk_core Idle todo false) l).

Definition start_call (i : nat) (c : core) (s : mp) : option mp :=
  match c_todo c with
  | [] => None
  | send_event inc :: l => Some (put_core i (mk_core (SendLock inc) l (c_event c)) s)
  | wait_for_event :: l => Some (put_core i (mk_core WaitRead l (c_event c)) s)
  end.

(** [val_spin_lock], into the point [p]. *)
Definition spin_lock (i : nat) (c : core) (p : pc) (s : mp) : option mp :=
  if e_lock s then None else Some (set_lock true (put_core i (set_pc p c) s)).
Definition spin_unlock (i : nat) (c : core) (p : pc) (s : mp) : option mp :=
  Some (set_lock false (put_core i (set_pc p c) s)).
Definition sev (i : nat) (c : core) (s : mp) : option mp :=
  Some (mk_mp (e_cnt s) (e_lock s) (e_sent s) (e_taken s)
          (map (set_event true) (<[i := set_pc Idle c]> (e_cores s)))).

Definition send_event_common (i : nat) (c : core) (s : mp) : option mp :=
  match c_pc c with
  | SendLock inc => spin_lock i c (SendLoad inc) s
  | SendLoad inc => Some (put_core i (set_pc (SendStore inc (e_cnt s)) c) s)
  | SendStore inc v => Some (add_cnt v inc (put_core i (set_pc SendUnlock c) s))
  | SendUnlock => spin_unlock i c SendSev s
  | SendSev => sev i c s
  | _ => None
  end.

Definition wait_for_event_loop (i : nat) (c : core) (s : mp) : option mp :=
  match c_pc c with
  | WaitRead => Some (put_core i (set_pc (if e_cnt s =? 0 then WaitWfe else WaitLock) c) s)
  | WaitWfe => if c_event c then Some (put_core i (set_pc WaitRead (set_event false c)) s) else None
  | WaitLock => spin_lock i c WaitTest s
  | WaitTest => Some (put_core i (set_pc (if e_cnt s =? 0 then WaitUnlock false else WaitLoad) c) s)
  | WaitLoad => Some (put_core i (set_pc (WaitStore (e_cnt s)) c) s)
  | WaitStore v => Some (take_cnt v (put_core i (set_pc (WaitUnlock true) c) s))
  | WaitUnlock event_received => spin_unlock i c (if event_received then Idle else WaitRead) s
  | _ => None
  end.

(** A step of core [i]; [None] when it cannot move. *)
Definition mp_step (i : nat) (s : mp) : option mp :=
  match e_cores s !! i with
  | None => None
  | Some c =>
      match c_pc c with
      | Idle => start_call i c s
      | SendLock _ | SendLoad _ | SendStore _ _ | SendUnlock | SendSev => send_event_common i c s
      | _ => wait_for_event_loop i c s
      end
  end.

(** A schedule: which core goes next; one that cannot move stays where it is. *)
Fixpoint mp_run (l : list nat) (s : mp) : mp :=
  match l with
  | [] => s
  | i :: l => mp_run l (default s (mp_step i s))
  end.
