(* ===== verification/MpFacts.v ===== *)
(** What holds of the events of Mp.v for every interleaving of the cores: mutual
    exclusion and an exact count of tokens, no lost wake-up, a bound on the number of
    steps, and from these that every call returns when enough events are sent. *)
From S2P Require Import Prelude Defs Alloc Granule Host Mp.

(** * Numbers of cores *)

(** Both ways of numbering a core, physical and of a Realm, lead back to its index. *)
Lemma cpuid_roundtrip (i : Z) :
  (0 <= i < val_get_cpu_count)%Z →
  val_get_cpuid (val_get_mpidr i) = i ∧ val_get_cpuid (val_get_vmpidr i) = i.
Proof.
  intros B. change val_get_cpu_count with 8%Z in B.
  assert (i = 0 ∨ i = 1 ∨ i = 2 ∨ i = 3 ∨ i = 4 ∨ i = 5 ∨ i = 6 ∨ i = 7)%Z as D by lia.
  repeat (destruct D as [-> |D]; [by split; vm_compute|]). subst i. by split; vm_compute.
Qed.

(** * The invariant *)

(** Between the acquisition and the release of the lock. *)
Definition critical (p : pc) : bool :=
  match p with
  | SendLoad _ | SendStore _ _ | SendUnlock | WaitTest | WaitLoad | WaitStore _ | WaitUnlock _ => true
  | _ => false
  end.

Definition inc_ok (inc : Z) : Prop := (0 <= inc < 2 ^ 32)%Z.
Definition call_ok (e : event_call) : Prop := match e with send_event inc => inc_ok inc | _ => True end.

(** What a core has loaded is still what the counter holds. *)
Definition pc_ok (cnt : Z) (p : pc) : Prop :=
  match p with
  | SendLock inc | SendLoad inc => inc_ok inc
  | SendStore inc v => inc_ok inc ∧ v = cnt
  | WaitLoad => cnt ≠ 0%Z
  | WaitStore v => v = cnt ∧ cnt ≠ 0%Z
  | _ => True
  end.
Definition core_ok (cnt : Z) (c : core) : Prop := pc_ok cnt (c_pc c) ∧ Forall call_ok (c_todo c).

(** Core [c] is about to set the event registers. *)
Definition waking (p : pc) : bool := match p with SendUnlock | SendSev => true | _ => false end.

Record mp_safe (s : mp) : Prop := {
  ok_core : ∀ i c, e_cores s !! i = Some c → core_ok (e_cnt s) c;
  ok_held : ∀ i c, e_cores s !! i = Some c → critical (c_pc c) = true → e_lock s = true;
  ok_once : ∀ i j c d, e_cores s !! i = Some c → e_cores s !! j = Some d →
              critical (c_pc c) = true → critical (c_pc d) = true → i = j;
  ok_holder : e_lock s = true → ∃ i c, e_cores s !! i = Some c ∧ critical (c_pc c) = true;
  ok_cnt : e_cnt s = u32 (e_sent s - e_taken s) ∧ (0 <= e_taken s <= e_sent s)%Z }.

(** While the counter is not zero, no core sleeps that nobody is about to wake. *)
Definition wake_ok (s : mp) : Prop :=
  e_cnt s ≠ 0%Z → ∀ i c, e_cores s !! i = Some c → c_pc c = WaitWfe → c_event c = false →
  ∃ j d, e_cores s !! j = Some d ∧ waking (c_pc d) = true.

Definition mp_ok (s : mp) : Prop := mp_safe s ∧ wake_ok s.

Lemma init_ok (l : list (list event_call)) : Forall (Forall call_ok) l → mp_ok (val_init_event l).
Proof.
  intros F. assert (∀ i c, map (λ todo, mk_core Idle todo false) l !! i = Some c →
    c_pc c = Idle ∧ Forall call_ok (c_todo c)) as A.
  { intros i c L. rewrite list_lookup_fmap in L. destruct (l !! i) as [t|] eqn:T; [|done].
    simplify_eq/=. split; [done|]. by eapply Forall_lookup_1. }
  split; [constructor|]; cbn [val_init_event e_cores e_cnt e_lock e_sent e_taken]; try discriminate.
  - intros i c L. destruct (A i c L) as [E F']. split; [by rewrite E|done].
  - intros i c L K. destruct (A i c L) as [E _]. by rewrite E in K.
  - intros i j c d L _ K _. destruct (A i c L) as [E _]. by rewrite E in K.
  - split; [done|lia].
  - by intros NZ.
Qed.

(** ** Preservation *)

Lemma put_lookup (l : list core) (i j : nat) (c d : core) :
  <[i := c]> l !! j = Some d → (i = j ∧ d = c ∧ i < length l)%nat ∨ (i ≠ j ∧ l !! j = Some d).
Proof. intros L. apply list_lookup_insert_Some in L. naive_solver. Qed.

Lemma core_ok_idle (cnt cnt' : Z) (c : core) : critical (c_pc c) = false → core_ok cnt c → core_ok cnt' c.
Proof. unfold core_ok. by destruct (c_pc c). Qed.

(** What a step of core [i] from [c] to [c'] has to respect. *)
Record step_ok (s : mp) (c c' : core) (cnt' : Z) (lock' : bool) (sent' taken' : Z) : Prop := {
  st_core : core_ok cnt' c';
  st_cnt : cnt' = e_cnt s ∨ critical (c_pc c) = true;
  st_lock : lock' = if critical (c_pc c') then true else if critical (c_pc c) then false else e_lock s;
  st_enter : critical (c_pc c') = true → critical (c_pc c) = true ∨ e_lock s = false;
  st_count : cnt' = u32 (sent' - taken') ∧ (0 <= taken' <= sent')%Z }.

Section Step.
Context (s : mp) (i : nat) (c c' : core) (cnt' : Z) (lock' : bool) (sent' taken' : Z).
Context (ok : mp_safe s) (at_i : e_cores s !! i = Some c).
Context (st : step_ok s c c' cnt' lock' sent' taken').
Let s' : mp := mk_mp cnt' lock' sent' taken' (<[i := c']> (e_cores s)).

Lemma other_critical (j : nat) (d : core) :
  i ≠ j → e_cores s !! j = Some d → critical (c_pc d) = true →
  critical (c_pc c) = false ∧ critical (c_pc c') = false ∧ lock' = true.
Proof.
  intros N L K. pose proof (ok_held s ok j d L K) as E.
  destruct (critical (c_pc c)) eqn:C; [by destruct (N (ok_once s ok i j c d at_i L C K))|].
  pose proof (st_enter _ _ _ _ _ _ _ st) as EN. pose proof (st_lock _ _ _ _ _ _ _ st) as LK.
  rewrite C in EN, LK. destruct (critical (c_pc c')); [|naive_solver congruence].
  destruct (EN eq_refl); congruence.
Qed.

Lemma step_safe : mp_safe s'.
Proof.
  constructor; unfold s'; cbn [e_cores e_cnt e_lock e_sent e_taken].
  - intros j d [(-> & -> & _)|(N & L)]%put_lookup; [exact (st_core _ _ _ _ _ _ _ st)|].
    pose proof (ok_core s ok j d L) as K.
    destruct (st_cnt _ _ _ _ _ _ _ st) as [-> |C]; [done|].
    destruct (critical (c_pc d)) eqn:D; [|by eapply core_ok_idle].
    by destruct (N (ok_once s ok i j c d at_i L C D)).
  - intros j d [(-> & -> & _)|(N & L)]%put_lookup K; [|by eapply other_critical].
    pose proof (st_lock _ _ _ _ _ _ _ st) as LK. by rewrite K in LK.
  - intros j k d e [(<- & -> & _)|(N & L)]%put_lookup [(<- & -> & _)|(N' & L')]%put_lookup K K'.
    + done.
    + destruct (other_critical k e N' L' K') as (_ & E & _). congruence.
    + destruct (other_critical j d N L K) as (_ & E & _). congruence.
    + exact (ok_once s ok j k d e L L' K K').
  - intros E. pose proof (st_lock _ _ _ _ _ _ _ st) as LK.
    pose proof (lookup_lt_Some _ _ _ at_i) as LT.
    destruct (critical (c_pc c')) eqn:C'; [exists i, c'; by rewrite list_lookup_insert_eq|].
    destruct (critical (c_pc c)) eqn:C; [congruence|].
    destruct (ok_holder s ok) as (j & d & L & K); [congruence|].
    exists j, d. rewrite list_lookup_insert_ne; [done|]. intros ->. congruence.
  - exact (st_count _ _ _ _ _ _ _ st).
Qed.

Lemma step_wake :
  wake_ok s → (c_pc c' = WaitWfe → cnt' = 0%Z) →
  (cnt' ≠ 0%Z → waking (c_pc c') = true ∨ (e_cnt s ≠ 0%Z ∧ waking (c_pc c) = false)) → wake_ok s'.
Proof.
  intros wk Z0 WK NZ j d. unfold s'. cbn [e_cores e_cnt] in *.
  pose proof (lookup_lt_Some _ _ _ at_i) as LT.
  intros [(<- & -> & _)|(N & L)]%put_lookup P E; [by destruct NZ; apply Z0|].
  destruct (WK NZ) as [W|(NZ' & W)]; [exists i, c'; by rewrite list_lookup_insert_eq|].
  destruct (wk NZ' j d L P E) as (k & e & L' & K). exists k, e.
  rewrite list_lookup_insert_ne; [done|]. intros ->. congruence.
Qed.
End Step.

(** ** Every step preserves the invariant *)

Lemma taken_more (sent taken cnt : Z) :
  cnt = u32 (sent - taken) → (0 <= taken <= sent)%Z → cnt ≠ 0%Z →
  u32 (cnt - 1) = u32 (sent - (taken + 1)) ∧ (0 <= taken + 1 <= sent)%Z.
Proof.
  intros -> B NZ. split.
  - unfold u32. rewrite Zminus_mod_idemp_l. f_equal. lia.
  - destruct (decide (sent = taken)) as [->|]; [|lia]. by rewrite Z.sub_diag in NZ.
Qed.

Lemma sent_more (sent taken cnt inc : Z) :
  cnt = u32 (sent - taken) → (0 <= taken <= sent)%Z → (0 <= inc)%Z →
  u32 (cnt + inc) = u32 (sent + inc - taken) ∧ (0 <= taken <= sent + inc)%Z.
Proof. intros -> B I. split; [|lia]. unfold u32. rewrite Zplus_mod_idemp_l. f_equal. lia. Qed.

Lemma sev_safe (s : mp) :
  mp_safe s → mp_safe (mk_mp (e_cnt s) (e_lock s) (e_sent s) (e_taken s) (map (set_event true) (e_cores s))).
Proof.
  intros ok.
  assert (∀ i c, map (set_event true) (e_cores s) !! i = Some c →
    ∃ d, e_cores s !! i = Some d ∧ c_pc c = c_pc d ∧ c_todo c = c_todo d) as A.
  { intros i c L. rewrite list_lookup_fmap in L. destruct (e_cores s !! i) as [d|]; [|done].
    simplify_eq/=. by exists d. }
  constructor; cbn [e_cores e_cnt e_lock e_sent e_taken].
  - intros i c (d & L & P & T)%A. unfold core_ok. rewrite P, T. by eapply ok_core.
  - intros i c (d & L & P & T)%A. rewrite P. by eapply ok_held.
  - intros i j c e (d & L & P & T)%A (d' & L' & P' & T')%A. rewrite P, P'. by eapply ok_once.
  - intros E. destruct (ok_holder s ok E) as (i & c & L & K).
    exists i, (set_event true c). rewrite list_lookup_fmap, L. done.
  - exact (ok_cnt s ok).
Qed.

Lemma sev_wakes (s : mp) :
  wake_ok (mk_mp (e_cnt s) (e_lock s) (e_sent s) (e_taken s) (map (set_event true) (e_cores s))).
Proof.
  intros _ i c L _ E. cbn [e_cores] in L. rewrite list_lookup_fmap in L.
  destruct (e_cores s !! i); simplify_eq/=.
Qed.

Lemma put_ok (s : mp) (i : nat) (c c' : core) (cnt' : Z) (lock' : bool) (sent' taken' : Z) :
  mp_ok s → e_cores s !! i = Some c → step_ok s c c' cnt' lock' sent' taken' →
  (c_pc c' = WaitWfe → cnt' = 0%Z) →
  (cnt' ≠ 0%Z → waking (c_pc c') = true ∨ (e_cnt s ≠ 0%Z ∧ waking (c_pc c) = false)) →
  mp_ok (mk_mp cnt' lock' sent' taken' (<[i := c']> (e_cores s))).
Proof.
  intros [ok wk] L st Z0 WK. split; [by apply (step_safe s i c)|by apply (step_wake s i c)].
Qed.

Lemma sev_ok (s : mp) (i : nat) (c : core) (s' : mp) :
  mp_ok s → e_cores s !! i = Some c → c_pc c = SendSev → sev i c s = Some s' → mp_ok s'.
Proof.
  intros [ok wk] L P E. unfold sev in E. simplify_eq.
  pose (s1 := mk_mp (e_cnt s) (e_lock s) (e_sent s) (e_taken s) (<[i := set_pc Idle c]> (e_cores s))).
  split; [|exact (sev_wakes s1)]. apply (sev_safe s1), (step_safe s i c (set_pc Idle c)); [done..|].
  destruct (ok_core s ok i c L) as [_ TK].
  constructor; [by split|by left|by rewrite P|done|exact (ok_cnt s ok)].
Qed.

(** The steps of the invariant that only look at the two program points. *)
Ltac point_step ok L :=
  apply (put_ok _ _ _ _ _ _ _ _ ok L); cbn; [constructor; cbn|..];
  solve [ assumption | reflexivity | discriminate | congruence
        | by auto | by (split; [cbn; auto|by auto]) | by naive_solver ].

Lemma mp_step_ok (i : nat) (s s' : mp) : mp_ok s → mp_step i s = Some s' → mp_ok s'.
Proof.
  intros ok S. unfold mp_step in S.
  destruct (e_cores s !! i) as [c|] eqn:L; [|done].
  destruct (ok_cnt s (proj1 ok)) as [CN CB]. destruct (ok_core s (proj1 ok) i c L) as [PK TK].
  pose proof (ok_held s (proj1 ok) i c L) as HL.
  destruct c as [p todo ev].
  destruct p as [|inc|inc|inc v| | | | | | | |v|r];
    [..|by eapply sev_ok| | | | | | | ];
    unfold start_call, send_event_common, wait_for_event_loop, spin_lock, spin_unlock in S;
    cbn [c_pc c_todo c_event set_pc set_event critical pc_ok] in *;
    repeat (case_match; try discriminate); simplify_eq;
    cbn [put_core add_cnt take_cnt set_lock e_cnt e_lock e_sent e_taken e_cores];
    try apply Forall_cons in TK as [EK TK];
    repeat match goal with K : (_ =? _)%Z = true |- _ => apply Z.eqb_eq in K
                         | K : (_ =? _)%Z = false |- _ => apply Z.eqb_neq in K end.
  all: try (point_step ok L).
  - destruct PK as [IN ->]. destruct (sent_more _ _ _ inc CN CB (proj1 IN)) as [SC SB].
    apply (put_ok s i _ _ _ _ _ _ ok L); [constructor|done|by left]; cbn;
      [by split|by right|by apply HL|by left|by split].
  - destruct PK as [-> NZ]. destruct (taken_more _ _ _ CN CB NZ) as [SC SB].
    apply (put_ok s i _ _ _ _ _ _ ok L); [constructor|done|by right]; cbn;
      [by split|by right|by apply HL|by left|by split].
Qed.

Lemma mp_run_ok (l : list nat) (s : mp) : mp_ok s → mp_ok (mp_run l s).
Proof.
  revert s. induction l as [|i l IH]; intros s ok; [done|]. cbn. apply IH.
  destruct (mp_step i s) eqn:E; [by eapply mp_step_ok|done].
Qed.

(** * A bound on the number of steps *)

#[local] Open Scope nat_scope.

Definition total (f : core → nat) (l : list core) : nat := sum_list_with f l.

Lemma total_insert (f : core → nat) (l : list core) (i : nat) (c c' : core) :
  l !! i = Some c → total f (<[i := c']> l) + f c = total f l + f c'.
Proof.
  unfold total. revert i. induction l as [|d l IH]; intros [|i] L; simplify_eq/=; [lia|].
  specialize (IH i L). lia.
Qed.

Lemma total_bound (f : core → nat) (k : nat) (l : list core) :
  (∀ c, f c ≤ k) → total f l ≤ k * length l.
Proof. intros B. unfold total. induction l as [|d l IH]; cbn; [lia|]. pose proof (B d). lia. Qed.

Lemma total_map (f : core → nat) (g : core → core) (l : list core) :
  (∀ c, f (g c) = f c) → total f (map g l) = total f l.
Proof. intros E. unfold total. induction l as [|d l IH]; cbn; [done|]. by rewrite E, IH. Qed.

Lemma total_zero (f : core → nat) (l : list core) : Forall (λ c, f c = 0) l → total f l = 0.
Proof. unfold total. induction 1 as [|c l E A IH]; cbn; [done|]. rewrite E. exact IH. Qed.

(** Stores to the counter and [sev]s a core has still to make. *)
Definition call_effects (e : event_call) : nat := match e with send_event _ => 2 | wait_for_event => 1 end.
Definition pc_effects (p : pc) : nat :=
  match p with
  | SendLock _ | SendLoad _ | SendStore _ _ => 2
  | SendUnlock | SendSev => 1
  | WaitRead | WaitWfe | WaitLock | WaitTest | WaitLoad | WaitStore _ | WaitUnlock false => 1
  | Idle | WaitUnlock true => 0
  end.
Definition effects (c : core) : nat := pc_effects (c_pc c) + sum_list_with call_effects (c_todo c).

(** How far a core is from the next effect while the counter stays as it is. *)
Definition pc_rank (zero : bool) (p : pc) : nat :=
  match p with
  | Idle => 0
  | SendLock _ => 5 | SendLoad _ => 4 | SendStore _ _ => 3 | SendUnlock => 2 | SendSev => 1
  | WaitWfe | WaitStore _ | WaitUnlock true => 1
  | WaitLoad => 2
  | WaitRead => if zero then 2 else 5
  | WaitLock => if zero then 5 else 4
  | WaitTest => if zero then 4 else 3
  | WaitUnlock false => if zero then 3 else 6
  end.
Definition rank (zero : bool) (c : core) : nat := pc_rank zero (c_pc c) + 6 * length (c_todo c).
Definition awake (c : core) : nat := if c_event c then 1 else 0.

Definition mp_measure (s : mp) : nat :=
  total effects (e_cores s) * (5 * length (e_cores s) + 1) + 5 * total awake (e_cores s)
  + total (rank (e_cnt s =? 0)%Z) (e_cores s).

Lemma rank_change (z z' : bool) (l : list core) :
  total (rank z) l ≤ total (rank z') l + 3 * length l.
Proof.
  unfold total. induction l as [|c l IH]; cbn; [lia|].
  assert (rank z c ≤ rank z' c + 3); [|lia].
  unfold rank. destruct (c_pc c) as [| | | | | | | | | | | |[]], z, z'; cbn; lia.
Qed.

Lemma awake_bound (l : list core) : total awake l ≤ length l.
Proof.
  pose proof (total_bound awake 1 l) as B. rewrite Nat.mul_1_l in B. apply B.
  intros c. unfold awake. destruct (c_event c); lia.
Qed.

(** A step that leaves the counter as it is and makes no effect. *)
Lemma put_less (s : mp) (i : nat) (c c' : core) (lock' : bool) :
  e_cores s !! i = Some c → effects c' = effects c →
  5 * awake c' + rank (e_cnt s =? 0)%Z c' < 5 * awake c + rank (e_cnt s =? 0)%Z c →
  mp_measure (mk_mp (e_cnt s) lock' (e_sent s) (e_taken s) (<[i := c']> (e_cores s))) < mp_measure s.
Proof.
  intros L E R. unfold mp_measure. cbn [e_cores e_cnt]. rewrite length_insert.
  pose proof (total_insert effects _ i c c' L). pose proof (total_insert awake _ i c c' L).
  pose proof (total_insert (rank (e_cnt s =? 0)%Z) _ i c c' L).
  assert (total effects (<[i:=c']> (e_cores s)) = total effects (e_cores s)) as -> by lia. lia.
Qed.

(** A store to the counter. *)
Lemma store_less (s : mp) (i : nat) (c c' : core) (cnt' sent' taken' : Z) :
  e_cores s !! i = Some c → effects c = S (effects c') → awake c' = awake c →
  rank (e_cnt s =? 0)%Z c' ≤ rank (e_cnt s =? 0)%Z c →
  mp_measure (mk_mp cnt' (e_lock s) sent' taken' (<[i := c']> (e_cores s))) < mp_measure s.
Proof.
  intros L E A R. unfold mp_measure. cbn [e_cores e_cnt]. rewrite length_insert.
  pose proof (total_insert effects _ i c c' L). pose proof (total_insert awake _ i c c' L).
  pose proof (total_insert (rank (e_cnt s =? 0)%Z) _ i c c' L).
  pose proof (rank_change (cnt' =? 0)%Z (e_cnt s =? 0)%Z (<[i := c']> (e_cores s))) as RC.
  rewrite length_insert in RC.
  assert (total effects (e_cores s) = S (total effects (<[i:=c']> (e_cores s)))) as -> by lia. lia.
Qed.

Lemma sev_less (s s' : mp) (i : nat) (c : core) :
  e_cores s !! i = Some c → c_pc c = SendSev → sev i c s = Some s' → mp_measure s' < mp_measure s.
Proof.
  intros L P S. unfold sev in S. simplify_eq. unfold mp_measure. cbn [e_cores e_cnt].
  rewrite length_map, length_insert.
  rewrite (total_map effects), (total_map (rank _)) by done.
  pose proof (total_insert effects _ i c (set_pc Idle c) L) as E.
  pose proof (total_insert (rank (e_cnt s =? 0)%Z) _ i c (set_pc Idle c) L) as R.
  pose proof (awake_bound (map (set_event true) (<[i:=set_pc Idle c]> (e_cores s)))) as A.
  rewrite length_map, length_insert in A.
  assert (effects c = Datatypes.S (effects (set_pc Idle c))) as E' by (unfold effects; by rewrite P).
  assert (rank (e_cnt s =? 0)%Z (set_pc Idle c) ≤ rank (e_cnt s =? 0)%Z c) as R'
    by (unfold rank; rewrite P; cbn; lia).
  assert (total effects (e_cores s) = Datatypes.S (total effects (<[i:=set_pc Idle c]> (e_cores s)))) as -> by lia.
  lia.
Qed.

Lemma mp_step_less (i : nat) (s s' : mp) : mp_step i s = Some s' → mp_measure s' < mp_measure s.
Proof.
  intros S. unfold mp_step in S.
  destruct (e_cores s !! i) as [c|] eqn:L; [|done].
  destruct c as [p todo ev].
  destruct p as [|inc|inc|inc v| | | | | | | |v|[]];
    [..|by eapply sev_less| | | | | | | |];
    unfold start_call, send_event_common, wait_for_event_loop, spin_lock, spin_unlock in S;
    cbn [c_pc c_todo c_event set_pc set_event] in *;
    repeat (case_match; try discriminate); simplify_eq;
    first [ apply (store_less s i _ _ _ _ _ L); cbn; solve [reflexivity | lia]
          | apply (put_less s i _ _ _ L); cbn;
            repeat match goal with K : (_ =? _)%Z = _ |- _ => rewrite K end; cbn;
            unfold effects, rank, awake; cbn; repeat case_match; lia ].
Qed.

(** * Stopped states *)

Definition stopped (s : mp) : Prop := ∀ i, mp_step i s = None.

Definition finished (c : core) : Prop := c_pc c = Idle ∧ c_todo c = [].
Definition asleep (c : core) : Prop := c_pc c = WaitWfe ∧ c_event c = false.

Lemma critical_moves (s : mp) (i : nat) (c : core) :
  e_cores s !! i = Some c → critical (c_pc c) = true → mp_step i s ≠ None.
Proof. intros L K. unfold mp_step. rewrite L. destruct c as [p t e], p; done. Qed.

Lemma waking_moves (s : mp) (i : nat) (c : core) :
  e_cores s !! i = Some c → waking (c_pc c) = true → mp_step i s ≠ None.
Proof. intros L K. unfold mp_step. rewrite L. destruct c as [p t e], p; done. Qed.

Lemma stopped_core (s : mp) (i : nat) (c : core) :
  mp_ok s → stopped s → e_cores s !! i = Some c → finished c ∨ (asleep c ∧ e_cnt s = 0%Z).
Proof.
  intros [ok wk] ST L.
  assert (e_lock s = false) as F.
  { destruct (e_lock s) eqn:E; [|done]. destruct (ok_holder s ok E) as (j & d & L' & K).
    by destruct (critical_moves s j d L' K). }
  pose proof (ST i) as N. unfold mp_step, start_call, send_event_common, wait_for_event_loop, spin_lock in N.
  rewrite L in N. destruct c as [p [|[]] []], p; cbn in N; rewrite ?F in N; try discriminate.
  all: try (left; by split).
  all: right; split; [done|]; destruct (decide (e_cnt s = 0%Z)) as [|NZ]; [done|].
  all: destruct (wk NZ i _ L eq_refl eq_refl) as (j & d & L' & K); by destruct (waking_moves s j d L' K).
Qed.

(** Steps that a schedule makes. *)
Fixpoint moves (l : list nat) (s : mp) : nat :=
  match l with
  | [] => 0
  | i :: l => match mp_step i s with Some s' => S (moves l s') | None => moves l s end
  end.

Lemma moves_measure (l : list nat) (s : mp) : moves l s + mp_measure (mp_run l s) ≤ mp_measure s.
Proof.
  revert s. induction l as [|i l IH]; intros s; cbn; [lia|].
  destruct (mp_step i s) as [s'|] eqn:E; cbn; [|apply IH].
  pose proof (IH s'). pose proof (mp_step_less i s s' E). lia.
Qed.

Lemma no_moves (l : list nat) (s : mp) : moves l s = 0 → mp_run l s = s ∧ ∀ i, i ∈ l → mp_step i s = None.
Proof.
  induction l as [|i l IH]; cbn; [by split; [|intros i Hi; by apply not_elem_of_nil in Hi]|].
  destruct (mp_step i s) eqn:E; [done|]. intros Z. destruct (IH Z) as [R N]. split; [done|].
  intros j [->|I]%elem_of_cons; auto.
Qed.

Lemma mp_step_length (i : nat) (s s' : mp) : mp_step i s = Some s' → length (e_cores s') = length (e_cores s).
Proof.
  unfold mp_step, start_call, send_event_common, wait_for_event_loop, spin_lock, spin_unlock, sev.
  intros S. repeat (case_match; try discriminate); simplify_eq;
    cbn [e_cores put_core set_lock add_cnt take_cnt]; by rewrite ?length_map, length_insert.
Qed.

Lemma mp_run_length (l : list nat) (s : mp) : length (e_cores (mp_run l s)) = length (e_cores s).
Proof.
  revert s. induction l as [|i l IH]; intros s; cbn; [done|]. rewrite IH.
  destruct (mp_step i s) eqn:E; [by eapply mp_step_length|done].
Qed.

(** Every core in turn, [k] times. *)
Definition rounds (n k : nat) : list nat := concat (repeat (seq 0 n) k).

Lemma stopped_stays (l : list nat) (s : mp) : stopped s → mp_run l s = s.
Proof. intros ST. induction l as [|i l IH]; cbn; [done|]. by rewrite (ST i). Qed.

Lemma mp_run_app (l l' : list nat) (s : mp) : mp_run (l ++ l') s = mp_run l' (mp_run l s).
Proof. revert s. induction l as [|i l IH]; intros s; cbn; [done|]. apply IH. Qed.

Lemma rounds_stop (k : nat) (s : mp) :
  mp_measure s ≤ k → stopped (mp_run (rounds (length (e_cores s)) k) s).
Proof.
  unfold rounds. revert s. induction k as [|k IH]; intros s B; cbn [repeat concat].
  - intros i. destruct (mp_step i s) eqn:E; [|done]. pose proof (mp_step_less _ _ _ E). lia.
  - rewrite mp_run_app. set (l := seq 0 (length (e_cores s))).
    pose proof (moves_measure l s) as M.
    destruct (moves l s) as [|m] eqn:E.
    + destruct (no_moves l s E) as [R N]. rewrite R.
      assert (stopped s) as ST; [|by rewrite stopped_stays].
      intros i. destruct (decide (i < length (e_cores s))) as [I|I]; [apply N, elem_of_seq; lia|].
      unfold mp_step. by rewrite lookup_ge_None_2 by lia.
    + pose proof (IH (mp_run l s)) as I. rewrite mp_run_length in I. apply I. lia.
Qed.

(** * What is sent and what is taken *)

Definition call_inc (e : event_call) : nat := match e with send_event inc => Z.to_nat inc | _ => 0 end.
Definition call_wait (e : event_call) : nat := match e with send_event _ => 0 | wait_for_event => 1 end.
Definition pc_inc (p : pc) : nat :=
  match p with SendLock inc | SendLoad inc | SendStore inc _ => Z.to_nat inc | _ => 0 end.
Definition pc_wait (p : pc) : nat :=
  match p with
  | WaitRead | WaitWfe | WaitLock | WaitTest | WaitLoad | WaitStore _ | WaitUnlock false => 1
  | _ => 0
  end.
Definition to_send (c : core) : nat := pc_inc (c_pc c) + sum_list_with call_inc (c_todo c).
Definition to_take (c : core) : nat := pc_wait (c_pc c) + sum_list_with call_wait (c_todo c).

Definition all_sent (s : mp) : Z := e_sent s + Z.of_nat (total to_send (e_cores s)).
Definition all_taken (s : mp) : Z := e_taken s + Z.of_nat (total to_take (e_cores s)).

Lemma sev_ledger (s s' : mp) (i : nat) (c : core) :
  e_cores s !! i = Some c → c_pc c = SendSev → sev i c s = Some s' →
  all_sent s' = all_sent s ∧ all_taken s' = all_taken s.
Proof.
  intros L P S. unfold sev in S. simplify_eq. unfold all_sent, all_taken. cbn [e_cores e_sent e_taken].
  rewrite (total_map to_send), (total_map to_take) by done.
  pose proof (total_insert to_send _ i c (set_pc Idle c) L).
  pose proof (total_insert to_take _ i c (set_pc Idle c) L).
  assert (to_send c = to_send (set_pc Idle c)) by (unfold to_send; by rewrite P).
  assert (to_take c = to_take (set_pc Idle c)) by (unfold to_take; by rewrite P). lia.
Qed.

Lemma put_ledger (s s' : mp) (i : nat) (c c' : core) (x y : nat) :
  e_cores s !! i = Some c → e_cores s' = <[i := c']> (e_cores s) →
  to_send c = to_send c' + x → to_take c = to_take c' + y →
  e_sent s' = (e_sent s + Z.of_nat x)%Z → e_taken s' = (e_taken s + Z.of_nat y)%Z →
  all_sent s' = all_sent s ∧ all_taken s' = all_taken s.
Proof.
  intros L E X Y SX SY. unfold all_sent, all_taken. rewrite E, SX, SY.
  pose proof (total_insert to_send _ i c c' L). pose proof (total_insert to_take _ i c c' L). lia.
Qed.

Lemma mp_step_ledger (i : nat) (s s' : mp) :
  mp_ok s → mp_step i s = Some s' → all_sent s' = all_sent s ∧ all_taken s' = all_taken s.
Proof.
  intros [ok _] S. unfold mp_step in S.
  destruct (e_cores s !! i) as [c|] eqn:L; [|done].
  destruct (ok_core s ok i c L) as [PK _]. destruct c as [p todo ev].
  destruct p as [|inc|inc|inc v| | | | | | | |v|[]];
    [..|by eapply sev_ledger| | | | | | | |];
    unfold start_call, send_event_common, wait_for_event_loop, spin_lock, spin_unlock in S;
    cbn [c_pc c_todo c_event set_pc set_event pc_ok] in *;
    repeat (case_match; try discriminate); simplify_eq;
    first [ eapply (put_ledger s _ i _ _ 0 0 L); [reflexivity|..]; cbn; lia
          | eapply (put_ledger s _ i _ _ 0 1 L); [reflexivity|..]; cbn; lia
          | destruct PK as [[PK _] _]; eapply (put_ledger s _ i _ _ (Z.to_nat inc) 0 L); [reflexivity|..]; cbn; lia ].
Qed.

Lemma mp_run_ledger (l : list nat) (s : mp) :
  mp_ok s → all_sent (mp_run l s) = all_sent s ∧ all_taken (mp_run l s) = all_taken s.
Proof.
  revert s. induction l as [|i l IH]; intros s ok; [done|]. cbn.
  destruct (mp_step i s) as [s'|] eqn:E; cbn; [|by apply IH].
  destruct (mp_step_ledger i s s' ok E) as [<- <-]. apply IH. by eapply mp_step_ok.
Qed.

(** ** Cores that send before they wait *)

Definition is_wait (e : event_call) : bool := match e with wait_for_event => true | _ => false end.
Fixpoint sends_first (l : list event_call) : bool :=
  match l with
  | [] => true
  | send_event _ :: l => sends_first l
  | wait_for_event :: l => forallb is_wait l
  end.
Definition core_sends_first (c : core) : bool :=
  match c_pc c with
  | Idle | SendLock _ | SendLoad _ | SendStore _ _ | SendUnlock | SendSev => sends_first (c_todo c)
  | _ => forallb is_wait (c_todo c)
  end.

Lemma waits_send_first (l : list event_call) : forallb is_wait l = true → sends_first l = true.
Proof. destruct l as [|[]]; cbn; [done|discriminate|done]. Qed.

Lemma waits_send_nothing (l : list event_call) : forallb is_wait l = true → sum_list_with call_inc l = 0.
Proof. induction l as [|[] l IH]; cbn; [done|discriminate|exact IH]. Qed.

Lemma mp_step_sends_first (i : nat) (s s' : mp) :
  Forall (λ c, core_sends_first c = true) (e_cores s) → mp_step i s = Some s' →
  Forall (λ c, core_sends_first c = true) (e_cores s').
Proof.
  intros F S. unfold mp_step in S.
  destruct (e_cores s !! i) as [c|] eqn:L; [|done].
  pose proof (Forall_lookup_1 _ _ _ _ F L) as FC. destruct c as [p todo ev].
  unfold start_call, send_event_common, wait_for_event_loop, spin_lock, spin_unlock, sev in S.
  destruct p as [|inc|inc|inc v| | | | | | | |v|r]; cbn [c_pc c_todo c_event set_pc set_event] in *;
    repeat (case_match; try discriminate); simplify_eq; cbn [e_cores put_core set_lock add_cnt take_cnt].
  all: try (apply Forall_insert; [done|by cbn in *; auto using waits_send_first]).
  apply Forall_fmap, Forall_insert; [|done]. eapply Forall_impl; [exact F|]. by intros [].
Qed.

Lemma mp_run_sends_first (l : list nat) (s : mp) :
  Forall (λ c, core_sends_first c = true) (e_cores s) →
  Forall (λ c, core_sends_first c = true) (e_cores (mp_run l s)).
Proof.
  revert s. induction l as [|i l IH]; intros s F; cbn; [done|]. apply IH.
  destruct (mp_step i s) eqn:E; [by eapply mp_step_sends_first|done].
Qed.

Lemma init_core (l : list (list event_call)) :
  e_cores (val_init_event l) = map (λ todo, mk_core Idle todo false) l.
Proof. done. Qed.

(** Tokens that the calls [l] add, and those they take. *)
Definition tokens (l : list (list event_call)) : nat := sum_list_with (sum_list_with call_inc) l.
Definition waits (l : list (list event_call)) : nat := sum_list_with (sum_list_with call_wait) l.

Lemma init_total (f : core → nat) (g : list event_call → nat) (l : list (list event_call)) :
  (∀ todo, f (mk_core Idle todo false) = g todo) →
  total f (e_cores (val_init_event l)) = sum_list_with g l.
Proof. intros E. unfold total. rewrite init_core. induction l as [|t l IH]; cbn; [done|]. by rewrite E, IH. Qed.

Lemma init_ledger (l : list (list event_call)) :
  all_sent (val_init_event l) = Z.of_nat (tokens l) ∧ all_taken (val_init_event l) = Z.of_nat (waits l).
Proof.
  unfold all_sent, all_taken, tokens, waits.
  rewrite (init_total to_send (sum_list_with call_inc)), (init_total to_take (sum_list_with call_wait)); done.
Qed.

(** A core that has stopped asleep has something left to take. *)
Lemma asleep_takes (s : mp) (i : nat) (c : core) :
  e_cores s !! i = Some c → asleep c → 1 ≤ total to_take (e_cores s).
Proof.
  intros L [P _]. pose proof (total_insert to_take _ i c (mk_core Idle [] false) L) as E.
  assert (1 ≤ to_take c) by (unfold to_take; rewrite P; cbn; lia).
  change (to_take (mk_core Idle [] false)) with 0 in E. lia.
Qed.

Lemma sends_done (s : mp) :
  mp_ok s → stopped s → Forall (λ c, core_sends_first c = true) (e_cores s) →
  total to_send (e_cores s) = 0.
Proof.
  intros ok ST F.
  assert (Forall (λ c, to_send c = 0) (e_cores s)) as A.
  { apply Forall_lookup. intros i c L.
    destruct (stopped_core s i c ok ST L) as [[P T]|[[P _] _]]; unfold to_send; rewrite P;
      [by rewrite T|cbn].
    pose proof (Forall_lookup_1 _ _ _ _ F L) as W. cbn in W. unfold core_sends_first in W. rewrite P in W.
    by apply waits_send_nothing. }
  by apply total_zero.
Qed.

Lemma enough_finishes (s : mp) :
  mp_ok s → stopped s → Forall (λ c, core_sends_first c = true) (e_cores s) →
  (all_taken s <= all_sent s < 2 ^ 32)%Z → Forall finished (e_cores s).
Proof.
  intros ok ST F B. apply Forall_lookup. intros i c L.
  destruct (stopped_core s i c ok ST L) as [|[A Z0]]; [done|exfalso].
  pose proof (sends_done s ok ST F) as SD. pose proof (asleep_takes s i c L A) as TK.
  unfold all_sent, all_taken in B. rewrite SD in B.
  destruct (ok_cnt s (proj1 ok)) as [CN CB]. rewrite Z0 in CN. unfold u32 in CN.
  rewrite Z.mod_small in CN; lia.
Qed.

Lemma sum_constant {A} (l : list A) : sum_list_with (λ _, 0) l = 0.
Proof. induction l as [|x l IH]; cbn [sum_list_with]; [done|]. exact IH. Qed.

Lemma sum_scaled {A} (f : A → nat) (k : nat) (l : list A) :
  sum_list_with (λ x, k * f x) l = k * sum_list_with f l.
Proof. induction l as [|x l IH]; cbn [sum_list_with]; lia. Qed.

(** * Properties *)

(** C9. Whatever the interleaving, two cores are never between the lock and the unlock of
    [send_event_common] or [val_wait_for_event] at the same time, the counter holds
    (modulo 2^32) what was sent less what was taken, no wait takes a token that was
    not sent, and sent plus still to send is exactly what the calls add. *)
Theorem events_exclusive_and_counted (l : list (list event_call)) (schedule : list nat) :
  Forall (Forall call_ok) l →
  let s := mp_run schedule (val_init_event l) in
  (∀ i j c d, e_cores s !! i = Some c → e_cores s !! j = Some d →
     critical (c_pc c) = true → critical (c_pc d) = true → i = j) ∧
  e_cnt s = u32 (e_sent s - e_taken s) ∧ (0 <= e_taken s <= e_sent s)%Z ∧
  all_sent s = Z.of_nat (tokens l) ∧ all_taken s = Z.of_nat (waits l).
Proof.
  intros F s. pose proof (init_ok l F) as ok0. destruct (mp_run_ok schedule _ ok0) as [ok _].
  destruct (mp_run_ledger schedule _ ok0) as [SE TE]. destruct (init_ledger l) as [SI TI].
  destruct (ok_cnt _ ok) as [CN CB].
  split; [exact (ok_once _ ok)|]. split; [done|]. split; [done|]. 
  split; [exact (eq_trans SE SI)|exact (eq_trans TE TI)].
Qed.

(** C10. No wake-up is lost: when no core can move any more, each core has either made all
    its calls or sleeps in WFE with the counter at zero; so a core sleeps for ever
    only when every token that was sent (fewer than 2^32) has been taken. *)
Theorem no_event_is_lost (l : list (list event_call)) (schedule : list nat) (i : nat) (c : core) :
  Forall (Forall call_ok) l →
  let s := mp_run schedule (val_init_event l) in
  stopped s → e_cores s !! i = Some c →
  finished c ∨ (asleep c ∧ e_cnt s = 0%Z ∧ ((e_sent s < 2 ^ 32)%Z → e_taken s = e_sent s)).
Proof.
  intros F s ST L. pose proof (mp_run_ok schedule _ (init_ok l F)) as ok.
  destruct (stopped_core s i c ok ST L) as [|[A Z0]]; [by left|right].
  split; [done|]. split; [done|]. intros B. destruct (ok_cnt _ (proj1 ok)) as [CN CB]. fold s in CN, CB.
  rewrite Z0 in CN. unfold u32 in CN. rewrite Z.mod_small in CN; lia.
Qed.

(** Every interleaving comes to an end in the steps of this model, in which the lock is
    taken at once: [n] cores whose calls make [e] stores and SEVs between them take at most
    [e * (5 * n + 1) + 6] per call steps, waits that go back to sleep included.  The turns
    of the loop inside pal_spin_lock are not counted. *)
Theorem events_take_bounded_steps (l : list (list event_call)) (schedule : list nat) :
  moves schedule (val_init_event l) ≤
  sum_list_with (sum_list_with call_effects) l * (5 * length l + 1) + 6 * sum_list_with length l.
Proof.
  pose proof (moves_measure schedule (val_init_event l)) as M. unfold mp_measure at 2 in M.
  rewrite (init_total effects (sum_list_with call_effects)), (init_total awake (λ _, 0)) in M by done.
  rewrite (init_total (rank _) (λ t, 6 * length t)) in M by done.
  assert (length (e_cores (val_init_event l)) = length l) as E by (rewrite init_core; apply length_map).
  rewrite E in M.
  rewrite sum_constant, sum_scaled in M. lia.
Qed.

(** C8. When every core makes its sends before its waits, and at least as many tokens (fewer
    than 2^32) are sent as there are waits, giving each core its turn often enough
    makes every call return. *)
Theorem every_waiter_is_released (l : list (list event_call)) (k : nat) :
  Forall (Forall call_ok) l → Forall (λ todo, sends_first todo = true) l →
  waits l ≤ tokens l → (Z.of_nat (tokens l) < 2 ^ 32)%Z →
  mp_measure (val_init_event l) ≤ k →
  Forall finished (e_cores (mp_run (rounds (length l) k) (val_init_event l))).
Proof.
  intros F SF W B K. pose proof (init_ok l F) as ok.
  assert (length (e_cores (val_init_event l)) = length l) as E by (rewrite init_core; apply length_map).
  pose proof (rounds_stop k _ K) as ST. rewrite E in ST.
  apply enough_finishes; [by apply mp_run_ok|done| |].
  - apply mp_run_sends_first. rewrite init_core. apply Forall_fmap. exact SF.
  - destruct (mp_run_ledger (rounds (length l) k) _ ok) as [-> ->].
    destruct (init_ledger l) as [-> ->]. lia.
Qed.

(** * Witnesses *)

(** One core releases two others. *)
Definition two_waiters : list (list event_call) :=
  [[val_send_event_to 2]; [val_wait_for_event]; [val_wait_for_event]].

Lemma two_waiters_ok : Forall (Forall call_ok) two_waiters.
Proof. repeat constructor; cbn; vm_compute; congruence. Qed.

Lemma events_exclusive_and_counted_witness :
  e_cnt (mp_run [1; 1; 0; 0; 0; 0; 0; 0; 2; 2; 2; 2; 2]%nat (val_init_event two_waiters)) =
  u32 (e_sent (mp_run [1; 1; 0; 0; 0; 0; 0; 0; 2; 2; 2; 2; 2]%nat (val_init_event two_waiters)) -
       e_taken (mp_run [1; 1; 0; 0; 0; 0; 0; 0; 2; 2; 2; 2; 2]%nat (val_init_event two_waiters))).
Proof.
  exact (proj1 (proj2 (events_exclusive_and_counted two_waiters
    [1; 1; 0; 0; 0; 0; 0; 0; 2; 2; 2; 2; 2]%nat two_waiters_ok))).
Defined.

(** A wait nobody sends for. *)
Lemma no_event_is_lost_witness :
  let s := mp_run [0; 0]%nat (val_init_event [[val_wait_for_event]]) in
  finished (mk_core WaitWfe [] false) ∨
  (asleep (mk_core WaitWfe [] false) ∧ e_cnt s = 0%Z ∧ ((e_sent s < 2 ^ 32)%Z → e_taken s = e_sent s)).
Proof.
  apply (no_event_is_lost [[val_wait_for_event]] [0; 0]%nat 0); [repeat constructor| |reflexivity].
  intros [|[|i]]; reflexivity.
Defined.

Lemma every_waiter_is_released_witness :
  Forall finished (e_cores (mp_run (rounds 3 200) (val_init_event two_waiters))).
Proof.
  apply (every_waiter_is_released two_waiters 200 two_waiters_ok).
  - repeat constructor.
  - vm_compute. lia.
  - vm_compute. reflexivity.
  - vm_compute. lia.
Defined.
