(* ===== verification/Shared.v ===== *)
(** The shared region by which host, Realm and secure image talk to each other
    (val_framework.c): the number and the name of the current test, the message of
    a Realm, and the tag of the world that printed last; with the two readers on the
    other sides (val_secure_framework.c, val_host_framework.c).

    Memory is the byte map of Libc.v and [base] is what val_get_shared_region_base of
    the submodule returns.  Test names are C strings at their address in the image. *)
From S2P Require Import Prelude Defs Alloc Granule Host Libc RecExit Rhi Doe.
Import Libc.Mem.

(** * Layout (val.h) *)

Definition VAL_CURR_TEST_NUM : Z := 1.
Definition VAL_PRINTF_MSG : Z := 2.
Definition VAL_PRINTF_VERBOSITY : Z := 12.
Definition VAL_CURR_TEST_NAME : Z := 15.
Definition VAL_PRINT_OFFSET : Z := 512 + 6 * 8192.
Definition TEST_NUM_OFFSET : Z := OFFSET VAL_CURR_TEST_NUM.
Definition REALM_PRINTF_MSG_OFFSET : Z := OFFSET VAL_PRINTF_MSG.
Definition REALM_PRINTF_VERBOSITY_OFFSET : Z := OFFSET VAL_PRINTF_VERBOSITY.
Definition TEST_NAME_OFFSET : Z := OFFSET VAL_CURR_TEST_NAME.
Definition PRINT_OFFSET : Z := OFFSET VAL_PRINT_OFFSET.
Definition MAX_BUF_SIZE : Z := 80.
Definition SEC_STATE_NS : Z := 1.
Definition SEC_STATE_REALM : Z := 2.
Definition SEC_STATE_SECURE : Z := 3.
Definition PSI_PRINT_MSG : Z := 0x88FFFFFF.

(** [n] bytes from [p]. *)
Fixpoint load_bytes (n : nat) (p : Z) : M mem (list Z) :=
  match n with
  | O => ret []
  | S n => let* b := load8 p in let* l := load_bytes n (p + 1) in ret (b :: l)
  end.

(** The characters from [p] up to the terminator. *)
Fixpoint load_string (fuel : nat) (p : Z) : M mem (list Z) :=
  match fuel with
  | O => out_of_fuel
  | S fuel =>
      let* c := load8 p in
      if c =? 0 then ret [] else let* l := load_string fuel (p + 1) in ret (c :: l)
  end.

Definition store64 (p v : Z) : M mem unit :=
  write_bytes p (word_bytes v ++ word_bytes (Z.shiftr v 32)).

(** A function on a buffer of [n] bytes, applied to the memory at [p]. *)
Definition on_buffer {A : Type} (n : nat) (p : Z) (f : list Z → outcome (list Z) A) : M mem A :=
  let* b := load_bytes n p in
  match f b with
  | Ok a b' => write_bytes p b' ;; ret a
  | Fault e => fail e
  | NoFuel => out_of_fuel
  end.

Section Shared.
Variable base : Z.

(** * The current test *)

Definition val_get_curr_test_num : M mem Z := load32 (base + TEST_NUM_OFFSET).
Definition val_set_curr_test_num (test_num : Z) : M mem unit :=
  store32 (base + TEST_NUM_OFFSET) (u32 test_num).

(** [while (s[length] != '\0') ++length;]. *)
Definition name_length (s : Z) : M mem Z := λ m, strlen_loop (S (size m)) s 0 m.

Definition val_is_current_test (testname : Z) : M mem Z :=
  let shared_test_name := base + TEST_NAME_OFFSET in
  let* length := name_length shared_test_name in
  let* d := val_memcmp testname shared_test_name length in
  if truthy d then ret VAL_ERROR else ret VAL_SUCCESS.

Definition val_set_curr_test_name (testname : Z) : M mem unit :=
  let* length := name_length testname in
  val_memcpy (base + TEST_NAME_OFFSET) testname (length + 1) ;; ret tt.

(** The secure side; [names] are the addresses of [test_list[i].test_name]. *)
Fixpoint find_test_from (names : list Z) (index : Z) : M mem Z :=
  match names with
  | [] => fail Panic
  | name :: names =>
      let* r := val_is_current_test name in
      if r =? 0 then ret index else find_test_from names (index + 1)
  end.
Definition val_secure_find_current_test_index (names : list Z) : M mem Z :=
  find_test_from (List.tl names) 1.

(** * Messages of a Realm *)

Inductive print_call : Type :=
  | PrintHostCall (imm : Z)
  | PrintHvc (fid : Z).

Definition val_realm_printf (realm_in_p0 : bool) (verbosity : Z) (fmt : list Z) (args : list Fmt.va_slot) :
    M mem print_call :=
  let log_buffer := base + REALM_PRINTF_MSG_OFFSET in
  store32 (base + REALM_PRINTF_VERBOSITY_OFFSET) (u32 verbosity) ;;
  on_buffer (Z.to_nat MAX_BUF_SIZE) log_buffer (λ b, Fmt.snprintf b MAX_BUF_SIZE fmt args) ;;
  if realm_in_p0 then ret (PrintHostCall VAL_REALM_PRINT_MSG) else ret (PrintHvc PSI_PRINT_MSG).

(** What the host hands to [val_printf] of the submodule: verbosity and format. *)
Definition val_host_realm_printf_msg_service : M mem (Z * list Z) :=
  let* verbosity := load32 (base + REALM_PRINTF_VERBOSITY_OFFSET) in
  λ m, (let* msg := load_string (S (size m)) (base + REALM_PRINTF_MSG_OFFSET) in ret (verbosity, msg)) m.

(** * The tag of the printing world *)

(** The lines printed.  [LOG] of verbosity [ALWAYS], an enumerator of the submodule, is
    never filtered; it calls the function again before it prints, from a Realm through
    the shared region. *)
Fixpoint val_print_secuity_state (fuel : nat) (realm_in_p0 : bool)
    (ALWAYS security_state skip_for_val_logs : Z) : M mem (list (list Z)) :=
  match fuel with
  | O => out_of_fuel
  | S fuel =>
      let log s :=
        let* l := val_print_secuity_state fuel realm_in_p0 ALWAYS security_state skip_for_val_logs in
        (if security_state =? SEC_STATE_REALM
         then val_realm_printf realm_in_p0 ALWAYS (chars s) [] ;; ret tt else ret tt) ;;
        ret (l ++ [chars s]) in
      let tag m :=
        let* prev_log_state := Validate.load64 (base + PRINT_OFFSET) in
        if prev_log_state =? security_state then ret []
        else store64 (base + PRINT_OFFSET) security_state ;; m in
      if security_state =? SEC_STATE_NS then
        tag (if skip_for_val_logs =? 1 then log "Host:"%string else ret [])
      else if security_state =? SEC_STATE_REALM then tag (log "Realm:"%string)
      else if security_state =? SEC_STATE_SECURE then tag (log "Secure:"%string)
      else log "Unknown:"%string
  end.
End Shared.
