(* ===== verification/SharedFacts.v ===== *)
(** What holds of the shared region of Shared.v: the test the host announces is the one
    the Realm and the secure image look up, the message of a Realm reaches the host
    within its slot, and the tag of the printing world. *)
From S2P Require Import Prelude Defs Alloc Granule Host Libc RecExit ExitFacts Rhi RhiFacts Pcie Doe DoeFacts Shared.
Import Libc.Mem Libc.MemFacts.

(** * Strings in memory *)

Lemma cstr_cons (m : mem) p c s :
  cstr_at m p (c :: s) → m !! p = Some c ∧ c ≠ 0 ∧ cstr_at m (p + 1) s.
Proof.
  intros (NZ & C & Z). inversion NZ as [|x l N1 N2]; subst. split; [|split; [done|split; [done|split]]].
  - rewrite <- (Z.add_0_r p). by apply (C 0%nat).
  - intros i d D. replace (p + 1 + Z.of_nat i) with (p + Z.of_nat (S i)) by lia. by apply C.
  - cbn [length] in Z. by replace (p + 1 + Z.of_nat (length s)) with (p + Z.of_nat (S (length s))) by lia.
Qed.

Lemma cstr_nil (m : mem) p : cstr_at m p [] → m !! p = Some 0.
Proof. intros (_ & _ & Z). cbn in Z. by rewrite Z.add_0_r in Z. Qed.

Lemma cstr_agree (m m' : mem) p s :
  (∀ i, 0 ≤ i ≤ Z.of_nat (length s) → m' !! (p + i) = m !! (p + i)) → cstr_at m p s → cstr_at m' p s.
Proof.
  intros A (NZ & C & Z). split; [done|]. split.
  - intros i c L. pose proof (lookup_lt_Some _ _ _ L). rewrite A by lia. by apply C.
  - by rewrite A by lia.
Qed.

Lemma load_string_run (m : mem) s p fuel :
  cstr_at m p s → (length s < fuel)%nat → load_string fuel p m = Ok s m.
Proof.
  revert p fuel. induction s as [|c s IH]; intros p [|fuel] C F; cbn [length] in F; [lia| |lia|]; cbn [load_string].
  - by rewrite (bind_step _ _ _ _ _ (load8_eq _ _ _ (cstr_nil _ _ C))).
  - apply cstr_cons in C as (L & NZ & C). rewrite (bind_step _ _ _ _ _ (load8_eq _ _ _ L)).
    destruct (Z.eqb_spec c 0); [done|]. rewrite (bind_step _ _ _ _ _ (IH (p + 1) fuel C ltac:(lia))). done.
Qed.

Lemma name_length_run (m : mem) p s : cstr_at m p s → name_length p m = Ok (Z.of_nat (length s)) m.
Proof. exact (val_strlen_correct m p s). Qed.

(** The comparison stops at the end of the shorter string: it never reads past it. *)
Lemma memcmp_prefix (m : mem) s t p q :
  cstr_at m p t → cstr_at m q s →
  ∃ r, memcmp_loop (length s) p q m = Ok r m ∧ (r = 0 ↔ s `prefix_of` t).
Proof.
  revert t p q. induction s as [|c s IH]; intros t p q T S; cbn [length memcmp_loop].
  { exists 0. split; [done|]. split; [intros _; apply prefix_nil|done]. }
  apply cstr_cons in S as (LS & NZ & S). destruct t as [|d t].
  - rewrite (bind_step _ _ _ _ _ (load8_eq _ _ _ (cstr_nil _ _ T))),
      (bind_step _ _ _ _ _ (load8_eq _ _ _ LS)). unfold truthy.
    destruct (Z.eqb_spec (0 - c) 0); [lia|]. cbn [negb]. exists (0 - c). split; [done|].
    split; [lia|]. intros P%prefix_nil_inv. done.
  - apply cstr_cons in T as (LT & NZ' & T).
    rewrite (bind_step _ _ _ _ _ (load8_eq _ _ _ LT)), (bind_step _ _ _ _ _ (load8_eq _ _ _ LS)).
    unfold truthy. destruct (Z.eqb_spec (d - c) 0) as [E|E]; cbn [negb].
    + assert (d = c) as -> by lia. destruct (IH t (p + 1) (q + 1) T S) as (r & R & P). exists r. split; [done|].
      rewrite P. split; [apply prefix_cons|apply prefix_cons_inv_2].
    + exists (d - c). split; [done|]. split; [done|]. intros P%prefix_cons_inv_1. lia.
Qed.

(** * The current test *)

Section Current.
Context (base : Z).

Lemma is_current_run (m : mem) testname t s :
  cstr_at m testname t → cstr_at m (base + TEST_NAME_OFFSET) s →
  ∃ r, val_is_current_test base testname m = Ok r m ∧ (r = 0 ↔ s `prefix_of` t).
Proof.
  intros T S. unfold val_is_current_test. rewrite (bind_step _ _ _ _ _ (name_length_run _ _ _ S)).
  destruct (memcmp_prefix m s t _ _ T S) as (r & R & P).
  assert (val_memcmp testname (base + TEST_NAME_OFFSET) (Z.of_nat (length s)) m = Ok r m) as E.
  { unfold val_memcmp, pal_memcmp, memcmp. by rewrite Nat2Z.id. }
  rewrite (bind_step _ _ _ _ _ E). unfold truthy. destruct (Z.eqb_spec r 0) as [->|N]; cbn.
  - exists VAL_SUCCESS. split; [done|]. by rewrite <- P.
  - exists VAL_ERROR. split; [done|]. rewrite <- P. split; [done|]. by intros.
Qed.

(** The search stops at the first name that begins with the announced one. *)
Lemma find_from_run (m : mem) s names strs index :
  cstr_at m (base + TEST_NAME_OFFSET) s → Forall2 (cstr_at m) names strs →
  (∃ k t, strs !! k = Some t ∧ s `prefix_of` t) →
  ∃ j t, find_test_from base names index m = Ok (index + Z.of_nat j) m ∧
    strs !! j = Some t ∧ s `prefix_of` t ∧
    ∀ k u, (k < j)%nat → strs !! k = Some u → ¬ s `prefix_of` u.
Proof.
  intros S F. revert index. induction F as [|name t names strs T F IH]; intros index (k & u & L & P); [done|].
  cbn [find_test_from]. destruct (is_current_run m name t s T S) as (r & R & E).
  rewrite (bind_step _ _ _ _ _ R). destruct (Z.eqb_spec r 0) as [Z0|NZ].
  - exists 0%nat, t. rewrite Z.add_0_r. split; [done|]. split; [done|]. split; [by apply E|]. intros; lia.
  - destruct k as [|k]; cbn in L; [simplify_eq; tauto|].
    destruct (IH (index + 1)) as (j & v & J & L' & P' & N); [by exists k, u|].
    exists (Datatypes.S j), v. rewrite J. split; [f_equal; lia|]. split; [done|]. split; [done|].
    intros [|k'] w K W; cbn in W; [simplify_eq; tauto|]. apply (N k' w); [lia|done].
Qed.

Lemma copied_cstr (m m' : mem) d p s :
  copied m m' d p (Z.of_nat (length s) + 1) → cstr_at m p s → cstr_at m' d s.
Proof.
  intros K (NZ & C & Z). split; [done|]. split.
  - intros i c L. pose proof (lookup_lt_Some _ _ _ L). rewrite K, bool_decide_true by lia.
    replace (p + (d + Z.of_nat i - d)) with (p + Z.of_nat i) by lia. by apply C.
  - rewrite K, bool_decide_true by lia.
    by replace (p + (d + Z.of_nat (length s) - d)) with (p + Z.of_nat (length s)) by lia.
Qed.

(** [n] bytes at [p] are no part of the slots of the test in the shared region. *)
Definition apart (p n room : Z) : Prop :=
  p + n ≤ base + TEST_NUM_OFFSET ∨ base + TEST_NAME_OFFSET + room ≤ p.

Lemma set_name_run (m : mem) h s :
  cstr_at m h s → mapped m (base + TEST_NAME_OFFSET) (Z.of_nat (length s) + 1) →
  apart h (Z.of_nat (length s) + 1) (Z.of_nat (length s) + 1) →
  ∃ m', val_set_curr_test_name base h m = Ok tt m' ∧ cstr_at m' (base + TEST_NAME_OFFSET) s ∧
    only (base + TEST_NAME_OFFSET) (Z.of_nat (length s) + 1) m m' ∧ ∀ a, is_Some (m !! a) → is_Some (m' !! a).
Proof.
  intros C R A. unfold val_set_curr_test_name. rewrite (bind_step _ _ _ _ _ (name_length_run _ _ _ C)).
  pose proof (cstr_at_mapped _ _ _ C) as Mh.
  assert (Z.of_nat (Datatypes.S (length s)) = Z.of_nat (length s) + 1) as EL by lia.
  assert (base + TEST_NAME_OFFSET ≤ h ∨ h + Z.of_nat (Datatypes.S (length s)) ≤ base + TEST_NAME_OFFSET) as D.
  { rewrite EL. destruct A as [A|A]; [right|left]; [|lia].
    assert (TEST_NUM_OFFSET ≤ TEST_NAME_OFFSET) by (vm_compute; discriminate). lia. }
  rewrite <- EL in R.
  pose proof (memcpy_loop_copied (Datatypes.S (length s)) m (base + TEST_NAME_OFFSET) h Mh R D) as K.
  apply run_to_Ok in K as ([] & m' & E & K). rewrite EL in K. exists m'. split; [|split; [|split]].
  - unfold val_memcpy, pal_memcpy, memcpy, bind. rewrite <- EL, Nat2Z.id, E. done.
  - by apply (copied_cstr m m' _ h).
  - intros a Ha. rewrite K, bool_decide_false by lia. done.
  - intros a Ha. rewrite K. case_bool_decide; [|done]. apply Mh. lia.
Qed.
End Current.

Lemma load32_run (m : mem) p : mapped m p 4 → load32 p m = Ok (le_val m 4 p) m.
Proof. apply (load_le_val 4). Qed.

Lemma only_mapped (m m' : mem) p n q k :
  only p n m m' → (q + k ≤ p ∨ p + n ≤ q) → mapped m q k → mapped m' q k.
Proof. intros O D K i Hi. rewrite O by lia. by apply K. Qed.

Lemma only_cstr (m m' : mem) p n q s :
  only p n m m' → (q + (Z.of_nat (length s) + 1) ≤ p ∨ p + n ≤ q) → cstr_at m q s → cstr_at m' q s.
Proof. intros O D. apply cstr_agree. intros i Hi. apply O. lia. Qed.

Lemma only_le_val (m m' : mem) p n q k :
  only p n m m' → (q + Z.of_nat k ≤ p ∨ p + n ≤ q) → le_val m' k q = le_val m k q.
Proof. intros O D. apply le_val_agree. intros i Hi. apply O. lia. Qed.

Lemma announce_run (base : Z) (m : mem) num h s :
  0 ≤ num < 2 ^ 32 →
  mapped m (base + TEST_NUM_OFFSET) 4 → mapped m (base + TEST_NAME_OFFSET) (Z.of_nat (length s) + 1) →
  cstr_at m h s → apart base h (Z.of_nat (length s) + 1) (Z.of_nat (length s) + 1) →
  ∃ m', (val_set_curr_test_num base num ;; val_set_curr_test_name base h) m = Ok tt m' ∧
    val_get_curr_test_num base m' = Ok num m' ∧ cstr_at m' (base + TEST_NAME_OFFSET) s ∧
    (∀ p t, cstr_at m p t → apart base p (Z.of_nat (length t) + 1) (Z.of_nat (length s) + 1) → cstr_at m' p t) ∧
    ∀ a, is_Some (m !! a) → is_Some (m' !! a).
Proof.
  intros N MN MS C A. unfold val_set_curr_test_num. assert (u32 num = num) as -> by (by apply Z.mod_small).
  destruct (store32_run _ num m MN N) as (m1 & E1 & V1 & O1 & K1). rewrite (bind_step _ _ _ _ _ E1).
  assert (TEST_NUM_OFFSET + 4 ≤ TEST_NAME_OFFSET) as LO by (vm_compute; discriminate).
  assert (cstr_at m1 h s) as C1.
  { eapply only_cstr; [exact O1| |done]. destruct A as [A|A]; [left|right]; lia. }
  destruct (set_name_run base m1 h s C1) as (m2 & E2 & C2 & O2 & K2).
  { eapply only_mapped; [exact O1|right; lia|done]. }
  { done. }
  exists m2. rewrite E2. split; [done|]. split; [|split; [done|split; [|by auto]]].
  - unfold val_get_curr_test_num. rewrite load32_run.
    + f_equal. rewrite (only_le_val _ _ _ _ _ _ O2) by lia. done.
    + eapply only_mapped; [exact O2|left; lia|].
      intros i Hi. by apply K1, MN.
  - intros p t T D. eapply only_cstr; [exact O2|destruct D as [D|D]; [left|right]; lia|].
    eapply only_cstr; [exact O1|destruct D as [D|D]; [left|right]; lia|done].
Qed.

(** * Messages of a Realm *)

Lemma load_bytes_run (m : mem) n p :
  mapped m p (Z.of_nat n) →
  ∃ b, load_bytes n p m = Ok b m ∧ length b = n ∧ ∀ i c, b !! i = Some c → m !! (p + Z.of_nat i) = Some c.
Proof.
  revert p. induction n as [|n IH]; intros p Mp; cbn [load_bytes]; [by exists []|].
  destruct (Mp 0) as [c C]; [lia|]. rewrite Z.add_0_r in C. rewrite (bind_step _ _ _ _ _ (load8_eq _ _ _ C)).
  destruct (IH (p + 1)) as (b & B & L & E). { intros i Hi. rewrite <- Z.add_assoc. apply Mp. lia. }
  rewrite (bind_step _ _ _ _ _ B). exists (c :: b). split; [done|]. split; [cbn; lia|].
  intros [|i] d D; cbn in D; [simplify_eq; by rewrite Z.add_0_r|].
  replace (p + Z.of_nat (Datatypes.S i)) with (p + 1 + Z.of_nat i) by lia. by apply E.
Qed.

Lemma on_buffer_run {A} (m : mem) n p (f : list Z → outcome (list Z) A) a b' :
  mapped m p (Z.of_nat n) →
  (∀ b, length b = n → f b = Ok a (b' b) ∧ length (b' b) = n) →
  ∃ b m', length b = n ∧ on_buffer n p f m = Ok a m' ∧
    (∀ k c, b' b !! k = Some c → m' !! (p + Z.of_nat k) = Some c) ∧ only p (Z.of_nat n) m m'.
Proof.
  intros Mp F. unfold on_buffer. destruct (load_bytes_run m n p Mp) as (b & B & L & _).
  destruct (F b L) as [E L'].
  destruct (write_bytes_run p (b' b) m) as (m' & W & C & O & _); [by rewrite L'|].
  exists b, m'. rewrite (bind_step _ _ _ _ _ B), E, (bind_step _ _ _ _ _ W). rewrite L' in O. done.
Qed.

Lemma cut_cstr (m : mem) p s rest :
  Str.cstring s → (∀ k c, (s ++ 0 :: rest) !! k = Some c → m !! (p + Z.of_nat k) = Some c) → cstr_at m p s.
Proof.
  intros NZ C. split; [done|]. split.
  - intros i c L. apply C. by apply lookup_app_l_Some.
  - apply C. by rewrite lookup_app_r, Nat.sub_diag by done.
Qed.

Lemma realm_printf_run (base : Z) (m : mem) (p0 : bool) (verbosity : Z) (fmt : list Z)
    (args : list Fmt.va_slot) (txt : list Z) :
  FmtFacts.full_text fmt args = Some (txt, true) → Str.cstring txt → 0 ≤ verbosity < 2 ^ 32 →
  mapped m (base + REALM_PRINTF_MSG_OFFSET) (MAX_BUF_SIZE + 4) →
  ∃ m', val_realm_printf base p0 verbosity fmt args m =
      Ok (if p0 then PrintHostCall VAL_REALM_PRINT_MSG else PrintHvc PSI_PRINT_MSG) m' ∧
    val_host_realm_printf_msg_service base m' = Ok (verbosity, take 79 txt) m' ∧
    only (base + REALM_PRINTF_MSG_OFFSET) (MAX_BUF_SIZE + 4) m m'.
Proof.
  intros T NZ V Mp. change (MAX_BUF_SIZE + 4) with 84 in *.
  change REALM_PRINTF_MSG_OFFSET with 16 in *. unfold val_realm_printf. 
  change REALM_PRINTF_VERBOSITY_OFFSET with 96. change (Z.to_nat MAX_BUF_SIZE) with 80%nat.
  change REALM_PRINTF_MSG_OFFSET with 16.
  assert (u32 verbosity = verbosity) as -> by (by apply Z.mod_small).
  destruct (store32_run (base + 96) verbosity m) as (m1 & E1 & V1 & O1 & K1).
  { intros i Hi. replace (base + 96 + i) with (base + 16 + (80 + i)) by lia. apply Mp. lia. } { done. }
  rewrite (bind_step _ _ _ _ _ E1).
  destruct (on_buffer_run m1 80 (base + 16) (λ b, Fmt.snprintf b MAX_BUF_SIZE fmt args)
    (Fmt.s32 (Z.of_nat (length txt))) (λ b, take 79 txt ++ 0 :: drop (Datatypes.S (length txt `min` 79)) b))
    as (b & m2 & LB & E2 & C2 & O2).
  { intros i Hi. apply K1, Mp. lia. }
  { intros b LB. rewrite length_app, length_take. cbn [length]. rewrite length_drop. split; [|lia].
    change MAX_BUF_SIZE with (Z.of_nat 80). rewrite (FmtFacts.snprintf_full b 80 fmt args txt) by (done || lia). done. }
  rewrite (bind_step _ _ _ _ _ E2). exists m2. split; [by destruct p0|].
  assert (cstr_at m2 (base + 16) (take 79 txt)) as CM.
  { eapply cut_cstr; [by apply Forall_take|exact C2]. }
  split.
  - unfold val_host_realm_printf_msg_service. change REALM_PRINTF_VERBOSITY_OFFSET with 96.
    change REALM_PRINTF_MSG_OFFSET with 16.
    assert (load32 (base + 96) m2 = Ok verbosity m2) as EL.
    { rewrite load32_run.
      - f_equal. rewrite (only_le_val _ _ _ _ _ _ O2) by lia. done.
      - eapply only_mapped; [exact O2|right; lia|]. intros i Hi. apply K1.
        replace (base + 96 + i) with (base + 16 + (80 + i)) by lia. apply Mp. lia. }
    rewrite (bind_step _ _ _ _ _ EL).
    rewrite (bind_step _ _ _ (take 79 txt) m2); [done|].
    apply load_string_run; [done|]. pose proof (mapped_size _ _ _ (cstr_at_mapped _ _ _ CM)). lia.
  - intros a Ha. rewrite O2, O1 by lia. done.
Qed.

(** * The tag of the printing world *)

Definition world_tag (state skip : Z) : list (list Z) :=
  if state =? SEC_STATE_NS then (if skip =? 1 then [chars "Host:"] else [])
  else if state =? SEC_STATE_REALM then [chars "Realm:"] else [chars "Secure:"].

Lemma store64_small (m : mem) p v :
  mapped m p 8 → 0 ≤ v < 2 ^ 8 →
  ∃ m', store64 p v m = Ok tt m' ∧ le_val m' 8 p = v ∧ only p 8 m m' ∧ ∀ a, is_Some (m !! a) → is_Some (m' !! a).
Proof.
  intros Mp V. unfold store64.
  assert (word_bytes v ++ word_bytes (Z.shiftr v 32) = [v; 0; 0; 0; 0; 0; 0; 0]) as ->.
  { unfold word_bytes. cbn [app]. change 0xFF with (2 ^ 8 - 1).
    rewrite !Z.shiftr_shiftr, !Z.sub_1_r, <- !Z.ones_equiv by lia.
    rewrite !Z.land_ones, !Z.shiftr_div_pow2 by lia.
    rewrite !(Z.div_small v) by lia. by rewrite Z.mod_small. }
  destruct (write_bytes_run p [v; 0; 0; 0; 0; 0; 0; 0] m Mp) as (m' & E & L & O & K).
  exists m'. split; [done|]. split; [|done]. cbn [le_val].
  assert (∀ k a b, [v; 0; 0; 0; 0; 0; 0; 0] !! k = Some b → a = p + Z.of_nat k → m' !! a = Some b) as B
    by (intros k a b D ->; by apply L).
  rewrite (B 0%nat p v eq_refl), (B 1%nat _ 0 eq_refl), (B 2%nat _ 0 eq_refl), (B 3%nat _ 0 eq_refl),
    (B 4%nat _ 0 eq_refl), (B 5%nat _ 0 eq_refl), (B 6%nat _ 0 eq_refl), (B 7%nat _ 0 eq_refl) by lia.
  cbn. lia.
Qed.

Lemma tag_silent (base : Z) (m : mem) fuel p0 ALWAYS state skip :
  state ∈ [SEC_STATE_NS; SEC_STATE_REALM; SEC_STATE_SECURE] → mapped m (base + PRINT_OFFSET) 8 →
  le_val m 8 (base + PRINT_OFFSET) = state →
  val_print_secuity_state base (S fuel) p0 ALWAYS state skip m = Ok [] m.
Proof.
  intros I Mp E. cbn [val_print_secuity_state].
  assert (Validate.load64 (base + PRINT_OFFSET) m = Ok state m) as L by (rewrite <- E; by apply (load_le_val 8)).
  rewrite !elem_of_cons in I. destruct I as [-> |[-> |[-> |I]]]; [..|by apply not_elem_of_nil in I];
    by cbn -[PRINT_OFFSET]; rewrite (bind_step _ _ _ _ _ L).
Qed.

Lemma unknown_never_prints (base : Z) (m : mem) fuel p0 ALWAYS state skip :
  state ∉ [SEC_STATE_NS; SEC_STATE_REALM; SEC_STATE_SECURE] →
  val_print_secuity_state base fuel p0 ALWAYS state skip m = NoFuel.
Proof.
  intros N. rewrite !not_elem_of_cons in N. destruct N as (N1 & N2 & N3 & _).
  induction fuel as [|fuel IH]; cbn [val_print_secuity_state]; [done|].
  rewrite (proj2 (Z.eqb_neq _ _) N1), (proj2 (Z.eqb_neq _ _) N2), (proj2 (Z.eqb_neq _ _) N3).
  unfold bind at 1. by rewrite IH.
Qed.

Lemma tag_run (base : Z) (m : mem) p0 ALWAYS state skip :
  state ∈ [SEC_STATE_NS; SEC_STATE_REALM; SEC_STATE_SECURE] → 0 ≤ ALWAYS < 2 ^ 32 →
  mapped m (base + PRINT_OFFSET) 8 → mapped m (base + REALM_PRINTF_MSG_OFFSET) (MAX_BUF_SIZE + 4) →
  ∃ m', val_print_secuity_state base 2 p0 ALWAYS state skip m =
      Ok (if le_val m 8 (base + PRINT_OFFSET) =? state then [] else world_tag state skip) m' ∧
    le_val m' 8 (base + PRINT_OFFSET) = state ∧ mapped m' (base + PRINT_OFFSET) 8.
Proof.
  intros I HA Mp Mm. destruct (Z.eqb_spec (le_val m 8 (base + PRINT_OFFSET)) state) as [E|E].
  { exists m. rewrite tag_silent; done. }
  assert (0 ≤ state < 2 ^ 8) as B.
  { rewrite !elem_of_cons in I. destruct I as [-> |[-> |[-> |I]]]; [done..|by apply not_elem_of_nil in I]. }
  destruct (store64_small m _ state Mp B) as (m1 & E1 & V1 & O1 & K1).
  assert (mapped m1 (base + PRINT_OFFSET) 8) as Mp1 by (intros i Hi; by apply K1, Mp).
  pose proof (tag_silent base m1 0 p0 ALWAYS state skip I Mp1 V1) as T.
  assert (Validate.load64 (base + PRINT_OFFSET) m = Ok (le_val m 8 (base + PRINT_OFFSET)) m) as L
    by (by apply (load_le_val 8)).
  apply Z.eqb_neq in E.
  assert (∀ k : M mem (list (list Z)),
    bind (Validate.load64 (base + PRINT_OFFSET)) (λ prev, if prev =? state then ret [] else
      store64 (base + PRINT_OFFSET) state ;; k) m = k m1) as TAG.
  { intros k. rewrite (bind_step _ _ _ _ _ L), E, (bind_step _ _ _ _ _ E1). done. }
  destruct (realm_printf_run base m1 p0 ALWAYS (chars "Realm:") [] (chars "Realm:"))
    as (m2 & E2 & _ & O2); [done|by repeat constructor|done| |].
  { intros i Hi. by apply K1, Mm. }
  assert (∀ i, 0 ≤ i < 8 → m2 !! (base + PRINT_OFFSET + i) = m1 !! (base + PRINT_OFFSET + i)) as A2.
  { intros i Hi. apply O2. change PRINT_OFFSET with 397312. change REALM_PRINTF_MSG_OFFSET with 16.
    change (MAX_BUF_SIZE + 4) with 84. lia. }
  assert (le_val m2 8 (base + PRINT_OFFSET) = state) as V2 by (rewrite <- V1; by apply le_val_agree).
  assert (mapped m2 (base + PRINT_OFFSET) 8) as Mp2 by (intros i Hi; rewrite A2; [by apply Mp1|done]).
  rewrite !elem_of_cons in I. destruct I as [-> |[-> |[-> |I]]]; [..|by apply not_elem_of_nil in I].
  - exists m1. split; [|done]. etransitivity; [apply TAG|]. cbn beta. unfold world_tag.
    change (SEC_STATE_NS =? SEC_STATE_NS) with true. cbn iota.
    destruct (skip =? 1) eqn:K; [|done]. cbn in T |- *. rewrite K in T.
    etransitivity; [eapply bind_step; exact T|reflexivity].
  - exists m2. split; [|done]. etransitivity; [apply TAG|]. cbn beta.
    etransitivity; [eapply bind_step; exact T|]. cbn beta. change (SEC_STATE_REALM =? SEC_STATE_REALM) with true.
    cbn iota. rewrite bind_assoc. by rewrite (bind_step _ _ _ _ _ E2).
  - exists m1. split; [|done]. etransitivity; [apply TAG|]. etransitivity; [eapply bind_step; exact T|reflexivity].
Qed.

(** * Properties *)

(** C11. The host announces a test: its number is what the Realm reads, and the secure
    image, whose list holds a name that begins with the announced one, picks the first
    such name.  When no earlier name of the list begins with it that is the announced
    test. *)
Theorem announced_test_found (base : Z) (m : mem) (num h : Z) (s : list Z) (names : list Z) (strs : list (list Z))
    (i : nat) (t : list Z) :
  0 ≤ num < 2 ^ 32 →
  mapped m (base + TEST_NUM_OFFSET) 4 → mapped m (base + TEST_NAME_OFFSET) (Z.of_nat (length s) + 1) →
  cstr_at m h s → apart base h (Z.of_nat (length s) + 1) (Z.of_nat (length s) + 1) →
  Forall2 (λ p u, cstr_at m p u ∧ apart base p (Z.of_nat (length u) + 1) (Z.of_nat (length s) + 1)) names strs →
  (1 ≤ i)%nat → strs !! i = Some t → s `prefix_of` t →
  ∃ m' j, (val_set_curr_test_num base num ;; val_set_curr_test_name base h) m = Ok tt m' ∧
    val_get_curr_test_num base m' = Ok num m' ∧
    val_secure_find_current_test_index base names m' = Ok (Z.of_nat j) m' ∧
    (1 ≤ j ≤ i)%nat ∧ (∃ u, strs !! j = Some u ∧ s `prefix_of` u) ∧
    ∀ k u, (1 ≤ k < j)%nat → strs !! k = Some u → ¬ s `prefix_of` u.
Proof.
  intros N MN MS C A F I L P.
  destruct (announce_run base m num h s N MN MS C A) as (m' & E & G & C' & K & _).
  destruct F as [|n0 s0 names strs _ F]; [done|]. destruct i as [|i]; [lia|]. cbn in L.
  assert (Forall2 (cstr_at m') names strs) as F'.
  { eapply Forall2_impl; [exact F|]. intros p u [U D]. by apply K. }
  destruct (find_from_run base m' s names strs 1 C' F') as (j & u & J & LJ & PJ & NJ); [by exists i, t|].
  exists m', (Datatypes.S j). split; [done|]. split; [done|]. split; [|split; [|split]].
  - unfold val_secure_find_current_test_index. cbn [List.tl]. rewrite J. f_equal. lia.
  - split; [lia|]. destruct (decide (i < j)%nat) as [LT|]; [|lia]. by destruct (NJ i t LT L).
  - exists u. done.
  - intros [|k] w Hk W; [lia|]. apply (NJ k w); [lia|done].
Qed.

(** C12. A message of a Realm reaches the host: the text (its first 79 characters) and its
    verbosity, and no byte of the region outside the two slots changes, in particular
    not the current test.  From P0 it is announced by a host call, from another plane
    by a hypervisor call. *)
Theorem realm_message_delivered (base : Z) (m : mem) (p0 : bool) (verbosity : Z) (fmt : list Z)
    (args : list Fmt.va_slot) (txt : list Z) :
  FmtFacts.full_text fmt args = Some (txt, true) → Str.cstring txt → 0 ≤ verbosity < 2 ^ 32 →
  mapped m (base + REALM_PRINTF_MSG_OFFSET) (MAX_BUF_SIZE + 4) →
  ∃ m', val_realm_printf base p0 verbosity fmt args m =
      Ok (if p0 then PrintHostCall VAL_REALM_PRINT_MSG else PrintHvc PSI_PRINT_MSG) m' ∧
    val_host_realm_printf_msg_service base m' = Ok (verbosity, take 79 txt) m' ∧
    only (base + REALM_PRINTF_MSG_OFFSET) (MAX_BUF_SIZE + 4) m m'.
Proof. apply realm_printf_run. Qed.

(** A known world prints its tag exactly when another world printed last, and the tag is
    then its own: the recursion of the macro LOG through this function is one level
    deep, and a second call prints nothing.  In any other state the function never
    returns: it calls itself before every attempt to print "Unknown:". *)
Theorem tag_printed_once (base : Z) (m : mem) (p0 : bool) (ALWAYS state skip : Z) :
  0 ≤ ALWAYS < 2 ^ 32 → mapped m (base + PRINT_OFFSET) 8 →
  mapped m (base + REALM_PRINTF_MSG_OFFSET) (MAX_BUF_SIZE + 4) →
  if bool_decide (state ∈ [SEC_STATE_NS; SEC_STATE_REALM; SEC_STATE_SECURE]) then
    ∃ m', val_print_secuity_state base 2 p0 ALWAYS state skip m =
        Ok (if le_val m 8 (base + PRINT_OFFSET) =? state then [] else world_tag state skip) m' ∧
      le_val m' 8 (base + PRINT_OFFSET) = state ∧
      val_print_secuity_state base 1 p0 ALWAYS state skip m' = Ok [] m'
  else ∀ fuel, val_print_secuity_state base fuel p0 ALWAYS state skip m = NoFuel.
Proof.
  intros HA Mp Mm. case_bool_decide as I; [|intros fuel; by apply unknown_never_prints].
  destruct (tag_run base m p0 ALWAYS state skip I HA Mp Mm) as (m' & E & V & Mp'). exists m'.
  split; [done|]. split; [done|]. by apply tag_silent.
Qed.

(** * Witnesses *)

(** 4 KB-style layout in small: the region at 0 with the slots of a test, and names behind. *)
Definition demo_region : mem :=
  list_to_map ([(8, 0); (9, 0); (10, 0); (11, 0); (120, 9); (121, 9); (122, 9);
    (500, 97); (501, 98); (502, 0); (510, 0); (520, 98); (521, 0); (530, 97); (531, 98); (532, 0)]).

Ltac in_range i n :=
  match n with
  | O => lia
  | S ?k => let E := fresh in destruct (decide (i = Z.of_nat k)) as [E|E];
            [subst i; vm_compute; eexists; reflexivity|in_range i k]
  end.

Ltac concrete_string :=
  split; [unfold Str.cstring; repeat (apply Forall_cons; split; [done|]); by apply Forall_nil
         |split; [|vm_compute; reflexivity]];
  intros [|[|[|?]]] ? ?; simplify_eq/=; vm_compute; reflexivity.

Lemma announced_test_found_witness :
  ∃ m' j, (val_set_curr_test_num 0 2 ;; val_set_curr_test_name 0 500) demo_region = Ok tt m' ∧
    val_get_curr_test_num 0 m' = Ok 2 m' ∧
    val_secure_find_current_test_index 0 [510; 520; 530] m' = Ok (Z.of_nat j) m' ∧
    (1 ≤ j ≤ 2)%nat ∧ (∃ u, [[]; [98]; [97; 98]] !! j = Some u ∧ [97; 98] `prefix_of` u) ∧
    ∀ k u, (1 ≤ k < j)%nat → [[]; [98]; [97; 98]] !! k = Some u → ¬ [97; 98] `prefix_of` u.
Proof.
  apply (announced_test_found 0 demo_region 2 500 [97; 98] [510; 520; 530] [[]; [98]; [97; 98]] 2 [97; 98]).
  - lia.
  - intros i Hi. in_range i 4%nat.
  - intros i Hi. cbn in Hi. in_range i 3%nat.
  - concrete_string.
  - right. vm_compute. discriminate.
  - repeat (apply Forall2_cons; split); [..|by apply Forall2_nil];
      (split; [concrete_string | right; vm_compute; discriminate]).
  - lia.
  - reflexivity.
  - done.
Defined.

Definition demo_slots : mem := list_to_map (map (λ k, (Z.of_nat k, 7)) (seq 16 84)).

Lemma demo_slots_mapped : mapped demo_slots (0 + REALM_PRINTF_MSG_OFFSET) (MAX_BUF_SIZE + 4).
Proof.
  intros i Hi. change (MAX_BUF_SIZE + 4) with 84 in Hi. change (0 + REALM_PRINTF_MSG_OFFSET) with 16.
  unfold demo_slots. apply elem_of_dom. rewrite dom_list_to_map, elem_of_list_to_set.
  apply list_elem_of_fmap. exists (16 + i, 7). split; [done|]. apply list_elem_of_fmap.
  exists (Z.to_nat (16 + i)). split; [f_equal; lia|]. apply elem_of_seq. lia.
Qed.

Lemma realm_message_delivered_witness :
  ∃ m', val_realm_printf 0 true 3 (chars "x=%d") [Fmt.VaNum 42] demo_slots =
      Ok (PrintHostCall VAL_REALM_PRINT_MSG) m' ∧
    val_host_realm_printf_msg_service 0 m' = Ok (3, take 79 (chars "x=42")) m' ∧
    only (0 + REALM_PRINTF_MSG_OFFSET) (MAX_BUF_SIZE + 4) demo_slots m'.
Proof.
  apply (realm_message_delivered 0 demo_slots true 3 (chars "x=%d") [Fmt.VaNum 42] (chars "x=42")).
  - vm_compute. reflexivity.
  - repeat (apply Forall_cons; split; [done|]). by apply Forall_nil.
  - lia.
  - exact demo_slots_mapped.
Defined.

Definition demo_tag : mem :=
  list_to_map (map (λ k, (PRINT_OFFSET + Z.of_nat k, 255)) (seq 0 8)) ∪ demo_slots.

Lemma tag_printed_once_witness :
  ∃ m', val_print_secuity_state 0 2 true 5 SEC_STATE_REALM 0 demo_tag =
      Ok (if le_val demo_tag 8 (0 + PRINT_OFFSET) =? SEC_STATE_REALM then [] else [chars "Realm:"]) m' ∧
    le_val m' 8 (0 + PRINT_OFFSET) = SEC_STATE_REALM ∧
    val_print_secuity_state 0 1 true 5 SEC_STATE_REALM 0 m' = Ok [] m'.
Proof.
  apply (tag_printed_once 0 demo_tag true 5 SEC_STATE_REALM 0).
  - lia.
  - intros i Hi. in_range i 8%nat.
  - intros i Hi. destruct (demo_slots_mapped i Hi) as [v V].
    unfold demo_tag. apply lookup_union_is_Some. right. by exists v.
Defined.
