(* ===== verification/Dispatch.v ===== *)
(** The test dispatcher of the host (val_host_framework.c): which tests of the database
    run, what is kept in non-volatile memory so that a test may reset the machine, and
    how results are counted.

    The routines of the submodule val_common (non-volatile memory, status, watchdog,
    regression report) are the class [Common]; nothing is assumed of them here.  The
    build options are the class [Build].  A test is a program over the state of the
    host that returns whether it ended in a reset of the machine.  [f_ran] is not in the
    program: it records the tests begun, so that theorems can name them. *)
From S2P Require Import Prelude Defs Alloc Granule Host Libc Rmi RealmMap RealmLife Rhi Doe Shared.
Import Libc.Mem Libc.Str.

Inductive nvm_index : Type :=
  | NVM_CUR_TEST_NUM_INDEX | NVM_END_TEST_NUM_INDEX | NVM_TEST_PROGRESS_INDEX
  | NVM_TOTAL_PASS_INDEX | NVM_TOTAL_FAIL_INDEX | NVM_TOTAL_SKIP_INDEX | NVM_TOTAL_ERROR_INDEX.

#[export] Instance nvm_index_eq_dec : EqDecision nvm_index.
Proof. solve_decision. Defined.

Record test_info_t : Type := mk_info { test_num : Z; end_test_num : Z; test_progress : Z }.
Record regre_report_t : Type := mk_report {
  total_pass : Z; total_fail : Z; total_skip : Z; total_error : Z
}.

(** The submodule, with a state [Y].  A read gives its status and the word; offsets in
    the non-volatile memory are the index. *)
Class Common (Y : Type) : Type := {
  TEST_START : Z; TEST_END : Z; TEST_FAIL : Z; TEST_REBOOTING : Z;
  VAL_INVALID_TEST_NUM : Z;
  RESULT_START_INVALID : Z;
  RESULT_FAIL_ERROR : Z;
  val_nvm_read : nvm_index → Y → Z * Z;
  val_nvm_write : nvm_index → Z → Y → Z * Y;
  is_reboot_run : Z → list Z → Z;
  val_reset_test_info_fields : test_info_t → test_info_t;
  val_log_test_info : test_info_t → Y → Y;
  val_log_final_test_status : test_info_t → regre_report_t → Y → Y;
  val_print_regression_report : regre_report_t → Y → Y;
  val_set_status : Z → Y → Y;
  val_handle_reboot_result : Z → Y → Y;
  val_report_status : Y → Z * Y;
  val_update_regression_report : Z → regre_report_t → regre_report_t;
  val_sort_indices : Z → Z → Z * Z;
  val_watchdog_enable : Y → Z * Y;
  val_watchdog_disable : Y → Z * Y
}.

(** Options of CMakeLists.txt. *)
Class Build : Type := {
  SUITE : list Z;
  SUITE_TEST_RANGE : option (list Z * list Z);
  TEST_COMBINE : bool
}.

(** The state: host, submodule, byte memory with the shared region and the names of the
    tests, the flag [skip_for_val_logs]. *)
Record fw (W Y : Type) : Type := mk_fw {
  f_host : host W;
  f_common : Y;
  f_mem : mem;
  f_skip_logs : Z;
  f_ran : list Z
}.
Arguments mk_fw {W Y}.
Arguments f_host {W Y}.
Arguments f_common {W Y}.
Arguments f_mem {W Y}.
Arguments f_skip_logs {W Y}.
Arguments f_ran {W Y}.

(** An entry of the database; [test_name_at] is the address of the name. *)
Record test_db_t (W Y : Type) : Type := mk_test {
  suite_name : list Z;
  sub_suite_name : list Z;
  test_name : list Z;
  test_name_at : Z;
  host_fn : option (M (fw W Y) bool)
}.
Arguments mk_test {W Y}.
Arguments suite_name {W Y}.
Arguments sub_suite_name {W Y}.
Arguments test_name {W Y}.
Arguments test_name_at {W Y}.
Arguments host_fn {W Y}.

Inductive dispatch_end : Type :=
  | Completed (report : regre_report_t)
  | GaveUp
  | Restarted
  | SecondaryDone.

Definition PRINT_LIMIT : Z := 80.

Section Dispatch.
Context {W Y : Type} `{RMM W} `{Common Y} `{Build}.
(** [val_get_shared_region_base] and the database. *)
Variable base : Z.
Variable test_list : list (test_db_t W Y).

Definition total_tests : Z := Z.of_nat (length test_list).

Definition on_f_host {A : Type} (m : M (host W) A) : M (fw W Y) A :=
  zoom f_host (λ h s, mk_fw h (f_common s) (f_mem s) (f_skip_logs s) (f_ran s)) m.
Definition on_f_mem {A : Type} (m : M mem A) : M (fw W Y) A :=
  zoom f_mem (λ b s, mk_fw (f_host s) (f_common s) b (f_skip_logs s) (f_ran s)) m.
Definition on_common {A : Type} (f : Y → A * Y) : M (fw W Y) A := λ s,
  let (a, y) := f (f_common s) in
  Ok a (mk_fw (f_host s) y (f_mem s) (f_skip_logs s) (f_ran s)).
Definition common (f : Y → Y) : M (fw W Y) unit := on_common (λ y, (tt, f y)).
Definition set_skip_logs (v : Z) : M (fw W Y) unit :=
  modify (λ s, mk_fw (f_host s) (f_common s) (f_mem s) v (f_ran s)).
Definition note_run (i : Z) : M (fw W Y) unit :=
  modify (λ s, mk_fw (f_host s) (f_common s) (f_mem s) (f_skip_logs s) (f_ran s ++ [i])).

(** [if (val_nvm_write(..) || val_nvm_write(..) || ..)]: whether one failed. *)
Fixpoint nvm_write_all (l : list (nvm_index * Z)) : M (fw W Y) bool :=
  match l with
  | [] => ret false
  | (i, v) :: l =>
      let* r := on_common (val_nvm_write i (u32 v)) in
      if truthy r then ret true else nvm_write_all l
  end.

(** The words, or [None] when a read failed. *)
Fixpoint nvm_read_all (l : list nvm_index) : M (fw W Y) (option (list Z)) :=
  match l with
  | [] => ret (Some [])
  | i :: l =>
      let* (r, v) := gets (λ s, val_nvm_read i (f_common s)) in
      if truthy r then ret None
      else
        let* vs := nvm_read_all l in
        ret (option_map (cons v) vs)
  end.

Definition val_host_set_reboot_flag : M (fw W Y) unit :=
  let* failed := nvm_write_all [(NVM_TEST_PROGRESS_INDEX, TEST_REBOOTING)] in
  if failed then fail Panic else ret tt.

(** [None] is VAL_ERROR. *)
Definition val_host_get_last_run_test_info : M (fw W Y) (option test_info_t) :=
  let test_progress_pattern := map u8 [TEST_START; TEST_END; TEST_FAIL; TEST_REBOOTING] in
  let regre_report := mk_report 0 0 0 0 in
  let* words := nvm_read_all [NVM_CUR_TEST_NUM_INDEX; NVM_END_TEST_NUM_INDEX; NVM_TEST_PROGRESS_INDEX] in
  match words with
  | Some [num; end_num; progress] =>
      let test_info := mk_info num end_num progress in
      common (val_log_test_info test_info) ;;
      let reboot_run := is_reboot_run progress test_progress_pattern in
      if truthy reboot_run then
        common (val_log_final_test_status test_info regre_report) ;;
        ret (Some test_info)
      else
        let test_info := val_reset_test_info_fields test_info in
        let* failed := nvm_write_all
          [(NVM_CUR_TEST_NUM_INDEX, test_num test_info);
           (NVM_END_TEST_NUM_INDEX, end_test_num test_info);
           (NVM_TEST_PROGRESS_INDEX, test_progress test_info);
           (NVM_TOTAL_PASS_INDEX, total_pass regre_report);
           (NVM_TOTAL_FAIL_INDEX, total_fail regre_report);
           (NVM_TOTAL_SKIP_INDEX, total_skip regre_report);
           (NVM_TOTAL_ERROR_INDEX, total_error regre_report)] in
        if failed then ret None
        else
          common (val_log_final_test_status test_info regre_report) ;;
          ret (Some test_info)
  | _ => ret None
  end.

Definition test_entry (i : Z) : M (fw W Y) (test_db_t W Y) := λ s,
  if decide (0 ≤ i) then
    match test_list !! Z.to_nat i with
    | Some e => Ok e s
    | None => Fault OutOfBounds
    end
  else Fault OutOfBounds.

(** The line printed for a test, in the local array [testname]. *)
Definition build_testname (e : test_db_t W Y) : M (list Z) unit :=
  val_strcat (suite_name e) PRINT_LIMIT ;;
  val_strcat (test_name e) PRINT_LIMIT ;;
  val_strcat [10] PRINT_LIMIT.
Definition in_local {A : Type} (n : Z) (m : M (list Z) A) : M (fw W Y) A := λ s,
  match m (replicate (Z.to_nat n) 0) with
  | Ok a _ => Ok a s
  | Fault f => Fault f
  | NoFuel => NoFuel
  end.

Definition val_host_test_init (num : Z) : M (fw W Y) unit :=
  common (val_set_status RESULT_START_INVALID) ;;
  on_f_mem (val_set_curr_test_num base num) ;;
  let* e := test_entry num in
  on_f_mem (val_set_curr_test_name base (test_name_at e)) ;;
  in_local PRINT_LIMIT (build_testname e) ;;
  let* failed := nvm_write_all [(NVM_TEST_PROGRESS_INDEX, TEST_START)] in
  if failed then fail Panic
  else
    let* r := on_common val_watchdog_enable in
    if truthy r then fail Panic
    else
      on_f_host (tracker val_host_reset_mem_tack) ;;
      on_f_host (tracker (modify (λ g, set_alloc (val_host_mem_alloc_init (g_alloc g)) g))).

Definition val_host_test_exit : M (fw W Y) unit :=
  (if TEST_COMBINE then
     let* r := on_f_host val_host_postamble in
     if truthy r then common (val_set_status RESULT_FAIL_ERROR) else ret tt
   else ret tt) ;;
  let* r := on_common val_watchdog_disable in
  if truthy r then fail Panic
  else
    let* failed := nvm_write_all [(NVM_TEST_PROGRESS_INDEX, TEST_END)] in
    if failed then fail Panic else ret tt.

(** * The range of tests *)

(** The last index from [test_num] on, before [total_tests - 1], whose name compares
    equal; [found] when there is none. *)
Fixpoint find_test (fuel : nat) (num : Z) (name : list Z) (found : Z) : M (fw W Y) Z :=
  match fuel with
  | O => ret found
  | S fuel =>
      if num <? u32 (total_tests - 1) then
        let* e := test_entry num in
        find_test fuel (num + 1) name (if val_strcmp (test_name e) name =? 0 then num else found)
      else ret found
  end.

Definition test_range (test_info : test_info_t) : M (fw W Y) (Z * Z) :=
  match SUITE_TEST_RANGE with
  | Some (start_test_name, end_test_name) =>
      let* test_num_start := find_test (length test_list) (test_num test_info) start_test_name 0 in
      let* test_num_end := find_test (length test_list) (test_num test_info) end_test_name 0 in
      ret (val_sort_indices test_num_start test_num_end)
  | None => ret (test_num test_info, u32 total_tests)
  end.

(** * Suites that need a feature of the RMM *)

Definition suite_is (name : string) : bool := val_strcmp SUITE (chars name) =? 0.
Definition feature (suite : string) (supported : M (host W) bool) : M (fw W Y) bool :=
  if RMM_V_1_1 && (suite_is "all" || suite_is suite) then on_f_host supported else ret false.
Definition in_sub_suite (e : test_db_t W Y) (name : string) : bool :=
  val_strcmp (sub_suite_name e) (chars name) =? 0.
Definition skipped (planes mec da : bool) (e : test_db_t W Y) : bool :=
  (negb planes && in_sub_suite e "planes") || (negb mec && in_sub_suite e "mec") ||
  (negb da && in_sub_suite e "device_assignment").

(** * Dispatch *)

(** One test from the database; true when it reset the machine. *)
Definition run_test (i : Z) (fn : M (fw W Y) bool) : M (fw W Y) bool :=
  val_host_test_init i ;;
  on_f_mem (store64 (base + PRINT_OFFSET) 0xffffffffffffffff) ;;
  set_skip_logs 1 ;;
  note_run i ;;
  let* reset := fn in
  if reset then ret true
  else set_skip_logs 0 ;; val_host_test_exit ;; ret false.

Definition totals : list nvm_index :=
  [NVM_TOTAL_PASS_INDEX; NVM_TOTAL_FAIL_INDEX; NVM_TOTAL_SKIP_INDEX; NVM_TOTAL_ERROR_INDEX].

(** The result of the test is added to the totals; [None] when the memory fails. *)
Definition count_result : M (fw W Y) (option regre_report_t) :=
  let* test_result := on_common val_report_status in
  let* words := nvm_read_all totals in
  match words with
  | Some [p; f; k; e] =>
      let r := val_update_regression_report test_result (mk_report p f k e) in
      let* failed := nvm_write_all
        [(NVM_TOTAL_PASS_INDEX, total_pass r); (NVM_TOTAL_FAIL_INDEX, total_fail r);
         (NVM_TOTAL_SKIP_INDEX, total_skip r); (NVM_TOTAL_ERROR_INDEX, total_error r)] in
      ret (if failed then None else Some r)
  | _ => ret None
  end.

(** [for (i = test_num_start; i <= test_num_end; i++)]. *)
Fixpoint dispatch_loop (fuel : nat) (i test_num_end : Z) (planes mec da : bool)
    (reboot_run : bool) (progress : Z) (regre_report : regre_report_t) : M (fw W Y) dispatch_end :=
  match fuel with
  | O => out_of_fuel
  | S fuel =>
      let finish :=
        common (val_print_regression_report regre_report) ;; ret (Completed regre_report) in
      if i <=? test_num_end then
        let* e := test_entry i in
        match host_fn e with
        | None => finish
        | Some fn =>
            if skipped planes mec da e then
              dispatch_loop fuel (u32 (i + 1)) test_num_end planes mec da reboot_run progress regre_report
            else
              let next :=
                let* counted := count_result in
                match counted with
                | None => ret GaveUp
                | Some r => dispatch_loop fuel (u32 (i + 1)) test_num_end planes mec da false progress r
                end in
              if reboot_run then common (val_handle_reboot_result progress) ;; next
              else
                let* failed := nvm_write_all [(NVM_CUR_TEST_NUM_INDEX, i)] in
                if failed then ret GaveUp
                else
                  let* reset := run_test i fn in
                  if reset then ret Restarted else next
        end
      else finish
  end.

(** Fuel of the loop: the tests of the range and one turn to see its end. *)
Definition range_fuel (test_num_start test_num_end : Z) : nat :=
  S (Z.to_nat (test_num_end + 1 - test_num_start)).

Definition dispatch_tests (test_info : test_info_t) (reboot_run : bool) (range : Z * Z) :
    M (fw W Y) dispatch_end :=
  let* planes := feature "planes" val_host_rmm_supports_planes in
  let* mec := feature "mec" val_host_rmm_supports_mec in
  let* da := feature "device_assignment" val_host_rmm_supports_da in
  dispatch_loop (range_fuel range.1 range.2) range.1 range.2 planes mec da
    reboot_run (test_progress test_info) (mk_report 0 0 0 0).

Definition dispatch_primary : M (fw W Y) dispatch_end :=
  let* info := val_host_get_last_run_test_info in
  match info with
  | None => ret GaveUp
  | Some test_info =>
      if test_num test_info =? VAL_INVALID_TEST_NUM then
        let* range := test_range (mk_info 1 (end_test_num test_info) (test_progress test_info)) in
        let* failed := nvm_write_all [(NVM_END_TEST_NUM_INDEX, range.2)] in
        if failed then ret GaveUp
        else dispatch_tests test_info false range
      else dispatch_tests test_info true (test_num test_info, end_test_num test_info)
  end.

(** A secondary core resumes the current test. *)
Definition dispatch_secondary : M (fw W Y) dispatch_end :=
  let* num := on_f_mem (val_get_curr_test_num base) in
  let* e := test_entry num in
  match host_fn e with
  | None => fail Panic
  | Some fn => let* reset := fn in ret (if reset then Restarted else SecondaryDone)
  end.

Definition val_host_test_dispatch (primary_cpu_boot : bool) : M (fw W Y) dispatch_end :=
  if primary_cpu_boot then dispatch_primary else dispatch_secondary.
End Dispatch.
