(* ===== verification/DispatchFacts.v ===== *)
(** What holds of the dispatcher of Dispatch.v: across any number of resets made by
    tests, every test of the range runs exactly once, in order, and is counted exactly
    once.

    [CommonLaws] is what the routines of the submodule are documented to do; a test is
    trusted to leave the database, the counters and the range in non-volatile memory
    alone ([test_ok]).  [demo_common] satisfies the laws. *)
From S2P Require Import Prelude Defs Alloc Granule GranuleInv GranuleSpec Host Libc Rmi RealmMap RealmLife RecExit ExitFacts Rhi RhiFacts Pcie Doe DoeFacts Shared SharedFacts HostFacts Dispatch.
Import Libc.Mem Libc.MemFacts Libc.Str Libc.StrFacts.

Definition report_total (r : regre_report_t) : Z := total_pass r + total_fail r + total_skip r + total_error r.
Definition report_ok (r : regre_report_t) : Prop :=
  0 ≤ total_pass r ∧ 0 ≤ total_fail r ∧ 0 ≤ total_skip r ∧ 0 ≤ total_error r ∧ report_total r < 2 ^ 32.

(** Documented behaviour of the submodule: non-volatile memory keeps words of 32 bits,
    the other routines do not touch it, a result is counted in one of four totals. *)
Class CommonLaws (Y : Type) {C : Common Y} : Type := {
  cell : nvm_index → Y → Z;
  law_cell : ∀ i y, 0 ≤ cell i y < 2 ^ 32;
  law_read : ∀ i y, val_nvm_read i y = (0, cell i y);
  law_write : ∀ i v y, 0 ≤ v < 2 ^ 32 → ∃ y', val_nvm_write i v y = (0, y') ∧
    ∀ j, cell j y' = if decide (j = i) then v else cell j y;
  law_reboot : ∀ p l, is_reboot_run p l ≠ 0 ↔ p ∈ l;
  law_reset : ∀ t, test_num (val_reset_test_info_fields t) = VAL_INVALID_TEST_NUM;
  law_reset_range : ∀ t, 0 ≤ end_test_num (val_reset_test_info_fields t) < 2 ^ 32 ∧
    0 ≤ test_progress (val_reset_test_info_fields t) < 2 ^ 32;
  law_log : ∀ t j y, cell j (val_log_test_info t y) = cell j y;
  law_log_status : ∀ t r j y, cell j (val_log_final_test_status t r y) = cell j y;
  law_print : ∀ r j y, cell j (val_print_regression_report r y) = cell j y;
  law_status : ∀ v j y, cell j (val_set_status v y) = cell j y;
  law_handle : ∀ p j y, cell j (val_handle_reboot_result p y) = cell j y;
  law_report : ∀ j y, cell j (val_report_status y).2 = cell j y;
  law_count : ∀ v r, report_ok r → report_total r + 1 < 2 ^ 32 →
    report_ok (val_update_regression_report v r) ∧
    report_total (val_update_regression_report v r) = report_total r + 1;
  law_sort : ∀ a b, val_sort_indices a b = (Z.min a b, Z.max a b);
  law_enable : ∀ y, ∃ y', val_watchdog_enable y = (0, y') ∧ ∀ j, cell j y' = cell j y;
  law_disable : ∀ y, ∃ y', val_watchdog_disable y = (0, y') ∧ ∀ j, cell j y' = cell j y;
  law_progress : Forall (λ p, 0 ≤ p < 2 ^ 8) [TEST_START; TEST_END; TEST_FAIL; TEST_REBOOTING];
  law_invalid : 2 ^ 31 ≤ VAL_INVALID_TEST_NUM < 2 ^ 32
}.

Section Facts.
Context {W Y : Type} {R : RMM W} {C : Common Y} {L : CommonLaws Y} {B : Build}.
Context (base : Z) (test_list : list (test_db_t W Y)).

Notation state := (fw W Y).
Definition nvm (i : nvm_index) (s : state) : Z := cell i (f_common s).
Definition same_nvm (s s' : state) : Prop := ∀ j, nvm j s' = nvm j s.

(** Host, shared region and database are in order: the tracker has its slots, the slots
    of the shared region are mapped, the names stand in memory apart from them. *)
Record fw_ok (s : state) : Prop := {
  fok_slots : length (mem_track (h_gs (f_host s))) = VAL_HOST_MAX_REALMS;
  fok_num : mapped (f_mem s) (base + TEST_NUM_OFFSET) 4;
  fok_name : mapped (f_mem s) (base + TEST_NAME_OFFSET) PRINT_LIMIT;
  fok_tag : mapped (f_mem s) (base + PRINT_OFFSET) 8;
  fok_names : ∀ i e, test_list !! i = Some e → cstr_at (f_mem s) (test_name_at e) (test_name e) ∧
    apart base (test_name_at e) (Z.of_nat (length (test_name e)) + 1) PRINT_LIMIT ∧
    (test_name_at e + Z.of_nat (length (test_name e)) < base + PRINT_OFFSET ∨
     base + PRINT_OFFSET + 8 ≤ test_name_at e)
}.

(** The database: few tests, lines short enough to print, the empty entry at the end. *)
Record list_ok : Prop := {
  lok_size : (2 ≤ length test_list)%nat ∧ total_tests test_list < 2 ^ 31;
  lok_line : ∀ i e, test_list !! i = Some e → cstring (suite_name e) ∧ cstring (test_name e) ∧
    Z.of_nat (length (suite_name e) + length (test_name e)) + 1 < PRINT_LIMIT;
  lok_last : ∃ e, test_list !! (length test_list - 1)%nat = Some e ∧ host_fn e = None
}.

(** What a test may do: it returns or resets the machine, and leaves the non-volatile
    memory alone but for announcing a reset. *)
Definition test_ok (fn : M state bool) : Prop := ∀ s, fw_ok s →
  run_to fn s (λ reset s', fw_ok s' ∧ f_ran s' = f_ran s ∧
    (∀ j, j ≠ NVM_TEST_PROGRESS_INDEX → nvm j s' = nvm j s) ∧
    (nvm NVM_TEST_PROGRESS_INDEX s' = nvm NVM_TEST_PROGRESS_INDEX s ∨
     nvm NVM_TEST_PROGRESS_INDEX s' = TEST_REBOOTING) ∧
    (reset = false → TEST_COMBINE = true →
     run_to val_host_postamble (f_host s') (λ _ h, length (mem_track (h_gs h)) = VAL_HOST_MAX_REALMS))).

(** ** Steps that keep everything but one part *)

Definition keeps (s s' : state) : Prop := fw_ok s' ∧ f_ran s' = f_ran s.

Lemma fw_ok_common (s : state) y k l :
  fw_ok s → fw_ok (mk_fw (f_host s) y (f_mem s) k l).
Proof. intros [A1 A2 A3 A4 A5]. by constructor. Qed.

Lemma common_run (f : Y → Y) (s : state) :
  fw_ok s → (∀ j, cell j (f (f_common s)) = nvm j s) →
  ∃ s', common f s = Ok tt s' ∧ keeps s s' ∧ same_nvm s s'.
Proof.
  intros ok E. eexists. split; [reflexivity|]. split; [split; [by apply fw_ok_common|done]|]. exact E.
Qed.

Lemma write_all_run (l : list (nvm_index * Z)) (s : state) :
  fw_ok s → NoDup l.*1 → Forall (λ iv, 0 ≤ iv.2 < 2 ^ 32) l →
  ∃ s', nvm_write_all l s = Ok false s' ∧ keeps s s' ∧
    (∀ i v, (i, v) ∈ l → nvm i s' = v) ∧ (∀ j, j ∉ l.*1 → nvm j s' = nvm j s).
Proof.
  revert s. induction l as [|[i v] l IH]; intros s ok ND F; cbn [nvm_write_all].
  { exists s. split; [done|]. split; [done|]. split; [|done]. intros i v I. by apply not_elem_of_nil in I. }
  apply Forall_cons in F as [V F]. apply NoDup_cons in ND as [NI ND]. cbn in V, NI.
  destruct (law_write i v (f_common s) V) as (y' & E & K).
  set (s1 := mk_fw (f_host s) y' (f_mem s) (f_skip_logs s) (f_ran s)).
  assert (on_common (val_nvm_write i (u32 v)) s = Ok 0 s1) as E1.
  { unfold on_common. assert (u32 v = v) as -> by (by apply Z.mod_small). by rewrite E. }
  rewrite (bind_step _ _ _ _ _ E1). change (truthy 0) with false. cbn iota.
  destruct (IH s1) as (s' & E' & [ok' RN] & IN & OUT); [by apply fw_ok_common|done|done|].
  exists s'. split; [done|]. split; [split; [done|by rewrite RN]|]. split.
  - intros j w [[= -> ->]|I]%elem_of_cons; [|by apply IN].
    rewrite OUT by done. unfold nvm. cbn. rewrite K. by rewrite decide_True.
  - intros j NJ. cbn in NJ. apply not_elem_of_cons in NJ as [N1 N2]. rewrite OUT by done.
    unfold nvm. cbn. rewrite K. by rewrite decide_False.
Qed.

Lemma read_all_run (l : list nvm_index) (s : state) :
  nvm_read_all l s = Ok (Some (map (λ i, nvm i s) l)) s.
Proof.
  induction l as [|i l IH]; [done|]. cbn [nvm_read_all].
  rewrite (bind_step (gets (λ s0 : state, val_nvm_read i (f_common s0))) _ s (0, nvm i s) s)
    by (unfold gets; by rewrite law_read).
  change (truthy 0) with false. cbn iota. by rewrite (bind_step _ _ _ _ _ IH).
Qed.

(** ** The memory of the host *)

Lemma store64_keep (m : mem) p v :
  mapped m p 8 → ∃ m', store64 p v m = Ok tt m' ∧ only p 8 m m' ∧ ∀ a, is_Some (m !! a) → is_Some (m' !! a).
Proof. intros Mp. destruct (write_bytes_run p (word_bytes v ++ word_bytes (Z.shiftr v 32)) m Mp) as (m' & ? & _ & ?).
  by exists m'. Qed.

Lemma fw_ok_mem (s : state) (m : mem) :
  fw_ok s → (∀ a, is_Some (f_mem s !! a) → is_Some (m !! a)) →
  (∀ i e, test_list !! i = Some e → cstr_at m (test_name_at e) (test_name e)) →
  fw_ok (mk_fw (f_host s) (f_common s) m (f_skip_logs s) (f_ran s)).
Proof.
  intros [A1 A2 A3 A4 A5] K N. constructor; cbn; [done|intros i Hi; by apply K, A2|intros i Hi; by apply K, A3
    |intros i Hi; by apply K, A4|].
  intros i e E. destruct (A5 i e E) as (_ & D). split; [by eapply N|done].
Qed.

Lemma on_f_mem_run {A} (m : M mem A) (s : state) a b :
  m (f_mem s) = Ok a b → on_f_mem m s = Ok a (mk_fw (f_host s) (f_common s) b (f_skip_logs s) (f_ran s)).
Proof. intros E. unfold on_f_mem, zoom. by rewrite E. Qed.

Lemma announce_ok (s : state) (num : Z) (i : nat) e :
  fw_ok s → list_ok → 0 ≤ num < 2 ^ 32 → test_list !! i = Some e →
  ∃ m1 m2, val_set_curr_test_num base num (f_mem s) = Ok tt m1 ∧
    val_set_curr_test_name base (test_name_at e) m1 = Ok tt m2 ∧
    fw_ok (mk_fw (f_host s) (f_common s) m2 (f_skip_logs s) (f_ran s)).
Proof.
  intros ok LO N E. destruct (fok_names s ok i e E) as (CE & AE & _). destruct (lok_line LO i e E) as (_ & _ & LE).
  destruct (announce_run base (f_mem s) num (test_name_at e) (test_name e)) as (m2 & RUN & _ & _ & K & KS);
    [done|exact (fok_num s ok)| |done| |].
  { intros j Hj. apply (fok_name s ok). lia. }
  { destruct AE as [AE|AE]; [left|right]; lia. }
  apply bind_Ok in RUN as ([] & m1 & R1 & R2). exists m1, m2. split; [done|]. split; [done|].
  apply fw_ok_mem; [done|done|]. intros k f F. destruct (fok_names s ok k f F) as (CF & AF & _).
  apply K; [done|]. destruct AF as [AF|AF]; [left|right]; lia.
Qed.

Lemma tag_ok (s : state) v :
  fw_ok s → ∃ m, store64 (base + PRINT_OFFSET) v (f_mem s) = Ok tt m ∧
    fw_ok (mk_fw (f_host s) (f_common s) m (f_skip_logs s) (f_ran s)).
Proof.
  intros ok. destruct (store64_keep (f_mem s) _ v (fok_tag s ok)) as (m & E & O & K). exists m. split; [done|].
  apply fw_ok_mem; [done|done|]. intros i e L'. destruct (fok_names s ok i e L') as (CE & _ & D).
  eapply only_cstr; [exact O|lia|done].
Qed.

Lemma strcat_line s1 rest s2 :
  cstring s1 → cstring s2 → Z.of_nat (length (s1 ++ 0 :: rest)) = PRINT_LIMIT →
  Z.of_nat (length s1 + length s2) < PRINT_LIMIT →
  ∃ rest', val_strcat s2 PRINT_LIMIT (s1 ++ 0 :: rest) = Ok tt ((s1 ++ s2) ++ 0 :: rest') ∧
    cstring (s1 ++ s2) ∧ Z.of_nat (length ((s1 ++ s2) ++ 0 :: rest')) = PRINT_LIMIT.
Proof.
  intros C1 C2 LE LT. destruct (val_strcat_cases s1 s2 rest C1) as (E & _). rewrite LE in E.
  exists (drop (length s2) rest). rewrite E by done. rewrite <- app_assoc. split; [done|].
  split; [by apply Forall_app|]. rewrite <- LE, !length_app in *. cbn [length] in *.
  rewrite length_drop. lia.
Qed.

Lemma line_run (i : nat) e (s : state) :
  list_ok → test_list !! i = Some e → in_local PRINT_LIMIT (build_testname e) s = Ok tt s.
Proof.
  intros LO E. destruct (lok_line LO i e E) as (CS & CN & LE). unfold in_local, build_testname.
  change (replicate (Z.to_nat PRINT_LIMIT) 0) with ([] ++ 0 :: replicate 79 0).
  destruct (strcat_line [] (replicate 79 0) (suite_name e)) as (r1 & E1 & C1 & L1);
    [by apply Forall_nil|done|done|cbn [length]; lia|].
  destruct (strcat_line (suite_name e) r1 (test_name e)) as (r2 & E2 & C2 & L2); [done|done|exact L1|lia|].
  destruct (strcat_line (suite_name e ++ test_name e) r2 [10]) as (r3 & E3 & _);
    [done|by repeat constructor|done|rewrite length_app; cbn [length]; lia|].
  rewrite (bind_step _ _ _ _ _ E1). cbn [app]. rewrite (bind_step _ _ _ _ _ E2). by rewrite E3.
Qed.

(** ** One test *)

Lemma entry_run (i : Z) e (s : state) :
  0 ≤ i → test_list !! Z.to_nat i = Some e → test_entry test_list i s = Ok e s.
Proof. intros I E. unfold test_entry. rewrite decide_True by done. by rewrite E. Qed.

(** All words but the progress of the test are as before. *)
Definition nvm_kept (s s' : state) : Prop := ∀ j, j ≠ NVM_TEST_PROGRESS_INDEX → nvm j s' = nvm j s.

Lemma keeps_trans (s1 s2 s3 : state) : keeps s1 s2 → keeps s2 s3 → keeps s1 s3.
Proof. intros [_ E1] [ok E2]. split; [done|congruence]. Qed.
Lemma nvm_kept_trans (s1 s2 s3 : state) : nvm_kept s1 s2 → nvm_kept s2 s3 → nvm_kept s1 s3.
Proof. intros K1 K2 j N. rewrite K2, K1; done. Qed.

Lemma progress_run (v : Z) (s : state) :
  fw_ok s → v ∈ [TEST_START; TEST_END; TEST_FAIL; TEST_REBOOTING] →
  ∃ s', nvm_write_all [(NVM_TEST_PROGRESS_INDEX, v)] s = Ok false s' ∧ keeps s s' ∧ nvm_kept s s' ∧
    nvm NVM_TEST_PROGRESS_INDEX s' = v.
Proof.
  intros ok I. pose proof (proj1 (Forall_forall _ _) law_progress v I) as V. cbn in V.
  destruct (write_all_run [(NVM_TEST_PROGRESS_INDEX, v)] s ok) as (s' & E & K & IN & OUT).
  - apply NoDup_singleton.
  - apply Forall_singleton. cbn. lia.
  - exists s'. split; [done|]. split; [done|]. split; [|apply IN; by apply list_elem_of_singleton].
    intros j N. apply OUT. cbn. by rewrite list_elem_of_singleton.
Qed.

Lemma host_run (f : gstate → gstate) (s : state) :
  fw_ok s → length (mem_track (f (h_gs (f_host s)))) = VAL_HOST_MAX_REALMS →
  ∃ s', on_f_host (tracker (modify f)) s = Ok tt s' ∧ keeps s s' ∧ same_nvm s s' ∧
    h_gs (f_host s') = f (h_gs (f_host s)).
Proof.
  intros [A1 A2 A3 A4 A5] E. eexists. split; [reflexivity|]. split; [|done]. split; [by constructor|done].
Qed.

Lemma reset_run (s : state) :
  fw_ok s → ∃ s', on_f_host (tracker val_host_reset_mem_tack) s = Ok tt s' ∧ keeps s s' ∧ same_nvm s s'.
Proof.
  intros ok. pose proof (fok_slots s ok) as N.
  assert (val_host_reset_mem_tack (h_gs (f_host s)) =
    Ok tt (set_mem_track (reset_slot <$> mem_track (h_gs (f_host s))) (h_gs (f_host s)))) as E.
  { unfold val_host_reset_mem_tack. rewrite reset_from_spec by (by rewrite N). by rewrite drop_0. }
  destruct (host_run (set_mem_track (reset_slot <$> mem_track (h_gs (f_host s)))) s ok) as (s' & E' & K & S & _).
  { cbn. by rewrite length_fmap. }
  exists s'. split; [|done]. rewrite <- E'. unfold on_f_host, tracker, zoom, modify. by rewrite E.
Qed.

Lemma init_run (num : Z) e (s : state) :
  fw_ok s → list_ok → 0 ≤ num < 2 ^ 32 → test_list !! Z.to_nat num = Some e →
  ∃ s', val_host_test_init base test_list num s = Ok tt s' ∧ keeps s s' ∧ nvm_kept s s' ∧
    nvm NVM_TEST_PROGRESS_INDEX s' = TEST_START.
Proof.
  intros ok LO N E. unfold val_host_test_init.
  destruct (common_run (val_set_status RESULT_START_INVALID) s ok) as (s1 & E1 & K1 & S1).
  { intros j. apply law_status. }
  rewrite (bind_step _ _ _ _ _ E1).
  destruct (announce_ok s1 num (Z.to_nat num) e (proj1 K1) LO N E) as (m1 & m2 & A1 & A2 & ok2).
  rewrite (bind_step _ _ _ _ _ (on_f_mem_run _ _ _ _ A1)), (bind_step _ _ _ _ _ (entry_run num e _ (proj1 N) E)).
  rewrite (bind_step _ _ _ _ _ (on_f_mem_run (val_set_curr_test_name base (test_name_at e)) (mk_fw _ _ m1 _ _) _ _ A2)).
  cbn [f_host f_common f_mem f_skip_logs f_ran] in *. set (s2 := mk_fw _ _ m2 _ _) in *.
  rewrite (bind_step _ _ _ _ _ (line_run (Z.to_nat num) e s2 LO E)).
  destruct (progress_run TEST_START s2 ok2) as (s3 & E3 & K3 & N3 & P3); [apply elem_of_cons; by left|].
  rewrite (bind_step _ _ _ _ _ E3). cbn iota.
  destruct (law_enable (f_common s3)) as (y & EY & KY).
  assert (on_common val_watchdog_enable s3 = Ok 0 (mk_fw (f_host s3) y (f_mem s3) (f_skip_logs s3) (f_ran s3))) as E4
    by (unfold on_common; by rewrite EY).
  rewrite (bind_step _ _ _ _ _ E4). change (truthy 0) with false. cbn iota. set (s4 := mk_fw _ y _ _ _).
  assert (fw_ok s4) as ok4 by (apply fw_ok_common, K3).
  destruct (reset_run s4 ok4) as (s5 & E5 & K5 & S5). rewrite (bind_step _ _ _ _ _ E5).
  destruct (host_run (λ g, set_alloc (val_host_mem_alloc_init (g_alloc g)) g) s5 (proj1 K5)) as (s6 & E6 & K6 & S6 & _).
  { cbn. exact (fok_slots s5 (proj1 K5)). }
  exists s6. split; [done|]. split; [split; [apply K6|]|].
  { rewrite (proj2 K6), (proj2 K5). change (f_ran s4) with (f_ran s3). rewrite (proj2 K3). apply K1. }
  assert (∀ j, nvm j s6 = nvm j s3) as NV by (intros j; rewrite (S6 j), (S5 j); apply KY).
  split; [|by rewrite NV]. intros j D. rewrite NV, N3 by done. apply S1.
Qed.

Lemma exit_run (s : state) :
  fw_ok s → (TEST_COMBINE = true →
    run_to val_host_postamble (f_host s) (λ _ h, length (mem_track (h_gs h)) = VAL_HOST_MAX_REALMS)) →
  ∃ s', val_host_test_exit s = Ok tt s' ∧ keeps s s' ∧ nvm_kept s s'.
Proof.
  intros ok PO. unfold val_host_test_exit.
  assert (∃ s1, (if TEST_COMBINE then
     let* r := on_f_host val_host_postamble in
     if truthy r then common (val_set_status RESULT_FAIL_ERROR) else ret tt
   else ret tt) s = Ok tt s1 ∧ keeps s s1 ∧ same_nvm s s1) as (s1 & E1 & K1 & S1).
  { destruct TEST_COMBINE; [|by exists s]. specialize (PO eq_refl).
    apply run_to_Ok in PO as (v & h & EP & HP).
    set (s0 := mk_fw h (f_common s) (f_mem s) (f_skip_logs s) (f_ran s)).
    assert (on_f_host val_host_postamble s = Ok v s0) as E0 by (unfold on_f_host, zoom; by rewrite EP).
    assert (fw_ok s0) as ok0 by (destruct ok; by constructor). rewrite (bind_step _ _ _ _ _ E0).
    destruct (truthy v); [|by exists s0].
    destruct (common_run (val_set_status RESULT_FAIL_ERROR) s0 ok0) as (s1 & E1 & K1 & S1);
      [intros j; apply law_status|]. by exists s1. }
  rewrite (bind_step _ _ _ _ _ E1). destruct (law_disable (f_common s1)) as (y & EY & KY).
  set (s2 := mk_fw (f_host s1) y (f_mem s1) (f_skip_logs s1) (f_ran s1)).
  assert (on_common val_watchdog_disable s1 = Ok 0 s2) as E2 by (unfold on_common; by rewrite EY).
  rewrite (bind_step _ _ _ _ _ E2). change (truthy 0) with false. cbn iota.
  destruct (progress_run TEST_END s2) as (s3 & E3 & K3 & N3 & _).
  { apply fw_ok_common, K1. } { rewrite !elem_of_cons. by right; left. }
  rewrite (bind_step _ _ _ _ _ E3). exists s3. split; [done|]. split.
  - apply (keeps_trans s s1); [done|]. split; [apply K3|]. by rewrite (proj2 K3).
  - intros j D. rewrite N3 by done. unfold nvm, s2. cbn. rewrite KY. apply S1.
Qed.

(** ** Counting *)

Definition counted (s : state) : Z :=
  nvm NVM_TOTAL_PASS_INDEX s + nvm NVM_TOTAL_FAIL_INDEX s + nvm NVM_TOTAL_SKIP_INDEX s + nvm NVM_TOTAL_ERROR_INDEX s.

Lemma counted_kept (s s' : state) : nvm_kept s s' → counted s' = counted s.
Proof. intros K. unfold counted. by rewrite !K. Qed.

Lemma nvm_range i (s : state) : 0 ≤ nvm i s < 2 ^ 32.
Proof. apply law_cell. Qed.

Lemma totals_nodup : NoDup totals.
Proof. by apply (bool_decide_unpack _). Qed.

Lemma count_run (s : state) :
  fw_ok s → counted s + 1 < 2 ^ 32 →
  ∃ r s', count_result s = Ok (Some r) s' ∧ keeps s s' ∧ counted s' = counted s + 1 ∧
    report_total r = counted s' ∧ nvm NVM_END_TEST_NUM_INDEX s' = nvm NVM_END_TEST_NUM_INDEX s.
Proof.
  intros ok LT. unfold count_result.
  destruct (val_report_status (f_common s)) as [v y] eqn:EV.
  set (s1 := mk_fw (f_host s) y (f_mem s) (f_skip_logs s) (f_ran s)).
  assert (on_common val_report_status s = Ok v s1) as E1 by (unfold on_common; by rewrite EV).
  assert (∀ j, nvm j s1 = nvm j s) as S1.
  { intros j. unfold nvm, s1. cbn. pose proof (law_report j (f_common s)) as LR. by rewrite EV in LR. }
  rewrite (bind_step _ _ _ _ _ E1), (bind_step _ _ _ _ _ (read_all_run totals s1)). unfold totals. cbn [map]. rewrite !S1.
  set (old := mk_report _ _ _ _).
  assert (report_ok old ∧ report_total old = counted s) as [OK TO].
  { unfold report_ok, report_total, old, counted. cbn.
    pose proof (nvm_range NVM_TOTAL_PASS_INDEX s). pose proof (nvm_range NVM_TOTAL_FAIL_INDEX s).
    pose proof (nvm_range NVM_TOTAL_SKIP_INDEX s). pose proof (nvm_range NVM_TOTAL_ERROR_INDEX s).
    unfold counted in LT. lia. }
  destruct (law_count v old OK) as [OK' TO']; [lia|].
  set (r := val_update_regression_report v old) in *. clearbody r.
  destruct (write_all_run [(NVM_TOTAL_PASS_INDEX, total_pass r); (NVM_TOTAL_FAIL_INDEX, total_fail r);
     (NVM_TOTAL_SKIP_INDEX, total_skip r); (NVM_TOTAL_ERROR_INDEX, total_error r)] s1) as (s2 & E2 & K2 & IN & OUT).
  { by apply fw_ok_common. } { exact totals_nodup. }
  { unfold report_ok, report_total in OK'. repeat (apply Forall_cons; split; [cbn; lia|]). by apply Forall_nil. }
  rewrite (bind_step _ _ _ _ _ E2). exists r, s2. split; [done|]. split; [done|].
  assert (report_total r = counted s2) as RT.
  { unfold report_total, counted. rewrite (IN _ (total_pass r)), (IN _ (total_fail r)), (IN _ (total_skip r)),
      (IN _ (total_error r)); [done|rewrite !elem_of_cons; tauto..]. }
  split; [lia|]. split; [done|]. rewrite OUT, S1; [done|]. apply (bool_decide_unpack _). reflexivity.
Qed.

(** ** The run of one test *)

Lemma run_test_run (num : Z) e fn (s : state) :
  fw_ok s → list_ok → 0 ≤ num < 2 ^ 32 → test_list !! Z.to_nat num = Some e → test_ok fn →
  ∃ reset s', run_test base test_list num fn s = Ok reset s' ∧ fw_ok s' ∧ f_ran s' = f_ran s ++ [num] ∧
    nvm_kept s s' ∧
    (reset = true → nvm NVM_TEST_PROGRESS_INDEX s' ∈ [TEST_START; TEST_END; TEST_FAIL; TEST_REBOOTING]).
Proof.
  intros ok LO N E T. unfold run_test.
  destruct (init_run num e s ok LO N E) as (s1 & E1 & K1 & N1 & P1). rewrite (bind_step _ _ _ _ _ E1).
  destruct (tag_ok s1 0xffffffffffffffff (proj1 K1)) as (m & EM & ok2).
  rewrite (bind_step _ _ _ _ _ (on_f_mem_run _ _ _ _ EM)).
  set (s3 := mk_fw (f_host s1) (f_common s1) m 1 (f_ran s1 ++ [num])).
  assert (fw_ok s3) as ok3 by (destruct ok2; by constructor).
  rewrite (bind_step (set_skip_logs 1) _ (mk_fw (f_host s1) (f_common s1) m (f_skip_logs s1) (f_ran s1)) tt
    (mk_fw (f_host s1) (f_common s1) m 1 (f_ran s1)) eq_refl).
  rewrite (bind_step (note_run num) _ (mk_fw (f_host s1) (f_common s1) m 1 (f_ran s1)) tt s3 eq_refl).
  destruct (proj1 (run_to_Ok _ _ _) (T s3 ok3)) as (reset & s4 & E4 & ok4 & R4 & K4 & P4 & PO).
  rewrite (bind_step _ _ _ _ _ E4).
  assert (nvm_kept s s4) as N4 by (apply (nvm_kept_trans s s1); [done|exact K4]).
  assert (f_ran s4 = f_ran s ++ [num]) as F4 by (rewrite R4; cbn; by rewrite (proj2 K1)).
  destruct reset.
  - exists true, s4. split; [done|]. split; [done|]. split; [done|]. split; [done|]. intros _.
    rewrite !elem_of_cons. destruct P4 as [-> | ->]; [|tauto].
    left. change (nvm NVM_TEST_PROGRESS_INDEX s3) with (nvm NVM_TEST_PROGRESS_INDEX s1). done.
  - set (s5 := mk_fw (f_host s4) (f_common s4) (f_mem s4) 0 (f_ran s4)).
    rewrite (bind_step (set_skip_logs 0) _ s4 tt s5 eq_refl).
    destruct (exit_run s5) as (s6 & E6 & K6 & N6); [destruct ok4; by constructor|by apply PO|].
    rewrite (bind_step _ _ _ _ _ E6). exists false, s6. split; [done|]. split; [apply K6|].
    split; [by rewrite (proj2 K6)|]. split; [|done]. intros j D. rewrite N6 by done. by apply N4.
Qed.

(** ** The tests of a range *)

(** The tests that run from [i] on, in at most [n] turns: those before the first empty
    entry whose suite is not skipped. *)
Fixpoint planned (planes mec da : bool) (n : nat) (i : Z) : list Z :=
  match n with
  | O => []
  | S n =>
      match test_list !! Z.to_nat i with
      | Some e =>
          match host_fn e with
          | None => []
          | Some _ =>
              if skipped planes mec da e then planned planes mec da n (i + 1)
              else i :: planned planes mec da n (i + 1)
          end
      | None => []
      end
  end.

(** Turns of the loop from [i] to [last]. *)
Definition turns (last i : Z) : nat := Z.to_nat (last + 1 - i).

Definition tests_ok : Prop := ∀ i e fn, test_list !! i = Some e → host_fn e = Some fn → test_ok fn.

Lemma inside (i : Z) e :
  list_ok → 0 ≤ i ≤ total_tests test_list - 1 → test_list !! Z.to_nat i = Some e → host_fn e ≠ None →
  i + 1 ≤ total_tests test_list - 1.
Proof.
  intros LO I E N. destruct (lok_last LO) as (l & EL & NL). destruct (lok_size LO) as [S1 S2].
  unfold total_tests in *.
  destruct (decide (i = Z.of_nat (length test_list) - 1)) as [->|]; [|lia].
  replace (Z.to_nat (Z.of_nat (length test_list) - 1)) with (length test_list - 1)%nat in E by lia.
  by rewrite EL in E; simplify_eq.
Qed.

(** Where a dispatch that began at [i] with the state [s] may end: with the report, all
    tests planned having run and been counted, or at a reset by one of them. *)
Definition ends (planes mec da : bool) (last i : Z) (s : state) (r : dispatch_end) (s' : state) : Prop :=
  fw_ok s' ∧ nvm NVM_END_TEST_NUM_INDEX s' = nvm NVM_END_TEST_NUM_INDEX s ∧
  ((∃ report, r = Completed report ∧ report_total report = counted s' ∧
      f_ran s' = f_ran s ++ planned planes mec da (turns last i) i ∧
      counted s' = counted s + Z.of_nat (length (planned planes mec da (turns last i) i))) ∨
   (r = Restarted ∧ ∃ begun k,
      planned planes mec da (turns last i) i = begun ++ planned planes mec da (turns last k) k ∧
      planned planes mec da (turns last k) k = k :: planned planes mec da (turns last (k + 1)) (k + 1) ∧
      f_ran s' = f_ran s ++ begun ++ [k] ∧ counted s' = counted s + Z.of_nat (length begun) ∧
      nvm NVM_CUR_TEST_NUM_INDEX s' = k ∧ i ≤ k ≤ total_tests test_list - 1 ∧
      nvm NVM_TEST_PROGRESS_INDEX s' ∈ [TEST_START; TEST_END; TEST_FAIL; TEST_REBOOTING])).

Lemma turns_step (last i : Z) : i ≤ last → turns last i = S (turns last (i + 1)).
Proof. unfold turns. lia. Qed.

Lemma ends_skip (planes mec da : bool) (last i : Z) (s s' : state) r :
  planned planes mec da (turns last i) i = planned planes mec da (turns last (i + 1)) (i + 1) →
  ends planes mec da last (i + 1) s r s' → ends planes mec da last i s r s'.
Proof.
  intros P (ok & NE & D). unfold ends. rewrite P. split; [done|]. split; [done|].
  destruct D as [D|(-> & begun & k & D)]; [by left|right]. split; [done|]. exists begun, k.
  destruct D as (D1 & D2 & D3 & D4 & D5 & D6 & D7). split_and!; done || lia.
Qed.

Lemma ends_cons (planes mec da : bool) (last i : Z) (s s2 s' : state) r :
  planned planes mec da (turns last i) i = i :: planned planes mec da (turns last (i + 1)) (i + 1) →
  f_ran s2 = f_ran s ++ [i] → counted s2 = counted s + 1 →
  nvm NVM_END_TEST_NUM_INDEX s2 = nvm NVM_END_TEST_NUM_INDEX s →
  ends planes mec da last (i + 1) s2 r s' → ends planes mec da last i s r s'.
Proof.
  intros P FR CO NE (ok & NE' & D). unfold ends. rewrite P. split; [done|]. split; [congruence|].
  rewrite FR, CO in D. destruct D as [(rep & -> & D1 & D2 & D3)|(-> & begun & k & D1 & D2 & D3 & D4 & D5 & D6 & D7)].
  - left. exists rep. rewrite D2, D3, <- app_assoc. cbn [app length]. split_and!; done || lia.
  - right. split; [done|]. exists (i :: begun), k. rewrite D1, D3, D4, <- app_assoc. cbn [app length].
    split_and!; done || lia.
Qed.

Lemma finish_run (planes mec da : bool) (last i : Z) report (s : state) :
  fw_ok s → report_total report = counted s → planned planes mec da (turns last i) i = [] →
  run_to (common (val_print_regression_report report) ;; ret (Completed report)) s (ends planes mec da last i s).
Proof.
  intros ok RT PE. destruct (common_run (val_print_regression_report report) s ok) as (s2 & E2 & K2 & S2);
    [intros j; apply law_print|]. eapply run_to_step; [exact E2|]. apply run_to_ret.
  split; [apply K2|]. split; [apply S2|]. left. exists report. rewrite PE, app_nil_r.
  assert (counted s2 = counted s) as CS by (unfold counted; by rewrite !S2).
  split; [done|]. split; [by rewrite CS|]. split; [apply K2|]. rewrite CS. cbn. lia.
Qed.

Lemma cur_run (v : Z) (s : state) :
  fw_ok s → 0 ≤ v < 2 ^ 32 →
  ∃ s', nvm_write_all [(NVM_CUR_TEST_NUM_INDEX, v)] s = Ok false s' ∧ keeps s s' ∧
    nvm NVM_CUR_TEST_NUM_INDEX s' = v ∧ ∀ j, j ≠ NVM_CUR_TEST_NUM_INDEX → nvm j s' = nvm j s.
Proof.
  intros ok V. destruct (write_all_run [(NVM_CUR_TEST_NUM_INDEX, v)] s ok) as (s' & E & K & IN & OUT);
    [apply NoDup_singleton|by apply Forall_singleton|].
  exists s'. split; [done|]. split; [done|]. split; [apply IN; by apply list_elem_of_singleton|].
  intros j N. apply OUT. cbn. by rewrite list_elem_of_singleton.
Qed.

Lemma tests_loop_run (planes mec da : bool) (last progress : Z) (fuel : nat) (i : Z) report (s : state) :
  list_ok → tests_ok → (turns last i < fuel)%nat → 0 ≤ i ≤ total_tests test_list - 1 → fw_ok s →
  report_total report = counted s →
  counted s + Z.of_nat (length (planned planes mec da (turns last i) i)) < 2 ^ 32 →
  run_to (dispatch_loop base test_list fuel i last planes mec da false progress report) s
    (ends planes mec da last i s).
Proof.
  intros LO TO. revert i report s. induction fuel as [|fuel IH]; intros i report s F I ok RT CT; [lia|].
  cbn [dispatch_loop]. destruct (Z.leb_spec i last) as [IL|IL].
  2: { apply finish_run; [done|done|]. unfold turns. by replace (Z.to_nat (last + 1 - i)) with 0%nat by lia. }
  destruct (lok_size LO) as [LS1 LS2].
  destruct (lookup_lt_is_Some_2 test_list (Z.to_nat i)) as [e E]; [unfold total_tests in *; lia|].
  eapply run_to_step; [exact (entry_run i e s (proj1 I) E)|].
  assert (planned planes mec da (turns last i) i = match host_fn e with
    | None => [] | Some _ => if skipped planes mec da e then planned planes mec da (turns last (i + 1)) (i + 1)
                             else i :: planned planes mec da (turns last (i + 1)) (i + 1) end) as PE.
  { rewrite (turns_step last i IL). cbn [planned]. by rewrite E. }
  destruct (host_fn e) as [fn|] eqn:HF; [|by apply finish_run].
  pose proof (inside i e LO I E) as IN. rewrite HF in IN. specialize (IN ltac:(done)).
  assert (u32 (i + 1) = i + 1) as U by (apply Z.mod_small; lia).
  rewrite (turns_step last i IL) in F.
  destruct (skipped planes mec da e) eqn:SK.
  { rewrite U. eapply run_to_mono; [apply (IH (i + 1)); [lia|lia|done|done|by rewrite <- PE]|].
    intros r s' D. by apply ends_skip. }
  destruct (cur_run i s ok) as (s1 & E1 & K1 & C1 & O1); [lia|].
  eapply run_to_step; [exact E1|]. cbn iota.
  destruct (run_test_run i e fn s1 (proj1 K1) LO ltac:(lia) E (TO _ _ _ E HF))
    as (reset & s2 & E2 & ok2 & R2 & N2 & P2).
  eapply run_to_step; [exact E2|].
  assert (counted s2 = counted s) as CS.
  { rewrite (counted_kept s1 s2 N2). unfold counted. by rewrite !O1. }
  assert (f_ran s2 = f_ran s ++ [i]) as FR by (rewrite R2; by rewrite (proj2 K1)).
  assert (nvm NVM_END_TEST_NUM_INDEX s2 = nvm NVM_END_TEST_NUM_INDEX s) as NE by (by rewrite N2, O1).
  destruct reset.
  - apply run_to_ret. split; [done|]. split; [done|]. right. split; [done|]. exists [], i.
    cbn [app length]. rewrite CS.
    split_and!; [done|done|done|lia|by rewrite N2|lia|lia|by apply P2].
  - rewrite PE in CT. cbn [length] in CT.
    destruct (count_run s2 ok2) as (rep & s3 & E3 & K3 & C3 & T3 & NE3); [lia|].
    eapply run_to_step; [exact E3|]. cbn iota. rewrite U.
    eapply run_to_mono; [apply (IH (i + 1) rep s3); [lia|lia|apply K3|done|lia]|].
    intros r s' D. eapply (ends_cons _ _ _ _ i s s3); [done| | | |exact D]; [by rewrite (proj2 K3)|lia|congruence].
Qed.

(** After a reset the test that was running is not run again: its result is counted and
    the dispatch goes on behind it. *)
Lemma loop_resume (planes mec da : bool) (last progress : Z) (fuel : nat) (k : Z) report (s : state) :
  list_ok → tests_ok → (turns last k < fuel)%nat → 0 ≤ k ≤ total_tests test_list - 1 → fw_ok s →
  planned planes mec da (turns last k) k = k :: planned planes mec da (turns last (k + 1)) (k + 1) →
  counted s + 1 + Z.of_nat (length (planned planes mec da (turns last (k + 1)) (k + 1))) < 2 ^ 32 →
  run_to (dispatch_loop base test_list fuel k last planes mec da true progress report) s
    (λ r s', ∃ s1, fw_ok s1 ∧ f_ran s1 = f_ran s ∧ counted s1 = counted s + 1 ∧
       nvm NVM_END_TEST_NUM_INDEX s1 = nvm NVM_END_TEST_NUM_INDEX s ∧
       ends planes mec da last (k + 1) s1 r s').
Proof.
  intros LO TO F I ok PE CT. destruct fuel as [|fuel]; [lia|]. cbn [dispatch_loop].
  assert (k ≤ last) as IL.
  { unfold turns in PE. destruct (decide (k ≤ last)); [done|].
    by replace (Z.to_nat (last + 1 - k)) with 0%nat in PE by lia. }
  rewrite (proj2 (Z.leb_le k last) IL). rewrite (turns_step last k IL) in F, PE. cbn [planned] in PE.
  destruct (test_list !! Z.to_nat k) as [e|] eqn:E; [|done].
  destruct (host_fn e) as [fn|] eqn:HF; [|done].
  pose proof (inside k e LO I E) as IN. rewrite HF in IN. specialize (IN ltac:(done)).
  destruct (lok_size LO) as [LS1 LS2].
  eapply run_to_step; [exact (entry_run k e s (proj1 I) E)|]. rewrite HF.
  destruct (skipped planes mec da e).
  { exfalso. assert (∀ n j, k < j → k ∉ planned planes mec da n j) as NI.
    { induction n as [|n IHn]; intros j J; cbn [planned]; [by intros ?%not_elem_of_nil|].
      destruct (test_list !! Z.to_nat j) as [e'|]; [|by intros ?%not_elem_of_nil].
      destruct (host_fn e'); [|by intros ?%not_elem_of_nil].
      destruct (skipped _ _ _ e'); [apply IHn; lia|]. apply not_elem_of_cons. split; [lia|apply IHn; lia]. }
    eapply (NI _ (k + 1)); [|rewrite PE; apply elem_of_cons; by left]. lia. }
  assert (u32 (k + 1) = k + 1) as U by (apply Z.mod_small; lia).
  destruct (common_run (val_handle_reboot_result progress) s ok) as (s0 & E0 & K0 & S0); [intros j; apply law_handle|].
  eapply run_to_step; [exact E0|]. assert (counted s0 = counted s) as C0 by (unfold counted; by rewrite !S0).
  destruct (count_run s0 (proj1 K0)) as (rep & s1 & E1 & K1 & C1 & T1 & NE1); [lia|].
  eapply run_to_step; [exact E1|]. cbn iota. rewrite U.
  eapply run_to_mono; [apply (tests_loop_run planes mec da last progress fuel (k + 1) rep s1); [done|done|lia|lia|apply K1|done|lia]|].
  intros r s' D. exists s1. split; [apply K1|]. split; [by rewrite (proj2 K1), (proj2 K0)|].
  split; [lia|]. split; [by rewrite NE1, S0|done].
Qed.

(** ** The range *)

(** The last test from 1 on whose name is a prefix of [name], to the eyes of val_strcmp;
    0 when there is none. *)
Definition named_like (name : list Z) (i : nat) : bool :=
  match test_list !! i with Some e => val_strcmp (test_name e) name =? 0 | None => false end.
Definition last_named (name : list Z) : Z :=
  Z.of_nat (default 0%nat (find (named_like name) (rev (seq 1 (length test_list - 2))))).

Definition tests_of_build : Z * Z :=
  match SUITE_TEST_RANGE with
  | Some (a, b) => (Z.min (last_named a) (last_named b), Z.max (last_named a) (last_named b))
  | None => (1, total_tests test_list)
  end.

Lemma find_snoc {A} (f : A → bool) (l : list A) (x : A) :
  find f (l ++ [x]) = match find f l with Some y => Some y | None => if f x then Some x else None end.
Proof. induction l as [|y l IH]; cbn; [done|]. by destruct (f y). Qed.

Lemma find_test_run (name : list Z) (fuel num : nat) (found : Z) (s : state) :
  list_ok → (length test_list ≤ fuel + num)%nat →
  find_test test_list fuel (Z.of_nat num) name found s =
    Ok (from_option Z.of_nat found (find (named_like name) (rev (seq num (length test_list - 1 - num))))) s.
Proof.
  intros LO. destruct (lok_size LO) as [S1 S2]. unfold total_tests in S2.
  assert (u32 (total_tests test_list - 1) = Z.of_nat (length test_list) - 1) as U by (apply Z.mod_small; unfold total_tests; lia).
  revert num found. induction fuel as [|fuel IH]; intros num found F; cbn [find_test].
  { by replace (length test_list - 1 - num)%nat with 0%nat by lia. }
  rewrite U. destruct (Z.ltb_spec (Z.of_nat num) (Z.of_nat (length test_list) - 1)) as [LT|GE].
  2: { by replace (length test_list - 1 - num)%nat with 0%nat by lia. }
  destruct (lookup_lt_is_Some_2 test_list num) as [e E]; [lia|].
  rewrite (bind_step _ _ _ _ _ (entry_run (Z.of_nat num) e s ltac:(lia) ltac:(by rewrite Nat2Z.id))).
  replace (Z.of_nat num + 1) with (Z.of_nat (S num)) by lia. rewrite IH by lia. f_equal.
  replace (length test_list - 1 - num)%nat with (S (length test_list - 1 - S num)) by lia.
  cbn [seq rev]. rewrite find_snoc. unfold named_like at 3. rewrite E.
  destruct (find _ _); [done|]. by destruct (_ =? 0).
Qed.

Lemma last_named_range (name : list Z) : list_ok → 0 ≤ last_named name ≤ total_tests test_list - 2.
Proof.
  intros LO. destruct (lok_size LO) as [S1 _]. unfold last_named, total_tests.
  destruct (find _ _) as [i|] eqn:E; cbn; [|lia].
  apply find_some in E as [I _]. apply in_rev, in_seq in I. lia.
Qed.

Lemma range_run (info : test_info_t) (s : state) :
  list_ok → test_num info = 1 → test_range test_list info s = Ok tests_of_build s.
Proof.
  intros LO N. destruct (lok_size LO) as [S1 S2]. unfold test_range, tests_of_build.
  destruct SUITE_TEST_RANGE as [[a b]|]; rewrite N.
  - change 1 with (Z.of_nat 1) at 1 2.
    assert (∀ name, find_test test_list (length test_list) (Z.of_nat 1) name 0 s = Ok (last_named name) s) as FT.
    { intros name. rewrite find_test_run by (done || lia). do 2 f_equal. unfold last_named.
      replace (length test_list - 1 - 1)%nat with (length test_list - 2)%nat by lia. by destruct (find _ _). }
    rewrite (bind_step _ _ _ _ _ (FT a)), (bind_step _ _ _ _ _ (FT b)). by rewrite law_sort.
  - unfold ret. do 2 f_equal. apply Z.mod_small. unfold total_tests in *. lia.
Qed.

Lemma named_like_spec (name : list Z) (i : nat) e :
  list_ok → cstring name → test_list !! i = Some e → named_like name i = true ↔ test_name e `prefix_of` name.
Proof.
  intros LO CN E. destruct (lok_line LO i e E) as (_ & CE & _). unfold named_like. rewrite E, Z.eqb_eq.
  apply (val_strcmp_prefix _ _ CE CN).
Qed.

Lemma find_rev_last (f : nat → bool) (n num : nat) :
  let k := default 0%nat (find f (rev (seq num n))) in
  (k = 0%nat ∨ (f k = true ∧ (num ≤ k < num + n)%nat)) ∧ ∀ m, (k < m)%nat → (num ≤ m < num + n)%nat → f m = false.
Proof.
  induction n as [|n IH]; cbn zeta in *; [cbn; split; [by left|lia]|].
  rewrite seq_S, rev_app_distr. cbn [rev app find]. destruct (f (num + n)%nat) eqn:F; cbn [default from_option id].
  - split; [right; split; [done|lia]|lia].
  - destruct IH as [I1 I2]. split; [destruct I1 as [->|[? ?]]; [by left|right; split; [done|lia]]|].
    intros m M1 M2. destruct (decide (m = num + n)%nat) as [->|]; [done|]. apply I2; lia.
Qed.

Lemma last_named_spec (name : list Z) :
  list_ok → cstring name → let k := Z.to_nat (last_named name) in
  (k = 0%nat ∨ ∃ e, test_list !! k = Some e ∧ test_name e `prefix_of` name) ∧
  ∀ m e, (k < m < length test_list - 1)%nat → test_list !! m = Some e → ¬ test_name e `prefix_of` name.
Proof.
  intros LO CN. unfold last_named. rewrite Nat2Z.id.
  destruct (find_rev_last (named_like name) (length test_list - 2) 1) as [F1 F2]. set (k := default _ _) in *.
  cbn zeta. clearbody k. split.
  - destruct F1 as [->|[F1 K]]; [by left|right]. destruct (lookup_lt_is_Some_2 test_list k) as [e E]; [lia|].
    exists e. split; [done|]. by apply (named_like_spec name k e LO CN E).
  - intros m e M E P. apply (named_like_spec name m e LO CN E) in P. rewrite F2 in P; [done|lia..].
Qed.

Lemma range_bounds : list_ok →
  0 ≤ tests_of_build.1 ≤ total_tests test_list - 1 ∧ 0 ≤ tests_of_build.2 < 2 ^ 32.
Proof.
  intros LO. destruct (lok_size LO) as [S1 S2]. unfold tests_of_build.
  destruct SUITE_TEST_RANGE as [[a b]|]; cbn; [|unfold total_tests in *; lia].
  pose proof (last_named_range a LO). pose proof (last_named_range b LO). lia.
Qed.

(** ** One boot *)

(** The feature registers of the RMM do not change. *)
Definition features_fixed (feat : Z → Z) : Prop :=
  ∀ w m idx, x1 (smc w m (mk_smc RMI_FEATURES idx 0 0 0 0 0 0 0 0 0)).2 = feat idx.

Section Campaign.
Context (feat : Z → Z) (ff : features_fixed feat).

Definition enabled (suite : string) : bool := RMM_V_1_1 && (suite_is "all" || suite_is suite).
Definition has_planes : bool := enabled "planes" && (0 <? VAL_EXTRACT_BITS (feat 0) 45 48).
Definition has_mec : bool := enabled "mec" && (0 <? feat 1).
Definition has_da : bool := enabled "device_assignment" && (VAL_EXTRACT_BITS (feat 0) 42 42 =? 1).

(** The tests the build and the RMM select, from [i] on up to [last]. *)
Definition plan (last i : Z) : list Z := planned has_planes has_mec has_da (turns last i) i.

Lemma features_run (idx : Z) (h : host W) :
  ∃ st h', val_host_rmi_features idx h = Ok (st, feat idx) h' ∧ h_gs h' = h_gs h.
Proof.
  pose proof (ff (h_world h) (h_mem h) idx) as E. unfold val_host_rmi_features, val_smc_call, bind.
  destruct (smc _ _ _) as [[w m] r]. cbn in E. exists (x0 r). eexists. rewrite <- E. done.
Qed.

Lemma feature_run (suite : string) (sup : M (host W) bool) (b : bool) (s : state) :
  (∀ h, ∃ h', sup h = Ok b h' ∧ h_gs h' = h_gs h) → fw_ok s →
  ∃ s', feature suite sup s = Ok (enabled suite && b) s' ∧ keeps s s' ∧ same_nvm s s'.
Proof.
  intros SU ok. unfold feature. change (RMM_V_1_1 && _) with (enabled suite).
  destruct (enabled suite); cbn [andb]; [|by exists s].
  destruct (SU (f_host s)) as (h' & E & G).
  exists (mk_fw h' (f_common s) (f_mem s) (f_skip_logs s) (f_ran s)). unfold on_f_host, zoom. rewrite E.
  split; [done|]. split; [|done]. split; [|done]. destruct ok as [A1 A2 A3 A4 A5]. constructor; try done. cbn. by rewrite G.
Qed.

Lemma tests_run (info : test_info_t) (reboot_run : bool) (first last : Z) (s : state) (P : dispatch_end → state → Prop) :
  fw_ok s →
  (∀ s', keeps s s' → same_nvm s s' →
     run_to (dispatch_loop base test_list (range_fuel first last) first last has_planes has_mec has_da
       reboot_run (test_progress info) (mk_report 0 0 0 0)) s' P) →
  run_to (dispatch_tests base test_list info reboot_run (first, last)) s P.
Proof.
  intros ok K. unfold dispatch_tests. cbn [fst snd].
  destruct (feature_run "planes" val_host_rmm_supports_planes (0 <? VAL_EXTRACT_BITS (feat 0) 45 48) s)
    as (s1 & E1 & K1 & S1); [|done|].
  { intros h. destruct (features_run 0 h) as (st & h' & E & G). exists h'. split; [|done].
    unfold val_host_rmm_supports_planes. by rewrite (bind_step _ _ _ _ _ E). }
  eapply run_to_step; [exact E1|].
  destruct (feature_run "mec" val_host_rmm_supports_mec (0 <? feat 1) s1) as (s2 & E2 & K2 & S2); [|apply K1|].
  { intros h. destruct (features_run 1 h) as (st & h' & E & G). exists h'. split; [|done].
    unfold val_host_rmm_supports_mec. by rewrite (bind_step _ _ _ _ _ E). }
  eapply run_to_step; [exact E2|].
  destruct (feature_run "device_assignment" val_host_rmm_supports_da (VAL_EXTRACT_BITS (feat 0) 42 42 =? 1) s2)
    as (s3 & E3 & K3 & S3); [|apply K2|].
  { intros h. destruct (features_run 0 h) as (st & h' & E & G). exists h'. split; [|done].
    unfold val_host_rmm_supports_da. by rewrite (bind_step _ _ _ _ _ E). }
  eapply run_to_step; [exact E3|]. apply K.
  - eapply keeps_trans; [exact K1|]. eapply keeps_trans; [exact K2|done].
  - intros j. by rewrite S3, S2, S1.
Qed.

Lemma pattern_u8 : map u8 [TEST_START; TEST_END; TEST_FAIL; TEST_REBOOTING] =
  [TEST_START; TEST_END; TEST_FAIL; TEST_REBOOTING].
Proof.
  pose proof law_progress as F. rewrite !Forall_cons in F. destruct F as (F1 & F2 & F3 & F4 & _).
  cbn [map]. unfold u8. by rewrite !Z.mod_small.
Qed.

(** After a reset: the words of the last run come back. *)
Lemma info_resume (s : state) :
  fw_ok s → nvm NVM_TEST_PROGRESS_INDEX s ∈ [TEST_START; TEST_END; TEST_FAIL; TEST_REBOOTING] →
  ∃ s', val_host_get_last_run_test_info s = Ok (Some (mk_info (nvm NVM_CUR_TEST_NUM_INDEX s)
      (nvm NVM_END_TEST_NUM_INDEX s) (nvm NVM_TEST_PROGRESS_INDEX s))) s' ∧ keeps s s' ∧ same_nvm s s'.
Proof.
  intros ok I. unfold val_host_get_last_run_test_info. rewrite (bind_step _ _ _ _ _ (read_all_run _ s)), pattern_u8.
  cbn [map]. set (info := mk_info _ _ _).
  destruct (common_run (val_log_test_info info) s ok) as (s1 & E1 & K1 & S1); [intros j; apply law_log|].
  rewrite (bind_step _ _ _ _ _ E1). cbn zeta.
  apply law_reboot in I. unfold truthy. destruct (Z.eqb_spec (is_reboot_run (nvm NVM_TEST_PROGRESS_INDEX s)
    [TEST_START; TEST_END; TEST_FAIL; TEST_REBOOTING]) 0) as [|N]; [done|]. cbn [negb].
  destruct (common_run (val_log_final_test_status info (mk_report 0 0 0 0)) s1 (proj1 K1)) as (s2 & E2 & K2 & S2);
    [intros j; apply law_log_status|].
  rewrite (bind_step _ _ _ _ _ E2). exists s2. split; [done|]. split; [by eapply keeps_trans|].
  intros j. by rewrite S2, S1.
Qed.

(** At power on: the words are set, the totals cleared. *)
Lemma info_fresh (s : state) :
  fw_ok s → nvm NVM_TEST_PROGRESS_INDEX s ∉ [TEST_START; TEST_END; TEST_FAIL; TEST_REBOOTING] →
  ∃ info s', val_host_get_last_run_test_info s = Ok (Some info) s' ∧
    test_num info = VAL_INVALID_TEST_NUM ∧ keeps s s' ∧ counted s' = 0.
Proof.
  intros ok I. unfold val_host_get_last_run_test_info. rewrite (bind_step _ _ _ _ _ (read_all_run _ s)), pattern_u8.
  cbn [map]. set (info := mk_info _ _ _).
  destruct (common_run (val_log_test_info info) s ok) as (s1 & E1 & K1 & S1); [intros j; apply law_log|].
  rewrite (bind_step _ _ _ _ _ E1). cbn zeta.
  assert (is_reboot_run (nvm NVM_TEST_PROGRESS_INDEX s) [TEST_START; TEST_END; TEST_FAIL; TEST_REBOOTING] = 0) as ->.
  { destruct (decide (is_reboot_run (nvm NVM_TEST_PROGRESS_INDEX s)
      [TEST_START; TEST_END; TEST_FAIL; TEST_REBOOTING] = 0)) as [|N]; [done|]. by apply law_reboot in N. }
  change (truthy 0) with false. cbn iota. set (t := val_reset_test_info_fields info).
  pose proof law_invalid as LI. pose proof (law_reset info) as LR. destruct (law_reset_range info) as [L1 L2].
  fold t in LR, L1, L2. clearbody t. cbn [total_pass total_fail total_skip total_error].
  destruct (write_all_run [(NVM_CUR_TEST_NUM_INDEX, test_num t); (NVM_END_TEST_NUM_INDEX, end_test_num t);
    (NVM_TEST_PROGRESS_INDEX, test_progress t); (NVM_TOTAL_PASS_INDEX, 0); (NVM_TOTAL_FAIL_INDEX, 0);
    (NVM_TOTAL_SKIP_INDEX, 0); (NVM_TOTAL_ERROR_INDEX, 0)] s1 (proj1 K1)) as (s2 & E2 & K2 & IN & _).
  { by apply (bool_decide_unpack _). }
  { repeat (apply Forall_cons; split; [cbn; lia|]). by apply Forall_nil. }
  rewrite (bind_step _ _ _ _ _ E2). cbn iota.
  destruct (common_run (val_log_final_test_status t (mk_report 0 0 0 0)) s2 (proj1 K2)) as (s3 & E3 & K3 & S3);
    [intros j; apply law_log_status|].
  rewrite (bind_step _ _ _ _ _ E3). exists t, s3. split; [done|]. split; [done|].
  split; [eapply keeps_trans; [exact K1|]; by eapply keeps_trans|].
  unfold counted. rewrite !S3, (IN NVM_TOTAL_PASS_INDEX 0), (IN NVM_TOTAL_FAIL_INDEX 0), (IN NVM_TOTAL_SKIP_INDEX 0),
    (IN NVM_TOTAL_ERROR_INDEX 0); [done|rewrite !elem_of_cons; tauto..].
Qed.

(** ** All boots *)

(** What a restart of the machine keeps: the non-volatile memory; everything else is as
    after loading the image. *)
Definition restarts (restart : state → state) : Prop :=
  ∀ s, fw_ok s → fw_ok (restart s) ∧ f_ran (restart s) = f_ran s ∧ same_nvm s (restart s).

Fixpoint boots (restart : state → state) (n : nat) : M state dispatch_end :=
  match n with
  | O => out_of_fuel
  | S n =>
      let* r := val_host_test_dispatch base test_list true in
      match r with
      | Restarted => modify restart ;; boots restart n
      | _ => ret r
      end
  end.

Definition all_done (ran : list Z) (total : Z) (r : dispatch_end) (s' : state) : Prop :=
  ∃ report, r = Completed report ∧ report_total report = total ∧ f_ran s' = ran ∧ counted s' = total.

(** A test [k] has reset the machine; [rest] are the tests behind it. *)
Definition pending (last k : Z) (s : state) : Prop :=
  fw_ok s ∧ nvm NVM_CUR_TEST_NUM_INDEX s = k ∧ nvm NVM_END_TEST_NUM_INDEX s = last ∧
  nvm NVM_TEST_PROGRESS_INDEX s ∈ [TEST_START; TEST_END; TEST_FAIL; TEST_REBOOTING] ∧
  0 ≤ k ≤ total_tests test_list - 1 ∧ plan last k = k :: plan last (k + 1) ∧
  counted s + 1 + Z.of_nat (length (plan last (k + 1))) < 2 ^ 32.

Lemma resume_run (last k : Z) (s : state) :
  list_ok → tests_ok → pending last k s →
  run_to (val_host_test_dispatch base test_list true) s (λ r s', ∃ s1,
    f_ran s1 = f_ran s ∧ counted s1 = counted s + 1 ∧
    nvm NVM_END_TEST_NUM_INDEX s1 = last ∧ ends has_planes has_mec has_da last (k + 1) s1 r s').
Proof.
  intros LO TO (ok & CU & EN & PR & KB & PL & CT). destruct (lok_size LO) as [S1 S2].
  unfold val_host_test_dispatch, dispatch_primary.
  destruct (info_resume s ok PR) as (s0 & E0 & K0 & S0). eapply run_to_step; [exact E0|]. rewrite CU, EN.
  cbn [test_num end_test_num test_progress].
  destruct (Z.eqb_spec k VAL_INVALID_TEST_NUM) as [E|_]; [pose proof law_invalid; lia|].
  apply tests_run; [apply K0|]. intros s1 K1 S1'. cbn [test_progress].
  assert (∀ j, nvm j s1 = nvm j s) as SS by (intros j; by rewrite S1', S0).
  assert (counted s1 = counted s) as CS by (unfold counted; by rewrite !SS).
  eapply run_to_mono.
  - apply loop_resume; [done|done|unfold range_fuel, turns; lia|done|apply K1|exact PL|]. rewrite CS. exact CT.
  - intros r s' (s2 & ok2 & FR & C2 & NE & D). exists s2. split; [by rewrite FR, (proj2 K1), (proj2 K0)|].
    split; [lia|]. split; [by rewrite NE, SS|done].
Qed.

(** From the end of one boot to the end of the last. *)
Lemma ends_boots (restart : state → state) (last i : Z) (n : nat) (s s1 : state) (r : dispatch_end) :
  list_ok → tests_ok → restarts restart → 0 ≤ i → nvm NVM_END_TEST_NUM_INDEX s = last →
  counted s + Z.of_nat (length (plan last i)) < 2 ^ 32 →
  (∀ k s', i ≤ k → (length (plan last k) ≤ length (plan last i))%nat → pending last k s' →
     run_to (boots restart n) s' (all_done (f_ran s' ++ plan last (k + 1))
       (counted s' + 1 + Z.of_nat (length (plan last (k + 1)))))) →
  ends has_planes has_mec has_da last i s r s1 →
  run_to (match r with Restarted => modify restart ;; boots restart n | _ => ret r end) s1
    (all_done (f_ran s ++ plan last i) (counted s + Z.of_nat (length (plan last i)))).
Proof.
  intros LO TO RS I NE CT IH (ok & NE1 & [(rep & -> & RT & FR & CO)|(-> & begun & k & P1 & P2 & FR & CO & CU & KB & PR)]).
  { apply run_to_ret. exists rep. split; [done|]. split; [by rewrite RT|done]. }
  destruct (RS s1 ok) as (ok2 & FR2 & S2). eapply run_to_step; [reflexivity|].
  fold (plan last i) (plan last k) (plan last (k + 1)) in *.
  assert (counted (restart s1) = counted s1) as C2 by (unfold counted; by rewrite !S2).
  rewrite P2 in P1. rewrite P1, length_app in CT |- *. cbn [length] in CT |- *.
  eapply run_to_mono; [apply (IH k (restart s1)); [lia| |]|].
  - rewrite P1, length_app, P2. cbn [length]. lia.
  - split; [done|]. rewrite !S2, C2, CO. split; [done|]. split; [congruence|]. split; [done|]. split; [lia|].
    split; [done|]. lia.
  - intros r s' (rep & -> & A1 & A2 & A3). exists rep. split; [done|].
    assert (counted (restart s1) + 1 + Z.of_nat (length (plan last (k + 1))) =
      counted s + Z.of_nat (length begun + S (length (plan last (k + 1))))) as EQ by (rewrite C2, CO; lia).
    rewrite EQ in *. split; [done|]. split; [|done]. rewrite A2, FR2, FR, <- !app_assoc. done.
Qed.

Lemma boots_resume (restart : state → state) (last : Z) (n : nat) (k : Z) (s : state) :
  list_ok → tests_ok → restarts restart → (length (plan last k) ≤ n)%nat → pending last k s →
  run_to (boots restart n) s (all_done (f_ran s ++ plan last (k + 1))
    (counted s + 1 + Z.of_nat (length (plan last (k + 1))))).
Proof.
  intros LO TO RS. revert k s. induction n as [|n IH]; intros k s F PE;
    pose proof PE as (ok & CU & EN & PR & KB & PL & CT); rewrite PL in F; cbn [length] in F; [lia|].
  cbn [boots]. eapply run_to_bind; [by apply resume_run|].
  intros r s' (s1 & FR & CO & NE & D). rewrite <- FR, <- CO.
  eapply (ends_boots restart last (k + 1) n s1 s' r); [done|done|done|lia|done|by rewrite CO| |done].
  intros j s2 J LE P2. apply IH; [lia|done].
Qed.

Lemma end_run (v : Z) (s : state) :
  fw_ok s → 0 ≤ v < 2 ^ 32 →
  ∃ s', nvm_write_all [(NVM_END_TEST_NUM_INDEX, v)] s = Ok false s' ∧ keeps s s' ∧
    nvm NVM_END_TEST_NUM_INDEX s' = v ∧ counted s' = counted s.
Proof.
  intros ok V. destruct (write_all_run [(NVM_END_TEST_NUM_INDEX, v)] s ok) as (s' & E & K & IN & OUT);
    [apply NoDup_singleton|by apply Forall_singleton|].
  exists s'. split; [done|]. split; [done|]. split; [apply IN; by apply list_elem_of_singleton|].
  unfold counted. rewrite !OUT; [done|cbn; by rewrite list_elem_of_singleton..].
Qed.

Lemma boots_fresh (restart : state → state) (n : nat) (s : state) :
  list_ok → tests_ok → restarts restart → fw_ok s →
  nvm NVM_TEST_PROGRESS_INDEX s ∉ [TEST_START; TEST_END; TEST_FAIL; TEST_REBOOTING] →
  let tests := plan tests_of_build.2 tests_of_build.1 in
  (length tests ≤ n)%nat → Z.of_nat (length tests) < 2 ^ 32 →
  run_to (boots restart (S n)) s (all_done (f_ran s ++ tests) (Z.of_nat (length tests))).
Proof.
  intros LO TO RS ok PR tests F LT. destruct (range_bounds LO) as [RB1 RB2]. cbn [boots].
  destruct (info_fresh s ok PR) as (info & s0 & E0 & IN & K0 & C0).
  destruct (end_run tests_of_build.2 s0 (proj1 K0) RB2) as (s1 & E1 & K1 & NE1 & C1).
  eapply (run_to_bind _ _ _ (λ r s', ∃ s2, f_ran s2 = f_ran s ∧ counted s2 = 0 ∧
    nvm NVM_END_TEST_NUM_INDEX s2 = tests_of_build.2 ∧
    ends has_planes has_mec has_da tests_of_build.2 tests_of_build.1 s2 r s')).
  - unfold val_host_test_dispatch, dispatch_primary. eapply run_to_step; [exact E0|]. cbn beta iota.
    rewrite IN, Z.eqb_refl.
    eapply run_to_step; [by apply range_run|]. eapply run_to_step; [exact E1|]. cbn iota.
    rewrite (surjective_pairing tests_of_build). apply tests_run; [apply K1|]. intros s2 K2 S2.
    assert (counted s2 = counted s1) as C2' by (unfold counted; by rewrite !S2).
    assert (counted s2 = 0) as C2 by lia.
    eapply run_to_mono; [apply tests_loop_run; [done|done|unfold range_fuel, turns; lia|done|apply K2|by rewrite C2|]|].
    { rewrite C2. exact LT. }
    intros r s' D. exists s2. split; [by rewrite (proj2 K2), (proj2 K1), (proj2 K0)|]. split; [done|].
    split; [by rewrite S2|done].
  - intros r s' (s2 & FR & C2 & NE & D). rewrite <- FR, <- (Z.add_0_l (Z.of_nat (length tests))), <- C2.
    eapply (ends_boots restart _ _ n s2 s' r); [done|done|done|lia|done|rewrite C2; exact LT| |exact D].
    intros k s3 KI LE P3. apply boots_resume; [done|done|done|unfold tests in F; lia|done].
Qed.
End Campaign.
End Facts.

(** * Properties *)

Section Properties.
Context {W Y : Type} {R : RMM W} {C : Common Y} {L : CommonLaws Y} {B : Build}.
Context (base : Z) (test_list : list (test_db_t W Y)).

(** C4. From power on, however many tests reset the machine, the dispatcher comes to its
    report after at most one boot per test and one more; every test the build and the
    RMM select has been begun exactly once, in the order of the database, a test that
    reset the machine is not run again, and each has been counted in exactly one total
    of the report. *)
Theorem every_test_counted_once (feat : Z → Z) (restart : fw W Y → fw W Y) (n : nat) (s : fw W Y) :
  features_fixed feat → list_ok test_list → tests_ok base test_list → restarts base test_list restart →
  fw_ok base test_list s →
  nvm NVM_TEST_PROGRESS_INDEX s ∉ [TEST_START; TEST_END; TEST_FAIL; TEST_REBOOTING] →
  let tests := plan test_list feat (tests_of_build test_list).2 (tests_of_build test_list).1 in
  (length tests ≤ n)%nat → Z.of_nat (length tests) < 2 ^ 32 →
  run_to (boots base test_list restart (S n)) s (λ r s', ∃ report,
    r = Completed report ∧ report_total report = Z.of_nat (length tests) ∧
    f_ran s' = f_ran s ++ tests ∧ counted s' = Z.of_nat (length tests)).
Proof. intros ff LO TO RS ok PR. by apply boots_fresh. Qed.

(** With a range of tests the bounds are the last entries whose names are prefixes of
    the names given, in increasing order, 0 standing for no such entry; without one the
    range is the whole database. *)
Theorem range_exact (info : test_info_t) (s : fw W Y) (a b : list Z) :
  list_ok test_list → test_num info = 1 → SUITE_TEST_RANGE = Some (a, b) → cstring a → cstring b →
  ∃ i j : nat, test_range test_list info s = Ok (Z.of_nat (i `min` j), Z.of_nat (i `max` j)) s ∧
    ∀ name k, (name, k) ∈ [(a, i); (b, j)] →
      (k = 0%nat ∨ ∃ e, test_list !! k = Some e ∧ test_name e `prefix_of` name) ∧
      ∀ m e, (k < m < length test_list - 1)%nat → test_list !! m = Some e → ¬ test_name e `prefix_of` name.
Proof.
  intros LO N SR CA CB. exists (Z.to_nat (last_named test_list a)), (Z.to_nat (last_named test_list b)).
  pose proof (last_named_range test_list a LO). pose proof (last_named_range test_list b LO). split.
  - rewrite range_run by done. unfold tests_of_build. rewrite SR. do 2 f_equal; lia.
  - intros name k I.
    assert (cstring name ∧ k = Z.to_nat (last_named test_list name)) as [CN ->].
    { rewrite !elem_of_cons in I. destruct I as [[= -> ->]|[[= -> ->]|I]]; [done..|by apply not_elem_of_nil in I]. }
    by apply last_named_spec.
Qed.
End Properties.

(** * A concrete campaign *)

(** A submodule that satisfies the laws: its state is the non-volatile memory. *)
#[local] Instance demo_common : Common (nvm_index → Z) := {|
  TEST_START := 1; TEST_END := 2; TEST_FAIL := 3; TEST_REBOOTING := 4;
  VAL_INVALID_TEST_NUM := 0xFFFFFFFF;
  RESULT_START_INVALID := 0; RESULT_FAIL_ERROR := 1;
  val_nvm_read i y := (0, u32 (y i));
  val_nvm_write i v y := (0, λ j, if decide (j = i) then v else y j);
  is_reboot_run p l := if decide (p ∈ l) then 1 else 0;
  val_reset_test_info_fields _ := mk_info 0xFFFFFFFF 0xFFFFFFFF 0xFFFFFFFF;
  val_log_test_info _ y := y;
  val_log_final_test_status _ _ y := y;
  val_print_regression_report _ y := y;
  val_set_status _ y := y;
  val_handle_reboot_result _ y := y;
  val_report_status y := (0, y);
  val_update_regression_report v r :=
    mk_report (total_pass r + 1) (total_fail r) (total_skip r) (total_error r);
  val_sort_indices a b := (Z.min a b, Z.max a b);
  val_watchdog_enable y := (0, y);
  val_watchdog_disable y := (0, y)
|}.

Lemma demo_progress : Forall (λ p, 0 ≤ p < 2 ^ 8) [1; 2; 3; 4].
Proof. repeat (apply Forall_cons; split; [lia|]). by apply Forall_nil. Qed.

#[local] Instance demo_laws : CommonLaws (nvm_index → Z).
Proof.
  refine {| cell i y := u32 (y i) |}; cbn; try done.
  - intros i y. apply Z.mod_pos_bound. lia.
  - intros i v y V. eexists. split; [reflexivity|]. intros j. cbn. destruct (decide (j = i)); [|done].
    by apply Z.mod_small.
  - intros p l. destruct (decide (p ∈ l)); naive_solver.
  - intros v [p f k e]. unfold report_ok, report_total. cbn. lia.
  - by eexists.
  - by eexists.
  - exact demo_progress.
Defined.

#[local] Instance demo_build : Build := {| SUITE := chars "all"; SUITE_TEST_RANGE := None; TEST_COMBINE := true |}.
#[local] Existing Instance accepting.

Notation demo_state := (fw unit (nvm_index → Z)).

Definition demo_memory : mem :=
  list_to_map (map (λ k, (Z.of_nat k, 0)) (seq 8 4)) ∪
  (list_to_map (map (λ k, (Z.of_nat k, 0)) (seq 120 80)) ∪
  (list_to_map (map (λ k, (397312 + Z.of_nat k, 0)) (seq 0 8)) ∪
   list_to_map [(990, 0); (1000, 97); (1001, 0); (1010, 98); (1011, 0); (1020, 99); (1021, 0); (1030, 100); (1031, 0)])).

Definition demo_tracker : gstate := gstate_init (val_host_mem_alloc_init (mk_alloc 0 0 0 0)) ∅.
Definition demo_host : host unit := mk_host tt demo_tracker ∅ realm_zero [].

(** A test that cleans up and returns, and one that resets the machine. *)
Definition returning : M demo_state bool := λ s,
  Ok false (mk_fw (mk_host tt demo_tracker ∅ realm_zero []) (f_common s) (f_mem s) (f_skip_logs s) (f_ran s)).
Definition resetting : M demo_state bool := val_host_set_reboot_flag ;; ret true.

Definition demo_tests : list (test_db_t unit (nvm_index → Z)) :=
  [mk_test [] [] [] 990 None;
   mk_test (chars "S:") (chars "command") [97] 1000 (Some returning);
   mk_test (chars "S:") (chars "command") [98] 1010 (Some resetting);
   mk_test (chars "S:") (chars "planes") [99] 1020 (Some returning);
   mk_test (chars "S:") (chars "command") [100] 1030 (Some returning);
   mk_test [] [] [] 990 None].

Definition demo_start : demo_state := mk_fw demo_host (λ _, 0xFF) demo_memory 0 [].
Definition demo_restart (s : demo_state) : demo_state := mk_fw demo_host (f_common s) demo_memory 0 (f_ran s).

Lemma demo_names_ok (i : nat) e : demo_tests !! i = Some e →
  cstr_at demo_memory (test_name_at e) (test_name e) ∧
  apart 0 (test_name_at e) (Z.of_nat (length (test_name e)) + 1) PRINT_LIMIT ∧
  (test_name_at e + Z.of_nat (length (test_name e)) < 0 + PRINT_OFFSET ∨ 0 + PRINT_OFFSET + 8 ≤ test_name_at e).
Proof.
  intros E. do 6 (destruct i as [|i]; [cbn in E; simplify_eq; split; [concrete_string|];
    split; [right; vm_compute; discriminate|left; vm_compute; reflexivity]|]). done.
Qed.

Lemma demo_ok (y : nvm_index → Z) (k : Z) (l : list Z) : fw_ok 0 demo_tests (mk_fw demo_host y demo_memory k l).
Proof.
  constructor; cbn [f_host f_mem].
  - reflexivity.
  - intros i Hi. in_range i 4%nat.
  - intros i Hi. change PRINT_LIMIT with 80 in Hi. in_range i 80%nat.
  - intros i Hi. in_range i 8%nat.
  - exact demo_names_ok.
Qed.

Lemma demo_list_ok : list_ok demo_tests.
Proof.
  constructor.
  - split; [cbn; lia|reflexivity].
  - intros i e E. do 6 (destruct i as [|i]; [cbn in E; simplify_eq;
      split; [unfold cstring; cbn; repeat (apply Forall_cons; split; [done|]); by apply Forall_nil|];
      split; [unfold cstring; cbn; repeat (apply Forall_cons; split; [done|]); by apply Forall_nil|reflexivity]|]). done.
  - eexists. split; reflexivity.
Qed.

Lemma returning_ok : test_ok 0 demo_tests returning.
Proof.
  intros s ok. apply run_to_ret. split.
  - destruct ok as [A1 A2 A3 A4 A5]. by constructor.
  - split; [done|]. split; [done|]. split; [by left|]. intros _ _. vm_compute. reflexivity.
Qed.

Lemma resetting_ok : test_ok 0 demo_tests resetting.
Proof.
  intros s ok. destruct (progress_run 0 demo_tests TEST_REBOOTING s ok) as (s1 & E1 & K1 & N1 & P1).
  { rewrite !elem_of_cons. tauto. }
  unfold resetting, val_host_set_reboot_flag.
  eapply (run_to_step _ _ s tt s1); [by rewrite (bind_step _ _ _ _ _ E1)|]. apply run_to_ret.
  split; [apply K1|]. split; [apply K1|]. split; [done|]. split; [by right|done].
Qed.

Lemma demo_tests_ok : tests_ok 0 demo_tests.
Proof.
  intros i e fn E F. do 6 (destruct i as [|i]; [cbn in E; simplify_eq; cbn in F; simplify_eq;
    first [exact returning_ok|exact resetting_ok]|]). done.
Qed.

Lemma demo_plan :
  plan demo_tests (λ _, 0) (tests_of_build demo_tests).2 (tests_of_build demo_tests).1 = [1; 2; 4].
Proof. vm_compute. reflexivity. Qed.

Lemma every_test_counted_once_witness :
  run_to (boots 0 demo_tests demo_restart 4) demo_start (λ r s', ∃ report,
    r = Completed report ∧ report_total report = 3 ∧ f_ran s' = [1; 2; 4] ∧ counted s' = 3).
Proof.
  pose proof (every_test_counted_once 0 demo_tests (λ _, 0) demo_restart 3 demo_start) as T.
  cbv zeta in T. rewrite demo_plan in T. apply T; clear T.
  - done.
  - exact demo_list_ok.
  - exact demo_tests_ok.
  - intros s ok. split; [apply demo_ok|]. split; [done|]. by intros j.
  - apply demo_ok.
  - apply (bool_decide_unpack _). vm_compute. exact I.
  - cbn. lia.
  - reflexivity.
Defined.

Definition ranged_build : Build :=
  {| SUITE := chars "all"; SUITE_TEST_RANGE := Some ([100], [97]); TEST_COMBINE := true |}.

Lemma range_exact_witness :
  ∃ i j : nat, @test_range unit (nvm_index → Z) _ ranged_build demo_tests (mk_info 1 0 0) demo_start =
      Ok (Z.of_nat (i `min` j), Z.of_nat (i `max` j)) demo_start ∧
    ∀ name k, (name, k) ∈ [([100], i); ([97], j)] →
      (k = 0%nat ∨ ∃ e, demo_tests !! k = Some e ∧ test_name e `prefix_of` name) ∧
      ∀ m e, (k < m < length demo_tests - 1)%nat → demo_tests !! m = Some e → ¬ test_name e `prefix_of` name.
Proof.
  apply (range_exact (B := ranged_build) demo_tests (mk_info 1 0 0) demo_start [100] [97]).
  - exact demo_list_ok.
  - reflexivity.
  - reflexivity.
  - unfold cstring. apply Forall_cons. by split; [|apply Forall_nil].
  - unfold cstring. apply Forall_cons. by split; [|apply Forall_nil].
Defined.
