(* ===== verification/Realm.v ===== *)
(** The Realm's side of the suite: the wrappers of the Realm services interface
    (val_realm_rsi.c), planes (val_realm_planes.c), and which plane an image runs in
    (val_realm_framework.c).

    The RMM behind an SMC of the Realm and plane 0 behind an HVC of another plane are the
    class [RealmWorld]; nothing is assumed of them.  [l_mem] maps the address of a
    structure member to its value, as in Host.v.  [l_log] is not in the program: it
    records the SMC calls made.  Log messages are left out. *)
From S2P Require Import Prelude Defs Alloc Granule Host Libc Rhi Shared.

(** * Constants (val_rmm.h, val_arch.h, val_realm_planes.h) *)

Definition RSI_VERSION : Z := 0xC4000190.
Definition RSI_FEATURES : Z := 0xC4000191.
Definition RSI_MEASUREMENT_READ : Z := 0xC4000192.
Definition RSI_MEASUREMENT_EXTEND : Z := 0xC4000193.
Definition RSI_ATTESTATION_TOKEN_INIT : Z := 0xC4000194.
Definition RSI_ATTESTATION_TOKEN_CONTINUE : Z := 0xC4000195.
Definition RSI_REALM_CONFIG : Z := 0xC4000196.
Definition RSI_IPA_STATE_SET : Z := 0xC4000197.
Definition RSI_IPA_STATE_GET : Z := 0xC4000198.
Definition RSI_HOST_CALL : Z := 0xC4000199.
Definition RSI_MEM_GET_PERM_VALUE : Z := 0xC40001A0.
Definition RSI_MEM_SET_PERM_INDEX : Z := 0xC40001A1.
Definition RSI_MEM_SET_PERM_VALUE : Z := 0xC40001A2.
Definition RSI_PLANE_ENTER : Z := 0xC40001A3.
Definition RSI_PLANE_REG_READ : Z := 0xC40001AE.
Definition RSI_PLANE_REG_WRITE : Z := 0xC40001AF.
Definition RSI_VDEV_DMA_ENABLE : Z := 0xC400019C.
Definition RSI_VDEV_GET_INFO : Z := 0xC400019D.
Definition RSI_VDEV_VALIDATE_MAPPING : Z := 0xC400019F.
Definition RSI_VDEV_DMA_DISABLE : Z := 0xC40001A4.

Definition RSI_SUCCESS : Z := 0.
Definition RSI_ERROR_INPUT : Z := 1.
Definition RSI_ACCEPT : Z := 0.
Definition RSI_REJECT : Z := 1.
Definition VAL_SMC_NOT_SUPPORTED : Z := 2 ^ 64 - 1.

Definition PSI_REALM_CONFIG : Z := RSI_REALM_CONFIG.
Definition PSI_P0_CALL : Z := RSI_HOST_CALL.
Definition PSI_TEST_SMC : Z := 0x88FFFFFE.
Definition PSI_RETURN_TO_PN : Z := 1.
Definition PSI_RETURN_TO_P0 : Z := 2.
Definition S2_AP_RW_upX : Z := 15.
Definition VAL_PLANE_ENTRY_GPRS : Z := 31.

Definition ESR_EL2_EC_SHIFT : Z := 26.
Definition ESR_EL2_EC_WIDTH : Z := 6.
Definition ESR_EL2_EC (val : Z) : Z := Z.land val (Z.shiftl (2 ^ ESR_EL2_EC_WIDTH - 1) ESR_EL2_EC_SHIFT).
Definition ESR_EL2_EC_HVC : Z := Z.shiftl 22 ESR_EL2_EC_SHIFT.
Definition ESR_EL2_EC_SMC : Z := Z.shiftl 23 ESR_EL2_EC_SHIFT.

(** Offsets in [val_realm_rsi_plane_run_ts] and [val_realm_rsi_host_call_t]. *)
Definition PLANE_ENTER_PC : Z := 0x8.
Definition plane_enter_gpr (j : Z) : Z := 0x100 + 8 * j.
Definition PLANE_EXIT_ELR_EL2 : Z := 0x800 + 0x100.
Definition PLANE_EXIT_ESR_EL2 : Z := 0x800 + 0x108.
Definition plane_exit_gpr (j : Z) : Z := 0x800 + 0x200 + 8 * j.
Definition HOST_CALL_IMM : Z := 0.

(** * The interface below *)

(** [rsi] is the SMC instruction, [hvc] the HVC instruction.  The other members are the
    addresses of two globals and of the local buffer of [hvc_handle_realm_print]. *)
Class RealmWorld (W : Type) : Type := {
  rsi : W → gmap Z Z → val_smc_param_ts → W * gmap Z Z * val_smc_param_ts;
  hvc : W → gmap Z Z → val_smc_param_ts → W * gmap Z Z * val_smc_param_ts;
  gv_realm_host_call : Z;
  realm_config_buff : Z;
  realm_print : Z
}.

Record rl (W : Type) : Type := mk_rl {
  l_world : W;
  l_mem : gmap Z Z;
  realm_in_p0 : bool;
  realm_in_pn : bool;
  l_log : list val_smc_param_ts
}.
Arguments mk_rl {W}.
Arguments l_world {W}.
Arguments l_mem {W}.
Arguments realm_in_p0 {W}.
Arguments realm_in_pn {W}.
Arguments l_log {W}.

Section Realm.
Context {W : Type} `{RealmWorld W}.

Definition rsi_call (a0 a1 a2 a3 a4 a5 a6 a7 a8 a9 a10 : Z) : M (rl W) val_smc_param_ts := λ s,
  let args := mk_smc a0 a1 a2 a3 a4 a5 a6 a7 a8 a9 a10 in
  let '(w, m, r) := rsi (l_world s) (l_mem s) args in
  Ok r (mk_rl w m (realm_in_p0 s) (realm_in_pn s) (l_log s ++ [args])).
Definition val_hvc_call (a0 a1 a2 a3 a4 a5 a6 a7 a8 a9 a10 : Z) : M (rl W) val_smc_param_ts := λ s,
  let args := mk_smc a0 a1 a2 a3 a4 a5 a6 a7 a8 a9 a10 in
  let '(w, m, r) := hvc (l_world s) (l_mem s) args in
  Ok r (mk_rl w m (realm_in_p0 s) (realm_in_pn s) (l_log s)).

(** A structure member. *)
Definition rload (a : Z) : M (rl W) Z := gets (λ s, default 0 (l_mem s !! a)).
Definition rstore (a v : Z) : M (rl W) unit :=
  modify (λ s, mk_rl (l_world s) (<[a := v]> (l_mem s)) (realm_in_p0 s) (realm_in_pn s) (l_log s)).
Definition set_planes (p0 pn : bool) : M (rl W) unit :=
  modify (λ s, mk_rl (l_world s) (l_mem s) p0 pn (l_log s)).

(** * Wrappers (val_realm_rsi.c) *)

Definition val_realm_rsi_version (req : Z) : M (rl W) (Z * (Z * Z)) :=
  let* args := rsi_call RSI_VERSION req 0 0 0 0 0 0 0 0 0 in
  ret (x0 args, (x1 args, x2 args)).
Definition val_realm_rsi_realm_config (buff : Z) : M (rl W) Z :=
  let* args := rsi_call RSI_REALM_CONFIG buff 0 0 0 0 0 0 0 0 0 in ret (x0 args).
Definition val_realm_rsi_host_call (imm : Z) : M (rl W) Z :=
  rstore (gv_realm_host_call + HOST_CALL_IMM) (u16 imm) ;;
  let* args := rsi_call RSI_HOST_CALL gv_realm_host_call 0 0 0 0 0 0 0 0 0 in ret (x0 args).
Definition val_realm_rsi_host_params (realm_host_params : Z) : M (rl W) Z :=
  rstore (realm_host_params + HOST_CALL_IMM) VAL_SWITCH_TO_HOST ;;
  let* args := rsi_call RSI_HOST_CALL realm_host_params 0 0 0 0 0 0 0 0 0 in ret (x0 args).
Definition val_realm_rsi_ipa_state_set (base top ripas flags : Z) : M (rl W) val_smc_param_ts :=
  rsi_call RSI_IPA_STATE_SET base top (u8 ripas) flags 0 0 0 0 0 0.
Definition val_realm_rsi_ipa_state_get (base top : Z) : M (rl W) val_smc_param_ts :=
  rsi_call RSI_IPA_STATE_GET base top 0 0 0 0 0 0 0 0.
Definition val_realm_rsi_host_call_ripas (imm : Z) : M (rl W) Z :=
  rstore (gv_realm_host_call + HOST_CALL_IMM) (u16 imm) ;;
  rsi_call RSI_HOST_CALL gv_realm_host_call 0 0 0 0 0 0 0 0 0 ;;
  ret gv_realm_host_call.
Definition val_realm_rsi_rhi_host (rsi_host_call : Z) : M (rl W) Z :=
  let* args := rsi_call RSI_HOST_CALL rsi_host_call 0 0 0 0 0 0 0 0 0 in ret (x0 args).
Definition val_realm_rsi_host_call_struct (gv_realm_host_call1 : Z) : M (rl W) Z :=
  let* args := rsi_call RSI_HOST_CALL gv_realm_host_call1 0 0 0 0 0 0 0 0 0 in ret (x0 args).
Definition val_realm_rsi_attestation_token_continue (addr offset size : Z) : M (rl W) (val_smc_param_ts * Z) :=
  let* args := rsi_call RSI_ATTESTATION_TOKEN_CONTINUE addr offset size 0 0 0 0 0 0 0 in
  ret (args, x1 args).
Definition val_realm_rsi_attestation_token_init (c0 c1 c2 c3 c4 c5 c6 c7 : Z) : M (rl W) val_smc_param_ts :=
  rsi_call RSI_ATTESTATION_TOKEN_INIT c0 c1 c2 c3 c4 c5 c6 c7 0 0.
Definition val_realm_rsi_measurement_extend (index size v0 v1 v2 v3 v4 v5 v6 v7 : Z) : M (rl W) Z :=
  let* args := rsi_call RSI_MEASUREMENT_EXTEND index size v0 v1 v2 v3 v4 v5 v6 v7 in ret (x0 args).
Definition val_realm_rsi_measurement_read (index : Z) : M (rl W) val_smc_param_ts :=
  rsi_call RSI_MEASUREMENT_READ index 0 0 0 0 0 0 0 0 0.
Definition val_realm_rsi_features (index : Z) : M (rl W) (Z * Z) :=
  let* args := rsi_call RSI_FEATURES index 0 0 0 0 0 0 0 0 0 in ret (x0 args, x1 args).
Definition val_realm_rsi_mem_get_perm_value (plane_index perm_index : Z) : M (rl W) val_smc_param_ts :=
  rsi_call RSI_MEM_GET_PERM_VALUE plane_index perm_index 0 0 0 0 0 0 0 0.
Definition val_realm_rsi_mem_set_perm_index (base top perm_index cookie : Z) : M (rl W) val_smc_param_ts :=
  rsi_call RSI_MEM_SET_PERM_INDEX base top perm_index cookie 0 0 0 0 0 0.
Definition val_realm_rsi_mem_set_perm_value (plane_index perm_index value : Z) : M (rl W) val_smc_param_ts :=
  rsi_call RSI_MEM_SET_PERM_VALUE plane_index perm_index value 0 0 0 0 0 0 0.
Definition val_realm_rsi_plane_enter (plane_idx run_ptr : Z) : M (rl W) val_smc_param_ts :=
  rsi_call RSI_PLANE_ENTER plane_idx run_ptr 0 0 0 0 0 0 0 0.
Definition val_realm_rsi_plane_reg_read (plane_idx encoding : Z) : M (rl W) val_smc_param_ts :=
  rsi_call RSI_PLANE_REG_READ plane_idx encoding 0 0 0 0 0 0 0 0.
Definition val_realm_rsi_plane_reg_write (plane_idx encoding value : Z) : M (rl W) val_smc_param_ts :=
  rsi_call RSI_PLANE_REG_WRITE plane_idx encoding value 0 0 0 0 0 0 0.
Definition val_realm_rsi_vdev_dma_disable (vdev_id : Z) : M (rl W) val_smc_param_ts :=
  rsi_call RSI_VDEV_DMA_DISABLE vdev_id 0 0 0 0 0 0 0 0 0.
Definition val_realm_rsi_vdev_dma_enable (vdev_id flags non_ats_plane lock_nonce meas_nonce report_nonce : Z) :
    M (rl W) val_smc_param_ts :=
  rsi_call RSI_VDEV_DMA_ENABLE vdev_id flags non_ats_plane lock_nonce meas_nonce report_nonce 0 0 0 0.
Definition val_realm_rsi_vdev_get_info (vdev_id addr : Z) : M (rl W) val_smc_param_ts :=
  rsi_call RSI_VDEV_GET_INFO vdev_id addr 0 0 0 0 0 0 0 0.
Definition val_realm_rsi_vdev_validate_mapping
    (vdev_id ipa_base ipa_top pa_base flags lock_nonce meas_nonce report_nonce : Z) : M (rl W) val_smc_param_ts :=
  rsi_call RSI_VDEV_VALIDATE_MAPPING vdev_id ipa_base ipa_top pa_base flags lock_nonce meas_nonce report_nonce 0 0.

(** * Which plane (val_realm_framework.c) *)

Definition val_realm_in_p0 : M (rl W) bool := gets realm_in_p0.
Definition val_realm_in_pn : M (rl W) bool := gets realm_in_pn.

Definition val_realm_psi_realm_config (buff : Z) : M (rl W) Z :=
  let* args := val_hvc_call PSI_REALM_CONFIG buff 0 0 0 0 0 0 0 0 0 in ret (x1 args).

(** [(uint64_t)*realm_config_buff]: one byte of the width. *)
Definition val_realm_get_ipa_width : M (rl W) Z :=
  let* p0 := val_realm_in_p0 in
  if p0 then
    val_realm_rsi_realm_config realm_config_buff ;;
    let* w := rload realm_config_buff in ret (u8 w)
  else val_realm_psi_realm_config realm_config_buff.

(** [RSI_ABI_VERSION] is an option of the build. *)
Definition val_realm_init (RSI_ABI_VERSION : Z) : M (rl W) Z :=
  let* (st, _) := val_realm_rsi_version RSI_ABI_VERSION in
  if st =? RSI_SUCCESS then
    let* pn := val_realm_in_pn in set_planes true pn ;; ret VAL_SUCCESS
  else if st =? VAL_SMC_NOT_SUPPORTED then
    let* p0 := val_realm_in_p0 in set_planes p0 true ;; ret VAL_SUCCESS
  else ret VAL_ERROR.

Definition val_realm_return_to_host : M (rl W) unit := val_realm_rsi_host_call VAL_SWITCH_TO_HOST ;; ret tt.

(** * Planes (val_realm_planes.c) *)

Definition val_realm_return_to_p0 : M (rl W) unit := val_hvc_call PSI_P0_CALL 0 0 0 0 0 0 0 0 0 0 ;; ret tt.

Definition hvc_handle_realm_config (run : Z) : M (rl W) Z :=
  rstore (run + plane_enter_gpr 0) RSI_SUCCESS ;;
  let* w := val_realm_get_ipa_width in
  rstore (run + plane_enter_gpr 1) w ;;
  ret PSI_RETURN_TO_PN.

Definition hvc_handle_realm_print : M (rl W) Z :=
  rstore (realm_print + HOST_CALL_IMM) VAL_REALM_PRINT_MSG ;;
  rsi_call RSI_HOST_CALL realm_print 0 0 0 0 0 0 0 0 0 ;;
  ret PSI_RETURN_TO_PN.

Definition val_realm_plane_handle_exception (run : Z) : M (rl W) Z :=
  let* esr := rload (run + PLANE_EXIT_ESR_EL2) in
  let ec := ESR_EL2_EC esr in
  if ec =? ESR_EL2_EC_SMC then
    let* smc_id := rload (run + plane_exit_gpr 0) in
    if (smc_id =? PSI_TEST_SMC) || (smc_id =? RSI_HOST_CALL) then ret PSI_RETURN_TO_P0
    else rstore (run + plane_enter_gpr 0) VAL_SMC_NOT_SUPPORTED ;; ret PSI_RETURN_TO_PN
  else if ec =? ESR_EL2_EC_HVC then
    let* hvc_id := rload (run + plane_exit_gpr 0) in
    if hvc_id =? PSI_REALM_CONFIG then hvc_handle_realm_config run
    else if hvc_id =? PSI_PRINT_MSG then hvc_handle_realm_print
    else ret PSI_RETURN_TO_P0
  else ret PSI_RETURN_TO_P0.

Fixpoint preserve_gprs (n : nat) (run j : Z) : M (rl W) unit :=
  match n with
  | O => ret tt
  | S n =>
      let* v := rload (run + plane_exit_gpr j) in
      rstore (run + plane_enter_gpr j) v ;;
      preserve_gprs n run (j + 1)
  end.

Definition val_realm_preserve_plane_context (run : Z) : M (rl W) unit :=
  preserve_gprs (Z.to_nat VAL_PLANE_ENTRY_GPRS) run 0 ;;
  let* elr := rload (run + PLANE_EXIT_ELR_EL2) in
  rstore (run + PLANE_ENTER_PC) elr.

Fixpoint val_realm_run_plane (fuel : nat) (plane_index run_ptr : Z) : M (rl W) Z :=
  match fuel with
  | O => out_of_fuel
  | S fuel =>
      let* cmd_ret := val_realm_rsi_plane_enter plane_index run_ptr in
      if truthy (x0 cmd_ret) then ret VAL_ERROR
      else
        val_realm_preserve_plane_context run_ptr ;;
        let* r := val_realm_plane_handle_exception run_ptr in
        if negb (r =? PSI_RETURN_TO_PN) then ret VAL_SUCCESS
        else val_realm_run_plane fuel plane_index run_ptr
  end.

(** [while (base != top)]. *)
Fixpoint perm_index_loop (fuel : nat) (base top perm_idx cookie_value : Z) : M (rl W) Z :=
  match fuel with
  | O => out_of_fuel
  | S fuel =>
      if base =? top then ret VAL_SUCCESS
      else
        let* cmd_ret := val_realm_rsi_mem_set_perm_index base top perm_idx cookie_value in
        if (x0 cmd_ret =? RSI_ERROR_INPUT) || (x2 cmd_ret =? RSI_REJECT) then ret VAL_ERROR
        else perm_index_loop fuel (x1 cmd_ret) top perm_idx (x3 cmd_ret)
  end.

Definition val_realm_plane_perm_init (fuel : nat) (plane_idx perm_idx base top : Z) : M (rl W) Z :=
  let* cmd_ret := val_realm_rsi_mem_set_perm_value plane_idx perm_idx S2_AP_RW_upX in
  if truthy (x0 cmd_ret) then ret VAL_ERROR
  else perm_index_loop fuel base top perm_idx 0.
End Realm.
