(* ===== verification/RealmFacts.v ===== *)
(** What holds of the Realm's side of Realm.v: a plane whose exit plane 0 serves goes on
    where it left off, with its registers and the reply; [val_realm_run_plane] returns at
    the first exit it does not serve; the permission of a range of addresses is set
    piece by piece to its end. *)
From S2P Require Import Prelude Defs Alloc Granule Host Libc Rhi Shared Realm.

Section Facts.
Context {W : Type} {RW : RealmWorld W}.

(** * Frames *)

(** Documented behaviour of two commands: REALM_CONFIG writes the page it is given,
    HOST_CALL its structure. *)
Definition framed_rsi : Prop := ∀ w m args a,
  (x0 args = RSI_REALM_CONFIG → ¬ (x1 args ≤ a < x1 args + 0x1000) → (rsi w m args).1.2 !! a = m !! a) ∧
  (x0 args = RSI_HOST_CALL → ¬ (x1 args ≤ a < x1 args + 0x100) → (rsi w m args).1.2 !! a = m !! a).

(** The run structure is apart from the buffers of plane 0. *)
Definition apart_from (run p n : Z) : Prop := run + 0x1000 ≤ p ∨ p + n ≤ run.

Definition at_ (s : rl W) (a : Z) : Z := default 0 (l_mem s !! a).

(** * Preserving the context *)

Lemma rload_eq a (s : rl W) : rload a s = Ok (at_ s a) s.
Proof. done. Qed.

Definition stored (a v : Z) (s : rl W) : rl W :=
  mk_rl (l_world s) (<[a := v]> (l_mem s)) (realm_in_p0 s) (realm_in_pn s) (l_log s).

Lemma rstore_eq a v (s : rl W) : rstore a v s = Ok tt (stored a v s).
Proof. done. Qed.

Lemma at_stored a v (s : rl W) b : at_ (stored a v s) b = if decide (a = b) then v else at_ s b.
Proof.
  unfold at_, stored. cbn. destruct (decide (a = b)) as [->|N]; [by rewrite lookup_insert_eq|].
  by rewrite lookup_insert_ne.
Qed.

(** The same calls have been made, the same planes are known. *)
Definition quiet (s s' : rl W) : Prop :=
  l_log s' = l_log s ∧ realm_in_p0 s' = realm_in_p0 s ∧ realm_in_pn s' = realm_in_pn s.

Lemma preserve_gprs_run (n : nat) (run j : Z) (s : rl W) :
  0 ≤ j → j + Z.of_nat n ≤ 31 →
  ∃ s', preserve_gprs n run j s = Ok tt s' ∧ quiet s s' ∧
    (∀ i, j ≤ i < j + Z.of_nat n → at_ s' (run + plane_enter_gpr i) = at_ s (run + plane_exit_gpr i)) ∧
    ∀ a, (∀ i, j ≤ i < j + Z.of_nat n → a ≠ run + plane_enter_gpr i) → at_ s' a = at_ s a.
Proof.
  revert j s. induction n as [|n IH]; intros j s J B; cbn [preserve_gprs].
  { exists s. split; [done|]. split; [done|]. split; [lia|done]. }
  rewrite (bind_step _ _ _ _ _ (rload_eq _ s)), (bind_step _ _ _ _ _ (rstore_eq _ _ s)).
  set (s1 := stored _ _ s).
  destruct (IH (j + 1) s1) as (s' & E & Q & IN & OUT); [lia|lia|]. exists s'. split; [done|]. split; [exact Q|].
  assert (∀ i, 0 ≤ i < 31 → run + plane_enter_gpr j ≠ run + plane_exit_gpr i) as NE
    by (intros i I; unfold plane_enter_gpr, plane_exit_gpr; lia).
  split.
  - intros i I. destruct (decide (i = j)) as [->|].
    + rewrite OUT by (intros k K; unfold plane_enter_gpr; lia). unfold s1. rewrite at_stored.
      by rewrite decide_True.
    + rewrite IN by lia. unfold s1. rewrite at_stored. rewrite decide_False; [done|]. apply NE. lia.
  - intros a A. rewrite OUT by (intros i I; apply A; lia). unfold s1. rewrite at_stored.
    rewrite decide_False; [done|]. intros <-. apply (A j); [lia|done].
Qed.

Lemma preserve_run (run : Z) (s : rl W) :
  ∃ s', val_realm_preserve_plane_context run s = Ok tt s' ∧ quiet s s' ∧
    (∀ i, 0 ≤ i < 31 → at_ s' (run + plane_enter_gpr i) = at_ s (run + plane_exit_gpr i)) ∧
    at_ s' (run + PLANE_ENTER_PC) = at_ s (run + PLANE_EXIT_ELR_EL2) ∧
    ∀ a, run + 0x800 ≤ a → at_ s' a = at_ s a.
Proof.
  unfold val_realm_preserve_plane_context. change (Z.to_nat VAL_PLANE_ENTRY_GPRS) with 31%nat.
  destruct (preserve_gprs_run 31 run 0 s) as (s1 & E & Q & IN & OUT); [lia|lia|].
  rewrite (bind_step _ _ _ _ _ E), (bind_step _ _ _ _ _ (rload_eq _ s1)), rstore_eq.
  eexists. split; [reflexivity|]. split; [exact Q|].
  assert (∀ a, run + 0x800 ≤ a → at_ s1 a = at_ s a) as HI.
  { intros a A. apply OUT. intros i I. unfold plane_enter_gpr. lia. }
  split; [|split].
  - intros i I. rewrite at_stored, decide_False; [by apply IN|]. unfold PLANE_ENTER_PC, plane_enter_gpr. lia.
  - rewrite at_stored, decide_True by done. apply HI. unfold PLANE_EXIT_ELR_EL2. lia.
  - intros a A. rewrite at_stored, decide_False; [by apply HI|]. unfold PLANE_ENTER_PC. lia.
Qed.

(** * Serving an exit *)

(** What an exit asks for, read from its syndrome and its first register. *)
Inductive request : Type := UnknownSmc | Config | Print | ToP0.

Definition request_of (run : Z) (s : rl W) : request :=
  let ec := ESR_EL2_EC (at_ s (run + PLANE_EXIT_ESR_EL2)) in
  let id := at_ s (run + plane_exit_gpr 0) in
  if ec =? ESR_EL2_EC_SMC then
    if (id =? PSI_TEST_SMC) || (id =? RSI_HOST_CALL) then ToP0 else UnknownSmc
  else if ec =? ESR_EL2_EC_HVC then
    if id =? PSI_REALM_CONFIG then Config else if id =? PSI_PRINT_MSG then Print else ToP0
  else ToP0.

(** The calls plane 0 makes for a request. *)
Definition service (q : request) : list val_smc_param_ts :=
  match q with
  | Config => [mk_smc RSI_REALM_CONFIG realm_config_buff 0 0 0 0 0 0 0 0 0]
  | Print => [mk_smc RSI_HOST_CALL realm_print 0 0 0 0 0 0 0 0 0]
  | _ => []
  end.

(** The registers the plane goes on with: those it left, but for the reply. *)
Definition resumed (run : Z) (q : request) (s s' : rl W) : Prop :=
  (∀ i, 0 ≤ i < 31 → match q with UnknownSmc => i ≠ 0 | Config => i ≠ 0 ∧ i ≠ 1 | _ => True end →
     at_ s' (run + plane_enter_gpr i) = at_ s (run + plane_exit_gpr i)) ∧
  at_ s' (run + PLANE_ENTER_PC) = at_ s (run + PLANE_EXIT_ELR_EL2) ∧
  match q with
  | UnknownSmc => at_ s' (run + plane_enter_gpr 0) = VAL_SMC_NOT_SUPPORTED
  | Config => at_ s' (run + plane_enter_gpr 0) = RSI_SUCCESS ∧
              at_ s' (run + plane_enter_gpr 1) = u8 (at_ s' realm_config_buff)
  | _ => True
  end.

Definition called (s s' : rl W) (l : list val_smc_param_ts) : Prop :=
  l_log s' = l_log s ++ l ∧ realm_in_p0 s' = realm_in_p0 s ∧ realm_in_pn s' = realm_in_pn s.

Lemma rsi_call_run a0 a1 a2 a3 a4 a5 a6 a7 a8 a9 a10 (s : rl W) :
  let args := mk_smc a0 a1 a2 a3 a4 a5 a6 a7 a8 a9 a10 in
  ∃ s', rsi_call a0 a1 a2 a3 a4 a5 a6 a7 a8 a9 a10 s = Ok (rsi (l_world s) (l_mem s) args).2 s' ∧
    called s s' [args] ∧ l_mem s' = (rsi (l_world s) (l_mem s) args).1.2.
Proof.
  intros args. unfold rsi_call. fold args. destruct (rsi _ _ args) as [[w m] r]. eexists. split; [reflexivity|]. done.
Qed.

Context (run : Z) (fr : framed_rsi).
Context (ap_config : apart_from run realm_config_buff 0x1000) (ap_print : apart_from run realm_print 0x100).

(** An address of the entry half of the run structure. *)
Definition entry_half (a : Z) : Prop := run ≤ a < run + 0x800.

Lemma config_run (s : rl W) :
  realm_in_p0 s = true →
  ∃ s', hvc_handle_realm_config run s = Ok PSI_RETURN_TO_PN s' ∧ called s s' (service Config) ∧
    at_ s' (run + plane_enter_gpr 0) = RSI_SUCCESS ∧
    at_ s' (run + plane_enter_gpr 1) = u8 (at_ s' realm_config_buff) ∧
    ∀ a, entry_half a → a ≠ run + plane_enter_gpr 0 → a ≠ run + plane_enter_gpr 1 → at_ s' a = at_ s a.
Proof.
  intros P0. unfold hvc_handle_realm_config. rewrite (bind_step _ _ _ _ _ (rstore_eq _ _ s)). set (s1 := stored _ _ s).
  destruct (rsi_call_run RSI_REALM_CONFIG realm_config_buff 0 0 0 0 0 0 0 0 0 s1) as (s2 & E & CA & MM).
  assert (val_realm_get_ipa_width s1 = Ok (u8 (at_ s2 realm_config_buff)) s2) as EW.
  { unfold val_realm_get_ipa_width, val_realm_in_p0.
    rewrite (bind_step (gets realm_in_p0) _ s1 true s1) by (unfold gets; cbn; by rewrite P0).
    unfold val_realm_rsi_realm_config. rewrite bind_assoc, (bind_step _ _ _ _ _ E). done. }
  rewrite (bind_step _ _ _ _ _ EW), (bind_step _ _ _ _ _ (rstore_eq _ _ s2)).
  eexists. split; [reflexivity|]. split; [exact CA|].
  assert (∀ a, entry_half a → at_ s2 a = at_ s1 a) as F2.
  { intros a A. unfold at_. rewrite MM. rewrite (proj1 (fr _ _ _ a)); [done|done|]. cbn.
    unfold entry_half in A. unfold apart_from in ap_config. lia. }
  split; [|split].
  - rewrite at_stored, decide_False by (unfold plane_enter_gpr; lia).
    rewrite F2 by (unfold entry_half, plane_enter_gpr; lia). unfold s1. by rewrite at_stored, decide_True.
  - rewrite at_stored, decide_True by done. rewrite at_stored, decide_False; [done|].
    unfold apart_from in ap_config. unfold plane_enter_gpr. lia.
  - intros a A N0 N1. rewrite at_stored, decide_False by done. rewrite F2 by done. unfold s1.
    by rewrite at_stored, decide_False.
Qed.

Lemma print_run (s : rl W) :
  ∃ s', hvc_handle_realm_print s = Ok PSI_RETURN_TO_PN s' ∧ called s s' (service Print) ∧
    ∀ a, entry_half a → at_ s' a = at_ s a.
Proof.
  unfold hvc_handle_realm_print. rewrite (bind_step _ _ _ _ _ (rstore_eq _ _ s)). set (s1 := stored _ _ s).
  destruct (rsi_call_run RSI_HOST_CALL realm_print 0 0 0 0 0 0 0 0 0 s1) as (s2 & E & CA & MM).
  rewrite (bind_step _ _ _ _ _ E). exists s2. split; [done|]. split; [exact CA|].
  intros a A. unfold at_. rewrite MM, (proj2 (fr _ _ _ a)); [|done|].
  - fold (at_ s1 a). unfold s1. rewrite at_stored, decide_False; [done|].
    unfold HOST_CALL_IMM, entry_half, apart_from in *. lia.
  - cbn. unfold entry_half, apart_from in *. lia.
Qed.

Lemma entry_slots :
  (∀ i, 0 ≤ i < 31 → entry_half (run + plane_enter_gpr i)) ∧ entry_half (run + PLANE_ENTER_PC) ∧
  (∀ i j, 0 ≤ i < 31 → i ≠ j → run + plane_enter_gpr i ≠ run + plane_enter_gpr j) ∧
  ∀ j, 0 ≤ j ≤ 1 → run + PLANE_ENTER_PC ≠ run + plane_enter_gpr j.
Proof. unfold entry_half, plane_enter_gpr, PLANE_ENTER_PC. split_and!; intros; lia. Qed.

Lemma serve_run (s : rl W) :
  realm_in_p0 s = true →
  ∃ s', (val_realm_preserve_plane_context run ;; val_realm_plane_handle_exception run) s =
      Ok (match request_of run s with ToP0 => PSI_RETURN_TO_P0 | _ => PSI_RETURN_TO_PN end) s' ∧
    called s s' (service (request_of run s)) ∧ resumed run (request_of run s) s s'.
Proof.
  intros P0. destruct (preserve_run run s) as (s1 & E1 & (Q1 & Q2 & Q3) & IN & PC & HI).
  rewrite (bind_step _ _ _ _ _ E1). clear E1. unfold val_realm_plane_handle_exception.
  pose proof entry_slots as (EH & EP & NE & NP).
  rewrite (bind_step _ _ _ _ _ (rload_eq _ s1)), HI by (unfold PLANE_EXIT_ESR_EL2; lia).
  assert (at_ s1 (run + plane_exit_gpr 0) = at_ s (run + plane_exit_gpr 0)) as H0
    by (apply HI; unfold plane_exit_gpr; lia).
  assert (∃ s', called s s' [] ∧ resumed run ToP0 s s' ∧ s' = s1) as (s0 & C0 & R0 & ->).
  { exists s1. split; [|split; [split; [intros i Hi _; exact (IN i Hi)|split; [exact PC|exact I]]|reflexivity]].
    unfold called. rewrite app_nil_r. exact (conj Q1 (conj Q2 Q3)). }
  unfold request_of. destruct (ESR_EL2_EC _ =? ESR_EL2_EC_SMC).
  - rewrite (bind_step _ _ _ _ _ (rload_eq _ s1)), H0. destruct (_ || _); [by exists s1|].
    rewrite (bind_step _ _ _ _ _ (rstore_eq _ _ s1)). eexists. split; [reflexivity|].
    split; [unfold called; cbn; by rewrite app_nil_r|]. split; [|split].
    + intros i I N. rewrite at_stored, decide_False; [by apply IN|]. apply not_eq_sym, NE; [done|done].
    + rewrite at_stored, decide_False; [done|]. apply not_eq_sym, NP. lia.
    + by rewrite at_stored, decide_True.
  - destruct (ESR_EL2_EC _ =? ESR_EL2_EC_HVC); [|by exists s1].
    rewrite (bind_step _ _ _ _ _ (rload_eq _ s1)), H0. destruct (_ =? PSI_REALM_CONFIG).
    + destruct (config_run s1) as (s2 & E2 & (CA1 & CA2 & CA3) & A0 & A1 & FR); [by rewrite Q2|].
      exists s2. split; [done|]. split; [unfold called; by rewrite CA1, CA2, CA3, Q1, Q2, Q3|].
      split; [|split; [|done]].
      * intros i I [N0 N1]. rewrite FR; [by apply IN|by apply EH|by apply NE|by apply NE].
      * rewrite FR; [done|done|apply NP; lia|apply NP; lia].
    + destruct (_ =? PSI_PRINT_MSG); [|by exists s1].
      destruct (print_run s1) as (s2 & E2 & (CA1 & CA2 & CA3) & FR). exists s2. split; [done|].
      split; [unfold called; by rewrite CA1, CA2, CA3, Q1, Q2, Q3|]. split; [|split; [|done]].
      * intros i I _. rewrite FR; [by apply IN|by apply EH].
      * by rewrite FR.
Qed.

(** * The loop over the exits of a plane *)

Context (plane_index : Z).

Definition entered (s : rl W) (r : val_smc_param_ts) (s' : rl W) : Prop :=
  val_realm_rsi_plane_enter plane_index run s = Ok r s'.

(** Turns of the loop: the plane is entered, exits with a request that is served, and
    the registers it goes on with are set. *)
Inductive turns : list request → rl W → rl W → Prop :=
  | turns_nil s : turns [] s s
  | turns_cons q l s r s1 s2 s3 :
      entered s r s1 → x0 r = 0 → request_of run s1 = q → q ≠ ToP0 →
      called s1 s2 (service q) → resumed run q s1 s2 →
      turns l s2 s3 → turns (q :: l) s s3.

Lemma entered_p0 (s : rl W) r s1 : entered s r s1 → realm_in_p0 s1 = realm_in_p0 s.
Proof.
  unfold entered, val_realm_rsi_plane_enter, rsi_call. destruct (rsi _ _ _) as [[w m] r']. intros E. by simplify_eq.
Qed.

Lemma run_plane_run (fuel : nat) (s : rl W) :
  realm_in_p0 s = true →
  match val_realm_run_plane fuel plane_index run s with
  | Ok v s' => ∃ l s1 r s2, (length l < fuel)%nat ∧ turns l s s1 ∧ entered s1 r s2 ∧
      (if x0 r =? 0 then v = VAL_SUCCESS ∧ request_of run s2 = ToP0 ∧ called s2 s' [] ∧ resumed run ToP0 s2 s'
       else v = VAL_ERROR ∧ s' = s2)
  | Fault _ => False
  | NoFuel => ∃ l s1, length l = fuel ∧ turns l s s1
  end.
Proof.
  revert s. induction fuel as [|fuel IH]; intros s P0; cbn [val_realm_run_plane].
  { exists [], s. split; [done|constructor]. }
  destruct (val_realm_rsi_plane_enter plane_index run s) as [r s1|f|] eqn:E; [| |].
  2, 3: unfold val_realm_rsi_plane_enter, rsi_call in E; by destruct (rsi _ _ _) as [[? ?] ?].
  rewrite (bind_step _ _ _ _ _ E). fold (entered s r s1) in E. pose proof (entered_p0 _ _ _ E) as P1.
  unfold truthy. destruct (Z.eqb_spec (x0 r) 0) as [Z0|NZ]; cbn [negb].
  2: { exists [], s, r, s1. split; [cbn; lia|]. split; [constructor|]. split; [done|].
       by rewrite (proj2 (Z.eqb_neq _ _) NZ). }
  destruct (serve_run s1 (eq_trans P1 P0)) as (s2 & E2 & CA & RE).
  rewrite <- bind_assoc, (bind_step _ _ _ _ _ E2).
  destruct (request_of run s1) eqn:RQ.
  4: { change (negb (PSI_RETURN_TO_P0 =? PSI_RETURN_TO_PN)) with true. cbn iota.
       exists [], s, r, s1. split; [cbn; lia|]. split; [constructor|]. split; [exact E|].
       rewrite (proj2 (Z.eqb_eq _ _) Z0). split; [reflexivity|]. split; [exact RQ|exact (conj CA RE)]. }
  all: change (negb (PSI_RETURN_TO_PN =? PSI_RETURN_TO_PN)) with false; cbn iota.
  all: assert (realm_in_p0 s2 = true) as P2 by exact (eq_trans (proj1 (proj2 CA)) (eq_trans P1 P0)).
  all: specialize (IH s2 P2); destruct (val_realm_run_plane fuel plane_index run s2) as [v s'|f|]; [|done|].
  all: match type of RQ with _ = ?q =>
    first [ destruct IH as (l & t1 & r' & t2 & LE & TU & EN & D); exists (q :: l), t1, r', t2;
            split; [cbn; lia|]; split; [|exact (conj EN D)];
            eapply (turns_cons q l s r s1 s2 t1); [exact E|exact Z0|exact RQ|discriminate|exact CA|exact RE|exact TU]
          | destruct IH as (l & t1 & LE & TU); exists (q :: l), t1; split; [cbn; lia|];
            eapply (turns_cons q l s r s1 s2 t1); [exact E|exact Z0|exact RQ|discriminate|exact CA|exact RE|exact TU] ] end.
Qed.
End Facts.

(** * Permissions of a range *)

Section Perm.
Context {W : Type} {RW : RealmWorld W}.

(** An RMM that accepts each request for the rest of a range, and finishes at least a
    page of it or all of it. *)
Definition advancing (perm_idx top : Z) : Prop := ∀ w m base cookie, base < top →
  let r := (rsi w m (mk_smc RSI_MEM_SET_PERM_INDEX base top perm_idx cookie 0 0 0 0 0 0)).2 in
  x0 r = RSI_SUCCESS ∧ x2 r = RSI_ACCEPT ∧ base < x1 r ≤ top ∧ (base + 0x1000 ≤ x1 r ∨ x1 r = top).

(** The calls for a range: each begins where the last one ended, with its cookie. *)
Inductive pieces (perm_idx top : Z) : Z → Z → rl W → rl W → Prop :=
  | pieces_end cookie s : pieces perm_idx top top cookie s s
  | pieces_next base cookie s r s1 s2 :
      base < x1 r ≤ top → val_realm_rsi_mem_set_perm_index base top perm_idx cookie s = Ok r s1 →
      pieces perm_idx top (x1 r) (x3 r) s1 s2 → pieces perm_idx top base cookie s s2.

Lemma perm_loop_run (perm_idx top : Z) (n : nat) (base cookie : Z) (s : rl W) :
  advancing perm_idx top → base ≤ top → top - base ≤ 0x1000 * Z.of_nat n →
  run_to (perm_index_loop (S n) base top perm_idx cookie) s
    (λ v s', v = VAL_SUCCESS ∧ pieces perm_idx top base cookie s s').
Proof.
  intros ADV. revert base cookie s. induction n as [|n IH]; intros base cookie s LE B;
    cbn [perm_index_loop]; destruct (Z.eqb_spec base top) as [->|N].
  1, 3: apply run_to_ret; split; [reflexivity|constructor].
  { lia. }
  destruct (rsi_call_run RSI_MEM_SET_PERM_INDEX base top perm_idx cookie 0 0 0 0 0 0 s) as (s1 & E & _ & _).
  set (r := (rsi _ _ _).2) in E. destruct (ADV (l_world s) (l_mem s) base cookie) as (Z0 & Z2 & R & R'); [lia|].
  fold r in Z0, Z2, R, R'. clearbody r. eapply run_to_step; [exact E|]. rewrite Z0, Z2.
  change ((RSI_SUCCESS =? RSI_ERROR_INPUT) || (RSI_ACCEPT =? RSI_REJECT)) with false. cbn iota.
  eapply run_to_mono; [apply (IH (x1 r) (x3 r) s1); lia|].
  intros v s' [-> PI]. split; [reflexivity|]. apply (pieces_next perm_idx top base cookie s r s1 s'); [lia|exact E|exact PI].
Qed.

(** Other errors than RSI_ERROR_INPUT are not looked at: an RMM that keeps answering with
    one keeps the loop going. *)
Lemma perm_error_ignored (perm_idx top : Z) (fuel : nat) (base cookie : Z) (s : rl W) :
  (∀ w m args, let r := (rsi w m args).2 in x0 r ≠ RSI_ERROR_INPUT ∧ x2 r ≠ RSI_REJECT ∧ x1 r ≠ top) →
  base ≠ top → perm_index_loop fuel base top perm_idx cookie s = NoFuel.
Proof.
  intros BAD. revert base cookie s. induction fuel as [|fuel IH]; intros base cookie s N; cbn [perm_index_loop]; [reflexivity|].
  rewrite (proj2 (Z.eqb_neq _ _) N).
  destruct (rsi_call_run RSI_MEM_SET_PERM_INDEX base top perm_idx cookie 0 0 0 0 0 0 s) as (s1 & E & _ & _).
  unfold val_realm_rsi_mem_set_perm_index. rewrite (bind_step _ _ _ _ _ E).
  destruct (BAD (l_world s) (l_mem s) (mk_smc RSI_MEM_SET_PERM_INDEX base top perm_idx cookie 0 0 0 0 0 0)) as (B0 & B2 & B1).
  rewrite (proj2 (Z.eqb_neq _ _) B0), (proj2 (Z.eqb_neq _ _) B2). cbn [orb]. apply IH. exact B1.
Qed.
End Perm.

(** * Properties *)

Section Properties.
Context {W : Type} {RW : RealmWorld W}.

(** C22. Running a plane, for every RMM whose two data commands write only where they
    are told: the loop enters the plane again after each exit that plane 0 serves, with
    the registers and the address it left, but for the reply (not supported for an SMC,
    the width of the address space for the configuration), and returns VAL_ERROR at the
    first entry the RMM refuses, VAL_SUCCESS at the first exit that is not served; it
    gives up only when every exit the fuel allows was served. *)
Theorem plane_runs_to_unserved_exit (run plane_index : Z) (fuel : nat) (s : rl W) :
  framed_rsi → apart_from run realm_config_buff 0x1000 → apart_from run realm_print 0x100 →
  realm_in_p0 s = true →
  match val_realm_run_plane fuel plane_index run s with
  | Ok v s' => ∃ l s1 r s2, (length l < fuel)%nat ∧ turns run plane_index l s s1 ∧ entered run plane_index s1 r s2 ∧
      (if x0 r =? 0 then v = VAL_SUCCESS ∧ request_of run s2 = ToP0 ∧ called s2 s' [] ∧ resumed run ToP0 s2 s'
       else v = VAL_ERROR ∧ s' = s2)
  | Fault _ => False
  | NoFuel => ∃ l s1, length l = fuel ∧ turns run plane_index l s s1
  end.
Proof. intros fr ac ap P0. by apply run_plane_run. Qed.

(** C23. Against an RMM that accepts the permission and finishes a page or more (or the rest)
    with each command, [val_realm_plane_perm_init] returns VAL_SUCCESS after at most one command
    per page; each command asks for the rest of the range with the cookie of the last. *)
Theorem perm_init_covers_range (plane_idx perm_idx base top : Z) (n : nat) (s : rl W) :
  advancing perm_idx top → base ≤ top → top - base ≤ 0x1000 * Z.of_nat n →
  (∀ w m, x0 (rsi w m (mk_smc RSI_MEM_SET_PERM_VALUE plane_idx perm_idx S2_AP_RW_upX 0 0 0 0 0 0 0)).2 = RSI_SUCCESS) →
  run_to (val_realm_plane_perm_init (S n) plane_idx perm_idx base top) s (λ v s', v = VAL_SUCCESS ∧
    ∃ r s1, val_realm_rsi_mem_set_perm_value plane_idx perm_idx S2_AP_RW_upX s = Ok r s1 ∧
      pieces perm_idx top base 0 s1 s').
Proof.
  intros ADV LE B OK. unfold val_realm_plane_perm_init.
  destruct (rsi_call_run RSI_MEM_SET_PERM_VALUE plane_idx perm_idx S2_AP_RW_upX 0 0 0 0 0 0 0 s) as (s1 & E & _ & _).
  pose proof (OK (l_world s) (l_mem s)) as Z0. set (r := (rsi _ _ _).2) in *. clearbody r.
  eapply run_to_step; [exact E|]. rewrite Z0. change (truthy RSI_SUCCESS) with false. cbn iota.
  eapply run_to_mono; [by apply perm_loop_run|]. intros v s' [-> PI]. split; [reflexivity|].
  exists r, s1. exact (conj E PI).
Qed.
End Properties.

(** * Witnesses *)

(** Plane 1 exits three times: to print, to ask for the configuration, and to call P0. *)
Definition demo_exit (esr id : Z) (m : gmap Z Z) : gmap Z Z :=
  <[0x10000 + PLANE_EXIT_ESR_EL2 := esr]> (<[0x10000 + plane_exit_gpr 0 := id]> m).

#[local] Instance demo_world : RealmWorld nat := {|
  rsi w m a :=
    if x0 a =? RSI_PLANE_ENTER then
      match w with
      | O => (1%nat, demo_exit ESR_EL2_EC_HVC PSI_PRINT_MSG m, mk_smc 0 0 0 0 0 0 0 0 0 0 0)
      | 1%nat => (2%nat, demo_exit ESR_EL2_EC_HVC PSI_REALM_CONFIG m, mk_smc 0 0 0 0 0 0 0 0 0 0 0)
      | _ => (3%nat, demo_exit ESR_EL2_EC_HVC PSI_P0_CALL m, mk_smc 0 0 0 0 0 0 0 0 0 0 0)
      end
    else if x0 a =? RSI_MEM_SET_PERM_INDEX then
      (w, m, mk_smc 0 (Z.min (x1 a + 0x2000) (x2 a)) 0 7 0 0 0 0 0 0 0)
    else (w, m, mk_smc 0 0 0 0 0 0 0 0 0 0 0);
  hvc w m a := (w, m, a);
  gv_realm_host_call := 0x1000;
  realm_config_buff := 0x2000;
  realm_print := 0x3000
|}.

Lemma demo_framed : framed_rsi.
Proof. intros w m args a. split; intros E _; cbn; rewrite E; reflexivity. Qed.

Definition demo_realm : rl nat := mk_rl 0%nat ∅ true false [].

Lemma plane_runs_to_unserved_exit_witness :
  match val_realm_run_plane 5 1 0x10000 demo_realm with
  | Ok v s' => ∃ l s1 r s2, (length l < 5)%nat ∧ turns 0x10000 1 l demo_realm s1 ∧ entered 0x10000 1 s1 r s2 ∧
      (if x0 r =? 0 then v = VAL_SUCCESS ∧ request_of 0x10000 s2 = ToP0 ∧ called s2 s' [] ∧ resumed 0x10000 ToP0 s2 s'
       else v = VAL_ERROR ∧ s' = s2)
  | Fault _ => False
  | NoFuel => ∃ l s1, length l = 5%nat ∧ turns 0x10000 1 l demo_realm s1
  end.
Proof.
  apply (plane_runs_to_unserved_exit 0x10000 1 5 demo_realm demo_framed).
  - right. vm_compute. discriminate.
  - right. vm_compute. discriminate.
  - reflexivity.
Defined.

(** The run above ends: three entries, the first two exits served. *)
Example demo_run_ends :
  match val_realm_run_plane 5 1 0x10000 demo_realm with
  | Ok v s' => v = VAL_SUCCESS ∧ map x0 (l_log s') =
      [RSI_PLANE_ENTER; RSI_HOST_CALL; RSI_PLANE_ENTER; RSI_REALM_CONFIG; RSI_PLANE_ENTER]
  | _ => False
  end.
Proof. vm_compute. split; reflexivity. Qed.

Lemma perm_init_covers_range_witness :
  run_to (val_realm_plane_perm_init 6 1 2 0x4000 0x9000) demo_realm (λ v s', v = VAL_SUCCESS ∧
    ∃ r s1, val_realm_rsi_mem_set_perm_value 1 2 S2_AP_RW_upX demo_realm = Ok r s1 ∧
      pieces 2 0x9000 0x4000 0 s1 s').
Proof.
  apply (perm_init_covers_range 1 2 0x4000 0x9000 5 demo_realm).
  - intros w m base cookie LT. cbn. split; [reflexivity|]. split; [reflexivity|]. split; lia.
  - lia.
  - lia.
  - reflexivity.
Defined.
