(* ===== verification/DevReport.v ===== *)
(** The report a device gives on its interface, decoded by a Realm
    (val_realm_device_assignment.c): fields of a header in little-endian order, then one
    element for each range of its memory.  The definitions come first, then what holds:
    the header is read as it was written, and a report with a range is not read. *)
From S2P Require Import Prelude Defs PcieFacts.

(** * Layout (val_realm_device_assignment.h) *)

Definition INTERFACE_INFO : Z := 0.
Definition RESERVED : Z := 2.
Definition MSI_X_MESSGAE_CONTROL : Z := 4.
Definition LNR_CONTROL : Z := 6.
Definition TPH_CONTROL : Z := 8.
Definition MMIO_RANGE_COUNT : Z := 12.
Definition INTERFACE_INFO_SIZE : Z := 2.
Definition RESERVED_SIZE : Z := 2.
Definition MSI_X_MESSGAE_CONTROL_SIZE : Z := 2.
Definition LNR_CONTROL_SIZE : Z := 2.
Definition TPH_CONTROL_SIZE : Z := 4.
Definition MMIO_RANGE_COUNT_SIZE : Z := 4.
Definition FIRST_PAGE_SIZE : Z := 8.
Definition NUM_PAGES : Z := 4.
Definition RANGE_ATTRIBUTES : Z := 2.
Definition RID_RANGE : Z := 2.

Record interface_report : Type := mk_interface_report {
  interface_info : Z;
  ir_reserved : Z;
  msi_x_message_control : Z;
  lnr_control : Z;
  tph_control : Z;
  mmio_range_count : Z
}.
Record pci_tdisp_mmio_range_t : Type := mk_mmio_range {
  first_page : Z;
  number_of_pages : Z;
  range_attributes : Z;
  range_id : Z
}.

(** * Decoding *)

Section Decoding.
Context {S : Type}.

(** An element of [report_buff], as an int. *)
Definition report_byte (buff : list Z) (i : Z) : M S Z := λ s,
  match buff !! Z.to_nat i with
  | Some b => Ok b s
  | None => Fault OutOfBounds
  end.

(** [report_buff[..] << sh], a shift of an int: defined for less than 32 bits; a result
    that sets the sign is extended when it becomes a word of 64 bits. *)
Definition shift_byte (b sh : Z) : M S Z :=
  if sh <? 32 then
    let v := Z.shiftl b sh in ret (u64 (if v <? 2 ^ 31 then v else v - 2 ^ 32))
  else fail Undef.

(** [for (j = 1; j <= size; j++)], the bytes from the last to the first. *)
Fixpoint value_loop (n : nat) (buff : list Z) (offset size j value : Z) : M S Z :=
  match n with
  | O => ret value
  | Datatypes.S n =>
      let* b := report_byte buff (offset - j) in
      let* x := shift_byte b (8 * (size - j)) in
      value_loop n buff offset size (j + 1) (Z.lor value x)
  end.
Definition report_value (buff : list Z) (offset size : Z) : M S Z :=
  value_loop (Z.to_nat size) buff (offset + size) size 1 0.

Definition decode_header (buff : list Z) : M S interface_report :=
  let* a := report_value buff INTERFACE_INFO INTERFACE_INFO_SIZE in
  let* b := report_value buff RESERVED RESERVED_SIZE in
  let* c := report_value buff MSI_X_MESSGAE_CONTROL MSI_X_MESSGAE_CONTROL_SIZE in
  let* d := report_value buff LNR_CONTROL LNR_CONTROL_SIZE in
  let* e := report_value buff TPH_CONTROL TPH_CONTROL_SIZE in
  let* f := report_value buff MMIO_RANGE_COUNT MMIO_RANGE_COUNT_SIZE in
  ret (mk_interface_report (u16 a) (u16 b) (u16 c) (u16 d) (u32 e) (u32 f)).

Definition decode_range (buff : list Z) (offset : Z) : M S pci_tdisp_mmio_range_t :=
  let* a := report_value buff offset FIRST_PAGE_SIZE in
  let offset := offset + FIRST_PAGE_SIZE in
  let* b := report_value buff offset NUM_PAGES in
  let offset := offset + NUM_PAGES in
  let* c := report_value buff offset RANGE_ATTRIBUTES in
  let offset := offset + RANGE_ATTRIBUTES in
  let* d := report_value buff offset RID_RANGE in
  ret (mk_mmio_range (u64 (Z.shiftl a 12)) (u32 b) (u16 c) (u16 d)).

Fixpoint decode_ranges (n : nat) (buff : list Z) (i : Z) : M S (list pci_tdisp_mmio_range_t) :=
  match n with
  | O => ret []
  | Datatypes.S n =>
      let* r := decode_range buff (16 + i * 16) in
      let* l := decode_ranges n buff (i + 1) in
      ret (r :: l)
  end.

(** [None] is the null pointer; the result is the status with what was decoded. *)
Definition interface_report_decoding (report_buff : option (list Z))
    : M S (Z * option (interface_report * list pci_tdisp_mmio_range_t)) :=
  match report_buff with
  | None => ret (VAL_ERROR, None)
  | Some buff =>
      let* h := decode_header buff in
      let* l := decode_ranges (Z.to_nat (mmio_range_count h)) buff 0 in
      ret (VAL_SUCCESS, Some (h, l))
  end.
End Decoding.

(** * The header *)

Definition le16 (v : Z) : list Z := [v mod 256; v / 256 mod 256].
Definition le32 (v : Z) : list Z := [v mod 256; v / 256 mod 256; v / 65536 mod 256; v / 16777216 mod 256].
Definition encode_header (h : interface_report) : list Z :=
  le16 (interface_info h) ++ le16 (ir_reserved h) ++ le16 (msi_x_message_control h) ++ le16 (lnr_control h) ++
  le32 (tph_control h) ++ le32 (mmio_range_count h).
Definition header_fits (h : interface_report) : Prop :=
  0 ≤ interface_info h < 2 ^ 16 ∧ 0 ≤ ir_reserved h < 2 ^ 16 ∧ 0 ≤ msi_x_message_control h < 2 ^ 16 ∧
  0 ≤ lnr_control h < 2 ^ 16 ∧ 0 ≤ tph_control h < 2 ^ 32 ∧ 0 ≤ mmio_range_count h < 2 ^ 32.

Section Facts.
Context {S : Type}.
Implicit Types s : S.

Lemma u32_lor a b : u32 (Z.lor a b) = Z.lor (u32 a) (u32 b).
Proof. unfold u32. rewrite <- !Z.land_ones by lia. apply Z.land_lor_distr_l. Qed.

Lemma shift_byte_run b sh s : 0 ≤ b < 256 → 0 ≤ sh ≤ 24 → ∃ x, shift_byte b sh s = Ok x s ∧ u32 x = b * 2 ^ sh ∧ (sh ≤ 16 → x = b * 2 ^ sh).
Proof.
  intros Hb Hs. unfold shift_byte. rewrite (proj2 (Z.ltb_lt _ _)) by lia. rewrite Z.shiftl_mul_pow2 by lia.
  assert (1 ≤ 2 ^ sh ≤ 2 ^ 24) as Hp by (split; [change 1 with (2 ^ 0)|]; apply Z.pow_le_mono_r; lia).
  assert (0 ≤ b * 2 ^ sh < 2 ^ 32) as Hv by nia. eexists. split; [done|]. split.
  - unfold u32, u64. destruct (Z.ltb_spec (b * 2 ^ sh) (2 ^ 31)).
    + rewrite (Z.mod_small _ (2 ^ 64)) by lia. by apply Z.mod_small.
    + rewrite <- (Z.mod_unique (b * 2 ^ sh - 2 ^ 32) (2 ^ 64) (-1) (b * 2 ^ sh - 2 ^ 32 + 2 ^ 64)) by lia.
      symmetry. apply Z.mod_unique with (2 ^ 32 - 1); lia.
  - intros Hs2. assert (2 ^ sh ≤ 2 ^ 16) by (apply Z.pow_le_mono_r; lia). rewrite (proj2 (Z.ltb_lt _ _)) by nia. unfold u64. apply Z.mod_small. nia.
Qed.

Lemma value16_run buff i v s : 0 ≤ v < 2 ^ 16 → 0 ≤ i → le16 v `prefix_of` drop (Z.to_nat i) buff → ∃ x, report_value buff i 2 s = Ok x s ∧ u16 x = v.
Proof.
  intros Hv Hi [rest Hr]. assert (∀ k, buff !! (Z.to_nat i + k)%nat = (le16 v ++ rest) !! k) as Hl by (intros k; by rewrite <- Hr, lookup_drop).
  pose proof (Hl 0%nat) as H0. pose proof (Hl 1%nat) as H1. cbn in H0, H1.
  unfold report_value. cbn [Z.to_nat Pos.to_nat Pos.iter_op Nat.add value_loop].
  change (value_loop (Z.to_nat 2)) with (@value_loop S 2). cbn [value_loop].
  unfold report_byte at 1. rewrite (bind_step _ _ s (v / 256 mod 256) s) by (replace (Z.to_nat (i + 2 - 1)) with (Z.to_nat i + 1)%nat by lia; by rewrite H1).
  pose proof (Z.mod_pos_bound (v / 256) 256). pose proof (Z.mod_pos_bound v 256).
  destruct (shift_byte_run (v / 256 mod 256) (8 * (2 - 1)) s) as (x1 & E1 & _ & F1); [lia|lia|]. rewrite (bind_step _ _ _ _ _ E1).
  unfold report_byte at 1. rewrite (bind_step _ _ s (v mod 256) s) by (replace (Z.to_nat (i + 2 - (1 + 1))) with (Z.to_nat i + 0)%nat by lia; by rewrite H0).
  destruct (shift_byte_run (v mod 256) (8 * (2 - (1 + 1))) s) as (x0 & E0 & _ & F0); [lia|lia|]. rewrite (bind_step _ _ _ _ _ E0).
  eexists. split; [done|]. rewrite F1, F0 by lia. rewrite Z.lor_0_l. change (8 * (2 - 1)) with 8. change (8 * (2 - (1 + 1))) with 0. rewrite Z.mul_1_r.
  rewrite lor_shift_add by lia. unfold u16. rewrite (Z.mod_small (v / 256)) by (split; [apply Z.div_pos; lia|apply Z.div_lt_upper_bound; lia]).
  rewrite Z.mul_comm. change (2 ^ 8) with 256. rewrite <- Z.div_mod by lia. by apply Z.mod_small.
Qed.

Lemma le32_lor v : 0 ≤ v < 2 ^ 32 →
  Z.lor (Z.lor (Z.lor (v / 16777216 mod 256 * 2 ^ 24) (v / 65536 mod 256 * 2 ^ 16)) (v / 256 mod 256 * 2 ^ 8)) (v mod 256) = v.
Proof.
  intros Hv. apply Z.bits_inj'. intros k Hk. rewrite !Z.lor_spec, <- !Z.shiftl_mul_pow2 by lia. rewrite !Z.shiftl_spec by lia.
  change 16777216 with (2 ^ 24). change 65536 with (2 ^ 16). change 256 with (2 ^ 8). rewrite <- !Z.shiftr_div_pow2, <- !Z.land_ones by lia.
  rewrite !Z.land_spec.
  destruct (Z.lt_ge_cases k 32) as [Hk32|Hk32].
  - destruct (Z.lt_ge_cases k 8); [|destruct (Z.lt_ge_cases k 16); [|destruct (Z.lt_ge_cases k 24)]];
      rewrite ?Z.testbit_neg_r by lia; rewrite ?Z.ones_spec_low by lia; rewrite ?Z.ones_spec_high by lia; cbn;
      rewrite ?Z.shiftr_spec, ?andb_true_r, ?andb_false_r, ?orb_false_r by lia; cbn; try (f_equal; lia); done.
  - rewrite !Z.ones_spec_high by lia. rewrite !andb_false_r. cbn. symmetry. destruct (Z.eq_dec v 0) as [->|]; [apply Z.bits_0|].
    apply Z.bits_above_log2; [lia|]. apply Z.log2_lt_pow2; [lia|]. apply Z.lt_le_trans with (2 ^ 32); [lia|]. apply Z.pow_le_mono_r; lia.
Qed.

Lemma value32_run buff i v s : 0 ≤ v < 2 ^ 32 → 0 ≤ i → le32 v `prefix_of` drop (Z.to_nat i) buff → ∃ x, report_value buff i 4 s = Ok x s ∧ u32 x = v.
Proof.
  intros Hv Hi [rest Hr]. assert (∀ k, buff !! (Z.to_nat i + k)%nat = (le32 v ++ rest) !! k) as Hl by (intros k; by rewrite <- Hr, lookup_drop).
  assert (∀ j k b, le32 v !! k = Some b → j = i + Z.of_nat k → @report_byte S buff j s = Ok b s) as Hbyte.
  { intros j k b Hb ->. unfold report_byte. replace (Z.to_nat (i + Z.of_nat k)) with (Z.to_nat i + k)%nat by lia.
    by rewrite Hl, (lookup_app_l_Some _ _ _ _ Hb). }
  unfold report_value. change (value_loop (Z.to_nat 4)) with (@value_loop S 4). cbn [value_loop].
  rewrite (bind_step _ _ s _ s (Hbyte (i + 4 - 1) 3%nat _ eq_refl ltac:(lia))).
  destruct (shift_byte_run (v / 16777216 mod 256) (8 * (4 - 1)) s) as (x3 & E3 & F3 & _); [apply Z.mod_pos_bound; lia|lia|]. rewrite (bind_step _ _ _ _ _ E3).
  rewrite (bind_step _ _ s _ s (Hbyte (i + 4 - (1 + 1)) 2%nat _ eq_refl ltac:(lia))).
  destruct (shift_byte_run (v / 65536 mod 256) (8 * (4 - (1 + 1))) s) as (x2 & E2 & F2 & _); [apply Z.mod_pos_bound; lia|lia|]. rewrite (bind_step _ _ _ _ _ E2).
  rewrite (bind_step _ _ s _ s (Hbyte (i + 4 - (1 + 1 + 1)) 1%nat _ eq_refl ltac:(lia))).
  destruct (shift_byte_run (v / 256 mod 256) (8 * (4 - (1 + 1 + 1))) s) as (x1 & E1 & F1 & _); [apply Z.mod_pos_bound; lia|lia|]. rewrite (bind_step _ _ _ _ _ E1).
  rewrite (bind_step _ _ s _ s (Hbyte (i + 4 - (1 + 1 + 1 + 1)) 0%nat _ eq_refl ltac:(lia))).
  destruct (shift_byte_run (v mod 256) (8 * (4 - (1 + 1 + 1 + 1))) s) as (x0 & E0 & F0 & _); [apply Z.mod_pos_bound; lia|lia|]. rewrite (bind_step _ _ _ _ _ E0).
  eexists. split; [done|]. rewrite !u32_lor, F0, F1, F2, F3. change (u32 0) with 0. rewrite Z.lor_0_l.
  change (8 * (4 - 1)) with 24. change (8 * (4 - (1 + 1))) with 16. change (8 * (4 - (1 + 1 + 1))) with 8.
  change (8 * (4 - (1 + 1 + 1 + 1))) with 0. rewrite Z.mul_1_r. by apply le32_lor.
Qed.

Lemma decode_header_run h rest s : header_fits h → decode_header (encode_header h ++ rest) s = Ok h s.
Proof.
  destruct h as [a b c d e f]. intros (Ha & Hb & Hc & Hd & He & Hf). cbn in *. unfold decode_header.
  destruct (value16_run (encode_header (mk_interface_report a b c d e f) ++ rest) 0 a s) as (x0 & E0 & F0); [lia|lia|by eexists|].
  destruct (value16_run (encode_header (mk_interface_report a b c d e f) ++ rest) 2 b s) as (x1 & E1 & F1); [lia|lia|by eexists|].
  destruct (value16_run (encode_header (mk_interface_report a b c d e f) ++ rest) 4 c s) as (x2 & E2 & F2); [lia|lia|by eexists|].
  destruct (value16_run (encode_header (mk_interface_report a b c d e f) ++ rest) 6 d s) as (x3 & E3 & F3); [lia|lia|by eexists|].
  destruct (value32_run (encode_header (mk_interface_report a b c d e f) ++ rest) 8 e s) as (x4 & E4 & F4); [lia|lia|by eexists|].
  destruct (value32_run (encode_header (mk_interface_report a b c d e f) ++ rest) 12 f s) as (x5 & E5 & F5); [lia|lia|by eexists|].
  rewrite (bind_step _ _ _ _ _ E0), (bind_step _ _ _ _ _ E1), (bind_step _ _ _ _ _ E2), (bind_step _ _ _ _ _ E3), (bind_step _ _ _ _ _ E4), (bind_step _ _ _ _ _ E5).
  unfold ret. by rewrite F0, F1, F2, F3, F4, F5.
Qed.

(** The first field of a range is eight bytes wide, and the first byte read of it is
    shifted by 56 bits as an int. *)
Lemma decode_range_undefined buff offset s : 0 ≤ offset → offset + 8 ≤ Z.of_nat (length buff) → decode_range buff offset s = Fault Undef.
Proof.
  intros Ho Hb. unfold decode_range, report_value. change (value_loop (Z.to_nat FIRST_PAGE_SIZE)) with (@value_loop S 8). cbn [value_loop].
  change FIRST_PAGE_SIZE with 8.
  destruct (lookup_lt_is_Some_2 buff (Z.to_nat (offset + 8 - 1))) as [b Hl]; [lia|].
  unfold bind at 1 2 3. unfold report_byte at 1. rewrite Hl. done.
Qed.
End Facts.

(** The report of an interface is read as it was written: when a device sends a header
    whose fields fit their widths, the decoder gives back every field of it, whatever
    follows; with no range the decoding succeeds and is complete.  A header that announces
    ranges is never decoded, though the bytes are all there: the first range of it is read
    with a shift that C does not define. *)
Theorem report_roundtrip {S} h rest (s : S) :
  header_fits h → 16 ≤ Z.of_nat (length rest) →
  interface_report_decoding (Some (encode_header h ++ rest)) s =
    (if mmio_range_count h =? 0 then Ok (VAL_SUCCESS, Some (h, [])) s else Fault Undef).
Proof.
  intros Hh Hr. unfold interface_report_decoding. rewrite (bind_step _ _ _ _ _ (decode_header_run h rest s Hh)).
  destruct (Z.eqb_spec (mmio_range_count h) 0) as [->|Hn]; [done|].
  destruct Hh as (_ & _ & _ & _ & _ & Hf). destruct (Z.to_nat (mmio_range_count h)) as [|n] eqn:E; [lia|]. cbn [decode_ranges].
  unfold bind at 1 2. rewrite decode_range_undefined; [done|lia|]. rewrite length_app. cbn. lia.
Qed.

Lemma report_roundtrip_witness :
  let h := mk_interface_report 1 0 3 4 (2 ^ 31 + 5) 0 in
  header_fits h ∧ interface_report_decoding (Some (encode_header h ++ replicate 16 0)) tt = Ok (VAL_SUCCESS, Some (h, [])) tt.
Proof.
  cbn zeta. assert (header_fits (mk_interface_report 1 0 3 4 (2 ^ 31 + 5) 0)) as H by (repeat split; cbn; lia).
  split; [exact H|]. exact (report_roundtrip _ (replicate 16 0) tt H ltac:(cbn; lia)).
Defined.
