(* ===== verification/Machine.v ===== *)
(** The machine under the drivers: memory-mapped registers read and written at the
    widths of pal_mmio.c, and the system registers that interrupts, timers,
    exceptions and counters use (pal_arch_helpers.h), as a class over the state of the hardware.
    Any access may change that state; nothing else is assumed of it.  Barriers and the
    isb of the accessors have no effect in this sequential view. *)
From S2P Require Import Prelude Defs Alloc Granule Host Mp.

Inductive sysreg : Type :=
  | CurrentEL | MPIDR_EL1 | ID_AA64PFR0_EL1 | DAIFSET | DAIFCLR
  | ICC_SRE_EL1 | ICC_SRE_EL2 | ICC_PMR_EL1 | ICC_IGRPEN1_EL1 | ICC_IAR1_EL1 | ICC_EOIR1_EL1 | ICC_SGI1R
  | ICV_IAR1_EL1 | ICV_EOIR1_EL1
  | CNTPCT_EL0 | CNTVCT_EL0 | CNTFRQ_EL0 | CNTP_CTL_EL0 | CNTP_CVAL_EL0 | CNTV_CTL_EL0 | CNTV_CVAL_EL0
  | CNTHP_CTL_EL2 | CNTHP_CVAL_EL2 | HCR_EL2
  | PMCR_EL0 | PMSELR_EL0 | PMXEVTYPER_EL0 | PMCNTENSET_EL0 | PMCNTENCLR_EL0 | PMOVSCLR_EL0 | PMINTENCLR_EL1
  | ESR_EL1 | ELR_EL1 | FAR_EL1 | ESR_EL2 | ELR_EL2 | FAR_EL2.

#[export] Instance sysreg_eq_dec : EqDecision sysreg.
Proof. solve_decision. Defined.

Class Machine (W : Type) : Type := {
  dev_read : Z → W → Z → Z * W;          (* width in bytes, address *)
  dev_write : Z → W → Z → Z → W;
  sys_read : W → sysreg → Z * W;
  sys_write : W → sysreg → Z → W
}.

(** * Constants (pal_arch.h, pal.h, pal_config_def.h) *)

Definition PAL_SUCCESS : Z := 0.
Definition PAL_ERROR : Z := 1.

Definition MPIDR_MT_MASK : Z := Z.shiftl 1 24.
Definition MPIDR_AFFINITY_BITS : Z := 8.
Definition MPIDR_AFFLVL_MASK : Z := 0xff.
Definition MPIDR_AFF0_SHIFT : Z := 0.
Definition MPIDR_AFF1_SHIFT : Z := 8.
Definition MPIDR_AFF2_SHIFT : Z := 16.
Definition MPIDR_AFF3_SHIFT : Z := 32.
Definition MPIDR_AFFINITY_MASK : Z :=
  Z.lor (Z.shiftl MPIDR_AFFLVL_MASK MPIDR_AFF3_SHIFT)
    (Z.lor (Z.shiftl MPIDR_AFFLVL_MASK MPIDR_AFF2_SHIFT)
      (Z.lor (Z.shiftl MPIDR_AFFLVL_MASK MPIDR_AFF1_SHIFT)
        (Z.shiftl MPIDR_AFFLVL_MASK MPIDR_AFF0_SHIFT))).
Definition MPIDR_AFF_ID (mpid shift : Z) : Z := Z.land (Z.shiftr mpid shift) MPIDR_AFFLVL_MASK.

Definition ID_AA64PFR0_GIC_SHIFT : Z := 24.
Definition ID_AA64PFR0_GIC_MASK : Z := 0xf.
Definition DAIF_FIQ_BIT : Z := Z.shiftl 1 0.
Definition DAIF_IRQ_BIT : Z := Z.shiftl 1 1.
Definition MODE_EL_SHIFT : Z := 2.
Definition MODE_EL_MASK : Z := 3.
Definition MODE_EL2 : Z := 2.
Definition GET_EL (mode : Z) : Z := Z.land (Z.shiftr mode MODE_EL_SHIFT) MODE_EL_MASK.

Definition GICD_BASE : Z := 0x2f000000.
Definition GICR_BASE : Z := 0x2f100000.
Definition GICC_BASE : Z := 0x2c000000.
Definition GICD_SIZE : Z := 0x10000.
Definition GICR_SIZE : Z := 0x100000.
Definition GICC_SIZE : Z := 0x2000.

Definition PLATFORM_NS_UART_BASE : Z := 0x1c0b0000.
Definition PLATFORM_NVM_BASE : Z := 0x80000000 + 0x2800000.
Definition PLATFORM_WDOG_BASE : Z := 0x1C0F0000.
Definition PLATFORM_NS_WD_BASE : Z := 0x2A440000.
Definition PLATFORM_SP805_TWDOG_BASE : Z := 0x2A490000.

Definition FVP_MAX_CPUS_PER_CLUSTER : Z := 4.
Definition FVP_MAX_PE_PER_CPU : Z := 1.

(** The position of a core, in the assembly of platform.S: an MPIDR without the
    multi-threading bit is shifted by one level of affinity first. *)
Definition platform_get_core_pos (mpid : Z) : Z :=
  let x3 := if Z.land mpid MPIDR_MT_MASK =? 0 then u64 (Z.shiftl mpid MPIDR_AFFINITY_BITS) else mpid in
  let aff n := Z.land (Z.shiftr x3 n) 0xff in
  u32 ((aff MPIDR_AFF2_SHIFT * FVP_MAX_CPUS_PER_CLUSTER + aff MPIDR_AFF1_SHIFT) * FVP_MAX_PE_PER_CPU + aff MPIDR_AFF0_SHIFT).

(** * Accesses *)

Section Access.
Context {W : Type} `{Machine W}.

Definition mmio_read8 (addr : Z) : M W Z := λ w, let '(v, w') := dev_read 1 w (u64 addr) in Ok (u8 v) w'.
Definition mmio_read32 (addr : Z) : M W Z := λ w, let '(v, w') := dev_read 4 w (u64 addr) in Ok (u32 v) w'.
Definition mmio_read64 (addr : Z) : M W Z := λ w, let '(v, w') := dev_read 8 w (u64 addr) in Ok (u64 v) w'.
Definition mmio_write8 (addr data : Z) : M W unit := modify (λ w, dev_write 1 w (u64 addr) (u8 data)).
Definition mmio_write32 (addr data : Z) : M W unit := modify (λ w, dev_write 4 w (u64 addr) (u32 data)).
Definition mmio_write64 (addr data : Z) : M W unit := modify (λ w, dev_write 8 w (u64 addr) (u64 data)).

Definition mrs (r : sysreg) : M W Z := λ w, let '(v, w') := sys_read w r in Ok (u64 v) w'.
Definition msr (r : sysreg) (v : Z) : M W unit := modify (λ w, sys_write w r (u64 v)).

Definition enable_irq : M W unit := msr DAIFCLR DAIF_IRQ_BIT.
Definition enable_fiq : M W unit := msr DAIFCLR DAIF_FIQ_BIT.
Definition disable_irq : M W unit := msr DAIFSET DAIF_IRQ_BIT.

Definition IS_IN_EL2 : M W bool := let* el := mrs CurrentEL in ret (GET_EL el =? MODE_EL2).
End Access.

(** A failed assertion of the platform code logs and stops the machine. *)
Definition pal_assert {S : Type} (e : bool) : M S unit := if e then ret tt else fail Panic.
