(* ===== verification/Gic.v ===== *)
(** The driver of the interrupt controller (pal_gic_common.c, pal_gic_v3.c with its
    header, pal_arm_gic_v3.c): registers of the distributor and of a core's
    redistributor, the state the driver keeps for each core, and the functions the
    interrupt framework calls.  The driver of a GICv3 runs over the class [Machine];
    [gic] holds its static variables.  Loops that wait for the hardware take fuel. *)
From S2P Require Import Prelude Defs Alloc Granule Host Mp Machine.

(** * Constants (pal_gic_common.h, pal_gic_v3.h, pal_arm_gic.h) *)

Definition GICD_CTLR : Z := 0x0.
Definition GICD_TYPER : Z := 0x4.
Definition GICD_IGROUPR : Z := 0x80.
Definition GICD_ISENABLER : Z := 0x100.
Definition GICD_ICENABLER : Z := 0x180.
Definition GICD_ISPENDR : Z := 0x200.
Definition GICD_ICPENDR : Z := 0x280.
Definition GICD_ISACTIVER : Z := 0x300.
Definition GICD_ICACTIVER : Z := 0x380.
Definition GICD_IPRIORITYR : Z := 0x400.
Definition GICD_ICFGR : Z := 0xC00.
Definition GICD_IGRPMODR : Z := 0xd00.
Definition GICD_IROUTER : Z := 0x6000.
Definition ISENABLER_SHIFT : Z := 5.
Definition ICENABLER_SHIFT : Z := ISENABLER_SHIFT.
Definition ISPENDR_SHIFT : Z := 5.
Definition ICPENDR_SHIFT : Z := ISPENDR_SHIFT.
Definition ISACTIVER_SHIFT : Z := 5.
Definition ICACTIVER_SHIFT : Z := ISACTIVER_SHIFT.
Definition IPRIORITYR_SHIFT : Z := 2.
Definition ICFGR_SHIFT : Z := 4.
Definition IGROUPR_SHIFT : Z := 5.
Definition IGRPMODR_SHIFT : Z := 5.
Definition GIC_PRI_MASK : Z := 0xff.
Definition NUM_PCPU_INTR : Z := 32.
Definition GICD_CTLR_ENABLE_GRP1A : Z := Z.shiftl 1 1.
Definition GICD_CTLR_ARE_NS_SHIFT : Z := 4.
Definition GICD_CTLR_ARE_NS_MASK : Z := 0x1.
Definition TYPER_AFF_VAL_SHIFT : Z := 32.
Definition TYPER_LAST_SHIFT : Z := 4.
Definition TYPER_AFF_VAL_MASK : Z := 0xffffffff.
Definition TYPER_LAST_BIT : Z := Z.shiftl 1 TYPER_LAST_SHIFT.
Definition IROUTER_IRM_SHIFT : Z := 31.
Definition IROUTER_IRM_MASK : Z := 0x1.
Definition GICR_PCPUBASE_SHIFT : Z := 0x11.
Definition GICR_SGIBASE_OFFSET : Z := Z.shiftl 1 0x10.
Definition GICR_TYPER : Z := 0x08.
Definition GICR_ISENABLER0 : Z := GICR_SGIBASE_OFFSET + 0x100.
Definition GICR_ICENABLER0 : Z := GICR_SGIBASE_OFFSET + 0x180.
Definition GICR_ISPENDR0 : Z := GICR_SGIBASE_OFFSET + 0x200.
Definition GICR_ICPENDR0 : Z := GICR_SGIBASE_OFFSET + 0x280.
Definition GICR_IPRIORITYR : Z := GICR_SGIBASE_OFFSET + 0x400.
Definition GICR_ICFGR1 : Z := GICR_SGIBASE_OFFSET + 0xc04.
Definition ICC_SRE_SRE_BIT : Z := Z.shiftl 1 0.
Definition IAR1_EL1_INTID_MASK : Z := 0xffffff.
Definition SGI1R_TARGET_LIST_MASK : Z := 0xffff.
Definition SGI1R_TARGET_LIST_SHIFT : Z := 0x0.
Definition SGI1R_AFF_MASK : Z := 0xff.
Definition SGI1R_AFF1_SHIFT : Z := 16.
Definition SGI1R_AFF2_SHIFT : Z := 32.
Definition SGI1R_AFF3_SHIFT : Z := 48.
Definition SGI1R_INTID_MASK : Z := 0xf.
Definition SGI1R_INTID_SHIFT : Z := 24.
Definition IGRPEN1_EL1_ENABLE_SHIFT : Z := 0.
Definition IGRPEN1_EL1_ENABLE_BIT : Z := Z.shiftl 1 IGRPEN1_EL1_ENABLE_SHIFT.
Definition SGI_TARGET_MAX_AFF0 : Z := 16.
Definition CTLR_ENABLE_G0_SHIFT : Z := 0.
Definition CTLR_ENABLE_G1NS_SHIFT : Z := 1.
Definition CTLR_ENABLE_G1S_SHIFT : Z := 2.
Definition CTLR_ARE_S_SHIFT : Z := 4.
Definition CTLR_ARE_NS_SHIFT : Z := 5.
Definition BIT_32 (nr : Z) : Z := Z.shiftl 1 nr.
Definition CTLR_ENABLE_G0_BIT : Z := BIT_32 CTLR_ENABLE_G0_SHIFT.
Definition CTLR_ENABLE_G1NS_BIT : Z := BIT_32 CTLR_ENABLE_G1NS_SHIFT.
Definition CTLR_ENABLE_G1S_BIT : Z := BIT_32 CTLR_ENABLE_G1S_SHIFT.
Definition RWP_TRUE : Z := 1.
Definition CTLR_ARE_S_BIT : Z := BIT_32 CTLR_ARE_S_SHIFT.
Definition CTLR_ARE_NS_BIT : Z := BIT_32 CTLR_ARE_NS_SHIFT.
Definition GICD_CTLR_RWP_SHIFT : Z := 31.
Definition GICD_CTLR_RWP_BIT : Z := BIT_32 GICD_CTLR_RWP_SHIFT.
Definition TYPER_IT_LINES_NO_MASK : Z := 0x1f.
Definition INTR_GROUP1S : Z := 0.
Definition GIC_CFG_MASK : Z := 0x3.
Definition MIN_SGI_ID : Z := 0.
Definition MAX_SGI_ID : Z := 15.
Definition MIN_PPI_ID : Z := 16.
Definition MAX_PPI_ID : Z := 31.
Definition MIN_SPI_ID : Z := 32.
Definition MAX_SPI_ID : Z := 1019.
Definition GIC_HIGHEST_NS_PRIORITY : Z := 0.
Definition GIC_SPURIOUS_INTERRUPT : Z := 1023.

Definition GICD_IPRIORITYR_DEF_VAL : Z :=
  Z.lor GIC_HIGHEST_NS_PRIORITY (Z.lor (Z.shiftl GIC_HIGHEST_NS_PRIORITY 8)
    (Z.lor (Z.shiftl GIC_HIGHEST_NS_PRIORITY 16) (Z.shiftl GIC_HIGHEST_NS_PRIORITY 24))).

Definition IS_SGI (irq_num : Z) : bool := irq_num <=? MAX_SGI_ID.
Definition IS_PPI (irq_num : Z) : bool := (MIN_PPI_ID <=? irq_num) && (irq_num <=? MAX_PPI_ID).
Definition IS_SPI (irq_num : Z) : bool := (MIN_SPI_ID <=? irq_num) && (irq_num <=? MAX_SPI_ID).
Definition IS_VALID_INTR_ID (irq_num : Z) : bool := irq_num <=? MAX_SPI_ID.

(** The register of a kind that holds an interrupt, and its bit there. *)
Definition GICD_OFFSET (reg shift id : Z) : Z := u64 (reg + Z.shiftl (Z.shiftr id shift) 2).
Definition BIT_NUM (shift id : Z) : Z := Z.land id (Z.shiftl 1 shift - 1).

Definition MPIDR_AFFLVL3_MASK : Z := Z.shiftl MPIDR_AFFLVL_MASK MPIDR_AFF3_SHIFT.
Definition gic_typer_affinity_from_mpidr (mpidr : Z) : Z :=
  Z.lor (Z.ldiff mpidr MPIDR_AFFLVL3_MASK) (Z.shiftr (Z.land mpidr MPIDR_AFFLVL3_MASK) 8).

(** * The distributor (pal_gic_common.c, and the accessors of pal_gic_v3.c and its header) *)

Section Distributor.
Context {W : Type} `{Machine W}.
Implicit Types base interrupt_id id val : Z.

Definition gicd_read_ctlr base : M W Z := mmio_read32 (base + GICD_CTLR).
Definition gicd_read_typer base : M W Z := mmio_read32 (base + GICD_TYPER).
Definition gicd_write_ctlr base val : M W unit := mmio_write32 (base + GICD_CTLR) val.

Definition gicd_read_isenabler base interrupt_id : M W Z :=
  let n := Z.shiftr interrupt_id ISENABLER_SHIFT in mmio_read32 (base + GICD_ISENABLER + u32 (Z.shiftl n 2)).
Definition gicd_read_icenabler base interrupt_id : M W Z :=
  let n := Z.shiftr interrupt_id ICENABLER_SHIFT in mmio_read32 (base + GICD_ICENABLER + u32 (Z.shiftl n 2)).
Definition gicd_read_ispendr base interrupt_id : M W Z :=
  let n := Z.shiftr interrupt_id ISPENDR_SHIFT in mmio_read32 (base + GICD_ISPENDR + u32 (Z.shiftl n 2)).
Definition gicd_read_icpendr base interrupt_id : M W Z :=
  let n := Z.shiftr interrupt_id ICPENDR_SHIFT in mmio_read32 (base + GICD_ICPENDR + u32 (Z.shiftl n 2)).
Definition gicd_read_isactiver base interrupt_id : M W Z :=
  let n := Z.shiftr interrupt_id ISACTIVER_SHIFT in mmio_read32 (base + GICD_ISACTIVER + u32 (Z.shiftl n 2)).
Definition gicd_read_icactiver base interrupt_id : M W Z :=
  let n := Z.shiftr interrupt_id ICACTIVER_SHIFT in mmio_read32 (base + GICD_ICACTIVER + u32 (Z.shiftl n 2)).
Definition gicd_read_ipriorityr base interrupt_id : M W Z :=
  let n := Z.shiftr interrupt_id IPRIORITYR_SHIFT in mmio_read32 (base + GICD_IPRIORITYR + u32 (Z.shiftl n 2)).
Definition gicd_read_icfgr base interrupt_id : M W Z :=
  let n := Z.shiftr interrupt_id ICFGR_SHIFT in mmio_read32 (base + GICD_ICFGR + u32 (Z.shiftl n 2)).

Definition gicd_write_isenabler base interrupt_id val : M W unit :=
  let n := Z.shiftr interrupt_id ISENABLER_SHIFT in mmio_write32 (base + GICD_ISENABLER + u32 (Z.shiftl n 2)) val.
Definition gicd_write_icenabler base interrupt_id val : M W unit :=
  let n := Z.shiftr interrupt_id ICENABLER_SHIFT in mmio_write32 (base + GICD_ICENABLER + u32 (Z.shiftl n 2)) val.
Definition gicd_write_ispendr base interrupt_id val : M W unit :=
  let n := Z.shiftr interrupt_id ISPENDR_SHIFT in mmio_write32 (base + GICD_ISPENDR + u32 (Z.shiftl n 2)) val.
Definition gicd_write_icpendr base interrupt_id val : M W unit :=
  let n := Z.shiftr interrupt_id ICPENDR_SHIFT in mmio_write32 (base + GICD_ICPENDR + u32 (Z.shiftl n 2)) val.
Definition gicd_write_isactiver base interrupt_id val : M W unit :=
  let n := Z.shiftr interrupt_id ISACTIVER_SHIFT in mmio_write32 (base + GICD_ISACTIVER + u32 (Z.shiftl n 2)) val.
Definition gicd_write_icactiver base interrupt_id val : M W unit :=
  let n := Z.shiftr interrupt_id ICACTIVER_SHIFT in mmio_write32 (base + GICD_ICACTIVER + u32 (Z.shiftl n 2)) val.
Definition gicd_write_ipriorityr base interrupt_id val : M W unit :=
  let n := Z.shiftr interrupt_id IPRIORITYR_SHIFT in mmio_write32 (base + GICD_IPRIORITYR + u32 (Z.shiftl n 2)) val.
Definition gicd_write_icfgr base interrupt_id val : M W unit :=
  let n := Z.shiftr interrupt_id ICFGR_SHIFT in mmio_write32 (base + GICD_ICFGR + u32 (Z.shiftl n 2)) val.

Definition gicd_get_isenabler base interrupt_id : M W Z :=
  let bit_num := BIT_NUM ISENABLER_SHIFT interrupt_id in
  let* v := gicd_read_isenabler base interrupt_id in ret (Z.land v (u32 (Z.shiftl 1 bit_num))).

Definition gicd_set_isenabler base interrupt_id : M W unit :=
  let bit_num := BIT_NUM ISENABLER_SHIFT interrupt_id in gicd_write_isenabler base interrupt_id (u32 (Z.shiftl 1 bit_num)).
Definition gicd_set_icenabler base interrupt_id : M W unit :=
  let bit_num := BIT_NUM ICENABLER_SHIFT interrupt_id in gicd_write_icenabler base interrupt_id (u32 (Z.shiftl 1 bit_num)).
Definition gicd_set_ispendr base interrupt_id : M W unit :=
  let bit_num := BIT_NUM ISPENDR_SHIFT interrupt_id in gicd_write_ispendr base interrupt_id (u32 (Z.shiftl 1 bit_num)).
Definition gicd_set_icpendr base interrupt_id : M W unit :=
  let bit_num := BIT_NUM ICPENDR_SHIFT interrupt_id in gicd_write_icpendr base interrupt_id (u32 (Z.shiftl 1 bit_num)).
Definition gicd_set_isactiver base interrupt_id : M W unit :=
  let bit_num := BIT_NUM ISACTIVER_SHIFT interrupt_id in gicd_write_isactiver base interrupt_id (u32 (Z.shiftl 1 bit_num)).
Definition gicd_set_icactiver base interrupt_id : M W unit :=
  let bit_num := BIT_NUM ICACTIVER_SHIFT interrupt_id in gicd_write_icactiver base interrupt_id (u32 (Z.shiftl 1 bit_num)).

Definition gicd_get_ipriorityr base interrupt_id : M W Z :=
  let* v := gicd_read_ipriorityr base interrupt_id in ret (Z.land v GIC_PRI_MASK).
Definition gicd_set_ipriorityr base interrupt_id (priority : Z) : M W unit :=
  mmio_write8 (base + GICD_IPRIORITYR + interrupt_id) (Z.land priority GIC_PRI_MASK).

Definition is_sre_enabled : M W Z :=
  let* el2 := IS_IN_EL2 in
  let* v := mrs (if el2 then ICC_SRE_EL2 else ICC_SRE_EL1) in ret (Z.land v ICC_SRE_SRE_BIT).

Definition is_gicv3_mode : M W Z :=
  let* pfr0 := mrs ID_AA64PFR0_EL1 in
  if Z.land pfr0 (Z.shiftl ID_AA64PFR0_GIC_MASK ID_AA64PFR0_GIC_SHIFT) =? 0 then ret 0
  else let* v := is_sre_enabled in ret (if truthy v then 1 else 0).

(** Read-modify-write of 32 bits. *)
Definition mmio_setbits_32 (addr set : Z) : M W unit :=
  let* v := mmio_read32 addr in mmio_write32 addr (Z.lor v set).
Definition mmio_clrbits_32 (addr clear : Z) : M W unit :=
  let* v := mmio_read32 addr in mmio_write32 addr (Z.ldiff v clear).
Definition mmio_clrsetbits_32 (addr clear set : Z) : M W unit :=
  let* v := mmio_read32 addr in mmio_write32 addr (Z.lor (Z.ldiff v clear) set).

Definition GICD_WRITE (reg shift base id val : Z) : M W unit := mmio_write32 (base + GICD_OFFSET reg shift id) val.
Definition GICD_SET_BIT (reg shift base id : Z) : M W unit :=
  mmio_setbits_32 (base + GICD_OFFSET reg shift id) (u32 (Z.shiftl 1 (BIT_NUM shift id))).
Definition GICD_CLR_BIT (reg shift base id : Z) : M W unit :=
  mmio_clrbits_32 (base + GICD_OFFSET reg shift id) (u32 (Z.shiftl 1 (BIT_NUM shift id))).

Definition gicd_write_igroupr base id val : M W unit := GICD_WRITE GICD_IGROUPR IGROUPR_SHIFT base id val.
Definition gicd_set_igrpmodr base id : M W unit := GICD_SET_BIT GICD_IGRPMODR IGRPMODR_SHIFT base id.
Definition gicd_clr_igrpmodr base id : M W unit := GICD_CLR_BIT GICD_IGRPMODR IGRPMODR_SHIFT base id.
Definition gicd_set_igroupr base id : M W unit := GICD_SET_BIT GICD_IGROUPR IGROUPR_SHIFT base id.
Definition gicd_clr_igroupr base id : M W unit := GICD_CLR_BIT GICD_IGROUPR IGROUPR_SHIFT base id.
Definition gicd_set_icfgr base id (cfg : Z) : M W unit :=
  let bit_shift := u32 (Z.shiftl (BIT_NUM ICFGR_SHIFT id) 1) in
  mmio_clrsetbits_32 (base + GICD_OFFSET GICD_ICFGR ICFGR_SHIFT id)
    (u32 (Z.shiftl GIC_CFG_MASK bit_shift)) (u32 (Z.shiftl (Z.land cfg GIC_CFG_MASK) bit_shift)).

(** The routing register belongs to shared interrupts only. *)
Definition gicd_write_irouter base interrupt_id (route : Z) : M W unit :=
  pal_assert (MIN_SPI_ID <=? interrupt_id) ;;
  mmio_write64 (base + GICD_IROUTER + u32 (Z.shiftl interrupt_id 3)) route.
Definition gicd_irouter_val_from_mpidr (mpidr irm : Z) : Z :=
  Z.lor (Z.land mpidr MPIDR_AFFINITY_MASK) (u32 (Z.shiftl (Z.land irm IROUTER_IRM_MASK) IROUTER_IRM_SHIFT)).

Fixpoint gicd_wait_for_pending_write (fuel : nat) (gicd_base : Z) : M W unit :=
  match fuel with
  | O => out_of_fuel
  | S fuel =>
      let* v := gicd_read_ctlr gicd_base in
      if truthy (Z.land v GICD_CTLR_RWP_BIT) then gicd_wait_for_pending_write fuel gicd_base else ret tt
  end.

Definition gicd_clr_ctlr (fuel : nat) base (bitmap rwp : Z) : M W unit :=
  let* v := gicd_read_ctlr base in
  gicd_write_ctlr base (Z.ldiff v bitmap) ;;
  if truthy rwp then gicd_wait_for_pending_write fuel base else ret tt.
Definition gicd_set_ctlr (fuel : nat) base (bitmap rwp : Z) : M W unit :=
  let* v := gicd_read_ctlr base in
  gicd_write_ctlr base (Z.lor v bitmap) ;;
  if truthy rwp then gicd_wait_for_pending_write fuel base else ret tt.

(** One above the largest shared interrupt. *)
Definition gicv3_get_spi_limit (gicd_base : Z) : M W Z :=
  let* typer_reg := gicd_read_typer gicd_base in
  let spi_limit := u32 (Z.shiftl (u32 (Z.land typer_reg TYPER_IT_LINES_NO_MASK + 1)) 5) in
  if MAX_SPI_ID + 1 <? spi_limit then ret (MAX_SPI_ID + 1) else ret spi_limit.

(** [for (i = MIN_SPI_ID; i < num_ints; i += step)]. *)
Fixpoint spi_loop (n : nat) (i num_ints step : Z) (body : Z → M W unit) : M W unit :=
  match n with
  | O => out_of_fuel
  | S n =>
      if i <? num_ints then body i ;; spi_loop n (u32 (i + step)) num_ints step body
      else ret tt
  end.
Definition spi_fuel : nat := 1024.

Definition gicv3_spis_config_defaults (gicd_base : Z) : M W unit :=
  let* num_ints := gicv3_get_spi_limit gicd_base in
  spi_loop spi_fuel MIN_SPI_ID num_ints (Z.shiftl 1 IGROUPR_SHIFT) (λ i, gicd_write_igroupr gicd_base i 0xFFFFFFFF) ;;
  spi_loop spi_fuel MIN_SPI_ID num_ints (Z.shiftl 1 IPRIORITYR_SHIFT) (λ i, gicd_write_ipriorityr gicd_base i GICD_IPRIORITYR_DEF_VAL) ;;
  spi_loop spi_fuel MIN_SPI_ID num_ints (Z.shiftl 1 ICFGR_SHIFT) (λ i, gicd_write_icfgr gicd_base i 0).

Definition gicv3_secure_spis_config_props (intr_num : Z) : M W Z :=
  let intr_grp := 0 in
  gicd_clr_igroupr GICD_BASE intr_num ;;
  let* ctlr_enable :=
    if intr_grp =? INTR_GROUP1S then gicd_set_igrpmodr GICD_BASE intr_num ;; ret CTLR_ENABLE_G1S_BIT
    else gicd_clr_igrpmodr GICD_BASE intr_num ;; ret CTLR_ENABLE_G0_BIT in
  gicd_set_icfgr GICD_BASE intr_num 0 ;;
  gicd_set_ipriorityr GICD_BASE intr_num 0 ;;
  let* mpidr := mrs MPIDR_EL1 in
  gicd_write_irouter GICD_BASE intr_num (gicd_irouter_val_from_mpidr mpidr 0) ;;
  gicd_set_isenabler GICD_BASE intr_num ;;
  ret ctlr_enable.

(** * A redistributor (pal_gic_v3.c) *)

Definition gicr_write_isenabler0 base val : M W unit := mmio_write32 (base + GICR_ISENABLER0) val.
Definition gicr_write_icenabler0 base val : M W unit := mmio_write32 (base + GICR_ICENABLER0) val.
Definition gicr_write_icpendr0 base val : M W unit := mmio_write32 (base + GICR_ICPENDR0) val.
Definition gicr_write_ipriorityr base id val : M W unit :=
  let n := Z.shiftr id IPRIORITYR_SHIFT in mmio_write32 (base + GICR_IPRIORITYR + u32 (Z.shiftl n 2)) val.
Definition gicr_write_icfgr1 base val : M W unit := mmio_write32 (base + GICR_ICFGR1) val.
Definition gicr_read_typer base : M W Z := mmio_read64 (base + GICR_TYPER).
Definition gicr_read_icfgr1 base : M W Z := mmio_read32 (base + GICR_ICFGR1).
Definition gicr_read_isenabler0 base : M W Z := mmio_read32 (base + GICR_ISENABLER0).
Definition gicr_read_ipriorityr base id : M W Z :=
  let n := Z.shiftr id IPRIORITYR_SHIFT in mmio_read32 (base + GICR_IPRIORITYR + u32 (Z.shiftl n 2)).
Definition gicr_read_ispendr0 base : M W Z := mmio_read32 (base + GICR_ISPENDR0).

Definition gicr_get_isenabler0 base interrupt_id : M W Z :=
  let bit_num := BIT_NUM ISENABLER_SHIFT interrupt_id in
  let* v := gicr_read_isenabler0 base in ret (Z.land v (u32 (Z.shiftl 1 bit_num))).
Definition gicr_set_isenabler0 base interrupt_id : M W unit :=
  let bit_num := BIT_NUM ISENABLER_SHIFT interrupt_id in gicr_write_isenabler0 base (u32 (Z.shiftl 1 bit_num)).
Definition gicr_set_icenabler0 base interrupt_id : M W unit :=
  let bit_num := BIT_NUM ISENABLER_SHIFT interrupt_id in gicr_write_icenabler0 base (u32 (Z.shiftl 1 bit_num)).
Definition gicr_set_icpendr0 base interrupt_id : M W unit :=
  let bit_num := BIT_NUM ICPENDR_SHIFT interrupt_id in gicr_write_icpendr0 base (u32 (Z.shiftl 1 bit_num)).
End Distributor.

(** * State of the driver *)

(** What is kept of a core that is suspended. *)
Record gicv3_pcpu_ctx : Type := mk_pcpu {
  is_suspended : Z;
  icc_igrpen1 : Z;
  gicr_isenabler : Z;
  gicr_ipriorityr : list Z;
  gicr_icfgr : Z
}.
Definition pcpu_zero : gicv3_pcpu_ctx := mk_pcpu 0 0 0 (replicate 8 0) 0.

Record gic (W : Type) : Type := mk_gic {
  machine : W;
  gicr_base_addr : Z;
  gicd_base_addr : Z;
  pcpu_ctx : list gicv3_pcpu_ctx;
  rdist_pcpu_base : list Z;
  mpidr_list : list Z
}.
Arguments mk_gic {W}. Arguments machine {W}. Arguments gicr_base_addr {W}. Arguments gicd_base_addr {W}.
Arguments pcpu_ctx {W}. Arguments rdist_pcpu_base {W}. Arguments mpidr_list {W}.

(** The initialiser of mpidr_list names its first element only; the others are zero. *)
Definition gic_reset {W : Type} (w : W) : gic W :=
  mk_gic w 0 0 (replicate (Z.to_nat PLATFORM_CPU_COUNT) pcpu_zero) (replicate (Z.to_nat PLATFORM_CPU_COUNT) 0)
    (2 ^ 64 - 1 :: replicate (Z.to_nat (PLATFORM_CPU_COUNT - 1)) 0).

Section Driver.
Context {W : Type} `{Machine W}.
Implicit Types s : gic W.

Definition set_machine (w : W) s : gic W :=
  mk_gic w (gicr_base_addr s) (gicd_base_addr s) (pcpu_ctx s) (rdist_pcpu_base s) (mpidr_list s).
Definition set_bases (gicr gicd : Z) s : gic W :=
  mk_gic (machine s) gicr gicd (pcpu_ctx s) (rdist_pcpu_base s) (mpidr_list s).
Definition set_pcpu (l : list gicv3_pcpu_ctx) s : gic W :=
  mk_gic (machine s) (gicr_base_addr s) (gicd_base_addr s) l (rdist_pcpu_base s) (mpidr_list s).
Definition set_rdist (l : list Z) s : gic W :=
  mk_gic (machine s) (gicr_base_addr s) (gicd_base_addr s) (pcpu_ctx s) l (mpidr_list s).
Definition set_mpidrs (l : list Z) s : gic W :=
  mk_gic (machine s) (gicr_base_addr s) (gicd_base_addr s) (pcpu_ctx s) (rdist_pcpu_base s) l.

(** Code that uses the machine only. *)
Definition hw {A : Type} (m : M W A) : M (gic W) A := zoom machine set_machine m.

(** An element of an array with PLATFORM_CPU_COUNT elements. *)
Definition of_core {A : Type} (arr : gic W → list A) (core_pos : Z) : M (gic W) A := λ s,
  match arr s !! Z.to_nat core_pos with
  | Some v => Ok v s
  | None => Fault OutOfBounds
  end.
Definition on_pcpu (core_pos : Z) (f : gicv3_pcpu_ctx → gicv3_pcpu_ctx) : M (gic W) unit :=
  let* c := of_core pcpu_ctx core_pos in modify (λ s, set_pcpu (<[Z.to_nat core_pos := f c]> (pcpu_ctx s)) s).

Definition my_core_pos : M (gic W) Z := let* mpidr := hw (mrs MPIDR_EL1) in ret (platform_get_core_pos mpidr).

(** The redistributor of a core, which must have been found. *)
Definition rdist_of (core_pos : Z) : M (gic W) Z :=
  let* base := of_core rdist_pcpu_base core_pos in pal_assert (truthy base) ;; ret base.

(** The distributor, whose address must have been set. *)
Definition dist : M (gic W) Z :=
  let* base := gets gicd_base_addr in pal_assert (truthy base) ;; ret base.

(** ** Interface of the core *)

Definition gicv3_enable_cpuif : M (gic W) unit :=
  let* sre := hw is_sre_enabled in
  pal_assert (truthy sre) ;;
  let* v := hw (mrs ICC_IGRPEN1_EL1) in
  hw (msr ICC_IGRPEN1_EL1 (Z.lor v IGRPEN1_EL1_ENABLE_BIT)).

Definition gicv3_setup_cpuif : M (gic W) unit :=
  hw (msr ICC_PMR_EL1 GIC_PRI_MASK) ;;
  gicv3_enable_cpuif.

(** The complement of the bit is taken in 32 bits. *)
Definition gicv3_disable_cpuif : M (gic W) unit :=
  let* v := hw (mrs ICC_IGRPEN1_EL1) in
  hw (msr ICC_IGRPEN1_EL1 (Z.land v (0xFFFFFFFF - IGRPEN1_EL1_ENABLE_BIT))).

Definition gicv3_save_cpuif_context : M (gic W) unit :=
  let* core_pos := my_core_pos in
  on_pcpu core_pos (λ c, mk_pcpu 1 (icc_igrpen1 c) (gicr_isenabler c) (gicr_ipriorityr c) (gicr_icfgr c)) ;;
  let* v := hw (mrs ICC_IGRPEN1_EL1) in
  on_pcpu core_pos (λ c, mk_pcpu (is_suspended c) (u32 v) (gicr_isenabler c) (gicr_ipriorityr c) (gicr_icfgr c)).

Definition gicv3_restore_cpuif_context : M (gic W) unit :=
  let* core_pos := my_core_pos in
  on_pcpu core_pos (λ c, mk_pcpu 0 (icc_igrpen1 c) (gicr_isenabler c) (gicr_ipriorityr c) (gicr_icfgr c)) ;;
  hw (msr ICC_PMR_EL1 GIC_PRI_MASK) ;;
  let* c := of_core pcpu_ctx core_pos in
  hw (msr ICC_IGRPEN1_EL1 (icc_igrpen1 c)).

(** ** Private interrupts of suspended cores *)

(** The current core and the suspended ones. *)
Definition to_save (my core_pos : Z) : M (gic W) bool :=
  if core_pos =? my then ret true
  else let* c := of_core pcpu_ctx core_pos in ret (truthy (is_suspended c)).

Definition save_core (core_pos : Z) : M (gic W) unit :=
  let* base := rdist_of core_pos in
  let* v := hw (gicr_read_isenabler0 base) in
  on_pcpu core_pos (λ c, mk_pcpu (is_suspended c) (icc_igrpen1 c) v (gicr_ipriorityr c) (gicr_icfgr c)) ;;
  let* _ := for_upto (Z.shiftr NUM_PCPU_INTR IPRIORITYR_SHIFT) (λ i,
    let* v := hw (gicr_read_ipriorityr base (Z.shiftl i IPRIORITYR_SHIFT)) in
    on_pcpu core_pos (λ c, mk_pcpu (is_suspended c) (icc_igrpen1 c) (gicr_isenabler c) (<[Z.to_nat i := v]> (gicr_ipriorityr c)) (gicr_icfgr c)) ;;
    ret (@None unit)) in
  let* v := hw (gicr_read_icfgr1 base) in
  on_pcpu core_pos (λ c, mk_pcpu (is_suspended c) (icc_igrpen1 c) (gicr_isenabler c) (gicr_ipriorityr c) v).

Definition gicv3_save_sgi_ppi_context : M (gic W) unit :=
  let* my := my_core_pos in
  let* _ := for_upto PLATFORM_CPU_COUNT (λ core_pos,
    let* b := to_save my core_pos in
    (if b then save_core core_pos else ret tt) ;; ret (@None unit)) in
  ret tt.

Definition restore_core (core_pos : Z) : M (gic W) unit :=
  let* base := rdist_of core_pos in
  let* _ := for_upto (Z.shiftr NUM_PCPU_INTR IPRIORITYR_SHIFT) (λ i,
    let* c := of_core pcpu_ctx core_pos in
    hw (gicr_write_ipriorityr base (Z.shiftl i IPRIORITYR_SHIFT) (nth (Z.to_nat i) (gicr_ipriorityr c) 0)) ;;
    ret (@None unit)) in
  let* c := of_core pcpu_ctx core_pos in
  hw (gicr_write_icfgr1 base (gicr_icfgr c)) ;;
  hw (gicr_write_isenabler0 base (gicr_isenabler c)).

Definition gicv3_restore_sgi_ppi_context : M (gic W) unit :=
  let* my := my_core_pos in
  let* _ := for_upto PLATFORM_CPU_COUNT (λ core_pos,
    let* b := to_save my core_pos in
    (if b then restore_core core_pos else ret tt) ;; ret (@None unit)) in
  ret tt.

(** ** Single interrupts *)

Definition gicv3_get_ipriorityr (interrupt_id : Z) : M (gic W) Z :=
  let* gicd := dist in
  pal_assert (IS_VALID_INTR_ID interrupt_id) ;;
  if interrupt_id <? MIN_SPI_ID then
    let* core_pos := my_core_pos in
    let* base := rdist_of core_pos in
    hw (mmio_read8 (base + GICR_IPRIORITYR + interrupt_id))
  else hw (mmio_read8 (gicd + GICD_IPRIORITYR + interrupt_id)).

Definition gicv3_set_ipriorityr (interrupt_id priority : Z) : M (gic W) unit :=
  let* gicd := dist in
  pal_assert (IS_VALID_INTR_ID interrupt_id) ;;
  if interrupt_id <? MIN_SPI_ID then
    let* core_pos := my_core_pos in
    let* base := rdist_of core_pos in
    hw (mmio_write8 (base + GICR_IPRIORITYR + interrupt_id) (Z.land priority GIC_PRI_MASK))
  else hw (mmio_write8 (gicd + GICD_IPRIORITYR + interrupt_id) (Z.land priority GIC_PRI_MASK)).

Definition gicv3_send_sgi (sgi_id core_pos : Z) : M (gic W) unit :=
  pal_assert (IS_SGI sgi_id) ;;
  pal_assert (core_pos <? PLATFORM_CPU_COUNT) ;;
  let* mpidr := of_core mpidr_list core_pos in
  pal_assert (negb (mpidr =? 2 ^ 64 - 1)) ;;
  let aff0 := MPIDR_AFF_ID mpidr MPIDR_AFF0_SHIFT in
  let aff1 := MPIDR_AFF_ID mpidr MPIDR_AFF1_SHIFT in
  let aff2 := MPIDR_AFF_ID mpidr MPIDR_AFF2_SHIFT in
  let aff3 := MPIDR_AFF_ID mpidr MPIDR_AFF3_SHIFT in
  pal_assert (aff0 <? SGI_TARGET_MAX_AFF0) ;;
  let target_list := Z.shiftl 1 aff0 in
  let sgir :=
    Z.lor (Z.shiftl (Z.land aff3 SGI1R_AFF_MASK) SGI1R_AFF3_SHIFT)
      (Z.lor (Z.shiftl (Z.land aff2 SGI1R_AFF_MASK) SGI1R_AFF2_SHIFT)
        (Z.lor (Z.shiftl (Z.land aff1 SGI1R_AFF_MASK) SGI1R_AFF1_SHIFT)
          (Z.shiftl (Z.land target_list SGI1R_TARGET_LIST_MASK) SGI1R_TARGET_LIST_SHIFT))) in
  hw (msr ICC_SGI1R (Z.lor sgir (Z.shiftl (Z.land sgi_id SGI1R_INTID_MASK) SGI1R_INTID_SHIFT))).

Definition gicv3_set_intr_route (interrupt_id core_pos : Z) : M (gic W) unit :=
  let* gicd := dist in
  pal_assert (core_pos <? PLATFORM_CPU_COUNT) ;;
  let* route_affinity := of_core mpidr_list core_pos in
  pal_assert (negb (route_affinity =? 2 ^ 64 - 1)) ;;
  pal_assert (IS_SPI interrupt_id) ;;
  hw (gicd_write_irouter gicd interrupt_id route_affinity).

(** The redistributor's function for a private interrupt, the distributor's for a shared one. *)
Definition by_kind {A : Type} (interrupt_id : Z) (r d : Z → M W A) : M (gic W) A :=
  let* gicd := dist in
  pal_assert (IS_VALID_INTR_ID interrupt_id) ;;
  if interrupt_id <? MIN_SPI_ID then
    let* core_pos := my_core_pos in
    let* base := rdist_of core_pos in
    hw (r base)
  else hw (d gicd).

Definition gicv3_get_isenabler (interrupt_id : Z) : M (gic W) Z :=
  by_kind interrupt_id (λ base, gicr_get_isenabler0 base interrupt_id) (λ base, gicd_get_isenabler base interrupt_id).
Definition gicv3_set_isenabler (interrupt_id : Z) : M (gic W) unit :=
  by_kind interrupt_id (λ base, gicr_set_isenabler0 base interrupt_id) (λ base, gicd_set_isenabler base interrupt_id).
Definition gicv3_set_icenabler (interrupt_id : Z) : M (gic W) unit :=
  by_kind interrupt_id (λ base, gicr_set_icenabler0 base interrupt_id) (λ base, gicd_set_icenabler base interrupt_id).
Definition gicv3_get_ispendr (interrupt_id : Z) : M (gic W) Z :=
  let* ispendr := by_kind interrupt_id gicr_read_ispendr0 (λ base, gicd_read_ispendr base interrupt_id) in
  let bit_pos := interrupt_id mod Z.shiftl 1 ISPENDR_SHIFT in
  ret (if truthy (Z.land ispendr (u32 (Z.shiftl 1 bit_pos))) then 1 else 0).

Definition gicv3_set_icpendr (interrupt_id : Z) : M (gic W) unit :=
  let* gicd := dist in
  pal_assert (IS_SPI interrupt_id || IS_PPI interrupt_id) ;;
  if interrupt_id <? MIN_SPI_ID then
    let* core_pos := my_core_pos in
    let* base := rdist_of core_pos in
    hw (gicr_set_icpendr0 base interrupt_id)
  else hw (gicd_set_icpendr gicd interrupt_id).

(** ** Set-up *)

(** The frames of the redistributors, one after the other, until the one of this core
    or the one marked as last; when none is found a message is printed. *)
Fixpoint probe_frames (fuel : nat) (core_pos affinity rdistif_base : Z) : M (gic W) unit :=
  match fuel with
  | O => out_of_fuel
  | S fuel =>
      let* typer_val := hw (gicr_read_typer rdistif_base) in
      if affinity =? Z.land (Z.shiftr typer_val TYPER_AFF_VAL_SHIFT) TYPER_AFF_VAL_MASK then
        let* _ := of_core rdist_pcpu_base core_pos in
        modify (λ s, set_rdist (<[Z.to_nat core_pos := rdistif_base]> (rdist_pcpu_base s)) s) ;;
        let* mpidr := hw (mrs MPIDR_EL1) in
        modify (λ s, set_mpidrs (<[Z.to_nat core_pos := Z.land mpidr MPIDR_AFFINITY_MASK]> (mpidr_list s)) s)
      else
        let rdistif_base := u64 (rdistif_base + Z.shiftl 1 GICR_PCPUBASE_SHIFT) in
        if Z.land typer_val TYPER_LAST_BIT =? 0 then probe_frames fuel core_pos affinity rdistif_base
        else ret tt
  end.

Definition gicv3_probe_redistif_addr (fuel : nat) : M (gic W) unit :=
  let* core_pos := my_core_pos in
  let* gicr := gets gicr_base_addr in
  pal_assert (truthy gicr) ;;
  let* b := of_core rdist_pcpu_base core_pos in
  if truthy b then ret tt
  else
    let* m1 := hw (mrs MPIDR_EL1) in
    let* m2 := hw (mrs MPIDR_EL1) in
    let affinity :=
      Z.lor (Z.ldiff (Z.land m1 MPIDR_AFFINITY_MASK) MPIDR_AFFLVL3_MASK)
        (Z.shiftr (Z.land (Z.land m2 MPIDR_AFFINITY_MASK) MPIDR_AFFLVL3_MASK) 8) in
    probe_frames fuel core_pos affinity gicr.

Definition gicv3_setup_distif : M (gic W) unit :=
  let* gicd := dist in
  let* pfr0 := hw (mrs ID_AA64PFR0_EL1) in
  pal_assert (truthy (Z.land pfr0 (Z.shiftl ID_AA64PFR0_GIC_MASK ID_AA64PFR0_GIC_SHIFT))) ;;
  let* sre := hw is_sre_enabled in
  pal_assert (truthy sre) ;;
  let* gicd_ctlr := hw (gicd_read_ctlr gicd) in
  pal_assert (truthy (Z.land gicd_ctlr (Z.shiftl GICD_CTLR_ARE_NS_MASK GICD_CTLR_ARE_NS_SHIFT))) ;;
  hw (gicd_write_ctlr gicd (Z.lor gicd_ctlr GICD_CTLR_ENABLE_GRP1A)).

Definition gicv3_configure_secure_gic_intr_enable (fuel : nat) (num : Z) : M (gic W) unit :=
  let* gicd := gets gicd_base_addr in
  hw (gicd_clr_ctlr fuel gicd (Z.lor (Z.lor CTLR_ENABLE_G0_BIT CTLR_ENABLE_G1S_BIT) CTLR_ENABLE_G1NS_BIT) RWP_TRUE) ;;
  hw (gicd_set_ctlr fuel gicd (Z.lor CTLR_ARE_S_BIT CTLR_ARE_NS_BIT) RWP_TRUE) ;;
  hw (gicv3_spis_config_defaults gicd) ;;
  let* bitmap := hw (gicv3_secure_spis_config_props num) in
  hw (gicd_set_ctlr fuel gicd bitmap RWP_TRUE).

Definition gicv3_init (gicr_base gicd_base : Z) : M (gic W) unit :=
  pal_assert (truthy gicr_base) ;;
  pal_assert (truthy gicd_base) ;;
  modify (set_bases gicr_base gicd_base).

Definition gicv3_acknowledge_interrupt : M (gic W) Z :=
  let* v := hw (mrs ICC_IAR1_EL1) in ret (Z.land v IAR1_EL1_INTID_MASK).
Definition gicv3_end_of_interrupt (id : Z) : M (gic W) unit := hw (msr ICC_EOIR1_EL1 id).

(** ** What the framework calls (pal_arm_gic_v3.c) *)

Definition arm_gic_enable_interrupts_local : M (gic W) unit := gicv3_enable_cpuif.
Definition arm_gic_setup_local (fuel : nat) : M (gic W) unit := gicv3_probe_redistif_addr fuel ;; gicv3_setup_cpuif.
Definition arm_gic_disable_interrupts_local : M (gic W) unit := gicv3_disable_cpuif.
Definition arm_gic_save_context_local : M (gic W) unit := gicv3_save_cpuif_context.
Definition arm_gic_restore_context_local : M (gic W) unit := gicv3_restore_cpuif_context.
Definition arm_gic_save_context_global : M (gic W) unit := gicv3_save_sgi_ppi_context.
Definition arm_gic_restore_context_global : M (gic W) unit := gicv3_setup_distif ;; gicv3_restore_sgi_ppi_context.
Definition arm_gic_setup_global : M (gic W) unit := gicv3_setup_distif.
Definition arm_gic_get_intr_priority (num : Z) : M (gic W) Z := gicv3_get_ipriorityr num.
Definition arm_gic_set_intr_priority (num priority : Z) : M (gic W) unit := gicv3_set_ipriorityr num priority.
Definition arm_gic_send_sgi (sgi_id core_pos : Z) : M (gic W) unit := gicv3_send_sgi sgi_id core_pos.
Definition arm_gic_set_intr_target (num core_pos : Z) : M (gic W) unit := gicv3_set_intr_route num core_pos.
Definition arm_gic_intr_enabled (num : Z) : M (gic W) Z :=
  let* v := gicv3_get_isenabler num in ret (if truthy v then 1 else 0).
Definition arm_gic_intr_enable (num : Z) : M (gic W) unit := gicv3_set_isenabler num.
Definition arm_configure_secure_gic_intr_enable (fuel : nat) (num : Z) : M (gic W) unit :=
  gicv3_configure_secure_gic_intr_enable fuel num.
Definition arm_gic_intr_disable (num : Z) : M (gic W) unit := gicv3_set_icenabler num.
(** The value read is returned and written to [raw_iar]. *)
Definition arm_gic_intr_ack : M (gic W) Z := let* v := gicv3_acknowledge_interrupt in ret (u32 v).
Definition arm_gic_is_intr_pending (num : Z) : M (gic W) Z := gicv3_get_ispendr num.
Definition arm_gic_intr_clear (num : Z) : M (gic W) unit := gicv3_set_icpendr num.
Definition arm_gic_end_of_intr (raw_iar : Z) : M (gic W) unit := gicv3_end_of_interrupt raw_iar.

Definition arm_gic_init (fuel : nat) (gicd_base gicr_base : Z) : M (gic W) unit :=
  gicv3_init gicr_base gicd_base ;;
  arm_gic_setup_global ;;
  arm_gic_setup_local fuel.
End Driver.
