(* ===== verification/Irq.v ===== *)
(** Interrupts of the suite (pal_irq.c, val_irq.c) and synchronous exceptions
    (val_exceptions.c, val_realm_exception.c): the tables of handlers, enabling and
    dispatching an interrupt through the driver of [Gic], and the callback for
    exceptions.  A handler is a function of a test, known by its address: what it does
    is the class [Handlers]. *)
From S2P Require Import Prelude Defs Alloc Granule Host Mp Realm Shared Machine Gic.

(** * State *)

Definition PLAT_MAX_SPI_OFFSET_ID : Z := 107.
Definition IS_PLAT_SPI (irq_num : Z) : bool :=
  (MIN_SPI_ID <=? irq_num) && (irq_num <=? MIN_SPI_ID + PLAT_MAX_SPI_OFFSET_ID).


(** The element of the tables of handlers that belongs to an interrupt: shared
    interrupts have one, private ones an element for each core. *)
Inductive handler_slot : Type :=
  | SpiDesc (n : Z)
  | PpiDesc (linear_id n : Z)
  | SgiDesc (linear_id n : Z)
  | SpuriousDesc.

#[export] Instance handler_slot_eq_dec : EqDecision handler_slot.
Proof. solve_decision. Defined.

Record irq (W : Type) : Type := mk_irq {
  gic_of : gic W;
  irq_handler : handler_slot → Z;
  spi_lock : Z;
  security_state : Z;
  irq_callback : Z;
  exception_callback : Z
}.
Arguments mk_irq {W}. Arguments gic_of {W}. Arguments irq_handler {W}. Arguments spi_lock {W}.
Arguments security_state {W}. Arguments irq_callback {W}. Arguments exception_callback {W}.

(** A handler is called with a pointer: to the number of the interrupt, to a structure
    with it, or null; the number there after the call is its second result.  An
    exception callback returns a truth value. *)
Class Handlers (W : Type) : Type := {
  call_handler : Z → option Z → M (irq W) (Z * Z);
  call_exception : Z → M (irq W) bool
}.

Section Irq.
Context {W : Type} `{Machine W} `{Handlers W}.
Implicit Types s : irq W.

Definition set_gic (g : gic W) s : irq W :=
  mk_irq g (irq_handler s) (spi_lock s) (security_state s) (irq_callback s) (exception_callback s).
Definition set_handlers (f : handler_slot → Z) s : irq W :=
  mk_irq (gic_of s) f (spi_lock s) (security_state s) (irq_callback s) (exception_callback s).
Definition set_spi_lock (v : Z) s : irq W :=
  mk_irq (gic_of s) (irq_handler s) v (security_state s) (irq_callback s) (exception_callback s).
Definition set_callbacks (i e : Z) s : irq W :=
  mk_irq (gic_of s) (irq_handler s) (spi_lock s) (security_state s) i e.

Definition on_gic {A : Type} (m : M (gic W) A) : M (irq W) A := zoom gic_of set_gic m.

(** A lock that is taken is never given back to a single core that waits for it. *)
Definition pal_spin_lock : M (irq W) unit := λ s,
  if spi_lock s =? 0 then Ok tt (set_spi_lock 1 s) else NoFuel.
Definition pal_spin_unlock : M (irq W) unit := modify (set_spi_lock 0).

(** * Handlers (pal_irq.c) *)

Definition get_irq_handler (irq_num : Z) : M (irq W) handler_slot :=
  if IS_PLAT_SPI irq_num then ret (SpiDesc (irq_num - MIN_SPI_ID))
  else
    let* mpid := on_gic (hw (mrs MPIDR_EL1)) in
    let linear_id := platform_get_core_pos (u32 mpid) in
    if IS_PPI irq_num then
      (if linear_id <? PLATFORM_CPU_COUNT then ret (PpiDesc linear_id (irq_num - MIN_PPI_ID)) else fail OutOfBounds)
    else if IS_SGI irq_num then
      (if linear_id <? PLATFORM_CPU_COUNT then ret (SgiDesc linear_id (irq_num - MIN_SGI_ID)) else fail OutOfBounds)
    else
      pal_assert (irq_num =? GIC_SPURIOUS_INTERRUPT) ;;
      ret SpuriousDesc.

Definition HANDLER_VALID (handler : Z) (expect_handler : bool) : bool :=
  if expect_handler then truthy handler else negb (truthy handler).

Definition put_handler (slot : handler_slot) (v : Z) s : irq W :=
  set_handlers (λ x, if decide (x = slot) then v else irq_handler s x) s.

Definition pal_irq_update_handler (irq_num h : Z) (expect_handler : bool) : M (irq W) Z :=
  let* cur_handler := get_irq_handler irq_num in
  (if IS_PLAT_SPI irq_num then pal_spin_lock else ret tt) ;;
  let* v := gets (λ s, irq_handler s cur_handler) in
  pal_assert (HANDLER_VALID v expect_handler) ;;
  let* st := if HANDLER_VALID v expect_handler then modify (put_handler cur_handler h) ;; ret 0 else ret (-1) in
  (if IS_PLAT_SPI irq_num then pal_spin_unlock else ret tt) ;;
  ret st.

Definition pal_irq_register_handler (irq_num h : Z) : M (irq W) Z := pal_irq_update_handler irq_num h false.
Definition pal_irq_unregister_handler (irq_num : Z) : M (irq W) Z := pal_irq_update_handler irq_num 0 true.

(** * Enabling and signalling *)

Definition pal_send_sgi (sgi_id core_pos : Z) : M (irq W) unit :=
  pal_assert (IS_SGI sgi_id) ;;
  on_gic (arm_gic_send_sgi sgi_id core_pos) ;;
  on_gic (hw enable_irq).

Definition pal_irq_enable (irq_num irq_priority : Z) : M (irq W) unit :=
  on_gic (hw disable_irq) ;;
  (if IS_PLAT_SPI irq_num then
     let* mpidr := on_gic (hw (mrs MPIDR_EL1)) in
     on_gic (arm_gic_set_intr_target irq_num (platform_get_core_pos mpidr))
   else ret tt) ;;
  on_gic (arm_gic_set_intr_priority irq_num irq_priority) ;;
  on_gic (arm_gic_intr_enable irq_num) ;;
  on_gic (hw enable_irq) ;;
  on_gic (hw enable_fiq).

Definition pal_configure_secure_irq_enable (fuel : nat) (irq_num : Z) : M (irq W) unit :=
  on_gic (arm_configure_secure_gic_intr_enable fuel irq_num).

Definition pal_irq_disable (irq_num : Z) : M (irq W) unit := on_gic (arm_gic_intr_disable irq_num).

(** * Dispatching *)

Definition pal_get_irq_num : M (irq W) Z :=
  let* st := gets security_state in
  if st =? SEC_STATE_REALM then let* v := on_gic (hw (mrs ICV_IAR1_EL1)) in ret (u32 v)
  else on_gic arm_gic_intr_ack.

Definition pal_gic_end_of_intr (irq_num : Z) : M (irq W) unit :=
  let* st := gets security_state in
  if st =? SEC_STATE_REALM then on_gic (hw (msr ICV_EOIR1_EL1 irq_num))
  else on_gic (arm_gic_end_of_intr irq_num).

Definition pal_irq_handler_dispatcher : M (irq W) Z :=
  let* irq_num := pal_get_irq_num in
  let raw_iar := irq_num in
  let* slot := get_irq_handler irq_num in
  let irq_data := if IS_PLAT_SPI irq_num || IS_PPI irq_num || IS_SGI irq_num then Some irq_num else None in
  let* handler := gets (λ s, irq_handler s slot) in
  if truthy handler then
    let* (_, data) := call_handler handler irq_data in
    let irq_num := if IS_PLAT_SPI irq_num || IS_PPI irq_num then data else irq_num in
    let* st := gets security_state in
    (if negb (st =? SEC_STATE_REALM) && negb (irq_num =? GIC_SPURIOUS_INTERRUPT)
     then on_gic (arm_gic_end_of_intr raw_iar) else ret tt) ;;
    ret PAL_SUCCESS
  else ret PAL_ERROR.

Definition pal_irq_setup (fuel : nat) : M (irq W) unit :=
  let* st := gets security_state in
  if st =? SEC_STATE_REALM then
    on_gic (hw enable_irq) ;;
    on_gic (hw enable_fiq) ;;
    on_gic (hw (msr ICC_PMR_EL1 0xff)) ;;
    let* v := on_gic (hw (mrs ICC_IGRPEN1_EL1)) in
    on_gic (hw (msr ICC_IGRPEN1_EL1 (Z.lor v 0x1)))
  else
    on_gic (arm_gic_init fuel GICD_BASE GICR_BASE) ;;
    modify (set_handlers (λ _, 0)) ;;
    modify (set_spi_lock 0).

(** * The interface to the tests (val_irq.c) *)

Definition val_irq_setup (fuel : nat) : M (irq W) unit := pal_irq_setup fuel.
Definition val_irq_enable (irq_num irq_priority : Z) : M (irq W) unit := pal_irq_enable irq_num irq_priority.
Definition val_configure_secure_irq_enable (fuel : nat) (irq_num : Z) : M (irq W) unit :=
  pal_configure_secure_irq_enable fuel irq_num.
Definition val_irq_disable (irq_num : Z) : M (irq W) unit := pal_irq_disable irq_num.
Definition val_irq_register_handler (num h : Z) : M (irq W) Z := pal_irq_register_handler num h.
Definition val_irq_unregister_handler (irq_num : Z) : M (irq W) Z := pal_irq_unregister_handler irq_num.
Definition val_gic_end_of_intr (irq_num : Z) : M (irq W) unit := pal_gic_end_of_intr irq_num.

(** * Exceptions (val_exceptions.c) *)

Definition val_irq_current : M (irq W) bool :=
  let* st := pal_irq_handler_dispatcher in ret (negb (truthy st)).

(** Prints the syndrome and never returns. *)
Definition default_sync_current_exception : M (irq W) bool :=
  let* el := on_gic (hw (mrs CurrentEL)) in
  let el := Z.shiftr (Z.land el 0xc) 2 in
  (if el =? 2 then
     let* _ := on_gic (hw (mrs ESR_EL2)) in
     let* _ := on_gic (hw (mrs ELR_EL2)) in
     let* _ := on_gic (hw (mrs FAR_EL2)) in ret tt
   else if el =? 1 then
     let* _ := on_gic (hw (mrs ESR_EL1)) in
     let* _ := on_gic (hw (mrs ELR_EL1)) in
     let* _ := on_gic (hw (mrs FAR_EL1)) in ret tt
   else ret tt) ;;
  out_of_fuel.

Definition val_sync_exception_current : M (irq W) bool :=
  let* cb := gets exception_callback in
  if truthy cb then call_exception cb else default_sync_current_exception.

Definition val_exception_setup (i e : Z) : M (irq W) unit := modify (set_callbacks i e).
End Irq.

(** * The handler of a Realm (val_realm_exception.c) *)

Definition EXCEPTION_ABORT_TYPE_HVC : Z := 1.
Definition EC_UNKNOWN : Z := 0.
Definition EC_INSTRUCTION_ABORT_SAME_EL : Z := 0x21.

(** The exception a test expects; the member ec is not used. *)
Record sea_params_ts : Type := mk_sea { sea_far : Z; handler_abort : Z; abort_type : Z }.

(** The state of a Realm that takes an exception: interrupts and exceptions, the calls
    to the RMM, and the global g_sea_params. *)
Record excpt (W V : Type) : Type := mk_excpt { x_irq : irq W; x_rl : rl V; g_sea_params : sea_params_ts }.
Arguments mk_excpt {W V}. Arguments x_irq {W V}. Arguments x_rl {W V}. Arguments g_sea_params {W V}.

Section RealmException.
Context {W V : Type} `{Machine W} `{RealmWorld V}.

Definition on_irq {A : Type} (m : M (irq W) A) : M (excpt W V) A :=
  zoom x_irq (λ i s, mk_excpt i (x_rl s) (g_sea_params s)) m.
Definition on_rl {A : Type} (m : M (rl V) A) : M (excpt W V) A :=
  zoom x_rl (λ r s, mk_excpt (x_irq s) r (g_sea_params s)) m.
Definition note_abort : M (excpt W V) unit :=
  modify (λ s, mk_excpt (x_irq s) (x_rl s) (mk_sea (sea_far (g_sea_params s)) 1 (abort_type (g_sea_params s)))).

Definition synchronous_exception_handler : M (excpt W V) bool :=
  let* esr_el1 := on_irq (on_gic (hw (mrs ESR_EL1))) in
  let* far_el1 := on_irq (on_gic (hw (mrs FAR_EL1))) in
  let* elr_el1 := on_irq (on_gic (hw (mrs ELR_EL1))) in
  let next_pc := u64 (elr_el1 + 4) in
  let ec := Z.shiftr esr_el1 26 in
  let* g := gets g_sea_params in
  (if abort_type g =? EXCEPTION_ABORT_TYPE_HVC then
     if negb (ec =? EC_UNKNOWN) then ret tt else note_abort
   else if negb (ec =? abort_type g) || negb (far_el1 =? sea_far g) then ret tt
   else note_abort) ;;
  (if ec =? EC_INSTRUCTION_ABORT_SAME_EL then
     on_irq (val_exception_setup 0 0) ;;
     on_rl val_realm_return_to_host
   else on_irq (on_gic (hw (msr ELR_EL1 next_pc)))) ;;
  ret true.
End RealmException.
