(* ===== verification/GicDev.v ===== *)
(** A reference GICv3 with one core looking at it, as an instance of [Machine]: the
    registers of the distributor and of the redistributors (one frame of 128 KB for
    each core), with their set and clear semantics, the registers by which the core
    acknowledges and ends an interrupt, and what a test sees of it: which interrupts
    are enabled, pending and active, with which priority.  It documents the hardware;
    the theorems on the driver run on it. *)
From S2P Require Import Prelude Defs Alloc Granule Host Mp Machine Gic.

(** * Registers of interrupts *)

Definition upd (f : Z → Z) (i v : Z) : Z → Z := λ j, if j =? i then v else f j.

(** Bits are kept in words of 32 by index, priorities as bytes by interrupt. *)
Record bank : Type := mk_bank {
  b_group : Z → Z;
  b_grpmod : Z → Z;
  b_enable : Z → Z;
  b_pending : Z → Z;
  b_active : Z → Z;
  b_prio : Z → Z;
  b_cfg : Z → Z
}.

Definition set_enable (f : Z → Z) (b : bank) : bank :=
  mk_bank (b_group b) (b_grpmod b) f (b_pending b) (b_active b) (b_prio b) (b_cfg b).
Definition set_pending (f : Z → Z) (b : bank) : bank :=
  mk_bank (b_group b) (b_grpmod b) (b_enable b) f (b_active b) (b_prio b) (b_cfg b).
Definition set_active (f : Z → Z) (b : bank) : bank :=
  mk_bank (b_group b) (b_grpmod b) (b_enable b) (b_pending b) f (b_prio b) (b_cfg b).
Definition set_prio (f : Z → Z) (b : bank) : bank :=
  mk_bank (b_group b) (b_grpmod b) (b_enable b) (b_pending b) (b_active b) f (b_cfg b).
Definition set_cfg (f : Z → Z) (b : bank) : bank :=
  mk_bank (b_group b) (b_grpmod b) (b_enable b) (b_pending b) (b_active b) (b_prio b) f.
Definition set_group (f : Z → Z) (b : bank) : bank :=
  mk_bank f (b_grpmod b) (b_enable b) (b_pending b) (b_active b) (b_prio b) (b_cfg b).
Definition set_grpmod (f : Z → Z) (b : bank) : bank :=
  mk_bank (b_group b) f (b_enable b) (b_pending b) (b_active b) (b_prio b) (b_cfg b).

(** The register of an offset: its kind and its index. *)
Inductive reg : Type :=
  | RGroup | RSetEnable | RClrEnable | RSetPending | RClrPending | RSetActive | RClrActive | RPrio | RCfg | RGrpMod | ROther.

Definition reg_of (off : Z) : reg * Z :=
  if off <? 0x80 then (ROther, off)
  else if off <? 0x100 then (RGroup, (off - 0x80) / 4)
  else if off <? 0x180 then (RSetEnable, (off - 0x100) / 4)
  else if off <? 0x200 then (RClrEnable, (off - 0x180) / 4)
  else if off <? 0x280 then (RSetPending, (off - 0x200) / 4)
  else if off <? 0x300 then (RClrPending, (off - 0x280) / 4)
  else if off <? 0x380 then (RSetActive, (off - 0x300) / 4)
  else if off <? 0x400 then (RClrActive, (off - 0x380) / 4)
  else if off <? 0x800 then (RPrio, off - 0x400)
  else if off <? 0xc00 then (ROther, off)
  else if off <? 0xd00 then (RCfg, (off - 0xc00) / 4)
  else if off <? 0xd80 then (RGrpMod, (off - 0xd00) / 4)
  else (ROther, off).

Definition prio_word (p : Z → Z) (i : Z) : Z :=
  p i + 2 ^ 8 * p (i + 1) + 2 ^ 16 * p (i + 2) + 2 ^ 24 * p (i + 3).
Definition put_prio_word (p : Z → Z) (i v : Z) : Z → Z :=
  upd (upd (upd (upd p i (u8 v)) (i + 1) (u8 (Z.shiftr v 8))) (i + 2) (u8 (Z.shiftr v 16))) (i + 3) (u8 (Z.shiftr v 24)).

Definition bank_read (width : Z) (b : bank) (off : Z) : Z :=
  match reg_of off with
  | (RGroup, k) => b_group b k
  | (RGrpMod, k) => b_grpmod b k
  | (RSetEnable, k) | (RClrEnable, k) => b_enable b k
  | (RSetPending, k) | (RClrPending, k) => b_pending b k
  | (RSetActive, k) | (RClrActive, k) => b_active b k
  | (RPrio, i) => if width =? 1 then b_prio b i else prio_word (b_prio b) i
  | (RCfg, k) => b_cfg b k
  | (ROther, _) => 0
  end.

Definition bank_write (width : Z) (b : bank) (off v : Z) : bank :=
  match reg_of off with
  | (RGroup, k) => set_group (upd (b_group b) k v) b
  | (RGrpMod, k) => set_grpmod (upd (b_grpmod b) k v) b
  | (RSetEnable, k) => set_enable (upd (b_enable b) k (Z.lor (b_enable b k) v)) b
  | (RClrEnable, k) => set_enable (upd (b_enable b) k (Z.ldiff (b_enable b k) v)) b
  | (RSetPending, k) => set_pending (upd (b_pending b) k (Z.lor (b_pending b k) v)) b
  | (RClrPending, k) => set_pending (upd (b_pending b) k (Z.ldiff (b_pending b k) v)) b
  | (RSetActive, k) => set_active (upd (b_active b) k (Z.lor (b_active b k) v)) b
  | (RClrActive, k) => set_active (upd (b_active b) k (Z.ldiff (b_active b k) v)) b
  | (RPrio, i) => set_prio (if width =? 1 then upd (b_prio b) i v else put_prio_word (b_prio b) i v) b
  | (RCfg, k) => set_cfg (upd (b_cfg b) k v) b
  | (ROther, _) => b
  end.

(** * The controller and the core *)

Record frame : Type := mk_frame { f_typer : Z; f_bank : bank }.

Record gicv3 : Type := mk_gicv3 {
  d_ctlr : Z;
  d_typer : Z;
  d_bank : bank;
  d_route : Z → Z;
  frames : list frame;
  here : nat;              (* the frame of this core *)
  regs : sysreg → Z;
  daif : Z                 (* masked exceptions *)
}.

Definition set_ctlr (v : Z) (w : gicv3) : gicv3 :=
  mk_gicv3 v (d_typer w) (d_bank w) (d_route w) (frames w) (here w) (regs w) (daif w).
Definition set_dbank (b : bank) (w : gicv3) : gicv3 :=
  mk_gicv3 (d_ctlr w) (d_typer w) b (d_route w) (frames w) (here w) (regs w) (daif w).
Definition set_route (f : Z → Z) (w : gicv3) : gicv3 :=
  mk_gicv3 (d_ctlr w) (d_typer w) (d_bank w) f (frames w) (here w) (regs w) (daif w).
Definition set_frames (l : list frame) (w : gicv3) : gicv3 :=
  mk_gicv3 (d_ctlr w) (d_typer w) (d_bank w) (d_route w) l (here w) (regs w) (daif w).
Definition set_sys (r : sysreg) (v : Z) (w : gicv3) : gicv3 :=
  mk_gicv3 (d_ctlr w) (d_typer w) (d_bank w) (d_route w) (frames w) (here w)
    (λ x, if decide (x = r) then v else regs w x) (daif w).
Definition set_daif (v : Z) (w : gicv3) : gicv3 :=
  mk_gicv3 (d_ctlr w) (d_typer w) (d_bank w) (d_route w) (frames w) (here w) (regs w) v.

Definition no_bank : bank := mk_bank (λ _, 0) (λ _, 0) (λ _, 0) (λ _, 0) (λ _, 0) (λ _, 0) (λ _, 0).
Definition frame_at (w : gicv3) (k : nat) : frame := nth k (frames w) (mk_frame 0 no_bank).

(** The bank of an interrupt, as this core sees it. *)
Definition bank_for (w : gicv3) (i : Z) : bank := if i <? 32 then f_bank (frame_at w (here w)) else d_bank w.
Definition put_frame (k : nat) (b : bank) (w : gicv3) : gicv3 :=
  set_frames (alter (λ f, mk_frame (f_typer f) b) k (frames w)) w.
Definition put_bank (i : Z) (b : bank) (w : gicv3) : gicv3 :=
  if i <? 32 then put_frame (here w) b w else set_dbank b w.

Definition bit_of (f : Z → Z) (i : Z) : bool := Z.testbit (f (i / 32)) (i mod 32).
Definition enabled (w : gicv3) (i : Z) : bool := bit_of (b_enable (bank_for w i)) i.
Definition pending (w : gicv3) (i : Z) : bool := bit_of (b_pending (bank_for w i)) i.
Definition active (w : gicv3) (i : Z) : bool := bit_of (b_active (bank_for w i)) i.
Definition prio (w : gicv3) (i : Z) : Z := b_prio (bank_for w i) i.

Definition group1 (w : gicv3) (i : Z) : bool := bit_of (b_group (bank_for w i)) i.

(** An interrupt is delivered as one of group 1 if it is enabled, pending and in that
    group, the distributor forwards the group (EnableGrp1A), no mask of priorities hides
    it, it is routed to this core, and the interface of the core lets the group through. *)
Definition deliverable (w : gicv3) (i : Z) : bool :=
  pending w i && enabled w i && negb (active w i) && group1 w i
  && Z.testbit (d_ctlr w) 1 && (prio w i <? regs w ICC_PMR_EL1)
  && Z.testbit (regs w ICC_IGRPEN1_EL1) 0
  && ((i <? 32) || (d_route w i =? Z.land (regs w MPIDR_EL1) MPIDR_AFFINITY_MASK)).

Definition better (w : gicv3) (best : option Z) (i : Z) : option Z :=
  if deliverable w i then
    match best with
    | Some j => if prio w i <? prio w j then Some i else best
    | None => Some i
    end
  else best.
Definition highest (w : gicv3) : option Z := foldl (better w) None (Z.of_nat <$> seq 0 1020).

(** The core takes an interrupt exception when one is delivered and its I mask is clear. *)
Definition irq_taken (w : gicv3) : bool := bool_decide (is_Some (highest w)) && negb (Z.testbit (daif w) 1).

Definition set_bit (f : Z → Z) (i : Z) (v : bool) : Z → Z :=
  upd f (i / 32) (if v then Z.setbit (f (i / 32)) (i mod 32) else Z.clearbit (f (i / 32)) (i mod 32)).

(** Acknowledge an interrupt: it becomes active. *)
Definition acked (i : Z) (w : gicv3) : gicv3 :=
  let b := bank_for w i in
  put_bank i (set_active (set_bit (b_active b) i true) (set_pending (set_bit (b_pending b) i false) b)) w.
(** End it. *)
Definition ended (i : Z) (w : gicv3) : gicv3 :=
  let b := bank_for w i in put_bank i (set_active (set_bit (b_active b) i false) b) w.
(** A device asks for it. *)
Definition raised (i : Z) (w : gicv3) : gicv3 :=
  let b := bank_for w i in put_bank i (set_pending (set_bit (b_pending b) i true) b) w.

(** * The accesses *)

Definition FRAME_SIZE : Z := 0x20000.

Definition dist_read (width : Z) (w : gicv3) (off : Z) : Z :=
  if off =? 0 then d_ctlr w
  else if off =? 4 then d_typer w
  else if (0x6000 <=? off) && (off <? 0x8000) then d_route w ((off - 0x6000) / 8)
  else bank_read width (d_bank w) off.
Definition dist_write (width : Z) (w : gicv3) (off v : Z) : gicv3 :=
  if off =? 0 then set_ctlr v w
  else if off =? 4 then w
  else if (0x6000 <=? off) && (off <? 0x8000) then set_route (upd (d_route w) ((off - 0x6000) / 8) v) w
  else set_dbank (bank_write width (d_bank w) off v) w.

Definition rdist_read (width : Z) (w : gicv3) (off : Z) : Z :=
  let f := frame_at w (Z.to_nat (off / FRAME_SIZE)) in
  let o := off mod FRAME_SIZE in
  if o =? 8 then f_typer f
  else if 0x10000 <=? o then bank_read width (f_bank f) (o - 0x10000)
  else 0.
Definition rdist_write (width : Z) (w : gicv3) (off v : Z) : gicv3 :=
  let k := Z.to_nat (off / FRAME_SIZE) in
  let o := off mod FRAME_SIZE in
  if 0x10000 <=? o then put_frame k (bank_write width (f_bank (frame_at w k)) (o - 0x10000) v) w else w.

Definition gic_read (width : Z) (w : gicv3) (addr : Z) : Z :=
  if (GICD_BASE <=? addr) && (addr <? GICD_BASE + 0x10000) then dist_read width w (addr - GICD_BASE)
  else if GICR_BASE <=? addr then rdist_read width w (addr - GICR_BASE)
  else 0.
Definition gic_write (width : Z) (w : gicv3) (addr v : Z) : gicv3 :=
  if (GICD_BASE <=? addr) && (addr <? GICD_BASE + 0x10000) then dist_write width w (addr - GICD_BASE) v
  else if GICR_BASE <=? addr then rdist_write width w (addr - GICR_BASE) v
  else w.

Definition gic_sys_read (w : gicv3) (r : sysreg) : Z * gicv3 :=
  match r with
  | ICC_IAR1_EL1 =>
      match highest w with
      | Some i => (i, acked i w)
      | None => (GIC_SPURIOUS_INTERRUPT, w)
      end
  | _ => (regs w r, w)
  end.
Definition gic_sys_write (w : gicv3) (r : sysreg) (v : Z) : gicv3 :=
  match r with
  | ICC_EOIR1_EL1 => ended v w
  | DAIFSET => set_daif (Z.lor (daif w) v) w
  | DAIFCLR => set_daif (Z.ldiff (daif w) v) w
  | _ => set_sys r v w
  end.

#[export] Instance gicv3_machine : Machine gicv3 := {
  dev_read width w addr := (gic_read width w addr, w);
  dev_write := gic_write;
  sys_read := gic_sys_read;
  sys_write := gic_sys_write
}.
