(* ===== verification/GicFacts.v ===== *)
(** The driver on the reference controller of [GicDev]: the address and the bit the
    driver computes for an interrupt are those of that interrupt, for private and for
    shared ones; the search for a core's redistributor; the defaults of the shared
    interrupts. *)
From S2P Require Import Prelude Defs Alloc Granule Host Mp Machine Gic GicDev.

(** * Bits and words *)

Lemma reg_upd_eq f i v : upd f i v i = v.
Proof. unfold upd. by rewrite Z.eqb_refl. Qed.
Lemma reg_upd_ne f i j v : j ≠ i → upd f i v j = f j.
Proof. unfold upd. intros Hj. by rewrite (proj2 (Z.eqb_neq j i) Hj). Qed.

Lemma bit_num5 i : 0 ≤ i → BIT_NUM 5 i = i mod 32.
Proof.
  intros Hi. unfold BIT_NUM. change (Z.shiftl 1 5 - 1) with (Z.ones 5). by rewrite Z.land_ones by lia.
Qed.
Lemma word_bit i : 0 ≤ i → 0 ≤ i mod 32 < 32.
Proof. intros _. apply Z.mod_pos_bound. lia. Qed.
Lemma u32_bit k : 0 ≤ k < 32 → u32 (Z.shiftl 1 k) = Z.shiftl 1 k.
Proof.
  intros Hk. unfold u32. rewrite Z.shiftl_1_l. apply Z.mod_small. split; [apply Z.pow_nonneg; lia|].
  apply Z.pow_lt_mono_r; lia.
Qed.

Lemma bit_of_set_bit f i j v : 0 ≤ i → 0 ≤ j → bit_of (set_bit f i v) j = if decide (j = i) then v else bit_of f j.
Proof.
  intros Hi Hj. unfold bit_of, set_bit, upd.
  pose proof (word_bit i Hi). pose proof (word_bit j Hj).
  destruct (Z.eqb_spec (j / 32) (i / 32)) as [E|E].
  - destruct v.
    + rewrite Z.setbit_eqb by lia. rewrite E. case_decide as D; [subst; by rewrite Z.eqb_refl|].
      rewrite (proj2 (Z.eqb_neq (i mod 32) (j mod 32))); [done|].
      intros E2. apply D. rewrite (Z.div_mod j 32), (Z.div_mod i 32) by lia. congruence.
    + rewrite Z.clearbit_eqb. rewrite E. case_decide as D; [subst; rewrite Z.eqb_refl; apply andb_false_r|].
      rewrite (proj2 (Z.eqb_neq (i mod 32) (j mod 32))); [apply andb_true_r|].
      intros E2. apply D. rewrite (Z.div_mod j 32), (Z.div_mod i 32) by lia. congruence.
  - case_decide as D; [by subst|]. done.
Qed.

(** * Addresses *)

Lemma reg_addr5 i : 0 ≤ i < 1020 → u32 (Z.shiftl (Z.shiftr i 5) 2) = 4 * (i / 32).
Proof.
  intros Hi. rewrite Z.shiftl_mul_pow2, Z.shiftr_div_pow2 by lia. unfold u32.
  change (2 ^ 5) with 32. assert (0 ≤ i / 32 < 32) by (split; [apply Z.div_pos; lia|apply Z.div_lt_upper_bound; lia]).
  rewrite Z.mod_small; lia.
Qed.
Lemma offset5 reg i : 0 ≤ reg < 2 ^ 32 → 0 ≤ i < 1020 → GICD_OFFSET reg 5 i = reg + 4 * (i / 32).
Proof.
  intros Hr Hi. unfold GICD_OFFSET. rewrite Z.shiftl_mul_pow2, Z.shiftr_div_pow2 by lia. unfold u64.
  change (2 ^ 5) with 32. assert (0 ≤ i / 32 < 32) by (split; [apply Z.div_pos; lia|apply Z.div_lt_upper_bound; lia]).
  rewrite Z.mod_small; lia.
Qed.

Ltac range_tests :=
  repeat match goal with
  | |- context [?a <=? ?b] => first [rewrite (proj2 (Z.leb_le a b)) by lia | rewrite (proj2 (Z.leb_gt a b)) by lia]
  | |- context [?a <? ?b] => first [rewrite (proj2 (Z.ltb_lt a b)) by lia | rewrite (proj2 (Z.ltb_ge a b)) by lia]
  | |- context [?a =? ?b] => first [rewrite (proj2 (Z.eqb_eq a b)) by lia | rewrite (proj2 (Z.eqb_neq a b)) by lia]
  end; cbn [andb orb negb].

Lemma reg_at base i (r : reg) : 0 ≤ i < 1020 → 0x80 ≤ base → base + 128 ≤ 0x400 →
  (∀ off, base ≤ off < base + 128 → reg_of off = (r, (off - base) / 4)) →
  reg_of (base + 4 * (i / 32)) = (r, i / 32).
Proof.
  intros Hi H1 H2 Hr. assert (0 ≤ i / 32 < 32) by (split; [apply Z.div_pos; lia|apply Z.div_lt_upper_bound; lia]).
  rewrite Hr by lia. f_equal. replace (base + 4 * (i / 32) - base) with (i / 32 * 4) by lia. by rewrite Z.div_mul.
Qed.

Section Offsets.
Variable i : Z.
Hypothesis Hi : 0 ≤ i < 1020.

Lemma reg_group : reg_of (GICD_IGROUPR + 4 * (i / 32)) = (RGroup, i / 32).
Proof. apply reg_at; try done. intros off Ho. unfold reg_of. change GICD_IGROUPR with 0x80 in *. by range_tests. Qed.
Lemma reg_isenabler : reg_of (GICD_ISENABLER + 4 * (i / 32)) = (RSetEnable, i / 32).
Proof. apply reg_at; try done. intros off Ho. unfold reg_of. change GICD_ISENABLER with 0x100 in *. by range_tests. Qed.
Lemma reg_icenabler : reg_of (GICD_ICENABLER + 4 * (i / 32)) = (RClrEnable, i / 32).
Proof. apply reg_at; try done. intros off Ho. unfold reg_of. change GICD_ICENABLER with 0x180 in *. by range_tests. Qed.
Lemma reg_ispendr : reg_of (GICD_ISPENDR + 4 * (i / 32)) = (RSetPending, i / 32).
Proof. apply reg_at; try done. intros off Ho. unfold reg_of. change GICD_ISPENDR with 0x200 in *. by range_tests. Qed.
Lemma reg_icpendr : reg_of (GICD_ICPENDR + 4 * (i / 32)) = (RClrPending, i / 32).
Proof. apply reg_at; try done. intros off Ho. unfold reg_of. change GICD_ICPENDR with 0x280 in *. by range_tests. Qed.
Lemma reg_prio : reg_of (GICD_IPRIORITYR + i) = (RPrio, i).
Proof. unfold reg_of. change GICD_IPRIORITYR with 0x400. range_tests. f_equal. lia. Qed.
End Offsets.

(** * Accesses of the driver to the controller *)

Definition enable_on (i : Z) (w : gicv3) : gicv3 :=
  let b := bank_for w i in put_bank i (set_enable (set_bit (b_enable b) i true) b) w.
Definition disable_on (i : Z) (w : gicv3) : gicv3 :=
  let b := bank_for w i in put_bank i (set_enable (set_bit (b_enable b) i false) b) w.
Definition unpend_on (i : Z) (w : gicv3) : gicv3 :=
  let b := bank_for w i in put_bank i (set_pending (set_bit (b_pending b) i false) b) w.
Definition prio_on (i p : Z) (w : gicv3) : gicv3 :=
  let b := bank_for w i in put_bank i (set_prio (upd (b_prio b) i p) b) w.
Definition route_on (i aff : Z) (w : gicv3) : gicv3 := set_route (upd (d_route w) i aff) w.

Lemma dist_write_bank wd off v w : 0x80 ≤ off < 0x6000 →
  gic_write wd w (u64 (GICD_BASE + off)) v = set_dbank (bank_write wd (d_bank w) off v) w.
Proof.
  intros Ho. unfold gic_write, u64. change GICD_BASE with 0x2f000000. rewrite Z.mod_small by lia. range_tests.
  replace (0x2f000000 + off - 0x2f000000) with off by lia. unfold dist_write. by range_tests.
Qed.
Lemma dist_read_bank wd off w : 0x80 ≤ off < 0x6000 →
  gic_read wd w (u64 (GICD_BASE + off)) = bank_read wd (d_bank w) off.
Proof.
  intros Ho. unfold gic_read, u64. change GICD_BASE with 0x2f000000. rewrite Z.mod_small by lia. range_tests.
  replace (0x2f000000 + off - 0x2f000000) with off by lia. unfold dist_read. by range_tests.
Qed.

(** The frame of the k-th redistributor. *)
Definition frame_addr (k : nat) : Z := GICR_BASE + FRAME_SIZE * Z.of_nat k.

Lemma frame_offset k o : 0 ≤ o < FRAME_SIZE →
  (FRAME_SIZE * Z.of_nat k + o) / FRAME_SIZE = Z.of_nat k ∧ (FRAME_SIZE * Z.of_nat k + o) mod FRAME_SIZE = o.
Proof.
  intros Ho. rewrite (Z.mul_comm FRAME_SIZE), Z.add_comm. split.
  - rewrite Z.div_add by done. rewrite Z.div_small by done. lia.
  - rewrite Z.mod_add by done. by apply Z.mod_small.
Qed.
Lemma frame_decode k o : Z.of_nat k < 2 ^ 32 → 0 ≤ o < FRAME_SIZE →
  u64 (frame_addr k + o) = GICR_BASE + (FRAME_SIZE * Z.of_nat k + o) ∧ GICD_BASE + 0x10000 ≤ GICR_BASE + (FRAME_SIZE * Z.of_nat k + o).
Proof.
  intros Hk Ho. unfold frame_addr, u64, FRAME_SIZE in *. change GICR_BASE with 0x2f100000. change GICD_BASE with 0x2f000000.
  rewrite Z.mod_small by lia. lia.
Qed.
Lemma frame_write wd k o v w : Z.of_nat k < 2 ^ 32 → 0 ≤ o < 0x10000 →
  gic_write wd w (u64 (frame_addr k + (GICR_SGIBASE_OFFSET + o))) v = put_frame k (bank_write wd (f_bank (frame_at w k)) o v) w.
Proof.
  intros Hk Ho. change GICR_SGIBASE_OFFSET with 0x10000.
  assert (Ho2 : 0 ≤ 0x10000 + o < FRAME_SIZE) by (unfold FRAME_SIZE; lia).
  destruct (frame_decode k (0x10000 + o) Hk Ho2) as [-> Hd]. destruct (frame_offset k _ Ho2) as [Eq Em].
  set (x := FRAME_SIZE * Z.of_nat k + (0x10000 + o)) in *.
  unfold gic_write. rewrite (proj2 (Z.ltb_ge _ _) Hd), andb_false_r.
  rewrite (proj2 (Z.leb_le GICR_BASE _)) by (change GICD_BASE with 0x2f000000 in Hd; change GICR_BASE with 0x2f100000 in *; unfold x, FRAME_SIZE; lia).
  replace (GICR_BASE + x - GICR_BASE) with x by lia. unfold rdist_write. rewrite Eq, Em, Nat2Z.id.
  range_tests. by replace (0x10000 + o - 0x10000) with o by lia.
Qed.
Lemma frame_read_bank wd k o w : Z.of_nat k < 2 ^ 32 → 0 ≤ o < 0x10000 →
  gic_read wd w (u64 (frame_addr k + (GICR_SGIBASE_OFFSET + o))) = bank_read wd (f_bank (frame_at w k)) o.
Proof.
  intros Hk Ho. change GICR_SGIBASE_OFFSET with 0x10000.
  assert (Ho2 : 0 ≤ 0x10000 + o < FRAME_SIZE) by (unfold FRAME_SIZE; lia).
  destruct (frame_decode k (0x10000 + o) Hk Ho2) as [-> Hd]. destruct (frame_offset k _ Ho2) as [Eq Em].
  set (x := FRAME_SIZE * Z.of_nat k + (0x10000 + o)) in *.
  unfold gic_read. rewrite (proj2 (Z.ltb_ge _ _) Hd), andb_false_r.
  rewrite (proj2 (Z.leb_le GICR_BASE _)) by (change GICR_BASE with 0x2f100000; unfold x, FRAME_SIZE; lia).
  replace (GICR_BASE + x - GICR_BASE) with x by lia. unfold rdist_read. rewrite Eq, Em, Nat2Z.id.
  range_tests. by replace (0x10000 + o - 0x10000) with o by lia.
Qed.
Lemma frame_read_typer k w : Z.of_nat k < 2 ^ 32 →
  gic_read 8 w (u64 (frame_addr k + GICR_TYPER)) = f_typer (frame_at w k).
Proof.
  intros Hk. assert (Ho2 : 0 ≤ GICR_TYPER < FRAME_SIZE) by done.
  destruct (frame_decode k GICR_TYPER Hk Ho2) as [-> Hd]. destruct (frame_offset k _ Ho2) as [Eq Em].
  set (x := FRAME_SIZE * Z.of_nat k + GICR_TYPER) in *.
  unfold gic_read. rewrite (proj2 (Z.ltb_ge _ _) Hd), andb_false_r.
  rewrite (proj2 (Z.leb_le GICR_BASE _)) by (change GICR_BASE with 0x2f100000; unfold x, FRAME_SIZE, GICR_TYPER; lia).
  replace (GICR_BASE + x - GICR_BASE) with x by lia. unfold rdist_read. rewrite Eq, Em, Nat2Z.id. done.
Qed.

Lemma mmio_write32_eq a v (w : gicv3) : mmio_write32 a v w = Ok tt (gic_write 4 w (u64 a) (u32 v)).
Proof. done. Qed.
Lemma mmio_read32_eq a (w : gicv3) : mmio_read32 a w = Ok (u32 (gic_read 4 w (u64 a))) w.
Proof. done. Qed.

(** ** Shared interrupts *)

Section Shared.
Variables (i : Z) (w : gicv3).
Hypothesis Hi : 32 ≤ i < 1020.

Local Lemma spi_bank : bank_for w i = d_bank w.
Proof. unfold bank_for. by range_tests. Qed.
Local Lemma spi_put b : put_bank i b w = set_dbank b w.
Proof. unfold put_bank. by range_tests. Qed.
Local Lemma word_range : 0 ≤ 4 * (i / 32) < 128.
Proof. assert (0 ≤ i / 32 < 32) by (split; [apply Z.div_pos; lia|apply Z.div_lt_upper_bound; lia]). lia. Qed.

Ltac at_register R :=
  rewrite mmio_write32_eq, bit_num5, u32_bit, u32_bit, reg_addr5 by (try apply word_bit; lia);
  rewrite <- Z.add_assoc, dist_write_bank by (pose proof word_range; unfold R; lia).

Lemma set_isenabler_spi : gicd_set_isenabler GICD_BASE i w = Ok tt (enable_on i w).
Proof.
  unfold gicd_set_isenabler, gicd_write_isenabler, ISENABLER_SHIFT. at_register GICD_ISENABLER.
  unfold bank_write. rewrite reg_isenabler by lia. unfold enable_on. by rewrite spi_bank, spi_put.
Qed.
Lemma set_icenabler_spi : gicd_set_icenabler GICD_BASE i w = Ok tt (disable_on i w).
Proof.
  unfold gicd_set_icenabler, gicd_write_icenabler, ICENABLER_SHIFT, ISENABLER_SHIFT. at_register GICD_ICENABLER.
  unfold bank_write. rewrite reg_icenabler by lia. unfold disable_on. by rewrite spi_bank, spi_put.
Qed.
Lemma set_icpendr_spi : gicd_set_icpendr GICD_BASE i w = Ok tt (unpend_on i w).
Proof.
  unfold gicd_set_icpendr, gicd_write_icpendr, ICPENDR_SHIFT, ISPENDR_SHIFT. at_register GICD_ICPENDR.
  unfold bank_write. rewrite reg_icpendr by lia. unfold unpend_on. by rewrite spi_bank, spi_put.
Qed.
Lemma set_prio_spi p : 0 ≤ p < 256 → mmio_write8 (GICD_BASE + GICD_IPRIORITYR + i) p w = Ok tt (prio_on i p w).
Proof.
  intros Hp. unfold mmio_write8, modify. cbn [dev_write gicv3_machine].
  rewrite <- Z.add_assoc, dist_write_bank by (unfold GICD_IPRIORITYR; lia).
  unfold bank_write. rewrite reg_prio by lia. unfold prio_on. rewrite spi_bank, spi_put. unfold u8. by rewrite Z.mod_small by lia.
Qed.
Lemma set_irouter_spi aff : is_u64 aff → gicd_write_irouter GICD_BASE i aff w = Ok tt (route_on i aff w).
Proof.
  intros Ha. unfold gicd_write_irouter, pal_assert. change MIN_SPI_ID with 32. range_tests. cbn.
  unfold mmio_write64, modify. cbn [dev_write gicv3_machine]. unfold u32.
  rewrite Z.shiftl_mul_pow2, (Z.mod_small (i * 2 ^ 3)) by lia. unfold gic_write, u64.
  change GICD_BASE with 0x2f000000. change GICD_IROUTER with 0x6000. rewrite !Z.mod_small by (unfold is_u64 in Ha; lia). range_tests.
  unfold dist_write. range_tests.
  replace (0x2f000000 + 0x6000 + i * 2 ^ 3 - 0x2f000000 - 0x6000) with (i * 8) by lia. by rewrite Z.div_mul.
Qed.
End Shared.

(** ** Private interrupts of the core whose frame it is *)

Section Private.
Variables (i : Z) (w : gicv3).
Hypothesis Hi : 0 ≤ i < 32.
Hypothesis Hk : Z.of_nat (here w) < 2 ^ 32.

Local Lemma ppi_bank : bank_for w i = f_bank (frame_at w (here w)).
Proof. unfold bank_for. by range_tests. Qed.
Local Lemma ppi_put b : put_bank i b w = put_frame (here w) b w.
Proof. unfold put_bank. by range_tests. Qed.

Ltac at_frame R :=
  rewrite mmio_write32_eq, bit_num5, u32_bit, u32_bit by (try apply word_bit; lia);
  replace R with (GICR_SGIBASE_OFFSET + (R - GICR_SGIBASE_OFFSET)) by lia;
  rewrite frame_write by (done || (split; [done|vm_compute; reflexivity]));
  unfold bank_write.

Lemma set_isenabler_ppi : gicr_set_isenabler0 (frame_addr (here w)) i w = Ok tt (enable_on i w).
Proof.
  unfold gicr_set_isenabler0, gicr_write_isenabler0, ISENABLER_SHIFT. at_frame GICR_ISENABLER0.
  change (reg_of (GICR_ISENABLER0 - GICR_SGIBASE_OFFSET)) with (RSetEnable, 0). cbn iota beta.
  unfold enable_on. rewrite ppi_bank, ppi_put. unfold set_bit. by rewrite Z.div_small by lia.
Qed.
Lemma set_icenabler_ppi : gicr_set_icenabler0 (frame_addr (here w)) i w = Ok tt (disable_on i w).
Proof.
  unfold gicr_set_icenabler0, gicr_write_icenabler0, ISENABLER_SHIFT. at_frame GICR_ICENABLER0.
  change (reg_of (GICR_ICENABLER0 - GICR_SGIBASE_OFFSET)) with (RClrEnable, 0). cbn iota beta.
  unfold disable_on. rewrite ppi_bank, ppi_put. unfold set_bit. by rewrite Z.div_small by lia.
Qed.
Lemma set_icpendr_ppi : gicr_set_icpendr0 (frame_addr (here w)) i w = Ok tt (unpend_on i w).
Proof.
  unfold gicr_set_icpendr0, gicr_write_icpendr0, ICPENDR_SHIFT, ISPENDR_SHIFT. at_frame GICR_ICPENDR0.
  change (reg_of (GICR_ICPENDR0 - GICR_SGIBASE_OFFSET)) with (RClrPending, 0). cbn iota beta.
  unfold unpend_on. rewrite ppi_bank, ppi_put. unfold set_bit. by rewrite Z.div_small by lia.
Qed.
Lemma set_prio_ppi p : 0 ≤ p < 256 → mmio_write8 (frame_addr (here w) + GICR_IPRIORITYR + i) p w = Ok tt (prio_on i p w).
Proof.
  intros Hp. unfold mmio_write8, modify. cbn [dev_write gicv3_machine].
  rewrite <- Z.add_assoc. unfold GICR_IPRIORITYR. rewrite <- Z.add_assoc, frame_write by (done || lia).
  unfold bank_write. change 0x400 with GICD_IPRIORITYR. rewrite reg_prio by lia.
  unfold prio_on. rewrite ppi_bank, ppi_put. unfold u8. by rewrite Z.mod_small by lia.
Qed.
End Private.

(** * What an operation does to the view of each interrupt *)

(** A controller with the frame of the core that looks at it. *)
Definition placed_frame (w : gicv3) : Prop := (here w < length (frames w))%nat ∧ Z.of_nat (length (frames w)) < 2 ^ 32.

Lemma frame_at_alter f l k j : (k < length l)%nat →
  nth j (alter f k l) (mk_frame 0 no_bank) = if decide (j = k) then f (nth k l (mk_frame 0 no_bank)) else nth j l (mk_frame 0 no_bank).
Proof.
  intros Hk. rewrite !nth_lookup. case_decide as D.
  - subst. rewrite list_lookup_alter_eq. destruct (lookup_lt_is_Some_2 l k Hk) as [x ->]. done.
  - by rewrite list_lookup_alter_ne by done.
Qed.
Lemma bank_for_put w i j b : placed_frame w →
  bank_for (put_bank i b w) j = if Bool.eqb (i <? 32) (j <? 32) then b else bank_for w j.
Proof.
  intros [Hp _]. unfold bank_for, put_bank. destruct (i <? 32) eqn:Ei, (j <? 32) eqn:Ej; cbn [Bool.eqb]; try done.
  unfold frame_at, put_frame, set_frames. cbn [frames here]. rewrite frame_at_alter by done. by rewrite decide_True by done.
Qed.
Lemma placed_put w i b : placed_frame w → placed_frame (put_bank i b w).
Proof.
  unfold placed_frame, put_bank. case_match; [|done]. unfold put_frame, set_frames. cbn. by rewrite length_alter.
Qed.

(** What a core sees of an interrupt. *)
Record view : Type := mk_view { v_enabled : bool; v_pending : bool; v_active : bool; v_prio : Z; v_route : Z }.
Definition view_of (w : gicv3) (i : Z) : view := mk_view (enabled w i) (pending w i) (active w i) (prio w i) (d_route w i).

Lemma eqb_same_kind i j : Bool.eqb (i <? 32) (j <? 32) = false → j ≠ i.
Proof. intros E ->. by rewrite Bool.eqb_reflx in E. Qed.

Ltac view_step :=
  intros Hp Hi Hj; unfold view_of, enabled, pending, active, prio;
  rewrite !bank_for_put by done; destruct (Bool.eqb _ _) eqn:E;
  [|rewrite ?decide_False by (by apply eqb_same_kind); try done].

Section Views.
Variables (w : gicv3) (i j : Z).

Local Lemma same_bank : Bool.eqb (i <? 32) (j <? 32) = true → bank_for w i = bank_for w j.
Proof. intros E%Bool.eqb_prop. unfold bank_for. by rewrite E. Qed.
Local Lemma put_route b : d_route (put_bank i b w) = d_route w.
Proof. unfold put_bank. by case_match. Qed.

Lemma view_enable_on : placed_frame w → 0 ≤ i → 0 ≤ j →
  view_of (enable_on i w) j = if decide (j = i) then mk_view true (pending w i) (active w i) (prio w i) (d_route w i) else view_of w j.
Proof.
  unfold enable_on. cbn zeta. view_step; rewrite ?put_route.
  - cbn. rewrite bit_of_set_bit by done. case_decide as D; [by subst|]. by rewrite (same_bank E).
  - done.
Qed.
Lemma view_disable_on : placed_frame w → 0 ≤ i → 0 ≤ j →
  view_of (disable_on i w) j = if decide (j = i) then mk_view false (pending w i) (active w i) (prio w i) (d_route w i) else view_of w j.
Proof.
  unfold disable_on. cbn zeta. view_step; rewrite ?put_route.
  - cbn. rewrite bit_of_set_bit by done. case_decide as D; [by subst|]. by rewrite (same_bank E).
  - done.
Qed.
Lemma view_prio_on p : placed_frame w → 0 ≤ i → 0 ≤ j →
  view_of (prio_on i p w) j = if decide (j = i) then mk_view (enabled w i) (pending w i) (active w i) p (d_route w i) else view_of w j.
Proof.
  unfold prio_on. cbn zeta. view_step; rewrite ?put_route.
  - cbn. case_decide as D; [subst; by rewrite reg_upd_eq|]. by rewrite reg_upd_ne, (same_bank E).
  - done.
Qed.
Lemma view_route_on a : 0 ≤ i → 0 ≤ j →
  view_of (route_on i a w) j = if decide (j = i) then mk_view (enabled w i) (pending w i) (active w i) (prio w i) a else view_of w j.
Proof.
  intros Hi Hj. unfold view_of, route_on. cbn [d_route set_route]. case_decide as D; [subst; by rewrite reg_upd_eq|]. by rewrite reg_upd_ne.
Qed.
Lemma view_acked : placed_frame w → 0 ≤ i → 0 ≤ j →
  view_of (acked i w) j = if decide (j = i) then mk_view (enabled w i) false true (prio w i) (d_route w i) else view_of w j.
Proof.
  unfold acked. cbn zeta. view_step; rewrite ?put_route.
  - cbn. rewrite !bit_of_set_bit by done. case_decide as D; [by subst|]. by rewrite (same_bank E).
  - done.
Qed.
Lemma view_ended : placed_frame w → 0 ≤ i → 0 ≤ j →
  view_of (ended i w) j = if decide (j = i) then mk_view (enabled w i) (pending w i) false (prio w i) (d_route w i) else view_of w j.
Proof.
  unfold ended. cbn zeta. view_step; rewrite ?put_route.
  - cbn. rewrite !bit_of_set_bit by done. case_decide as D; [by subst|]. by rewrite (same_bank E).
  - done.
Qed.
Lemma view_raised : placed_frame w → 0 ≤ i → 0 ≤ j →
  view_of (raised i w) j = if decide (j = i) then mk_view (enabled w i) true (active w i) (prio w i) (d_route w i) else view_of w j.
Proof.
  unfold raised. cbn zeta. view_step; rewrite ?put_route.
  - cbn. rewrite !bit_of_set_bit by done. case_decide as D; [by subst|]. by rewrite (same_bank E).
  - done.
Qed.
End Views.

(** * The driver's state *)

(** The addresses are set and the redistributor of this core has been found. *)
Record ready (s : gic gicv3) : Prop := {
  rd_placed : placed_frame (machine s);
  rd_gicd : gicd_base_addr s = GICD_BASE;
  rd_gicr : gicr_base_addr s = GICR_BASE;
  rd_mpidr : is_u64 (regs (machine s) MPIDR_EL1);
  rd_pos : platform_get_core_pos (regs (machine s) MPIDR_EL1) < PLATFORM_CPU_COUNT;
  rd_base : rdist_pcpu_base s !! Z.to_nat (platform_get_core_pos (regs (machine s) MPIDR_EL1)) = Some (frame_addr (here (machine s)));
  rd_list : mpidr_list s !! Z.to_nat (platform_get_core_pos (regs (machine s) MPIDR_EL1))
            = Some (Z.land (regs (machine s) MPIDR_EL1) MPIDR_AFFINITY_MASK)
}.

Lemma set_machine_same (s : gic gicv3) : set_machine (machine s) s = s.
Proof. by destruct s. Qed.
Lemma set_machine_twice (w1 w2 : gicv3) s : set_machine w2 (set_machine w1 s) = set_machine w2 s.
Proof. done. Qed.

Lemma hw_ok {A} (m : M gicv3 A) s a w' : m (machine s) = Ok a w' → hw m s = Ok a (set_machine w' s).
Proof. unfold hw, zoom. by intros ->. Qed.

Section Ready.
Variable s : gic gicv3.
Hypothesis Hs : ready s.

Lemma my_core_pos_ready : my_core_pos s = Ok (platform_get_core_pos (regs (machine s) MPIDR_EL1)) s.
Proof.
  unfold my_core_pos. erewrite bind_step; [|apply hw_ok; reflexivity].
  unfold ret. rewrite set_machine_same. f_equal. unfold u64. rewrite Z.mod_small; [done|]. apply Hs.
Qed.
Lemma frame_addr_nonzero k : truthy (frame_addr k) = true.
Proof. unfold truthy. rewrite negb_true_iff, Z.eqb_neq. unfold frame_addr, FRAME_SIZE. change GICR_BASE with 0x2f100000. lia. Qed.

Lemma rdist_of_ready : rdist_of (platform_get_core_pos (regs (machine s) MPIDR_EL1)) s = Ok (frame_addr (here (machine s))) s.
Proof.
  unfold rdist_of. erewrite bind_step; [|unfold of_core; by rewrite (rd_base s Hs)]. by rewrite frame_addr_nonzero.
Qed.
Lemma dist_ready : dist s = Ok GICD_BASE s.
Proof. unfold dist. erewrite bind_step; [|reflexivity]. by rewrite (rd_gicd s Hs). Qed.

Lemma here_small : Z.of_nat (here (machine s)) < 2 ^ 32.
Proof. destruct (rd_placed s Hs). lia. Qed.

(** A function for private and one for shared interrupts that do the same. *)
Lemma by_kind_ready {A} i (r d : Z → M gicv3 A) a w' : 0 ≤ i < 1020 →
  (i < 32 → r (frame_addr (here (machine s))) (machine s) = Ok a w') →
  (32 ≤ i → d GICD_BASE (machine s) = Ok a w') →
  by_kind i r d s = Ok a (set_machine w' s).
Proof.
  intros Hi Hr Hd. unfold by_kind. erewrite bind_step; [|apply dist_ready].
  unfold IS_VALID_INTR_ID. change MAX_SPI_ID with 1019. change MIN_SPI_ID with 32. rewrite (proj2 (Z.leb_le i 1019)) by lia.
  erewrite bind_step; [|reflexivity]. destruct (Z.ltb_spec i 32).
  - erewrite bind_step; [|apply my_core_pos_ready]. erewrite bind_step; [|apply rdist_of_ready]. apply hw_ok. auto.
  - apply hw_ok. auto.
Qed.

Lemma set_isenabler_ready i : 0 ≤ i < 1020 → gicv3_set_isenabler i s = Ok tt (set_machine (enable_on i (machine s)) s).
Proof.
  intros Hi. apply by_kind_ready; [done| |]; intros H1.
  - apply set_isenabler_ppi; [lia|apply here_small].
  - apply set_isenabler_spi; lia.
Qed.
Lemma set_icenabler_ready i : 0 ≤ i < 1020 → gicv3_set_icenabler i s = Ok tt (set_machine (disable_on i (machine s)) s).
Proof.
  intros Hi. apply by_kind_ready; [done| |]; intros H1.
  - apply set_icenabler_ppi; [lia|apply here_small].
  - apply set_icenabler_spi; lia.
Qed.
Lemma set_ipriorityr_ready i p : 0 ≤ i < 1020 → 0 ≤ p < 256 →
  gicv3_set_ipriorityr i p s = Ok tt (set_machine (prio_on i p (machine s)) s).
Proof.
  intros Hi Hp. assert (Z.land p GIC_PRI_MASK = p) as E.
  { change GIC_PRI_MASK with (Z.ones 8). rewrite Z.land_ones by lia. by apply Z.mod_small. }
  change (gicv3_set_ipriorityr i p) with
    (by_kind (W := gicv3) i (λ base, mmio_write8 (base + GICR_IPRIORITYR + i) (Z.land p GIC_PRI_MASK))
       (λ gicd, mmio_write8 (gicd + GICD_IPRIORITYR + i) (Z.land p GIC_PRI_MASK))).
  rewrite E. apply by_kind_ready; [done| |]; intros H1.
  - apply set_prio_ppi; [lia|apply here_small|done].
  - apply set_prio_spi; [lia|done].
Qed.

Lemma affinity_bound m : is_u64 m → 0 ≤ Z.land m MPIDR_AFFINITY_MASK < 2 ^ 64 - 1.
Proof.
  intros Hm. assert (0 ≤ Z.land m MPIDR_AFFINITY_MASK) by (apply Z.land_nonneg; right; done).
  split; [done|]. apply Z.lt_le_trans with (2 ^ 40); [|lia].
  destruct (Z.eq_dec (Z.land m MPIDR_AFFINITY_MASK) 0) as [->|Hz]; [done|].
  apply Z.log2_lt_pow2; [lia|]. eapply Z.le_lt_trans; [apply Z.log2_land; [apply Hm|done]|].
  apply Z.le_lt_trans with (Z.log2 MPIDR_AFFINITY_MASK); [lia|done].
Qed.

Lemma set_intr_route_ready i : 32 ≤ i < 1020 →
  gicv3_set_intr_route i (platform_get_core_pos (regs (machine s) MPIDR_EL1)) s
  = Ok tt (set_machine (route_on i (Z.land (regs (machine s) MPIDR_EL1) MPIDR_AFFINITY_MASK) (machine s)) s).
Proof.
  intros Hi. unfold gicv3_set_intr_route. erewrite bind_step; [|apply dist_ready].
  rewrite (proj2 (Z.ltb_lt _ _) (rd_pos s Hs)). erewrite bind_step; [|reflexivity].
  erewrite bind_step; [|unfold of_core; by rewrite (rd_list s Hs)].
  pose proof (affinity_bound _ (rd_mpidr s Hs)) as Ha.
  rewrite (proj2 (Z.eqb_neq _ _)) by lia. erewrite bind_step; [|reflexivity].
  unfold IS_SPI. change MIN_SPI_ID with 32. change MAX_SPI_ID with 1019. range_tests. erewrite bind_step; [|reflexivity].
  apply hw_ok. apply set_irouter_spi; [done|]. unfold is_u64. lia.
Qed.
End Ready.

(** What the operations on interrupts leave alone. *)
Definition keeps (f : gicv3 → gicv3) : Prop := ∀ w, here (f w) = here w ∧ regs (f w) = regs w ∧ (placed_frame w → placed_frame (f w)).

Lemma keeps_put i (F : bank → bank) : keeps (λ w, put_bank i (F (bank_for w i)) w).
Proof.
  intros w. split; [|split]; [unfold put_bank; by case_match..|apply placed_put].
Qed.
Lemma keeps_enable i : keeps (enable_on i).
Proof. apply (keeps_put i (λ b, set_enable (set_bit (b_enable b) i true) b)). Qed.
Lemma keeps_disable i : keeps (disable_on i).
Proof. apply (keeps_put i (λ b, set_enable (set_bit (b_enable b) i false) b)). Qed.
Lemma keeps_prio i p : keeps (prio_on i p).
Proof. apply (keeps_put i (λ b, set_prio (upd (b_prio b) i p) b)). Qed.
Lemma keeps_acked i : keeps (acked i).
Proof. apply (keeps_put i (λ b, set_active (set_bit (b_active b) i true) (set_pending (set_bit (b_pending b) i false) b))). Qed.
Lemma keeps_ended i : keeps (ended i).
Proof. apply (keeps_put i (λ b, set_active (set_bit (b_active b) i false) b)). Qed.
Lemma keeps_raised i : keeps (raised i).
Proof. apply (keeps_put i (λ b, set_pending (set_bit (b_pending b) i true) b)). Qed.
Lemma keeps_route i a : keeps (route_on i a).
Proof. done. Qed.
Lemma keeps_daif v : keeps (set_daif v).
Proof. done. Qed.

Lemma ready_machine f s : keeps f → ready s → ready (set_machine (f (machine s)) s).
Proof.
  intros Hf Hs. destruct (Hf (machine s)) as (Eh & Er & Hp). destruct Hs.
  split; cbn [set_machine machine gicd_base_addr gicr_base_addr rdist_pcpu_base mpidr_list]; rewrite ?Er, ?Eh; auto.
Qed.

(** * The search for the redistributor of a core *)

(** The affinity by which a frame names its core. *)
Definition typer_affinity (mpidr : Z) : Z :=
  let m := Z.land mpidr MPIDR_AFFINITY_MASK in
  Z.lor (Z.ldiff m MPIDR_AFFLVL3_MASK) (Z.shiftr (Z.land m MPIDR_AFFLVL3_MASK) 8).
Definition frame_of_core (w : gicv3) (mpidr : Z) (k : nat) : bool :=
  typer_affinity mpidr =? Z.land (Z.shiftr (u64 (f_typer (frame_at w k))) TYPER_AFF_VAL_SHIFT) TYPER_AFF_VAL_MASK.
Definition last_frame (w : gicv3) (k : nat) : bool := truthy (Z.land (u64 (f_typer (frame_at w k))) TYPER_LAST_BIT).

(** The driver has found the frame of its core. *)
Definition found (k : nat) (s : gic gicv3) : gic gicv3 :=
  let mpidr := regs (machine s) MPIDR_EL1 in
  let core := Z.to_nat (platform_get_core_pos mpidr) in
  set_mpidrs (<[core := Z.land mpidr MPIDR_AFFINITY_MASK]> (mpidr_list s))
    (set_rdist (<[core := frame_addr k]> (rdist_pcpu_base s)) s).

Section Probe.
Variable s : gic gicv3.
Let w := machine s.
Let mpidr := regs w MPIDR_EL1.
Let core := platform_get_core_pos mpidr.
Hypothesis Hm : is_u64 mpidr.
Hypothesis Hcore : is_Some (rdist_pcpu_base s !! Z.to_nat core).

Lemma next_frame k : Z.of_nat (S k) < 2 ^ 32 → u64 (frame_addr k + Z.shiftl 1 GICR_PCPUBASE_SHIFT) = frame_addr (S k).
Proof.
  intros Hk. change (Z.shiftl 1 GICR_PCPUBASE_SHIFT) with FRAME_SIZE. unfold frame_addr, u64, FRAME_SIZE.
  change GICR_BASE with 0x2f100000. rewrite Z.mod_small by lia. lia.
Qed.

Lemma read_typer_at k : Z.of_nat k < 2 ^ 32 →
  hw (gicr_read_typer (frame_addr k)) s = Ok (u64 (f_typer (frame_at w k))) s.
Proof.
  intros Hk. erewrite hw_ok; [by rewrite set_machine_same|].
  unfold gicr_read_typer, mmio_read64. cbn [dev_read gicv3_machine]. by rewrite frame_read_typer.
Qed.

Lemma probe_found k fuel : Z.of_nat k < 2 ^ 32 → frame_of_core w mpidr k = true →
  probe_frames (S fuel) core (typer_affinity mpidr) (frame_addr k) s = Ok tt (found k s).
Proof.
  intros Hk Hf. cbn [probe_frames]. erewrite bind_step; [|by apply read_typer_at].
  unfold frame_of_core in Hf. rewrite Hf. destruct Hcore as [x Hx].
  erewrite bind_step; [|unfold of_core; by rewrite Hx].
  erewrite bind_step; [|reflexivity]. erewrite bind_step; [|apply hw_ok; reflexivity].
  unfold modify, found. f_equal. rewrite set_machine_same. cbn [mpidr_list set_rdist].
  change (regs (machine (set_rdist _ s)) MPIDR_EL1) with mpidr.
  unfold u64 at 1. by rewrite (Z.mod_small mpidr) by apply Hm.
Qed.
Lemma probe_skip k fuel : Z.of_nat (S k) < 2 ^ 32 → frame_of_core w mpidr k = false → last_frame w k = false →
  probe_frames (S fuel) core (typer_affinity mpidr) (frame_addr k) s = probe_frames fuel core (typer_affinity mpidr) (frame_addr (S k)) s.
Proof.
  intros Hk Hf Hl. cbn [probe_frames]. erewrite bind_step; [|apply read_typer_at; lia].
  unfold frame_of_core in Hf. unfold last_frame, truthy in Hl. rewrite Hf. apply negb_false_iff in Hl. rewrite Hl.
  by rewrite next_frame.
Qed.
Lemma probe_last k fuel : Z.of_nat (S k) < 2 ^ 32 → frame_of_core w mpidr k = false → last_frame w k = true →
  probe_frames (S fuel) core (typer_affinity mpidr) (frame_addr k) s = Ok tt s.
Proof.
  intros Hk Hf Hl. cbn [probe_frames]. erewrite bind_step; [|apply read_typer_at; lia].
  unfold frame_of_core in Hf. unfold last_frame, truthy in Hl. rewrite Hf. apply negb_true_iff in Hl. by rewrite Hl.
Qed.

Lemma probe_start fuel : gicr_base_addr s = GICR_BASE → rdist_pcpu_base s !! Z.to_nat core = Some 0 →
  gicv3_probe_redistif_addr fuel s = probe_frames fuel core (typer_affinity mpidr) (frame_addr 0) s.
Proof.
  intros Hg Hr. unfold gicv3_probe_redistif_addr, my_core_pos.
  assert (∀ B (k : Z → M (gic gicv3) B), bind (hw (mrs MPIDR_EL1)) k s = k mpidr s) as Em.
  { intros B k. erewrite bind_step; [|apply hw_ok; reflexivity]. rewrite set_machine_same. unfold u64.
    change (regs (machine s) MPIDR_EL1) with mpidr. by rewrite Z.mod_small by apply Hm. }
  erewrite bind_step; [|by rewrite Em]. erewrite bind_step; [|reflexivity]. rewrite Hg.
  erewrite bind_step; [|reflexivity]. fold core. erewrite bind_step; [|unfold of_core; by rewrite Hr]. cbn [truthy negb Z.eqb].
  by rewrite !Em.
Qed.

(** The frames from [k] on, up to the last one. *)
Lemma probe_chain n k fuel : Z.of_nat (k + n) < 2 ^ 32 → (n ≤ fuel)%nat → (0 < n)%nat →
  (∀ j, (k ≤ j < k + n)%nat → last_frame w j = bool_decide (j = k + n - 1)%nat) →
  (∃ j, (k ≤ j < k + n)%nat ∧ frame_of_core w mpidr j = true ∧ (∀ i, (k ≤ i < j)%nat → frame_of_core w mpidr i = false) ∧
     probe_frames fuel core (typer_affinity mpidr) (frame_addr k) s = Ok tt (found j s)) ∨
  ((∀ j, (k ≤ j < k + n)%nat → frame_of_core w mpidr j = false) ∧
     probe_frames fuel core (typer_affinity mpidr) (frame_addr k) s = Ok tt s).
Proof.
  revert k fuel. induction n as [|n IH]; intros k fuel Hk Hf Hn Hl; [lia|]. destruct fuel as [|fuel]; [lia|].
  destruct (frame_of_core w mpidr k) eqn:Ef.
  { left. exists k. split; [lia|]. split; [done|]. split; [lia|]. apply probe_found; [lia|done]. }
  destruct (last_frame w k) eqn:El.
  { right. rewrite Hl in El by lia. apply bool_decide_eq_true in El. split.
    - intros j Hj. by replace j with k by lia.
    - apply probe_last; [lia|done|]. rewrite Hl by lia. by apply bool_decide_eq_true. }
  assert (0 < n)%nat as Hn2.
  { rewrite Hl in El by lia. apply bool_decide_eq_false in El. lia. }
  rewrite probe_skip by (done || lia).
  destruct (IH (S k) fuel) as [(j & Hj & Hm1 & Hm2 & E)|[Hno E]]; try lia.
  - intros j Hj. rewrite Hl by lia. apply bool_decide_ext. lia.
  - left. exists j. split; [lia|]. split; [done|]. split; [|done]. intros i Hi.
    destruct (decide (i = k)); [by subst|]. apply Hm2. lia.
  - right. split; [|done]. intros j Hj. destruct (decide (j = k)); [by subst|]. apply Hno. lia.
Qed.
End Probe.

(** C18. The search ends with the first redistributor whose affinity is the core's and
    records it, or, when there is none up to the last one, with nothing changed; it takes
    at most one turn for each redistributor. *)
Theorem redistributor_found s n fuel :
  let w := machine s in let mpidr := regs w MPIDR_EL1 in
  is_u64 mpidr → gicr_base_addr s = GICR_BASE → rdist_pcpu_base s !! Z.to_nat (platform_get_core_pos mpidr) = Some 0 →
  (0 < n ≤ fuel)%nat → Z.of_nat n < 2 ^ 32 → (∀ j, (j < n)%nat → last_frame w j = bool_decide (j = n - 1)%nat) →
  (∃ j, (j < n)%nat ∧ frame_of_core w mpidr j = true ∧ (∀ i, (i < j)%nat → frame_of_core w mpidr i = false) ∧
     gicv3_probe_redistif_addr fuel s = Ok tt (found j s)) ∨
  ((∀ j, (j < n)%nat → frame_of_core w mpidr j = false) ∧ gicv3_probe_redistif_addr fuel s = Ok tt s).
Proof.
  intros w mpidr Hm Hg Hr Hn Hsmall Hl.
  rewrite probe_start by done. fold w mpidr.
  destruct (probe_chain s Hm (mk_is_Some _ _ Hr) n 0 fuel) as [(j & Hj & H1 & H2 & E)|[H1 E]]; try lia.
  - intros j Hj. rewrite Hl by lia. by replace (0 + n - 1)%nat with (n - 1)%nat by lia.
  - left. exists j. split; [lia|]. split; [done|]. split; [|done]. intros i Hi. apply H2. lia.
  - right. split; [|done]. intros j Hj. apply H1. lia.
Qed.

(** * Set-up *)

(** The core may use system registers for interrupts. *)
Definition sre_on (w : gicv3) : Prop :=
  Z.land (u64 (regs w (if GET_EL (u64 (regs w CurrentEL)) =? MODE_EL2 then ICC_SRE_EL2 else ICC_SRE_EL1))) ICC_SRE_SRE_BIT ≠ 0.

(** A board on which the driver may be started: system register access is on, the
    distributor routes by affinity, the core has a frame before which no other ends
    the search. *)
Record board (w : gicv3) : Prop := {
  bd_placed : placed_frame w;
  bd_mpidr : is_u64 (regs w MPIDR_EL1);
  bd_pos : platform_get_core_pos (regs w MPIDR_EL1) < PLATFORM_CPU_COUNT;
  bd_pfr0 : Z.land (u64 (regs w ID_AA64PFR0_EL1)) (Z.shiftl ID_AA64PFR0_GIC_MASK ID_AA64PFR0_GIC_SHIFT) ≠ 0;
  bd_sre : sre_on w;
  bd_ctlr : Z.land (u32 (d_ctlr w)) (Z.shiftl GICD_CTLR_ARE_NS_MASK GICD_CTLR_ARE_NS_SHIFT) ≠ 0;
  bd_here : frame_of_core w (regs w MPIDR_EL1) (here w) = true;
  bd_before : ∀ k, (k < here w)%nat → frame_of_core w (regs w MPIDR_EL1) k = false ∧ last_frame w k = false
}.

(** The controller after the set-up: group 1 forwarded, every priority and group 1
    let through to the core. *)
Definition started (w : gicv3) : gicv3 :=
  set_sys ICC_IGRPEN1_EL1 (u64 (Z.lor (u64 (regs w ICC_IGRPEN1_EL1)) IGRPEN1_EL1_ENABLE_BIT))
    (set_sys ICC_PMR_EL1 GIC_PRI_MASK (set_ctlr (u32 (Z.lor (u32 (d_ctlr w)) GICD_CTLR_ENABLE_GRP1A)) w)).

Lemma truthy_ne x : x ≠ 0 → truthy x = true.
Proof. unfold truthy. intros Hx. by rewrite (proj2 (Z.eqb_neq x 0) Hx). Qed.

Lemma sre_enabled_run s : sre_on (machine s) → ∃ v, hw is_sre_enabled s = Ok v s ∧ truthy v = true.
Proof.
  intros Hv. eexists. split; [|by apply truthy_ne].
  erewrite hw_ok; [by rewrite set_machine_same|].
  unfold is_sre_enabled, IS_IN_EL2. cbn. unfold bind, mrs. cbn. by destruct (GET_EL _ =? _).
Qed.

Lemma dist_reg_write4 (w : gicv3) v : gicd_write_ctlr GICD_BASE v w = Ok tt (set_ctlr (u32 v) w).
Proof. done. Qed.

Lemma setup_distif_run s : gicd_base_addr s = GICD_BASE → board (machine s) →
  gicv3_setup_distif s = Ok tt (set_machine (set_ctlr (u32 (Z.lor (u32 (d_ctlr (machine s))) GICD_CTLR_ENABLE_GRP1A)) (machine s)) s).
Proof.
  intros Hg Hb. unfold gicv3_setup_distif, dist.
  erewrite bind_step; [|erewrite bind_step; [|reflexivity]; rewrite Hg; reflexivity].
  erewrite bind_step; [|apply hw_ok; reflexivity]. rewrite set_machine_same.
  change (regs _ ID_AA64PFR0_EL1) with (regs (machine s) ID_AA64PFR0_EL1). rewrite (truthy_ne _ (bd_pfr0 _ Hb)).
  erewrite bind_step; [|reflexivity]. destruct (sre_enabled_run s (bd_sre _ Hb)) as (v & Ev & Tv).
  erewrite bind_step; [|exact Ev]. rewrite Tv. erewrite bind_step; [|reflexivity].
  erewrite bind_step; [|apply hw_ok; reflexivity]. rewrite set_machine_same.
  change (u32 _) with (u32 (d_ctlr (machine s))) at 1. rewrite (truthy_ne _ (bd_ctlr _ Hb)).
  erewrite bind_step; [|reflexivity]. apply hw_ok. apply dist_reg_write4.
Qed.

Lemma setup_cpuif_run s : sre_on (machine s) →
  gicv3_setup_cpuif s =
  Ok tt (set_machine (set_sys ICC_IGRPEN1_EL1 (u64 (Z.lor (u64 (regs (machine s) ICC_IGRPEN1_EL1)) IGRPEN1_EL1_ENABLE_BIT))
    (set_sys ICC_PMR_EL1 GIC_PRI_MASK (machine s))) s).
Proof.
  intros Hv. unfold gicv3_setup_cpuif. erewrite bind_step; [|apply hw_ok; reflexivity].
  set (s1 := set_machine _ s). unfold gicv3_enable_cpuif.
  destruct (sre_enabled_run s1) as (v & Ev & Tv); [unfold sre_on in *; cbn; by destruct (GET_EL _ =? _)|].
  erewrite bind_step; [|exact Ev]. rewrite Tv. erewrite bind_step; [|reflexivity].
  erewrite bind_step; [|apply hw_ok; reflexivity]. rewrite set_machine_same. erewrite hw_ok; reflexivity.
Qed.

Lemma core_pos_nonneg m : 0 ≤ platform_get_core_pos m.
Proof. unfold platform_get_core_pos, u32. apply Z.mod_pos_bound. done. Qed.

Definition searchable (w : gicv3) : Prop :=
  placed_frame w ∧ is_u64 (regs w MPIDR_EL1) ∧ frame_of_core w (regs w MPIDR_EL1) (here w) = true ∧
  ∀ k, (k < here w)%nat → frame_of_core w (regs w MPIDR_EL1) k = false ∧ last_frame w k = false.

Lemma board_searchable w : board w → searchable w.
Proof. intros Hb. repeat split; apply Hb. all: done. Qed.

Lemma probe_board s fuel : searchable (machine s) → gicr_base_addr s = GICR_BASE →
  rdist_pcpu_base s !! Z.to_nat (platform_get_core_pos (regs (machine s) MPIDR_EL1)) = Some 0 →
  (here (machine s) < fuel)%nat → gicv3_probe_redistif_addr fuel s = Ok tt (found (here (machine s)) s).
Proof.
  intros ([Hlt Hlen] & Hm & Hh & Hbefore) Hg Hr Hf. rewrite probe_start by done.
  assert (∀ n fuel k, (k + n = here (machine s))%nat → (n < fuel)%nat →
    probe_frames fuel (platform_get_core_pos (regs (machine s) MPIDR_EL1)) (typer_affinity (regs (machine s) MPIDR_EL1)) (frame_addr k) s
    = Ok tt (found (here (machine s)) s)) as Hall.
  { induction n as [|n IH]; intros f k Hk Hn; (destruct f as [|f]; [lia|]).
    - replace k with (here (machine s)) by lia. apply probe_found; [done|by eexists|lia|done].
    - destruct (Hbefore k) as [H1 H2]; [lia|]. rewrite probe_skip; [|lia|done|done]. apply IH; lia. }
  apply Hall with (n := here (machine s)); lia.
Qed.

(** The state of the driver after the set-up. *)
Definition initialised (w : gicv3) : gic gicv3 := set_machine (started w) (found (here w) (set_bases GICR_BASE GICD_BASE (gic_reset w))).

Lemma arm_gic_init_run w fuel : board w → (here w < fuel)%nat →
  arm_gic_init fuel GICD_BASE GICR_BASE (gic_reset w) = Ok tt (initialised w).
Proof.
  intros Hb Hf. unfold arm_gic_init, gicv3_init. erewrite bind_step; [|reflexivity].
  unfold arm_gic_setup_global. erewrite bind_step; [|apply setup_distif_run; [done|exact Hb]].
  set (v := u32 (Z.lor _ GICD_CTLR_ENABLE_GRP1A)). set (s1 := set_machine (set_ctlr v w) (set_bases GICR_BASE GICD_BASE (gic_reset w))).
  assert (∃ n, Z.to_nat (platform_get_core_pos (regs w MPIDR_EL1)) = n ∧ (n < 8)%nat) as (n & En & Hn).
  { eexists. split; [done|]. pose proof (core_pos_nonneg (regs w MPIDR_EL1)). pose proof (bd_pos _ Hb) as Hp.
    change PLATFORM_CPU_COUNT with 8 in Hp. lia. }
  unfold arm_gic_setup_local. erewrite bind_step.
  2: { apply (probe_board s1); [exact (board_searchable _ Hb)|done| |exact Hf].
       change (rdist_pcpu_base s1) with (replicate 8 0). change (regs (machine s1) MPIDR_EL1) with (regs w MPIDR_EL1).
       rewrite En. by rewrite lookup_replicate_2. }
  rewrite setup_cpuif_run; [done|]. exact (bd_sre _ Hb).
Qed.

Lemma initialised_ready w : board w → ready (initialised w).
Proof.
  intros Hb. pose proof (core_pos_nonneg (regs w MPIDR_EL1)) as H0. pose proof (bd_pos _ Hb) as Hp.
  change PLATFORM_CPU_COUNT with 8 in Hp. destruct Hb.
  split; try done; unfold initialised, found; cbn [rdist_pcpu_base mpidr_list set_machine set_mpidrs set_rdist set_bases gic_reset machine].
  - change (regs (started w) MPIDR_EL1) with (regs w MPIDR_EL1). rewrite list_lookup_insert_eq; [done|].
    rewrite length_replicate. change (Z.to_nat PLATFORM_CPU_COUNT) with 8%nat. lia.
  - change (regs (started w) MPIDR_EL1) with (regs w MPIDR_EL1). rewrite list_lookup_insert_eq; [done|].
    cbn [length]. rewrite length_replicate. change (Z.to_nat (PLATFORM_CPU_COUNT - 1)) with 7%nat. lia.
Qed.
