(* ===== verification/IrqFacts.v ===== *)
(** Interrupts on the reference controller: what enabling and disabling one changes,
    and the way of an interrupt from the set-up of the driver to the end of its
    handler. *)
From S2P Require Import Prelude Defs Alloc Granule Host Mp Realm Shared Machine Gic Irq GicDev GicFacts.

(** * States *)

Definition dev (s : irq gicv3) : gicv3 := machine (gic_of s).
Definition at_dev (w : gicv3) (s : irq gicv3) : irq gicv3 := set_gic (set_machine w (gic_of s)) s.
Definition mpidr_of (s : irq gicv3) : Z := regs (dev s) MPIDR_EL1.

Lemma at_dev_same s : at_dev (dev s) s = s.
Proof. destruct s as [g ? ? ? ? ?]. by destruct g. Qed.

Lemma on_gic_ok {A} (m : M (gic gicv3) A) s a w' :
  m (gic_of s) = Ok a (set_machine w' (gic_of s)) → on_gic m s = Ok a (at_dev w' s).
Proof. unfold on_gic, zoom. by intros ->. Qed.
Lemma on_hw_ok {A} (m : M gicv3 A) s a w' : m (dev s) = Ok a w' → on_gic (hw m) s = Ok a (at_dev w' s).
Proof. intros E. apply on_gic_ok. by apply hw_ok. Qed.

Lemma ready_at f s : keeps f → ready (gic_of s) → ready (gic_of (at_dev (f (dev s)) s)).
Proof. intros Hf Hs. by apply (ready_machine f (gic_of s)). Qed.

Lemma read_mpidr s : is_u64 (mpidr_of s) → on_gic (hw (mrs MPIDR_EL1)) s = Ok (mpidr_of s) s.
Proof.
  intros Hm. erewrite on_hw_ok; [|reflexivity]. rewrite at_dev_same. f_equal. unfold u64. by rewrite Z.mod_small by apply Hm.
Qed.

Lemma byte_ext x y n : 0 ≤ n → (∀ k, n ≤ k < n + 8 → Z.testbit x k = Z.testbit y k) →
  Z.land (Z.shiftr x n) 0xff = Z.land (Z.shiftr y n) 0xff.
Proof.
  intros Hn H. change 0xff with (Z.ones 8). apply Z.bits_inj'. intros k Hk.
  rewrite !Z.land_spec, !Z.shiftr_spec, Z.testbit_ones_nonneg by lia.
  destruct (Z.ltb_spec k 8); [|by rewrite !andb_false_r]. by rewrite H by lia.
Qed.
Lemma testbit_mod x n k : 0 ≤ n → 0 ≤ k → Z.testbit (x mod 2 ^ n) k = (k <? n) && Z.testbit x k.
Proof.
  intros Hn Hk. destruct (Z.ltb_spec k n); [by rewrite Z.mod_pow2_bits_low by lia|by rewrite Z.mod_pow2_bits_high by lia].
Qed.
(** The position of a core depends on the low word of its MPIDR. *)
Lemma u32_core m : platform_get_core_pos (u32 m) = platform_get_core_pos m.
Proof.
  assert (Z.land (u32 m) MPIDR_MT_MASK = Z.land m MPIDR_MT_MASK) as Emt.
  { change MPIDR_MT_MASK with (Z.shiftl 1 24). apply Z.bits_inj'. intros k Hk. rewrite !Z.land_spec, Z.shiftl_1_l, Z.pow2_bits_eqb by lia.
    unfold u32. rewrite testbit_mod by lia. destruct (Z.eqb_spec 24 k); [|by rewrite !andb_false_r]. subst. done. }
  unfold platform_get_core_pos. rewrite Emt.
  assert (∀ n, 0 ≤ n ≤ 16 → Z.land (Z.shiftr (if Z.land m MPIDR_MT_MASK =? 0 then u64 (Z.shiftl (u32 m) MPIDR_AFFINITY_BITS) else u32 m) n) 0xff
    = Z.land (Z.shiftr (if Z.land m MPIDR_MT_MASK =? 0 then u64 (Z.shiftl m MPIDR_AFFINITY_BITS) else m) n) 0xff) as E.
  { intros n Hn. apply byte_ext; [lia|]. intros k Hk. unfold u64, u32, MPIDR_AFFINITY_BITS. case_match.
    - rewrite !testbit_mod by lia. f_equal. rewrite !Z.shiftl_spec by lia.
      destruct (Z.lt_ge_cases k 8); [by rewrite !Z.testbit_neg_r by lia|]. rewrite testbit_mod by lia.
      by rewrite (proj2 (Z.ltb_lt _ _)) by lia.
    - rewrite testbit_mod by lia. by rewrite (proj2 (Z.ltb_lt _ _)) by lia. }
  rewrite !E by (unfold MPIDR_AFF0_SHIFT, MPIDR_AFF1_SHIFT, MPIDR_AFF2_SHIFT; lia). done.
Qed.

(** * Enabling and disabling *)

(** What enabling does to the controller. *)
Definition switched_on (n p : Z) (w : gicv3) : gicv3 :=
  let aff := Z.land (regs w MPIDR_EL1) MPIDR_AFFINITY_MASK in
  enable_on n (prio_on n p (if IS_PLAT_SPI n then route_on n aff w else w)).

Lemma unmasked d : Z.ldiff (Z.ldiff (Z.lor d 2) 2) 1 = Z.ldiff d 3.
Proof.
  apply Z.bits_inj'. intros k Hk. rewrite !Z.ldiff_spec, Z.lor_spec.
  destruct (Z.lt_ge_cases k 2).
  - assert (k = 0 ∨ k = 1) as [-> | ->] by lia; cbn; by rewrite ?andb_false_r.
  - rewrite (Z.bits_above_log2 2 k), (Z.bits_above_log2 1 k), (Z.bits_above_log2 3 k) by (cbn; lia).
    by rewrite orb_false_r, !andb_true_r.
Qed.

Lemma daif_enable n v w : enable_on n (set_daif v w) = set_daif v (enable_on n w).
Proof. unfold enable_on, bank_for, put_bank. by destruct (n <? 32). Qed.
Lemma daif_prio n p v w : prio_on n p (set_daif v w) = set_daif v (prio_on n p w).
Proof. unfold prio_on, bank_for, put_bank. by destruct (n <? 32). Qed.

Section Enable.
Context `{Handlers gicv3}.
Variable s : irq gicv3.
Hypothesis Hs : ready (gic_of s).

(** An operation of the driver on the interrupt, between masking and unmasking. *)
Lemma irq_enable_run n p : 0 ≤ n < 1020 → 0 ≤ p < 256 →
  val_irq_enable n p s = Ok tt (at_dev (set_daif (Z.ldiff (daif (dev s)) 3) (switched_on n p (dev s))) s).
Proof.
  intros Hn Hp. unfold val_irq_enable, pal_irq_enable.
  erewrite bind_step; [|apply on_hw_ok; reflexivity].
  set (w1 := sys_write (dev s) DAIFSET (u64 DAIF_IRQ_BIT)). set (s1 := at_dev w1 s).
  assert (ready (gic_of s1)) as H1 by (apply (ready_at (set_daif (Z.lor (daif (dev s)) 2))); [apply keeps_daif|done]).
  set (w2 := if IS_PLAT_SPI n then route_on n (Z.land (mpidr_of s1) MPIDR_AFFINITY_MASK) w1 else w1).
  assert ((if IS_PLAT_SPI n then let* mpidr := on_gic (hw (mrs MPIDR_EL1)) in on_gic (arm_gic_set_intr_target n (platform_get_core_pos mpidr))
           else ret tt) s1 = Ok tt (at_dev w2 s)) as E2.
  { unfold w2. destruct (IS_PLAT_SPI n) eqn:En; [|done]. erewrite bind_step; [|apply read_mpidr; apply H1].
    erewrite on_gic_ok; [reflexivity|]. unfold arm_gic_set_intr_target. apply (set_intr_route_ready (gic_of s1) H1).
    unfold IS_PLAT_SPI in En. apply andb_true_iff in En as [Ea Eb]. apply Z.leb_le in Ea, Eb.
    change MIN_SPI_ID with 32 in *. change PLAT_MAX_SPI_OFFSET_ID with 107 in *. lia. }
  erewrite bind_step; [|exact E2]. set (s2 := at_dev w2 s).
  assert (ready (gic_of s2)) as H2.
  { unfold s2, w2. case_match; [|exact H1]. apply (ready_at (route_on n _) s1); [apply keeps_route|done]. }
  erewrite bind_step; [|apply on_gic_ok; apply (set_ipriorityr_ready (gic_of s2) H2); done].
  set (s3 := at_dev _ s2). assert (ready (gic_of s3)) as H3 by (apply (ready_at (prio_on n p) s2); [apply keeps_prio|done]).
  erewrite bind_step; [|apply on_gic_ok; apply (set_isenabler_ready (gic_of s3) H3); done].
  erewrite bind_step; [|apply on_hw_ok; reflexivity]. erewrite on_hw_ok; [|reflexivity].
  match goal with |- Ok tt (at_dev ?a _) = Ok tt (at_dev ?b s) => assert (a = b) as ->; [|reflexivity] end.
  set (W := enable_on n (prio_on n p w2)).
  change (set_daif (Z.ldiff (Z.ldiff (daif W) 2) 1) (set_daif (Z.ldiff (daif W) 2) W)
          = set_daif (Z.ldiff (daif (dev s)) 3) (switched_on n p (dev s))).
  rewrite <- unmasked. unfold W.
  replace w2 with (set_daif (Z.lor (daif (dev s)) 2) (if IS_PLAT_SPI n then route_on n (Z.land (mpidr_of s) MPIDR_AFFINITY_MASK) (dev s) else dev s))
    by (unfold w2; by case_match).
 
  rewrite daif_prio, daif_enable. unfold switched_on, mpidr_of, dev. reflexivity.
Qed.
End Enable.

Lemma keeps_compose f g : keeps f → keeps g → keeps (λ w, f (g w)).
Proof.
  intros Hf Hg w. destruct (Hg w) as (E1 & E2 & E3), (Hf (g w)) as (F1 & F2 & F3).
  split; [congruence|]. split; [congruence|auto].
Qed.
Lemma keeps_switched_on n p : keeps (switched_on n p).
Proof.
  apply (keeps_compose (enable_on n)), (keeps_compose (prio_on n p)); [apply keeps_enable|apply keeps_prio|].
  intros w. by case_match.
Qed.

Lemma switched_on_view n p w j : placed_frame w → 0 ≤ n → 0 ≤ j →
  view_of (switched_on n p w) j =
  if decide (j = n) then mk_view true (pending w n) (active w n) p (if IS_PLAT_SPI n then Z.land (regs w MPIDR_EL1) MPIDR_AFFINITY_MASK else d_route w n)
  else view_of w j.
Proof.
  intros Hw Hn Hj. unfold switched_on. cbn zeta.
  set (w0 := if IS_PLAT_SPI n then _ else w).
  assert (Hw0 : placed_frame w0) by (unfold w0; by case_match).
  assert (Hw1 : placed_frame (prio_on n p w0)) by (by apply keeps_prio).
  pose proof (view_prio_on w0 n n p Hw0 Hn Hn) as Ev. rewrite decide_True in Ev by done.
  unfold view_of in Ev. injection Ev as _ E2 E3 E4 E5.
  rewrite view_enable_on, E2, E3, E4, E5, view_prio_on by done. unfold w0.
  case_decide as D; destruct (IS_PLAT_SPI n); try done.
  - unfold route_on. cbn [d_route set_route]. by rewrite reg_upd_eq.
  - rewrite view_route_on by done. by rewrite decide_False.
Qed.

(** C16. Enabling an interrupt enables it with its priority and, for a shared interrupt of
    the board, routes it to the calling core, lets interrupts through, and leaves every
    other interrupt and every register of the core as they were; disabling it afterwards
    only takes the enable bit back. *)
Theorem irq_enable_exact `{Handlers gicv3} s n p :
  ready (gic_of s) → 0 ≤ n < 1020 → 0 ≤ p < 256 →
  let w := dev s in
  let aff := if IS_PLAT_SPI n then Z.land (mpidr_of s) MPIDR_AFFINITY_MASK else d_route w n in
  run_to (val_irq_enable n p) s (λ _ s',
    s' = at_dev (dev s') s ∧ ready (gic_of s') ∧ regs (dev s') = regs w ∧ daif (dev s') = Z.ldiff (daif w) 3 ∧
    view_of (dev s') n = mk_view true (pending w n) (active w n) p aff ∧
    (∀ j, 0 ≤ j < 1020 → j ≠ n → view_of (dev s') j = view_of w j) ∧
    run_to (val_irq_disable n) s' (λ _ s2,
      s2 = at_dev (dev s2) s ∧ view_of (dev s2) n = mk_view false (pending w n) (active w n) p aff ∧
      ∀ j, 0 ≤ j < 1020 → j ≠ n → view_of (dev s2) j = view_of w j)).
Proof.
  intros Hs Hn Hp w aff. unfold run_to. rewrite irq_enable_run by done.
  set (w' := set_daif (Z.ldiff (daif w) 3) (switched_on n p w)). set (s' := at_dev w' s).
  destruct (keeps_switched_on n p w) as (_ & Eregs & Hplaced). specialize (Hplaced (rd_placed _ Hs)).
  assert (ready (gic_of s')) as Hr.
  { apply (ready_at (λ w, set_daif (Z.ldiff (daif w) 3) (switched_on n p w)) s); [|done].
    intros x. apply keeps_switched_on. }
  assert (∀ j, 0 ≤ j → view_of w' j = if decide (j = n) then mk_view true (pending w n) (active w n) p aff else view_of w j) as Hv.
  { intros j Hj. apply (switched_on_view n p w j); [apply Hs|lia|done]. }
  split; [done|]. split; [done|]. split; [exact Eregs|]. split; [done|].
  split; [change (dev s') with w'; rewrite Hv by lia; by rewrite decide_True|].
  split; [intros j Hj Hne; change (dev s') with w'; rewrite Hv by lia; by rewrite decide_False|].
  unfold val_irq_disable, pal_irq_disable, arm_gic_intr_disable.
  erewrite on_gic_ok; [|apply (set_icenabler_ready (gic_of s') Hr); done].
  split; [done|]. change (view_of (dev _)) with (view_of (disable_on n w')).
  pose proof (Hv n ltac:(lia)) as Evn. rewrite decide_True in Evn by done. unfold view_of in Evn. injection Evn as _ E2 E3 E4 E5.
  split; [|intros j Hj Hne]; rewrite view_disable_on by (done || lia).
  - rewrite decide_True by done. f_equal; assumption.
  - rewrite decide_False by done. rewrite Hv by lia. by rewrite decide_False.
Qed.

(** * From the set-up to the end of a handler *)

Lemma highest_unique w n : 0 ≤ n < 1020 → deliverable w n = true →
  (∀ j, 0 ≤ j < 1020 → j ≠ n → deliverable w j = false) → highest w = Some n.
Proof.
  intros Hn Hd Ho. unfold highest.
  assert (∀ l acc, (∀ j, j ∈ l → 0 ≤ j < 1020) → acc = None ∧ n ∈ l ∨ acc = Some n → foldl (better w) acc l = Some n) as Hall.
  { induction l as [|j l IH]; intros acc Hl Hacc; cbn [foldl].
    - destruct Hacc as [[_ Hin]|E]; [by apply not_elem_of_nil in Hin|done].
    - apply IH; [intros i Hi; apply Hl; by constructor|]. unfold better.
      destruct (decide (j = n)) as [->|Hne].
      + rewrite Hd. right. destruct Hacc as [[-> _]|E]; [done|]. rewrite E. by rewrite Z.ltb_irrefl.
      + rewrite Ho by (done || (apply Hl; constructor)). destruct Hacc as [[-> Hin]|E]; [|by right]. left. split; [done|].
        apply elem_of_cons in Hin as [E|Hin]; [by subst|done]. }
  apply Hall.
  - intros j Hj. apply list_elem_of_fmap in Hj as (k & -> & Hk%elem_of_seq). lia.
  - left. split; [done|]. apply list_elem_of_fmap. exists (Z.to_nat n). split; [lia|]. apply elem_of_seq. lia.
Qed.

Lemma kinds n : 0 ≤ n ≤ 139 →
  32 ≤ n ∧ IS_PLAT_SPI n = true ∨
  16 ≤ n < 32 ∧ IS_PLAT_SPI n = false ∧ IS_PPI n = true ∨
  n < 16 ∧ IS_PLAT_SPI n = false ∧ IS_PPI n = false ∧ IS_SGI n = true.
Proof.
  intros Hn. unfold IS_PLAT_SPI, IS_PPI, IS_SGI. change MIN_SPI_ID with 32. change (32 + PLAT_MAX_SPI_OFFSET_ID) with 139.
  change MIN_PPI_ID with 16. change MAX_PPI_ID with 31. change MAX_SGI_ID with 15.
  destruct (Z.le_gt_cases 32 n); [left|right; destruct (Z.le_gt_cases 16 n); [left|right]]; range_tests; repeat split; lia.
Qed.

(** The element of the tables that belongs to an interrupt on a core. *)
Definition slot_for (core n : Z) : handler_slot :=
  if IS_PLAT_SPI n then SpiDesc (n - MIN_SPI_ID)
  else if IS_PPI n then PpiDesc core (n - MIN_PPI_ID) else SgiDesc core (n - MIN_SGI_ID).

Section Served.
Context `{Handlers gicv3}.

Lemma get_handler_run s n : ready (gic_of s) → 0 ≤ n ≤ 139 →
  get_irq_handler n s = Ok (slot_for (platform_get_core_pos (mpidr_of s)) n) s.
Proof.
  intros Hs Hn. unfold get_irq_handler, slot_for. destruct (IS_PLAT_SPI n) eqn:E; [done|].
  erewrite bind_step; [|apply read_mpidr; apply Hs]. rewrite u32_core. unfold mpidr_of, dev.
  rewrite (proj2 (Z.ltb_lt _ _) (rd_pos _ Hs)).
  destruct (kinds n Hn) as [[_ E1]|[(_ & _ & E1)|(_ & _ & E1 & E2)]]; [congruence|by rewrite E1|by rewrite E1, E2].
Qed.

(** Changing the handler of an interrupt: refused by an assertion if the present one is
    not as expected. *)
Lemma update_handler_run s n h e : ready (gic_of s) → 0 ≤ n ≤ 139 → spi_lock s = 0 →
  let slot := slot_for (platform_get_core_pos (mpidr_of s)) n in
  pal_irq_update_handler n h e s =
  if HANDLER_VALID (irq_handler s slot) e then Ok 0 (put_handler slot h s) else Fault Panic.
Proof.
  intros Hs Hn Hl slot. unfold pal_irq_update_handler. erewrite bind_step; [|by apply get_handler_run].
  fold slot. destruct (IS_PLAT_SPI n).
  - erewrite bind_step; [|unfold pal_spin_lock; by rewrite Hl]. erewrite bind_step; [|reflexivity].
    change (irq_handler (set_spi_lock 1 s)) with (irq_handler s).
    destruct (HANDLER_VALID (irq_handler s slot) e); [|done]. cbn. unfold put_handler. destruct s; cbn in *. by rewrite Hl.
  - erewrite bind_step; [|reflexivity]. erewrite bind_step; [|reflexivity].
    by destruct (HANDLER_VALID (irq_handler s slot) e).
Qed.

Lemma setup_run w hs lock st ic ec fuel : board w → (here w < fuel)%nat → st ≠ SEC_STATE_REALM →
  val_irq_setup fuel (mk_irq (gic_reset w) hs lock st ic ec) = Ok tt (mk_irq (initialised w) (λ _, 0) 0 st ic ec).
Proof.
  intros Hb Hf Hst. unfold val_irq_setup, pal_irq_setup. erewrite bind_step; [|reflexivity].
  cbn [security_state]. rewrite (proj2 (Z.eqb_neq _ _) Hst).
  erewrite bind_step; [|unfold on_gic, zoom; cbn [gic_of]; by rewrite arm_gic_init_run]. reflexivity.
Qed.

Lemma iar_number n : 0 ≤ n ≤ 139 → u32 (Z.land (u64 n) IAR1_EL1_INTID_MASK) = n.
Proof.
  intros Hn. change IAR1_EL1_INTID_MASK with (Z.ones 24). rewrite Z.land_ones by lia. unfold u32, u64.
  rewrite (Z.mod_small n (2 ^ 64)), (Z.mod_small n (2 ^ 24)), (Z.mod_small n (2 ^ 32)) by lia. done.
Qed.

(** The dispatcher on an interrupt that the controller hands out. *)
Lemma irq_dispatch_run s n h r d s3 : ready (gic_of s) → 0 ≤ n ≤ 139 → security_state s ≠ SEC_STATE_REALM →
  highest (dev s) = Some n → irq_handler s (slot_for (platform_get_core_pos (mpidr_of s)) n) = h → h ≠ 0 →
  call_handler h (Some n) (at_dev (acked n (dev s)) s) = Ok (r, d) s3 →
  security_state s3 ≠ SEC_STATE_REALM → n < 16 ∨ d ≠ GIC_SPURIOUS_INTERRUPT →
  val_irq_current s = Ok true (at_dev (ended n (dev s3)) s3).
Proof.
  intros Hs Hn Hst Hh Hslot Hnz Hcall Hst3 Hd. unfold val_irq_current, pal_irq_handler_dispatcher.
  set (s2 := at_dev (acked n (dev s)) s) in *.
  assert (pal_get_irq_num s = Ok n s2) as E.
  { unfold pal_get_irq_num. erewrite bind_step; [|reflexivity]. rewrite (proj2 (Z.eqb_neq _ _) Hst).
    erewrite on_gic_ok; [reflexivity|]. unfold arm_gic_intr_ack, gicv3_acknowledge_interrupt.
    erewrite bind_step; [|erewrite bind_step; [|apply hw_ok; unfold mrs; cbn [sys_read gicv3_machine gic_sys_read]; change (machine (gic_of s)) with (dev s); rewrite Hh; reflexivity]; reflexivity].
    unfold ret. by rewrite iar_number. }
  erewrite bind_step; [|erewrite bind_step; [|exact E]].
  2: { assert (ready (gic_of s2)) as Hr by (apply (ready_at (acked n) s); [apply keeps_acked|done]).
       erewrite bind_step; [|by apply get_handler_run].
       assert (platform_get_core_pos (mpidr_of s2) = platform_get_core_pos (mpidr_of s)) as ->.
       { unfold mpidr_of. destruct (keeps_acked n (dev s)) as (_ & Er & _). change (dev s2) with (acked n (dev s)). by rewrite Er. }
       erewrite bind_step; [|reflexivity]. change (irq_handler s2) with (irq_handler s). rewrite Hslot, (truthy_ne _ Hnz).
       assert (IS_PLAT_SPI n || IS_PPI n || IS_SGI n = true) as ->.
       { destruct (kinds n Hn) as [[_ E1]|[(_ & E0 & E1)|(_ & E0 & E1 & E2)]]; [by rewrite E1|by rewrite E0, E1|by rewrite E0, E1, E2]. }
       erewrite bind_step; [|exact Hcall]. cbn beta iota. erewrite bind_step; [|reflexivity].
       rewrite (proj2 (Z.eqb_neq _ _) Hst3).
       assert ((if IS_PLAT_SPI n || IS_PPI n then d else n) =? GIC_SPURIOUS_INTERRUPT = false) as ->.
       { apply Z.eqb_neq. destruct (kinds n Hn) as [[? E1]|[(? & E0 & E1)|(? & E0 & E1 & _)]]; rewrite ?E0, E1; cbn [orb];
           [destruct Hd; [lia|done]..|]. change GIC_SPURIOUS_INTERRUPT with 1023. lia. }
       cbn [andb negb]. erewrite bind_step; [reflexivity|]. apply on_hw_ok. reflexivity. }
  unfold ret. cbn [sys_write gicv3_machine gic_sys_write]. unfold u64. rewrite Z.mod_small by lia. done.
Qed.
End Served.

(** An operation on the registers of an interrupt that leaves its group and the control
    register of the distributor alone. *)
Definition keeps_groups (f : gicv3 → gicv3) : Prop :=
  ∀ w, placed_frame w → d_ctlr (f w) = d_ctlr w ∧ ∀ j, group1 (f w) j = group1 w j.

Lemma groups_put i (F : bank → bank) : (∀ b, b_group (F b) = b_group b) → keeps_groups (λ w, put_bank i (F (bank_for w i)) w).
Proof.
  intros HF w Hw. split; [unfold put_bank; by case_match|]. intros j. unfold group1. rewrite bank_for_put by done.
  destruct (Bool.eqb _ _) eqn:E; [|done]. rewrite HF. apply Bool.eqb_prop in E. unfold bank_for. by rewrite E.
Qed.

Lemma groups_switched_on n p : keeps_groups (switched_on n p).
Proof.
  intros w Hw. unfold switched_on. cbn zeta. set (w0 := if IS_PLAT_SPI n then _ else w).
  assert (placed_frame w0 ∧ d_ctlr w0 = d_ctlr w ∧ ∀ j, group1 w0 j = group1 w j) as (H0 & E0 & G0) by (unfold w0; by case_match).
  destruct (groups_put n (λ b, set_prio (upd (b_prio b) n p) b) (λ _, eq_refl) w0 H0) as [E1 G1].
  fold (prio_on n p w0) in E1, G1.
  assert (placed_frame (prio_on n p w0)) as H1 by (by apply keeps_prio).
  destruct (groups_put n (λ b, set_enable (set_bit (b_enable b) n true) b) (λ _, eq_refl) (prio_on n p w0) H1) as [E2 G2].
  split; [etransitivity; [exact E2|]; by rewrite E1|]. intros j. etransitivity; [apply G2|]. by rewrite G1.
Qed.

Lemma groups_raised n : keeps_groups (raised n).
Proof. apply (groups_put n (λ b, set_pending (set_bit (b_pending b) n true) b) (λ _, eq_refl)). Qed.

Lemma deliverable_raised w n p : placed_frame w → 0 ≤ n ≤ 139 → 0 ≤ p < 255 → active w n = false → group1 w n = true →
  let w1 := set_daif (Z.ldiff (daif (started w)) 3) (switched_on n p (started w)) in
  deliverable (raised n w1) n = true ∧
  ((∀ j, 0 ≤ j < 1020 → j ≠ n → pending w j = false) → ∀ j, 0 ≤ j < 1020 → j ≠ n → deliverable (raised n w1) j = false).
Proof.
  intros Hw Hn Hp Ha Hg w1.
  assert (placed_frame w1) as Hw1 by (by apply (keeps_switched_on n p (started w))).
  assert (∀ j, 0 ≤ j → view_of w1 j = view_of (switched_on n p (started w)) j) as Hv by done.
  pose proof (switched_on_view n p (started w) n Hw (proj1 Hn) (proj1 Hn)) as Ev. rewrite decide_True in Ev by done.
  rewrite <- Hv in Ev by lia. unfold view_of in Ev. injection Ev as E1 E2 E3 E4 E5.
  pose proof (view_raised w1 n n Hw1 (proj1 Hn) (proj1 Hn)) as Er. rewrite decide_True in Er by done.
  unfold view_of in Er. injection Er as F1 F2 F3 F4 F5.
  destruct (keeps_raised n w1) as (_ & Eregs & _). destruct (keeps_switched_on n p (started w)) as (_ & Eregs2 & _).
  change (regs w1) with (regs (switched_on n p (started w))) in Eregs. rewrite Eregs2 in Eregs.
  assert (d_ctlr (raised n w1) = d_ctlr (started w) ∧ group1 (raised n w1) n = true) as [Ec Egr].
  { destruct (groups_raised n w1 Hw1) as [R1 R2], (groups_switched_on n p (started w) Hw) as [S1 S2].
    split; [rewrite R1; exact S1|]. rewrite R2. etransitivity; [apply S2|exact Hg]. }
  split.
  - unfold deliverable. rewrite Egr, Ec. change (d_ctlr (started w)) with (u32 (Z.lor (u32 (d_ctlr w)) GICD_CTLR_ENABLE_GRP1A)).
    unfold u32 at 1. rewrite (testbit_mod _ 32 1) by lia. rewrite Z.lor_spec, orb_true_r.
    rewrite F1, F2, F3, F4, F5, E1, E3, E4, E5, Eregs. change (active (started w) n) with (active w n). rewrite Ha.
    change (regs (started w) ICC_PMR_EL1) with 255. rewrite (proj2 (Z.ltb_lt p 255)) by lia.
    change (regs (started w) ICC_IGRPEN1_EL1) with (u64 (Z.lor (u64 (regs w ICC_IGRPEN1_EL1)) 1)).
    unfold u64 at 1. rewrite testbit_mod by lia. rewrite Z.lor_spec, orb_true_r. cbn [andb negb].
    destruct (kinds n Hn) as [[_ E]|[(? & _)|(? & _)]]; [rewrite E, Z.eqb_refl; apply orb_true_r|by range_tests..].
  - intros Ho j Hj Hne. unfold deliverable.
    pose proof (view_raised w1 n j Hw1 (proj1 Hn) (proj1 Hj)) as Ej. rewrite decide_False in Ej by done.
    rewrite Hv, switched_on_view, decide_False in Ej by (done || lia). unfold view_of in Ej. injection Ej as _ G2 _ _ _.
    rewrite G2. change (pending (started w) j) with (pending w j). by rewrite Ho.
Qed.

(** C15. From power-on, on a board whose firmware has put the interrupt into group 1: after
    the set-up, the registration of a handler and the enabling of the interrupt, the
    interrupt, when a device raises it, is the one the controller delivers and the core
    takes the exception; it is acknowledged, its handler is called with its number, and
    when the handler returns it is ended. *)
Theorem interrupt_served `{Handlers gicv3} w hs lock ic ec n p h fuel :
  board w → (here w < fuel)%nat → 0 ≤ n ≤ 139 → 0 ≤ p < 255 → h ≠ 0 → active w n = false → group1 w n = true →
  (∀ j, 0 ≤ j < 1020 → j ≠ n → pending w j = false) →
  run_to (val_irq_setup fuel ;; let* _ := val_irq_register_handler n h in val_irq_enable n p)
    (mk_irq (gic_reset w) hs lock SEC_STATE_NS ic ec) (λ _ s1,
    let served := at_dev (acked n (raised n (dev s1))) s1 in
    highest (raised n (dev s1)) = Some n ∧ irq_taken (raised n (dev s1)) = true ∧
    security_state served = SEC_STATE_NS ∧ enabled (dev served) n = true ∧ active (dev served) n = true ∧ pending (dev served) n = false ∧
    ∀ r d s2, call_handler h (Some n) served = Ok (r, d) s2 →
      security_state s2 = SEC_STATE_NS → n < 16 ∨ d ≠ GIC_SPURIOUS_INTERRUPT →
      val_irq_current (at_dev (raised n (dev s1)) s1) = Ok true (at_dev (ended n (dev s2)) s2)).
Proof.
  intros Hb Hf Hn Hp Hh Ha Hg Ho. unfold run_to. erewrite bind_step; [|by apply setup_run].
  set (s0 := mk_irq (initialised w) _ _ _ _ _).
  assert (ready (gic_of s0)) as Hr0 by (by apply initialised_ready).
  assert (mpidr_of s0 = regs w MPIDR_EL1) as Em by done.
  assert (val_irq_register_handler n h s0 = Ok 0 (put_handler (slot_for (platform_get_core_pos (mpidr_of s0)) n) h s0)) as Er.
  { unfold val_irq_register_handler, pal_irq_register_handler. by rewrite update_handler_run. }
  set (s' := put_handler _ h s0) in Er. erewrite bind_step; [|exact Er].
  assert (ready (gic_of s')) as Hr' by done.
  rewrite irq_enable_run by (done || lia). change (dev s') with (started w).
  set (w1 := set_daif (Z.ldiff (daif (started w)) 3) (switched_on n p (started w))). set (s2 := at_dev w1 s').
  destruct (deliverable_raised w n p (bd_placed _ Hb) Hn Hp Ha Hg) as [Hd Hnd]. fold w1 in Hd, Hnd.
  assert (highest (raised n w1) = Some n) as Htop by (apply highest_unique; [lia|done|auto]).
  assert (placed_frame (raised n w1)) as Hpl by (apply keeps_raised, (keeps_switched_on n p (started w)), Hb).
  pose proof (view_acked (raised n w1) n n Hpl (proj1 Hn) (proj1 Hn)) as Ev. rewrite decide_True in Ev by done.
  unfold view_of in Ev. injection Ev as E1 E2 E3 _ _. change (dev s2) with w1. cbn zeta.
  split; [exact Htop|]. split.
  { unfold irq_taken. rewrite bool_decide_true by (rewrite Htop; by eexists).
    assert (daif (raised n w1) = Z.ldiff (daif w) 3) as -> by (unfold raised, put_bank; by case_match).
    by rewrite Z.ldiff_spec, andb_false_r. }
  split; [done|]. split.
  { transitivity (enabled (raised n w1) n); [exact E1|]. unfold deliverable in Hd. destruct (enabled (raised n w1) n); [done|by rewrite andb_false_r in Hd]. }
  split; [exact E3|]. split; [exact E2|].
  intros r d s3 Hcall Hst Hdd.
  assert (ready (gic_of (at_dev (raised n w1) s2))) as Hr2.
  { apply (ready_at (λ w, raised n (set_daif (Z.ldiff (daif w) 3) (switched_on n p w))) s'); [|done].
    apply keeps_compose; [apply keeps_raised|]. intros x. apply keeps_switched_on. }
  apply irq_dispatch_run with (h := h) (r := r) (d := d); try done; [|by rewrite Hst].
  destruct (keeps_raised n w1) as (_ & Eregs & _). destruct (keeps_switched_on n p (started w)) as (_ & Eregs2 & _).
  unfold mpidr_of. change (dev (at_dev (raised n w1) s2)) with (raised n w1). rewrite Eregs. change (regs w1) with (regs (switched_on n p (started w))).
  rewrite Eregs2. cbn. by rewrite decide_True.
Qed.

(** * Behaviour at the edges *)

(** An interrupt without a handler is acknowledged and never ended: it stays active. *)
Lemma unhandled_stays_active `{Handlers gicv3} s n : ready (gic_of s) → 0 ≤ n ≤ 139 → security_state s ≠ SEC_STATE_REALM →
  highest (dev s) = Some n → irq_handler s (slot_for (platform_get_core_pos (mpidr_of s)) n) = 0 →
  val_irq_current s = Ok false (at_dev (acked n (dev s)) s) ∧ active (acked n (dev s)) n = true.
Proof.
  intros Hs Hn Hst Hh Hslot. set (s2 := at_dev (acked n (dev s)) s).
  assert (ready (gic_of s2)) as Hr by (apply (ready_at (acked n) s); [apply keeps_acked|done]).
  assert (pal_get_irq_num s = Ok n s2) as E.
  { unfold pal_get_irq_num. erewrite bind_step; [|reflexivity]. rewrite (proj2 (Z.eqb_neq _ _) Hst).
    erewrite on_gic_ok; [reflexivity|]. unfold arm_gic_intr_ack, gicv3_acknowledge_interrupt.
    erewrite bind_step; [|erewrite bind_step; [|apply hw_ok; unfold mrs; cbn [sys_read gicv3_machine gic_sys_read]; change (machine (gic_of s)) with (dev s); rewrite Hh; reflexivity]; reflexivity].
    unfold ret. by rewrite iar_number. }
  split.
  - unfold val_irq_current, pal_irq_handler_dispatcher. erewrite bind_step; [|erewrite bind_step; [|exact E]; erewrite bind_step; [|by apply get_handler_run]].
    2: { assert (platform_get_core_pos (mpidr_of s2) = platform_get_core_pos (mpidr_of s)) as ->.
         { unfold mpidr_of. destruct (keeps_acked n (dev s)) as (_ & Er & _). change (dev s2) with (acked n (dev s)). by rewrite Er. }
         erewrite bind_step; [|reflexivity]. change (irq_handler s2) with (irq_handler s). rewrite Hslot. reflexivity. }
    reflexivity.
  - pose proof (view_acked (dev s) n n (rd_placed _ Hs) (proj1 Hn) (proj1 Hn)) as Ev. rewrite decide_True in Ev by done.
    unfold view_of in Ev. by injection Ev.
Qed.

Lemma unset_mpidr {W : Type} (w : W) k : (0 < k < 8)%nat → mpidr_list (gic_reset w) !! k = Some 0.
Proof. intros Hk. do 8 (destruct k as [|k]; [try lia; done|]). lia. Qed.

(** A core that has not looked for its redistributor has the affinity zero in the list,
    not the mark that is tested: an interrupt sent to it goes to core 0. *)
Lemma sgi_to_unknown_core s k id : (0 < k < 8)%nat → 0 ≤ id < 16 → mpidr_list s = mpidr_list (gic_reset (machine s)) →
  gicv3_send_sgi id (Z.of_nat k) s = Ok tt (set_machine (set_sys ICC_SGI1R (Z.lor 1 (Z.shiftl id 24)) (machine s)) s).
Proof.
  intros Hk Hid Hl. unfold gicv3_send_sgi, IS_SGI. change MAX_SGI_ID with 15. change PLATFORM_CPU_COUNT with 8.
  rewrite (proj2 (Z.leb_le id 15)), (proj2 (Z.ltb_lt (Z.of_nat k) 8)) by lia.
  erewrite bind_step; [|reflexivity]. erewrite bind_step; [|reflexivity].
  erewrite bind_step; [|unfold of_core; rewrite Hl, Nat2Z.id, unset_mpidr by done; reflexivity].
  cbn -[hw]. apply hw_ok. unfold msr, modify. cbn [sys_write gicv3_machine gic_sys_write].
  assert (Z.land id SGI1R_INTID_MASK = id) as ->.
  { change SGI1R_INTID_MASK with (Z.ones 4). rewrite Z.land_ones by lia. apply Z.mod_small. lia. }
  assert (u64 (Z.lor 1 (Z.shiftl id 24)) = Z.lor 1 (Z.shiftl id 24)) as E; [|do 2 f_equal; exact E].
  assert (∃ m, (m < 16)%nat ∧ id = Z.of_nat m) as (m & Hm & ->) by (exists (Z.to_nat id); lia).
  do 16 (destruct m as [|m]; [reflexivity|]). lia.
Qed.

(** * A concrete board *)

(** A core with two redistributors, of which the second is its own. *)
Definition all_group1 : bank := set_group (λ _, 0xffffffff) no_bank.
Definition demo_gic : gicv3 :=
  mk_gicv3 0x10 1 all_group1 (λ _, 0) [mk_frame 0 no_bank; mk_frame (Z.shiftl 0x100 32 + 0x10) no_bank] 1
    (λ r, match r with MPIDR_EL1 => 0x81000100 | CurrentEL => 8 | ICC_SRE_EL2 => 1 | ID_AA64PFR0_EL1 => Z.shiftl 1 24 | _ => 0 end) 0.

#[local] Instance demo_handlers : Handlers gicv3 := {
  call_handler h d := ret (0, default 0 d);
  call_exception h := ret true
}.

Lemma demo_board : board demo_gic.
Proof.
  split.
  - split; cbn; lia.
  - unfold is_u64. cbn. lia.
  - vm_compute. reflexivity.
  - intros E. vm_compute in E. discriminate E.
  - intros E. vm_compute in E. discriminate E.
  - intros E. vm_compute in E. discriminate E.
  - vm_compute. reflexivity.
  - intros [|k] Hk; [|cbn in Hk; lia]. split; vm_compute; reflexivity.
Qed.

Lemma redistributor_found_witness :
  let s := set_bases GICR_BASE GICD_BASE (gic_reset demo_gic) in
  (∃ j, (j < 2)%nat ∧ frame_of_core demo_gic 0x81000100 j = true ∧ (∀ i, (i < j)%nat → frame_of_core demo_gic 0x81000100 i = false) ∧
     gicv3_probe_redistif_addr 2 s = Ok tt (found j s)) ∨
  ((∀ j, (j < 2)%nat → frame_of_core demo_gic 0x81000100 j = false) ∧ gicv3_probe_redistif_addr 2 s = Ok tt s).
Proof.
  cbn zeta. apply (redistributor_found (set_bases GICR_BASE GICD_BASE (gic_reset demo_gic)) 2 2); try done; [lia|].
  intros [|[|j]] Hj; [done|done|lia].
Defined.

Lemma irq_enable_exact_witness :
  let s := mk_irq (initialised demo_gic) (λ _, 0) 0 SEC_STATE_NS 0 0 in
  run_to (val_irq_enable 56 3) s (λ _ s', enabled (dev s') 56 = true ∧ prio (dev s') 56 = 3 ∧ d_route (dev s') 56 = 0x100).
Proof.
  cbn zeta. eapply run_to_mono; [apply (irq_enable_exact (mk_irq (initialised demo_gic) (λ _, 0) 0 SEC_STATE_NS 0 0) 56 3 (initialised_ready demo_gic demo_board)); lia|].
  intros _ s' (_ & _ & _ & _ & Hv & _). split; [exact (f_equal v_enabled Hv)|]. split; [exact (f_equal v_prio Hv)|].
  etransitivity; [exact (f_equal v_route Hv)|vm_compute; reflexivity].
Defined.

Lemma interrupt_served_witness :
  run_to (val_irq_setup 2 ;; let* _ := val_irq_register_handler 56 0x1000 in val_irq_enable 56 3)
    (mk_irq (gic_reset demo_gic) (λ _, 0) 0 SEC_STATE_NS 0 0) (λ _ s1,
    ∃ s2, val_irq_current (at_dev (raised 56 (dev s1)) s1) = Ok true s2).
Proof.
  eapply run_to_mono; [apply (interrupt_served demo_gic (λ _, 0) 0 0 0 56 3 0x1000 2 demo_board);
    [cbn; lia|lia|lia|lia|reflexivity|reflexivity|]; intros j _ _; unfold pending, bit_of, bank_for; destruct (j <? 32); apply Z.bits_0|].
  intros _ s1 (_ & _ & Hst & _ & _ & _ & H1). eexists. eapply (H1 0 56); [reflexivity|exact Hst|by right].
Defined.
