(* ===== verification/GicSave.v ===== *)
(** The loops of the driver of the interrupt controller on the reference controller of
    [GicDev]: the defaults of the shared interrupts, and the private interrupts of
    suspended cores, saved and restored. *)
From S2P Require Import Prelude Defs Alloc Granule Host Mp Machine Gic GicDev GicFacts.

(** * Defaults of the shared interrupts *)

(** A loop over the shared interrupts keeps an invariant that knows the index. *)
Lemma spi_loop_to {W : Type} (I : Z → W → Prop) lim step (body : Z → M W unit) : 0 < step → lim + step < 2 ^ 32 →
  ∀ n i w, 0 ≤ i → (0 < n)%nat → lim - i ≤ step * (Z.of_nat n - 1) →
  (∀ j w, i ≤ j < lim → (j - i) mod step = 0 → I j w → run_to (body j) w (λ _ w', I (j + step) w')) →
  I i w → run_to (spi_loop n i lim step body) w (λ _ w', ∃ j, lim ≤ j ∧ I j w').
Proof.
  intros Hs Hl n. induction n as [|n IH]; intros i w Hi Hn Hm Hb HI; [lia|]. cbn [spi_loop].
  destruct (Z.ltb_spec i lim) as [Hlt|Hge]; [|apply run_to_ret; by exists i].
  eapply run_to_bind; [apply Hb; [lia|by rewrite Z.sub_diag|done]|].
  intros [] w1 H1. cbn beta in H1. unfold u32. rewrite Z.mod_small by lia. apply IH; [lia|destruct n; nia || lia|lia| |done].
  intros j w2 Hj Hd. apply Hb; [lia|]. replace (j - i) with (j - (i + step) + 1 * step) by lia. by rewrite Z.mod_add by lia.
Qed.

(** Nothing changes but the groups, priorities and triggers of the distributor. *)
Definition same_state (w w' : gicv3) : Prop :=
  set_dbank no_bank w' = set_dbank no_bank w ∧ b_enable (d_bank w') = b_enable (d_bank w) ∧
  b_pending (d_bank w') = b_pending (d_bank w) ∧ b_active (d_bank w') = b_active (d_bank w) ∧ b_grpmod (d_bank w') = b_grpmod (d_bank w).

Lemma mmio_write32_dist off v w : 0x80 ≤ off < 0x6000 →
  mmio_write32 (GICD_BASE + off) v w = Ok tt (set_dbank (bank_write 4 (d_bank w) off (u32 v)) w).
Proof. intros Ho. by rewrite mmio_write32_eq, dist_write_bank. Qed.

Lemma write_group_run w i : 0 ≤ i < 1020 → i mod 32 = 0 →
  gicd_write_igroupr GICD_BASE i 0xFFFFFFFF w = Ok tt (set_dbank (set_group (upd (b_group (d_bank w)) (i / 32) 0xFFFFFFFF) (d_bank w)) w).
Proof.
  intros Hi Hm. unfold gicd_write_igroupr, GICD_WRITE, IGROUPR_SHIFT. rewrite offset5 by (done || lia).
  assert (0 ≤ i / 32 < 32) by (split; [apply Z.div_pos; lia|apply Z.div_lt_upper_bound; lia]).
  rewrite mmio_write32_dist by (change GICD_IGROUPR with 0x80; lia). unfold bank_write. by rewrite reg_group by lia.
Qed.
Lemma write_prio_run w i : 0 ≤ i < 1020 → i mod 4 = 0 →
  gicd_write_ipriorityr GICD_BASE i 0 w = Ok tt (set_dbank (set_prio (put_prio_word (b_prio (d_bank w)) i 0) (d_bank w)) w).
Proof.
  intros Hi Hm. unfold gicd_write_ipriorityr, IPRIORITYR_SHIFT.
  assert (u32 (Z.shiftl (Z.shiftr i 2) 2) = i) as ->.
  { rewrite Z.shiftl_mul_pow2, Z.shiftr_div_pow2 by lia. change (2 ^ 2) with 4.
    assert (i / 4 * 4 = i) as -> by (pose proof (Z.div_mod i 4); lia). unfold u32. apply Z.mod_small. lia. }
  rewrite <- Z.add_assoc, mmio_write32_dist by (change GICD_IPRIORITYR with 0x400; lia). unfold bank_write. by rewrite reg_prio by lia.
Qed.
Lemma reg_cfg i : 0 ≤ i < 1020 → reg_of (GICD_ICFGR + 4 * (i / 16)) = (RCfg, i / 16).
Proof.
  intros Hi. assert (0 ≤ i / 16 < 64) by (split; [apply Z.div_pos; lia|apply Z.div_lt_upper_bound; lia]).
  unfold reg_of. change GICD_ICFGR with 0xC00. range_tests. f_equal. replace (0xC00 + 4 * (i / 16) - 0xC00) with (i / 16 * 4) by lia. by rewrite Z.div_mul.
Qed.
Lemma write_cfg_run w i : 0 ≤ i < 1020 → i mod 16 = 0 →
  gicd_write_icfgr GICD_BASE i 0 w = Ok tt (set_dbank (set_cfg (upd (b_cfg (d_bank w)) (i / 16) 0) (d_bank w)) w).
Proof.
  intros Hi Hm. unfold gicd_write_icfgr, ICFGR_SHIFT.
  assert (0 ≤ i / 16 < 64) by (split; [apply Z.div_pos; lia|apply Z.div_lt_upper_bound; lia]).
  assert (u32 (Z.shiftl (Z.shiftr i 4) 2) = 4 * (i / 16)) as ->.
  { rewrite Z.shiftl_mul_pow2, Z.shiftr_div_pow2 by lia. change (2 ^ 4) with 16. unfold u32. rewrite Z.mod_small; lia. }
  rewrite <- Z.add_assoc, mmio_write32_dist by (change GICD_ICFGR with 0xC00; lia). unfold bank_write. by rewrite reg_cfg by lia.
Qed.

(** The limit that the distributor announces. *)
Definition spi_limit (w : gicv3) : Z := Z.min 1020 (32 * (Z.land (d_typer w) 0x1f + 1)).

Lemma get_spi_limit_run w : is_u64 (d_typer w) → d_typer w < 2 ^ 32 → gicv3_get_spi_limit GICD_BASE w = Ok (spi_limit w) w.
Proof.
  intros Hu Ht. unfold gicv3_get_spi_limit. erewrite bind_step; [|reflexivity].
  change (u32 (gic_read 4 w (u64 (GICD_BASE + GICD_TYPER)))) with (u32 (d_typer w)).   assert (u32 (d_typer w) = d_typer w) as -> by (unfold is_u64 in Hu; apply Z.mod_small; lia). change TYPER_IT_LINES_NO_MASK with (Z.ones 5).
  assert (0 ≤ Z.land (d_typer w) (Z.ones 5) < 32) as Hr by (rewrite Z.land_ones by lia; apply Z.mod_pos_bound; lia).
  unfold spi_limit. change 0x1f with (Z.ones 5). set (x := Z.land (d_typer w) (Z.ones 5)) in *.
  rewrite Z.shiftl_mul_pow2 by lia. unfold u32. rewrite (Z.mod_small (x + 1)), Z.mod_small by lia.
  change (MAX_SPI_ID + 1) with 1020. destruct (Z.ltb_spec 1020 ((x + 1) * 2 ^ 5)); unfold ret; f_equal; lia.
Qed.

Lemma same_state_put f w w1 :
  (∀ b, b_enable (f b) = b_enable b ∧ b_pending (f b) = b_pending b ∧ b_active (f b) = b_active b ∧ b_grpmod (f b) = b_grpmod b) →
  same_state w w1 → same_state w (set_dbank (f (d_bank w1)) w1).
Proof.
  intros Hf (H1 & H2 & H3 & H4 & H5). destruct (Hf (d_bank w1)) as (E1 & E2 & E3 & E4).
  split; [exact H1|]. cbn [d_bank set_dbank]. rewrite E1, E2, E3, E4. done.
Qed.

Lemma ones_bit k : 0 ≤ k < 32 → Z.testbit 0xFFFFFFFF k = true.
Proof. intros Hk. change 0xFFFFFFFF with (Z.ones 32). rewrite Z.testbit_ones_nonneg by lia. apply Z.ltb_lt. lia. Qed.

Lemma put_prio_word_zero p i j : put_prio_word p i 0 j = if (i <=? j) && (j <? i + 4) then 0 else p j.
Proof.
  unfold put_prio_word, upd. rewrite !Z.shiftr_0_l. change (u8 0) with 0. zb; cbn [andb]; first [done|lia].
Qed.

Section Defaults.
Variable w : gicv3.
Let lim := spi_limit w.

Local Lemma lim_range : 0 ≤ Z.land (d_typer w) 0x1f → 32 ≤ lim ≤ 1020.
Proof. unfold lim, spi_limit. lia. Qed.

Lemma groups_loop : 0 ≤ Z.land (d_typer w) 0x1f →
  run_to (spi_loop spi_fuel MIN_SPI_ID lim (Z.shiftl 1 IGROUPR_SHIFT) (λ i, gicd_write_igroupr GICD_BASE i 0xFFFFFFFF)) w
    (λ _ w', same_state w w' ∧ ∀ i, 32 ≤ i < lim → bit_of (b_group (d_bank w')) i = true).
Proof.
  intros H0. pose proof (lim_range H0) as Hl. change (Z.shiftl 1 IGROUPR_SHIFT) with 32. change MIN_SPI_ID with 32.
  eapply run_to_mono.
  - apply (spi_loop_to (λ j w1, same_state w w1 ∧ ∀ i, 32 ≤ i < j → bit_of (b_group (d_bank w1)) i = true)); try (unfold spi_fuel; lia).
    + intros j w1 Hj Hm [H1 H2]. assert (j mod 32 = 0) as Hd by (replace j with (j - 32 + 1 * 32) by lia; by rewrite Z.mod_add by lia).
      unfold run_to. rewrite write_group_run by (done || lia). split; [by apply (same_state_put (λ b, set_group (upd (b_group b) (j / 32) 0xFFFFFFFF) b))|].
      intros i Hi. unfold bit_of. cbn [d_bank set_dbank b_group set_group]. unfold upd. destruct (Z.eqb_spec (i / 32) (j / 32)) as [E|E].
      * apply ones_bit. apply word_bit. lia.
      * apply H2. split; [lia|]. destruct (Z.lt_ge_cases i j); [done|]. exfalso. apply E.
        symmetry. apply Z.div_unique with (i - j); [left; lia|]. pose proof (Z.div_mod j 32 ltac:(done)). lia.
    + split; [done|]. lia.
  - intros _ w' (j & Hj & H1 & H2). split; [done|]. intros i Hi. apply H2. lia.
Qed.

Lemma prios_loop w1 : 0 ≤ Z.land (d_typer w) 0x1f →
  run_to (spi_loop spi_fuel MIN_SPI_ID lim (Z.shiftl 1 IPRIORITYR_SHIFT) (λ i, gicd_write_ipriorityr GICD_BASE i GICD_IPRIORITYR_DEF_VAL)) w1
    (λ _ w', same_state w1 w' ∧ b_group (d_bank w') = b_group (d_bank w1) ∧ ∀ i, 32 ≤ i < lim → b_prio (d_bank w') i = 0).
Proof.
  intros H0. pose proof (lim_range H0) as Hl. change (Z.shiftl 1 IPRIORITYR_SHIFT) with 4. change MIN_SPI_ID with 32.
  change GICD_IPRIORITYR_DEF_VAL with 0. eapply run_to_mono.
  - apply (spi_loop_to (λ j w2, same_state w1 w2 ∧ b_group (d_bank w2) = b_group (d_bank w1) ∧ ∀ i, 32 ≤ i < j → b_prio (d_bank w2) i = 0)); try (unfold spi_fuel; lia).
    + intros j w2 Hj Hm (H1 & H2 & H3). assert (j mod 4 = 0) as Hd by (replace j with (j - 32 + 8 * 4) by lia; by rewrite Z.mod_add by lia).
      unfold run_to. rewrite write_prio_run by (done || lia). split; [by apply (same_state_put (λ b, set_prio (put_prio_word (b_prio b) j 0) b))|].
      split; [done|]. intros i Hi. cbn [d_bank set_dbank b_prio set_prio]. rewrite put_prio_word_zero.
      destruct ((j <=? i) && (i <? j + 4)) eqn:E; [done|]. apply H3. apply andb_false_iff in E as [E|E]; zb; try done; lia.
    + split; [done|]. split; [done|]. lia.
  - intros _ w' (j & Hj & H1 & H2 & H3). split; [done|]. split; [done|]. intros i Hi. apply H3. lia.
Qed.

Lemma cfgs_loop w1 : 0 ≤ Z.land (d_typer w) 0x1f →
  run_to (spi_loop spi_fuel MIN_SPI_ID lim (Z.shiftl 1 ICFGR_SHIFT) (λ i, gicd_write_icfgr GICD_BASE i 0)) w1
    (λ _ w', same_state w1 w' ∧ b_group (d_bank w') = b_group (d_bank w1) ∧ b_prio (d_bank w') = b_prio (d_bank w1) ∧
      ∀ i, 32 ≤ i < lim → b_cfg (d_bank w') (i / 16) = 0).
Proof.
  intros H0. pose proof (lim_range H0) as Hl. change (Z.shiftl 1 ICFGR_SHIFT) with 16. change MIN_SPI_ID with 32.
  eapply run_to_mono.
  - apply (spi_loop_to (λ j w2, same_state w1 w2 ∧ b_group (d_bank w2) = b_group (d_bank w1) ∧ b_prio (d_bank w2) = b_prio (d_bank w1) ∧
      ∀ i, 32 ≤ i < j → b_cfg (d_bank w2) (i / 16) = 0)); try (unfold spi_fuel; lia).
    + intros j w2 Hj Hm (H1 & H2 & H3 & H4). assert (j mod 16 = 0) as Hd by (replace j with (j - 32 + 2 * 16) by lia; by rewrite Z.mod_add by lia).
      unfold run_to. rewrite write_cfg_run by (done || lia). split; [by apply (same_state_put (λ b, set_cfg (upd (b_cfg b) (j / 16) 0) b))|].
      split; [done|]. split; [done|]. intros i Hi. cbn [d_bank set_dbank b_cfg set_cfg]. unfold upd.
      destruct (Z.eqb_spec (i / 16) (j / 16)) as [E|E]; [done|]. apply H4. split; [lia|]. destruct (Z.lt_ge_cases i j); [done|]. exfalso. apply E.
      symmetry. apply Z.div_unique with (i - j); [left; lia|]. pose proof (Z.div_mod j 16 ltac:(done)). lia.
    + split; [done|]. split; [done|]. split; [done|]. lia.
  - intros _ w' (j & Hj & H1 & H2 & H3 & H4). split; [done|]. split; [done|]. split; [done|]. intros i Hi. apply H4. lia.
Qed.
End Defaults.

(** All the shared interrupts that the distributor announces are put into group 1,
    with the highest priority and level triggered; nothing else changes. *)
Theorem spis_defaults w : is_u64 (d_typer w) → d_typer w < 2 ^ 32 →
  run_to (gicv3_spis_config_defaults GICD_BASE) w (λ _ w', same_state w w' ∧
    ∀ i, 32 ≤ i < spi_limit w → bit_of (b_group (d_bank w')) i = true ∧ b_prio (d_bank w') i = 0 ∧ b_cfg (d_bank w') (i / 16) = 0).
Proof.
  intros Hu Ht. assert (0 ≤ Z.land (d_typer w) 0x1f) as H0 by (apply Z.land_nonneg; by right).
  unfold gicv3_spis_config_defaults. eapply run_to_step; [by apply get_spi_limit_run|].
  eapply run_to_bind; [by apply groups_loop|]. intros _ w1 [S1 G1].
  eapply run_to_bind; [by apply (prios_loop w)|]. intros _ w2 (S2 & G2 & P2).
  eapply run_to_mono; [by apply (cfgs_loop w)|]. intros _ w3 (S3 & G3 & P3 & C3). split.
  - unfold same_state in *. destruct S1 as (?&?&?&?&?), S2 as (?&?&?&?&?), S3 as (?&?&?&?&?). repeat split; congruence.
  - intros i Hi. rewrite G3, G2, P3. auto.
Qed.

Lemma spis_defaults_witness :
  run_to (gicv3_spis_config_defaults GICD_BASE) (mk_gicv3 0x10 1 no_bank (λ _, 0) [] 0 (λ _, 0) 0)
    (λ _ w', bit_of (b_group (d_bank w')) 63 = true).
Proof.
  eapply run_to_mono; [apply spis_defaults; [split; done|done]|]. intros _ w' [_ H]. apply H. by vm_compute.
Defined.

(** * Private interrupts of suspended cores *)

(** Registers that hold what their widths allow. *)
Definition wf_bank (b : bank) : Prop :=
  0 ≤ b_enable b 0 < 2 ^ 32 ∧ 0 ≤ b_cfg b 1 < 2 ^ 32 ∧ ∀ i, 0 ≤ i < 32 → 0 ≤ b_prio b i < 256.

Definition prio_words (b : bank) : list Z := (λ i, prio_word (b_prio b) (4 * Z.of_nat i)) <$> seq 0 8.
Definition saved_ctx (b : bank) (c : gicv3_pcpu_ctx) : gicv3_pcpu_ctx :=
  mk_pcpu (is_suspended c) (icc_igrpen1 c) (b_enable b 0) (prio_words b) (b_cfg b 1).

(** The private interrupts of a core are enabled, ranked and triggered as before. *)
Definition same_private (b b' : bank) : Prop :=
  b_enable b' 0 = b_enable b 0 ∧ (∀ i, 0 ≤ i < 32 → b_prio b' i = b_prio b i) ∧ b_cfg b' 1 = b_cfg b 1.

Lemma prio_word_bytes p i : (∀ k, i ≤ k < i + 4 → 0 ≤ p k < 256) → 0 ≤ prio_word p i < 2 ^ 32 ∧
  u8 (prio_word p i) = p i ∧ u8 (Z.shiftr (prio_word p i) 8) = p (i + 1) ∧
  u8 (Z.shiftr (prio_word p i) 16) = p (i + 2) ∧ u8 (Z.shiftr (prio_word p i) 24) = p (i + 3).
Proof.
  intros Hp. pose proof (Hp i ltac:(lia)) as H0. pose proof (Hp (i + 1) ltac:(lia)) as H1.
  pose proof (Hp (i + 2) ltac:(lia)) as H2. pose proof (Hp (i + 3) ltac:(lia)) as H3.
  unfold u8, prio_word. rewrite !Z.shiftr_div_pow2 by lia. split; [lia|]. split.
  - symmetry. apply Z.mod_unique with (p (i + 1) + 2 ^ 8 * p (i + 2) + 2 ^ 16 * p (i + 3)); lia.
  - assert (∀ a b n, 0 < n → 0 ≤ a < n → (a + n * b) / n = b) as Hdiv.
    { intros a b n Hn Ha. rewrite Z.mul_comm, Z.div_add, Z.div_small by lia. done. }
    set (x := p i) in *. set (y := p (i + 1)) in *. set (z := p (i + 2)) in *. set (v := p (i + 3)) in *.
    replace (x + 2 ^ 8 * y + 2 ^ 16 * z + 2 ^ 24 * v) with (x + 2 ^ 8 * (y + 2 ^ 8 * (z + 2 ^ 8 * v))) by lia.
    rewrite (Hdiv x) by lia.
    replace (x + 2 ^ 8 * (y + 2 ^ 8 * (z + 2 ^ 8 * v))) with ((x + 2 ^ 8 * y) + 2 ^ 16 * (z + 2 ^ 8 * v)) by lia.
    rewrite (Hdiv (x + 2 ^ 8 * y)) by lia.
    replace ((x + 2 ^ 8 * y) + 2 ^ 16 * (z + 2 ^ 8 * v)) with ((x + 2 ^ 8 * y + 2 ^ 16 * z) + 2 ^ 24 * v) by lia.
    rewrite (Hdiv (x + 2 ^ 8 * y + 2 ^ 16 * z)) by lia.
    repeat split; symmetry; [apply Z.mod_unique with (z + 2 ^ 8 * v)|apply Z.mod_unique with v|apply Z.mod_unique with 0]; lia.
Qed.

(** ** Saving *)

Section Core.
Variables (k : nat) (core : nat).
Hypothesis Hk : Z.of_nat k < 2 ^ 32.
Hypothesis Hcore : (core < 8)%nat.

Lemma rdist_of_frame s : rdist_pcpu_base s !! core = Some (frame_addr k) → rdist_of (Z.of_nat core) s = Ok (frame_addr k) (s : gic gicv3).
Proof.
  intros Hr. unfold rdist_of. erewrite bind_step; [|unfold of_core; by rewrite Nat2Z.id, Hr]. by rewrite frame_addr_nonzero.
Qed.

Lemma on_pcpu_run {W} (s : gic W) c f : pcpu_ctx s !! core = Some c →
  on_pcpu (Z.of_nat core) f s = Ok tt (set_pcpu (<[core := f c]> (pcpu_ctx s)) s).
Proof.
  intros Hc. unfold on_pcpu. erewrite bind_step; [|unfold of_core; by rewrite Nat2Z.id, Hc]. unfold modify. by rewrite Nat2Z.id.
Qed.

(** Registers of private interrupts are read as they are. *)
Lemma read_enable_run s : 0 ≤ b_enable (f_bank (frame_at (machine s) k)) 0 < 2 ^ 32 →
  hw (gicr_read_isenabler0 (frame_addr k)) s = Ok (b_enable (f_bank (frame_at (machine s) k)) 0) s.
Proof.
  intros Hb. erewrite hw_ok; [by rewrite set_machine_same|]. unfold gicr_read_isenabler0. rewrite mmio_read32_eq.
  change GICR_ISENABLER0 with (GICR_SGIBASE_OFFSET + 0x100). rewrite frame_read_bank by done.
  change (bank_read 4 ?b 0x100) with (b_enable b 0). f_equal. unfold u32. by apply Z.mod_small.
Qed.
Lemma read_cfg_run s : 0 ≤ b_cfg (f_bank (frame_at (machine s) k)) 1 < 2 ^ 32 →
  hw (gicr_read_icfgr1 (frame_addr k)) s = Ok (b_cfg (f_bank (frame_at (machine s) k)) 1) s.
Proof.
  intros Hb. erewrite hw_ok; [by rewrite set_machine_same|]. unfold gicr_read_icfgr1. rewrite mmio_read32_eq.
  change GICR_ICFGR1 with (GICR_SGIBASE_OFFSET + 0xc04). rewrite frame_read_bank by done.
  change (bank_read 4 ?b 0xc04) with (b_cfg b 1). f_equal. unfold u32. by apply Z.mod_small.
Qed.
Lemma prio_offset j : 0 ≤ j < 8 → u32 (Z.shiftl (Z.shiftr (Z.shiftl j 2) 2) 2) = 4 * j.
Proof.
  intros Hj. rewrite Z.shiftr_shiftl_l, Z.sub_diag, Z.shiftl_0_r, Z.shiftl_mul_pow2 by lia. unfold u32. rewrite Z.mod_small; lia.
Qed.
Lemma reg_prio_word j : 0 ≤ j < 8 → reg_of (0x400 + 4 * j) = (RPrio, 4 * j).
Proof. intros Hj. unfold reg_of. range_tests. f_equal. lia. Qed.
Lemma read_prio_run s j : 0 ≤ j < 8 → wf_bank (f_bank (frame_at (machine s) k)) →
  hw (gicr_read_ipriorityr (frame_addr k) (Z.shiftl j IPRIORITYR_SHIFT)) s = Ok (prio_word (b_prio (f_bank (frame_at (machine s) k))) (4 * j)) s.
Proof.
  intros Hj (_ & _ & Hp). erewrite hw_ok; [by rewrite set_machine_same|]. unfold gicr_read_ipriorityr. rewrite mmio_read32_eq.
  unfold IPRIORITYR_SHIFT. rewrite prio_offset by done. unfold GICR_IPRIORITYR. rewrite <- Z.add_assoc, <- (Z.add_assoc _ 0x400).
  rewrite frame_read_bank by (done || lia). unfold bank_read. rewrite reg_prio_word by done. cbn beta iota.
  change (4 =? 1) with false. cbn iota. f_equal. unfold u32. apply Z.mod_small.
  apply (prio_word_bytes (b_prio (f_bank (frame_at (machine s) k))) (4 * j)). intros i Hi. apply Hp. lia.
Qed.

Lemma save_core_run s c : rdist_pcpu_base s !! core = Some (frame_addr k) → pcpu_ctx s !! core = Some c →
  length (gicr_ipriorityr c) = 8%nat → wf_bank (f_bank (frame_at (machine s) k)) →
  save_core (Z.of_nat core) s = Ok tt (set_pcpu (<[core := saved_ctx (f_bank (frame_at (machine s) k)) c]> (pcpu_ctx s)) s).
Proof.
  intros Hr Hc Hl Hw. set (b := f_bank (frame_at (machine s) k)) in *. unfold save_core.
  assert (core < length (pcpu_ctx s))%nat as Hlt by (by apply lookup_lt_Some in Hc).
  erewrite bind_step; [|by apply rdist_of_frame]. erewrite bind_step; [|apply read_enable_run, Hw].
  erewrite bind_step; [|by apply on_pcpu_run].
  set (st := λ l, set_pcpu (<[core := mk_pcpu (is_suspended c) (icc_igrpen1 c) (b_enable b 0) l (gicr_icfgr c)]> (pcpu_ctx s)) s).
  match goal with |- _ ?x = _ => change x with (st (gicr_ipriorityr c)) end.
  assert (run_to (for_upto (Z.shiftr NUM_PCPU_INTR IPRIORITYR_SHIFT) (λ i,
    let* v := hw (gicr_read_ipriorityr (frame_addr k) (Z.shiftl i IPRIORITYR_SHIFT)) in
    on_pcpu (Z.of_nat core) (λ c, mk_pcpu (is_suspended c) (icc_igrpen1 c) (gicr_isenabler c) (<[Z.to_nat i := v]> (gicr_ipriorityr c)) (gicr_icfgr c)) ;;
    ret (@None unit))) (st (gicr_ipriorityr c)) (λ r s', r = None ∧ s' = st (prio_words b))) as Hloop.
  { eapply run_to_mono.
    - apply (for_from_to (λ j s', ∃ l, s' = st l ∧ length l = 8%nat ∧ ∀ i, (Z.of_nat i < j) → l !! i = prio_words b !! i)).
      + intros j s' Hj (l & -> & Hl2 & Hpre). change (Z.to_nat (Z.shiftr NUM_PCPU_INTR IPRIORITYR_SHIFT)) with 8%nat in Hj.
        eapply run_to_step; [apply (read_prio_run (st l) j); [lia|exact Hw]|].
        eapply run_to_step; [apply on_pcpu_run; unfold st; cbn [pcpu_ctx set_pcpu]; by rewrite list_lookup_insert_eq|].
        apply run_to_ret. split; [done|]. exists (<[Z.to_nat j := prio_word (b_prio b) (4 * j)]> l). split.
        { unfold st. cbn [pcpu_ctx set_pcpu]. rewrite list_insert_insert_eq. done. }
        split; [by rewrite length_insert|]. intros i Hi. destruct (decide (i = Z.to_nat j)) as [->|Hne].
        * rewrite list_lookup_insert_eq by lia. unfold prio_words. rewrite list_lookup_fmap, lookup_seq_lt by lia. cbn. do 2 f_equal. lia.
        * rewrite list_lookup_insert_ne by done. apply Hpre. lia.
      + exists (gicr_ipriorityr c). split; [done|]. split; [done|]. lia.
    - intros r s' [-> (l & -> & Hl2 & Hpre)]. split; [done|]. f_equal. apply list_eq. intros i.
      change (0 + Z.of_nat (Z.to_nat (Z.shiftr NUM_PCPU_INTR IPRIORITYR_SHIFT))) with 8 in Hpre.
      destruct (Nat.lt_ge_cases i 8); [apply Hpre; lia|]. rewrite !lookup_ge_None_2; [done|unfold prio_words; rewrite length_fmap, length_seq; lia|lia]. }
  apply run_to_Ok in Hloop as (r & s' & E & -> & ->). erewrite bind_step; [|exact E].
  erewrite bind_step; [|apply (read_cfg_run (st (prio_words b))); apply Hw].
  erewrite on_pcpu_run; [|unfold st; cbn [pcpu_ctx set_pcpu]; by rewrite list_lookup_insert_eq].
  unfold st. cbn [pcpu_ctx set_pcpu]. rewrite list_insert_insert_eq. done.
Qed.

(** ** Restoring *)

(** What is written to a frame. *)
Definition restored (c : gicv3_pcpu_ctx) (b : bank) : bank :=
  let p := foldl (λ p i, put_prio_word p (4 * Z.of_nat i) (u32 (nth i (gicr_ipriorityr c) 0))) (b_prio b) (seq 0 8) in
  set_enable (upd (b_enable b) 0 (Z.lor (b_enable b 0) (u32 (gicr_isenabler c)))) (set_cfg (upd (b_cfg b) 1 (u32 (gicr_icfgr c))) (set_prio p b)).

Lemma write_frame_run s o v : 0 ≤ o < 0x10000 →
  hw (mmio_write32 (frame_addr k + (GICR_SGIBASE_OFFSET + o)) v) s =
  Ok tt (set_machine (put_frame k (bank_write 4 (f_bank (frame_at (machine s) k)) o (u32 v)) (machine s)) s).
Proof. intros Ho. apply hw_ok. by rewrite mmio_write32_eq, frame_write. Qed.

Lemma frame_at_put j b (w : gicv3) : (k < length (frames w))%nat →
  f_bank (frame_at (put_frame k b w) j) = if decide (j = k) then b else f_bank (frame_at w j).
Proof.
  intros Hlt. unfold frame_at, put_frame, set_frames. cbn [frames]. rewrite frame_at_alter by done. by case_decide.
Qed.
Lemma put_frame_twice b1 b2 w : put_frame k b2 (put_frame k b1 w) = put_frame k b2 w.
Proof.
  unfold put_frame, set_frames. cbn. f_equal. apply list_eq. intros i.
  destruct (decide (i = k)) as [->|Hne]; rewrite ?list_lookup_alter_eq, ?list_lookup_alter_ne by done; [by destruct (frames w !! k)|done].
Qed.

Lemma restore_core_run s c : rdist_pcpu_base s !! core = Some (frame_addr k) → pcpu_ctx s !! core = Some c →
  (k < length (frames (machine s)))%nat →
  restore_core (Z.of_nat core) s = Ok tt (set_machine (put_frame k (restored c (f_bank (frame_at (machine s) k))) (machine s)) s).
Proof.
  intros Hr Hc Hlt. set (b := f_bank (frame_at (machine s) k)). unfold restore_core.
  erewrite bind_step; [|by apply rdist_of_frame].
  set (p := λ n, foldl (λ p i, put_prio_word p (4 * Z.of_nat i) (u32 (nth i (gicr_ipriorityr c) 0))) (b_prio b) (seq 0 n)).
  set (st := λ n, set_machine (put_frame k (set_prio (p n) b) (machine s)) s).
  assert (run_to (for_upto (Z.shiftr NUM_PCPU_INTR IPRIORITYR_SHIFT) (λ i,
    let* c := of_core pcpu_ctx (Z.of_nat core) in
    hw (gicr_write_ipriorityr (frame_addr k) (Z.shiftl i IPRIORITYR_SHIFT) (nth (Z.to_nat i) (gicr_ipriorityr c) 0)) ;;
    ret (@None unit))) s (λ r s', r = None ∧ s' = st 8%nat)) as Hloop.
  { eapply run_to_mono.
    - apply (for_from_to (λ j s', s' = if decide (j = 0) then s else st (Z.to_nat j))).
      + intros j s' Hj ->. change (Z.to_nat (Z.shiftr NUM_PCPU_INTR IPRIORITYR_SHIFT)) with 8%nat in Hj.
        set (s1 := if decide (j = 0) then s else st (Z.to_nat j)).
        assert (pcpu_ctx s1 = pcpu_ctx s) as Ec by (unfold s1; by case_decide).
        eapply run_to_step; [unfold of_core; by rewrite Nat2Z.id, Ec, Hc|].
        unfold gicr_write_ipriorityr, IPRIORITYR_SHIFT. rewrite prio_offset by lia. unfold GICR_IPRIORITYR. rewrite <- Z.add_assoc, <- (Z.add_assoc _ 0x400).
        eapply run_to_step; [apply write_frame_run; lia|]. apply run_to_ret. split; [done|]. rewrite decide_False by lia.
        unfold bank_write. rewrite reg_prio_word by lia. change (4 =? 1) with false. cbn iota.
        replace (Z.to_nat (j + 1)) with (S (Z.to_nat j)) by lia. unfold st at 1, p. rewrite seq_S, foldl_app. cbn [foldl Nat.add].
        rewrite Z2Nat.id by lia. unfold s1. case_decide as D.
        * subst. cbn. done.
        * unfold st. cbn [machine set_machine]. rewrite put_frame_twice, !frame_at_put, !decide_True by done. done.
      + by rewrite decide_True.
    - intros r s' [-> ->]. by rewrite decide_False. }
  apply run_to_Ok in Hloop as (r & s' & E & -> & ->). erewrite bind_step; [|exact E].
  erewrite bind_step; [|unfold of_core, st; cbn [pcpu_ctx set_machine]; by rewrite Nat2Z.id, Hc].
  unfold gicr_write_icfgr1, gicr_write_isenabler0. change GICR_ICFGR1 with (GICR_SGIBASE_OFFSET + 0xc04). change GICR_ISENABLER0 with (GICR_SGIBASE_OFFSET + 0x100).
  erewrite bind_step; [|by apply write_frame_run]. rewrite write_frame_run by done.
  f_equal. unfold st. cbn [machine set_machine]. rewrite !put_frame_twice, !frame_at_put, !decide_True; done.
Qed.
End Core.

(** The bytes of the words written are those of the words read. *)
Lemma restored_same b b2 x : wf_bank b → b_enable b2 0 = 0 → same_private b (restored (saved_ctx b x) b2).
Proof.
  intros (He & Hc & Hp) H0. unfold same_private, restored. cbn [b_enable b_cfg b_prio set_enable set_cfg set_prio saved_ctx gicr_isenabler gicr_icfgr gicr_ipriorityr].
  rewrite !reg_upd_eq, H0, Z.lor_0_l. unfold u32 at 1 3. rewrite !Z.mod_small by done. split; [done|]. split; [|done].
  assert (∀ n, (n ≤ 8)%nat → ∀ i, 0 ≤ i < 4 * Z.of_nat n →
    foldl (λ p i, put_prio_word p (4 * Z.of_nat i) (u32 (nth i (prio_words b) 0))) (b_prio b2) (seq 0 n) i = b_prio b i) as Hall.
  { induction n as [|n IH]; intros Hn i Hi; [lia|]. rewrite seq_S, foldl_app. cbn [foldl Nat.add].
    assert (nth n (prio_words b) 0 = prio_word (b_prio b) (4 * Z.of_nat n)) as ->.
    { unfold prio_words. rewrite (nth_lookup_Some _ _ _ (prio_word (b_prio b) (4 * Z.of_nat n))); [done|].
      rewrite list_lookup_fmap, lookup_seq_lt by lia. done. }
    destruct (prio_word_bytes (b_prio b) (4 * Z.of_nat n)) as (Hw & E0 & E1 & E2 & E3); [intros j Hj; apply Hp; lia|].
    unfold u32. rewrite (Z.mod_small (prio_word _ _)) by done. unfold put_prio_word. rewrite E0, E1, E2, E3. unfold upd at 1 2 3 4.
    destruct (Z.eqb_spec i (4 * Z.of_nat n + 3)); [by subst|]. destruct (Z.eqb_spec i (4 * Z.of_nat n + 2)); [by subst|].
    destruct (Z.eqb_spec i (4 * Z.of_nat n + 1)); [by subst|]. destruct (Z.eqb_spec i (4 * Z.of_nat n)); [by subst|].
    apply IH; lia. }
  intros i Hi. apply (Hall 8%nat); lia.
Qed.

(** ** All the cores *)

Definition bank_at (w : gicv3) (k : nat) : bank := f_bank (frame_at w k).

Lemma bank_at_put k j b (w : gicv3) : (k < length (frames w))%nat →
  bank_at (put_frame k b w) j = if decide (j = k) then b else bank_at w j.
Proof. apply frame_at_put. Qed.

(** The core that runs and those that are suspended. *)
Definition chosen (s : gic gicv3) (my c : nat) : Prop :=
  c = my ∨ ∃ x, pcpu_ctx s !! c = Some x ∧ is_suspended x ≠ 0.

(** Every chosen core has a redistributor of its own, found before. *)
Record saveable (s : gic gicv3) (my : nat) (fr : nat → nat) : Prop := {
  sv_my : (my < 8)%nat ∧ platform_get_core_pos (u64 (regs (machine s) MPIDR_EL1)) = Z.of_nat my;
  sv_len : length (pcpu_ctx s) = 8%nat;
  sv_prio : ∀ c x, pcpu_ctx s !! c = Some x → length (gicr_ipriorityr x) = 8%nat;
  sv_frame : ∀ c, (c < 8)%nat → chosen s my c →
    rdist_pcpu_base s !! c = Some (frame_addr (fr c)) ∧ Z.of_nat (fr c) < 2 ^ 32 ∧ (fr c < length (frames (machine s)))%nat;
  sv_inj : ∀ c d, (c < 8)%nat → (d < 8)%nat → chosen s my c → chosen s my d → fr c = fr d → c = d;
  sv_wf : ∀ c, (c < 8)%nat → chosen s my c → wf_bank (bank_at (machine s) (fr c))
}.

(** The controller comes back with nothing enabled in those frames. *)
Definition powered_up (s : gic gicv3) (my : nat) (fr : nat → nat) (w : gicv3) : Prop :=
  regs w MPIDR_EL1 = regs (machine s) MPIDR_EL1 ∧ length (frames w) = length (frames (machine s)) ∧
  ∀ c, (c < 8)%nat → chosen s my c → b_enable (bank_at w (fr c)) 0 = 0.

Section Loops.
Variables (s : gic gicv3) (my : nat) (fr : nat → nat).
Hypothesis Hs : saveable s my fr.

#[local] Instance chosen_dec c : Decision (chosen s my c).
Proof.
  unfold chosen. destruct (decide (c = my)); [by left; left|]. destruct (pcpu_ctx s !! c) as [x|].
  - destruct (decide (is_suspended x = 0)); [right; naive_solver|left; right; by exists x].
  - right. naive_solver.
Qed.

Lemma my_core_pos_run (s' : gic gicv3) : regs (machine s') MPIDR_EL1 = regs (machine s) MPIDR_EL1 → my_core_pos s' = Ok (Z.of_nat my) s'.
Proof.
  intros E. unfold my_core_pos. erewrite bind_step; [|apply hw_ok; reflexivity]. unfold ret. rewrite set_machine_same. f_equal.
  cbn. rewrite E. apply Hs.
Qed.

Lemma to_save_run (s' : gic gicv3) c x y : pcpu_ctx s !! c = Some x → pcpu_ctx s' !! c = Some y → is_suspended y = is_suspended x →
  to_save (Z.of_nat my) (Z.of_nat c) s' = Ok (bool_decide (chosen s my c)) s'.
Proof.
  intros Hx Hy E. unfold to_save. destruct (Z.eqb_spec (Z.of_nat c) (Z.of_nat my)) as [D|D].
  - rewrite bool_decide_true; [done|]. left. lia.
  - erewrite bind_step; [|unfold of_core; by rewrite Nat2Z.id, Hy]. unfold ret, truthy. f_equal. rewrite E.
    destruct (Z.eqb_spec (is_suspended x) 0) as [Ez|Ez]; symmetry.
    + apply bool_decide_false. intros [->|(x' & Hx' & Hn)]; [done|]. congruence.
    + apply bool_decide_true. right. by exists x.
Qed.

(** What is kept once the cores below j are saved. *)
Definition saved_below (j : Z) (l : list gicv3_pcpu_ctx) : Prop :=
  length l = 8%nat ∧ ∀ c x, pcpu_ctx s !! c = Some x →
    l !! c = Some (if decide (Z.of_nat c < j ∧ chosen s my c) then saved_ctx (bank_at (machine s) (fr c)) x else x).

Lemma save_run : run_to gicv3_save_sgi_ppi_context s (λ _ s', ∃ l, s' = set_pcpu l s ∧ saved_below 8 l).
Proof.
  unfold gicv3_save_sgi_ppi_context. eapply run_to_step; [by apply my_core_pos_run|].
  eapply run_to_bind; [apply (for_from_to (λ j s', ∃ l, s' = set_pcpu l s ∧ saved_below j l))|].
  - intros j s' Hj (l & -> & Hlen & Hl). change (Z.to_nat PLATFORM_CPU_COUNT) with 8%nat in Hj.
    set (c := Z.to_nat j). replace j with (Z.of_nat c) in * by lia. clearbody c. assert (Hc : (c < 8)%nat) by lia.
    destruct (lookup_lt_is_Some_2 (pcpu_ctx s) c) as [x Hx]; [by rewrite (sv_len _ _ _ Hs)|].
    pose proof (Hl c x Hx) as Hcx. rewrite decide_False in Hcx by lia.
    eapply run_to_step; [by apply (to_save_run _ c x x)|]. case_bool_decide as Hch.
    + destruct (sv_frame _ _ _ Hs c Hc Hch) as (Hr & Hk & Hfl).
      eapply run_to_step; [apply (save_core_run (fr c) c Hk Hc (set_pcpu l s) x); [done|done|by apply (sv_prio _ _ _ Hs c)|by apply (sv_wf _ _ _ Hs)]|].
      apply run_to_ret. split; [done|]. eexists. split; [done|]. split; [by rewrite length_insert|].
      intros d y Hd. cbn [pcpu_ctx set_pcpu]. destruct (decide (d = c)) as [->|Hne].
      * rewrite list_lookup_insert_eq by lia. simplify_eq. rewrite decide_True; [done|]. split; [lia|done].
      * rewrite list_lookup_insert_ne by done. rewrite (Hl d y Hd). repeat case_decide; naive_solver lia.
    + apply run_to_ret. split; [done|]. exists l. split; [done|]. split; [done|]. intros d y Hd. rewrite (Hl d y Hd).
      destruct (decide (d = c)) as [->|Hne]; repeat case_decide; naive_solver lia.
  - exists (pcpu_ctx s). split; [by destruct s|]. split; [apply Hs|]. intros c x Hx. rewrite decide_False by lia. done.
  - intros r s' [_ H]. apply run_to_ret. exact H.
Qed.

Variable l : list gicv3_pcpu_ctx.
Hypothesis Hl : saved_below 8 l.

Lemma saved_lookup c : (c < 8)%nat → ∃ x, pcpu_ctx s !! c = Some x ∧
  ∃ y, l !! c = Some y ∧ is_suspended y = is_suspended x ∧ (chosen s my c → y = saved_ctx (bank_at (machine s) (fr c)) x).
Proof.
  intros Hc. destruct (lookup_lt_is_Some_2 (pcpu_ctx s) c) as [x Hx]; [by rewrite (sv_len _ _ _ Hs)|].
  exists x. split; [done|]. eexists. split; [by apply Hl|]. split; [by case_decide|]. intros Hch. rewrite decide_True; [done|]. split; [lia|done].
Qed.

(** The frames of the cores below j are as they were, the others are still to be written. *)
Definition restored_below (j : Z) (w : gicv3) : Prop :=
  regs w MPIDR_EL1 = regs (machine s) MPIDR_EL1 ∧ length (frames w) = length (frames (machine s)) ∧
  ∀ c, (c < 8)%nat → chosen s my c →
    if decide (Z.of_nat c < j) then same_private (bank_at (machine s) (fr c)) (bank_at w (fr c)) else b_enable (bank_at w (fr c)) 0 = 0.

Lemma restored_below_put c w x : (c < 8)%nat → chosen s my c → restored_below (Z.of_nat c) w →
  restored_below (Z.of_nat c + 1) (put_frame (fr c) (restored (saved_ctx (bank_at (machine s) (fr c)) x) (bank_at w (fr c))) w).
Proof.
  intros Hc Hch (Hm & Hf & Hw). destruct (sv_frame _ _ _ Hs c Hc Hch) as (_ & Hk & Hfl).
  split; [done|]. split; [unfold put_frame, set_frames; cbn; by rewrite length_alter|].
  intros d Hd Hdc. specialize (Hw d Hd Hdc). rewrite bank_at_put by lia.
  destruct (decide (fr d = fr c)) as [E|E].
  - pose proof (sv_inj _ _ _ Hs d c Hd Hc Hdc Hch E) as ->. rewrite decide_True by lia. rewrite decide_False in Hw by lia.
    apply restored_same; [by apply (sv_wf _ _ _ Hs)|done].
  - assert (d ≠ c) by congruence. destruct (decide (Z.of_nat d < Z.of_nat c)), (decide (Z.of_nat d < Z.of_nat c + 1)); try lia; exact Hw.
Qed.

Lemma restore_run w : powered_up s my fr w →
  run_to gicv3_restore_sgi_ppi_context (set_machine w (set_pcpu l s)) (λ _ s', restored_below 8 (machine s')).
Proof.
  intros (Hm & Hf & He). unfold gicv3_restore_sgi_ppi_context. eapply run_to_step; [by apply my_core_pos_run|].
  eapply run_to_bind; [apply (for_from_to (λ j s', ∃ w', s' = set_machine w' (set_pcpu l s) ∧ restored_below j w'))|].
  - intros j s' Hj (w' & -> & Hw). change (Z.to_nat PLATFORM_CPU_COUNT) with 8%nat in Hj.
    set (c := Z.to_nat j). replace j with (Z.of_nat c) in * by lia. clearbody c. assert (Hc : (c < 8)%nat) by lia.
    destruct (saved_lookup c Hc) as (x & Hx & y & Hy & Esus & Esav).
    eapply run_to_step; [by apply (to_save_run _ c x y)|]. case_bool_decide as Hch.
    + destruct (sv_frame _ _ _ Hs c Hc Hch) as (Hr & Hk & Hfl). specialize (Esav Hch). subst y.
      eapply run_to_step; [eapply (restore_core_run (fr c) c Hk Hc); [done|done|]; cbn [machine set_machine]; destruct Hw as (_ & -> & _); done|].
      apply run_to_ret. split; [done|]. eexists. split; [done|]. by apply restored_below_put.
    + apply run_to_ret. split; [done|]. exists w'. split; [done|]. destruct Hw as (Hw1 & Hw2 & Hw3). split; [done|]. split; [done|].
      intros d Hd Hdc. specialize (Hw3 d Hd Hdc). assert (d ≠ c) by congruence. destruct (decide (Z.of_nat d < Z.of_nat c)), (decide (Z.of_nat d < Z.of_nat c + 1)); try lia; exact Hw3.
  - exists w. split; [done|]. split; [done|]. split; [done|]. intros c Hc Hch. rewrite decide_False by lia. by apply He.
  - intros r s' [_ (w' & -> & H)]. apply run_to_ret. exact H.
Qed.
End Loops.

(** C17. The private interrupts of the running core and of every suspended core are, after
    a power cycle of the controller, enabled, ranked and triggered as they were. *)
Theorem context_roundtrip s my fr : saveable s my fr →
  run_to gicv3_save_sgi_ppi_context s (λ _ s1, ∀ w, powered_up s my fr w →
    run_to gicv3_restore_sgi_ppi_context (set_machine w s1) (λ _ s2,
      ∀ c, (c < 8)%nat → chosen s my c → same_private (bank_at (machine s) (fr c)) (bank_at (machine s2) (fr c)))).
Proof.
  intros Hs. eapply run_to_mono; [by apply save_run|]. intros _ s1 (l & -> & Hl) w Hw.
  eapply run_to_mono; [by apply (restore_run s my fr Hs l)|]. intros _ s2 (_ & _ & H) c Hc Hch.
  specialize (H c Hc Hch). by rewrite decide_True in H by lia.
Qed.

Definition busy_bank (x : Z) : bank := mk_bank (λ _, 0) (λ _, 0) (λ _, x) (λ _, 0) (λ _, 0) (λ i, (x + i) mod 256) (λ _, x).
Definition busy_gic (b0 b1 : bank) : gicv3 :=
  mk_gicv3 0x10 1 no_bank (λ _, 0) [mk_frame 0 b0; mk_frame (Z.shiftl 0x100 32 + 0x10) b1] 1
    (λ r, match r with MPIDR_EL1 => 0x81000100 | _ => 0 end) 0.
Definition busy_state : gic gicv3 :=
  mk_gic (busy_gic (busy_bank 0x80) (busy_bank 0x7)) GICR_BASE GICD_BASE
    (mk_pcpu 1 0 0 (replicate 8 0) 0 :: replicate 7 pcpu_zero) (frame_addr 0 :: frame_addr 1 :: replicate 6 0) (replicate 8 0).

Lemma busy_chosen c : (c < 8)%nat → chosen busy_state 1 c → c = 0%nat ∨ c = 1%nat.
Proof.
  intros Hc [->|(x & Hx & Hn)]; [by right|]. destruct c as [|c]; [by left|]. exfalso. apply Hn.
  change (replicate 7 pcpu_zero !! c = Some x) in Hx. apply lookup_replicate in Hx as [-> _]. done.
Qed.

Lemma busy_chosen_0 : chosen busy_state 1 0.
Proof. right. exists (mk_pcpu 1 0 0 (replicate 8 0) 0). by split. Qed.

Lemma busy_bank_wf x : 0 ≤ x < 2 ^ 32 → wf_bank (busy_bank x).
Proof. intros Hx. split; [done|]. split; [done|]. intros i Hi. cbn. apply Z.mod_pos_bound. lia. Qed.

Lemma busy_saveable : saveable busy_state 1 id.
Proof.
  split.
  - split; [lia|done].
  - done.
  - intros c x Hx. apply list_elem_of_lookup_2 in Hx. apply elem_of_cons in Hx as [->|Hx]; [done|].
    apply elem_of_replicate_inv in Hx. by subst.
  - intros c Hc Hch. destruct (busy_chosen c Hc Hch) as [-> | ->]; (split; [done|]; split; [done|]; cbn; lia).
  - done.
  - intros c Hc Hch. destruct (busy_chosen c Hc Hch) as [-> | ->]; apply busy_bank_wf; lia.
Qed.

Lemma context_roundtrip_witness :
  run_to gicv3_save_sgi_ppi_context busy_state (λ _ s1,
    run_to gicv3_restore_sgi_ppi_context (set_machine (busy_gic no_bank no_bank) s1) (λ _ s2,
      b_prio (bank_at (machine s2) 0) 5 = 0x85 ∧ b_enable (bank_at (machine s2) 1) 0 = 0x7)).
Proof.
  eapply run_to_mono; [apply (context_roundtrip busy_state 1 id busy_saveable)|]. intros u s1 H1. cbn beta in H1.
  eapply run_to_mono; [apply (H1 (busy_gic no_bank no_bank))|].
  - split; [done|]. split; [done|]. intros c Hc Hch. by destruct (busy_chosen c Hc Hch) as [-> | ->].
  - intros u2 s2 H2. cbn beta in H2.
    pose proof (H2 0%nat ltac:(lia) busy_chosen_0) as (_ & Hp & _). pose proof (H2 1%nat ltac:(lia) (or_introl eq_refl)) as (He & _).
    specialize (Hp 5 ltac:(lia)). cbv [id] in *. rewrite Hp, He. split; vm_compute; reflexivity.
Defined.
