(* ===== verification/Drivers.v ===== *)
(** Drivers of the platform on the machine of [Machine]: the serial line and the text
    written to it before val_printf is there (pal_pl011_uart.c, pal_driver.c), the
    watchdogs (pal_sp805_watchdog.c), the non-volatile memory (pal_nvm.c), the timers
    (val_timer.c), the performance monitors (val_pmu.c) and the test engine behind the
    SMMU (pal_smmuv3_test_engine.c). *)
From S2P Require Import Prelude Defs Alloc Granule Host Mp Machine.

(** * Constants *)

Definition UARTDR_OFF : Z := 0x000.
Definition UARTECR_OFF : Z := 0x004.
Definition UARTFR_OFF : Z := 0x018.
Definition UARTIBRD_OFF : Z := 0x024.
Definition UARTFBRD_OFF : Z := 0x028.
Definition UARTLCR_H_OFF : Z := 0x02C.
Definition UARTCR_OFF : Z := 0x030.
Definition UART_PL011_UARTCR_UARTEN_OFF : Z := 0.
Definition UART_PL011_UARTCR_EN_MASK : Z := Z.shiftl 1 UART_PL011_UARTCR_UARTEN_OFF.
Definition UART_PL011_UARTCR_TXE_OFF : Z := 8.
Definition UART_PL011_UARTCR_TX_EN_MASK : Z := Z.shiftl 1 UART_PL011_UARTCR_TXE_OFF.
Definition UART_PL011_UARTFR_TX_FIFO_FULL_OFF : Z := 5.
Definition UART_PL011_UARTFR_TX_FIFO_FULL : Z := Z.shiftl 1 UART_PL011_UARTFR_TX_FIFO_FULL_OFF.
Definition UART_PL011_UARTLCR_H_FEN_OFF : Z := 4.
Definition UART_PL011_UARTLCR_H_FEN_MASK : Z := Z.shiftl 1 UART_PL011_UARTLCR_H_FEN_OFF.
Definition UART_PL011_UARTLCR_H_WLEN_8 : Z := 5.
Definition UART_PL011_UARTLCR_H_WLEN_8_MASK : Z := Z.shiftl 3 UART_PL011_UARTLCR_H_WLEN_8.
Definition UART_PL011_CLK_IN_HZ : Z := 24000000.
Definition UART_PL011_BAUDRATE : Z := 115200.
Definition UART_PL011_LINE_CONTROL : Z := Z.lor UART_PL011_UARTLCR_H_FEN_MASK UART_PL011_UARTLCR_H_WLEN_8_MASK.
Definition PLATFORM_UART_BASE : Z := PLATFORM_NS_UART_BASE.

Definition SP805_WDOG_LOAD_OFF : Z := 0x000.
Definition SP805_WDOG_CTRL_OFF : Z := 0x008.
Definition SP805_WDOG_INT_CLR_OFF : Z := 0x00c.
Definition SP805_WDOG_LOCK_OFF : Z := 0xc00.
Definition SP805_WDOG_UNLOCK_ACCESS : Z := 0x1ACCE551.
Definition SP805_WDOG_CTRL_RESEN : Z := Z.shiftl 1 1.
Definition SP805_WDOG_CTRL_INTEN : Z := Z.shiftl 1 0.
Definition PLATFORM_WDOG_LOAD_VALUE : Z := 0x3E7 * 40 * 1000 * 10.
Definition SP805_WDOG_LOAD_VALUE : Z := PLATFORM_WDOG_LOAD_VALUE.
Definition ARM_SP805_TWDG_CLK_HZ : Z := 32768.

Definition ARM_ARCH_TIMER_ENABLE : Z := Z.shiftl 1 0.
Definition ARM_ARCH_TIMER_IMASK : Z := Z.shiftl 1 1.
Definition ITERATIONS_PER_MS : Z := 10000.

(** * The serial line *)

Record uart (W : Type) : Type := mk_uart { u_machine : W; is_uart_init_done : Z }.
Arguments mk_uart {W}. Arguments u_machine {W}. Arguments is_uart_init_done {W}.

Section Uart.
Context {W : Type} `{Machine W}.
Implicit Types s : uart W.

Definition g_uart : Z := PLATFORM_UART_BASE.
Definition on_line {A : Type} (m : M W A) : M (uart W) A := zoom u_machine (λ w s, mk_uart w (is_uart_init_done s)) m.

Definition pal_driver_uart_pl011_init : M W unit :=
  let bauddiv := UART_PL011_CLK_IN_HZ * 4 / UART_PL011_BAUDRATE in
  let* cr := mmio_read32 (g_uart + UARTCR_OFF) in
  mmio_write32 (g_uart + UARTCR_OFF) (Z.land cr (Z.lnot UART_PL011_UARTCR_EN_MASK)) ;;
  mmio_write32 (g_uart + UARTIBRD_OFF) (Z.shiftr bauddiv 6) ;;
  mmio_write32 (g_uart + UARTFBRD_OFF) (Z.land bauddiv 0x3F) ;;
  mmio_write32 (g_uart + UARTLCR_H_OFF) UART_PL011_LINE_CONTROL ;;
  mmio_write32 (g_uart + UARTECR_OFF) 0 ;;
  mmio_write32 (g_uart + UARTCR_OFF) (Z.lor UART_PL011_UARTCR_EN_MASK UART_PL011_UARTCR_TX_EN_MASK).

Definition pal_driver_uart_pl011_is_tx_empty : M W bool :=
  let* cr := mmio_read32 (g_uart + UARTCR_OFF) in
  if truthy (Z.land cr UART_PL011_UARTCR_EN_MASK) then
    let* cr := mmio_read32 (g_uart + UARTCR_OFF) in
    if truthy (Z.land cr UART_PL011_UARTCR_TX_EN_MASK) then
      let* fr := mmio_read32 (g_uart + UARTFR_OFF) in ret (Z.land fr UART_PL011_UARTFR_TX_FIFO_FULL =? 0)
    else ret false
  else ret false.

(** [while (!is_tx_empty())]. *)
Fixpoint wait_tx (fuel : nat) : M W unit :=
  match fuel with
  | O => out_of_fuel
  | S fuel => let* b := pal_driver_uart_pl011_is_tx_empty in if b : bool then ret tt else wait_tx fuel
  end.

Definition pal_driver_uart_pl011_putc (fuel : nat) (c : Z) : M (uart W) unit :=
  let* d := gets is_uart_init_done in
  (if d =? 0 then on_line pal_driver_uart_pl011_init ;; modify (λ s, mk_uart (u_machine s) 1) else ret tt) ;;
  on_line (wait_tx fuel) ;;
  on_line (mmio_write32 (g_uart + UARTDR_OFF) (u8 c)).

Definition pal_print_driver (fuel : nat) (c : Z) : M (uart W) unit := pal_driver_uart_pl011_putc fuel c.

(** ** Text *)

(** A C string: the characters are not 0, the terminator is behind them. *)
Definition char_at (msg : list Z) (i : Z) : M (uart W) Z := λ s,
  match msg !! Z.to_nat i with
  | Some c => Ok c s
  | None => if i =? Z.of_nat (length msg) then Ok 0 s else Fault OutOfBounds
  end.

Definition hex_char (j : Z) : Z := j + (if 9 <? j then 55 else 48).

(** [while (data != 0)]: the digits go into a buffer of 16 bytes, lowest first. *)
Fixpoint digits_to_buffer (fuel : nat) (hex : bool) (data : Z) (buffer : list Z) : M (uart W) (list Z) :=
  match fuel with
  | O => out_of_fuel
  | S fuel =>
      if data =? 0 then ret buffer
      else if Z.of_nat (length buffer) <? 16 then
        let j := if hex then Z.land data 0xf else data mod 10 in
        digits_to_buffer fuel hex (if hex then Z.shiftr data 4 else data / 10)
          (buffer ++ [if hex then hex_char j else u8 (j + 48)])
      else fail OutOfBounds
  end.

Fixpoint put_chars (fuel : nat) (l : list Z) : M (uart W) unit :=
  match l with
  | [] => ret tt
  | c :: l => pal_print_driver fuel c ;; put_chars fuel l
  end.

(** The number that the conversion prints, from the highest digit. *)
Definition put_number (fuel : nat) (buffer : list Z) : M (uart W) unit :=
  if (0 <? length buffer)%nat then put_chars fuel (reverse buffer) else pal_print_driver fuel 48.

Fixpoint printf_loop (n fuel : nat) (msg : list Z) (i data data2 : Z) : M (uart W) Z :=
  match n with
  | O => out_of_fuel
  | S n =>
      let* c := char_at msg i in
      if c =? 0 then ret PAL_SUCCESS
      else if c =? 37 then
        let* c := char_at msg (i + 1) in
        let* (i, c) := if (c =? 108) || (c =? 76) then let* c := char_at msg (i + 2) in ret (i + 2, c) else ret (i + 1, c) in
        let* (buffer, data) :=
          if c =? 100 then let* b := digits_to_buffer 65 false data [] in ret (b, data2)
          else if (c =? 120) || (c =? 88) then let* b := digits_to_buffer 65 true data [] in ret (b, data2)
          else ret ([], data) in
        put_number fuel buffer ;;
        printf_loop n fuel msg (i + 1) data data2
      else
        pal_print_driver fuel c ;;
        (if c =? 10 then pal_print_driver fuel 13 else ret tt) ;;
        printf_loop n fuel msg (i + 1) data data2
  end.

Definition pal_printf (fuel : nat) (msg : list Z) (data1 data2 : Z) : M (uart W) Z :=
  printf_loop (length msg + 2) fuel msg 0 data1 data2.
End Uart.

(** * The watchdogs *)

Section Watchdog.
Context {W : Type} `{Machine W}.

Definition pal_sp805_write_wdog_load (base value : Z) : M W unit := mmio_write32 (base + SP805_WDOG_LOAD_OFF) value.
Definition pal_sp805_write_wdog_ctrl (base value : Z) : M W unit := mmio_write32 (base + SP805_WDOG_CTRL_OFF) value.
Definition pal_sp805_write_wdog_int_clr (base value : Z) : M W unit := mmio_write32 (base + SP805_WDOG_INT_CLR_OFF) value.
Definition pal_sp805_write_wdog_lock (base value : Z) : M W unit := mmio_write32 (base + SP805_WDOG_LOCK_OFF) value.

Definition pal_driver_sp805_wdog_start (base : Z) : M W unit :=
  pal_sp805_write_wdog_lock base SP805_WDOG_UNLOCK_ACCESS ;;
  pal_sp805_write_wdog_load base SP805_WDOG_LOAD_VALUE ;;
  pal_sp805_write_wdog_ctrl base (Z.lor SP805_WDOG_CTRL_RESEN SP805_WDOG_CTRL_INTEN) ;;
  pal_sp805_write_wdog_lock base 0x0.

Definition pal_driver_sp805_wdog_stop (base : Z) : M W unit :=
  pal_sp805_write_wdog_lock base SP805_WDOG_UNLOCK_ACCESS ;;
  pal_sp805_write_wdog_ctrl base 0x00 ;;
  pal_sp805_write_wdog_lock base 0x0.

Definition pal_driver_sp805_wdog_refresh (base : Z) : M W unit :=
  pal_sp805_write_wdog_lock base SP805_WDOG_UNLOCK_ACCESS ;;
  pal_sp805_write_wdog_int_clr base 1 ;;
  pal_sp805_write_wdog_lock base 0x0.

(** The product is taken in 32 bits. *)
Definition twdog_cycles (ms : Z) : Z := u32 (ms * ARM_SP805_TWDG_CLK_HZ) / 1000000.
Definition pal_driver_sp805_twdog_start (base ms : Z) : M W unit :=
  let wd_cycles := twdog_cycles ms in
  pal_sp805_write_wdog_lock base SP805_WDOG_UNLOCK_ACCESS ;;
  pal_sp805_write_wdog_load base wd_cycles ;;
  pal_sp805_write_wdog_ctrl base (Z.lor SP805_WDOG_CTRL_RESEN SP805_WDOG_CTRL_INTEN) ;;
  pal_sp805_write_wdog_lock base 0x0.

Definition pal_driver_ns_wdog_start (ms : Z) : M W unit :=
  mmio_write32 (PLATFORM_NS_WD_BASE + 0x8) ms ;;
  mmio_write32 PLATFORM_NS_WD_BASE 1.
Definition pal_driver_ns_wdog_stop : M W unit := mmio_write32 PLATFORM_NS_WD_BASE 0.

Definition pal_watchdog_enable : M W Z := pal_driver_sp805_wdog_start PLATFORM_WDOG_BASE ;; ret PAL_SUCCESS.
Definition pal_watchdog_disable : M W Z := pal_driver_sp805_wdog_stop PLATFORM_WDOG_BASE ;; ret PAL_SUCCESS.
Definition pal_ns_wdog_enable (ms : Z) : M W unit := pal_driver_ns_wdog_start ms.
Definition pal_ns_wdog_disable : M W unit := pal_driver_ns_wdog_stop.
Definition pal_twdog_enable (ms : Z) : M W Z :=
  pal_driver_sp805_wdog_refresh PLATFORM_SP805_TWDOG_BASE ;;
  pal_driver_sp805_twdog_start PLATFORM_SP805_TWDOG_BASE ms ;;
  ret PAL_SUCCESS.
Definition pal_twdog_disable : M W Z := pal_driver_sp805_wdog_stop PLATFORM_SP805_TWDOG_BASE ;; ret PAL_SUCCESS.

(** * Non-volatile memory *)

Definition nvm_base : Z := PLATFORM_NVM_BASE.

Fixpoint nvm_write_loop (buffer : list Z) (addr : Z) : M W unit :=
  match buffer with
  | [] => ret tt
  | b :: buffer => mmio_write8 addr b ;; nvm_write_loop buffer (addr + 1)
  end.
Definition pal_driver_nvm_write (offset : Z) (buffer : list Z) : M W Z :=
  nvm_write_loop buffer (nvm_base + offset) ;; ret PAL_SUCCESS.

Fixpoint nvm_read_loop (size : nat) (addr : Z) : M W (list Z) :=
  match size with
  | O => ret []
  | S size => let* b := mmio_read8 addr in let* l := nvm_read_loop size (addr + 1) in ret (b :: l)
  end.
Definition pal_driver_nvm_read (offset : Z) (size : nat) : M W (Z * list Z) :=
  let* l := nvm_read_loop size (nvm_base + offset) in ret (PAL_SUCCESS, l).

Definition pal_nvm_write (offset : Z) (buffer : list Z) : M W Z := pal_driver_nvm_write offset buffer.
Definition pal_nvm_read (offset : Z) (size : nat) : M W (Z * list Z) := pal_driver_nvm_read offset size.
End Watchdog.

(** * Timers (val_timer.c) *)

Section Timer.
Context {W : Type} `{Machine W}.

Definition syscounter_read : M W Z := mrs CNTPCT_EL0.
Definition virtualcounter_read : M W Z := mrs CNTVCT_EL0.

(** Disabling masks the interrupt as well. *)
Definition timer_off (ctl : Z) : Z := Z.land (Z.lor ctl ARM_ARCH_TIMER_IMASK) (Z.lnot ARM_ARCH_TIMER_ENABLE).
Definition timer_on (ctl : Z) (irq_mask : bool) : Z :=
  Z.lor (if irq_mask then Z.lor ctl ARM_ARCH_TIMER_IMASK else Z.land ctl (Z.lnot ARM_ARCH_TIMER_IMASK)) ARM_ARCH_TIMER_ENABLE.

(** The count at which the timer goes off: [per] is what a second has of the unit of
    [timeout]; every step is taken in 64 bits. *)
Definition program_cval (r : sysreg) (timeout per : Z) : M W unit :=
  let* cval := syscounter_read in
  let* freq := mrs CNTFRQ_EL0 in
  msr r (cval + u64 (u32 freq * timeout) / per).

Definition val_disable_phy_timer_el1 : M W unit :=
  let* timer_ctrl_reg := mrs CNTP_CTL_EL0 in msr CNTP_CTL_EL0 (timer_off timer_ctrl_reg).
Definition val_timer_set_phy_el1 (timeout : Z) (irq_mask : bool) : M W unit :=
  val_disable_phy_timer_el1 ;;
  program_cval CNTP_CVAL_EL0 timeout 1000000000 ;;
  let* timer_ctrl_reg := mrs CNTP_CTL_EL0 in msr CNTP_CTL_EL0 (timer_on timer_ctrl_reg irq_mask).

Definition val_disable_virt_timer_el1 : M W unit :=
  let* timer_ctrl_reg := mrs CNTV_CTL_EL0 in msr CNTV_CTL_EL0 (timer_off timer_ctrl_reg).
Definition val_timer_set_virt_el1 (timeout : Z) : M W unit :=
  val_disable_virt_timer_el1 ;;
  program_cval CNTV_CVAL_EL0 timeout 1000000 ;;
  let* timer_ctrl_reg := mrs CNTV_CTL_EL0 in msr CNTV_CTL_EL0 (timer_on timer_ctrl_reg false).

Definition val_disable_phy_timer_el2 : M W unit :=
  let* timer_ctrl_reg := mrs CNTHP_CTL_EL2 in msr CNTHP_CTL_EL2 (timer_off timer_ctrl_reg).
Definition val_timer_set_phy_el2 (timeout : Z) : M W unit :=
  val_disable_phy_timer_el2 ;;
  program_cval CNTHP_CVAL_EL2 timeout 1000000000 ;;
  let* timer_ctrl_reg := mrs CNTHP_CTL_EL2 in msr CNTHP_CTL_EL2 (timer_on timer_ctrl_reg false).

(** The loops of val_wait_loop: the count when it ends. *)
Fixpoint wait_loop (fuel : nat) (timeout loop count : Z) : M W Z :=
  match fuel with
  | O => out_of_fuel
  | S fuel => if loop <? timeout then wait_loop fuel timeout (u64 (loop + 1)) (u64 (count + 1)) else ret count
  end.
Definition val_wait_loop (fuel : nat) (ms : Z) : M W Z := wait_loop fuel (u64 (ms * ITERATIONS_PER_MS)) 0 0.
Definition val_sp_sleep (fuel : nat) (ms : Z) : M W unit := let* _ := val_wait_loop fuel ms in ret tt.

Definition val_read_cntpct_el0 : M W Z := syscounter_read.
Definition val_read_cntfrq_el0 : M W Z := mrs CNTFRQ_EL0.

(** [while ((time2 - time1) < ((ms * timer_freq) / 1000U))]. *)
Fixpoint elapsed_loop (fuel : nat) (ticks time1 time2 : Z) : M W Z :=
  match fuel with
  | O => out_of_fuel
  | S fuel =>
      if u64 (time2 - time1) <? ticks then let* time2 := virtualcounter_read in elapsed_loop fuel ticks time1 time2
      else ret time2
  end.

Definition val_sleep_elapsed_time (fuel : nat) (ms : Z) : M W Z :=
  let* timer_freq := mrs CNTFRQ_EL0 in
  let* time1 := virtualcounter_read in
  let* time2 := elapsed_loop fuel (u64 (ms * timer_freq) / 1000) time1 time1 in
  if timer_freq =? 0 then fail Undef else ret (u64 (u64 (time2 - time1) * 1000) / timer_freq).
End Timer.

(** * Performance monitors (val_pmu.c, pal_arch_helpers.h) *)

Definition PMSELR_EL0_SEL_MASK : Z := 0x1f.
Definition PMCR_EL0_DP_BIT : Z := Z.shiftl 1 5.
Definition PMCR_EL0_C_BIT : Z := Z.shiftl 1 2.
Definition PMCR_EL0_P_BIT : Z := Z.shiftl 1 1.
Definition PMCR_EL0_E_BIT : Z := Z.shiftl 1 0.
Definition PMCNTENSET_EL0_P_BIT (x : Z) : Z := Z.shiftl 1 x.
Definition PMEVTYPER_EL0_P_BIT : Z := Z.shiftl 1 31.
Definition PMEVTYPER_EL0_U_BIT : Z := Z.shiftl 1 30.
Definition PMEVTYPER_EL0_NSH_BIT : Z := Z.shiftl 1 27.
Definition PMEVTYPER_EL0_RLK_BIT : Z := Z.shiftl 1 22.
Definition PMEVTYPER_EL0_RLH_BIT : Z := Z.shiftl 1 20.
Definition PMEVTYPER_EL0_EVTCOUNT_BITS : Z := 0x0000FFFF.
Definition PMU_EVT_INST_RETIRED : Z := 0x8.
Definition PMU_CLEAR_ALL : Z := 0xFFFFFFFFF.

Section Monitors.
Context {W : Type} `{Machine W}.

Definition read_pmevtypern_el0 (ctr_num : Z) : M W Z :=
  msr PMSELR_EL0 (Z.land ctr_num PMSELR_EL0_SEL_MASK) ;; mrs PMXEVTYPER_EL0.
Definition write_pmevtypern_el0 (ctr_num val : Z) : M W unit :=
  msr PMSELR_EL0 (Z.land ctr_num PMSELR_EL0_SEL_MASK) ;; msr PMXEVTYPER_EL0 val.

Definition enable_counting : M W unit := let* v := mrs PMCR_EL0 in msr PMCR_EL0 (Z.lor v PMCR_EL0_E_BIT).
(** The mask is the complement of an unsigned int. *)
Definition disable_counting : M W unit := let* v := mrs PMCR_EL0 in msr PMCR_EL0 (Z.land v (u32 (Z.lnot PMCR_EL0_E_BIT))).

(** The shift of an unsigned int by [ctr_num] is defined for less than 32. *)
Definition enable_event_counter (ctr_num : Z) : M W unit :=
  write_pmevtypern_el0 ctr_num
    (Z.lor PMEVTYPER_EL0_U_BIT (Z.lor PMEVTYPER_EL0_P_BIT (Z.lor PMEVTYPER_EL0_RLK_BIT (Z.lor PMEVTYPER_EL0_NSH_BIT
      (Z.lor PMEVTYPER_EL0_RLH_BIT (Z.land PMU_EVT_INST_RETIRED PMEVTYPER_EL0_EVTCOUNT_BITS)))))) ;;
  let* v := mrs PMCNTENSET_EL0 in
  if 32 <=? ctr_num then fail Undef else msr PMCNTENSET_EL0 (Z.lor v (PMCNTENSET_EL0_P_BIT ctr_num)).

Definition pmu_reset : M W unit :=
  let* v := mrs PMCR_EL0 in
  msr PMCR_EL0 (Z.lor v (Z.lor PMCR_EL0_DP_BIT (Z.lor PMCR_EL0_C_BIT PMCR_EL0_P_BIT))) ;;
  msr PMCNTENCLR_EL0 PMU_CLEAR_ALL ;;
  msr PMOVSCLR_EL0 PMU_CLEAR_ALL ;;
  msr PMINTENCLR_EL1 PMU_CLEAR_ALL.
End Monitors.

(** * The test engine (pal_smmuv3_test_engine.c) *)

Definition NO_SUBSTREAMID : Z := 2 ^ 32 - 1.
Definition SZ_4K : Z := 0x1000.
Definition SZ_64K : Z := 0x10000.
Definition ENGINE_NO_FRAME : Z := 0.
Definition ENGINE_HALTED : Z := 1.
Definition ENGINE_MEMCPY : Z := 2.
(** Offsets in [user_frame_t] and [privileged_frame_t]. *)
Definition FRAME_CMD : Z := 0.
Definition FRAME_UCTRL : Z := 4.
Definition FRAME_RETURNED : Z := 12.
Definition FRAME_MSIADDRESS : Z := 16.
Definition FRAME_MSIDATA : Z := 24.
Definition FRAME_MSIATTR : Z := 28.
Definition FRAME_ATTRIBUTES : Z := 32.
Definition FRAME_SEED : Z := 36.
Definition FRAME_BEGIN : Z := 40.
Definition FRAME_END_INCL : Z := 48.
Definition FRAME_STRIDE : Z := 56.
Definition FRAME_UDATA : Z := 64.
Definition PFRAME_PCTRL : Z := 0.
Definition PFRAME_PORT : Z := 4.
Definition PFRAME_STREAMID : Z := 8.
Definition PFRAME_SUBSTREAMID : Z := 12.

Section Engine.
Context {W : Type} `{Machine W}.

(** [do .. while ((cmd != ENGINE_NO_FRAME) && (trans_cnt == cur_cnt))]. *)
Fixpoint engine_loop (fuel : nat) (uframe cur_cnt : Z) : M W unit :=
  match fuel with
  | O => out_of_fuel
  | S fuel =>
      let* trans_cnt := mmio_read32 (uframe + FRAME_RETURNED) in
      let* cmd := mmio_read32 (uframe + FRAME_CMD) in
      if negb (cmd =? ENGINE_NO_FRAME) && (trans_cnt =? cur_cnt) then engine_loop fuel uframe cur_cnt else ret tt
  end.

(** The result is the command as an int. *)
Definition pal_smmu_configure_testengine (fuel : nat) (bar source_pa dest_pa : Z) : M W Z :=
  let pframe := bar + SZ_64K in
  let uframe := bar in
  mmio_write32 (pframe + PFRAME_PCTRL) 1 ;;
  mmio_write32 (pframe + PFRAME_PORT) 0 ;;
  mmio_write32 (pframe + PFRAME_STREAMID) 0 ;;
  mmio_write32 (pframe + PFRAME_SUBSTREAMID) NO_SUBSTREAMID ;;
  mmio_write32 (uframe + FRAME_CMD) ENGINE_HALTED ;;
  mmio_write32 (uframe + FRAME_UCTRL) 0 ;;
  mmio_write64 (uframe + FRAME_BEGIN) source_pa ;;
  mmio_write64 (uframe + FRAME_END_INCL) (source_pa + SZ_4K - 1) ;;
  mmio_write32 (uframe + FRAME_ATTRIBUTES) 0x42ff42ff ;;
  mmio_write32 (uframe + FRAME_SEED) 0 ;;
  mmio_write64 (uframe + FRAME_MSIADDRESS) 0 ;;
  mmio_write32 (uframe + FRAME_MSIDATA) 0 ;;
  mmio_write32 (uframe + FRAME_MSIATTR) 0 ;;
  mmio_write64 (uframe + FRAME_UDATA) dest_pa ;;
  mmio_write64 (uframe + FRAME_STRIDE) 1 ;;
  let* cur_cnt := mmio_read32 (uframe + FRAME_RETURNED) in
  mmio_write32 (uframe + FRAME_CMD) ENGINE_MEMCPY ;;
  engine_loop fuel uframe cur_cnt ;;
  let* cmd := mmio_read32 (uframe + FRAME_CMD) in
  ret (if cmd <? 2 ^ 31 then cmd else cmd - 2 ^ 32).
End Engine.
