(* ===== verification/DriverFacts.v ===== *)
(** The drivers on reference devices: a serial line, a watchdog with its lock, a memory of
    bytes and a clock.  What is printed, the protection of the watchdogs, the memory's
    round trip, and the end of waiting. *)
From S2P Require Import Prelude Defs Alloc Granule Host Mp Machine Drivers.

(** * The serial line *)

(** A PL011 with a terminal at its end.  The divisor of the clock, in 64ths, is taken from
    its two registers when the line control is written; the line sends a byte when it and
    its transmitter are enabled, and is full for the next [line_delay] looks at its flags.
    The terminal is set to 115200 baud, 8 bits, no parity and one stop bit: what comes in
    another format or at a rate that is off by more than 2 % does not reach it. *)
Record pl011 : Type := mk_pl011 {
  line_cr : Z;
  line_ibrd : Z;
  line_fbrd : Z;
  line_lcr : Z;
  line_divisor : Z;
  line_starts : Z;         (* how often the line has been enabled *)
  line_busy : nat;
  line_delay : nat;
  line_out : list Z        (* what the terminal shows *)
}.

Definition set_cr (v : Z) (w : pl011) : pl011 :=
  mk_pl011 v (line_ibrd w) (line_fbrd w) (line_lcr w) (line_divisor w)
    (line_starts w + (if Z.testbit v 0 && negb (Z.testbit (line_cr w) 0) then 1 else 0)) (line_busy w) (line_delay w) (line_out w).
Definition set_ibrd (v : Z) (w : pl011) : pl011 :=
  mk_pl011 (line_cr w) (v mod 2 ^ 16) (line_fbrd w) (line_lcr w) (line_divisor w) (line_starts w) (line_busy w) (line_delay w) (line_out w).
Definition set_fbrd (v : Z) (w : pl011) : pl011 :=
  mk_pl011 (line_cr w) (line_ibrd w) (v mod 2 ^ 6) (line_lcr w) (line_divisor w) (line_starts w) (line_busy w) (line_delay w) (line_out w).
Definition set_lcr (v : Z) (w : pl011) : pl011 :=
  mk_pl011 (line_cr w) (line_ibrd w) (line_fbrd w) v (64 * line_ibrd w + line_fbrd w) (line_starts w) (line_busy w) (line_delay w) (line_out w).
Definition set_queue (busy : nat) (out : list Z) (w : pl011) : pl011 :=
  mk_pl011 (line_cr w) (line_ibrd w) (line_fbrd w) (line_lcr w) (line_divisor w) (line_starts w) busy (line_delay w) out.

Definition line_enabled (w : pl011) : bool := Z.testbit (line_cr w) 0 && Z.testbit (line_cr w) 8.
(** Baud rate = clock / (16 * divisor); of the line control count break, parity, stop
    bits and word length. *)
Definition terminal_reads (w : pl011) : bool :=
  (Z.abs (64 * 24000000 - 16 * 115200 * line_divisor w) * 50 <=? 64 * 24000000) && (Z.land (line_lcr w) 0x6b =? 0x60).

Definition pl011_read (w : pl011) (a : Z) : Z * pl011 :=
  if a =? g_uart + UARTCR_OFF then (line_cr w, w)
  else if a =? g_uart + UARTFR_OFF then
    match line_busy w with
    | O => (0, w)
    | S n => (UART_PL011_UARTFR_TX_FIFO_FULL, set_queue n (line_out w) w)
    end
  else (0, w).
Definition pl011_write (w : pl011) (a v : Z) : pl011 :=
  if a =? g_uart + UARTCR_OFF then set_cr v w
  else if a =? g_uart + UARTIBRD_OFF then set_ibrd v w
  else if a =? g_uart + UARTFBRD_OFF then set_fbrd v w
  else if a =? g_uart + UARTLCR_H_OFF then set_lcr v w
  else if a =? g_uart + UARTDR_OFF then
    if line_enabled w then set_queue (line_delay w) (if terminal_reads w then line_out w ++ [u8 v] else line_out w) w else w
  else w.
#[export] Instance pl011_machine : Machine pl011 := {
  dev_read _ w a := pl011_read w a;
  dev_write _ w a v := pl011_write w a v;
  sys_read w r := (0, w);
  sys_write w r v := w
}.

Section Line.
Implicit Types s : uart pl011.

(** The line as the driver sets it up. *)
Definition line_set (w : pl011) : Prop := line_cr w = 0x101 ∧ terminal_reads w = true.

(** The driver has not begun, or it has set up the line. *)
Definition line_ok (fuel : nat) s : Prop :=
  (line_busy (u_machine s) < fuel)%nat ∧ (line_delay (u_machine s) < fuel)%nat ∧
  (is_uart_init_done s = 0 ∨ is_uart_init_done s ≠ 0 ∧ line_set (u_machine s)).

Definition no_text (l : list Z) : bool := match l with [] => true | _ => false end.

(** A text has been printed: the terminal shows it, and the line has been set up and
    enabled once if this was the first text, and left alone otherwise. *)
Definition printed (l : list Z) s s' : Prop :=
  let first := (is_uart_init_done s =? 0) && negb (no_text l) in
  line_out (u_machine s') = line_out (u_machine s) ++ l ∧
  line_starts (u_machine s') = line_starts (u_machine s) + (if first then 1 else 0) ∧
  is_uart_init_done s' = (if first then 1 else is_uart_init_done s).

Lemma printed_nil s : printed [] s s.
Proof. unfold printed. rewrite andb_false_r, app_nil_r, Z.add_0_r. done. Qed.

Lemma printed_app l1 l2 s s1 s2 : printed l1 s s1 → printed l2 s1 s2 → printed (l1 ++ l2) s s2.
Proof.
  intros (O1 & S1 & D1) (O2 & S2 & D2). unfold printed. cbn zeta in *.
  assert (no_text (l1 ++ l2) = no_text l1 && no_text l2) as -> by (by destruct l1).
  split; [by rewrite O2, O1, <- app_assoc|]. rewrite S2, D2, S1, D1.
  destruct (is_uart_init_done s =? 0) eqn:Ed; cbn [andb]; [|rewrite Ed; cbn [andb]; split; [lia|done]].
  destruct (no_text l1); cbn [negb andb]; [rewrite Ed; cbn [andb]; split; [lia|done]|]. split; [cbn; lia|done].
Qed.

Lemma wait_tx_run fuel (w : pl011) : (line_busy w < fuel)%nat → line_cr w = 0x101 →
  wait_tx fuel w = Ok tt (set_queue 0 (line_out w) w).
Proof.
  revert w. induction fuel as [|fuel IH]; intros w Hb Hc; [lia|].
  destruct w as [cr ib fb lc dv st b d o]; cbn in Hb, Hc; subst cr.
  cbn [wait_tx]. destruct b as [|b]; [done|].
  rewrite (bind_step pal_driver_uart_pl011_is_tx_empty _ _ false (mk_pl011 0x101 ib fb lc dv st b d o)) by done.
  rewrite (IH (mk_pl011 0x101 ib fb lc dv st b d o)); [done|cbn; lia|done].
Qed.

Lemma masked_enable cr : Z.testbit (u32 (Z.land cr (Z.lnot UART_PL011_UARTCR_EN_MASK))) 0 = false.
Proof. unfold u32. rewrite Z.mod_pow2_bits_low by lia. by rewrite Z.land_spec, andb_false_r. Qed.

(** The set-up makes the line readable for the terminal, and enables it once. *)
Lemma uart_init_run (w : pl011) : ∃ w', pal_driver_uart_pl011_init w = Ok tt w' ∧ line_set w' ∧
  line_starts w' = line_starts w + 1 ∧ line_busy w' = line_busy w ∧ line_delay w' = line_delay w ∧ line_out w' = line_out w.
Proof.
  destruct w as [cr ib fb lc dv st b d o].
  set (cr1 := u32 (Z.land (u32 cr) (Z.lnot UART_PL011_UARTCR_EN_MASK))).
  assert (Z.testbit cr1 0 = false) as Hm by apply masked_enable.
  exists (set_cr 0x101 (mk_pl011 cr1 13 1 0x70 833 (st + 0) b d o)). split.
  - transitivity (Ok (S := pl011) tt (set_cr 0x101 (mk_pl011 cr1 13 1 0x70 833 (st + if Z.testbit cr1 0 && negb (Z.testbit cr 0) then 1 else 0) b d o))); [reflexivity|]. by rewrite Hm.
  - unfold set_cr. cbn [line_cr line_starts line_busy line_delay line_out]. rewrite Hm. split; [split; [reflexivity|vm_compute; reflexivity]|].
    split; [cbn; lia|done].
Qed.

Lemma putc_run fuel c s : line_ok fuel s →
  run_to (pal_print_driver fuel c) s (λ _ s', line_ok fuel s' ∧ printed [u8 c] s s').
Proof.
  intros (Hb & Hd & Hi). unfold pal_print_driver, pal_driver_uart_pl011_putc. eapply run_to_step; [reflexivity|].
  assert (run_to (if is_uart_init_done s =? 0 then on_line pal_driver_uart_pl011_init ;; modify (λ s, mk_uart (u_machine s) 1) else ret tt) s
    (λ _ s', is_uart_init_done s' ≠ 0 ∧ line_set (u_machine s') ∧ line_busy (u_machine s') = line_busy (u_machine s) ∧
      line_delay (u_machine s') = line_delay (u_machine s) ∧ line_out (u_machine s') = line_out (u_machine s) ∧
      line_starts (u_machine s') = line_starts (u_machine s) + (if is_uart_init_done s =? 0 then 1 else 0) ∧
      is_uart_init_done s' = (if is_uart_init_done s =? 0 then 1 else is_uart_init_done s))) as Hinit.
  { destruct (Z.eqb_spec (is_uart_init_done s) 0) as [E|E].
    - destruct (uart_init_run (u_machine s)) as (w' & Ew & Hw). unfold run_to, on_line, zoom, bind, modify. rewrite Ew. cbn.
      destruct Hw as (H1 & H2 & H3 & H4 & H5). split; [done|]. split; [done|]. repeat split; done || lia.
    - apply run_to_ret. destruct Hi as [Hi|[_ Hi]]; [done|]. split; [done|]. split; [done|]. repeat split; lia. }
  eapply run_to_bind; [exact Hinit|]. intros [] s1 (H1 & [H2 H2'] & H3 & H4 & H5 & H6 & H7). cbn beta in *.
  eapply run_to_step; [unfold on_line, zoom; rewrite wait_tx_run by (done || lia); reflexivity|].
  set (w1 := set_queue 0 (line_out (u_machine s1)) (u_machine s1)).
  assert (u32 (u8 c) = u8 c) as Eu by (unfold u32, u8; apply Z.mod_small; pose proof (Z.mod_pos_bound c (2 ^ 8)); lia).
  assert (pl011_write w1 (g_uart + UARTDR_OFF) (u32 (u8 c)) = set_queue (line_delay w1) (line_out w1 ++ [u8 c]) w1) as Ew.
  { change (pl011_write w1 (g_uart + UARTDR_OFF) (u32 (u8 c))) with
      (if line_enabled w1 then set_queue (line_delay w1) (if terminal_reads w1 then line_out w1 ++ [u8 (u32 (u8 c))] else line_out w1) w1 else w1).
    change (terminal_reads w1) with (terminal_reads (u_machine s1)). rewrite H2'. unfold line_enabled. change (line_cr w1) with (line_cr (u_machine s1)).
    rewrite H2, Eu. cbn. do 2 f_equal. unfold u8. by rewrite Z.mod_mod by lia. }
  unfold run_to, on_line, zoom, mmio_write32, modify. cbn [u_machine is_uart_init_done dev_write pl011_machine]. fold w1.
  change (u64 (g_uart + UARTDR_OFF)) with (g_uart + UARTDR_OFF). rewrite Ew.
  split; [split; [cbn; lia|]; split; [cbn; lia|]; right; done|].
  unfold printed. cbn [no_text negb]. rewrite andb_true_r. cbn. by rewrite H5, H6, H7.
Qed.

Lemma put_chars_run fuel l s : line_ok fuel s → Forall (λ c, 0 ≤ c < 256) l →
  run_to (put_chars fuel l) s (λ _ s', line_ok fuel s' ∧ printed l s s').
Proof.
  revert s. induction l as [|c l IH]; intros s Hs Hl; cbn [put_chars]; [apply run_to_ret; split; [done|apply printed_nil]|].
  apply Forall_cons in Hl as [Hc Hl]. eapply run_to_bind; [by apply putc_run|]. intros [] s1 [Hs1 E1].
  eapply run_to_mono; [by apply IH|]. intros _ s2 [Hs2 E2]. split; [done|].
  assert (u8 c = c) as Eu by (unfold u8; by apply Z.mod_small). rewrite Eu in E1. exact (printed_app [c] l _ _ _ E1 E2).
Qed.
End Line.

(** ** Numbers *)

Fixpoint low_digits (k : nat) (radix n : Z) : list Z :=
  match k with
  | O => []
  | S k => if n =? 0 then [] else n mod radix :: low_digits k radix (n / radix)
  end.

(** The digits are those of the number, without leading zeros. *)
Lemma low_digits_value k radix n : 1 < radix → 0 ≤ n < radix ^ Z.of_nat k →
  foldr (λ d v, d + radix * v) 0 (low_digits k radix n) = n ∧ (∀ l d, low_digits k radix n = l ++ [d] → d ≠ 0).
Proof.
  intros Hr. revert n. induction k as [|k IH]; intros n Hn; cbn [low_digits].
  - split; [cbn in *; lia|]. intros l d E. by destruct l.
  - destruct (Z.eqb_spec n 0) as [->|Hne]; [split; [done|]; intros l d E; by destruct l|].
    rewrite Nat2Z.inj_succ, Z.pow_succ_r in Hn by lia.
    assert (0 ≤ n / radix < radix ^ Z.of_nat k) as Hq by (split; [apply Z.div_pos; lia|apply Z.div_lt_upper_bound; lia]).
    destruct (IH _ Hq) as [IHv IHl]. split.
    + cbn. rewrite IHv. rewrite Z.add_comm. symmetry. apply Z.div_mod. lia.
    + intros [|x l] d E; injection E as E1 E2; [|by apply (IHl l)]. subst d.
      destruct (Z.eqb_spec (n / radix) 0) as [E0|E0].
      * pose proof (Z.div_mod n radix ltac:(lia)). lia.
      * destruct k as [|k]; [cbn in Hq; lia|]. cbn [low_digits] in E2. rewrite (proj2 (Z.eqb_neq _ _) E0) in E2. discriminate E2.
Qed.

Definition char_of (hex : bool) (j : Z) : Z := if hex then hex_char j else j + 48.
Definition radix_of (hex : bool) : Z := if hex then 16 else 10.
(** A number as text; it has at most 16 digits. *)
Definition numeral (hex : bool) (n : Z) : list Z :=
  if n =? 0 then [48] else reverse (char_of hex <$> low_digits 16 (radix_of hex) n).

Lemma digits_to_buffer_run hex k n fuel buf (s : uart pl011) :
  0 ≤ n < radix_of hex ^ Z.of_nat k → (k < fuel)%nat → (length buf + k ≤ 16)%nat →
  digits_to_buffer fuel hex n buf s = Ok (buf ++ (char_of hex <$> low_digits k (radix_of hex) n)) s.
Proof.
  revert n fuel buf. induction k as [|k IH]; intros n [|fuel] buf Hn Hf Hl; try lia; cbn [digits_to_buffer low_digits].
  - assert (n = 0) as -> by (cbn in Hn; lia). by rewrite app_nil_r.
  - destruct (Z.eqb_spec n 0) as [->|Hne]; [by rewrite app_nil_r|].
    assert (1 < radix_of hex) as Hr by (by destruct hex). rewrite Nat2Z.inj_succ, Z.pow_succ_r in Hn by lia.
    rewrite (proj2 (Z.ltb_lt _ _)) by lia.
    assert ((if hex then Z.shiftr n 4 else n / 10) = n / radix_of hex) as ->.
    { destruct hex; [|done]. by rewrite Z.shiftr_div_pow2 by lia. }
    assert ((if hex then hex_char (if hex then Z.land n 0xf else n mod 10) else u8 ((if hex then Z.land n 0xf else n mod 10) + 48)) =
      char_of hex (n mod radix_of hex)) as ->.
    { destruct hex; cbn [char_of radix_of].
      - change 0xf with (Z.ones 4). by rewrite Z.land_ones by lia.
      - unfold u8. apply Z.mod_small. pose proof (Z.mod_pos_bound n 10). lia. }
    rewrite IH; [by rewrite <- app_assoc|split; [apply Z.div_pos; lia|apply Z.div_lt_upper_bound; lia]|lia|rewrite length_app; cbn; lia].
Qed.

Lemma low_digits_range k radix n : 0 < radix → Forall (λ d, 0 ≤ d < radix) (low_digits k radix n).
Proof.
  intros Hr. revert n. induction k as [|k IH]; intros n; cbn [low_digits]; [constructor|].
  destruct (n =? 0); constructor; [by apply Z.mod_pos_bound|apply IH].
Qed.

Lemma put_numeral_run fuel hex n s : line_ok fuel s → 0 ≤ n < radix_of hex ^ 16 →
  ∃ b, digits_to_buffer 65 hex n [] s = Ok b s ∧
  run_to (put_number fuel b) s (λ _ s', line_ok fuel s' ∧ printed (numeral hex n) s s').
Proof.
  intros Hs Hn. eexists. split; [apply (digits_to_buffer_run hex 16); [exact Hn|lia|cbn; lia]|]. rewrite app_nil_l.
  unfold put_number, numeral. destruct (Z.eqb_spec n 0) as [->|Hne].
  - cbn [low_digits]. cbn. by apply (putc_run fuel 48).
  - assert (low_digits 16 (radix_of hex) n ≠ []) as Hnz by (cbn [low_digits]; by rewrite (proj2 (Z.eqb_neq _ _) Hne)).
    rewrite (proj2 (Nat.ltb_lt _ _)) by (rewrite length_fmap; destruct (low_digits _ _ _); [done|cbn; lia]).
    apply put_chars_run; [done|]. apply Forall_reverse, Forall_fmap.
    eapply Forall_impl; [apply low_digits_range; by destruct hex|]. intros d Hd. unfold compose. destruct hex; cbn [char_of radix_of] in *; [|lia].
    unfold hex_char. destruct (9 <? d); lia.
Qed.

(** ** The text of a message *)

Inductive conversion : Type := Decimal | Hexadecimal | Unknown.
Definition conversion_of (c : Z) : conversion :=
  if c =? 100 then Decimal else if (c =? 120) || (c =? 88) then Hexadecimal else Unknown.
Definition is_long (c : Z) : bool := (c =? 108) || (c =? 76).

(** The next number, and the one after it. *)
Definition converted (c data data2 : Z) : list Z * Z :=
  match conversion_of c with
  | Decimal => (numeral false data, data2)
  | Hexadecimal => (numeral true data, data2)
  | Unknown => ([48], data)
  end.
Definition conversion_fits (c data : Z) : bool :=
  match conversion_of c with
  | Decimal => (0 <=? data) && (data <? 10 ^ 16)
  | Hexadecimal => (0 <=? data) && (data <? 2 ^ 64)
  | Unknown => true
  end.

Fixpoint text (msg : list Z) (data data2 : Z) : list Z :=
  match msg with
  | [] => []
  | c :: msg =>
      if c =? 37 then
        match msg with
        | [] => []
        | c :: msg =>
            if is_long c then
              match msg with
              | [] => []
              | c :: msg => let '(t, data) := converted c data data2 in t ++ text msg data data2
              end
            else let '(t, data) := converted c data data2 in t ++ text msg data data2
        end
      else (if c =? 10 then [10; 13] else [c]) ++ text msg data data2
  end.

(** Every conversion is complete and its number fits into the buffer. *)
Fixpoint well_formed (msg : list Z) (data data2 : Z) : bool :=
  match msg with
  | [] => true
  | c :: msg =>
      if c =? 37 then
        match msg with
        | [] => false
        | c :: msg =>
            if is_long c then
              match msg with
              | [] => false
              | c :: msg => conversion_fits c data && well_formed msg (snd (converted c data data2)) data2
              end
            else conversion_fits c data && well_formed msg (snd (converted c data data2)) data2
        end
      else well_formed msg data data2
  end.

Lemma char_at_mid pre c suf (s : uart pl011) i : i = Z.of_nat (length pre) → char_at (pre ++ c :: suf) i s = Ok c s.
Proof. intros ->. unfold char_at. by rewrite Nat2Z.id, list_lookup_middle. Qed.
Lemma char_at_end msg (s : uart pl011) i : i = Z.of_nat (length msg) → char_at msg i s = Ok 0 s.
Proof. intros ->. unfold char_at. rewrite Nat2Z.id, lookup_ge_None_2 by lia. by rewrite Z.eqb_refl. Qed.

(** One conversion from its letter on. *)
Lemma conversion_run fuel c data data2 s : line_ok fuel s → conversion_fits c data = true →
  run_to (let* (buffer, data) :=
            if c =? 100 then let* b := digits_to_buffer 65 false data [] in ret (b, data2)
            else if (c =? 120) || (c =? 88) then let* b := digits_to_buffer 65 true data [] in ret (b, data2)
            else ret ([], data) in
          put_number fuel buffer ;; ret data) s
    (λ d s', d = snd (converted c data data2) ∧ line_ok fuel s' ∧
       printed (fst (converted c data data2)) s s').
Proof.
  intros Hs Hf. unfold converted, conversion_fits, conversion_of in *.
  assert (∀ hex, 0 ≤ data < radix_of hex ^ 16 →
    run_to (let* (buffer, data) := let* b := digits_to_buffer 65 hex data [] in ret (b, data2) in put_number fuel buffer ;; ret data) s
      (λ d s', d = data2 ∧ line_ok fuel s' ∧ printed (numeral hex data) s s')) as Hnum.
  { intros hex Hn. destruct (put_numeral_run fuel hex data s Hs Hn) as (b & Eb & Hp).
    eapply run_to_step; [rewrite (bind_step _ _ _ _ _ Eb); reflexivity|]. cbn beta iota.
    eapply run_to_bind; [exact Hp|]. intros [] s1 [H1 H2]. apply run_to_ret. split; [reflexivity|]. by split. }
  destruct (c =? 100).
  { cbn [fst snd]. apply (Hnum false). apply andb_true_iff in Hf as [H1 H2]. apply Z.leb_le in H1. apply Z.ltb_lt in H2. by split. }
  destruct (_ || _).
  { cbn [fst snd]. apply (Hnum true). apply andb_true_iff in Hf as [H1 H2]. apply Z.leb_le in H1. apply Z.ltb_lt in H2. by split. }
  eapply run_to_step; [reflexivity|]. eapply run_to_bind; [by apply (putc_run fuel 48)|]. intros [] s1 H1. by apply run_to_ret.
Qed.

Lemma run_split {S A B C} (m : M S (A * B)) (p : A → M S unit) (k : B → M S C) s Q P :
  run_to (let* (a, b) := m in p a ;; ret b) s Q → (∀ b s', Q b s' → run_to (k b) s' P) → run_to (let* (a, b) := m in p a ;; k b) s P.
Proof.
  intros H1 H2. unfold run_to, bind, ret in *. destruct (m s) as [[a b] s1|f|]; [|done|done].
  destruct (p a s1) as [u s2|f|]; [|done|done]. by apply H2.
Qed.

Lemma printf_loop_run fuel suf : ∀ n pre data data2 s, line_ok fuel s → Forall (λ c, 0 < c < 256) suf →
  well_formed suf data data2 = true → (length suf < n)%nat →
  run_to (printf_loop n fuel (pre ++ suf) (Z.of_nat (length pre)) data data2) s
    (λ r s', r = PAL_SUCCESS ∧ line_ok fuel s' ∧ printed (text suf data data2) s s').
Proof.
  remember (length suf) as k eqn:Hk. revert suf Hk. induction (lt_wf k) as [k _ IH]. intros suf Hk n pre data data2 s Hs Hc Hw Hn.
  destruct n as [|n]; [lia|]. cbn [printf_loop]. destruct suf as [|c suf].
  { rewrite app_nil_r. eapply run_to_step; [by apply char_at_end|]. cbn. apply run_to_ret. split; [done|]. split; [done|apply printed_nil]. }
  apply Forall_cons in Hc as [Hc0 Hc]. eapply run_to_step; [by apply char_at_mid|]. rewrite (proj2 (Z.eqb_neq c 0)) by lia.
  cbn [well_formed text length] in *.
  (* the rest, behind a prefix *)
  assert (∀ pre' suf' data s1, (length suf' < k)%nat → pre ++ c :: suf = pre' ++ suf' → line_ok fuel s1 → Forall (λ c, 0 < c < 256) suf' →
    well_formed suf' data data2 = true →
    run_to (printf_loop n fuel (pre ++ c :: suf) (Z.of_nat (length pre')) data data2) s1
      (λ r s', r = PAL_SUCCESS ∧ line_ok fuel s' ∧ printed (text suf' data data2) s1 s')) as Hrest.
  { intros pre' suf' d s1 Hl -> Hs1 Hc1 Hw1. apply (IH (length suf') Hl suf' eq_refl); [done|done|done|lia]. }
  destruct (Z.eqb_spec c 37) as [->|Hne].
  - destruct suf as [|c1 suf]; [done|]. apply Forall_cons in Hc as [Hc1 Hc].
    eapply run_to_step; [rewrite (cons_middle 37), app_assoc; apply char_at_mid; rewrite length_app; cbn; lia|].
    assert (∀ c2 i pre' suf', Forall (λ c, 0 < c < 256) suf' → pre ++ 37 :: c1 :: suf = pre' ++ c2 :: suf' → i = Z.of_nat (length pre') →
      (length suf' < k)%nat → conversion_fits c2 data && well_formed suf' (snd (converted c2 data data2)) data2 = true →
      run_to (let* (buffer, data) :=
                if c2 =? 100 then let* b := digits_to_buffer 65 false data [] in ret (b, data2)
                else if (c2 =? 120) || (c2 =? 88) then let* b := digits_to_buffer 65 true data [] in ret (b, data2)
                else ret ([], data) in
              put_number fuel buffer ;;
              printf_loop n fuel (pre ++ 37 :: c1 :: suf) (i + 1) data data2) s
        (λ r s', r = PAL_SUCCESS ∧ line_ok fuel s' ∧
          printed (let '(t, data) := converted c2 data data2 in t ++ text suf' data data2) s s')) as Hconv.
    { intros c2 i pre' suf' Hc2 Hm Hi Hl [Hf Hw2]%andb_true_iff.
      apply (run_split _ (put_number fuel) (λ data, printf_loop n fuel (pre ++ 37 :: c1 :: suf) (i + 1) data data2) s _ _
        (conversion_run fuel c2 data data2 s Hs Hf)).
      intros d s2 (-> & Hs2 & E2). assert (i + 1 = Z.of_nat (length (pre' ++ [c2]))) as -> by (rewrite length_app; cbn; lia).
      assert (pre ++ 37 :: c1 :: suf = (pre' ++ [c2]) ++ suf') as Hm2 by (rewrite Hm, <- app_assoc; done).
      eapply run_to_mono; [by apply (Hrest (pre' ++ [c2]) suf')|]. intros r s3 (-> & H3 & E3).
      split; [done|]. split; [done|]. destruct (converted c2 data data2). exact (printed_app _ _ _ _ _ E2 E3). }
    change ((c1 =? 108) || (c1 =? 76)) with (is_long c1). destruct (is_long c1).
    + destruct suf as [|c2 suf]; [done|]. apply Forall_cons in Hc as [Hc2 Hc].
      eapply run_to_step.
      { rewrite (bind_step _ _ s c2 s); [reflexivity|]. change (pre ++ 37 :: c1 :: c2 :: suf) with (pre ++ [37; c1] ++ c2 :: suf). rewrite app_assoc. apply char_at_mid. rewrite length_app. cbn. lia. }
      cbn beta iota. apply (Hconv c2 _ (pre ++ [37; c1]) suf); [done|by rewrite <- app_assoc|rewrite length_app; cbn; lia|cbn in Hk; lia|done].
    + eapply run_to_step; [reflexivity|]. cbn beta iota.
      apply (Hconv c1 _ (pre ++ [37]) suf); [done|by rewrite <- app_assoc|rewrite length_app; cbn; lia|cbn in Hk; lia|done].
  - eapply run_to_bind; [by apply putc_run|]. intros [] s1 [Hs1 E1]. cbn beta in *.
    eapply (run_to_bind _ _ _ (λ _ s2, line_ok fuel s2 ∧ printed (if c =? 10 then [10; 13] else [c]) s s2)).
    { assert (u8 c = c) as Eu by (unfold u8; apply Z.mod_small; lia). rewrite Eu in E1.
      destruct (Z.eqb_spec c 10) as [->|_]; [|by apply run_to_ret].
      eapply run_to_mono; [by apply putc_run|]. intros _ s2 [Hs2 E2]. split; [done|]. exact (printed_app [10] [13] _ _ _ E1 E2). }
    intros [] s2 [Hs2 E2]. assert (Z.of_nat (length pre) + 1 = Z.of_nat (length (pre ++ [c]))) as -> by (rewrite length_app; cbn; lia).
    eapply run_to_mono; [apply (Hrest (pre ++ [c]) suf data s2); [lia|by rewrite <- app_assoc|done|done|done]|].
    intros r s3 (-> & Hs3 & E3). split; [done|]. split; [done|]. exact (printed_app _ _ _ _ _ E2 E3).
Qed.

(** C20. For a message whose conversions are complete and whose numbers fit into the
    buffer ([well_formed]: no percent sign at the end, decimal numbers below 10^16),
    pal_printf shows on the terminal the text of the message, at the pace of the line:
    numbers without leading zeros, 0 for an unknown conversion, a carriage return behind
    each line feed, the second number for every conversion but the first.  The line is set
    up, to the rate and format of the terminal, and enabled exactly once, by the first
    character ever printed. *)
Theorem printf_text fuel msg data1 data2 s :
  line_ok fuel s → Forall (λ c, 0 < c < 256) msg → well_formed msg data1 data2 = true →
  let t := text msg data1 data2 in
  let first := (is_uart_init_done s =? 0) && negb (no_text t) in
  run_to (pal_printf fuel msg data1 data2) s (λ r s',
    r = PAL_SUCCESS ∧ line_ok fuel s' ∧ line_out (u_machine s') = line_out (u_machine s) ++ t ∧
    line_starts (u_machine s') = line_starts (u_machine s) + (if first then 1 else 0) ∧
    is_uart_init_done s' = (if first then 1 else is_uart_init_done s)).
Proof. intros Hs Hc Hw. apply (printf_loop_run fuel msg _ [] data1 data2); [done|done|done|lia]. Qed.

(** A decimal number of 17 digits does not fit into the buffer, and a message that ends in
    a percent sign is read beyond its terminator. *)
Lemma printf_long_number fuel data2 (s : uart pl011) : pal_printf fuel [37; 100] (10 ^ 16) data2 s = Fault OutOfBounds.
Proof. vm_compute. reflexivity. Qed.
Lemma printf_last_percent data1 data2 :
  pal_printf 1 [37] data1 data2 (mk_uart (mk_pl011 0x101 13 1 0x70 833 0 0 0 []) 1) = Fault OutOfBounds.
Proof. vm_compute. reflexivity. Qed.

Lemma printf_text_witness :
  run_to (pal_printf 3 [120; 61; 37; 120; 32; 37; 108; 100; 10] 0xBEEF 2026) (mk_uart (mk_pl011 0x300 0 0 0 0 0 2 2 []) 0) (λ r s',
    r = PAL_SUCCESS ∧ line_starts (u_machine s') = 1 ∧ line_out (u_machine s') = [120; 61; 66; 69; 69; 70; 32; 50; 48; 50; 54; 10; 13]).
Proof.
  eapply run_to_mono; [apply (printf_text 3 [120; 61; 37; 120; 32; 37; 108; 100; 10] 0xBEEF 2026 (mk_uart (mk_pl011 0x300 0 0 0 0 0 2 2 []) 0))|].
  - split; [cbn; lia|]. split; [cbn; lia|]. by left.
  - repeat constructor.
  - vm_compute. reflexivity.
  - intros r s' (-> & _ & -> & -> & _). split; [reflexivity|]. split; vm_compute; reflexivity.
Defined.

(** * The watchdogs *)

(** A watchdog that ignores writes while it is locked. *)
Record sp805 : Type := mk_sp805 { wd_locked : bool; wd_load : Z; wd_ctrl : Z; wd_count : Z }.
Definition sp805_write (base : Z) (w : sp805) (a v : Z) : sp805 :=
  if a =? base + SP805_WDOG_LOCK_OFF then mk_sp805 (negb (v =? SP805_WDOG_UNLOCK_ACCESS)) (wd_load w) (wd_ctrl w) (wd_count w)
  else if wd_locked w then w
  else if a =? base + SP805_WDOG_LOAD_OFF then mk_sp805 false v (wd_ctrl w) v
  else if a =? base + SP805_WDOG_CTRL_OFF then mk_sp805 false (wd_load w) v (wd_count w)
  else if a =? base + SP805_WDOG_INT_CLR_OFF then mk_sp805 false (wd_load w) (wd_ctrl w) (wd_load w)
  else w.

(** The two watchdogs of the board. *)
Record watchdogs : Type := mk_wds { wd_board : sp805; wd_trusted : sp805 }.
#[export] Instance watchdogs_machine : Machine watchdogs := {
  dev_read _ w a := (0, w);
  dev_write _ w a v :=
    if (PLATFORM_WDOG_BASE <=? a) && (a <? PLATFORM_WDOG_BASE + 0x1000) then mk_wds (sp805_write PLATFORM_WDOG_BASE (wd_board w) a v) (wd_trusted w)
    else if (PLATFORM_SP805_TWDOG_BASE <=? a) && (a <? PLATFORM_SP805_TWDOG_BASE + 0x1000)
    then mk_wds (wd_board w) (sp805_write PLATFORM_SP805_TWDOG_BASE (wd_trusted w) a v) else w;
  sys_read w r := (0, w);
  sys_write w r v := w
}.

Definition armed (load : Z) : sp805 := mk_sp805 true load 3 load.

(** Each watchdog is set up, reloaded and stopped through its lock, which is closed again,
    whatever its state was; the other one is left alone.  The trusted one runs for the
    time times 32768 modulo 2^32, over a million. *)
Lemma watchdogs_exact ms w : 0 ≤ ms < 2 ^ 32 →
  pal_watchdog_enable w = Ok PAL_SUCCESS (mk_wds (armed 399600000) (wd_trusted w)) ∧
  pal_watchdog_disable w = Ok PAL_SUCCESS (mk_wds (mk_sp805 true (wd_load (wd_board w)) 0 (wd_count (wd_board w))) (wd_trusted w)) ∧
  pal_twdog_enable ms w = Ok PAL_SUCCESS (mk_wds (wd_board w) (armed ((ms * 32768) mod 2 ^ 32 / 1000000))) ∧
  pal_twdog_disable w = Ok PAL_SUCCESS (mk_wds (wd_board w) (mk_sp805 true (wd_load (wd_trusted w)) 0 (wd_count (wd_trusted w)))).
Proof.
  intros Hms. destruct w as [[l1 a1 c1 n1] [l2 a2 c2 n2]]. split; [done|]. split; [done|]. split; [|done].
  assert (u32 (twdog_cycles ms) = (ms * 32768) mod 2 ^ 32 / 1000000) as E.
  { unfold twdog_cycles, ARM_SP805_TWDG_CLK_HZ, u32. apply Z.mod_small. pose proof (Z.mod_pos_bound (ms * 32768) (2 ^ 32)).
    split; [apply Z.div_pos; lia|]. apply Z.div_lt_upper_bound; lia. }
  rewrite <- E. reflexivity.
Qed.
Lemma watchdogs_exact_witness : pal_twdog_enable 0x20000 (mk_wds (armed 7) (armed 7)) = Ok PAL_SUCCESS (mk_wds (armed 7) (armed 0)).
Proof. exact (proj1 (proj2 (proj2 (watchdogs_exact 0x20000 (mk_wds (armed 7) (armed 7)) ltac:(lia))))). Defined.

(** * Non-volatile memory *)

Definition bytes : Type := Z → Z.
#[export] Instance bytes_machine : Machine bytes := {
  dev_read _ w a := (w a, w);
  dev_write _ w a v := λ b, if b =? a then v else w b;
  sys_read w r := (0, w);
  sys_write w r v := w
}.

Lemma nvm_write_loop_run l : ∀ a (w : bytes), 0 ≤ a → a + Z.of_nat (length l) ≤ 2 ^ 64 →
  ∃ w', nvm_write_loop l a w = Ok tt w' ∧ ∀ b, w' b = if (a <=? b) && (b <? a + Z.of_nat (length l)) then u8 (nth (Z.to_nat (b - a)) l 0) else w b.
Proof.
  induction l as [|c l IH]; intros a w Ha Hl; cbn [nvm_write_loop length] in *.
  - exists w. split; [done|]. intros b. destruct (Z.leb_spec a b), (Z.ltb_spec b (a + Z.of_nat 0)); try done; lia.
  - set (w1 := (λ b, if b =? a then u8 c else w b) : bytes).
    rewrite (bind_step _ _ w tt w1).
    2: { unfold mmio_write8, modify. cbn [dev_write bytes_machine]. unfold u64. by rewrite Z.mod_small by lia. }
    destruct (IH (a + 1) w1 ltac:(lia) ltac:(lia)) as (w' & E & Hw). exists w'. split; [done|]. intros b. rewrite Hw. unfold w1.
    destruct (Z.leb_spec (a + 1) b), (Z.ltb_spec b (a + 1 + Z.of_nat (length l))), (Z.leb_spec a b), (Z.ltb_spec b (a + Z.of_nat (S (length l))));
      cbn [andb]; try lia; try (destruct (Z.eqb_spec b a); try lia; try done).
    + replace (Z.to_nat (b - a)) with (S (Z.to_nat (b - (a + 1)))) by lia. done.
    + subst. by rewrite Z.sub_diag.
Qed.
Lemma nvm_read_loop_run n : ∀ a (w : bytes), 0 ≤ a → a + Z.of_nat n ≤ 2 ^ 64 →
  nvm_read_loop n a w = Ok ((λ i, u8 (w (a + Z.of_nat i))) <$> seq 0 n) w.
Proof.
  induction n as [|n IH]; intros a w Ha Hn; cbn [nvm_read_loop]; [done|].
  rewrite (bind_step _ _ w (u8 (w a)) w).
  2: { unfold mmio_read8. cbn [dev_read bytes_machine]. unfold u64. by rewrite Z.mod_small by lia. }
  rewrite (bind_step _ _ _ _ _ (IH (a + 1) w ltac:(lia) ltac:(lia))). unfold ret. f_equal. cbn [seq fmap list_fmap].
  rewrite Z.add_0_r. f_equal. rewrite <- fmap_S_seq, <- list_fmap_compose. apply list_fmap_ext. intros i x _. unfold compose.
  do 2 f_equal. lia.
Qed.

(** What is written to the non-volatile memory is read back, and nothing else changes;
    neither call compares the place with the size of the memory. *)
Lemma nvm_roundtrip offset l (w : bytes) : 0 ≤ offset → nvm_base + offset + Z.of_nat (length l) ≤ 2 ^ 64 → Forall (λ b, 0 ≤ b < 256) l →
  ∃ w', pal_nvm_write offset l w = Ok PAL_SUCCESS w' ∧ pal_nvm_read offset (length l) w' = Ok (PAL_SUCCESS, l) w' ∧
    ∀ a, ¬ (nvm_base + offset ≤ a < nvm_base + offset + Z.of_nat (length l)) → w' a = w a.
Proof.
  intros Ho Hl Hb. assert (0 ≤ nvm_base) as Hn by done.
  destruct (nvm_write_loop_run l (nvm_base + offset) w ltac:(lia) ltac:(lia)) as (w' & E & Hw). exists w'.
  split; [unfold pal_nvm_write, pal_driver_nvm_write; by rewrite (bind_step _ _ _ _ _ E)|]. split.
  - unfold pal_nvm_read, pal_driver_nvm_read.
    rewrite (bind_step _ _ _ _ _ (nvm_read_loop_run (length l) (nvm_base + offset) w' ltac:(lia) ltac:(lia))).
    unfold ret. do 2 f_equal. apply list_eq. intros i. rewrite list_lookup_fmap. destruct (Nat.lt_ge_cases i (length l)) as [Hi|Hi].
    + rewrite lookup_seq_lt by done. cbn. rewrite Hw.
      destruct (lookup_lt_is_Some_2 l i Hi) as [b Eb]. rewrite Eb. pose proof (Forall_lookup_1 _ _ _ _ Hb Eb) as Hbr. cbn beta in Hbr.
      rewrite (proj2 (Z.leb_le _ _)), (proj2 (Z.ltb_lt _ _)) by lia. cbn [andb].
      replace (Z.to_nat (nvm_base + offset + Z.of_nat i - (nvm_base + offset))) with i by lia.
      rewrite (nth_lookup_Some _ _ _ _ Eb). assert (u8 b = b) as Eu by (unfold u8; apply Z.mod_small; lia). by rewrite !Eu.
    + rewrite (lookup_ge_None_2 l) by done. by rewrite lookup_ge_None_2 by (rewrite length_seq; lia).
  - intros a Ha. rewrite Hw. destruct (Z.leb_spec (nvm_base + offset) a), (Z.ltb_spec a (nvm_base + offset + Z.of_nat (length l))); try done; lia.
Qed.
Lemma nvm_roundtrip_witness : ∃ w' : bytes, pal_nvm_read 8 2 w' = Ok (PAL_SUCCESS, [1; 2]) w' ∧ w' 0 = 5.
Proof.
  destruct (nvm_roundtrip 8 [1; 2] (λ _, 5) ltac:(lia) ltac:(vm_compute; discriminate) ltac:(repeat constructor; lia)) as (w' & _ & E & H).
  exists w'. split; [exact E|]. apply H. unfold nvm_base, PLATFORM_NVM_BASE. cbn. lia.
Defined.

(** * Waiting *)

(** A clock that goes on between two looks at it. *)
Record clock : Type := mk_clock { now : Z; frequency : Z; tick : Z → Z }.
#[export] Instance clock_machine : Machine clock := {
  dev_read _ w a := (0, w);
  dev_write _ w a v := w;
  sys_read w r := match r with
                  | CNTFRQ_EL0 => (frequency w, w)
                  | CNTVCT_EL0 => (now w, mk_clock (now w + tick w (now w)) (frequency w) (tick w))
                  | _ => (0, w)
                  end;
  sys_write w r v := w
}.

Section Wait.
Variables (tmax t1 ticks : Z) (tk : Z → Z).
Hypothesis Htick : ∀ t, 1 ≤ tk t ≤ tmax.
Hypothesis Hsmall : 0 ≤ t1 ∧ 0 ≤ ticks ∧ t1 + ticks + tmax < 2 ^ 64.

Lemma elapsed_loop_run fr fuel t2 n : t1 ≤ t2 → t2 < n ≤ t2 + tmax → t2 - t1 < ticks + tmax → (0 < fuel)%nat → ticks - (t2 - t1) < Z.of_nat fuel →
  run_to (elapsed_loop fuel ticks t1 t2) (mk_clock n fr tk) (λ t _, t1 ≤ t ∧ ticks ≤ t - t1 < ticks + tmax).
Proof.
  revert t2 n. induction fuel as [|fuel IH]; intros t2 n H1 H2 H3 H4 Hf; cbn [elapsed_loop].
  - lia.
  - assert (u64 (t2 - t1) = t2 - t1) as -> by (unfold u64; apply Z.mod_small; lia).
    destruct (Z.ltb_spec (t2 - t1) ticks).
    + eapply run_to_step; [reflexivity|]. cbn [now tick frequency]. assert (u64 n = n) as -> by (unfold u64; apply Z.mod_small; lia).
      pose proof (Htick n). apply IH; lia.
    + apply run_to_ret. lia.
Qed.
End Wait.

(** C21. Waiting ends on a clock that goes on, after at least the ticks of the time asked for
    and at most one look more, and returns the time that has passed; when a millisecond is
    a whole number of ticks it is no less than was asked for. *)
Theorem sleep_ends ms tmax fuel w :
  (∀ t, 1 ≤ tick w t ≤ tmax) → 0 ≤ ms → 0 < frequency w < 2 ^ 64 → ms * frequency w < 2 ^ 64 → 0 ≤ now w →
  let ticks := ms * frequency w / 1000 in
  now w + ticks + tmax < 2 ^ 64 → (ticks + tmax) * 1000 < 2 ^ 64 → ticks < Z.of_nat fuel →
  run_to (val_sleep_elapsed_time fuel ms) w (λ r _,
    (∃ passed, ticks ≤ passed < ticks + tmax ∧ r = passed * 1000 / frequency w) ∧ ((1000 | frequency w) → ms ≤ r)).
Proof.
  intros Ht Hms Hf Hm Hn ticks H1 H2 Hfuel. unfold val_sleep_elapsed_time.
  assert (u64 (frequency w) = frequency w) as Ef by (unfold u64; apply Z.mod_small; lia).
  assert (0 ≤ ticks) as H0 by (apply Z.div_pos; lia). pose proof (Ht (now w)).
  eapply run_to_step; [reflexivity|]. eapply run_to_step; [reflexivity|]. cbn [frequency now tick] in *. rewrite Ef.
  assert (u64 (now w) = now w) as -> by (unfold u64; apply Z.mod_small; lia).
  assert (u64 (ms * frequency w) / 1000 = ticks) as -> by (unfold u64; rewrite Z.mod_small by lia; done).
  eapply run_to_bind; [apply (elapsed_loop_run tmax); [done|lia..]|]. intros t w1 [H3 H4].
  rewrite (proj2 (Z.eqb_neq (frequency w) 0)) by lia. apply run_to_ret.
  assert (u64 (t - now w) = t - now w) as -> by (unfold u64; apply Z.mod_small; lia).
  assert (u64 ((t - now w) * 1000) = (t - now w) * 1000) as -> by (unfold u64; apply Z.mod_small; lia).
  split; [by exists (t - now w)|]. intros [q Hq]. apply Z.div_le_lower_bound; [lia|].
  assert (ticks = ms * q) as Eq by (unfold ticks; rewrite Hq, Z.mul_assoc; by apply Z.div_mul). nia.
Qed.
Lemma sleep_ends_witness :
  run_to (val_sleep_elapsed_time 100 3) (mk_clock 7 10000 (λ _, 4)) (λ r _, 3 ≤ r).
Proof.
  eapply run_to_mono; [apply (sleep_ends 3 4 100 (mk_clock 7 10000 (λ _, 4))); first [cbn; lia|by vm_compute]|].
  intros r w' [_ H]. apply H. exists 10. reflexivity.
Defined.
