(* ===== verification/Xlat.v ===== *)
(** The translation tables of the images (tools/lib/xlat_tables_v2, val_mmu.c): the list
    of memory regions of a context, the tables written from it, the walk of them, and the
    change of attributes.

    A context is two records: [xlat_cfg], which is set when the context is made, and the
    state [xlat], with the list of regions, the memory that holds the tables, the counters
    of regions per table and the registers of the MMU.  The memory maps the address of a
    64-bit word to its value; reading or writing a word outside it is a [BadDeref].
    [tlb_log] is not in the program: it records the addresses whose cached translations
    were invalidated.  PLAT_XLAT_TABLES_DYNAMIC is defined by the build, ENABLE_BTI is
    not; cleaning the data cache has no effect on this state and is left out.  A failed
    assertion ends in [pal_terminate_simulation] ([Panic]). *)
From S2P Require Import Prelude Defs.

(** * Constants (xlat_tables_defs.h, xlat_tables_v2.h, xlat_tables_aarch64.h, arch.h) *)

Definition INVALID_DESC : Z := 0.
Definition BLOCK_DESC : Z := 1.
Definition TABLE_DESC : Z := 3.
Definition PAGE_DESC : Z := 3.
Definition DESC_MASK : Z := 3.
Definition TABLE_ADDR_MASK : Z := 0x0000FFFFFFFFF000.
Definition PAGE_SIZE_4KB : Z := 4096.
Definition PAGE_SIZE_16KB : Z := 16384.
Definition PAGE_SIZE_64KB : Z := 65536.
Definition PAGE_SIZE_SHIFT : Z := 12.
Definition PAGE_SIZE_MASK : Z := PAGE_SIZE - 1.
Definition IS_PAGE_ALIGNED (addr : Z) : bool := Z.land addr PAGE_SIZE_MASK =? 0.
Definition XLAT_TABLE_SIZE : Z := Z.shiftl 1 PAGE_SIZE_SHIFT.
Definition XLAT_TABLE_LEVEL_MAX : Z := 3.
Definition XLAT_TABLE_ENTRIES_SHIFT : Z := 9.
Definition XLAT_TABLE_ENTRIES : Z := Z.shiftl 1 XLAT_TABLE_ENTRIES_SHIFT.
Definition XLAT_ADDR_SHIFT (level : Z) : Z :=
  PAGE_SIZE_SHIFT + (XLAT_TABLE_LEVEL_MAX - level) * XLAT_TABLE_ENTRIES_SHIFT.
Definition XLAT_BLOCK_SIZE (level : Z) : Z := Z.shiftl 1 (XLAT_ADDR_SHIFT level).
Definition XLAT_BLOCK_MASK (level : Z) : Z := XLAT_BLOCK_SIZE level - 1.
Definition XLAT_TABLE_IDX (virtual_addr level : Z) : Z :=
  Z.land (Z.shiftr virtual_addr (XLAT_ADDR_SHIFT level)) 0x1FF.
Definition MIN_LVL_BLOCK_DESC : Z := 1.
Definition L0_XLAT_ADDRESS_SHIFT : Z := 39.
Definition L1_XLAT_ADDRESS_SHIFT : Z := 30.
Definition L2_XLAT_ADDRESS_SHIFT : Z := 21.
Definition GET_XLAT_TABLE_LEVEL_BASE (size : Z) : Z :=
  if Z.shiftl 1 L0_XLAT_ADDRESS_SHIFT <? size then 0
  else if Z.shiftl 1 L1_XLAT_ADDRESS_SHIFT <? size then 1
  else if Z.shiftl 1 L2_XLAT_ADDRESS_SHIFT <? size then 2 else 3.
Definition GET_NUM_BASE_LEVEL_ENTRIES (size : Z) : Z :=
  Z.shiftr size (XLAT_ADDR_SHIFT (GET_XLAT_TABLE_LEVEL_BASE size)).
Definition REGION_DEFAULT_GRANULARITY : Z := XLAT_BLOCK_SIZE MIN_LVL_BLOCK_DESC.

Definition XN : Z := Z.shiftl 1 2.
Definition UXN : Z := Z.shiftl 1 2.
Definition PXN : Z := Z.shiftl 1 1.
Definition UPPER_ATTRS (x : Z) : Z := Z.shiftl (Z.land x 7) 52.
Definition LOWER_ATTRS (x : Z) : Z := Z.shiftl (Z.land x 0xfff) 2.
Definition ACCESS_FLAG : Z := Z.shiftl 1 8.
Definition NSH : Z := Z.shiftl 0 6.
Definition OSH : Z := Z.shiftl 2 6.
Definition ISH : Z := Z.shiftl 3 6.
Definition NS : Z := Z.shiftl 1 3.
Definition EL3_S1_NSE : Z := Z.shiftl 1 9.
Definition AP2_SHIFT : Z := 7.
Definition AP2_RW : Z := 0.
Definition AP1_SHIFT : Z := 6.
Definition AP1_ACCESS_UNPRIVILEGED : Z := 1.
Definition AP_RO : Z := Z.shiftl 1 5.
Definition AP_RW : Z := Z.shiftl 0 5.
Definition AP_ACCESS_UNPRIVILEGED : Z := Z.shiftl 1 4.
Definition AP_NO_ACCESS_UNPRIVILEGED : Z := Z.shiftl 0 4.
Definition AP_ONE_VA_RANGE_RES1 : Z := Z.shiftl 1 4.
Definition ATTR_NON_CACHEABLE_INDEX : Z := 2.
Definition ATTR_DEV_INDEX : Z := 1.
Definition ATTR_IWBWA_OWBWA_NTR_INDEX : Z := 0.
Definition ATTR_INDEX_SHIFT : Z := 2.
Definition ATTR_INDEX_MASK : Z := 3.
Definition NS_SHIFT : Z := 5.
Definition ACCESS_FLAG_SHIFT : Z := 10.

Definition MT_TYPE_MASK : Z := 7.
Definition MT_TYPE (attr : Z) : Z := Z.land attr MT_TYPE_MASK.
Definition MT_PAS_MASK : Z := Z.shiftl 3 4.
Definition MT_PAS (attr : Z) : Z := Z.land attr MT_PAS_MASK.
Definition MT_SHAREABILITY_MASK : Z := Z.shiftl 3 8.
Definition MT_SHAREABILITY (attr : Z) : Z := Z.land attr MT_SHAREABILITY_MASK.
Definition MT_DEVICE : Z := 0.
Definition MT_NON_CACHEABLE : Z := 1.
Definition MT_MEMORY : Z := 2.
Definition MT_RO : Z := Z.shiftl 0 3.
Definition MT_RW : Z := Z.shiftl 1 3.
Definition MT_SECURE : Z := Z.shiftl 0 4.
Definition MT_NS : Z := Z.shiftl 1 4.
Definition MT_ROOT : Z := Z.shiftl 2 4.
Definition MT_REALM : Z := Z.shiftl 3 4.
Definition MT_EXECUTE : Z := Z.shiftl 0 6.
Definition MT_EXECUTE_NEVER : Z := Z.shiftl 1 6.
Definition MT_USER : Z := Z.shiftl 1 7.
Definition MT_AF_CLEAR : Z := Z.shiftl 1 10.
Definition MT_SHAREABILITY_OSH : Z := Z.shiftl 2 8.
Definition MT_SHAREABILITY_NSH : Z := Z.shiftl 3 8.
Definition MT_CODE : Z := Z.lor MT_MEMORY (Z.lor MT_RO MT_EXECUTE).
Definition MT_RO_DATA : Z := Z.lor MT_MEMORY (Z.lor MT_RO MT_EXECUTE_NEVER).
Definition MT_RW_DATA : Z := Z.lor MT_MEMORY (Z.lor MT_RW MT_EXECUTE_NEVER).
Definition MT_DEVICE_RW : Z := Z.lor MT_DEVICE MT_RW.
Definition MT_DYNAMIC : Z := Z.shiftl 1 31.

Definition EL1_EL0_REGIME : Z := 1.
Definition EL2_REGIME : Z := 2.
Definition EL3_REGIME : Z := 3.

(** errno.h of the C library. *)
Definition EPERM : Z := 1.
Definition ENOMEM : Z := 12.
Definition EINVAL : Z := 22.
Definition ERANGE : Z := 34.

Definition IS_POWER_OF_TWO (x : Z) : bool := Z.land x (u64 (x - 1)) =? 0.
Definition round_up (value boundary : Z) : Z := u64 (Z.lor (u64 (value - 1)) (u64 (boundary - 1)) + 1).

(** * State *)

Record mmap_region_t : Type := mk_region {
  mm_base_pa : Z;
  mm_base_va : Z;
  mm_size : Z;
  mm_attr : Z;
  mm_granularity : Z
}.

#[export] Instance mmap_region_eq_dec : EqDecision mmap_region_t.
Proof. solve_decision. Defined.

Definition region_zero : mmap_region_t := mk_region 0 0 0 0 0.

(** The members of [struct xlat_ctx] that are set when the context is made. *)
Record xlat_cfg : Type := mk_cfg {
  pa_max_address : Z;
  va_max_address : Z;
  mmap_num : Z;
  tables : Z;
  tables_num : Z;
  base_table : Z;
  base_table_entries : Z;
  base_level : Z;
  xlat_regime : Z
}.

(** System registers of the MMU, for each exception level. *)
Inductive mmu_reg : Type := SCTLR | TTBR0 | TCR | MAIR.

#[export] Instance mmu_reg_eq_dec : EqDecision mmu_reg.
Proof. solve_decision. Defined.

(** The other members, the memory of the tables and the registers. *)
Record xlat : Type := mk_xlat {
  mmap : list mmap_region_t;
  tables_mapped_regions : list Z;
  max_pa : Z;
  max_va : Z;
  initialized : bool;
  t_mem : gmap Z Z;
  mmu_regs : mmu_reg → Z → Z;
  tlb_log : list Z
}.

Definition set_mmap (l : list mmap_region_t) (s : xlat) : xlat :=
  mk_xlat l (tables_mapped_regions s) (max_pa s) (max_va s) (initialized s) (t_mem s) (mmu_regs s) (tlb_log s).
Definition set_counts (l : list Z) (s : xlat) : xlat :=
  mk_xlat (mmap s) l (max_pa s) (max_va s) (initialized s) (t_mem s) (mmu_regs s) (tlb_log s).
Definition set_max (pa va : Z) (s : xlat) : xlat :=
  mk_xlat (mmap s) (tables_mapped_regions s) pa va (initialized s) (t_mem s) (mmu_regs s) (tlb_log s).
Definition set_initialized (s : xlat) : xlat :=
  mk_xlat (mmap s) (tables_mapped_regions s) (max_pa s) (max_va s) true (t_mem s) (mmu_regs s) (tlb_log s).
Definition set_word (a v : Z) (s : xlat) : xlat :=
  mk_xlat (mmap s) (tables_mapped_regions s) (max_pa s) (max_va s) (initialized s) (<[a := v]> (t_mem s))
    (mmu_regs s) (tlb_log s).
Definition set_reg (r : mmu_reg) (el v : Z) (s : xlat) : xlat :=
  mk_xlat (mmap s) (tables_mapped_regions s) (max_pa s) (max_va s) (initialized s) (t_mem s)
    (λ r' el', if decide (r' = r ∧ el' = el) then v else mmu_regs s r' el') (tlb_log s).
Definition log_tlbi (va : Z) (s : xlat) : xlat :=
  mk_xlat (mmap s) (tables_mapped_regions s) (max_pa s) (max_va s) (initialized s) (t_mem s) (mmu_regs s)
    (tlb_log s ++ [va]).

(** Registers that identify the machine. *)
Class XlatArch : Type := {
  CurrentEl : Z;
  id_aa64mmfr0_el1 : Z;
  id_aa64mmfr2_el1 : Z
}.

Definition xassert (b : bool) : M xlat unit := if b then ret tt else fail Panic.

Definition load_word (a : Z) : M xlat Z := λ s,
  match t_mem s !! a with Some v => Ok v s | None => Fault BadDeref end.
Definition store_word (a v : Z) : M xlat unit := λ s,
  match t_mem s !! a with Some _ => Ok tt (set_word a v s) | None => Fault BadDeref end.

(** The address of entry [i] of a table. *)
Definition entry_at (table_base i : Z) : Z := table_base + 8 * i.

(** * Architecture (xlat_tables_arch.c) *)

Section Xlat.
Context `{XlatArch}.

Definition xlat_arch_current_el : M xlat Z :=
  let el := Z.land (Z.shiftr CurrentEl 2) 3 in
  xassert (0 <? el) ;; ret el.

Definition SCTLR_M_BIT : Z := Z.shiftl 1 0.
Definition ID_AA64MMFR0_EL1_PARANGE_MASK : Z := 0xf.

(** A field of four bits of an identification register. *)
Definition id_field (reg shift : Z) : Z := Z.land (Z.shiftr reg shift) 0xf.
Definition read_id_aa64mmfr0_el0_tgran4_field : Z := id_field id_aa64mmfr0_el1 28.
Definition read_id_aa64mmfr0_el0_tgran16_field : Z := id_field id_aa64mmfr0_el1 20.
Definition read_id_aa64mmfr0_el0_tgran64_field : Z := id_field id_aa64mmfr0_el1 24.
Definition is_armv8_4_ttst_present : bool := id_field id_aa64mmfr2_el1 28 =? 1.
Definition is_armv8_2_ttcnp_present : bool := id_field id_aa64mmfr2_el1 0 =? 1.

Definition xlat_arch_is_granule_size_supported (size : Z) : bool :=
  if size =? PAGE_SIZE_4KB then read_id_aa64mmfr0_el0_tgran4_field <? 8
  else if size =? PAGE_SIZE_16KB then 1 <=? read_id_aa64mmfr0_el0_tgran16_field
  else if size =? PAGE_SIZE_64KB then read_id_aa64mmfr0_el0_tgran64_field <? 8
  else false.

Definition xlat_arch_get_max_supported_granule_size : M xlat Z :=
  if xlat_arch_is_granule_size_supported PAGE_SIZE_64KB then ret PAGE_SIZE_64KB
  else if xlat_arch_is_granule_size_supported PAGE_SIZE_16KB then ret PAGE_SIZE_16KB
  else xassert (xlat_arch_is_granule_size_supported PAGE_SIZE_4KB) ;; ret PAGE_SIZE_4KB.

Definition xlat_arch_get_pas (attr : Z) : Z :=
  let pas := MT_PAS attr in
  if pas =? MT_REALM then LOWER_ATTRS (Z.lor EL3_S1_NSE NS)
  else if pas =? MT_ROOT then LOWER_ATTRS EL3_S1_NSE
  else if pas =? MT_NS then LOWER_ATTRS NS
  else 0.

Definition tcr_physical_addr_size_bits (max_addr : Z) : M xlat Z :=
  xassert (Z.land max_addr 0xFFFF000000000000 =? 0) ;;
  ret (if truthy (Z.land max_addr 0x0000F00000000000) then 5
       else if truthy (Z.land max_addr 0x00000C0000000000) then 4
       else if truthy (Z.land max_addr 0x0000030000000000) then 3
       else if truthy (Z.land max_addr 0x000000F000000000) then 2
       else if truthy (Z.land max_addr 0x0000000F00000000) then 1
       else 0).

Definition pa_range_bits_arr : list Z := [32; 36; 40; 42; 44; 48; 52].

Definition xlat_arch_get_max_supported_pa : M xlat Z :=
  let pa_range := Z.land id_aa64mmfr0_el1 ID_AA64MMFR0_EL1_PARANGE_MASK in
  match pa_range_bits_arr !! Z.to_nat pa_range with
  | Some bits => ret (Z.shiftl 1 bits - 1)
  | None => fail Panic
  end.

Definition MIN_VIRT_ADDR_SPACE_SIZE : Z := Z.shiftl 1 (64 - 39).
Definition MIN_VIRT_ADDR_SPACE_SIZE_TTST : Z := Z.shiftl 1 (64 - 48).
Definition MAX_VIRT_ADDR_SPACE_SIZE : Z := Z.shiftl 1 (64 - 16).

Definition xlat_get_min_virt_addr_space_size : Z :=
  if is_armv8_4_ttst_present then MIN_VIRT_ADDR_SPACE_SIZE_TTST else MIN_VIRT_ADDR_SPACE_SIZE.

Definition read_mmu_reg (r : mmu_reg) (el : Z) : M xlat Z := gets (λ s, mmu_regs s r el).

Definition is_mmu_enabled_ctx (ctx : xlat_cfg) : M xlat bool :=
  let enabled (el : Z) :=
    let* cur := xlat_arch_current_el in
    xassert (el <=? cur) ;;
    let* v := read_mmu_reg SCTLR el in
    ret (truthy (Z.land v SCTLR_M_BIT)) in
  if xlat_regime ctx =? EL1_EL0_REGIME then enabled 1
  else if xlat_regime ctx =? EL2_REGIME then enabled 2
  else xassert (xlat_regime ctx =? EL3_REGIME) ;; enabled 3.

Definition xlat_arch_regime_get_xn_desc (regime : Z) : M xlat Z :=
  if regime =? EL1_EL0_REGIME then ret (Z.lor (UPPER_ATTRS UXN) (UPPER_ATTRS PXN))
  else xassert ((regime =? EL2_REGIME) || (regime =? EL3_REGIME)) ;; ret (UPPER_ATTRS XN).

Definition xlat_arch_tlbi_va (va regime : Z) : M xlat unit :=
  let inval (el : Z) :=
    let* cur := xlat_arch_current_el in
    xassert (el <=? cur) ;;
    modify (log_tlbi va) in
  if regime =? EL1_EL0_REGIME then inval 1
  else if regime =? EL2_REGIME then inval 2
  else xassert (regime =? EL3_REGIME) ;; inval 3.

(** The parameters MAIR, TCR and TTBR0.  [Z.log2] is [__builtin_ctzll] of a power of two. *)
Definition TCR_EL1_IPS_SHIFT : Z := 32.
Definition TCR_EL2_PS_SHIFT : Z := 16.
Definition TCR_EL3_PS_SHIFT : Z := 16.
Definition TCR_EL2_RES1 : Z := Z.lor (Z.shiftl 1 31) (Z.shiftl 1 23).
Definition TCR_EL3_RES1 : Z := Z.lor (Z.shiftl 1 31) (Z.shiftl 1 23).
Definition TCR_EPD1_BIT : Z := Z.shiftl 1 23.
Definition TCR_SH_INNER_SHAREABLE : Z := Z.shiftl 3 12.
Definition TCR_RGN_OUTER_WBA : Z := Z.shiftl 1 10.
Definition TCR_RGN_INNER_WBA : Z := Z.shiftl 1 8.
Definition XLAT_TABLE_NC : Z := Z.shiftl 1 1.
Definition TTBR_CNP_BIT : Z := 1.
Definition MAIR_ATTR_SET (attr index : Z) : Z := Z.shiftl attr (Z.shiftl index 3).
Definition MAIR_DEV_nGnRE : Z := 4.
Definition MAIR_NORM_NC : Z := 4.
Definition MAIR_NORM_WB_NTR_RWA : Z := 0xf.
Definition MAKE_MAIR_NORMAL_MEMORY (inner outer : Z) : Z := Z.lor inner (Z.shiftl outer 4).

Definition setup_mmu_cfg (flags base_table max_pa max_va regime : Z) : M xlat (Z * Z * Z) :=
  let mair := Z.lor (MAIR_ATTR_SET MAIR_DEV_nGnRE ATTR_DEV_INDEX)
    (Z.lor (MAIR_ATTR_SET (MAKE_MAIR_NORMAL_MEMORY MAIR_NORM_WB_NTR_RWA MAIR_NORM_WB_NTR_RWA)
              ATTR_IWBWA_OWBWA_NTR_INDEX)
           (MAIR_ATTR_SET (MAKE_MAIR_NORMAL_MEMORY MAIR_NORM_NC MAIR_NORM_NC) ATTR_NON_CACHEABLE_INDEX)) in
  xassert (max_va <? 2 ^ 64 - 1) ;;
  let space := u64 (max_va + 1) in
  xassert (xlat_get_min_virt_addr_space_size <=? space) ;;
  xassert (space <=? MAX_VIRT_ADDR_SPACE_SIZE) ;;
  xassert (IS_POWER_OF_TWO space) ;;
  let t0sz := 64 - Z.log2 space in
  let tcr := if truthy (Z.land flags XLAT_TABLE_NC) then t0sz
    else Z.lor t0sz (Z.lor TCR_SH_INNER_SHAREABLE (Z.lor TCR_RGN_OUTER_WBA TCR_RGN_INNER_WBA)) in
  let* tcr_ps_bits := tcr_physical_addr_size_bits max_pa in
  let* tcr :=
    if regime =? EL1_EL0_REGIME then
      ret (Z.lor tcr (Z.lor TCR_EPD1_BIT (Z.shiftl tcr_ps_bits TCR_EL1_IPS_SHIFT)))
    else if regime =? EL2_REGIME then
      ret (Z.lor tcr (Z.lor TCR_EL2_RES1 (Z.shiftl tcr_ps_bits TCR_EL2_PS_SHIFT)))
    else
      xassert (regime =? EL3_REGIME) ;;
      ret (Z.lor tcr (Z.lor TCR_EL3_RES1 (Z.shiftl tcr_ps_bits TCR_EL3_PS_SHIFT))) in
  ret (mair, tcr, if is_armv8_2_ttcnp_present then Z.lor base_table TTBR_CNP_BIT else base_table).

(** * Tables (xlat_tables_core.c) *)

Section Ctx.
Context (ctx : xlat_cfg).

(** The address of [ctx->tables[i]]. *)
Definition table_at (i : Z) : Z := tables ctx + XLAT_TABLE_SIZE * i.

(** The first [i], [i0] or behind, with [n] candidates. *)
Fixpoint find_index (n : nat) (i0 : Z) (p : Z → bool) : option Z :=
  match n with
  | O => None
  | S n => if p i0 then Some i0 else find_index n (i0 + 1) p
  end.

Definition xlat_table_get_index (table : Z) : M xlat Z :=
  match find_index (Z.to_nat (tables_num ctx)) 0 (λ i, table_at i =? table) with
  | Some i => ret i
  | None => fail Panic
  end.

Definition xlat_table_get_empty : M xlat (option Z) := gets (λ s,
  table_at <$> find_index (Z.to_nat (tables_num ctx)) 0
    (λ i, default 0 (tables_mapped_regions s !! Z.to_nat i) =? 0)).

Definition count_at (idx : Z) : M xlat Z := λ s,
  match tables_mapped_regions s !! Z.to_nat idx with Some c => Ok c s | None => Fault OutOfBounds end.

Definition xlat_table_inc_regions_count (table : Z) : M xlat unit :=
  let* idx := xlat_table_get_index table in
  let* c := count_at idx in
  modify (λ s, set_counts (<[Z.to_nat idx := c + 1]> (tables_mapped_regions s)) s).
Definition xlat_table_dec_regions_count (table : Z) : M xlat unit :=
  let* idx := xlat_table_get_index table in
  let* c := count_at idx in
  modify (λ s, set_counts (<[Z.to_nat idx := c - 1]> (tables_mapped_regions s)) s).
Definition xlat_table_is_empty (table : Z) : M xlat bool :=
  let* idx := xlat_table_get_index table in
  let* c := count_at idx in
  ret (c =? 0).

Definition xlat_desc (attr addr_pa level : Z) : M xlat Z :=
  xassert (Z.land addr_pa (XLAT_BLOCK_MASK level) =? 0) ;;
  let desc := Z.lor addr_pa (if level =? XLAT_TABLE_LEVEL_MAX then PAGE_DESC else BLOCK_DESC) in
  let desc := if Z.land attr MT_AF_CLEAR =? 0 then Z.lor desc (LOWER_ATTRS ACCESS_FLAG) else desc in
  let desc := Z.lor desc (xlat_arch_get_pas attr) in
  let desc := Z.lor desc (if truthy (Z.land attr MT_RW) then LOWER_ATTRS AP_RW else LOWER_ATTRS AP_RO) in
  let* desc :=
    if xlat_regime ctx =? EL1_EL0_REGIME then
      ret (Z.lor desc (if truthy (Z.land attr MT_USER) then LOWER_ATTRS AP_ACCESS_UNPRIVILEGED
                       else LOWER_ATTRS AP_NO_ACCESS_UNPRIVILEGED))
    else
      xassert ((xlat_regime ctx =? EL2_REGIME) || (xlat_regime ctx =? EL3_REGIME)) ;;
      ret (Z.lor desc (LOWER_ATTRS AP_ONE_VA_RANGE_RES1)) in
  let mem_type := MT_TYPE attr in
  if mem_type =? MT_DEVICE then
    let desc := Z.lor desc (LOWER_ATTRS (Z.lor ATTR_DEV_INDEX OSH)) in
    let* xn := xlat_arch_regime_get_xn_desc (xlat_regime ctx) in
    ret (Z.lor desc xn)
  else
    let* desc :=
      if truthy (Z.land attr MT_RW) || truthy (Z.land attr MT_EXECUTE_NEVER) then
        let* xn := xlat_arch_regime_get_xn_desc (xlat_regime ctx) in ret (Z.lor desc xn)
      else ret desc in
    let shareability_type := MT_SHAREABILITY attr in
    if mem_type =? MT_MEMORY then
      let desc := Z.lor desc (LOWER_ATTRS ATTR_IWBWA_OWBWA_NTR_INDEX) in
      ret (Z.lor desc
        (if shareability_type =? MT_SHAREABILITY_NSH then LOWER_ATTRS NSH
         else if shareability_type =? MT_SHAREABILITY_OSH then LOWER_ATTRS OSH
         else LOWER_ATTRS ISH))
    else
      xassert (mem_type =? MT_NON_CACHEABLE) ;;
      ret (Z.lor desc (LOWER_ATTRS (Z.lor ATTR_NON_CACHEABLE_INDEX OSH))).

Inductive action_t : Type :=
  | ACTION_NONE
  | ACTION_WRITE_BLOCK_ENTRY
  | ACTION_CREATE_NEW_TABLE
  | ACTION_RECURSE_INTO_TABLE.

Definition xlat_tables_find_start_va (mm : mmap_region_t) (table_base_va level : Z) : Z :=
  if table_base_va <? mm_base_va mm then Z.land (mm_base_va mm) (u64 (Z.lnot (XLAT_BLOCK_MASK level)))
  else table_base_va.

Definition xlat_tables_va_to_index (table_base_va va level : Z) : Z :=
  u32 (Z.shiftr (u64 (va - table_base_va)) (XLAT_ADDR_SHIFT level)).

Definition end_va_of (mm : mmap_region_t) : Z := u64 (mm_base_va mm + mm_size mm - 1).
Definition end_pa_of (mm : mmap_region_t) : Z := u64 (mm_base_pa mm + mm_size mm - 1).

Definition xlat_tables_unmap_region_action (mm : mmap_region_t)
    (table_idx_va table_idx_end_va level desc_type : Z) : M xlat action_t :=
  let region_end_va := end_va_of mm in
  if (mm_base_va mm <=? table_idx_va) && (table_idx_end_va <=? region_end_va) then
    if level =? 3 then
      xassert (desc_type =? PAGE_DESC) ;; ret ACTION_WRITE_BLOCK_ENTRY
    else if desc_type =? TABLE_DESC then ret ACTION_RECURSE_INTO_TABLE
    else xassert (desc_type =? BLOCK_DESC) ;; ret ACTION_WRITE_BLOCK_ENTRY
  else if (mm_base_va mm <=? table_idx_end_va) || (table_idx_va <=? region_end_va) then
    xassert (level <? 3) ;;
    xassert (desc_type =? TABLE_DESC) ;;
    ret ACTION_RECURSE_INTO_TABLE
  else ret ACTION_NONE.

(** The loops over the entries of a table take the function for the next level. *)
Fixpoint unmap_entries (rec : Z → Z → M xlat unit) (n : nat) (mm : mmap_region_t)
    (table_base table_entries level table_idx table_idx_va : Z) : M xlat unit :=
  match n with
  | O => out_of_fuel
  | S n =>
      if table_entries <=? table_idx then ret tt
      else
        let table_idx_end_va := u64 (table_idx_va + XLAT_BLOCK_SIZE level - 1) in
        let* desc := load_word (entry_at table_base table_idx) in
        let* action := xlat_tables_unmap_region_action mm table_idx_va table_idx_end_va level (Z.land desc DESC_MASK) in
        match action with
        | ACTION_WRITE_BLOCK_ENTRY =>
            store_word (entry_at table_base table_idx) INVALID_DESC ;;
            xlat_arch_tlbi_va table_idx_va (xlat_regime ctx)
        | ACTION_RECURSE_INTO_TABLE =>
            let subtable := Z.land desc TABLE_ADDR_MASK in
            rec table_idx_va subtable ;;
            let* empty := xlat_table_is_empty subtable in
            if empty then
              store_word (entry_at table_base table_idx) INVALID_DESC ;;
              xlat_arch_tlbi_va table_idx_va (xlat_regime ctx)
            else ret tt
        | ACTION_NONE => ret tt
        | ACTION_CREATE_NEW_TABLE => fail Panic
        end ;;
        let table_idx_va := u64 (table_idx_va + XLAT_BLOCK_SIZE level) in
        if end_va_of mm <=? table_idx_va then ret tt
        else unmap_entries rec n mm table_base table_entries level (table_idx + 1) table_idx_va
  end.

(** [depth] is one more than the number of levels below. *)
Fixpoint xlat_tables_unmap_region (depth : nat) (mm : mmap_region_t)
    (table_base_va table_base table_entries level : Z) : M xlat unit :=
  match depth with
  | O => out_of_fuel
  | S depth =>
      xassert ((base_level ctx <=? level) && (level <=? XLAT_TABLE_LEVEL_MAX)) ;;
      let table_idx_va := xlat_tables_find_start_va mm table_base_va level in
      let table_idx := xlat_tables_va_to_index table_base_va table_idx_va level in
      unmap_entries (λ va subtable, xlat_tables_unmap_region depth mm va subtable XLAT_TABLE_ENTRIES (level + 1))
        (S (Z.to_nat table_entries)) mm table_base table_entries level table_idx table_idx_va ;;
      if base_level ctx <? level then xlat_table_dec_regions_count table_base else ret tt
  end.

Definition xlat_tables_map_region_action (mm : mmap_region_t)
    (desc_type dest_pa table_entry_base_va level : Z) : M xlat action_t :=
  let mm_end_va := end_va_of mm in
  let table_entry_end_va := u64 (table_entry_base_va + XLAT_BLOCK_SIZE level - 1) in
  if (mm_base_va mm <=? table_entry_base_va) && (table_entry_end_va <=? mm_end_va) then
    if level =? 3 then
      if desc_type =? PAGE_DESC then ret ACTION_NONE
      else xassert (desc_type =? INVALID_DESC) ;; ret ACTION_WRITE_BLOCK_ENTRY
    else if desc_type =? TABLE_DESC then ret ACTION_RECURSE_INTO_TABLE
    else if desc_type =? INVALID_DESC then
      if truthy (Z.land dest_pa (XLAT_BLOCK_MASK level)) || (level <? MIN_LVL_BLOCK_DESC)
         || (mm_granularity mm <? XLAT_BLOCK_SIZE level)
      then ret ACTION_CREATE_NEW_TABLE else ret ACTION_WRITE_BLOCK_ENTRY
    else xassert (desc_type =? BLOCK_DESC) ;; ret ACTION_NONE
  else if (mm_base_va mm <=? table_entry_end_va) || (table_entry_base_va <=? mm_end_va) then
    xassert (level <? 3) ;;
    if desc_type =? INVALID_DESC then ret ACTION_CREATE_NEW_TABLE
    else xassert (desc_type =? TABLE_DESC) ;; ret ACTION_RECURSE_INTO_TABLE
  else ret ACTION_NONE.

Fixpoint map_entries (rec : Z → Z → M xlat Z) (n : nat) (mm : mmap_region_t)
    (table_base table_entries level table_idx table_idx_va : Z) : M xlat Z :=
  match n with
  | O => out_of_fuel
  | S n =>
      if table_entries <=? table_idx then ret (u64 (table_idx_va - 1))
      else
        let* desc := load_word (entry_at table_base table_idx) in
        let table_idx_pa := u64 (mm_base_pa mm + table_idx_va - mm_base_va mm) in
        let* action := xlat_tables_map_region_action mm (Z.land desc DESC_MASK) table_idx_pa table_idx_va level in
        let next :=
          let table_idx_va := u64 (table_idx_va + XLAT_BLOCK_SIZE level) in
          if end_va_of mm <=? table_idx_va then ret (u64 (table_idx_va - 1))
          else map_entries rec n mm table_base table_entries level (table_idx + 1) table_idx_va in
        let recurse (subtable : Z) :=
          let* end_va := rec table_idx_va subtable in
          if negb (end_va =? u64 (table_idx_va + XLAT_BLOCK_SIZE level - 1)) then ret end_va else next in
        match action with
        | ACTION_WRITE_BLOCK_ENTRY =>
            let* d := xlat_desc (u32 (mm_attr mm)) table_idx_pa level in
            store_word (entry_at table_base table_idx) d ;;
            next
        | ACTION_CREATE_NEW_TABLE =>
            let* empty := xlat_table_get_empty in
            match empty with
            | None => ret table_idx_va
            | Some subtable =>
                store_word (entry_at table_base table_idx) (Z.lor TABLE_DESC subtable) ;;
                recurse subtable
            end
        | ACTION_RECURSE_INTO_TABLE => recurse (Z.land desc TABLE_ADDR_MASK)
        | ACTION_NONE => next
        end
  end.

Fixpoint xlat_tables_map_region (depth : nat) (mm : mmap_region_t)
    (table_base_va table_base table_entries level : Z) : M xlat Z :=
  match depth with
  | O => out_of_fuel
  | S depth =>
      xassert ((base_level ctx <=? level) && (level <=? XLAT_TABLE_LEVEL_MAX)) ;;
      let table_idx_va := xlat_tables_find_start_va mm table_base_va level in
      let table_idx := xlat_tables_va_to_index table_base_va table_idx_va level in
      (if base_level ctx <? level then xlat_table_inc_regions_count table_base else ret tt) ;;
      map_entries (λ va subtable, xlat_tables_map_region depth mm va subtable XLAT_TABLE_ENTRIES (level + 1))
        (S (Z.to_nat table_entries)) mm table_base table_entries level table_idx table_idx_va
  end.

(** Levels 0 to 3. *)
Definition LEVELS : nat := 4.

(** ** The list of regions *)

Definition mmap_at (i : nat) : M xlat mmap_region_t := λ s,
  match mmap s !! i with Some mm => Ok mm s | None => Fault OutOfBounds end.

Definition fully_overlapped (mm cursor : mmap_region_t) : bool :=
  ((mm_base_va cursor <=? mm_base_va mm) && (end_va_of mm <=? end_va_of cursor))
  || ((mm_base_va mm <=? mm_base_va cursor) && (end_va_of cursor <=? end_va_of mm)).

(** The body of the loop over the regions of the context: the error it returns. *)
Definition overlap_error (mm cursor : mmap_region_t) : option Z :=
  if fully_overlapped mm cursor then
    if truthy (Z.land (mm_attr mm) MT_DYNAMIC) || truthy (Z.land (mm_attr cursor) MT_DYNAMIC) then Some (- EPERM)
    else if negb (u64 (mm_base_va cursor - mm_base_pa cursor) =? u64 (mm_base_va mm - mm_base_pa mm)) then Some (- EPERM)
    else if (mm_base_va mm =? mm_base_va cursor) && (mm_size mm =? mm_size cursor) then Some (- EPERM)
    else None
  else
    let separated_pa := (end_pa_of mm <? mm_base_pa cursor) || (end_pa_of cursor <? mm_base_pa mm) in
    let separated_va := (end_va_of mm <? mm_base_va cursor) || (end_va_of cursor <? mm_base_va mm) in
    if negb separated_va || negb separated_pa then Some (- EPERM) else None.

Fixpoint check_overlaps (mm : mmap_region_t) (l : list mmap_region_t) : M xlat Z :=
  match l with
  | [] => fail OutOfBounds
  | cursor :: l =>
      if mm_size cursor =? 0 then ret 0
      else match overlap_error mm cursor with
           | Some e => ret e
           | None => check_overlaps mm l
           end
  end.

Definition mmap_add_region_check (mm : mmap_region_t) : M xlat Z :=
  let end_pa := end_pa_of mm in
  let end_va := end_va_of mm in
  if negb (IS_PAGE_ALIGNED (mm_base_pa mm)) || negb (IS_PAGE_ALIGNED (mm_base_va mm))
     || negb (IS_PAGE_ALIGNED (mm_size mm)) then ret (- EINVAL)
  else if negb (mm_granularity mm =? XLAT_BLOCK_SIZE 1) && negb (mm_granularity mm =? XLAT_BLOCK_SIZE 2)
     && negb (mm_granularity mm =? XLAT_BLOCK_SIZE 3) then ret (- EINVAL)
  else if (end_pa <? mm_base_pa mm) || (end_va <? mm_base_va mm) then ret (- ERANGE)
  else if va_max_address ctx <? end_va then ret (- ERANGE)
  else if pa_max_address ctx <? end_pa then ret (- ERANGE)
  else
    let* last := mmap_at (Z.to_nat (mmap_num ctx - 1)) in
    if negb (mm_size last =? 0) then ret (- ENOMEM)
    else let* l := gets mmap in check_overlaps mm l.

(** The two loops that look for the place of a region. *)
Fixpoint skip_below (end_va : Z) (l : list mmap_region_t) (i : nat) : M xlat nat :=
  match l with
  | [] => fail OutOfBounds
  | c :: l => if (end_va_of c <? end_va) && negb (mm_size c =? 0) then skip_below end_va l (S i) else ret i
  end.
Fixpoint skip_same_end (end_va size : Z) (l : list mmap_region_t) (i : nat) : M xlat nat :=
  match l with
  | [] => fail OutOfBounds
  | c :: l =>
      if (end_va_of c =? end_va) && negb (mm_size c =? 0) && (mm_size c <? size)
      then skip_same_end end_va size l (S i) else ret i
  end.

Definition find_place (mm : mmap_region_t) : M xlat nat :=
  let* l := gets mmap in
  let* i := skip_below (end_va_of mm) l 0 in
  skip_same_end (end_va_of mm) (mm_size mm) (drop i l) i.

(** [mm_last]: the first empty entry before the end of the array, or the end. *)
Fixpoint find_last (l : list mmap_region_t) (i num : nat) : M xlat nat :=
  match l with
  | [] => fail OutOfBounds
  | c :: l => if negb (mm_size c =? 0) && (i <? num)%nat then find_last l (S i) num else ret i
  end.

(** [memmove (a + 1, a, last - a)] and [memmove (a, a + 1, last - a)] on the elements. *)
Definition move_up (cursor last : nat) (l : list mmap_region_t) : list mmap_region_t :=
  take (S cursor) l ++ take (last - cursor) (drop cursor l) ++ drop (S last) l.
Definition move_down (cursor last : nat) (l : list mmap_region_t) : list mmap_region_t :=
  take cursor l ++ take (last - cursor) (drop (S cursor) l) ++ drop last l.

Definition raise_max (mm : mmap_region_t) : M xlat unit :=
  modify (λ s, set_max (if max_pa s <? end_pa_of mm then end_pa_of mm else max_pa s)
                       (if max_va s <? end_va_of mm then end_va_of mm else max_va s) s).

Definition mmap_add_region_ctx (mm : mmap_region_t) : M xlat unit :=
  if mm_size mm =? 0 then ret tt
  else
    let* st := mmap_add_region_check mm in
    if negb (st =? 0) then fail Panic
    else
      let* cursor := find_place mm in
      let* l := gets mmap in
      let* last := find_last l 0 (Z.to_nat (mmap_num ctx)) in
      let* e := mmap_at last in
      xassert (mm_size e =? 0) ;;
      modify (λ s, set_mmap (move_up cursor last (mmap s)) s) ;;
      let* e := mmap_at (Z.to_nat (mmap_num ctx)) in
      xassert (mm_size e =? 0) ;;
      modify (λ s, set_mmap (<[cursor := mm]> (mmap s)) s) ;;
      raise_max mm.

(** Levels from [level] to 2. *)
Fixpoint align_va_from (n : nat) (level : Z) (mm : mmap_region_t) : mmap_region_t :=
  match n with
  | O => mm
  | S n =>
      if truthy (Z.land (Z.lor (mm_base_pa mm) (mm_size mm)) (XLAT_BLOCK_MASK level)) then align_va_from n (level + 1) mm
      else mk_region (mm_base_pa mm) (round_up (mm_base_va mm) (XLAT_BLOCK_SIZE level)) (mm_size mm) (mm_attr mm)
             (mm_granularity mm)
  end.
Definition mmap_alloc_va_align_ctx (mm : mmap_region_t) : mmap_region_t :=
  align_va_from (Z.to_nat (3 - base_level ctx)) (base_level ctx) mm.

Definition set_base_va (va : Z) (mm : mmap_region_t) : mmap_region_t :=
  mk_region (mm_base_pa mm) va (mm_size mm) (mm_attr mm) (mm_granularity mm).

(** These return the region as they leave it. *)
Definition mmap_add_region_alloc_va_ctx (mm : mmap_region_t) : M xlat mmap_region_t :=
  let* top := gets max_va in
  let mm := set_base_va (u64 (top + 1)) mm in
  xassert (0 <? mm_size mm) ;;
  let mm := mmap_alloc_va_align_ctx mm in
  xassert (top <? mm_base_va mm) ;;
  mmap_add_region_ctx mm ;;
  ret mm.

(** The array ends at the first region without granularity. *)
Fixpoint mmap_add_ctx (l : list mmap_region_t) : M xlat unit :=
  match l with
  | [] => fail OutOfBounds
  | mm :: l => if mm_granularity mm =? 0 then ret tt else mmap_add_region_ctx mm ;; mmap_add_ctx l
  end.

Definition map_base (mm : mmap_region_t) : M xlat Z :=
  xlat_tables_map_region LEVELS mm 0 (base_table ctx) (base_table_entries ctx) (base_level ctx).
Definition unmap_base (mm : mmap_region_t) : M xlat unit :=
  xlat_tables_unmap_region LEVELS mm 0 (base_table ctx) (base_table_entries ctx) (base_level ctx).

Definition mmap_add_dynamic_region_ctx (mm : mmap_region_t) : M xlat (Z * mmap_region_t) :=
  if mm_size mm =? 0 then ret (0, mm)
  else
    let mm := mk_region (mm_base_pa mm) (mm_base_va mm) (mm_size mm) (Z.lor (mm_attr mm) MT_DYNAMIC) (mm_granularity mm) in
    let* st := mmap_add_region_check mm in
    if negb (st =? 0) then ret (st, mm)
    else
      let last := Z.to_nat (mmap_num ctx) in
      let* cursor := find_place mm in
      modify (λ s, set_mmap (move_up cursor last (mmap s)) s) ;;
      let* e := mmap_at last in
      xassert (mm_size e =? 0) ;;
      modify (λ s, set_mmap (<[cursor := mm]> (mmap s)) s) ;;
      let* init := gets initialized in
      let* failed :=
        if init then
          let* end_va := map_base mm in
          if negb (end_va =? end_va_of mm) then
            modify (λ s, set_mmap (move_down cursor last (mmap s)) s) ;;
            if end_va <=? mm_base_va mm then ret true
            else unmap_base (mk_region 0 (mm_base_va mm) (u64 (end_va - mm_base_va mm)) 0 0) ;; ret true
          else ret false
        else ret false in
      if failed then ret (- ENOMEM, mm) else raise_max mm ;; ret (0, mm).

Definition mmap_add_dynamic_region_alloc_va_ctx (mm : mmap_region_t) : M xlat (Z * mmap_region_t) :=
  let* top := gets max_va in
  let mm := set_base_va (u64 (top + 1)) mm in
  if mm_size mm =? 0 then ret (0, mm)
  else
    let mm := mmap_alloc_va_align_ctx mm in
    if mm_base_va mm <? top then ret (- ENOMEM, mm) else mmap_add_dynamic_region_ctx mm.

(** The first region with this base and size, or the first empty entry. *)
Fixpoint find_region (base_va size : Z) (l : list mmap_region_t) (i : nat) : M xlat (nat * mmap_region_t) :=
  match l with
  | [] => fail OutOfBounds
  | c :: l =>
      if negb (mm_size c =? 0) && negb ((mm_base_va c =? base_va) && (mm_size c =? size))
      then find_region base_va size l (S i) else ret (i, c)
  end.

(** The largest value of [f] on the regions before the first empty one. *)
Fixpoint max_of (f : mmap_region_t → Z) (l : list mmap_region_t) (m : Z) : M xlat Z :=
  match l with
  | [] => fail OutOfBounds
  | c :: l => if mm_size c =? 0 then ret m else max_of f l (if m <? f c then f c else m)
  end.

Definition mmap_remove_dynamic_region_ctx (base_va size : Z) : M xlat Z :=
  let last := Z.to_nat (mmap_num ctx) in
  let* e := mmap_at last in
  xassert (mm_size e =? 0) ;;
  let* l := gets mmap in
  let* (i, mm) := find_region base_va size l 0 in
  if mm_size mm =? 0 then ret (- EINVAL)
  else if Z.land (mm_attr mm) MT_DYNAMIC =? 0 then ret (- EPERM)
  else
    let* update_va := gets (λ s, end_va_of mm =? max_va s) in
    let* update_pa := gets (λ s, end_pa_of mm =? max_pa s) in
    let* init := gets initialized in
    (if init then unmap_base mm else ret tt) ;;
    modify (λ s, set_mmap (move_down i last (mmap s)) s) ;;
    let* l := gets mmap in
    (if update_va then let* m := max_of end_va_of l 0 in modify (λ s, set_max (max_pa s) m s) else ret tt) ;;
    (if update_pa then let* m := max_of end_pa_of l 0 in modify (λ s, set_max m (max_va s) s) else ret tt) ;;
    ret 0.

(** ** Initialisation *)

Fixpoint clear_table (n : nat) (table i : Z) : M xlat unit :=
  match n with
  | O => ret tt
  | S n => store_word (entry_at table i) INVALID_DESC ;; clear_table n table (i + 1)
  end.

Definition clear_count (j : Z) : M xlat unit := λ s,
  match tables_mapped_regions s !! Z.to_nat j with
  | Some _ => Ok tt (set_counts (<[Z.to_nat j := 0]> (tables_mapped_regions s)) s)
  | None => Fault OutOfBounds
  end.

Fixpoint clear_tables (n : nat) (j : Z) : M xlat unit :=
  match n with
  | O => ret tt
  | S n => clear_count j ;; clear_table (Z.to_nat XLAT_TABLE_ENTRIES) (table_at j) 0 ;; clear_tables n (j + 1)
  end.

(** Whether all of a region was mapped is tested, but nothing depends on it. *)
Fixpoint map_regions (n i : nat) : M xlat unit :=
  match n with
  | O => out_of_fuel
  | S n =>
      let* mm := mmap_at i in
      if mm_size mm =? 0 then ret tt else map_base mm ;; map_regions n (S i)
  end.

Definition init_xlat_tables_ctx : M xlat unit :=
  xassert ((xlat_regime ctx =? EL3_REGIME) || (xlat_regime ctx =? EL2_REGIME) || (xlat_regime ctx =? EL1_EL0_REGIME)) ;;
  let* enabled := is_mmu_enabled_ctx ctx in
  xassert (negb enabled) ;;
  xassert (xlat_get_min_virt_addr_space_size - 1 <=? va_max_address ctx) ;;
  xassert (va_max_address ctx <=? MAX_VIRT_ADDR_SPACE_SIZE - 1) ;;
  xassert (IS_POWER_OF_TWO (u64 (va_max_address ctx + 1))) ;;
  clear_table (Z.to_nat (base_table_entries ctx)) (base_table ctx) 0 ;;
  clear_tables (Z.to_nat (tables_num ctx)) 0 ;;
  map_regions (S (S (Z.to_nat (mmap_num ctx)))) 0 ;;
  let* max_supported := xlat_arch_get_max_supported_pa in
  xassert (pa_max_address ctx <=? max_supported) ;;
  let* va := gets max_va in
  xassert (va <=? va_max_address ctx) ;;
  let* pa := gets max_pa in
  xassert (pa <=? pa_max_address ctx) ;;
  modify set_initialized.

(** * Lookup and change of attributes (xlat_tables_utils.c) *)

(** The loop over the levels: the address of the descriptor and its level. *)
Fixpoint find_entry_from (n : nat) (virtual_addr table entries level : Z) : M xlat (option (Z * Z)) :=
  match n with
  | O => fail Panic
  | S n =>
      let idx := XLAT_TABLE_IDX virtual_addr level in
      if entries <=? idx then ret None
      else
        let* desc := load_word (entry_at table idx) in
        let desc_type := Z.land desc DESC_MASK in
        if desc_type =? INVALID_DESC then ret None
        else if level =? XLAT_TABLE_LEVEL_MAX then
          xassert (desc_type =? PAGE_DESC) ;; ret (Some (entry_at table idx, level))
        else if desc_type =? BLOCK_DESC then ret (Some (entry_at table idx, level))
        else
          xassert (desc_type =? TABLE_DESC) ;;
          find_entry_from n virtual_addr (Z.land desc TABLE_ADDR_MASK) XLAT_TABLE_ENTRIES (level + 1)
  end.

Definition find_xlat_table_entry (virtual_addr table entries virt_addr_space_size : Z) : M xlat (option (Z * Z)) :=
  let start_level := GET_XLAT_TABLE_LEVEL_BASE virt_addr_space_size in
  find_entry_from (Z.to_nat (XLAT_TABLE_LEVEL_MAX + 1 - start_level)) virtual_addr table entries start_level.

Record mem_attributes : Type := mk_attrs { attributes : Z; table_entry : Z; addr_pa : Z; table_level : Z }.

(** The attributes that a descriptor stands for. *)
Definition attributes_of_desc (desc : Z) : M xlat Z :=
  let attr_index := Z.land (Z.shiftr desc ATTR_INDEX_SHIFT) ATTR_INDEX_MASK in
  let* a :=
    if attr_index =? ATTR_IWBWA_OWBWA_NTR_INDEX then ret MT_MEMORY
    else if attr_index =? ATTR_NON_CACHEABLE_INDEX then ret MT_NON_CACHEABLE
    else xassert (attr_index =? ATTR_DEV_INDEX) ;; ret MT_DEVICE in
  let a := if Z.land (Z.shiftr desc AP2_SHIFT) 1 =? AP2_RW then Z.lor a MT_RW else a in
  let a :=
    if (xlat_regime ctx =? EL1_EL0_REGIME) && (Z.land (Z.shiftr desc AP1_SHIFT) 1 =? AP1_ACCESS_UNPRIVILEGED)
    then Z.lor a MT_USER else a in
  let a := if Z.land (Z.shiftr desc NS_SHIFT) 1 =? 1 then Z.lor a MT_NS else a in
  let* xn_mask := xlat_arch_regime_get_xn_desc (xlat_regime ctx) in
  let* a :=
    if Z.land desc xn_mask =? xn_mask then ret (Z.lor a MT_EXECUTE_NEVER)
    else xassert (Z.land desc xn_mask =? 0) ;; ret a in
  ret (if truthy (Z.land (Z.shiftr desc ACCESS_FLAG_SHIFT) 1) then Z.lor a MT_AF_CLEAR else a).

(** The status and, when it is 0, what is stored through the pointers. *)
Definition xlat_get_mem_attributes_internal (base_va : Z) : M xlat (Z * option mem_attributes) :=
  let* init := gets initialized in
  xassert init ;;
  xassert ((xlat_regime ctx =? EL1_EL0_REGIME) || (xlat_regime ctx =? EL2_REGIME) || (xlat_regime ctx =? EL3_REGIME)) ;;
  let size := u64 (va_max_address ctx + 1) in
  xassert (0 <? size) ;;
  let* found := find_xlat_table_entry base_va (base_table ctx) (base_table_entries ctx) size in
  match found with
  | None => ret (- EINVAL, None)
  | Some (entry, level) =>
      let* desc := load_word entry in
      let* a := attributes_of_desc desc in
      ret (0, Some (mk_attrs a entry (Z.land desc TABLE_ADDR_MASK) level))
  end.

Definition xlat_get_mem_attributes_ctx (base_va : Z) : M xlat (Z * option Z) :=
  let* (st, r) := xlat_get_mem_attributes_internal base_va in ret (st, attributes <$> r).

(** The loop of sanity checks. *)
Fixpoint check_pages (n : nat) (base_va attr : Z) : M xlat Z :=
  match n with
  | O => ret 0
  | S n =>
      let* found := find_xlat_table_entry base_va (base_table ctx) (base_table_entries ctx)
                      (u64 (va_max_address ctx + 1)) in
      match found with
      | None => ret (- EINVAL)
      | Some (entry, level) =>
          let* desc := load_word entry in
          if negb (Z.land desc DESC_MASK =? PAGE_DESC) || negb (level =? XLAT_TABLE_LEVEL_MAX) then ret (- EINVAL)
          else if (Z.land (Z.shiftr desc ATTR_INDEX_SHIFT) ATTR_INDEX_MASK =? ATTR_DEV_INDEX)
                  && (Z.land attr MT_EXECUTE_NEVER =? 0) then ret (- EINVAL)
          else check_pages n (u64 (base_va + PAGE_SIZE)) attr
      end
  end.

(** [entry] is NULL, and written, when the page is not mapped. *)
Fixpoint change_pages (n : nat) (base_va attr : Z) : M xlat unit :=
  match n with
  | O => ret tt
  | S n =>
      let* (_, r) := xlat_get_mem_attributes_internal base_va in
      match r with
      | None => fail NullDeref
      | Some r =>
          store_word (table_entry r) INVALID_DESC ;;
          xlat_arch_tlbi_va base_va (xlat_regime ctx) ;;
          let* desc := xlat_desc attr (addr_pa r) (table_level r) in
          store_word (table_entry r) desc ;;
          change_pages n (u64 (base_va + PAGE_SIZE)) attr
      end
  end.

Definition xlat_change_mem_attributes_ctx (base_va size attr : Z) : M xlat Z :=
  let* init := gets initialized in
  xassert init ;;
  xassert (0 <? u64 (va_max_address ctx + 1)) ;;
  if negb (IS_PAGE_ALIGNED base_va) then ret (- EINVAL)
  else if size =? 0 then ret (- EINVAL)
  else if negb (size mod PAGE_SIZE =? 0) then ret (- EINVAL)
  else if (Z.land attr MT_EXECUTE_NEVER =? 0) && truthy (Z.land attr MT_RW) then ret (- EINVAL)
  else
    let pages_count := Z.to_nat (size / PAGE_SIZE) in
    let* st := check_pages pages_count base_va attr in
    if negb (st =? 0) then ret st
    else change_pages pages_count base_va attr ;; ret 0.

(** * MMU (val_mmu.c) *)

Definition val_setup_mmu : M xlat unit := init_xlat_tables_ctx.

Definition val_xlat_pgt_create (physical_address virtual_address length attributes : Z) : M xlat Z :=
  let* (st, _) := mmap_add_dynamic_region_ctx
    (mk_region physical_address virtual_address length attributes REGION_DEFAULT_GRANULARITY) in
  ret st.

(** The registers of EL2 for [el = 2], else those of EL1. *)
Definition sysreg_el (el : Z) : Z := if el =? 2 then 2 else 1.
Definition write_sysreg (r : mmu_reg) (v el : Z) : M xlat unit := modify (set_reg r (sysreg_el el) v).

Definition val_enable_mmu : M xlat unit :=
  let currentEL := Z.shiftr (Z.land CurrentEl 0xc) 2 in
  let* (mair, tcr, ttbr0) :=
    setup_mmu_cfg 0 (base_table ctx) (pa_max_address ctx) (va_max_address ctx) (xlat_regime ctx) in
  let tcr := Z.lor tcr (Z.lor (Z.shiftl 1 39) (Z.shiftl 1 40)) in
  write_sysreg TTBR0 ttbr0 currentEL ;;
  write_sysreg TCR tcr currentEL ;;
  write_sysreg MAIR mair currentEL ;;
  let* old := read_mmu_reg SCTLR (sysreg_el currentEL) in
  write_sysreg SCTLR (Z.lor (Z.lor (Z.shiftl 1 0) (Z.lor (Z.shiftl 1 2) (Z.shiftl 1 12))) old) currentEL.
End Ctx.

Definition val_get_pa_range_supported : Z :=
  let pa := Z.land id_aa64mmfr0_el1 0xF in
  if pa =? 0 then 32 else if pa =? 1 then 36 else if pa =? 2 then 40 else if pa =? 3 then 42
  else if pa =? 4 then 44 else if pa =? 5 then 48 else if pa =? 6 then 52 else 0.

(** * Making a context *)

Definition xlat_setup_dynamic_ctx (pa_max va_max num tables_addr num_tables table regime : Z) (s : xlat) :
    xlat_cfg * xlat :=
  let size := u64 (va_max + 1) in
  (mk_cfg pa_max va_max num tables_addr num_tables table (u32 (GET_NUM_BASE_LEVEL_ENTRIES size))
     (GET_XLAT_TABLE_LEVEL_BASE size) regime,
   mk_xlat (replicate (Z.to_nat num) region_zero ++ drop (Z.to_nat num) (mmap s)) (tables_mapped_regions s) 0 0 false
     (t_mem s) (mmu_regs s) (tlb_log s)).

(** REGISTER_XLAT_CONTEXT2, at the addresses the linker gives the two arrays. *)
Definition registered_cfg (mmap_count tables_count va_size pa_size regime tables_addr table : Z) : xlat_cfg :=
  mk_cfg (pa_size - 1) (va_size - 1) mmap_count tables_addr tables_count table
    (GET_NUM_BASE_LEVEL_ENTRIES va_size) (GET_XLAT_TABLE_LEVEL_BASE va_size) regime.

Definition table_words (table n : Z) : list (Z * Z) :=
  (λ i, (entry_at table (Z.of_nat i), 0)) <$> seq 0 (Z.to_nat n).

Definition registered_xlat (ctx : xlat_cfg) (regs : mmu_reg → Z → Z) : xlat :=
  mk_xlat (replicate (Z.to_nat (mmap_num ctx + 1)) region_zero) (replicate (Z.to_nat (tables_num ctx)) 0) 0 0 false
    (list_to_map (table_words (base_table ctx) (base_table_entries ctx)
      ++ table_words (tables ctx) (XLAT_TABLE_ENTRIES * tables_num ctx)))
    regs [].
End Xlat.
