(* ===== verification/XlatFacts.v ===== *)
(** The tables written by [xlat_tables_map_region] against the walk the MMU makes of
    them: the invariant of the tables, and the effect of mapping one region. *)
From Stdlib Require Import Btauto.
From S2P Require Import Prelude Defs Xlat.

(** * Sizes *)

(** The size of what an entry of a level describes. *)
Definition bs (l : Z) : Z := 2 ^ (12 + 9 * (3 - l)).

Lemma bs_3 : bs 3 = 4096.
Proof. reflexivity. Qed.

Lemma bs_step l : l < 3 → 0 ≤ l → bs l = 512 * bs (l + 1).
Proof.
  intros L L0. unfold bs. replace (12 + 9 * (3 - l)) with (9 + (12 + 9 * (3 - (l + 1)))) by lia.
  rewrite Z.pow_add_r by lia. reflexivity.
Qed.

Lemma bs_pos l : l ≤ 3 → 4096 ≤ bs l.
Proof.
  intros L. unfold bs. change 4096 with (2 ^ 12). apply Z.pow_le_mono_r; lia.
Qed.

Lemma bs_le l : 0 ≤ l → l ≤ 3 → bs l ≤ 2 ^ 39.
Proof. intros L0 L. unfold bs. apply Z.pow_le_mono_r; lia. Qed.

Lemma bs_page l : l ≤ 3 → (4096 | bs l).
Proof.
  intros L. exists (2 ^ (9 * (3 - l))). unfold bs. rewrite Z.pow_add_r by lia. lia.
Qed.

Lemma block_size_eq l : l ≤ 3 → XLAT_BLOCK_SIZE l = bs l.
Proof.
  intros L. unfold XLAT_BLOCK_SIZE, XLAT_ADDR_SHIFT, bs. rewrite Z.shiftl_1_l. f_equal.
  unfold PAGE_SIZE_SHIFT, XLAT_TABLE_LEVEL_MAX, XLAT_TABLE_ENTRIES_SHIFT. lia.
Qed.

Lemma land_block_mask a l : l ≤ 3 → Z.land a (XLAT_BLOCK_MASK l) = a mod bs l.
Proof.
  intros L. unfold XLAT_BLOCK_MASK. rewrite block_size_eq by done. unfold bs. apply land_ones_mod. lia.
Qed.

Lemma table_idx_eq va l : l ≤ 3 → 0 ≤ va → XLAT_TABLE_IDX va l = (va / bs l) mod 512.
Proof.
  intros L V. unfold XLAT_TABLE_IDX, XLAT_ADDR_SHIFT. rewrite Z.shiftr_div_pow2.
  - change 0x1FF with (2 ^ 9 - 1). rewrite land_ones_mod by done. unfold bs, PAGE_SIZE_SHIFT, XLAT_TABLE_LEVEL_MAX, XLAT_TABLE_ENTRIES_SHIFT.
    by replace (12 + (3 - l) * 9) with (12 + 9 * (3 - l)) by lia.
  - unfold PAGE_SIZE_SHIFT, XLAT_TABLE_LEVEL_MAX, XLAT_TABLE_ENTRIES_SHIFT. lia.
Qed.

(** Entry [k] of a table at base [b] is the one the walk reads for its addresses. *)
Lemma idx_of l b k va :
  0 ≤ l ≤ 3 → 0 ≤ b → (512 * bs l | b) → 0 ≤ k < 512 → b + k * bs l ≤ va < b + (k + 1) * bs l →
  XLAT_TABLE_IDX va l = k.
Proof.
  intros L B [q ->] K V. pose proof (bs_pos l ltac:(lia)) as P. rewrite table_idx_eq by nia.
  assert (va / bs l = 512 * q + k) as ->.
  { symmetry. apply (Z.div_unique _ _ _ (va - (512 * q + k) * bs l)); [left|]; nia. }
  rewrite Z.add_comm, (Z.mul_comm 512), Z.mod_add by lia. apply Z.mod_small. lia.
Qed.

(** * Descriptors *)

(** The attribute bits of a descriptor. *)
Definition desc_attrs (regime attr : Z) : Z :=
  let dev := MT_TYPE attr =? MT_DEVICE in
  let xn := if regime =? EL1_EL0_REGIME then Z.lor (UPPER_ATTRS UXN) (UPPER_ATTRS PXN) else UPPER_ATTRS XN in
  Z.lor (if Z.land attr MT_AF_CLEAR =? 0 then LOWER_ATTRS ACCESS_FLAG else 0)
  (Z.lor (xlat_arch_get_pas attr)
  (Z.lor (if truthy (Z.land attr MT_RW) then LOWER_ATTRS AP_RW else LOWER_ATTRS AP_RO)
  (Z.lor (if regime =? EL1_EL0_REGIME then
            (if truthy (Z.land attr MT_USER) then LOWER_ATTRS AP_ACCESS_UNPRIVILEGED
             else LOWER_ATTRS AP_NO_ACCESS_UNPRIVILEGED)
          else LOWER_ATTRS AP_ONE_VA_RANGE_RES1)
  (Z.lor (if dev || truthy (Z.land attr MT_RW) || truthy (Z.land attr MT_EXECUTE_NEVER) then xn else 0)
  (if dev then LOWER_ATTRS (Z.lor ATTR_DEV_INDEX OSH)
   else if MT_TYPE attr =? MT_MEMORY then
     Z.lor (LOWER_ATTRS ATTR_IWBWA_OWBWA_NTR_INDEX)
       (if MT_SHAREABILITY attr =? MT_SHAREABILITY_NSH then LOWER_ATTRS NSH
        else if MT_SHAREABILITY attr =? MT_SHAREABILITY_OSH then LOWER_ATTRS OSH else LOWER_ATTRS ISH)
   else LOWER_ATTRS (Z.lor ATTR_NON_CACHEABLE_INDEX OSH)))))).

Definition desc_kind (l : Z) : Z := if l =? 3 then PAGE_DESC else BLOCK_DESC.

(** The descriptor of a block or page at [pa]. *)
Definition desc_of (regime attr pa l : Z) : Z := Z.lor pa (Z.lor (desc_kind l) (desc_attrs regime attr)).

Definition regime_ok (regime : Z) : Prop := regime = EL1_EL0_REGIME ∨ regime = EL2_REGIME ∨ regime = EL3_REGIME.
Definition attr_ok (attr : Z) : Prop :=
  MT_TYPE attr = MT_DEVICE ∨ MT_TYPE attr = MT_MEMORY ∨ MT_TYPE attr = MT_NON_CACHEABLE.

Ltac split_ifs := repeat match goal with |- context [if ?b then _ else _] => destruct b end.

(** Attributes leave the type and the address of a descriptor alone. *)
Lemma desc_attrs_apart regime attr m :
  m = 3 ∨ m = TABLE_ADDR_MASK → Z.land (desc_attrs regime attr) m = 0.
Proof.
  intros M. unfold desc_attrs, xlat_arch_get_pas. cbv zeta. rewrite !Z.land_lor_distr_l.
  repeat match goal with |- Z.lor ?a ?b = 0 => assert (a = 0) as ->; [|rewrite Z.lor_0_l] end.
  all: split_ifs; rewrite ?Z.land_lor_distr_l; destruct M as [-> | ->]; reflexivity.
Qed.

Lemma desc_kind_type l : Z.land (desc_kind l) 3 = desc_kind l ∧ Z.land (desc_kind l) TABLE_ADDR_MASK = 0.
Proof. unfold desc_kind. destruct (l =? 3); split; reflexivity. Qed.

Lemma low_bits_clear pa : (4096 | pa) → Z.land pa 3 = 0.
Proof.
  intros [q ->]. change 3 with (2 ^ 2 - 1). rewrite land_ones_mod by done.
  change 4096 with (1024 * 2 ^ 2). rewrite Z.mul_assoc. by apply Z.mod_mul.
Qed.

Lemma addr_mask_id pa : (4096 | pa) → 0 ≤ pa < 2 ^ 48 → Z.land pa TABLE_ADDR_MASK = pa.
Proof.
  intros D R. change TABLE_ADDR_MASK with (Z.ldiff (2 ^ 48 - 1) (2 ^ 12 - 1)).
  rewrite Z.ldiff_land, Z.land_assoc, <- Z.ldiff_land. rewrite land_ones_mod by done.
  rewrite (Z.mod_small pa) by done. rewrite ldiff_ones by done. destruct D as [q ->].
  change (2 ^ 12) with 4096. rewrite Z.mod_mul by done. lia.
Qed.

Lemma desc_of_type regime attr pa l : (4096 | pa) → Z.land (desc_of regime attr pa l) 3 = desc_kind l.
Proof.
  intros D. unfold desc_of. rewrite !Z.land_lor_distr_l, (desc_attrs_apart regime attr 3 (or_introl eq_refl)), (proj1 (desc_kind_type l)).
  by rewrite low_bits_clear, Z.lor_0_r, Z.lor_0_l.
Qed.

(** The output address of a block or page descriptor. *)
Lemma desc_of_addr regime attr pa l :
  (4096 | pa) → 0 ≤ pa < 2 ^ 48 → Z.land (desc_of regime attr pa l) TABLE_ADDR_MASK = pa.
Proof.
  intros D R. unfold desc_of. rewrite !Z.land_lor_distr_l, (desc_attrs_apart regime attr _ (or_intror eq_refl)), (proj2 (desc_kind_type l)).
  by rewrite addr_mask_id, !Z.lor_0_r.
Qed.

Lemma table_desc_type t : (4096 | t) → Z.land (Z.lor TABLE_DESC t) 3 = 3.
Proof. intros D. rewrite Z.land_lor_distr_l, (low_bits_clear t D). reflexivity. Qed.

Lemma table_desc_addr t : (4096 | t) → 0 ≤ t < 2 ^ 48 → Z.land (Z.lor TABLE_DESC t) TABLE_ADDR_MASK = t.
Proof. intros D R. rewrite Z.land_lor_distr_l, (addr_mask_id t D R). reflexivity. Qed.

(** * The walk of the MMU *)

(** A translation table walk from a table of level [l]: the descriptor of the block or
    page that holds [va], and its level. *)
Fixpoint walk_from (n : nat) (mem : gmap Z Z) (t l va : Z) : option (Z * Z) :=
  match n with
  | O => None
  | S n =>
      match mem !! entry_at t (XLAT_TABLE_IDX va l) with
      | None => None
      | Some d =>
          if l =? 3 then if Z.land d 3 =? 3 then Some (d, l) else None
          else if Z.land d 3 =? 1 then Some (d, l)
          else if Z.land d 3 =? 3 then walk_from n mem (Z.land d TABLE_ADDR_MASK) (l + 1) va
          else None
      end
  end.

Definition walk (mem : gmap Z Z) (t l va : Z) : option (Z * Z) := walk_from (Z.to_nat (4 - l)) mem t l va.

(** The address that [va] is translated to. *)
Definition translate (ctx : xlat_cfg) (mem : gmap Z Z) (va : Z) : option Z :=
  (λ x, Z.land x.1 TABLE_ADDR_MASK + va mod bs x.2) <$> walk mem (base_table ctx) (base_level ctx) va.

Section Facts.
Context `{XlatArch} (ctx : xlat_cfg).

Definition nent (t : Z) : Z := if t =? base_table ctx then base_table_entries ctx else 512.

(** A context as it is made: aligned tables apart from each other, below 2^48. *)
Record cfg_ok : Prop := {
  cfg_level : 0 ≤ base_level ctx ≤ 3;
  cfg_entries : 0 < base_table_entries ctx ≤ 512;
  cfg_num : 0 ≤ tables_num ctx;
  cfg_tables : (4096 | tables ctx) ∧ 0 ≤ tables ctx ∧ tables ctx + 4096 * tables_num ctx ≤ 2 ^ 48;
  cfg_apart : base_table ctx + 8 * base_table_entries ctx ≤ tables ctx ∨
    tables ctx + 4096 * tables_num ctx ≤ base_table ctx;
  cfg_regime : regime_ok (xlat_regime ctx);
  cfg_va : 0 ≤ va_max_address ctx ∧ va_max_address ctx + 1 ≤ base_table_entries ctx * bs (base_level ctx);
  cfg_pa : 0 ≤ pa_max_address ctx < 2 ^ 48
}.

Context (CO : cfg_ok).

Lemma va_limit : base_table_entries ctx * bs (base_level ctx) ≤ 2 ^ 48.
Proof.
  destruct (cfg_level CO), (cfg_entries CO). pose proof (bs_le (base_level ctx)). change (2 ^ 48) with (512 * 2 ^ 39). nia.
Qed.

Lemma table_at_eq i : table_at ctx i = tables ctx + 4096 * i.
Proof. reflexivity. Qed.

Lemma table_at_page i : 0 ≤ i < tables_num ctx → (4096 | table_at ctx i) ∧ 0 ≤ table_at ctx i < 2 ^ 48.
Proof.
  intros I. destruct (cfg_tables CO) as ([q Q] & T0 & T1). rewrite table_at_eq. split; [|lia].
  exists (q + i). lia.
Qed.

Lemma table_at_inj i j : table_at ctx i = table_at ctx j → i = j.
Proof. rewrite !table_at_eq. lia. Qed.

Lemma table_not_base i : 0 ≤ i < tables_num ctx → table_at ctx i ≠ base_table ctx.
Proof. intros I. rewrite table_at_eq. destruct (cfg_entries CO), (cfg_apart CO); lia. Qed.

Definition is_table (t : Z) : Prop := t = base_table ctx ∨ ∃ i, 0 ≤ i < tables_num ctx ∧ t = table_at ctx i.

Lemma nent_table i : 0 ≤ i < tables_num ctx → nent (table_at ctx i) = 512.
Proof. intros I. unfold nent. by rewrite (proj2 (Z.eqb_neq _ _) (table_not_base i I)). Qed.

Lemma nent_base : nent (base_table ctx) = base_table_entries ctx.
Proof. unfold nent. by rewrite Z.eqb_refl. Qed.

Lemma nent_le t : 0 < nent t ≤ 512.
Proof. unfold nent. destruct (cfg_entries CO). destruct (t =? _); lia. Qed.

(** Entries of tables are different words. *)
Lemma entry_inj t k t' k' :
  is_table t → is_table t' → 0 ≤ k < nent t → 0 ≤ k' < nent t' → entry_at t k = entry_at t' k' → t = t' ∧ k = k'.
Proof.
  intros T T' K K' E. unfold entry_at in E. destruct (cfg_tables CO) as ([q Q] & _ & _). pose proof (cfg_apart CO) as A.
  destruct T as [-> | (i & I & ->)], T' as [-> | (j & J & ->)];
    rewrite ?nent_base in *; try rewrite (nent_table i I) in K; try rewrite (nent_table j J) in K';
    rewrite ?table_at_eq in *.
  - split; [done|lia].
  - exfalso. lia.
  - exfalso. lia.
  - assert (i = j) as -> by lia. split; [done|lia].
Qed.

(** * The invariant of the tables *)

(** [G] gives each table in use its level and the first address it describes. *)
Inductive entry_ok (G : gmap Z (Z * Z)) (l eva d : Z) : Prop :=
  | entry_invalid : Z.land d 3 = 0 → d = 0 → entry_ok G l eva d
  | entry_block : 1 ≤ l < 3 → Z.land d 3 = 1 → entry_ok G l eva d
  | entry_page : l = 3 → Z.land d 3 = 3 → entry_ok G l eva d
  | entry_table : l < 3 → Z.land d 3 = 3 → G !! Z.land d TABLE_ADDR_MASK = Some (l + 1, eva) → entry_ok G l eva d.

Definition cnt (s : xlat) (i : Z) : Z := default 0 (tables_mapped_regions s !! Z.to_nat i).

Record struct (G : gmap Z (Z * Z)) (s : xlat) : Prop := {
  st_base : G !! base_table ctx = Some (base_level ctx, 0);
  st_label : ∀ t l b, G !! t = Some (l, b) → base_level ctx ≤ l ≤ 3 ∧ 0 ≤ b ∧ (512 * bs l | b) ∧
    (t = base_table ctx ∨ base_level ctx < l ∧ ∃ i, 0 ≤ i < tables_num ctx ∧ t = table_at ctx i);
  st_inj : ∀ t t' lb, G !! t = Some lb → G !! t' = Some lb → t = t';
  st_entry : ∀ t l b k, G !! t = Some (l, b) → 0 ≤ k < nent t →
    ∃ d, t_mem s !! entry_at t k = Some d ∧ entry_ok G l (b + k * bs l) d;
  st_up : ∀ t l b, G !! t = Some (l, b) → t ≠ base_table ctx → ∃ p k pb d,
    G !! p = Some (l - 1, pb) ∧ b = pb + k * bs (l - 1) ∧ 0 ≤ k < nent p ∧
    t_mem s !! entry_at p k = Some d ∧ Z.land d 3 = 3 ∧ Z.land d TABLE_ADDR_MASK = t;
  st_counts : Z.of_nat (length (tables_mapped_regions s)) = tables_num ctx;
  st_used : ∀ i, 0 ≤ i < tables_num ctx → 0 ≤ cnt s i ∧ (cnt s i = 0 ↔ G !! table_at ctx i = None);
  st_free : ∀ i k, 0 ≤ i < tables_num ctx → G !! table_at ctx i = None → 0 ≤ k < 512 →
    t_mem s !! entry_at (table_at ctx i) k = Some 0
}.

Lemma label_is_table G s t lb : struct G s → G !! t = Some lb → is_table t.
Proof.
  intros ST E. destruct lb as [l b]. destruct (st_label _ _ ST _ _ _ E) as (_ & _ & _ & [-> | (_ & I)]); [by left|by right].
Qed.

(** * Steps of the walk *)

(** Entry [k] of a table of level [l] at base [b] describes [va]. *)
Definition in_entry (l b k va : Z) : Prop := b + k * bs l ≤ va < b + (k + 1) * bs l.

Lemma walk_step mem t l b k va d :
  0 ≤ l ≤ 3 → 0 ≤ b → (512 * bs l | b) → 0 ≤ k < 512 → in_entry l b k va → mem !! entry_at t k = Some d →
  walk mem t l va =
    if l =? 3 then if Z.land d 3 =? 3 then Some (d, l) else None
    else if Z.land d 3 =? 1 then Some (d, l)
    else if Z.land d 3 =? 3 then walk mem (Z.land d TABLE_ADDR_MASK) (l + 1) va else None.
Proof.
  intros L B D K V E. unfold walk. replace (Z.to_nat (4 - l)) with (S (Z.to_nat (4 - (l + 1)))) by lia.
  cbn [walk_from]. rewrite (idx_of l b k va L B D K V), E. reflexivity.
Qed.

Lemma walk_entry G s t l b k va d :
  struct G s → G !! t = Some (l, b) → 0 ≤ k < nent t → in_entry l b k va → t_mem s !! entry_at t k = Some d →
  walk (t_mem s) t l va =
    if l =? 3 then if Z.land d 3 =? 3 then Some (d, l) else None
    else if Z.land d 3 =? 1 then Some (d, l)
    else if Z.land d 3 =? 3 then walk (t_mem s) (Z.land d TABLE_ADDR_MASK) (l + 1) va else None.
Proof.
  intros ST E K V D. destruct (st_label _ _ ST _ _ _ E) as ([L0 L1] & B & DV & _).
  destruct (cfg_level CO), (nent_le t). apply (walk_step _ _ _ b k); [lia|done|done|lia|done|done].
Qed.

Lemma walk_invalid G s t l b k va d :
  struct G s → G !! t = Some (l, b) → 0 ≤ k < nent t → in_entry l b k va → t_mem s !! entry_at t k = Some d →
  Z.land d 3 = 0 → walk (t_mem s) t l va = None.
Proof. intros ST E K V D Z0. rewrite (walk_entry G s t l b k va d ST E K V D), Z0. by destruct (l =? 3). Qed.

Lemma walk_leaf G s t l b k va d :
  struct G s → G !! t = Some (l, b) → 0 ≤ k < nent t → in_entry l b k va → t_mem s !! entry_at t k = Some d →
  Z.land d 3 = desc_kind l → walk (t_mem s) t l va = Some (d, l).
Proof.
  intros ST E K V D KD. rewrite (walk_entry G s t l b k va d ST E K V D), KD. unfold desc_kind. by destruct (l =? 3).
Qed.

Lemma walk_down G s t l b k va d :
  struct G s → G !! t = Some (l, b) → 0 ≤ k < nent t → in_entry l b k va → t_mem s !! entry_at t k = Some d →
  l < 3 → Z.land d 3 = 3 → walk (t_mem s) t l va = walk (t_mem s) (Z.land d TABLE_ADDR_MASK) (l + 1) va.
Proof.
  intros ST E K V D L KD. rewrite (walk_entry G s t l b k va d ST E K V D), KD.
  by rewrite (proj2 (Z.eqb_neq l 3)) by lia.
Qed.

(** The addresses a table describes. *)
Definition in_table (t l b va : Z) : Prop := b ≤ va < b + nent t * bs l.

Lemma locate t l b va :
  l ≤ 3 → in_table t l b va → ∃ k, 0 ≤ k < nent t ∧ in_entry l b k va.
Proof.
  intros L [V0 V1]. pose proof (bs_pos l L) as P. pose proof (Z.div_mod (va - b) (bs l) ltac:(lia)) as DM.
  pose proof (Z.mod_pos_bound (va - b) (bs l) ltac:(lia)) as MB. unfold in_entry. exists ((va - b) / bs l). nia.
Qed.

Lemma in_entry_table t l b k va : l ≤ 3 → 0 ≤ k < nent t → in_entry l b k va → in_table t l b va.
Proof. intros L K V. pose proof (bs_pos l L). unfold in_entry, in_table in *. nia. Qed.

(** The table an entry points to describes what the entry describes. *)
Lemma below_table G s t t' l b k :
  struct G s → G !! t = Some (l, b) → G !! t' = Some (l + 1, b + k * bs l) →
  t' ≠ base_table ctx ∧ nent t' = 512 ∧ ∀ va, in_entry l b k va ↔ in_table t' (l + 1) (b + k * bs l) va.
Proof.
  intros ST E E'. destruct (st_label _ _ ST _ _ _ E') as ([_ L] & _ & _ & T).
  destruct (st_label _ _ ST _ _ _ E) as ([L0 _] & _). destruct (cfg_level CO) as [C0 _].
  assert (t' ≠ base_table ctx) as N by (intros ->; rewrite (st_base _ _ ST) in E'; injection E'; lia).
  destruct T as [T | (_ & i & I & ->)]; [done|]. split; [done|]. split; [by apply nent_table|].
  intros va. unfold in_entry, in_table. rewrite nent_table, (bs_step l) by lia. split; lia.
Qed.

(** Mapping only writes invalid entries. *)
Definition ext (mem mem' : gmap Z Z) : Prop := ∀ w d, mem !! w = Some d → Z.land d 3 ≠ 0 → mem' !! w = Some d.

Lemma ext_refl mem : ext mem mem.
Proof. by intros w d E _. Qed.

Lemma ext_trans m1 m2 m3 : ext m1 m2 → ext m2 m3 → ext m1 m3.
Proof. intros E1 E2 w d E N. apply E2; [by apply E1|done]. Qed.

Lemma walk_ext mem mem' t l va x : ext mem mem' → walk mem t l va = Some x → walk mem' t l va = Some x.
Proof.
  intros EX. unfold walk. generalize (Z.to_nat (4 - l)) as n. intros n. revert t l.
  induction n as [|n IH]; intros t l; cbn [walk_from]; [done|].
  destruct (mem !! entry_at t (XLAT_TABLE_IDX va l)) as [d|] eqn:E; [|done].
  destruct (Z.eqb_spec l 3) as [L|L].
  - destruct (Z.eqb_spec (Z.land d 3) 3) as [T|T]; [|done]. intros R. rewrite (EX _ _ E) by (rewrite T; done).
    by rewrite T.
  - destruct (Z.eqb_spec (Z.land d 3) 1) as [T1|T1].
    + intros R. rewrite (EX _ _ E) by (rewrite T1; done). by rewrite T1.
    + destruct (Z.eqb_spec (Z.land d 3) 3) as [T3|T3]; [|done]. intros R. rewrite (EX _ _ E) by (rewrite T3; done).
      rewrite T3. apply (IH _ _ R).
Qed.

(** A walk reads one entry of each level, the one that describes the address. *)
Lemma walk_frame G s mem' t l b va :
  struct G s → G !! t = Some (l, b) → in_table t l b va →
  (∀ t' l' b' k, G !! t' = Some (l', b') → l ≤ l' → 0 ≤ k < nent t' → in_entry l' b' k va →
    mem' !! entry_at t' k = t_mem s !! entry_at t' k) →
  walk mem' t l va = walk (t_mem s) t l va.
Proof.
  intros ST. remember (Z.to_nat (4 - l)) as n eqn:N. revert t l b N.
  induction n as [|n IH]; intros t l b N E V F.
  { destruct (st_label _ _ ST _ _ _ E) as ([_ L] & _). lia. }
  destruct (st_label _ _ ST _ _ _ E) as ([L0 L1] & B & DV & _). destruct (cfg_level CO) as [C0 _].
  destruct (locate t l b va L1 V) as (k & K & VK). destruct (nent_le t) as [_ NL].
  destruct (st_entry _ _ ST _ _ _ k E K) as (d & D & OK).
  rewrite (walk_entry G s t l b k va d ST E K VK D).
  rewrite (walk_step mem' t l b k va d); [|lia|done|done|lia|done|rewrite (F t l b k E (Z.le_refl l) K VK); exact D].
  destruct (Z.eqb_spec l 3) as [L|L]; [done|]. destruct (Z.land d 3 =? 1) eqn:T1; [done|].
  destruct (Z.eqb_spec (Z.land d 3) 3) as [T3|T3]; [|done].
  inversion OK as [Z0|_ Z1|Z3 _|L3 _ GT]; [lia|lia|lia|].
  destruct (below_table G s t _ l b k ST E GT) as (_ & _ & R).
  apply (IH _ _ (b + k * bs l)); [lia|exact GT|by apply R|].
  intros t' l' b' k' E' L' K' V'. apply (F t' l' b' k' E'); [lia|done|done].
Qed.

(** The walk from the base table reaches every table in use. *)
Lemma walk_root G s t l b va :
  struct G s → G !! t = Some (l, b) → in_table t l b va →
  walk (t_mem s) (base_table ctx) (base_level ctx) va = walk (t_mem s) t l va.
Proof.
  intros ST. remember (Z.to_nat (l - base_level ctx)) as n eqn:N. revert t l b N.
  induction n as [|n IH]; intros t l b N E V.
  - destruct (st_label _ _ ST _ _ _ E) as ([L0 _] & _ & _ & [-> | (L & _)]); [|lia].
    rewrite (st_base _ _ ST) in E. by injection E as <- _.
  - destruct (decide (t = base_table ctx)) as [->|NB]; [rewrite (st_base _ _ ST) in E; by injection E as <- _|].
    destruct (st_up _ _ ST _ _ _ E NB) as (p & k & pb & d & EP & EB & K & D & T & A).
    destruct (st_label _ _ ST _ _ _ E) as ([_ L1] & _). destruct (st_label _ _ ST _ _ _ EP) as ([L0 L2] & _).
    assert (G !! t = Some (l - 1 + 1, pb + k * bs (l - 1))) as E' by (rewrite E, EB; do 2 f_equal; lia).
    destruct (below_table G s p t (l - 1) pb k ST EP E') as (_ & _ & R).
    assert (in_entry (l - 1) pb k va) as VK by (apply R; replace (l - 1 + 1) with l by lia; by rewrite <- EB).
    rewrite (IH p (l - 1) pb); [|lia|done|by apply (in_entry_table p (l - 1) pb k)].
    rewrite (walk_down G s p (l - 1) pb k va d ST EP K VK D ltac:(lia) T), A. by replace (l - 1 + 1) with l by lia.
Qed.

(** * Regions *)

(** A region that passes [mmap_add_region_check], with a memory type. *)
Record region_ok (r : mmap_region_t) : Prop := {
  rg_va : 0 ≤ mm_base_va r ∧ mm_base_va r + mm_size r ≤ va_max_address ctx + 1;
  rg_pa : 0 ≤ mm_base_pa r ∧ mm_base_pa r + mm_size r ≤ 2 ^ 48;
  rg_size : 0 < mm_size r;
  rg_page : (4096 | mm_base_va r) ∧ (4096 | mm_base_pa r) ∧ (4096 | mm_size r);
  rg_attr : attr_ok (u32 (mm_attr r))
}.

Definition last_va (r : mmap_region_t) : Z := mm_base_va r + mm_size r - 1.
Definition in_region (r : mmap_region_t) (va : Z) : Prop := mm_base_va r ≤ va ≤ last_va r.

#[global] Instance in_region_dec r va : Decision (in_region r va).
Proof. unfold in_region. apply _. Defined.

(** [x] is a block or page of the region that holds [va]: it lies in the region and has
    the address and the attributes of the region. *)
Definition maps (r : mmap_region_t) (va : Z) (x : Z * Z) : Prop :=
  let eva := va - va mod bs x.2 in
  1 ≤ x.2 ≤ 3 ∧ mm_base_va r ≤ eva ∧ eva + bs x.2 - 1 ≤ last_va r ∧ (bs x.2 | mm_base_pa r + eva - mm_base_va r) ∧
  x.1 = desc_of (xlat_regime ctx) (u32 (mm_attr r)) (mm_base_pa r + eva - mm_base_va r) x.2.

(** Its address is translated with the offset of the region. *)
Lemma maps_address r va x :
  region_ok r → maps r va x → Z.land x.1 TABLE_ADDR_MASK + va mod bs x.2 = mm_base_pa r + va - mm_base_va r.
Proof.
  intros RO ([L0 L1] & B & T & D & ->). destruct (rg_pa r RO) as [P0 P1]. pose proof (bs_pos x.2 L1) as BP.
  pose proof (Z.mod_pos_bound va (bs x.2) ltac:(lia)) as MB. unfold last_va in T. rewrite desc_of_addr; [lia| |lia].
  eapply Z.divide_trans; [apply (bs_page x.2 L1)|exact D].
Qed.

Lemma end_va_eq r : region_ok r → end_va_of r = last_va r.
Proof.
  intros RO. destruct (rg_va r RO) as [V0 V1]. pose proof (rg_size r RO). pose proof va_limit. destruct (cfg_va CO).
  unfold end_va_of. apply u64_id. unfold is_u64. unfold last_va. lia.
Qed.

Lemma xlat_desc_run attr pa l s :
  attr_ok attr → (bs l | pa) → l ≤ 3 →
  xlat_desc ctx attr pa l s = Ok (desc_of (xlat_regime ctx) attr pa l) s.
Proof.
  intros AO [q ->] L. unfold xlat_desc. rewrite land_block_mask by done.
  pose proof (bs_pos l L). rewrite Z.mod_mul by lia. change (0 =? 0) with true. cbn [xassert]. rewrite bind_ret_l.
  cbv zeta. unfold desc_of, desc_attrs, desc_kind, XLAT_TABLE_LEVEL_MAX, xlat_arch_regime_get_xn_desc.
  assert (∀ v w : Z, (∀ n, 0 ≤ n → Z.testbit v n = Z.testbit w n) → @Ok xlat Z v s = Ok w s) as EQ
    by (intros v w B; f_equal; by apply Z.bits_inj').
  assert (∀ a b, truthy (Z.land a b) = negb (Z.land a b =? 0)) as TR by done.
  destruct (cfg_regime CO) as [-> | [-> | ->]], AO as [-> | [-> | ->]];
    cbn [Z.eqb EL1_EL0_REGIME EL2_REGIME EL3_REGIME MT_DEVICE MT_MEMORY MT_NON_CACHEABLE orb xassert Pos.eqb].
  all: rewrite !TR; destruct (Z.land attr MT_AF_CLEAR =? 0), (Z.land attr MT_RW =? 0), (Z.land attr MT_EXECUTE_NEVER =? 0),
    (Z.land attr MT_USER =? 0); cbn [negb orb].
  all: unfold bind, ret; apply EQ; intros n N; rewrite ?Z.lor_spec, ?Z.testbit_0_l; btauto.
Qed.

(** * Counters and free tables *)

Lemma find_index_spec n i0 p :
  match find_index n i0 p with
  | Some i => i0 ≤ i < i0 + Z.of_nat n ∧ p i = true
  | None => ∀ i, i0 ≤ i < i0 + Z.of_nat n → p i = false
  end.
Proof.
  revert i0. induction n as [|n IH]; intros i0; cbn [find_index]; [lia|].
  destruct (p i0) eqn:E; [split; [lia|done]|]. specialize (IH (i0 + 1)).
  destruct (find_index n (i0 + 1) p) as [i|]; [destruct IH; split; [lia|done]|].
  intros i I. destruct (decide (i = i0)) as [->|]; [done|]. apply IH. lia.
Qed.

Definition bump (d i : Z) (s : xlat) : xlat :=
  set_counts (<[Z.to_nat i := cnt s i + d]> (tables_mapped_regions s)) s.

Lemma get_index_run i s : 0 ≤ i < tables_num ctx → xlat_table_get_index ctx (table_at ctx i) s = Ok i s.
Proof.
  intros I. unfold xlat_table_get_index.
  pose proof (find_index_spec (Z.to_nat (tables_num ctx)) 0 (λ j, table_at ctx j =? table_at ctx i)) as F.
  destruct (find_index _ _ _) as [j|].
  - destruct F as [_ E%Z.eqb_eq%table_at_inj]. by subst.
  - specialize (F i). rewrite Z.eqb_refl in F. discriminate F. lia.
Qed.

Lemma table_count_run i s :
  Z.of_nat (length (tables_mapped_regions s)) = tables_num ctx → 0 ≤ i < tables_num ctx → count_at i s = Ok (cnt s i) s.
Proof.
  intros L I. unfold count_at, cnt. destruct (tables_mapped_regions s !! Z.to_nat i) as [c|] eqn:E; [done|].
  apply lookup_ge_None in E. lia.
Qed.

Lemma inc_run i s :
  Z.of_nat (length (tables_mapped_regions s)) = tables_num ctx → 0 ≤ i < tables_num ctx →
  xlat_table_inc_regions_count ctx (table_at ctx i) s = Ok tt (bump 1 i s).
Proof.
  intros L I. unfold xlat_table_inc_regions_count.
  by rewrite (bind_step _ _ _ _ _ (get_index_run i s I)), (bind_step _ _ _ _ _ (table_count_run i s L I)).
Qed.

Lemma dec_run i s :
  Z.of_nat (length (tables_mapped_regions s)) = tables_num ctx → 0 ≤ i < tables_num ctx →
  xlat_table_dec_regions_count ctx (table_at ctx i) s = Ok tt (bump (-1) i s).
Proof.
  intros L I. unfold xlat_table_dec_regions_count.
  by rewrite (bind_step _ _ _ _ _ (get_index_run i s I)), (bind_step _ _ _ _ _ (table_count_run i s L I)).
Qed.

Lemma cnt_bump d i j s :
  Z.of_nat (length (tables_mapped_regions s)) = tables_num ctx → 0 ≤ i < tables_num ctx → 0 ≤ j →
  cnt (bump d i s) j = cnt s j + if decide (i = j) then d else 0.
Proof.
  intros L I J. unfold cnt at 1, bump. cbn [tables_mapped_regions set_counts]. destruct (decide (i = j)) as [->|N].
  - rewrite list_lookup_insert_eq by lia. done.
  - rewrite list_lookup_insert_ne by lia. unfold cnt. lia.
Qed.

(** Every table is in use. *)
Definition exhausted (s : xlat) : Prop := ∀ i, 0 ≤ i < tables_num ctx → cnt s i ≠ 0.

Lemma get_empty_run s :
  ∃ r, xlat_table_get_empty ctx s = Ok r s ∧
    match r with
    | Some t => ∃ i, 0 ≤ i < tables_num ctx ∧ t = table_at ctx i ∧ cnt s i = 0
    | None => exhausted s
    end.
Proof.
  unfold xlat_table_get_empty, gets. eexists. split; [reflexivity|].
  pose proof (find_index_spec (Z.to_nat (tables_num ctx)) 0
    (λ i, default 0 (tables_mapped_regions s !! Z.to_nat i) =? 0)) as F.
  destruct (find_index _ _ _) as [i|]; cbn.
  - destruct F as [I E%Z.eqb_eq]. exists i. split; [lia|]. split; [done|exact E].
  - intros i I. specialize (F i ltac:(lia)). by apply Z.eqb_neq in F.
Qed.

Lemma load_run a v s : t_mem s !! a = Some v → load_word a s = Ok v s.
Proof. unfold load_word. by intros ->. Qed.

Lemma store_run a v w s : t_mem s !! a = Some w → store_word a v s = Ok tt (set_word a v s).
Proof. unfold store_word. by intros ->. Qed.

(** Mapping changes the tables and their counters only. *)
Definition same_rest (s s' : xlat) : Prop :=
  mmap s' = mmap s ∧ max_pa s' = max_pa s ∧ max_va s' = max_va s ∧ initialized s' = initialized s ∧
  mmu_regs s' = mmu_regs s ∧ tlb_log s' = tlb_log s.

Lemma same_rest_refl s : same_rest s s.
Proof. by repeat split. Qed.

Lemma same_rest_trans s1 s2 s3 : same_rest s1 s2 → same_rest s2 s3 → same_rest s1 s3.
Proof. unfold same_rest. intros (? & ? & ? & ? & ? & ?) (? & ? & ? & ? & ? & ?). repeat split; congruence. Qed.

(** * The effect of mapping a region *)

Section Map.
Context (r : mmap_region_t) (RO : region_ok r).

(** The region and the addresses from [lo] up to [hi] meet. *)
Definition touches (lo hi : Z) : bool := (mm_base_va r <? hi) && (lo <=? last_va r).

(** The address [eva] of the region can be described by a block or page of level [l]. *)
Definition block_fits (l eva : Z) : bool :=
  (mm_base_va r <=? eva) && (eva + bs l - 1 <=? last_va r) && (1 <=? l)
  && ((mm_base_pa r + eva - mm_base_va r) mod bs l =? 0) && (bs l <=? mm_granularity r).

(** What a table of level [l] from [b] on describes cannot be described by one entry of the
    level above. *)
Definition needs (l b : Z) : bool := touches b (b + 512 * bs l) && negb (block_fits (l - 1) b).

Lemma touches_false lo hi lo' hi' :
  (∀ va, lo ≤ va < hi → ¬ in_region r va) → lo ≤ lo' → hi' ≤ hi → lo' < hi' → touches lo' hi' = false.
Proof.
  intros A L U LT. unfold touches. destruct (Z.ltb_spec (mm_base_va r) hi') as [T1|]; [|done].
  destruct (Z.leb_spec lo' (last_va r)) as [T2|]; [|done]. exfalso.
  pose proof (rg_size r RO). apply (A (Z.max lo' (mm_base_va r))); [lia|]. unfold in_region, last_va in *. lia.
Qed.

(** What mapping adds to the counter of a table: one below level [l], between [lo] and
    [hi], where the region meets it. *)
Definition delta (l lo hi : Z) (G : gmap Z (Z * Z)) (t : Z) : Z :=
  match G !! t with
  | Some (l', b') => if (l <? l') && (lo <=? b') && (b' <? hi) && touches b' (b' + 512 * bs l') then 1 else 0
  | None => 0
  end.

(** A leaf of the tables lies inside of the region or outside. *)
Definition compat (G : gmap Z (Z * Z)) (s : xlat) : Prop := ∀ t l b k d,
  G !! t = Some (l, b) → 0 ≤ k < nent t → t_mem s !! entry_at t k = Some d → Z.land d 3 = desc_kind l →
  (mm_base_va r ≤ b + k * bs l ∧ b + (k + 1) * bs l - 1 ≤ last_va r) ∨
  b + (k + 1) * bs l ≤ mm_base_va r ∨ last_va r < b + k * bs l.

(** The addresses from [lo] up to [hi] belong to the region. *)
Definition covered (lo hi : Z) : Prop := mm_base_va r ≤ lo ∧ hi - 1 ≤ last_va r.

(** A block or page in the tables. *)
Definition leaf (G : gmap Z (Z * Z)) (s : xlat) (t l b k d : Z) : Prop :=
  G !! t = Some (l, b) ∧ 0 ≤ k < nent t ∧ t_mem s !! entry_at t k = Some d ∧ Z.land d 3 = desc_kind l.

(** New blocks and pages belong to the region. *)
Definition grows (G : gmap Z (Z * Z)) (s : xlat) (G' : gmap Z (Z * Z)) (s' : xlat) : Prop := ∀ t l b k d,
  leaf G' s' t l b k d → leaf G s t l b k d ∨ covered (b + k * bs l) (b + (k + 1) * bs l).

Lemma grows_refl G s : grows G s G s.
Proof. intros t l b k d LF. by left. Qed.

Lemma grows_trans G s G1 s1 G2 s2 : grows G s G1 s1 → grows G1 s1 G2 s2 → grows G s G2 s2.
Proof. intros GR1 GR2 t l b k d LF. destruct (GR2 t l b k d LF) as [LF1|C]; [by apply GR1|by right]. Qed.

Lemma compat_grows G s G' s' : compat G s → grows G s G' s' → compat G' s'.
Proof.
  intros CP GR t l b k d E K D KD. destruct (GR t l b k d (conj E (conj K (conj D KD)))) as [(E' & K' & D' & KD')|C].
  - by apply (CP t l b k d).
  - by left.
Qed.

(** From [s] to [s'] the addresses from [lo] up to [hi], described by the table [t], were
    mapped as far as they belong to the region. *)
Record mapped (t l lo hi : Z) (G : gmap Z (Z * Z)) (s : xlat) (G' : gmap Z (Z * Z)) (s' : xlat) : Prop := {
  mp_aligned : (bs l | lo) ∧ (bs l | hi);
  mp_sub : G ⊆ G';
  mp_struct : struct G' s';
  mp_grows : grows G s G' s';
  mp_rest : same_rest s s';
  mp_ext : ext (t_mem s) (t_mem s');
  mp_frame : ∀ t' l' b' k, G !! t' = Some (l', b') → 0 ≤ k < nent t' →
    (l' < l ∨ b' + (k + 1) * bs l' ≤ lo ∨ hi ≤ b' + k * bs l') →
    t_mem s' !! entry_at t' k = t_mem s !! entry_at t' k;
  mp_new : ∀ t' l' b', G' !! t' = Some (l', b') → G !! t' = None → l < l' ∧ lo ≤ b' ∧ b' + 512 * bs l' ≤ hi;
  mp_fresh : ∀ t' l' b' va, G' !! t' = Some (l', b') → G !! t' = None → b' ≤ va < b' + 512 * bs l' →
    walk (t_mem s) t l va = None;
  mp_hit : ∀ va, lo ≤ va < hi → in_region r va → walk (t_mem s) t l va = None →
    ∃ x, walk (t_mem s') t l va = Some x ∧ maps r va x;
  mp_miss : ∀ va, lo ≤ va < hi → ¬ in_region r va → walk (t_mem s) t l va = None → walk (t_mem s') t l va = None;
  mp_cnt : ∀ i, 0 ≤ i < tables_num ctx → cnt s' i = cnt s i + delta l lo hi G' (table_at ctx i);
  mp_needs : ∀ t' l' b', G' !! t' = Some (l', b') → G !! t' = None → needs l' b' = true
}.

(** An entry of a lower level is inside of aligned bounds or outside. *)
Lemma aligned_apart l l' lo hi e va :
  0 ≤ l → l ≤ l' → l' ≤ 3 → (bs l | lo) → (bs l | hi) → (bs l' | e) → e ≤ va < e + bs l' → ¬ (lo ≤ va < hi) →
  e + bs l' ≤ lo ∨ hi ≤ e.
Proof.
  intros L0 L1 L2 DLO DHI [e' ->] V N. assert (bs l' | bs l) as D.
  { exists (2 ^ (9 * (l' - l))). unfold bs. rewrite <- Z.pow_add_r by lia. f_equal. lia. }
  destruct (Z.divide_trans _ _ _ D DLO) as [x ->], (Z.divide_trans _ _ _ D DHI) as [y ->].
  pose proof (bs_pos l' L2) as P. destruct (Z.lt_ge_cases va (x * bs l')) as [C|C]; [left|right].
  - assert (e' < x) by nia. nia.
  - assert (y * bs l' ≤ va) by lia. assert (y < e' + 1) by nia. nia.
Qed.

Lemma label_entry_aligned G s t l b k : struct G s → G !! t = Some (l, b) → (bs l | b + k * bs l).
Proof.
  intros ST E. destruct (st_label _ _ ST _ _ _ E) as (_ & _ & [q ->] & _). exists (q * 512 + k). lia.
Qed.

Lemma mapped_outside t l lo hi G s G' s' t0 l0 b0 va :
  struct G s → mapped t l lo hi G s G' s' → 0 ≤ l → G !! t0 = Some (l0, b0) → l ≤ l0 → in_table t0 l0 b0 va →
  ¬ (lo ≤ va < hi) → walk (t_mem s') t0 l0 va = walk (t_mem s) t0 l0 va.
Proof.
  intros ST MP L E LL V N. apply (walk_frame G s _ t0 l0 b0 va ST E V). intros t' l' b' k E' L' K VK.
  apply (mp_frame _ _ _ _ _ _ _ _ MP t' l' b' k E' K). right. destruct (mp_aligned _ _ _ _ _ _ _ _ MP) as [DLO DHI].
  destruct (st_label _ _ ST _ _ _ E') as ([_ L3] & _). unfold in_entry in VK.
  replace (b' + (k + 1) * bs l') with (b' + k * bs l' + bs l') in * by lia.
  apply (aligned_apart l l' lo hi _ va); try lia; [done|done|by eapply label_entry_aligned].
Qed.

Lemma delta_le l lo hi G t : 0 ≤ delta l lo hi G t ≤ 1.
Proof. unfold delta. destruct (G !! t) as [[l' b']|]; [|lia]. destruct (_ && _); lia. Qed.

(** Tables that the region does not meet add nothing. *)
Lemma delta_widen G s l lo hi lo' hi' t :
  struct G s → 0 ≤ l ≤ 3 → (bs l | lo) → (bs l | hi) → (bs l | lo') → (bs l | hi') → lo' ≤ lo → lo ≤ hi → hi ≤ hi' →
  (∀ va, lo' ≤ va < lo → ¬ in_region r va) → (∀ va, hi ≤ va < hi' → ¬ in_region r va) →
  delta l lo hi G t = delta l lo' hi' G t.
Proof.
  intros ST L DL DH DLO DHI LO M HI OUT1 OUT2. unfold delta. destruct (G !! t) as [[l' b']|] eqn:EG; [|done].
  destruct (Z.ltb_spec l l') as [LL|]; [cbn [andb]|done].
  destruct (st_label _ _ ST _ _ _ EG) as ([_ L3] & _ & D' & _). pose proof (bs_pos l' L3) as P.
  assert (512 * bs l' ≤ bs l ∧ (512 * bs l' | bs l)) as [SM DV].
  { replace (512 * bs l') with (bs (l' - 1)) by (rewrite (bs_step (l' - 1)) by lia; by replace (l' - 1 + 1) with l' by lia).
    unfold bs. split; [apply Z.pow_le_mono_r; lia|]. exists (2 ^ (9 * (l' - 1 - l))). rewrite <- Z.pow_add_r by lia. f_equal. lia. }
  destruct D' as [q ->]. destruct (Z.divide_trans _ _ _ DV DL) as [x X], (Z.divide_trans _ _ _ DV DH) as [y Y],
    (Z.divide_trans _ _ _ DV DLO) as [x' X'], (Z.divide_trans _ _ _ DV DHI) as [y' Y'].
  set (B := 512 * bs l') in *. assert (0 < B) by (unfold B; lia).
  destruct (decide (lo ≤ q * B < hi)) as [I1|I1].
  - rewrite (proj2 (Z.leb_le lo (q * B))), (proj2 (Z.ltb_lt (q * B) hi)), (proj2 (Z.leb_le lo' (q * B))),
      (proj2 (Z.ltb_lt (q * B) hi')) by lia. done.
  - assert ((lo <=? q * B) && (q * B <? hi) = false) as -> by (destruct (Z.leb_spec lo (q * B)), (Z.ltb_spec (q * B) hi); try reflexivity; lia).
    cbn [andb]. destruct (Z.leb_spec lo' (q * B)) as [A1|], (Z.ltb_spec (q * B) hi') as [A2|]; try done. cbn [andb].
    assert (touches (q * B) (q * B + B) = false) as ->; [|done].
    destruct (Z.lt_ge_cases (q * B) lo) as [C|C].
    + apply (touches_false lo' lo _ _ OUT1); [lia| |lia]. rewrite X in *. assert (q < x) by nia. nia.
    + apply (touches_false hi hi' _ _ OUT2); [lia| |lia]. rewrite Y' in *. assert (q < y') by nia. nia.
Qed.

(** Addresses outside the region can be added on both sides. *)
Lemma mapped_widen t l b lo hi lo' hi' G s G' s' :
  struct G s → mapped t l lo hi G s G' s' → G !! t = Some (l, b) →
  b ≤ lo' ≤ lo → lo ≤ hi ≤ hi' → hi' ≤ b + nent t * bs l → (bs l | lo') → (bs l | hi') →
  (∀ va, lo' ≤ va < lo → ¬ in_region r va) → (∀ va, hi ≤ va < hi' → ¬ in_region r va) →
  mapped t l lo' hi' G s G' s'.
Proof.
  intros ST MP E LO HI TOP DLO DHI OUT1 OUT2. destruct (st_label _ _ ST _ _ _ E) as ([L0 L1] & _). destruct (cfg_level CO) as [C0 _].
  assert (∀ va, lo' ≤ va < hi' → ¬ (lo ≤ va < hi) → ¬ in_region r va ∧ walk (t_mem s') t l va = walk (t_mem s) t l va) as SIDE.
  { intros va V N. split; [destruct (Z.lt_ge_cases va lo); [apply OUT1; lia|apply OUT2; lia]|].
    apply (mapped_outside t l lo hi G s G' s' t l b va ST MP); [lia|done|lia| |done]. unfold in_table. lia. }
  destruct MP as [[DL DH] SUB ST' CP REST EX FR NEW FSH HIT MISS CNT NDS]. constructor; try done.
  - intros t' l' b' k E' K D. apply (FR t' l' b' k E' K). lia.
  - intros t' l' b' E' N. destruct (NEW t' l' b' E' N) as (A & B & C). lia.
  - intros va V IN W. destruct (decide (lo ≤ va < hi)) as [I|I]; [by apply HIT|].
    by destruct (proj1 (SIDE va V I)).
  - intros va V IN W. destruct (decide (lo ≤ va < hi)) as [I|I]; [by apply MISS|].
    by rewrite (proj2 (SIDE va V I)).
  - intros i I. rewrite (CNT i I). f_equal. apply (delta_widen G' s'); try done; lia.
Qed.

Lemma mapped_trans t l b lo mid hi G s G1 s1 G2 s2 :
  struct G s → G !! t = Some (l, b) → b ≤ lo ≤ mid → mid ≤ hi ≤ b + nent t * bs l →
  mapped t l lo mid G s G1 s1 → mapped t l mid hi G1 s1 G2 s2 → mapped t l lo hi G s G2 s2.
Proof.
  intros ST E LO HI M1 M2. destruct (st_label _ _ ST _ _ _ E) as ([L0 L1] & _). destruct (cfg_level CO) as [C0 _].
  assert (∀ va, lo ≤ va < hi → in_table t l b va) as INT by (intros va V; unfold in_table; lia).
  assert (G1 !! t = Some (l, b)) as E1 by (eapply lookup_weaken; [exact E|exact (mp_sub _ _ _ _ _ _ _ _ M1)]).
  pose proof (mapped_outside t l lo mid G s G1 s1 t l b) as OUT1.
  pose proof (mapped_outside t l mid hi G1 s1 G2 s2 t l b) as OUT2.
  pose proof (mp_struct _ _ _ _ _ _ _ _ M1) as ST1.
  pose proof M1 as [[DL DM] SUB1 _ GR1 REST1 EX1 FR1 NEW1 FSH1 HIT1 MISS1 CNT1 NDS1].
  pose proof M2 as [[_ DH] SUB2 ST2 GR2 REST2 EX2 FR2 NEW2 FSH2 HIT2 MISS2 CNT2 NDS2].
  constructor; [done|by etrans|done|by eapply grows_trans|by eapply same_rest_trans|by eapply ext_trans| | | | | | |].
  - intros t' l' b' k E' K D. rewrite (FR2 t' l' b' k), (FR1 t' l' b' k); [done|done|done|lia| |done|lia].
    eapply lookup_weaken; [exact E'|exact SUB1].
  - intros t' l' b' E' N. destruct (G1 !! t') as [lb|] eqn:N1.
    + pose proof (lookup_weaken _ _ _ _ N1 SUB2) as W. injection (eq_trans (eq_sym E') W) as <-.
      destruct (NEW1 t' l' b' N1 N) as (? & ? & ?). lia.
    + destruct (NEW2 t' l' b' E' N1) as (? & ? & ?). lia.
  - intros t' l' b' va E' N V. destruct (G1 !! t') as [lb|] eqn:N1.
    + pose proof (lookup_weaken _ _ _ _ N1 SUB2) as W. injection (eq_trans (eq_sym E') W) as <-.
      by apply (FSH1 t' l' b' va N1 N).
    + destruct (NEW2 t' l' b' E' N1) as (? & ? & ?).
      rewrite <- (OUT1 va ST M1); [by apply (FSH2 t' l' b' va E' N1)|lia|done|lia|apply INT; lia|lia].
  - intros va V IN W. destruct (Z.lt_ge_cases va mid) as [C|C].
    + destruct (HIT1 va ltac:(lia) IN W) as (x & WX & MX). exists x. split; [|done]. by eapply walk_ext.
    + apply (HIT2 va ltac:(lia) IN). rewrite (OUT1 va ST M1); [done|lia|done|lia|by apply INT|lia].
  - intros va V IN W. destruct (Z.lt_ge_cases va mid) as [C|C].
    + rewrite (OUT2 va ST1 M2); [apply MISS1; [lia|done|done]|lia|done|lia|by apply INT|lia].
    + apply (MISS2 va ltac:(lia) IN). rewrite (OUT1 va ST M1); [done|lia|done|lia|by apply INT|lia].
  - intros i I. rewrite (CNT2 i I), (CNT1 i I). rewrite <- Z.add_assoc. f_equal. unfold delta.
    destruct (G1 !! table_at ctx i) as [[l' b']|] eqn:E'.
    + rewrite (lookup_weaken _ _ _ _ E' SUB2). destruct (l <? l'), (touches b' (b' + 512 * bs l'));
        cbn [andb]; rewrite ?andb_false_r, ?andb_true_r; try done.
      destruct (Z.leb_spec lo b'), (Z.ltb_spec b' mid), (Z.leb_spec mid b'), (Z.ltb_spec b' hi); cbn; lia.
    + destruct (G2 !! table_at ctx i) as [[l' b']|] eqn:E2; [|done]. destruct (NEW2 _ _ _ E2 E') as (A & B & C).
      rewrite (proj2 (Z.leb_le lo b')), (proj2 (Z.leb_le mid b')) by lia. lia.
  - intros t' l' b' E' N. destruct (G1 !! t') as [lb|] eqn:N1; [|by apply (NDS2 t')].
    pose proof (lookup_weaken _ _ _ _ N1 SUB2) as W. injection (eq_trans (eq_sym E') W) as <-. by apply (NDS1 t').
Qed.

(** ** One entry *)

Definition write (t k d : Z) (s : xlat) : xlat := set_word (entry_at t k) d s.

(** Writing an invalid entry changes no other word. *)
Lemma write_other G s t l b k d0 d w :
  struct G s → G !! t = Some (l, b) → 0 ≤ k < nent t → t_mem s !! entry_at t k = Some d0 → Z.land d0 3 = 0 →
  ext (t_mem s) (t_mem (write t k d s)) ∧
  (w ≠ entry_at t k → t_mem (write t k d s) !! w = t_mem s !! w).
Proof.
  intros ST E K D Z0. cbn. split.
  - intros w' d' E' N. rewrite lookup_insert_ne; [done|]. intros <-. rewrite D in E'. injection E' as ->. by rewrite Z0 in N.
  - intros N. by rewrite lookup_insert_ne.
Qed.

(** A new value of an invalid entry that the labels allow keeps the invariant. *)
Lemma write_struct G s t l b k d0 d :
  struct G s → G !! t = Some (l, b) → 0 ≤ k < nent t → t_mem s !! entry_at t k = Some d0 → Z.land d0 3 = 0 →
  entry_ok G l (b + k * bs l) d → struct G (write t k d s).
Proof.
  intros ST E K D Z0 OK. pose proof (label_is_table _ _ _ _ ST E) as IT.
  pose proof (λ w, write_other G s t l b k d0 d w ST E K D Z0) as WO.
  pose proof ST as [SB SL SI SE SU SC SD SF]. constructor; try done.
  - intros t' l' b' k' E' K'. destruct (decide (entry_at t' k' = entry_at t k)) as [EQ|NE].
    + apply entry_inj in EQ as [-> ->]; [|by eapply label_is_table|done|done|done]. rewrite E in E'. injection E' as <- <-.
      exists d. split; [cbn; by rewrite lookup_insert_eq|done].
    + rewrite (proj2 (WO _) NE). by apply SE.
  - intros t' l' b' E' NB. destruct (SU t' l' b' E' NB) as (p & k' & pb & d' & EP & EB & K' & D' & T & A).
    exists p, k', pb, d'. repeat (split; [done|]). split; [|done]. apply (proj1 (WO 0)); [done|by rewrite T].
  - intros i k' I N K'. rewrite (proj2 (WO _)); [by apply SF|]. intros EQ.
    apply entry_inj in EQ as [EQ _]; [congruence|by right; exists i|done|by rewrite nent_table|done].
Qed.

Lemma entry_start l b k va : l ≤ 3 → (bs l | b) → in_entry l b k va → va - va mod bs l = b + k * bs l.
Proof.
  intros L [q ->] V. pose proof (bs_pos l L) as P. unfold in_entry in V.
  rewrite (Z.mod_eq va (bs l)) by lia. replace (va / bs l) with (q + k); [lia|].
  apply (Z.div_unique _ _ _ (va - (q + k) * bs l)); [left; lia|lia].
Qed.

Lemma base_aligned G s t l b : struct G s → G !! t = Some (l, b) → (bs l | b).
Proof.
  intros ST E. destruct (st_label _ _ ST _ _ _ E) as (_ & _ & [q ->] & _). exists (q * 512). lia.
Qed.

(** No table is in use below an entry that is no table. *)
Lemma no_tables_below G s t l b k d t' l' b' :
  struct G s → G !! t = Some (l, b) → 0 ≤ k < nent t → t_mem s !! entry_at t k = Some d →
  (l = 3 ∨ Z.land d 3 ≠ 3) → G !! t' = Some (l', b') → l < l' → ¬ in_entry l b k b'.
Proof.
  intros ST E K D N. destruct (st_label _ _ ST _ _ _ E) as ([L0 L1] & B & DV & _). destruct (cfg_level CO) as [C0 _].
  destruct (nent_le t) as [_ NL]. remember (Z.to_nat (l' - l)) as n eqn:EN. revert t' l' b' EN.
  induction n as [|n IH]; intros t' l' b' EN E' LL V; [lia|].
  destruct (st_label _ _ ST _ _ _ E') as ([_ L3] & _).
  destruct (decide (t' = base_table ctx)) as [->|NB]; [rewrite (st_base _ _ ST) in E'; injection E'; lia|].
  destruct (st_up _ _ ST _ _ _ E' NB) as (p & k' & pb & d' & EP & EB & K' & D' & T & A).
  destruct (st_label _ _ ST _ _ _ EP) as ([_ L4] & B' & DV' & _). destruct (nent_le p) as [_ NP].
  pose proof (bs_pos (l' - 1) L4) as P'. unfold in_entry in *.
  destruct (decide (l' - 1 = l)) as [EL|NE].
  - rewrite EL in *. destruct DV as [q ->], DV' as [q' ->]. assert (q = q') as <- by nia. assert (k' = k) as -> by nia.
    rewrite (st_inj _ _ ST p t _ EP E), D in D'. injection D' as <-. lia.
  - apply (IH p (l' - 1) pb ltac:(lia) EP ltac:(lia)).
    assert (512 * bs (l' - 1) | bs l) as DB.
    { replace (512 * bs (l' - 1)) with (bs (l' - 2)) by (rewrite (bs_step (l' - 2)) by lia; do 2 f_equal; lia).
      exists (2 ^ (9 * (l' - 2 - l))). unfold bs. rewrite <- Z.pow_add_r by lia. f_equal. lia. }
    destruct DV' as [q' ->], DB as [c C], DV as [q ->]. rewrite C in V |- *. set (X := bs (l' - 1)) in *. clearbody X.
    replace (q * (512 * (c * (512 * X))) + k * (c * (512 * X))) with ((q * 512 * c + k * c) * (512 * X)) in * by lia.
    replace (q * (512 * (c * (512 * X))) + (k + 1) * (c * (512 * X))) with ((q * 512 * c + (k + 1) * c) * (512 * X)) in * by lia.
    assert (q * 512 * c + k * c ≤ q' < q * 512 * c + (k + 1) * c) by nia. nia.
Qed.

Lemma delta_none G s t l b k d tt :
  struct G s → G !! t = Some (l, b) → 0 ≤ k < nent t → t_mem s !! entry_at t k = Some d →
  (l = 3 ∨ Z.land d 3 ≠ 3) → delta l (b + k * bs l) (b + (k + 1) * bs l) G tt = 0.
Proof.
  intros ST E K D N. unfold delta. destruct (G !! tt) as [[l' b']|] eqn:E'; [|done].
  destruct (Z.ltb_spec l l') as [LL|]; [|done]. pose proof (no_tables_below G s t l b k d tt l' b' ST E K D N E' LL) as V.
  destruct (Z.leb_spec (b + k * bs l) b'), (Z.ltb_spec b' (b + (k + 1) * bs l)); try done. destruct V. by split.
Qed.

Lemma entry_aligned G s t l b k :
  struct G s → G !! t = Some (l, b) → (bs l | b + k * bs l) ∧ (bs l | b + (k + 1) * bs l).
Proof. intros ST E. split; by eapply label_entry_aligned. Qed.

Lemma leaf_kind l d : 0 ≤ l ≤ 3 → Z.land d 3 = desc_kind l → l = 3 ∨ Z.land d 3 ≠ 3.
Proof. intros L K. rewrite K. unfold desc_kind. destruct (Z.eqb_spec l 3); [by left|by right]. Qed.

(** An entry that is mapped already is left alone. *)
Lemma mapped_none G s t l b k d :
  struct G s → G !! t = Some (l, b) → 0 ≤ k < nent t → t_mem s !! entry_at t k = Some d →
  Z.land d 3 = desc_kind l → mapped t l (b + k * bs l) (b + (k + 1) * bs l) G s G s.
Proof.
  intros ST E K D KD. destruct (st_label _ _ ST _ _ _ E) as ([L0 L1] & _). destruct (cfg_level CO) as [C0 _].
  assert (∀ va, b + k * bs l ≤ va < b + (k + 1) * bs l → walk (t_mem s) t l va = Some (d, l)) as W
    by (intros va V; by apply (walk_leaf G s t l b k)).
  constructor; try done;
    [by eapply entry_aligned|apply grows_refl|apply ext_refl|intros t' l' b' E1 E2; congruence|intros t' l' b' va E1 E2; congruence|..].
  - intros va V _ WN. rewrite (W va V) in WN. discriminate WN.
  - intros i I. rewrite (delta_none G s t l b k d _ ST E K D (leaf_kind l d ltac:(lia) KD)). lia.
  - intros t' l' b' E1 E2. congruence.
Qed.

(** An invalid entry that the region covers is written. *)
Lemma mapped_block G s t l b k d0 :
  struct G s → G !! t = Some (l, b) → 0 ≤ k < nent t → t_mem s !! entry_at t k = Some d0 →
  Z.land d0 3 = 0 → 1 ≤ l → mm_base_va r ≤ b + k * bs l → b + (k + 1) * bs l - 1 ≤ last_va r →
  (bs l | mm_base_pa r + (b + k * bs l) - mm_base_va r) →
  mapped t l (b + k * bs l) (b + (k + 1) * bs l) G s G
    (write t k (desc_of (xlat_regime ctx) (u32 (mm_attr r)) (mm_base_pa r + (b + k * bs l) - mm_base_va r) l) s).
Proof.
  intros ST E K D Z0 L LO HI AL. set (pa := mm_base_pa r + _ - _) in *.
  set (d := desc_of _ _ pa l). set (s' := write t k d s).
  destruct (st_label _ _ ST _ _ _ E) as ([_ L1] & _).
  assert (Z.land d 3 = desc_kind l) as KD by (apply desc_of_type; eapply Z.divide_trans; [by apply bs_page|exact AL]).
  assert (struct G s') as ST'.
  { apply (write_struct G s t l b k d0 d ST E K D Z0). pose proof KD as KD'. unfold desc_kind in KD'.
    destruct (Z.eqb_spec l 3) as [L3|L3]; [by apply entry_page|apply entry_block; [lia|done]]. }
  assert (t_mem s' !! entry_at t k = Some d) as D' by (cbn; by rewrite lookup_insert_eq).
  pose proof (λ w, write_other G s t l b k d0 d w ST E K D Z0) as WO. fold s' in WO.
  constructor; try done;
    [by eapply entry_aligned| |exact (proj1 (WO 0))| |intros t' l' b' E1 E2; congruence
    |intros t' l' b' va E1 E2; congruence|..].
  - intros t' l' b' k' d' (E' & K' & E2 & T). destruct (decide (entry_at t' k' = entry_at t k)) as [EQ|NE].
    + apply entry_inj in EQ as [-> ->]; [|by eapply label_is_table|by eapply label_is_table|done|done].
      rewrite E in E'. injection E' as <- <-. by right.
    + rewrite (proj2 (WO _) NE) in E2. by left.
  - intros t' l' b' k' E' K' A. apply WO. intros EQ.
    apply entry_inj in EQ as [-> ->]; [|by eapply label_is_table|by eapply label_is_table|done|done].
    rewrite E in E'. injection E' as <- <-. pose proof (bs_pos l L1). lia.
  - intros va V _ _. exists (d, l). split; [by apply (walk_leaf G s' t l b k)|]. unfold maps. cbn.
    rewrite (entry_start l b k va L1 (base_aligned _ _ _ _ _ ST E) V). replace (b + k * bs l + bs l - 1) with (b + (k + 1) * bs l - 1) by lia.
    done.
  - intros va V N _. destruct N. unfold in_region. lia.
  - intros i I. rewrite (delta_none G s' t l b k d _ ST' E K D' (leaf_kind l d ltac:(lia) KD)). unfold s', cnt. cbn. lia.
  - intros t' l' b' E1 E2. congruence.
Qed.

Lemma delta_down G l b k i j :
  (∀ t' lb, G !! t' = Some lb → G !! table_at ctx i = Some lb → t' = table_at ctx i) →
  (∀ t' l' b', G !! t' = Some (l', b') → l' ≤ 3 ∧ (512 * bs l' | b')) → 0 ≤ l → (bs l | b) →
  G !! table_at ctx i = Some (l + 1, b + k * bs l) → touches (b + k * bs l) (b + (k + 1) * bs l) = true →
  delta l (b + k * bs l) (b + (k + 1) * bs l) G (table_at ctx j) =
    (if decide (i = j) then 1 else 0) + delta (l + 1) (b + k * bs l) (b + (k + 1) * bs l) G (table_at ctx j).
Proof.
  intros INJ LAB L0 [q ->] E TO. destruct (LAB _ _ _ E) as [L1 _]. unfold delta.
  assert (512 * bs (l + 1) = bs l) as BS by (rewrite (bs_step l); lia).
  destruct (decide (i = j)) as [<-|N].
  - rewrite E, BS, Z.ltb_irrefl. rewrite (proj2 (Z.ltb_lt l (l + 1))), Z.leb_refl by lia.
    pose proof (bs_pos l ltac:(lia)). rewrite (proj2 (Z.ltb_lt (q * bs l + k * bs l) _)) by lia. cbn [andb].
    replace (q * bs l + k * bs l + bs l) with (q * bs l + (k + 1) * bs l) by lia. by rewrite TO.
  - destruct (G !! table_at ctx j) as [[l' b']|] eqn:E'; [|done]. destruct (LAB _ _ _ E') as [L2 [q' Q]].
    destruct (decide (l' = l + 1)) as [->|NL].
    + rewrite Z.ltb_irrefl. cbn [andb]. destruct (Z.leb_spec (q * bs l + k * bs l) b') as [A|]; [|by rewrite andb_false_r].
      destruct (Z.ltb_spec b' (q * bs l + (k + 1) * bs l)) as [B|]; [|by rewrite andb_false_r].
      rewrite BS in Q. pose proof (bs_pos l ltac:(lia)). assert (q' = q + k) as -> by nia.
      destruct N. symmetry. apply table_at_inj, (INJ _ (l + 1, q * bs l + k * bs l)); [|done]. rewrite E'. do 2 f_equal. lia.
    + assert ((l <? l') = (l + 1 <? l')) as -> by (destruct (Z.ltb_spec l l'), (Z.ltb_spec (l + 1) l'); try reflexivity; lia). lia.
Qed.

(** Mapping what an entry describes through the table it points to.  [s1] is the state in
    which the loop over that table starts. *)
Lemma mapped_down G s G0 s1 G' s' t l b k i d1 :
  struct G s → struct G0 s1 → G !! t = Some (l, b) → 0 ≤ k < nent t → l < 3 → 0 ≤ i < tables_num ctx →
  G0 !! table_at ctx i = Some (l + 1, b + k * bs l) → G ⊆ G0 →
  (∀ t' lb, G0 !! t' = Some lb → G !! t' = None → t' = table_at ctx i) →
  (G !! table_at ctx i = None → needs (l + 1) (b + k * bs l) = true) →
  same_rest s s1 → grows G s G0 s1 →
  ext (t_mem s) (t_mem s1) →
  (∀ t' lb k', G !! t' = Some lb → 0 ≤ k' < nent t' → ¬ (t' = t ∧ k' = k) →
    t_mem s1 !! entry_at t' k' = t_mem s !! entry_at t' k') →
  t_mem s1 !! entry_at t k = Some d1 → Z.land d1 3 = 3 → Z.land d1 TABLE_ADDR_MASK = table_at ctx i →
  (∀ va, in_entry l b k va → walk (t_mem s) t l va = walk (t_mem s1) (table_at ctx i) (l + 1) va) →
  (∀ va, G !! table_at ctx i = None → in_entry l b k va → walk (t_mem s) t l va = None) →
  (∀ j, 0 ≤ j < tables_num ctx → cnt s1 j = cnt s j + if decide (i = j) then 1 else 0) →
  touches (b + k * bs l) (b + (k + 1) * bs l) = true →
  mapped (table_at ctx i) (l + 1) (b + k * bs l) (b + (k + 1) * bs l) G0 s1 G' s' →
  mapped t l (b + k * bs l) (b + (k + 1) * bs l) G s G' s'.
Proof.
  intros ST ST0 E K L3 I E0 SUB NEW0 NDS0 REST0 GR0 EX0 FR0 D1 T1 A1 WK FSH CN TO MP.
  destruct (st_label _ _ ST _ _ _ E) as ([L0 L1] & _). destruct (cfg_level CO) as [C0 _]. pose proof (bs_pos l L1) as BP.
  destruct MP as [_ SUB1 ST' GR1 REST1 EX1 FR1 NEW1 FSH1 HIT1 MISS1 CNT1 NDS1].
  assert (G' !! t = Some (l, b)) as E' by (eapply lookup_weaken; [exact E|by etrans]).
  assert (t_mem s' !! entry_at t k = Some d1) as D' by (apply EX1; [done|by rewrite T1]).
  assert (∀ va, in_entry l b k va → walk (t_mem s') t l va = walk (t_mem s') (table_at ctx i) (l + 1) va) as WK'
    by (intros va V; by rewrite (walk_down G' s' t l b k va d1 ST' E' K V D' L3 T1), A1).
  constructor; [by eapply entry_aligned|by etrans|done|by eapply grows_trans|by eapply same_rest_trans|by eapply ext_trans| | | | | | |].
  - intros t' l' b' k' E2 K' A. rewrite (FR1 t' l' b' k'); [|by eapply lookup_weaken|done|lia].
    apply (FR0 t' (l', b') k' E2 K'). intros [-> ->]. rewrite E in E2. injection E2 as <- <-. lia.
  - intros t' l' b' E2 N. destruct (G0 !! t') as [lb|] eqn:N0.
    + assert (t' = table_at ctx i) as -> by (by eapply NEW0).
      pose proof (lookup_weaken _ _ _ _ E0 SUB1) as W. rewrite E2 in W. injection W as -> ->. rewrite (bs_step l) by lia. lia.
    + destruct (NEW1 t' l' b' E2 N0) as (? & ? & ?). lia.
  - intros t' l' b' va E2 N V. destruct (G0 !! t') as [lb|] eqn:N0.
    + assert (t' = table_at ctx i) as -> by (by eapply NEW0).
      pose proof (lookup_weaken _ _ _ _ E0 SUB1) as W. rewrite E2 in W. injection W as -> ->.
      apply (FSH va N). rewrite <- (bs_step l) in V by lia. unfold in_entry. lia.
    + destruct (NEW1 t' l' b' E2 N0) as (? & ? & ?). rewrite (WK va); [by apply (FSH1 t' l' b' va)|]. unfold in_entry. lia.
  - intros va V IN W. rewrite (WK' va V). apply HIT1; [done|done|]. by rewrite <- (WK va V).
  - intros va V IN W. rewrite (WK' va V). apply MISS1; [done|done|]. by rewrite <- (WK va V).
  - intros j J. rewrite (CNT1 j J), (CN j J). rewrite (delta_down G' l b k i j); [lia| | |lia|by eapply base_aligned| |done].
    + intros t' lb EA EB. by apply (st_inj _ _ ST' _ _ lb).
    + intros t' l' b' EA. destruct (st_label _ _ ST' _ _ _ EA) as ([_ ?] & _ & ? & _). done.
    + by eapply lookup_weaken.
  - intros t' l' b' E2 N. destruct (G0 !! t') as [lb|] eqn:N0; [|by apply (NDS1 t')].
    assert (t' = table_at ctx i) as -> by (by eapply NEW0).
    pose proof (lookup_weaken _ _ _ _ E0 SUB1) as W. rewrite E2 in W. injection W as -> ->. by apply NDS0.
Qed.

(** ** Entering a table *)

Lemma bump_length d i s : length (tables_mapped_regions (bump d i s)) = length (tables_mapped_regions s).
Proof. apply length_insert. Qed.

Lemma bump_struct G s i lb :
  struct G s → 0 ≤ i < tables_num ctx → G !! table_at ctx i = Some lb → struct G (bump 1 i s).
Proof.
  intros ST I E. pose proof (st_counts _ _ ST) as LEN. pose proof ST as [SB SL SI SE SU SC SD SF].
  constructor; try done; [by rewrite bump_length|]. intros j J. rewrite (cnt_bump 1 i j s LEN I) by lia.
  destruct (SD j J) as [P Q]. destruct (decide (i = j)) as [<-|N]; [|rewrite Z.add_0_r; by split].
  split; [lia|]. rewrite E. split; [lia|discriminate].
Qed.

Lemma bump_compat G s i d : compat G s → compat G (bump d i s).
Proof. done. Qed.

Lemma entry_ok_weaken G G0 l eva d : G ⊆ G0 → entry_ok G l eva d → entry_ok G0 l eva d.
Proof.
  intros SUB [Z0|A B|A B|A B C]; [by apply entry_invalid|by apply entry_block|by apply entry_page|].
  apply entry_table; [done|done|by eapply lookup_weaken].
Qed.

(** [s] with a free table linked at an invalid entry, and counted. *)
Definition linked (t k i : Z) (s : xlat) : xlat := bump 1 i (write t k (Z.lor TABLE_DESC (table_at ctx i)) s).

Lemma free_label G s i : struct G s → 0 ≤ i < tables_num ctx → cnt s i = 0 → G !! table_at ctx i = None.
Proof. intros ST I C. by apply (st_used _ _ ST i I). Qed.

Lemma linked_words G s t l b k d0 i w :
  struct G s → G !! t = Some (l, b) → 0 ≤ k < nent t → t_mem s !! entry_at t k = Some d0 → Z.land d0 3 = 0 →
  ext (t_mem s) (t_mem (linked t k i s)) ∧
  (w ≠ entry_at t k → t_mem (linked t k i s) !! w = t_mem s !! w) ∧
  t_mem (linked t k i s) !! entry_at t k = Some (Z.lor TABLE_DESC (table_at ctx i)).
Proof.
  intros ST E K D Z0. destruct (write_other G s t l b k d0 (Z.lor TABLE_DESC (table_at ctx i)) w ST E K D Z0) as [A B].
  split; [exact A|]. split; [exact B|]. cbn. by rewrite lookup_insert_eq.
Qed.

Lemma linked_struct G s t l b k d0 i :
  struct G s → G !! t = Some (l, b) → 0 ≤ k < nent t → t_mem s !! entry_at t k = Some d0 → Z.land d0 3 = 0 →
  l < 3 → 0 ≤ i < tables_num ctx → cnt s i = 0 →
  struct (<[table_at ctx i := (l + 1, b + k * bs l)]> G) (linked t k i s).
Proof.
  intros ST E K D Z0 L3 I C. pose proof (free_label G s i ST I C) as FREE. destruct (table_at_page i I) as [PG R48].
  destruct (st_label _ _ ST _ _ _ E) as ([L0 L1] & B & DV & _). destruct (cfg_level CO) as [C0 _].
  pose proof (bs_pos l L1) as BP. assert (512 * bs (l + 1) = bs l) as BS by (rewrite (bs_step l); lia).
  pose proof (λ w, linked_words G s t l b k d0 i w ST E K D Z0) as LW. destruct (LW 0) as (EX & _ & DT).
  set (sub := table_at ctx i) in *. set (G0 := <[sub := _]> G). set (s1 := linked t k i s) in *.
  assert (G ⊆ G0) as SUB by (by apply insert_subseteq).
  assert (∀ t' lb, G0 !! t' = Some lb → t' = sub ∧ lb = (l + 1, b + k * bs l) ∨ t' ≠ sub ∧ G !! t' = Some lb) as INV.
  { intros t' lb E'. unfold G0 in E'. apply lookup_insert_Some in E' as [[-> ->]|[N E']]; [by left|by right]. }
  assert (∀ t', G !! t' = Some (l + 1, b + k * bs l) → False) as NEW.
  { intros t' E'. assert (Z.land d0 3 ≠ 3) as N3 by (rewrite Z0; discriminate).
    apply (no_tables_below G s t l b k d0 t' (l + 1) _ ST E K D (or_intror N3) E'); unfold in_entry; lia. }
  assert (∀ j k', 0 ≤ j < tables_num ctx → G !! table_at ctx j = None → 0 ≤ k' < 512 →
    t_mem s1 !! entry_at (table_at ctx j) k' = Some 0) as FZ.
  { intros j k' J N K'. rewrite (proj1 (proj2 (LW _))); [by apply (st_free _ _ ST)|]. intros EQ.
    apply entry_inj in EQ as [EQ _]; [congruence|by right; exists j|by eapply label_is_table|by rewrite nent_table|done]. }
  pose proof ST as [SB SL SI SE SU SC SD SF]. constructor.
  - unfold G0. rewrite lookup_insert_ne; [done|]. by apply table_not_base.
  - intros t' l' b' E'. destruct (INV _ _ E') as [(-> & EQ)|[_ E2]]; [injection EQ as -> ->|by apply SL].
    split; [lia|]. split; [nia|]. split; [|right; split; [lia|by exists i]]. rewrite BS. by eapply label_entry_aligned.
  - intros t1 t2 lb E1 E2. destruct (INV _ _ E1) as [(-> & ->)|[_ E1']], (INV _ _ E2) as [(-> & EQ)|[_ E2']]; try done.
    + by destruct (NEW t2).
    + subst lb. by destruct (NEW t1).
    + by apply (SI t1 t2 lb).
  - intros t' l' b' k' E' K'. destruct (INV _ _ E') as [(-> & EQ)|[_ E2]].
    + exists 0. split; [|by apply entry_invalid]. unfold sub in K'. rewrite nent_table in K' by done. by apply FZ.
    + destruct (decide (entry_at t' k' = entry_at t k)) as [EQ|NE].
      * apply entry_inj in EQ as [-> ->]; [|by eapply label_is_table|by eapply label_is_table|done|done].
        rewrite E in E2. injection E2 as <- <-. exists (Z.lor TABLE_DESC sub). split; [done|].
        apply entry_table; [done|by apply table_desc_type|]. rewrite table_desc_addr by done. unfold G0. by rewrite lookup_insert_eq.
      * destruct (SE t' l' b' k' E2 K') as (d & D2 & OK). exists d. rewrite (proj1 (proj2 (LW _)) NE). split; [done|].
        by eapply entry_ok_weaken.
  - intros t' l' b' E' NB. destruct (INV _ _ E') as [(-> & EQ)|[_ E2]].
    + injection EQ as -> ->. exists t, k, b, (Z.lor TABLE_DESC sub). replace (l + 1 - 1) with l by lia.
      split; [by eapply lookup_weaken|]. split; [done|]. split; [done|]. split; [done|].
      by rewrite table_desc_type, table_desc_addr.
    + destruct (SU t' l' b' E2 NB) as (p & k' & pb & d' & EP & EB & K' & D' & T & A). exists p, k', pb, d'.
      split; [by eapply lookup_weaken|]. split; [done|]. split; [done|]. split; [|done]. apply EX; [done|by rewrite T].
  - unfold s1, linked. by rewrite bump_length.
  - intros j J. unfold s1, linked. rewrite (cnt_bump 1 i j (write t k (Z.lor TABLE_DESC (table_at ctx i)) s) SC I (proj1 J)). change (cnt (write _ _ _ s) j) with (cnt s j).
    destruct (SD j J) as [P Q]. unfold G0. destruct (decide (i = j)) as [<-|N].
    + rewrite lookup_insert_eq. split; [lia|]. split; [lia|discriminate].
    + rewrite lookup_insert_ne by (intros EQ; by apply table_at_inj in EQ). rewrite Z.add_0_r. by split.
  - intros j k' J N K'. apply FZ; [done| |done]. unfold G0 in N. by apply lookup_insert_None in N as [N _].
Qed.

(** ** The choice of an action *)

Lemma touches_spec lo hi : touches lo hi = true ↔ mm_base_va r < hi ∧ lo ≤ last_va r.
Proof. unfold touches. rewrite andb_true_iff, Z.ltb_lt, Z.leb_le. done. Qed.

(** Bounds of the addresses of an entry. *)
Lemma entry_bounds G s t l b k :
  struct G s → G !! t = Some (l, b) → 0 ≤ k < nent t → 0 ≤ b + k * bs l ∧ b + (k + 1) * bs l ≤ 2 ^ 48.
Proof.
  intros ST E K. destruct (st_label _ _ ST _ _ _ E) as ([L0 L1] & B & _). pose proof (bs_pos l L1) as BP.
  split; [nia|]. assert (b + nent t * bs l ≤ 2 ^ 48); [|nia]. clear K k. revert t l b E L0 L1 B BP.
  assert (∀ n t l b, Z.to_nat (l - base_level ctx) = n → G !! t = Some (l, b) → b + nent t * bs l ≤ 2 ^ 48) as IND;
    [|intros t l b E _ _ _ _; by apply (IND _ t l b eq_refl)].
  induction n as [|n IH]; intros t l b N E; destruct (decide (t = base_table ctx)) as [->|NB].
  1, 3: rewrite (st_base _ _ ST) in E; injection E as <- <-; rewrite nent_base; pose proof va_limit; lia.
  { destruct (st_label _ _ ST _ _ _ E) as (_ & _ & _ & [T | (L & _)]); [done|lia]. }
  destruct (st_up _ _ ST _ _ _ E NB) as (p & k & pb & d & EP & EB & K & D & T & A).
  specialize (IH p (l - 1) pb ltac:(lia) EP). destruct (st_label _ _ ST _ _ _ EP) as ([L0 L1] & B & _).
  destruct (cfg_level CO) as [C0 _]. destruct (st_label _ _ ST _ _ _ E) as ([_ L3] & _).
  assert (nent t = 512) as ->.
  { destruct (st_label _ _ ST _ _ _ E) as (_ & _ & _ & [T' | (_ & i & I & ->)]); [done|by apply nent_table]. }
  assert (512 * bs l = bs (l - 1)) as -> by (rewrite (bs_step (l - 1)) by lia; by replace (l - 1 + 1) with l by lia).
  pose proof (bs_pos (l - 1) L1). nia.
Qed.

Lemma page_touch_covered e : (4096 | e) → touches e (e + 4096) = true → covered e (e + 4096).
Proof.
  intros [q ->] [T1 T2]%touches_spec. destruct (rg_page r RO) as ([v V] & _ & [z Z0]). unfold covered, last_va in *.
  rewrite V, Z0 in *. lia.
Qed.

Lemma map_action_run l eva d s :
  0 ≤ l ≤ 3 → 0 ≤ eva → eva + bs l ≤ 2 ^ 48 → (bs l | eva) → touches eva (eva + bs l) = true →
  (Z.land d 3 = 0 ∨ Z.land d 3 = desc_kind l ∧ covered eva (eva + bs l) ∨ l < 3 ∧ Z.land d 3 = 3) →
  ∃ a, xlat_tables_map_region_action r (Z.land d 3) (u64 (mm_base_pa r + eva - mm_base_va r)) eva l s = Ok a s ∧
    match a with
    | ACTION_NONE => Z.land d 3 = desc_kind l
    | ACTION_WRITE_BLOCK_ENTRY => Z.land d 3 = 0 ∧ 1 ≤ l ∧ covered eva (eva + bs l) ∧
        (bs l | mm_base_pa r + eva - mm_base_va r) ∧
        u64 (mm_base_pa r + eva - mm_base_va r) = mm_base_pa r + eva - mm_base_va r
    | ACTION_CREATE_NEW_TABLE => l < 3 ∧ Z.land d 3 = 0 ∧ block_fits l eva = false
    | ACTION_RECURSE_INTO_TABLE => l < 3 ∧ Z.land d 3 = 3
    end.
Proof.
  intros L E0 E1 AL TO KD. pose proof (bs_pos l (proj2 L)) as BP. pose proof (proj1 (touches_spec _ _) TO) as [T1 T2].
  unfold xlat_tables_map_region_action. rewrite end_va_eq, block_size_eq by (done || lia).
  rewrite (u64_id (eva + bs l - 1)) by (unfold is_u64; lia).
  assert (∀ d', covered eva (eva + bs l) → u64 (mm_base_pa r + eva - mm_base_va r) = d' → d' = mm_base_pa r + eva - mm_base_va r) as PA.
  { intros d' [C1 C2] <-. destruct (rg_pa r RO). unfold last_va in C2. apply u64_id. unfold is_u64. lia. }
  assert (l = 3 → (bs l | mm_base_pa r + eva - mm_base_va r)) as D3.
  { intros ->. rewrite bs_3 in *. destruct (rg_page r RO) as ([v ->] & [p ->] & _), AL as [q ->]. exists (p + q - v). lia. }
  assert (l = 3 → covered eva (eva + bs l)) as C3.
  { intros ->. rewrite bs_3 in *. by apply page_touch_covered. }
  destruct ((mm_base_va r <=? eva) && (eva + bs l - 1 <=? last_va r)) eqn:FULL.
  - apply andb_true_iff in FULL as [F1%Z.leb_le F2%Z.leb_le]. assert (covered eva (eva + bs l)) as C by (split; lia).
    destruct (Z.eqb_spec l 3) as [L3|L3].
    + destruct KD as [-> | [[KD _] | [? _]]]; [|rewrite KD; unfold desc_kind|lia].
      * exists ACTION_WRITE_BLOCK_ENTRY. split; [reflexivity|]. split; [done|]. split; [lia|]. split; [done|].
        split; [by apply D3|]. by apply PA.
      * rewrite L3. exists ACTION_NONE. by split.
    + destruct KD as [-> | [[KD _] | [_ ->]]].
      * cbn [Z.eqb TABLE_DESC INVALID_DESC]. destruct (truthy _ || _ || _) eqn:CR.
        { exists ACTION_CREATE_NEW_TABLE. split; [reflexivity|]. split; [lia|]. split; [done|].
          unfold block_fits. apply orb_true_iff in CR as [[CR|CR]%orb_true_iff|CR].
          - rewrite land_block_mask in CR by lia. rewrite (PA _ C eq_refl) in CR. unfold truthy in CR. apply negb_true_iff in CR.
            rewrite CR. by rewrite andb_false_r.
          - unfold MIN_LVL_BLOCK_DESC in CR. apply Z.ltb_lt in CR. rewrite (proj2 (Z.leb_gt 1 l)) by lia. by rewrite !andb_false_r.
          - apply Z.ltb_lt in CR. rewrite (proj2 (Z.leb_gt (bs l) _)) by lia. apply andb_false_r. }
        exists ACTION_WRITE_BLOCK_ENTRY. apply orb_false_iff in CR as [[CR1 CR2%Z.ltb_ge]%orb_false_iff _].
        split; [reflexivity|]. split; [done|]. split; [unfold MIN_LVL_BLOCK_DESC in CR2; lia|]. split; [done|].
        rewrite land_block_mask in CR1 by lia. rewrite (PA _ C eq_refl) in CR1 |- *. split; [|done].
        apply Z.mod_divide; [lia|]. unfold truthy in CR1. by apply negb_false_iff, Z.eqb_eq in CR1.
      * rewrite KD. unfold desc_kind. rewrite (proj2 (Z.eqb_neq l 3) L3). exists ACTION_NONE. by split.
      * exists ACTION_RECURSE_INTO_TABLE. split; [reflexivity|]. split; [lia|done].
  - assert (¬ covered eva (eva + bs l)) as NC.
    { intros [C1 C2]. apply andb_false_iff in FULL as [F%Z.leb_gt|F%Z.leb_gt]; lia. }
    assert ((mm_base_va r <=? eva + bs l - 1) = true) as -> by (apply Z.leb_le; lia). cbn [orb].
    assert (l < 3) as L3 by (destruct (decide (l = 3)); [by destruct NC; apply C3|lia]).
    rewrite (proj2 (Z.ltb_lt l 3) L3). cbn [xassert]. rewrite bind_ret_l.
    destruct KD as [-> | [[_ KD] | [_ ->]]]; [|done|].
    + exists ACTION_CREATE_NEW_TABLE. split; [reflexivity|]. split; [lia|]. split; [done|]. unfold block_fits.
      destruct (mm_base_va r <=? eva); [|done]. cbn [andb] in FULL |- *. by rewrite FULL.
    + exists ACTION_RECURSE_INTO_TABLE. split; [reflexivity|]. split; [lia|done].
Qed.

(** ** The loop over a table *)

(** Some of the region was mapped. *)
Record partly (G : gmap Z (Z * Z)) (s : xlat) (G' : gmap Z (Z * Z)) (s' : xlat) : Prop := {
  pt_struct : struct G' s';
  pt_sub : G ⊆ G';
  pt_new : ∀ t l b, G' !! t = Some (l, b) → G !! t = None → needs l b = true;
  pt_grows : grows G s G' s';
  pt_rest : same_rest s s';
  pt_cnt : ∀ i, 0 ≤ i < tables_num ctx → cnt s i ≤ cnt s' i
}.

Lemma partly_trans G s G1 s1 G2 s2 : partly G s G1 s1 → partly G1 s1 G2 s2 → partly G s G2 s2.
Proof.
  intros [_ SB1 NW1 GR1 RE1 C1] [ST SB2 NW2 GR2 RE2 C2].
  constructor; [done|by etrans| |by eapply grows_trans|by eapply same_rest_trans|].
  - intros t l b E N. destruct (G1 !! t) as [lb|] eqn:E1; [|by apply (NW2 t)].
    pose proof (lookup_weaken _ _ _ _ E1 SB2) as W. rewrite E in W. injection W as <-. by apply (NW1 t).
  - intros i I. etrans; [by apply C1|by apply C2].
Qed.

Lemma mapped_partly t l lo hi G s G' s' : struct G s → mapped t l lo hi G s G' s' → partly G s G' s'.
Proof.
  intros ST0 [_ SB ST GR RE _ _ _ _ _ _ C NDS]. constructor; [done|done|exact NDS|done|done|].
  intros i I. rewrite (C i I). pose proof (delta_le l lo hi G' (table_at ctx i)). lia.
Qed.

(** The result of mapping the addresses from [lo] up to [hi]: all of them, or the tables
    are used up. *)
Definition outcome_ok (t l lo hi : Z) (G : gmap Z (Z * Z)) (s : xlat) (e : Z) (s' : xlat) : Prop :=
  (e = Z.min (last_va r) (hi - 1) ∧ ∃ G', mapped t l lo hi G s G' s') ∨
  (e < Z.min (last_va r) (hi - 1) ∧ exhausted s' ∧ ∃ G', partly G s G' s').

Definition rec_ok (l : Z) (rec : Z → Z → M xlat Z) : Prop := ∀ G s i eva,
  0 ≤ i < tables_num ctx → G !! table_at ctx i = Some (l + 1, eva) → struct G (bump 1 i s) → compat G (bump 1 i s) →
  touches eva (eva + bs l) = true →
  run_to (rec eva (table_at ctx i)) s (outcome_ok (table_at ctx i) (l + 1) eva (eva + bs l) G (bump 1 i s)).

Lemma last_va_page : (4096 | last_va r + 1).
Proof.
  destruct (rg_page r RO) as ([v V] & _ & [z Z0]). exists (v + z). unfold last_va. lia.
Qed.

(** After an entry the loop goes on with the next one, up to the end of the region or of
    the table. *)
Lemma map_next rec n t l b k G s G1 s1 :
  struct G s → G !! t = Some (l, b) → 0 ≤ k < nent t → mm_base_va r < b + (k + 1) * bs l →
  b + (k + 1) * bs l - 1 ≤ last_va r →
  mapped t l (b + k * bs l) (b + (k + 1) * bs l) G s G1 s1 →
  (k + 1 < nent t → touches (b + (k + 1) * bs l) (b + (k + 1 + 1) * bs l) = true →
    run_to (map_entries ctx rec n r t (nent t) l (k + 1) (b + (k + 1) * bs l)) s1
      (outcome_ok t l (b + (k + 1) * bs l) (b + nent t * bs l) G1 s1)) →
  n ≠ O →
  run_to (let va := u64 (b + k * bs l + XLAT_BLOCK_SIZE l) in
    if end_va_of r <=? va then ret (u64 (va - 1)) else map_entries ctx rec n r t (nent t) l (k + 1) va) s1
    (outcome_ok t l (b + k * bs l) (b + nent t * bs l) G s).
Proof.
  intros ST E K T1 COV MP REC N. destruct (st_label _ _ ST _ _ _ E) as ([_ L1] & B & _).
  destruct (entry_bounds G s t l b k ST E K) as [V0 V1]. destruct (entry_aligned G s t l b k ST E) as [_ AL].
  pose proof (bs_pos l L1) as BP. cbv zeta.
  rewrite block_size_eq, end_va_eq by done. replace (b + k * bs l + bs l) with (b + (k + 1) * bs l) by lia.
  rewrite (u64_id (b + (k + 1) * bs l)) by (unfold is_u64; lia).
  assert (b + (k + 1) * bs l ≤ b + nent t * bs l) as TOP by nia.
  assert ((bs l | b + nent t * bs l)) as ALT by (apply Z.divide_add_r; [by eapply base_aligned|by exists (nent t)]).
  assert (last_va r ≠ b + (k + 1) * bs l) as NE.
  { destruct last_va_page as [p P], (Z.divide_trans _ _ _ (bs_page l L1) AL) as [q Q]. lia. }
  destruct (Z.leb_spec (last_va r) (b + (k + 1) * bs l)) as [END|GO].
  - rewrite u64_id by (unfold is_u64; lia). apply run_to_ret. left. split; [lia|]. exists G1.
    eapply (mapped_widen t l b); [done|exact MP|done|nia|lia|lia|by eapply entry_aligned|done|lia|].
    intros va V [_ IN]. lia.
  - destruct (decide (k + 1 < nent t)) as [LT|GE].
    + eapply run_to_mono; [apply REC; [done|apply touches_spec; lia]|].
      intros e s' [[-> (G' & M2)]|(LT' & EX & G' & PT)].
      2: { right. split; [done|]. split; [done|]. exists G'. eapply partly_trans; [by eapply mapped_partly; [exact ST|exact MP]|done]. }
      left. split; [done|]. exists G'.
      eapply (mapped_trans t l b); [done|done| | |exact MP|exact M2]; nia.
    + assert (k + 1 = nent t) as KE by lia. destruct n as [|n]; [done|]. cbn [map_entries].
      rewrite (proj2 (Z.leb_le (nent t) (k + 1))) by lia. rewrite u64_id by (unfold is_u64; lia).
      apply run_to_ret. left. rewrite KE in *. split; [lia|]. by exists G1.
Qed.

(** Going into the table [i] below entry [k]; [s0] is the state in which it is entered. *)
Lemma map_recurse rec n t l b k sub i G s G0 s0 :
  rec_ok l rec → struct G s → compat G s → G !! t = Some (l, b) → 0 ≤ k < nent t → l < 3 → 0 ≤ i < tables_num ctx →
  touches (b + k * bs l) (b + (k + 1) * bs l) = true →
  G0 !! table_at ctx i = Some (l + 1, b + k * bs l) → struct G0 (bump 1 i s0) → compat G0 (bump 1 i s0) →
  (∀ G' s', mapped (table_at ctx i) (l + 1) (b + k * bs l) (b + (k + 1) * bs l) G0 (bump 1 i s0) G' s' →
    mapped t l (b + k * bs l) (b + (k + 1) * bs l) G s G' s') →
  partly G s G0 (bump 1 i s0) → sub = table_at ctx i →
  (∀ G1 s1, struct G1 s1 → compat G1 s1 → G1 !! t = Some (l, b) → k + 1 < nent t →
    touches (b + (k + 1) * bs l) (b + (k + 1 + 1) * bs l) = true →
    run_to (map_entries ctx rec n r t (nent t) l (k + 1) (b + (k + 1) * bs l)) s1
      (outcome_ok t l (b + (k + 1) * bs l) (b + nent t * bs l) G1 s1)) →
  n ≠ O →
  run_to (let* end_va := rec (b + k * bs l) sub in
    if negb (end_va =? u64 (b + k * bs l + XLAT_BLOCK_SIZE l - 1)) then ret end_va
    else let va := u64 (b + k * bs l + XLAT_BLOCK_SIZE l) in
      if end_va_of r <=? va then ret (u64 (va - 1)) else map_entries ctx rec n r t (nent t) l (k + 1) va) s0
    (outcome_ok t l (b + k * bs l) (b + nent t * bs l) G s).
Proof.
  intros REC ST CP E K L3 I TO E0 ST0 CP0 LIFT PT0 -> NEXT N. destruct (st_label _ _ ST _ _ _ E) as ([_ L1] & B & _).
  destruct (entry_bounds G s t l b k ST E K) as [V0 V1]. pose proof (bs_pos l L1) as BP.
  pose proof (proj1 (touches_spec _ _) TO) as [T1 T2]. replace (b + (k + 1) * bs l) with (b + k * bs l + bs l) in T1, TO by lia.
  assert (b + (k + 1) * bs l ≤ b + nent t * bs l) as TOP by nia.
  assert ((bs l | b + nent t * bs l)) as ALT by (apply Z.divide_add_r; [exact (base_aligned _ _ _ _ _ ST E)|by exists (nent t)]).
  eapply run_to_bind; [by apply (REC G0 s0 i (b + k * bs l))|]. rewrite block_size_eq by done.
  rewrite (u64_id (b + k * bs l + bs l - 1)) by (unfold is_u64; lia).
  intros e s' [[-> (G' & M1)]|(LT & EX & G' & PT)].
  - replace (b + k * bs l + bs l) with (b + (k + 1) * bs l) in * by lia. specialize (LIFT _ _ M1).
    destruct (Z.eqb_spec (Z.min (last_va r) (b + (k + 1) * bs l - 1)) (b + (k + 1) * bs l - 1)) as [EQ|NE]; cbn [negb].
    + pose proof (map_next rec n t l b k G s G' s' ST E K T1 ltac:(lia) LIFT) as MN. rewrite block_size_eq in MN by done.
      replace (b + k * bs l + bs l) with (b + (k + 1) * bs l) in MN by lia. apply MN; [|done].
      intros LT TO'. apply NEXT; [by eapply mp_struct|eapply compat_grows; [exact CP|by eapply mp_grows]|eapply lookup_weaken; [exact E|by eapply mp_sub]|done|done].
    + apply run_to_ret. left. split; [lia|]. exists G'.
      eapply (mapped_widen t l b); [done|exact LIFT|done|nia|lia|lia|exact (proj1 (entry_aligned G s t l b k ST E))|done|lia|].
      intros va V [_ IN]. lia.
  - rewrite (proj2 (Z.eqb_neq e _)) by lia. apply run_to_ret. right. split; [lia|]. split; [done|]. exists G'. by eapply partly_trans.
Qed.

(** An entry that the region meets begins before its last address. *)
Lemma page_before_last t l b k G s :
  struct G s → G !! t = Some (l, b) → 0 ≤ k < nent t → b + k * bs l ≤ last_va r →
  b + k * bs l < Z.min (last_va r) (b + nent t * bs l - 1).
Proof.
  intros ST E K LE. destruct (st_label _ _ ST _ _ _ E) as ([_ L1] & _). pose proof (bs_pos l L1) as BP.
  destruct last_va_page as [p P], (Z.divide_trans _ _ _ (bs_page l L1) (proj1 (entry_aligned G s t l b k ST E))) as [q Q].
  nia.
Qed.

Lemma linked_grows G s t l b k d i :
  struct G s → G !! t = Some (l, b) → 0 ≤ k < nent t → t_mem s !! entry_at t k = Some d → Z.land d 3 = 0 →
  l < 3 → 0 ≤ i < tables_num ctx → cnt s i = 0 →
  grows G s (<[table_at ctx i := (l + 1, b + k * bs l)]> G) (linked t k i s).
Proof.
  intros ST E K D Z0 L3 I C t' l' b' k' d' (E' & K' & D' & KD). pose proof (free_label G s i ST I C) as FREE.
  pose proof (λ w, linked_words G s t l b k d i w ST E K D Z0) as LW. destruct (LW 0) as (_ & _ & DT).
  apply lookup_insert_Some in E' as [[<- EQ]|[NE E']].
  - rewrite nent_table in K' by done. rewrite (proj1 (proj2 (LW _))), (st_free _ _ ST i k' I FREE K') in D'.
    + injection D' as <-. revert KD. unfold desc_kind. by destruct (l' =? 3).
    + intros EQ2. apply entry_inj in EQ2 as [EQ2 _]; [congruence|by right; exists i|by eapply label_is_table|by rewrite nent_table|done].
  - destruct (decide (entry_at t' k' = entry_at t k)) as [EQ|NE2].
    + apply entry_inj in EQ as [-> ->]; [|by eapply label_is_table|by eapply label_is_table|done|done].
      rewrite E in E'. injection E' as <- <-. rewrite DT in D'. injection D' as <-.
      rewrite table_desc_type in KD by apply (table_at_page i I). revert KD. unfold desc_kind.
      by rewrite (proj2 (Z.eqb_neq l 3)) by lia.
    + rewrite (proj1 (proj2 (LW _)) NE2) in D'. by left.
Qed.

(** All entries of a table invalid: nothing is mapped by it. *)
Lemma walk_empty G s t l b va :
  struct G s → G !! t = Some (l, b) → in_table t l b va → (∀ k, 0 ≤ k < nent t → t_mem s !! entry_at t k = Some 0) →
  walk (t_mem s) t l va = None.
Proof.
  intros ST E V Z0. destruct (st_label _ _ ST _ _ _ E) as ([_ L1] & _). destruct (locate t l b va L1 V) as (k & K & VK).
  by apply (walk_invalid G s t l b k va 0 ST E K VK (Z0 k K)).
Qed.

Lemma needs_below l b k :
  0 ≤ l < 3 → touches (b + k * bs l) (b + (k + 1) * bs l) = true → block_fits l (b + k * bs l) = false →
  needs (l + 1) (b + k * bs l) = true.
Proof.
  intros L TO NF. unfold needs. rewrite <- bs_step by lia. replace (b + k * bs l + bs l) with (b + (k + 1) * bs l) by lia.
  replace (l + 1 - 1) with l by lia. by rewrite TO, NF.
Qed.

Lemma lift_create G s G' s' t l b k d i :
  struct G s → G !! t = Some (l, b) → 0 ≤ k < nent t → t_mem s !! entry_at t k = Some d → Z.land d 3 = 0 →
  l < 3 → 0 ≤ i < tables_num ctx → cnt s i = 0 → touches (b + k * bs l) (b + (k + 1) * bs l) = true →
  block_fits l (b + k * bs l) = false →
  mapped (table_at ctx i) (l + 1) (b + k * bs l) (b + (k + 1) * bs l)
    (<[table_at ctx i := (l + 1, b + k * bs l)]> G) (linked t k i s) G' s' →
  mapped t l (b + k * bs l) (b + (k + 1) * bs l) G s G' s'.
Proof.
  intros ST E K D Z0 L3 I C TO NF. pose proof (free_label G s i ST I C) as FREE. destruct (table_at_page i I) as [PG R48].
  pose proof (linked_struct G s t l b k d i ST E K D Z0 L3 I C) as ST0.
  pose proof (λ w, linked_words G s t l b k d i w ST E K D Z0) as LW. destruct (LW 0) as (EX & _ & DT).
  assert (<[table_at ctx i := (l + 1, b + k * bs l)]> G !! table_at ctx i = Some (l + 1, b + k * bs l)) as E0
    by apply lookup_insert_eq.
  apply (mapped_down G s _ (linked t k i s) G' s' t l b k i (Z.lor TABLE_DESC (table_at ctx i))); try done.
  - by apply insert_subseteq.
  - intros t' lb [[<- _]|[_ E']]%lookup_insert_Some N; [done|congruence].
  - intros _. destruct (st_label _ _ ST _ _ _ E) as ([L0 _] & _). destruct (cfg_level CO). by apply needs_below; [lia|..].
  - by apply (linked_grows G s t l b k d i).
  - intros t' lb k' E' K' NE. apply LW. intros EQ.
    apply entry_inj in EQ as [-> ->]; [by apply NE|exact (label_is_table _ _ _ _ ST E')|exact (label_is_table _ _ _ _ ST E)|done|done].
  - by apply table_desc_type.
  - by apply table_desc_addr.
  - intros va V. rewrite (walk_invalid G s t l b k va d ST E K V D Z0). symmetry.
    apply (walk_empty _ _ _ (l + 1) (b + k * bs l) va ST0 E0).
    + assert (G !! t = Some (l, b) → <[table_at ctx i := (l + 1, b + k * bs l)]> G !! t = Some (l, b)) as W
        by (intros _; eapply lookup_weaken; [exact E|by apply insert_subseteq]).
      apply (below_table _ _ t _ l b k ST0 (W E) E0). exact V.
    + intros k' K'. rewrite nent_table in K' by done. rewrite (proj1 (proj2 (LW _))); [by apply (st_free _ _ ST)|].
      intros EQ. apply entry_inj in EQ as [EQ _]; [congruence|by right; exists i|exact (label_is_table _ _ _ _ ST E)|by rewrite nent_table|done].
  - intros va _ V. by rewrite (walk_invalid G s t l b k va d ST E K V D Z0).
  - intros j J. unfold linked. rewrite (cnt_bump 1 i j (write t k (Z.lor TABLE_DESC (table_at ctx i)) s) (st_counts _ _ ST) I (proj1 J)).
    done.
Qed.

Lemma lift_recurse G s G' s' t l b k d i :
  struct G s → G !! t = Some (l, b) → 0 ≤ k < nent t → t_mem s !! entry_at t k = Some d → Z.land d 3 = 3 →
  l < 3 → 0 ≤ i < tables_num ctx → Z.land d TABLE_ADDR_MASK = table_at ctx i →
  G !! table_at ctx i = Some (l + 1, b + k * bs l) → touches (b + k * bs l) (b + (k + 1) * bs l) = true →
  mapped (table_at ctx i) (l + 1) (b + k * bs l) (b + (k + 1) * bs l) G (bump 1 i s) G' s' →
  mapped t l (b + k * bs l) (b + (k + 1) * bs l) G s G' s'.
Proof.
  intros ST E K D T3 L3 I A GT TO.
  apply (mapped_down G s G (bump 1 i s) G' s' t l b k i d); try done.
  - by eapply bump_struct.
  - intros t' lb E1 E2. congruence.
  - intros N. congruence.
  - intros t1 l1 b1 k1 d1 LF. by left.
  - apply ext_refl.
  - intros va V. by rewrite (walk_down G s t l b k va d ST E K V D L3 T3), A.
  - intros va N. congruence.
  - intros j J. apply (cnt_bump 1 i j s (st_counts _ _ ST) I (proj1 J)).
Qed.

Lemma partly_refl G s : struct G s → partly G s G s.
Proof.
  intros ST. constructor; [done|done| |apply grows_refl|apply same_rest_refl|done]. intros t l b E N. congruence.
Qed.

Lemma bump_partly G s i lb :
  struct G s → 0 ≤ i < tables_num ctx → G !! table_at ctx i = Some lb → partly G s G (bump 1 i s).
Proof.
  intros ST I E. constructor; [by eapply bump_struct|done|intros t l b E1 N; congruence|intros t1 l1 b1 k1 d1 LF; by left|done|]. intros j J.
  rewrite (cnt_bump 1 i j s (st_counts _ _ ST) I (proj1 J)). destruct (decide (i = j)); lia.
Qed.

Lemma linked_partly G s t l b k d i :
  struct G s → G !! t = Some (l, b) → 0 ≤ k < nent t → t_mem s !! entry_at t k = Some d → Z.land d 3 = 0 →
  l < 3 → 0 ≤ i < tables_num ctx → cnt s i = 0 → touches (b + k * bs l) (b + (k + 1) * bs l) = true →
  block_fits l (b + k * bs l) = false →
  partly G s (<[table_at ctx i := (l + 1, b + k * bs l)]> G) (linked t k i s).
Proof.
  intros ST E K D Z0 L3 I C TO NF. destruct (st_label _ _ ST _ _ _ E) as ([L0 _] & _). destruct (cfg_level CO).
  constructor; [by eapply linked_struct|by apply insert_subseteq, (free_label G s)| |by eapply linked_grows|done|].
  - intros t' l' b' [[<- [= <- <-]]|[_ E']]%lookup_insert_Some N; [|congruence].
    by apply needs_below; [lia|..].
  - intros j J. unfold linked. rewrite (cnt_bump 1 i j (write t k (Z.lor TABLE_DESC (table_at ctx i)) s) (st_counts _ _ ST) I (proj1 J)).
    change (cnt (write _ _ _ s) j) with (cnt s j). destruct (decide (i = j)); lia.
Qed.

(** One entry that the region meets. *)
Lemma map_loop_run rec n t l b k G s :
  rec_ok l rec → struct G s → compat G s → G !! t = Some (l, b) → 0 ≤ k < nent t → nent t - k < Z.of_nat n →
  touches (b + k * bs l) (b + (k + 1) * bs l) = true →
  run_to (map_entries ctx rec n r t (nent t) l k (b + k * bs l)) s (outcome_ok t l (b + k * bs l) (b + nent t * bs l) G s).
Proof.
  intros REC. revert k G s. induction n as [|n IH]; intros k G s ST CP E K F TO; [lia|]. cbn [map_entries].
  rewrite (proj2 (Z.leb_gt (nent t) k)) by lia. destruct (st_entry _ _ ST _ _ _ k E K) as (d & D & OK).
  eapply run_to_step; [by apply load_run|]. cbv zeta.
  destruct (st_label _ _ ST _ _ _ E) as ([L0 L1] & B & _). destruct (cfg_level CO) as [C0 _].
  destruct (entry_bounds G s t l b k ST E K) as [V0 V1]. destruct (entry_aligned G s t l b k ST E) as [AL _].
  pose proof (bs_pos l L1) as BP. pose proof (proj1 (touches_spec _ _) TO) as [T1 T2].
  assert (∀ G1 s1, struct G1 s1 → compat G1 s1 → G1 !! t = Some (l, b) → k + 1 < nent t →
    touches (b + (k + 1) * bs l) (b + (k + 1 + 1) * bs l) = true →
    run_to (map_entries ctx rec n r t (nent t) l (k + 1) (b + (k + 1) * bs l)) s1
      (outcome_ok t l (b + (k + 1) * bs l) (b + nent t * bs l) G1 s1)) as NEXT.
  { intros G1 s1 ST1 CP1 E1 LT TO1. apply IH; [done|done|done|lia|lia|done]. }
  assert (n ≠ O) as N by lia. replace (b + (k + 1) * bs l) with (b + k * bs l + bs l) in T1, TO, V1 by lia.
  assert (Z.land d 3 = desc_kind l → covered (b + k * bs l) (b + k * bs l + bs l)) as COV.
  { intros KD. destruct (CP t l b k d E K D KD) as [C|C]; unfold covered; lia. }
  destruct (map_action_run l (b + k * bs l) d s) as (a & EA & A); try done; [lia| |].
  { destruct OK as [Z0|? Z1|? Z3|? Z3 _]; [by left| | |right; right; lia]; right; left.
    - assert (Z.land d 3 = desc_kind l) as KD by (unfold desc_kind; by rewrite (proj2 (Z.eqb_neq l 3)) by lia). auto.
    - assert (Z.land d 3 = desc_kind l) as KD by (unfold desc_kind; by rewrite (proj2 (Z.eqb_eq l 3)) by lia). auto. }
  eapply run_to_step; [exact EA|]. destruct a.
  - apply (map_next rec n t l b k G s G s); [done|done|done|lia|destruct (COV A); lia|by apply (mapped_none G s t l b k d)| |done].
    intros LT TO1. by apply NEXT.
  - destruct A as (Z0 & L & [C1 C2] & DV & PA). rewrite PA.
    eapply run_to_step; [by apply xlat_desc_run; [apply (rg_attr r RO)|done|lia]|].
    eapply run_to_step; [by eapply store_run|]. replace (b + k * bs l + bs l) with (b + (k + 1) * bs l) in * by lia.
    pose proof (mapped_block G s t l b k d ST E K D Z0 L C1 C2 DV) as MP.
    eapply map_next; [done|done|done|lia|lia|exact MP| |done].
    intros LT TO1. apply NEXT; [by eapply mp_struct|eapply compat_grows; [exact CP|by eapply mp_grows]|done|done|done].
  - destruct A as (L3 & Z0 & NF). destruct (get_empty_run s) as (e & GE & C). eapply run_to_step; [exact GE|].
    destruct e as [sub|]; [|apply run_to_ret; right; split; [exact (page_before_last t l b k G s ST E K T2)|split; [done|exists G; by apply partly_refl]]].
    destruct C as (i & I & -> & C). eapply run_to_step; [by eapply store_run|].
    replace (b + k * bs l + bs l) with (b + (k + 1) * bs l) in * by lia.
    pose proof (linked_struct G s t l b k d i ST E K D Z0 L3 I C) as ST0.
    eapply (map_recurse rec n t l b k _ i G s _ (write t k (Z.lor TABLE_DESC (table_at ctx i)) s));
      [done|done|done|done|done|done|done|done|by rewrite lookup_insert_eq|exact ST0| | | |done|done|done].
    + eapply compat_grows; [exact CP|by apply (linked_grows G s t l b k d i)].
    + intros G' s'. by apply (lift_create G s G' s' t l b k d i).
    + by apply (linked_partly G s t l b k d i).
  - destruct A as [L3 T3]. destruct OK as [Z0|_ Z1|Z3 _|_ _ GT]; [lia|lia|lia|].
    destruct (below_table G s t _ l b k ST E GT) as (NB & _ & _).
    destruct (st_label _ _ ST _ _ _ GT) as (_ & _ & _ & [T | (_ & i & I & T)]); [done|]. rewrite T in GT.
    replace (b + k * bs l + bs l) with (b + (k + 1) * bs l) in * by lia.
    eapply (map_recurse rec n t l b k _ i G s G s);
      [done|done|done|done|done|done|done|done|done|by eapply bump_struct|done| | |done|done|done].
    + intros G' s'. by apply (lift_recurse G s G' s' t l b k d i).
    + by eapply bump_partly.
Qed.

(** ** A table *)

(** The first entry of a table that the region meets. *)
Lemma find_start_run G s t l b :
  struct G s → G !! t = Some (l, b) → touches b (b + nent t * bs l) = true →
  ∃ k, 0 ≤ k < nent t ∧ xlat_tables_find_start_va r b l = b + k * bs l ∧
    xlat_tables_va_to_index b (b + k * bs l) l = k ∧ touches (b + k * bs l) (b + (k + 1) * bs l) = true ∧
    ∀ va, b ≤ va < b + k * bs l → ¬ in_region r va.
Proof.
  intros ST E [T1 T2]%touches_spec. destruct (st_label _ _ ST _ _ _ E) as ([L0 L1] & B & _). pose proof (bs_pos l L1) as BP.
  destruct (rg_va r RO) as [R0 R1]. pose proof va_limit. destruct (cfg_va CO). pose proof (rg_size r RO). destruct (nent_le t).
  assert (∀ k, 0 ≤ k < nent t → xlat_tables_va_to_index b (b + k * bs l) l = k) as IX.
  { intros k K. destruct (entry_bounds G s t l b k ST E K) as [V0 V1]. unfold xlat_tables_va_to_index.
    replace (b + k * bs l - b) with (k * bs l) by lia. rewrite u64_id by (unfold is_u64; nia).
    assert (XLAT_ADDR_SHIFT l = 12 + 9 * (3 - l)) as ->
      by (unfold XLAT_ADDR_SHIFT, PAGE_SIZE_SHIFT, XLAT_TABLE_LEVEL_MAX, XLAT_TABLE_ENTRIES_SHIFT; lia).
    rewrite Z.shiftr_div_pow2 by lia. fold (bs l). rewrite Z.div_mul by lia. unfold u32. apply Z.mod_small. lia. }
  unfold xlat_tables_find_start_va. destruct (Z.ltb_spec b (mm_base_va r)) as [LT|GE].
  - assert (Z.land (mm_base_va r) (u64 (Z.lnot (XLAT_BLOCK_MASK l))) = mm_base_va r - mm_base_va r mod bs l) as ->.
    { rewrite land_u64_lnot by (unfold is_u64; lia). unfold XLAT_BLOCK_MASK. rewrite block_size_eq by done.
      unfold bs. rewrite ldiff_ones by lia. done. }
    destruct (base_aligned _ _ _ _ _ ST E) as [q ->]. pose proof (Z.div_mod (mm_base_va r) (bs l) ltac:(lia)) as DM.
    pose proof (Z.mod_pos_bound (mm_base_va r) (bs l) ltac:(lia)) as MB.
    exists (mm_base_va r / bs l - q). assert (0 ≤ mm_base_va r / bs l - q < nent t) as K by nia.
    split; [done|]. split; [lia|]. split; [by apply IX|]. split; [apply touches_spec; unfold last_va in *; nia|].
    intros va V [I1 I2]. nia.
  - exists 0. split; [lia|]. split; [lia|]. split; [apply IX; lia|]. split; [apply touches_spec; lia|]. intros va V. lia.
Qed.

Lemma map_table_run rec t l b G s :
  rec_ok l rec → struct G s → compat G s → G !! t = Some (l, b) → touches b (b + nent t * bs l) = true →
  run_to (let table_idx_va := xlat_tables_find_start_va r b l in
          map_entries ctx rec (S (Z.to_nat (nent t))) r t (nent t) l (xlat_tables_va_to_index b table_idx_va l) table_idx_va) s
    (outcome_ok t l b (b + nent t * bs l) G s).
Proof.
  intros REC ST CP E TO. destruct (find_start_run G s t l b ST E TO) as (k & K & FS & IX & TK & OUT). cbv zeta.
  rewrite FS, IX. destruct (st_label _ _ ST _ _ _ E) as ([_ L1] & B & _). pose proof (bs_pos l L1) as BP.
  eapply run_to_mono; [apply (map_loop_run rec _ t l b k G s); [done|done|done|done|done|lia|done]|].
  intros e s' [[-> (G' & MP)]|EX]; [left|by right]. split; [done|]. exists G'.
  assert ((bs l | b + nent t * bs l)) as ALT by (apply Z.divide_add_r; [exact (base_aligned _ _ _ _ _ ST E)|by exists (nent t)]).
  eapply (mapped_widen t l b); [done|exact MP|done|nia|nia|lia|exact (base_aligned _ _ _ _ _ ST E)|done|done|].
  intros va V. lia.
Qed.

(** Mapping a region in a table that it meets. *)
Lemma map_region_rec (depth : nat) (l : Z) :
  base_level ctx ≤ l → l < 3 → 3 - l ≤ Z.of_nat depth →
  rec_ok l (λ va sub, xlat_tables_map_region ctx depth r va sub XLAT_TABLE_ENTRIES (l + 1)).
Proof.
  revert l. induction depth as [|depth IH]; intros l L0 L3 F; [lia|].
  intros G s i eva I E ST CP TO. cbn [xlat_tables_map_region]. destruct (cfg_level CO) as [C0 _].
  rewrite (proj2 (Z.leb_le (base_level ctx) (l + 1))), (proj2 (Z.leb_le (l + 1) XLAT_TABLE_LEVEL_MAX)) by (unfold XLAT_TABLE_LEVEL_MAX; lia).
  rewrite (proj2 (Z.ltb_lt (base_level ctx) (l + 1))) by lia.
  eapply run_to_step; [reflexivity|]. cbv zeta.
  assert (Z.of_nat (length (tables_mapped_regions s)) = tables_num ctx) as LEN
    by (rewrite <- (st_counts _ _ ST), bump_length; done).
  eapply run_to_step; [by apply inc_run|]. pose proof (nent_table i I) as NT.
  assert (eva + bs l = eva + nent (table_at ctx i) * bs (l + 1)) as BE by (rewrite NT, (bs_step l) by lia; lia).
  rewrite BE in TO |- *. pose proof (map_table_run (λ va sub, xlat_tables_map_region ctx depth r va sub XLAT_TABLE_ENTRIES (l + 1 + 1))
    (table_at ctx i) (l + 1) eva G (bump 1 i s)) as MT.
  rewrite NT in MT, TO |- *. apply MT; [|done|done|done|done].
  destruct (decide (l + 1 = 3)) as [->|N].
  - intros G2 s2 i2 eva2 I2 E2 ST2. destruct (st_label _ _ ST2 _ _ _ E2). lia.
  - apply IH; lia.
Qed.

Lemma map_base_run G s :
  struct G s → compat G s →
  run_to (map_base ctx r) s
    (outcome_ok (base_table ctx) (base_level ctx) 0 (base_table_entries ctx * bs (base_level ctx)) G s).
Proof.
  intros ST CP. destruct (cfg_level CO) as [C0 C1]. destruct (rg_va r RO), (cfg_va CO). pose proof (rg_size r RO).
  unfold map_base. assert (∃ d, LEVELS = S d ∧ 3 ≤ Z.of_nat d) as (d & -> & D) by (by exists 3%nat).
  cbn [xlat_tables_map_region].
  rewrite Z.leb_refl, (proj2 (Z.leb_le (base_level ctx) XLAT_TABLE_LEVEL_MAX)), Z.ltb_irrefl by (unfold XLAT_TABLE_LEVEL_MAX; lia).
  eapply run_to_step; [reflexivity|]. cbv zeta. eapply run_to_step; [reflexivity|].
  rewrite <- nent_base. change (nent (base_table ctx) * bs (base_level ctx)) with (0 + nent (base_table ctx) * bs (base_level ctx)).
  apply (map_table_run _ (base_table ctx) (base_level ctx) 0 G s); [|done|done|apply (st_base _ _ ST)|].
  - destruct (decide (base_level ctx = 3)) as [E3|N3].
    + intros G2 s2 i2 eva2 I2 E2 ST2. destruct (st_label _ _ ST2 _ _ _ E2). lia.
    + apply map_region_rec; lia.
  - apply touches_spec. rewrite nent_base. unfold last_va. lia.
Qed.
End Map.
End Facts.
