(* ===== verification/XlatList.v ===== *)
(** The list of regions of a context: which regions [mmap_add_region_ctx] takes, the order
    it keeps, and which region of the list an address belongs to. *)
From Stdlib Require Import Sorted.
From stdpp Require Import sorting.
From S2P Require Import Prelude Defs Xlat XlatFacts.

Lemma bind_xassert {A} (b : bool) (k : unit → M xlat A) s : b = true → bind (xassert b) k s = k tt s.
Proof. by intros ->. Qed.

Lemma bind_modify {A} (f : xlat → xlat) (k : unit → M xlat A) s : bind (modify f) k s = k tt (f s).
Proof. done. Qed.

(** * Regions of a list *)

(** The first region of a list that holds an address. *)
Fixpoint region_at (l : list mmap_region_t) (va : Z) : option mmap_region_t :=
  match l with
  | [] => None
  | r :: l => if decide (in_region r va) then Some r else region_at l va
  end.

Lemma region_at_app l l' va :
  region_at (l ++ l') va = match region_at l va with Some r => Some r | None => region_at l' va end.
Proof. induction l as [|r l IH]; cbn; [done|]. by destruct (decide (in_region r va)). Qed.

Lemma region_at_in l va r : region_at l va = Some r → r ∈ l ∧ in_region r va.
Proof.
  induction l as [|r' l IH]; cbn; [done|]. destruct (decide (in_region r' va)) as [I|I].
  - intros [= ->]. split; [by left|done].
  - intros E. destruct (IH E). split; [by right|done].
Qed.

Lemma region_at_none l va r : region_at l va = None → r ∈ l → ¬ in_region r va.
Proof.
  induction l as [|r' l IH]; cbn; [by intros _ ?%not_elem_of_nil|]. destruct (decide (in_region r' va)) as [I|I]; [done|].
  intros E [->|IN]%elem_of_cons; [done|by apply IH].
Qed.

(** The order of the list: by the last address, then by the size. *)
Definition before (r' r : mmap_region_t) : Prop :=
  last_va r' < last_va r ∨ last_va r' = last_va r ∧ mm_size r' < mm_size r.

(** Two regions are apart from each other, or one holds the other, both are static and
    have the same offset. *)
Definition apart (r' r : mmap_region_t) : Prop :=
  (last_va r' < mm_base_va r ∨ last_va r < mm_base_va r') ∧
  (mm_base_pa r' + mm_size r' ≤ mm_base_pa r ∨ mm_base_pa r + mm_size r ≤ mm_base_pa r').
Definition inside (r' r : mmap_region_t) : Prop := mm_base_va r ≤ mm_base_va r' ∧ last_va r' ≤ last_va r.
Definition dynamic (r : mmap_region_t) : bool := truthy (Z.land (mm_attr r) MT_DYNAMIC).
Definition agree (r' r : mmap_region_t) : Prop :=
  apart r' r ∨
  (inside r' r ∨ inside r r') ∧ dynamic r' = false ∧ dynamic r = false ∧
  mm_base_va r' - mm_base_pa r' = mm_base_va r - mm_base_pa r ∧
  ¬ (mm_base_va r' = mm_base_va r ∧ mm_size r' = mm_size r).

Definition ordered (r' r : mmap_region_t) : Prop := before r' r ∧ agree r' r.

Lemma agree_sym r' r : agree r' r → agree r r'.
Proof. unfold agree, apart. intuition lia. Qed.

Lemma before_trans r1 r2 r3 : before r1 r2 → before r2 r3 → before r1 r3.
Proof. unfold before. lia. Qed.

(** In an ordered list, the first region that holds an address is the smallest. *)
Lemma region_at_smallest R va r r' :
  StronglySorted ordered R → (∀ q, q ∈ R → 0 < mm_size q) → region_at R va = Some r → r' ∈ R → in_region r' va →
  mm_size r ≤ mm_size r' ∧ inside r r'.
Proof.
  induction R as [|q R IH]; intros SS POS E IN I; [done|]. apply StronglySorted_cons in SS as [F SS]. cbn in E.
  destruct (decide (in_region q va)) as [Q|Q].
  - injection E as ->. apply elem_of_cons in IN as [->|IN]; [unfold inside; lia|].
    destruct (proj1 (Forall_forall _ _) F r' IN) as [B [[[A|A] _]|([N|N] & _ & _ & _ & NE)]]; unfold in_region, inside, before, last_va in *; lia.
  - apply elem_of_cons in IN as [->|IN]; [done|]. apply (IH SS); [|done|done|done]. intros q' Q'. apply POS. by right.
Qed.

Section List.
Context `{XlatArch} (ctx : xlat_cfg) (CO : cfg_ok ctx).

(** * The list *)

(** What the check asks of a region alone. *)
Record valid (r : mmap_region_t) : Prop := {
  va_va : 0 ≤ mm_base_va r ∧ mm_base_va r + mm_size r ≤ va_max_address ctx + 1;
  va_pa : 0 ≤ mm_base_pa r ∧ mm_base_pa r + mm_size r ≤ pa_max_address ctx + 1;
  va_size : 0 < mm_size r;
  va_page : (4096 | mm_base_va r) ∧ (4096 | mm_base_pa r) ∧ (4096 | mm_size r);
  va_granularity : mm_granularity r = bs 1 ∨ mm_granularity r = bs 2 ∨ mm_granularity r = bs 3
}.

Lemma valid_region_ok r : valid r → attr_ok (u32 (mm_attr r)) → region_ok ctx r.
Proof. intros [V P S D _] A. destruct (cfg_pa _ CO). constructor; [done|lia|done|done|done]. Qed.

(** The largest value of a function on the regions. *)
Definition largest (f : mmap_region_t → Z) (R : list mmap_region_t) : Z := foldr (λ r, Z.max (f r)) 0 R.
Definition last_pa (r : mmap_region_t) : Z := mm_base_pa r + mm_size r - 1.

Lemma largest_insert f R1 r R2 : largest f (R1 ++ r :: R2) = Z.max (f r) (largest f (R1 ++ R2)).
Proof. unfold largest. induction R1 as [|q R1 IH]; cbn [app foldr]; [done|]. rewrite IH. lia. Qed.

Lemma largest_le f R m : 0 ≤ m → (∀ r, r ∈ R → f r ≤ m) → largest f R ≤ m.
Proof.
  unfold largest. induction R as [|q R IH]; cbn [foldr]; intros M F; [done|]. apply Z.max_lub.
  - apply F. by left.
  - apply IH; [done|]. intros r I. apply F. by right.
Qed.

(** The regions [R] of a context. *)
Record stored (R : list mmap_region_t) (s : xlat) : Prop := {
  sd_mmap : mmap s = R ++ replicate (S (Z.to_nat (mmap_num ctx)) - length R) region_zero;
  sd_length : (length R ≤ Z.to_nat (mmap_num ctx))%nat;
  sd_max : max_va s = largest last_va R ∧ max_pa s = largest last_pa R
}.

Record list_ok (R : list mmap_region_t) : Prop := {
  lo_valid : ∀ r, r ∈ R → valid r;
  lo_sorted : StronglySorted ordered R
}.

Lemma list_ok_nil : list_ok [].
Proof. constructor; [by intros r ?%elem_of_nil|apply SSorted_nil]. Qed.

(** The context takes the region. *)
Definition accepts (R : list mmap_region_t) (r : mmap_region_t) : Prop :=
  valid r ∧ (length R < Z.to_nat (mmap_num ctx))%nat ∧ ∀ r', r' ∈ R → agree r' r.

(** Members of the structure at their width. *)
Definition region_u64 (r : mmap_region_t) : Prop := is_u64 (mm_base_pa r) ∧ is_u64 (mm_base_va r) ∧ is_u64 (mm_size r).

Lemma valid_ends r : valid r → end_va_of r = last_va r ∧ end_pa_of r = mm_base_pa r + mm_size r - 1.
Proof.
  intros [V P S _ _]. pose proof (va_limit _ CO). destruct (cfg_va _ CO), (cfg_pa _ CO). unfold end_va_of, end_pa_of, last_va.
  split; apply u64_id; unfold is_u64; lia.
Qed.

Lemma page_aligned_iff a : IS_PAGE_ALIGNED a = true ↔ (4096 | a).
Proof.
  unfold IS_PAGE_ALIGNED. change PAGE_SIZE_MASK with (2 ^ 12 - 1). rewrite land_ones_mod, Z.eqb_eq by done.
  change (2 ^ 12) with 4096. by rewrite Z.mod_divide.
Qed.

Lemma valid_offset r : valid r → - 2 ^ 48 ≤ mm_base_va r - mm_base_pa r ≤ 2 ^ 48.
Proof. intros [V P S _ _]. pose proof (va_limit _ CO). destruct (cfg_va _ CO), (cfg_pa _ CO). lia. Qed.

Lemma u64_offset x y : - 2 ^ 48 ≤ x ≤ 2 ^ 48 → - 2 ^ 48 ≤ y ≤ 2 ^ 48 → u64 x = u64 y → x = y.
Proof.
  unfold u64. intros X Y E. pose proof (Z.div_mod x (2 ^ 64) ltac:(lia)). pose proof (Z.div_mod y (2 ^ 64) ltac:(lia)). lia.
Qed.

(** The test of two regions. *)
Lemma overlap_error_run r c : valid r → valid c → if overlap_error r c then ¬ agree c r else agree c r.
Proof.
  intros VR VC. destruct (valid_ends r VR) as [ER PR], (valid_ends c VC) as [EC PC].
  pose proof (va_size r VR). pose proof (va_size c VC). unfold overlap_error, fully_overlapped. rewrite ER, PR, EC, PC.
  fold (dynamic r) (dynamic c). unfold agree, apart, inside.
  destruct (Z.leb_spec (mm_base_va c) (mm_base_va r)), (Z.leb_spec (last_va r) (last_va c)),
    (Z.leb_spec (mm_base_va r) (mm_base_va c)), (Z.leb_spec (last_va c) (last_va r)); cbn [andb orb];
  try (destruct (Z.ltb_spec (mm_base_pa r + mm_size r - 1) (mm_base_pa c)), (Z.ltb_spec (mm_base_pa c + mm_size c - 1) (mm_base_pa r)),
      (Z.ltb_spec (last_va r) (mm_base_va c)), (Z.ltb_spec (last_va c) (mm_base_va r)); cbn; unfold last_va in *; lia).
  all: destruct (dynamic r) eqn:DR; cbn [orb]; [unfold last_va in *; intuition lia|].
  all: destruct (dynamic c) eqn:DC; cbn [orb]; [unfold last_va in *; intuition lia|].
  all: destruct (Z.eqb_spec (u64 (mm_base_va c - mm_base_pa c)) (u64 (mm_base_va r - mm_base_pa r))) as [EQ|NE]; cbn [negb].
  all: try (apply u64_offset in EQ; [|by apply valid_offset|by apply valid_offset]).
  all: try (assert (mm_base_va c - mm_base_pa c ≠ mm_base_va r - mm_base_pa r) by (intros Q; by rewrite Q in NE); unfold last_va in *; intuition lia).
  all: destruct (Z.eqb_spec (mm_base_va r) (mm_base_va c)), (Z.eqb_spec (mm_size r) (mm_size c)); cbn [andb];
    unfold last_va in *; intuition lia.
Qed.

Lemma check_overlaps_run r R n s :
  valid r → (∀ q, q ∈ R → valid q) → n ≠ O →
  ∃ st, check_overlaps r (R ++ replicate n region_zero) s = Ok st s ∧ (st = 0 ↔ ∀ q, q ∈ R → agree q r).
Proof.
  intros VR. induction R as [|c R IH]; intros V N.
  - destruct n as [|n]; [done|]. exists 0. split; [reflexivity|]. split; [|done]. intros _ q Q%elem_of_nil. done.
  - cbn [check_overlaps app]. pose proof (V c ltac:(by left)) as VC. pose proof (va_size c VC).
    rewrite (proj2 (Z.eqb_neq (mm_size c) 0)) by lia. pose proof (overlap_error_run r c VR VC) as OE.
    destruct (overlap_error r c) as [e|] eqn:EE.
    + exists e. split; [reflexivity|]. split.
      * intros ->. exfalso. revert EE. unfold overlap_error. repeat case_match; discriminate.
      * intros A. destruct OE. apply A. by left.
    + destruct (IH ltac:(intros q Q; apply V; by right) N) as (st & E & I). exists st. split; [exact E|]. rewrite I.
      split; [|intros A q Q; apply A; by right]. intros A q [->|Q]%elem_of_cons; [done|by apply A].
Qed.

Lemma stored_at R s i : stored R s →
  mmap s !! i = if decide (i < length R)%nat then R !! i
    else if decide (i ≤ Z.to_nat (mmap_num ctx))%nat then Some region_zero else None.
Proof.
  intros [-> L _]. destruct (decide (i < length R)%nat) as [I|I].
  - by apply lookup_app_l.
  - rewrite lookup_app_r by lia. destruct (decide (i ≤ Z.to_nat (mmap_num ctx))%nat) as [J|J].
    + apply lookup_replicate_2. lia.
    + apply lookup_ge_None. rewrite length_replicate. lia.
Qed.

Lemma mmap_at_run i q s : mmap s !! i = Some q → mmap_at i s = Ok q s.
Proof. unfold mmap_at. by intros ->. Qed.

(** The tests of a region alone. *)
Lemma range_tests r :
  region_u64 r → mm_size r ≠ 0 →
  (IS_PAGE_ALIGNED (mm_base_pa r) && IS_PAGE_ALIGNED (mm_base_va r) && IS_PAGE_ALIGNED (mm_size r)
   && ((mm_granularity r =? XLAT_BLOCK_SIZE 1) || (mm_granularity r =? XLAT_BLOCK_SIZE 2) || (mm_granularity r =? XLAT_BLOCK_SIZE 3))
   && (mm_base_pa r <=? end_pa_of r) && (mm_base_va r <=? end_va_of r)
   && (end_va_of r <=? va_max_address ctx) && (end_pa_of r <=? pa_max_address ctx) = true) ↔ valid r.
Proof.
  intros (P & V & S) NZ. unfold is_u64 in *. rewrite !andb_true_iff, !orb_true_iff, !page_aligned_iff, !Z.leb_le, !Z.eqb_eq, !block_size_eq by lia.
  pose proof (va_limit _ CO). destruct (cfg_va _ CO), (cfg_pa _ CO).
  assert (∀ x, 0 ≤ x < 2 ^ 64 → x ≤ u64 (x + mm_size r - 1) → u64 (x + mm_size r - 1) = x + mm_size r - 1) as NW.
  { intros x X. unfold u64. destruct (Z.lt_ge_cases (x + mm_size r - 1) (2 ^ 64)); [intros _; apply Z.mod_small; lia|].
    pose proof (Z.div_mod (x + mm_size r - 1) (2 ^ 64) ltac:(lia)).
    pose proof (Z.mod_pos_bound (x + mm_size r - 1) (2 ^ 64) ltac:(lia)). nia. }
  split.
  - intros (((((((D1 & D2) & D3) & G) & E1) & E2) & M1) & M2). unfold end_va_of, end_pa_of in *.
    rewrite (NW _ V E2) in M1. rewrite (NW _ P E1) in M2. constructor; [lia|lia|lia|done|tauto].
  - intros VA. destruct (valid_ends r VA) as [-> ->]. destruct VA as [V' P' S' (D1 & D2 & D3) G]. unfold last_va.
    repeat split; try done; try lia; tauto.
Qed.

Lemma check_run R s r :
  stored R s → (∀ q, q ∈ R → valid q) → region_u64 r → mm_size r ≠ 0 → 0 < mmap_num ctx →
  ∃ st, mmap_add_region_check ctx r s = Ok st s ∧ (st = 0 ↔ accepts R r).
Proof.
  intros SD V U NZ NUM. pose proof (range_tests r U NZ) as RT. unfold mmap_add_region_check. cbv zeta.
  rewrite !andb_true_iff, !orb_true_iff, !Z.leb_le in RT.
  assert (∀ st, st ≠ 0 → ¬ valid r → ∃ st', ret (S := xlat) st s = Ok st' s ∧ (st' = 0 ↔ accepts R r)) as NO.
  { intros st NE N. exists st. split; [reflexivity|]. split; [done|]. by intros (VA & _). }
  destruct (_ || _ || _) eqn:T1; [apply NO; [done|]|].
  { intros VA. apply RT in VA as (((((((E1 & E2) & E3) & _) & _) & _) & _) & _). by rewrite E1, E2, E3 in T1. }
  destruct (_ && _ && _) eqn:T2; [apply NO; [done|]|].
  { intros VA. apply RT in VA as (((((((_ & _) & _) & [[E|E]|E]) & _) & _) & _) & _); rewrite E in T2; cbn in T2;
      by rewrite ?andb_false_r in T2. }
  destruct ((end_pa_of r <? mm_base_pa r) || _) eqn:T3; [apply NO; [done|]|].
  { intros VA. apply RT in VA as (((((((_ & _) & _) & _) & E1) & E2) & _) & _). apply orb_true_iff in T3. rewrite !Z.ltb_lt in T3. lia. }
  destruct (va_max_address ctx <? _) eqn:T4; [apply NO; [done|]|].
  { intros VA. apply RT in VA as (((((((_ & _) & _) & _) & _) & _) & E) & _). apply Z.ltb_lt in T4. lia. }
  destruct (pa_max_address ctx <? _) eqn:T5; [apply NO; [done|]|].
  { intros VA. apply RT in VA as (((((((_ & _) & _) & _) & _) & _) & _) & E). apply Z.ltb_lt in T5. lia. }
  apply orb_false_iff in T1 as [[T1a%negb_false_iff T1b%negb_false_iff]%orb_false_iff T1c%negb_false_iff].
  apply orb_false_iff in T3 as [T3a%Z.ltb_ge T3b%Z.ltb_ge]. apply Z.ltb_ge in T4, T5.
  assert (valid r) as VA.
  { apply RT. repeat split; try done. destruct (mm_granularity r =? _); [by left; left|]. destruct (mm_granularity r =? _); [by left; right|].
    right. by apply negb_false_iff in T2. }
  assert (∃ q, mmap s !! Z.to_nat (mmap_num ctx - 1) = Some q ∧ (mm_size q = 0 ↔ (length R < Z.to_nat (mmap_num ctx))%nat)) as (q & Q & QS).
  { rewrite (stored_at R s _ SD). destruct (decide _) as [I|I].
    - destruct (lookup_lt_is_Some_2 R (Z.to_nat (mmap_num ctx - 1)) I) as [q Q]. exists q. split; [done|].
      apply list_elem_of_lookup_2 in Q. pose proof (va_size _ (V q Q)). lia.
    - rewrite decide_True by lia. exists region_zero. split; [done|]. cbn. lia. }
  rewrite (bind_step _ _ _ _ _ (mmap_at_run _ _ _ Q)). destruct (Z.eqb_spec (mm_size q) 0) as [Z0|NZ0]; cbn [negb].
  - destruct (check_overlaps_run r R (S (Z.to_nat (mmap_num ctx)) - length R) s VA V ltac:(destruct SD; lia)) as (st & E & I).
    exists st. split; [|rewrite I; unfold accepts; tauto]. rewrite (bind_step _ _ _ (mmap s) s) by done.
    by rewrite (sd_mmap _ _ SD).
  - exists (- ENOMEM). split; [reflexivity|]. split; [done|]. intros (_ & F & _). tauto.
Qed.

(** * The place of a region *)

Lemma skip_below_run e R n i s :
  (∀ q, q ∈ R → valid q) → n ≠ O →
  ∃ R1 R2, R = R1 ++ R2 ∧ skip_below e (R ++ replicate n region_zero) i s = Ok (i + length R1)%nat s ∧
    (∀ q, q ∈ R1 → last_va q < e) ∧ match R2 with q :: _ => e ≤ last_va q | [] => True end.
Proof.
  intros V N. revert i. induction R as [|c R IH]; intros i.
  - destruct n as [|n]; [done|]. exists [], []. rewrite Nat.add_0_r. split; [done|]. split; [|split; [by intros q ?%elem_of_nil|done]].
    cbn. by rewrite andb_false_r.
  - cbn [skip_below app]. pose proof (V c ltac:(by left)) as VC. destruct (valid_ends c VC) as [-> _]. pose proof (va_size c VC).
    rewrite (proj2 (Z.eqb_neq (mm_size c) 0)) by lia. cbn [negb]. rewrite andb_true_r.
    destruct (Z.ltb_spec (last_va c) e) as [LT|GE].
    + destruct (IH ltac:(intros q Q; apply V; by right) (S i)) as (R1 & R2 & -> & E & A & B). exists (c :: R1), R2.
      split; [done|]. split; [rewrite E; cbn [length]; f_equal; lia|]. split; [|done]. intros q [->|Q]%elem_of_cons; [done|by apply A].
    + exists [], (c :: R). rewrite Nat.add_0_r. split; [done|]. split; [done|]. split; [by intros q ?%elem_of_nil|done].
Qed.

Lemma skip_same_end_run e sz R n i s :
  (∀ q, q ∈ R → valid q) → n ≠ O →
  ∃ R1 R2, R = R1 ++ R2 ∧ skip_same_end e sz (R ++ replicate n region_zero) i s = Ok (i + length R1)%nat s ∧
    (∀ q, q ∈ R1 → last_va q = e ∧ mm_size q < sz) ∧
    match R2 with q :: _ => last_va q = e → sz ≤ mm_size q | [] => True end.
Proof.
  intros V N. revert i. induction R as [|c R IH]; intros i.
  - destruct n as [|n]; [done|]. exists [], []. rewrite Nat.add_0_r. split; [done|]. split; [|split; [by intros q ?%elem_of_nil|done]].
    cbn. by rewrite andb_false_r.
  - cbn [skip_same_end app]. pose proof (V c ltac:(by left)) as VC. destruct (valid_ends c VC) as [-> _]. pose proof (va_size c VC).
    rewrite (proj2 (Z.eqb_neq (mm_size c) 0)) by lia. cbn [negb]. rewrite andb_true_r.
    destruct ((last_va c =? e) && (mm_size c <? sz)) eqn:T.
    + apply andb_true_iff in T as [T1%Z.eqb_eq T2%Z.ltb_lt].
      destruct (IH ltac:(intros q Q; apply V; by right) (S i)) as (R1 & R2 & -> & E & A & B). exists (c :: R1), R2.
      split; [done|]. split; [rewrite E; cbn [length]; f_equal; lia|]. split; [|done]. intros q [->|Q]%elem_of_cons; [done|by apply A].
    + exists [], (c :: R). rewrite Nat.add_0_r. split; [done|]. split; [done|]. split; [by intros q ?%elem_of_nil|].
      apply andb_false_iff in T as [T%Z.eqb_neq|T%Z.ltb_ge]; lia.
Qed.

(** The regions before the place come before the new region, the others behind it. *)
Lemma find_place_run R s r :
  stored R s → list_ok R → accepts R r →
  ∃ R1 R2, R = R1 ++ R2 ∧ find_place r s = Ok (length R1) s ∧ (∀ q, q ∈ R1 → before q r) ∧ (∀ q, q ∈ R2 → before r q).
Proof.
  intros [SM SL _] [V SS] (VR & LT & AG). unfold find_place. rewrite (bind_step _ _ _ (mmap s) s) by done. rewrite SM.
  destruct (valid_ends r VR) as [-> _]. set (n := (S _ - _)%nat). assert (n ≠ O) as N by (unfold n; lia).
  destruct (skip_below_run (last_va r) R n 0 s V N) as (R1 & R0 & ER & E1 & A1 & B1).
  rewrite (bind_step _ _ _ _ _ E1). cbn [Nat.add].
  assert (drop (length R1) (R ++ replicate n region_zero) = R0 ++ replicate n region_zero) as ->
    by (rewrite ER, <- app_assoc; apply drop_app_length).
  destruct (skip_same_end_run (last_va r) (mm_size r) R0 n (length R1) s) as (R1' & R2 & ER' & E2 & A2 & B2); [|done|].
  { intros q Q. apply V. rewrite ER. apply elem_of_app. by right. }
  exists (R1 ++ R1'), R2. split; [by rewrite ER, ER', app_assoc|]. split; [by rewrite E2, length_app|].
  assert (∀ q, q ∈ R2 → q ∈ R) as IN2 by (intros q Q; rewrite ER, ER'; rewrite !elem_of_app; by right; right).
  split.
  { intros q [Q|Q]%elem_of_app; [left; by apply A1|right; by apply A2]. }
  assert (StronglySorted ordered R2) as SS2 by (rewrite ER, ER' in SS; by do 2 apply StronglySorted_app_1_r in SS).
  destruct R2 as [|c R2]; [by intros q ?%elem_of_nil|].
  assert (before r c) as BC.
  { assert (last_va r ≤ last_va c) as LC.
    { destruct R1' as [|q' R1']; cbn in ER'; subst R0; [done|]. destruct (A2 q') as [<- _]; [by left|].
      rewrite ER in SS. apply StronglySorted_app_1_r, StronglySorted_cons in SS as [F _].
      destruct (proj1 (Forall_forall _ _) F c) as [[?|?] _]; [apply elem_of_app; right; by left|lia|lia]. }
    destruct (AG c (IN2 c ltac:(by left))) as [[[A|A] _]|(_ & _ & _ & _ & NE)].
    - pose proof (va_size r VR). unfold before, last_va in *. lia.
    - pose proof (va_size c (V c (IN2 c ltac:(by left)))). unfold before, last_va in *. lia.
    - unfold before. destruct (decide (last_va r = last_va c)) as [EQ|NQ]; [|lia]. right. split; [done|].
      unfold last_va in *. lia. }
  intros q [->|Q]%elem_of_cons; [done|]. apply StronglySorted_cons in SS2 as [F _].
  eapply before_trans; [exact BC|]. by apply (proj1 (Forall_forall _ _) F q Q).
Qed.

(** The list with the region at its place. *)
Lemma insert_ok R1 R2 r :
  list_ok (R1 ++ R2) → accepts (R1 ++ R2) r → (∀ q, q ∈ R1 → before q r) → (∀ q, q ∈ R2 → before r q) →
  list_ok (R1 ++ r :: R2).
Proof.
  intros [V SS] (VR & _ & AG) B1 B2. apply StronglySorted_app in SS as (C & S1 & S2). constructor.
  - intros q [Q|[->|Q]%elem_of_cons]%elem_of_app; [|done|]; apply V, elem_of_app; [by left|by right].
  - apply StronglySorted_app. split; [|split; [done|]].
    + intros x y X [->|Y]%elem_of_cons; [|by apply C]. split; [by apply B1|]. apply AG, elem_of_app. by left.
    + apply StronglySorted_cons. split; [|done]. apply Forall_forall. intros q Q. split; [by apply B2|].
      apply agree_sym, AG, elem_of_app. by right.
Qed.

Lemma move_up_insert R1 R2 n last r :
  (length R1 + length R2 ≤ last)%nat → (last < length R1 + length R2 + n)%nat →
  <[length R1 := r]> (move_up (length R1) last (R1 ++ R2 ++ replicate n region_zero)) =
    R1 ++ r :: R2 ++ replicate (n - 1) region_zero.
Proof.
  intros L0 L1. unfold move_up. rewrite drop_app_length. set (T := R2 ++ replicate n region_zero).
  assert (∃ x, take (S (length R1)) (R1 ++ T) = R1 ++ [x]) as [x ->].
  { destruct T as [|x T0] eqn:ET; [apply (f_equal length) in ET; unfold T in ET; rewrite length_app, length_replicate in ET; cbn in ET; lia|].
    exists x. rewrite take_app_ge by lia. by replace (S (length R1) - length R1)%nat with 1%nat by lia. }
  rewrite <- app_assoc, insert_app_r_alt, Nat.sub_diag by lia. cbn [app insert list_insert].
  do 2 f_equal. unfold T. rewrite take_app_ge, take_replicate, <- app_assoc by lia. f_equal.
  rewrite !drop_app_ge, drop_replicate, <- replicate_add by lia. f_equal. lia.
Qed.

(** * Adding a region *)

Lemma find_last_run R n i num s :
  (∀ q, q ∈ R → valid q) → (i + length R ≤ num)%nat → n ≠ O →
  find_last (R ++ replicate n region_zero) i num s = Ok (i + length R)%nat s.
Proof.
  intros V L N. revert i L. induction R as [|c R IH]; intros i L.
  - destruct n as [|n]; [done|]. cbn. by rewrite Nat.add_0_r.
  - cbn [find_last app]. pose proof (va_size c (V c ltac:(by left))). cbn [length] in L |- *.
    rewrite (proj2 (Z.eqb_neq (mm_size c) 0)) by lia. rewrite (proj2 (Nat.ltb_lt i num)) by lia. cbn [negb andb].
    rewrite IH; [f_equal; lia|intros q Q; apply V; by right|lia].
Qed.

(** The state after a region was put into the list. *)
Definition with_region (R1 : list mmap_region_t) (r : mmap_region_t) (R2 : list mmap_region_t) (s : xlat) : xlat :=
  set_max (Z.max (max_pa s) (last_pa r)) (Z.max (max_va s) (last_va r))
    (set_mmap (R1 ++ r :: R2 ++ replicate (Z.to_nat (mmap_num ctx) - length (R1 ++ R2)) region_zero) s).

Lemma with_region_stored R1 r R2 s :
  stored (R1 ++ R2) s → accepts (R1 ++ R2) r → stored (R1 ++ r :: R2) (with_region R1 r R2 s).
Proof.
  intros [SM SL [MV MP]] (VR & LT & _). rewrite length_app in *. constructor; cbn.
  - rewrite <- app_assoc, !length_app. cbn [app length]. do 4 f_equal. lia.
  - rewrite length_app. cbn [length]. lia.
  - rewrite !largest_insert, MV, MP. lia.
Qed.

Lemma raise_max_run r s : valid r →
  raise_max r s = Ok tt (set_max (Z.max (max_pa s) (last_pa r)) (Z.max (max_va s) (last_va r)) s).
Proof.
  intros V. unfold raise_max, modify. destruct (valid_ends r V) as [-> ->]. fold (last_pa r). do 2 f_equal.
  - destruct (Z.ltb_spec (max_pa s) (last_pa r)); lia.
  - destruct (Z.ltb_spec (max_va s) (last_va r)); lia.
Qed.

(** The part of the two operations that changes the list; [last] is where they look for
    the last region. *)
Lemma put_run R1 R2 r s last :
  stored (R1 ++ R2) s → accepts (R1 ++ R2) r → (length (R1 ++ R2) ≤ last ≤ Z.to_nat (mmap_num ctx))%nat →
  ∃ q, mmap s !! last = Some q ∧ mm_size q = 0 ∧
  <[length R1 := r]> (move_up (length R1) last (mmap s)) = mmap (with_region R1 r R2 s) ∧
  ∃ q', move_up (length R1) last (mmap s) !! Z.to_nat (mmap_num ctx) = Some q' ∧ mm_size q' = 0.
Proof.
  intros SD (VR & LT & _) L. exists region_zero. rewrite (stored_at _ _ _ SD), decide_False, decide_True by lia.
  split; [done|]. split; [done|]. destruct SD as [SM SL _]. rewrite SM, <- app_assoc.
  pose proof (move_up_insert R1 R2 (S (Z.to_nat (mmap_num ctx)) - length (R1 ++ R2)) last r) as MU.
  rewrite length_app in *. specialize (MU ltac:(lia) ltac:(lia)). split.
  - rewrite MU. cbn. rewrite length_app. do 4 f_equal. lia.
  - exists region_zero. split; [|done]. apply (f_equal (λ l, l !! Z.to_nat (mmap_num ctx))) in MU.
    rewrite list_lookup_insert_ne in MU by lia. rewrite MU.
    change (r :: R2 ++ ?z) with ((r :: R2) ++ z). rewrite app_assoc, lookup_app_r by (rewrite length_app; cbn [length]; lia).
    apply lookup_replicate_2. rewrite length_app. cbn [length]. lia.
Qed.

Lemma add_region_run R s r :
  stored R s → list_ok R → region_u64 r → mm_size r ≠ 0 → 0 < mmap_num ctx → accepts R r →
  ∃ R1 R2, R = R1 ++ R2 ∧ mmap_add_region_ctx ctx r s = Ok tt (with_region R1 r R2 s) ∧
    stored (R1 ++ r :: R2) (with_region R1 r R2 s) ∧ list_ok (R1 ++ r :: R2).
Proof.
  intros SD LO U NZ NUM AC. destruct (check_run R s r SD (lo_valid _ LO) U NZ NUM) as (st & CK & ST). apply ST in AC as Z0.
  destruct (find_place_run R s r SD LO AC) as (R1 & R2 & -> & FP & B1 & B2). exists R1, R2.
  split; [done|]. split; [|split; [by apply with_region_stored|by apply insert_ok]].
  unfold mmap_add_region_ctx. rewrite (proj2 (Z.eqb_neq _ _) NZ), (bind_step _ _ _ _ _ CK), Z0. cbn [negb Z.eqb].
  rewrite (bind_step _ _ _ _ _ FP), (bind_step _ _ _ (mmap s) s) by done.
  set (n := (S (Z.to_nat (mmap_num ctx)) - length (R1 ++ R2))%nat). destruct AC as (VR & LT & AG).
  assert (find_last (mmap s) 0 (Z.to_nat (mmap_num ctx)) s = Ok (length (R1 ++ R2)) s) as FL.
  { rewrite (sd_mmap _ _ SD). apply (find_last_run (R1 ++ R2)); [apply (lo_valid _ LO)|lia|lia]. }
  rewrite (bind_step _ _ _ _ _ FL).
  destruct (put_run R1 R2 r s (length (R1 ++ R2)) SD (conj VR (conj LT AG)) ltac:(lia)) as (q & Q & QZ & MU & q' & Q' & QZ').
  rewrite (bind_step _ _ _ _ _ (mmap_at_run _ _ _ Q)), QZ, bind_xassert, bind_modify by done.
  rewrite (bind_step _ _ _ _ _ (mmap_at_run _ _ (set_mmap _ s) Q')), QZ', bind_xassert, bind_modify by done.
  rewrite (raise_max_run r _ VR). cbn. rewrite MU. reflexivity.
Qed.

(** C30. Adding a region changes nothing if it is empty, stops with a failed assertion if the
    context does not take it, and otherwise puts it at its place in the list, which stays
    ordered by end and size, with regions apart or nested with one offset. *)
Theorem mmap_add_exact R s r :
  stored R s → list_ok R → region_u64 r → 0 < mmap_num ctx →
  mm_size r = 0 ∧ mmap_add_region_ctx ctx r s = Ok tt s ∨
  mm_size r ≠ 0 ∧ ¬ accepts R r ∧ mmap_add_region_ctx ctx r s = Fault Panic ∨
  accepts R r ∧ ∃ R1 R2, R = R1 ++ R2 ∧ mmap_add_region_ctx ctx r s = Ok tt (with_region R1 r R2 s) ∧
    stored (R1 ++ r :: R2) (with_region R1 r R2 s) ∧ list_ok (R1 ++ r :: R2).
Proof.
  intros SD LO U NUM. destruct (decide (mm_size r = 0)) as [Z0|NZ].
  { left. split; [done|]. unfold mmap_add_region_ctx. by rewrite Z0. }
  right. destruct (check_run R s r SD (lo_valid _ LO) U NZ NUM) as (st & CK & ST).
  destruct (decide (st = 0)) as [E|NE].
  - right. split; [by apply ST|]. apply add_region_run; try done. by apply ST.
  - left. split; [done|]. split; [by rewrite <- ST|]. unfold mmap_add_region_ctx.
    rewrite (proj2 (Z.eqb_neq _ _) NZ), (bind_step _ _ _ _ _ CK), (proj2 (Z.eqb_neq _ _) NE). reflexivity.
Qed.

(** The regions of an array: those up to the first without granularity, less the empty
    ones. *)
Fixpoint taken (l : list mmap_region_t) : option (list mmap_region_t) :=
  match l with
  | [] => None
  | r :: l => if mm_granularity r =? 0 then Some [] else (λ rs, if mm_size r =? 0 then rs else r :: rs) <$> taken l
  end.

Lemma taken_in l rs r : taken l = Some rs → r ∈ rs → r ∈ l.
Proof.
  revert rs. induction l as [|q l IH]; intros rs; cbn [taken]; [done|]. destruct (mm_granularity q =? 0).
  { intros [= <-] ?%not_elem_of_nil. done. }
  destruct (taken l) as [rs'|]; [|done]. intros [= <-]. destruct (mm_size q =? 0).
  - intros IN. right. by apply (IH rs').
  - intros [->|IN]%elem_of_cons; [by left|right; by apply (IH rs')].
Qed.

(** Adding regions leaves the tables and the registers alone. *)
Definition same_tables (s s' : xlat) : Prop :=
  t_mem s' = t_mem s ∧ tables_mapped_regions s' = tables_mapped_regions s ∧ mmu_regs s' = mmu_regs s ∧
  initialized s' = initialized s.

Lemma add_ctx_run l R s :
  stored R s → list_ok R → Forall region_u64 l → 0 < mmap_num ctx →
  match mmap_add_ctx ctx l s with
  | Ok _ s' => ∃ rs R', taken l = Some rs ∧ R' ≡ₚ R ++ rs ∧ stored R' s' ∧ list_ok R' ∧ same_tables s s'
  | Fault f => f = Panic ∨ taken l = None
  | NoFuel => False
  end.
Proof.
  intros SD LO U NUM. revert R s SD LO. induction U as [|r l U UL IH]; intros R s SD LO; cbn [mmap_add_ctx taken]; [by right|].
  destruct (mm_granularity r =? 0) eqn:G0.
  { exists [], R. rewrite app_nil_r. by repeat split; try apply LO; try apply SD. }
  destruct (decide (mm_size r = 0)) as [Z0|NZ].
  { unfold bind, mmap_add_region_ctx. rewrite Z0. cbn [Z.eqb ret]. specialize (IH R s SD LO).
    destruct (mmap_add_ctx ctx l s) as [[] s'|f|]; [|destruct IH as [?|E]; [by left|right; by rewrite E]|done].
    destruct IH as (rs & R' & -> & IH). by exists rs, R'. }
  destruct (check_run R s r SD (lo_valid _ LO) U NZ NUM) as (st & CK & ST). destruct (decide (st = 0)) as [E|NE].
  - destruct (add_region_run R s r SD LO U NZ NUM ltac:(by apply ST)) as (R1 & R2 & -> & RUN & SD1 & LO1).
    rewrite (bind_step _ _ _ _ _ RUN). specialize (IH _ _ SD1 LO1). rewrite (proj2 (Z.eqb_neq _ _) NZ).
    destruct (mmap_add_ctx ctx l _) as [[] s'|f|]; [|destruct IH as [?|E']; [by left|right; by rewrite E']|done].
    destruct IH as (rs & R' & -> & P & SD' & LO' & ST'). exists (r :: rs), R'. split; [done|]. split; [|done].
    rewrite P, <- !app_assoc. apply Permutation_app_head. cbn. apply Permutation_middle.
  - unfold bind, mmap_add_region_ctx. rewrite (proj2 (Z.eqb_neq _ _) NZ). unfold bind. rewrite CK, (proj2 (Z.eqb_neq _ _) NE).
    by left.
Qed.

Lemma add_ctx_step r l s s1 :
  mm_granularity r ≠ 0 → mmap_add_region_ctx ctx r s = Ok tt s1 → mmap_add_ctx ctx (r :: l) s = mmap_add_ctx ctx l s1.
Proof. intros G R. cbn [mmap_add_ctx]. rewrite (proj2 (Z.eqb_neq _ _) G). by rewrite (bind_step _ _ _ _ _ R). Qed.

(** Regions apart from each other are all taken. *)
Lemma add_ctx_accepts l R s :
  stored R s → list_ok R → 0 < mmap_num ctx → (∀ r, r ∈ l → valid r ∧ mm_granularity r ≠ 0) →
  (∀ q r, q ∈ R → r ∈ l → apart q r) → ForallOrdPairs apart l → (length R + length l ≤ Z.to_nat (mmap_num ctx))%nat →
  ∃ R' s', mmap_add_ctx ctx (l ++ [region_zero]) s = Ok tt s' ∧ R' ≡ₚ R ++ l ∧ stored R' s' ∧ list_ok R' ∧ same_tables s s'.
Proof.
  intros SD LO NUM. revert R s SD LO. induction l as [|r l IH]; intros R s SD LO V AP FP LEN.
  { exists R, s. rewrite app_nil_r. by repeat split; try apply SD; try apply LO. }
  destruct (V r ltac:(by left)) as [VR GR]. inversion FP as [|? ? FR FL]; subst. cbn [length] in LEN.
  assert (region_u64 r) as U.
  { pose proof (va_limit _ CO). destruct VR as [A B C _ _], (cfg_va _ CO), (cfg_pa _ CO). unfold region_u64, is_u64. lia. }
  assert (accepts R r) as AC by (split; [done|]; split; [lia|]; intros q Q; left; apply AP; [done|by left]).
  destruct (add_region_run R s r SD LO U ltac:(pose proof (va_size _ VR); lia) NUM AC) as (R1 & R2 & -> & RUN & SD1 & LO1).
  destruct (IH (R1 ++ r :: R2) (with_region R1 r R2 s) SD1 LO1) as (R' & s' & E & P & SD' & LO' & ST).
  - intros q Q. apply V. by right.
  - intros q q' [Q|[->|Q]%elem_of_cons]%elem_of_app Q'.
    + apply AP; [apply elem_of_app; by left|by right].
    + by apply (proj1 (List.Forall_forall _ _) FR), list_elem_of_In.
    + apply AP; [apply elem_of_app; by right|by right].
  - done.
  - rewrite length_app in *. cbn [length]. lia.
  - exists R', s'. cbn [app]. rewrite (add_ctx_step r _ s _ GR RUN). split; [done|]. split; [|done].
    rewrite P, <- !app_assoc. apply Permutation_app_head. cbn. apply Permutation_middle.
Qed.

(** An array without an end is read behind its last element. *)
Lemma add_ctx_overrun l s s' :
  (∀ r, r ∈ l → mm_granularity r ≠ 0) → mmap_add_ctx ctx (l ++ [region_zero]) s = Ok tt s' → mmap_add_ctx ctx l s = Fault OutOfBounds.
Proof.
  revert s. induction l as [|r l IH]; intros s G; [done|]. cbn [mmap_add_ctx app].
  rewrite (proj2 (Z.eqb_neq _ _) (G r ltac:(by left))). unfold bind. destruct (mmap_add_region_ctx ctx r s); [|done|done].
  apply IH. intros q Q. apply G. by right.
Qed.
End List.

(** A context with three tables, for a machine at EL2. *)
Definition demo_arch : XlatArch := {| CurrentEl := 8; id_aa64mmfr0_el1 := 5; id_aa64mmfr2_el1 := 0 |}.
Definition demo_ctx : xlat_cfg := registered_cfg 4 3 (2 ^ 32) (2 ^ 32) EL2_REGIME 0x10000 0x20000.
Definition demo_regs (r : mmu_reg) (el : Z) : Z := 0.
Definition demo_region : mmap_region_t := mk_region 0x40001000 0x40001000 0x1000 MT_RW_DATA (bs 1).

Lemma demo_ctx_ok : cfg_ok demo_ctx.
Proof. constructor; vm_compute; intuition (congruence || eauto). by exists 16. Qed.

Lemma demo_valid : valid demo_ctx demo_region.
Proof.
  constructor; [vm_compute; intuition congruence|vm_compute; intuition congruence|done| |by left].
  split; [by exists 0x40001|]. split; [by exists 0x40001|by exists 1].
Qed.

Lemma demo_stored : stored demo_ctx [] (registered_xlat demo_ctx demo_regs).
Proof. constructor; [reflexivity|cbn; lia|done]. Qed.

Lemma mmap_add_exact_witness :
  ∃ s, mmap_add_region_ctx demo_ctx demo_region (registered_xlat demo_ctx demo_regs) = Ok tt s ∧
    stored demo_ctx [demo_region] s ∧ list_ok demo_ctx [demo_region].
Proof.
  destruct (mmap_add_exact demo_ctx demo_ctx_ok [] (registered_xlat demo_ctx demo_regs) demo_region) as [[Z0 _]|[(_ & N & _)|(_ & R1 & R2 & E & RUN & SD & LO)]].
  - exact demo_stored.
  - apply list_ok_nil.
  - vm_compute. intuition congruence.
  - reflexivity.
  - discriminate Z0.
  - destruct N. split; [exact demo_valid|]. split; [cbn; lia|]. intros r' IN. by apply elem_of_nil in IN.
  - symmetry in E. apply app_eq_nil in E as [-> ->]. eauto.
Defined.
