(* ===== verification/XlatInit.v ===== *)
(** The tables that [init_xlat_tables_ctx] writes from the list of regions.  After the
    initialisation the walk of an address finds the first region of the list that holds it,
    which is the smallest of the regions that were added, unless the tables were used up. *)
From Stdlib Require Import Sorted.
From stdpp Require Import sorting.
From S2P Require Import Prelude Defs Xlat XlatFacts XlatList.

Section Init.
Context `{XlatArch} (ctx : xlat_cfg) (CO : cfg_ok ctx).

(** The addresses that the base table describes. *)
Definition space : Z := base_table_entries ctx * bs (base_level ctx).

Definition root_walk (s : xlat) (va : Z) : option (Z * Z) := walk (t_mem s) (base_table ctx) (base_level ctx) va.

(** How many of the regions meet what a table describes. *)
Definition hits (R : list mmap_region_t) (l b : Z) : Z :=
  Z.of_nat (length (filter (λ r, touches r b (b + 512 * bs l) = true) R)).

(** Each block or page lies in one of the regions. *)
Definition leaves_in (R : list mmap_region_t) (G : gmap Z (Z * Z)) (s : xlat) : Prop := ∀ t l b k d,
  leaf ctx G s t l b k d → ∃ r, r ∈ R ∧ covered r (b + k * bs l) (b + (k + 1) * bs l).

(** The tables hold the regions [R], earlier ones first. *)
Record holds (R : list mmap_region_t) (G : gmap Z (Z * Z)) (s : xlat) : Prop := {
  hd_struct : struct ctx G s;
  hd_leaves : leaves_in R G s;
  hd_walk : ∀ va, 0 ≤ va < space →
    match region_at R va with
    | Some r => ∃ x, root_walk s va = Some x ∧ maps ctx r va x
    | None => root_walk s va = None
    end;
  hd_counts : ∀ i l b, 0 ≤ i < tables_num ctx → G !! table_at ctx i = Some (l, b) → cnt s i = hits R l b
}.

(** The new region holds each earlier one that it meets. *)
Definition fits (R : list mmap_region_t) (r : mmap_region_t) : Prop := ∀ r', r' ∈ R →
  last_va r' < mm_base_va r ∨ last_va r < mm_base_va r' ∨ mm_base_va r ≤ mm_base_va r' ∧ last_va r' ≤ last_va r.

Lemma in_base G s va : struct ctx G s → 0 ≤ va < space → in_table ctx (base_table ctx) (base_level ctx) 0 va.
Proof. intros ST V. unfold in_table. rewrite nent_base. unfold space in V. lia. Qed.

Lemma table_in_space G s t l b : struct ctx G s → G !! t = Some (l, b) → 0 ≤ b ∧ b + nent ctx t * bs l ≤ space.
Proof.
  intros ST. remember (Z.to_nat (l - base_level ctx)) as n eqn:N. revert t l b N.
  induction n as [|n IH]; intros t l b N E; (split; [apply (st_label _ _ _ ST _ _ _ E)|]).
  all: destruct (st_label _ _ _ ST _ _ _ E) as ([L0 L1] & B & _ & T); destruct T as [-> | (L & i & I & ->)].
  1, 3: rewrite (st_base _ _ _ ST) in E; injection E as <- <-; rewrite nent_base; unfold space; lia.
  { lia. }
  destruct (st_up _ _ _ ST _ _ _ E (table_not_base ctx CO i I)) as (p & k & pb & d & EP & EB & K & _).
  destruct (IH p (l - 1) pb ltac:(lia) EP) as [P0 P1]. destruct (st_label _ _ _ ST _ _ _ EP) as ([_ L2] & _).
  destruct (cfg_level _ CO). rewrite nent_table by done.
  assert (512 * bs l = bs (l - 1)) as -> by (rewrite (bs_step (l - 1)) by lia; by replace (l - 1 + 1) with l by lia).
  pose proof (bs_pos (l - 1) L2). nia.
Qed.

Lemma leaves_compat R G s r : leaves_in R G s → fits R r → compat ctx r G s.
Proof.
  intros LI F t l b k d E K D KD. destruct (LI t l b k d (conj E (conj K (conj D KD)))) as (r' & IN & C1 & C2).
  destruct (F r' IN) as [C|[C|C]]; [right; left; lia|right; right; lia|left; lia].
Qed.

Lemma leaves_grow R r G s G' s' : leaves_in R G s → grows ctx r G s G' s' → leaves_in (R ++ [r]) G' s'.
Proof.
  intros LI GR t l b k d LF. destruct (GR t l b k d LF) as [L0|C].
  - destruct (LI t l b k d L0) as (r' & IN & C). exists r'. split; [apply elem_of_app; by left|done].
  - exists r. split; [apply elem_of_app; right; by left|done].
Qed.

Lemma hits_app R R' l b : hits (R ++ R') l b = hits R l b + hits R' l b.
Proof. unfold hits. rewrite filter_app, length_app. lia. Qed.

Lemma hits_none R l b :
  (∀ r, r ∈ R → region_ok ctx r) → (∀ va, b ≤ va < b + 512 * bs l → region_at R va = None) → 0 < bs l → hits R l b = 0.
Proof.
  intros OK NONE P. assert (∀ r, r ∈ R → touches r b (b + 512 * bs l) = false) as T.
  { intros r IN. destruct (touches r b (b + 512 * bs l)) eqn:TO; [|done]. apply touches_spec in TO as [T1 T2].
    pose proof (rg_size _ _ (OK r IN)). set (va := Z.max b (mm_base_va r)).
    destruct (region_at_none R va r (NONE va ltac:(unfold va; lia)) IN). unfold in_region, last_va, va in *. lia. }
  clear OK NONE P. unfold hits. induction R as [|r R IH]; [done|]. rewrite filter_cons_False.
  - apply IH. intros r' IN. apply T. by right.
  - rewrite (T r); [done|]. by left.
Qed.

(** Each table below the base table is one that a region cannot do without. *)
Definition needed_by (R : list mmap_region_t) (G : gmap Z (Z * Z)) : Prop := ∀ t l b,
  G !! t = Some (l, b) → t ≠ base_table ctx → ∃ r, r ∈ R ∧ needs r l b = true.

Lemma needed_grow R r G s G' s' : needed_by R G → partly ctx r G s G' s' → needed_by (R ++ [r]) G'.
Proof.
  intros TB PT t l b E N. destruct (G !! t) as [lb|] eqn:E0.
  - pose proof (lookup_weaken _ _ _ _ E0 (pt_sub _ _ _ _ _ _ PT)) as W. rewrite E in W. injection W as <-.
    destruct (TB t l b E0 N) as (q & Q & TO). exists q. split; [apply elem_of_app; by left|done].
  - exists r. split; [apply elem_of_app; right; by left|]. by apply (pt_new _ _ _ _ _ _ PT t).
Qed.

(** The tables while regions are mapped: they hold the regions, or they are used up. *)
Definition filled (R : list mmap_region_t) (s : xlat) : Prop :=
  ∃ G, struct ctx G s ∧ leaves_in R G s ∧ needed_by R G ∧ (holds R G s ∨ exhausted ctx s).

(** Mapping one more region. *)
Lemma map_base_holds R G s r :
  holds R G s → (∀ r', r' ∈ R → region_ok ctx r') → region_ok ctx r → fits R r → ∀ G' s',
  mapped ctx r (base_table ctx) (base_level ctx) 0 space G s G' s' → holds (R ++ [r]) G' s'.
Proof.
  intros [ST LI W CN] ROK RO F G' s' MP. pose proof MP as [_ SUB ST' GR REST EX FR NEW FSH HIT MISS CNT _].
  constructor; [done|by eapply leaves_grow| |].
  - intros va V. rewrite region_at_app. specialize (W va V). cbn [region_at]. destruct (region_at R va) as [r'|].
    + destruct W as (x & WX & MX). exists x. split; [|done]. by eapply walk_ext.
    + destruct (decide (in_region r va)) as [I|I]; [by apply HIT|by apply MISS].
  - intros i l b I E. rewrite (CNT i I), hits_app. destruct (st_label _ _ _ ST' _ _ _ E) as ([L0 L1] & B & _ & T).
    destruct T as [T | (L & _)]; [by destruct (table_not_base ctx CO i I)|].
    destruct (table_in_space G' s' _ l b ST' E) as [_ S1]. rewrite nent_table in S1 by done. pose proof (bs_pos l L1) as P.
    f_equal.
    + destruct (G !! table_at ctx i) as [lb|] eqn:E0.
      * pose proof (lookup_weaken _ _ _ _ E0 SUB) as E1. rewrite E in E1. injection E1 as <-. by apply CN.
      * rewrite (proj2 (proj2 (st_used _ _ _ ST i I)) E0). symmetry. apply hits_none; [done| |lia].
        intros va V. pose proof (FSH _ _ _ va E E0 V) as N. specialize (W va ltac:(lia)).
        destruct (region_at R va) as [r'|]; [|done]. destruct W as (x & WX & _). unfold root_walk in WX. congruence.
    + unfold delta. rewrite E. rewrite (proj2 (Z.ltb_lt _ _) L), (proj2 (Z.leb_le 0 b) B), (proj2 (Z.ltb_lt b space)) by lia.
      cbn [andb]. unfold hits. destruct (touches r b (b + 512 * bs l)) eqn:TO.
      * by rewrite filter_cons_True.
      * rewrite filter_cons_False by (by rewrite TO). done.
Qed.

Lemma exhausted_more G s s' :
  struct ctx G s → exhausted ctx s → (∀ i, 0 ≤ i < tables_num ctx → cnt s i ≤ cnt s' i) → exhausted ctx s'.
Proof. intros ST EX C i I. specialize (C i I). specialize (EX i I). destruct (st_used _ _ _ ST i I). lia. Qed.

Lemma map_base_filled R s r :
  filled R s → (∀ r', r' ∈ R → region_ok ctx r') → region_ok ctx r → fits R r →
  run_to (map_base ctx r) s (λ e s', same_rest s s' ∧ filled (R ++ [r]) s').
Proof.
  intros (G & ST & LI & TB & H0) ROK RO F. pose proof (leaves_compat R G s r LI F) as CP.
  eapply run_to_mono; [by apply (map_base_run ctx CO r RO G s)|]. fold space.
  intros e s' [[-> (G' & MP)]|(_ & EX & G' & PT)].
  - pose proof (mapped_partly ctx r _ _ _ _ _ _ _ _ ST MP) as PT. split; [apply PT|]. exists G'.
    split; [apply PT|]. split; [eapply leaves_grow; [exact LI|apply PT]|]. split; [by eapply needed_grow|].
    destruct H0 as [HD|EXH].
    + left. exact (map_base_holds R G s r HD ROK RO F _ _ MP).
    + right. exact (exhausted_more G s s' ST EXH (pt_cnt _ _ _ _ _ _ PT)).
  - split; [apply PT|]. exists G'. split; [apply PT|]. split; [eapply leaves_grow; [exact LI|apply PT]|].
    split; [by eapply needed_grow|by right].
Qed.

(** ** Enough tables *)

(** [L] holds the level and the base of each table that the regions need. *)
Definition budget (R : list mmap_region_t) (L : gset (Z * Z)) : Prop := ∀ r l b,
  r ∈ R → base_level ctx < l ≤ 3 → 0 ≤ b → (512 * bs l | b) → needs r l b = true → (l, b) ∈ L.

Lemma needs_touches r l b : needs r l b = true → touches r b (b + 512 * bs l) = true.
Proof. by intros [TO _]%andb_true_iff. Qed.

Lemma not_exhausted R G s L :
  struct ctx G s → needed_by R G → budget R L → Z.of_nat (size L) < tables_num ctx → ¬ exhausted ctx s.
Proof.
  intros ST TB BU SZ EX. set (n := Z.to_nat (tables_num ctx)).
  set (ls := (λ i, default (0, 0) (G !! table_at ctx (Z.of_nat i))) <$> seq 0 n).
  assert (∀ i, (i < n)%nat → ∃ lb, G !! table_at ctx (Z.of_nat i) = Some lb) as LAB.
  { intros i I. destruct (G !! table_at ctx (Z.of_nat i)) as [lb|] eqn:E; [by exists lb|].
    assert (0 ≤ Z.of_nat i < tables_num ctx) as J by lia. destruct (EX _ J). by apply (st_used _ _ _ ST _ J). }
  assert (NoDup ls) as ND.
  { apply NoDup_fmap_2_strong; [|apply NoDup_seq]. intros i j I J EQ. apply elem_of_seq in I, J.
    destruct (LAB i ltac:(lia)) as [lb EI], (LAB j ltac:(lia)) as [lb' EJ]. rewrite EI, EJ in EQ. cbn in EQ. subst lb'.
    pose proof (table_at_inj ctx _ _ (st_inj _ _ _ ST _ _ _ EI EJ)). lia. }
  assert (list_to_set ls ⊆ L) as SUB.
  { intros lb IN. apply elem_of_list_to_set, list_elem_of_fmap in IN as (i & -> & I%elem_of_seq).
    destruct (LAB i ltac:(lia)) as [[l b] E]. rewrite E. cbn. assert (0 ≤ Z.of_nat i < tables_num ctx) as J by lia.
    pose proof (table_not_base ctx CO _ J) as NB. destruct (TB _ l b E NB) as (r & R0 & TO).
    destruct (st_label _ _ _ ST _ _ _ E) as ([_ L1] & B0 & DV & [T|(LT & _)]); [done|]. by apply (BU r). }
  apply subseteq_size in SUB. rewrite size_list_to_set in SUB by done. unfold ls in SUB. rewrite length_fmap, length_seq in SUB. lia.
Qed.

(** ** Clearing the tables *)

(** The words of the tables are memory. *)
Definition words_mapped (s : xlat) : Prop := ∀ t k, is_table ctx t → 0 ≤ k < nent ctx t → is_Some (t_mem s !! entry_at t k).

(** Words and counters are left alone or set to 0. *)
Record zeroed (s s' : xlat) : Prop := {
  zr_rest : same_rest s s';
  zr_length : length (tables_mapped_regions s') = length (tables_mapped_regions s);
  zr_word : ∀ w v, t_mem s !! w = Some v → t_mem s' !! w = Some v ∨ t_mem s' !! w = Some 0;
  zr_count : ∀ i, cnt s' i = cnt s i ∨ cnt s' i = 0
}.

Lemma zeroed_refl s : zeroed s s.
Proof. constructor; [apply same_rest_refl|done|by left|by left]. Qed.

Lemma zeroed_trans s1 s2 s3 : zeroed s1 s2 → zeroed s2 s3 → zeroed s1 s3.
Proof.
  intros [R1 L1 W1 C1] [R2 L2 W2 C2]. constructor; [by eapply same_rest_trans|congruence| |].
  - intros w v E. destruct (W1 w v E) as [E1|E1]; [by apply W2|]. right. by destruct (W2 w 0 E1).
  - intros i. destruct (C2 i) as [->|E]; [apply C1|by right].
Qed.

Lemma zeroed_zero s s' w : zeroed s s' → t_mem s !! w = Some 0 → t_mem s' !! w = Some 0.
Proof. intros Z0 E. by destruct (zr_word _ _ Z0 w 0 E). Qed.

Lemma zeroed_mapped s s' w : zeroed s s' → is_Some (t_mem s !! w) → is_Some (t_mem s' !! w).
Proof. intros Z0 [v E]. destruct (zr_word _ _ Z0 w v E) as [-> | ->]; by eexists. Qed.

Lemma clear_table_run n t i s :
  (∀ k, i ≤ k < i + Z.of_nat n → is_Some (t_mem s !! entry_at t k)) →
  run_to (clear_table n t i) s (λ _ s', zeroed s s' ∧ ∀ k, i ≤ k < i + Z.of_nat n → t_mem s' !! entry_at t k = Some 0).
Proof.
  revert i s. induction n as [|n IH]; intros i s IN; cbn [clear_table].
  { apply run_to_ret. split; [apply zeroed_refl|lia]. }
  destruct (IN i ltac:(lia)) as [v E]. eapply run_to_step; [by eapply store_run|].
  assert (zeroed s (set_word (entry_at t i) INVALID_DESC s)) as Z1.
  { constructor; [done|done| |by left]. intros w v' E'. cbn. destruct (decide (entry_at t i = w)) as [->|N].
    - right. apply lookup_insert_eq.
    - left. by rewrite lookup_insert_ne. }
  eapply run_to_mono; [apply (IH (i + 1))|].
  - intros k K. eapply zeroed_mapped; [exact Z1|]. apply IN. lia.
  - cbn beta. intros _ s' [Z2 W]. split; [by eapply zeroed_trans|]. intros k K. destruct (decide (k = i)) as [->|N].
    + eapply zeroed_zero; [exact Z2|]. apply lookup_insert_eq.
    + apply W. lia.
Qed.

Lemma zeroed_words s s' : zeroed s s' → words_mapped s → words_mapped s'.
Proof. intros Z0 WM t k T K. eapply zeroed_mapped; [done|by apply WM]. Qed.

Lemma clear_count_run j s :
  Z.of_nat (length (tables_mapped_regions s)) = tables_num ctx → 0 ≤ j < tables_num ctx →
  ∃ s', clear_count j s = Ok tt s' ∧ zeroed s s' ∧ cnt s' j = 0.
Proof.
  intros L J. unfold clear_count. destruct (tables_mapped_regions s !! Z.to_nat j) eqn:E; [|apply lookup_ge_None in E; lia].
  eexists. split; [reflexivity|]. split; [|unfold cnt; cbn; by rewrite list_lookup_insert_eq by lia].
  constructor; [done|apply length_insert|by left|]. intros i. unfold cnt. cbn.
  destruct (decide (Z.to_nat j = Z.to_nat i)) as [EQ|N].
  - right. rewrite <- EQ, list_lookup_insert_eq; [done|]. by eapply lookup_lt_Some.
  - left. by rewrite list_lookup_insert_ne.
Qed.

Lemma clear_tables_run n j s :
  Z.of_nat (length (tables_mapped_regions s)) = tables_num ctx → words_mapped s →
  0 ≤ j → j + Z.of_nat n = tables_num ctx →
  run_to (clear_tables ctx n j) s (λ _ s', zeroed s s' ∧ ∀ i, j ≤ i < tables_num ctx →
    cnt s' i = 0 ∧ ∀ k, 0 ≤ k < 512 → t_mem s' !! entry_at (table_at ctx i) k = Some 0).
Proof.
  revert j s. induction n as [|n IH]; intros j s L WM J F; cbn [clear_tables].
  { apply run_to_ret. split; [apply zeroed_refl|lia]. }
  destruct (clear_count_run j s L ltac:(lia)) as (s1 & E1 & Z1 & C1). eapply run_to_step; [exact E1|].
  eapply run_to_bind; [apply (clear_table_run _ (table_at ctx j) 0)|].
  { intros k K. change (Z.of_nat (Z.to_nat XLAT_TABLE_ENTRIES)) with 512 in K. apply (zeroed_words s s1 Z1 WM).
    - right. exists j. split; [lia|done].
    - rewrite nent_table by (done || lia). lia. }
  intros _ s2 [Z2 W2]. assert (zeroed s s2) as Z02 by (by eapply zeroed_trans).
  eapply run_to_mono; [apply (IH (j + 1) s2)|].
  - by rewrite (zr_length _ _ Z02).
  - by eapply zeroed_words.
  - lia.
  - lia.
  - cbn beta. intros _ s3 [Z3 W3]. split; [by eapply zeroed_trans|]. intros i I. destruct (decide (i = j)) as [->|N]; [|apply W3; lia].
    split.
    + destruct (zr_count _ _ Z3 j) as [->|?]; [|done]. by destruct (zr_count _ _ Z2 j) as [->|?].
    + intros k K. eapply zeroed_zero; [exact Z3|]. apply W2. change (Z.of_nat (Z.to_nat XLAT_TABLE_ENTRIES)) with 512. lia.
Qed.

(** Tables with invalid entries only hold no regions. *)
Lemma empty_holds s :
  Z.of_nat (length (tables_mapped_regions s)) = tables_num ctx →
  (∀ k, 0 ≤ k < base_table_entries ctx → t_mem s !! entry_at (base_table ctx) k = Some 0) →
  (∀ i, 0 ≤ i < tables_num ctx → cnt s i = 0 ∧ ∀ k, 0 ≤ k < 512 → t_mem s !! entry_at (table_at ctx i) k = Some 0) →
  holds [] {[base_table ctx := (base_level ctx, 0)]} s.
Proof.
  intros L B T. destruct (cfg_level _ CO) as [C0 C1].
  assert (∀ t l b, ({[base_table ctx := (base_level ctx, 0)]} : gmap Z (Z * Z)) !! t = Some (l, b) →
    t = base_table ctx ∧ l = base_level ctx ∧ b = 0) as G0 by (by intros t l b [-> [= -> ->]]%lookup_singleton_Some).
  assert (struct ctx {[base_table ctx := (base_level ctx, 0)]} s) as ST.
  { constructor; [apply lookup_singleton_eq| | | | |done| |].
    - intros t l b (-> & -> & ->)%G0. split; [lia|]. split; [lia|]. split; [apply Z.divide_0_r|by left].
    - intros t t' [l b] (-> & _)%G0 (-> & _)%G0. done.
    - intros t l b k (-> & -> & ->)%G0 K. rewrite nent_base in K. exists 0. split; [by apply B|by apply entry_invalid].
    - intros t l b (-> & _)%G0 N. done.
    - intros i I. destruct (T i I) as [-> _]. split; [done|]. split; [|done]. intros _. apply lookup_singleton_ne.
      by apply not_eq_sym, table_not_base.
    - intros i k I _ K. by apply T. }
  constructor; [done| | |].
  - intros t l b k d (E & K & D & KD). apply G0 in E as (-> & -> & ->). rewrite nent_base in K. rewrite (B k K) in D.
    injection D as <-. revert KD. unfold desc_kind. by destruct (base_level ctx =? 3).
  - intros va V. cbn. apply (walk_empty ctx CO _ _ _ _ 0 va ST); [apply lookup_singleton_eq|by apply (in_base _ _ _ ST)|].
    intros k K. rewrite nent_base in K. by apply B.
  - intros i l b I (E & _)%G0. by destruct (table_not_base ctx CO i I).
Qed.

(** ** The loop over the regions *)

Lemma sorted_fits R1 r R2 :
  (∀ q, q ∈ R1 ++ r :: R2 → 0 < mm_size q) → StronglySorted ordered (R1 ++ r :: R2) → fits R1 r.
Proof.
  intros POS SS q Q. apply StronglySorted_app in SS as (C & _ & _). destruct (C q r Q ltac:(by left)) as [B A].
  pose proof (POS q ltac:(apply elem_of_app; by left)). pose proof (POS r ltac:(apply elem_of_app; right; by left)).
  destruct A as [[A _]|([[I1 I2]|[I1 I2]] & _ & _ & _ & N)]; [lia|lia|]. unfold before, last_va in *. lia.
Qed.

Lemma holds_frame R G s s' :
  t_mem s' = t_mem s → tables_mapped_regions s' = tables_mapped_regions s → holds R G s → holds R G s'.
Proof.
  intros M C [[S1 S2 S3 S4 S5 S6 S7 S8] LI W CN].
  assert (∀ i, cnt s' i = cnt s i) as CE by (intros i; unfold cnt; by rewrite C).
  constructor.
  - constructor; rewrite ?M, ?C; try done. intros i I. rewrite CE. by apply S7.
  - intros t l b k d (E & K & D & KD). rewrite M in D. by apply (LI t l b k d).
  - intros va V. unfold root_walk. rewrite M. by apply W.
  - intros i l b I E. rewrite CE. by apply CN.
Qed.

Lemma stored_frame R s s' : mmap s' = mmap s → max_va s' = max_va s → max_pa s' = max_pa s → stored ctx R s → stored ctx R s'.
Proof. intros M V P [SM SL SX]. constructor; [by rewrite M|done|by rewrite V, P]. Qed.

Lemma map_regions_run R n R1 R2 s :
  R = R1 ++ R2 → (length R2 < n)%nat → stored ctx R s → list_ok ctx R → (∀ r, r ∈ R → attr_ok (u32 (mm_attr r))) → filled R1 s →
  run_to (map_regions ctx n (length R1)) s (λ _ s', same_rest s s' ∧ filled R s').
Proof.
  revert R1 R2 s. induction n as [|n IH]; intros R1 R2 s ER F SD LO AT FL; [lia|]. cbn [map_regions].
  destruct R2 as [|r R2].
  - rewrite app_nil_r in ER. subst R1. eapply run_to_step; [apply mmap_at_run|].
    { rewrite (stored_at _ _ _ _ SD), decide_False, decide_True by (destruct SD; lia). done. }
    cbn. apply run_to_ret. split; [apply same_rest_refl|done].
  - eapply run_to_step; [apply mmap_at_run|].
    { rewrite (stored_at _ _ _ _ SD), decide_True by (rewrite ER, length_app; cbn; lia). rewrite ER. by apply list_lookup_middle. }
    assert (∀ q, q ∈ R → region_ok ctx q) as ROK.
    { intros q Q. apply valid_region_ok; [done|by apply (lo_valid _ _ LO)|by apply AT]. }
    assert (r ∈ R) as IR by (rewrite ER; apply elem_of_app; right; by left). pose proof (rg_size _ _ (ROK r IR)).
    rewrite (proj2 (Z.eqb_neq _ _)) by lia. eapply run_to_bind; [apply (map_base_filled R1 s r FL)|].
    + intros q Q. apply ROK. rewrite ER. apply elem_of_app. by left.
    + by apply ROK.
    + apply (sorted_fits R1 r R2); rewrite <- ER; [|apply LO]. intros q Q. by apply (rg_size _ _ (ROK q Q)).
    + cbn beta. intros _ s1 [RE FL1].
      assert (S (length R1) = length (R1 ++ [r])) as -> by (rewrite length_app; cbn; lia).
      destruct RE as (M & P & V & RE).
      eapply run_to_mono; [apply (IH (R1 ++ [r]) R2 s1)|].
      * by rewrite <- app_assoc.
      * cbn in F. lia.
      * by eapply stored_frame.
      * done.
      * done.
      * done.
      * cbn beta. intros _ s2 [RE2 FL2]. split; [|done]. eapply same_rest_trans; [|exact RE2]. done.
Qed.

(** * Initialisation *)

(** What the initialisation asserts of the context and the machine. *)
Record init_allowed (s : xlat) : Prop := {
  ia_mmu : is_mmu_enabled_ctx ctx s = Ok false s;
  ia_min : xlat_get_min_virt_addr_space_size - 1 ≤ va_max_address ctx;
  ia_max : va_max_address ctx ≤ MAX_VIRT_ADDR_SPACE_SIZE - 1;
  ia_power : IS_POWER_OF_TWO (u64 (va_max_address ctx + 1)) = true;
  ia_pa : ∃ m, xlat_arch_get_max_supported_pa s = Ok m s ∧ pa_max_address ctx ≤ m
}.

Lemma max_supported_pa_frame s s' m :
  xlat_arch_get_max_supported_pa s = Ok m s → xlat_arch_get_max_supported_pa s' = Ok m s'.
Proof. unfold xlat_arch_get_max_supported_pa. cbv zeta. destruct (_ !! _); [|done]. by intros [= <-]. Qed.

(** Whether the MMU is enabled depends on the registers only. *)
Lemma mmu_enabled_frame s s' b :
  mmu_regs s' = mmu_regs s → is_mmu_enabled_ctx ctx s = Ok b s → is_mmu_enabled_ctx ctx s' = Ok b s'.
Proof.
  intros RG. assert (∀ el, (let* cur := xlat_arch_current_el in xassert (el <=? cur) ;; let* v := read_mmu_reg SCTLR el in
    ret (truthy (Z.land v SCTLR_M_BIT))) s = Ok b s →
    (let* cur := xlat_arch_current_el in xassert (el <=? cur) ;; let* v := read_mmu_reg SCTLR el in
    ret (truthy (Z.land v SCTLR_M_BIT))) s' = Ok b s') as EN.
  { intros el. unfold xlat_arch_current_el, bind, read_mmu_reg, gets, ret, xassert. cbv zeta.
    destruct (0 <? _); [|done]. cbn. destruct (el <=? _); [|done]. cbn. rewrite RG. by intros [= ->]. }
  unfold is_mmu_enabled_ctx. cbv zeta. destruct (xlat_regime ctx =? EL1_EL0_REGIME); [apply EN|].
  destruct (xlat_regime ctx =? EL2_REGIME); [apply EN|]. destruct (xlat_regime ctx =? EL3_REGIME); [|done].
  cbn [xassert]. rewrite !bind_ret_l. apply EN.
Qed.

Lemma words_of_table s t : words_mapped s → is_table ctx t → ∀ k, 0 ≤ k < 0 + nent ctx t → is_Some (t_mem s !! entry_at t k).
Proof. intros WM T k K. apply (WM t k T). lia. Qed.

Lemma clear_run {A} s (k : M xlat A) P :
  words_mapped s → Z.of_nat (length (tables_mapped_regions s)) = tables_num ctx →
  (∀ s', same_rest s s' → filled [] s' → run_to k s' P) →
  run_to (clear_table (Z.to_nat (base_table_entries ctx)) (base_table ctx) 0 ;;
          clear_tables ctx (Z.to_nat (tables_num ctx)) 0 ;; k) s P.
Proof.
  intros WM L K. destruct (cfg_entries _ CO) as [E0 _]. pose proof (cfg_num _ CO) as N0.
  eapply run_to_bind; [apply (clear_table_run _ (base_table ctx) 0)|].
  - rewrite Z2Nat.id by lia. rewrite <- nent_base. apply words_of_table; [done|by left].
  - intros _ s1 [Z1 W1]. eapply run_to_bind.
    + apply (clear_tables_run (Z.to_nat (tables_num ctx)) 0 s1); [by rewrite (zr_length _ _ Z1)|by eapply zeroed_words|lia|lia].
    + intros _ s2 [Z2 W2]. pose proof (zeroed_trans _ _ _ Z1 Z2) as Z12. apply K; [apply Z12|].
      eexists. assert (holds [] {[base_table ctx := (base_level ctx, 0)]} s2) as HD.
      { apply empty_holds; [by rewrite (zr_length _ _ Z12)| |done]. intros j J. eapply zeroed_zero; [exact Z2|]. apply W1. lia. }
      split; [apply HD|]. split; [apply HD|]. split; [|by left]. intros t l b [<- _]%lookup_singleton_Some N. done.
Qed.

Lemma run_to_xassert {A} (b : bool) (k : M xlat A) s P : b = true → run_to k s P → run_to (xassert b ;; k) s P.
Proof. by intros ->. Qed.

(** The initialisation ends, and leaves tables that are filled with the regions. *)
Lemma init_tables_run R s :
  stored ctx R s → list_ok ctx R → (∀ r, r ∈ R → attr_ok (u32 (mm_attr r))) →
  words_mapped s → Z.of_nat (length (tables_mapped_regions s)) = tables_num ctx → init_allowed s →
  run_to (init_xlat_tables_ctx ctx) s (λ _ s', initialized s' = true ∧ stored ctx R s' ∧ filled R s').
Proof.
  intros SD LO AT WM L [IM I1 I2 I3 (m & PM & PL)]. unfold init_xlat_tables_ctx.
  apply run_to_xassert; [by destruct (cfg_regime _ CO) as [-> | [-> | ->]]|].
  eapply run_to_step; [exact IM|]. apply run_to_xassert; [done|].
  apply run_to_xassert; [by apply Z.leb_le|]. apply run_to_xassert; [by apply Z.leb_le|]. apply run_to_xassert; [done|].
  apply clear_run; [done|done|]. intros s1 RE1 FL1.
  assert (∀ s2, same_rest s s2 → stored ctx R s2) as SDF
    by (intros s2 (M & P & V & _); by eapply stored_frame).
  eapply run_to_bind; [apply (map_regions_run R _ [] R s1)|]; [done| |by apply SDF|done|done|done|].
  { destruct SD. lia. }
  intros _ s2 [RE2 FL2]. pose proof (same_rest_trans _ _ _ RE1 RE2) as RE. pose proof (SDF s2 RE) as SD2.
  eapply run_to_step; [eapply max_supported_pa_frame; exact PM|]. apply run_to_xassert; [by apply Z.leb_le|].
  destruct (cfg_va _ CO), (cfg_pa _ CO). destruct (sd_max _ _ _ SD2) as [MV MP].
  eapply run_to_step; [reflexivity|].
  apply run_to_xassert.
  { rewrite MV. apply Z.leb_le, largest_le; [lia|]. intros r I. destruct (va_va _ _ (lo_valid _ _ LO r I)). unfold last_va. lia. }
  eapply run_to_step; [reflexivity|].
  apply run_to_xassert.
  { rewrite MP. apply Z.leb_le, largest_le; [lia|]. intros r I. destruct (va_pa _ _ (lo_valid _ _ LO r I)). unfold last_pa. lia. }
  apply run_to_modify. split; [done|]. split; [by apply (stored_frame R s2)|].
  destruct FL2 as (G & ST & LI & TB & HE). exists G.
  assert (struct ctx G (set_initialized s2)) as ST2 by (destruct ST; by constructor).
  split; [done|]. split; [done|]. split; [done|]. destruct HE as [HD|EX]; [left|by right]. by apply (holds_frame R G s2).
Qed.

(** * Translations *)

(** The attribute bits of a descriptor. *)
Definition ATTR_MASK : Z := 0xFFF0000000000FFC.

(** The address that [va] is translated to and the attributes of the translation. *)
Definition lookup_va (s : xlat) (va : Z) : option (Z * Z) :=
  (λ x, (Z.land x.1 TABLE_ADDR_MASK + va mod bs x.2, Z.land x.1 ATTR_MASK)) <$> root_walk s va.

Definition entry_of (r : mmap_region_t) (va : Z) : Z * Z :=
  (mm_base_pa r + va - mm_base_va r, desc_attrs (xlat_regime ctx) (u32 (mm_attr r))).

Lemma desc_attrs_bits regime attr : Z.land (desc_attrs regime attr) ATTR_MASK = desc_attrs regime attr.
Proof.
  unfold desc_attrs, xlat_arch_get_pas. cbv zeta. rewrite !Z.land_lor_distr_l.
  repeat match goal with |- Z.lor ?a ?b = Z.lor ?c ?d => assert (a = c) as ->; [|assert (b = d) as ->; [|done]] end;
    split_ifs; try reflexivity.
Qed.

Lemma desc_of_attrs attr pa l :
  (4096 | pa) → 0 ≤ pa < 2 ^ 48 → Z.land (desc_of (xlat_regime ctx) attr pa l) ATTR_MASK = desc_attrs (xlat_regime ctx) attr.
Proof.
  intros D R. unfold desc_of. rewrite !Z.land_lor_distr_l, desc_attrs_bits.
  rewrite <- (addr_mask_id pa D R), <- Z.land_assoc. change (Z.land TABLE_ADDR_MASK ATTR_MASK) with 0. rewrite Z.land_0_r.
  unfold desc_kind. by destruct (l =? 3).
Qed.

Lemma holds_lookup R G s va :
  holds R G s → (∀ r, r ∈ R → region_ok ctx r) → 0 ≤ va < space → lookup_va s va = (λ r, entry_of r va) <$> region_at R va.
Proof.
  intros [_ _ W _] ROK V. specialize (W va V). unfold lookup_va. destruct (region_at R va) as [r|] eqn:RA.
  - destruct W as (x & -> & MX). cbn. f_equal. apply region_at_in in RA as [IN I]. specialize (ROK r IN). unfold entry_of. f_equal.
    + by apply (maps_address ctx).
    + destruct MX as ([L0 L1] & B & T & D & ->). destruct (rg_pa _ _ ROK) as [P0 P1]. pose proof (bs_pos x.2 L1) as BP.
      unfold last_va in T. apply desc_of_attrs; [|lia]. eapply Z.divide_trans; [apply (bs_page x.2 L1)|exact D].
  - by rewrite W.
Qed.

(** What a walk finds is a block or page of the tables. *)
Lemma walk_some_leaf G s t l b va x :
  struct ctx G s → G !! t = Some (l, b) → in_table ctx t l b va → walk (t_mem s) t l va = Some x →
  ∃ t' l' b' k, leaf ctx G s t' l' b' k x.1 ∧ in_entry l' b' k va.
Proof.
  intros ST. remember (Z.to_nat (3 - l)) as n eqn:N. revert t l b N. induction n as [|n IH]; intros t l b N E V W.
  all: destruct (st_label _ _ _ ST _ _ _ E) as ([L0 L1] & _); destruct (locate ctx t l b va L1 V) as (k & K & VK).
  all: destruct (st_entry _ _ _ ST _ _ _ k E K) as (d & D & OK); destruct (decide (Z.land d 3 = desc_kind l)) as [KD|NK].
  1, 3: rewrite (walk_leaf ctx CO G s t l b k va d ST E K VK D KD) in W; injection W as <-; by exists t, l, b, k.
  all: destruct OK as [Z0|L Z1|Z3 Z1|L Z3 GT];
    [by rewrite (walk_invalid ctx CO G s t l b k va d ST E K VK D Z0) in W
    |destruct NK; unfold desc_kind; by rewrite (proj2 (Z.eqb_neq l 3)) by lia
    |destruct NK; unfold desc_kind; by rewrite Z3|].
  { lia. }
  rewrite (walk_down ctx CO G s t l b k va d ST E K VK D L Z3) in W. destruct (below_table ctx CO G s t _ l b k ST E GT) as (_ & _ & R).
  apply (IH (Z.land d TABLE_ADDR_MASK) (l + 1) (b + k * bs l)); [lia|done|by apply R|done].
Qed.

Lemma filled_in_regions R s va :
  filled R s → 0 ≤ va < space → is_Some (lookup_va s va) → ∃ r, r ∈ R ∧ in_region r va.
Proof.
  intros (G & ST & LI & _ & _) V [e E]. unfold lookup_va in E. destruct (root_walk s va) as [x|] eqn:W; [|done].
  destruct (walk_some_leaf G s _ _ 0 va x ST (st_base _ _ _ ST) (in_base G s va ST V) W) as (t & l & b & k & LF & VK).
  destruct (LI t l b k _ LF) as (r & IN & C1 & C2). exists r. split; [done|]. unfold in_region, in_entry in *. lia.
Qed.

Lemma filled_holds R s L : filled R s → budget R L → Z.of_nat (size L) < tables_num ctx → ∃ G, holds R G s.
Proof.
  intros (G & ST & _ & TB & [HD|EX]) BU SZ; [by exists G|]. by destruct (not_exhausted R G s L ST TB BU SZ).
Qed.

(** The initialisation ends.  An address that is translated belongs to a region of the
    list; with enough tables, its translation is that of the first region that holds it. *)
Lemma init_maps_list R L s :
  stored ctx R s → list_ok ctx R → (∀ r, r ∈ R → attr_ok (u32 (mm_attr r))) →
  words_mapped s → Z.of_nat (length (tables_mapped_regions s)) = tables_num ctx → init_allowed s → budget R L →
  run_to (init_xlat_tables_ctx ctx) s (λ _ s', initialized s' = true ∧ stored ctx R s' ∧ ∀ va, 0 ≤ va ≤ va_max_address ctx →
    (is_Some (lookup_va s' va) → ∃ r, r ∈ R ∧ in_region r va) ∧
    (Z.of_nat (size L) < tables_num ctx → lookup_va s' va = (λ r, entry_of r va) <$> region_at R va)).
Proof.
  intros SD LO AT WM LT IA BU. eapply run_to_mono; [by apply (init_tables_run R s)|]. intros _ s' (I & SD' & FL). split; [done|]. split; [done|].
  intros va V. destruct (cfg_va _ CO). assert (0 ≤ va < space) as VS by (unfold space; lia).
  split; [by apply filled_in_regions|]. intros SZ. destruct (filled_holds R s' L FL BU SZ) as [G HD].
  eapply holds_lookup; [exact HD| |done]. intros r IN. apply valid_region_ok; [done|by apply (lo_valid _ _ LO)|by apply AT].
Qed.

(** ** The regions of an array *)

(** The translation of the smallest region that holds the address. *)
Definition smallest_region (l : list mmap_region_t) (va : Z) (res : option (Z * Z)) : Prop :=
  match res with
  | Some e => ∃ r, r ∈ l ∧ in_region r va ∧ (∀ r', r' ∈ l → in_region r' va → mm_size r ≤ mm_size r') ∧ e = entry_of r va
  | None => ∀ r, r ∈ l → ¬ in_region r va
  end.

Lemma region_at_spec R l va :
  R ≡ₚ l → list_ok ctx R → smallest_region l va ((λ r, entry_of r va) <$> region_at R va).
Proof.
  intros P LO. destruct (region_at R va) as [r|] eqn:RA; cbn.
  - destruct (region_at_in _ _ _ RA) as [IN I]. exists r. split; [by rewrite <- P|]. split; [done|]. split; [|done].
    intros r' IN' I'. eapply region_at_smallest; [apply LO| |exact RA|by rewrite P|exact I'].
    intros q Q. apply (va_size _ _ (lo_valid _ _ LO q Q)).
  - intros r IN. rewrite <- P in IN. by eapply region_at_none.
Qed.

Lemma registered_stored regs : 0 ≤ mmap_num ctx → stored ctx [] (registered_xlat ctx regs).
Proof.
  intros N. constructor; [|cbn; lia|done].
  change (replicate (Z.to_nat (mmap_num ctx + 1)) region_zero = replicate (S (Z.to_nat (mmap_num ctx)) - 0) region_zero).
  f_equal. lia.
Qed.

Lemma table_words_at table n k : 0 ≤ k < n → entry_at table k ∈ (table_words table n).*1.
Proof.
  intros K. apply list_elem_of_fmap. exists (entry_at table (Z.of_nat (Z.to_nat k)), 0). split; [cbn; by rewrite Z2Nat.id by lia|].
  apply list_elem_of_fmap. exists (Z.to_nat k). split; [done|]. apply elem_of_seq. lia.
Qed.

Lemma registered_words regs : words_mapped (registered_xlat ctx regs).
Proof.
  intros t k T K. cbn. apply not_eq_None_Some. intros N. apply not_elem_of_list_to_map in N. apply N.
  rewrite fmap_app, elem_of_app. destruct T as [-> | (i & I & ->)].
  - left. apply table_words_at. by rewrite nent_base in K.
  - right. rewrite nent_table in K by done. change XLAT_TABLE_ENTRIES with 512.
    replace (entry_at (table_at ctx i) k) with (entry_at (tables ctx) (512 * i + k))
      by (unfold entry_at; rewrite table_at_eq; lia).
    apply table_words_at. nia.
Qed.

Lemma registered_zero regs t k : is_table ctx t → 0 ≤ k < nent ctx t → t_mem (registered_xlat ctx regs) !! entry_at t k = Some 0.
Proof.
  intros T K. destruct (registered_words regs t k T K) as [v E]. rewrite E. cbn in E. apply elem_of_list_to_map_2 in E.
  apply elem_of_app in E as [(i & [= _ ->] & _)%list_elem_of_fmap|(i & [= _ ->] & _)%list_elem_of_fmap]; done.
Qed.

Lemma registered_holds regs : holds [] {[base_table ctx := (base_level ctx, 0)]} (registered_xlat ctx regs).
Proof.
  pose proof (cfg_num _ CO). apply empty_holds.
  - cbn. rewrite length_replicate. lia.
  - intros k K. apply registered_zero; [by left|by rewrite nent_base].
  - intros i I. split.
    + unfold cnt. cbn. by rewrite lookup_replicate_2 by lia.
    + intros k K. apply registered_zero; [by right; exists i|by rewrite nent_table].
Qed.

(** Adding regions leaves a registered context ready for the initialisation. *)
Lemma same_tables_ready regs s :
  same_tables (registered_xlat ctx regs) s → init_allowed (registered_xlat ctx regs) →
  init_allowed s ∧ words_mapped s ∧ Z.of_nat (length (tables_mapped_regions s)) = tables_num ctx.
Proof.
  intros (M & C & RG & _) [IM I1 I2 I3 (m & PM & PL)]. split; [|split].
  - constructor; [by apply (mmu_enabled_frame (registered_xlat ctx regs))|done|done|done|].
    exists m. split; [|done]. by eapply max_supported_pa_frame.
  - intros t k T K. rewrite M. by apply (registered_words regs).
  - rewrite C. cbn. rewrite length_replicate. pose proof (cfg_num _ CO). lia.
Qed.

(** C7. A context made from an array of regions whose attributes name one of the three
    types of memory: either a region is not acceptable and an assertion fails, or the
    initialisation ends.  Then no address outside of the regions is translated; the MMU's
    walk translates each address as the smallest region of the array that holds it, with
    that region's offset and attributes, unless every table of the context is in use; and
    that does not happen, so that every translation is exact, when the tables that the
    regions need are fewer than those of the context.  A region needs no table for what one
    block of its granularity describes. *)
Theorem array_translated regs l rs :
  0 < mmap_num ctx → Forall region_u64 l → (∀ r, r ∈ l → attr_ok (u32 (mm_attr r))) → taken l = Some rs →
  init_allowed (registered_xlat ctx regs) →
  match mmap_add_ctx ctx l (registered_xlat ctx regs) with
  | Ok _ s => run_to (init_xlat_tables_ctx ctx) s (λ _ s',
      let exact := ∀ va, 0 ≤ va ≤ va_max_address ctx → smallest_region rs va (lookup_va s' va) in
      initialized s' = true ∧
      (∀ va, 0 ≤ va ≤ va_max_address ctx → is_Some (lookup_va s' va) → ∃ r, r ∈ rs ∧ in_region r va) ∧
      (exact ∨ exhausted ctx s') ∧ (∀ L, budget rs L → Z.of_nat (size L) < tables_num ctx → exact))
  | Fault f => f = Panic
  | NoFuel => False
  end.
Proof.
  intros NUM U AT TK IA.
  pose proof (add_ctx_run ctx CO l [] (registered_xlat ctx regs) (registered_stored regs ltac:(lia))) as AR.
  specialize (AR (list_ok_nil ctx) U NUM).
  destruct (mmap_add_ctx ctx l _) as [[] s|f|]; [|destruct AR as [?|E]; congruence|done].
  destruct AR as (rs' & R & E & P & SD & LO & ST). rewrite TK in E. injection E as <-. cbn in P.
  assert (∀ r, r ∈ R → attr_ok (u32 (mm_attr r))) as ATR by (intros r IN; apply AT; rewrite P in IN; by eapply taken_in).
  destruct (same_tables_ready _ s ST IA) as (IAs & WM & LT). destruct (cfg_va _ CO).
  eapply run_to_mono; [by apply (init_tables_run R s SD LO)|]. cbn beta zeta. intros _ s' (I & SD' & FL).
  assert (∀ G, holds R G s' → ∀ va, 0 ≤ va ≤ va_max_address ctx → smallest_region rs va (lookup_va s' va)) as EX.
  { intros G HD va V. rewrite (holds_lookup R G s' va HD); [by apply region_at_spec| |unfold space; lia]. intros r IN.
    apply valid_region_ok; [done|by apply (lo_valid _ _ LO)|by apply ATR]. }
  split; [done|]. split; [|split].
  - intros va V SV. destruct (filled_in_regions R s' va FL ltac:(unfold space; lia) SV) as (r & IN & IR).
    exists r. by rewrite <- P.
  - destruct FL as (G & _ & _ & _ & [HD|FU]); [left; by apply (EX G)|by right].
  - intros L BU SZ. assert (budget R L) as BR by (intros r b k IN; apply BU; by rewrite <- P).
    destruct (filled_holds R s' L FL BR SZ) as [G HD]. by apply (EX G).
Qed.

(** * Regions added later *)

(** The region as [mmap_add_dynamic_region_ctx] takes it. *)
Definition as_dynamic (r : mmap_region_t) : mmap_region_t :=
  mk_region (mm_base_pa r) (mm_base_va r) (mm_size r) (Z.lor (mm_attr r) MT_DYNAMIC) (mm_granularity r).

Lemma as_dynamic_dynamic r : dynamic (as_dynamic r) = true.
Proof.
  unfold dynamic, truthy, as_dynamic. cbn [mm_attr]. apply negb_true_iff, Z.eqb_neq. intros E.
  apply (f_equal (λ x, Z.testbit x 31)) in E. rewrite Z.land_spec, Z.lor_spec, Z.bits_0 in E.
  change (Z.testbit MT_DYNAMIC 31) with true in E. by rewrite orb_true_r in E.
Qed.

(** A region apart from the others can stand anywhere in the list. *)
Lemma region_at_move R1 r R2 va :
  (∀ q, q ∈ R1 ++ R2 → 0 < mm_size q) → 0 < mm_size r → (∀ q, q ∈ R1 ++ R2 → apart q r) →
  region_at (R1 ++ r :: R2) va = region_at ((R1 ++ R2) ++ [r]) va.
Proof.
  intros POS PR AP. rewrite !region_at_app. destruct (region_at R1 va) as [q|] eqn:E1; [done|]. cbn [region_at].
  destruct (decide (in_region r va)) as [I|I].
  - destruct (region_at R2 va) as [q|] eqn:E2; [|done]. apply region_at_in in E2 as [IN I2].
    assert (q ∈ R1 ++ R2) as Q by (apply elem_of_app; by right). destruct (AP q Q) as [[A|A] _]; unfold in_region, last_va in *; lia.
  - by destruct (region_at R2 va).
Qed.

Lemma hits_move R1 r R2 l b : hits (R1 ++ r :: R2) l b = hits ((R1 ++ R2) ++ [r]) l b.
Proof. change (r :: R2) with ([r] ++ R2). rewrite !hits_app. lia. Qed.

Lemma holds_move R1 r R2 G s :
  (∀ q, q ∈ R1 ++ R2 → 0 < mm_size q) → 0 < mm_size r → (∀ q, q ∈ R1 ++ R2 → apart q r) →
  holds ((R1 ++ R2) ++ [r]) G s → holds (R1 ++ r :: R2) G s.
Proof.
  intros POS PR AP [ST LI W CN]. constructor; [done| | |].
  - intros t l b k d LF. destruct (LI t l b k d LF) as (q & Q & C). exists q. split; [|done].
    rewrite !elem_of_app, list_elem_of_singleton in Q. rewrite elem_of_app, elem_of_cons. tauto.
  - intros va V. rewrite region_at_move by done. by apply W.
  - intros i l b I E. rewrite hits_move. by apply CN.
Qed.

(** C31. Adding a region while the tables are in use: an unacceptable region is refused and
    nothing changes; an acceptable one is added to the list and mapped, and every other
    translation stays, unless the tables were used up on the way. *)
Theorem add_dynamic_exact R G s r :
  stored ctx R s → list_ok ctx R → (∀ q, q ∈ R → attr_ok (u32 (mm_attr q))) → holds R G s → initialized s = true →
  0 < mmap_num ctx → region_u64 r → mm_size r ≠ 0 → attr_ok (u32 (mm_attr (as_dynamic r))) →
  (¬ accepts ctx R (as_dynamic r) ∧ ∃ st, st ≠ 0 ∧ mmap_add_dynamic_region_ctx ctx r s = Ok (st, as_dynamic r) s) ∨
  (accepts ctx R (as_dynamic r) ∧ ∃ R1 R2, R = R1 ++ R2 ∧ list_ok ctx (R1 ++ as_dynamic r :: R2) ∧
    ((∃ G' s', mmap_add_dynamic_region_ctx ctx r s = Ok (0, as_dynamic r) s' ∧
       stored ctx (R1 ++ as_dynamic r :: R2) s' ∧ holds (R1 ++ as_dynamic r :: R2) G' s') ∨
     ∃ e s', map_base ctx (as_dynamic r) (set_mmap (mmap (with_region ctx R1 (as_dynamic r) R2 s)) s) = Ok e s' ∧ exhausted ctx s')).
Proof.
  intros SD LO AT HD INI NUM U NZ A. set (d := as_dynamic r).
  destruct (check_run ctx CO R s d SD (lo_valid _ _ LO) U NZ NUM) as (st & CK & ST).
  unfold mmap_add_dynamic_region_ctx. rewrite (proj2 (Z.eqb_neq _ _) NZ). cbv zeta. fold (as_dynamic r). fold d.
  rewrite (bind_step _ _ _ _ _ CK). destruct (decide (st = 0)) as [E|NE].
  2: { left. split; [by rewrite <- ST|]. exists st. split; [done|]. by rewrite (proj2 (Z.eqb_neq _ _) NE). }
  right. apply ST in E as AC. split; [done|]. rewrite E. cbn [negb Z.eqb].
  destruct (find_place_run ctx CO R s d SD LO AC) as (R1 & R2 & -> & FP & B1 & B2). exists R1, R2. split; [done|].
  pose proof (insert_ok ctx R1 R2 d LO AC B1 B2) as LO'. split; [done|].
  rewrite (bind_step _ _ _ _ _ FP), bind_modify.
  destruct (put_run ctx R1 R2 d s (Z.to_nat (mmap_num ctx)) SD AC ltac:(destruct AC as (_ & ? & _); lia)) as (_ & _ & _ & MU & q' & Q' & QZ').
  rewrite (bind_step _ _ _ _ _ (mmap_at_run _ _ (set_mmap _ s) Q')), QZ', bind_xassert, bind_modify by done.
  cbn [mmap set_mmap]. set (s0 := set_mmap (mmap (with_region ctx R1 d R2 s)) s).
  assert (set_mmap (<[length R1 := d]> (move_up (length R1) (Z.to_nat (mmap_num ctx)) (mmap s))) (set_mmap (move_up (length R1) (Z.to_nat (mmap_num ctx)) (mmap s)) s) = s0) as -> by (rewrite MU; reflexivity).
  rewrite (bind_step _ _ _ true s0) by (unfold gets; cbn; by rewrite INI).
  destruct AC as (VR & LT & AG). assert (region_ok ctx d) as RO by (by apply valid_region_ok).
  assert (∀ q, q ∈ R1 ++ R2 → apart q d) as AP.
  { intros q Q. destruct (AG q Q) as [|(_ & _ & DD & _)]; [done|]. unfold d in DD. by rewrite as_dynamic_dynamic in DD. }
  assert (holds (R1 ++ R2) G s0) as HD0 by (by apply (holds_frame (R1 ++ R2) G s)).
  assert (fits (R1 ++ R2) d) as FT by (intros q Q; destruct (AP q Q) as [[?|?] _]; [by left|by right; left]).
  pose proof (map_base_run ctx CO d RO G s0 (hd_struct _ _ _ HD0) (leaves_compat _ _ _ _ (hd_leaves _ _ _ HD0) FT)) as MB.
  unfold run_to in MB. fold space in MB. destruct (map_base ctx d s0) as [e s1|f|] eqn:EM; [|done|done].
  destruct MB as [[EE (G' & MP)]|(_ & EX & _)]; [left|right; by exists e, s1].
  assert (∀ q, q ∈ R1 ++ R2 → region_ok ctx q) as ROK.
  { intros q Q. apply valid_region_ok; [done|by apply (lo_valid _ _ LO)|by apply AT]. }
  pose proof (map_base_holds _ _ _ _ HD0 ROK RO FT _ _ MP) as HD1. destruct (rg_va _ _ RO), (cfg_va _ CO).
  assert (e = end_va_of d) as -> by (rewrite EE, (end_va_eq ctx CO d RO); unfold space, last_va in *; lia).
  exists G'. eexists. split; [|split].
  - rewrite (bind_step (let* end_va := map_base ctx d in _) _ s0 false s1); [exact (bind_step _ _ _ _ _ (raise_max_run ctx CO d s1 VR))|].
    rewrite (bind_step _ _ _ _ _ EM), Z.eqb_refl. reflexivity.
  - pose proof (with_region_stored ctx R1 d R2 s SD (conj VR (conj LT AG))) as [S1 S2 S3].
    destruct (mp_rest _ _ _ _ _ _ _ _ _ _ MP) as (M & P & V & _). constructor; [|done|].
    + cbn. rewrite M. exact S1.
    + cbn. rewrite P, V. exact S3.
  - apply holds_move; [intros q Q; by apply (rg_size _ _ (ROK q Q))|apply (rg_size _ _ RO)|done|].
    by apply (holds_frame _ _ s1).
Qed.
End Init.

(** * A context with regions *)

Definition demo_block : mmap_region_t := mk_region 0x40000000 0x40000000 0x200000 MT_RW_DATA (bs 1).
Definition demo_page : mmap_region_t := mk_region 0x40001000 0x40001000 0x1000 MT_RO_DATA (bs 1).
Definition demo_array : list mmap_region_t := [demo_block; demo_page; region_zero].

Lemma demo_allowed : @init_allowed demo_arch demo_ctx (registered_xlat demo_ctx demo_regs).
Proof.
  constructor; [reflexivity|vm_compute; congruence|vm_compute; congruence|reflexivity|]. exists (2 ^ 48 - 1).
  split; [reflexivity|vm_compute; congruence].
Qed.

Lemma demo_budget R : (∀ r, r ∈ R → r = demo_block ∨ r = demo_page) → budget demo_ctx R {[(2, 0x40000000); (3, 0x40000000)]}.
Proof.
  intros RS r l b IN [L0 L1] _ [q ->] [T1 T2]%needs_touches%touches_spec. change (base_level demo_ctx) with 1 in L0.
  assert (0x40000000 ≤ mm_base_va r ∧ last_va r < 0x40200000) as [A B] by (destruct (RS r IN) as [-> | ->]; vm_compute; intuition congruence).
  assert (0 < mm_size r) as S by (destruct (RS r IN) as [-> | ->]; done).
  unfold last_va in *. assert (l = 2 ∨ l = 3) as [-> | ->] by lia.
  - change (512 * bs 2) with 0x40000000 in *. assert (q = 1) as -> by lia. set_solver.
  - change (512 * bs 3) with 0x200000 in *. assert (q = 512) as -> by lia. set_solver.
Qed.

Lemma demo_attrs r : r ∈ demo_array → attr_ok (u32 (mm_attr r)).
Proof.
  unfold demo_array. rewrite !elem_of_cons, elem_of_nil. intros [-> | [-> | [-> | []]]]; [right; by left|right; by left|by left].
Qed.

Lemma array_translated_witness :
  ∃ s s', @mmap_add_ctx demo_ctx demo_array (registered_xlat demo_ctx demo_regs) = Ok tt s ∧
    @init_xlat_tables_ctx demo_arch demo_ctx s = Ok tt s' ∧
    ∀ va, 0 ≤ va ≤ va_max_address demo_ctx → smallest_region demo_ctx [demo_block; demo_page] va (lookup_va demo_ctx s' va).
Proof.
  pose proof (@array_translated demo_arch demo_ctx demo_ctx_ok demo_regs demo_array [demo_block; demo_page]
    ltac:(reflexivity) ltac:(repeat constructor; vm_compute; intuition congruence) demo_attrs
    ltac:(reflexivity) demo_allowed) as AT.
  assert (match mmap_add_ctx demo_ctx demo_array (registered_xlat demo_ctx demo_regs) with Ok _ _ => true | _ => false end = true) as OK
    by (vm_compute; reflexivity).
  destruct (mmap_add_ctx demo_ctx demo_array (registered_xlat demo_ctx demo_regs)) as [[] s|f|]; [|discriminate OK..].
  unfold run_to in AT. destruct (init_xlat_tables_ctx demo_ctx s) as [[] s'|f|] eqn:EI; [|destruct AT..].
  exists s, s'. split; [done|]. split; [done|]. destruct AT as (_ & _ & _ & AT).
  apply (AT {[(2, 0x40000000); (3, 0x40000000)]}); [apply demo_budget; intros r IN; set_solver|].
  rewrite size_union, !size_singleton by set_solver. cbn. lia.
Defined.

Definition demo_state : xlat := set_initialized (registered_xlat demo_ctx demo_regs).

Lemma demo_holds : holds demo_ctx [] {[base_table demo_ctx := (base_level demo_ctx, 0)]} demo_state.
Proof.
  apply (holds_frame demo_ctx [] _ (registered_xlat demo_ctx demo_regs)); [done|done|]. apply registered_holds, demo_ctx_ok.
Qed.

Lemma demo_state_stored : stored demo_ctx [] demo_state.
Proof. by apply (stored_frame demo_ctx [] (registered_xlat demo_ctx demo_regs)), demo_stored. Qed.

Lemma demo_dynamic_valid : valid demo_ctx (as_dynamic demo_region).
Proof. destruct demo_valid as [A B C D E]. by constructor. Qed.

Lemma add_dynamic_exact_witness : ∃ G' s',
  @mmap_add_dynamic_region_ctx demo_arch demo_ctx demo_region demo_state = Ok (0, as_dynamic demo_region) s' ∧
  stored demo_ctx [as_dynamic demo_region] s' ∧ holds demo_ctx [as_dynamic demo_region] G' s'.
Proof.
  destruct (@add_dynamic_exact demo_arch demo_ctx demo_ctx_ok [] _ demo_state demo_region demo_state_stored (list_ok_nil _)
    ltac:(intros q Q; by apply elem_of_nil in Q) demo_holds ltac:(reflexivity) ltac:(reflexivity)
    ltac:(vm_compute; intuition congruence) ltac:(discriminate) ltac:(right; by left)) as [[N _]|(_ & R1 & R2 & E & _ & C)].
  - destruct N. split; [exact demo_dynamic_valid|]. split; [cbn; lia|]. intros r' IN. by apply elem_of_nil in IN.
  - symmetry in E. apply app_eq_nil in E as [-> ->]. destruct C as [(G' & s' & RUN & SD & HD)|(e & s' & RUN & EX)].
    + eauto.
    + exfalso. apply (EX 2); [vm_compute; intuition congruence|].
      assert (match map_base demo_ctx (as_dynamic demo_region)
        (set_mmap (mmap (with_region demo_ctx [] (as_dynamic demo_region) [] demo_state)) demo_state) with Ok _ s => cnt s 2 | _ => 1 end = 0)
        as C by (vm_compute; reflexivity).
      by rewrite RUN in C.
Defined.

(** With a single table, a region that needs two is refused, but the table it was given on
    the way stays in use: what was mapped is undone only from the first address that was. *)
Definition one_table_ctx : xlat_cfg := registered_cfg 4 1 (2 ^ 32) (2 ^ 32) EL2_REGIME 0x10000 0x20000.

Lemma failed_mapping_keeps_table :
  match @mmap_add_dynamic_region_ctx demo_arch one_table_ctx demo_region (set_initialized (registered_xlat one_table_ctx demo_regs)) with
  | Ok (st, _) s => (st, tables_mapped_regions s) = (- ENOMEM, [1])
  | _ => False
  end.
Proof. vm_compute. reflexivity. Qed.
