(* ===== verification/XlatAttrs.v ===== *)
(** The attributes of mapped memory (xlat_tables_utils.c): the software walk against the
    walk of the MMU, the attributes it reports for a mapped region, and the change of the
    attributes of pages. *)
From S2P Require Import Prelude Defs Xlat XlatFacts XlatList XlatInit.

Section Attrs.
Context `{XlatArch} (ctx : xlat_cfg) (CO : cfg_ok ctx).
Context (BL : base_level ctx = GET_XLAT_TABLE_LEVEL_BASE (u64 (va_max_address ctx + 1))).

(** * The software walk *)

Lemma find_entry_run n G s t l b va :
  struct ctx G s → G !! t = Some (l, b) → in_table ctx t l b va → 4 - l ≤ Z.of_nat n →
  match walk (t_mem s) t l va with
  | Some (d, l') => ∃ t' b' k, find_entry_from n va t (nent ctx t) l s = Ok (Some (entry_at t' k, l')) s ∧
      leaf ctx G s t' l' b' k d ∧ in_entry l' b' k va
  | None => find_entry_from n va t (nent ctx t) l s = Ok None s
  end.
Proof.
  intros ST. revert t l b. induction n as [|n IH]; intros t l b E V F.
  { destruct (st_label _ _ _ ST _ _ _ E) as ([_ L1] & _). lia. }
  destruct (st_label _ _ _ ST _ _ _ E) as ([L0 L1] & B & AL & _). destruct (cfg_level _ CO) as [C0 _].
  destruct (locate ctx t l b va L1 V) as (k & K & VK). destruct (st_entry _ _ _ ST _ _ _ k E K) as (d & D & OK).
  pose proof (nent_le ctx CO t) as [_ NL].
  assert (XLAT_TABLE_IDX va l = k) as IX by (apply (idx_of l b); [lia|done|done|lia|exact VK]).
  cbn [find_entry_from]. cbv zeta. rewrite IX, (proj2 (Z.leb_gt (nent ctx t) k)) by lia.
  rewrite (bind_step _ _ _ _ _ (load_run _ _ _ D)). unfold DESC_MASK, INVALID_DESC, XLAT_TABLE_LEVEL_MAX, PAGE_DESC, BLOCK_DESC, TABLE_DESC.
  destruct OK as [Z0|L Z1|Z3 Z1|L Z3 GT].
  - rewrite (walk_invalid ctx CO G s t l b k va d ST E K VK D Z0), Z0. reflexivity.
  - assert (Z.land d 3 = desc_kind l) as KD by (unfold desc_kind; by rewrite (proj2 (Z.eqb_neq l 3)) by lia).
    rewrite (walk_leaf ctx CO G s t l b k va d ST E K VK D KD), Z1, (proj2 (Z.eqb_neq l 3)) by lia. by exists t, b, k.
  - assert (Z.land d 3 = desc_kind l) as KD by (unfold desc_kind; by rewrite Z3).
    rewrite (walk_leaf ctx CO G s t l b k va d ST E K VK D KD), Z1, (proj2 (Z.eqb_eq l 3) Z3). by exists t, b, k.
  - rewrite (walk_down ctx CO G s t l b k va d ST E K VK D L Z3), Z3, (proj2 (Z.eqb_neq l 3)) by lia.
    change (3 =? 0) with false. change (3 =? 1) with false. cbv iota. rewrite bind_xassert by done. destruct (below_table ctx CO G s t _ l b k ST E GT) as (_ & N & R).
    specialize (IH _ _ _ GT (proj1 (R va) VK) ltac:(lia)). rewrite N in IH. exact IH.
Qed.

Lemma va_size_id : u64 (va_max_address ctx + 1) = va_max_address ctx + 1.
Proof. pose proof (va_limit _ CO). destruct (cfg_va _ CO). apply u64_id. unfold is_u64. lia. Qed.

(** It finds what the MMU finds. *)
Lemma find_run G s va :
  struct ctx G s → 0 ≤ va ≤ va_max_address ctx →
  match root_walk ctx s va with
  | Some (d, l) => ∃ t b k, find_xlat_table_entry va (base_table ctx) (base_table_entries ctx) (u64 (va_max_address ctx + 1)) s
        = Ok (Some (entry_at t k, l)) s ∧ leaf ctx G s t l b k d ∧ in_entry l b k va
  | None => find_xlat_table_entry va (base_table ctx) (base_table_entries ctx) (u64 (va_max_address ctx + 1)) s = Ok None s
  end.
Proof.
  intros ST V. unfold find_xlat_table_entry. rewrite <- BL, <- nent_base. destruct (cfg_va _ CO). destruct (cfg_level _ CO).
  assert (0 ≤ va < space ctx) as VS by (unfold space; lia).
  apply (find_entry_run _ G s _ _ 0); [done|apply (st_base _ _ _ ST)|by apply (in_base ctx G s)|unfold XLAT_TABLE_LEVEL_MAX; lia].
Qed.

(** * The attributes it reports *)

(** Bits of a descriptor next to its type and its address. *)
Lemma desc_bits attr pa l k m :
  (4096 | pa) → 0 ≤ pa < 2 ^ 48 → 0 ≤ k → Z.land (Z.shiftl m k) (Z.lor TABLE_ADDR_MASK 3) = 0 →
  Z.land (Z.shiftr (desc_of (xlat_regime ctx) attr pa l) k) m = Z.land (Z.shiftr (desc_attrs (xlat_regime ctx) attr) k) m.
Proof.
  intros D R K M. unfold desc_of. rewrite Z.lor_assoc, Z.shiftr_lor, Z.land_lor_distr_l.
  assert (Z.land (Z.shiftr (Z.lor pa (desc_kind l)) k) m = 0) as ->; [|by rewrite Z.lor_0_l].
  assert (Z.lor pa (desc_kind l) = Z.land (Z.lor pa (desc_kind l)) (Z.lor TABLE_ADDR_MASK 3)) as ->.
  { rewrite Z.land_lor_distr_l, !Z.land_lor_distr_r, (addr_mask_id pa D R), (low_bits_clear pa D), Z.lor_0_r.
    by destruct (desc_kind_type l) as [-> ->]. }
  apply Z.bits_inj'. intros n N. rewrite Z.bits_0, Z.land_spec, Z.shiftr_spec, Z.land_spec by done.
  apply (f_equal (λ x, Z.testbit x (n + k))) in M. rewrite Z.land_spec, Z.bits_0, Z.shiftl_spec in M by lia.
  replace (n + k - k) with n in M by lia.
  destruct (Z.testbit m n); [|by rewrite andb_false_r]. cbn in M. by rewrite M, andb_false_r.
Qed.

(** What is reported for a region with attributes [attr].  The flag for an access flag that
    is clear is reported when the access flag is set. *)
Definition reported (attr : Z) : Z :=
  let dev := MT_TYPE attr =? MT_DEVICE in
  Z.lor (MT_TYPE attr)
  (Z.lor (if truthy (Z.land attr MT_RW) then MT_RW else 0)
  (Z.lor (if (xlat_regime ctx =? EL1_EL0_REGIME) && truthy (Z.land attr MT_USER) then MT_USER else 0)
  (Z.lor (if (MT_PAS attr =? MT_REALM) || (MT_PAS attr =? MT_NS) then MT_NS else 0)
  (Z.lor (if dev || truthy (Z.land attr MT_RW) || truthy (Z.land attr MT_EXECUTE_NEVER) then MT_EXECUTE_NEVER else 0)
         (if Z.land attr MT_AF_CLEAR =? 0 then MT_AF_CLEAR else 0))))).

(** The attributes computed from the descriptor of a region. *)
Lemma reported_run attr pa l s :
  attr_ok attr → (4096 | pa) → 0 ≤ pa < 2 ^ 48 →
  attributes_of_desc ctx (desc_of (xlat_regime ctx) attr pa l) s = Ok (reported attr) s.
Proof.
  intros A D R. unfold attributes_of_desc. cbv zeta. rewrite !desc_bits by (done || lia || reflexivity).
  assert (∀ m, Z.land m (Z.lor TABLE_ADDR_MASK 3) = 0 →
    Z.land (desc_of (xlat_regime ctx) attr pa l) m = Z.land (desc_attrs (xlat_regime ctx) attr) m) as XB.
  { intros m M. rewrite <- (Z.shiftr_0_r (desc_of _ _ _ _)), desc_bits by (done || lia). by rewrite Z.shiftr_0_r. }
  unfold xlat_arch_regime_get_xn_desc. destruct (cfg_regime _ CO) as [E|[E|E]]; rewrite E in XB |- *; unfold reported; rewrite E.
  all: change (EL1_EL0_REGIME =? EL1_EL0_REGIME) with true; change (EL2_REGIME =? EL1_EL0_REGIME) with false;
    change (EL3_REGIME =? EL1_EL0_REGIME) with false; change (EL2_REGIME =? EL2_REGIME) with true;
    change (EL3_REGIME =? EL2_REGIME) with false; change (EL3_REGIME =? EL3_REGIME) with true.
  all: cbv [orb andb xassert bind ret].
  all: rewrite !XB by reflexivity; unfold desc_attrs, xlat_arch_get_pas.
  all: destruct (Z.land attr MT_AF_CLEAR =? 0), (truthy (Z.land attr MT_RW)), (truthy (Z.land attr MT_USER)),
         (truthy (Z.land attr MT_EXECUTE_NEVER)).
  all: destruct (Z.eqb_spec (MT_PAS attr) MT_REALM) as [_|_]; [|destruct (Z.eqb_spec (MT_PAS attr) MT_ROOT) as [P|_]; [rewrite P|destruct (MT_PAS attr =? MT_NS)]].
  all: destruct A as [-> | [-> | ->]]; try reflexivity.
  all: destruct (MT_SHAREABILITY attr =? MT_SHAREABILITY_NSH); [reflexivity|].
  all: destruct (MT_SHAREABILITY attr =? MT_SHAREABILITY_OSH); reflexivity.
Qed.

(** Each block or page has the descriptor of some attributes. *)
Definition formed (G : gmap Z (Z * Z)) (s : xlat) : Prop := struct ctx G s ∧ ∀ t l b k d, leaf ctx G s t l b k d →
  ∃ attr pa, attr_ok attr ∧ (4096 | pa) ∧ 0 ≤ pa < 2 ^ 48 ∧ d = desc_of (xlat_regime ctx) attr pa l.

Lemma walk_of_leaf G s t l b k d va :
  struct ctx G s → leaf ctx G s t l b k d → in_entry l b k va → root_walk ctx s va = Some (d, l) ∧ 0 ≤ va < space ctx.
Proof.
  intros ST (E & K & D & KD) VK. destruct (st_label _ _ _ ST _ _ _ E) as ([_ L1] & _).
  assert (in_table ctx t l b va) as V by (by apply (in_entry_table ctx t l b k)).
  split; [|destruct (table_in_space ctx CO G s t l b ST E); unfold in_table in V; lia].
  unfold root_walk. rewrite (walk_root ctx CO G s t l b va ST E V). by apply (walk_leaf ctx CO G s t l b k va d ST E K VK D).
Qed.

Lemma leaf_start l b k : l ≤ 3 → in_entry l b k (b + k * bs l).
Proof. intros L. pose proof (bs_pos l L). unfold in_entry. lia. Qed.

Lemma holds_formed R G s : holds ctx R G s → (∀ r, r ∈ R → region_ok ctx r) → formed G s.
Proof.
  intros [ST _ W _] ROK. split; [done|]. intros t l b k d LF. pose proof (proj1 LF) as E.
  destruct (st_label _ _ _ ST _ _ _ E) as ([_ L1] & _).
  destruct (walk_of_leaf G s t l b k d _ ST LF (leaf_start l b k L1)) as [WV V]. specialize (W _ V). rewrite WV in W.
  destruct (region_at R _) as [r|] eqn:RA; [|done]. destruct W as (x & [= <-] & [LX0 LX1] & B & T & D & DE). cbn in *.
  apply region_at_in in RA as [IN _]. destruct (rg_pa _ _ (ROK r IN)) as [P0 P1]. pose proof (bs_pos l L1) as BP. unfold last_va in T.
  eexists _, _. split; [apply (rg_attr _ _ (ROK r IN))|]. split; [|split; [|exact DE]]; [|lia].
  eapply Z.divide_trans; [apply (bs_page l L1)|exact D].
Qed.

(** What the software reports of an address. *)
Lemma get_internal_run G s va :
  formed G s → initialized s = true → 0 ≤ va ≤ va_max_address ctx →
  match root_walk ctx s va with
  | Some (d, l) => ∃ t b k attr pa, d = desc_of (xlat_regime ctx) attr pa l ∧ attr_ok attr ∧ (4096 | pa) ∧ 0 ≤ pa < 2 ^ 48 ∧
      leaf ctx G s t l b k d ∧ in_entry l b k va ∧
      xlat_get_mem_attributes_internal ctx va s = Ok (0, Some (mk_attrs (reported attr) (entry_at t k) pa l)) s
  | None => xlat_get_mem_attributes_internal ctx va s = Ok (- EINVAL, None) s
  end.
Proof.
  intros [ST FM] INI V. pose proof (find_run G s va ST V) as FR. unfold xlat_get_mem_attributes_internal.
  rewrite (bind_step _ _ _ true s) by (unfold gets; by rewrite INI). rewrite bind_xassert by done.
  rewrite bind_xassert by (destruct (cfg_regime _ CO) as [-> | [-> | ->]]; reflexivity). cbv zeta.
  rewrite bind_xassert by (rewrite va_size_id; apply Z.ltb_lt; lia).
  destruct (root_walk ctx s va) as [[d l]|].
  - destruct FR as (t & b & k & E & LF & VK). destruct (FM t l b k d LF) as (attr & pa & A & D & P & ->).
    exists t, b, k, attr, pa. repeat (split; [done|]). rewrite (bind_step _ _ _ _ _ E).
    rewrite (bind_step _ _ _ _ _ (load_run _ _ _ (proj1 (proj2 (proj2 LF))))).
    rewrite (bind_step _ _ _ _ _ (reported_run attr pa l s A D P)), desc_of_addr by done. reflexivity.
  - by rewrite (bind_step _ _ _ _ _ FR).
Qed.
End Attrs.
