(* ===== verification/XlatChange.v ===== *)
(** Reading and changing the attributes of mapped memory (xlat_tables_utils.c). *)
From S2P Require Import Prelude Defs Xlat XlatFacts XlatList XlatInit XlatAttrs.

Section Change.
Context `{XlatArch} (ctx : xlat_cfg) (CO : cfg_ok ctx).
Context (BL : base_level ctx = GET_XLAT_TABLE_LEVEL_BASE (u64 (va_max_address ctx + 1))).

(** The attributes reported for an address are those of its region. *)
Lemma get_attributes_exact R G s va :
  holds ctx R G s → (∀ r, r ∈ R → region_ok ctx r) → initialized s = true → 0 ≤ va ≤ va_max_address ctx →
  xlat_get_mem_attributes_ctx ctx va s =
    Ok (match region_at R va with Some r => (0, Some (reported ctx (u32 (mm_attr r)))) | None => (- EINVAL, None) end) s.
Proof.
  intros HD ROK INI V. pose proof (get_internal_run ctx CO BL G s va (holds_formed ctx CO R G s HD ROK) INI V) as GR.
  destruct (cfg_va _ CO). assert (0 ≤ va < space ctx) as VS by (unfold space; lia). pose proof (hd_walk _ _ _ _ HD va VS) as W.
  unfold xlat_get_mem_attributes_ctx. destruct (region_at R va) as [r|] eqn:RA.
  - destruct W as (x & WX & LX & B & C1 & DV & DE). rewrite WX in GR. destruct x as [d l]. cbn [fst snd] in *.
    destruct GR as (t & b & k & attr & pa & E & A & D & P & LF & VK & GR).
    rewrite (bind_step _ _ _ _ _ GR).
    apply region_at_in in RA as [IN _]. destruct (rg_pa _ _ (ROK r IN)) as [P0 P1]. pose proof (bs_pos l (proj2 LX)) as BP.
    pose proof (reported_run ctx CO attr pa l s A D P) as R1. rewrite <- E, DE in R1.
    unfold last_va in C1. rewrite (reported_run ctx CO) in R1; [injection R1 as R1; cbn; by rewrite R1|apply (rg_attr _ _ (ROK r IN))| |lia].
    eapply Z.divide_trans; [apply (bs_page l (proj2 LX))|exact DV].
  - rewrite W in GR. by rewrite (bind_step _ _ _ _ _ GR).
Qed.

(** * One page *)

(** The state after the descriptor of the page of [va] was replaced. *)
Definition repage (w d va : Z) (s : xlat) : xlat := set_word w d (log_tlbi va (set_word w INVALID_DESC s)).

Lemma repage_mem w d va s : t_mem (repage w d va s) = <[w := d]> (t_mem s).
Proof. cbn. apply insert_insert_eq. Qed.

Lemma repage_other G s t b k d d' va t' l' b' k' :
  struct ctx G s → leaf ctx G s t 3 b k d → G !! t' = Some (l', b') → 0 ≤ k' < nent ctx t' → ¬ (t' = t ∧ k' = k) →
  t_mem (repage (entry_at t k) d' va s) !! entry_at t' k' = t_mem s !! entry_at t' k'.
Proof.
  intros ST (E & K & _) E' K' N. rewrite repage_mem. apply lookup_insert_ne. intros EQ.
  apply (entry_inj ctx CO) in EQ as [-> ->]; [by apply N|exact (label_is_table ctx _ _ _ _ ST E)|exact (label_is_table ctx _ _ _ _ ST E')|done|done].
Qed.

Lemma repage_struct G s t b k d d' va :
  struct ctx G s → leaf ctx G s t 3 b k d → Z.land d' 3 = 3 → struct ctx G (repage (entry_at t k) d' va s).
Proof.
  intros ST LF D'. pose proof (λ t' l' b' k', repage_other G s t b k d d' va t' l' b' k' ST LF) as OTHER.
  pose proof LF as (E & K & D & _). pose proof ST as [SB SL SI SE SU SC SD SF]. constructor; try done.
  - intros t' l' b' k' E' K'. destruct (decide (t' = t ∧ k' = k)) as [[-> ->]|N].
    + exists d'. rewrite repage_mem, lookup_insert_eq. split; [done|]. rewrite E in E'. injection E' as <- <-. by apply entry_page.
    + rewrite (OTHER t' l' b' k' E' K' N). by apply SE.
  - intros t' l' b' E' N. destruct (SU t' l' b' E' N) as (p & k' & pb & d0 & EP & EB & K' & D0 & T0 & A0).
    exists p, k', pb, d0. repeat (split; [done|]). split; [|done]. rewrite (OTHER p (l' - 1) pb k' EP K'); [done|].
    intros [-> _]. rewrite E in EP. injection EP as EP _. destruct (SL _ _ _ E') as ([_ L3] & _). lia.
  - intros i j I FREE J. rewrite repage_mem, lookup_insert_ne; [by apply SF|]. intros EQ.
    apply (entry_inj ctx CO) in EQ as [EQ _]; [congruence|exact (label_is_table ctx _ _ _ _ ST E)|by right; exists i|done|by rewrite nent_table].
Qed.

Lemma repage_walk G s t b k d d' va a :
  struct ctx G s → leaf ctx G s t 3 b k d → Z.land d' 3 = 3 → 0 ≤ a < space ctx →
  root_walk ctx (repage (entry_at t k) d' va s) a =
    if decide (in_entry 3 b k a) then Some (d', 3) else root_walk ctx s a.
Proof.
  intros ST LF D' A. pose proof LF as (E & K & D & _). pose proof (repage_struct G s t b k d d' va ST LF D') as ST'.
  destruct (decide (in_entry 3 b k a)) as [V|V].
  - assert (leaf ctx G (repage (entry_at t k) d' va s) t 3 b k d') as LF'.
    { split; [done|]. split; [done|]. rewrite repage_mem, lookup_insert_eq. done. }
    by destruct (walk_of_leaf ctx CO G _ t 3 b k d' a ST' LF' V) as [-> _].
  - unfold root_walk. apply (walk_frame ctx CO G s _ _ _ 0); [done|apply (st_base _ _ _ ST)|by apply (in_base ctx G s)|].
    intros t' l' b' k' E' _ K' V'. apply (repage_other G s t b k d d' va t' l' b' k' ST LF E' K').
    intros [-> ->]. rewrite E in E'. injection E' as <- <-. done.
Qed.

Lemma repage_formed G s t b k d attr pa va :
  formed ctx G s → leaf ctx G s t 3 b k d → attr_ok attr → (4096 | pa) → 0 ≤ pa < 2 ^ 48 →
  formed ctx G (repage (entry_at t k) (desc_of (xlat_regime ctx) attr pa 3) va s).
Proof.
  intros [ST FM] LF A D P. assert (Z.land (desc_of (xlat_regime ctx) attr pa 3) 3 = 3) as D3 by (by rewrite desc_of_type).
  split; [by eapply repage_struct|]. intros t' l' b' k' d' (E' & K' & M' & KD). rewrite repage_mem in M'.
  destruct (decide (entry_at t k = entry_at t' k')) as [EQ|N].
  - rewrite EQ, lookup_insert_eq in M'. injection M' as <-. apply (entry_inj ctx CO) in EQ as [<- <-];
      [|exact (label_is_table ctx _ _ _ _ ST (proj1 LF))|exact (label_is_table ctx _ _ _ _ ST E')|apply LF|done].
    rewrite (proj1 LF) in E'. injection E' as <- <-. by exists attr, pa.
  - rewrite lookup_insert_ne in M' by done. apply (FM t' l' b' k' d'). done.
Qed.

(** * The change *)

Definition device_desc (d : Z) : Prop := Z.land (Z.shiftr d ATTR_INDEX_SHIFT) ATTR_INDEX_MASK = ATTR_DEV_INDEX.

(** [va] is mapped by a page, which may have the attributes. *)
Definition changeable (attr : Z) (s : xlat) (va : Z) : Prop :=
  ∃ d, root_walk ctx s va = Some (d, 3) ∧ (device_desc d → Z.land attr MT_EXECUTE_NEVER ≠ 0).

Lemma check_pages_run G s n base attr :
  formed ctx G s → 0 ≤ base → base + 4096 * Z.of_nat n ≤ va_max_address ctx + 1 →
  ∃ st, check_pages ctx n base attr s = Ok st s ∧ (st = 0 ∨ st = - EINVAL) ∧
    (st = 0 ↔ ∀ j, 0 ≤ j < Z.of_nat n → changeable attr s (base + 4096 * j)).
Proof.
  intros FM. revert base. induction n as [|n IH]; intros base B0 B1; cbn [check_pages].
  { exists 0. split; [reflexivity|]. split; [by left|]. split; [lia|done]. }
  pose proof (va_limit _ CO). destruct (cfg_va _ CO). pose proof (find_run ctx CO BL G s base (proj1 FM) ltac:(lia)) as FR.
  assert (∀ st, st = - EINVAL → ¬ changeable attr s base → ∃ st', Ok st s = Ok st' s ∧ (st' = 0 ∨ st' = - EINVAL) ∧
    (st' = 0 ↔ ∀ j, 0 ≤ j < Z.of_nat (S n) → changeable attr s (base + 4096 * j))) as NO.
  { intros st -> NC. exists (- EINVAL). split; [done|]. split; [by right|]. split; [done|]. intros C. destruct NC.
    specialize (C 0 ltac:(lia)). by rewrite Z.add_0_r in C. }
  destruct (root_walk ctx s base) as [[d l]|] eqn:W.
  2: { rewrite (bind_step _ _ _ _ _ FR). apply NO; [done|]. intros (d & W' & _). congruence. }
  destruct FR as (t & b & k & F & LF & _). rewrite (bind_step _ _ _ _ _ F). pose proof LF as (E & _ & D & KD).
  rewrite (bind_step _ _ _ _ _ (load_run _ _ _ D)). unfold DESC_MASK. rewrite KD.
  destruct (negb _ || negb _) eqn:T.
  { apply NO; [done|]. intros (d' & W' & _). rewrite W in W'. injection W' as -> ->. discriminate T. }
  apply orb_false_iff in T as [_ L3%negb_false_iff%Z.eqb_eq]. change XLAT_TABLE_LEVEL_MAX with 3 in L3. subst l.
  destruct ((_ =? ATTR_DEV_INDEX) && _) eqn:DV.
  { apply andb_true_iff in DV as [DV%Z.eqb_eq XN%Z.eqb_eq]. apply NO; [done|]. intros (d' & W' & C). rewrite W in W'.
    injection W' as <-. by apply C. }
  change PAGE_SIZE with 4096. rewrite u64_id by (unfold is_u64; lia).
  destruct (IH (base + 4096) ltac:(lia) ltac:(lia)) as (st & EQ & ST & I). exists st. split; [exact EQ|]. split; [done|]. rewrite I.
  assert (changeable attr s base) as CB.
  { exists d. split; [done|]. intros DD. apply andb_false_iff in DV as [DV|DV]; [by apply Z.eqb_neq in DV|by apply Z.eqb_neq in DV]. }
  split; intros C j J.
  - destruct (decide (j = 0)) as [->|]; [by rewrite Z.add_0_r|]. replace (base + 4096 * j) with (base + 4096 + 4096 * (j - 1)) by lia.
    apply C. lia.
  - replace (base + 4096 + 4096 * j) with (base + 4096 * (j + 1)) by lia. apply C. lia.
Qed.

(** The exception level may invalidate translations of the regime. *)
Context (EL : xlat_regime ctx ≤ Z.land (Z.shiftr CurrentEl 2) 3).

Lemma tlbi_run va s : xlat_arch_tlbi_va va (xlat_regime ctx) s = Ok tt (log_tlbi va s).
Proof.
  unfold xlat_arch_tlbi_va. cbv zeta. assert (∀ el, 0 < el → el ≤ Z.land (Z.shiftr CurrentEl 2) 3 →
    (let* cur := xlat_arch_current_el in xassert (el <=? cur) ;; modify (log_tlbi va)) s = Ok tt (log_tlbi va s)) as RUN.
  { intros el E0 E1. unfold xlat_arch_current_el. cbv zeta. rewrite bind_assoc, bind_xassert by (apply Z.ltb_lt; lia).
    rewrite bind_ret_l, bind_xassert by (by apply Z.leb_le). reflexivity. }
  destruct (cfg_regime _ CO) as [E|[E|E]]; rewrite E in EL |- *; apply RUN; done.
Qed.

Lemma desc_at_page attr pa l s :
  attr_ok attr → (4096 | pa) → l = 3 → xlat_desc ctx attr pa l s = Ok (desc_of (xlat_regime ctx) attr pa l) s.
Proof. intros A D ->. apply xlat_desc_run; [done|done|by rewrite bs_3|lia]. Qed.

(** What [lookup_va] finds after the pages from [lo] up to [hi] have got attributes. *)
Definition changed (attr lo hi : Z) (s s' : xlat) : Prop := ∀ a, 0 ≤ a < space ctx →
  lookup_va ctx s' a =
    if (lo <=? a) && (a <? hi) then (λ e, (e.1, desc_attrs (xlat_regime ctx) attr)) <$> lookup_va ctx s a else lookup_va ctx s a.

Lemma repage_changed G s t b k d attr pa va :
  formed ctx G s → leaf ctx G s t 3 b k d → d = desc_of (xlat_regime ctx) (attr.1) pa 3 → (4096 | pa) → 0 ≤ pa < 2 ^ 48 →
  in_entry 3 b k va → (4096 | va) →
  changed attr.2 va (va + 4096) s (repage (entry_at t k) (desc_of (xlat_regime ctx) attr.2 pa 3) va s).
Proof.
  intros [ST FM] LF DE D P VK AL a A. set (s' := repage _ _ _ _).
  assert (Z.land (desc_of (xlat_regime ctx) attr.2 pa 3) 3 = 3) as D3 by (by rewrite desc_of_type).
  pose proof (repage_walk G s t b k d _ va a ST LF D3 A) as W. fold s' in W. unfold lookup_va. rewrite W.
  assert (va = b + k * bs 3) as ->.
  { pose proof (base_aligned _ _ _ _ _ _ ST (proj1 LF)) as [q Q]. destruct AL as [v ->]. unfold in_entry in VK. rewrite bs_3 in *. lia. }
  change (bs 3) with 4096. destruct (decide (in_entry 3 b k a)) as [V|V].
  - destruct (walk_of_leaf ctx CO G s t 3 b k d a ST LF V) as [WS _]. unfold root_walk in WS |- *. unfold in_entry in V. rewrite bs_3 in V.
    rewrite (proj2 (Z.leb_le (b + k * 4096) a)), (proj2 (Z.ltb_lt a (b + k * 4096 + 4096))) by lia. rewrite WS. cbn. subst d. rewrite !desc_of_addr by done.
    do 2 f_equal. by apply desc_of_attrs.
  - assert ((b + k * 4096 <=? a) && (a <? b + k * 4096 + 4096) = false) as ->; [|done].
    unfold in_entry in V. rewrite bs_3 in V. apply andb_false_iff. rewrite Z.leb_gt, Z.ltb_ge. lia.
Qed.

Lemma changed_trans attr lo mid hi s1 s2 s3 :
  lo ≤ mid ≤ hi → changed attr lo mid s1 s2 → changed attr mid hi s2 s3 → changed attr lo hi s1 s3.
Proof.
  intros L C1 C2 a A. rewrite (C2 a A), (C1 a A).
  destruct (Z.leb_spec lo a), (Z.ltb_spec a mid), (Z.leb_spec mid a), (Z.ltb_spec a hi); cbn [andb]; try lia; done.
Qed.

Lemma change_pages_run G s n base attr :
  formed ctx G s → initialized s = true → attr_ok attr → (4096 | base) → 0 ≤ base →
  base + 4096 * Z.of_nat n ≤ va_max_address ctx + 1 →
  (∀ j, 0 ≤ j < Z.of_nat n → ∃ d, root_walk ctx s (base + 4096 * j) = Some (d, 3)) →
  run_to (change_pages ctx n base attr) s (λ _ s', formed ctx G s' ∧ initialized s' = true ∧
    changed attr base (base + 4096 * Z.of_nat n) s s' ∧
    tlb_log s' = tlb_log s ++ ((λ j, base + 4096 * Z.of_nat j) <$> seq 0 n)).
Proof.
  intros FM INI A AL B0 B1 MAP. revert s base FM INI AL B0 B1 MAP. induction n as [|n IH]; intros s base FM INI AL B0 B1 MAP; cbn [change_pages].
  { apply run_to_ret. split; [done|]. split; [done|]. split; [|by rewrite app_nil_r]. intros a _.
    assert ((base <=? a) && (a <? base + 4096 * Z.of_nat 0) = false) as ->; [|done]. apply andb_false_iff. rewrite Z.leb_gt, Z.ltb_ge. lia. }
  pose proof (va_limit _ CO). destruct (cfg_va _ CO). pose proof (get_internal_run ctx CO BL G s base FM INI ltac:(lia)) as GI.
  destruct (MAP 0 ltac:(lia)) as [d W]. rewrite Z.add_0_r in W. rewrite W in GI.
  destruct GI as (t & b & k & at0 & pa & DE & A0 & D & P & LF & VK & GI). eapply run_to_step; [exact GI|]. cbn [table_entry addr_pa table_level].
  eapply run_to_step; [apply (store_run _ _ d); apply LF|]. eapply run_to_step; [apply tlbi_run|].
  eapply run_to_step; [by apply desc_at_page|]. eapply run_to_step; [eapply store_run; cbn; apply lookup_insert_eq|].
  fold (repage (entry_at t k) (desc_of (xlat_regime ctx) attr pa 3) base s). set (s1 := repage _ _ _ s).
  change PAGE_SIZE with 4096. rewrite u64_id by (unfold is_u64; lia).
  assert (changed attr base (base + 4096) s s1) as C1 by (by apply (repage_changed G s t b k d (at0, attr))).
  assert (formed ctx G s1) as FM1 by (by eapply repage_formed).
  eapply run_to_mono; [apply (IH s1 (base + 4096)); [done|done| |lia|lia|]|].
  - apply Z.divide_add_r; [done|by exists 1].
  - intros j J. destruct (MAP (j + 1) ltac:(lia)) as [d' W']. exists d'.
    replace (base + 4096 + 4096 * j) with (base + 4096 * (j + 1)) by lia.
    assert (Z.land (desc_of (xlat_regime ctx) attr pa 3) 3 = 3) as D3 by (by rewrite desc_of_type).
    rewrite (repage_walk G s t b k d _ base _ (proj1 FM) LF D3) by (unfold space; lia).
    destruct (decide _) as [V|V]; [|done]. destruct (walk_of_leaf ctx CO G s t 3 b k d _ (proj1 FM) LF V) as [WS _].
    pose proof (base_aligned _ _ _ _ _ _ (proj1 FM) (proj1 LF)) as [q Q]. destruct AL as [v ->]. unfold in_entry in V, VK. rewrite bs_3 in *. lia.
  - cbn beta. intros _ s2 (FM2 & I2 & C2 & T2). split; [done|]. split; [done|]. split.
    + replace (base + 4096 * Z.of_nat (S n)) with (base + 4096 + 4096 * Z.of_nat n) by lia. eapply changed_trans; [|exact C1|exact C2]. lia.
    + rewrite T2. cbn [tlb_log s1]. change (tlb_log s1) with (tlb_log s ++ [base]). rewrite <- app_assoc. f_equal. cbn [seq fmap list_fmap app].
      f_equal; [lia|]. rewrite <- fmap_S_seq, <- list_fmap_compose. apply list_fmap_ext. intros i j _. cbn. lia.
Qed.

(** C32. Changing attributes, for a range inside the space of the context and a memory type
    that exists: if the range is aligned, not empty, not asked to be writable and
    executable, and each page of it is mapped by a page descriptor (for a device, with
    execution never allowed), then exactly these pages get the new attributes, keep their
    addresses and are invalidated in the TLB in order; otherwise an error is returned and
    nothing changes.  Beyond the space the indices of the walk are masked, and another
    page is changed (see [change_attributes_aliases]). *)
Theorem change_attributes_exact G s base size attr :
  formed ctx G s → initialized s = true → attr_ok attr → 0 ≤ base → 0 ≤ size → base + size ≤ va_max_address ctx + 1 →
  let ok := (4096 | base) ∧ 0 < size ∧ (4096 | size) ∧ ¬ (Z.land attr MT_EXECUTE_NEVER = 0 ∧ Z.land attr MT_RW ≠ 0) ∧
    ∀ j, 0 ≤ j < size / 4096 → changeable attr s (base + 4096 * j) in
  (¬ ok ∧ xlat_change_mem_attributes_ctx ctx base size attr s = Ok (- EINVAL) s) ∨
  (ok ∧ ∃ s', xlat_change_mem_attributes_ctx ctx base size attr s = Ok 0 s' ∧ formed ctx G s' ∧ changed attr base (base + size) s s' ∧
    tlb_log s' = tlb_log s ++ ((λ j, base + 4096 * Z.of_nat j) <$> seq 0 (Z.to_nat (size / 4096)))).
Proof.
  intros FM INI A B0 S0 B1 ok. unfold xlat_change_mem_attributes_ctx.
  rewrite (bind_step _ _ _ true s) by (unfold gets; by rewrite INI). rewrite bind_xassert by done.
  destruct (cfg_va _ CO). rewrite bind_xassert by (rewrite (va_size_id ctx CO); apply Z.ltb_lt; lia). cbv zeta.
  change PAGE_SIZE with 4096.
  destruct (IS_PAGE_ALIGNED base) eqn:AL; cbn [negb].
  2: { left. split; [|done]. intros (D & _). apply page_aligned_iff in D. congruence. }
  apply page_aligned_iff in AL. destruct (Z.eqb_spec size 0) as [Z0|NZ]; [left; split; [|done]; intros (_ & P & _); lia|].
  destruct (Z.eqb_spec (size mod 4096) 0) as [M0|NM]; cbn [negb].
  2: { left. split; [|done]. intros (_ & _ & D & _). by apply Z.mod_divide in D. }
  apply Z.mod_divide in M0; [|done]. destruct (_ && _) eqn:XW.
  { left. split; [|done]. intros (_ & _ & _ & N & _). apply N. apply andb_true_iff in XW as [X%Z.eqb_eq T%negb_true_iff%Z.eqb_neq]. done. }
  destruct M0 as [n ->]. rewrite Z.div_mul in * by done. assert (Z.of_nat (Z.to_nat n) = n) as ZN by lia.
  destruct (check_pages_run G s (Z.to_nat n) base attr FM B0 ltac:(lia)) as (st & CK & SV & I). rewrite ZN in I.
  rewrite (bind_step _ _ _ _ _ CK). destruct (Z.eqb_spec st 0) as [E|NE]; cbn [negb].
  - right. pose proof (proj1 I E) as CH. split.
    + unfold ok. rewrite Z.div_mul by done. split; [done|]. split; [lia|]. split; [by exists n|]. split; [|done].
      intros [X T]. rewrite X in XW. cbn in XW. by apply negb_false_iff, Z.eqb_eq in XW.
    + pose proof (change_pages_run G s (Z.to_nat n) base attr FM INI A AL B0 ltac:(lia)) as CR.
      assert (run_to (change_pages ctx (Z.to_nat n) base attr) s (λ _ s', formed ctx G s' ∧ initialized s' = true ∧
        changed attr base (base + 4096 * Z.of_nat (Z.to_nat n)) s s' ∧
        tlb_log s' = tlb_log s ++ ((λ j, base + 4096 * Z.of_nat j) <$> seq 0 (Z.to_nat n)))) as RUN.
      { apply CR. intros j J. destruct (CH j ltac:(lia)) as (d & W & _). by exists d. }
      unfold run_to in RUN. destruct (change_pages ctx (Z.to_nat n) base attr s) as [[] s'|f|] eqn:EC; [|done|done].
      destruct RUN as (FM' & _ & C & T). exists s'. rewrite (bind_step _ _ _ _ _ EC). split; [done|]. split; [done|].
      rewrite ZN in C. replace (n * 4096) with (4096 * n) by lia. done.
  - left. split; [|destruct SV as [-> | ->]; done]. unfold ok. rewrite Z.div_mul by done. intros (_ & _ & _ & _ & C). tauto.
Qed.
End Change.

(** * A page and its attributes *)

Lemma demo_page_valid : valid demo_ctx demo_page ∧ mm_granularity demo_page ≠ 0.
Proof.
  split; [|done]. constructor; [vm_compute; intuition congruence|vm_compute; intuition congruence|done| |by left].
  split; [by exists 0x40001|]. split; [by exists 0x40001|by exists 1].
Qed.

(** A context whose only region is one page. *)
Lemma demo_page_state : ∃ G s, holds demo_ctx [demo_page] G s ∧ initialized s = true.
Proof.
  destruct (add_ctx_accepts demo_ctx demo_ctx_ok [demo_page] [] (registered_xlat demo_ctx demo_regs) demo_stored (list_ok_nil _) ltac:(done))
    as (R & s & _ & P & SD & LO & ST).
  - intros r ->%list_elem_of_singleton. apply demo_page_valid.
  - by intros q r ?%elem_of_nil.
  - constructor; [constructor|constructor].
  - cbn. lia.
  - cbn in P. apply Permutation_singleton_r in P as ->.
    destruct (@same_tables_ready demo_arch demo_ctx demo_ctx_ok demo_regs s ST demo_allowed) as (IA & WM & LT).
    pose proof (@init_tables_run demo_arch demo_ctx demo_ctx_ok [demo_page] s SD LO) as IR. unfold run_to in IR.
    destruct (init_xlat_tables_ctx demo_ctx s) as [[] s'|f|].
    2, 3: exfalso; apply IR; [intros r ->%list_elem_of_singleton; right; by left|done|done|done].
    destruct IR as (I & _ & FL); [intros r ->%list_elem_of_singleton; right; by left|done|done|done|].
    destruct (filled_holds demo_ctx demo_ctx_ok [demo_page] s' {[(2, 0x40000000); (3, 0x40000000)]} FL) as [G HD].
    + apply demo_budget. intros r ->%list_elem_of_singleton. by right.
    + rewrite size_union, !size_singleton by set_solver. cbn. lia.
    + by exists G, s'.
Qed.

Lemma change_attributes_exact_witness : ∃ G s s', formed demo_ctx G s ∧
  @xlat_change_mem_attributes_ctx demo_arch demo_ctx 0x40001000 0x1000 MT_RW_DATA s = Ok 0 s' ∧
  changed demo_ctx MT_RW_DATA 0x40001000 0x40002000 s s'.
Proof.
  destruct demo_page_state as (G & s & HD & I). exists G, s.
  assert (∀ r, r ∈ [demo_page] → region_ok demo_ctx r) as ROK.
  { intros r ->%list_elem_of_singleton. apply valid_region_ok; [exact demo_ctx_ok|apply demo_page_valid|right; by left]. }
  pose proof (holds_formed demo_ctx demo_ctx_ok [demo_page] G s HD ROK) as FM.
  destruct (@change_attributes_exact demo_arch demo_ctx demo_ctx_ok ltac:(reflexivity) ltac:(vm_compute; congruence) G s 0x40001000 0x1000 MT_RW_DATA
    FM I ltac:(right; by left) ltac:(done) ltac:(done) ltac:(vm_compute; congruence)) as [[N _]|(_ & s' & RUN & _ & C & _)].
  - destruct N. split; [by exists 0x40001|]. split; [done|]. split; [by exists 1|]. split; [by intros [? _]|].
    intros j J. assert (j = 0) as -> by (change (0x1000 / 4096) with 1 in J; lia).
    pose proof (hd_walk _ _ _ _ HD 0x40001000 ltac:(vm_compute; intuition congruence)) as W.
    change (region_at [demo_page] 0x40001000) with (Some demo_page) in W. destruct W as ([d l] & WX & [L0 L1] & E0 & E1 & _). cbn [fst snd] in *.
    assert (l = 1 ∨ l = 2 ∨ l = 3) as [-> | [-> | ->]] by lia; [vm_compute in E0; by destruct E0|vm_compute in E0; by destruct E0|].
    exists d. split; [exact WX|]. intros _. vm_compute. congruence.
  - exists s'. split; [exact FM|]. split; [exact RUN|exact C].
Defined.

(** An address beyond the space of the context is not refused: the indices of the walk are
    masked, so the page at the low bits of the address gets the new attributes, while the
    address given is invalidated in the TLB. *)
Lemma change_attributes_aliases :
  let run := (mmap_add_region_ctx demo_ctx demo_page ;; @init_xlat_tables_ctx demo_arch demo_ctx ;;
              @xlat_change_mem_attributes_ctx demo_arch demo_ctx 0x8040001000 0x1000 MT_RW_DATA) (registered_xlat demo_ctx demo_regs) in
  va_max_address demo_ctx < 0x8040001000 ∧
  match run with
  | Ok r s => r = 0 ∧ tlb_log s = [0x8040001000] ∧
      lookup_va demo_ctx s 0x40001000 = Some (0x40001000, desc_attrs EL2_REGIME MT_RW_DATA) ∧
      desc_attrs EL2_REGIME MT_RW_DATA ≠ desc_attrs EL2_REGIME MT_RO_DATA
  | _ => False
  end.
Proof. vm_compute. split; [done|]. split; [done|]. split; [done|]. split; [done|]. congruence. Qed.
