(* ===== verification/XlatMaps.v ===== *)
(** The memory regions of the three images (val_host_memory.c, val_realm_memory.c,
    val_secure_memory.c) and the start of their MMU. *)
From Stdlib Require Import Sorted.
From stdpp Require Import sorting.
From S2P Require Import Prelude Defs Alloc Granule Host Rmi RealmMap RealmLife DaSetup Machine.
From S2P Require Import Xlat XlatFacts XlatList XlatInit XlatAttrs XlatChange.

(** * The regions *)

(** What the linker sets: the sections of the image and the places of its tables. *)
Class ImageLayout : Type := {
  TEXT_START : Z; TEXT_END : Z;
  RODATA_START : Z; RODATA_END : Z;
  DATA_START : Z; DATA_END : Z;
  BSS_START : Z; BSS_END : Z;
  xlat_tables : Z;
  base_xlat_table : Z
}.

Definition MAP_REGION (pa va sz attr : Z) : mmap_region_t := mk_region pa va sz attr REGION_DEFAULT_GRANULARITY.
Definition MAP_REGION2 (pa va sz attr gr : Z) : mmap_region_t := mk_region pa va sz attr gr.
Definition MAP_REGION_FLAT (adr sz attr : Z) : mmap_region_t := MAP_REGION adr adr sz attr.

(** Addresses of the platform (pal_config_def.h, platform_override_fvp.h). *)
Definition PLATFORM_NS_UART_SIZE : Z := 0x10000.
Definition PLATFORM_NVM_SIZE : Z := 0x10000.
Definition PLATFORM_WDOG_SIZE : Z := 0x10000.
Definition PLATFORM_NS_WD_SIZE : Z := 0x1000.
Definition PLATFORM_TWDOG_SIZE : Z := 0x10000.
Definition PLATFORM_OVERRIDE_PCIE_BAR64_VALUE : Z := 0x4000100000.
Definition PLATFORM_OVERRIDE_RP_BAR64_VALUE : Z := 0x4000000000.
Definition PLATFORM_OVERRIDE_PCIE_BAR32NP_VALUE : Z := 0x50000000.
Definition PLATFORM_OVERRIDE_PCIE_BAR32P_VALUE : Z := 0x50600000.
Definition PLATOFRM_OVERRIDE_RP_BAR32_VALUE : Z := 0x50850000.
Definition PLATFORM_OVERRIDE_PCIE_ECAM_BASE_ADDR_0_SIZE : Z := 0x1000 * 0x10000.
Definition MEM_SIZE_64K : Z := 0x10000.
Definition PLAT_VIRT_ADDR_SPACE_SIZE : Z := Z.shiftl 1 40.
Definition PLAT_PHY_ADDR_SPACE_SIZE : Z := Z.shiftl 1 40.

Definition HOST_MEM_REGIONS : Z := 18.
Definition ACS_HOST_CTX_MAX_XLAT_TABLES : Z := 40.
Definition REALM_MEM_REGIONS : Z := 28.
Definition ACS_REALM_CTX_MAX_XLAT_TABLES : Z := 30.
Definition REALM_MAX_VIRT_ADDR_SPACE_SIZE : Z := Z.shiftl 1 48.
Definition REALM_MAX_PHY_ADDR_SPACE_SIZE : Z := Z.shiftl 1 48.
Definition SECURE_MEM_REGIONS : Z := 12.
Definition ACS_SECURE_CTX_MAX_XLAT_TABLES : Z := 10.

Section Maps.
Context `{ImageLayout} `{XlatArch}.

(** The four sections of an image, with the security state of its memory. *)
Definition section_regions (pas : Z) : list mmap_region_t := [
  MAP_REGION_FLAT TEXT_START (u64 (TEXT_END - TEXT_START)) (Z.lor MT_CODE pas);
  MAP_REGION_FLAT RODATA_START (u64 (RODATA_END - RODATA_START)) (Z.lor MT_RO_DATA pas);
  MAP_REGION_FLAT DATA_START (u64 (DATA_END - DATA_START)) (Z.lor MT_RW_DATA pas);
  MAP_REGION_FLAT BSS_START (u64 (BSS_END - BSS_START)) (Z.lor MT_RW_DATA pas) ].

Definition device_region (base size : Z) : mmap_region_t := MAP_REGION_FLAT base size (Z.lor MT_DEVICE_RW MT_NS).

(** ** Host *)

Definition acs_host_xlat_ctx : xlat_cfg :=
  registered_cfg HOST_MEM_REGIONS ACS_HOST_CTX_MAX_XLAT_TABLES PLAT_VIRT_ADDR_SPACE_SIZE PLAT_PHY_ADDR_SPACE_SIZE
    EL2_REGIME xlat_tables base_xlat_table.

Definition host_regions : list mmap_region_t :=
  [ device_region PLATFORM_NS_UART_BASE PLATFORM_NS_UART_SIZE;
    device_region PLATFORM_WDOG_BASE PLATFORM_WDOG_SIZE;
    device_region PLATFORM_NS_WD_BASE PLATFORM_NS_WD_SIZE;
    device_region GICC_BASE GICC_SIZE;
    device_region GICD_BASE GICD_SIZE;
    device_region GICR_BASE GICR_SIZE;
    device_region PLATFORM_NVM_BASE PLATFORM_NVM_SIZE ]
  ++ section_regions MT_NS ++
  [ MAP_REGION2 PLATFORM_MEMORY_POOL_BASE PLATFORM_MEMORY_POOL_BASE PLATFORM_MEMORY_POOL_SIZE (Z.lor MT_RW_DATA MT_NS) 0x1000;
    device_region PLATFORM_OVERRIDE_PCIE_ECAM_BASE_ADDR_0 PLATFORM_OVERRIDE_PCIE_ECAM_BASE_ADDR_0_SIZE;
    device_region PLATFORM_OVERRIDE_PCIE_BAR32NP_VALUE (0x50 * MEM_SIZE_64K);
    device_region PLATFORM_OVERRIDE_PCIE_BAR32P_VALUE (0x25 * MEM_SIZE_64K);
    device_region PLATOFRM_OVERRIDE_RP_BAR32_VALUE (0x20 * MEM_SIZE_64K);
    device_region PLATFORM_OVERRIDE_RP_BAR64_VALUE (0x10 * MEM_SIZE_64K);
    device_region PLATFORM_OVERRIDE_PCIE_BAR64_VALUE (0x10 * MEM_SIZE_64K) ].

Definition val_host_add_mmap : M xlat unit := mmap_add_ctx acs_host_xlat_ctx host_regions.

Definition val_host_pgt_create (pa va length attributes : Z) : M xlat Z :=
  val_xlat_pgt_create acs_host_xlat_ctx pa va length attributes.
Definition val_host_read_atributes (va : Z) : M xlat (Z * option Z) := xlat_get_mem_attributes_ctx acs_host_xlat_ctx va.
Definition val_host_update_attributes (size va attr : Z) : M xlat Z :=
  xlat_change_mem_attributes_ctx acs_host_xlat_ctx va size attr.

(** ** Realm *)

Definition acs_realm_xlat_ctx : xlat_cfg :=
  registered_cfg REALM_MEM_REGIONS ACS_REALM_CTX_MAX_XLAT_TABLES REALM_MAX_VIRT_ADDR_SPACE_SIZE
    REALM_MAX_PHY_ADDR_SPACE_SIZE EL1_EL0_REGIME xlat_tables base_xlat_table.

(** The arrays of [val_realm_add_mmap], which is in Start.v: it asks the RMM for the
    width of the IPA space.  The rest of the first array is 0. *)
Definition realm_region : list mmap_region_t := section_regions MT_REALM ++ replicate 24 region_zero.

Definition plat_shared_region (base_ipa : Z) : mmap_region_t :=
  MAP_REGION_FLAT base_ipa PLATFORM_SHARED_REGION_SIZE (Z.lor MT_RW_DATA MT_NS).

Definition val_realm_pgt_create (ctx : xlat_cfg) (pa va length attributes : Z) : M xlat Z :=
  val_xlat_pgt_create ctx pa va length attributes.

(** The members [va_max_address], [pa_max_address] and [base_level] change, the number of
    entries of the base table does not. *)
Definition val_realm_update_xlat_ctx_ias_oas (ias oas : Z) (ctx : xlat_cfg) : xlat_cfg :=
  mk_cfg oas ias (mmap_num ctx) (tables ctx) (tables_num ctx) (base_table ctx) (base_table_entries ctx)
    (GET_XLAT_TABLE_LEVEL_BASE ias) (xlat_regime ctx).

Definition val_realm_read_attributes (ctx : xlat_cfg) (va : Z) : M xlat (Z * option Z) := xlat_get_mem_attributes_ctx ctx va.
Definition val_realm_update_attributes (ctx : xlat_cfg) (size va attr : Z) : M xlat Z :=
  xlat_change_mem_attributes_ctx ctx va size attr.

(** The context that [val_realm_main] sets up. *)
Definition realm_ctx_of (ipa_width : Z) : xlat_cfg :=
  val_realm_update_xlat_ctx_ias_oas (Z.shiftl 1 ipa_width - 1) (Z.shiftl 1 ipa_width - 1) acs_realm_xlat_ctx.

(** ** Secure *)

Definition acs_secure_xlat_ctx : xlat_cfg :=
  registered_cfg SECURE_MEM_REGIONS ACS_SECURE_CTX_MAX_XLAT_TABLES PLAT_VIRT_ADDR_SPACE_SIZE PLAT_PHY_ADDR_SPACE_SIZE
    EL2_REGIME xlat_tables base_xlat_table.

Definition secure_regions : list mmap_region_t :=
  [ device_region PLATFORM_NS_UART_BASE PLATFORM_NS_UART_SIZE;
    device_region PLATFORM_SP805_TWDOG_BASE PLATFORM_TWDOG_SIZE;
    device_region GICC_BASE GICC_SIZE;
    device_region GICD_BASE GICD_SIZE;
    device_region GICR_BASE GICR_SIZE ]
  ++ section_regions MT_SECURE ++
  [ MAP_REGION_FLAT PLATFORM_MEMORY_POOL_BASE PLATFORM_MEMORY_POOL_SIZE (Z.lor MT_RW_DATA MT_NS) ]
  ++ replicate 2 region_zero.

Definition val_secure_add_mmap : M xlat unit := mmap_add_ctx acs_secure_xlat_ctx secure_regions.
End Maps.
