(* ===== verification/XlatBoot.v ===== *)
(** The start of the MMU of the images: the host's array of regions has no end and fills
    its context; a Realm's tables translate its image and the shared region, and nothing
    else. *)
From Stdlib Require Import Sorted Btauto.
From stdpp Require Import sorting.
From S2P Require Import Prelude Defs Alloc Granule Host Rmi RealmMap RealmLife.
From S2P Require Import Xlat XlatFacts XlatList XlatInit XlatAttrs XlatChange XlatMaps.

(** The sections that the linker script lays out in an image: pages, in order, none empty. *)
Record layout_ok `{ImageLayout} (base size : Z) : Prop := {
  ly_pages : (4096 | TEXT_START) ∧ (4096 | TEXT_END) ∧ (4096 | RODATA_START) ∧ (4096 | RODATA_END) ∧
    (4096 | DATA_START) ∧ (4096 | DATA_END) ∧ (4096 | BSS_START) ∧ (4096 | BSS_END);
  ly_order : base ≤ TEXT_START < TEXT_END ∧ TEXT_END ≤ RODATA_START < RODATA_END ∧ RODATA_END ≤ DATA_START < DATA_END ∧
    DATA_END ≤ BSS_START < BSS_END ∧ BSS_END ≤ base + size
}.

(** The tables in the memory of the image. *)
Definition placed `{ImageLayout} (num entries : Z) : Prop :=
  (4096 | xlat_tables) ∧ 0 ≤ xlat_tables ∧ xlat_tables + 4096 * num ≤ 2 ^ 48 ∧
  (base_xlat_table + 8 * entries ≤ xlat_tables ∨ xlat_tables + 4096 * num ≤ base_xlat_table).

(** All pairs of a list that is written out. *)
Ltac pairs := repeat match goal with
  | |- ForallOrdPairs _ [] => constructor
  | |- ForallOrdPairs _ (_ :: _) => constructor
  | |- List.Forall _ [] => constructor
  | |- List.Forall _ (_ :: _) => constructor
  end.

Lemma size_list_to_set_le (l : list (Z * Z)) : (size (list_to_set l : gset (Z * Z)) ≤ length l)%nat.
Proof.
  induction l as [|x l IH]; cbn [list_to_set length]; [by rewrite size_empty|]. rewrite size_union_alt, size_singleton.
  pose proof (subseteq_size (list_to_set l ∖ {[x]} : gset (Z * Z)) (list_to_set l) ltac:(set_solver)). lia.
Qed.

Section Boot.
Context `{ImageLayout} `{XlatArch}.

(** A context whose members have these values. *)
Lemma cfg_values ctx l n e va pa :
  base_level ctx = l → tables_num ctx = n → base_table_entries ctx = e → va_max_address ctx = va → pa_max_address ctx = pa →
  tables ctx = xlat_tables → base_table ctx = base_xlat_table → regime_ok (xlat_regime ctx) → placed n e →
  0 ≤ l ≤ 3 → 0 < e ≤ 512 → 0 ≤ n → 0 ≤ va → va + 1 ≤ e * bs l → 0 ≤ pa < 2 ^ 48 → cfg_ok ctx.
Proof.
  intros L N E V P T B R (P1 & P2 & P3 & P4) L0 E0 N0 V0 V1 PA. constructor; rewrite ?L, ?N, ?E, ?V, ?P, ?T, ?B; done.
Qed.

(** * Host *)

Lemma host_cfg_ok : placed 40 2 → cfg_ok acs_host_xlat_ctx.
Proof.
  intros PL. eapply (cfg_values _ 0 40 2 (2 ^ 40 - 1) (2 ^ 40 - 1)); try reflexivity; try done. by right; left.
Qed.

Lemma sections_apart_valid ctx pas base size :
  cfg_ok ctx → layout_ok base size → 0 ≤ base → base + size ≤ va_max_address ctx + 1 → base + size ≤ pa_max_address ctx + 1 →
  base + size < 2 ^ 64 →
  (∀ r, r ∈ section_regions pas → valid ctx r ∧ mm_granularity r ≠ 0 ∧ base ≤ mm_base_va r ∧ last_va r < base + size ∧
    mm_base_pa r = mm_base_va r) ∧
  ForallOrdPairs apart (section_regions pas).
Proof.
  intros CO [(D1 & D2 & D3 & D4 & D5 & D6 & D7 & D8) O] B V P U.
  assert (∀ a b attr, (4096 | a) → (4096 | b) → base ≤ a → a < b → b ≤ base + size →
    let r := MAP_REGION_FLAT a (u64 (b - a)) attr in
    valid ctx r ∧ mm_granularity r ≠ 0 ∧ base ≤ mm_base_va r ∧ last_va r < base + size ∧ mm_base_pa r = mm_base_va r) as SEC.
  { intros a b attr DA DB BA AB BS. cbv zeta. unfold last_va. cbn. rewrite u64_id by (unfold is_u64; lia). split; [|split; [done|lia]].
    constructor; cbn; rewrite ?u64_id by (unfold is_u64; lia); [lia|lia|lia| |by left].
    split; [done|]. split; [done|]. by apply Z.divide_sub_r. }
  split.
  - intros r IN. unfold section_regions in IN. rewrite !elem_of_cons, elem_of_nil in IN.
    destruct IN as [-> | [-> | [-> | [-> | []]]]]; apply SEC; lia || done.
  - unfold section_regions. pairs. all: unfold apart, last_va; cbn; rewrite !u64_id by (unfold is_u64; lia); lia.
Qed.

Definition devices_1 : list mmap_region_t := take 7 host_regions.
Definition devices_2 : list mmap_region_t := drop 11 host_regions.

Lemma host_split : host_regions = devices_1 ++ section_regions MT_NS ++ devices_2.
Proof. reflexivity. Qed.

Lemma devices_valid r :
  placed 40 2 → r ∈ devices_1 ++ devices_2 → valid acs_host_xlat_ctx r ∧ mm_granularity r ≠ 0 ∧
    (last_va r < 0x88000000 ∨ 0x88200000 ≤ mm_base_va r) ∧ mm_base_pa r = mm_base_va r.
Proof.
  intros PL IN.
  assert (mm_granularity r ≠ 0 ∧ (last_va r < 0x88000000 ∨ 0x88200000 ≤ mm_base_va r) ∧ mm_base_pa r = mm_base_va r ∧
    region_u64 r ∧ mm_size r ≠ 0 ∧ (IS_PAGE_ALIGNED (mm_base_pa r) && IS_PAGE_ALIGNED (mm_base_va r) && IS_PAGE_ALIGNED (mm_size r)
   && ((mm_granularity r =? XLAT_BLOCK_SIZE 1) || (mm_granularity r =? XLAT_BLOCK_SIZE 2) || (mm_granularity r =? XLAT_BLOCK_SIZE 3))
   && (mm_base_pa r <=? end_pa_of r) && (mm_base_va r <=? end_va_of r)
   && (end_va_of r <=? 2 ^ 40 - 1) && (end_pa_of r <=? 2 ^ 40 - 1) = true)) as (G & LA & F & U & NZ & T).
  { cbn [devices_1 devices_2 host_regions section_regions take drop app] in IN. rewrite !elem_of_cons, elem_of_nil in IN.
    unfold region_u64, is_u64, last_va.
    repeat destruct IN as [-> | IN]; [..|done]; vm_compute; intuition congruence. }
  split; [|done]. apply (range_tests _ (host_cfg_ok PL)); [done|done|exact T].
Qed.

Lemma ordpairs_app (l l' : list mmap_region_t) :
  ForallOrdPairs apart l → ForallOrdPairs apart l' → (∀ x y, x ∈ l → y ∈ l' → apart x y) → ForallOrdPairs apart (l ++ l').
Proof.
  intros F F' C. induction F as [|x l FX F IH]; [done|]. cbn. constructor.
  - apply List.Forall_app. split; [done|]. apply List.Forall_forall. intros y Y%list_elem_of_In. apply C; [by left|done].
  - apply IH. intros y z Y Z0. apply C; [by right|done].
Qed.

Lemma ordpairs_app_inv (l l' : list mmap_region_t) :
  ForallOrdPairs apart (l ++ l') → ForallOrdPairs apart l ∧ ForallOrdPairs apart l' ∧ (∀ x y, x ∈ l → y ∈ l' → apart x y).
Proof.
  induction l as [|x l IH]; cbn; intros F.
  - split; [constructor|]. split; [done|]. by intros x y ?%elem_of_nil.
  - inversion F as [|? ? FX F']; subst. destruct (IH F') as (A & B & C). apply List.Forall_app in FX as [F1 F2].
    split; [by constructor|]. split; [done|]. intros y z [->|Y]%elem_of_cons Z0; [|by apply C].
    by apply (proj1 (List.Forall_forall _ _) F2), list_elem_of_In.
Qed.

Lemma apart_sym r q : apart r q → apart q r.
Proof. unfold apart. lia. Qed.

Lemma devices_apart : ForallOrdPairs apart (devices_1 ++ devices_2).
Proof. cbn [devices_1 devices_2 host_regions section_regions take drop app]. pairs. all: vm_compute; intuition congruence. Qed.

Lemma host_regions_ok :
  placed 40 2 → layout_ok 0x88000000 0x200000 →
  (∀ r, r ∈ host_regions → valid acs_host_xlat_ctx r ∧ mm_granularity r ≠ 0) ∧ ForallOrdPairs apart host_regions.
Proof.
  intros PL LY.
  assert (va_max_address acs_host_xlat_ctx = 2 ^ 40 - 1 ∧ pa_max_address acs_host_xlat_ctx = 2 ^ 40 - 1) as [VM PM] by done.
  destruct (sections_apart_valid acs_host_xlat_ctx MT_NS _ _ (host_cfg_ok PL) LY) as [SV SA]; rewrite ?VM, ?PM; try lia.
  assert (∀ x y, x ∈ devices_1 ++ devices_2 → y ∈ section_regions MT_NS → apart x y) as DS.
  { intros x y X Y. destruct (devices_valid x PL X) as (VX & _ & L & F), (SV y Y) as (VY & _ & B & T & F').
    unfold apart. rewrite F, F'. pose proof (va_size _ _ VX). pose proof (va_size _ _ VY). unfold last_va in *. lia. }
  destruct (ordpairs_app_inv _ _ devices_apart) as (A1 & A2 & A12). rewrite host_split. split.
  - intros r IN. rewrite !elem_of_app in IN.
    assert (r ∈ devices_1 ++ devices_2 ∨ r ∈ section_regions MT_NS) as [I|I] by (rewrite elem_of_app; tauto).
    + by destruct (devices_valid r PL I) as (V & G & _).
    + by destruct (SV r I) as (V & G & _).
  - apply ordpairs_app; [done|apply ordpairs_app; [done|done|]|].
    + intros x y X Y. apply apart_sym, DS; [|done]. apply elem_of_app. by right.
    + intros x y X [Y|Y]%elem_of_app; [apply DS; [apply elem_of_app; by left|done]|by apply A12].
Qed.

(** [val_host_add_mmap] takes all the regions of the host and then reads behind the
    array, which has no element without granularity to end it. *)
Theorem host_map_overruns regs :
  placed 40 2 → layout_ok 0x88000000 0x200000 →
  val_host_add_mmap (registered_xlat acs_host_xlat_ctx regs) = Fault OutOfBounds.
Proof.
  intros PL LY. destruct (host_regions_ok PL LY) as [V A]. pose proof (host_cfg_ok PL) as CO.
  destruct (add_ctx_accepts acs_host_xlat_ctx CO host_regions [] (registered_xlat acs_host_xlat_ctx regs)) as (R & s & E & _);
    [by apply registered_stored|apply list_ok_nil|done|done|by intros q r ?%elem_of_nil|done|done|].
  eapply add_ctx_overrun; [|exact E]. intros r IN. by apply V.
Qed.

(** Were it ended there, the list of the context would be full: no region can be added. *)
Lemma host_context_full regs pa va len attributes :
  placed 40 2 → layout_ok 0x88000000 0x200000 → is_u64 pa → is_u64 va → is_u64 len → len ≠ 0 →
  ∃ s st, mmap_add_ctx acs_host_xlat_ctx (host_regions ++ [region_zero]) (registered_xlat acs_host_xlat_ctx regs) = Ok tt s ∧
    val_host_pgt_create pa va len attributes s = Ok st s ∧ st ≠ 0.
Proof.
  intros PL LY UP UV UL NZ. destruct (host_regions_ok PL LY) as [V A]. pose proof (host_cfg_ok PL) as CO.
  destruct (add_ctx_accepts acs_host_xlat_ctx CO host_regions [] (registered_xlat acs_host_xlat_ctx regs)) as (R & s & E & P & SD & LO & _);
    [by apply registered_stored|apply list_ok_nil|done|done|by intros q r ?%elem_of_nil|done|done|].
  exists s. set (r := mk_region pa va len attributes REGION_DEFAULT_GRANULARITY).
  destruct (check_run acs_host_xlat_ctx CO R s (as_dynamic r) SD (lo_valid _ _ LO)) as (st & CK & ST);
    [exact (conj UP (conj UV UL))|exact NZ|reflexivity|].
  assert (st ≠ 0) as N0.
  { intros Z0. apply ST in Z0 as (_ & LT & _). apply Permutation_length in P. rewrite P in LT. change (length ([] ++ host_regions)) with 18%nat in LT.
    change (Z.to_nat (mmap_num acs_host_xlat_ctx)) with 18%nat in LT. lia. }
  exists st. split; [exact E|]. split; [|done]. unfold val_host_pgt_create, val_xlat_pgt_create, mmap_add_dynamic_region_ctx.
  cbn [mm_size]. rewrite (proj2 (Z.eqb_neq len 0)) by done. cbv zeta. unfold bind at 1. fold (as_dynamic r).
  rewrite (bind_step _ _ _ _ _ CK), (proj2 (Z.eqb_neq st 0)) by done. reflexivity.
Qed.

(** * Realm *)

Context {W : Type} `{RMM W}.
Context (w : Z) (WR : 33 ≤ w ≤ 48).

Lemma shiftl_one k : 0 ≤ k → Z.shiftl 1 k = 2 ^ k.
Proof. intros K. by rewrite Z.shiftl_mul_pow2, Z.mul_1_l. Qed.

Lemma width_bounds : 2 ^ 32 ≤ 2 ^ (w - 1) ∧ 2 ^ w = 2 * 2 ^ (w - 1) ∧ 2 ^ w ≤ 2 ^ 48.
Proof.
  split; [apply Z.pow_le_mono_r; lia|]. split; [|apply Z.pow_le_mono_r; lia].
  rewrite <- Z.pow_succ_r by lia. f_equal. lia.
Qed.

Lemma realm_level : base_level (realm_ctx_of w) = if w <=? 39 then 1 else 0.
Proof.
  unfold realm_ctx_of, val_realm_update_xlat_ctx_ias_oas. cbn [base_level]. rewrite shiftl_one by lia.
  unfold GET_XLAT_TABLE_LEVEL_BASE, L0_XLAT_ADDRESS_SHIFT, L1_XLAT_ADDRESS_SHIFT. rewrite !shiftl_one by lia.
  pose proof width_bounds. destruct (Z.leb_spec w 39) as [L|L].
  - assert (2 ^ w ≤ 2 ^ 39) by (apply Z.pow_le_mono_r; lia).
    rewrite (proj2 (Z.ltb_ge (2 ^ 39) _)), (proj2 (Z.ltb_lt (2 ^ 30) _)) by lia. done.
  - assert (2 ^ 40 ≤ 2 ^ w) by (apply Z.pow_le_mono_r; lia). rewrite (proj2 (Z.ltb_lt (2 ^ 39) _)) by lia. done.
Qed.

Lemma realm_max : va_max_address (realm_ctx_of w) = 2 ^ w - 1 ∧ pa_max_address (realm_ctx_of w) = 2 ^ w - 1.
Proof. unfold realm_ctx_of, val_realm_update_xlat_ctx_ias_oas. cbn. by rewrite shiftl_one by lia. Qed.

Lemma realm_cfg_ok : placed 30 512 → cfg_ok acs_realm_xlat_ctx ∧ cfg_ok (realm_ctx_of w).
Proof.
  intros PL. split.
  - eapply (cfg_values _ 0 30 512 (2 ^ 48 - 1) (2 ^ 48 - 1)); try reflexivity; try done. by left.
  - destruct realm_max as [VM PM]. pose proof width_bounds as (B1 & B2 & B3).
    eapply (cfg_values _ _ 30 512 (2 ^ w - 1) (2 ^ w - 1)); [exact realm_level|reflexivity|reflexivity|exact VM|exact PM|
      reflexivity|reflexivity|by left|exact PL|destruct (w <=? 39); lia|lia|lia|lia| |lia].
    destruct (Z.leb_spec w 39) as [L|L].
    + assert (2 ^ w ≤ 2 ^ 39) by (apply Z.pow_le_mono_r; lia). change (512 * bs 1) with (2 ^ 39). lia.
    + change (512 * bs 0) with (2 ^ 48). lia.
Qed.

(** The address of the shared region, in the unprotected half of the IPA space. *)
Definition shared_ok : Prop :=
  (0x100000 | VAL_NS_SHARED_REGION_IPA_OFFSET) ∧ 0 ≤ VAL_NS_SHARED_REGION_IPA_OFFSET ∧
  VAL_NS_SHARED_REGION_IPA_OFFSET + 0x100000 ≤ 2 ^ (w - 1).

Lemma shared_base : shared_ok → val_get_shared_region_base_ipa w = VAL_NS_SHARED_REGION_IPA_OFFSET + 2 ^ (w - 1).
Proof.
  intros (_ & O0 & O1). unfold val_get_shared_region_base_ipa. rewrite shiftl_one by lia.
  pose proof width_bounds. rewrite u64_id by (unfold is_u64; lia).
  rewrite <- Z.add_lor_land. assert (Z.land VAL_NS_SHARED_REGION_IPA_OFFSET (2 ^ (w - 1)) = 0) as ->; [|lia].
  apply Z.bits_inj'. intros n N. rewrite Z.land_spec, Z.bits_0, Z.pow2_bits_eqb by lia.
  destruct (Z.eqb_spec (w - 1) n) as [<-|]; [|by rewrite andb_false_r]. rewrite andb_true_r.
  destruct (Z.eq_dec VAL_NS_SHARED_REGION_IPA_OFFSET 0) as [->|NZ]; [apply Z.bits_0|].
  apply Z.bits_above_log2; [lia|]. apply Z.log2_lt_pow2; lia.
Qed.

Definition realm_base : Z := PLATFORM_REALM_IMAGE_BASE.

(** What a Realm's tables are to translate: its four sections and the shared region, each
    to the same address. *)
Definition between (lo hi va : Z) : bool := (lo <=? va) && (va <? hi).
Definition realm_view (va : Z) : option (Z * Z) :=
  let attrs (attr : Z) := desc_attrs EL1_EL0_REGIME attr in
  let shared := val_get_shared_region_base_ipa w in
  if between TEXT_START TEXT_END va then Some (va, attrs (Z.lor MT_CODE MT_REALM))
  else if between RODATA_START RODATA_END va then Some (va, attrs (Z.lor MT_RO_DATA MT_REALM))
  else if between DATA_START DATA_END va then Some (va, attrs (Z.lor MT_RW_DATA MT_REALM))
  else if between BSS_START BSS_END va then Some (va, attrs (Z.lor MT_RW_DATA MT_REALM))
  else if between shared (shared + PLATFORM_SHARED_REGION_SIZE) va then Some (va, attrs (Z.lor MT_RW_DATA MT_NS))
  else None.

Definition realm_list : list mmap_region_t :=
  section_regions MT_REALM ++ [plat_shared_region (val_get_shared_region_base_ipa w)].

Lemma realm_size_ok : 0 ≤ realm_base ∧ realm_base + PLATFORM_REALM_IMAGE_SIZE = 0x88400000.
Proof. split; [done|reflexivity]. Qed.

Lemma shared_valid ctx :
  shared_ok → cfg_ok ctx → 2 ^ w ≤ va_max_address ctx + 1 → 2 ^ w ≤ pa_max_address ctx + 1 →
  let r := plat_shared_region (val_get_shared_region_base_ipa w) in
  valid ctx r ∧ mm_granularity r ≠ 0 ∧ 2 ^ (w - 1) ≤ mm_base_va r ∧ mm_base_pa r = mm_base_va r ∧ region_u64 r.
Proof.
  intros SO CO V P. pose proof SO as ([q Q] & O0 & O1). cbv zeta. rewrite (shared_base SO). pose proof width_bounds as (B1 & B2 & B3).
  assert ((4096 | VAL_NS_SHARED_REGION_IPA_OFFSET + 2 ^ (w - 1))) as D.
  { apply Z.divide_add_r; [exists (q * 256); lia|]. exists (2 ^ (w - 1 - 12)). change 4096 with (2 ^ 12). rewrite <- Z.pow_add_r by lia. f_equal. lia. }
  unfold plat_shared_region, MAP_REGION_FLAT, MAP_REGION, PLATFORM_SHARED_REGION_SIZE, region_u64, is_u64. cbn [mm_base_va mm_base_pa mm_size mm_granularity].
  split; [|split; [done|split; [lia|split; [done|lia]]]]. constructor; cbn [mm_base_va mm_base_pa mm_size mm_granularity]; [lia|lia|done| |by left].
  split; [done|]. split; [done|by exists 256].
Qed.

Lemma add_ctx_rest ctx l t s : mmap_add_ctx ctx (l ++ region_zero :: t) s = mmap_add_ctx ctx (l ++ [region_zero]) s.
Proof.
  revert s. induction l as [|r l IH]; intros s; [reflexivity|]. cbn [mmap_add_ctx app]. destruct (mm_granularity r =? 0); [done|].
  unfold bind. destruct (mmap_add_region_ctx ctx r s); [apply IH|done|done].
Qed.

(** What the start of the first CPU does to the tables, once the width is known. *)
Definition realm_add_regions : M xlat unit :=
  mmap_add_ctx acs_realm_xlat_ctx realm_region ;;
  mmap_add_region_ctx acs_realm_xlat_ctx (plat_shared_region (val_get_shared_region_base_ipa w)).

Definition realm_mmu_start : M xlat unit :=
  (realm_add_regions ;; val_setup_mmu (realm_ctx_of w)) ;; val_enable_mmu (realm_ctx_of w).

(** All the regions are taken. *)
Lemma realm_add_run regs :
  placed 30 512 → layout_ok realm_base PLATFORM_REALM_IMAGE_SIZE → shared_ok →
  ∃ R s, realm_add_regions (registered_xlat acs_realm_xlat_ctx regs) = Ok tt s ∧ R ≡ₚ realm_list ∧
    stored (realm_ctx_of w) R s ∧ list_ok (realm_ctx_of w) R ∧ same_tables (registered_xlat acs_realm_xlat_ctx regs) s.
Proof.
  intros PL LY SO. destruct (realm_cfg_ok PL) as [CO CO']. pose proof width_bounds as (B1 & B2 & B3). destruct realm_max as [VM PM].
  destruct realm_size_ok as [RB RE].
  assert (va_max_address acs_realm_xlat_ctx = 2 ^ 48 - 1 ∧ pa_max_address acs_realm_xlat_ctx = 2 ^ 48 - 1) as [VM0 PM0] by done.
  destruct (sections_apart_valid acs_realm_xlat_ctx MT_REALM _ _ CO LY RB) as [SV SA]; rewrite ?RE, ?VM0, ?PM0; try lia.
  destruct (sections_apart_valid (realm_ctx_of w) MT_REALM _ _ CO' LY RB) as [SV' _]; rewrite ?RE, ?VM, ?PM; try lia.
  destruct (shared_valid _ SO CO ltac:(lia) ltac:(lia)) as (HV & HG & HB & HF & HU).
  destruct (shared_valid _ SO CO' ltac:(lia) ltac:(lia)) as (HV' & _). set (sr := plat_shared_region _) in *.
  destruct (add_ctx_accepts acs_realm_xlat_ctx CO (section_regions MT_REALM) [] (registered_xlat acs_realm_xlat_ctx regs))
    as (R & s & E & P & SD & LO & ST);
    [by apply registered_stored|apply list_ok_nil|done|intros r IN; destruct (SV r IN) as (? & ? & _); done
    |by intros q r ?%elem_of_nil|done|change (Z.to_nat (mmap_num acs_realm_xlat_ctx)) with 28%nat; cbn; lia|]. cbn [app] in P.
  assert (∀ q, q ∈ R → apart q sr) as AP.
  { intros q Q. rewrite P in Q. destruct (SV q Q) as (VQ & _ & L1 & L2 & F). unfold apart. rewrite F, HF.
    pose proof (va_size _ _ VQ). rewrite RE in L2. unfold last_va in *. lia. }
  assert (accepts acs_realm_xlat_ctx R sr) as AC.
  { split; [done|]. split; [|intros q Q; left; by apply AP]. apply Permutation_length in P. rewrite P.
    change (Z.to_nat (mmap_num acs_realm_xlat_ctx)) with 28%nat. cbn. lia. }
  destruct (add_region_run acs_realm_xlat_ctx CO R s sr SD LO HU ltac:(pose proof (va_size _ _ HV); lia) ltac:(done) AC)
    as (R1 & R2 & -> & RUN & SD1 & LO1).
  exists (R1 ++ sr :: R2), (with_region acs_realm_xlat_ctx R1 sr R2 s). split; [|split; [|split; [|split]]].
  - unfold realm_add_regions, realm_region. change (replicate 24 region_zero) with (region_zero :: replicate 23 region_zero).
    unfold bind. rewrite add_ctx_rest, E. exact RUN.
  - rewrite <- Permutation_middle, P. apply (Permutation_app_comm [sr]).
  - destruct SD1 as [S1 S2 S3]. by constructor.
  - constructor; [|apply LO1]. intros q [Q|[->|Q]%elem_of_cons]%elem_of_app; [|done|]; (destruct (SV' q) as (V & _); [|done]);
      rewrite <- P; apply elem_of_app; [by left|by right].
  - done.
Qed.

(** ** Enough tables *)

(** A table that meets a region inside of two megabytes is the one that describes them. *)
Lemma one_table r x l b :
  0 < mm_size r → (2097152 | x) → x ≤ mm_base_va r → last_va r < x + 2097152 → l ≤ 3 → (512 * bs l | b) →
  touches r b (b + 512 * bs l) = true → b = x - x mod (512 * bs l).
Proof.
  intros S [q ->] L0 L1 L [j ->] [T1 T2]%touches_spec. destruct (bs_page l L) as [m M]. pose proof (bs_pos l L) as P.
  rewrite M in *. replace (512 * (m * 4096)) with (m * 2097152) in * by lia.
  pose proof (Z.div_mod (q * 2097152) (m * 2097152) ltac:(lia)) as DM. rewrite Z.mul_mod_distr_r in * by lia.
  pose proof (Z.mod_pos_bound q m ltac:(lia)) as MB. rewrite Z.div_mul_cancel_r in DM by lia.
  pose proof (Z.div_mod q m ltac:(lia)) as DQ. unfold last_va in *.
  assert (j = q / m) as ->; [|lia]. assert (0 ≤ q mod m < m) as QM by lia.
  assert (q * 2097152 < j * (m * 2097152) + m * 2097152) by lia. assert (j * (m * 2097152) < q * 2097152 + 2097152) by lia.
  nia.
Qed.

Definition realm_tables : list (Z * Z) :=
  l ← [1; 2; 3]; x ← [realm_base; val_get_shared_region_base_ipa w];
  [(l, (x - x mod 2097152) - (x - x mod 2097152) mod (512 * bs l))].

Lemma realm_tables_in l x : 0 < l ≤ 3 → x = realm_base ∨ x = val_get_shared_region_base_ipa w →
  (l, (x - x mod 2097152) - (x - x mod 2097152) mod (512 * bs l)) ∈ realm_tables.
Proof.
  intros L X. unfold realm_tables. rewrite list_elem_of_bind. exists l. split; [|rewrite !elem_of_cons; lia].
  rewrite list_elem_of_bind. exists x. split; [by left|]. rewrite !elem_of_cons. tauto.
Qed.

Lemma realm_budget :
  placed 30 512 → layout_ok realm_base PLATFORM_REALM_IMAGE_SIZE → shared_ok →
  budget (realm_ctx_of w) realm_list (list_to_set realm_tables) ∧ Z.of_nat (size (list_to_set realm_tables : gset (Z * Z))) < 30.
Proof.
  intros PL LY SO. destruct (realm_cfg_ok PL) as [_ CO]. destruct realm_size_ok as [RB RE]. destruct realm_max as [VM PM].
  pose proof width_bounds as (B1 & B2 & B3). split.
  - destruct (sections_apart_valid (realm_ctx_of w) MT_REALM _ _ CO LY RB) as [SV _]; rewrite ?RE, ?VM, ?PM; try lia.
    destruct (shared_valid _ SO CO ltac:(lia) ltac:(lia)) as (HV & _ & _ & _ & _).
    intros r l b IN L _ D TO%needs_touches. destruct (cfg_level _ CO). apply elem_of_list_to_set.
    apply elem_of_app in IN as [IN| ->%list_elem_of_singleton].
    + destruct (SV r IN) as (V & _ & L0 & L1 & _). rewrite RE in L1. change realm_base with 0x88200000 in L0.
      rewrite (one_table r 0x88200000 l b); [|apply (va_size _ _ V)|by exists 0x441|lia|lia|lia|done|done].
      apply (realm_tables_in l realm_base); [lia|by left].
    + destruct (SO) as ([q Q] & O0 & O1). pose proof (shared_base SO) as SB. set (x := val_get_shared_region_base_ipa w) in *.
      pose proof (Z.mod_pos_bound x 2097152 ltac:(lia)) as MB. pose proof (Z.div_mod x 2097152 ltac:(lia)) as DM.
      rewrite (one_table (plat_shared_region x) (x - x mod 2097152) l b); [|apply (va_size _ _ HV)|by apply sub_mod_divides|cbn; lia| |lia|done|exact TO].
      * apply (realm_tables_in l x); [lia|by right].
      * unfold last_va, plat_shared_region, MAP_REGION_FLAT, MAP_REGION, PLATFORM_SHARED_REGION_SIZE. cbn [mm_base_va mm_size].
        assert (2 ^ (w - 1) = 2 ^ (w - 22) * 2097152) as E by (change 2097152 with (2 ^ 21); rewrite <- Z.pow_add_r by lia; f_equal; lia).
        lia.
  - pose proof (size_list_to_set_le realm_tables) as LE. cbn [length] in LE. change (length realm_tables) with 6%nat in LE. lia.
Qed.

(** ** The machine *)

(** The Realm runs at EL1 with the MMU off, and its physical addresses are supported. *)
Record machine_ok (regs : mmu_reg → Z → Z) : Prop := {
  mc_el : Z.land (Z.shiftr CurrentEl 2) 3 = 1;
  mc_off : Z.land (regs SCTLR 1) 1 = 0;
  mc_pa : ∃ bits, pa_range_bits_arr !! Z.to_nat (Z.land id_aa64mmfr0_el1 ID_AA64MMFR0_EL1_PARANGE_MASK) = Some bits ∧ w ≤ bits
}.

Lemma power_of_two_width : IS_POWER_OF_TWO (2 ^ w) = true.
Proof.
  pose proof width_bounds as (B1 & B2 & B3). unfold IS_POWER_OF_TWO. rewrite u64_id by (unfold is_u64; lia).
  rewrite land_ones_mod by lia. by rewrite Z.mod_same by lia.
Qed.

Lemma min_space_le : xlat_get_min_virt_addr_space_size ≤ 2 ^ 32.
Proof. unfold xlat_get_min_virt_addr_space_size. by destruct is_armv8_4_ttst_present. Qed.

Lemma realm_init_allowed regs : machine_ok regs → init_allowed (realm_ctx_of w) (registered_xlat acs_realm_xlat_ctx regs).
Proof.
  intros [EL OFF (bits & PB & WB)]. destruct realm_max as [VM PM]. pose proof width_bounds as (B1 & B2 & B3). pose proof min_space_le.
  constructor; rewrite ?VM, ?PM.
  - unfold is_mmu_enabled_ctx. change (xlat_regime (realm_ctx_of w)) with EL1_EL0_REGIME. change (EL1_EL0_REGIME =? EL1_EL0_REGIME) with true.
    cbv iota zeta. unfold xlat_arch_current_el. cbv zeta. rewrite EL, bind_assoc, bind_xassert, bind_ret_l, bind_xassert by done.
    unfold read_mmu_reg. rewrite (bind_step _ _ _ (regs SCTLR 1) (registered_xlat acs_realm_xlat_ctx regs)) by done.
    change SCTLR_M_BIT with 1. by rewrite OFF.
  - lia.
  - change MAX_VIRT_ADDR_SPACE_SIZE with (2 ^ 48). lia.
  - replace (2 ^ w - 1 + 1) with (2 ^ w) by lia. rewrite u64_id by (unfold is_u64; lia). apply power_of_two_width.
  - exists (2 ^ bits - 1). assert (2 ^ w ≤ 2 ^ bits) by (apply Z.pow_le_mono_r; lia). split; [|lia].
    unfold xlat_arch_get_max_supported_pa. cbv zeta. rewrite PB, shiftl_one by lia. reflexivity.
Qed.

(** What [val_enable_mmu] leaves in the registers of EL1. *)
Record mmu_on (s : xlat) : Prop := {
  on_sctlr : Z.land (mmu_regs s SCTLR 1) 1 = 1;
  on_ttbr0 : mmu_regs s TTBR0 1 = if is_armv8_2_ttcnp_present then Z.lor base_xlat_table TTBR_CNP_BIT else base_xlat_table;
  on_t0sz : Z.land (mmu_regs s TCR 1) 0x3f = 64 - w;
  on_mair : mmu_regs s MAIR 1 = 0x4404ff
}.

Lemma land_shiftl_low c : Z.land (Z.shiftl c 32) 0x3f = 0.
Proof.
  change 0x3f with (2 ^ 6 - 1). rewrite land_ones_mod, Z.shiftl_mul_pow2 by done. change (2 ^ 32) with (2 ^ 26 * 2 ^ 6).
  rewrite Z.mul_assoc. by apply Z.mod_mul.
Qed.

Lemma tcr_size_run m s : 0 ≤ m < 2 ^ 48 → ∃ c, tcr_physical_addr_size_bits m s = Ok c s.
Proof.
  intros M. unfold tcr_physical_addr_size_bits. eexists. rewrite bind_xassert; [reflexivity|].
  change 0xFFFF000000000000 with (Z.shiftl 0xFFFF 48). apply Z.eqb_eq, Z.bits_inj'. intros n N. rewrite Z.land_spec, Z.bits_0.
  destruct (Z.lt_ge_cases n 48) as [L|L].
  - by rewrite Z.shiftl_spec_low, andb_false_r by lia.
  - destruct (Z.eq_dec m 0) as [->|NZ]; [by rewrite Z.bits_0|]. rewrite Z.bits_above_log2; [done|lia|].
    assert (Z.log2 m < 48) by (apply Z.log2_lt_pow2; lia). lia.
Qed.

Lemma setup_cfg_run base s : ∃ tcr,
  setup_mmu_cfg 0 base (2 ^ w - 1) (2 ^ w - 1) EL1_EL0_REGIME s =
    Ok (0x4404ff, tcr, if is_armv8_2_ttcnp_present then Z.lor base TTBR_CNP_BIT else base) s ∧
  ∃ c, Z.lor tcr (Z.lor (Z.shiftl 1 39) (Z.shiftl 1 40)) = Z.lor (64 - w) (Z.lor (Z.shiftl c 32) (Z.lor (Z.lor (Z.shiftl 1 39) (Z.shiftl 1 40)) 0x803500)).
Proof.
  pose proof width_bounds as (B1 & B2 & B3). pose proof min_space_le. unfold setup_mmu_cfg. cbv zeta.
  replace (2 ^ w - 1 + 1) with (2 ^ w) by lia. rewrite u64_id by (unfold is_u64; lia).
  rewrite bind_xassert by (apply Z.ltb_lt; lia). rewrite bind_xassert by (apply Z.leb_le; lia).
  rewrite bind_xassert by (apply Z.leb_le; exact B3). rewrite bind_xassert by apply power_of_two_width.
  destruct (tcr_size_run (2 ^ w - 1) s ltac:(lia)) as (c & TC). rewrite (bind_step _ _ _ _ _ TC).
  eexists. split; [reflexivity|]. exists c. rewrite Z.log2_pow2 by lia. change TCR_EL1_IPS_SHIFT with 32.
  apply Z.bits_inj'. intros n N. change 0x803500 with (Z.lor TCR_EPD1_BIT (Z.lor TCR_SH_INNER_SHAREABLE (Z.lor TCR_RGN_OUTER_WBA TCR_RGN_INNER_WBA))).
  cbn [truthy]. change (truthy (Z.land 0 XLAT_TABLE_NC)) with false. cbv iota. rewrite !Z.lor_spec. btauto.
Qed.

Lemma reg_same r el v s : mmu_regs (set_reg r el v s) r el = v.
Proof. cbn. by rewrite decide_True. Qed.

Lemma reg_other r r' el v s : r' ≠ r → mmu_regs (set_reg r el v s) r' el = mmu_regs s r' el.
Proof. intros N. cbn. rewrite decide_False; [done|]. by intros [? _]. Qed.

Lemma enable_run s :
  Z.land (Z.shiftr CurrentEl 2) 3 = 1 → run_to (val_enable_mmu (realm_ctx_of w)) s (λ _ s', t_mem s' = t_mem s ∧ mmu_on s').
Proof.
  intros EL. destruct realm_max as [VM PM]. unfold val_enable_mmu. cbv zeta. rewrite Z.shiftr_land. change (Z.shiftr 12 2) with 3.
  rewrite EL, VM, PM. destruct (setup_cfg_run base_xlat_table s) as (tcr & SC & c & TC).
  eapply run_to_step; [exact SC|]. cbv beta iota. rewrite TC. unfold write_sysreg, sysreg_el, read_mmu_reg. change (1 =? 2) with false. cbv iota.
  do 4 (eapply run_to_step; [reflexivity|]). apply run_to_modify. split; [reflexivity|].
  constructor; repeat first [rewrite reg_same | rewrite reg_other by done].
  - rewrite Z.land_lor_distr_l. change (Z.land (Z.lor (Z.shiftl 1 0) (Z.lor (Z.shiftl 1 2) (Z.shiftl 1 12))) 1) with 1.
    change 1 with (Z.ones 1) at 3. rewrite Z.land_ones by done. change (2 ^ 1) with 2.
    apply Z.bits_inj'. intros n N. rewrite Z.lor_spec.
    match goal with |- context [?a mod 2] => pose proof (Z.mod_pos_bound a 2 ltac:(lia)); assert (a mod 2 = 0 ∨ a mod 2 = 1) as [-> | ->] by lia end.
    + by rewrite Z.bits_0, orb_false_r.
    + by rewrite orb_diag.
  - reflexivity.
  - rewrite !Z.land_lor_distr_l, land_shiftl_low, Z.lor_0_l.
    match goal with |- Z.lor _ ?a = _ => change a with 0 end. rewrite Z.lor_0_r. change 63 with (2 ^ 6 - 1).
    rewrite land_ones_mod by done. apply Z.mod_small. lia.
  - reflexivity.
Qed.

(** ** The translations *)

Lemma between_spec lo hi va : between lo hi va = true ↔ lo ≤ va < hi.
Proof. unfold between. rewrite andb_true_iff, Z.leb_le, Z.ltb_lt. done. Qed.

(** The region of a range of addresses decides the translation of its addresses. *)
Lemma smallest_unique l va res r :
  ForallOrdPairs apart l → smallest_region (realm_ctx_of w) l va res → r ∈ l → in_region r va → res = Some (entry_of (realm_ctx_of w) r va).
Proof.
  intros AP SR IN I. destruct res as [e|]; [|by destruct (SR r IN)]. destruct SR as (r' & IN' & I' & _ & ->).
  apply list_elem_of_lookup in IN as [i EI], IN' as [j EJ]. destruct (decide (i = j)) as [->|N]; [by simplify_eq|]. exfalso.
  assert (∀ i j a b, (i < j)%nat → l !! i = Some a → l !! j = Some b → apart a b) as FO.
  { clear -AP. induction AP as [|x l FX AP IH]; intros i j a b L A B; [done|]. destruct j as [|j]; [lia|]. cbn in B.
    destruct i as [|i]; cbn in A.
    - injection A as ->. apply (proj1 (List.Forall_forall _ _) FX), list_elem_of_In. by eapply list_elem_of_lookup_2.
    - apply (IH i j); [lia|done|done]. }
  unfold in_region in *. destruct (Nat.lt_ge_cases i j) as [L|L].
  - destruct (FO i j r r' L EI EJ) as [[A|A] _]; lia.
  - destruct (FO j i r' r ltac:(lia) EJ EI) as [[A|A] _]; lia.
Qed.

Lemma view_spec va res :
  placed 30 512 → layout_ok realm_base PLATFORM_REALM_IMAGE_SIZE → shared_ok →
  smallest_region (realm_ctx_of w) realm_list va res → res = realm_view va.
Proof.
  intros PL LY SO SR. destruct (realm_cfg_ok PL) as [_ CO]. destruct realm_size_ok as [RB RE]. destruct realm_max as [VM PM].
  pose proof width_bounds as (B1 & B2 & B3).
  destruct (sections_apart_valid (realm_ctx_of w) MT_REALM _ _ CO LY RB) as [SV SA]; rewrite ?RE, ?VM, ?PM; try lia.
  destruct (shared_valid _ SO CO ltac:(lia) ltac:(lia)) as (HV & _ & HB & HF & _).
  assert (ForallOrdPairs apart realm_list) as AP.
  { apply ordpairs_app; [done|pairs|]. intros x y X ->%list_elem_of_singleton. destruct (SV x X) as (VX & _ & L0 & L1 & F).
    unfold apart. rewrite F, HF. pose proof (va_size _ _ VX). rewrite RE in L1. unfold last_va in *. lia. }
  destruct LY as [_ LO]. change realm_base with 0x88200000 in *. rewrite RE in LO.
  assert (∀ r, r ∈ realm_list → in_region r va → res = Some (entry_of (realm_ctx_of w) r va)) as HIT
    by (intros r; by apply smallest_unique).
  assert (∀ a b attr, a < b → 0 ≤ a → b ≤ 0x88400000 → in_region (MAP_REGION_FLAT a (u64 (b - a)) attr) va ↔ between a b va = true) as RNG.
  { intros a b attr AB A0 BE. rewrite between_spec. unfold in_region, last_va. cbn. rewrite u64_id by (unfold is_u64; lia). lia. }
  assert (∀ a b attr, entry_of (realm_ctx_of w) (MAP_REGION_FLAT a b attr) va = (va, desc_attrs EL1_EL0_REGIME (u32 attr))) as ENT.
  { intros a b attr. unfold entry_of. cbn. f_equal. lia. }
  unfold realm_view. cbv zeta. unfold realm_list, section_regions in HIT. cbn [app] in HIT.
  destruct (between TEXT_START TEXT_END va) eqn:T1.
  { rewrite (HIT _ ltac:(by left)), ENT; [done|]. apply RNG; lia || done. }
  destruct (between RODATA_START RODATA_END va) eqn:T2.
  { rewrite (HIT _ ltac:(by right; left)), ENT; [done|]. apply RNG; lia || done. }
  destruct (between DATA_START DATA_END va) eqn:T3.
  { rewrite (HIT _ ltac:(by right; right; left)), ENT; [done|]. apply RNG; lia || done. }
  destruct (between BSS_START BSS_END va) eqn:T4.
  { rewrite (HIT _ ltac:(by right; right; right; left)), ENT; [done|]. apply RNG; lia || done. }
  destruct (between _ (_ + PLATFORM_SHARED_REGION_SIZE) va) eqn:T5.
  { rewrite (HIT _ ltac:(by right; right; right; right; left)); [unfold plat_shared_region; by rewrite ENT|].
    apply between_spec in T5. unfold in_region, last_va. cbn. change PLATFORM_SHARED_REGION_SIZE with 0x100000 in *. lia. }
  destruct res as [e|]; [|done]. destruct SR as (r & IN & I & _). exfalso.
  unfold realm_list, section_regions in IN. cbn [app] in IN. rewrite !elem_of_cons, elem_of_nil in IN.
  destruct IN as [-> | [-> | [-> | [-> | [-> | []]]]]]; try (apply RNG in I; lia || congruence).
  assert (between (val_get_shared_region_base_ipa w) (val_get_shared_region_base_ipa w + PLATFORM_SHARED_REGION_SIZE) va = true); [|congruence].
  apply between_spec. unfold in_region, last_va in I. cbn in I. change PLATFORM_SHARED_REGION_SIZE with 0x100000 in *. lia.
Qed.

(** The start of a Realm's first CPU maps the image and the shared region, each to itself
    with its attributes, and nothing else, and enables the MMU. *)
Theorem realm_boot_maps regs :
  placed 30 512 → layout_ok realm_base PLATFORM_REALM_IMAGE_SIZE → shared_ok → machine_ok regs →
  run_to realm_mmu_start (registered_xlat acs_realm_xlat_ctx regs)
    (λ _ s, mmu_on s ∧ ∀ va, 0 ≤ va < 2 ^ w → lookup_va (realm_ctx_of w) s va = realm_view va).
Proof.
  intros PL LY SO MC. destruct (realm_cfg_ok PL) as [_ CO]. destruct realm_max as [VM PM].
  destruct (realm_add_run regs PL LY SO) as (R & s & RUN & P & SD & LO & ST).
  destruct (same_tables_ready (realm_ctx_of w) CO regs s ST (realm_init_allowed regs MC)) as (IA & WM & LT).
  destruct (realm_budget PL LY SO) as [BU SZ].
  unfold realm_mmu_start. eapply run_to_bind; [eapply run_to_step; [exact RUN|]; apply (init_tables_run _ CO R s SD LO)|].
  - intros r IN. rewrite P in IN. unfold realm_list, section_regions in IN. cbn [app] in IN. rewrite !elem_of_cons, elem_of_nil in IN.
    destruct IN as [-> | [-> | [-> | [-> | [-> | []]]]]]; by right; left.
  - exact WM.
  - exact LT.
  - exact IA.
  - cbn beta. intros _ s1 (I & SD1 & FL). eapply run_to_mono; [apply (enable_run s1); apply MC|].
    cbn beta. intros _ s2 [TM ON]. split; [done|]. intros va V.
    assert (budget (realm_ctx_of w) R (list_to_set realm_tables)) as BR by (intros r b k IN; apply BU; by rewrite <- P).
    destruct (filled_holds (realm_ctx_of w) CO R s1 _ FL BR SZ) as [G HD].
    apply view_spec; [done|done|done|]. destruct (cfg_va _ CO).
    assert (lookup_va (realm_ctx_of w) s2 va = lookup_va (realm_ctx_of w) s1 va) as -> by (unfold lookup_va, root_walk; by rewrite TM).
    rewrite (holds_lookup (realm_ctx_of w) R G s1 va HD); [by apply region_at_spec| |unfold space; lia].
    intros r IN. apply valid_region_ok; [done|by apply (lo_valid _ _ LO)|]. rewrite P in IN.
    unfold realm_list, section_regions in IN. cbn [app] in IN. rewrite !elem_of_cons, elem_of_nil in IN.
    destruct IN as [-> | [-> | [-> | [-> | [-> | []]]]]]; by right; left.
Qed.
End Boot.

(** * Images at the addresses of the platform *)

Definition image_at (base : Z) : ImageLayout := {|
  TEXT_START := base; TEXT_END := base + 0x10000;
  RODATA_START := base + 0x10000; RODATA_END := base + 0x18000;
  DATA_START := base + 0x18000; DATA_END := base + 0x20000;
  BSS_START := base + 0x20000; BSS_END := base + 0x80000;
  xlat_tables := base + 0x40000; base_xlat_table := base + 0x30000
|}.

Lemma image_at_ok base : (4096 | base) → 0 ≤ base → base + 0x200000 ≤ 2 ^ 48 →
  @layout_ok (image_at base) base 0x200000 ∧ @placed (image_at base) 40 512 ∧ @placed (image_at base) 30 512 ∧ @placed (image_at base) 40 2.
Proof.
  intros [q ->] B L. split; [|unfold placed; cbn].
  - constructor; cbn; [|lia]. repeat split; [exists q|exists (q + 16)|exists (q + 16)|exists (q + 24)|exists (q + 24)|exists (q + 32)|exists (q + 32)|exists (q + 128)]; lia.
  - assert ((4096 | q * 4096 + 262144)) by (exists (q + 64); lia). repeat split; try done; lia.
Qed.

Lemma host_map_overruns_witness :
  @val_host_add_mmap (image_at 0x88000000) (@registered_xlat (@acs_host_xlat_ctx (image_at 0x88000000)) demo_regs) = Fault OutOfBounds.
Proof.
  destruct (image_at_ok 0x88000000) as (LY & _ & _ & PL); [by exists 0x88000|done|done|].
  exact (@host_map_overruns (image_at 0x88000000) demo_regs PL LY).
Defined.

Definition el1_arch : XlatArch := {| CurrentEl := 4; id_aa64mmfr0_el1 := 5; id_aa64mmfr2_el1 := 0 |}.
Definition quiet_rmm : RMM unit := {|
  smc := λ w m p, (w, m, p);
  RMM_V_1_1 := true;
  val_get_shared_region_base_pa := 0x88400000;
  VAL_NS_SHARED_REGION_IPA_OFFSET := 0x600000
|}.

Lemma realm_boot_maps_witness : ∃ s,
  @realm_mmu_start (image_at 0x88200000) el1_arch unit quiet_rmm 40
    (@registered_xlat (@acs_realm_xlat_ctx (image_at 0x88200000)) demo_regs) = Ok tt s ∧
  mmu_regs s TTBR0 1 = 0x88230000 ∧
  lookup_va (@realm_ctx_of (image_at 0x88200000) 40) s 0x88200010 =
    Some (0x88200010, desc_attrs EL1_EL0_REGIME (Z.lor MT_CODE MT_REALM)).
Proof.
  destruct (image_at_ok 0x88200000) as (LY & _ & PL & _); [by exists 0x88200|done|done|].
  assert (run_to (@realm_mmu_start (image_at 0x88200000) el1_arch unit quiet_rmm 40)
    (@registered_xlat (@acs_realm_xlat_ctx (image_at 0x88200000)) demo_regs) (λ _ s, @mmu_on (image_at 0x88200000) el1_arch 40 s ∧
      ∀ va, 0 ≤ va < 2 ^ 40 → lookup_va (@realm_ctx_of (image_at 0x88200000) 40) s va = @realm_view (image_at 0x88200000) unit quiet_rmm 40 va)) as RB.
  { apply (@realm_boot_maps (image_at 0x88200000) el1_arch unit quiet_rmm 40 ltac:(lia) demo_regs PL LY).
    - split; [by exists 6|split; done].
    - constructor; [reflexivity|reflexivity|]. exists 48. split; [reflexivity|lia]. }
  destruct (proj1 (run_to_Ok _ _ _) RB) as ([] & s & RUN & ON & LK). exists s.
  split; [exact RUN|]. clear RUN RB. split; [exact (on_ttbr0 _ _ ON)|]. rewrite (LK 0x88200010) by (split; reflexivity || discriminate). reflexivity.
Defined.
