(* ===== verification/XlatSecure.v ===== *)
(** The MMU of the secure image: its ten regions are taken, its ten tables are enough for
    them, its MMU translates the regions and nothing else, and is enabled at EL2. *)
From Stdlib Require Import Sorted.
From stdpp Require Import sorting.
From S2P Require Import Prelude Defs Alloc Granule Host Rmi RealmMap RealmLife.
From S2P Require Import Machine Xlat XlatFacts XlatList XlatInit XlatMaps XlatBoot.

Definition PLATFORM_SECURE_IMAGE_BASE : Z := 0x6000000.
Definition PLATFORM_SECURE_IMAGE_SIZE : Z := 0x100000.

Section SecureBoot.
Context `{ImageLayout} `{XlatArch}.

Lemma secure_cfg_ok : placed 10 2 → cfg_ok acs_secure_xlat_ctx.
Proof.
  intros PL. eapply (cfg_values _ 0 10 2 (2 ^ 40 - 1) (2 ^ 40 - 1)); try reflexivity; try done. by right; left.
Qed.

Definition secure_devices : list mmap_region_t := take 5 secure_regions.
Definition secure_pool : mmap_region_t :=
  MAP_REGION_FLAT PLATFORM_MEMORY_POOL_BASE PLATFORM_MEMORY_POOL_SIZE (Z.lor MT_RW_DATA MT_NS).
Definition secure_list : list mmap_region_t := secure_devices ++ section_regions MT_SECURE ++ [secure_pool].

Lemma secure_split : secure_regions = secure_list ++ region_zero :: [region_zero].
Proof. reflexivity. Qed.

(** The regions whose place does not depend on the linker. *)
Lemma secure_fixed_valid r :
  placed 10 2 → r ∈ secure_devices ++ [secure_pool] → valid acs_secure_xlat_ctx r ∧ mm_granularity r ≠ 0 ∧
    (last_va r < PLATFORM_SECURE_IMAGE_BASE ∨ PLATFORM_SECURE_IMAGE_BASE + PLATFORM_SECURE_IMAGE_SIZE ≤ mm_base_va r) ∧
    mm_base_pa r = mm_base_va r.
Proof.
  intros PL IN.
  assert (mm_granularity r ≠ 0 ∧
    (last_va r < PLATFORM_SECURE_IMAGE_BASE ∨ PLATFORM_SECURE_IMAGE_BASE + PLATFORM_SECURE_IMAGE_SIZE ≤ mm_base_va r) ∧
    mm_base_pa r = mm_base_va r ∧ region_u64 r ∧ mm_size r ≠ 0 ∧
    (IS_PAGE_ALIGNED (mm_base_pa r) && IS_PAGE_ALIGNED (mm_base_va r) && IS_PAGE_ALIGNED (mm_size r)
   && ((mm_granularity r =? XLAT_BLOCK_SIZE 1) || (mm_granularity r =? XLAT_BLOCK_SIZE 2) || (mm_granularity r =? XLAT_BLOCK_SIZE 3))
   && (mm_base_pa r <=? end_pa_of r) && (mm_base_va r <=? end_va_of r)
   && (end_va_of r <=? 2 ^ 40 - 1) && (end_pa_of r <=? 2 ^ 40 - 1) = true)) as (G & LA & F & U & NZ & T).
  { cbn [secure_devices secure_regions section_regions take app] in IN. rewrite !elem_of_cons, elem_of_nil in IN.
    unfold region_u64, is_u64, last_va.
    repeat destruct IN as [-> | IN]; [..|done]; vm_compute; intuition congruence. }
  split; [|done]. apply (range_tests _ (secure_cfg_ok PL)); [done|done|exact T].
Qed.

Lemma secure_fixed_apart : ForallOrdPairs XlatList.apart (secure_devices ++ [secure_pool]).
Proof. cbn [secure_devices secure_regions section_regions take app]. pairs. all: vm_compute; intuition congruence. Qed.

Lemma secure_list_ok :
  placed 10 2 → layout_ok PLATFORM_SECURE_IMAGE_BASE PLATFORM_SECURE_IMAGE_SIZE →
  (∀ r, r ∈ secure_list → valid acs_secure_xlat_ctx r ∧ mm_granularity r ≠ 0) ∧ ForallOrdPairs XlatList.apart secure_list.
Proof.
  intros PL LY.
  assert (va_max_address acs_secure_xlat_ctx = 2 ^ 40 - 1 ∧ pa_max_address acs_secure_xlat_ctx = 2 ^ 40 - 1) as [VM PM] by done.
  destruct (sections_apart_valid acs_secure_xlat_ctx MT_SECURE _ _ (secure_cfg_ok PL) LY) as [SV SA];
    rewrite ?VM, ?PM; unfold PLATFORM_SECURE_IMAGE_BASE, PLATFORM_SECURE_IMAGE_SIZE in *; try lia.
  assert (∀ x y, x ∈ secure_devices ++ [secure_pool] → y ∈ section_regions MT_SECURE → XlatList.apart x y) as DS.
  { intros x y X Y. destruct (secure_fixed_valid x PL X) as (VX & _ & L & F), (SV y Y) as (VY & _ & B & T & F').
    unfold XlatList.apart. rewrite F, F'. pose proof (va_size _ _ VX). pose proof (va_size _ _ VY).
    unfold last_va, PLATFORM_SECURE_IMAGE_BASE, PLATFORM_SECURE_IMAGE_SIZE in *. lia. }
  destruct (ordpairs_app_inv _ _ secure_fixed_apart) as (A1 & A2 & A12). unfold secure_list. split.
  - intros r IN. rewrite !elem_of_app in IN.
    assert (r ∈ secure_devices ++ [secure_pool] ∨ r ∈ section_regions MT_SECURE) as [I|I] by (rewrite elem_of_app; tauto).
    + by destruct (secure_fixed_valid r PL I) as (V & G & _).
    + by destruct (SV r I) as (V & G & _).
  - apply ordpairs_app; [done|apply ordpairs_app; [done|done|]|].
    + intros x y X Y. apply apart_sym, DS; [|done]. apply elem_of_app. by right.
    + intros x y X [Y|Y]%elem_of_app; [apply DS; [apply elem_of_app; by left|done]|by apply A12].
Qed.

Lemma secure_add_run regs :
  placed 10 2 → layout_ok PLATFORM_SECURE_IMAGE_BASE PLATFORM_SECURE_IMAGE_SIZE →
  ∃ R s, val_secure_add_mmap (registered_xlat acs_secure_xlat_ctx regs) = Ok tt s ∧ R ≡ₚ secure_list ∧
    stored acs_secure_xlat_ctx R s ∧ list_ok acs_secure_xlat_ctx R ∧ same_tables (registered_xlat acs_secure_xlat_ctx regs) s.
Proof.
  intros PL LY. pose proof (secure_cfg_ok PL) as CO. destruct (secure_list_ok PL LY) as [V A].
  destruct (add_ctx_accepts acs_secure_xlat_ctx CO secure_list [] (registered_xlat acs_secure_xlat_ctx regs))
    as (R & s & E & P & SD & LO & ST);
    [by apply registered_stored|apply list_ok_nil|done|done|by intros q r ?%elem_of_nil|done|by vm_compute; lia|].
  exists R, s. split; [|by split]. unfold val_secure_add_mmap. by rewrite secure_split, add_ctx_rest.
Qed.

(** The tables the regions cannot do without; the pool is mapped with blocks of 2 MB. *)
Definition secure_needed : list (Z * Z) :=
  [(1, 0); (2, 0); (2, 0x80000000);
   (3, 0x6000000); (3, 0x1c000000); (3, 0x2a400000); (3, 0x2c000000); (3, 0x2f000000)].

(** A region inside of the two megabytes from [x] on. *)
Lemma inside_needed r x l b :
  0 < mm_size r → x ∈ [0x6000000; 0x1c000000; 0x2a400000; 0x2c000000; 0x2f000000] → x ≤ mm_base_va r → last_va r < x + 2097152 →
  0 < l ≤ 3 → (512 * bs l | b) → needs r l b = true → (l, b) ∈ secure_needed.
Proof.
  intros S X L0 L1 L D TO%needs_touches.
  assert ((2097152 | x)) as DX by (repeat (apply elem_of_cons in X as [-> | X]; [by apply Z.mod_divide|]); by apply elem_of_nil in X).
  rewrite (one_table r x l b S DX L0 L1 (proj2 L) D TO). clear - X L. assert (l = 1 ∨ l = 2 ∨ l = 3) as LV by lia.
  repeat (apply elem_of_cons in X as [-> | X]; [destruct LV as [-> | [-> | ->]]; apply (bool_decide_unpack _); vm_compute; done|]). by apply elem_of_nil in X.
Qed.

Lemma pool_needed l b : 0 < l ≤ 3 → 0 ≤ b → (512 * bs l | b) → needs secure_pool l b = true → (l, b) ∈ secure_needed.
Proof.
  intros L B [q ->] N. pose proof (needs_touches _ _ _ N) as [T1 T2]%touches_spec.
  change (mm_base_va secure_pool) with 0x88400000 in T1. change (last_va secure_pool) with 0x8b5fffff in T2.
  assert (l = 1 ∨ l = 2 ∨ l = 3) as [-> | [-> | ->]] by lia.
  - change (512 * bs 1) with (2 ^ 39) in *. assert (q = 0) as -> by lia. by left.
  - change (512 * bs 2) with 0x40000000 in *. assert (q = 2) as -> by lia. do 2 right. by left.
  - change (512 * bs 3) with 0x200000 in *. exfalso. unfold needs in N. apply andb_true_iff in N as [_ N%negb_true_iff].
    revert N. unfold block_fits. change (bs (3 - 1)) with 0x200000. change (mm_base_va secure_pool) with 0x88400000.
    change (mm_base_pa secure_pool) with 0x88400000. change (last_va secure_pool) with 0x8b5fffff.
    rewrite (proj2 (Z.leb_le 0x88400000 _)) by lia. rewrite (proj2 (Z.leb_le _ 0x8b5fffff)) by lia.
    replace (0x88400000 + q * 0x200000 - 0x88400000) with (q * 0x200000) by lia. rewrite Z.mod_mul by done. done.
Qed.

Lemma secure_budget :
  placed 10 2 → layout_ok PLATFORM_SECURE_IMAGE_BASE PLATFORM_SECURE_IMAGE_SIZE →
  budget acs_secure_xlat_ctx secure_list (list_to_set secure_needed).
Proof.
  intros PL LY r l b IN L B D N. apply elem_of_list_to_set. change (base_level acs_secure_xlat_ctx) with 0 in L.
  unfold secure_list in IN. rewrite !elem_of_app in IN. destruct IN as [IN|[IN| ->%list_elem_of_singleton]].
  - cbn [secure_devices secure_regions section_regions take app] in IN. rewrite !elem_of_cons, elem_of_nil in IN.
    repeat destruct IN as [-> | IN]; [..|done];
      [eapply (inside_needed _ 0x1c000000)|eapply (inside_needed _ 0x2a400000)|eapply (inside_needed _ 0x2c000000)
      |eapply (inside_needed _ 0x2f000000)..]; try exact N; try done; try (vm_compute; congruence); rewrite !elem_of_cons; tauto.
  - assert (va_max_address acs_secure_xlat_ctx = 2 ^ 40 - 1 ∧ pa_max_address acs_secure_xlat_ctx = 2 ^ 40 - 1) as [VM PM] by done.
    destruct (sections_apart_valid acs_secure_xlat_ctx MT_SECURE _ _ (secure_cfg_ok PL) LY) as [SV _];
      rewrite ?VM, ?PM; unfold PLATFORM_SECURE_IMAGE_BASE, PLATFORM_SECURE_IMAGE_SIZE in *; try lia.
    destruct (SV r IN) as (V & _ & L0 & L1 & _). apply (inside_needed r 0x6000000 l b); [apply (va_size _ _ V)|by left|lia|lia|lia|done|done].
  - by apply pool_needed; [lia|..].
Qed.

(** The image runs at EL2 with the MMU off, on a core with at least 40 bits of physical
    addresses. *)
Record secure_machine_ok (regs : mmu_reg → Z → Z) : Prop := {
  sm_el : Z.land (Z.shiftr CurrentEl 2) 3 = 2;
  sm_off : Z.land (regs SCTLR 2) 1 = 0;
  sm_pa : ∃ bits, pa_range_bits_arr !! Z.to_nat (Z.land id_aa64mmfr0_el1 ID_AA64MMFR0_EL1_PARANGE_MASK) = Some bits ∧ 40 ≤ bits
}.

Lemma secure_init_allowed regs : secure_machine_ok regs → init_allowed acs_secure_xlat_ctx (registered_xlat acs_secure_xlat_ctx regs).
Proof.
  intros [EL OFF (bits & PB & WB)]. pose proof min_space_le.
  assert (va_max_address acs_secure_xlat_ctx = 2 ^ 40 - 1 ∧ pa_max_address acs_secure_xlat_ctx = 2 ^ 40 - 1) as [VM PM] by done.
  constructor; rewrite ?VM, ?PM.
  - unfold is_mmu_enabled_ctx. change (xlat_regime acs_secure_xlat_ctx) with EL2_REGIME. change (EL2_REGIME =? EL1_EL0_REGIME) with false.
    change (EL2_REGIME =? EL2_REGIME) with true.
    cbv iota zeta. unfold xlat_arch_current_el. cbv zeta. rewrite EL, bind_assoc, bind_xassert, bind_ret_l, bind_xassert by done.
    unfold read_mmu_reg. rewrite (bind_step _ _ _ (regs SCTLR 2) (registered_xlat acs_secure_xlat_ctx regs)) by done.
    change SCTLR_M_BIT with 1. by rewrite OFF.
  - lia.
  - change MAX_VIRT_ADDR_SPACE_SIZE with (2 ^ 48). lia.
  - reflexivity.
  - exists (2 ^ bits - 1). assert (2 ^ 40 ≤ 2 ^ bits) by (apply Z.pow_le_mono_r; lia). split; [|lia].
    unfold xlat_arch_get_max_supported_pa. cbv zeta. rewrite PB, shiftl_one by lia. reflexivity.
Qed.

(** Each address is translated as the region that holds it, and no address outside the
    regions; the context is marked. *)
Definition secure_mapped (s : xlat) : Prop :=
  initialized s = true ∧ ∀ va, 0 ≤ va < 2 ^ 40 → smallest_region acs_secure_xlat_ctx secure_list va (lookup_va acs_secure_xlat_ctx s va).

Lemma secure_attrs r : r ∈ secure_list → attr_ok (u32 (mm_attr r)).
Proof.
  intros IN. cbn [secure_list secure_devices secure_regions section_regions take app] in IN.
  rewrite !elem_of_cons, elem_of_nil in IN. unfold attr_ok.
  repeat destruct IN as [-> | IN]; [..|done]; vm_compute; tauto.
Qed.

Lemma secure_tables_run regs :
  placed 10 2 → layout_ok PLATFORM_SECURE_IMAGE_BASE PLATFORM_SECURE_IMAGE_SIZE → secure_machine_ok regs →
  run_to (val_secure_add_mmap ;; val_setup_mmu acs_secure_xlat_ctx) (registered_xlat acs_secure_xlat_ctx regs) (λ _ s, secure_mapped s).
Proof.
  intros PL LY MC. pose proof (secure_cfg_ok PL) as CO. destruct (secure_add_run regs PL LY) as (R & s & RUN & P & SD & LO & ST).
  destruct (same_tables_ready acs_secure_xlat_ctx CO regs s ST (secure_init_allowed regs MC)) as (IA & WM & LT).
  assert (budget acs_secure_xlat_ctx R (list_to_set secure_needed)) as BU.
  { intros r l b IN. apply (secure_budget PL LY). by rewrite <- P. }
  eapply run_to_step; [exact RUN|]. eapply run_to_mono; [apply (init_maps_list _ CO R (list_to_set secure_needed) s SD LO)|].
  - intros r IN. apply secure_attrs. by rewrite <- P.
  - exact WM.
  - exact LT.
  - exact IA.
  - exact BU.
  - cbn beta. intros _ s1 (I & _ & LK). split; [done|]. intros va V. change (va_max_address acs_secure_xlat_ctx) with (2 ^ 40 - 1) in LK.
    destruct (LK va ltac:(lia)) as [_ E]. rewrite E; [by apply region_at_spec|].
    pose proof (size_list_to_set_le secure_needed) as LE. change (length secure_needed) with 8%nat in LE.
    change (tables_num acs_secure_xlat_ctx) with 10. lia.
Qed.

Definition secure_ttbr : Z := if is_armv8_2_ttcnp_present then Z.lor base_xlat_table TTBR_CNP_BIT else base_xlat_table.
Definition secure_mmu_on (s : xlat) : Prop := Z.land (mmu_regs s SCTLR 2) 1 = 1 ∧ mmu_regs s TTBR0 2 = secure_ttbr.

(** The MMU walks the tables that were written. *)
Lemma secure_enable_run s :
  Z.land (Z.shiftr CurrentEl 2) 3 = 2 → secure_mapped s →
  run_to (val_enable_mmu acs_secure_xlat_ctx) s (λ _ s', secure_mmu_on s' ∧ secure_mapped s').
Proof.
  intros EL SM. unfold val_enable_mmu. cbv zeta. rewrite Z.shiftr_land. change (Z.shiftr 12 2) with 3. rewrite EL.
  change (base_table acs_secure_xlat_ctx) with base_xlat_table. change (va_max_address acs_secure_xlat_ctx) with (2 ^ 40 - 1).
  change (pa_max_address acs_secure_xlat_ctx) with (2 ^ 40 - 1). change (xlat_regime acs_secure_xlat_ctx) with EL2_REGIME.
  pose proof min_space_le. destruct (tcr_size_run (2 ^ 40 - 1) s ltac:(lia)) as (c & TC).
  assert (∃ tcr, setup_mmu_cfg 0 base_xlat_table (2 ^ 40 - 1) (2 ^ 40 - 1) EL2_REGIME s = Ok (0x4404ff, tcr, secure_ttbr) s) as (tcr & SC).
  { eexists. unfold setup_mmu_cfg. cbv zeta. change (u64 (2 ^ 40 - 1 + 1)) with (2 ^ 40).
    rewrite bind_xassert by (apply Z.ltb_lt; lia). rewrite bind_xassert by (apply Z.leb_le; lia).
    rewrite bind_xassert by (apply Z.leb_le; vm_compute; discriminate). rewrite bind_xassert by reflexivity.
    rewrite (bind_step _ _ _ _ _ TC). reflexivity. }
  eapply run_to_step; [exact SC|]. cbv beta iota. unfold write_sysreg, sysreg_el, read_mmu_reg. change (2 =? 2) with true. cbv iota.
  do 4 (eapply run_to_step; [reflexivity|]). apply run_to_modify. split; [|exact SM].
  split; repeat first [rewrite reg_same | rewrite reg_other by done]; [|reflexivity].
  apply Z.bits_inj'. intros n N. rewrite Z.land_spec, Z.lor_spec. destruct (Z.eq_dec n 0) as [->|NZ].
  - change (Z.testbit 1 0) with true. by rewrite andb_true_r.
  - assert (Z.testbit 1 n = false) as -> by (change 1 with (2 ^ 0); apply Z.pow2_bits_false; lia). apply andb_false_r.
Qed.
End SecureBoot.
