(* ===== verification/Start.v ===== *)
(** The start of the three images and the calls between the worlds: the entry points
    val_host_main, val_realm_main and val_secure_main with the dispatchers of the Realm
    and the secure image, and the service by which host and secure partition hand control
    to each other (pal_secure_service.c).  Each image is the composition of components of
    other files; its state is the product of theirs. *)
From S2P Require Import Prelude Defs Alloc Granule Host Libc Rmi RealmMap RealmLife Realm Shared Dispatch.
From S2P Require Import Pcie PcieEnum Machine Gic Irq Xlat XlatMaps.
Import Libc.Mem.

(** * Calls through the SPM (pal_smc.c, pal_secure_service.c) *)

Definition FFA_MSG_WAIT_32 : Z := 0x8400006B.
Definition FFA_MSG_SEND_DIRECT_REQ_32 : Z := 0x8400006F.
Definition FFA_MSG_SEND_DIRECT_RESP_32 : Z := 0x84000070.
Definition FFA_INTERRUPT : Z := 0x84000062.
Definition FFA_RUN : Z := 0x8400006D.
Definition FFA_ERROR_32 : Z := 0x84000060.
Definition SENDER_ID (x : Z) : Z := Z.land (Z.shiftr x 16) 0xffff.
Definition RECEIVER_ID (x : Z) : Z := Z.land x 0xffff.
Definition NS_HYP_ID : Z := 0x0.
Definition SP_ID : Z := 0x8001.

Record pal_smc_param_t : Type := mk_params {
  s_x0 : Z; s_x1 : Z; s_x2 : Z; s_x3 : Z; s_x4 : Z; s_x5 : Z; s_x6 : Z; s_x7 : Z
}.

(** The SPM and the other world behind an SMC: both may change the memory that is shared,
    and the call returns when control comes back. *)
Class Spm (S : Type) : Type := { spm : S → mem → pal_smc_param_t → S * mem * pal_smc_param_t }.

(** [ff_calls] is not in the program: it records the calls made. *)
Record ff (S : Type) : Type := mk_ff {
  ff_spm : S;
  ff_mem : mem;
  target_id : Z;
  my_id : Z;
  ff_calls : list pal_smc_param_t
}.
Arguments mk_ff {S}. Arguments ff_spm {S}. Arguments ff_mem {S}. Arguments target_id {S}. Arguments my_id {S}.
Arguments ff_calls {S}.

Section Service.
Context {S : Type} `{Spm S}.

Definition pal_smc_call (x0 x1 x2 x3 x4 x5 x6 x7 : Z) : M (ff S) pal_smc_param_t := λ s,
  let args := mk_params x0 x1 x2 x3 x4 x5 x6 x7 in
  let '(p, m, r) := spm (ff_spm s) (ff_mem s) args in
  Ok r (mk_ff p m (target_id s) (my_id s) (ff_calls s ++ [args])).

Definition pal_ffa_msg_wait : M (ff S) Z :=
  let* args := pal_smc_call FFA_MSG_WAIT_32 0 0 0 0 0 0 0 in
  if negb (s_x0 args =? FFA_MSG_SEND_DIRECT_REQ_32) then ret PAL_ERROR
  else
    modify (λ s, mk_ff (ff_spm s) (ff_mem s) (u16 (SENDER_ID (s_x1 args))) (u16 (RECEIVER_ID (s_x1 args))) (ff_calls s)) ;;
    ret PAL_SUCCESS.

Definition pal_ffa_msg_send_direct_resp_32 : M (ff S) Z :=
  let* ids := gets (λ s, Z.lor (Z.shiftl (my_id s) 16) (target_id s)) in
  let* args := pal_smc_call FFA_MSG_SEND_DIRECT_RESP_32 ids 0 0 0 0 0 0 in
  ret (if negb (s_x0 args =? FFA_MSG_SEND_DIRECT_REQ_32) && negb (s_x0 args =? FFA_INTERRUPT)
       then PAL_ERROR else PAL_SUCCESS).

Definition pal_ffa_run : M (ff S) Z :=
  let* args := pal_smc_call FFA_RUN (Z.shiftl NS_HYP_ID 16) 0 0 0 0 0 0 in
  ret (if s_x0 args =? FFA_ERROR_32 then PAL_ERROR else PAL_SUCCESS).

Definition pal_ffa_msg_send_direct_req_32 : M (ff S) Z :=
  let* args := pal_smc_call FFA_MSG_SEND_DIRECT_REQ_32 (Z.lor (Z.shiftl NS_HYP_ID 16) SP_ID) 0 0 0 0 0 0 in
  ret (if negb (s_x0 args =? FFA_MSG_SEND_DIRECT_RESP_32) then PAL_ERROR else PAL_SUCCESS).

Definition pal_register_acs_service : M (ff S) Z := ret PAL_SUCCESS.
Definition pal_wait_for_sync_call : M (ff S) Z := pal_ffa_msg_wait.
Definition pal_sync_resp_call_to_host : M (ff S) Z := pal_ffa_msg_send_direct_resp_32.
Definition pal_sync_resp_call_to_preempted_host : M (ff S) Z := pal_ffa_run.
Definition pal_sync_req_call_to_secure : M (ff S) Z := pal_ffa_msg_send_direct_req_32.
End Service.

(** The flag that tells the worlds apart, a global of every image (val_framework.c). *)
Definition val_set_security_state_flag {W : Type} (state : Z) : M (irq W) unit :=
  modify (λ s, mk_irq (gic_of s) (irq_handler s) (spi_lock s) state (irq_callback s) (exception_callback s)).

(** * The secure image (val_secure_framework.c) *)

(** [si_ran] is not in the program: it records the tests begun. *)
Record secure_image (S W : Type) : Type := mk_secure {
  si_ff : ff S;
  si_xlat : xlat;
  si_irq : irq W;
  si_ran : list Z
}.
Arguments mk_secure {S W}. Arguments si_ff {S W}. Arguments si_xlat {S W}. Arguments si_irq {S W}. Arguments si_ran {S W}.

(** An entry of the database: the address of the name and the function of the secure side. *)
Record secure_test (S W : Type) : Type := mk_secure_test {
  st_name_at : Z;
  secure_fn : option (M (secure_image S W) unit)
}.
Arguments mk_secure_test {S W}. Arguments st_name_at {S W}. Arguments secure_fn {S W}.

Section Secure.
Context {S W : Type} `{Spm S} `{Machine W} `{Handlers W} `{ImageLayout} `{XlatArch}.
(** [val_get_shared_region_base] and the database. *)
Variable base : Z.
Variable test_list : list (secure_test S W).

Definition on_ff {A : Type} (m : M (ff S) A) : M (secure_image S W) A :=
  zoom si_ff (λ f s, mk_secure f (si_xlat s) (si_irq s) (si_ran s)) m.
Definition on_ff_mem {A : Type} (m : M mem A) : M (secure_image S W) A :=
  on_ff (zoom ff_mem (λ b f, mk_ff (ff_spm f) b (target_id f) (my_id f) (ff_calls f)) m).
Definition on_si_xlat {A : Type} (m : M xlat A) : M (secure_image S W) A :=
  zoom si_xlat (λ x s, mk_secure (si_ff s) x (si_irq s) (si_ran s)) m.
Definition on_si_irq {A : Type} (m : M (irq W) A) : M (secure_image S W) A :=
  zoom si_irq (λ i s, mk_secure (si_ff s) (si_xlat s) i (si_ran s)) m.

Definition val_secure_return_to_host : M (secure_image S W) Z :=
  let* st := on_ff pal_sync_resp_call_to_host in
  if truthy st then fail Panic else ret VAL_SUCCESS.
Definition val_secure_return_to_preempted_host : M (secure_image S W) Z :=
  let* st := on_ff pal_sync_resp_call_to_preempted_host in
  if truthy st then fail Panic else ret VAL_SUCCESS.

Definition secure_entry (index : Z) : M (secure_image S W) (secure_test S W) := λ s,
  match test_list !! Z.to_nat index with
  | Some e => Ok e s
  | None => Fault OutOfBounds
  end.

(** The body of [while (1)]. *)
Definition secure_turn : M (secure_image S W) unit :=
  let* index := on_ff_mem (val_secure_find_current_test_index base (map st_name_at test_list)) in
  let* e := secure_entry index in
  match secure_fn e with
  | None => fail Panic
  | Some fn_ptr =>
      modify (λ s, mk_secure (si_ff s) (si_xlat s) (si_irq s) (si_ran s ++ [index])) ;;
      fn_ptr ;;
      val_secure_return_to_host ;;
      ret tt
  end.

(** The loop has no end: what it has done after a number of turns. *)
Fixpoint secure_turns (n : nat) : M (secure_image S W) unit :=
  match n with
  | O => ret tt
  | Datatypes.S n => secure_turn ;; secure_turns n
  end.

Definition val_secure_test_dispatch (turns : nat) : M (secure_image S W) unit :=
  let* st := on_ff pal_register_acs_service in
  if truthy st then fail Panic
  else
    let* st := on_ff pal_wait_for_sync_call in
    if truthy st then fail Panic else secure_turns turns.

Definition HCR_TGE : Z := Z.shiftl 1 27.

Definition val_secure_main (fuel turns : nat) (primary_cpu_boot : bool) : M (secure_image S W) unit :=
  on_si_irq (val_set_security_state_flag SEC_STATE_SECURE) ;;
  (if primary_cpu_boot then
     on_si_xlat val_secure_add_mmap ;;
     on_si_xlat (val_setup_mmu acs_secure_xlat_ctx) ;;
     on_si_irq (val_irq_setup fuel) ;;
     on_si_irq (on_gic (hw (msr HCR_EL2 HCR_TGE)))
   else ret tt) ;;
  on_si_xlat (val_enable_mmu acs_secure_xlat_ctx) ;;
  val_secure_test_dispatch turns.
End Secure.

(** * The image of a Realm (val_realm_framework.c) *)

Record realm_image (R W : Type) : Type := mk_realm_image {
  ri_realm : rl R;
  ri_mem : mem;
  ri_xlat : xlat;
  ri_irq : irq W;
  realm_thread : Z
}.
Arguments mk_realm_image {R W}. Arguments ri_realm {R W}. Arguments ri_mem {R W}. Arguments ri_xlat {R W}.
Arguments ri_irq {R W}. Arguments realm_thread {R W}.

(** What the build and the loader give: the version asked for, the offset of the image,
    the functions at the addresses of the database, and the address of the shared region
    that the common code, a submodule, takes from the width of the IPA space. *)
Class RealmBuild (R W : Type) : Type := {
  RSI_ABI_VERSION : Z;
  val_image_load_offset : Z;
  realm_shared_base : Z → Z;
  run_at : Z → M (realm_image R W) unit
}.

Section RealmImage.
Context {R W H : Type} `{RealmWorld R} `{RMM H} `{Machine W} `{Handlers W} `{ImageLayout} `{XlatArch} `{RealmBuild R W}.
(** [test_list[i].realm_fn], 0 for the null pointer. *)
Variable realm_fns : list Z.

Definition on_ri_realm {A : Type} (m : M (rl R) A) : M (realm_image R W) A :=
  zoom ri_realm (λ r s, mk_realm_image r (ri_mem s) (ri_xlat s) (ri_irq s) (realm_thread s)) m.
Definition on_ri_mem {A : Type} (m : M mem A) : M (realm_image R W) A :=
  zoom ri_mem (λ b s, mk_realm_image (ri_realm s) b (ri_xlat s) (ri_irq s) (realm_thread s)) m.
Definition on_ri_xlat {A : Type} (m : M xlat A) : M (realm_image R W) A :=
  zoom ri_xlat (λ x s, mk_realm_image (ri_realm s) (ri_mem s) x (ri_irq s) (realm_thread s)) m.
Definition on_ri_irq {A : Type} (m : M (irq W) A) : M (realm_image R W) A :=
  zoom ri_irq (λ i s, mk_realm_image (ri_realm s) (ri_mem s) (ri_xlat s) i (realm_thread s)) m.

Definition val_set_running_in_realm_flag : M (realm_image R W) unit :=
  modify (λ s, mk_realm_image (ri_realm s) (ri_mem s) (ri_xlat s) (ri_irq s) 1).

Definition realm_entry_fn (num : Z) : M (realm_image R W) Z := λ s,
  match realm_fns !! Z.to_nat num with
  | Some f => Ok f s
  | None => Fault OutOfBounds
  end.

Definition val_realm_test_dispatch (ipa_width : Z) : M (realm_image R W) unit :=
  let* num := on_ri_mem (val_get_curr_test_num (realm_shared_base ipa_width)) in
  let* fn_ptr := realm_entry_fn num in
  if fn_ptr =? 0 then fail Panic
  else run_at (u64 (fn_ptr + val_image_load_offset)).

(** (val_realm_memory.c) *)
Definition val_realm_add_mmap : M (realm_image R W) unit :=
  let* ipa_width := on_ri_realm val_realm_get_ipa_width in
  on_ri_xlat (mmap_add_ctx acs_realm_xlat_ctx realm_region) ;;
  on_ri_xlat (mmap_add_region_ctx acs_realm_xlat_ctx (plat_shared_region (val_get_shared_region_base_ipa ipa_width))).

(** Returning is entering standby. *)
Definition val_realm_main (fuel : nat) (primary_cpu_boot : bool) : M (realm_image R W) unit :=
  let* st := on_ri_realm (val_realm_init RSI_ABI_VERSION) in
  if truthy st then ret tt
  else
    val_set_running_in_realm_flag ;;
    on_ri_irq (val_set_security_state_flag SEC_STATE_REALM) ;;
    let* ipa_width := on_ri_realm val_realm_get_ipa_width in
    (if primary_cpu_boot then
       val_realm_add_mmap ;;
       on_ri_xlat (val_setup_mmu (realm_ctx_of ipa_width))
     else ret tt) ;;
    on_ri_xlat (val_enable_mmu (realm_ctx_of ipa_width)) ;;
    on_ri_irq (val_irq_setup fuel) ;;
    val_realm_test_dispatch ipa_width.
End RealmImage.

(** * The host (val_host_framework.c) *)

Record host_image (W Y D P : Type) : Type := mk_host_image {
  hi_fw : fw W Y;
  hi_xlat : xlat;
  hi_irq : irq D;
  hi_pcie : pcie P
}.
Arguments mk_host_image {W Y D P}. Arguments hi_fw {W Y D P}. Arguments hi_xlat {W Y D P}. Arguments hi_irq {W Y D P}.
Arguments hi_pcie {W Y D P}.

Section HostImage.
Context {W Y D P : Type} `{RMM W} `{Common Y} `{Build} `{Machine D} `{Handlers D} `{MmioBus P} `{ImageLayout} `{XlatArch}.
Variable base : Z.
Variable test_list : list (test_db_t W Y).

Definition on_hi_fw {A : Type} (m : M (fw W Y) A) : M (host_image W Y D P) A :=
  zoom hi_fw (λ f s, mk_host_image f (hi_xlat s) (hi_irq s) (hi_pcie s)) m.
Definition on_hi_xlat {A : Type} (m : M xlat A) : M (host_image W Y D P) A :=
  zoom hi_xlat (λ x s, mk_host_image (hi_fw s) x (hi_irq s) (hi_pcie s)) m.
Definition on_hi_irq {A : Type} (m : M (irq D) A) : M (host_image W Y D P) A :=
  zoom hi_irq (λ i s, mk_host_image (hi_fw s) (hi_xlat s) i (hi_pcie s)) m.
Definition on_hi_pcie {A : Type} (m : M (pcie P) A) : M (host_image W Y D P) A :=
  zoom hi_pcie (λ p s, mk_host_image (hi_fw s) (hi_xlat s) (hi_irq s) p) m.

Definition val_host_create_pcie_info_table : M (pcie P) unit := val_pcie_create_info_table true.

Definition val_host_main (fuel : nat) (primary_cpu_boot : bool) : M (host_image W Y D P) dispatch_end :=
  on_hi_irq (val_set_security_state_flag SEC_STATE_NS) ;;
  (if primary_cpu_boot then
     on_hi_xlat val_host_add_mmap ;;
     on_hi_xlat (val_setup_mmu acs_host_xlat_ctx) ;;
     on_hi_irq (val_irq_setup fuel) ;;
     on_hi_irq (on_gic (hw (msr HCR_EL2 HCR_TGE)))
   else ret tt) ;;
  on_hi_xlat (val_enable_mmu acs_host_xlat_ctx) ;;
  (if suite_is "all" || suite_is "device_assignment" || suite_is "rhi"
   then on_hi_pcie val_host_create_pcie_info_table else ret tt) ;;
  on_hi_fw (val_host_test_dispatch base test_list primary_cpu_boot).
End HostImage.
