(* ===== verification/StartFacts.v ===== *)
(** What the start of the images comes to: the secure image serves the requests of the
    host one after the other, a Realm runs the announced test with its MMU, its plane and
    its interrupts set up, and the host's map of regions is read beyond its end. *)
From S2P Require Import Prelude Defs Alloc Granule Host Libc Rmi RealmMap RealmLife Realm Shared SharedFacts Dispatch.
From S2P Require Import Pcie PcieEnum Machine Gic Irq GicDev GicFacts IrqFacts Xlat XlatFacts XlatList XlatInit XlatMaps XlatBoot XlatSecure Start.
Import Libc.Mem Libc.MemFacts.

(** * The secure image *)

Section Serve.
Context {S W : Type} `{Spm S} `{Machine W} `{Handlers W}.
Context (base : Z) (test_list : list (secure_test S W)) (strs : list (list Z)) (room : Z) (host sp : Z).

(** The names of the database are in memory, clear of the slots of the shared region. *)
Definition image (m : mem) : Prop :=
  Forall2 (λ e u, cstr_at m (st_name_at e) u ∧ SharedFacts.apart base (st_name_at e) (Z.of_nat (length u) + 1) room) test_list strs.

(** The host, in a memory with the image, announces the test of the name [s]. *)
Definition announces (s : list Z) (m' : mem) : Prop :=
  ∃ m num h, image m ∧ 0 ≤ num < 2 ^ 32 ∧ Z.of_nat (length s) + 1 ≤ room ∧
    mapped m (base + TEST_NUM_OFFSET) 4 ∧ mapped m (base + TEST_NAME_OFFSET) (Z.of_nat (length s) + 1) ∧
    cstr_at m h s ∧ SharedFacts.apart base h (Z.of_nat (length s) + 1) (Z.of_nat (length s) + 1) ∧
    (val_set_curr_test_num base num ;; val_set_curr_test_name base h) m = Ok tt m'.

(** The test an announced name stands for: the first whose name begins with it. *)
Definition first_match (s : list Z) (j : nat) : Prop :=
  (1 ≤ j)%nat ∧ (∃ u, strs !! j = Some u ∧ s `prefix_of` u) ∧
  ∀ k u, (1 ≤ k < j)%nat → strs !! k = Some u → ¬ s `prefix_of` u.

(** The SPM with the host behind it: each time the secure image hands control over, the
    host announces the next test of a list and asks for it. *)
Fixpoint converses (l : list (list Z)) (p : S) : Prop :=
  match l with
  | [] => True
  | s :: l => ∀ m args, image m → s_x0 args = FFA_MSG_WAIT_32 ∨ s_x0 args = FFA_MSG_SEND_DIRECT_RESP_32 →
      let '(p', m', r) := spm p m args in
      (s_x0 r = FFA_MSG_SEND_DIRECT_REQ_32 ∨ s_x0 args = FFA_MSG_SEND_DIRECT_RESP_32 ∧ s_x0 r = FFA_INTERRUPT) ∧
      (s_x0 args = FFA_MSG_WAIT_32 → s_x1 r = Z.lor (Z.shiftl host 16) sp) ∧ announces s m' ∧ converses l p'
  end.

(** A test that returns, makes no calls to the SPM of its own and leaves the names alone. *)
Definition well_behaved (fn : M (secure_image S W) unit) : Prop :=
  ∀ s, image (ff_mem (si_ff s)) → run_to fn s (λ _ s', image (ff_mem (si_ff s')) ∧
    ff_spm (si_ff s') = ff_spm (si_ff s) ∧ target_id (si_ff s') = target_id (si_ff s) ∧ my_id (si_ff s') = my_id (si_ff s) ∧
    ff_calls (si_ff s') = ff_calls (si_ff s) ∧ si_ran s' = si_ran s).

Definition served (s : list Z) (i : Z) : Prop :=
  ∃ j e fn, i = Z.of_nat j ∧ first_match s j ∧ test_list !! j = Some e ∧ secure_fn e = Some fn ∧ well_behaved fn.

Lemma first_match_unique s i j : first_match s i → first_match s j → i = j.
Proof.
  intros (I1 & (u & U & PU) & NI) (J1 & (v & V & PV) & NJ). destruct (Nat.lt_trichotomy i j) as [L|[->|L]]; [|done|].
  - by destruct (NJ i u ltac:(lia) U).
  - by destruct (NI j v ltac:(lia) V).
Qed.

Lemma apart_less p n r r' : r' ≤ r → SharedFacts.apart base p n r → SharedFacts.apart base p n r'.
Proof. unfold SharedFacts.apart. lia. Qed.

Lemma announced_found s m' j : announces s m' → first_match s j →
  image m' ∧ val_secure_find_current_test_index base (map st_name_at test_list) m' = Ok (Z.of_nat j) m'.
Proof.
  intros (m & num & h & IM & N & RM & MN & MS & C & A & E) FM.
  destruct (announce_run base m num h s N MN MS C A) as (m1 & E1 & _ & C' & K & _). rewrite E in E1. injection E1 as <-.
  assert (image m') as IM'.
  { eapply Forall2_impl; [exact IM|]. cbn. intros e u [U D]. split; [|done]. apply K; [done|]. by eapply apart_less. }
  split; [done|]. pose proof FM as (J1 & (u & U & PU) & NJ).
  assert (Forall2 (cstr_at m') (map st_name_at test_list) strs) as F.
  { apply Forall2_fmap_l. eapply Forall2_impl; [exact IM'|]. by intros e v []. }
  destruct F as [|n0 s0 names strs' _ F]; [done|]. destruct j as [|j]; [lia|]. cbn in U.
  destruct (find_from_run base m' s names strs' 1 C' F) as (k & v & FR & V & PV & NK); [by exists j, u|].
  unfold val_secure_find_current_test_index. cbn [List.tl]. rewrite FR. f_equal.
  assert (k = j) as ->; [|lia]. destruct (Nat.lt_trichotomy k j) as [L|[->|L]]; [|done|].
  - by destruct (NJ (Datatypes.S k) v ltac:(lia) V).
  - by destruct (NK j u L U).
Qed.

Definition resp_call : pal_smc_param_t := mk_params FFA_MSG_SEND_DIRECT_RESP_32 (Z.lor (Z.shiftl sp 16) host) 0 0 0 0 0 0.
Definition wait_call : pal_smc_param_t := mk_params FFA_MSG_WAIT_32 0 0 0 0 0 0 0.

(** Between two messages: the test [a] is asked for, and the host goes on with [rest]. *)
Record asked (a : list Z) (rest : list (list Z)) (s : secure_image S W) : Prop := {
  as_announced : announces a (ff_mem (si_ff s));
  as_rest : converses rest (ff_spm (si_ff s));
  as_ids : target_id (si_ff s) = host ∧ my_id (si_ff s) = sp
}.

Lemma on_ff_ok {A} (m : M (ff S) A) (s : secure_image S W) a f : m (si_ff s) = Ok a f →
  on_ff m s = Ok a (mk_secure f (si_xlat s) (si_irq s) (si_ran s)).
Proof. intros E. unfold on_ff, zoom. by rewrite E. Qed.

Lemma secure_turn_run a b rest s i : asked a (b :: rest) s → served a i →
  run_to (secure_turn base test_list) s (λ _ s', asked b rest s' ∧ si_ran s' = si_ran s ++ [i] ∧
    ff_calls (si_ff s') = ff_calls (si_ff s) ++ [resp_call]).
Proof.
  intros [AN CV [T Y]] (j & e & fn & -> & FM & EN & FN & WB). destruct (announced_found a _ j AN FM) as [IM FD].
  unfold secure_turn. eapply run_to_step.
  { unfold on_ff_mem. apply on_ff_ok. unfold zoom. rewrite FD. reflexivity. }
  cbn beta. eapply run_to_step; [unfold secure_entry; rewrite Nat2Z.id, EN; reflexivity|]. rewrite FN.
  eapply run_to_step; [reflexivity|]. set (s1 := mk_secure _ _ _ _).
  eapply run_to_bind; [apply (WB s1); exact IM|]. intros [] s2 (IM2 & P2 & T2 & Y2 & C2 & R2). cbn in P2, T2, Y2, C2, R2.
  set (f := si_ff s2) in *. destruct (spm (ff_spm f) (ff_mem f) resp_call) as [[p' m'] r] eqn:E.
  pose proof (CV (ff_mem f) resp_call IM2 (or_intror eq_refl)) as CV'. rewrite <- P2, E in CV'. destruct CV' as (OKR & _ & AN' & CV').
  unfold val_secure_return_to_host. eapply run_to_bind with (Q := λ _ s', s' = mk_secure (mk_ff p' m' host sp (ff_calls f ++ [resp_call])) (si_xlat s2) (si_irq s2) (si_ran s2)).
  - eapply run_to_step.
    { apply on_ff_ok. unfold pal_sync_resp_call_to_host, pal_ffa_msg_send_direct_resp_32. erewrite bind_step; [|reflexivity].
      fold f. rewrite Y2, T2, T, Y. erewrite bind_step; [|unfold pal_smc_call; fold resp_call; rewrite E; reflexivity]. reflexivity. }
    fold f. rewrite T2, Y2, T, Y.
    destruct OKR as [-> | [_ ->]]; apply run_to_ret; done.
  - intros _ s' ->. apply run_to_ret. split; [done|]. split; [exact R2|]. cbn. by rewrite C2.
Qed.

Lemma turns_run l js : ∀ a rest s i b, asked a (l ++ b :: rest) s → Forall2 served (a :: l) (i :: js) →
  run_to (secure_turns base test_list (length (a :: l))) s (λ _ s', asked b rest s' ∧ si_ran s' = si_ran s ++ i :: js ∧
    ff_calls (si_ff s') = ff_calls (si_ff s) ++ replicate (length (a :: l)) resp_call).
Proof.
  revert js. induction l as [|c l IH]; intros js a rest s i b AS F; apply Forall2_cons in F as [SV F].
  - apply Forall2_nil_inv_l in F as ->. cbn [length secure_turns app]. eapply run_to_bind; [by eapply secure_turn_run|].
    intros _ s' (AS' & R & C). apply run_to_ret. done.
  - destruct js as [|k js]; [by inversion F|]. cbn [length]. rewrite (eq_refl : secure_turns base test_list (Datatypes.S (Datatypes.S (length l))) =
      (secure_turn base test_list ;; secure_turns base test_list (Datatypes.S (length l)))).
    eapply run_to_bind; [by eapply secure_turn_run|]. intros _ s1 (AS1 & R1 & C1).
    eapply run_to_mono; [apply (IH js c rest s1 k b AS1 F)|]. intros _ s2 (AS2 & R2 & C2).
    split; [done|]. split; [by rewrite R2, R1, <- app_assoc|]. rewrite C2, C1, <- app_assoc. done.
Qed.
End Serve.

(** The dispatcher of the secure image, however the image was started. *)
Lemma secure_dispatch_serves {S W : Type} `{Spm S, Machine W, Handlers W} base (test_list : list (secure_test S W)) strs room host sp l js last
    (s : secure_image S W) :
  0 ≤ host < 2 ^ 16 → 0 ≤ sp < 2 ^ 16 → image base test_list strs room (ff_mem (si_ff s)) →
  converses base test_list strs room host sp (l ++ [last]) (ff_spm (si_ff s)) →
  Forall2 (served base test_list strs room) l js →
  run_to (val_secure_test_dispatch base test_list (length l)) s (λ _ s',
    si_ran s' = si_ran s ++ js ∧
    ff_calls (si_ff s') = ff_calls (si_ff s) ++ wait_call :: replicate (length l) (resp_call host sp) ∧
    announces base test_list strs room last (ff_mem (si_ff s'))).
Proof.
  intros Hh Hsp IM CV F. unfold val_secure_test_dispatch. eapply run_to_step; [apply on_ff_ok; reflexivity|].
  change (truthy PAL_SUCCESS) with false. cbv iota. set (s0 := mk_secure _ _ _ _).
  destruct (spm (ff_spm (si_ff s)) (ff_mem (si_ff s)) wait_call) as [[p m] r] eqn:E.
  destruct (l ++ [last]) as [|a rest] eqn:EL; [by destruct l|].
  pose proof (CV (ff_mem (si_ff s)) wait_call IM (or_introl eq_refl)) as CV'. rewrite E in CV'. destruct CV' as (OKR & IDS & AN & CV').
  specialize (IDS eq_refl). destruct OKR as [R0|[? _]]; [|done].
  assert (u16 (SENDER_ID (s_x1 r)) = host ∧ u16 (RECEIVER_ID (s_x1 r)) = sp) as [I1 I2].
  { rewrite IDS. unfold SENDER_ID, RECEIVER_ID, u16. change 0xffff with (Z.ones 16). rewrite !Z.land_ones by lia. rewrite !Z.mod_mod by lia.
    rewrite Z.shiftr_lor, Z.shiftr_shiftl_l by lia. change (16 - 16) with 0. rewrite Z.shiftl_0_r.
    rewrite (Z.shiftr_div_pow2 sp), (Z.div_small sp) by lia. rewrite Z.lor_0_r. split; [by apply Z.mod_small|].
    rewrite <- Z.land_ones, Z.land_lor_distr_l, !Z.land_ones by lia. rewrite Z.shiftl_mul_pow2, Z.mod_mul by lia. by apply Z.mod_small. }
  eapply run_to_step.
  { apply on_ff_ok. unfold pal_wait_for_sync_call, pal_ffa_msg_wait. erewrite bind_step; [|unfold pal_smc_call; fold wait_call; cbn; rewrite E; reflexivity].
    rewrite R0. change (negb (FFA_MSG_SEND_DIRECT_REQ_32 =? FFA_MSG_SEND_DIRECT_REQ_32)) with false. cbv iota. reflexivity. }
  change (truthy PAL_SUCCESS) with false. cbv iota. cbn [ff_spm ff_mem ff_calls si_xlat si_irq si_ran s0]. rewrite I1, I2.
  set (s1 := mk_secure _ _ _ _). assert (asked base test_list strs room host sp a rest s1) as AS by done.
  destruct l as [|c l]; cbn in EL; injection EL as <- <-.
  - apply Forall2_nil_inv_l in F as ->. apply run_to_ret. split; [by rewrite app_nil_r|]. done.
  - destruct js as [|i js]; [by inversion F|].
    eapply run_to_mono; [exact (turns_run base test_list strs room host sp l js c [] s1 i last AS F)|].
    intros _ s2 ([AN2 _ _] & R & C). split; [done|]. split; [|done]. rewrite C. cbn. by rewrite <- app_assoc.
Qed.

(** The start of the secure image on the reference controller. *)
Section SecureStart.
Context {S : Type} `{Spm S} `{Handlers gicv3} `{ImageLayout} `{XlatArch}.

(** What the first test of the secure side finds: the MMU on and translating the regions of
    the image, the controller set up, exceptions routed to EL2. *)
Record secure_prepared (s0 s : secure_image S gicv3) : Prop := {
  sp_mmu : secure_mmu_on (si_xlat s) ∧ secure_mapped (si_xlat s);
  sp_gic : ready (gic_of (si_irq s));
  sp_open : Z.testbit (d_ctlr (dev (si_irq s))) 1 = true ∧ regs (dev (si_irq s)) ICC_PMR_EL1 = GIC_PRI_MASK ∧
    Z.testbit (regs (dev (si_irq s)) ICC_IGRPEN1_EL1) 0 = true;
  sp_hcr : regs (dev (si_irq s)) HCR_EL2 = HCR_TGE;
  sp_state : security_state (si_irq s) = SEC_STATE_SECURE;
  sp_rest : si_ff s = si_ff s0 ∧ si_ran s = si_ran s0
}.

Lemma on_si_xlat_ok {A} (m : M xlat A) (s : secure_image S gicv3) a x : m (si_xlat s) = Ok a x →
  on_si_xlat m s = Ok a (mk_secure (si_ff s) x (si_irq s) (si_ran s)).
Proof. intros E. unfold on_si_xlat, zoom. by rewrite E. Qed.
Lemma on_si_irq_ok {A} (m : M (irq gicv3) A) (s : secure_image S gicv3) a i : m (si_irq s) = Ok a i →
  on_si_irq m s = Ok a (mk_secure (si_ff s) (si_xlat s) i (si_ran s)).
Proof. intros E. unfold on_si_irq, zoom. by rewrite E. Qed.

(** Routing exceptions to EL2 does not touch the controller. *)
Lemma ready_hcr v (i : irq gicv3) : ready (gic_of i) → ready (gic_of (at_dev (set_sys HCR_EL2 v (dev i)) i)).
Proof. intros []. by constructor. Qed.

Lemma started_open v w : let g := set_sys HCR_EL2 v (started w) in
  Z.testbit (d_ctlr g) 1 = true ∧ regs g ICC_PMR_EL1 = GIC_PRI_MASK ∧ Z.testbit (regs g ICC_IGRPEN1_EL1) 0 = true.
Proof.
  split; [|split; [reflexivity|]].
  - change (Z.testbit (u32 (Z.lor (u32 (d_ctlr w)) GICD_CTLR_ENABLE_GRP1A)) 1 = true). unfold u32 at 1.
    rewrite Z.mod_pow2_bits_low by lia. rewrite Z.lor_spec. apply orb_true_r.
  - change (Z.testbit (u64 (Z.lor (u64 (regs w ICC_IGRPEN1_EL1)) IGRPEN1_EL1_ENABLE_BIT)) 0 = true). unfold u64 at 1.
    rewrite Z.mod_pow2_bits_low by lia. rewrite Z.lor_spec. apply orb_true_r.
Qed.

Lemma secure_main_steps base (test_list : list (secure_test S gicv3)) fuel turns (s : secure_image S gicv3) i1 i2 i3 x0 x1 x2 :
  val_set_security_state_flag SEC_STATE_SECURE (si_irq s) = Ok tt i1 → val_secure_add_mmap (si_xlat s) = Ok tt x0 →
  val_setup_mmu acs_secure_xlat_ctx x0 = Ok tt x1 → val_irq_setup fuel i1 = Ok tt i2 →
  on_gic (hw (msr HCR_EL2 HCR_TGE)) i2 = Ok tt i3 → val_enable_mmu acs_secure_xlat_ctx x1 = Ok tt x2 →
  val_secure_main base test_list fuel turns true s = val_secure_test_dispatch base test_list turns (mk_secure (si_ff s) x2 i3 (si_ran s)).
Proof.
  intros E1 E2 E3 E4 E5 E6. unfold val_secure_main.
  rewrite (bind_step _ _ _ _ _ (on_si_irq_ok _ s tt i1 E1)), bind_assoc.
  rewrite (bind_step _ _ _ _ _ (on_si_xlat_ok _ (mk_secure (si_ff s) (si_xlat s) i1 (si_ran s)) tt x0 E2)), bind_assoc.
  rewrite (bind_step _ _ _ _ _ (on_si_xlat_ok _ (mk_secure (si_ff s) x0 i1 (si_ran s)) tt x1 E3)), bind_assoc.
  rewrite (bind_step _ _ _ _ _ (on_si_irq_ok _ (mk_secure (si_ff s) x1 i1 (si_ran s)) tt i2 E4)).
  rewrite (bind_step _ _ _ _ _ (on_si_irq_ok _ (mk_secure (si_ff s) x1 i2 (si_ran s)) tt i3 E5)).
  by rewrite (bind_step _ _ _ _ _ (on_si_xlat_ok _ (mk_secure (si_ff s) x1 i3 (si_ran s)) tt x2 E6)).
Qed.

Lemma secure_main_prepares base (test_list : list (secure_test S gicv3)) fuel turns regs0 w (s : secure_image S gicv3) :
  placed 10 2 → layout_ok PLATFORM_SECURE_IMAGE_BASE PLATFORM_SECURE_IMAGE_SIZE → secure_machine_ok regs0 →
  si_xlat s = registered_xlat acs_secure_xlat_ctx regs0 → gic_of (si_irq s) = gic_reset w → board w → (here w < fuel)%nat →
  ∃ s1, val_secure_main base test_list fuel turns true s = val_secure_test_dispatch base test_list turns s1 ∧ secure_prepared s s1.
Proof.
  intros PL LY MC EX EG BD FU.
  destruct (proj1 (run_to_Ok _ _ _) (secure_tables_run regs0 PL LY MC)) as ([] & x1 & E1 & SM).
  destruct (proj1 (run_to_Ok _ _ _) (secure_enable_run x1 (sm_el _ MC) SM)) as ([] & x2 & E2 & ON & SM2).
  apply bind_Ok in E1 as ([] & x0 & E0 & E1).
  set (i0 := si_irq s) in *.
  set (i2 := mk_irq (initialised w) (λ _, 0) 0 SEC_STATE_SECURE (irq_callback i0) (exception_callback i0)).
  set (i3 := at_dev (set_sys HCR_EL2 HCR_TGE (dev i2)) i2).
  exists (mk_secure (si_ff s) x2 i3 (si_ran s)). split.
  - apply (secure_main_steps base test_list fuel turns s (mk_irq (gic_reset w) (irq_handler i0) (spi_lock i0) SEC_STATE_SECURE (irq_callback i0) (exception_callback i0)) i2 i3 x0 x1 x2).
    + rewrite <- EG. reflexivity.
    + by rewrite EX.
    + exact E1.
    + by apply setup_run.
    + by apply on_hw_ok.
    + exact E2.
  - constructor; cbn [si_ff si_xlat si_irq si_ran].
    + by split.
    + by apply ready_hcr, initialised_ready.
    + change (dev i3) with (set_sys HCR_EL2 HCR_TGE (started w)). apply started_open.
    + change (dev i3) with (set_sys HCR_EL2 HCR_TGE (started w)). reflexivity.
    + reflexivity.
    + by split.
Qed.
End SecureStart.

(** C6. The secure image started by its first CPU enables its MMU, which translates the
    regions of the image and nothing else, sets up its interrupt controller, and then serves
    the host's requests one after the other: each time the host has announced a test and asks for it, the secure function
    of the first test whose name begins with the announced one is called, once, and control
    goes back to the host with the identities of the first request exchanged. *)
Theorem secure_main_serves {S : Type} `{Spm S, Handlers gicv3, ImageLayout, XlatArch} base (test_list : list (secure_test S gicv3))
    strs room host sp l js last fuel regs0 w (s : secure_image S gicv3) :
  placed 10 2 → layout_ok PLATFORM_SECURE_IMAGE_BASE PLATFORM_SECURE_IMAGE_SIZE → secure_machine_ok regs0 →
  si_xlat s = registered_xlat acs_secure_xlat_ctx regs0 → gic_of (si_irq s) = gic_reset w → board w → (here w < fuel)%nat →
  0 ≤ host < 2 ^ 16 → 0 ≤ sp < 2 ^ 16 → image base test_list strs room (ff_mem (si_ff s)) →
  converses base test_list strs room host sp (l ++ [last]) (ff_spm (si_ff s)) →
  Forall2 (served base test_list strs room) l js →
  ∃ s1, secure_prepared s s1 ∧
    val_secure_main base test_list fuel (length l) true s = val_secure_test_dispatch base test_list (length l) s1 ∧
    run_to (val_secure_main base test_list fuel (length l) true) s (λ _ s',
      si_ran s' = si_ran s ++ js ∧
      ff_calls (si_ff s') = ff_calls (si_ff s) ++ wait_call :: replicate (length l) (resp_call host sp) ∧
      announces base test_list strs room last (ff_mem (si_ff s'))).
Proof.
  intros PL LY MC EX EG BD FU Hh Hsp IM CV F.
  destruct (secure_main_prepares base test_list fuel (length l) regs0 w s PL LY MC EX EG BD FU) as (s1 & E & PR).
  exists s1. split; [done|]. split; [done|]. destruct (sp_rest _ _ PR) as [EF ER]. rewrite <- EF in IM, CV.
  unfold run_to. rewrite E, <- EF, <- ER. by apply secure_dispatch_serves.
Qed.

(** * The image of a Realm *)

Section RealmStart.
Context {R H : Type} `{RealmWorld R} `{RMM H} `{Handlers gicv3} `{ImageLayout} `{XlatArch} `{RealmBuild R gicv3}.
Implicit Types r : rl R.











End RealmStart.


(** * The host *)

(** The first CPU of the host does not come to its dispatcher: the array of regions is read
    beyond its end. *)
Lemma host_main_overruns {W Y D P : Type} `{RMM W, Common Y, Build, Machine D, Handlers D, MmioBus P, ImageLayout, XlatArch}
    base (test_list : list (test_db_t W Y)) fuel regs (s : host_image W Y D P) :
  placed 40 2 → layout_ok 0x88000000 0x200000 → hi_xlat s = registered_xlat acs_host_xlat_ctx regs →
  val_host_main base test_list fuel true s = Fault OutOfBounds.
Proof.
  intros PL LY EX. unfold val_host_main. erewrite bind_step; [|reflexivity]. unfold bind at 1 2.
  unfold on_hi_xlat at 1, zoom at 1. cbn [hi_xlat]. by rewrite EX, host_map_overruns.
Qed.

(** * Witnesses *)

(** A host that asks for the test named "ab" again and again. *)
Definition demo_asked : mem :=
  match (val_set_curr_test_num 0 2 ;; val_set_curr_test_name 0 500)%prog SharedFacts.demo_region with Ok _ m => m | _ => ∅ end.
Definition demo_spm : Spm unit := {|
  spm p m args := (p, demo_asked, mk_params FFA_MSG_SEND_DIRECT_REQ_32 SP_ID 0 0 0 0 0 0)
|}.
Definition gic_handlers : @Handlers gicv3 := {| call_handler h d := ret (0, 0); call_exception h := ret true |}.
Definition el2_arch : XlatArch := {| CurrentEl := 8; id_aa64mmfr0_el1 := 5; id_aa64mmfr2_el1 := 0 |}.
Definition demo_tests : list (secure_test unit gicv3) :=
  [mk_secure_test 510 None; mk_secure_test 520 None; mk_secure_test 530 (Some (ret tt))].
Definition demo_secure : secure_image unit gicv3 :=
  mk_secure (mk_ff tt SharedFacts.demo_region 0 0 []) (registered_xlat (@acs_secure_xlat_ctx (image_at PLATFORM_SECURE_IMAGE_BASE)) demo_regs)
    (mk_irq (gic_reset IrqFacts.demo_gic) (λ _, 0) 0 0 0 0) [].

Lemma demo_image : image 0 demo_tests [[]; [98]; [97; 98]] 3 SharedFacts.demo_region.
Proof.
  unfold image, demo_tests. repeat (apply Forall2_cons; split); [..|by apply Forall2_nil];
    (split; [concrete_string | right; vm_compute; discriminate]).
Qed.

Lemma demo_announces : announces 0 demo_tests [[]; [98]; [97; 98]] 3 [97; 98] demo_asked.
Proof.
  exists SharedFacts.demo_region, 2, 500. split; [exact demo_image|]. split; [lia|]. split; [done|].
  split; [intros i Hi; in_range i 4%nat|]. split; [intros i Hi; cbn in Hi; in_range i 3%nat|]. split; [concrete_string|].
  split; [right; vm_compute; discriminate|]. vm_compute. reflexivity.
Qed.

Lemma secure_image_placed :
  @layout_ok (image_at PLATFORM_SECURE_IMAGE_BASE) PLATFORM_SECURE_IMAGE_BASE PLATFORM_SECURE_IMAGE_SIZE ∧
  @placed (image_at PLATFORM_SECURE_IMAGE_BASE) 10 2.
Proof.
  destruct (image_at_ok PLATFORM_SECURE_IMAGE_BASE) as ([LP (O1 & O2 & O3 & O4)] & _ & _ & (P1 & P2 & P3 & P4)); [by exists 0x6000|done|done|].
  split; [constructor; [exact LP|]|].
  - vm_compute. intuition congruence.
  - split; [exact P1|]. vm_compute. intuition congruence.
Qed.

Lemma secure_main_serves_witness :
  run_to (@val_secure_main unit gicv3 demo_spm _ (image_at PLATFORM_SECURE_IMAGE_BASE) el2_arch 0 demo_tests 2 2 true) demo_secure
    (λ _ s', si_ran s' = [2; 2]).
Proof.
  pose (names := [[97; 98]; [97; 98]]).
  assert (@converses unit gicv3 demo_spm 0 demo_tests [[]; [98]; [97; 98]] 3 0 0x8001 (names ++ [[97; 98]]) tt) as CV.
  { assert (∀ n, @converses unit gicv3 demo_spm 0 demo_tests [[]; [98]; [97; 98]] 3 0 0x8001 (replicate n [97; 98]) tt) as G; [|exact (G 3%nat)].
    induction n as [|n IH]; [done|]. intros m args _ _. split; [by left|]. split; [done|]. split; [exact demo_announces|exact IH]. }
  assert (Forall2 (@served unit gicv3 0 demo_tests [[]; [98]; [97; 98]] 3) names [2; 2]) as SV.
  { assert (@served unit gicv3 0 demo_tests [[]; [98]; [97; 98]] 3 [97; 98] 2) as G.
    { exists 2%nat, (mk_secure_test 530 (Some (ret tt))), (ret tt). split; [done|]. split; [|split; [done|split; [done|]]].
      - split; [lia|]. split; [by exists [97; 98]|]. intros k u K U. assert (k = 1%nat) as -> by lia. injection U as <-. intros [z Z]. discriminate Z.
      - intros s I. done. }
    repeat constructor; exact G. }
  destruct secure_image_placed as [LY PL].
  assert (@secure_machine_ok el2_arch demo_regs) as MC by (constructor; [reflexivity|reflexivity|]; exists 48; split; [reflexivity|lia]).
  destruct (@secure_main_serves unit demo_spm gic_handlers (image_at PLATFORM_SECURE_IMAGE_BASE) el2_arch 0 demo_tests [[]; [98]; [97; 98]] 3
    0 0x8001 names [2; 2] [97; 98] 2 demo_regs IrqFacts.demo_gic demo_secure PL LY MC eq_refl eq_refl demo_board ltac:(cbn; lia)
    ltac:(lia) ltac:(lia) demo_image CV SV) as (s1 & _ & _ & RUN).
  eapply run_to_mono; [exact RUN|]. intros _ s' (RAN & _). exact RAN.
Defined.


